(* ===== verification/_CoqProject ===== *)
-Q . S2P
Prelude.v
Pgalloc.v
PgallocMap.v
PgallocInv.v
PgallocThms.v
PageIface.v
PgallocSpec.v
CString.v
CStringThms.v
CStringSpec.v
Queue.v
QueueThms.v
QueueSingly.v
QueueSpec.v
Strtoul.v
Kprintf.v
KprintfThms.v
KprintfSpec.v
CText.v
Memalloc.v
MemallocThms.v
MemallocInv.v
MemallocSpec.v
RumpMem.v
LfRing.v
LfRingSpec.v
LfQueue.v
Mutex.v
RwLock.v
Sched.v
SchedSpec.v
Cv.v
Lwp.v
Clock.v
Intr.v
Gnttab.v
GnttabSpec.v
Gntmap.v
Events.v
NetRing.v
Backend.v
Frontend.v
Hello.v
Jsmn.v
JsmnThms.v
JsmnCount.v
JsmnSpec.v
Parseargs.v
Config.v
ConfigThms.v
ConfigSpec.v
Mman.v
Timer.v
Wait.v
ByteRing.v
Console.v
SpWire.v
SpServer.v
SpSafe.v
SpMain.v
SpUrl.v
Paging.v
PagingThms.v
PagingOps.v
PagingSpec.v
Ioremap.v
Evtdev.v
EvtdevThms.v
EvtdevSpec.v
Blk.v
BlkSpec.v
Netfront.v
NetfrontInv.v
NetfrontSpec.v
Xenbus.v
XenbusThms.v
XenbusReader.v
XenbusSpec.v
Xenstore.v
XenstoreSpec.v
