(* ===== verification/Prelude.v ===== *)
(** * A verification library for the LibrettOS network stack

    The program is a rumprun unikernel platform: a small kernel (memory,
    threads, interrupts, events) under NetBSD's rump kernel, and on it the
    network server and the application front ends that exchange packets over
    grant-shared memory; the same kernel also runs as a Xen guest with page
    tables, XenStore, a console and block devices of its own.  This library
    translates the program's own logic from C into executable Rocq functions
    and proves what makes each part correct.

    ** How the code is modelled

    A C function is a function in the monad [M] of this file: explicit state,
    [Halted] for a failed assertion, [bmk_platform_halt] or an access outside an
    object, [NoFuel] for a loop cut off or a wait that nothing ends.  Machine
    integers are [Z] with the reductions [u64], [u32], [s32] ... written where C
    reduces.  Loops are [loopM], bounded by 2^64 rounds: every loop of the code
    has a variant that fits a machine word, and the theorems are total ([wp]
    excludes both [Halted] and [NoFuel]; [wpx] allows one named reason to halt),
    so they include termination within that bound.  Protocols between concurrent
    parties (mutexes, wake-ups, event delivery, joins, the pool of workers) are
    step functions, one atomic access per step, with reachability as an inductive
    relation and invariants by induction on it; what a sleeping caller may find
    when it wakes is a script in the state.

    ** The parts

    - Memory.  Pgalloc* model lib/libbmk_core/pgalloc.c (buddy allocator with
      its bitmap), Memalloc* lib/libbmk_core/memalloc.c (size-class allocator
      with headers inside the blocks), RumpMem the memory hypercalls of
      lib/libbmk_rumpuser/rumpuser_mem.c, Mman lib/librumpkern_mman/sys_mman.c.
      PageIface is the interface between them: a class with the laws of a page
      allocator; Memalloc, RumpMem, Mman, Gntmap, Sched and Paging are proved
      against it and PgallocSpec discharges it.
    - Strings, numbers and text.  CString* model bmk_string.c on a byte memory
      with checked accesses, Strtoul strtoul.c, Kprintf* the formatted output of
      subr_prf.c, Jsmn* the JSON tokenizer jsmn.c, Parseargs parseargs.c and
      Config* the configuration reader lib/librumprun_base/config.c.
    - Queues.  Queue* model include/bmk-core/queue.h on a memory of pointers,
      LfRing* include/bmk-core/lfring.h at word width, LfQueue lfqueue.h with
      its stamped words.
    - Threads.  Sched* model lib/libbmk_core/sched.c; Mutex, RwLock and Cv the
      synchronization of lib/libbmk_rumpuser/rumpuser_synch.c; Lwp the parking
      of lib/librumprun_base/_lwp.c; Wait mini-os's wait queues.
    - Machine and hypervisor.  Clock and Timer model platform/hw/clock_subr.c and
      platform/hw/arch/x86/clock.c, Intr platform/hw/intr.c; Gnttab*, Gntmap and
      Events the grant table, the grant mapper and the event channels of
      platform/hw/xen.
    - Network.  NetRing models the packet rings shared by
      platform/hw/xen/frontend.c and backend.c and the sleep protocol of their
      receivers, Backend the server (dispatch of frames, connection of
      applications), Frontend the granting and revoking of rings, Hello the
      reconnection and switch threads.
    - The Xen guest.  Paging* model the page tables of
      platform/xen/xen/arch/x86/mm.c over any page allocator, Ioremap device
      memory on top of them, Xenbus* and Xenstore* the XenStore client
      platform/xen/xen/xenbus/xenbus.c, ByteRing and Console the console ring,
      Evtdev* the event channel device librumpxen_xendev/evtdev.c, Blk* the block
      front end platform/xen/xen/blkfront.c under the rump kernel's block
      hypercalls platform/xen/rumphyper_bio.c, Netfront* the network front end
      platform/xen/xen/netfront.c with its backend and its interrupts.
    - Remote system calls.  SpWire models the framing of
      lib/librumprun_base/sysproxy.c, SpServer and SpMain its connections,
      requests, workers and main loop, SpSafe their invariant, SpUrl its locators
      and its start and stop.

    A file X.v holds the definitions of a part, XThms.v (XInv.v, XMap.v, XOps.v,
    ...) the lemmas, XSpec.v the theorems with concrete instances of them; a part
    of one file holds all three.

    ** What the theorems show

    - Safety of clients: every legal sequence of calls of the page allocator, the
      byte allocator, the memory hypercalls, the grant table and the mapping calls
      returns, and what the client holds is disjoint, aligned and intact; the
      system call server stops on no other events than its theorem lists, whatever
      its clients send and whichever of its own sends fail; block requests are
      answered once each, through a full ring too, and their grants come back but
      for those the backend was found to be using; network frames cross once, in order, in pages of their own
      (PgallocSpec, MemallocSpec, RumpMem, GnttabSpec, Mman, SpSafe, SpMain,
      BlkSpec, NetfrontSpec).
    - Refinement: the pointer queues are sequences, the index ring a bounded FIFO,
      the wait queue a queue with a mark, the packet rings a queue of packets
      (QueueSpec, LfRingSpec, LfQueue, NetRing); events fired reach their readers
      in order (EvtdevSpec).
    - Functional behaviour on every branch: allocation, freeing, reallocation,
      copying, number parsing, formatting, configuration, timeouts and selection
      of threads, dispatch of frames, mapping of grants (all or nothing), page
      tables down to the entry, device memory, calendar conversion.
    - Round trips: JSON values through the tokenizer, numbers through the printer
      and the parser, messages through the XenStore rings, frames through
      sockets, grant and revoke, map and unmap.
    - Bounds: the event ring's last good index, the segments of a block request,
      formatted output within its buffer, the arrays of the locator parser and
      the port numbers they have no room for.
    - Concurrency: mutual exclusion and no lost wake-up for mutexes, joins,
      interrupts, event channels, packet receivers, workers.
    - Errors: the defects found are theorems or lemmas too (the comparison of the
      last character, the size overflow, the off-by-one of backend_connect, the
      event ring's index, the reopened block device, ...).

    ** Parameters

    Xen's flag bits, ring layouts and hypercalls, the platform's clock and the rump
    kernel are not part of the repository: they are arguments of the definitions or
    classes, with their documented behaviour as named laws, and every theorem that
    has one is instantiated concretely.  The other parties act in between: XenStore's
    other clients change the store before any answer ([Xenstored]), a domain takes and
    lets go of a grant while it is being revoked (Gnttab), a backend answers while a
    request sleeps (Blk, Netfront), a client's socket refuses what is sent (SpServer).

    ** Not modelled

    - Assembly, boot code, exception entry and context switching: no C semantics to
      translate.
    - ifconfig, and the rest of what is built in unchanged from NetBSD.
    - Device registers: consoles, PCI configuration, the interrupt controller.
    - The network interface drivers and the XenStore and privileged command device
      nodes: code against the mbufs, interfaces and files of the NetBSD kernel.
    - The PCI front end of the Xen guest and the connecting of its block and
      network front ends: conversations with another domain over structures that
      Xen's headers define.
    - platform/xen's own copies of the event channels, the grant table, the grant
      mapper and the paravirtual clock, which differ from the modelled ones of
      platform/hw in locks and sizes.
    - Of sched.c the architecture's thread start and TLS, of mm.c the boot-time
      construction and the exchange of contiguous memory, of sysproxy.c the
      lock of the sending side.
    - The concurrent linearizability of the lock-free rings, which are modelled for
      one caller at a time, and weak memory: an access is one step. *)

From stdpp Require Export prelude strings list gmap.
From Stdlib Require Export ZArith Lia.
#[global] Open Scope Z_scope.

(** ** Machine integers

    A [w]-bit unsigned quantity is a [Z] in [0, 2^w); every C operation that
    can leave that range is followed by an explicit reduction. *)
Definition u64 (x : Z) : Z := x mod 2 ^ 64.
Definition u32 (x : Z) : Z := x mod 2 ^ 32.
Definition u16 (x : Z) : Z := x mod 2 ^ 16.
Definition u8 (x : Z) : Z := x mod 2 ^ 8.
Definition swrap (w x : Z) : Z := (x + 2 ^ (w - 1)) mod 2 ^ w - 2 ^ (w - 1).
Definition s64 (x : Z) : Z := swrap 64 x.
Definition s32 (x : Z) : Z := swrap 32 x.

(** The length of a list, as C computes with it. *)
Abbreviation zlen l := (Z.of_nat (length l)).

(** ** Outcomes

    [Halted] is [bmk_platform_halt], a failed [bmk_assert] or an access the C
    code may not make; [NoFuel] is a loop cut off by its iteration bound. *)
Inductive res (A : Type) : Type :=
| Done (a : A)
| Halted (why : string)
| NoFuel.
Arguments Done {A} a.
Arguments Halted {A} why%_string.
Arguments NoFuel {A}.

(** ** The state and halting monad *)
Definition M (St A : Type) : Type := St -> res (A * St).

Definition cret {St A} (a : A) : M St A := fun s => Done (a, s).
Definition cbind {St A B} (m : M St A) (k : A -> M St B) : M St B :=
  fun s => match m s with
           | Done (a, s') => k a s'
           | Halted w => Halted w
           | NoFuel => NoFuel
           end.
Definition mget {St} : M St St := fun s => Done (s, s).
Definition mput {St} (s : St) : M St unit := fun _ => Done (tt, s).
Definition modify {St} (f : St -> St) : M St unit := fun s => Done (tt, f s).
Definition gets {St A} (f : St -> A) : M St A := fun s => Done (f s, s).
Definition mhalt {St A} (why : string) : M St A := fun _ => Halted why.
Definition mnofuel {St A} : M St A := fun _ => NoFuel.
Definition massert {St} (b : bool) (why : string) : M St unit :=
  if b then cret tt else mhalt why.
(** [mopt o why]: the value of [o], or a halt: a checked array access. *)
Definition mopt {St A} (o : option A) (why : string) : M St A :=
  match o with Some a => cret a | None => mhalt why end.

Arguments mhalt {St A} why%_string.
Arguments massert {St} b why%_string.
Arguments mopt {St A} o why%_string.

Declare Scope cmonad_scope.
Delimit Scope cmonad_scope with cm.
Notation "x <-- m ;; k" := (cbind m (fun x => k))
  (at level 20, m at level 99, k at level 200) : cmonad_scope.
Notation "' p <-- m ;; k" := (cbind m (fun x => match x with p => k end))
  (at level 20, p pattern, m at level 99, k at level 200) : cmonad_scope.
Notation "m ;;; k" := (cbind m (fun _ => k))
  (at level 100, k at level 200, right associativity) : cmonad_scope.
#[global] Open Scope cmonad_scope.

(** [zoom get put m]: run [m] on a part of the state. *)
Definition zoom {St Pt A} (get : St -> Pt) (put : Pt -> St -> St) (m : M Pt A) : M St A :=
  fun s => match m (get s) with
           | Done (a, p) => Done (a, put p s)
           | Halted w => Halted w
           | NoFuel => NoFuel
           end.

(** ** Bounded iteration

    [iterM n body l] runs [body] at most [2 ^ n] times: [inl] goes round
    again, [inr] leaves the loop.  Unrolling by doubling keeps the bound
    executable whatever its size; [loopM] allows [2 ^ 64] rounds, enough for
    every loop whose variant fits a machine word. *)
Fixpoint iterM {St L R} (n : nat) (body : L -> M St (L + R)) (l : L) : M St (L + R) :=
  match n with
  | O => body l
  | S n => r <-- iterM n body l ;;
           match r with inl l' => iterM n body l' | inr _ => cret r end
  end.
Definition loopM {St L R} (body : L -> M St (L + R)) (l : L) : M St R :=
  r <-- iterM 64 body l ;;
  match r with inr x => cret x | inl _ => mnofuel end.

(** [mfor f l] runs [f] on the elements of [l] in order. *)
Fixpoint mfor {St A} (f : A -> M St unit) (l : list A) : M St unit :=
  match l with [] => cret tt | a :: l => f a ;;; mfor f l end.

(** ** Total-correctness weakest preconditions

    [wp m Q s]: from [s], [m] returns (it neither halts nor runs out of fuel)
    and its result and final state satisfy [Q]. *)
Definition wp {St A} (m : M St A) (Q : A -> St -> Prop) (s : St) : Prop :=
  match m s with Done (a, s') => Q a s' | Halted _ => False | NoFuel => False end.

Section WP.
Context {St : Type}.
Implicit Types s : St.

Lemma wp_ret {A} (a : A) Q s : Q a s -> wp (cret a) Q s.
Proof. exact id. Qed.

Lemma wp_bind {A B} (m : M St A) (k : A -> M St B) Q s :
  wp m (fun a s' => wp (k a) Q s') s -> wp (cbind m k) Q s.
Proof. unfold wp, cbind. by destruct (m s) as [[a s']| |]. Qed.

Lemma wp_bind_inv {A B} (m : M St A) (k : A -> M St B) Q s :
  wp (cbind m k) Q s -> wp m (fun a s' => wp (k a) Q s') s.
Proof. unfold wp, cbind. by destruct (m s) as [[a s']| |]. Qed.

Lemma wp_mono {A} (m : M St A) (P Q : A -> St -> Prop) s :
  wp m P s -> (forall a s', P a s' -> Q a s') -> wp m Q s.
Proof. unfold wp. destruct (m s) as [[a s']| |]; eauto. Qed.

Lemma wp_get Q s : Q s s -> wp mget Q s.
Proof. exact id. Qed.
Lemma wp_gets {A} (f : St -> A) Q s : Q (f s) s -> wp (gets f) Q s.
Proof. exact id. Qed.
Lemma wp_modify f Q s : Q tt (f s) -> wp (modify f) Q s.
Proof. exact id. Qed.
Lemma wp_assert b why Q s : b = true -> Q tt s -> wp (massert b why) Q s.
Proof. by intros ->. Qed.
Lemma wp_opt {A} (o : option A) why a Q s : o = Some a -> Q a s -> wp (mopt o why) Q s.
Proof. by intros ->. Qed.

Lemma wp_and {A} (m : M St A) (P Q : A -> St -> Prop) s :
  wp m P s -> wp m Q s -> wp m (fun a s' => P a s' /\ Q a s') s.
Proof. unfold wp. destruct (m s) as [[a s']| |]; eauto. Qed.

  (** A weakest precondition is an equation about the run. *)
Lemma wp_run {A} (m : M St A) Q s :
  wp m Q s -> exists a s', m s = Done (a, s') /\ Q a s'.
Proof. unfold wp. destruct (m s) as [[a s']| |]; eauto; done. Qed.
Lemma bind_run {A B} (m : M St A) (k : A -> M St B) s a s' :
  m s = Done (a, s') -> cbind m k s = k a s'.
Proof. unfold cbind. by intros ->. Qed.
Lemma run_wp {A} (m : M St A) (Q : A -> St -> Prop) s a s' :
  m s = Done (a, s') -> Q a s' -> wp m Q s.
Proof. unfold wp. by intros ->. Qed.

Lemma wp_zoom {Pt A} (get : St -> Pt) (put : Pt -> St -> St) (m : M Pt A) Q s :
  wp m (fun a p => Q a (put p s)) (get s) -> wp (zoom get put m) Q s.
Proof. unfold wp, zoom. by destruct (m (get s)) as [[a p]| |]. Qed.

Lemma wp_for {A} (f : A -> M St unit) l (Inv : St -> Prop) s :
  Inv s -> (forall a s', a ∈ l -> Inv s' -> wp (f a) (fun _ => Inv) s') ->
  wp (mfor f l) (fun _ => Inv) s.
Proof.
  revert s. induction l as [|a l IH]; intros s Hs Hf; [done|].
  apply wp_bind. eapply wp_mono; [apply Hf; [set_solver|done]|].
  intros [] s' Hs'. apply IH; [done|]. intros b s'' Hb. apply Hf. set_solver.
Qed.

Context {L R : Type}.
Variable body : L -> M St (L + R).

  (** The rule for loops: [I l s k] is an invariant with a variant [k], below
      [2 ^ 64]; the variant may be known to the proof only. *)
Section Loops.
Variables (I : L -> St -> Z -> Prop) (Q : R -> St -> Prop).
Hypothesis Hbody : forall l s k, I l s k -> 0 <= k /\
  wp (body l) (fun r s' => match r with
    | inl l' => exists k', I l' s' k' /\ 0 <= k' < k
    | inr x => Q x s' end) s.

Lemma wp_iter n l s k : I l s k ->
  wp (iterM n body l) (fun r s' => match r with
    | inl l' => exists k', I l' s' k' /\ 0 <= k' /\ k' + 2 ^ Z.of_nat n <= k
    | inr x => Q x s' end) s.
Proof using Hbody.
  revert l s k. induction n as [|n IH]; intros l s k HI.
  - destruct (Hbody l s k HI) as [_ Hb]. eapply wp_mono; [exact Hb|].
    intros [l'|x] s' H; [|done]. destruct H as (k' & H). exists k'.
    change (2 ^ Z.of_nat 0) with 1. intuition lia.
  - cbn [iterM]. apply wp_bind. eapply wp_mono; [by apply IH|].
    intros [l'|x] s' H; [|done]. destruct H as (k' & HI' & Hm & Hlt).
    eapply wp_mono; [by apply IH|]. intros [l''|x] s'' H; [|done].
    destruct H as (k'' & ? & ? & ?). exists k''. split_and!; [done..|].
    rewrite Nat2Z.inj_succ, Z.pow_succ_r by lia. lia.
Qed.

Lemma wp_loop_variant l s k : I l s k -> k < 2 ^ 64 -> wp (loopM body l) Q s.
Proof using Hbody.
  intros HI Hm. unfold loopM. apply wp_bind. eapply wp_mono; [by eapply wp_iter|].
  intros [l'|x] s' H; [|done]. destruct H as (k' & ? & ? & H).
  change (2 ^ Z.of_nat 64) with (2 ^ 64) in H. lia.
Qed.
End Loops.

  (** The same with a variant computed from the state. *)
Variables (I : L -> St -> Prop) (meas : L -> St -> Z) (Q : R -> St -> Prop).
Hypothesis Hbody : forall l s, I l s -> 0 <= meas l s /\
  wp (body l) (fun r s' => match r with
    | inl l' => I l' s' /\ 0 <= meas l' s' < meas l s
    | inr x => Q x s' end) s.

Lemma wp_loop l s : I l s -> meas l s < 2 ^ 64 -> wp (loopM body l) Q s.
Proof using Hbody.
  intros HI Hm. apply (wp_loop_variant (fun l s k => I l s /\ k = meas l s)) with (k := meas l s);
    [|done|done].
  clear l s HI Hm. intros l s k [HI ->]. destruct (Hbody l s HI) as [H0 Hb]. split; [done|].
  eapply wp_mono; [exact Hb|]. intros [l'|x] s' H; [|done]. destruct H. by exists (meas l' s').
Qed.
End WP.

(** ** Loops that end at once, fail, or do not end *)
Section Runs.
Context {St L R : Type}.
Variable body : L -> M St (L + R).

Lemma loop_leaves l x s s' : body l s = Done (inr x, s') -> loopM body l s = Done (x, s').
Proof.
  intros H. assert (Hn : forall n, iterM n body l s = Done (inr x, s')).
  { induction n as [|n IH]; [done|]. cbn [iterM]. unfold cbind. by rewrite IH. }
  unfold loopM, cbind. by rewrite Hn.
Qed.
Lemma loop_halts l w s : body l s = Halted w -> loopM body l s = Halted w.
Proof.
  intros H. assert (Hn : forall n, iterM n body l s = Halted w).
  { induction n as [|n IH]; [done|]. cbn [iterM]. unfold cbind. by rewrite IH. }
  unfold loopM, cbind. by rewrite Hn.
Qed.
Lemma loop_halts_next l l' w s s' :
  body l s = Done (inl l', s') -> body l' s' = Halted w -> loopM body l s = Halted w.
Proof.
  intros H1 H2. assert (Hn : forall n, iterM (S n) body l s = Halted w).
  { induction n as [|n IH]; cbn [iterM] in *; unfold cbind in *; [by rewrite H1|by rewrite IH]. }
  unfold loopM, cbind. by rewrite Hn.
Qed.
Lemma loop_diverges (P : L -> St -> Prop) l s :
  (forall l s, P l s -> exists l' s', body l s = Done (inl l', s') /\ P l' s') ->
  P l s -> loopM body l s = NoFuel.
Proof.
  intros Hb HP. assert (Hn : forall n l s, P l s -> exists l' s', iterM n body l s = Done (inl l', s') /\ P l' s').
  { induction n as [|n IH]; intros l0 s0 H0; [by apply Hb|]. cbn [iterM].
    destruct (IH l0 s0 H0) as (l1 & s1 & E1 & H1). destruct (IH l1 s1 H1) as (l2 & s2 & E2 & H2).
    exists l2, s2. by rewrite (bind_run _ _ _ _ _ E1). }
  destruct (Hn 64%nat l s HP) as (l1 & s1 & E1 & _). unfold loopM. by rewrite (bind_run _ _ _ _ _ E1).
Qed.

(** An invariant of the rounds holds of whatever the loop returns. *)
Lemma loop_returns (I : L -> St -> Prop) (Q : R -> St -> Prop) l s x s' :
  (forall l s r s', I l s -> body l s = Done (r, s') ->
     match r with inl l' => I l' s' | inr x => Q x s' end) ->
  I l s -> loopM body l s = Done (x, s') -> Q x s'.
Proof.
  intros Hb HI. assert (Hn : forall n l s r s', I l s -> iterM n body l s = Done (r, s') ->
    match r with inl l' => I l' s' | inr x => Q x s' end).
  { induction n as [|n IH]; intros l0 s0 r t H0; [by apply Hb|]. cbn [iterM]. unfold cbind.
    destruct (iterM n body l0 s0) as [[r1 s1]| |] eqn:E1; [|done|done].
    pose proof (IH _ _ _ _ H0 E1) as H1. destruct r1 as [l1|y]; [by apply IH|]. by intros [= <- <-]. }
  unfold loopM, cbind. destruct (iterM 64 body l s) as [[r1 s1]| |] eqn:E1; [|done|done].
  pose proof (Hn _ _ _ _ _ HI E1) as H1. destruct r1 as [l1|y]; [done|]. by intros [= <- <-].
Qed.
End Runs.

(** ** Runs that may end in one kind of halt

    [wpx w m Q s]: from [s], [m] returns as [Q] says, or halts for the reason [w]. *)
Definition wpx {St A} (w : string) (m : M St A) (Q : A -> St -> Prop) (s : St) : Prop :=
  match m s with Done (a, s') => Q a s' | Halted w' => w' = w | NoFuel => False end.
Section WPX.
Context {St : Type} (w : string).
Implicit Types s : St.

Lemma wpx_wp {A} (m : M St A) Q s : wp m Q s -> wpx w m Q s.
Proof. unfold wp, wpx. by destruct (m s) as [[a s']| |]. Qed.
Lemma wpx_bind {A B} (m : M St A) (k : A -> M St B) Q s :
  wpx w m (fun a s' => wpx w (k a) Q s') s -> wpx w (cbind m k) Q s.
Proof. unfold wpx, cbind. by destruct (m s) as [[a s']| |]. Qed.
Lemma wpx_mono {A} (m : M St A) (P Q : A -> St -> Prop) s :
  wpx w m P s -> (forall a s', P a s' -> Q a s') -> wpx w m Q s.
Proof. unfold wpx. destruct (m s) as [[a s']| |]; eauto. Qed.
Lemma wpx_assert b Q s : (b = true -> Q tt s) -> wpx w (massert b w) Q s.
Proof. unfold wpx, massert. destruct b; cbn; auto. Qed.

Context {L R : Type} (body : L -> M St (L + R)) (I : L -> St -> Z -> Prop) (Q : R -> St -> Prop).
Hypothesis Hbody : forall l s k, I l s k -> 0 <= k /\
  wpx w (body l) (fun r s' => match r with
    | inl l' => exists k', I l' s' k' /\ 0 <= k' < k
    | inr x => Q x s' end) s.
Lemma wpx_iter n l s k : I l s k ->
  wpx w (iterM n body l) (fun r s' => match r with
    | inl l' => exists k', I l' s' k' /\ 0 <= k' /\ k' + 2 ^ Z.of_nat n <= k
    | inr x => Q x s' end) s.
Proof using Hbody.
  revert l s k. induction n as [|n IH]; intros l s k HI; cbn [iterM].
  - eapply wpx_mono; [apply (Hbody l s k HI)|]. intros [l'|x] s'; [|done]. intros (k' & H). exists k'.
    change (2 ^ Z.of_nat 0) with 1. intuition lia.
  - apply wpx_bind. eapply wpx_mono; [by apply IH|]. intros [l'|x] s'; [|done]. intros (k' & HI' & Hm & Hlt).
    eapply wpx_mono; [by apply IH|]. intros [l''|x] s''; [|done]. intros (k'' & ? & ? & ?).
    exists k''. rewrite Nat2Z.inj_succ, Z.pow_succ_r by lia. split_and!; [done..|lia].
Qed.
Lemma wpx_loop l s k : I l s k -> k < 2 ^ 64 -> wpx w (loopM body l) Q s.
Proof using Hbody.
  intros HI Hm. apply wpx_bind. eapply wpx_mono; [by eapply wpx_iter|]. intros [l'|x] s'; [|done].
  intros (k' & ? & ? & H). change (2 ^ Z.of_nat 64) with (2 ^ 64) in H. lia.
Qed.
End WPX.

#[global] Opaque loopM.

(** ** Automation

    [zcases] splits on every boolean integer comparison of the goal, replaces
    equal variables and closes what arithmetic or congruence can. *)
Ltac zcases_step :=
  match goal with
  | |- context [?a =? ?b] => destruct (Z.eqb_spec a b)
  | |- context [?a <=? ?b] => destruct (Z.leb_spec a b)
  | |- context [?a <? ?b] => destruct (Z.ltb_spec a b)
  end.
Ltac zcases :=
  repeat (zcases_step; try (exfalso; lia));
  simpl; rewrite ?orb_true_r, ?orb_false_r, ?andb_true_r, ?andb_false_r;
  subst; try reflexivity; try congruence; try lia; auto.

(** The steps that need no choice; [wp_auto] also closes by the hints. *)
Create HintDb wpdb.
#[export] Hint Resolve wp_ret wp_get wp_gets wp_modify : wpdb.
#[export] Hint Extern 1 (wp (massert _ _) _ _) => apply wp_assert; [done|] : wpdb.
Ltac wp_step :=
  lazymatch goal with
  | |- wp (cbind _ _) _ _ => apply wp_bind
  | |- wp (cret _) _ _ => apply wp_ret
  | |- wp mget _ _ => apply wp_get
  | |- wp (gets _) _ _ => apply wp_gets
  | |- wp (modify _) _ _ => apply wp_modify
  | |- wp (zoom _ _ _) _ _ => apply wp_zoom
  end; cbv beta.
Ltac wp_steps := repeat wp_step.
Ltac wp_auto := wp_steps; eauto with wpdb.

(** ** Bits and powers of two *)
Definition mask_below (n : Z) : Z := 2 ^ n - 1.

(** Trailing zeros, [__builtin_ctzl] (undefined on 0, where this is 0). *)
Fixpoint pos_ctz (p : positive) : Z :=
  match p with xO p => 1 + pos_ctz p | _ => 0 end.
Definition ctz (x : Z) : Z := match x with Zpos p => pos_ctz p | _ => 0 end.
(** Leading zeros of a 64-bit word, [__builtin_clzl] (undefined on 0). *)
Definition clz64 (x : Z) : Z := 63 - Z.log2 x.

Lemma testbit_mask_below n j : 0 <= n -> Z.testbit (2 ^ n - 1) j = (0 <=? j) && (j <? n).
Proof.
  intros Hn. replace (2 ^ n - 1) with (Z.ones n) by (rewrite Z.ones_equiv; lia).
  destruct (Z.ltb_spec j 0).
  - rewrite Z.testbit_neg_r by lia. destruct (Z.leb_spec 0 j); [lia|done].
  - destruct (Z.leb_spec 0 j); [|lia]. simpl. destruct (Z.ltb_spec j n).
    + by rewrite Z.ones_spec_low by lia.
    + by rewrite Z.ones_spec_high by lia.
Qed.

Lemma testbit_mod_pow2 x n j : 0 <= n ->
  Z.testbit (x mod 2 ^ n) j = (j <? n) && Z.testbit x j.
Proof.
  intros Hn. destruct (Z.ltb_spec j n).
  - destruct (Z.ltb_spec j 0); [by rewrite !Z.testbit_neg_r by lia|].
    by rewrite Z.mod_pow2_bits_low.
  - rewrite Z.mod_pow2_bits_high by lia. done.
Qed.

(** [-(1UL << n)] has exactly the bits [>= n]. *)
Lemma testbit_neg_pow2 n j : 0 <= n -> 0 <= j ->
  Z.testbit (- 2 ^ n) j = (n <=? j).
Proof.
  intros Hn Hj. replace (- 2 ^ n) with (Z.lnot (2 ^ n - 1)) by (unfold Z.lnot; lia).
  rewrite Z.lnot_spec, testbit_mask_below by lia.
  destruct (Z.leb_spec 0 j), (Z.ltb_spec j n), (Z.leb_spec n j); simpl; auto; lia.
Qed.

Lemma land_mask_mod x n : 0 <= n -> Z.land x (2 ^ n - 1) = x mod 2 ^ n.
Proof.
  intros. rewrite <- Z.land_ones by lia. f_equal. rewrite Z.ones_equiv. lia.
Qed.

Lemma testbit_div_odd x n : 0 <= n -> Z.testbit x n = Z.odd (x / 2 ^ n).
Proof. intros. by rewrite Z.testbit_odd, Z.shiftr_div_pow2. Qed.

Lemma land_pow2_testbit x n : 0 <= n -> Z.land x (2 ^ n) = if Z.testbit x n then 2 ^ n else 0.
Proof.
  intros Hn. apply Z.bits_inj'. intros j Hj.
  rewrite Z.land_spec, Z.pow2_bits_eqb by lia.
  destruct (Z.eqb_spec n j) as [->|Hne].
  - rewrite andb_true_r. destruct (Z.testbit x j).
    + by rewrite Z.pow2_bits_true.
    + by rewrite Z.bits_0.
  - rewrite andb_false_r. destruct (Z.testbit x n).
    + by rewrite Z.pow2_bits_false.
    + by rewrite Z.bits_0.
Qed.

(** [x & (x-1)] is the test for a power of two. *)
Lemma land_pred_pow2 x : 0 < x -> Z.land x (x - 1) = 0 -> x = 2 ^ Z.log2 x.
Proof.
  intros Hx Hl. destruct (Z.log2_spec x Hx) as [Hlo Hhi].
  set (k := Z.log2 x) in *. assert (Hk : 0 <= k) by apply Z.log2_nonneg.
  rewrite Z.pow_succ_r in Hhi by lia.
  destruct (Z.eq_dec x (2 ^ k)); [done|exfalso].
  assert (Hb : Z.testbit (Z.land x (x - 1)) k = true); [|by rewrite Hl, Z.bits_0 in Hb].
  rewrite Z.land_spec, !testbit_div_odd by lia.
  rewrite <- (Z.div_unique x (2 ^ k) 1 (x - 2 ^ k)) by lia.
  rewrite <- (Z.div_unique (x - 1) (2 ^ k) 1 (x - 1 - 2 ^ k)) by lia. done.
Qed.

Lemma land_pred_of_pow2 k : 0 <= k -> Z.land (2 ^ k) (2 ^ k - 1) = 0.
Proof. intros. rewrite land_mask_mod by lia. apply Z.mod_same. lia. Qed.

Lemma pos_ctz_spec p : 0 <= pos_ctz p /\ exists q, Zpos p = 2 ^ pos_ctz p * (2 * q + 1).
Proof.
  induction p as [p IH|p [IH [q Hq]]|]; cbn [pos_ctz].
  - split; [lia|]. exists (Zpos p). rewrite Pos2Z.inj_xI. lia.
  - split; [lia|]. exists q. rewrite Z.pow_add_r by lia.
    rewrite Pos2Z.inj_xO, Hq. lia.
  - split; [lia|]. by exists 0.
Qed.

Lemma ctz_spec x : 0 < x -> 0 <= ctz x /\ exists q, x = 2 ^ ctz x * (2 * q + 1).
Proof. destruct x; try lia. intros _. apply pos_ctz_spec. Qed.

Lemma pow2_divide_le a b : 0 <= a <= b -> (2 ^ a | 2 ^ b).
Proof.
  intros. exists (2 ^ (b - a)). rewrite <- Z.pow_add_r by lia. f_equal. lia.
Qed.

(** A power of two divides [x] exactly up to [ctz x]. *)
Lemma ctz_divide x k : 0 < x -> 0 <= k -> (2 ^ k | x) <-> k <= ctz x.
Proof.
  intros Hx Hk. destruct (ctz_spec x Hx) as [Hc [q Hq]]. split.
  - intros [y Hy]. destruct (Z.le_gt_cases k (ctz x)); [done|exfalso].
    rewrite Hq in Hy. replace k with (ctz x + 1 + (k - ctz x - 1)) in Hy by lia.
    rewrite !Z.pow_add_r in Hy by lia. change (2 ^ 1) with 2 in Hy.
    assert (Hp : 0 < 2 ^ ctz x) by lia.
    assert (2 * q + 1 = 2 * (y * 2 ^ (k - ctz x - 1))) by nia. lia.
  - intros Hle. etransitivity; [apply (pow2_divide_le k (ctz x)); lia|].
    exists (2 * q + 1). lia.
Qed.

(** ** Fields of a word

    [a * 2 ^ k + y] with [0 <= y < 2 ^ k]: the bit operations work on the two
    fields separately. *)
Lemma testbit_fields a y k j : 0 <= k -> 0 <= y < 2 ^ k -> 0 <= j ->
  Z.testbit (a * 2 ^ k + y) j = if j <? k then Z.testbit y j else Z.testbit a (j - k).
Proof.
  intros Hk Hy Hj. destruct (Z.ltb_spec j k).
  - rewrite <- (Z.mod_pow2_bits_low (a * 2 ^ k + y) k j) by lia.
    by rewrite Z.add_comm, Z.mod_add, Z.mod_small by lia.
  - replace j with (j - k + k) at 1 by lia. rewrite <- Z.div_pow2_bits by lia.
    rewrite Z.add_comm, Z.div_add, Z.div_small by lia. done.
Qed.

Lemma u64_small x : 0 <= x < 2 ^ 64 -> u64 x = x.
Proof. apply Z.mod_small. Qed.

Section Fields.
Context (a k y z : Z).
Hypothesis Hk : 0 <= k.
Hypothesis Hy : 0 <= y < 2 ^ k.
Hypothesis Hz : 0 <= z < 2 ^ k.

Lemma below_pow2 v : (forall j, k <= j -> Z.testbit v j = false) -> 0 <= v -> 0 <= v < 2 ^ k.
Proof using Hk.
  intros H Hv. split; [done|]. assert (v mod 2 ^ k = v) as <-; [|apply Z.mod_pos_bound; lia].
  apply Z.bits_inj'. intros j Hj. rewrite testbit_mod_pow2 by done.
  destruct (Z.ltb_spec j k); [done|]. by rewrite H.
Qed.
Lemma high_bits_zero v j : 0 <= v < 2 ^ k -> k <= j -> Z.testbit v j = false.
Proof using Hk.
  intros Hv Hj. rewrite <- (Z.mod_small v (2 ^ k)) by done. rewrite testbit_mod_pow2 by done.
  destruct (Z.ltb_spec j k); [lia|done].
Qed.

Lemma lor_below : 0 <= Z.lor y z < 2 ^ k.
Proof using Hk Hy Hz.
  apply below_pow2; [|by apply Z.lor_nonneg; lia].
  intros j Hj. by rewrite Z.lor_spec, !high_bits_zero.
Qed.
Lemma lxor_below : 0 <= Z.lxor y z < 2 ^ k.
Proof using Hk Hy Hz.
  apply below_pow2; [|by apply Z.lxor_nonneg; split; lia].
  intros j Hj. by rewrite Z.lxor_spec, !high_bits_zero.
Qed.

Lemma lor_fields : Z.lor (a * 2 ^ k + y) z = a * 2 ^ k + Z.lor y z.
Proof using Hk Hy Hz.
  apply Z.bits_inj'. intros j Hj. pose proof lor_below.
  rewrite Z.lor_spec, !testbit_fields, Z.lor_spec by done.
  destruct (Z.ltb_spec j k); [done|]. by rewrite (high_bits_zero z), orb_false_r by done.
Qed.
Lemma lxor_fields : Z.lxor (a * 2 ^ k + y) z = a * 2 ^ k + Z.lxor y z.
Proof using Hk Hy Hz.
  apply Z.bits_inj'. intros j Hj. pose proof lxor_below.
  rewrite Z.lxor_spec, !testbit_fields, Z.lxor_spec by done.
  destruct (Z.ltb_spec j k); [done|]. by rewrite (high_bits_zero z), xorb_false_r by done.
Qed.
Lemma land_fields : Z.land (a * 2 ^ k + y) z = Z.land y z.
Proof using Hk Hy Hz.
  apply Z.bits_inj'. intros j Hj. rewrite !Z.land_spec, testbit_fields by done.
  destruct (Z.ltb_spec j k); [done|]. by rewrite (high_bits_zero z), !andb_false_r by done.
Qed.
End Fields.
