(* ===== verification/Pgalloc.v ===== *)
(** * The page allocator (lib/libbmk_core/pgalloc.c)

    A binary buddy allocator: free chunks of [2 ^ order] pages are linked on
    [freelist[order]], a [struct chunk] header sits at the start of every free
    chunk, and a bitmap with one bit per page ("set" = allocated) is the
    lookup table for coalescing.  The state is the C file's static data; the
    intrusive lists are the sequences they link. *)

From S2P Require Import Prelude.

(** ** Data *)

Definition BMK_PCPU_PAGE_SHIFT : Z := 12.
Definition BMK_PCPU_PAGE_SIZE : Z := 4096.
Definition PAGES_PER_MAPWORD : Z := 64.
Definition CHUNKMAGIC : Z := 285344279. (* 0x11020217 *)
Definition FREELIST_LEVELS : Z := 52.   (* 8*sizeof(void* ) - BMK_PCPU_PAGE_SHIFT *)

(** [struct chunk]; the [entries] links are the position in [freelist]. *)
Record chunk := mkChunk { level : Z; magic : Z }.

Record pgstate := mkPg {
  pg_called : bool;            (* static int called *)
  pg_locked : bool;            (* pgalloc_slock *)
  minpage_addr : Z;
  maxpage_addr : Z;
  alloc_bitmap : list Z;       (* 64-bit words *)
  freelist : list (list Z);    (* addresses of the chunks on each list *)
  headers : gmap Z chunk;      (* memory, where a struct chunk was written *)
  pgalloc_totalkb : Z;
  pgalloc_usedkb : Z
}.

Definition set_called b s := mkPg b (pg_locked s) (minpage_addr s) (maxpage_addr s)
  (alloc_bitmap s) (freelist s) (headers s) (pgalloc_totalkb s) (pgalloc_usedkb s).
Definition set_locked b s := mkPg (pg_called s) b (minpage_addr s) (maxpage_addr s)
  (alloc_bitmap s) (freelist s) (headers s) (pgalloc_totalkb s) (pgalloc_usedkb s).
Definition set_region mn mx s := mkPg (pg_called s) (pg_locked s) mn mx
  (alloc_bitmap s) (freelist s) (headers s) (pgalloc_totalkb s) (pgalloc_usedkb s).
Definition set_bitmap bm s := mkPg (pg_called s) (pg_locked s) (minpage_addr s) (maxpage_addr s)
  bm (freelist s) (headers s) (pgalloc_totalkb s) (pgalloc_usedkb s).
Definition set_freelist fl s := mkPg (pg_called s) (pg_locked s) (minpage_addr s) (maxpage_addr s)
  (alloc_bitmap s) fl (headers s) (pgalloc_totalkb s) (pgalloc_usedkb s).
Definition set_headers h s := mkPg (pg_called s) (pg_locked s) (minpage_addr s) (maxpage_addr s)
  (alloc_bitmap s) (freelist s) h (pgalloc_totalkb s) (pgalloc_usedkb s).
Definition set_kb tot used s := mkPg (pg_called s) (pg_locked s) (minpage_addr s) (maxpage_addr s)
  (alloc_bitmap s) (freelist s) (headers s) tot used.

(** ** Address arithmetic *)

Definition bmk_round_page (p : Z) : Z :=
  Z.land (u64 (p + (BMK_PCPU_PAGE_SIZE - 1))) (u64 (Z.lnot (BMK_PCPU_PAGE_SIZE - 1))).
Definition bmk_trunc_page (p : Z) : Z :=
  Z.land p (u64 (Z.lnot (BMK_PCPU_PAGE_SIZE - 1))).
Definition va_to_pg (s : pgstate) (x : Z) : Z :=
  Z.shiftr (u64 (x - minpage_addr s)) BMK_PCPU_PAGE_SHIFT.
Definition addr2chunk (addr offset : Z) : Z := u64 (addr + offset).
Definition order2size (order : Z) : Z := u64 (Z.shiftl 1 (order + BMK_PCPU_PAGE_SHIFT)).

Definition pgalloc_lock : M pgstate unit :=
  l <-- gets pg_locked ;; massert (negb l) "deadlock" ;;; modify (set_locked true).
Definition pgalloc_unlock : M pgstate unit := modify (set_locked false).

(** ** The allocation bitmap *)

Definition addr_is_managed (addr : Z) : M pgstate bool :=
  s <-- mget ;; cret ((minpage_addr s <=? addr) && (addr <? maxpage_addr s)).

Definition map_read (i : Z) : M pgstate Z :=
  bm <-- gets alloc_bitmap ;; mopt (bm !! Z.to_nat i) "alloc_bitmap out of range".
Definition map_write (i w : Z) : M pgstate unit :=
  _ <-- map_read i ;; modify (fun s => set_bitmap (<[Z.to_nat i := w]> (alloc_bitmap s)) s).

Definition allocated_in_map (addr : Z) : M pgstate bool :=
  b <-- addr_is_managed addr ;; massert b "addr_is_managed(addr)" ;;;
  s <-- mget ;;
  let pagenum := va_to_pg s addr in
  w <-- map_read (pagenum / PAGES_PER_MAPWORD) ;;
  cret (negb (Z.land w (Z.shiftl 1 (Z.land pagenum (PAGES_PER_MAPWORD - 1))) =? 0)).

Definition map_alloc (virt nr_pages : Z) : M pgstate unit :=
  s <-- mget ;;
  let first_page := va_to_pg s virt in
  let curr_idx := first_page / PAGES_PER_MAPWORD in
  let start := Z.land first_page (PAGES_PER_MAPWORD - 1) in
  let end_idx := u64 (first_page + nr_pages) / PAGES_PER_MAPWORD in
  let end_ := Z.land (u64 (first_page + nr_pages)) (PAGES_PER_MAPWORD - 1) in
  if curr_idx =? end_idx then
    w <-- map_read curr_idx ;;
    map_write curr_idx
      (Z.lor w (Z.land (Z.shiftl 1 end_ - 1) (u64 (- Z.shiftl 1 start))))
  else
    w <-- map_read curr_idx ;;
    map_write curr_idx (Z.lor w (u64 (- Z.shiftl 1 start))) ;;;
    curr_idx <-- loopM (fun curr_idx =>
      let curr_idx := u64 (curr_idx + 1) in
      if curr_idx <? end_idx
      then map_write curr_idx (u64 (Z.lnot 0)) ;;; cret (inl curr_idx)
      else cret (inr curr_idx)) curr_idx ;;
    w <-- map_read curr_idx ;;
    map_write curr_idx (Z.lor w (Z.shiftl 1 end_ - 1)).

Definition map_free (virt nr_pages : Z) : M pgstate unit :=
  s <-- mget ;;
  let first_page := va_to_pg s virt in
  let curr_idx := first_page / PAGES_PER_MAPWORD in
  let start := Z.land first_page (PAGES_PER_MAPWORD - 1) in
  let end_idx := u64 (first_page + nr_pages) / PAGES_PER_MAPWORD in
  let end_ := Z.land (u64 (first_page + nr_pages)) (PAGES_PER_MAPWORD - 1) in
  if curr_idx =? end_idx then
    w <-- map_read curr_idx ;;
    map_write curr_idx
      (Z.land w (Z.lor (u64 (- Z.shiftl 1 end_)) (Z.shiftl 1 start - 1)))
  else
    w <-- map_read curr_idx ;;
    map_write curr_idx (Z.land w (Z.shiftl 1 start - 1)) ;;;
    curr_idx <-- loopM (fun curr_idx =>
      let curr_idx := u64 (curr_idx + 1) in
      if negb (curr_idx =? end_idx)
      then map_write curr_idx 0 ;;; cret (inl curr_idx)
      else cret (inr curr_idx)) curr_idx ;;
    w <-- map_read curr_idx ;;
    map_write curr_idx (Z.land w (u64 (- Z.shiftl 1 end_))).

(** ** Free lists *)

(** Memory that never held a header reads as an unspecified, here zero, one. *)
Definition hdr (s : pgstate) (a : Z) : chunk := default (mkChunk 0 0) (headers s !! a).
Definition put_hdr (a : Z) (c : chunk) (s : pgstate) : pgstate :=
  set_headers (<[a := c]> (headers s)) s.
Definition set_magic (a v : Z) : M pgstate unit :=
  modify (fun s => put_hdr a (mkChunk (level (hdr s a)) v) s).

Definition chunklevel (ch : Z) : M pgstate Z :=
  c <-- gets (fun s => hdr s ch) ;;
  massert (magic c =? CHUNKMAGIC) "ch->magic == CHUNKMAGIC" ;;; cret (level c).

Definition freelist_get (i : Z) : M pgstate (list Z) :=
  fl <-- gets freelist ;; mopt (fl !! Z.to_nat i) "freelist out of range".

(** [LIST_REMOVE]: unlink [ch] from the list that holds it. *)
Definition chunk_unlink (ch : Z) : M pgstate unit :=
  modify (fun s => set_freelist (filter (fun a => a ≠ ch) <$> freelist s) s).

Definition freechunk_link (addr order : Z) : M pgstate unit :=
  modify (put_hdr addr (mkChunk order CHUNKMAGIC)) ;;;
  l <-- freelist_get order ;;
  modify (fun s => set_freelist (<[Z.to_nat order := addr :: l]> (freelist s)) s).

Definition sanity_check : M pgstate unit :=
  fl <-- gets freelist ;;
  mfor (mfor (fun head =>
    b <-- allocated_in_map head ;;
    massert (negb b) "!allocated_in_map(head)" ;;;
    c <-- gets (fun s => hdr s head) ;;
    massert (magic c =? CHUNKMAGIC) "head->magic == CHUNKMAGIC")) fl.

Definition carverange (addr range : Z) : M pgstate unit :=
  loopM (fun '(addr, range) =>
    if range =? 0 then cret (inr tt) else
    let i := ctz addr in
    let r := u32 (8 * 8 - (clz64 range + 1)) in
    let i := if r <? i then r else i in
    let i := u32 (i - BMK_PCPU_PAGE_SHIFT) in
    let ch := addr2chunk addr 0 in
    freechunk_link ch i ;;;
    cret (inl (u64 (addr + order2size i), u64 (range - order2size i)))) (addr, range).

(** ** The interface *)

Definition bmk_pgalloc_loadmem (min max : Z) : M pgstate unit :=
  called <-- gets pg_called ;;
  massert (negb called) "bmk_pgalloc_loadmem called more than once" ;;;
  modify (set_called true) ;;;
  massert (min <? max) "max > min" ;;;
  let min := bmk_round_page min in
  let max := bmk_trunc_page max in
  modify (set_freelist (replicate (Z.to_nat FREELIST_LEVELS) [])) ;;;
  let bitmap_size := u64 (Z.shiftr (u64 (max - min)) (BMK_PCPU_PAGE_SHIFT + 3) + 1) in
  let bitmap_size := bmk_round_page bitmap_size in
  let min := u64 (min + bitmap_size) in
  let range := u64 (max - min) in
  modify (set_region min max) ;;;
  modify (set_kb (Z.shiftr range 10) 0) ;;;
  (* bmk_memset(alloc_bitmap, ~0, bitmap_size) *)
  modify (set_bitmap (replicate (Z.to_nat (bitmap_size / 8)) (u64 (Z.lnot 0)))) ;;;
  map_free min (Z.shiftr range BMK_PCPU_PAGE_SHIFT) ;;;
  carverange min range.

(** The first chunk of list [i] whose address is a multiple of [align]; 0 is NULL. *)
Definition satisfies_p (i align : Z) : M pgstate Z :=
  l <-- freelist_get i ;;
  cret (match List.find (fun p => Z.land p (align - 1) =? 0) l with
        | Some ch => ch | None => 0 end).

(** The search loop of [bmk_pgalloc_align]: (alloc_ch, bucket). *)
Definition find_bucket (order align : Z) : M pgstate (Z * Z) :=
  loopM (fun bucket =>
    if bucket <? FREELIST_LEVELS then
      ch <-- satisfies_p bucket align ;;
      cret (if negb (ch =? 0) then inr (ch, bucket) else inl (bucket + 1))
    else cret (inr (0, bucket))) order.

Definition bmk_pgalloc_align (order align : Z) : M pgstate Z :=
  massert ((BMK_PCPU_PAGE_SIZE <=? align) && (Z.land align (align - 1) =? 0)) "align" ;;;
  massert (u32 order <? FREELIST_LEVELS) "(unsigned)order < FREELIST_LEVELS" ;;;
  pgalloc_lock ;;;
  '(alloc_ch, bucket) <-- find_bucket order align ;;
  if alloc_ch =? 0 then pgalloc_unlock ;;; cret 0 else
  chunk_unlink alloc_ch ;;;
  c <-- gets (fun s => hdr s alloc_ch) ;;
  massert (magic c =? CHUNKMAGIC) "alloc_ch->magic == CHUNKMAGIC" ;;;
  set_magic alloc_ch 0 ;;;
  let len := order2size order in
  let p := alloc_ch in
  carverange (u64 (p + len)) (u64 (order2size bucket - len)) ;;;
  map_alloc alloc_ch (Z.shiftl 1 order) ;;;
  modify (fun s => set_kb (pgalloc_totalkb s) (u64 (pgalloc_usedkb s + Z.shiftr len 10)) s) ;;;
  pgalloc_unlock ;;;
  massert (Z.land alloc_ch (align - 1) =? 0) "alloc_ch & (align-1)" ;;;
  cret alloc_ch.

Definition bmk_pgalloc (order : Z) : M pgstate Z :=
  bmk_pgalloc_align order BMK_PCPU_PAGE_SIZE.

(** One round of the coalescing loop: the buddy is merged or the loop ends. *)
Definition can_merge (to_merge_ch order : Z) : M pgstate bool :=
  m <-- addr_is_managed to_merge_ch ;;
  if negb m then cret false else
  a <-- allocated_in_map to_merge_ch ;;
  if (a : bool) then cret false else
  lv <-- chunklevel to_merge_ch ;;
  cret (lv =? order).

(** The coalescing loop of [bmk_pgfree]: the final (freed_ch, order). *)
Definition coalesce (pointer order : Z) : M pgstate (Z * Z) :=
  loopM (fun '(freed_ch, order) =>
    if u32 order <? FREELIST_LEVELS then
      let mask := order2size order in
      let down := negb (Z.land freed_ch mask =? 0) in
      let to_merge_ch := addr2chunk freed_ch (if down then - mask else mask) in
      ok <-- can_merge to_merge_ch order ;;
      if (ok : bool) then
        set_magic freed_ch 0 ;;;
        let freed_ch := if down then to_merge_ch else freed_ch in
        set_magic to_merge_ch 0 ;;;
        chunk_unlink to_merge_ch ;;;
        cret (inl (freed_ch, order + 1))
      else cret (inr (freed_ch, order))
    else cret (inr (freed_ch, order))) (pointer, order).

Definition bmk_pgfree (pointer order : Z) : M pgstate unit :=
  pgalloc_lock ;;;
  map_free pointer (Z.shiftl 1 order) ;;;
  modify (fun s => set_kb (pgalloc_totalkb s)
    (u64 (pgalloc_usedkb s - Z.shiftr (order2size order) 10)) s) ;;;
  '(freed_ch, order) <-- coalesce pointer order ;;
  freechunk_link freed_ch order ;;;
  pgalloc_unlock.

(** What the clients of the allocator do to memory they own: write it. *)
Definition client_write (a : Z) (c : chunk) : M pgstate unit := modify (put_hdr a c).

Definition pg_boot : pgstate := mkPg false false 0 0 [] [] ∅ 0 0.
