(* ===== verification/PgallocMap.v ===== *)
(** * The allocation bitmap of the page allocator

    [map_alloc] and [map_free] work a 64-bit word at a time, with masks for
    the first and the last word.  The lemmas here reduce them to their
    page-at-a-time meaning. *)

From S2P Require Import Prelude Pgalloc.

(** Bit [j] of word [i], and the bit of page [q]: true = allocated. *)
Definition word_bit (bm : list Z) (i j : Z) : bool :=
  Z.testbit (default 0 (bm !! Z.to_nat i)) j.
Definition map_bit (bm : list Z) (q : Z) : bool := word_bit bm (q / 64) (q mod 64).

(** [bm'] is [bm] with the pages [lo, hi) set to [v]. *)
Definition map_filled (v : bool) (lo hi : Z) (bm bm' : list Z) : Prop :=
  length bm' = length bm /\
  forall q, 0 <= q -> map_bit bm' q = if (lo <=? q) && (q <? hi) then v else map_bit bm q.

Lemma word_bit_insert bm k w i j : 0 <= i -> 0 <= k < Z.of_nat (length bm) ->
  word_bit (<[Z.to_nat k := w]> bm) i j = if i =? k then Z.testbit w j else word_bit bm i j.
Proof.
  intros Hi Hk. unfold word_bit. destruct (Z.eqb_spec i k) as [->|Hne].
  - rewrite list_lookup_insert_eq by lia. done.
  - rewrite list_lookup_insert_ne by lia. done.
Qed.

Lemma wp_map_read i Q s :
  0 <= i < Z.of_nat (length (alloc_bitmap s)) ->
  Q (default 0 (alloc_bitmap s !! Z.to_nat i)) s -> wp (map_read i) Q s.
Proof.
  intros Hi HQ. destruct (lookup_lt_is_Some_2 (alloc_bitmap s) (Z.to_nat i)) as [w Hw]; [lia|].
  rewrite Hw in HQ. apply wp_bind, wp_gets. by eapply wp_opt.
Qed.

Lemma wp_map_write i w Q s :
  0 <= i < Z.of_nat (length (alloc_bitmap s)) ->
  Q tt (set_bitmap (<[Z.to_nat i := w]> (alloc_bitmap s)) s) -> wp (map_write i w) Q s.
Proof. intros Hi HQ. apply wp_bind, wp_map_read; [done|]. by apply wp_modify. Qed.

Lemma set_bitmap_id s : set_bitmap (alloc_bitmap s) s = s.
Proof. by destruct s. Qed.

(** The middle words of the range, filled one by one. *)
Lemma wp_fill_loop (cond : Z -> bool) (w c0 e : Z) s :
  0 <= c0 < e -> e < Z.of_nat (length (alloc_bitmap s)) -> e < 2 ^ 63 ->
  (forall c, c0 < c <= e -> cond c = (c <? e)) ->
  wp (loopM (fun c => let c := u64 (c + 1) in
        if cond c then map_write c w ;;; cret (inl c) else cret (inr c)) c0)
     (fun c s' => c = e /\ exists bm', s' = set_bitmap bm' s /\
        length bm' = length (alloc_bitmap s) /\
        forall i j, 0 <= i -> word_bit bm' i j =
          if (c0 <? i) && (i <? e) then Z.testbit w j else word_bit (alloc_bitmap s) i j) s.
Proof.
  intros Hc0 Hlen Hmax Hcond.
  apply (wp_loop _ (fun c s' => c0 <= c < e /\ exists bm', s' = set_bitmap bm' s /\
        length bm' = length (alloc_bitmap s) /\
        forall i j, 0 <= i -> word_bit bm' i j =
          if (c0 <? i) && (i <=? c) then Z.testbit w j else word_bit (alloc_bitmap s) i j)
        (fun c _ => e - c)).
  - intros c s' (Hc & bm' & -> & Hl & Hb). split; [lia|]. cbv zeta.
    assert (Hu : u64 (c + 1) = c + 1) by (apply Z.mod_small; lia). rewrite Hu, Hcond by lia.
    destruct (Z.ltb_spec (c + 1) e).
    + apply wp_bind, wp_map_write; simpl; [lia|]. apply wp_ret. split; [|lia]. split; [lia|].
      eexists. split; [reflexivity|]. rewrite length_insert. split; [done|].
      intros i j Hi. rewrite word_bit_insert, Hb by lia. zcases.
    + apply wp_ret. assert (c + 1 = e) as <- by lia. split; [done|]. exists bm'.
      split_and!; [done..|]. intros i j Hi. rewrite Hb by done. zcases.
  - split; [lia|]. exists (alloc_bitmap s). rewrite set_bitmap_id. split_and!; [done..|].
    intros i j Hi. zcases.
  - lia.
Qed.

(** The bits of the masks built by [map_alloc] and [map_free]. *)
Lemma testbit_ones64 j : 0 <= j < 64 -> Z.testbit (u64 (Z.lnot 0)) j = true.
Proof.
  intros. unfold u64. rewrite testbit_mod_pow2, Z.lnot_spec, Z.bits_0 by lia.
  destruct (Z.ltb_spec j 64); [done|lia].
Qed.
Lemma testbit_from64 n j : 0 <= n -> 0 <= j < 64 ->
  Z.testbit (u64 (- Z.shiftl 1 n)) j = (n <=? j).
Proof.
  intros. unfold u64. rewrite Z.shiftl_1_l, testbit_mod_pow2, testbit_neg_pow2 by lia.
  destruct (Z.ltb_spec j 64); [done|lia].
Qed.
Lemma testbit_below n j : 0 <= n -> 0 <= j -> Z.testbit (Z.shiftl 1 n - 1) j = (j <? n).
Proof.
  intros. rewrite Z.shiftl_1_l, testbit_mask_below by lia.
  destruct (Z.leb_spec 0 j); [done|lia].
Qed.

(** The page range of a call, split into words. *)
Record fill_range (s : pgstate) (virt n : Z) : Prop := {
  fr_first : 0 <= va_to_pg s virt;
  fr_n : 0 <= n;
  fr_in : (va_to_pg s virt + n) / 64 < Z.of_nat (length (alloc_bitmap s));
  fr_small : va_to_pg s virt + n < 2 ^ 63
}.

Lemma land_mapword x : Z.land x (PAGES_PER_MAPWORD - 1) = x mod 64.
Proof. change (PAGES_PER_MAPWORD - 1) with (2 ^ 6 - 1). apply land_mask_mod. lia. Qed.

(** Turns a goal about page [q] into arithmetic on word and bit indices. *)
Ltac fill_bits :=
  rewrite ?word_bit_insert by (rewrite ?length_insert; lia);
  repeat first [rewrite Z.lor_spec | rewrite Z.land_spec]; rewrite ?Z.bits_0, ?testbit_ones64, ?testbit_from64,
    ?testbit_below by lia;
  repeat match goal with |- context [Z.testbit (default 0 (?b !! Z.to_nat ?k)) ?j] =>
    change (Z.testbit (default 0 (b !! Z.to_nat k)) j) with (word_bit b k j) end.
Ltac fill_tac :=
  let q := fresh "q" in let Hq := fresh "Hq" in
  intros q Hq; unfold map_bit;
  assert (q = 64 * (q / 64) + q mod 64) by (apply Z.div_mod; lia);
  assert (0 <= q mod 64 < 64) by (apply Z.mod_pos_bound; lia);
  assert (0 <= q / 64) by (apply Z.div_pos; lia);
  set (i := q / 64) in *; set (j := q mod 64) in *; clearbody i j;
  fill_bits;
  try match goal with H : forall i j, 0 <= i -> word_bit ?b i j = _ |- _ =>
    rewrite !H by lia; fill_bits end;
  zcases.

(** The common start of both: [ci], [e] are the first and last word. *)
Ltac fill_start Hfirst Hn Hin Hsmall fp ci e :=
  intros [Hfirst Hn Hin Hsmall]; apply wp_bind, wp_get;
  match type of Hfirst with 0 <= ?f => set (fp := f) in * end;
  match type of Hn with 0 <= ?n =>
    assert (u64 (fp + n) = fp + n) as -> by (apply Z.mod_small; lia);
    rewrite !land_mapword; unfold PAGES_PER_MAPWORD;
    pose proof (Z.div_mod fp 64 ltac:(lia));
    pose proof (Z.mod_pos_bound fp 64 ltac:(lia));
    pose proof (Z.div_mod (fp + n) 64 ltac:(lia));
    pose proof (Z.mod_pos_bound (fp + n) 64 ltac:(lia));
    set (ci := fp / 64) in *; set (e := (fp + n) / 64) in *
  end.

(** [map_alloc] sets exactly the pages of its range. *)
Lemma wp_map_alloc s virt n : fill_range s virt n ->
  wp (map_alloc virt n) (fun _ s' => exists bm', s' = set_bitmap bm' s /\
    map_filled true (va_to_pg s virt) (va_to_pg s virt + n) (alloc_bitmap s) bm') s.
Proof.
  unfold map_alloc. fill_start Hfirst Hn Hin Hsmall fp ci e. destruct (Z.eqb_spec ci e) as [He|Hne].
  - apply wp_bind, wp_map_read; [lia|]. apply wp_map_write; [lia|].
    eexists. split; [reflexivity|]. split; [apply length_insert|]. fill_tac.
  - apply wp_bind, wp_map_read; [lia|]. apply wp_bind, wp_map_write; [lia|].
    apply wp_bind. eapply wp_mono; [apply (wp_fill_loop (fun c => c <? e) _ ci e);
      simpl; rewrite ?length_insert; lia|].
    intros ? s' (-> & bm' & -> & Hl & Hb). simpl in *. rewrite length_insert in Hl.
    apply wp_bind, wp_map_read; simpl; [lia|]. apply wp_map_write; simpl; [lia|].
    eexists. split; [reflexivity|]. split; [by rewrite length_insert|]. fill_tac.
Qed.

(** [map_free] clears exactly the pages of its range. *)
Lemma wp_map_free s virt n : fill_range s virt n ->
  wp (map_free virt n) (fun _ s' => exists bm', s' = set_bitmap bm' s /\
    map_filled false (va_to_pg s virt) (va_to_pg s virt + n) (alloc_bitmap s) bm') s.
Proof.
  unfold map_free. fill_start Hfirst Hn Hin Hsmall fp ci e. destruct (Z.eqb_spec ci e) as [He|Hne].
  - apply wp_bind, wp_map_read; [lia|]. apply wp_map_write; [lia|].
    eexists. split; [reflexivity|]. split; [apply length_insert|]. fill_tac.
  - apply wp_bind, wp_map_read; [lia|]. apply wp_bind, wp_map_write; [lia|].
    apply wp_bind. eapply wp_mono; [apply (wp_fill_loop (fun c => negb (c =? e)) _ ci e);
      simpl; rewrite ?length_insert; lia|].
    intros ? s' (-> & bm' & -> & Hl & Hb). simpl in *. rewrite length_insert in Hl.
    apply wp_bind, wp_map_read; simpl; [lia|]. apply wp_map_write; simpl; [lia|].
    eexists. split; [reflexivity|]. split; [by rewrite length_insert|]. fill_tac.
Qed.

(** [allocated_in_map] reads the bit of the page. *)
Lemma wp_allocated_in_map s addr Q :
  minpage_addr s <= addr < maxpage_addr s -> 0 <= va_to_pg s addr ->
  va_to_pg s addr / 64 < Z.of_nat (length (alloc_bitmap s)) ->
  Q (map_bit (alloc_bitmap s) (va_to_pg s addr)) s -> wp (allocated_in_map addr) Q s.
Proof.
  intros Hm Hpos Hlen HQ. unfold allocated_in_map, addr_is_managed.
  apply wp_bind, wp_bind, wp_get, wp_ret, wp_bind, wp_assert; [zcases|].
  apply wp_bind, wp_get, wp_bind. pose proof (Z.div_pos (va_to_pg s addr) 64).
  apply wp_map_read; [unfold PAGES_PER_MAPWORD; lia|]. apply wp_ret.
  rewrite land_mapword. pose proof (Z.mod_pos_bound (va_to_pg s addr) 64 ltac:(lia)).
  rewrite Z.shiftl_1_l, land_pow2_testbit by lia. unfold map_bit, word_bit in HQ.
  unfold PAGES_PER_MAPWORD. destruct (Z.testbit _ _); [|done].
  destruct (Z.eqb_spec (2 ^ (va_to_pg s addr mod 64)) 0); [|done]. exfalso.
  assert (0 < 2 ^ (va_to_pg s addr mod 64)) by (apply Z.pow_pos_nonneg; lia). lia.
Qed.
