(* ===== verification/PgallocInv.v ===== *)
(** * The free lists of the page allocator: structure and coalescing

    Geometry of aligned power-of-two blocks, the well-formedness of the free
    lists ([fl_ok]) and its preservation by the primitive list operations and
    by [carverange]. *)

From S2P Require Import Prelude Pgalloc PgallocMap.

(** ** Blocks *)

Definition csize (k : Z) : Z := 2 ^ (k + 12).
Definition in_block (k a x : Z) : Prop := a <= x < a + csize k.
(** The other half of the block of twice the size. *)
Definition buddy (k a : Z) : Z :=
  if Z.testbit a (k + 12) then a - csize k else a + csize k.

Lemma csize_pos k : 0 <= k -> 0 < csize k.
Proof. intros. apply Z.pow_pos_nonneg; lia. Qed.
Lemma csize_succ k : 0 <= k -> csize (k + 1) = 2 * csize k.
Proof. intros. unfold csize. rewrite <- Z.pow_succ_r by lia. f_equal. lia. Qed.
Lemma csize_page k : 0 <= k -> (4096 | csize k).
Proof. intros. apply (pow2_divide_le 12). lia. Qed.
Lemma csize_le k k' : 0 <= k <= k' -> csize k <= csize k'.
Proof. intros. apply Z.pow_le_mono_r; lia. Qed.
Lemma csize_lt_inv k k' : 0 <= k -> 0 <= k' -> csize k < csize k' -> k < k'.
Proof. intros ?? H. apply Z.pow_lt_mono_r_iff in H; lia. Qed.
Lemma csize_le_inv k k' : 0 <= k -> 0 <= k' -> csize k <= csize k' -> k <= k'.
Proof. intros ?? H. apply Z.pow_le_mono_r_iff in H; lia. Qed.

(** Two aligned blocks that meet are nested. *)
Lemma aligned_nested k k' a a' x :
  0 <= k <= k' -> (csize k | a) -> (csize k' | a') -> in_block k a x -> in_block k' a' x ->
  a' <= a /\ a + csize k <= a' + csize k'.
Proof.
  unfold in_block. intros Hk [u ->] [v ->] Hx Hx'.
  assert (csize k' = 2 ^ (k' - k) * csize k) as E
    by (unfold csize; rewrite <- Z.pow_add_r by lia; f_equal; lia).
  rewrite E in *. set (m := 2 ^ (k' - k)) in *. pose proof (csize_pos k ltac:(lia)).
  set (c := csize k) in *. clearbody c m.
  assert (v * m < u + 1) by nia. assert (u < v * m + m) by nia. nia.
Qed.

(** A block and its buddy are the halves of an aligned block. *)
Lemma buddy_spec k a : 0 <= k -> (csize k | a) -> exists p, (csize (k + 1) | p) /\
  ((Z.testbit a (k + 12) = false /\ a = p /\ buddy k a = p + csize k) \/
   (Z.testbit a (k + 12) = true /\ a = p + csize k /\ buddy k a = p)).
Proof.
  intros Hk [u Hu]. unfold buddy. rewrite csize_succ by lia.
  pose proof (csize_pos k Hk) as Hc.
  assert (Ht : Z.testbit a (k + 12) = Z.odd u).
  { rewrite testbit_div_odd by lia. rewrite Hu. fold (csize k). by rewrite Z.div_mul by lia. }
  rewrite Ht. destruct (Z.odd u) eqn:E.
  - apply Z.odd_spec in E as [v ->]. exists (2 * v * csize k). split; [exists v; lia|].
    right. split_and!; lia.
  - rewrite <- Z.negb_even, negb_false_iff in E. apply Z.even_spec in E as [v ->].
    exists (2 * v * csize k). split; [exists v; lia|]. left. split_and!; lia.
Qed.

Lemma buddy_aligned k a : 0 <= k -> (csize k | a) -> (csize k | buddy k a).
Proof.
  intros Hk Ha. destruct (buddy_spec k a Hk Ha) as (p & Hp & H).
  rewrite csize_succ in Hp by lia. destruct Hp as [w ->].
  destruct H as [(_ & _ & ->)|(_ & _ & ->)]; [exists (2 * w + 1)|exists (2 * w)]; lia.
Qed.

Lemma buddy_invol k a : 0 <= k -> (csize k | a) -> buddy k (buddy k a) = a.
Proof.
  intros Hk Ha. pose proof (csize_pos k Hk).
  destruct (buddy_spec k a Hk Ha) as (p & Hp & H1).
  destruct (buddy_spec k (buddy k a) Hk (buddy_aligned k a Hk Ha)) as (p' & Hp' & H2).
  assert (p' = p) as ->; [|lia].
  rewrite csize_succ in Hp, Hp' by lia. destruct Hp as [u ->], Hp' as [v ->].
  assert (-1 < u - v < 1) by nia. f_equal; f_equal; lia.
Qed.

(** The larger block that holds a block holds its buddy too. *)
Lemma buddy_in_larger k k' a a' :
  0 <= k < k' -> (csize k | a) -> (csize k' | a') -> in_block k' a' a ->
  a' <= buddy k a /\ buddy k a + csize k <= a' + csize k'.
Proof.
  intros Hk Ha Ha' Hin. destruct (buddy_spec k a ltac:(lia) Ha) as (p & Hp & H).
  pose proof (csize_pos k ltac:(lia)). pose proof (csize_succ k ltac:(lia)).
  assert (in_block (k + 1) p a) by (unfold in_block; lia).
  pose proof (aligned_nested (k + 1) k' p a' a ltac:(lia) Hp Ha' H2 Hin). lia.
Qed.

(** ** The free lists *)

Definition free_at (s : pgstate) (k a : Z) : Prop :=
  0 <= k /\ exists l, freelist s !! Z.to_nat k = Some l /\ a ∈ l.
(** Byte [x] belongs to a free chunk. *)
Definition covered (s : pgstate) (x : Z) : Prop := exists k a, free_at s k a /\ in_block k a x.

(** What the list operations leave alone. *)
Definition same_region (s s' : pgstate) : Prop :=
  pg_called s' = pg_called s /\ pg_locked s' = pg_locked s /\
  minpage_addr s' = minpage_addr s /\ maxpage_addr s' = maxpage_addr s /\
  alloc_bitmap s' = alloc_bitmap s /\
  pgalloc_totalkb s' = pgalloc_totalkb s /\ pgalloc_usedkb s' = pgalloc_usedkb s.

(** A block the allocator may own: aligned to its size, inside the region. *)
Record block_ok (s : pgstate) (k a : Z) : Prop := {
  bo_order : 0 <= k;
  bo_align : (csize k | a);
  bo_lo : minpage_addr s <= a;
  bo_hi : a + csize k <= maxpage_addr s
}.

Record fl_ok (s : pgstate) : Prop := {
  fl_min : 0 < minpage_addr s;
  fl_max : maxpage_addr s < 2 ^ 64;
  fl_minp : (4096 | minpage_addr s);
  fl_maxp : (4096 | maxpage_addr s);
  fl_len : length (freelist s) = 52%nat;
  fl_nodup : forall i l, freelist s !! i = Some l -> NoDup l;
  fl_block : forall k a, free_at s k a -> block_ok s k a;
  fl_hdr : forall k a, free_at s k a -> headers s !! a = Some (mkChunk k CHUNKMAGIC);
  fl_disj : forall k a k' a' x, free_at s k a -> free_at s k' a' ->
    in_block k a x -> in_block k' a' x -> k = k' /\ a = a'
}.

Lemma same_region_refl s : same_region s s.
Proof. by repeat split. Qed.
Lemma same_region_trans s1 s2 s3 : same_region s1 s2 -> same_region s2 s3 -> same_region s1 s3.
Proof. unfold same_region. intuition congruence. Qed.
#[export] Instance same_region_preorder : PreOrder same_region.
Proof. split; [exact same_region_refl|intros ???; apply same_region_trans]. Qed.

(** An order whose block fits below 2^64 indexes the array of lists. *)
Lemma block_order_lt s k a : fl_ok s -> block_ok s k a -> 0 <= k < 52.
Proof.
  intros Hs [Hk [u Hu] Hlo Hhi]. split; [done|]. pose proof (csize_pos k Hk).
  pose proof (fl_min s Hs). pose proof (fl_max s Hs).
  assert (csize k < csize 52) by (change (csize 52) with (2 ^ 64); nia).
  by apply csize_lt_inv in H2.
Qed.

Lemma in_block_self k a : 0 <= k -> in_block k a a.
Proof. intros. pose proof (csize_pos k H). unfold in_block. lia. Qed.

Lemma free_at_put_hdr s b c k a : free_at (put_hdr b c s) k a <-> free_at s k a.
Proof. done. Qed.

(** ** Primitive steps *)

Lemma free_at_insert s k l a h k' b :
  freelist s !! Z.to_nat k = Some l -> 0 <= k ->
  free_at (set_freelist (<[Z.to_nat k := a :: l]> (freelist s)) (set_headers h s)) k' b
    <-> free_at s k' b \/ (k' = k /\ b = a).
Proof.
  intros Hl Hk. unfold free_at. simpl. split.
  - intros (Hk' & l' & Hl' & Hb). destruct (decide (k' = k)) as [->|Hne].
    + rewrite list_lookup_insert_eq in Hl' by (by eapply lookup_lt_Some).
      simplify_eq. apply elem_of_cons in Hb as [->|Hb]; eauto.
    + rewrite list_lookup_insert_ne in Hl' by lia. eauto.
  - intros [(Hk' & l' & Hl' & Hb)|[-> ->]].
    + split; [done|]. destruct (decide (k' = k)) as [->|Hne].
      * simplify_eq. exists (a :: l). rewrite list_lookup_insert_eq by (by eapply lookup_lt_Some).
        set_solver.
      * exists l'. by rewrite list_lookup_insert_ne by lia.
    + split; [done|]. exists (a :: l).
      rewrite list_lookup_insert_eq by (by eapply lookup_lt_Some). set_solver.
Qed.

Lemma free_at_filter s c k b :
  free_at (set_freelist (filter (fun a => a ≠ c) <$> freelist s) s) k b
    <-> free_at s k b /\ b <> c.
Proof.
  unfold free_at. simpl. split.
  - intros (Hk & l & Hl & Hb). rewrite list_lookup_fmap, fmap_Some in Hl.
    destruct Hl as (l' & Hl' & ->). apply list_elem_of_filter in Hb as [Hne Hb]. eauto.
  - intros [(Hk & l & Hl & Hb) Hne]. split; [done|]. exists (filter (fun a => a ≠ c) l).
    rewrite list_lookup_fmap, Hl. split; [done|]. by apply list_elem_of_filter.
Qed.

(** [freechunk_link] on a block that meets no free chunk. *)
Lemma wp_freechunk_link s k a :
  fl_ok s -> block_ok s k a -> (forall x, in_block k a x -> ~ covered s x) ->
  wp (freechunk_link a k) (fun _ s' => fl_ok s' /\ same_region s s' /\
    forall k' b, free_at s' k' b <-> free_at s k' b \/ (k' = k /\ b = a)) s.
Proof.
  intros Hs Hb Hfree. pose proof (block_order_lt s k a Hs Hb) as Hk.
  assert (exists l, freelist s !! Z.to_nat k = Some l) as [l Hl].
  { apply lookup_lt_is_Some_2. rewrite (fl_len s Hs). lia. }
  assert (Ha : ~ a ∈ l).
  { intros Hin. apply (Hfree a (in_block_self k a ltac:(lia))).
    exists k, a. split; [split; [lia|eauto]|apply in_block_self; lia]. }
  unfold freechunk_link. apply wp_bind, wp_modify, wp_bind, wp_bind, wp_gets.
  apply (wp_opt _ _ l); [done|]. apply wp_modify.
  match goal with |- fl_ok ?s' /\ _ => set (s1 := s') end.
  assert (Hat : forall k' b, free_at s1 k' b <-> free_at s k' b \/ (k' = k /\ b = a)).
  { intros k' b. exact (free_at_insert s k l a _ k' b Hl ltac:(lia)). }
  split; [|split; [by repeat split|done]].
  split; try apply Hs.
  - simpl. rewrite length_insert. apply Hs.
  - intros i l'. simpl. destruct (decide (i = Z.to_nat k)) as [->|Hne].
    + rewrite list_lookup_insert_eq by (by eapply lookup_lt_Some). intros [= <-].
      constructor; [done|]. by eapply (fl_nodup s Hs).
    + rewrite list_lookup_insert_ne by done. apply (fl_nodup s Hs).
  - intros k' b [H|[-> ->]]%Hat; [by destruct (fl_block s Hs k' b H)|by destruct Hb].
  - intros k' b [H|[-> ->]]%Hat; simpl; [|by rewrite lookup_insert_eq].
    rewrite lookup_insert_ne; [by apply Hs|]. intros ->.
    apply (Hfree b (in_block_self k b ltac:(lia))). exists k', b. split; [done|].
    apply in_block_self, H.
  - intros k1 a1 k2 a2 x [H1|[-> ->]]%Hat [H2|[-> ->]]%Hat Hx1 Hx2; [|..|done].
    + by eapply (fl_disj s Hs).
    + exfalso. apply (Hfree x Hx2). by exists k1, a1.
    + exfalso. apply (Hfree x Hx1). by exists k2, a2.
Qed.

(** Unlinking a free chunk; its header may change, and is no longer needed. *)
Lemma fl_unlink s k a c :
  fl_ok s -> free_at s k a ->
  let s' := set_freelist (filter (fun b => b ≠ a) <$> freelist s) (put_hdr a c s) in
  fl_ok s' /\ same_region s s' /\
  (forall k' b, free_at s' k' b <-> free_at s k' b /\ b <> a) /\
  (forall x, covered s' x <-> covered s x /\ ~ in_block k a x).
Proof.
  intros Hs Ha s'. assert (Hat : forall k' b, free_at s' k' b <-> free_at s k' b /\ b <> a).
  { intros k' b. apply (free_at_filter (put_hdr a c s)). }
  split_and!; [|by repeat split|done|].
  - split; try apply Hs.
    + simpl. rewrite length_fmap. apply Hs.
    + intros i l. simpl. rewrite list_lookup_fmap, fmap_Some. intros (l' & Hl' & ->).
      apply NoDup_filter. by eapply (fl_nodup s Hs).
    + intros k' b [H _]%Hat. by destruct (fl_block s Hs k' b H).
    + intros k' b [H Hne]%Hat. simpl. rewrite lookup_insert_ne by done. by apply Hs.
    + intros k1 a1 k2 a2 x [H1 _]%Hat [H2 _]%Hat. by apply (fl_disj s Hs).
  - intros x. split.
    + intros (k' & b & [Hb Hne]%Hat & Hx). split; [by exists k', b|].
      intros Hx'. by destruct (fl_disj s Hs k' b k a x) as [_ ->].
    + intros [(k' & b & Hb & Hx) Hn]. exists k', b. split; [|done]. apply Hat.
      split; [done|]. intros ->. apply Hn.
      pose proof (fl_hdr s Hs _ _ Ha) as E1. rewrite (fl_hdr s Hs _ _ Hb) in E1.
      by injection E1 as <-.
Qed.

(** A write to memory outside the free chunks keeps the lists intact. *)
Lemma fl_put_hdr s a c : fl_ok s -> ~ covered s a -> fl_ok (put_hdr a c s).
Proof.
  intros Hs Hn. split; try apply Hs; [intros; by destruct (fl_block s Hs k a0 H)|].
  intros k b Hb. simpl. rewrite lookup_insert_ne; [by apply Hs|]. intros ->.
  apply Hn. exists k, b. split; [done|]. apply in_block_self, Hb.
Qed.

(** ** carverange *)

(** The new chunks tile the range, and the buddy of none lies inside it. *)
Definition carved (s s' : pgstate) (addr hi cur : Z) : Prop :=
  (forall k b, free_at s k b -> free_at s' k b) /\
  (forall k b, free_at s' k b -> free_at s k b \/ (0 <= k /\ addr <= b /\ b + csize k <= cur /\
     ~ (addr <= buddy k b /\ buddy k b + csize k <= hi))) /\
  (forall x, addr <= x < cur -> covered s' x).

Definition carve_inv (s : pgstate) (addr hi : Z) (l : Z * Z) (s' : pgstate) : Prop :=
  let '(cur, rem) := l in
  fl_ok s' /\ same_region s s' /\ carved s s' addr hi cur /\
  cur + rem = hi /\ 0 <= rem /\ addr <= cur /\ (4096 | cur) /\ (4096 | rem) /\
  (rem = 0 \/ cur - addr < 2 ^ ctz cur \/ rem < 2 ^ ctz cur).

(** The chunk chosen in one round: order [n - 12] at [cur]. *)
Lemma carve_order cur rem n :
  0 < cur -> 0 < rem -> (4096 | cur) -> (4096 | rem) ->
  n = (if Z.log2 rem <? ctz cur then Z.log2 rem else ctz cur) ->
  12 <= n /\ (2 ^ n | cur) /\ 2 ^ n <= rem /\
  ((n = ctz cur /\ Z.testbit cur n = true /\ n + 1 <= ctz (cur + 2 ^ n)) \/
   (Z.testbit cur n = false /\ rem < 2 * 2 ^ n)).
Proof.
  intros Hc Hr [u Hu] [v Hv] Hn. destruct (ctz_spec cur Hc) as [Hz [q Hq]].
  destruct (Z.log2_spec rem Hr) as [Hlo Hhi]. rewrite Z.pow_succ_r in Hhi by apply Z.log2_nonneg.
  assert (H12 : 12 <= ctz cur) by (apply ctz_divide; [lia..|]; exists u; lia).
  assert (12 <= Z.log2 rem) by (apply Z.log2_le_pow2; nia).
  destruct (Z.ltb_spec (Z.log2 rem) (ctz cur)) as [Hlt|Hge]; subst n.
  - split_and!; [done| |done|].
    + apply ctz_divide; lia.
    + right. split; [|lia]. rewrite testbit_div_odd by lia.
      destruct (proj2 (ctz_divide cur (Z.log2 rem + 1) Hc ltac:(lia)) ltac:(lia)) as [w Hw].
      rewrite Z.pow_add_r in Hw by lia. change (2 ^ 1) with 2 in Hw.
      rewrite Hw, (Z.mul_comm _ 2), Z.mul_assoc, Z.div_mul by lia.
      rewrite Z.mul_comm, Z.odd_mul. done.
  - split_and!; [done| | |].
    + apply ctz_divide; lia.
    + etransitivity; [|exact Hlo]. apply Z.pow_le_mono_r; lia.
    + left. split_and!; [done| |].
      * rewrite testbit_div_odd by lia. rewrite Hq at 1.
        rewrite Z.mul_comm, Z.div_mul by lia. rewrite Z.odd_add, Z.odd_mul. done.
      * apply ctz_divide; [lia|lia|]. exists (q + 1). rewrite Z.pow_add_r by lia. lia.
Qed.

Lemma order2size_csize k : 0 <= k < 52 -> order2size k = csize k.
Proof.
  intros. unfold order2size, csize, BMK_PCPU_PAGE_SHIFT. rewrite Z.shiftl_1_l.
  apply Z.mod_small. split; [lia|]. apply Z.pow_lt_mono_r; lia.
Qed.

Lemma carve_step s addr hi cur rem n s1 :
  carve_inv s addr hi (cur, rem) s1 -> 0 < rem -> minpage_addr s <= addr ->
  hi <= maxpage_addr s -> (forall x, addr <= x < hi -> ~ covered s x) ->
  n = (if Z.log2 rem <? ctz cur then Z.log2 rem else ctz cur) ->
  wp (freechunk_link cur (n - 12))
     (fun _ s' => carve_inv s addr hi (cur + 2 ^ n, rem - 2 ^ n) s') s1.
Proof.
  intros (Hs1 & Hreg & (Hold & Hnew & Hcov) & Hsum & Hrem & Hge & Hpc & Hpr & Hphase)
    Hpos Hlo Hhi Hfree Hn.
  destruct Hreg as (Rc & Rl & Rmin & Rmax & Rbm & Rt & Ru).
  assert (0 < cur) by (pose proof (fl_min s1 Hs1); lia).
  destruct (carve_order cur rem n) as (H12 & Hdiv & Hle & Hcase); [done..|].
  assert (Ecs : csize (n - 12) = 2 ^ n) by (unfold csize; f_equal; lia).
  assert (0 < 2 ^ n) by lia.
  assert (Hnc : forall x, in_block (n - 12) cur x -> ~ covered s1 x).
  { intros x Hx (k & b & Hb & Hxb). unfold in_block in *. rewrite Ecs in Hx.
    destruct (Hnew k b Hb) as [Hb'|(? & ? & ? & ?)]; [|lia].
    apply (Hfree x); [lia|]. by exists k, b. }
  eapply wp_mono; [apply wp_freechunk_link; [done| |done]|].
  { split; [lia|by rewrite Ecs|lia|rewrite Ecs; lia]. }
  intros _ s' (Hs' & Hreg' & Hat). split_and!; [done| |split_and!|lia|lia|lia| | |].
  - etransitivity; [|exact Hreg']. by repeat split.
  - intros k b Hb. apply Hat. left. by apply Hold.
  - intros k b [Hb|[-> ->]]%Hat.
    + destruct (Hnew k b Hb) as [|(? & ? & ? & ?)]; [by left|right]. split_and!; [done..|lia|done].
    + right. rewrite Ecs. split_and!; [lia|lia|lia|]. unfold buddy.
      replace (n - 12 + 12) with n by lia. rewrite Ecs.
      destruct Hcase as [(-> & Ht & _)|(Ht & Hlt)]; rewrite Ht; lia.
  - intros x Hx. destruct (Z.lt_ge_cases x cur).
    + destruct (Hcov x ltac:(lia)) as (k & b & Hb & Hxb). exists k, b. split; [|done].
      apply Hat. by left.
    + exists (n - 12), cur. split; [apply Hat; by right|]. unfold in_block. lia.
  - apply Z.divide_add_r; [done|]. rewrite <- Ecs. apply csize_page. lia.
  - apply Z.divide_sub_r; [done|]. rewrite <- Ecs. apply csize_page. lia.
  - destruct (Z.eq_dec (rem - 2 ^ n) 0); [by left|right].
    assert (Hdn : n <= ctz (cur + 2 ^ n)).
    { apply ctz_divide; [lia..|]. apply Z.divide_add_r; [done|reflexivity]. }
    destruct Hcase as [(-> & Ht & Hc)|(Ht & Hlt)].
    + left. assert (2 ^ (ctz cur + 1) <= 2 ^ ctz (cur + 2 ^ ctz cur)) by (apply Z.pow_le_mono_r; lia).
      rewrite Z.pow_add_r in * by lia. lia.
    + right. assert (2 ^ n <= 2 ^ ctz (cur + 2 ^ n)) by (apply Z.pow_le_mono_r; lia). lia.
Qed.

(** [carverange] frees exactly [addr, addr + range), terminates, and leaves no
    two buddies among the chunks it makes. *)
Lemma wp_carverange s addr range :
  fl_ok s -> (4096 | addr) -> (4096 | range) -> 0 <= range ->
  minpage_addr s <= addr -> addr + range <= maxpage_addr s ->
  (forall x, addr <= x < addr + range -> ~ covered s x) ->
  wp (carverange addr range) (fun _ s' => fl_ok s' /\ same_region s s' /\
    carved s s' addr (addr + range) (addr + range)) s.
Proof.
  intros Hs Ha Hr H0 Hlo Hhi Hfree. pose proof (fl_min s Hs). pose proof (fl_max s Hs).
  unfold carverange.
  apply (wp_loop _ (carve_inv s addr (addr + range)) (fun l _ => snd l)).
  - intros [cur rem] s1 HI. pose proof HI as (Hs1 & Hreg & Hcar & Hsum & Hrem & Hge & Hpc & Hpr & _).
    split; [done|]. destruct (Z.eqb_spec rem 0) as [->|Hne].
    + apply wp_ret. assert (cur = addr + range) as -> by lia. done.
    + destruct (carve_order cur rem _ ltac:(lia) ltac:(lia) Hpc Hpr eq_refl) as (H12 & _ & Hle & _).
      set (n := if Z.log2 rem <? ctz cur then Z.log2 rem else ctz cur) in *.
      assert (Hl2 : 0 <= Z.log2 rem < 64).
      { split; [apply Z.log2_nonneg|]. apply Z.log2_lt_pow2; lia. }
      assert (u32 (8 * 8 - (clz64 rem + 1)) = Z.log2 rem) as ->
        by (unfold u32, clz64; rewrite Z.mod_small; lia).
      fold n. assert (n < 64) by (subst n; zcases).
      assert (u32 (n - BMK_PCPU_PAGE_SHIFT) = n - 12) as ->
        by (unfold u32, BMK_PCPU_PAGE_SHIFT; rewrite Z.mod_small; lia).
      assert (addr2chunk cur 0 = cur) as ->
        by (unfold addr2chunk, u64; rewrite Z.mod_small; lia).
      rewrite order2size_csize by lia.
      assert (csize (n - 12) = 2 ^ n) as -> by (unfold csize; f_equal; lia).
      assert (u64 (cur + 2 ^ n) = cur + 2 ^ n) as -> by (apply Z.mod_small; lia).
      assert (u64 (rem - 2 ^ n) = rem - 2 ^ n) as -> by (apply Z.mod_small; lia).
      apply wp_bind. eapply wp_mono; [eapply carve_step; eauto; lia|].
      intros [] s' HI'. apply wp_ret. split; [done|]. simpl. lia.
  - split_and!; [done|reflexivity|split_and!|done|done|lia|done|done|].
    + done.
    + by left.
    + lia.
    + destruct (Z.eq_dec range 0); [by left|right; left].
      rewrite Z.sub_diag. apply Z.pow_pos_nonneg; [lia|]. apply ctz_spec. lia.
  - simpl. lia.
Qed.
