(* ===== verification/PgallocThms.v ===== *)
(** * The page allocator: invariant and theorems *)

From S2P Require Import Prelude Pgalloc PgallocMap PgallocInv.

(** ** The invariant *)

Definition npages (s : pgstate) : Z := (maxpage_addr s - minpage_addr s) / 4096.
Definition pg_va (s : pgstate) (q : Z) : Z := minpage_addr s + 4096 * q.

(** The bitmap says "free" for the pages of free chunks and of [extra]. *)
Definition map_ok (s : pgstate) (extra : Z -> Prop) : Prop :=
  forall q, 0 <= q < npages s ->
    (map_bit (alloc_bitmap s) q = false <-> covered s (pg_va s q) \/ extra (pg_va s q)).

(** No two buddies are both free: nothing is left to merge. *)
Definition coalesced (s : pgstate) : Prop :=
  forall k a, free_at s k a -> ~ free_at s k (buddy k a).

Record pg_inv (s : pgstate) : Prop := {
  pi_fl : fl_ok s;
  pi_lock : pg_locked s = false;
  pi_le : minpage_addr s <= maxpage_addr s;
  pi_len : npages s / 64 < Z.of_nat (length (alloc_bitmap s));
  pi_map : map_ok s (fun _ => False);
  pi_coal : coalesced s
}.

Lemma fl_ok_ext s s' :
  freelist s' = freelist s -> headers s' = headers s ->
  minpage_addr s' = minpage_addr s -> maxpage_addr s' = maxpage_addr s -> fl_ok s -> fl_ok s'.
Proof.
  intros E1 E2 E3 E4 [H1 H2 H3 H4 H5 H6 H7 H8 H9]. unfold free_at in *.
  split; rewrite ?E1, ?E2, ?E3, ?E4; try done.
  - unfold free_at. rewrite E1. intros k a H. destruct (H7 k a H). split; congruence.
  - unfold free_at. rewrite E1. apply H8.
  - unfold free_at. rewrite E1. apply H9.
Qed.

(** ** Pages of a block *)

Lemma va_to_pg_eq s a : fl_ok s -> minpage_addr s <= a < 2 ^ 64 ->
  va_to_pg s a = (a - minpage_addr s) / 4096.
Proof.
  intros Hs Ha. pose proof (fl_min s Hs). unfold va_to_pg, u64, BMK_PCPU_PAGE_SHIFT.
  rewrite Z.mod_small, Z.shiftr_div_pow2 by lia. done.
Qed.

Lemma csize_pages k : 0 <= k -> csize k = 4096 * 2 ^ k.
Proof. intros. unfold csize. rewrite Z.pow_add_r by lia. lia. Qed.

Lemma npages_exact s : fl_ok s -> maxpage_addr s - minpage_addr s = 4096 * npages s.
Proof.
  intros Hs. destruct (fl_minp s Hs) as [u Hu], (fl_maxp s Hs) as [v Hv].
  unfold npages. rewrite Hu, Hv. replace (v * 4096 - u * 4096) with ((v - u) * 4096) by lia.
  rewrite Z.div_mul by lia. lia.
Qed.

(** The pages [first, first + 2^k) of a block lie in the map, and page [q] is
    one of them exactly when its first byte is in the block. *)
Lemma block_pages s k a : fl_ok s -> block_ok s k a ->
  exists first, va_to_pg s a = first /\ a = pg_va s first /\ 0 <= first /\
    first + 2 ^ k <= npages s /\ npages s < 2 ^ 52 /\
    forall q, in_block k a (pg_va s q) <-> first <= q < first + 2 ^ k.
Proof.
  intros Hs Hb. destruct Hb as [Hk Hal Hlo Hhi]. pose proof (csize_pos k Hk).
  pose proof (csize_pages k Hk) as Ecs. pose proof (npages_exact s Hs) as En.
  pose proof (fl_min s Hs). pose proof (fl_max s Hs).
  destruct (Z.divide_trans _ _ _ (csize_page k Hk) Hal) as [u Hu].
  destruct (fl_minp s Hs) as [v Hv].
  exists (u - v). rewrite va_to_pg_eq by (done || lia). unfold pg_va, in_block.
  assert (Ed : (a - minpage_addr s) / 4096 = u - v).
  { rewrite Hu, Hv. replace (u * 4096 - v * 4096) with ((u - v) * 4096) by lia.
    by rewrite Z.div_mul. }
  rewrite Ed. split_and!; try lia.
Qed.

Lemma block_fill_range s k a : fl_ok s -> block_ok s k a ->
  npages s / 64 < Z.of_nat (length (alloc_bitmap s)) -> fill_range s a (2 ^ k).
Proof.
  intros Hs Hb Hlen. destruct (block_pages s k a Hs Hb) as (f & Hf & _ & H0 & Hle & Hlt & _).
  destruct Hb. assert (0 < 2 ^ k) by lia. split; rewrite ?Hf; try lia.
  assert ((f + 2 ^ k) / 64 <= npages s / 64) by (apply Z.div_le_mono; lia). lia.
Qed.

(** ** Coverage *)

Lemma carved_covered s s' addr hi x : carved s s' addr hi hi ->
  covered s' x <-> covered s x \/ addr <= x < hi.
Proof.
  intros (Hold & Hnew & Hcov). split.
  - intros (k & b & [H|(? & ? & ? & _)]%Hnew & Hx); [left; by exists k, b|right].
    unfold in_block in Hx. lia.
  - intros [(k & b & H & Hx)|H]; [exists k, b; split; [by apply Hold|done]|by apply Hcov].
Qed.

(** A free page's chunk at the position of a buddy starts exactly there. *)
Lemma covered_buddy_head s k f :
  fl_ok s -> block_ok s k f -> (forall x, in_block k f x -> ~ covered s x) ->
  covered s (buddy k f) -> exists k', k' <= k /\ free_at s k' (buddy k f).
Proof.
  intros Hs [Hk Hal Hlo Hhi] Hfree (k' & a' & Ha' & Hin).
  destruct (fl_block s Hs _ _ Ha') as [Hk' Hal' _ _].
  pose proof (buddy_aligned k f Hk Hal) as Hbal. pose proof (csize_pos k Hk).
  assert (k' <= k) as Hle.
  { destruct (Z.le_gt_cases k' k); [done|exfalso].
    pose proof (buddy_in_larger k k' (buddy k f) a' ltac:(lia) Hbal Hal' Hin) as Hb.
    rewrite buddy_invol in Hb by done.
    apply (Hfree f (in_block_self k f Hk)). exists k', a'. split; [done|]. unfold in_block. lia. }
  exists k'. split; [done|].
  pose proof (aligned_nested k' k a' (buddy k f) (buddy k f) ltac:(lia) Hal' Hbal Hin
    (in_block_self _ _ Hk)) as [? _].
  unfold in_block in Hin. assert (a' = buddy k f) as <- by lia. done.
Qed.

(** ** Allocation *)

Lemma wp_freelist_get s k (Q : list Z -> pgstate -> Prop) : fl_ok s -> 0 <= k < 52 ->
  (forall l, freelist s !! Z.to_nat k = Some l -> Q l s) -> wp (freelist_get k) Q s.
Proof.
  intros Hs Hk HQ. destruct (lookup_lt_is_Some_2 (freelist s) (Z.to_nat k)) as [l Hl];
    [rewrite (fl_len s Hs); lia|].
  apply wp_bind, wp_gets. eapply wp_opt; eauto.
Qed.

Lemma free_at_in s k l a : 0 <= k -> freelist s !! Z.to_nat k = Some l ->
  free_at s k a <-> a ∈ l.
Proof.
  intros Hk Hl. split; [intros (_ & l' & Hl' & H); congruence|]. intros H. split; eauto.
Qed.

Lemma wp_satisfies_p s k align : fl_ok s -> 0 <= k < 52 ->
  wp (satisfies_p k align) (fun ch s' => s' = s /\
    ((ch = 0 /\ forall a, free_at s k a -> Z.land a (align - 1) <> 0) \/
     (ch <> 0 /\ free_at s k ch /\ Z.land ch (align - 1) = 0))) s.
Proof.
  intros Hs Hk. apply wp_bind, wp_freelist_get; [done..|]. intros l Hl. apply wp_ret.
  split; [done|]. destruct (List.find _ l) as [ch|] eqn:E.
  - apply find_some in E as [Hin Hland]. apply list_elem_of_In in Hin.
    assert (free_at s k ch) as Hf by (eapply free_at_in; eauto; lia).
    right. split_and!; [|done|lia]. pose proof (bo_lo _ _ _ (fl_block s Hs _ _ Hf)).
    pose proof (fl_min s Hs). lia.
  - left. split; [done|]. intros a Ha Hz. eapply free_at_in in Ha; eauto; [|lia].
    apply list_elem_of_In in Ha. eapply find_none in E; eauto. simpl in E. lia.
Qed.

Lemma wp_find_bucket s order align : fl_ok s -> 0 <= order ->
  wp (find_bucket order align) (fun r s' => s' = s /\ let '(ch, b) := r in
    (ch = 0 /\ forall k a, order <= k -> free_at s k a -> Z.land a (align - 1) <> 0) \/
    (ch <> 0 /\ order <= b < 52 /\ free_at s b ch /\ Z.land ch (align - 1) = 0)) s.
Proof.
  intros Hs Ho.
  apply (wp_loop _ (fun b s' => s' = s /\ order <= b /\
    forall k a, order <= k < b -> free_at s k a -> Z.land a (align - 1) <> 0)
    (fun b _ => Z.max 0 (52 - b))).
  - intros b s' (-> & Hb & Hno). split; [lia|]. unfold FREELIST_LEVELS.
    destruct (Z.ltb_spec b 52).
    + apply wp_bind. eapply wp_mono; [apply wp_satisfies_p; [done|lia]|].
      intros ch s' (-> & [[-> Hn]|(Hne & Hf & Hl)]); apply wp_ret.
      * simpl. split_and!; [done|lia| |lia|lia]. intros k a Hk. destruct (Z.eq_dec k b) as [->|].
        { apply Hn. } { apply Hno. lia. }
      * destruct (Z.eqb_spec ch 0); [done|]. simpl. split; [done|]. right. split_and!; (done || lia).
    + apply wp_ret. split; [done|]. left. split; [done|]. intros k a Hk Hf.
      apply (Hno k a); [|done].
      pose proof (block_order_lt s k a Hs (fl_block s Hs _ _ Hf)). lia.
  - split_and!; [done|lia|]. lia.
  - lia.
Qed.

(** The free state after a successful allocation of [k] pages' order at [r]. *)
Record allocated_block (s s' : pgstate) (k r : Z) : Prop := {
  ab_block : block_ok s k r;
  ab_was_free : forall x, in_block k r x -> covered s x;
  ab_now : forall x, covered s' x <-> covered s x /\ ~ in_block k r x
}.

Lemma pow2_align align : 4096 <= align -> Z.land align (align - 1) = 0 ->
  exists n, 12 <= n /\ align = 2 ^ n /\ forall a, Z.land a (align - 1) = 0 <-> (align | a).
Proof.
  intros Hge Hl. exists (Z.log2 align). pose proof (land_pred_pow2 align ltac:(lia) Hl) as E.
  assert (12 <= Z.log2 align) by (apply Z.log2_le_pow2; lia). split_and!; [done|done|].
  intros a. rewrite E, land_mask_mod by lia. apply Z.mod_divide. lia.
Qed.

(** Unlinking chunk [(b, ch)] and carving what follows its first [2^k] pages. *)
Lemma split_chunk s k b ch :
  fl_ok s -> coalesced s -> free_at s b ch -> 0 <= k <= b ->
  let s1 := set_freelist (filter (fun a => a ≠ ch) <$> freelist s)
              (put_hdr ch (mkChunk b 0) s) in
  wp (carverange (ch + csize k) (csize b - csize k)) (fun _ s' =>
    fl_ok s' /\ same_region s s' /\ coalesced s' /\ allocated_block s s' k ch) s1.
Proof.
  intros Hs Hco Hch Hk s1. destruct (fl_unlink s b ch (mkChunk b 0) Hs Hch) as (Hs1 & Hr1 & Hat & Hcov).
  fold s1 in Hs1, Hr1, Hat, Hcov. pose proof (fl_block s Hs _ _ Hch) as [Hb Hal Hlo Hhi].
  pose proof (csize_pos k ltac:(lia)). pose proof (csize_le k b ltac:(lia)).
  assert (Pk := csize_page k ltac:(lia)). assert (Pb := csize_page b ltac:(lia)).
  assert (Pc : (4096 | ch)) by (etransitivity; [exact Pb|done]).
  eapply wp_mono; [apply wp_carverange|].
  - done.
  - by apply Z.divide_add_r.
  - by apply Z.divide_sub_r.
  - lia.
  - simpl. lia.
  - simpl. lia.
  - intros x Hx [_ Hn]%Hcov. apply Hn. unfold in_block. lia.
  - intros [] s' (Hs' & Hr' & Hca). replace (ch + csize k + (csize b - csize k)) with
      (ch + csize b) in Hca by lia.
    assert (Hc' : forall x, covered s' x <-> covered s x /\ ~ in_block k ch x).
    { intros x. rewrite (carved_covered _ _ _ _ x Hca), Hcov. unfold in_block.
      assert (ch <= x < ch + csize b -> covered s x) by (intros; exists b, ch; done).
      destruct (decide (ch <= x < ch + csize b)); intuition lia. }
    split_and!; [done|by etransitivity| |split].
    + intros k' a Ha Hbud. destruct Hca as (_ & Hnew & _).
      destruct (Hnew _ _ Ha) as [[Ha1 Hne]%Hat|(? & ? & ? & Hn)],
        (Hnew _ _ Hbud) as [[Hb1 Hne']%Hat|(? & ? & ? & Hn')].
      * by apply (Hco k' a).
      * destruct (fl_block s Hs _ _ Ha1) as [Hk' Hal' _ _].
        rewrite buddy_invol in Hn' by done.
        assert (k' < b) by (apply csize_lt_inv; lia).
        pose proof (csize_pos k' ltac:(lia)).
        pose proof (buddy_in_larger k' b (buddy k' a) ch ltac:(lia)
          (buddy_aligned _ _ Hk' Hal') Hal ltac:(unfold in_block; lia)) as Hin.
        rewrite buddy_invol in Hin by done.
        destruct (fl_disj s Hs k' a b ch a); [done|done|by apply in_block_self|unfold in_block; lia|lia].
      * pose proof (csize_pos k' ltac:(lia)). assert (k' < b) by (apply csize_lt_inv; lia).
        destruct (fl_block s' Hs' _ _ Ha) as [Hk' Hal' _ _].
        pose proof (buddy_in_larger k' b a ch ltac:(lia) Hal' Hal ltac:(unfold in_block; lia)).
        destruct (fl_disj s Hs k' (buddy k' a) b ch (buddy k' a));
          [done|done|by apply in_block_self|unfold in_block; lia|lia].
      * lia.
    + split; [lia| |done|lia]. etransitivity; [|exact Hal]. apply pow2_divide_le. lia.
    + intros x Hx. exists b, ch. split; [done|]. unfold in_block in *. lia.
    + done.
Qed.

(** Setting the bits of the allocated block restores the map's meaning. *)
Lemma map_ok_alloc s s' k r bm' :
  fl_ok s -> map_ok s (fun _ => False) -> same_region s s' -> allocated_block s s' k r ->
  map_filled true (va_to_pg s r) (va_to_pg s r + 2 ^ k) (alloc_bitmap s) bm' ->
  map_ok (set_bitmap bm' s') (fun _ => False).
Proof.
  intros Hs Hm (_ & _ & Emin & Emax & _) [Hb Hwas Hnow] [_ Hbit] q Hq.
  destruct (block_pages s k r Hs Hb) as (f & Ef & _ & H0 & _ & _ & Hpg). rewrite Ef in Hbit.
  assert (pg_va (set_bitmap bm' s') q = pg_va s q) as -> by (unfold pg_va; simpl; congruence).
  assert (covered (set_bitmap bm' s') (pg_va s q) <-> covered s' (pg_va s q)) as -> by done.
  unfold npages in Hq. simpl in Hq |- *. rewrite Emin, Emax in Hq. fold (npages s) in Hq.
  rewrite Hbit, Hnow by lia. specialize (Hm q Hq). specialize (Hpg q).
  destruct (decide (f <= q < f + 2 ^ k)) as [Hin|Hout].
  - rewrite (proj2 (Z.leb_le f q)), (proj2 (Z.ltb_lt q (f + 2 ^ k))) by lia. simpl. intuition done.
  - assert ((f <=? q) && (q <? f + 2 ^ k) = false) as -> by lia. intuition.
Qed.

Lemma same_region_locked b s s' :
  same_region (set_locked b s) s' -> same_region s (set_locked (pg_locked s) s').
Proof. unfold same_region. simpl. intuition congruence. Qed.

(** What [bmk_pgalloc_align] promises. *)
Definition pgalloc_post (s : pgstate) (order align r : Z) (s' : pgstate) : Prop :=
  pg_inv s' /\ minpage_addr s' = minpage_addr s /\ maxpage_addr s' = maxpage_addr s /\
  ((r = 0 /\ s' = s /\ forall k a, order <= k -> free_at s k a -> ~ (align | a)) \/
   (r <> 0 /\ (align | r) /\ allocated_block s s' order r)).

Lemma wp_bmk_pgalloc_align s order align :
  pg_inv s -> 0 <= order < 52 -> 4096 <= align -> Z.land align (align - 1) = 0 ->
  wp (bmk_pgalloc_align order align) (pgalloc_post s order align) s.
Proof.
  intros [Hfl Hlk Hle Hlen Hmap Hco] Ho Hal Hp2.
  destruct (pow2_align align Hal Hp2) as (n & Hn & En & Hdiv).
  unfold bmk_pgalloc_align. apply wp_bind, wp_assert.
  { unfold BMK_PCPU_PAGE_SIZE. rewrite Hp2. zcases. }
  apply wp_bind, wp_assert; [unfold u32, FREELIST_LEVELS; rewrite Z.mod_small by lia; lia|].
  apply wp_bind, wp_bind, wp_gets, wp_bind, wp_assert; [by rewrite Hlk|]. apply wp_modify.
  set (sl := set_locked true s).
  assert (Hfl' : fl_ok sl) by (by apply (fl_ok_ext s)).
  apply wp_bind. eapply wp_mono; [apply wp_find_bucket; [done|lia]|].
  intros [ch b] s' [-> [[-> Hno]|(Hne & Hb & Hch & Hland)]].
  - simpl. apply wp_bind, wp_modify, wp_ret. replace (set_locked false sl) with s
      by (subst sl; destruct s; simpl in *; by subst).
    split; [done|]. split_and!; [done..|]. left. split_and!; [done..|].
    intros k a Hk Ha Hd. by apply (Hno k a), Hdiv.
  - destruct (Z.eqb_spec ch 0); [done|].
    apply wp_bind, wp_modify, wp_bind, wp_gets.
    pose proof (fl_hdr s Hfl _ _ Hch) as Hh.
    assert (Eh : forall fl, hdr (set_freelist fl sl) ch = mkChunk b CHUNKMAGIC).
    { intros fl. unfold hdr. simpl. by rewrite Hh. }
    rewrite Eh. apply wp_bind, wp_assert; [done|]. apply wp_bind, wp_modify. rewrite Eh. simpl.
    rewrite !order2size_csize by lia.
    pose proof (fl_block s Hfl _ _ Hch) as [_ _ Hlo Hhi].
    pose proof (fl_min s Hfl). pose proof (fl_max s Hfl).
    pose proof (csize_pos order ltac:(lia)). pose proof (csize_le order b ltac:(lia)).
    assert (u64 (csize b - csize order) = csize b - csize order) as -> by (apply Z.mod_small; lia).
    assert (u64 (ch + csize order) = ch + csize order) as -> by (apply Z.mod_small; lia).
    apply wp_bind. eapply wp_mono; [exact (split_chunk sl order b ch Hfl' Hco Hch ltac:(lia))|].
    intros [] s1 (Hs1 & Hr1 & Hco1 & Hab). rewrite Z.shiftl_1_l.
    pose proof Hr1 as (Rc & Rl & Rmin & Rmax & Rbm & Rt & Ru).
    assert (Hb1 : block_ok s1 order ch) by (destruct (ab_block _ _ _ _ Hab); split; congruence).
    assert (En1 : npages s1 = npages sl) by (unfold npages; congruence).
    apply wp_bind. eapply wp_mono; [apply wp_map_alloc, block_fill_range; [done..|]|].
    { rewrite En1, Rbm. done. }
    intros [] s2 (bm' & -> & Hfill).
    apply wp_bind, wp_modify, wp_bind, wp_modify, wp_bind, wp_assert; [lia|]. apply wp_ret.
    assert (Eva : va_to_pg s1 ch = va_to_pg sl ch) by (unfold va_to_pg; congruence).
    rewrite Eva, Rbm in Hfill.
    pose proof (map_ok_alloc sl s1 order ch bm' Hfl' Hmap Hr1 Hab Hfill) as Hm'.
    split; [split|].
    + by apply (fl_ok_ext s1).
    + done.
    + simpl. rewrite Rmin, Rmax. done.
    + change (npages s1 / 64 < Z.of_nat (length bm')). by rewrite En1, (proj1 Hfill).
    + exact Hm'.
    + exact Hco1.
    + split; [exact Rmin|split; [exact Rmax|right]]. split; [done|split; [by apply Hdiv|]].
      destruct Hab as [[] Hw Hnow]. by split.
Qed.

(** ** Freeing *)

(** The state of the coalescing loop: block [(k, f)] is free but on no list. *)
Record floating (s : pgstate) (k f : Z) : Prop := {
  fo_fl : fl_ok s;
  fo_block : block_ok s k f;
  fo_out : forall x, in_block k f x -> ~ covered s x;
  fo_map : map_ok s (in_block k f);
  fo_len : npages s / 64 < Z.of_nat (length (alloc_bitmap s));
  fo_coal : coalesced s
}.

(** The pointer arithmetic of the loop computes the buddy. *)
Lemma coalesce_buddy s k f : fl_ok s -> block_ok s k f ->
  negb (Z.land f (csize k) =? 0) = Z.testbit f (k + 12) /\
  addr2chunk f (if Z.testbit f (k + 12) then - csize k else csize k) = buddy k f /\
  0 <= buddy k f < 2 ^ 64.
Proof.
  intros Hs Hb. pose proof (block_order_lt s k f Hs Hb) as Hk. destruct Hb as [_ Hal Hlo Hhi].
  pose proof (fl_min s Hs). pose proof (fl_max s Hs). pose proof (csize_pos k ltac:(lia)).
  assert (Hbd : 0 <= buddy k f < 2 ^ 64).
  { destruct (buddy_spec k f ltac:(lia) Hal) as (p & [u Hp] & Hcase).
    pose proof (csize_succ k ltac:(lia)) as Ecs. rewrite Ecs in Hp.
    assert (2 ^ 64 = 2 * csize k * 2 ^ (51 - k)) as E64
      by (rewrite <- Ecs; unfold csize; rewrite <- Z.pow_add_r by lia; f_equal; lia).
    assert (0 < 2 ^ (51 - k)) by (apply Z.pow_pos_nonneg; lia).
    assert (f < 2 ^ 64) by lia. rewrite E64 in *.
    set (c := csize k) in *. set (m := 2 ^ (51 - k)) in *. clearbody c m.
    destruct Hcase as [(_ & -> & ->)|(_ & -> & ->)]; subst p.
    - assert (u < m) by nia. nia.
    - assert (0 <= u) by nia. nia. }
  split_and!; [|unfold addr2chunk|lia|lia].
  - unfold csize at 1. rewrite land_pow2_testbit by lia. fold (csize k).
    destruct (Z.testbit f (k + 12)); [|done]. destruct (Z.eqb_spec (csize k) 0); [lia|done].
  - unfold buddy in *. destruct (Z.testbit f (k + 12)); apply Z.mod_small; lia.
Qed.

(** The merge test succeeds exactly when the buddy is a free chunk of the
    same order; the header it reads is always a chunk header. *)
Lemma wp_can_merge s k f : floating s k f ->
  wp (can_merge (buddy k f) k) (fun b s' => s' = s /\
    (b = true <-> free_at s k (buddy k f))) s.
Proof.
  intros [Hs Hb Hout Hmap Hlen _]. pose proof Hb as [Hk Hal _ _].
  pose proof (fl_max s Hs). pose proof (csize_pos k Hk).
  unfold can_merge, addr_is_managed. apply wp_bind, wp_bind, wp_get, wp_ret.
  destruct (Z.leb_spec (minpage_addr s) (buddy k f)), (Z.ltb_spec (buddy k f) (maxpage_addr s));
    simpl; try (apply wp_ret; split; [done|]; split; [done|]; intros Hf;
      destruct (fl_block s Hs _ _ Hf); lia).
  destruct (Z.divide_trans _ _ _ (csize_page k Hk) (buddy_aligned k f Hk Hal)) as [u Hu].
  destruct (fl_minp s Hs) as [v Hv]. pose proof (npages_exact s Hs) as En.
  assert (Eq : va_to_pg s (buddy k f) = u - v).
  { rewrite va_to_pg_eq by (done || lia). rewrite Hu, Hv.
    replace (u * 4096 - v * 4096) with ((u - v) * 4096) by lia. by rewrite Z.div_mul. }
  assert (Hq : 0 <= u - v < npages s) by lia.
  assert ((u - v) / 64 <= npages s / 64) by (apply Z.div_le_mono; lia).
  apply wp_bind, wp_allocated_in_map; rewrite ?Eq; try lia.
  specialize (Hmap (u - v) Hq). assert (pg_va s (u - v) = buddy k f) as E by (unfold pg_va; lia).
  rewrite E in Hmap.
  assert (Hnin : ~ in_block k f (buddy k f)).
  { unfold in_block, buddy. destruct (Z.testbit _ _); lia. }
  destruct (map_bit _ _) eqn:Ebit.
  - apply wp_ret. split; [done|]. split; [done|]. intros Hf. exfalso.
    assert (true = false); [|done]. apply Hmap. left. exists k, (buddy k f). split; [done|].
    by apply in_block_self.
  - destruct (proj1 Hmap eq_refl) as [Hc|]; [|done].
    destruct (covered_buddy_head s k f Hs Hb Hout Hc) as (k' & Hle & Hf').
    apply wp_bind, wp_bind, wp_gets, wp_bind.
    assert (Eh : hdr s (buddy k f) = mkChunk k' CHUNKMAGIC)
      by (unfold hdr; by rewrite (fl_hdr s Hs _ _ Hf')).
    apply wp_assert; [by rewrite Eh|]. apply wp_ret. rewrite Eh. apply wp_ret. simpl.
    split; [done|]. split; [intros Ek; assert (k' = k) as <- by lia; done|].
    intros Hf. pose proof (fl_hdr s Hs _ _ Hf) as E1. rewrite (fl_hdr s Hs _ _ Hf') in E1.
    injection E1 as ->. lia.
Qed.

(** One merge: the buddy leaves its list and the block doubles. *)
Lemma merge_step s k f c c' : floating s k f -> free_at s k (buddy k f) ->
  let p := if Z.testbit f (k + 12) then buddy k f else f in
  let s' := set_freelist (filter (fun b => b ≠ buddy k f) <$> freelist s)
              (put_hdr (buddy k f) c (put_hdr f c' s)) in
  floating s' (k + 1) p /\ same_region s s' /\
  (forall x, covered s' x \/ in_block (k + 1) p x <-> covered s x \/ in_block k f x).
Proof.
  intros [Hs Hb Hout Hmap Hlen Hco] Hbud p s'. pose proof Hb as [Hk Hal Hlo Hhi].
  pose proof (fl_put_hdr s f c' Hs (Hout f (in_block_self k f Hk))) as Hs0.
  assert (fl_ok s' /\ same_region s s' /\
    (forall k' b, free_at s' k' b <-> free_at s k' b /\ b <> buddy k f) /\
    (forall x, covered s' x <-> covered s x /\ ~ in_block k (buddy k f) x))
    as (Hs' & Hr & Hat & Hcov) by exact (fl_unlink _ k (buddy k f) c Hs0 Hbud). pose proof (fl_block s Hs _ _ Hbud) as [_ _ Hlo' Hhi'].
  destruct (buddy_spec k f Hk Hal) as (p' & Hp' & Hcase).
  assert (p = p') as Ep by (subst p; destruct Hcase as [(-> & ? & ?)|(-> & ? & ?)]; lia).
  pose proof (csize_succ k Hk). pose proof (csize_pos k Hk).
  assert (Hun : forall x, in_block (k + 1) p x <-> in_block k f x \/ in_block k (buddy k f) x).
  { intros x. unfold in_block. rewrite Ep. destruct Hcase as [(_ & -> & ->)|(_ & -> & ->)]; lia. }
  assert (Hc' : forall x, covered s' x \/ in_block (k + 1) p x <-> covered s x \/ in_block k f x).
  { intros x. rewrite Hun, Hcov.
    assert (in_block k (buddy k f) x -> covered s x) by (intros; exists k, (buddy k f); done).
    assert (in_block k (buddy k f) x \/ ~ in_block k (buddy k f) x) by (unfold in_block; lia).
    tauto. }
  split_and!; [split| |done].
  - done.
  - destruct Hr as (_ & _ & Emin & Emax & _). split; [lia|by rewrite Ep| |];
      rewrite ?Emin, ?Emax; simpl; destruct Hcase as [(_ & ? & ?)|(_ & ? & ?)]; lia.
  - intros x [Hx|Hx]%Hun [Hc Hn]%Hcov; [by apply (Hout x)|done].
  - intros q Hq. change (pg_va s' q) with (pg_va s q). rewrite Hc'. apply (Hmap q Hq).
  - done.
  - intros k' a [Ha _]%Hat [Ha' _]%Hat. by apply (Hco k' a).
  - done.
Qed.

Lemma wp_coalesce s k f : floating s k f ->
  wp (coalesce f k) (fun r s' => let '(f', k') := r in
    floating s' k' f' /\ same_region s s' /\ ~ free_at s' k' (buddy k' f') /\
    forall x, covered s' x \/ in_block k' f' x <-> covered s x \/ in_block k f x) s.
Proof.
  intros H0.
  apply (wp_loop _ (fun '(f', k') s' => floating s' k' f' /\ same_region s s' /\
    forall x, covered s' x \/ in_block k' f' x <-> covered s x \/ in_block k f x)
    (fun '(_, k') _ => 52 - k')).
  - intros [f1 k1] s1 (Hfo & Hr & Hc). pose proof Hfo as [Hs Hb Hout Hmap Hlen Hco].
    pose proof (block_order_lt s1 k1 f1 Hs Hb) as Hk. split; [lia|]. cbv beta iota zeta.
    assert ((u32 k1 <? FREELIST_LEVELS) = true) as ->
      by (unfold u32, FREELIST_LEVELS; rewrite Z.mod_small; lia).
    rewrite order2size_csize by done.
    destruct (coalesce_buddy s1 k1 f1 Hs Hb) as (-> & -> & _).
    apply wp_bind. eapply wp_mono; [by apply wp_can_merge|].
    intros [] s' (-> & Hm).
    + apply wp_bind, wp_modify, wp_bind, wp_modify, wp_bind, wp_modify, wp_ret.
      edestruct (merge_step s1 k1 f1) as (Hfo' & Hr' & Hc'); [done|by apply Hm|].
      split; [|pose proof (block_order_lt _ _ _ (fo_fl _ _ _ Hfo') (fo_block _ _ _ Hfo')); lia].
      split_and!; [exact Hfo'|by etransitivity|]. intros x. rewrite <- Hc. apply Hc'.
    + apply wp_ret. split_and!; [done..| |done]. intros Hf. by apply Hm in Hf.
  - split_and!; [done|reflexivity|done].
  - pose proof (block_order_lt s k f (fo_fl _ _ _ H0) (fo_block _ _ _ H0)). lia.
Qed.

Definition pgfree_post (s : pgstate) (k p : Z) (s' : pgstate) : Prop :=
  pg_inv s' /\ minpage_addr s' = minpage_addr s /\ maxpage_addr s' = maxpage_addr s /\
  forall x, covered s' x <-> covered s x \/ in_block k p x.

(** Clearing the bits of a block makes it the floating block of the loop. *)
Lemma floating_freed s k p bm' used :
  pg_inv s -> block_ok s k p -> (forall x, in_block k p x -> ~ covered s x) ->
  map_filled false (va_to_pg s p) (va_to_pg s p + 2 ^ k) (alloc_bitmap s) bm' ->
  floating (set_kb (pgalloc_totalkb s) used (set_bitmap bm' (set_locked true s))) k p.
Proof.
  intros [Hfl Hlk Hle Hlen Hmap Hco] Hb Hout [Hl Hbit].
  destruct (block_pages s k p Hfl Hb) as (f & Ef & _ & H0 & _ & _ & Hpg). rewrite Ef in Hbit.
  split.
  - by apply (fl_ok_ext s).
  - by destruct Hb.
  - exact Hout.
  - intros q Hq. change (0 <= q < npages s) in Hq. change (pg_va _ q) with (pg_va s q).
    simpl. rewrite Hbit by lia. specialize (Hmap q Hq). specialize (Hpg q).
    change (covered (set_kb (pgalloc_totalkb s) used (set_bitmap bm' (set_locked true s)))
      (pg_va s q)) with (covered s (pg_va s q)).
    destruct (decide (f <= q < f + 2 ^ k)) as [Hin|Hnin].
    + assert ((f <=? q) && (q <? f + 2 ^ k) = true) as -> by lia. intuition.
    + assert ((f <=? q) && (q <? f + 2 ^ k) = false) as -> by lia. intuition.
  - simpl. by rewrite Hl.
  - exact Hco.
Qed.

(** Linking the floating block once its buddy is not free of its order. *)
Lemma wp_link_floating s k f : floating s k f -> pg_locked s = true ->
  minpage_addr s <= maxpage_addr s -> ~ free_at s k (buddy k f) ->
  wp (freechunk_link f k ;;; pgalloc_unlock) (fun _ s' => pg_inv s' /\
    minpage_addr s' = minpage_addr s /\ maxpage_addr s' = maxpage_addr s /\
    forall x, covered s' x <-> covered s x \/ in_block k f x) s.
Proof.
  intros [Hs Hb Hout Hmap Hlen Hco] Hlk Hle Hbud. pose proof Hb as [Hk Hal _ _].
  apply wp_bind. eapply wp_mono; [by apply wp_freechunk_link|].
  intros [] s1 (Hs1 & (Rc & Rl & Rmin & Rmax & Rbm & _) & Hat). apply wp_modify.
  assert (Hc : forall x, covered (set_locked false s1) x <-> covered s x \/ in_block k f x).
  { intros x. split.
    - intros (k' & a & [Ha|[-> ->]]%Hat & Hx); [left; by exists k', a|by right].
    - intros [(k' & a & Ha & Hx)|Hx]; [exists k', a|exists k, f]; (split; [|done]);
        apply Hat; eauto. }
  split_and!; [split|done..].
  - by apply (fl_ok_ext s1).
  - done.
  - simpl. by rewrite Rmin, Rmax.
  - unfold npages in *. simpl. by rewrite Rmin, Rmax, Rbm.
  - intros q Hq. unfold npages, pg_va in *. simpl in *. rewrite Rmin, Rmax in *.
    rewrite Rbm, Hc. specialize (Hmap q Hq). unfold pg_va in Hmap. intuition.
  - intros k' a [Ha|[-> ->]]%Hat [Ha'|[E1 E2]]%Hat.
    + by apply (Hco k' a).
    + subst. pose proof (fl_block s Hs _ _ Ha) as [? ? _ _].
      rewrite buddy_invol in Hbud by done. done.
    + done.
    + unfold buddy in E2. pose proof (csize_pos k Hk). destruct (Z.testbit f (k + 12)); lia.
Qed.

Lemma wp_bmk_pgfree s k p :
  pg_inv s -> block_ok s k p -> (forall x, in_block k p x -> ~ covered s x) ->
  wp (bmk_pgfree p k) (fun _ => pgfree_post s k p) s.
Proof.
  intros Hinv Hb Hout. pose proof Hinv as [Hfl Hlk Hle Hlen Hmap Hco].
  unfold bmk_pgfree. apply wp_bind, wp_bind, wp_gets, wp_bind, wp_assert; [by rewrite Hlk|].
  apply wp_modify. rewrite Z.shiftl_1_l. apply wp_bind.
  eapply wp_mono; [apply wp_map_free, block_fill_range;
    [by apply (fl_ok_ext s)|by destruct Hb|done]|].
  intros [] s1 (bm' & -> & Hfill). apply wp_bind, wp_modify.
  set (used := u64 _).
  pose proof (floating_freed s k p bm' used Hinv Hb Hout Hfill) as Hfo.
  apply wp_bind. eapply wp_mono; [apply wp_coalesce; exact Hfo|].
  intros [f k'] s2 (Hfo2 & (_ & Rl & Rmin & Rmax & _) & Hbud & Hc).
  eapply wp_mono; [apply wp_link_floating; [done..| |done]|].
  - rewrite Rmin, Rmax. done.
  - intros [] s3 (Hinv3 & Rmin3 & Rmax3 & Hc3).
    split_and!; [done|by rewrite Rmin3, Rmin|by rewrite Rmax3, Rmax|].
    intros x. rewrite Hc3. apply Hc.
Qed.

(** ** Loading the memory *)

Lemma land_not_pow2 a x : 0 <= a -> 0 <= x < 2 ^ 64 -> Z.land x (u64 (Z.lnot (2 ^ a - 1))) = 2 ^ a * (x / 2 ^ a).
Proof.
  intros Ha Hx. replace (2 ^ a - 1) with (Z.ones a) by (rewrite Z.ones_equiv; lia).
  transitivity (Z.ldiff x (Z.ones a)).
  - apply Z.bits_inj'. intros j Hj. unfold u64.
    rewrite Z.ldiff_spec, Z.land_spec, testbit_mod_pow2, Z.lnot_spec by lia.
    destruct (Z.ltb_spec j 64); [done|].
    by rewrite (high_bits_zero 64 ltac:(lia) x j) by lia.
  - rewrite Z.ldiff_ones_r, Z.shiftl_mul_pow2, Z.shiftr_div_pow2 by lia. lia.
Qed.
Lemma land_not_page x : 0 <= x < 2 ^ 64 ->
  Z.land x (u64 (Z.lnot (BMK_PCPU_PAGE_SIZE - 1))) = 4096 * (x / 4096).
Proof. apply (land_not_pow2 12). lia. Qed.

Lemma bmk_trunc_page_eq p : 0 <= p < 2 ^ 64 -> bmk_trunc_page p = 4096 * (p / 4096).
Proof. apply land_not_page. Qed.
Lemma bmk_round_page_eq p : 0 <= p -> p + 4095 < 2 ^ 64 ->
  bmk_round_page p = 4096 * ((p + 4095) / 4096).
Proof.
  intros H0 H1. unfold bmk_round_page.
  assert (u64 (p + (BMK_PCPU_PAGE_SIZE - 1)) = p + 4095) as ->.
  { change (p + (BMK_PCPU_PAGE_SIZE - 1)) with (p + 4095). apply Z.mod_small. lia. }
  apply land_not_page. lia.
Qed.

(** The managed region after loading [min, max]. *)
Definition load_min (min max : Z) : Z :=
  let mn := 4096 * ((min + 4095) / 4096) in let mx := 4096 * (max / 4096) in
  mn + 4096 * (((mx - mn) / 32768 + 1 + 4095) / 4096).
Definition load_max (max : Z) : Z := 4096 * (max / 4096).

Lemma word_bit_ones n i j : 0 <= i < Z.of_nat n -> 0 <= j < 64 ->
  word_bit (replicate n (u64 (Z.lnot 0))) i j = true.
Proof.
  intros Hi Hj. unfold word_bit. rewrite lookup_replicate_2 by lia. by apply testbit_ones64.
Qed.

Lemma covered_empty s x : freelist s = replicate 52 [] -> ~ covered s x.
Proof.
  intros E (k & a & (Hk & l & Hl & Ha) & _). rewrite E in Hl.
  apply lookup_replicate in Hl as [-> _]. by apply not_elem_of_nil in Ha.
Qed.

Lemma fl_ok_empty s :
  freelist s = replicate 52 [] -> 0 < minpage_addr s -> maxpage_addr s < 2 ^ 64 ->
  (4096 | minpage_addr s) -> (4096 | maxpage_addr s) -> fl_ok s.
Proof.
  intros E. assert (Hno : forall k a, ~ free_at s k a).
  { intros k a Hf. apply (covered_empty s a E). exists k, a. split; [done|].
    apply in_block_self, Hf. }
  split; try done; try (intros; by destruct (Hno k a)).
  - by rewrite E.
  - rewrite E. intros i l [-> _]%lookup_replicate. constructor.
Qed.

Definition pgload_post (min max : Z) (s' : pgstate) : Prop :=
  pg_inv s' /\ minpage_addr s' = load_min min max /\ maxpage_addr s' = load_max max /\
  (forall x, covered s' x <-> load_min min max <= x < load_max max).

(** The bitmap fits in front of the region, one bit per page and more. *)
Lemma load_sizes min max : 0 <= min -> max < 2 ^ 63 -> load_min min max <= load_max max ->
  min < max ->
  let mn := 4096 * ((min + 4095) / 4096) in
  let bsz := 4096 * (((load_max max - mn) / 32768 + 1 + 4095) / 4096) in
  0 <= mn <= load_max max /\ 0 < bsz /\ load_min min max = mn + bsz /\ bsz mod 8 = 0 /\
  ((load_max max - load_min min max) / 4096) / 64 < bsz / 8.
Proof.
  unfold load_min, load_max. intros H0 H1 H2 H3. cbv zeta in *.
  set (mn := 4096 * ((min + 4095) / 4096)) in *.
  set (mx := 4096 * (max / 4096)) in *.
  set (bsz := 4096 * (((mx - mn) / 32768 + 1 + 4095) / 4096)) in *.
  assert (Hmn : 0 <= mn) by (subst mn; Z.to_euclidean_division_equations; lia).
  assert (Hmx : 0 <= mx < 2 ^ 63) by (subst mx; Z.to_euclidean_division_equations; lia).
  assert (Hle : mn <= mx).
  { destruct (Z.le_gt_cases mn mx); [done|exfalso].
    assert (mx - mn >= -4096) by (subst mn mx; Z.to_euclidean_division_equations; lia).
    assert ((mx - mn) / 32768 = -1) as E1 by (Z.to_euclidean_division_equations; lia).
    subst bsz. rewrite E1 in H2. change ((-1 + 1 + 4095) / 4096) with 0 in H2. lia. }
  assert (Hb : (mx - mn) / 32768 + 1 <= bsz) by (subst bsz; Z.to_euclidean_division_equations; lia).
  assert (Hb0 : 0 <= (mx - mn) / 32768) by (apply Z.div_pos; lia).
  assert (Hb8 : bsz mod 8 = 0) by (subst bsz; Z.to_euclidean_division_equations; lia).
  split_and!; try lia.
  clearbody bsz mx mn. Z.to_euclidean_division_equations. lia.
Qed.

Lemma wp_bmk_pgalloc_loadmem min max :
  0 <= min -> min < max -> max < 2 ^ 63 -> load_min min max <= load_max max ->
  wp (bmk_pgalloc_loadmem min max) (fun _ => pgload_post min max) pg_boot.
Proof.
  intros H0 Hlt Hmax Hfit. destruct (load_sizes min max H0 Hmax Hfit Hlt)
    as (Hmn & Hb & Elm & Hb8 & Hlen). cbv zeta in *.
  set (mn := 4096 * ((min + 4095) / 4096)) in *. set (mx := load_max max) in *.
  set (bsz := 4096 * (((mx - mn) / 32768 + 1 + 4095) / 4096)) in *.
  assert (Hmx : mx < 2 ^ 63) by (subst mx; unfold load_max; Z.to_euclidean_division_equations; lia).
  unfold bmk_pgalloc_loadmem. apply wp_bind, wp_gets, wp_bind, wp_assert; [done|].
  apply wp_bind, wp_modify, wp_bind, wp_assert; [lia|].
  rewrite bmk_round_page_eq, bmk_trunc_page_eq by lia. fold mn. fold (load_max max). fold mx.
  apply wp_bind, wp_modify.
  assert (u64 (mx - mn) = mx - mn) as -> by (apply Z.mod_small; lia).
  rewrite Z.shiftr_div_pow2 by (unfold BMK_PCPU_PAGE_SHIFT; lia).
  change (2 ^ (BMK_PCPU_PAGE_SHIFT + 3)) with 32768.
  assert (Hq : 0 <= (mx - mn) / 32768 <= mx - mn)
    by (split; [apply Z.div_pos; lia|]; Z.to_euclidean_division_equations; lia).
  assert (u64 ((mx - mn) / 32768 + 1) = (mx - mn) / 32768 + 1) as -> by (apply Z.mod_small; lia).
  rewrite bmk_round_page_eq by lia. fold bsz.
  assert (u64 (mn + bsz) = load_min min max) as -> by (rewrite <- Elm; apply Z.mod_small; lia).
  set (lm := load_min min max) in *.
  assert (u64 (mx - lm) = mx - lm) as -> by (apply Z.mod_small; lia).
  apply wp_bind, wp_modify, wp_bind, wp_modify, wp_bind, wp_modify.
  match goal with |- wp _ _ ?st => set (s1 := st) end.
  assert (Plm : (4096 | lm)) by (rewrite Elm; subst mn bsz; apply Z.divide_add_r; apply Z.divide_factor_l).
  assert (Pmx : (4096 | mx)) by apply Z.divide_factor_l.
  assert (Hfl : fl_ok s1) by (apply fl_ok_empty; simpl; try done; lia).
  assert (En : mx - lm = 4096 * ((mx - lm) / 4096)) by exact (npages_exact s1 Hfl).
  assert (Eva : va_to_pg s1 lm = 0).
  { rewrite va_to_pg_eq by (done || (simpl; lia)). simpl. by rewrite Z.sub_diag. }
  rewrite Z.shiftr_div_pow2 by (unfold BMK_PCPU_PAGE_SHIFT; lia). change (2 ^ BMK_PCPU_PAGE_SHIFT) with 4096.
  assert (El : Z.of_nat (length (alloc_bitmap s1)) = bsz / 8).
  { simpl. rewrite length_replicate, Z2Nat.id; [done|]. apply Z.div_pos; lia. }
  assert (Hnp : 0 <= (mx - lm) / 4096 < 2 ^ 62)
    by (split; [apply Z.div_pos; lia|apply Z.div_lt_upper_bound; lia]).
  apply wp_bind. eapply wp_mono; [apply wp_map_free; split; rewrite ?Eva, ?El, ?Z.add_0_l; try lia; exact Hlen|].
  intros [] s2 (bm' & -> & Hl & Hbit). rewrite Eva in Hbit.
  eapply wp_mono; [apply wp_carverange; simpl; try done; try lia|].
  - by apply (fl_ok_ext s1).
  - by apply Z.divide_sub_r.
  - intros x _. by apply covered_empty.
  - intros [] s3 (Hs3 & (Rc & Rl & Rmin & Rmax & Rbm & _) & Hca).
    replace (lm + (mx - lm)) with mx in Hca by lia.
    assert (Hcov : forall x, covered s3 x <-> lm <= x < mx).
    { intros x. rewrite (carved_covered _ _ _ _ x Hca).
      pose proof (covered_empty (set_bitmap bm' s1) x eq_refl). tauto. }
    assert (En3 : npages s3 = (mx - lm) / 4096) by (unfold npages; by rewrite Rmin, Rmax).
    split_and!; [split|done..].
    + done.
    + done.
    + rewrite Rmin, Rmax. simpl. lia.
    + rewrite En3, Rbm. simpl. rewrite Hl. lia.
    + intros q Hq'. rewrite En3 in Hq'. unfold pg_va. rewrite Rbm, Rmin, Hcov. simpl.
      rewrite Hbit by lia. assert ((0 <=? q) && (q <? 0 + (mx - lm) / 4096) = true) as -> by lia.
      split; [|done]. intros _. left. lia.
    + intros k a Ha Hbud. destruct Hca as (_ & Hnew & _).
      destruct (Hnew _ _ Ha) as [Hf|(? & ? & ? & Hn)];
        [by destruct (covered_empty (set_bitmap bm' s1) a eq_refl); exists k, a; split;
           [|apply in_block_self, Hf]|].
      destruct (Hnew _ _ Hbud) as [Hf|(? & ? & ? & Hn')]; [|lia].
      destruct (covered_empty (set_bitmap bm' s1) (buddy k a) eq_refl).
      exists k, (buddy k a). split; [done|apply in_block_self, Hf].
Qed.
