(* ===== verification/PageIface.v ===== *)
(** * What the page allocator promises its clients

    [bmk_memalloc], the grant mapper, thread stacks and the network rings all
    take pages from [bmk_pgalloc] and return them with [bmk_pgfree].  The
    clients are verified against this interface; the buddy allocator is an
    instance of it. *)

From S2P Require Import Prelude Pgalloc PgallocMap PgallocInv PgallocThms.

Class PageAllocator (St : Type) := {
  pa_alloc : Z -> M St Z;               (* bmk_pgalloc: an address, 0 = none *)
  pa_release : Z -> Z -> M St unit;     (* bmk_pgfree *)
  pa_inv : St -> Prop;
  pa_lo : St -> Z;                      (* the managed region *)
  pa_hi : St -> Z;
  pa_free : St -> Z -> Prop;            (* the byte is the allocator's *)
  pa_region_ok : forall s, pa_inv s -> 0 < pa_lo s /\ pa_hi s < 2 ^ 64;
  pa_alloc_ok : forall s k, pa_inv s -> 0 <= k < 52 ->
    wp (pa_alloc k) (fun r s' => pa_inv s' /\ pa_lo s' = pa_lo s /\ pa_hi s' = pa_hi s /\
      ((r = 0 /\ forall x, pa_free s' x <-> pa_free s x) \/
       (r <> 0 /\ (csize k | r) /\ pa_lo s <= r /\ r + csize k <= pa_hi s /\
        (forall x, in_block k r x -> pa_free s x) /\
        (forall x, pa_free s' x <-> pa_free s x /\ ~ in_block k r x)))) s;
  pa_release_ok : forall s k p, pa_inv s -> 0 <= k -> (csize k | p) -> pa_lo s <= p ->
    p + csize k <= pa_hi s -> (forall x, in_block k p x -> ~ pa_free s x) ->
    wp (pa_release p k) (fun _ s' => pa_inv s' /\ pa_lo s' = pa_lo s /\ pa_hi s' = pa_hi s /\
      forall x, pa_free s' x <-> pa_free s x \/ in_block k p x) s
}.

(** The buddy allocator keeps the promise. *)
#[export, refine] Instance buddy_page_allocator : PageAllocator pgstate := {|
  pa_alloc := bmk_pgalloc;
  pa_release := bmk_pgfree;
  pa_inv := pg_inv;
  pa_lo := minpage_addr;
  pa_hi := maxpage_addr;
  pa_free := covered
|}.
Proof.
  - intros s H. split; apply H.
  - intros s k H Hk. eapply wp_mono;
      [apply wp_bmk_pgalloc_align; [done..| |]; unfold BMK_PCPU_PAGE_SIZE; [lia|reflexivity]|].
    intros r s' (Hi & E1 & E2 & [(-> & -> & _)|(Hne & _ & [[? ? ? ?] Hw Hn])]).
    + split_and!; try done. by left.
    + split_and!; try done. right. by split_and!.
  - intros s k p H Hk Hal Hlo Hhi Hout. eapply wp_mono; [by apply wp_bmk_pgfree|].
    by intros [] s' (? & ? & ? & ?).
Defined.

(** ** A client of the allocator

    [owned] is what the client holds: block address to order.  It may ask for
    a block, write the memory it holds, and return a block it holds. *)
Inductive pgop :=
| OpAlloc (order align : Z)
| OpWrite (p x : Z) (c : chunk)
| OpFree (p : Z).

Definition pgclient := (pgstate * gmap Z Z)%type.

(** One client step; [None] when the client breaks its side of the contract. *)
Definition pg_step (op : pgop) (c : pgclient) : option (res pgclient) :=
  let '(s, owned) := c in
  match op with
  | OpAlloc order align =>
      if (0 <=? order) && (order <? 52) && (4096 <=? align) && (Z.land align (align - 1) =? 0)
      then Some (match bmk_pgalloc_align order align s with
           | Done (r, s') => Done (s', if r =? 0 then owned else <[r := order]> owned)
           | Halted w => Halted w | NoFuel => NoFuel end)
      else None
  | OpWrite p x h =>
      match owned !! p with
      | Some k => if (p <=? x) && (x <? p + csize k)
                  then Some (Done (put_hdr x h s, owned)) else None
      | None => None
      end
  | OpFree p =>
      match owned !! p with
      | Some k => Some (match bmk_pgfree p k s with
           | Done (_, s') => Done (s', delete p owned)
           | Halted w => Halted w | NoFuel => NoFuel end)
      | None => None
      end
  end.

(** The blocks of a client are its own: disjoint from each other and from
    everything the allocator may still hand out. *)
Record client_ok (c : pgclient) : Prop := {
  co_inv : pg_inv (fst c);
  co_block : forall p k, snd c !! p = Some k -> block_ok (fst c) k p;
  co_priv : forall p k x, snd c !! p = Some k -> in_block k p x -> ~ covered (fst c) x;
  co_disj : forall p k p' k' x, snd c !! p = Some k -> snd c !! p' = Some k' ->
    in_block k p x -> in_block k' p' x -> p = p'
}.

Lemma pg_inv_put_hdr s a h : pg_inv s -> ~ covered s a -> pg_inv (put_hdr a h s).
Proof.
  intros [Hfl Hlk Hle Hlen Hmap Hco] Hn. split; try done. by apply fl_put_hdr.
Qed.

Lemma client_alloc_ok s owned order align r s' :
  client_ok (s, owned) -> pgalloc_post s order align r s' ->
  client_ok (s', if r =? 0 then owned else <[r := order]> owned).
Proof.
  intros [Hi Hb Hp Hd] (Hi' & Emin & Emax & [(-> & -> & _)|(Hne & _ & [Hrb Hwas Hnow])]);
    simpl in *; [by split|].
  destruct (Z.eqb_spec r 0); [done|].
  assert (Hpriv : forall p k x, owned !! p = Some k -> in_block k p x -> ~ in_block order r x).
  { intros p k x Hpk Hx Hx'. by apply (Hp p k x), Hwas. }
  split; simpl; [done| | |].
  - intros p k. destruct (decide (p = r)) as [->|Hpr].
    + rewrite lookup_insert_eq. intros [= <-]. destruct Hrb; split; congruence.
    + rewrite lookup_insert_ne by done. intros H. destruct (Hb _ _ H); split; congruence.
  - intros p k x. destruct (decide (p = r)) as [->|Hpr].
    + rewrite lookup_insert_eq. intros [= <-] Hx Hc. by apply Hnow in Hc as [_ ?].
    + rewrite lookup_insert_ne by done. intros H Hx Hc. apply Hnow in Hc as [Hc _].
      by apply (Hp p k x).
  - intros p k p' k' x. destruct (decide (p = r)) as [->|Hpr], (decide (p' = r)) as [->|Hpr'];
      rewrite ?lookup_insert_eq, ?lookup_insert_ne by done; [done| | |apply Hd].
    + intros [= <-] H Hx Hx'. by destruct (Hpriv p' k' x).
    + intros H [= <-] Hx Hx'. by destruct (Hpriv p k x).
Qed.

Lemma client_free_ok s owned k p s' :
  client_ok (s, owned) -> owned !! p = Some k -> pgfree_post s k p s' ->
  client_ok (s', delete p owned).
Proof.
  intros [Hi Hb Hp Hd] Hpk (Hi' & Emin & Emax & Hnow). simpl in *. split; simpl; [done| | |].
  - intros q j [Hne H]%lookup_delete_Some. destruct (Hb _ _ H); split; congruence.
  - intros q j x [Hne H]%lookup_delete_Some Hx [Hc|Hc]%Hnow; [by apply (Hp q j x)|].
    apply Hne. by eapply Hd.
  - intros q j q' j' x [_ H]%lookup_delete_Some [_ H']%lookup_delete_Some. by eapply Hd.
Qed.

Lemma pg_step_ok op c r : client_ok c -> pg_step op c = Some r ->
  exists c', r = Done c' /\ client_ok c'.
Proof.
  intros Hc. pose proof Hc as [Hi Hb Hp Hd]. destruct c as [s owned], op as [o al|p x h|p]; simpl in *.
  - destruct ((0 <=? o) && _ && _ && _) eqn:E; [|done]. intros [= <-].
    destruct (wp_run _ _ _ (wp_bmk_pgalloc_align s o al Hi ltac:(lia) ltac:(lia) ltac:(lia)))
      as (q & s' & -> & Hpost).
    eexists. split; [reflexivity|]. by eapply client_alloc_ok.
  - destruct (owned !! p) as [k|] eqn:E; [|done]. destruct ((p <=? x) && _) eqn:Ex; [|done].
    intros [= <-]. eexists. split; [reflexivity|].
    assert (~ covered s x) by (eapply Hp; [done|]; unfold in_block; lia).
    split; simpl; [by apply pg_inv_put_hdr| |done|done].
    intros q j H'. by destruct (Hb q j H').
  - destruct (owned !! p) as [k|] eqn:E; [|done]. intros [= <-].
    destruct (wp_run _ _ _ (wp_bmk_pgfree s k p Hi (Hb _ _ E) (fun x => Hp p k x E)))
      as ([] & s' & -> & Hpost).
    eexists. split; [reflexivity|]. by eapply client_free_ok.
Qed.

(** Runs of a client from freshly loaded memory. *)
Inductive pg_reach (min max : Z) : pgclient -> Prop :=
| reach_load s : bmk_pgalloc_loadmem min max pg_boot = Done (tt, s) -> pg_reach min max (s, ∅)
| reach_step op c c' : pg_reach min max c -> pg_step op c = Some (Done c') ->
    pg_reach min max c'.

(** The memory map handed to the allocator: the bitmap fits in front of it. *)
Definition load_ok (min max : Z) : Prop :=
  0 <= min /\ min < max /\ max < 2 ^ 63 /\ load_min min max <= load_max max.

Lemma pg_reach_ok min max c : load_ok min max -> pg_reach min max c -> client_ok c.
Proof.
  intros (H0 & H1 & H2 & H3). induction 1 as [s E|op c c' Hr IH E].
  - destruct (wp_run _ _ _ (wp_bmk_pgalloc_loadmem min max H0 H1 H2 H3))
      as ([] & s' & E' & Hp). assert (s' = s) as -> by congruence.
    destruct Hp as [Hi _]. split; simpl; [done|..]; intros *; by rewrite lookup_empty.
  - destruct (pg_step_ok op c _ IH E) as (c'' & [= ->] & ?). done.
Qed.
