(* ===== verification/PgallocSpec.v ===== *)
(** * Correctness of the page allocator *)

From S2P Require Import Prelude Pgalloc PgallocMap PgallocInv PgallocThms PageIface.

(** A small machine: 256 kB of memory at 1 MB. *)
Definition pg_example : pgstate :=
  match bmk_pgalloc_loadmem 1048576 1310720 pg_boot with Done (_, s) => s | _ => pg_boot end.

Lemma pg_example_load : bmk_pgalloc_loadmem 1048576 1310720 pg_boot = Done (tt, pg_example) /\
  pgload_post 1048576 1310720 pg_example.
Proof.
  unfold pg_example.
  destruct (wp_run _ _ _ (wp_bmk_pgalloc_loadmem 1048576 1310720 ltac:(lia) ltac:(lia)
    ltac:(lia) ltac:(vm_compute; discriminate))) as ([] & s & -> & H). done.
Qed.

Lemma pg_example_inv : pg_inv pg_example.
Proof. apply pg_example_load. Qed.

Lemma pg_example_region : minpage_addr pg_example = 1052672 /\ maxpage_addr pg_example = 1310720.
Proof. destruct (pg_example_load) as [_ (_ & -> & -> & _)]. split; vm_compute; reflexivity. Qed.

#[global] Opaque pg_example.

Lemma load_ok_example : load_ok 1048576 1310720.
Proof. unfold load_ok. split_and!; try lia. vm_compute. discriminate. Qed.

(** C1. Whatever a client does that keeps its side of the contract (allocate
    with a valid order and alignment, write memory it holds, free a block it
    holds with the order it was allocated with), starting from freshly loaded
    memory: every operation returns (no assertion of the allocator fires, no
    array is indexed out of range, no loop diverges, the lock is released),
    the blocks held are aligned to their size and lie in the managed region,
    and they share no byte with each other nor with any free chunk. *)
Theorem pg_client_safe min max s owned :
  load_ok min max -> pg_reach min max (s, owned) ->
  (forall op r, pg_step op (s, owned) = Some r -> exists c', r = Done c' /\ pg_reach min max c') /\
  (forall p k, owned !! p = Some k -> block_ok s k p) /\
  (forall p k x, owned !! p = Some k -> in_block k p x -> ~ covered s x) /\
  (forall p k p' k' x, owned !! p = Some k -> owned !! p' = Some k' ->
     in_block k p x -> in_block k' p' x -> p = p').
Proof.
  intros Hl Hr. pose proof (pg_reach_ok min max _ Hl Hr) as Hc. pose proof Hc as [Hi Hb Hp Hd].
  split_and!; [|exact Hb|exact Hp|exact Hd]. intros op r E.
  destruct (pg_step_ok op _ r Hc E) as (c' & -> & _). exists c'. split; [done|].
  by eapply reach_step.
Qed.

Lemma pg_client_safe_witness : exists s owned,
  load_ok 1048576 1310720 /\ pg_reach 1048576 1310720 (s, owned) /\ owned <> ∅ /\
  (forall p k, owned !! p = Some k -> block_ok s k p).
Proof.
  assert (pg_reach 1048576 1310720 (pg_example, ∅)) as H0 by (apply reach_load, pg_example_load).
  destruct (pg_client_safe _ _ _ _ load_ok_example H0) as [Hstep _].
  destruct (pg_step (OpAlloc 1 8192) (pg_example, ∅)) as [r|] eqn:E; [|vm_compute in E; discriminate].
  destruct (Hstep _ _ E) as ([s owned] & -> & Hr). exists s, owned.
  split_and!; [exact load_ok_example|exact Hr| |].
  - assert (H : pg_step (OpAlloc 1 8192) (pg_example, ∅) = Some (Done (s, owned))) by exact E.
    clear -H. intros ->. vm_compute in H. discriminate.
  - exact (proj1 (proj2 (pg_client_safe _ _ _ _ load_ok_example Hr))).
Defined.

(** [bmk_pgalloc_align]: on any state satisfying the invariant and any valid
    order and alignment it returns, keeps the invariant (free lists, headers,
    bitmap, full coalescing, lock released), and either hands out a block that
    is [align]- and size-aligned, was entirely free and is now the only part of
    free memory that is gone, or returns NULL with the state unchanged, and then
    no free chunk of a sufficient order has a suitable address. *)
Theorem pgalloc_align_correct s order align :
  pg_inv s -> 0 <= order < 52 -> 4096 <= align -> Z.land align (align - 1) = 0 ->
  exists r s', bmk_pgalloc_align order align s = Done (r, s') /\ pg_inv s' /\
    ((r = 0 /\ s' = s /\ forall k a, order <= k -> free_at s k a -> ~ (align | a)) \/
     (r <> 0 /\ (align | r) /\ block_ok s order r /\
      (forall x, in_block order r x -> covered s x) /\
      (forall x, covered s' x <-> covered s x /\ ~ in_block order r x))).
Proof.
  intros Hi Ho Ha Hp. destruct (wp_run _ _ _ (wp_bmk_pgalloc_align s order align Hi Ho Ha Hp))
    as (r & s' & E & Hi' & _ & _ & H). exists r, s'. split_and!; [done..|].
  destruct H as [H|(Hne & Hal & [Hb Hw Hn])]; [by left|right]. by split_and!.
Qed.

Lemma pgalloc_align_correct_witness : exists r s',
  bmk_pgalloc_align 2 32768 pg_example = Done (r, s') /\ pg_inv s' /\ r = 1081344.
Proof.
  destruct (pgalloc_align_correct pg_example 2 32768 pg_example_inv ltac:(lia) ltac:(lia) eq_refl)
    as (r & s' & E & Hi & _). exists r, s'. split_and!; [exact E|exact Hi|].
  clear Hi. vm_compute in E. by injection E as <-.
Defined.

(** [bmk_pgfree]: returning an allocated, size-aligned block of the region
    never trips the magic assertion of [chunklevel], terminates, keeps the
    invariant, and adds exactly that block to free memory. *)
Theorem pgfree_correct s k p :
  pg_inv s -> block_ok s k p -> (forall x, in_block k p x -> ~ covered s x) ->
  exists s', bmk_pgfree p k s = Done (tt, s') /\ pg_inv s' /\
    forall x, covered s' x <-> covered s x \/ in_block k p x.
Proof.
  intros Hi Hb Ho. destruct (wp_run _ _ _ (wp_bmk_pgfree s k p Hi Hb Ho))
    as ([] & s' & E & Hi' & _ & _ & H). by exists s'.
Qed.

Lemma pgfree_correct_witness : exists s s' p,
  bmk_pgalloc_align 1 4096 pg_example = Done (p, s) /\ bmk_pgfree p 1 s = Done (tt, s') /\ pg_inv s'.
Proof.
  destruct (wp_run _ _ _ (wp_bmk_pgalloc_align pg_example 1 4096 pg_example_inv ltac:(lia)
    ltac:(lia) eq_refl)) as (p & s & E & Hi & E1 & E2 & [(-> & _)|(Hne & _ & [Hb Hw Hn])]).
  - exfalso. assert (F : match bmk_pgalloc_align 1 4096 pg_example with
      Done (r, _) => r =? 0 | _ => false end = false) by (vm_compute; reflexivity).
    rewrite E in F. discriminate F.
  - destruct (pgfree_correct s 1 p Hi) as (s' & Ef & Hi' & _).
    + destruct Hb. split; congruence.
    + intros x Hx Hc. exact (proj2 (proj1 (Hn x) Hc) Hx).
    + exists s, s', p. split; [exact E|split; [exact Ef|exact Hi']].
Defined.

(** Free memory is always fully coalesced: in every state a client can
    reach, no free chunk has a free buddy of its own order, so [bmk_pgfree]
    does create "as large a free chunk as we can". *)
Theorem pg_fully_coalesced min max s owned k a :
  load_ok min max -> pg_reach min max (s, owned) -> free_at s k a -> ~ free_at s k (buddy k a).
Proof. intros Hl Hr. apply (pi_coal s). apply (co_inv _ (pg_reach_ok _ _ _ Hl Hr)). Qed.

Lemma pg_fully_coalesced_witness :
  free_at pg_example 5 1179648 /\ ~ free_at pg_example 5 (buddy 5 1179648).
Proof.
  assert (free_at pg_example 5 1179648) as H.
  { split; [lia|]. exists [1179648]. split; [vm_compute; reflexivity|]. set_solver. }
  split; [exact H|]. eapply (pg_fully_coalesced 1048576 1310720 pg_example ∅);
    [exact load_ok_example|apply reach_load, pg_example_load|exact H].
Defined.

(** The word-at-a-time bitmap routines have their page-at-a-time meaning:
    for every page range that fits the map, [map_alloc] sets and [map_free]
    clears exactly the bits of the range, whatever the offsets of its ends in
    their words; all accesses are in range and both loops terminate. *)
Theorem map_ops_pagewise s virt n :
  fill_range s virt n ->
  let first := va_to_pg s virt in
  (exists bm', map_alloc virt n s = Done (tt, set_bitmap bm' s) /\ forall q, 0 <= q ->
     map_bit bm' q = if (first <=? q) && (q <? first + n) then true else map_bit (alloc_bitmap s) q) /\
  (exists bm', map_free virt n s = Done (tt, set_bitmap bm' s) /\ forall q, 0 <= q ->
     map_bit bm' q = if (first <=? q) && (q <? first + n) then false else map_bit (alloc_bitmap s) q).
Proof.
  intros Hf first. split.
  - destruct (wp_run _ _ _ (wp_map_alloc s virt n Hf)) as ([] & s' & -> & bm' & -> & _ & H). eauto.
  - destruct (wp_run _ _ _ (wp_map_free s virt n Hf)) as ([] & s' & -> & bm' & -> & _ & H). eauto.
Qed.

Definition map_example : pgstate := mkPg true false 4096 819200 (replicate 4 0) [] ∅ 0 0.

Lemma map_ops_pagewise_witness : exists bm',
  map_alloc 253952 75 map_example = Done (tt, set_bitmap bm' map_example) /\
  map_bit bm' 61 = true /\ map_bit bm' 135 = true /\ map_bit bm' 136 = false /\ map_bit bm' 60 = false.
Proof.
  assert (fill_range map_example 253952 75) as Hf by (split; vm_compute; congruence).
  destruct (map_ops_pagewise _ _ _ Hf) as [(bm' & E & H) _]. exists bm'.
  split; [exact E|]. rewrite !H by lia. vm_compute. auto.
Defined.

(** The debug build's consistency check. *)
Lemma wp_sanity_check s : pg_inv s -> wp sanity_check (fun _ s' => s' = s) s.
Proof.
  intros [Hs Hlk Hle Hlen Hmap Hco]. apply wp_bind, wp_gets.
  apply wp_for; [done|]. intros l s' Hl ->. apply list_elem_of_lookup in Hl as [i Hl].
  apply wp_for; [done|]. intros a s' Ha ->.
  assert (Hf : free_at s (Z.of_nat i) a) by (split; [lia|]; exists l; by rewrite Nat2Z.id).
  destruct (block_pages s _ _ Hs (fl_block s Hs _ _ Hf)) as (f & Ef & Ea & H0 & Hle' & _).
  pose proof (fl_block s Hs _ _ Hf) as [Hk _ Hlo Hhi]. pose proof (csize_pos _ Hk).
  assert (0 < 2 ^ Z.of_nat i) by lia.
  assert (f / 64 <= npages s / 64) by (apply Z.div_le_mono; lia).
  apply wp_bind, wp_allocated_in_map; rewrite ?Ef; try lia.
  assert (map_bit (alloc_bitmap s) f = false) as ->.
  { apply Hmap; [lia|]. left. rewrite <- Ea. exists (Z.of_nat i), a.
    split; [done|by apply in_block_self]. }
  apply wp_bind, wp_assert; [done|]. apply wp_bind, wp_gets, wp_assert; [|done].
  unfold hdr. by rewrite (fl_hdr s Hs _ _ Hf).
Qed.

(** The debug build's [SANITY_CHECK()] can never fire: in every state a
    client can reach, each chunk on a free list has its first page marked free
    in the bitmap and carries the chunk magic. *)
Theorem sanity_check_passes min max s owned :
  load_ok min max -> pg_reach min max (s, owned) -> sanity_check s = Done (tt, s).
Proof.
  intros Hl Hr. destruct (wp_run _ _ _ (wp_sanity_check s (co_inv _ (pg_reach_ok _ _ _ Hl Hr))))
    as ([] & s' & -> & ->). done.
Qed.

Lemma sanity_check_passes_witness :
  pg_reach 1048576 1310720 (pg_example, ∅) /\ sanity_check pg_example = Done (tt, pg_example).
Proof.
  assert (pg_reach 1048576 1310720 (pg_example, ∅)) as H by (apply reach_load, pg_example_load).
  split; [exact H|]. exact (sanity_check_passes _ _ _ _ load_ok_example H).
Defined.

(** [bmk_pgalloc_loadmem] on a memory range that can hold its own bitmap
    returns, establishes the invariant, and makes free exactly the whole pages
    of the range behind the bitmap. *)
Theorem loadmem_correct min max :
  load_ok min max ->
  exists s, bmk_pgalloc_loadmem min max pg_boot = Done (tt, s) /\ pg_inv s /\
    minpage_addr s = load_min min max /\ maxpage_addr s = load_max max /\
    forall x, covered s x <-> load_min min max <= x < load_max max.
Proof.
  intros (H0 & H1 & H2 & H3).
  destruct (wp_run _ _ _ (wp_bmk_pgalloc_loadmem min max H0 H1 H2 H3))
    as ([] & s & E & Hi & E1 & E2 & Hc). by exists s.
Qed.

Lemma loadmem_correct_witness : exists s,
  bmk_pgalloc_loadmem 1048576 1310720 pg_boot = Done (tt, s) /\ pg_inv s /\ covered s 1052672.
Proof.
  destruct (loadmem_correct _ _ load_ok_example) as (s & E & Hi & _ & _ & Hc).
  exists s. split; [exact E|split; [exact Hi|]]. apply Hc. vm_compute. split; congruence.
Defined.
