(* ===== verification/CString.v ===== *)
(** * Memory and string routines (lib/libbmk_core/bmk_string.c)

    Memory is a finite map from addresses to bytes; an access outside it
    halts, so a theorem that a routine returns is also a bounds theorem. *)

From S2P Require Import Prelude.

Definition cmem := gmap Z Z.

Definition rd (a : Z) : M (gmap Z Z) Z :=
  m <-- mget ;; mopt (m !! a) "read outside an object".
Definition wr (a v : Z) : M (gmap Z Z) unit :=
  _ <-- rd a ;; modify (fun m => <[a := v]> m).
(** A plain [char] is signed. *)
Definition char_of (b : Z) : Z := swrap 8 b.
Definition rdc (a : Z) : M (gmap Z Z) Z := b <-- rd a ;; cret (char_of b).

(** ** The routines *)

Definition bmk_strlen (str : Z) : M (gmap Z Z) Z :=
  loopM (fun '(str, rv) =>
    c <-- rdc str ;;
    if negb (c =? 0) then cret (inl (str + 1, u64 (rv + 1))) else cret (inr rv)) (str, 0).

Definition bmk_strcmp (a b : Z) : M (gmap Z Z) Z :=
  '(a, b) <-- loopM (fun '(a, b) =>
    x <-- rdc a ;;
    if x =? 0 then cret (inr (a, b)) else
    y <-- rdc b ;;
    if x =? y then cret (inl (a + 1, b + 1)) else cret (inr (a + 1, b + 1))) (a, b) ;;
  x <-- rdc a ;;
  let '(a, b) := if negb (x =? 0) then (a - 1, b - 1) else (a, b) in
  x <-- rdc a ;; y <-- rdc b ;; cret (x - y).

Definition bmk_strncmp (a b n : Z) : M (gmap Z Z) Z :=
  loopM (fun '(a, b, n) =>
    if 0 <? n then
      u1 <-- rd a ;; u2 <-- rd b ;;
      if negb (u1 =? u2) then cret (inr (u1 - u2))
      else if u1 =? 0 then cret (inr 0)
      else cret (inl (a + 1, b + 1, n - 1))
    else cret (inr 0)) (a, b, n).

Definition bmk_strcpy (d s : Z) : M (gmap Z Z) Z :=
  let orig := d in
  loopM (fun '(d, s) =>
    c <-- rd s ;; wr d c ;;;
    if negb (c =? 0) then cret (inl (d + 1, s + 1)) else cret (inr tt)) (d, s) ;;;
  cret orig.

Definition bmk_strncpy (d s n : Z) : M (gmap Z Z) Z :=
  let orig := d in
  '(d, n) <-- loopM (fun '(d, s, n) =>
    if n =? 0 then cret (inr (d, n)) else
    c <-- rd s ;; wr d c ;;;
    if negb (c =? 0) then cret (inl (d + 1, s + 1, n - 1)) else cret (inr (d + 1, n))) (d, s, n) ;;
  loopM (fun '(d, n) =>
    if n =? 0 then cret (inr tt) else wr d 0 ;;; cret (inl (d + 1, n - 1))) (d, n) ;;;
  cret orig.

Definition bmk_memset (b c n : Z) : M (gmap Z Z) Z :=
  loopM (fun '(v, n) =>
    if n =? 0 then cret (inr tt) else wr v (u8 c) ;;; cret (inl (v + 1, n - 1))) (b, n) ;;;
  cret b.

(** [rep movsb] and [rep movsq] with the direction flag clear. *)
Definition rep_movsb (dp sp units : Z) : M (gmap Z Z) (Z * Z) :=
  loopM (fun '(dp, sp, units) =>
    if units =? 0 then cret (inr (dp, sp)) else
    c <-- rd sp ;; wr dp c ;;; cret (inl (dp + 1, sp + 1, units - 1))) (dp, sp, units).
Definition rd8 (a : Z) : M (gmap Z Z) (list Z) :=
  b0 <-- rd a ;; b1 <-- rd (a + 1) ;; b2 <-- rd (a + 2) ;; b3 <-- rd (a + 3) ;;
  b4 <-- rd (a + 4) ;; b5 <-- rd (a + 5) ;; b6 <-- rd (a + 6) ;; b7 <-- rd (a + 7) ;;
  cret [b0; b1; b2; b3; b4; b5; b6; b7].
Fixpoint wr_list (a : Z) (l : list Z) : M (gmap Z Z) unit :=
  match l with [] => cret tt | b :: l => wr a b ;;; wr_list (a + 1) l end.
Definition rep_movsq (dp sp units : Z) : M (gmap Z Z) (Z * Z) :=
  loopM (fun '(dp, sp, units) =>
    if units =? 0 then cret (inr (dp, sp)) else
    q <-- rd8 sp ;; wr_list dp q ;;; cret (inl (dp + 8, sp + 8, units - 1))) (dp, sp, units).

Definition bmk_mempcpy (d src n : Z) : M (gmap Z Z) Z :=
  '(dp, sp, units) <--
    (if 48 <=? n then
       '(dp, sp, n) <-- loopM (fun '(dp, sp, n) =>
         if negb (Z.land dp (8 - 1) =? 0) then
           c <-- rd sp ;; wr dp c ;;; cret (inl (dp + 1, sp + 1, n - 1))
         else cret (inr (dp, sp, n))) (d, src, n) ;;
       '(dp, sp) <-- rep_movsq dp sp (n / 8) ;;
       cret (dp, sp, Z.land n (8 - 1))
     else cret (d, src, n)) ;;
  '(dp, _) <-- rep_movsb dp sp units ;;
  cret dp.

(** 0 is NULL. *)
Definition bmk_memchr (d c n : Z) : M (gmap Z Z) Z :=
  loopM (fun '(p, n) =>
    if n =? 0 then cret (inr 0) else
    x <-- rd p ;;
    if x =? u8 c then cret (inr p) else cret (inl (p + 1, n - 1))) (d, n).

Definition bmk_memrchr (d c n : Z) : M (gmap Z Z) Z :=
  loopM (fun '(p, n) =>
    if n =? 0 then cret (inr 0) else
    x <-- rd p ;;
    if x =? u8 c then cret (inr p) else cret (inl (p - 1, n - 1))) (d, n).

(** ** Objects in memory *)

(** The bytes [l] lie at [a]. *)
Definition bytes_at (m : gmap Z Z) (a : Z) (l : list Z) : Prop :=
  forall i b, l !! i = Some b -> m !! (a + Z.of_nat i) = Some b.
Definition byte (b : Z) : Prop := 0 <= b < 256.
(** A NUL-terminated string. *)
Definition cstr (m : gmap Z Z) (a : Z) (l : list Z) : Prop :=
  bytes_at m a (l ++ [0]) /\ Forall (fun b => 0 < b < 256) l.
(** [n] writable bytes at [a]. *)
Definition room (m : gmap Z Z) (a n : Z) : Prop :=
  forall i, 0 <= i < n -> is_Some (m !! (a + i)).
(** [m'] is [m] with [l] stored at [a]. *)
Definition stored (m m' : gmap Z Z) (a : Z) (l : list Z) : Prop :=
  bytes_at m' a l /\
  forall x, ~ (a <= x < a + Z.of_nat (length l)) -> m' !! x = m !! x.

Definition list_to_mem (a : Z) (l : list Z) : gmap Z Z :=
  list_to_map (zip (seqZ a (Z.of_nat (length l))) l).
