(* ===== verification/CStringThms.v ===== *)
(** * Correctness of the memory and string routines *)

From S2P Require Import Prelude CString.

Lemma wp_rd a v Q m : m !! a = Some v -> Q v m -> wp (rd a) Q m.
Proof. intros E HQ. apply wp_bind, wp_get. by apply (wp_opt _ _ v). Qed.
Lemma wp_wr a v Q m : is_Some (m !! a) -> Q tt (<[a := v]> m) -> wp (wr a v) Q m.
Proof. intros [w E] HQ. apply wp_bind. eapply wp_rd; [exact E|]. by apply wp_modify. Qed.
Lemma wp_rdc a v Q m : m !! a = Some v -> Q (char_of v) m -> wp (rdc a) Q m.
Proof. intros E HQ. apply wp_bind. eapply wp_rd; [exact E|]. by apply wp_ret. Qed.

Lemma char_of_zero b : byte b -> char_of b = 0 <-> b = 0.
Proof.
  unfold byte, char_of, swrap. intros Hb. change (2 ^ (8 - 1)) with 128. change (2 ^ 8) with 256.
  Z.to_euclidean_division_equations. lia.
Qed.
Lemma char_of_inj a b : byte a -> byte b -> char_of a = char_of b -> a = b.
Proof.
  unfold byte, char_of, swrap. intros Ha Hb. change (2 ^ (8 - 1)) with 128. change (2 ^ 8) with 256.
  Z.to_euclidean_division_equations. lia.
Qed.

(** ** Stores and copies *)

Lemma stored_nil m d : stored m m d [].
Proof. by split. Qed.

Lemma stored_snoc m m' d l b : stored m m' d l ->
  stored m (<[d + Z.of_nat (length l) := b]> m') d (l ++ [b]).
Proof.
  intros [Hin Hout]. split.
  - intros i c. rewrite lookup_app. destruct (l !! i) as [c'|] eqn:E; intros H; simplify_eq.
    + apply lookup_lt_Some in E as Hlt. rewrite lookup_insert_ne by lia. by apply Hin.
    + apply lookup_ge_None in E. apply list_lookup_singleton_Some in H as [Hi ->].
      assert (i = length l) as -> by lia. apply lookup_insert_eq.
  - intros x Hx. rewrite length_app in Hx. simpl in Hx. rewrite lookup_insert_ne by lia.
    apply Hout. lia.
Qed.

Lemma stored_room m m' d l a n : stored m m' d l -> room m a n -> room m' a n.
Proof.
  intros [Hin Hout] Hr i Hi.
  destruct (decide (d <= a + i < d + Z.of_nat (length l))) as [H|H].
  - destruct (lookup_lt_is_Some_2 l (Z.to_nat (a + i - d))) as [b Hb]; [lia|].
    apply Hin in Hb. replace (d + _) with (a + i) in Hb by lia. eauto.
  - rewrite Hout by done. by apply Hr.
Qed.

Lemma stored_keeps m m' d l s ls : stored m m' d l -> bytes_at m s ls ->
  (d + Z.of_nat (length l) <= s \/ s + Z.of_nat (length ls) <= d) -> bytes_at m' s ls.
Proof.
  intros [_ Hout] Hs Hd i b Hi. apply lookup_lt_Some in Hi as Hlt.
  rewrite Hout by lia. by apply Hs.
Qed.

Lemma stored_app m m1 m2 d l1 l2 :
  stored m m1 d l1 -> stored m1 m2 (d + Z.of_nat (length l1)) l2 -> stored m m2 d (l1 ++ l2).
Proof.
  intros [H1 O1] [H2 O2]. split.
  - intros i b. rewrite lookup_app. destruct (l1 !! i) as [c|] eqn:E; intros H; simplify_eq.
    + apply lookup_lt_Some in E as Hlt. rewrite O2 by lia. by apply H1.
    + apply lookup_ge_None in E. apply H2 in H. by replace (d + Z.of_nat i) with
        (d + Z.of_nat (length l1) + Z.of_nat (i - length l1)) by lia.
  - intros x Hx. rewrite length_app in Hx. rewrite O2 by lia. apply O1. lia.
Qed.

(** Disjoint source and destination of a copy of [l]. *)
Record copy_ok (m : gmap Z Z) (d s : Z) (l : list Z) : Prop := {
  cp_src : bytes_at m s l;
  cp_room : room m d (Z.of_nat (length l));
  cp_sep : d + Z.of_nat (length l) <= s \/ s + Z.of_nat (length l) <= d;
  cp_len : Z.of_nat (length l) < 2 ^ 63
}.

Lemma copy_ok_rest m m' d s l1 l2 : copy_ok m d s (l1 ++ l2) -> stored m m' d l1 ->
  copy_ok m' (d + Z.of_nat (length l1)) (s + Z.of_nat (length l1)) l2.
Proof.
  intros [Hs Hr Hsep Hlen] Hst. rewrite length_app in *. split; [| |lia|lia].
  - intros i b Hi. apply lookup_lt_Some in Hi as Hlt. rewrite (proj2 Hst) by lia.
    replace (s + _ + _) with (s + Z.of_nat (length l1 + i)) by lia. apply Hs.
    rewrite lookup_app_r by lia. by replace (length l1 + i - length l1)%nat with i by lia.
  - intros i Hi. rewrite <- Z.add_assoc. apply (stored_room _ _ _ _ d _ Hst Hr). lia.
Qed.

(** The loop that moves one byte per round. *)
Lemma wp_rep_movsb m d s l : copy_ok m d s l ->
  wp (rep_movsb d s (Z.of_nat (length l))) (fun r m' =>
    r = (d + Z.of_nat (length l), s + Z.of_nat (length l)) /\ stored m m' d l) m.
Proof.
  intros H. apply (wp_loop _ (fun '(d', s', n) m' => exists k, (k <= length l)%nat /\
      d' = d + Z.of_nat k /\ s' = s + Z.of_nat k /\ n = Z.of_nat (length l) - Z.of_nat k /\
      stored m m' d (take k l)) (fun '(_, _, n) _ => n)).
  - intros [[d' s'] n] m' (k & Hk & -> & -> & -> & Hst). split; [lia|].
    destruct (Z.eqb_spec (Z.of_nat (length l) - Z.of_nat k) 0).
    + apply wp_ret. assert (k = length l) as -> by lia. rewrite take_ge in Hst by lia. done.
    + destruct (lookup_lt_is_Some_2 l k) as [b Hb]; [lia|].
      pose proof (take_drop k l) as Etd. rewrite <- Etd in H.
      destruct (copy_ok_rest _ _ _ _ _ _ H Hst) as [Hs' Hr' _ _].
      rewrite length_take_le in Hs', Hr' by lia.
      apply wp_bind. apply (wp_rd _ b).
      { rewrite <- (Z.add_0_r (s + Z.of_nat k)). apply (Hs' 0%nat). by rewrite lookup_drop, Nat.add_0_r. }
      apply wp_bind, wp_wr.
      { rewrite <- (Z.add_0_r (d + Z.of_nat k)). apply Hr'. rewrite length_drop. lia. }
      apply wp_ret. split; [|lia]. exists (S k). split_and!; try lia.
      rewrite (take_S_r _ _ b) by done.
      pose proof (stored_snoc _ _ _ _ b Hst) as Hn. rewrite length_take_le in Hn by lia. done.
  - exists 0%nat. split_and!; try lia. apply stored_nil.
  - destruct H. lia.
Qed.

Lemma wp_rd8 m a q Q : bytes_at m a q -> length q = 8%nat -> Q q m -> wp (rd8 a) Q m.
Proof.
  intros Hb Hl HQ. do 8 (destruct q as [|? q]; [done|]). destruct q; [|done].
  unfold rd8. apply wp_bind; eapply wp_rd; [rewrite <- (Z.add_0_r a); by apply (Hb 0%nat)|].
  apply wp_bind; eapply wp_rd; [by apply (Hb 1%nat)|].
  apply wp_bind; eapply wp_rd; [by apply (Hb 2%nat)|].
  apply wp_bind; eapply wp_rd; [by apply (Hb 3%nat)|].
  apply wp_bind; eapply wp_rd; [by apply (Hb 4%nat)|].
  apply wp_bind; eapply wp_rd; [by apply (Hb 5%nat)|].
  apply wp_bind; eapply wp_rd; [by apply (Hb 6%nat)|].
  apply wp_bind; eapply wp_rd; [by apply (Hb 7%nat)|].
  by apply wp_ret.
Qed.

Lemma wp_wr_list l : forall m a, room m a (Z.of_nat (length l)) ->
  wp (wr_list a l) (fun _ m' => stored m m' a l) m.
Proof.
  induction l as [|b l IH]; intros m a Hr; [apply stored_nil|].
  simpl in Hr. apply wp_bind, wp_wr; [rewrite <- (Z.add_0_r a); apply Hr; lia|].
  assert (Hst : stored m (<[a := b]> m) a [b]).
  { pose proof (stored_snoc m m a [] b (stored_nil m a)) as H. simpl in H. by rewrite Z.add_0_r in H. }
  eapply wp_mono; [apply IH|].
  - intros i Hi. rewrite <- Z.add_assoc. apply (stored_room _ _ _ _ a _ Hst Hr). lia.
  - intros [] m' Hm'. exact (stored_app _ _ _ _ [b] l Hst Hm').
Qed.

Lemma take_8_split (l : list Z) k : (8 * k + 8 <= length l)%nat ->
  take (8 * (k + 1)) l = take (8 * k) l ++ take 8 (drop (8 * k) l).
Proof.
  intros. rewrite take_take_drop. f_equal. lia.
Qed.

Lemma wp_rep_movsq m d s l n : copy_ok m d s l -> length l = (8 * n)%nat ->
  wp (rep_movsq d s (Z.of_nat n)) (fun r m' =>
    r = (d + Z.of_nat (length l), s + Z.of_nat (length l)) /\ stored m m' d l) m.
Proof.
  intros H Hl. apply (wp_loop _ (fun '(d', s', u) m' => exists k, (k <= n)%nat /\
      d' = d + Z.of_nat (8 * k) /\ s' = s + Z.of_nat (8 * k) /\ u = Z.of_nat n - Z.of_nat k /\
      stored m m' d (take (8 * k) l)) (fun '(_, _, u) _ => u)).
  - intros [[d' s'] u] m' (k & Hk & -> & -> & -> & Hst). split; [lia|].
    destruct (Z.eqb_spec (Z.of_nat n - Z.of_nat k) 0).
    + apply wp_ret. assert (k = n) as -> by lia. rewrite take_ge in Hst by lia.
      split; [f_equal; lia|done].
    + pose proof (take_drop (8 * k) l) as Etd. rewrite <- Etd in H.
      destruct (copy_ok_rest _ _ _ _ _ _ H Hst) as [Hs' Hr' _ _].
      rewrite length_take_le in Hs', Hr' by lia. set (q := take 8 (drop (8 * k) l)).
      assert (Hq : length q = 8%nat) by (subst q; rewrite length_take, length_drop; lia).
      apply wp_bind. eapply (wp_rd8 _ _ q); [|done|].
      { intros i b Hi. apply Hs'. subst q. apply lookup_take_Some in Hi as [Hi _]. done. }
      apply wp_bind. eapply wp_mono; [apply wp_wr_list|].
      { rewrite Hq. intros i Hi. apply Hr'. rewrite length_drop. lia. }
      intros [] m2 Hm2. apply wp_ret. split; [|lia]. exists (k + 1)%nat. split_and!; try lia.
      rewrite take_8_split by lia. eapply stored_app; [exact Hst|].
      rewrite length_take_le by lia. exact Hm2.
  - exists 0%nat. split_and!; try lia. apply stored_nil.
  - destruct H. lia.
Qed.

(** The loop that aligns the destination. *)
Lemma wp_align_loop m d s l : copy_ok m d s l -> (8 <= length l)%nat ->
  wp (loopM (fun '(dp, sp, n) =>
         if negb (Z.land dp (8 - 1) =? 0) then
           c <-- rd sp ;; wr dp c ;;; cret (inl (dp + 1, sp + 1, n - 1))
         else cret (inr (dp, sp, n))) (d, s, Z.of_nat (length l)))
     (fun '(dp, sp, n) m' => exists k, (k < 8)%nat /\ dp = d + Z.of_nat k /\ sp = s + Z.of_nat k /\
        n = Z.of_nat (length l - k) /\ stored m m' d (take k l)) m.
Proof.
  intros H Hl. apply (wp_loop _ (fun '(d', s', n) m' => exists k, (k < 8)%nat /\
      (forall j, (j < k)%nat -> (d + Z.of_nat j) mod 8 <> 0) /\
      d' = d + Z.of_nat k /\ s' = s + Z.of_nat k /\ n = Z.of_nat (length l - k) /\
      stored m m' d (take k l)) (fun '(_, _, n) _ => n)).
  - intros [[d' s'] n] m' (k & Hk & Hno & -> & -> & -> & Hst). split; [lia|].
    change (8 - 1) with (2 ^ 3 - 1). rewrite land_mask_mod by lia. change (2 ^ 3) with 8.
    destruct (Z.eqb_spec ((d + Z.of_nat k) mod 8) 0) as [E|E]; simpl negb; cbv iota.
    + apply wp_ret. exists k. by split_and!.
    + destruct (lookup_lt_is_Some_2 l k) as [b Hb]; [lia|].
      pose proof (take_drop k l) as Etd. rewrite <- Etd in H.
      destruct (copy_ok_rest _ _ _ _ _ _ H Hst) as [Hs' Hr' _ _].
      rewrite length_take_le in Hs', Hr' by lia.
      apply wp_bind, (wp_rd _ b).
      { rewrite <- (Z.add_0_r (s + Z.of_nat k)). apply (Hs' 0%nat). by rewrite lookup_drop, Nat.add_0_r. }
      apply wp_bind, wp_wr.
      { rewrite <- (Z.add_0_r (d + Z.of_nat k)). apply Hr'. rewrite length_drop. lia. }
      apply wp_ret. split; [|lia]. exists (S k).
      assert (S k < 8)%nat.
      { destruct (decide (k = 7)%nat) as [->|]; [exfalso|lia].
        assert (Ha : exists j, (j < 8)%nat /\ (d + Z.of_nat j) mod 8 = 0).
        { exists (Z.to_nat ((- d) mod 8)). pose proof (Z.mod_pos_bound (- d) 8 ltac:(lia)).
          split; [lia|]. rewrite Z2Nat.id by lia. rewrite Z.add_mod_idemp_r by lia.
          by rewrite Z.add_opp_diag_r. }
        destruct Ha as (j & Hj & Ej). destruct (decide (j = 7)%nat) as [->|]; [done|].
        apply (Hno j); [lia|done]. }
      split_and!; try lia.
      * intros j Hj. destruct (decide (j = k)) as [->|]; [done|]. apply Hno. lia.
      * rewrite (take_S_r _ _ b) by done.
        pose proof (stored_snoc _ _ _ _ b Hst) as Hn. rewrite length_take_le in Hn by lia. done.
  - exists 0%nat. split_and!; try lia. apply stored_nil.
  - destruct H. lia.
Qed.

Lemma wp_mempcpy m d s l : copy_ok m d s l ->
  wp (bmk_mempcpy d s (Z.of_nat (length l))) (fun r m' =>
    r = d + Z.of_nat (length l) /\ stored m m' d l) m.
Proof.
  intros H. unfold bmk_mempcpy. apply wp_bind.
  destruct (Z.leb_spec 48 (Z.of_nat (length l))) as [Hge|Hlt].
  - apply wp_bind. eapply wp_mono; [apply wp_align_loop; [done|lia]|].
    intros [[dp sp] n] m1 (k & Hk & -> & -> & -> & Hst1). set (w := ((length l - k) / 8)%nat).
    assert (Hw : (8 * w <= length l - k < 8 * w + 8)%nat).
    { subst w. pose proof (Nat.div_mod_eq (length l - k) 8).
      pose proof (Nat.mod_upper_bound (length l - k) 8). lia. }
    rewrite <- (take_drop k l) in H.
    pose proof (copy_ok_rest _ _ _ _ _ _ H Hst1) as H1. rewrite length_take_le in H1 by lia.
    assert (Z.of_nat (length l - k) / 8 = Z.of_nat w) as ->
      by (subst w; by rewrite Nat2Z.inj_div).
    set (l2 := take (8 * w) (drop k l)). set (l3 := drop (8 * w) (drop k l)).
    assert (E23 : drop k l = l2 ++ l3) by (subst l2 l3; by rewrite take_drop).
    assert (Hl2 : length l2 = (8 * w)%nat) by (subst l2; rewrite length_take, length_drop; lia).
    assert (Hl3 : length l3 = (length l - k - 8 * w)%nat) by (subst l3; rewrite !length_drop; lia).
    rewrite E23 in H1. assert (H2 : copy_ok m1 (d + Z.of_nat k) (s + Z.of_nat k) l2).
    { destruct H1 as [Hs Hr Hsep Hlen]. rewrite length_app in *. split; try lia.
      - intros i b Hi. apply Hs. by apply lookup_app_l_Some.
      - intros i Hi. apply Hr. lia. }
    apply wp_bind. eapply wp_mono; [apply (wp_rep_movsq _ _ _ l2 w H2 Hl2)|].
    intros [dp sp] m2 ([= -> ->] & Hst2). apply wp_ret.
    pose proof (copy_ok_rest _ _ _ _ _ _ H1 Hst2) as H3.
    change (8 - 1) with (2 ^ 3 - 1). rewrite land_mask_mod by lia. change (2 ^ 3) with 8.
    assert (Z.of_nat (length l - k) mod 8 = Z.of_nat (length l3)) as ->.
    { symmetry. apply (Z.mod_unique _ _ (Z.of_nat w)); lia. }
    apply wp_bind. eapply wp_mono; [apply (wp_rep_movsb _ _ _ l3 H3)|].
    intros [dp sp] m3 ([= -> ->] & Hst3). apply wp_ret. split; [lia|].
    rewrite <- (take_drop k l), E23.
    eapply stored_app; [exact Hst1|]. rewrite length_take_le by lia.
    eapply stored_app; [exact Hst2|exact Hst3].
  - apply wp_ret. apply wp_bind. eapply wp_mono; [by apply wp_rep_movsb|].
    intros [dp sp] m' ([= -> ->] & Hst). by apply wp_ret.
Qed.

(** ** Scans *)

Lemma cstr_lookup m a l i : cstr m a l -> (i <= length l)%nat ->
  exists b, m !! (a + Z.of_nat i) = Some b /\ byte b /\ (b = 0 <-> i = length l) /\
    (l ++ [0]) !! i = Some b.
Proof.
  intros [Hb Hf] Hi. destruct (lookup_lt_is_Some_2 (l ++ [0]) i) as [b E];
    [rewrite length_app; simpl; lia|]. exists b. split; [by apply Hb|].
  rewrite lookup_app in E. unfold byte. destruct (l !! i) as [c|] eqn:El; simplify_eq.
  - rewrite Forall_lookup in Hf. pose proof (Hf _ _ El). apply lookup_lt_Some in El as Hlt.
    split_and!; [lia|lia|lia|]. by rewrite lookup_app, El.
  - apply lookup_ge_None in El as Hge. assert (i = length l) as -> by lia.
    rewrite Nat.sub_diag in E. injection E as <-. split_and!; try lia.
    by rewrite lookup_app, El, Nat.sub_diag.
Qed.

Lemma wp_strlen m a l : cstr m a l -> Z.of_nat (length l) < 2 ^ 63 ->
  wp (bmk_strlen a) (fun r m' => r = Z.of_nat (length l) /\ m' = m) m.
Proof.
  intros Hs Hl. apply (wp_loop _ (fun '(p, rv) m' => m' = m /\ exists k, (k <= length l)%nat /\
    p = a + Z.of_nat k /\ rv = Z.of_nat k) (fun '(_, rv) _ => Z.of_nat (length l) - rv)).
  - intros [p rv] m' (-> & k & Hk & -> & ->). split; [lia|].
    destruct (cstr_lookup m a l k Hs Hk) as (b & Em & Hb & Hz & _).
    apply wp_bind. eapply wp_rdc; [exact Em|]. pose proof (char_of_zero b Hb).
    destruct (Z.eqb_spec (char_of b) 0); apply wp_ret.
    + split; [|done]. f_equal. tauto.
    + assert (k <> length l) by tauto. unfold u64. rewrite Z.mod_small by lia.
      split; [|lia]. split; [done|]. exists (S k). lia.
  - split; [done|]. exists 0%nat. lia.
  - lia.
Qed.

(** The common prefix of two strings. *)
Definition strncmp_loop_inv (m : gmap Z Z) (a b : Z) (la lb : list Z) (N : Z)
    (st : Z * Z * Z) (m' : gmap Z Z) : Prop :=
  let '(a', b', n) := st in m' = m /\ exists k : nat, (k <= length la)%nat /\ (k <= length lb)%nat /\
    a' = a + Z.of_nat k /\ b' = b + Z.of_nat k /\ n = N - Z.of_nat k /\ Z.of_nat k <= N /\
    take k la = take k lb.

Lemma take_snoc_eq (la lb : list Z) k b : take k la = take k lb ->
  la !! k = Some b -> lb !! k = Some b -> take (S k) la = take (S k) lb.
Proof. intros E Ha Hb. rewrite (take_S_r _ _ _ Ha), (take_S_r _ _ _ Hb). congruence. Qed.

Lemma lookup_app_nul (l : list Z) k b : (l ++ [0]) !! k = Some b -> b <> 0 -> l !! k = Some b.
Proof.
  rewrite lookup_app. destruct (l !! k); [done|]. intros [_ ->]%list_lookup_singleton_Some ?. done.
Qed.

Lemma wp_strncmp m a b la lb N : cstr m a la -> cstr m b lb -> 0 <= N < 2 ^ 63 ->
  wp (bmk_strncmp a b N) (fun r m' => m' = m /\
    (r = 0 <-> take (Z.to_nat N) la = take (Z.to_nat N) lb) /\
    (r <> 0 -> exists k x y, Z.of_nat k < N /\ take k la = take k lb /\
       (la ++ [0]) !! k = Some x /\ (lb ++ [0]) !! k = Some y /\ r = x - y)) m.
Proof.
  intros Ha Hb HN. apply (wp_loop _ (strncmp_loop_inv m a b la lb N) (fun '(_, _, n) _ => n)).
  - intros [[a' b'] n] m' (-> & k & Hka & Hkb & -> & -> & -> & HkN & Ht). split; [lia|].
    destruct (Z.ltb_spec 0 (N - Z.of_nat k)).
    + destruct (cstr_lookup m a la k Ha Hka) as (x & Ex & Hx & Hxz & Lx).
      destruct (cstr_lookup m b lb k Hb Hkb) as (y & Ey & Hy & Hyz & Ly).
      apply wp_bind, (wp_rd _ x); [done|]. apply wp_bind, (wp_rd _ y); [done|].
      destruct (Z.eqb_spec x y) as [<-|Hne]; simpl.
      * destruct (Z.eqb_spec x 0) as [->|Hx0]; apply wp_ret.
        { split; [done|]. split; [|done]. split; [intros _|done].
          rewrite !take_ge by lia. rewrite !take_ge in Ht by lia. done. }
        { assert (k < length la)%nat by lia. assert (k < length lb)%nat by lia.
          split; [|lia]. split; [done|]. exists (S k). split_and!; try lia.
          by eapply take_snoc_eq; [done|by apply lookup_app_nul..]. }
      * apply wp_ret. split; [done|]. split; [|intros _; exists k, x, y; by split_and!; [lia|..]].
        split; [lia|]. intros Ht'. exfalso.
        apply Hne. assert (Hk : (k < Z.to_nat N)%nat) by lia.
        destruct (decide (x = 0)) as [->|]; [|destruct (decide (y = 0)) as [->|]].
        { assert (k = length la) as -> by lia. apply lookup_app_nul in Ly; [|lia].
          assert (take (Z.to_nat N) lb !! length la = Some y) as C by (by rewrite lookup_take_lt).
          rewrite <- Ht' in C. apply lookup_take_Some in C as [C _]. apply lookup_lt_Some in C. lia. }
        { assert (k = length lb) as -> by lia. apply lookup_app_nul in Lx; [|lia].
          assert (take (Z.to_nat N) la !! length lb = Some x) as C by (by rewrite lookup_take_lt).
          rewrite Ht' in C. apply lookup_take_Some in C as [C _]. apply lookup_lt_Some in C. lia. }
        { apply lookup_app_nul in Lx, Ly; [|done..].
          assert (take (Z.to_nat N) la !! k = Some x) as C by (by rewrite lookup_take_lt).
          rewrite Ht', lookup_take_lt, Ly in C by done. congruence. }
    + apply wp_ret. split; [done|]. split; [|done]. split; [intros _|done].
      assert (Z.to_nat N = k) as -> by lia. done.
  - split; [done|]. exists 0%nat. split_and!; try lia. done.
  - lia.
Qed.

(** ** bmk_strcmp *)

(** The loop walks a common prefix [l] (nonzero bytes). *)
Lemma strcmp_prefix m a b l (Q : Z -> gmap Z Z -> Prop) :
  bytes_at m a l -> bytes_at m b l -> Forall (fun c => 0 < c < 256) l ->
  Z.of_nat (length l) < 2 ^ 63 ->
  forall x y, m !! (a + Z.of_nat (length l)) = Some x -> m !! (b + Z.of_nat (length l)) = Some y ->
    byte x -> byte y -> (x = y -> x = 0) ->
  wp (loopM (fun '(a, b) =>
    x <-- rdc a ;;
    if x =? 0 then cret (inr (a, b)) else
    y <-- rdc b ;;
    if x =? y then cret (inl (a + 1, b + 1)) else cret (inr (a + 1, b + 1))) (a, b))
    (fun r m' => m' = m /\ r = if x =? 0 then (a + Z.of_nat (length l), b + Z.of_nat (length l))
      else (a + Z.of_nat (length l) + 1, b + Z.of_nat (length l) + 1)) m.
Proof.
  intros Ha Hb Hl Hlen x y Ex Ey Hx Hy Hxy.
  apply (wp_loop _ (fun '(a', b') m' => m' = m /\ exists k, (k <= length l)%nat /\
    a' = a + Z.of_nat k /\ b' = b + Z.of_nat k) (fun '(a', _) _ => a + Z.of_nat (length l) - a')).
  - intros [a' b'] m' (-> & k & Hk & -> & ->). split; [lia|].
    destruct (decide (k = length l)) as [->|Hne].
    + apply wp_bind, (wp_rdc _ x); [done|]. pose proof (char_of_zero x Hx) as Hz.
      destruct (Z.eqb_spec (char_of x) 0) as [E|E]; destruct (Z.eqb_spec x 0) as [->|Hx0]; try tauto.
      { by apply wp_ret. }
      apply wp_bind, (wp_rdc _ y); [done|].
      destruct (Z.eqb_spec (char_of x) (char_of y)) as [E'|]; [|by apply wp_ret].
      apply char_of_inj in E'; [|done..]. tauto.
    + destruct (lookup_lt_is_Some_2 l k) as [c Hc]; [lia|].
      rewrite Forall_lookup in Hl. pose proof (Hl _ _ Hc) as Hcb.
      assert (byte c) by (unfold byte; lia).
      apply wp_bind, (wp_rdc _ c); [by apply Ha|]. pose proof (char_of_zero c H) as Hz.
      destruct (Z.eqb_spec (char_of c) 0); [lia|].
      apply wp_bind, (wp_rdc _ c); [by apply Hb|]. rewrite Z.eqb_refl. apply wp_ret.
      split; [|lia]. split; [done|]. exists (S k). lia.
  - split; [done|]. exists 0%nat. lia.
  - lia.
Qed.

(** ** Fills and bmk_strncpy *)

Lemma wp_fill v m d n : room m d (Z.of_nat n) -> Z.of_nat n < 2 ^ 63 ->
  wp (loopM (fun '(d, n) =>
    if n =? 0 then cret (inr tt) else wr d v ;;; cret (inl (d + 1, n - 1))) (d, Z.of_nat n))
    (fun _ m' => stored m m' d (replicate n v)) m.
Proof.
  intros Hr Hn. apply (wp_loop _ (fun '(d', n') m' => exists k, (k <= n)%nat /\
    d' = d + Z.of_nat k /\ n' = Z.of_nat n - Z.of_nat k /\ stored m m' d (replicate k v))
    (fun '(_, n') _ => n')).
  - intros [d' n'] m' (k & Hk & -> & -> & Hst). split; [lia|].
    destruct (Z.eqb_spec (Z.of_nat n - Z.of_nat k) 0).
    + apply wp_ret. by assert (n = k) as -> by lia.
    + apply wp_bind, wp_wr; [apply (stored_room _ _ _ _ d _ Hst Hr); lia|]. apply wp_ret.
      split; [|lia]. exists (S k). split_and!; try lia.
      pose proof (stored_snoc _ _ _ _ v Hst) as H. rewrite length_replicate in H.
      by rewrite replicate_S_end.
  - exists 0%nat. split_and!; try lia. apply stored_nil.
  - lia.
Qed.

Lemma wp_memset m b c n : room m b (Z.of_nat n) -> Z.of_nat n < 2 ^ 63 ->
  wp (bmk_memset b c (Z.of_nat n)) (fun r m' => r = b /\ stored m m' b (replicate n (u8 c))) m.
Proof.
  intros Hr Hn. apply wp_bind. eapply wp_mono; [by apply wp_fill|]. intros [] m' H. by apply wp_ret.
Qed.

(** The copying loop of [bmk_strncpy] on a string of [length l] characters. *)
Lemma wp_strncpy_copy m d s l n : cstr m s l -> Z.of_nat n < 2 ^ 63 ->
  room m d (Z.of_nat n + 1) ->
  d + Z.of_nat n + 1 <= s \/ s + Z.of_nat (length l) + 1 <= d ->
  wp (loopM (fun '(d, s, n) =>
    if n =? 0 then cret (inr (d, n)) else
    c <-- rd s ;; wr d c ;;;
    if negb (c =? 0) then cret (inl (d + 1, s + 1, n - 1)) else cret (inr (d + 1, n)))
    (d, s, Z.of_nat n))
    (fun r m' => if decide (length l < n)%nat
       then r = (d + Z.of_nat (length l) + 1, Z.of_nat (n - length l)) /\ stored m m' d (l ++ [0])
       else r = (d + Z.of_nat n, 0) /\ stored m m' d (take n l)) m.
Proof.
  intros Hs Hn Hr Hsep. apply (wp_loop _ (fun '(d', s', n') m' => exists k, (k <= n)%nat /\
    (k <= length l)%nat /\ d' = d + Z.of_nat k /\ s' = s + Z.of_nat k /\
    n' = Z.of_nat n - Z.of_nat k /\ stored m m' d (take k l)) (fun '(_, _, n') _ => n')).
  - intros [[d' s'] n'] m' (k & Hk & Hkl & -> & -> & -> & Hst). split; [lia|].
    destruct (Z.eqb_spec (Z.of_nat n - Z.of_nat k) 0) as [E|E].
    + apply wp_ret. assert (k = n) as -> by lia. destruct (decide _); [lia|].
      split; [f_equal; lia|done].
    + destruct (cstr_lookup m s l k Hs Hkl) as (c & Ec & Hc & Hz & Lc).
      apply wp_bind, (wp_rd _ c).
      { rewrite (proj2 Hst); [done|]. rewrite length_take_le by lia. lia. }
      apply wp_bind, wp_wr; [apply (stored_room _ _ _ _ d _ Hst Hr); lia|].
      pose proof (stored_snoc _ _ _ _ c Hst) as Hn'. rewrite length_take_le in Hn' by lia.
      destruct (Z.eqb_spec c 0) as [->|Hc0]; apply wp_ret.
      * assert (k = length l) as -> by lia. rewrite take_ge in Hn' by lia.
        destruct (decide _); [|lia]. split; [f_equal; lia|done].
      * split; [|lia]. exists (S k). split_and!; try lia.
        rewrite (take_S_r _ _ c); [done|]. by apply lookup_app_nul.
  - exists 0%nat. split_and!; try lia. apply stored_nil.
  - lia.
Qed.

Lemma wp_strncpy m d s l n : cstr m s l -> Z.of_nat n < 2 ^ 62 ->
  room m d (Z.of_nat n + 1) ->
  d + Z.of_nat n + 1 <= s \/ s + Z.of_nat (length l) + 1 <= d ->
  wp (bmk_strncpy d s (Z.of_nat n)) (fun r m' => r = d /\
    stored m m' d (if decide (length l < n)%nat then l ++ replicate (n - length l + 1) 0
                   else take n l)) m.
Proof.
  intros Hs Hn Hr Hsep. unfold bmk_strncpy. apply wp_bind.
  eapply wp_mono; [by apply (wp_strncpy_copy m d s l n); [done|lia|..]|].
  intros [d' n'] m1. destruct (decide (length l < n)%nat) as [Hlt|Hge]; intros [[= -> ->] Hst].
  - apply wp_bind. eapply wp_mono; [apply wp_fill; [|lia]|].
    { intros i Hi. replace (d + _ + 1 + i) with (d + (Z.of_nat (length l) + 1 + i)) by lia.
      apply (stored_room _ _ _ _ d _ Hst Hr). lia. }
    intros [] m2 H2. apply wp_ret. split; [done|].
    replace (n - length l + 1)%nat with (S (n - length l)) by lia.
    change (l ++ replicate (S (n - length l)) 0) with (l ++ ([0] ++ replicate (n - length l) 0)).
    rewrite app_assoc. eapply stored_app; [exact Hst|]. rewrite length_app. simpl.
    by replace (d + Z.of_nat (length l + 1)) with (d + Z.of_nat (length l) + 1) by lia.
  - apply wp_bind. eapply wp_mono; [apply (wp_fill 0 _ _ 0); [intros i Hi; lia|lia]|].
    intros [] m2 H2. apply wp_ret. split; [done|]. rewrite <- (app_nil_r (take n l)).
    eapply stored_app; [exact Hst|]. by rewrite length_take_le by lia.
Qed.

(** ** Concrete memories *)
Lemma list_to_mem_bytes a l : bytes_at (list_to_mem a l) a l.
Proof.
  intros i b Hi. apply lookup_lt_Some in Hi as Hlt. unfold list_to_mem.
  apply elem_of_list_to_map_1.
  - rewrite fst_zip; [apply NoDup_seqZ|]. rewrite length_seqZ. lia.
  - apply (list_elem_of_lookup_2 _ i). rewrite lookup_zip_with, lookup_seqZ_lt by lia. simpl. by rewrite Hi.
Qed.
Lemma list_to_mem_out a l i : ~ (a <= i < a + Z.of_nat (length l)) -> list_to_mem a l !! i = None.
Proof.
  intros Hi. apply not_elem_of_list_to_map_1. rewrite fst_zip; [|rewrite length_seqZ; lia].
  rewrite elem_of_seqZ. lia.
Qed.
Lemma list_to_mem_room a l : room (list_to_mem a l) a (Z.of_nat (length l)).
Proof.
  intros i Hi. destruct (lookup_lt_is_Some_2 l (Z.to_nat i)) as [b Hb]; [lia|].
  exists b. replace i with (Z.of_nat (Z.to_nat i)) by lia. by apply list_to_mem_bytes.
Qed.
