(* ===== verification/CStringSpec.v ===== *)
(** * What the string routines do: the properties *)

From S2P Require Import Prelude CString CStringThms.

(** [bmk_mempcpy], with its byte-wise alignment prologue, quad-word moves and
    byte-wise tail, is a copy: for disjoint source and destination of any length
    it returns the end of the destination, the destination holds the source
    bytes, nothing else changes, and no byte outside the two is touched. *)
Theorem mempcpy_is_copy m d s l :
  copy_ok m d s l ->
  exists m', bmk_mempcpy d s (Z.of_nat (length l)) m = Done (d + Z.of_nat (length l), m') /\
    bytes_at m' d l /\ forall x, ~ (d <= x < d + Z.of_nat (length l)) -> m' !! x = m !! x.
Proof.
  intros H. destruct (wp_run _ _ _ (wp_mempcpy m d s l H)) as (r & m' & -> & -> & Hin & Hout). eauto.
Qed.

Lemma bytes_at_list a l m : (forall i, (i < length l)%nat -> m !! (a + Z.of_nat i) = l !! i) ->
  bytes_at m a l.
Proof. intros H i b Hi. rewrite H; [done|]. by eapply lookup_lt_Some. Qed.

Definition copy_example : gmap Z Z :=
  list_to_mem 305 (replicate 70 0) ∪ list_to_mem 500 (seqZ 1 70).

Lemma mempcpy_is_copy_witness : exists m',
  bmk_mempcpy 305 500 70 copy_example = Done (375, m') /\ bytes_at m' 305 (seqZ 1 70).
Proof.
  assert (copy_ok copy_example 305 500 (seqZ 1 70)) as H.
  { split; [| |left; vm_compute; congruence|vm_compute; congruence].
    - apply bytes_at_list. intros i Hi. rewrite length_seqZ in Hi.
      do 70 (destruct i as [|i]; [vm_compute; reflexivity|]). lia.
    - intros i Hi. change (Z.of_nat (length (seqZ 1 70))) with 70 in Hi.
      rewrite <- (Z2Nat.id i) by lia. assert (Hn : (Z.to_nat i < 70)%nat) by lia.
      generalize dependent (Z.to_nat i). intros n Hn.
      do 70 (destruct n as [|n]; [vm_compute; eauto|]). lia. }
  destruct (mempcpy_is_copy _ _ _ _ H) as (m' & E & Hb & _). exists m'. split; [exact E|exact Hb].
Defined.

(** [bmk_strncmp] compares at most [n] characters of two NUL-terminated
    strings: it returns 0 exactly when their first [n] characters agree, and
    otherwise the difference, as unsigned bytes, at the first position (within
    [n]) where they differ; it never reads past a terminator. *)
Theorem strncmp_correct m a b la lb n :
  cstr m a la -> cstr m b lb -> 0 <= n < 2 ^ 63 ->
  exists r, bmk_strncmp a b n m = Done (r, m) /\
    (r = 0 <-> take (Z.to_nat n) la = take (Z.to_nat n) lb) /\
    (r <> 0 -> exists k x y, Z.of_nat k < n /\ take k la = take k lb /\
       (la ++ [0]) !! k = Some x /\ (lb ++ [0]) !! k = Some y /\ r = x - y).
Proof.
  intros Ha Hb Hn. destruct (wp_run _ _ _ (wp_strncmp m a b la lb n Ha Hb Hn))
    as (r & m' & E & -> & H1 & H2). eauto.
Qed.

Definition str_example : gmap Z Z :=
  list_to_mem 100 [97; 98; 0] ∪ list_to_mem 200 [97; 99; 0] ∪ list_to_mem 300 (replicate 8 7).

Lemma str_example_ab : cstr str_example 100 [97; 98] /\ cstr str_example 200 [97; 99].
Proof.
  split; (split; [apply bytes_at_list; intros i Hi; simpl in Hi;
    do 3 (destruct i as [|i]; [vm_compute; reflexivity|]); lia|repeat constructor; lia]).
Qed.

Lemma strncmp_correct_witness : exists r,
  bmk_strncmp 100 200 5 str_example = Done (r, str_example) /\ r = -1.
Proof.
  destruct (strncmp_correct str_example 100 200 [97; 98] [97; 99] 5 (proj1 str_example_ab)
    (proj2 str_example_ab) ltac:(lia)) as (r & E & _). exists r. split; [exact E|].
  assert (F : match bmk_strncmp 100 200 5 str_example with Done (x, _) => x =? -1 | _ => false end = true)
    by (vm_compute; reflexivity).
  rewrite E in F. lia.
Defined.

(** [bmk_strcmp] on two strings whose first difference is not in the last
    character of the first one (or on equal strings, or a first string that is
    a proper prefix) returns the difference of the first differing characters. *)
Theorem strcmp_correct m a b l x y ra rb :
  cstr m a (l ++ x :: ra) -> cstr m b (l ++ y :: rb) -> x <> y -> ra <> [] ->
  Z.of_nat (length l) < 2 ^ 62 ->
  bmk_strcmp a b m = Done (char_of x - char_of y, m).
Proof.
  intros [Ha Fa] [Hb Fb] Hne Hra Hlen.
  apply Forall_app in Fa as [Fl Fx]. apply Forall_cons in Fx as [Fx Fra].
  apply Forall_app in Fb as [_ Fy]. apply Forall_cons in Fy as [Fy _].
  destruct ra as [|z ra]; [done|]. apply Forall_cons in Fra as [Fz _].
  assert (La : forall i c, (l ++ x :: z :: ra ++ [0]) !! i = Some c -> m !! (a + Z.of_nat i) = Some c).
  { intros i c Hi. apply Ha. by rewrite <- app_assoc. }
  assert (Lb : forall i c, (l ++ y :: rb ++ [0]) !! i = Some c -> m !! (b + Z.of_nat i) = Some c).
  { intros i c Hi. apply Hb. by rewrite <- app_assoc. }
  assert (Ex : m !! (a + Z.of_nat (length l)) = Some x)
    by (apply La; by rewrite list_lookup_middle by done).
  assert (Ey : m !! (b + Z.of_nat (length l)) = Some y)
    by (apply Lb; by rewrite list_lookup_middle by done).
  assert (Ez : m !! (a + Z.of_nat (length l) + 1) = Some z).
  { replace (a + Z.of_nat (length l) + 1) with (a + Z.of_nat (length l + 1)) by lia.
    apply La. rewrite lookup_app_r by lia. by replace (length l + 1 - length l)%nat with 1%nat by lia. }
  assert (Hw : wp (bmk_strcmp a b) (fun r m' => m' = m /\ r = char_of x - char_of y) m).
  { unfold bmk_strcmp. apply wp_bind.
    eapply wp_mono; [eapply (strcmp_prefix m a b l (fun _ _ => True)) with (x := x) (y := y);
      try done; try (unfold byte; lia); try lia|].
    - intros i c Hi. apply La. by apply lookup_app_l_Some.
    - intros i c Hi. apply Lb. by apply lookup_app_l_Some.
    - intros [a' b'] m' [-> E]. destruct (Z.eqb_spec x 0); [lia|]. injection E as -> ->.
      apply wp_bind, (wp_rdc _ z); [done|].
      pose proof (char_of_zero z ltac:(unfold byte; lia)). destruct (Z.eqb_spec (char_of z) 0); [lia|].
      simpl negb. cbv iota.
      apply wp_bind, (wp_rdc _ x); [by rewrite Z.add_simpl_r|].
      apply wp_bind, (wp_rdc _ y); [by rewrite Z.add_simpl_r|]. by apply wp_ret. }
  destruct (wp_run _ _ _ Hw) as (r & m' & -> & -> & ->). done.
Qed.

Definition strcmp_example : gmap Z Z :=
  list_to_mem 100 [97; 98; 99; 0] ∪ list_to_mem 200 [97; 120; 0].

Lemma strcmp_correct_witness :
  bmk_strcmp 100 200 strcmp_example = Done (98 - 120, strcmp_example).
Proof.
  apply (strcmp_correct strcmp_example 100 200 [97] 98 120 [99] []); [| |lia|done|vm_compute; congruence];
    (split; [apply bytes_at_list; intros i Hi; simpl in Hi;
      do 4 (destruct i as [|i]; [vm_compute; reflexivity|]); lia|repeat constructor; lia]).
Defined.

(** Two strings that differ only in their last character compare as equal:
    [bmk_strcmp] returns 0 on [l ++ x] and [l ++ y] although [x <> y], because
    the loop has already stepped past the difference when it looks at [*a]. *)
Theorem strcmp_last_char m a b l x y :
  cstr m a (l ++ [x]) -> cstr m b (l ++ [y]) -> x <> y -> Z.of_nat (length l) < 2 ^ 62 ->
  bmk_strcmp a b m = Done (0, m).
Proof.
  intros Ca Cb Hne Hlen. pose proof Ca as [Ha Fa]. pose proof Cb as [Hb Fb].
  assert (Hel : length (l ++ [x]) = (length l + 1)%nat) by (by rewrite length_app).
  assert (Hel' : length (l ++ [y]) = (length l + 1)%nat) by (by rewrite length_app).
  assert (Ex : m !! (a + Z.of_nat (length l)) = Some x).
  { apply Ha. rewrite <- app_assoc. simpl. by rewrite list_lookup_middle. }
  assert (Ey : m !! (b + Z.of_nat (length l)) = Some y).
  { apply Hb. rewrite <- app_assoc. simpl. by rewrite list_lookup_middle. }
  apply Forall_app in Fa as [Fl Fx]. apply Forall_cons in Fx as [Fx _].
  apply Forall_app in Fb as [_ Fy]. apply Forall_cons in Fy as [Fy _].
  destruct (cstr_lookup m a (l ++ [x]) (length l + 1) Ca ltac:(lia)) as (z & Ez & _ & Hz & _).
  destruct (cstr_lookup m b (l ++ [y]) (length l + 1) Cb ltac:(lia)) as (w & Ew & _ & Hw & _).
  assert (z = 0) as -> by lia. assert (w = 0) as -> by lia.
  rewrite Nat2Z.inj_add, Z.add_assoc in Ez, Ew. change (Z.of_nat 1) with 1 in Ez, Ew.
  assert (Hp : wp (bmk_strcmp a b) (fun r m' => m' = m /\ r = 0) m).
  { unfold bmk_strcmp. apply wp_bind.
    eapply wp_mono; [eapply (strcmp_prefix m a b l (fun _ _ => True)) with (x := x) (y := y);
      try done; try (unfold byte; lia); try lia|].
    - intros i c Hi. apply Ha. rewrite <- app_assoc. by apply lookup_app_l_Some.
    - intros i c Hi. apply Hb. rewrite <- app_assoc. by apply lookup_app_l_Some.
    - intros [a' b'] m' [-> E]. destruct (Z.eqb_spec x 0); [lia|]. injection E as -> ->.
      apply wp_bind, (wp_rdc _ 0); [done|]. change (char_of 0) with 0. simpl.
      apply wp_bind, (wp_rdc _ 0); [done|]. apply wp_bind, (wp_rdc _ 0); [done|]. by apply wp_ret. }
  destruct (wp_run _ _ _ Hp) as (r & m' & -> & -> & ->). done.
Qed.

Lemma strcmp_last_char_witness : bmk_strcmp 100 200 str_example = Done (0, str_example).
Proof.
  apply (strcmp_last_char str_example 100 200 [97] 98 99);
    [exact (proj1 str_example_ab)|exact (proj2 str_example_ab)|lia|vm_compute; congruence].
Defined.

(** [bmk_strncpy (d, s, n)] copies and pads, but when the source is shorter
    than [n] it writes [n + 1] bytes: the terminator it copies is not counted
    and the padding loop then writes [n - strlen s] more, so [d[n]] is
    overwritten with NUL.  When the source has at least [n] characters it
    writes exactly its first [n]. *)
Theorem strncpy_writes m d s l n :
  cstr m s l -> Z.of_nat n < 2 ^ 62 -> room m d (Z.of_nat n + 1) ->
  d + Z.of_nat n + 1 <= s \/ s + Z.of_nat (length l) + 1 <= d ->
  exists m', bmk_strncpy d s (Z.of_nat n) m = Done (d, m') /\
    ((length l < n)%nat -> bytes_at m' d (l ++ replicate (n - length l) 0) /\
       m' !! (d + Z.of_nat n) = Some 0) /\
    ((n <= length l)%nat -> bytes_at m' d (take n l) /\ m' !! (d + Z.of_nat n) = m !! (d + Z.of_nat n)).
Proof.
  intros Hs Hn Hr Hsep. destruct (wp_run _ _ _ (wp_strncpy m d s l n Hs Hn Hr Hsep))
    as (r & m' & E & -> & Hst). exists m'. split; [done|]. split.
  - intros Hlt. destruct (decide _); [|lia]. destruct Hst as [Hin _]. split.
    + intros i b Hi. apply Hin. rewrite Nat.add_1_r. rewrite lookup_app in *.
      destruct (l !! i); [done|]. apply lookup_replicate in Hi as [-> Hi].
      apply lookup_replicate. lia.
    + apply Hin. rewrite lookup_app_r by lia. apply lookup_replicate. lia.
  - intros Hge. destruct (decide _); [lia|]. destruct Hst as [Hin Hout]. split; [done|].
    apply Hout. rewrite length_take_le by lia. lia.
Qed.

Lemma strncpy_writes_witness : exists m',
  bmk_strncpy 300 100 4 str_example = Done (300, m') /\ m' !! 304 = Some 0 /\ str_example !! 304 = Some 7.
Proof.
  destruct (strncpy_writes str_example 300 100 [97; 98] 4 (proj1 str_example_ab)) as (m' & E & H & _).
  - vm_compute. reflexivity.
  - intros i Hi. change (Z.of_nat 4 + 1) with 5 in Hi.
    assert (Hn : (Z.to_nat i < 5)%nat) by lia. rewrite <- (Z2Nat.id i) by lia.
    generalize dependent (Z.to_nat i). intros n Hn.
    do 5 (destruct n as [|n]; [vm_compute; eauto|]). lia.
  - right. vm_compute. congruence.
  - exists m'. split; [exact E|]. split; [|vm_compute; reflexivity].
    exact (proj2 (H ltac:(simpl; lia))).
Defined.
