(* ===== verification/Queue.v ===== *)
(** * Intrusive lists and queues (include/bmk-core/queue.h)

    The macros work on pointers inside the elements, so they are translated on
    a memory of words: [qmem] maps the address of a word to its contents, and a
    load or a store outside it halts.  A head of address [h] has its first
    pointer at [h] and, for the queues, its last pointer at [h + 8]; the linkage
    of an element [e] is its member [field], with the next pointer at
    [e + field] and the back pointer 8 bytes behind it.  The type punning of
    TAILQ_LAST and TAILQ_PREV, which read an element's linkage as a head, is
    then what it is in C: a load at the pointer plus 8.

    [QUEUEDEBUG] is the compile-time switch of the consistency checks. *)
From S2P Require Import Prelude.

Abbreviation qmem := (gmap Z Z).

(** The word at address [a]. *)
Definition load (a : Z) : M qmem Z :=
  m <-- mget ;; mopt (m !! a) "load outside the memory".
Definition store (a v : Z) : M qmem unit :=
  _ <-- load a ;; modify (fun m => <[a := v]> m).

(** The loop [for (var = start; var != NULL; var = next)]: [visit] is the body
    followed by the computation of the next element. *)
Definition for_each {A} (visit : A -> Z -> M qmem (A * Z)) (a : A) (start : Z) : M qmem A :=
  loopM (fun '(a, var) => if var =? 0 then cret (inr a)
                          else '(a', nxt) <-- visit a var ;; cret (inl (a', nxt)))
        (a, start).

Section Macros.
Variable QUEUEDEBUG : bool.
Variable field : Z.

(** [&(elm)->field.xxx_next] and [&(elm)->field.xxx_prev]. *)
Definition next_of (elm : Z) : Z := elm + field.
Definition prev_of (elm : Z) : Z := next_of elm + 8.
(** [&(head)->xxx_last] of a head, or of a linkage taken for one. *)
Definition last_of (head : Z) : Z := head + 8.

(** [if (c) QUEUEDEBUG_ABORT(...)], compiled only under the switch. *)
Definition debug_abort_if (c : M qmem bool) (why : string) : M qmem unit :=
  if QUEUEDEBUG then (b <-- c ;; massert (negb b) why) else cret tt.
(** [p != 0 && *(p->field.prev) ...]: the second operand only for a non-null [p]. *)
Definition and_nonnull (p : Z) (c : M qmem bool) : M qmem bool :=
  if p =? 0 then cret false else c.

(** ** Singly linked lists *)
Definition SLIST_FIRST (head : Z) : M qmem Z := load head.
Definition SLIST_EMPTY (head : Z) : M qmem bool := p <-- load head ;; cret (p =? 0).
Definition SLIST_NEXT (elm : Z) : M qmem Z := load (next_of elm).
Definition SLIST_FOREACH {A} (f : A -> Z -> M qmem A) (a : A) (head : Z) : M qmem A :=
  start <-- load head ;;
  for_each (fun a var => a' <-- f a var ;; n <-- load (next_of var) ;; cret (a', n)) a start.
Definition SLIST_FOREACH_SAFE {A} (f : A -> Z -> M qmem A) (a : A) (head : Z) : M qmem A :=
  start <-- SLIST_FIRST head ;;
  for_each (fun a var => tvar <-- SLIST_NEXT var ;; a' <-- f a var ;; cret (a', tvar)) a start.
Definition SLIST_INIT (head : Z) : M qmem unit := store head 0.
Definition SLIST_INSERT_AFTER (slistelm elm : Z) : M qmem unit :=
  n <-- load (next_of slistelm) ;; store (next_of elm) n ;;;
  store (next_of slistelm) elm.
Definition SLIST_INSERT_HEAD (head elm : Z) : M qmem unit :=
  f <-- load head ;; store (next_of elm) f ;;;
  store head elm.
Definition SLIST_REMOVE_AFTER (slistelm : Z) : M qmem unit :=
  n <-- SLIST_NEXT slistelm ;; nn <-- SLIST_NEXT n ;;
  store (next_of slistelm) nn.
Definition SLIST_REMOVE_HEAD (head : Z) : M qmem unit :=
  f <-- load head ;; n <-- load (next_of f) ;; store head n.
(** [while (curelm->next != elm) curelm = curelm->next;] *)
Definition find_before (elm curelm : Z) : M qmem Z :=
  loopM (fun cur => n <-- load (next_of cur) ;;
                    if n =? elm then cret (inr cur) else cret (inl n)) curelm.
Definition SLIST_REMOVE (head elm : Z) : M qmem unit :=
  f <-- load head ;;
  if f =? elm then SLIST_REMOVE_HEAD head
  else curelm <-- find_before elm f ;;
       n <-- load (next_of curelm) ;; nn <-- load (next_of n) ;;
       store (next_of curelm) nn.

(** ** Lists *)
Definition LIST_FIRST (head : Z) : M qmem Z := load head.
Definition LIST_EMPTY (head : Z) : M qmem bool := p <-- load head ;; cret (p =? 0).
Definition LIST_NEXT (elm : Z) : M qmem Z := load (next_of elm).
Definition LIST_FOREACH {A} (f : A -> Z -> M qmem A) (a : A) (head : Z) : M qmem A :=
  start <-- load head ;;
  for_each (fun a var => a' <-- f a var ;; n <-- load (next_of var) ;; cret (a', n)) a start.
Definition LIST_FOREACH_SAFE {A} (f : A -> Z -> M qmem A) (a : A) (head : Z) : M qmem A :=
  start <-- LIST_FIRST head ;;
  for_each (fun a var => tvar <-- LIST_NEXT var ;; a' <-- f a var ;; cret (a', tvar)) a start.
Definition LIST_INIT (head : Z) : M qmem unit := store head 0.
Definition LIST_MOVE (head1 head2 : Z) : M qmem unit :=
  LIST_INIT head2 ;;;
  e <-- LIST_EMPTY head1 ;;
  if negb e then f <-- load head1 ;; store head2 f ;;; LIST_INIT head1 else cret tt.

(** The checks of QUEUEDEBUG, shared by lists and tail queues: the same words,
    under other names. *)
Definition QUEUEDEBUG_INSERT_HEAD (head : Z) : M qmem unit :=
  debug_abort_if (f <-- load head ;; and_nonnull f (
    p <-- load (prev_of f) ;; cret (negb (p =? head)))) "INSERT_HEAD".
Definition QUEUEDEBUG_OP (elm : Z) : M qmem unit :=
  debug_abort_if (n <-- load (next_of elm) ;; and_nonnull n (
    p <-- load (prev_of n) ;; cret (negb (p =? next_of elm)))) "forw" ;;;
  debug_abort_if (p <-- load (prev_of elm) ;; v <-- load p ;; cret (negb (v =? elm))) "back".
Definition QUEUEDEBUG_POSTREMOVE (elm : Z) : M qmem unit :=
  if QUEUEDEBUG then store (next_of elm) 1 ;;; store (prev_of elm) 1 else cret tt.

Definition LIST_INSERT_AFTER (listelm elm : Z) : M qmem unit :=
  QUEUEDEBUG_OP listelm ;;;
  n <-- load (next_of listelm) ;; store (next_of elm) n ;;;
  (if negb (n =? 0)
   then n' <-- load (next_of listelm) ;; store (prev_of n') (next_of elm)
   else cret tt) ;;;
  store (next_of listelm) elm ;;;
  store (prev_of elm) (next_of listelm).
Definition LIST_INSERT_BEFORE (listelm elm : Z) : M qmem unit :=
  QUEUEDEBUG_OP listelm ;;;
  p <-- load (prev_of listelm) ;; store (prev_of elm) p ;;;
  store (next_of elm) listelm ;;;
  p' <-- load (prev_of listelm) ;; store p' elm ;;;
  store (prev_of listelm) (next_of elm).
Definition LIST_INSERT_HEAD (head elm : Z) : M qmem unit :=
  QUEUEDEBUG_INSERT_HEAD head ;;;
  f <-- load head ;; store (next_of elm) f ;;;
  (if negb (f =? 0)
   then f' <-- load head ;; store (prev_of f') (next_of elm)
   else cret tt) ;;;
  store head elm ;;;
  store (prev_of elm) head.
Definition LIST_REMOVE (elm : Z) : M qmem unit :=
  QUEUEDEBUG_OP elm ;;;
  n <-- load (next_of elm) ;;
  (if negb (n =? 0)
   then p <-- load (prev_of elm) ;; store (prev_of n) p
   else cret tt) ;;;
  p <-- load (prev_of elm) ;; n' <-- load (next_of elm) ;; store p n' ;;;
  QUEUEDEBUG_POSTREMOVE elm.
Definition LIST_REPLACE (elm elm2 : Z) : M qmem unit :=
  n <-- load (next_of elm) ;; store (next_of elm2) n ;;;
  (if negb (n =? 0)
   then n' <-- load (next_of elm2) ;; store (prev_of n') (next_of elm2)
   else cret tt) ;;;
  p <-- load (prev_of elm) ;; store (prev_of elm2) p ;;;
  p' <-- load (prev_of elm2) ;; store p' elm2 ;;;
  QUEUEDEBUG_POSTREMOVE elm.

(** ** Simple queues *)
Definition SIMPLEQ_FIRST (head : Z) : M qmem Z := load head.
Definition SIMPLEQ_EMPTY (head : Z) : M qmem bool := p <-- load head ;; cret (p =? 0).
Definition SIMPLEQ_NEXT (elm : Z) : M qmem Z := load (next_of elm).
Definition SIMPLEQ_FOREACH {A} (f : A -> Z -> M qmem A) (a : A) (head : Z) : M qmem A :=
  start <-- load head ;;
  for_each (fun a var => a' <-- f a var ;; n <-- load (next_of var) ;; cret (a', n)) a start.
Definition SIMPLEQ_FOREACH_SAFE {A} (f : A -> Z -> M qmem A) (a : A) (head : Z) : M qmem A :=
  start <-- load head ;;
  for_each (fun a var => nxt <-- load (next_of var) ;; a' <-- f a var ;; cret (a', nxt)) a start.
Definition SIMPLEQ_INIT (head : Z) : M qmem unit :=
  store head 0 ;;; store (last_of head) head.
Definition SIMPLEQ_INSERT_HEAD (head elm : Z) : M qmem unit :=
  f <-- load head ;; store (next_of elm) f ;;;
  (if f =? 0 then store (last_of head) (next_of elm) else cret tt) ;;;
  store head elm.
Definition SIMPLEQ_INSERT_TAIL (head elm : Z) : M qmem unit :=
  store (next_of elm) 0 ;;;
  l <-- load (last_of head) ;; store l elm ;;;
  store (last_of head) (next_of elm).
Definition SIMPLEQ_INSERT_AFTER (head listelm elm : Z) : M qmem unit :=
  n <-- load (next_of listelm) ;; store (next_of elm) n ;;;
  (if n =? 0 then store (last_of head) (next_of elm) else cret tt) ;;;
  store (next_of listelm) elm.
Definition SIMPLEQ_REMOVE_HEAD (head : Z) : M qmem unit :=
  f <-- load head ;; n <-- load (next_of f) ;; store head n ;;;
  if n =? 0 then store (last_of head) head else cret tt.
Definition SIMPLEQ_REMOVE_AFTER (head elm : Z) : M qmem unit :=
  n <-- load (next_of elm) ;; nn <-- load (next_of n) ;; store (next_of elm) nn ;;;
  if nn =? 0 then store (last_of head) (next_of elm) else cret tt.
Definition SIMPLEQ_REMOVE (head elm : Z) : M qmem unit :=
  f <-- load head ;;
  if f =? elm then SIMPLEQ_REMOVE_HEAD head
  else curelm <-- find_before elm f ;;
       n <-- load (next_of curelm) ;; nn <-- load (next_of n) ;; store (next_of curelm) nn ;;;
       if nn =? 0 then store (last_of head) (next_of curelm) else cret tt.
Definition SIMPLEQ_CONCAT (head1 head2 : Z) : M qmem unit :=
  e <-- SIMPLEQ_EMPTY head2 ;;
  if negb e then
    l1 <-- load (last_of head1) ;; f2 <-- load head2 ;; store l1 f2 ;;;
    l2 <-- load (last_of head2) ;; store (last_of head1) l2 ;;;
    SIMPLEQ_INIT head2
  else cret tt.
(** [(char * )last - offsetof(struct type, field)]. *)
Definition SIMPLEQ_LAST (head : Z) : M qmem Z :=
  e <-- SIMPLEQ_EMPTY head ;;
  if e then cret 0 else l <-- load (last_of head) ;; cret (l - field).

(** ** Tail queues *)
Definition TAILQ_FIRST (head : Z) : M qmem Z := load head.
Definition TAILQ_NEXT (elm : Z) : M qmem Z := load (next_of elm).
Definition TAILQ_LAST (head : Z) : M qmem Z :=
  l <-- load (last_of head) ;; p <-- load (last_of l) ;; load p.
Definition TAILQ_PREV (elm : Z) : M qmem Z :=
  p <-- load (prev_of elm) ;; q <-- load (last_of p) ;; load q.
Definition TAILQ_EMPTY (head : Z) : M qmem bool := f <-- TAILQ_FIRST head ;; cret (f =? 0).
Definition TAILQ_FOREACH {A} (f : A -> Z -> M qmem A) (a : A) (head : Z) : M qmem A :=
  start <-- load head ;;
  for_each (fun a var => a' <-- f a var ;; n <-- load (next_of var) ;; cret (a', n)) a start.
Definition TAILQ_FOREACH_SAFE {A} (f : A -> Z -> M qmem A) (a : A) (head : Z) : M qmem A :=
  start <-- load head ;;
  for_each (fun a var => nxt <-- TAILQ_NEXT var ;; a' <-- f a var ;; cret (a', nxt)) a start.
Definition TAILQ_FOREACH_REVERSE {A} (f : A -> Z -> M qmem A) (a : A) (head : Z) : M qmem A :=
  start <-- (l <-- load (last_of head) ;; p <-- load (last_of l) ;; load p) ;;
  for_each (fun a var => a' <-- f a var ;;
    n <-- (p <-- load (prev_of var) ;; q <-- load (last_of p) ;; load q) ;; cret (a', n)) a start.
Definition TAILQ_FOREACH_REVERSE_SAFE {A} (f : A -> Z -> M qmem A) (a : A) (head : Z) : M qmem A :=
  start <-- TAILQ_LAST head ;;
  for_each (fun a var => prv <-- TAILQ_PREV var ;; a' <-- f a var ;; cret (a', prv)) a start.

Definition QUEUEDEBUG_TAILQ_INSERT_TAIL (head : Z) : M qmem unit :=
  debug_abort_if (l <-- load (last_of head) ;; v <-- load l ;; cret (negb (v =? 0))) "INSERT_TAIL".
Definition QUEUEDEBUG_TAILQ_PREREMOVE (head elm : Z) : M qmem unit :=
  debug_abort_if (n <-- load (next_of elm) ;;
    if n =? 0 then l <-- load (last_of head) ;; cret (negb (l =? next_of elm))
    else cret false) "PREREMOVE".

Definition TAILQ_INIT (head : Z) : M qmem unit :=
  store head 0 ;;; store (last_of head) head.
Definition TAILQ_INSERT_HEAD (head elm : Z) : M qmem unit :=
  QUEUEDEBUG_INSERT_HEAD head ;;;
  f <-- load head ;; store (next_of elm) f ;;;
  (if negb (f =? 0)
   then f' <-- load head ;; store (prev_of f') (next_of elm)
   else store (last_of head) (next_of elm)) ;;;
  store head elm ;;;
  store (prev_of elm) head.
Definition TAILQ_INSERT_TAIL (head elm : Z) : M qmem unit :=
  QUEUEDEBUG_TAILQ_INSERT_TAIL head ;;;
  store (next_of elm) 0 ;;;
  l <-- load (last_of head) ;; store (prev_of elm) l ;;;
  l' <-- load (last_of head) ;; store l' elm ;;;
  store (last_of head) (next_of elm).
Definition TAILQ_INSERT_AFTER (head listelm elm : Z) : M qmem unit :=
  QUEUEDEBUG_OP listelm ;;;
  n <-- load (next_of listelm) ;; store (next_of elm) n ;;;
  (if negb (n =? 0)
   then n' <-- load (next_of elm) ;; store (prev_of n') (next_of elm)
   else store (last_of head) (next_of elm)) ;;;
  store (next_of listelm) elm ;;;
  store (prev_of elm) (next_of listelm).
Definition TAILQ_INSERT_BEFORE (listelm elm : Z) : M qmem unit :=
  QUEUEDEBUG_OP listelm ;;;
  p <-- load (prev_of listelm) ;; store (prev_of elm) p ;;;
  store (next_of elm) listelm ;;;
  p' <-- load (prev_of listelm) ;; store p' elm ;;;
  store (prev_of listelm) (next_of elm).
Definition TAILQ_REMOVE (head elm : Z) : M qmem unit :=
  QUEUEDEBUG_TAILQ_PREREMOVE head elm ;;;
  QUEUEDEBUG_OP elm ;;;
  n <-- load (next_of elm) ;;
  (if negb (n =? 0)
   then p <-- load (prev_of elm) ;; store (prev_of n) p
   else p <-- load (prev_of elm) ;; store (last_of head) p) ;;;
  p <-- load (prev_of elm) ;; n' <-- load (next_of elm) ;; store p n' ;;;
  QUEUEDEBUG_POSTREMOVE elm.
Definition TAILQ_REPLACE (head elm elm2 : Z) : M qmem unit :=
  n <-- load (next_of elm) ;; store (next_of elm2) n ;;;
  (if negb (n =? 0)
   then n' <-- load (next_of elm2) ;; store (prev_of n') (next_of elm2)
   else store (last_of head) (next_of elm2)) ;;;
  p <-- load (prev_of elm) ;; store (prev_of elm2) p ;;;
  p' <-- load (prev_of elm2) ;; store p' elm2 ;;;
  QUEUEDEBUG_POSTREMOVE elm.
Definition TAILQ_CONCAT (head1 head2 : Z) : M qmem unit :=
  e <-- TAILQ_EMPTY head2 ;;
  if negb e then
    l1 <-- load (last_of head1) ;; f2 <-- load head2 ;; store l1 f2 ;;;
    f2' <-- load head2 ;; l1' <-- load (last_of head1) ;; store (prev_of f2') l1' ;;;
    l2 <-- load (last_of head2) ;; store (last_of head1) l2 ;;;
    TAILQ_INIT head2
  else cret tt.

(** ** Singly linked tail queues *)
Definition STAILQ_FIRST (head : Z) : M qmem Z := load head.
Definition STAILQ_NEXT (elm : Z) : M qmem Z := load (next_of elm).
Definition STAILQ_EMPTY (head : Z) : M qmem bool := f <-- STAILQ_FIRST head ;; cret (f =? 0).
Definition STAILQ_INIT (head : Z) : M qmem unit :=
  store head 0 ;;; store (last_of head) head.
Definition STAILQ_INSERT_HEAD (head elm : Z) : M qmem unit :=
  f <-- load head ;; store (next_of elm) f ;;;
  (if f =? 0 then store (last_of head) (next_of elm) else cret tt) ;;;
  store head elm.
Definition STAILQ_INSERT_TAIL (head elm : Z) : M qmem unit :=
  store (next_of elm) 0 ;;;
  l <-- load (last_of head) ;; store l elm ;;;
  store (last_of head) (next_of elm).
Definition STAILQ_INSERT_AFTER (head listelm elm : Z) : M qmem unit :=
  n <-- load (next_of listelm) ;; store (next_of elm) n ;;;
  (if n =? 0 then store (last_of head) (next_of elm) else cret tt) ;;;
  store (next_of listelm) elm.
Definition STAILQ_REMOVE_HEAD (head : Z) : M qmem unit :=
  f <-- load head ;; n <-- load (next_of f) ;; store head n ;;;
  if n =? 0 then store (last_of head) head else cret tt.
Definition STAILQ_REMOVE (head elm : Z) : M qmem unit :=
  f <-- load head ;;
  if f =? elm then STAILQ_REMOVE_HEAD head
  else curelm <-- find_before elm f ;;
       n <-- load (next_of curelm) ;; nn <-- load (next_of n) ;; store (next_of curelm) nn ;;;
       if nn =? 0 then store (last_of head) (next_of curelm) else cret tt.
Definition STAILQ_FOREACH {A} (f : A -> Z -> M qmem A) (a : A) (head : Z) : M qmem A :=
  start <-- load head ;;
  for_each (fun a var => a' <-- f a var ;; n <-- load (next_of var) ;; cret (a', n)) a start.
Definition STAILQ_FOREACH_SAFE {A} (f : A -> Z -> M qmem A) (a : A) (head : Z) : M qmem A :=
  start <-- STAILQ_FIRST head ;;
  for_each (fun a var => tvar <-- STAILQ_NEXT var ;; a' <-- f a var ;; cret (a', tvar)) a start.
Definition STAILQ_CONCAT (head1 head2 : Z) : M qmem unit :=
  e <-- STAILQ_EMPTY head2 ;;
  if negb e then
    l1 <-- load (last_of head1) ;; f2 <-- load head2 ;; store l1 f2 ;;;
    l2 <-- load (last_of head2) ;; store (last_of head1) l2 ;;;
    STAILQ_INIT head2
  else cret tt.
Definition STAILQ_LAST (head : Z) : M qmem Z :=
  e <-- STAILQ_EMPTY head ;;
  if e then cret 0 else l <-- load (last_of head) ;; cret (l - field).
End Macros.
