(* ===== verification/QueueThms.v ===== *)
(** * Intrusive lists and queues: lemmas

    A piece of memory is described by the list of its cells with their contents;
    [holds m l] says that the cells of [l] are distinct and hold what [l] says.
    The lemmas of an operation mention the cells it works on and an arbitrary
    rest, which is therefore untouched.  Descriptions are taken up to
    permutation, and [Take] finds a cell in one. *)
From S2P Require Import Prelude Queue.

Abbreviation cells := (list (Z * Z)).

Definition holds (m : qmem) (l : cells) : Prop :=
  NoDup l.*1 /\ Forall (fun p => m !! p.1 = Some p.2) l.

#[global] Instance holds_proper m : Proper (Permutation ==> iff) (holds m).
Proof. intros l l' Hp. unfold holds. by rewrite Hp. Qed.

Lemma holds_perm m l l' : holds m l -> l ≡ₚ l' -> holds m l'.
Proof. by intros H <-. Qed.

(** [Take l a v l']: the description [l] has the cell [a], with contents [v],
    and [l'] is the rest. *)
Class Take (l : cells) (a v : Z) (l' : cells) : Prop := take_perm : l ≡ₚ (a, v) :: l'.
#[global] Hint Mode Take ! ! - - : typeclass_instances.

#[global] Instance take_here a v l : Take ((a, v) :: l) a v l | 1.
Proof. by unfold Take. Qed.
#[global] Instance take_there p l a v l' : Take l a v l' -> Take (p :: l) a v (p :: l') | 2.
Proof. unfold Take. intros ->. constructor. Qed.
#[global] Instance take_app_l l1 l2 a v l' : Take l1 a v l' -> Take (l1 ++ l2) a v (l' ++ l2) | 3.
Proof. unfold Take. by intros ->. Qed.
#[global] Instance take_app_r l1 l2 a v l' : Take l2 a v l' -> Take (l1 ++ l2) a v (l1 ++ l') | 4.
Proof. unfold Take. intros ->. by rewrite Permutation_middle. Qed.

Lemma wp_load m l a v l' Q : holds m l -> Take l a v l' -> Q v m -> wp (load a) Q m.
Proof.
  intros [Hd Hl] Ht HQ. unfold load. wp_steps. eapply wp_opt; [|done].
  unfold Take in Ht. rewrite Ht in Hl. by apply Forall_cons in Hl as [Hl _].
Qed.

Lemma wp_store m l a v w l' Q : holds m l -> Take l a w l' ->
  (forall m', holds m' ((a, v) :: l') -> Q tt m') -> wp (store a v) Q m.
Proof.
  intros Ho Ht HQ. unfold store. wp_steps. eapply wp_load; [done..|]. wp_steps. apply HQ.
  unfold Take in Ht. rewrite Ht in Ho. destruct Ho as [Hd Hl].
  cbn in Hd. apply NoDup_cons in Hd as [Hn Hd]. split; [by apply NoDup_cons|].
  apply Forall_cons in Hl as [_ Hl]. constructor; [by rewrite lookup_insert_eq|].
  rewrite Forall_forall in *. intros p Hp. rewrite lookup_insert_ne; [by apply Hl|].
  intros ->. by apply Hn, list_elem_of_fmap_2.
Qed.

(** ** Shapes

    [links c xs]: the chain of next pointers through [xs], from the cell [c];
    [dlinks] has the back pointers too.  [endc c xs] is the cell that ends the
    chain. *)
Section Shapes.
Context {field : Z}.
Abbreviation nx := (next_of field).
Abbreviation pv := (prev_of field).

Fixpoint endc (c : Z) (xs : list Z) : Z :=
  match xs with [] => c | x :: xs => endc (nx x) xs end.
Fixpoint links (c : Z) (xs : list Z) : cells :=
  match xs with [] => [] | x :: xs => (c, x) :: links (nx x) xs end.
Fixpoint dlinks (c : Z) (xs : list Z) : cells :=
  match xs with [] => [] | x :: xs => (c, x) :: (pv x, c) :: dlinks (nx x) xs end.

(** The five kinds of queue with head [h] and elements [xs], and the linkage of
    an element outside any queue. *)
Definition slist (h : Z) (xs : list Z) : cells := links h xs ++ [(endc h xs, 0)].
Definition dlist (h : Z) (xs : list Z) : cells := dlinks h xs ++ [(endc h xs, 0)].
Definition simpleq (h : Z) (xs : list Z) : cells :=
  links h xs ++ [(endc h xs, 0); (last_of h, endc h xs)].
Definition tailq (h : Z) (xs : list Z) : cells :=
  dlinks h xs ++ [(endc h xs, 0); (last_of h, endc h xs)].
Definition snode (e : Z) (a : Z) : cells := [(nx e, a)].
Definition node (e : Z) (ab : Z * Z) : cells := [(nx e, ab.1); (pv e, ab.2)].

Lemma endc_app c xs ys : endc c (xs ++ ys) = endc (endc c xs) ys.
Proof. revert c. induction xs; intros c; simpl; auto. Qed.
Lemma links_app c xs ys : links c (xs ++ ys) = links c xs ++ links (endc c xs) ys.
Proof. revert c. induction xs; intros c; simpl; f_equal; auto. Qed.
Lemma dlinks_app c xs ys : dlinks c (xs ++ ys) = dlinks c xs ++ dlinks (endc c xs) ys.
Proof. revert c. induction xs; intros c; simpl; do 2 f_equal; auto. Qed.
End Shapes.
Arguments endc : clear implicits.
Arguments links : clear implicits.
Arguments dlinks : clear implicits.
Arguments slist : clear implicits.
Arguments dlist : clear implicits.
Arguments simpleq : clear implicits.
Arguments tailq : clear implicits.
Arguments snode : clear implicits.
Arguments node : clear implicits.

Create Rewrite HintDb shapes.
#[export] Hint Rewrite @endc_app @links_app @dlinks_app : shapes.

(** Unfold the shapes into their cells, in hypothesis [H] or in the goal. *)
Ltac shape_in H :=
  unfold slist, dlist, simpleq, tailq, snode, node in H;
  autorewrite with shapes in H; cbn [links dlinks endc fst snd app] in H;
  rewrite <- ?app_assoc in H; cbn [app] in H.
Ltac shape_goal :=
  unfold slist, dlist, simpleq, tailq, snode, node;
  autorewrite with shapes; cbn [links dlinks endc fst snd app];
  rewrite <- ?app_assoc; cbn [app].
(** Run loads and stores against the description in context. *)
Ltac q_step :=
  first
    [ wp_step
    | match goal with
      | H : holds ?m _ |- wp (load _) _ ?m => eapply (wp_load _ _ _ _ _ _ H); [apply _|]
      | H : holds ?m _ |- wp (store _ _) _ ?m =>
          let H' := fresh "Ho" in
          eapply (wp_store _ _ _ _ _ _ _ H); [apply _|]; clear H; intros ? H'; cbn [app] in H'
      end
    | match goal with
      | |- context [?a =? ?a] => rewrite (Z.eqb_refl a)
      | H : ?a <> 0 |- context [?a =? 0] => rewrite (proj2 (Z.eqb_neq a 0) H)
      end; cbn [negb] ].
Ltac q_run := repeat (cbn [negb]; q_step).
(** Match the final description with the one wanted. *)
Ltac q_done := 
  match goal with
  | H : holds ?m _ |- holds ?m _ => eapply holds_perm; [exact H|]; shape_goal; solve_Permutation
  end.

Section Lemmas.
Context {QUEUEDEBUG : bool} {field : Z}.
Abbreviation nx := (next_of field).
Abbreviation pv := (prev_of field).
Implicit Types (m : qmem) (R : cells) (h e y : Z) (xs pre post : list Z).

(** The element after a position, as [links] stores it: the first of [post]. *)
Definition hd0 (xs : list Z) : Z := match xs with [] => 0 | x :: _ => x end.

(** *** The checks pass *)
Lemma wp_debug_abort (c : M qmem bool) why Q m :
  wp c (fun b m' => b = false /\ m' = m) m -> Q tt m -> wp (debug_abort_if QUEUEDEBUG c why) Q m.
Proof.
  intros Hc HQ. unfold debug_abort_if. destruct QUEUEDEBUG; [|done].
  apply wp_bind. eapply wp_mono; [exact Hc|]. by intros ? ? [-> ->].
Qed.

Lemma wp_postremove m l e a b l1 R Q :
  holds m l -> Take l (nx e) a l1 -> Take l1 (pv e) b R ->
  (forall m' ab, holds m' (node field e ab ++ R) -> Q tt m') ->
  wp (QUEUEDEBUG_POSTREMOVE QUEUEDEBUG field e) Q m.
Proof.
  unfold Take. intros Ho E1 E2 HQ. rewrite E1, E2 in Ho.
  unfold QUEUEDEBUG_POSTREMOVE. destruct QUEUEDEBUG; [|by apply (HQ m (a, b))].
  q_run. apply (HQ _ (1, 1)). q_done.
Qed.
End Lemmas.
Ltac q_check := apply wp_debug_abort; [unfold and_nonnull; q_run; done|].

(** The element's old linkage is handed back with some contents. *)
Ltac q_postremove :=
  match goal with
  | H : holds ?m _ |- wp (QUEUEDEBUG_POSTREMOVE _ _ _) _ ?m =>
      eapply wp_postremove; [exact H|apply _..|]; clear H;
      let m' := fresh "m" in let ab := fresh "ab" in let H' := fresh "Ho" in
      intros m' ab H'; exists ab; shape_in H'; q_done
  end.

Section Traversal.
Context {field : Z} {A : Type}.
Variable visit : A -> Z -> M qmem (A * Z).
Variable I : A -> list Z -> qmem -> Prop.
Hypothesis Hvisit : forall a x rest m, I a (x :: rest) m -> x <> 0 /\
  wp (visit a x) (fun r m' => r.2 = hd0 rest /\ I r.1 rest m') m.

(** The rule for traversals: [I a rest m] holds when the elements of [rest] are
    still to be visited. *)
Lemma wp_for_each xs a m : I a xs m -> Z.of_nat (length xs) < 2 ^ 64 ->
  wp (for_each visit a (hd0 xs)) (fun a' m' => I a' [] m') m.
Proof using Hvisit.
  intros HI Hl. unfold for_each.
  apply (wp_loop_variant _ (fun l m k => exists rest, l.2 = hd0 rest /\ I l.1 rest m /\
    k = Z.of_nat (length rest))) with (k := Z.of_nat (length xs)); [|by exists xs|done].
  clear xs a m HI Hl. intros [a var] m k (rest & Hv & HI & ->). cbn in Hv, HI. subst var.
  split; [lia|]. destruct rest as [|x rest]; [by apply wp_ret|].
  destruct (Hvisit a x rest m HI) as [Hx Hb]. cbn [hd0].
  rewrite (proj2 (Z.eqb_neq x 0) Hx). apply wp_bind. eapply wp_mono; [exact Hb|].
  intros [a' n] m' [Hn HI']. apply wp_ret. exists (Z.of_nat (length rest)).
  split; [by exists rest|]. cbn [length]. lia.
Qed.
End Traversal.

(** ** Chains: what a traversal relies on, whatever the kind of queue *)
Section Chains.
Context {field : Z}.
Implicit Types (m : qmem) (R : cells).

Definition chained (m : qmem) (h : Z) (xs : list Z) : Prop :=
  m !! h = Some (hd0 xs) /\
  forall pre x post, xs = pre ++ x :: post -> m !! next_of field x = Some (hd0 post).

Lemma holds_chained m h xs R :
  holds m (links field h xs ++ (endc field h xs, 0) :: R) -> chained m h xs.
Proof.
  intros [_ Ho]. revert h Ho. induction xs as [|x xs IH]; intros h Ho; cbn in Ho.
  - apply Forall_cons in Ho as [Ho _]. split; [done|]. by intros [].
  - apply Forall_cons in Ho as [Hh Ho]. destruct (IH _ Ho) as [Hx Hc]. split; [done|].
    intros [|y pre] z post [= -> E]; [by subst|]. exact (Hc _ _ _ E).
Qed.

Fixpoint backs (c : Z) (xs : list Z) : cells :=
  match xs with [] => [] | x :: xs => (prev_of field x, c) :: backs (next_of field x) xs end.

Lemma dlinks_links c xs : dlinks field c xs ≡ₚ links field c xs ++ backs c xs.
Proof.
  revert c. induction xs as [|x xs IH]; intros c; [done|]. cbn. rewrite IH.
  by rewrite Permutation_middle.
Qed.

Lemma dlist_chained m h xs R : holds m (dlist field h xs ++ R) -> chained m h xs.
Proof.
  intros Ho. apply (holds_chained _ _ _ (backs h xs ++ R)). eapply holds_perm; [exact Ho|].
  unfold dlist. rewrite dlinks_links. solve_Permutation.
Qed.

Context {A : Type}.
Variables (f : A -> Z -> M qmem A) (g : A -> Z -> A).

(** A body that leaves memory alone sees the elements in order. *)
Lemma wp_foreach_chain m h xs a :
  chained m h xs -> Forall (fun x => x <> 0) xs -> Z.of_nat (length xs) < 2 ^ 64 ->
  (forall a x, x ∈ xs -> wp (f a x) (fun a' m' => a' = g a x /\ m' = m) m) ->
  wp (TAILQ_FOREACH field f a h) (fun a' m' => a' = foldl g a xs /\ m' = m) m.
Proof.
  intros [Hh Hc] Hnz Hl Hf. unfold TAILQ_FOREACH, load. wp_steps. eapply wp_opt; [exact Hh|].
  eapply wp_mono; [apply (wp_for_each _ (fun b rest m' => m' = m /\
    exists pre, xs = pre ++ rest /\ b = foldl g a pre)); [|by split; [|exists []]|done]|].
  - intros b x rest m1 (-> & pre & Hx & ->). split.
    { rewrite Hx, Forall_app, Forall_cons in Hnz. tauto. }
    apply wp_bind. eapply wp_mono; [apply Hf; rewrite Hx; set_solver|]. intros ? ? [-> ->].
    wp_steps. eapply wp_opt; [by eapply Hc|]. wp_steps. split_and!; [done..|].
    exists (pre ++ [x]). rewrite <- app_assoc, foldl_app. done.
  - cbn. intros b m1 (-> & pre & -> & ->). by rewrite app_nil_r.
Qed.
End Chains.

Section TailqLemmas.
Context {QUEUEDEBUG : bool} {field : Z}.
Implicit Types (m : qmem) (R : cells) (h e y : Z) (xs pre post : list Z).

Lemma wp_tailq_init m h a b R :
  holds m ((h, a) :: (last_of h, b) :: R) ->
  wp (TAILQ_INIT h) (fun _ m' => holds m' (tailq field h [] ++ R)) m.
Proof. intros Ho. unfold TAILQ_INIT. q_run. q_done. Qed.

Lemma wp_tailq_insert_head m h xs e ab R :
  holds m (tailq field h xs ++ node field e ab ++ R) -> Forall (fun x => x <> 0) xs ->
  wp (TAILQ_INSERT_HEAD QUEUEDEBUG field h e)
     (fun _ m' => holds m' (tailq field h (e :: xs) ++ R)) m.
Proof.
  intros Ho Hnz. unfold TAILQ_INSERT_HEAD, QUEUEDEBUG_INSERT_HEAD. apply wp_bind.
  destruct Hnz as [|x xs Hx Hnz]; shape_in Ho; q_check; q_run; q_done.
Qed.

Lemma wp_tailq_insert_tail m h xs e ab R :
  holds m (tailq field h xs ++ node field e ab ++ R) ->
  wp (TAILQ_INSERT_TAIL QUEUEDEBUG field h e)
     (fun _ m' => holds m' (tailq field h (xs ++ [e]) ++ R)) m.
Proof.
  intros Ho. unfold TAILQ_INSERT_TAIL, QUEUEDEBUG_TAILQ_INSERT_TAIL. apply wp_bind.
  shape_in Ho. q_check. q_run. q_done.
Qed.

(** The checks on an element of a doubly linked chain [pre ++ y :: post]. *)
Lemma wp_queuedebug_op m h pre y post R Q :
  holds m (dlist field h (pre ++ y :: post) ++ R) -> Forall (fun x => x <> 0) post ->
  Q tt m -> wp (QUEUEDEBUG_OP QUEUEDEBUG field y) Q m.
Proof.
  intros Ho Hnz HQ. unfold QUEUEDEBUG_OP. apply wp_bind.
  destruct Hnz as [|x post Hx Hnz]; shape_in Ho; q_check; by q_check.
Qed.

Lemma tailq_dlist h xs : tailq field h xs = dlist field h xs ++ [(last_of h, endc field h xs)].
Proof. unfold tailq, dlist. by rewrite <- app_assoc. Qed.

Lemma wp_queuedebug_tailq_op m h pre y post R Q :
  holds m (tailq field h (pre ++ y :: post) ++ R) -> Forall (fun x => x <> 0) post ->
  Q tt m -> wp (QUEUEDEBUG_OP QUEUEDEBUG field y) Q m.
Proof.
  rewrite tailq_dlist, <- app_assoc. intros Ho. exact (wp_queuedebug_op m h pre y post _ Q Ho).
Qed.

Lemma wp_tailq_insert_after m h pre y post e ab R :
  holds m (tailq field h (pre ++ y :: post) ++ node field e ab ++ R) ->
  Forall (fun x => x <> 0) post ->
  wp (TAILQ_INSERT_AFTER QUEUEDEBUG field h y e)
     (fun _ m' => holds m' (tailq field h (pre ++ y :: e :: post) ++ R)) m.
Proof.
  intros Ho Hnz. unfold TAILQ_INSERT_AFTER. apply wp_bind.
  eapply wp_queuedebug_tailq_op; [done..|].
  destruct Hnz as [|x post Hx Hnz]; shape_in Ho; q_run; q_done.
Qed.

Lemma wp_tailq_insert_before m h pre y post e ab R :
  holds m (tailq field h (pre ++ y :: post) ++ node field e ab ++ R) ->
  Forall (fun x => x <> 0) post ->
  wp (TAILQ_INSERT_BEFORE QUEUEDEBUG field y e)
     (fun _ m' => holds m' (tailq field h (pre ++ e :: y :: post) ++ R)) m.
Proof.
  intros Ho Hnz. unfold TAILQ_INSERT_BEFORE. apply wp_bind.
  eapply wp_queuedebug_tailq_op; [done..|]. shape_in Ho. q_run. q_done.
Qed.

Lemma wp_tailq_remove m h pre e post R :
  holds m (tailq field h (pre ++ e :: post) ++ R) ->
  Forall (fun x => x <> 0) post ->
  wp (TAILQ_REMOVE QUEUEDEBUG field h e)
     (fun _ m' => exists ab, holds m' (tailq field h (pre ++ post) ++ node field e ab ++ R)) m.
Proof.
  intros Ho Hnz. unfold TAILQ_REMOVE, QUEUEDEBUG_TAILQ_PREREMOVE. apply wp_bind.
  apply wp_debug_abort.
  { destruct Hnz as [|x post Hx Hnz]; shape_in Ho; q_run; done. }
  apply wp_bind. eapply wp_queuedebug_tailq_op; [done..|].
  destruct Hnz as [|x post Hx Hnz]; shape_in Ho; q_run; q_postremove.
Qed.

Lemma wp_tailq_replace m h pre e post e2 ab2 R :
  holds m (tailq field h (pre ++ e :: post) ++ node field e2 ab2 ++ R) ->
  Forall (fun x => x <> 0) post ->
  wp (TAILQ_REPLACE QUEUEDEBUG field h e e2)
     (fun _ m' => exists ab, holds m' (tailq field h (pre ++ e2 :: post) ++ node field e ab ++ R)) m.
Proof.
  intros Ho Hnz. unfold TAILQ_REPLACE.
  destruct Hnz as [|x post Hx Hnz]; shape_in Ho; q_run; q_postremove.
Qed.

Lemma wp_tailq_concat m h1 xs h2 ys R :
  holds m (tailq field h1 xs ++ tailq field h2 ys ++ R) ->
  Forall (fun x => x <> 0) ys ->
  wp (TAILQ_CONCAT field h1 h2)
     (fun _ m' => holds m' (tailq field h1 (xs ++ ys) ++ tailq field h2 [] ++ R)) m.
Proof.
  intros Ho Hnz. unfold TAILQ_CONCAT, TAILQ_EMPTY, TAILQ_FIRST, TAILQ_INIT.
  destruct Hnz as [|x post Hx Hnz]; shape_in Ho; q_run; q_done.
Qed.

(** *** Access *)
Lemma wp_tailq_first m h xs R :
  holds m (tailq field h xs ++ R) ->
  wp (TAILQ_FIRST h) (fun r m' => r = hd0 xs /\ m' = m) m.
Proof. intros Ho. unfold TAILQ_FIRST. destruct xs as [|x xs]; shape_in Ho; q_run; done. Qed.

Lemma wp_tailq_empty m h xs R :
  holds m (tailq field h xs ++ R) -> Forall (fun x => x <> 0) xs ->
  wp (TAILQ_EMPTY h) (fun r m' => r = bool_decide (xs = []) /\ m' = m) m.
Proof.
  intros Ho Hnz. unfold TAILQ_EMPTY. apply wp_bind. eapply wp_mono; [by eapply wp_tailq_first|].
  intros ? ? [-> ->]. apply wp_ret. split; [|done].
  destruct Hnz as [|x xs Hx Hnz]; [done|]. cbn [hd0]. by apply Z.eqb_neq.
Qed.

Lemma wp_tailq_next m h pre y post R :
  holds m (tailq field h (pre ++ y :: post) ++ R) ->
  wp (TAILQ_NEXT field y) (fun r m' => r = hd0 post /\ m' = m) m.
Proof. intros Ho. unfold TAILQ_NEXT. destruct post as [|x post]; shape_in Ho; q_run; done. Qed.

(** The last element, read through the linkage of the last one as a head. *)
Definition last0 (xs : list Z) : Z := default 0 (last xs).

Lemma wp_tailq_last m h xs R :
  holds m (tailq field h xs ++ R) ->
  wp (TAILQ_LAST h) (fun r m' => r = last0 xs /\ m' = m) m.
Proof.
  intros Ho. unfold TAILQ_LAST, last0. destruct xs as [|x xs _] using rev_ind.
  - shape_in Ho. q_run. done.
  - rewrite last_snoc. shape_in Ho. q_run.
    change (last_of (next_of field x)) with (prev_of field x). q_run. done.
Qed.

Lemma wp_tailq_prev m h pre y post R :
  holds m (tailq field h (pre ++ y :: post) ++ R) ->
  wp (TAILQ_PREV field y) (fun r m' => r = last0 pre /\ m' = m) m.
Proof.
  intros Ho. unfold TAILQ_PREV, last0. destruct pre as [|x pre _] using rev_ind.
  - shape_in Ho. q_run. done.
  - rewrite last_snoc. shape_in Ho. q_run.
    change (last_of (next_of field x)) with (prev_of field x). q_run. done.
Qed.

(** *** Traversals

    A body that may not touch the queue it runs over sees its elements in order
    (in reverse order); the safe form lets the body remove the element it is
    at. *)
Section Foreach.
Context {A : Type}.
Variables (f : A -> Z -> M qmem A) (g : A -> Z -> A).

Lemma wp_tailq_foreach m h xs R a :
  holds m (tailq field h xs ++ R) -> Forall (fun x => x <> 0) xs ->
  Z.of_nat (length xs) < 2 ^ 64 ->
  (forall a x, x ∈ xs -> wp (f a x) (fun a' m' => a' = g a x /\ m' = m) m) ->
  wp (TAILQ_FOREACH field f a h) (fun a' m' => a' = foldl g a xs /\ m' = m) m.
Proof.
  rewrite tailq_dlist, <- app_assoc. intros Ho%dlist_chained. by apply wp_foreach_chain.
Qed.

Lemma wp_tailq_foreach_reverse m h xs R a :
  holds m (tailq field h xs ++ R) -> Forall (fun x => x <> 0) xs ->
  Z.of_nat (length xs) < 2 ^ 64 ->
  (forall a x, x ∈ xs -> wp (f a x) (fun a' m' => a' = g a x /\ m' = m) m) ->
  wp (TAILQ_FOREACH_REVERSE field f a h) (fun a' m' => a' = foldl g a (reverse xs) /\ m' = m) m.
Proof.
  intros Ho Hnz Hl Hf. unfold TAILQ_FOREACH_REVERSE. apply wp_bind.
  eapply wp_mono; [by eapply wp_tailq_last|]. intros ? ? [-> ->].
  replace (last0 xs) with (hd0 (reverse xs)).
  2: { destruct xs as [|x xs _] using rev_ind; [done|].
       unfold last0. by rewrite reverse_snoc, last_snoc. }
  eapply wp_mono; [apply (wp_for_each _ (fun b rest m' => m' = m /\
    exists post, xs = reverse rest ++ post /\ b = foldl g a (reverse post)));
    [|by split; [|exists []; rewrite reverse_involutive, app_nil_r]|by rewrite length_reverse]|].
  - intros b x rest m1 (-> & post & Hx & ->). rewrite reverse_cons, <- app_assoc in Hx. split.
    { rewrite Hx, !Forall_app, Forall_cons in Hnz. tauto. }
    apply wp_bind. eapply wp_mono; [apply Hf; rewrite Hx; set_solver|]. intros ? ? [-> ->].
    rewrite Hx in Ho. apply wp_bind. eapply wp_mono; [by eapply wp_tailq_prev|].
    intros ? ? [-> ->]. apply wp_ret. split_and!.
    + destruct rest; [done|]. unfold last0. by rewrite reverse_cons, last_snoc.
    + done.
    + exists (x :: post). rewrite reverse_cons, foldl_app. done.
  - cbn. intros b m1 (-> & post & -> & ->). done.
Qed.
End Foreach.

(** Removing while traversing: what the safe form is for. *)
Definition remove_if (p : Z -> bool) (h : Z) (removed : list Z) (x : Z) : M qmem (list Z) :=
  if p x then TAILQ_REMOVE QUEUEDEBUG field h x ;;; cret (removed ++ [x]) else cret removed.

Definition nodes (es : list (Z * (Z * Z))) : cells := flat_map (fun p => node field p.1 p.2) es.

Lemma wp_tailq_foreach_safe_remove (p : Z -> bool) m h xs R :
  holds m (tailq field h xs ++ R) -> Forall (fun x => x <> 0) xs ->
  Z.of_nat (length xs) < 2 ^ 64 ->
  wp (TAILQ_FOREACH_SAFE field (remove_if p h) [] h)
     (fun removed m' => removed = filter p xs /\ exists es, es.*1 = removed /\
        holds m' (tailq field h (filter (fun x => negb (p x)) xs) ++ nodes es ++ R)) m.
Proof.
  intros Ho Hnz Hl. unfold TAILQ_FOREACH_SAFE. apply wp_bind.
  eapply wp_mono; [by eapply wp_tailq_first|]. intros ? ? [-> ->].
  eapply wp_mono; [apply (wp_for_each _ (fun rm rest m' => exists pre es,
    xs = pre ++ rest /\ rm = filter p pre /\ es.*1 = rm /\
    holds m' (tailq field h (filter (fun x => negb (p x)) pre ++ rest) ++ nodes es ++ R)));
    [|by exists [], []|done]|].
  - intros rm x rest m1 (pre & es & Hx & -> & He & H1).
    rewrite Hx, Forall_app, Forall_cons in Hnz. destruct Hnz as (Hp & Hx0 & Hr). split; [done|].
    apply wp_bind. eapply wp_mono; [by eapply wp_tailq_next|]. intros ? ? [-> ->].
    apply wp_bind. unfold remove_if. destruct (p x) eqn:Hpx.
    + apply wp_bind. eapply wp_mono; [by eapply wp_tailq_remove|].
      intros [] m2 [ab H2]. wp_steps. split; [done|].
      exists (pre ++ [x]), (es ++ [(x, ab)]). split_and!.
      * by rewrite <- app_assoc.
      * rewrite filter_app. cbn. rewrite decide_True by (by rewrite Hpx). done.
      * rewrite fmap_app, He. done.
      * rewrite filter_app. cbn. rewrite decide_False by (rewrite Hpx; cbn; tauto).
        rewrite app_nil_r. eapply holds_perm; [exact H2|].
        unfold nodes. rewrite flat_map_app. cbn. solve_Permutation.
    + wp_steps. split; [done|]. exists (pre ++ [x]), es. split_and!.
      * by rewrite <- app_assoc.
      * rewrite filter_app. cbn. rewrite decide_False by (rewrite Hpx; tauto). by rewrite app_nil_r.
      * done.
      * rewrite filter_app. cbn. rewrite decide_True by (by rewrite Hpx). by rewrite <- app_assoc.
  - cbn. intros rm m1 (pre & es & -> & -> & He & H1). rewrite app_nil_r in *. split; [done|].
    by exists es.
Qed.
End TailqLemmas.

(** ** Lists *)
Section ListLemmas.
Context {QUEUEDEBUG : bool} {field : Z}.
Implicit Types (m : qmem) (R : cells) (h e y : Z) (xs pre post : list Z).

Lemma wp_list_init m h a R :
  holds m ((h, a) :: R) -> wp (LIST_INIT h) (fun _ m' => holds m' (dlist field h [] ++ R)) m.
Proof. intros Ho. unfold LIST_INIT. q_run. q_done. Qed.

Lemma wp_list_first m h xs R :
  holds m (dlist field h xs ++ R) -> wp (LIST_FIRST h) (fun r m' => r = hd0 xs /\ m' = m) m.
Proof. intros Ho. unfold LIST_FIRST. destruct xs as [|x xs]; shape_in Ho; q_run; done. Qed.

Lemma wp_list_empty m h xs R :
  holds m (dlist field h xs ++ R) -> Forall (fun x => x <> 0) xs ->
  wp (LIST_EMPTY h) (fun r m' => r = bool_decide (xs = []) /\ m' = m) m.
Proof.
  intros Ho Hnz. unfold LIST_EMPTY. destruct Hnz as [|x xs Hx Hnz]; shape_in Ho; q_run; done.
Qed.

Lemma wp_list_next m h pre y post R :
  holds m (dlist field h (pre ++ y :: post) ++ R) ->
  wp (LIST_NEXT field y) (fun r m' => r = hd0 post /\ m' = m) m.
Proof. intros Ho. unfold LIST_NEXT. destruct post as [|x post]; shape_in Ho; q_run; done. Qed.

Lemma wp_list_insert_head m h xs e ab R :
  holds m (dlist field h xs ++ node field e ab ++ R) -> Forall (fun x => x <> 0) xs ->
  wp (LIST_INSERT_HEAD QUEUEDEBUG field h e)
     (fun _ m' => holds m' (dlist field h (e :: xs) ++ R)) m.
Proof.
  intros Ho Hnz. unfold LIST_INSERT_HEAD, QUEUEDEBUG_INSERT_HEAD. apply wp_bind.
  destruct Hnz as [|x xs Hx Hnz]; shape_in Ho; q_check; q_run; q_done.
Qed.

Lemma wp_list_insert_after m h pre y post e ab R :
  holds m (dlist field h (pre ++ y :: post) ++ node field e ab ++ R) ->
  Forall (fun x => x <> 0) post ->
  wp (LIST_INSERT_AFTER QUEUEDEBUG field y e)
     (fun _ m' => holds m' (dlist field h (pre ++ y :: e :: post) ++ R)) m.
Proof.
  intros Ho Hnz. unfold LIST_INSERT_AFTER. apply wp_bind.
  eapply wp_queuedebug_op; [done..|].
  destruct Hnz as [|x post Hx Hnz]; shape_in Ho; q_run; q_done.
Qed.

Lemma wp_list_insert_before m h pre y post e ab R :
  holds m (dlist field h (pre ++ y :: post) ++ node field e ab ++ R) ->
  Forall (fun x => x <> 0) post ->
  wp (LIST_INSERT_BEFORE QUEUEDEBUG field y e)
     (fun _ m' => holds m' (dlist field h (pre ++ e :: y :: post) ++ R)) m.
Proof.
  intros Ho Hnz. unfold LIST_INSERT_BEFORE. apply wp_bind.
  eapply wp_queuedebug_op; [done..|]. shape_in Ho. q_run. q_done.
Qed.

Lemma wp_list_remove m h pre e post R :
  holds m (dlist field h (pre ++ e :: post) ++ R) ->
  Forall (fun x => x <> 0) post ->
  wp (LIST_REMOVE QUEUEDEBUG field e)
     (fun _ m' => exists ab, holds m' (dlist field h (pre ++ post) ++ node field e ab ++ R)) m.
Proof.
  intros Ho Hnz. unfold LIST_REMOVE. apply wp_bind. eapply wp_queuedebug_op; [done..|].
  destruct Hnz as [|x post Hx Hnz]; shape_in Ho; q_run; q_postremove.
Qed.

Lemma wp_list_replace m h pre e post e2 ab2 R :
  holds m (dlist field h (pre ++ e :: post) ++ node field e2 ab2 ++ R) ->
  Forall (fun x => x <> 0) post ->
  wp (LIST_REPLACE QUEUEDEBUG field e e2)
     (fun _ m' => exists ab, holds m' (dlist field h (pre ++ e2 :: post) ++ node field e ab ++ R)) m.
Proof.
  intros Ho Hnz. unfold LIST_REPLACE.
  destruct Hnz as [|x post Hx Hnz]; shape_in Ho; q_run; q_postremove.
Qed.
End ListLemmas.
