(* ===== verification/QueueSingly.v ===== *)
(** * Singly linked lists and queues: lemmas

    SLIST, SIMPLEQ and STAILQ of include/bmk-core/queue.h in terms of the
    descriptions of [QueueThms].  A STAILQ is a SIMPLEQ under other names: the
    macros have the same bodies. *)
From S2P Require Import Prelude Queue QueueThms.

Section SinglyLinked.
Context {field : Z}.
Implicit Types (m : qmem) (R : cells) (h e y : Z) (xs pre post : list Z).

Lemma chained_split m h pre x post : chained (field := field) m h (pre ++ x :: post) ->
  chained (field := field) m (next_of field x) post.
Proof.
  intros [_ Hc]. split; [by apply (Hc pre x post)|].
  intros pre' y post' ->. apply (Hc (pre ++ x :: pre') y post'). by rewrite <- app_assoc.
Qed.

(** The search for the element before [e]. *)
Lemma wp_find_before m h pre y e post :
  chained (field := field) m h (pre ++ y :: e :: post) -> e ∉ pre ++ [y] ->
  Z.of_nat (length pre) < 2 ^ 64 - 1 ->
  wp (find_before field e (hd0 (pre ++ y :: e :: post))) (fun r m' => r = y /\ m' = m) m.
Proof.
  intros [_ Hc] He Hl. unfold find_before.
  apply (wp_loop_variant _ (fun l m' k => m' = m /\ exists pre1 pre2,
    pre ++ [y] = pre1 ++ pre2 /\ pre2 <> [] /\ l = hd0 pre2 /\ k = Z.of_nat (length pre2)))
    with (k := Z.of_nat (length (pre ++ [y]))).
  - intros l m' k (-> & pre1 & pre2 & Hp & Hn & -> & ->). split; [lia|].
    destruct pre2 as [|z pre2]; [done|]. cbn [hd0]. unfold load. wp_steps.
    eapply wp_opt.
    { apply (Hc pre1 z (pre2 ++ e :: post)).
      rewrite app_comm_cons, app_assoc, <- Hp, <- app_assoc. done. }
    destruct pre2 as [|w pre2]; cbn [hd0 app].
    + rewrite Z.eqb_refl. apply wp_ret. apply app_inj_tail in Hp as [_ ->]. done.
    + assert (w <> e) as Hw%Z.eqb_neq by (rewrite Hp in He; set_solver). rewrite Hw.
      apply wp_ret. exists (Z.of_nat (length (w :: pre2))). cbn [length]. split; [|lia].
      split; [done|]. exists (pre1 ++ [z]), (w :: pre2). by rewrite <- app_assoc.
  - split; [done|]. exists [], (pre ++ [y]). split_and!; [done|by destruct pre| |done].
    by destruct pre.
  - rewrite length_app. cbn. lia.
Qed.

Lemma slist_chained m h xs R : holds m (slist field h xs ++ R) -> chained (field := field) m h xs.
Proof. unfold slist. rewrite <- app_assoc. apply holds_chained. Qed.
Lemma simpleq_chained m h xs R : holds m (simpleq field h xs ++ R) -> chained (field := field) m h xs.
Proof. unfold simpleq. rewrite <- app_assoc. apply holds_chained. Qed.

(** The elements of a queue are distinct: their next cells are. *)
Lemma links_NoDup c xs : NoDup ((links field c xs).*1 ++ [endc field c xs]) -> NoDup xs.
Proof.
  assert (E : forall c xs, ((links field c xs).*1 ++ [endc field c xs]) = c :: map (next_of field) xs).
  { clear. intros c xs. revert c. induction xs as [|x xs IH]; intros c; [done|]. cbn. by rewrite IH. }
  rewrite E. intros [_ H]%NoDup_cons. by eapply NoDup_fmap_1.
Qed.

Lemma slist_NoDup m h xs R : holds m (slist field h xs ++ R) -> NoDup xs.
Proof.
  intros [Hd _]. rewrite fmap_app in Hd. apply NoDup_app in Hd as [Hd _].
  unfold slist in Hd. rewrite fmap_app in Hd. by apply links_NoDup in Hd.
Qed.
Lemma simpleq_slist h xs : simpleq field h xs = slist field h xs ++ [(last_of h, endc field h xs)].
Proof. unfold simpleq, slist. by rewrite <- app_assoc. Qed.
Lemma simpleq_NoDup m h xs R : holds m (simpleq field h xs ++ R) -> NoDup xs.
Proof. rewrite simpleq_slist, <- app_assoc. apply slist_NoDup. Qed.

Lemma before_notin pre e post : NoDup (pre ++ e :: post) -> e ∉ pre.
Proof. intros (_ & H & _)%NoDup_app He. exact (H e He ltac:(set_solver)). Qed.

(** *** SLIST *)
Lemma wp_slist_init m h a R :
  holds m ((h, a) :: R) -> wp (SLIST_INIT h) (fun _ m' => holds m' (slist field h [] ++ R)) m.
Proof. intros Ho. unfold SLIST_INIT. q_run. q_done. Qed.

Lemma wp_slist_insert_head m h xs e a R :
  holds m (slist field h xs ++ snode field e a ++ R) ->
  wp (SLIST_INSERT_HEAD field h e) (fun _ m' => holds m' (slist field h (e :: xs) ++ R)) m.
Proof. intros Ho. unfold SLIST_INSERT_HEAD. destruct xs as [|x xs]; shape_in Ho; q_run; q_done. Qed.

Lemma wp_slist_insert_after m h pre y post e a R :
  holds m (slist field h (pre ++ y :: post) ++ snode field e a ++ R) ->
  wp (SLIST_INSERT_AFTER field y e)
     (fun _ m' => holds m' (slist field h (pre ++ y :: e :: post) ++ R)) m.
Proof. intros Ho. unfold SLIST_INSERT_AFTER. destruct post as [|x post]; shape_in Ho; q_run; q_done. Qed.

Lemma wp_slist_remove_head m h x xs R :
  holds m (slist field h (x :: xs) ++ R) ->
  wp (SLIST_REMOVE_HEAD field h)
     (fun _ m' => exists a, holds m' (slist field h xs ++ snode field x a ++ R)) m.
Proof.
  intros Ho. unfold SLIST_REMOVE_HEAD.
  destruct xs as [|y xs]; shape_in Ho; q_run; [exists 0|exists y]; q_done.
Qed.

Lemma wp_slist_remove_after m h pre y x post R :
  holds m (slist field h (pre ++ y :: x :: post) ++ R) ->
  wp (SLIST_REMOVE_AFTER field y)
     (fun _ m' => exists a, holds m' (slist field h (pre ++ y :: post) ++ snode field x a ++ R)) m.
Proof.
  intros Ho. unfold SLIST_REMOVE_AFTER, SLIST_NEXT.
  destruct post as [|z post]; shape_in Ho; q_run; [exists 0|exists z]; q_done.
Qed.

(** *** SIMPLEQ *)
Lemma wp_simpleq_init m h a b R :
  holds m ((h, a) :: (last_of h, b) :: R) ->
  wp (SIMPLEQ_INIT h) (fun _ m' => holds m' (simpleq field h [] ++ R)) m.
Proof. intros Ho. unfold SIMPLEQ_INIT. q_run. q_done. Qed.

Lemma wp_simpleq_insert_head m h xs e a R :
  holds m (simpleq field h xs ++ snode field e a ++ R) -> Forall (fun x => x <> 0) xs ->
  wp (SIMPLEQ_INSERT_HEAD field h e) (fun _ m' => holds m' (simpleq field h (e :: xs) ++ R)) m.
Proof.
  intros Ho Hnz. unfold SIMPLEQ_INSERT_HEAD.
  destruct Hnz as [|x xs Hx Hnz]; shape_in Ho; q_run; q_done.
Qed.

Lemma wp_simpleq_insert_tail m h xs e a R :
  holds m (simpleq field h xs ++ snode field e a ++ R) ->
  wp (SIMPLEQ_INSERT_TAIL field h e)
     (fun _ m' => holds m' (simpleq field h (xs ++ [e]) ++ R)) m.
Proof. intros Ho. unfold SIMPLEQ_INSERT_TAIL. shape_in Ho. q_run. q_done. Qed.

Lemma wp_simpleq_insert_after m h pre y post e a R :
  holds m (simpleq field h (pre ++ y :: post) ++ snode field e a ++ R) ->
  Forall (fun x => x <> 0) post ->
  wp (SIMPLEQ_INSERT_AFTER field h y e)
     (fun _ m' => holds m' (simpleq field h (pre ++ y :: e :: post) ++ R)) m.
Proof.
  intros Ho Hnz. unfold SIMPLEQ_INSERT_AFTER.
  destruct Hnz as [|x post Hx Hnz]; shape_in Ho; q_run; q_done.
Qed.

Lemma wp_simpleq_remove_head m h x xs R :
  holds m (simpleq field h (x :: xs) ++ R) -> Forall (fun x => x <> 0) xs ->
  wp (SIMPLEQ_REMOVE_HEAD field h)
     (fun _ m' => exists a, holds m' (simpleq field h xs ++ snode field x a ++ R)) m.
Proof.
  intros Ho Hnz. unfold SIMPLEQ_REMOVE_HEAD.
  destruct Hnz as [|y xs Hy Hnz]; shape_in Ho; q_run; [exists 0|exists y]; q_done.
Qed.

Lemma wp_simpleq_remove_after m h pre y x post R :
  holds m (simpleq field h (pre ++ y :: x :: post) ++ R) -> Forall (fun x => x <> 0) post ->
  wp (SIMPLEQ_REMOVE_AFTER field h y)
     (fun _ m' => exists a, holds m' (simpleq field h (pre ++ y :: post) ++ snode field x a ++ R)) m.
Proof.
  intros Ho Hnz. unfold SIMPLEQ_REMOVE_AFTER.
  destruct Hnz as [|z post Hz Hnz]; shape_in Ho; q_run; [exists 0|exists z]; q_done.
Qed.

Lemma wp_simpleq_concat m h1 xs h2 ys R :
  holds m (simpleq field h1 xs ++ simpleq field h2 ys ++ R) -> Forall (fun x => x <> 0) ys ->
  wp (SIMPLEQ_CONCAT h1 h2)
     (fun _ m' => holds m' (simpleq field h1 (xs ++ ys) ++ simpleq field h2 [] ++ R)) m.
Proof.
  intros Ho Hnz. unfold SIMPLEQ_CONCAT, SIMPLEQ_EMPTY, SIMPLEQ_INIT.
  destruct Hnz as [|x ys Hx Hnz]; shape_in Ho; q_run; q_done.
Qed.

Lemma wp_simpleq_last m h xs R :
  holds m (simpleq field h xs ++ R) -> Forall (fun x => x <> 0) xs ->
  wp (SIMPLEQ_LAST field h) (fun r m' => r = last0 xs /\ m' = m) m.
Proof.
  intros Ho Hnz. unfold SIMPLEQ_LAST, SIMPLEQ_EMPTY.
  destruct xs as [|x xs _] using rev_ind; [shape_in Ho; q_run; done|].
  unfold last0. rewrite last_snoc. apply Forall_app in Hnz as [Hnz Hx]. apply Forall_cons in Hx as [Hx _].
  destruct Hnz as [|y xs Hy Hnz]; shape_in Ho; q_run; (split; [cbn; unfold next_of; lia|done]).
Qed.

(** *** Removal by search, of both kinds *)
Lemma wp_slist_remove m h pre e post R :
  holds m (slist field h (pre ++ e :: post) ++ R) ->
  Z.of_nat (length pre) < 2 ^ 64 ->
  wp (SLIST_REMOVE field h e)
     (fun _ m' => exists a, holds m' (slist field h (pre ++ post) ++ snode field e a ++ R)) m.
Proof.
  intros Ho Hl. unfold SLIST_REMOVE. pose proof (slist_NoDup _ _ _ _ Ho) as Hd.
  pose proof (slist_chained _ _ _ _ Ho) as Hc.
  apply wp_bind. unfold load at 1. wp_steps. eapply wp_opt; [exact (proj1 Hc)|].
  destruct pre as [|y pre _] using rev_ind.
  { cbn [hd0 app] in *. rewrite Z.eqb_refl. by eapply wp_slist_remove_head. }
  rewrite <- app_assoc in Ho, Hc. cbn [app] in Ho, Hc.
  assert (hd0 ((pre ++ [y]) ++ e :: post) <> e) as Hne%Z.eqb_neq.
  { apply before_notin in Hd. destruct pre; set_solver. }
  rewrite Hne, <- app_assoc. cbn [app]. apply wp_bind.
  eapply wp_mono; [eapply wp_find_before; [exact Hc|by eapply before_notin|]|].
  { rewrite length_app in Hl. cbn in Hl. lia. }
  intros ? ? [-> ->].
  pose proof (wp_slist_remove_after m h pre y e post R Ho) as Hr.
  unfold SLIST_REMOVE_AFTER, SLIST_NEXT in Hr. by rewrite <- app_assoc.
Qed.

Lemma wp_simpleq_remove m h pre e post R :
  holds m (simpleq field h (pre ++ e :: post) ++ R) -> Forall (fun x => x <> 0) post ->
  Z.of_nat (length pre) < 2 ^ 64 ->
  wp (SIMPLEQ_REMOVE field h e)
     (fun _ m' => exists a, holds m' (simpleq field h (pre ++ post) ++ snode field e a ++ R)) m.
Proof.
  intros Ho Hnz Hl. unfold SIMPLEQ_REMOVE. pose proof (simpleq_NoDup _ _ _ _ Ho) as Hd.
  pose proof (simpleq_chained _ _ _ _ Ho) as Hc.
  apply wp_bind. unfold load at 1. wp_steps. eapply wp_opt; [exact (proj1 Hc)|].
  destruct pre as [|y pre _] using rev_ind.
  { cbn [hd0 app] in *. rewrite Z.eqb_refl. by eapply wp_simpleq_remove_head. }
  rewrite <- app_assoc in Ho, Hc. cbn [app] in Ho, Hc.
  assert (hd0 ((pre ++ [y]) ++ e :: post) <> e) as Hne%Z.eqb_neq.
  { apply before_notin in Hd. destruct pre; set_solver. }
  rewrite Hne, <- app_assoc. cbn [app]. apply wp_bind.
  eapply wp_mono; [eapply wp_find_before; [exact Hc|by eapply before_notin|]|].
  { rewrite length_app in Hl. cbn in Hl. lia. }
  intros ? ? [-> ->].
  pose proof (wp_simpleq_remove_after m h pre y e post R Ho Hnz) as Hr.
  by rewrite <- app_assoc.
Qed.
End SinglyLinked.
