(* ===== verification/QueueSpec.v ===== *)
(** * Intrusive lists and queues: theorems

    The pointer operations of queue.h implement sequences.  For tail queues the
    theorem is about whole programs: any number of queues over a common set of
    elements, and any sequence of operations that uses each element as the
    sequences say. *)
From S2P Require Import Prelude Queue QueueThms QueueSingly.

(** ** The abstract machine: queues as sequences

    [aq_queues] maps the address of a head to the elements of its queue,
    [aq_free] is the set of elements in no queue. *)
Record aqueues := AQ { aq_queues : gmap Z (list Z); aq_free : gset Z }.

Inductive qop :=
| InsertHead (h e : Z) | InsertTail (h e : Z)
| InsertAfter (h y e : Z) | InsertBefore (h y e : Z)
| Remove (h e : Z) | Replace (h e e2 : Z) | Concat (h1 h2 : Z)
| Sweep (h : Z) (p : Z -> bool)
| First (h : Z) | Last (h : Z) | Next (h y : Z) | Prev (h y : Z) | IsEmpty (h : Z)
| Walk (h : Z) | WalkBack (h : Z).

(** The elements before and after [y]. *)
Fixpoint split_at (y : Z) (xs : list Z) : option (list Z * list Z) :=
  match xs with
  | [] => None
  | x :: r => if x =? y then Some ([], r)
              else match split_at y r with Some (a, b) => Some (x :: a, b) | None => None end
  end.

(** One operation on sequences: the new state and what is returned; [None] when
    the client may not do it. *)
Definition aq_step (s : aqueues) (o : qop) : option (aqueues * list Z) :=
  let Q := aq_queues s in
  let F := aq_free s in
  match o with
  | InsertHead h e => xs ← Q !! h; guard (e ∈ F);; Some (AQ (<[h := e :: xs]> Q) (F ∖ {[e]}), [])
  | InsertTail h e => xs ← Q !! h; guard (e ∈ F);; Some (AQ (<[h := xs ++ [e]]> Q) (F ∖ {[e]}), [])
  | InsertAfter h y e => xs ← Q !! h; guard (e ∈ F);; '(a, b) ← split_at y xs;
      Some (AQ (<[h := a ++ y :: e :: b]> Q) (F ∖ {[e]}), [])
  | InsertBefore h y e => xs ← Q !! h; guard (e ∈ F);; '(a, b) ← split_at y xs;
      Some (AQ (<[h := a ++ e :: y :: b]> Q) (F ∖ {[e]}), [])
  | Remove h e => xs ← Q !! h; '(a, b) ← split_at e xs;
      Some (AQ (<[h := a ++ b]> Q) (F ∪ {[e]}), [])
  | Replace h e e2 => xs ← Q !! h; guard (e2 ∈ F);; '(a, b) ← split_at e xs;
      Some (AQ (<[h := a ++ e2 :: b]> Q) ((F ∖ {[e2]}) ∪ {[e]}), [])
  | Concat h1 h2 => xs ← Q !! h1; ys ← Q !! h2; guard (h1 <> h2);;
      Some (AQ (<[h1 := xs ++ ys]> (<[h2 := []]> Q)) F, [])
  | Sweep h p => xs ← Q !! h;
      Some (AQ (<[h := filter (fun x => negb (p x)) xs]> Q) (F ∪ list_to_set (filter p xs)), filter p xs)
  | First h => xs ← Q !! h; Some (s, [hd0 xs])
  | Last h => xs ← Q !! h; Some (s, [last0 xs])
  | Next h y => xs ← Q !! h; '(a, b) ← split_at y xs; Some (s, [hd0 b])
  | Prev h y => xs ← Q !! h; '(a, b) ← split_at y xs; Some (s, [last0 a])
  | IsEmpty h => xs ← Q !! h; Some (s, [if bool_decide (xs = []) then 1 else 0])
  | Walk h => xs ← Q !! h; Some (s, xs)
  | WalkBack h => xs ← Q !! h; Some (s, reverse xs)
  end.

Fixpoint aq_run (s : aqueues) (os : list qop) : option (aqueues * list (list Z)) :=
  match os with
  | [] => Some (s, [])
  | o :: os => '(s1, r) ← aq_step s o; '(s2, rs) ← aq_run s1 os; Some (s2, r :: rs)
  end.

(** ** The same operations on memory *)
Section Client.
Context (QUEUEDEBUG : bool) (field : Z).

Definition collect (acc : list Z) (x : Z) : M qmem (list Z) := cret (acc ++ [x]).

Definition tq_step (o : qop) : M qmem (list Z) :=
  match o with
  | InsertHead h e => TAILQ_INSERT_HEAD QUEUEDEBUG field h e ;;; cret []
  | InsertTail h e => TAILQ_INSERT_TAIL QUEUEDEBUG field h e ;;; cret []
  | InsertAfter h y e => TAILQ_INSERT_AFTER QUEUEDEBUG field h y e ;;; cret []
  | InsertBefore h y e => TAILQ_INSERT_BEFORE QUEUEDEBUG field y e ;;; cret []
  | Remove h e => TAILQ_REMOVE QUEUEDEBUG field h e ;;; cret []
  | Replace h e e2 => TAILQ_REPLACE QUEUEDEBUG field h e e2 ;;; cret []
  | Concat h1 h2 => TAILQ_CONCAT field h1 h2 ;;; cret []
  | Sweep h p => TAILQ_FOREACH_SAFE field (remove_if (QUEUEDEBUG := QUEUEDEBUG) (field := field) p h) [] h
  | First h => r <-- TAILQ_FIRST h ;; cret [r]
  | Last h => r <-- TAILQ_LAST h ;; cret [r]
  | Next h y => r <-- TAILQ_NEXT field y ;; cret [r]
  | Prev h y => r <-- TAILQ_PREV field y ;; cret [r]
  | IsEmpty h => r <-- TAILQ_EMPTY h ;; cret [if r : bool then 1 else 0]
  | Walk h => TAILQ_FOREACH field collect [] h
  | WalkBack h => TAILQ_FOREACH_REVERSE field collect [] h
  end.

Fixpoint tq_run (os : list qop) : M qmem (list (list Z)) :=
  match os with
  | [] => cret []
  | o :: os => r <-- tq_step o ;; rs <-- tq_run os ;; cret (r :: rs)
  end.

(** ** What memory looks like *)
Definition qcells (Q : gmap Z (list Z)) : cells :=
  flat_map (fun p => tailq field p.1 p.2) (map_to_list Q).
Definition ncells (V : gmap Z (Z * Z)) : cells := nodes (field := field) (map_to_list V).

Definition addr_ok (x : Z) : Prop := 0 < x < 2 ^ 64.

(** The memory holds the queues, the linkage of the free elements and, besides,
    [R]. *)
Definition represents (s : aqueues) (R : cells) (m : qmem) : Prop :=
  (exists V, dom V = aq_free s /\ holds m (qcells (aq_queues s) ++ ncells V ++ R)) /\
  map_Forall (fun _ xs => Forall addr_ok xs) (aq_queues s) /\ set_Forall addr_ok (aq_free s).

Lemma qcells_take Q h xs : Q !! h = Some xs ->
  qcells Q ≡ₚ tailq field h xs ++ qcells (delete h Q).
Proof. intros H. unfold qcells. by rewrite <- (map_to_list_delete Q h xs). Qed.
Lemma qcells_put Q h ys :
  qcells (<[h := ys]> Q) ≡ₚ tailq field h ys ++ qcells (delete h Q).
Proof.
  unfold qcells. rewrite <- insert_delete_eq, map_to_list_insert by apply lookup_delete_eq. done.
Qed.
Lemma ncells_take V e ab : V !! e = Some ab -> ncells V ≡ₚ node field e ab ++ ncells (delete e V).
Proof. intros H. unfold ncells, nodes. by rewrite <- (map_to_list_delete V e ab). Qed.
Lemma ncells_union es V : NoDup es.*1 -> (forall e, e ∈ es.*1 -> V !! e = None) ->
  ncells (list_to_map es ∪ V) ≡ₚ nodes (field := field) es ++ ncells V.
Proof.
  induction es as [|[e ab] es IH]; intros Hd Hv; cbn in *.
  { by rewrite (left_id_L ∅ (∪)). }
  apply NoDup_cons in Hd as [Hn Hd]. rewrite <- insert_union_l. unfold ncells at 1, nodes.
  rewrite map_to_list_insert.
  - cbn. do 2 constructor. apply IH; [done|]. intros e' He'. apply Hv. set_solver.
  - rewrite lookup_union_None. split; [by apply not_elem_of_list_to_map_1|]. apply Hv. set_solver.
Qed.

(** The next cells of the elements are among the cells of a queue. *)
Lemma tailq_next_cell h xs x : x ∈ xs -> next_of field x ∈ (tailq field h xs).*1.
Proof.
  unfold tailq. rewrite dlinks_links. intros Hx. rewrite !fmap_app, <- !(assoc_L (++)).
  revert h. induction xs as [|y xs IH]; intros h; [set_solver|]. cbn.
  apply elem_of_cons in Hx as [->|Hx].
  - destruct xs; set_solver.
  - specialize (IH Hx (next_of field y)). set_solver.
Qed.

Lemma holds_sub m l1 l2 : holds m (l1 ++ l2) -> NoDup l1.*1 /\ NoDup l2.*1 /\
  forall a, a ∈ l1.*1 -> a ∈ l2.*1 -> False.
Proof. intros [Hd _]. rewrite fmap_app in Hd. apply NoDup_app in Hd. naive_solver. Qed.

Lemma dlist_NoDup h xs : NoDup (dlist field h xs).*1 -> NoDup xs.
Proof.
  unfold dlist. rewrite dlinks_links. intros Hd. apply (links_NoDup (field := field) h).
  rewrite <- app_assoc, (Permutation_app_comm (backs h xs)), app_assoc, fmap_app in Hd.
  apply NoDup_app in Hd as [Hd _]. by rewrite fmap_app in Hd.
Qed.
Lemma tailq_NoDup h xs : NoDup (tailq field h xs).*1 -> NoDup xs.
Proof.
  rewrite tailq_dlist, fmap_app. intros [Hd _]%NoDup_app. by eapply dlist_NoDup.
Qed.

(** Addresses are machine words, so a queue has fewer than 2^64 elements. *)
Lemma addr_length xs : NoDup xs -> Forall addr_ok xs -> Z.of_nat (length xs) < 2 ^ 64.
Proof.
  intros Hd Hok. assert (H : xs ⊆+ seqZ 1 (2 ^ 64 - 1)).
  { apply NoDup_submseteq; [done|]. intros x Hx. rewrite Forall_forall in Hok.
    specialize (Hok x Hx). unfold addr_ok in Hok. apply elem_of_seqZ. lia. }
  apply submseteq_length in H. rewrite length_seqZ in H. lia.
Qed.

Lemma addr_nonnull xs : Forall addr_ok xs -> Forall (fun x => x <> 0) xs.
Proof. intros H. eapply Forall_impl; [exact H|]. unfold addr_ok. lia. Qed.

(** *** One queue of many

    The queue of head [h] is taken out of the representation together with the
    linkage [vs] of free elements ... *)
Lemma represents_open s R m h xs V :
  holds m (qcells (aq_queues s) ++ ncells V ++ R) -> aq_queues s !! h = Some xs ->
  holds m (tailq field h xs ++ qcells (delete h (aq_queues s)) ++ ncells V ++ R).
Proof. intros Ho Hh. rewrite (qcells_take _ _ _ Hh), <- app_assoc in Ho. done. Qed.

(** ... and put back with other elements in it, and other elements released. *)
Lemma represents_close s R m h V ys es :
  holds m (tailq field h ys ++ nodes (field := field) es ++
           qcells (delete h (aq_queues s)) ++ ncells V ++ R) ->
  map_Forall (fun _ xs => Forall addr_ok xs) (aq_queues s) ->
  Forall addr_ok ys -> Forall addr_ok es.*1 -> set_Forall addr_ok (dom V) ->
  represents (AQ (<[h := ys]> (aq_queues s)) (dom V ∪ list_to_set es.*1)) R m.
Proof.
  intros Ho HQ Hy He HV. split; [|split].
  - exists (list_to_map es ∪ V). cbn [aq_queues aq_free]. split.
    { rewrite dom_union_L, dom_list_to_map_L. set_solver. }
    assert (Hn : NoDup (nodes (field := field) es ++ ncells V).*1).
    { eapply (holds_sub m _ (tailq field h ys ++ qcells (delete h (aq_queues s)) ++ R)).
      eapply holds_perm; [exact Ho|]. solve_Permutation. }
    rewrite fmap_app, NoDup_app in Hn. destruct Hn as (Hn1 & Hn2 & _).
    rewrite ncells_union, qcells_put.
    + eapply holds_perm; [exact Ho|]. solve_Permutation.
    + clear -Hn1. unfold nodes in Hn1. induction es as [|[e ab] es IH]; [constructor|]. cbn in *.
      apply NoDup_cons in Hn1 as [Hx Hn]. apply NoDup_cons in Hn as [_ Hn]. constructor; [|auto].
      intros He. apply Hx. right. clear -He. induction es as [|[e' ab'] es IH]; [set_solver|].
      cbn in *. set_solver.
    + intros e Hin. destruct (V !! e) as [ab|] eqn:Hab; [exfalso|done].
      apply (Hn2 (next_of field e)); [|rewrite (ncells_take _ _ _ Hab); cbn; apply list_elem_of_here].
      clear -Hin. unfold nodes. induction es as [|[e' ab'] es IH]; cbn in *; set_solver.
  - cbn. apply map_Forall_insert_2; done.
  - cbn. apply set_Forall_union; [done|]. intros e Hin. rewrite elem_of_list_to_set in Hin.
    by apply (proj1 (Forall_forall _ _) He).
Qed.

(** *** One operation *)
Lemma addr_perm ys xs : ys ≡ₚ xs -> Forall addr_ok xs -> Forall addr_ok ys.
Proof. by intros ->. Qed.

Lemma split_at_Some y xs a b : split_at y xs = Some (a, b) -> xs = a ++ y :: b.
Proof.
  revert a. induction xs as [|x xs IH]; intros a; [done|]. cbn.
  destruct (Z.eqb_spec x y); [by intros [= <- <-]; subst|].
  destruct (split_at y xs) as [[a' b']|]; [|done]. intros [= <- <-]. cbn. f_equal. auto.
Qed.

(** What an operation may use of the queue of head [h]. *)
Lemma represents_queue s R m h xs : represents s R m -> aq_queues s !! h = Some xs ->
  exists F, holds m (tailq field h xs ++ F) /\ Forall addr_ok xs /\ Z.of_nat (length xs) < 2 ^ 64.
Proof.
  intros ((V & _ & Ho) & HQ & _) Hh. pose proof (represents_open _ _ _ _ _ _ Ho Hh) as H1.
  pose proof (HQ _ _ Hh) as Hx. cbn in Hx. eexists. split; [exact H1|]. split; [done|].
  apply addr_length; [|done]. apply (tailq_NoDup h). exact (proj1 (holds_sub _ _ _ H1)).
Qed.

(** An element enters the queue. *)
Lemma represents_insert s R m h xs e (op : M qmem unit) ys :
  represents s R m -> aq_queues s !! h = Some xs -> e ∈ aq_free s -> ys ≡ₚ e :: xs ->
  (forall ab F, holds m (tailq field h xs ++ node field e ab ++ F) -> Forall addr_ok xs ->
     wp op (fun _ m' => holds m' (tailq field h ys ++ F)) m) ->
  wp op (fun _ m' => represents (AQ (<[h := ys]> (aq_queues s)) (aq_free s ∖ {[e]})) R m') m.
Proof.
  intros ((V & HV & Ho) & HQ & HF) Hh He Hy Hop. rewrite <- HV in He.
  apply elem_of_dom in He as [ab Hab]. pose proof (HQ _ _ Hh) as Hx. cbn in Hx.
  pose proof (represents_open _ _ _ _ _ _ Ho Hh) as H1. rewrite (ncells_take _ _ _ Hab) in H1.
  eapply wp_mono; [apply (Hop ab (qcells (delete h (aq_queues s)) ++ ncells (delete e V) ++ R));
    [eapply holds_perm; [exact H1|]; solve_Permutation|done]|].
  intros [] m' H2. rewrite <- HV.
  replace (dom V ∖ {[e]}) with (dom (delete e V) ∪ list_to_set ([] : list Z) : gset Z)
    by (rewrite dom_delete_L; set_solver).
  apply (represents_close s R m' h (delete e V) ys []); [done|done| |constructor|].
  - eapply addr_perm; [exact Hy|]. constructor; [|done]. apply HF. rewrite <- HV.
    by eapply elem_of_dom_2.
  - rewrite dom_delete_L, HV. intros x Hx'. apply HF. set_solver.
Qed.

(** Elements leave it. *)
Lemma represents_release s R m h xs {A} (op : M qmem A) (out : A -> Prop) ys gone :
  represents s R m -> aq_queues s !! h = Some xs -> ys ++ gone ≡ₚ xs ->
  (forall F, holds m (tailq field h xs ++ F) -> Forall addr_ok xs -> Z.of_nat (length xs) < 2 ^ 64 ->
     wp op (fun a m' => out a /\ exists es, es.*1 = gone /\
       holds m' (tailq field h ys ++ nodes (field := field) es ++ F)) m) ->
  wp op (fun a m' => out a /\
    represents (AQ (<[h := ys]> (aq_queues s)) (aq_free s ∪ list_to_set gone)) R m') m.
Proof.
  intros Hrep Hh Hy Hop. destruct (represents_queue _ _ _ _ _ Hrep Hh) as (_ & _ & Hx & Hl).
  destruct Hrep as ((V & HV & Ho) & HQ & HF).
  pose proof (represents_open _ _ _ _ _ _ Ho Hh) as H1.
  eapply wp_mono; [by eapply Hop|].
  intros a m' (Ha & es & <- & H2). split; [done|]. rewrite <- HV.
  assert (Hall : Forall addr_ok (ys ++ es.*1)) by (by eapply addr_perm).
  apply Forall_app in Hall as [Hys Hes]. apply represents_close; [done..|]. by rewrite HV.
Qed.

Lemma represents_replace s R m h a e b e2 :
  represents s R m -> aq_queues s !! h = Some (a ++ e :: b) -> e2 ∈ aq_free s ->
  wp (TAILQ_REPLACE QUEUEDEBUG field h e e2) (fun _ m' =>
    represents (AQ (<[h := a ++ e2 :: b]> (aq_queues s)) ((aq_free s ∖ {[e2]}) ∪ {[e]})) R m') m.
Proof.
  intros ((V & HV & Ho) & HQ & HF) Hh He. rewrite <- HV in He.
  apply elem_of_dom in He as [ab Hab]. pose proof (HQ _ _ Hh) as Hx. cbn in Hx.
  rewrite Forall_app, Forall_cons in Hx. destruct Hx as (Ha & He0 & Hb).
  assert (He2 : addr_ok e2) by (apply HF; rewrite <- HV; by eapply elem_of_dom_2).
  pose proof (represents_open _ _ _ _ _ _ Ho Hh) as H1. rewrite (ncells_take _ _ _ Hab) in H1.
  eapply wp_mono; [eapply (wp_tailq_replace m h a e b e2 ab
    (qcells (delete h (aq_queues s)) ++ ncells (delete e2 V) ++ R));
    [eapply holds_perm; [exact H1|]; solve_Permutation|by apply addr_nonnull]|].
  intros [] m' [ab' H2]. rewrite <- HV.
  replace ((dom V ∖ {[e2]}) ∪ {[e]}) with (dom (delete e2 V) ∪ list_to_set ([(e, ab')] : list (Z * (Z * Z))).*1 : gset Z)
    by (rewrite dom_delete_L; set_solver).
  apply (represents_close s R m' h (delete e2 V) (a ++ e2 :: b) [(e, ab')]); [exact H2|done| | |].
  - rewrite Forall_app, Forall_cons. done.
  - apply Forall_cons. split; [done|apply Forall_nil, I].
  - rewrite dom_delete_L, HV. intros x Hx'. apply HF. set_solver.
Qed.

Lemma represents_concat s R m h1 xs h2 ys :
  represents s R m -> aq_queues s !! h1 = Some xs -> aq_queues s !! h2 = Some ys -> h1 <> h2 ->
  wp (TAILQ_CONCAT field h1 h2) (fun _ m' =>
    represents (AQ (<[h1 := xs ++ ys]> (<[h2 := []]> (aq_queues s))) (aq_free s)) R m') m.
Proof.
  intros ((V & HV & Ho) & HQ & HF) H1 H2 Hne.
  pose proof (HQ _ _ H1) as Hx. pose proof (HQ _ _ H2) as Hy. cbn in Hx, Hy.
  rewrite (qcells_take _ _ _ H1), (qcells_take (delete h1 (aq_queues s)) h2 ys) in Ho
    by (by rewrite lookup_delete_ne).
  eapply wp_mono; [eapply (wp_tailq_concat m h1 xs h2 ys
    (qcells (delete h2 (delete h1 (aq_queues s))) ++ ncells V ++ R));
    [eapply holds_perm; [exact Ho|]; solve_Permutation|by apply addr_nonnull]|].
  intros [] m' H3. split; [|split].
  - exists V. split; [done|]. cbn [aq_queues]. rewrite qcells_put.
    rewrite (qcells_take (delete h1 (<[h2 := []]> (aq_queues s))) h2 [])
      by (by rewrite lookup_delete_ne, lookup_insert_eq).
    rewrite (delete_insert_ne (aq_queues s) h1 h2) by done. rewrite delete_insert_eq.
    eapply holds_perm; [exact H3|]. solve_Permutation.
  - cbn. apply map_Forall_insert_2; [by apply Forall_app|]. by apply map_Forall_insert_2.
  - done.
Qed.

Lemma foldl_collect acc xs : foldl (fun acc (x : Z) => acc ++ [x]) acc xs = acc ++ xs.
Proof.
  revert acc. induction xs as [|x xs IH]; intros acc; cbn; [by rewrite app_nil_r|].
  rewrite IH, <- app_assoc. done.
Qed.

Lemma wp_then {A} (op : M qmem unit) (r : A) (P : qmem -> Prop) m :
  wp op (fun _ m' => P m') m -> wp (op ;;; cret r) (fun a m' => a = r /\ P m') m.
Proof. intros H. apply wp_bind. eapply wp_mono; [exact H|]. by intros [] m' Hp. Qed.
End Client.

(** Evaluate a legal step of the sequences. *)
Ltac aq_cases H :=
  cbn in H |- *; simplify_option_eq;
  repeat match goal with p : (list Z * list Z)%type |- _ => destruct p end; simplify_eq;
  repeat match goal with E : split_at _ _ = Some _ |- _ => apply split_at_Some in E; subst end.

Section Simulation.
Context (QUEUEDEBUG : bool) (field : Z) (R : cells).

(** One operation: it returns, answers like the sequences, and leaves memory
    representing what the sequences are afterwards. *)
Abbreviation simulates o s' r m :=
  (wp (tq_step QUEUEDEBUG field o) (fun a m' => a = r /\ represents field s' R m') m).

Lemma addr_suffix a y b : Forall addr_ok (a ++ y :: b) -> Forall (fun x => x <> 0) b.
Proof. intros H%addr_nonnull. rewrite Forall_app, Forall_cons in H. tauto. Qed.

Lemma sim_insert s m o s' r : represents field s R m -> aq_step s o = Some (s', r) ->
  match o with InsertHead _ _ | InsertTail _ _ | InsertAfter _ _ _ | InsertBefore _ _ _ => True | _ => False end ->
  simulates o s' r m.
Proof.
  intros Hrep Hs Ho. destruct o; try done; aq_cases Hs; apply wp_then;
    (eapply represents_insert; [done..| |]; [try solve_Permutation|intros ab F K1 K2]).
  - eapply wp_tailq_insert_head; [done|]. by apply addr_nonnull.
  - by eapply wp_tailq_insert_tail.
  - eapply wp_tailq_insert_after; [done|]. by eapply addr_suffix.
  - eapply wp_tailq_insert_before; [done|]. by eapply addr_suffix.
Qed.

Lemma filter_perm (p : Z -> bool) xs :
  filter (fun x => negb (p x)) xs ++ filter p xs ≡ₚ xs.
Proof.
  induction xs as [|x xs IH]; [done|]. rewrite !filter_cons.
  destruct (p x) eqn:Hp.
  - rewrite decide_False, decide_True by (cbn; tauto).
    rewrite <- Permutation_middle. by constructor.
  - rewrite decide_True, decide_False by (cbn; tauto). cbn. by constructor.
Qed.

Lemma sim_remove s m o s' r : represents field s R m -> aq_step s o = Some (s', r) ->
  match o with Remove _ _ | Replace _ _ _ | Concat _ _ | Sweep _ _ => True | _ => False end ->
  simulates o s' r m.
Proof.
  intros Hrep Hs Ho. destruct o; try done; aq_cases Hs.
  - apply wp_then.
    replace ({[e]} : gset Z) with (list_to_set [e] : gset Z) by set_solver.
    eapply wp_mono; [eapply (represents_release) with (out := fun _ => True) (gone := [e]); [done..| |]|by intros [] ? [_ ?]].
    { solve_Permutation. }
    intros F K1 K2 K3. eapply wp_mono; [eapply wp_tailq_remove; [done|by eapply addr_suffix]|].
    intros [] m' [ab K4]. split; [done|]. exists [(e, ab)]. split; [done|]. done.
  - apply wp_then. by eapply represents_replace.
  - apply wp_then. by eapply represents_concat.
  - eapply represents_release; [done..|apply filter_perm|]. intros F K1 K2%addr_nonnull K3.
    eapply wp_mono; [by eapply wp_tailq_foreach_safe_remove|].
    intros rm m' (-> & es & He & K4). split; [done|]. by exists es.
Qed.

Lemma sim_observe s m o s' r : represents field s R m -> aq_step s o = Some (s', r) ->
  match o with First _ | Last _ | Next _ _ | Prev _ _ | IsEmpty _ | Walk _ | WalkBack _ => True | _ => False end ->
  simulates o s' r m.
Proof.
  intros Hrep Hs Ho. destruct o; try done; aq_cases Hs;
    match goal with E : _ !! _ = Some _ |- _ =>
      destruct (represents_queue field _ _ _ _ _ Hrep E) as (F & K1 & K2 & K3) end.
  - apply wp_bind. eapply wp_mono; [by eapply wp_tailq_first|]. by intros ? ? [-> ->].
  - apply wp_bind. eapply wp_mono; [by eapply wp_tailq_last|]. by intros ? ? [-> ->].
  - apply wp_bind. eapply wp_mono; [by eapply wp_tailq_next|]. by intros ? ? [-> ->].
  - apply wp_bind. eapply wp_mono; [by eapply wp_tailq_prev|]. by intros ? ? [-> ->].
  - apply wp_bind. eapply wp_mono; [eapply wp_tailq_empty; [done|by apply addr_nonnull]|]. by intros ? ? [-> ->].
  - eapply wp_mono; [eapply (wp_tailq_foreach collect (fun acc x => acc ++ [x]));
      [done|by apply addr_nonnull|done|by intros]|].
    intros ? ? [-> ->]. by rewrite foldl_collect.
  - eapply wp_mono; [eapply (wp_tailq_foreach_reverse collect (fun acc x => acc ++ [x]));
      [done|by apply addr_nonnull|done|by intros]|].
    intros ? ? [-> ->]. by rewrite foldl_collect.
Qed.

Lemma sim_step s m o s' r : represents field s R m -> aq_step s o = Some (s', r) -> simulates o s' r m.
Proof.
  intros Hrep Hs. destruct o;
    solve [by eapply sim_insert | by eapply sim_remove | by eapply sim_observe].
Qed.

(** C4. Tail queues refine sequences: started on initialised heads and free
    elements, with any other data [R] around them, every sequence of
    operations that is legal for sequences (an element is inserted when it is
    in no queue, and named in a queue when it is there) returns without a bad
    access and without tripping a QUEUEDEBUG check, gives the answers the
    sequences give (first, last, next, previous, traversals both ways, removal
    while traversing), and leaves memory representing the resulting sequences
    with [R] untouched. *)
Theorem tailq_refines_sequences s m os s' rs :
  represents field s R m -> aq_run s os = Some (s', rs) ->
  wp (tq_run QUEUEDEBUG field os) (fun out m' => out = rs /\ represents field s' R m') m.
Proof.
  revert s m s' rs. induction os as [|o os IH]; intros s m s' rs Hrep Hr; cbn in Hr |- *.
  { simplify_eq. by apply wp_ret. }
  destruct (aq_step s o) as [[s1 r]|] eqn:Hs; [|done]. cbn in Hr.
  destruct (aq_run s1 os) as [[s2 rs']|] eqn:Hrun; [|done]. simplify_eq/=.
  apply wp_bind. eapply wp_mono; [by eapply sim_step|]. intros ? m1 [-> H1].
  apply wp_bind. eapply wp_mono; [by eapply IH|]. intros ? m2 [-> H2]. by apply wp_ret.
Qed.
End Simulation.

(** A list of type [LIST] in memory behaves like a sequence: every operation
    below, on a queue [xs] with any data [R] around it. *)
Section Lists.
Context (QUEUEDEBUG : bool) (field : Z).

(** LIST operations, the ones the page allocator and the byte allocator keep
    their free chunks with, refine sequences: insertion at the head and before
    or after an element, removal of an element anywhere in constant time,
    replacement, and traversal; each returns without a bad access or a tripped
    QUEUEDEBUG check, and touches nothing but the queue and the element. *)
Theorem list_ops_refine_sequences m h pre y post e ab R :
  holds m (dlist field h (pre ++ y :: post) ++ node field e ab ++ R) ->
  Forall addr_ok (pre ++ y :: post) ->
  wp (LIST_INSERT_HEAD QUEUEDEBUG field h e)
    (fun _ m' => holds m' (dlist field h (e :: pre ++ y :: post) ++ R)) m /\
  wp (LIST_INSERT_AFTER QUEUEDEBUG field y e)
    (fun _ m' => holds m' (dlist field h (pre ++ y :: e :: post) ++ R)) m /\
  wp (LIST_INSERT_BEFORE QUEUEDEBUG field y e)
    (fun _ m' => holds m' (dlist field h (pre ++ e :: y :: post) ++ R)) m /\
  wp (LIST_REMOVE QUEUEDEBUG field y)
    (fun _ m' => exists ab', holds m' (dlist field h (pre ++ post) ++ node field y ab' ++ node field e ab ++ R)) m /\
  wp (LIST_REPLACE QUEUEDEBUG field y e)
    (fun _ m' => exists ab', holds m' (dlist field h (pre ++ e :: post) ++ node field y ab' ++ R)) m /\
  wp (LIST_FOREACH field collect [] h) (fun r m' => r = pre ++ y :: post /\ m' = m) m.
Proof.
  intros Ho Hok. pose proof (addr_suffix _ _ _ Hok) as Hp. split_and!.
  - eapply wp_list_insert_head; [done|]. by apply addr_nonnull.
  - by eapply wp_list_insert_after.
  - by eapply wp_list_insert_before.
  - by apply wp_list_remove.
  - by eapply wp_list_replace.
  - pose proof (dlist_chained _ _ _ _ Ho) as Hc.
    assert (Hd : NoDup (pre ++ y :: post)).
    { apply (dlist_NoDup field h). exact (proj1 (holds_sub _ _ _ Ho)). }
    eapply wp_mono; [apply (wp_foreach_chain collect (fun acc x => acc ++ [x]) m h (pre ++ y :: post) []);
      [done|by apply addr_nonnull|by apply addr_length|by intros]|].
    intros ? ? [-> ->]. by rewrite foldl_collect.
Qed.

(** LIST_MOVE does not redirect the back pointer of the first element: it
    still names the old head.  Removing that element from the moved list then
    clears the old head and leaves the new one pointing at the removed
    element. *)
Theorem list_move_stale_back m h1 x xs h2 v R :
  holds m (dlist field h1 (x :: xs) ++ (h2, v) :: R) -> Forall addr_ok (x :: xs) ->
  wp (LIST_MOVE h1 h2 ;;; LIST_REMOVE false field x ;;; LIST_FIRST h2)
     (fun r m' => r = x /\ m' !! h1 = Some (hd0 xs)) m.
Proof.
  intros Ho [Hx Hn]%addr_nonnull%Forall_cons.
  unfold LIST_MOVE, LIST_INIT, LIST_EMPTY, LIST_REMOVE, LIST_FIRST, QUEUEDEBUG_OP,
    QUEUEDEBUG_POSTREMOVE, debug_abort_if.
  destruct Hn as [|y xs Hy Hn]; shape_in Ho; q_run;
    (split; [done|]); match goal with H : holds _ _ |- _ => destruct H as [_ H]; rewrite !Forall_cons in H; apply H end.
Qed.
End Lists.

(** Simple queues, and singly linked tail queues, which have the same bodies. *)
Section SimpleQueues.
Context (field : Z).

(** SIMPLEQ operations refine sequences: both insertions and the one after an
    element, removal of the head, after an element and by search, concatenation,
    and the last element computed from the address of its next pointer.  The
    search for the predecessor ends. *)
Theorem simpleq_ops_refine_sequences m h pre y post e a R :
  holds m (simpleq field h (pre ++ y :: post) ++ snode field e a ++ R) ->
  Forall addr_ok (pre ++ y :: post) ->
  wp (SIMPLEQ_INSERT_HEAD field h e)
    (fun _ m' => holds m' (simpleq field h (e :: pre ++ y :: post) ++ R)) m /\
  wp (SIMPLEQ_INSERT_TAIL field h e)
    (fun _ m' => holds m' (simpleq field h ((pre ++ y :: post) ++ [e]) ++ R)) m /\
  wp (SIMPLEQ_INSERT_AFTER field h y e)
    (fun _ m' => holds m' (simpleq field h (pre ++ y :: e :: post) ++ R)) m /\
  wp (SIMPLEQ_REMOVE field h y)
    (fun _ m' => exists a', holds m' (simpleq field h (pre ++ post) ++ snode field y a' ++ snode field e a ++ R)) m /\
  wp (SIMPLEQ_LAST field h) (fun r m' => r = last0 (pre ++ y :: post) /\ m' = m) m.
Proof.
  intros Ho Hok. pose proof (addr_suffix _ _ _ Hok) as Hp. pose proof (addr_nonnull _ Hok) as Hn.
  split_and!.
  - by eapply wp_simpleq_insert_head.
  - by eapply wp_simpleq_insert_tail.
  - by eapply wp_simpleq_insert_after.
  - apply wp_simpleq_remove; [done..|].
    pose proof (addr_length _ (simpleq_NoDup _ _ _ _ Ho) Hok) as Hl. rewrite length_app in Hl. lia.
  - by eapply wp_simpleq_last.
Qed.

(** A STAILQ is a SIMPLEQ. *)
Lemma stailq_is_simpleq :
  STAILQ_INIT = SIMPLEQ_INIT /\ STAILQ_INSERT_HEAD = SIMPLEQ_INSERT_HEAD /\
  STAILQ_INSERT_TAIL = SIMPLEQ_INSERT_TAIL /\ STAILQ_INSERT_AFTER = SIMPLEQ_INSERT_AFTER /\
  STAILQ_REMOVE_HEAD = SIMPLEQ_REMOVE_HEAD /\ STAILQ_REMOVE = SIMPLEQ_REMOVE /\
  STAILQ_CONCAT = SIMPLEQ_CONCAT /\ STAILQ_LAST = SIMPLEQ_LAST.
Proof. by split_and!. Qed.
End SimpleQueues.

(** ** A concrete memory: two heads at 1000 and 1016, elements at 2000, 2100, 2200
    with their linkage at offset 16, as TAILQ_INIT leaves the heads. *)
#[global] Instance holds_dec m l : Decision (holds m l).
Proof. unfold holds. apply _. Defined.

Definition demo_mem : qmem := list_to_map
  [(1000, 0); (1008, 1000); (1016, 0); (1024, 1016);
   (2016, 7); (2024, 7); (2116, 7); (2124, 7); (2216, 7); (2224, 7); (5000, 42)].
Definition demo_queues : aqueues :=
  AQ (list_to_map [(1000, []); (1016, [])]) (list_to_set [2000; 2100; 2200]).
Definition demo_ops : list qop :=
  [InsertTail 1000 2000; InsertHead 1000 2100; InsertBefore 1000 2000 2200; Walk 1000;
   Remove 1000 2200; WalkBack 1000; Last 1000; Prev 1000 2000;
   InsertTail 1016 2200; Concat 1016 1000; Walk 1016; IsEmpty 1000;
   Sweep 1016 (fun x => x =? 2100); Walk 1016].
Definition demo_final : aqueues :=
  AQ (list_to_map [(1016, [2200; 2000]); (1000, [])]) (list_to_set [2100]).

Lemma demo_represents : represents 16 demo_queues [(5000, 42)] demo_mem.
Proof.
  split; [|split].
  - exists (list_to_map [(2000, (7, 7)); (2100, (7, 7)); (2200, (7, 7))]).
    split; [by vm_compute|]. apply (bool_decide_unpack _). by vm_compute.
  - apply (bool_decide_unpack _). by vm_compute.
  - apply (bool_decide_unpack _). by vm_compute.
Qed.

Lemma tailq_refines_sequences_witness :
  wp (tq_run true 16 demo_ops) (fun out m' =>
    out = [[]; []; []; [2100; 2200; 2000]; []; [2000; 2100]; [2000]; [2100]; []; [];
           [2200; 2100; 2000]; [1]; [2100]; [2200; 2000]] /\
    represents 16 demo_final [(5000, 42)] m') demo_mem.
Proof.
  apply (tailq_refines_sequences true 16 [(5000, 42)] demo_queues demo_mem demo_ops demo_final).
  - exact demo_represents.
  - vm_compute. reflexivity.
Defined.

(** A list 2000, 2100 with head 1000, and a free element 2200. *)
Definition demo_list : qmem := list_to_map
  [(1000, 2000); (2016, 2100); (2024, 1000); (2116, 0); (2124, 2016); (2216, 7); (2224, 7); (3000, 0)].

Lemma list_ops_refine_sequences_witness :
  holds demo_list (dlist 16 1000 ([2000] ++ 2100 :: []) ++ node 16 2200 (7, 7) ++ [(3000, 0)]) /\
  wp (LIST_REMOVE true 16 2100) (fun _ m' => exists ab', holds m'
    (dlist 16 1000 ([2000] ++ []) ++ node 16 2100 ab' ++ node 16 2200 (7, 7) ++ [(3000, 0)])) demo_list.
Proof.
  assert (Hh : holds demo_list (dlist 16 1000 ([2000] ++ 2100 :: []) ++ node 16 2200 (7, 7) ++ [(3000, 0)])).
  { apply (bool_decide_unpack _). by vm_compute. }
  split; [exact Hh|].
  refine (proj1 (proj2 (proj2 (proj2 (list_ops_refine_sequences true 16 demo_list 1000 [2000] 2100 []
    2200 (7, 7) [(3000, 0)] Hh _))))).
  apply (bool_decide_unpack _). by vm_compute.
Defined.

Lemma list_move_stale_back_witness :
  wp (LIST_MOVE 1000 3000 ;;; LIST_REMOVE false 16 2000 ;;; LIST_FIRST 3000)
     (fun r m' => r = 2000 /\ m' !! 1000 = Some 2100) demo_list.
Proof.
  apply (list_move_stale_back 16 demo_list 1000 2000 [2100] 3000 0 (node 16 2200 (7, 7))).
  - apply (bool_decide_unpack _). by vm_compute.
  - apply (bool_decide_unpack _). by vm_compute.
Defined.

Definition demo_simpleq : qmem := list_to_map
  [(1000, 2000); (2016, 2100); (2116, 0); (1008, 2116); (2216, 7)].

Lemma simpleq_ops_refine_sequences_witness :
  wp (SIMPLEQ_REMOVE 16 1000 2100) (fun _ m' => exists a', holds m'
    (simpleq 16 1000 ([2000] ++ []) ++ snode 16 2100 a' ++ snode 16 2200 7 ++ [])) demo_simpleq.
Proof.
  refine (proj1 (proj2 (proj2 (proj2 (simpleq_ops_refine_sequences 16 demo_simpleq 1000 [2000] 2100 []
    2200 7 [] _ _))))).
  - apply (bool_decide_unpack _). by vm_compute.
  - apply (bool_decide_unpack _). by vm_compute.
Defined.
