(* ===== verification/Strtoul.v ===== *)
(** * Number parsing (lib/libbmk_core/strtoul.c) *)

From S2P Require Import Prelude CString CStringThms.

Definition ULONG_MAX : Z := 2 ^ 64 - 1.

Definition is_space (c : Z) : bool := (c =? 32) || ((9 <=? c) && (c <=? 13)).

(** The value of a digit character, or [None] for any other character. *)
Definition digit_value (c : Z) : option Z :=
  if (48 <=? c) && (c <=? 57) then Some (c - 48)
  else if (97 <=? c) && (c <=? 122) then Some (c - 97 + 10)
  else if (65 <=? c) && (c <=? 90) then Some (c - 65 + 10)
  else None.

(** Skips white space: the first other character and the position behind it. *)
Definition skip_space (s : Z) : M (gmap Z Z) (Z * Z) :=
  loopM (fun s => c <-- rd s ;;
    if is_space c then cret (inl (s + 1)) else cret (inr (c, s + 1))) s.

(** The accumulation loop: (acc, any, s). *)
Definition accumulate (base cutoff cutlim c s : Z) : M (gmap Z Z) (Z * Z * Z) :=
  loopM (fun '(acc, any, c, s) =>
    match digit_value c with
    | None => cret (inr (acc, any, s))
    | Some i =>
        if base <=? i then cret (inr (acc, any, s))
        else if any <? 0 then c' <-- rd s ;; cret (inl (acc, any, c', s + 1))
        else if (cutoff <? acc) || ((acc =? cutoff) && (cutlim <? i))
        then cret (inr (ULONG_MAX, 0, s))
        else c' <-- rd s ;; cret (inl (u64 (u64 (acc * base) + i), 1, c', s + 1))
    end) (0, 0, c, s).

(** Returns the value and [*endptr]. *)
Definition bmk_strtoul (nptr base : Z) : M (gmap Z Z) (Z * Z) :=
  massert (negb (negb (base =? 0) && ((base <? 2) || (36 <? base))))
    "invalid base to strtoul" ;;;
  '(c, s) <-- skip_space nptr ;;
  '(neg, c, s) <--
    (if c =? 45 then c' <-- rd s ;; cret (true, c', s + 1)
     else if c =? 43 then c' <-- rd s ;; cret (false, c', s + 1)
     else cret (false, c, s)) ;;
  '(c, s, base) <--
    (if ((base =? 0) || (base =? 16)) && (c =? 48) then
       x <-- rd s ;;
       if (x =? 120) || (x =? 88) then c' <-- rd (s + 1) ;; cret (c', s + 2, 16)
       else cret (c, s, base)
     else cret (c, s, base)) ;;
  let base := if base =? 0 then (if c =? 48 then 8 else 10) else base in
  let cutoff := ULONG_MAX / base in
  let cutlim := ULONG_MAX mod base in
  '(acc, any, s) <-- accumulate base cutoff cutlim c s ;;
  let acc := if neg && (0 <? any) then u64 (- acc) else acc in
  cret (acc, if negb (any =? 0) then s - 1 else nptr).

(** * Number parsing: the properties *)


(** The number a sequence of digits denotes. *)
Definition numeral (base : Z) (ds : list Z) : Z := fold_left (fun a d => a * base + d) ds 0.

Lemma numeral_snoc base ds d : numeral base (ds ++ [d]) = numeral base ds * base + d.
Proof. unfold numeral. by rewrite fold_left_app. Qed.

Lemma numeral_bound base ds : 2 <= base -> Forall (fun d => 0 <= d < base) ds -> 0 <= numeral base ds.
Proof.
  intros Hb. induction ds as [|d ds IH] using rev_ind; [done|]. rewrite Forall_app, Forall_singleton.
  intros [H1 H2]. rewrite numeral_snoc. specialize (IH H1). nia.
Qed.

Lemma numeral_mono base ds ds' : 2 <= base -> Forall (fun d => 0 <= d < base) (ds ++ ds') ->
  numeral base ds <= numeral base (ds ++ ds').
Proof.
  intros Hb. induction ds' as [|d ds' IH] using rev_ind; [by rewrite app_nil_r|].
  rewrite app_assoc, numeral_snoc. rewrite Forall_app, Forall_singleton. intros [H1 H2].
  pose proof (numeral_bound base _ Hb H1). specialize (IH H1).
  set (x := numeral base (ds ++ ds')) in *. assert (x * 2 <= x * base) by (apply Z.mul_le_mono_nonneg_l; lia). lia.
Qed.

(** The overflow test of the loop is exact. *)
Lemma cutoff_exact base acc i : 2 <= base -> 0 <= acc -> 0 <= i < base ->
  ((ULONG_MAX / base <? acc) || ((acc =? ULONG_MAX / base) && (ULONG_MAX mod base <? i)) = true
   <-> ULONG_MAX < acc * base + i).
Proof.
  intros Hb Ha Hi. pose proof (Z.div_mod ULONG_MAX base ltac:(lia)) as E.
  pose proof (Z.mod_pos_bound ULONG_MAX base ltac:(lia)).
  set (q := ULONG_MAX / base) in *. set (r := ULONG_MAX mod base) in *.
  destruct (Z.ltb_spec q acc); simpl; [split; [intros _; nia|done]|].
  destruct (Z.eqb_spec acc q) as [->|]; simpl; [destruct (Z.ltb_spec r i); simpl; split; try done; lia|].
  split; [done|]. nia.
Qed.

(** [accumulate] reads the digits [ds] of characters [cs] and then a stop. *)
Lemma wp_accumulate m base s cs ds stop c0 :
  2 <= base -> length cs = length ds -> (forall k c d, cs !! k = Some c -> ds !! k = Some d ->
    digit_value c = Some d /\ 0 <= d < base) ->
  digit_value stop = None -> bytes_at m (s - 1) (cs ++ [stop]) -> (cs ++ [stop]) !! 0%nat = Some c0 ->
  Z.of_nat (length cs) < 2 ^ 63 ->
  wp (accumulate base (ULONG_MAX / base) (ULONG_MAX mod base) c0 s) (fun r m' => m' = m /\
    if decide (numeral base ds <= ULONG_MAX)
    then r = (numeral base ds, (if decide (ds = []) then 0 else 1), s + Z.of_nat (length cs))
    else exists s', r = (ULONG_MAX, 0, s')) m.
Proof.
  intros Hb Hlen Hd Hstop Hm Hc0 Hsmall.
  assert (Hds : Forall (fun d => 0 <= d < base) ds).
  { apply Forall_lookup. intros k d Hk. destruct (lookup_lt_is_Some_2 cs k) as [c Hc];
      [apply lookup_lt_Some in Hk; lia|]. by destruct (Hd k c d Hc Hk). }
  apply (wp_loop _ (fun '(acc, any, c, s') m' => m' = m /\ exists k, (k <= length cs)%nat /\
      s' = s + Z.of_nat k /\ (cs ++ [stop]) !! k = Some c /\ acc = numeral base (take k ds) /\
      acc <= ULONG_MAX /\ any = (if decide (k = 0%nat) then 0 else 1))
      (fun '(_, _, _, s') _ => s + Z.of_nat (length cs) - s')).
  - intros [[[acc any] c] s'] m' (-> & k & Hk & -> & Hc & -> & Hle & ->). split; [lia|].
    assert (Hany : ((if decide (k = 0%nat) then 0 else 1) <? 0) = false) by (by destruct (decide _)).
    destruct (decide (k = length cs)) as [->|Hne].
    + rewrite lookup_app_r, Nat.sub_diag in Hc by lia. injection Hc as <-. rewrite Hstop.
      apply wp_ret. split; [done|]. rewrite take_ge in * by lia.
      destruct (decide (numeral base ds <= ULONG_MAX)); [|lia]. f_equal. f_equal.
      assert (Hiff : length cs = 0%nat <-> ds = []) by (rewrite Hlen; destruct ds; done).
      destruct (decide (length cs = 0%nat)), (decide (ds = [])); tauto.
    + assert (Hlt : (k < length cs)%nat) by lia. rewrite lookup_app_l in Hc by done.
      destruct (lookup_lt_is_Some_2 ds k) as [d Hdk]; [lia|].
      destruct (Hd k c d Hc Hdk) as [-> Hdb]. destruct (Z.leb_spec base d); [lia|]. rewrite Hany.
      assert (Hpos : 0 <= numeral base (take k ds)) by (apply numeral_bound; [done|by apply Forall_take]).
      pose proof (cutoff_exact base (numeral base (take k ds)) d Hb Hpos Hdb) as Hcut.
      assert (Esnoc : numeral base (take (S k) ds) = numeral base (take k ds) * base + d)
        by (by rewrite (take_S_r _ _ d), numeral_snoc).
      destruct (_ || _) eqn:Eo.
      * apply wp_ret. split; [done|]. destruct (decide (numeral base ds <= ULONG_MAX)) as [Hfit|]; [exfalso|eauto].
        assert (numeral base (take (S k) ds) <= numeral base ds).
        { rewrite <- (take_drop (S k) ds) at 2. apply numeral_mono; [done|by rewrite take_drop]. }
        pose proof (proj1 Hcut eq_refl) as Hov. lia.
      * assert (Hok : numeral base (take k ds) * base + d <= ULONG_MAX).
        { destruct (Z.le_gt_cases (numeral base (take k ds) * base + d) ULONG_MAX) as [|Hov]; [done|].
          by apply Hcut in Hov. }
        destruct (lookup_lt_is_Some_2 (cs ++ [stop]) (S k)) as [c' Hc'];
          [rewrite length_app; simpl; lia|].
        apply wp_bind, (wp_rd _ c').
        { replace (s + Z.of_nat k) with (s - 1 + Z.of_nat (S k)) by lia. by apply Hm. }
        apply wp_ret. split; [|lia]. split; [done|]. exists (S k).
        assert (u64 (u64 (numeral base (take k ds) * base) + d) = numeral base (take (S k) ds)) as ->.
        { unfold u64, ULONG_MAX in *. rewrite (Z.mod_small (numeral base _ * base)) by nia.
          rewrite Z.mod_small by nia. lia. }
        split_and!; try done; try lia.
  - split; [done|]. exists 0%nat. rewrite take_0. unfold numeral, ULONG_MAX. simpl.
    split_and!; try done; lia.
  - lia.
Qed.

(** [cs] are digit characters of [base] with values [ds]. *)
Definition digits_of (base : Z) (cs ds : list Z) : Prop :=
  length cs = length ds /\ forall k c d, cs !! k = Some c -> ds !! k = Some d ->
    digit_value c = Some d /\ 0 <= d < base.

Lemma digit_plain c d : digit_value c = Some d -> is_space c = false /\ c <> 45 /\ c <> 43.
Proof.
  unfold digit_value, is_space.
  destruct ((48 <=? c) && (c <=? 57)) eqn:E1; [intros _; split_and!; lia|].
  destruct ((97 <=? c) && (c <=? 122)) eqn:E2; [intros _; split_and!; lia|].
  destruct ((65 <=? c) && (c <=? 90)) eqn:E3; [intros _; split_and!; lia|done].
Qed.

Lemma strtoul_digits_run m p base cs ds :
  2 <= base <= 36 -> digits_of base cs ds -> cs <> [] -> cstr m p cs ->
  Z.of_nat (length cs) < 2 ^ 62 ->
  bmk_strtoul p base m =
    Done (if decide (numeral base ds <= ULONG_MAX)
          then (numeral base ds, p + Z.of_nat (length cs)) else (ULONG_MAX, p), m).
Proof.
  intros Hb [Hlen Hd] Hne Hs Hsm. pose proof Hs as [Hm _].
  destruct cs as [|c cs]; [done|]. destruct ds as [|d ds]; [done|].
  destruct (Hd 0%nat c d eq_refl eq_refl) as [Hcd Hdb].
  destruct (digit_plain c d Hcd) as (Hsp & Hn1 & Hn2).
  assert (Hc : m !! p = Some c) by (rewrite <- (Z.add_0_r p); by apply (Hm 0%nat)).
  destruct (cstr_lookup m p _ 1 Hs ltac:(simpl; lia)) as (x & Ex & Hxb & _ & Lx).
  change (Z.of_nat 1) with 1 in Ex.
  assert (Hx : base = 16 -> x <> 120 /\ x <> 88).
  { intros ->. simpl in Lx. destruct cs as [|c1 cs]; [injection Lx as <-; lia|].
    injection Lx as <-. destruct ds as [|d1 ds]; [done|].
    destruct (Hd 1%nat c1 d1 eq_refl eq_refl) as [Hv Hv'].
    split; intros ->; vm_compute in Hv; injection Hv as <-; lia. }
  assert (Hw : wp (bmk_strtoul p base) (fun r m' => m' = m /\ r =
    if decide (numeral base (d :: ds) <= ULONG_MAX)
    then (numeral base (d :: ds), p + Z.of_nat (length (c :: cs))) else (ULONG_MAX, p)) m).
  { unfold bmk_strtoul. apply wp_bind, wp_assert; [lia|].
    apply wp_bind. apply (wp_mono _ (fun r m' => r = (c, p + 1) /\ m' = m)).
    { unfold skip_space. apply (wp_loop _ (fun s m' => s = p /\ m' = m) (fun _ _ => 0)); [|done|lia].
      intros s m' [-> ->]. split; [lia|]. apply wp_bind, (wp_rd _ c); [done|]. rewrite Hsp. by apply wp_ret. }
    intros [c' s'] m' [[= -> ->] ->].
    apply wp_bind. destruct (Z.eqb_spec c 45); [done|]. destruct (Z.eqb_spec c 43); [done|].
    apply wp_ret, wp_bind. eapply (wp_mono _ (fun r m' => r = (c, p + 1, base) /\ m' = m)).
    { destruct (((base =? 0) || (base =? 16)) && (c =? 48)) eqn:E; [|by apply wp_ret].
      apply wp_bind, (wp_rd _ x); [done|].
      destruct (Z.eqb_spec x 120), (Z.eqb_spec x 88); simpl; try lia. by apply wp_ret. }
    intros [[c' s'] b'] m' [[= -> -> ->] ->]. destruct (Z.eqb_spec base 0); [lia|].
    apply wp_bind. eapply wp_mono.
    { apply (wp_accumulate m base (p + 1) (c :: cs) (d :: ds) 0 c); try done; try lia.
      by rewrite Z.add_simpl_r. }
    intros [[acc any] s'] m' [-> H]. apply wp_ret. split; [done|].
    destruct (decide (numeral base (d :: ds) <= ULONG_MAX)).
    - injection H as -> -> ->. destruct (decide (d :: ds = [])); [done|]. simpl. f_equal. lia.
    - destruct H as [s'' [= -> -> ->]]. done. }
  destruct (wp_run _ _ _ Hw) as (r & m' & -> & -> & ->). done.
Qed.

(** [bmk_strtoul] in a given base: on a NUL-terminated string of digits of
    that base it returns the number they denote and the end of the string when
    it fits an unsigned long, and ULONG_MAX when it does not, in which case (as
    the code resets [any]) the end pointer is the start of the string. *)
Theorem strtoul_digits m p base cs ds :
  2 <= base <= 36 -> digits_of base cs ds -> cs <> [] -> cstr m p cs ->
  Z.of_nat (length cs) < 2 ^ 62 ->
  bmk_strtoul p base m =
    Done (if decide (numeral base ds <= ULONG_MAX)
          then (numeral base ds, p + Z.of_nat (length cs)) else (ULONG_MAX, p), m).
Proof. exact (strtoul_digits_run m p base cs ds). Qed.

Definition strtoul_example : gmap Z Z := list_to_mem 100 [50; 48; 57; 0].

Lemma strtoul_digits_witness : bmk_strtoul 100 10 strtoul_example = Done ((209, 103), strtoul_example).
Proof.
  apply (strtoul_digits strtoul_example 100 10 [50; 48; 57] [2; 0; 9]); [lia| |done| |simpl; lia].
  - split; [done|]. intros k x d Hx Hd.
    do 3 (destruct k as [|k]; [injection Hx as <-; injection Hd as <-; vm_compute; split; [|split]; congruence|]).
    done.
  - split; [|repeat constructor; lia]. intros i b Hi.
    do 4 (destruct i as [|i]; [injection Hi as <-; vm_compute; reflexivity|]). done.
Defined.
