(* ===== verification/Kprintf.v ===== *)
(** * Formatted output (lib/libbmk_core/subr_prf.c)

    The format and the strings it prints are byte lists ending in NUL, the
    variable arguments a list of typed words: an int is its 32-bit pattern, a
    long its 64-bit pattern, a pointer to text the bytes it points to.  Reading
    past a string or taking an argument of another type is a fault, as is
    overflow of an int computed from the format. *)

From S2P Require Import Prelude.

Definition KPRINTF_BUFSIZE : Z := 8 * 8 / 3 + 2.
Definition BMK_DMESG_SIZE : Z := 16 * 1024.

Inductive varg := VInt (n : Z) | VLong (n : Z) | VStr (s : option (list Z)) | VPtr (p : Z).

(** Where the characters go: the caller's buffer (NULL or its bytes) with the
    write position and the tail, or the console with its dmesg ring. *)
Inductive sink :=
| ToBuf (bf : option (list Z)) (pos tail : Z)
| ToCons (dmesg : list Z) (dmesgoff : Z) (out : list Z).
Record kst := KSt {
  ks_args : list varg;
  ks_ret : Z;
  ks_sink : sink;
  ks_stores : list (Z * Z * Z)        (* stores of %n: pointer, bytes, value *)
}.
Definition set_args v s := KSt v (ks_ret s) (ks_sink s) (ks_stores s).
Definition set_ret v s := KSt (ks_args s) v (ks_sink s) (ks_stores s).
Definition set_sink v s := KSt (ks_args s) (ks_ret s) v (ks_stores s).
Definition add_store x s := KSt (ks_args s) (ks_ret s) (ks_sink s) (ks_stores s ++ [x]).

(** [cons_putchar]. *)
Definition cons_putchar (c : Z) (dmesg : list Z) (off : Z) (out : list Z) : res sink :=
  match dmesg !! Z.to_nat off with
  | None => Halted "bmk_dmesg index"
  | Some _ => Done (ToCons (<[Z.to_nat off := u8 c]> dmesg) (if off + 1 =? BMK_DMESG_SIZE - 1 then 0 else off + 1) (out ++ [c]))
  end.
(** [KPRINTF_PUTCHAR]. *)
Definition sink_put (c : Z) (k : sink) : res sink :=
  match k with
  | ToBuf None _ _ => Done k
  | ToBuf (Some bf) pos tail =>
      if pos <? tail then
        match bf !! Z.to_nat pos with
        | None => Halted "sbuf index"
        | Some _ => Done (ToBuf (Some (<[Z.to_nat pos := u8 c]> bf)) (pos + 1) tail)
        end
      else Done k
  | ToCons dmesg off out => cons_putchar c dmesg off out
  end.
Definition putc (c : Z) : M kst unit := fun s =>
  match sink_put c (ks_sink s) with Done k => Done (tt, set_sink k s) | Halted w => Halted w | NoFuel => NoFuel end.
(** [while (n-- > 0) KPRINTF_PUTCHAR(c)]. *)
Definition putn (c n : Z) : M kst unit := mfor (fun _ => putc c) (seqZ 0 n).

(** [ret += n]. *)
Definition ret_add (n : Z) : M kst unit :=
  r <-- gets ks_ret ;; massert (r + n <? 2 ^ 31) "int overflow" ;;; modify (set_ret (r + n)).

(** ** Arguments *)
Definition va_arg : M kst varg :=
  l <-- gets ks_args ;;
  match l with [] => mhalt "va_arg" | a :: l => modify (set_args l) ;;; cret a end.
Definition va_int : M kst Z := a <-- va_arg ;; match a with VInt n => cret (u32 n) | _ => mhalt "va_arg type" end.
Definition va_long : M kst Z := a <-- va_arg ;; match a with VLong n => cret (u64 n) | _ => mhalt "va_arg type" end.
Definition va_ptr : M kst Z := a <-- va_arg ;; match a with VPtr p => cret (u64 p) | _ => mhalt "va_arg type" end.
Definition va_str : M kst (option (list Z)) := a <-- va_arg ;; match a with VStr s => cret s | _ => mhalt "va_arg type" end.

(** ** Conversion specifications *)
Record kspec := KSpec {
  ALT : bool; HEXPREFIX : bool; LADJUST : bool; LONGINT : bool; QUADINT : bool;
  SHORTINT : bool; MAXINT : bool; PTRINT : bool; SIZEINT : bool; ZEROPAD : bool;
  k_width : Z; k_prec : Z; k_sign : Z
}.
Definition spec0 : kspec := KSpec false false false false false false false false false false 0 (-1) 0.
Definition or_alt p := KSpec true (HEXPREFIX p) (LADJUST p) (LONGINT p) (QUADINT p) (SHORTINT p) (MAXINT p) (PTRINT p) (SIZEINT p) (ZEROPAD p) (k_width p) (k_prec p) (k_sign p).
Definition or_hexprefix p := KSpec (ALT p) true (LADJUST p) (LONGINT p) (QUADINT p) (SHORTINT p) (MAXINT p) (PTRINT p) (SIZEINT p) (ZEROPAD p) (k_width p) (k_prec p) (k_sign p).
Definition or_ladjust p := KSpec (ALT p) (HEXPREFIX p) true (LONGINT p) (QUADINT p) (SHORTINT p) (MAXINT p) (PTRINT p) (SIZEINT p) (ZEROPAD p) (k_width p) (k_prec p) (k_sign p).
Definition or_longint p := KSpec (ALT p) (HEXPREFIX p) (LADJUST p) true (QUADINT p) (SHORTINT p) (MAXINT p) (PTRINT p) (SIZEINT p) (ZEROPAD p) (k_width p) (k_prec p) (k_sign p).
Definition or_quadint p := KSpec (ALT p) (HEXPREFIX p) (LADJUST p) (LONGINT p) true (SHORTINT p) (MAXINT p) (PTRINT p) (SIZEINT p) (ZEROPAD p) (k_width p) (k_prec p) (k_sign p).
Definition or_shortint p := KSpec (ALT p) (HEXPREFIX p) (LADJUST p) (LONGINT p) (QUADINT p) true (MAXINT p) (PTRINT p) (SIZEINT p) (ZEROPAD p) (k_width p) (k_prec p) (k_sign p).
Definition or_maxint p := KSpec (ALT p) (HEXPREFIX p) (LADJUST p) (LONGINT p) (QUADINT p) (SHORTINT p) true (PTRINT p) (SIZEINT p) (ZEROPAD p) (k_width p) (k_prec p) (k_sign p).
Definition or_ptrint p := KSpec (ALT p) (HEXPREFIX p) (LADJUST p) (LONGINT p) (QUADINT p) (SHORTINT p) (MAXINT p) true (SIZEINT p) (ZEROPAD p) (k_width p) (k_prec p) (k_sign p).
Definition or_sizeint p := KSpec (ALT p) (HEXPREFIX p) (LADJUST p) (LONGINT p) (QUADINT p) (SHORTINT p) (MAXINT p) (PTRINT p) true (ZEROPAD p) (k_width p) (k_prec p) (k_sign p).
Definition set_zeropad b p := KSpec (ALT p) (HEXPREFIX p) (LADJUST p) (LONGINT p) (QUADINT p) (SHORTINT p) (MAXINT p) (PTRINT p) (SIZEINT p) b (k_width p) (k_prec p) (k_sign p).
Definition set_width n p := KSpec (ALT p) (HEXPREFIX p) (LADJUST p) (LONGINT p) (QUADINT p) (SHORTINT p) (MAXINT p) (PTRINT p) (SIZEINT p) (ZEROPAD p) n (k_prec p) (k_sign p).
Definition set_prec n p := KSpec (ALT p) (HEXPREFIX p) (LADJUST p) (LONGINT p) (QUADINT p) (SHORTINT p) (MAXINT p) (PTRINT p) (SIZEINT p) (ZEROPAD p) (k_width p) n (k_sign p).
Definition set_sign c p := KSpec (ALT p) (HEXPREFIX p) (LADJUST p) (LONGINT p) (QUADINT p) (SHORTINT p) (MAXINT p) (PTRINT p) (SIZEINT p) (ZEROPAD p) (k_width p) (k_prec p) c.

Definition is_digit (c : Z) : bool := (48 <=? c) && (c <=? 57).
Definition int_digit {St} (n c : Z) : M St Z :=
  massert (10 * n + (c - 48) <? 2 ^ 31) "int overflow" ;;; cret (10 * n + (c - 48)).

(** Inside a run of digits for the precision or the width. *)
Inductive kmode := KFlag | KPrec (n : Z) | KWidth (n : Z).
Definition mode_done (m : kmode) (p : kspec) : kspec :=
  match m with KFlag => p | KPrec n => set_prec n p | KWidth n => set_width n p end.

(** From [rflag] to the conversion character: that character, the rest of the
    format, and what the flags, width, precision and length modifiers say. *)
Fixpoint scan (m : kmode) (fmt : list Z) (p : kspec) : M kst (Z * list Z * kspec) :=
  match fmt with
  | [] => mhalt "read past the format"
  | ch :: fmt =>
    let switch p :=
      if ch =? 32 then scan KFlag fmt (if k_sign p =? 0 then set_sign 32 p else p)      (* space *)
      else if ch =? 35 then scan KFlag fmt (or_alt p)                                   (* # *)
      else if ch =? 42 then                                                             (* * *)
        w <-- va_int ;;
        if 0 <=? s32 w then scan KFlag fmt (set_width (s32 w) p)
        else massert (negb (s32 w =? - 2 ^ 31)) "int overflow" ;;;
             scan KFlag fmt (or_ladjust (set_width (- s32 w) p))
      else if ch =? 45 then scan KFlag fmt (or_ladjust p)                               (* - *)
      else if ch =? 43 then scan KFlag fmt (set_sign 43 p)                              (* + *)
      else if ch =? 46 then                                                             (* . *)
        match fmt with
        | 42 :: fmt => n <-- va_int ;; scan KFlag fmt (set_prec (if s32 n <? 0 then -1 else s32 n) p)
        | _ => scan (KPrec 0) fmt p
        end
      else if ch =? 48 then scan KFlag fmt (set_zeropad true p)                         (* 0 *)
      else if (49 <=? ch) && (ch <=? 57) then scan (KWidth (ch - 48)) fmt p             (* 1-9 *)
      else if ch =? 104 then scan KFlag fmt (or_shortint p)                             (* h *)
      else if ch =? 106 then scan KFlag fmt (or_maxint p)                               (* j *)
      else if ch =? 108 then                                                            (* l *)
        match fmt with
        | 108 :: fmt => scan KFlag fmt (or_quadint p)
        | _ => scan KFlag fmt (or_longint p)
        end
      else if ch =? 113 then scan KFlag fmt (or_quadint p)                              (* q *)
      else if ch =? 116 then scan KFlag fmt (or_ptrint p)                               (* t *)
      else if ch =? 122 then scan KFlag fmt (or_sizeint p)                              (* z *)
      else cret (ch, fmt, p) in
    match m with
    | KPrec n => if is_digit ch then n <-- int_digit n ch ;; scan (KPrec n) fmt p else switch (set_prec n p)
    | KWidth n => if is_digit ch then n <-- int_digit n ch ;; scan (KWidth n) fmt p else switch (set_width n p)
    | KFlag => switch p
    end
  end.

(** ** Conversions *)
Definition long_arg (p : kspec) : bool := MAXINT p || PTRINT p || SIZEINT p || QUADINT p || LONGINT p.
Definition SARG (p : kspec) : M kst Z :=
  if long_arg p then n <-- va_long ;; cret (s64 n)
  else n <-- va_int ;; cret (if SHORTINT p then swrap 16 n else s32 n).
Definition UARG (p : kspec) : M kst Z :=
  if long_arg p then va_long
  else n <-- va_int ;; cret (if SHORTINT p then u64 (s32 n) else n).

(** The digits of the three bases, stored downwards from the end of [bf]. *)
Definition store_digit (c : Z) (cp : list Z) : M kst (list Z) :=
  massert (Z.of_nat (length cp) <? KPRINTF_BUFSIZE) "bf index" ;;; cret (c :: cp).
Definition to_char (n : Z) : Z := n + 48.
Inductive kbase := OCT | DEC | HEX.
Definition hexdigits : list Z := [48; 49; 50; 51; 52; 53; 54; 55; 56; 57; 97; 98; 99; 100; 101; 102].
Definition HEXDIGITS : list Z := [48; 49; 50; 51; 52; 53; 54; 55; 56; 57; 65; 66; 67; 68; 69; 70].

Definition digits (base : kbase) (xdigs : list Z) (alt : bool) (uquad : Z) : M kst (list Z) :=
  match base with
  | OCT =>
      cp <-- loopM (fun '(q, cp) =>
        cp <-- store_digit (to_char (Z.land q 7)) cp ;;
        let q := Z.shiftr q 3 in
        cret (if q =? 0 then inr cp else inl (q, cp))) (uquad, []) ;;
      if alt && negb (hd 0 cp =? 48) then store_digit 48 cp else cret cp
  | DEC =>
      '(q, cp) <-- loopM (fun '(q, cp) =>
        if 10 <=? q then cp <-- store_digit (to_char (q mod 10)) cp ;; cret (inl (q / 10, cp))
        else cret (inr (q, cp))) (uquad, []) ;;
      store_digit (to_char q) cp
  | HEX =>
      loopM (fun '(q, cp) =>
        c <-- mopt (xdigs !! Z.to_nat (Z.land q 15)) "xdigs index" ;;
        cp <-- store_digit c cp ;;
        let q := Z.shiftr q 4 in
        cret (if q =? 0 then inr cp else inl (q, cp))) (uquad, [])
  end.

(** A field ready to be laid out: its characters, and [dprec]. *)
Definition number (base : kbase) (xdigs : list Z) (p : kspec) (uquad : Z) : M kst (list Z * Z * kspec) :=
  let p' := if 0 <=? k_prec p then set_zeropad false p else p in
  cp <-- (if negb (uquad =? 0) || negb (k_prec p =? 0) then digits base xdigs (ALT p) uquad else cret []) ;;
  cret (cp, k_prec p, p').
Definition nosign (base : kbase) (xdigs : list Z) (p : kspec) (uquad : Z) : M kst (list Z * Z * kspec) :=
  number base xdigs (set_sign 0 p) uquad.
Definition hex (xdigs : list Z) (p : kspec) : M kst (list Z * Z * kspec) :=
  q <-- UARG p ;;
  nosign HEX xdigs (if ALT p && negb (q =? 0) then or_hexprefix p else p) q.

(** [bmk_strlen], and [bmk_memchr] for the NUL in the first [n] bytes. *)
Fixpoint str_len (l : list Z) : M kst (list Z) :=
  match l with
  | [] => mhalt "read past the string"
  | c :: l => if c =? 0 then cret [] else r <-- str_len l ;; cret (c :: r)
  end.
Fixpoint str_prefix (n : nat) (l : list Z) : M kst (list Z) :=
  match n, l with
  | O, _ => cret []
  | S _, [] => mhalt "read past the string"
  | S n, c :: l => if c =? 0 then cret [] else r <-- str_prefix n l ;; cret (c :: r)
  end.
Definition null_text : list Z := [40; 110; 117; 108; 108; 41; 0].     (* (null) *)

(** The switch on the conversion character: [None] for %n, which prints
    nothing; otherwise the field, the specification and the character of the
    hexadecimal prefix. *)
Definition convert (ch : Z) (p : kspec) : M kst (option (list Z * Z * kspec * Z)) :=
  let some r := cret (let '(cp, dprec, p) := r in Some (cp, dprec, p, ch)) in
  let decimal p :=
    n <-- SARG p ;;
    r <-- (if n <? 0 then number DEC hexdigits (set_sign 45 p) (u64 (- u64 n)) else number DEC hexdigits p (u64 n)) ;;
    some r in
  let octal p := n <-- UARG p ;; r <-- nosign OCT hexdigits p n ;; some r in
  let udecimal p := n <-- UARG p ;; r <-- nosign DEC hexdigits p n ;; some r in
  if ch =? 99 then n <-- va_int ;; cret (Some ([u8 n], 0, set_sign 0 p, ch))            (* c *)
  else if ch =? 68 then decimal (or_longint p)                                          (* D *)
  else if (ch =? 100) || (ch =? 105) then decimal p                                     (* d i *)
  else if ch =? 110 then                                                                (* n *)
    a <-- va_ptr ;;
    r <-- gets ks_ret ;;
    modify (add_store (a, if long_arg p then 8 else if SHORTINT p then 2 else 4, r)) ;;;
    cret None
  else if ch =? 79 then octal (or_longint p)                                            (* O *)
  else if ch =? 111 then octal p                                                        (* o *)
  else if ch =? 112 then                                                                (* p *)
    a <-- va_ptr ;;
    '(cp, dprec, p) <-- nosign HEX hexdigits (or_hexprefix p) a ;;
    cret (Some (cp, dprec, p, 120))
  else if ch =? 115 then                                                                (* s *)
    a <-- va_str ;;
    let text := match a with Some l => l | None => null_text end in
    cp <-- (if 0 <=? k_prec p then str_prefix (Z.to_nat (k_prec p)) text else str_len text) ;;
    cret (Some (cp, 0, set_sign 0 p, ch))
  else if ch =? 85 then udecimal (or_longint p)                                         (* U *)
  else if ch =? 117 then udecimal p                                                     (* u *)
  else if ch =? 88 then r <-- hex HEXDIGITS p ;; some r                                 (* X *)
  else if ch =? 120 then r <-- hex hexdigits p ;; some r                                (* x *)
  else cret (Some ([u8 ch], 0, set_sign 0 p, ch)).

(** Padding, prefix, zeroes and the field itself. *)
Definition emit (cp : list Z) (dprec : Z) (p : kspec) (ch : Z) : M kst unit :=
  let size := Z.of_nat (length cp) in
  let realsz := (if size <? dprec then dprec else size) +
                (if negb (k_sign p =? 0) then 1 else if HEXPREFIX p then 2 else 0) in
  massert (realsz <? 2 ^ 31) "int overflow" ;;;
  ret_add (if realsz <? k_width p then k_width p else realsz) ;;;
  (if negb (LADJUST p || ZEROPAD p) then putn 32 (k_width p - realsz) else cret tt) ;;;
  (if negb (k_sign p =? 0) then putc (k_sign p)
   else if HEXPREFIX p then putc 48 ;;; putc ch else cret tt) ;;;
  (if negb (LADJUST p) && ZEROPAD p then putn 48 (k_width p - realsz) else cret tt) ;;;
  putn 48 (dprec - size) ;;;
  mfor putc cp ;;;
  (if LADJUST p then putn 32 (k_width p - realsz) else cret tt).

(** Characters up to the next percent sign or the end: what is left. *)
Fixpoint plain (fmt : list Z) : M kst (list Z) :=
  match fmt with
  | [] => mhalt "read past the format"
  | c :: rest =>
      if (c =? 37) || (c =? 0) then cret fmt else ret_add 1 ;;; putc c ;;; plain rest
  end.

Definition kprintf (fmt0 : list Z) : M kst Z :=
  loopM (fun fmt =>
    fmt <-- plain fmt ;;
    match fmt with
    | [] => mhalt "read past the format"
    | c :: fmt =>
        if c =? 0 then r <-- gets ks_ret ;; cret (inr r) else
        '(ch, fmt, p) <-- scan KFlag fmt spec0 ;;
        if ch =? 0 then r <-- gets ks_ret ;; cret (inr r) else
        r <-- convert ch p ;;
        match r with
        | None => cret (inl fmt)
        | Some (cp, dprec, p, ch) => emit cp dprec p ch ;;; cret (inl fmt)
        end
    end) fmt0.

(** ** The callers *)

(** [bmk_vsnprintf]: the return value and the buffer. *)
Definition bmk_vsnprintf (bf : option (list Z)) (size : Z) (fmt : list Z) (ap : list varg) : res (Z * option (list Z)) :=
  match kprintf fmt (KSt ap 0 (ToBuf bf 0 size) []) with
  | Done (retval, s) =>
      match ks_sink s with
      | ToBuf (Some bf) _ _ =>
          if 0 <? size then
            let i := if size <=? u64 retval then size - 1 else u64 retval in
            match bf !! Z.to_nat i with
            | None => Halted "bf index"
            | Some _ => Done (retval, Some (<[Z.to_nat i := 0]> bf))
            end
          else Done (retval, Some bf)
      | _ => Done (retval, None)
      end
  | Halted w => Halted w
  | NoFuel => NoFuel
  end.
Definition bmk_snprintf (bf : option (list Z)) (size : Z) (fmt : list Z) (ap : list varg) : res (Z * option (list Z)) :=
  bmk_vsnprintf bf size fmt ap.

(** The console: its lock, the dmesg ring, and what was printed. *)
Record console := Console { co_lock : bool; co_dmesg : list Z; co_off : Z; co_out : list Z }.
Definition bmk_vprintf (fmt : list Z) (ap : list varg) : M console unit := fun c =>
  if co_lock c then NoFuel else
  match kprintf fmt (KSt ap 0 (ToCons (co_dmesg c) (co_off c) (co_out c)) []) with
  | Done (_, s) =>
      match ks_sink s with
      | ToCons dmesg off out => Done (tt, Console false dmesg off out)
      | _ => Done (tt, c)
      end
  | Halted w => Halted w
  | NoFuel => NoFuel
  end.
Definition bmk_printf (fmt : list Z) (ap : list varg) : M console unit := bmk_vprintf fmt ap.
