(* ===== verification/KprintfThms.v ===== *)
(** * Lemmas on formatted output

    What a piece of [kprintf] prints does not depend on where it prints to:
    [out m P] says so of [m], and that the text [t] it prints and the change [d]
    of the count satisfy [P t d]. *)

From S2P Require Import Prelude Kprintf.
#[local] Transparent loopM.

Fixpoint puts (t : list Z) (k : sink) : res sink :=
  match t with
  | [] => Done k
  | c :: t => match sink_put c k with Done k => puts t k | Halted w => Halted w | NoFuel => NoFuel end
  end.
Lemma puts_app t u k k1 : puts t k = Done k1 -> puts (t ++ u) k = puts u k1.
Proof.
  revert k. induction t as [|c t IH]; intros k; simpl; [by intros [= ->]|].
  destruct (sink_put c k); try done. apply IH.
Qed.
Lemma puts_app_inv t u k k2 : puts (t ++ u) k = Done k2 -> exists k1, puts t k = Done k1 /\ puts u k1 = Done k2.
Proof.
  revert k. induction t as [|c t IH]; intros k; simpl; [eauto|]. destruct (sink_put c k); try done. apply IH.
Qed.

Definition out {A} (P : list Z -> Z -> Prop) (m : M kst A) : Prop := forall s a s', m s = Done (a, s') ->
  exists t, puts t (ks_sink s) = Done (ks_sink s') /\
    (forall k k', puts t k = Done k' -> m (set_sink k s) = Done (a, set_sink k' s')) /\
    P t (ks_ret s' - ks_ret s).
(** Prints exactly [t], counting nothing; prints what it counts. *)
Abbreviation says t := (out (fun u d => u = t /\ d = 0)).
Abbreviation quiet := (says []).
Abbreviation counts := (out (fun t d => d = Z.of_nat (length t))).

Lemma out_ext {A} P (m m' : M kst A) : (forall s, m s = m' s) -> out P m -> out P m'.
Proof.
  intros E Hm s a s' H. rewrite <- E in H. destruct (Hm s a s' H) as (t & H1 & H2 & H3). exists t.
  split_and!; [done| |done]. intros k k' Hk. rewrite <- E. by apply H2.
Qed.
Lemma cbind_assoc {A B C} (m : M kst A) (k : A -> M kst B) (h : B -> M kst C) s :
  (x <-- (y <-- m ;; k y) ;; h x) s = (y <-- m ;; x <-- k y ;; h x) s.
Proof. unfold cbind. by destruct (m s) as [[a s1]| |]. Qed.
Lemma out_mono {A} (P Q : list Z -> Z -> Prop) (m : M kst A) : (forall t d, P t d -> Q t d) -> out P m -> out Q m.
Proof. intros HPQ Hm s a s' H. destruct (Hm s a s' H) as (t & H1 & H2 & H3). exists t. auto. Qed.
Lemma out_bind {A B} (P Q R : list Z -> Z -> Prop) (m : M kst A) (k : A -> M kst B) :
  out P m -> (forall a, out Q (k a)) -> (forall t d t' d', P t d -> Q t' d' -> R (t ++ t') (d + d')) -> out R (cbind m k).
Proof.
  intros Hm Hk HR s b s' H. unfold cbind in H. destruct (m s) as [[a s1]| |] eqn:E; try done.
  destruct (Hm s a s1 E) as (t1 & P1 & K1 & D1), (Hk a s1 b s' H) as (t2 & P2 & K2 & D2).
  exists (t1 ++ t2). split_and!.
  - by rewrite (puts_app _ _ _ _ P1).
  - intros k0 k' Hp. apply puts_app_inv in Hp as (k1 & Hp1 & Hp2). unfold cbind.
    rewrite (K1 k0 k1 Hp1). by apply K2.
  - replace (ks_ret s' - ks_ret s) with (ks_ret s1 - ks_ret s + (ks_ret s' - ks_ret s1)) by lia. by apply HR.
Qed.
Lemma out_pure {A} (m : M kst A) : (forall s a s', m s = Done (a, s') -> ks_sink s' = ks_sink s /\ ks_ret s' = ks_ret s /\
  forall k, m (set_sink k s) = Done (a, set_sink k s')) -> quiet m.
Proof.
  intros Hm s a s' H. destruct (Hm s a s' H) as (H1 & H2 & H3). exists []. simpl. split_and!; try done; [by rewrite H1| |lia].
  intros k k' [= <-]. apply H3.
Qed.
Lemma quiet_ret {A} (a : A) : quiet (cret a).
Proof. apply out_pure. intros s b s' [= <- <-]. done. Qed.
Lemma quiet_halt {A} w : quiet (mhalt (A := A) w).
Proof. by apply out_pure. Qed.
Lemma quiet_assert b w : quiet (massert b w).
Proof. destruct b; [apply quiet_ret|apply quiet_halt]. Qed.
Lemma quiet_opt {A} (o : option A) w : quiet (mopt o w).
Proof. destruct o; [apply quiet_ret|apply quiet_halt]. Qed.
Lemma quiet_args : quiet (gets ks_args).
Proof. apply out_pure. intros s b s' [= <- <-]. done. Qed.
Lemma quiet_gret : quiet (gets ks_ret).
Proof. apply out_pure. intros s b s' [= <- <-]. done. Qed.
Lemma quiet_set_args l : quiet (modify (set_args l)).
Proof. apply out_pure. intros s b s' [= <- <-]. done. Qed.
Lemma quiet_store x : quiet (modify (add_store x)).
Proof. apply out_pure. intros s b s' [= <- <-]. done. Qed.
Lemma quiet_bind {A B} (m : M kst A) (k : A -> M kst B) : quiet m -> (forall a, quiet (k a)) -> quiet (cbind m k).
Proof. intros Hm Hk. eapply out_bind; [exact Hm|exact Hk|]. by intros t d t' d' [-> ->] [-> ->]. Qed.

(** Loops, for a [P] that adds up. *)
Lemma out_iter {L R} (P : list Z -> Z -> Prop) n (body : L -> M kst (L + R)) l :
  P [] 0 -> (forall t d t' d', P t d -> P t' d' -> P (t ++ t') (d + d')) ->
  (forall l, out P (body l)) -> out P (iterM n body l).
Proof.
  intros P0 Padd Hb. revert l. induction n as [|n IH]; intros l; [apply Hb|]. cbn [iterM].
  eapply out_bind; [apply IH| |exact Padd]. intros [l'|r]; [apply IH|].
  eapply out_mono; [|apply quiet_ret]. by intros t d [-> ->].
Qed.
Lemma out_loop {L R} (P : list Z -> Z -> Prop) (body : L -> M kst (L + R)) l :
  P [] 0 -> (forall t d t' d', P t d -> P t' d' -> P (t ++ t') (d + d')) ->
  (forall l, out P (body l)) -> out P (loopM body l).
Proof.
  intros P0 Padd Hb. eapply out_bind; [by apply out_iter| |exact Padd].
  intros [l'|r]; [done|]. eapply out_mono; [|apply quiet_ret]. by intros t d [-> ->].
Qed.
Lemma quiet_loop {L R} (body : L -> M kst (L + R)) l : (forall l, quiet (body l)) -> quiet (loopM body l).
Proof. apply out_loop; [done|]. by intros t d t' d' [-> ->] [-> ->]. Qed.

Ltac quiet_step := first
  [ apply quiet_ret | apply quiet_halt | apply quiet_assert | apply quiet_opt | apply quiet_args | apply quiet_gret
  | apply quiet_set_args | apply quiet_store | apply quiet_loop; intros ? | apply quiet_bind; [|intros ?] | case_match ].
Ltac quiet_auto := repeat quiet_step.

(** ** The pieces of kprintf *)
Lemma quiet_va_int : quiet va_int.
Proof. unfold va_int, va_arg. quiet_auto. Qed.
Lemma quiet_va_long : quiet va_long.
Proof. unfold va_long, va_arg. quiet_auto. Qed.
Lemma quiet_va_ptr : quiet va_ptr.
Proof. unfold va_ptr, va_arg. quiet_auto. Qed.
Lemma quiet_va_str : quiet va_str.
Proof. unfold va_str, va_arg. quiet_auto. Qed.
Ltac quiet_auto ::= repeat first [apply quiet_va_int | apply quiet_va_long | apply quiet_va_ptr | apply quiet_va_str | quiet_step].

Lemma quiet_int_digit n c : quiet (int_digit n c).
Proof. unfold int_digit. quiet_auto. Qed.
Lemma quiet_scan m fmt p : quiet (scan m fmt p).
Proof.
  remember (length fmt) as n eqn:Hn. assert (Hle : (length fmt <= n)%nat) by lia. clear Hn.
  revert m fmt p Hle. induction n as [|n IH]; intros m fmt p Hle; (destruct fmt as [|ch fmt]; [apply quiet_halt|]); simpl in Hle; [lia|].
  assert (IH' : forall m p, quiet (scan m fmt p)) by (intros; apply IH; lia).
  cbn [scan].
  destruct m; repeat first [apply IH' | apply IH; simpl in *; lia | apply quiet_va_int | apply quiet_int_digit | quiet_step].
Qed.

Lemma quiet_store_digit c cp : quiet (store_digit c cp).
Proof. unfold store_digit. quiet_auto. Qed.
Lemma quiet_digits base xd alt q : quiet (digits base xd alt q).
Proof. unfold digits. repeat first [apply quiet_store_digit | quiet_step]. Qed.
Lemma quiet_number base xd p q : quiet (number base xd p q).
Proof. unfold number. repeat first [apply quiet_digits | quiet_step]. Qed.
Lemma quiet_UARG p : quiet (UARG p).
Proof. unfold UARG. quiet_auto. Qed.
Lemma quiet_SARG p : quiet (SARG p).
Proof. unfold SARG. quiet_auto. Qed.
Lemma quiet_str_len l : quiet (str_len l).
Proof. induction l as [|c l IH]; cbn [str_len]; repeat first [apply IH | quiet_step]. Qed.
Lemma quiet_str_prefix n l : quiet (str_prefix n l).
Proof. revert l. induction n as [|n IH]; intros [|c l]; cbn [str_prefix]; repeat first [apply IH | quiet_step]. Qed.
Lemma quiet_convert ch p : quiet (convert ch p).
Proof.
  unfold convert, hex, nosign. cbv zeta.
  repeat first [apply quiet_number | apply quiet_UARG | apply quiet_SARG | apply quiet_str_len | apply quiet_str_prefix
    | apply quiet_va_int | apply quiet_va_ptr | apply quiet_va_str | quiet_step].
Qed.

Lemma says_putc c : says [c] (putc c).
Proof.
  intros s a s' H. unfold putc in H. destruct (sink_put c (ks_sink s)) as [k| |] eqn:E; try done.
  injection H as <- <-. exists [c]. simpl. rewrite E. split_and!; [done| |done|lia].
  intros k0 k' Hk. unfold putc. cbn [ks_sink set_sink]. destruct (sink_put c k0); try done. by injection Hk as ->.
Qed.
Lemma says_bind {A B} t u (m : M kst A) (k : A -> M kst B) :
  says t m -> (forall a, says u (k a)) -> says (t ++ u) (cbind m k).
Proof. intros Hm Hk. eapply out_bind; [exact Hm|exact Hk|]. by intros ? ? ? ? [-> ->] [-> ->]. Qed.
Lemma says_for cp : says cp (mfor putc cp).
Proof.
  induction cp as [|c cp IH]; [apply quiet_ret|]. cbn [mfor]. apply (says_bind [c] cp); [apply says_putc|]. by intros [].
Qed.
Lemma says_putn c n : says (replicate (Z.to_nat n) c) (putn c n).
Proof.
  unfold putn. rewrite <- (length_seqZ 0 n). induction (seqZ 0 n) as [|i l IH]; [apply quiet_ret|].
  cbn [mfor length replicate]. apply (says_bind [c]); [apply says_putc|]. by intros [].
Qed.
Lemma says_if {A} (b : bool) t u (m m' : M kst A) : says t m -> says u m' -> says (if b then t else u) (if b then m else m').
Proof. intros H1 H2. destruct b; assumption. Qed.

Lemma ret_add_run n s : ret_add n s = if ks_ret s + n <? 2 ^ 31 then Done (tt, set_ret (ks_ret s + n) s) else Halted "int overflow".
Proof. unfold ret_add, cbind, gets, massert. by destruct (_ <? _). Qed.
(** Counting first and printing as much afterwards. *)
Lemma counts_ret_add n t (m : M kst unit) : Z.of_nat (length t) = n -> says t m -> counts (ret_add n ;;; m).
Proof.
  intros Hn Hm s a s' H. unfold cbind in H. rewrite ret_add_run in H.
  destruct (ks_ret s + n <? 2 ^ 31) eqn:E; [|done].
  destruct (Hm _ _ _ H) as (u & H1 & H2 & -> & H4). exists t. split_and!; [exact H1| |].
  - intros k k' Hk. unfold cbind. rewrite ret_add_run. cbn [ks_ret set_sink]. rewrite E. exact (H2 k k' Hk).
  - cbn [ks_ret set_ret] in H4. lia.
Qed.

Lemma counts_quiet_bind {A B} (m : M kst A) (k : A -> M kst B) : quiet m -> (forall a, counts (k a)) -> counts (cbind m k).
Proof. intros Hm Hk. eapply out_bind; [exact Hm|exact Hk|]. by intros t d t' d' [-> ->] H. Qed.
Lemma counts_bind {A B} (m : M kst A) (k : A -> M kst B) : counts m -> (forall a, counts (k a)) -> counts (cbind m k).
Proof. intros Hm Hk. eapply out_bind; [exact Hm|exact Hk|]. intros t d t' d' H1 H2. cbv beta in *. rewrite length_app. lia. Qed.
Lemma counts_quiet {A} (m : M kst A) : quiet m -> counts m.
Proof. apply out_mono. by intros t d [-> ->]. Qed.

Lemma counts_emit cp dprec p ch : counts (emit cp dprec p ch).
Proof.
  unfold emit. set (size := Z.of_nat (length cp)).
  set (realsz := (if size <? dprec then dprec else size) + _).
  apply counts_quiet_bind; [apply quiet_assert|intros _].
  eapply counts_ret_add; cycle 1.
  { repeat first [apply says_if | apply says_putc | apply says_putn | apply says_for | apply quiet_ret | (eapply says_bind; [|intros _])]. }
  cbn [app length].
  rewrite !length_app. destruct (LADJUST p), (ZEROPAD p); cbn [orb andb negb];
    repeat match goal with |- context [length (if ?b then _ else _)] => destruct b eqn:? end;
    rewrite ?length_app, ?length_replicate; cbn [length app]; unfold realsz, size in *;
    repeat match goal with |- context [if ?b then _ else _] => destruct b eqn:? end; lia.
Qed.

Lemma counts_plain fmt : counts (plain fmt).
Proof.
  induction fmt as [|c fmt IH]; [apply counts_quiet, quiet_halt|]. cbn [plain].
  destruct (_ || _); [apply counts_quiet, quiet_ret|].
  apply (out_ext _ ((ret_add 1 ;;; putc c) ;;; plain fmt)); [intros s; apply cbind_assoc|].
  apply counts_bind; [by apply (counts_ret_add 1 [c]); [|apply says_putc]|by intros _].
Qed.

Lemma counts_kprintf fmt : counts (kprintf fmt).
Proof.
  apply out_loop; [done|intros t d t' d' H1 H2; rewrite length_app; lia|]. clear fmt. intros fmt.
  apply counts_bind; [apply counts_plain|]. intros [|c rest]; [apply counts_quiet, quiet_halt|].
  destruct (c =? 0); [apply counts_quiet; quiet_auto|].
  apply counts_quiet_bind; [apply quiet_scan|]. intros [[ch fmt'] p].
  destruct (ch =? 0); [apply counts_quiet; quiet_auto|].
  apply counts_quiet_bind; [apply quiet_convert|]. intros [[[[cp dprec] p'] ch']|]; [|apply counts_quiet, quiet_ret].
  apply counts_bind; [apply counts_emit|]. intros _. apply counts_quiet, quiet_ret.
Qed.

(** The value returned is the count. *)
Definition leaves {A} (Q : A -> kst -> Prop) (m : M kst A) : Prop := forall s a s', m s = Done (a, s') -> Q a s'.
Lemma leaves_bind {A B} (Q : B -> kst -> Prop) (m : M kst A) k : (forall a, leaves Q (k a)) -> leaves Q (cbind m k).
Proof. intros Hk s b s' H. unfold cbind in H. destruct (m s) as [[a s1]| |]; try done. by eapply Hk. Qed.
Lemma leaves_loop {L R} (Q : R -> kst -> Prop) (body : L -> M kst (L + R)) l :
  (forall l, leaves (fun r s => match r with inl _ => True | inr x => Q x s end) (body l)) -> leaves Q (loopM body l).
Proof.
  intros Hb. assert (Hi : forall n l, leaves (fun r s => match r with inl _ => True | inr x => Q x s end) (iterM n body l)).
  { induction n as [|n IH]; intros l'; [apply Hb|]. cbn [iterM]. intros s r s' H. unfold cbind in H.
    destruct (iterM n body l' s) as [[[l1|x] s1]| |] eqn:E; try done; [by eapply IH|].
    injection H as <- <-. exact (IH l' s _ _ E). }
  intros s x s'. unfold loopM, cbind. generalize (Hi 64%nat l s). generalize (iterM 64 body l s).
  intros [[[l1|y] s1]| |] HE H; try done. injection H as <- <-. exact (HE (inr y) s1 eq_refl).
Qed.
Lemma kprintf_returns fmt s r s' : kprintf fmt s = Done (r, s') -> r = ks_ret s'.
Proof.
  revert s r s'. apply (leaves_loop (fun r s' => r = ks_ret s')). clear fmt. intros fmt.
  repeat first [ (intros s r s' [= <- <-]; done) | apply leaves_bind; intros ? | case_match ].
Qed.

(** The count stays an int. *)
Definition small {A} (m : M kst A) : Prop := forall s a s', m s = Done (a, s') -> ks_ret s < 2 ^ 31 -> ks_ret s' < 2 ^ 31.
Lemma small_says {A} t (m : M kst A) : says t m -> small m.
Proof. intros Hm s a s' H Hs. destruct (Hm s a s' H) as (u & _ & _ & _ & Hd). lia. Qed.
Lemma small_bind {A B} (m : M kst A) (k : A -> M kst B) : small m -> (forall a, small (k a)) -> small (cbind m k).
Proof.
  intros Hm Hk s b s' H Hs. unfold cbind in H. destruct (m s) as [[a s1]| |] eqn:E; try done.
  eapply Hk; [exact H|]. by eapply Hm.
Qed.
Lemma small_ret_add n : small (ret_add n).
Proof. intros s a s' H Hs. rewrite ret_add_run in H. destruct (Z.ltb_spec (ks_ret s + n) (2 ^ 31)); [|done]. by injection H as <- <-. Qed.
Lemma small_iter {L R} n (body : L -> M kst (L + R)) l : (forall l, small (body l)) -> small (iterM n body l).
Proof.
  intros Hb. revert l. induction n as [|n IH]; intros l; [apply Hb|]. cbn [iterM]. apply small_bind; [apply IH|].
  intros [l'|r]; [apply IH|apply (small_says []), quiet_ret].
Qed.
Lemma small_emit cp dprec p ch : small (emit cp dprec p ch).
Proof.
  unfold emit. apply small_bind; [apply (small_says []), quiet_assert|intros _].
  apply small_bind; [apply small_ret_add|intros _].
  eapply small_says.
  repeat first [apply says_if | apply says_putc | apply says_putn | apply says_for | apply quiet_ret | (eapply says_bind; [|intros _])].
Qed.
Lemma small_plain fmt : small (plain fmt).
Proof.
  induction fmt as [|c fmt IH]; [apply (small_says []), quiet_halt|]. cbn [plain].
  destruct (_ || _); [apply (small_says []), quiet_ret|].
  apply small_bind; [apply small_ret_add|intros _]. apply small_bind; [apply (small_says [c]), says_putc|by intros _].
Qed.
Lemma small_kprintf fmt : small (kprintf fmt).
Proof.
  apply small_bind; [|intros [l|r]; [done|apply (small_says []), quiet_ret]]. apply small_iter. clear fmt. intros fmt.
  apply small_bind; [apply small_plain|]. intros [|c rest]; [done|].
  destruct (c =? 0); [apply (small_says []); quiet_auto|].
  apply small_bind; [apply (small_says []), quiet_scan|]. intros [[ch fmt'] p].
  destruct (ch =? 0); [apply (small_says []); quiet_auto|].
  apply small_bind; [apply (small_says []), quiet_convert|].
  intros [[[[cp dprec] p'] ch']|]; [|apply (small_says []), quiet_ret].
  apply small_bind; [apply small_emit|]. intros _. apply (small_says []), quiet_ret.
Qed.

(** ** Sinks *)
Lemma puts_buf t pre suf tail : tail = Z.of_nat (length pre + length suf) ->
  exists pos, puts t (ToBuf (Some (pre ++ suf)) (Z.of_nat (length pre)) tail) =
    Done (ToBuf (Some (pre ++ map u8 (take (length suf) t) ++ drop (length t) suf)) pos tail).
Proof.
  revert pre suf. induction t as [|c t IH]; intros pre suf Ht.
  { eexists. simpl. by rewrite take_nil. }
  cbn [puts sink_put]. destruct suf as [|x suf].
  - destruct (Z.ltb_spec (Z.of_nat (length pre)) tail) as [Hlt|_]; [simpl in *; lia|].
    destruct (IH pre [] Ht) as [pos ->]. exists pos. by rewrite !drop_nil.
  - destruct (Z.ltb_spec (Z.of_nat (length pre)) tail) as [_|Hge]; [|simpl in *; lia].
    rewrite Nat2Z.id, list_lookup_middle by done. rewrite insert_app_r_alt, Nat.sub_diag by lia. cbn [insert list_insert].
    destruct (IH (pre ++ [u8 c]) suf) as [pos E]. { rewrite length_app. simpl in *. lia. }
    exists pos. rewrite length_app in E. rewrite <- !app_assoc in E. simpl in E. simpl.
    replace (Z.of_nat (length pre) + 1) with (Z.of_nat (length pre + 1)) by lia. exact E.
Qed.
Lemma puts_null t pos tail : puts t (ToBuf None pos tail) = Done (ToBuf None pos tail).
Proof. induction t; [done|]. cbn [puts sink_put]. done. Qed.
Lemma puts_cons t dm off o k : puts t (ToCons dm off o) = Done k -> exists dm' off', k = ToCons dm' off' (o ++ t).
Proof.
  revert dm off o. induction t as [|c t IH]; intros dm off o; cbn [puts sink_put].
  { intros [= <-]. rewrite app_nil_r. eauto. }
  unfold cons_putchar. destruct (dm !! Z.to_nat off); [|done]. intros H. destruct (IH _ _ _ H) as (dm' & off' & ->).
  rewrite <- app_assoc. eauto.
Qed.
