(* ===== verification/KprintfSpec.v ===== *)
(** * Formatted output: the properties *)

From S2P Require Import Prelude CString CStringThms Strtoul Kprintf KprintfThms.

(** What [bmk_snprintf] leaves in a buffer when the whole text is [t]. *)
Definition truncated (t bf : list Z) : list Z :=
  let k := Nat.min (length t) (length bf - 1) in map u8 (take k t) ++ 0 :: drop (S k) bf.

Lemma vsnprintf_run fmt ap t s1 sk r bf : kprintf fmt (KSt ap 0 sk []) = Done (r, s1) ->
  r = Z.of_nat (length t) -> r < 2 ^ 31 ->
  (forall k k', puts t k = Done k' -> kprintf fmt (KSt ap 0 k []) = Done (r, set_sink k' s1)) ->
  bf <> [] -> bmk_vsnprintf (Some bf) (Z.of_nat (length bf)) fmt ap = Done (r, Some (truncated t bf)).
Proof.
  intros _ Hr Hsm Hk Hbf. unfold bmk_vsnprintf.
  destruct (puts_buf t [] bf (Z.of_nat (length bf)) eq_refl) as [pos Hp]. cbn [app length] in Hp. change (Z.of_nat 0) with 0 in Hp.
  rewrite (Hk _ _ Hp). cbn [ks_sink set_sink].
  assert (Hlen : (0 < length bf)%nat) by (destruct bf; [done|simpl; lia]).
  destruct (Z.ltb_spec 0 (Z.of_nat (length bf))); [|lia].
  assert (u64 r = r) as -> by (unfold u64; rewrite Z.mod_small; lia).
  set (bf1 := map u8 (take (length bf) t) ++ drop (length t) bf).
  assert (Hb1 : length bf1 = length bf).
  { unfold bf1. rewrite length_app, length_map, length_take, length_drop. lia. }
  set (k := Nat.min (length t) (length bf - 1)).
  assert (Hi : (if Z.of_nat (length bf) <=? r then Z.of_nat (length bf) - 1 else r) = Z.of_nat k).
  { unfold k. destruct (Z.leb_spec (Z.of_nat (length bf)) r); lia. }
  rewrite Hi, Nat2Z.id. destruct (lookup_lt_is_Some_2 bf1 k) as [x Hx]; [unfold k; lia|]. rewrite Hx. do 3 f_equal.
  assert (Esplit : exists y, bf1 = map u8 (take k t) ++ y :: drop (S k) bf).
  { unfold bf1. destruct (decide (length t < length bf)%nat) as [Hlt|Hge].
    - assert (k = length t) as -> by (unfold k; lia). rewrite !take_ge by lia.
      destruct (lookup_lt_is_Some_2 bf (length t) Hlt) as [y Hy]. exists y. by rewrite (drop_S bf y) by done.
    - assert (Hk' : k = (length bf - 1)%nat) by (unfold k; lia). rewrite (drop_ge bf (length t)) by lia.
      destruct (lookup_lt_is_Some_2 t k) as [y Hy]; [lia|]. exists (u8 y). rewrite (drop_ge bf (S k)) by lia.
      replace (length bf) with (S k) by lia. rewrite (take_S_r t k y Hy), map_app, app_nil_r. done. }
  destruct Esplit as [y ->]. rewrite insert_app_r_alt; rewrite length_map, length_take; [|lia].
  by replace (k - k `min` length t)%nat with 0%nat by (unfold k; lia).
Qed.

Lemma snprintf_of_printf fmt ap c c' : bmk_printf fmt ap c = Done (tt, c') ->
  exists t, co_out c' = co_out c ++ t /\
    (forall bf, bf <> [] -> bmk_snprintf (Some bf) (Z.of_nat (length bf)) fmt ap =
      Done (Z.of_nat (length t), Some (truncated t bf))) /\
    (forall size, bmk_snprintf None size fmt ap = Done (Z.of_nat (length t), None)).
Proof.
  unfold bmk_printf, bmk_vprintf. destruct (co_lock c); [done|].
  destruct (kprintf fmt _) as [[r s1]| |] eqn:E; try done.
  destruct (counts_kprintf fmt _ _ _ E) as (t & Hp & Hk & Hd). cbn [ks_sink ks_ret] in Hp, Hd.
  pose proof (kprintf_returns _ _ _ _ E) as Hr. pose proof (small_kprintf _ _ _ _ E eq_refl) as Hsm.
  assert (Hrt : r = Z.of_nat (length t)) by lia.
  destruct (puts_cons _ _ _ _ _ Hp) as (dm' & off' & Hs1). rewrite Hs1. intros [= <-]. exists t. split_and!; [done| |].
  - intros bf Hbf. rewrite <- Hrt. eapply vsnprintf_run; [exact E|done|lia|exact Hk|done].
  - intros size. unfold bmk_snprintf, bmk_vsnprintf. rewrite <- Hrt.
    pose proof (Hk _ _ (puts_null t 0 size)) as Hn. unfold set_sink in Hn. cbn [ks_args ks_ret ks_stores] in Hn. by rewrite Hn.
Qed.

(** C16. The contract of [bmk_snprintf], for every format and all arguments: if
    [bmk_printf] prints a text, then [bmk_snprintf] returns the length of that
    text and leaves in a buffer of any nonzero size its longest prefix that
    fits, terminated by NUL, and the rest of the buffer as it was; with a NULL
    buffer it returns the same length. *)
Theorem snprintf_contract fmt ap c c' : bmk_printf fmt ap c = Done (tt, c') ->
  exists t, co_out c' = co_out c ++ t /\
    (forall bf, bf <> [] -> bmk_snprintf (Some bf) (Z.of_nat (length bf)) fmt ap =
      Done (Z.of_nat (length t), Some (truncated t bf))) /\
    (forall size, bmk_snprintf None size fmt ap = Done (Z.of_nat (length t), None)).
Proof. exact (snprintf_of_printf fmt ap c c'). Qed.

(** %05d|%-#6x|%s with the arguments -42, 255 and NULL. *)
Definition sample_fmt : list Z := [37; 48; 53; 100; 124; 37; 45; 35; 54; 120; 124; 37; 115; 0].
Definition sample_args : list varg := [VInt (2 ^ 32 - 42); VInt 255; VStr None].
Lemma snprintf_contract_witness :
  (exists c', bmk_printf sample_fmt sample_args (Console false (replicate 40 0) 0 []) = Done (tt, c')) /\
  bmk_snprintf (Some (replicate 8 1)) 8 sample_fmt sample_args = Done (19, Some [45; 48; 48; 52; 50; 124; 48; 0]).
Proof.
  destruct (bmk_printf sample_fmt sample_args (Console false (replicate 40 0) 0 [])) as [[[] c']| |] eqn:E;
    [|vm_compute in E; discriminate..].
  split; [eauto|]. destruct (snprintf_contract _ _ _ _ E) as (t & Ht & Hb & _). vm_compute in E. injection E as <-.
  simpl in Ht. subst t. exact (Hb (replicate 8 1) ltac:(done)).
Defined.

(** ** Numbers *)
Lemma numeral_cons base d ds : numeral base (d :: ds) = d * base ^ Z.of_nat (length ds) + numeral base ds.
Proof.
  induction ds as [|e ds IH] using rev_ind; [unfold numeral; simpl; lia|].
  change (d :: ds ++ [e]) with ((d :: ds) ++ [e]). rewrite !numeral_snoc, IH, length_app. simpl.
  rewrite Nat2Z.inj_add, Z.pow_add_r by lia. simpl. lia.
Qed.

(** [cp] are the digits of [q] that have been split off, [r] is what is left. *)
Definition split_off (base q r : Z) (cp : list Z) : Prop :=
  0 <= r /\ Forall (fun c => 0 < c < 128) cp /\
  exists ds, digits_of base cp ds /\ 0 <= numeral base ds /\ q = r * base ^ Z.of_nat (length cp) + numeral base ds.

Definition digit_char (d c : Z) : Prop := digit_value c = Some d /\ 0 < c < 128.

Lemma split_off_start base q : 0 <= q -> split_off base q q [].
Proof. intros Hq. split_and!; [done|by apply Forall_nil|]. exists []. split_and!; [by split|done|unfold numeral; simpl; lia]. Qed.
Lemma split_off_step base q r cp c : 2 <= base -> split_off base q r cp -> digit_char (r mod base) c ->
  split_off base q (r / base) (c :: cp).
Proof.
  intros Hb (Hr & Hcp & ds & [Hl Hd] & Hn & Hq) [Hv Hc]. pose proof (Z.mod_pos_bound r base ltac:(lia)) as Hm.
  pose proof (Z.div_mod r base ltac:(lia)) as Er.
  assert (Hp : 0 < base ^ Z.of_nat (length cp)) by (apply Z.pow_pos_nonneg; lia).
  split_and!; [apply Z.div_pos; lia|by apply Forall_cons|].
  exists (r mod base :: ds). rewrite numeral_cons, <- Hl. split_and!.
  - split; [simpl; lia|]. intros [|k] c' d' Hc' Hd'; simpl in *; [simplify_eq; done|]. by apply (Hd k).
  - apply Z.add_nonneg_nonneg; [apply Z.mul_nonneg_nonneg; lia|done].
  - simpl length. rewrite Nat2Z.inj_succ, Z.pow_succ_r by lia. rewrite Hq, Er at 1.
    set (P := base ^ Z.of_nat (length cp)). nia.
Qed.
(** A 64-bit number in base 8 or more leaves room in the buffer. *)
Lemma split_off_room base q r cp : 8 <= base -> q < 2 ^ 64 -> split_off base q r cp -> cp = [] \/ 1 <= r ->
  Z.of_nat (length cp) <= 21.
Proof.
  intros Hb Hq (Hr & _ & ds & _ & Hn & E) [->|H1]; [simpl; lia|].
  destruct (Z.le_gt_cases (Z.of_nat (length cp)) 21); [done|exfalso].
  assert (8 ^ 22 <= base ^ Z.of_nat (length cp)).
  { transitivity (base ^ 22); [apply Z.pow_le_mono_l; lia|apply Z.pow_le_mono_r; lia]. }
  change (8 ^ 22) with (2 ^ 66) in *. assert (2 ^ 66 = 4 * 2 ^ 64) by reflexivity. nia.
Qed.

Lemma wp_store_digit c cp Q s : Z.of_nat (length cp) <= 21 -> Q (c :: cp) s -> wp (store_digit c cp) Q s.
Proof.
  intros Hl HQ. unfold store_digit. wp_step. apply wp_assert; [|by wp_step]. unfold KPRINTF_BUFSIZE.
  change (8 * 8 / 3 + 2) with 23. lia.
Qed.

Definition base_of (b : kbase) : Z := match b with OCT => 8 | DEC => 10 | HEX => 16 end.
Lemma to_char_digit d : 0 <= d < 10 -> digit_char d (to_char d).
Proof.
  intros Hd. unfold digit_char, digit_value, to_char. destruct (Z.leb_spec 48 (d + 48)); [|lia].
  destruct (Z.leb_spec (d + 48) 57); [|lia]. simpl. split; [f_equal; lia|lia].
Qed.
Lemma hexdigits_digit d : 0 <= d < 16 -> exists c, hexdigits !! Z.to_nat d = Some c /\ digit_char d c.
Proof.
  intros Hd.
  assert (H : forallb (fun d => match hexdigits !! Z.to_nat d with
    | Some c => bool_decide (digit_value c = Some d) && (0 <? c) && (c <? 128) | None => false end) (seqZ 0 16) = true)
    by reflexivity.
  rewrite forallb_forall in H. specialize (H d). rewrite <- list_elem_of_In, elem_of_seqZ in H. specialize (H ltac:(lia)).
  destruct (hexdigits !! Z.to_nat d) as [c|]; [|done]. exists c. split; [done|].
  apply andb_prop in H as [[H1%bool_decide_eq_true H2]%andb_prop H3]. split; [done|lia].
Qed.

(** The digits stored denote the number. *)
Lemma wp_digits b q s : 0 <= q < 2 ^ 64 ->
  wp (digits b hexdigits false q) (fun cp s' => s' = s /\ cp <> [] /\ split_off (base_of b) q 0 cp /\ (length cp <= 22)%nat) s.
Proof.
  intros Hq. unfold digits. destruct b; cbn [base_of].
  - wp_step. apply (wp_loop _ (fun '(r, cp) s' => s' = s /\ split_off 8 q r cp /\ (cp = [] \/ 1 <= r)) (fun '(r, _) _ => r)).
    + intros [r cp] s' (-> & Hs & Hc). pose proof Hs as (Hr & _). split; [done|]. wp_step.
      pose proof (split_off_room 8 q r cp ltac:(lia) ltac:(lia) Hs Hc) as Hl. apply wp_store_digit; [done|]. wp_step.
      change (Z.land r 7) with (Z.land r (2 ^ 3 - 1)). rewrite land_mask_mod, Z.shiftr_div_pow2 by lia. change (2 ^ 3) with 8.
      pose proof (split_off_step 8 q r cp (to_char (r mod 8)) ltac:(lia) Hs
        ltac:(apply to_char_digit; pose proof (Z.mod_pos_bound r 8 ltac:(lia)); lia)) as Hs'.
      destruct (Z.eqb_spec (r / 8) 0) as [E|E].
      * simpl. wp_step. rewrite E in Hs'. split_and!; [done|done|done|simpl; lia].
      * split; [|pose proof (Z.div_lt_upper_bound r 8 r); Z.to_euclidean_division_equations; lia].
        split_and!; [done|done|]. right. destruct Hs' as (? & _). lia.
    + split_and!; [done|apply split_off_start; lia|by left].
    + lia.
  - wp_step. apply (wp_loop _ (fun '(r, cp) s' => s' = s /\ split_off 10 q r cp /\ (cp = [] \/ 1 <= r)) (fun '(r, _) _ => r)).
    + intros [r cp] s' (-> & Hs & Hc). pose proof Hs as (Hr & _). split; [done|].
      pose proof (split_off_room 10 q r cp ltac:(lia) ltac:(lia) Hs Hc) as Hl.
      destruct (Z.leb_spec 10 r).
      * wp_step. apply wp_store_digit; [done|]. wp_step.
        pose proof (split_off_step 10 q r cp (to_char (r mod 10)) ltac:(lia) Hs
          ltac:(apply to_char_digit; pose proof (Z.mod_pos_bound r 10 ltac:(lia)); lia)) as Hs'.
        split; [|Z.to_euclidean_division_equations; lia]. split_and!; [done|done|]. right. Z.to_euclidean_division_equations; lia.
      * wp_step. apply wp_store_digit; [done|].
        pose proof (split_off_step 10 q r cp (to_char r) ltac:(lia) Hs) as Hs'.
        rewrite Z.mod_small, Z.div_small in Hs' by lia. split_and!; [done|done| |simpl; lia].
        apply Hs', to_char_digit. lia.
    + split_and!; [done|apply split_off_start; lia|by left].
    + lia.
  - apply (wp_loop _ (fun '(r, cp) s' => s' = s /\ split_off 16 q r cp /\ (cp = [] \/ 1 <= r)) (fun '(r, _) _ => r)).
    + intros [r cp] s' (-> & Hs & Hc). pose proof Hs as (Hr & _). split; [done|]. wp_step.
      pose proof (split_off_room 16 q r cp ltac:(lia) ltac:(lia) Hs Hc) as Hl.
      change (Z.land r 15) with (Z.land r (2 ^ 4 - 1)). rewrite land_mask_mod, Z.shiftr_div_pow2 by lia. change (2 ^ 4) with 16.
      destruct (hexdigits_digit (r mod 16)) as (c & Ec & Hdc); [apply Z.mod_pos_bound; lia|].
      eapply wp_opt; [exact Ec|]. wp_step. apply wp_store_digit; [done|]. wp_step.
      pose proof (split_off_step 16 q r cp c ltac:(lia) Hs Hdc) as Hs'.
      destruct (Z.eqb_spec (r / 16) 0) as [E|E].
      * rewrite E in Hs'. split_and!; [done|done|done|simpl; lia].
      * split; [|Z.to_euclidean_division_equations; lia]. split_and!; [done|done|]. right. destruct Hs' as (? & _). lia.
    + split_and!; [done|apply split_off_start; lia|by left].
    + lia.
Qed.

(** ** Printing a number on the console *)
Definition con (o : list Z) (k : sink) : Prop := exists dm off, k = ToCons dm off o /\
  Z.of_nat (length dm) = BMK_DMESG_SIZE /\ 0 <= off < BMK_DMESG_SIZE - 1.

Lemma wp_putc_con c o s Q : con o (ks_sink s) -> (forall k, con (o ++ [c]) k -> Q tt (set_sink k s)) -> wp (putc c) Q s.
Proof.
  intros (dm & off & E & Hl & Hoff) HQ. unfold wp, putc. rewrite E. cbn [sink_put]. unfold cons_putchar.
  destruct (lookup_lt_is_Some_2 dm (Z.to_nat off)) as [x ->]; [lia|]. apply HQ. eexists _, _. split; [done|].
  rewrite length_insert. split; [done|]. unfold BMK_DMESG_SIZE in *. destruct (Z.eqb_spec (off + 1) (16 * 1024 - 1)); lia.
Qed.
Lemma wp_for_con cp o s Q : con o (ks_sink s) -> (forall k, con (o ++ cp) k -> Q tt (set_sink k s)) -> wp (mfor putc cp) Q s.
Proof.
  revert o s. induction cp as [|c cp IH]; intros o s Hc HQ; cbn [mfor].
  - wp_step. rewrite app_nil_r in HQ. replace s with (set_sink (ks_sink s) s) by (by destruct s). by apply HQ.
  - wp_step. eapply wp_putc_con; [exact Hc|]. intros k Hk. eapply (IH (o ++ [c])); [done|].
    intros k' Hk'. rewrite <- app_assoc in Hk'. exact (HQ k' Hk').
Qed.

(** %lo, %lu and %lx. *)
Definition number_fmt (b : kbase) : list Z := [37; 108; match b with OCT => 111 | DEC => 117 | HEX => 120 end; 0].

(** The specification %l leaves. *)
Definition long_spec : kspec := or_longint spec0.

Lemma wp_emit_plain cp o s ch Q : con o (ks_sink s) -> (length cp <= 22)%nat -> 0 <= ks_ret s < 2 ^ 30 ->
  (forall k, con (o ++ cp) k -> Q tt (set_sink k (set_ret (ks_ret s + Z.of_nat (length cp)) s))) ->
  wp (emit cp (-1) (set_sign 0 long_spec) ch) Q s.
Proof.
  intros Hc Hl Hr HQ. unfold emit. cbn [LADJUST ZEROPAD HEXPREFIX k_sign k_width set_sign long_spec or_longint spec0].
  destruct (Z.ltb_spec (Z.of_nat (length cp)) (-1)); [lia|]. cbn [Z.eqb negb orb andb].
  rewrite Z.add_0_r. destruct (Z.ltb_spec (Z.of_nat (length cp)) 0); [lia|].
  wp_step. apply wp_assert; [lia|]. wp_step. apply (run_wp _ _ _ tt (set_ret (ks_ret s + Z.of_nat (length cp)) s)).
  { rewrite ret_add_run. destruct (Z.ltb_spec (ks_ret s + Z.of_nat (length cp)) (2 ^ 31)); [done|lia]. }
  assert (Hno : forall c n Q s, n <= 0 -> Q tt s -> wp (putn c n) Q s).
  { intros c n Q' s' Hn HQ'. unfold putn. rewrite seqZ_nil by lia. exact HQ'. }
  wp_steps. apply Hno; [lia|]. wp_steps. apply Hno; [lia|].
  wp_steps. eapply wp_for_con; [exact Hc|]. intros k Hk. wp_step. by apply HQ.
Qed.

(** What a long prints as, whatever the base. *)
Lemma wp_number b v o s Q : 0 <= v < 2 ^ 64 -> con o (ks_sink s) -> ks_args s = [VLong v] -> ks_ret s = 0 ->
  (forall cp s', cp <> [] -> split_off (base_of b) v 0 cp -> (length cp <= 22)%nat -> con (o ++ cp) (ks_sink s') -> Q (Z.of_nat (length cp)) s') ->
  wp (kprintf (number_fmt b)) Q s.
Proof.
  intros Hv Hc Ha Hr HQ. unfold kprintf.
  apply (wp_loop _ (fun fmt s' => fmt = number_fmt b /\ s' = s \/
    fmt = [0] /\ exists cp, cp <> [] /\ split_off (base_of b) v 0 cp /\ (length cp <= 22)%nat /\ con (o ++ cp) (ks_sink s') /\ ks_ret s' = Z.of_nat (length cp))
    (fun fmt _ => Z.of_nat (length fmt))); [|by left|by destruct b].
  intros fmt s' [[-> ->]|(-> & cp & Hne & Hcp & Hl & Hcon & Hret)]; (split; [lia|]).
  2: { cbn [plain]. wp_steps. simpl. wp_steps. simpl (0 =? 0). cbv iota. wp_steps. rewrite Hret. by apply HQ. }
  assert (Hconv : forall ch, ch = match b with OCT => 111 | DEC => 117 | HEX => 120 end ->
    wp (convert ch long_spec) (fun r s' => exists cp, r = Some (cp, -1, set_sign 0 long_spec, ch) /\ s' = set_args [] s /\
      cp <> [] /\ split_off (base_of b) v 0 cp /\ (length cp <= 22)%nat) s).
  { assert (Hu : forall Q, Q v (set_args [] s) -> wp (UARG long_spec) Q s).
    { intros Q' HQ'. unfold UARG, long_arg. cbn [MAXINT PTRINT SIZEINT QUADINT LONGINT long_spec or_longint spec0 orb].
      unfold va_long, va_arg. wp_steps. rewrite Ha. wp_steps. unfold u64. by rewrite Z.mod_small. }
    intros ch ->. unfold convert, hex, nosign, number. destruct b; cbn [Z.eqb Pos.eqb orb]; cbv zeta; wp_steps; apply Hu; wp_steps;
      rewrite ?andb_false_l; cbn [ALT k_prec set_sign long_spec or_longint spec0 andb Z.eqb negb Z.leb Z.compare]; rewrite orb_true_r;
      (eapply wp_mono; [by apply wp_digits|]); intros cp s' (-> & Hne & Hcp & Hl); wp_steps; by exists cp. }
  unfold number_fmt at 1. cbn [plain]. wp_steps. cbn [Z.eqb Pos.eqb orb]. wp_step. cbv beta iota.
  set (ch := match b with OCT => 111 | DEC => 117 | HEX => 120 end) in *.
  assert (Hscan : scan KFlag [108; ch; 0] spec0 s = Done (ch, [0], long_spec, s)) by (by destruct b).
  cbn [Z.eqb]. wp_step. eapply run_wp; [exact Hscan|]. cbv beta iota.
  assert (Hch0 : (ch =? 0) = false) by (by destruct b). rewrite Hch0. wp_step.
  eapply wp_mono; [by apply Hconv|]. intros r s' (cp & -> & -> & Hne & Hcp & Hl). cbv beta iota. wp_step.
  eapply wp_emit_plain; [exact Hc|done|cbn [ks_ret set_args]; lia|].
  intros k Hk. wp_step. split; [|by destruct b]. right. split; [done|]. exists cp. split_and!; [done|done|done|done|].
  cbn [ks_ret set_sink set_ret set_args]. lia.
Qed.

Lemma dmesg_exists : exists dm : list Z, Z.of_nat (length dm) = BMK_DMESG_SIZE.
Proof. exists (replicate (Z.to_nat BMK_DMESG_SIZE) 0). rewrite length_replicate, Z2Nat.id; [reflexivity|]. unfold BMK_DMESG_SIZE. lia. Qed.
Lemma printf_number b v dm : 0 <= v < 2 ^ 64 -> Z.of_nat (length dm) = BMK_DMESG_SIZE ->
  exists c' cp, bmk_printf (number_fmt b) [VLong v] (Console false dm 0 []) = Done (tt, c') /\ co_out c' = cp /\
    cp <> [] /\ split_off (base_of b) v 0 cp /\ (length cp <= 22)%nat.
Proof.
  intros Hv Hdm. destruct (wp_run (kprintf (number_fmt b)) (fun r s' => exists cp, r = Z.of_nat (length cp) /\
      cp <> [] /\ split_off (base_of b) v 0 cp /\ (length cp <= 22)%nat /\ con cp (ks_sink s')) (KSt [VLong v] 0 (ToCons dm 0 []) [])) as (r & s' & E & cp & _ & Hne & Hcp & Hl & Hcon).
  { eapply wp_number; [done| |done|done|].
    - exists dm, 0. split_and!; try done; unfold BMK_DMESG_SIZE; lia.
    - intros cp s' Hne Hcp Hl Hcon. by exists cp. }
  destruct Hcon as (dm' & off' & Hs & _). exists (Console false dm' off' cp), cp. split_and!; try done.
  unfold bmk_printf, bmk_vprintf. cbn [co_lock co_dmesg co_off co_out]. by rewrite E, Hs.
Qed.

(** C17. Printing an unsigned long in octal, decimal or hexadecimal and reading
    it back: the buffer holds a NUL-terminated string, and [bmk_strtoul] of
    these characters, wherever they are in memory, returns the number and the
    end of the string. *)
Theorem number_roundtrip b v bf : 0 <= v < 2 ^ 64 -> (24 <= length bf)%nat ->
  exists text rest, bmk_snprintf (Some bf) (Z.of_nat (length bf)) (number_fmt b) [VLong v] =
      Done (Z.of_nat (length text), Some (text ++ 0 :: rest)) /\
    forall m p, bytes_at m p (text ++ [0]) ->
      bmk_strtoul p (base_of b) m = Done ((v, p + Z.of_nat (length text)), m).
Proof.
  intros Hv Hbf.
  destruct dmesg_exists as [dm Hdm]. destruct (printf_number b v dm Hv Hdm) as (c' & cp & Hpr & Hout & Hne & Hsp & Hlen).
  destruct (snprintf_of_printf _ _ _ _ Hpr) as (t & Ht & Hb & _). rewrite Hout in Ht. cbn [co_out app] in Ht. subst t.
  pose proof Hsp as (_ & Hchars & ds & Hds & _ & Hnum).
  exists cp, (drop (S (length cp)) bf). split.
  - rewrite Hb by (destruct bf; [simpl in Hbf; lia|done]). unfold truncated. rewrite Nat.min_l, take_ge by lia. do 3 f_equal. f_equal.
    clear -Hchars. induction Hchars as [|c cp Hc _ IH]; [done|]. simpl. rewrite IH. f_equal. unfold u8. rewrite Z.mod_small; lia.
  - intros m p Hm. rewrite (strtoul_digits_run m p (base_of b) cp ds); [|destruct b; simpl; lia|done|done| |lia].
    + rewrite Z.mul_0_l, Z.add_0_l in Hnum. rewrite <- Hnum. unfold ULONG_MAX. by rewrite decide_True by lia.
    + split; [done|]. eapply Forall_impl; [exact Hchars|]. intros c Hc. simpl in Hc. lia.
Qed.
Lemma number_roundtrip_witness :
  exists text rest, bmk_snprintf (Some (replicate 24 1)) 24 (number_fmt DEC) [VLong 1729] =
      Done (Z.of_nat (length text), Some (text ++ 0 :: rest)) /\
    forall m p, bytes_at m p (text ++ [0]) -> bmk_strtoul p 10 m = Done ((1729, p + Z.of_nat (length text)), m).
Proof. exact (number_roundtrip DEC 1729 (replicate 24 1) ltac:(lia) ltac:(simpl; lia)). Defined.
