(* ===== verification/CText.v ===== *)
(** * C strings as lists

    The string routines applied to texts that are objects of their own: a text is
    the list of its bytes before the NUL, a buffer the list of all its bytes. *)
From Stdlib Require Ascii String.
From S2P Require Import Prelude CString CStringThms CStringSpec Strtoul Kprintf.

(** The bytes of a literal. *)
Definition lit (s : String.string) : list Z :=
  map (fun c => Z.of_N (Ascii.N_of_ascii c)) (String.list_ascii_of_string s).
#[global] Arguments lit s%_string.

(** A C string at the start of some bytes: what precedes the first NUL, and what
    follows it. *)
Fixpoint cstring (l : list Z) : option (list Z * list Z) :=
  match l with
  | [] => None
  | c :: l => if c =? 0 then Some ([], l)
              else match cstring l with Some (s, r) => Some (c :: s, r) | None => None end
  end.

(** [bmk_strcmp] of two strings that lie apart in memory. *)
Definition strcmp (a b : list Z) : res Z :=
  let pb := zlen a + 16 in
  match bmk_strcmp 1 pb (list_to_mem 1 (a ++ [0]) ∪ list_to_mem pb (b ++ [0])) with
  | Done (r, _) => Done r
  | Halted w => Halted w
  | NoFuel => NoFuel
  end.
Definition lift_res {St A} (r : res A) : M St A := fun s =>
  match r with Done a => Done (a, s) | Halted w => Halted w | NoFuel => NoFuel end.

(** [bmk_strtoul(text, NULL, 10)] of bytes in memory. *)
Definition strtoul10 (text : list Z) : res Z :=
  match bmk_strtoul 1 10 (list_to_mem 1 text) with
  | Done ((v, _), _) => Done v
  | Halted w => Halted w
  | NoFuel => NoFuel
  end.
(** The string in a buffer. *)
Definition str_of (bf : list Z) : res (list Z) :=
  match cstring bf with Some (s, _) => Done s | None => Halted "string" end.
(** A string printed into a buffer of [size] bytes, and the return value. *)
Definition sprint (size : Z) (fmt : list Z) (ap : list varg) : res (Z * list Z) :=
  match bmk_snprintf (Some (replicate (Z.to_nat size) 0)) size (fmt ++ [0]) ap with
  | Done (rv, Some bf) => match str_of bf with Done s => Done (rv, s) | Halted w => Halted w | NoFuel => NoFuel end
  | Done (_, None) => Halted "buffer"
  | Halted w => Halted w
  | NoFuel => NoFuel
  end.

(** ** Facts *)
Definition no_nul (s : list Z) : Prop := Forall (fun c => c <> 0) s.

Lemma cstring_app s r : no_nul s -> cstring (s ++ 0 :: r) = Some (s, r).
Proof.
  induction 1 as [|c s Hc Hs IH]; [done|]. cbn [app cstring].
  by rewrite (proj2 (Z.eqb_neq c 0) Hc), IH.
Qed.

Lemma cstring_split l s r : cstring l = Some (s, r) -> l = s ++ 0 :: r /\ no_nul s.
Proof.
  revert s. induction l as [|c l IH]; intros s; cbn; [done|].
  destruct (Z.eqb_spec c 0) as [->|Hc]; [intros [= <- <-]; by split; [|constructor]|].
  destruct (cstring l) as [[s' r']|]; [|done]. intros [= <- <-].
  destruct (IH s' eq_refl) as [-> Hs]. split; [done|by constructor].
Qed.

Lemma cstring_exists l : 0 ∈ l -> exists s r, cstring l = Some (s, r).
Proof.
  induction l as [|c l IH]; [set_solver|]. cbn. destruct (Z.eqb_spec c 0); [eauto|].
  intros [?|Hl]%elem_of_cons; [done|]. destruct (IH Hl) as (s & r & ->). eauto.
Qed.

Lemma strcmp_same_up_to_last l x y : Forall (fun b => 0 < b < 256) l -> 0 < x < 256 -> 0 < y < 256 -> x <> y ->
  Z.of_nat (length l) < 2 ^ 62 -> strcmp (l ++ [y]) (l ++ [x]) = Done 0.
Proof.
  intros Hl Hx Hy Hne Hlen. unfold strcmp.
  assert (Hf : forall z, 0 < z < 256 -> Forall (fun b => 0 < b < 256) (l ++ [z])).
  { intros z Hz. apply Forall_app. split; [done|]. apply Forall_singleton. done. }
  erewrite (strcmp_last_char _ 1 (zlen (l ++ [y]) + 16) l y x); [done|split; [|by apply Hf]..|done|done].
  - intros i b Hi. by apply lookup_union_Some_l, list_to_mem_bytes.
  - intros i b Hi. rewrite lookup_union_r; [by apply list_to_mem_bytes|].
    apply list_to_mem_out. rewrite !length_app. cbn. lia.
Qed.
