(* ===== verification/Memalloc.v ===== *)
(** * The byte allocator (lib/libbmk_core/memalloc.c)

    Power-of-two buckets over pages taken from any [PageAllocator].  The free
    lists are sequences of block addresses; block headers live, byte for byte,
    in the memory that also holds the clients' data. *)

From S2P Require Import Prelude Pgalloc PageIface CString.

(** ** Block headers *)

Inductive bmk_memwho := BMK_MEMWHO_WIREDBMK | BMK_MEMWHO_RUMPKERN | BMK_MEMWHO_USER.
Definition who_num (w : bmk_memwho) : Z :=
  match w with BMK_MEMWHO_WIREDBMK => 0 | BMK_MEMWHO_RUMPKERN => 1 | BMK_MEMWHO_USER => 2 end.

Record memalloc_hdr := MkHdr {
  mh_alignpad : Z;   (* uint32_t *)
  mh_magic : Z;      (* uint16_t *)
  mh_index : Z;      (* uint8_t *)
  mh_who : Z         (* uint8_t *)
}.
Definition HDRSIZE : Z := 8.
Definition MAGIC : Z := 239.
Definition MINSHIFT : Z := 5.
Definition LOCALBUCKETS : Z := BMK_PCPU_PAGE_SHIFT - MINSHIFT.
Definition MINALIGN : Z := 16.

(** The header in memory: little endian, in the order of the fields. *)
Definition hdr_bytes (h : memalloc_hdr) : list Z :=
  [u8 (mh_alignpad h); u8 (mh_alignpad h / 2 ^ 8);
   u8 (mh_alignpad h / 2 ^ 16); u8 (mh_alignpad h / 2 ^ 24);
   u8 (mh_magic h); u8 (mh_magic h / 2 ^ 8); u8 (mh_index h); u8 (mh_who h)].
Definition hdr_of_bytes (l : list Z) : memalloc_hdr :=
  let b i := nth i l 0 in
  MkHdr (b 0%nat + b 1%nat * 2 ^ 8 + b 2%nat * 2 ^ 16 + b 3%nat * 2 ^ 24)
        (b 4%nat + b 5%nat * 2 ^ 8) (b 6%nat) (b 7%nat).

Section Memalloc.
Context {P : Type} `{PA : PageAllocator P}.

Record mastate := MaState {
  ma_pg : P;
  freebuckets : list (list Z);
  nmalloc : list Z;
  malloc_slock : bool;
  ma_mem : gmap Z Z
}.
Definition set_pg (p : P) (s : mastate) : mastate :=
  MaState p (freebuckets s) (nmalloc s) (malloc_slock s) (ma_mem s).
Definition set_fb (f : list (list Z)) (s : mastate) : mastate :=
  MaState (ma_pg s) f (nmalloc s) (malloc_slock s) (ma_mem s).
Definition set_nmalloc (n : list Z) (s : mastate) : mastate :=
  MaState (ma_pg s) (freebuckets s) n (malloc_slock s) (ma_mem s).
Definition set_lock (b : bool) (s : mastate) : mastate :=
  MaState (ma_pg s) (freebuckets s) (nmalloc s) b (ma_mem s).
Definition set_mem (m : gmap Z Z) (s : mastate) : mastate :=
  MaState (ma_pg s) (freebuckets s) (nmalloc s) (malloc_slock s) m.

Definition in_pg {A} (m : M P A) : M mastate A := zoom ma_pg set_pg m.
Definition in_mem {A} (m : M (gmap Z Z) A) : M mastate A := zoom ma_mem set_mem m.

(** Entering a lock that is held spins for ever. *)
Definition malloc_lock : M mastate unit :=
  s <-- mget ;; if malloc_slock s then mnofuel else modify (set_lock true).
Definition malloc_unlock : M mastate unit := modify (set_lock false).

(** LIST_INSERT_HEAD on, LIST_FIRST of and LIST_REMOVE of a bucket's head. *)
Definition bucket_get (bucket : Z) : M mastate (list Z) :=
  s <-- mget ;; mopt (freebuckets s !! Z.to_nat bucket) "freebuckets index".
Definition bucket_put (bucket : Z) (l : list Z) : M mastate unit :=
  modify (fun s => set_fb (<[Z.to_nat bucket := l]> (freebuckets s)) s).
Definition bucket_insert_head (bucket a : Z) : M mastate unit :=
  l <-- bucket_get bucket ;; bucket_put bucket (a :: l).
Definition nmalloc_add (bucket d : Z) : M mastate unit :=
  s <-- mget ;; n <-- mopt (nmalloc s !! Z.to_nat bucket) "nmalloc index" ;;
  modify (set_nmalloc (<[Z.to_nat bucket := u32 (n + d)]> (nmalloc s))).

Definition morecore (bucket : Z) : M mastate Z :=
  let sz := Z.shiftl 1 (bucket + MINSHIFT) in
  let nblks := BMK_PCPU_PAGE_SIZE / sz in
  massert (1 <? nblks) "nblks > 1" ;;;
  rv <-- in_pg (pa_alloc 0) ;;
  if rv =? 0 then cret 0 else
  loopM (fun '(p, nblks) =>
    let nblks := nblks - 1 in
    if nblks =? 0 then cret (inr tt) else
    let p := p + sz in
    bucket_insert_head bucket p ;;; cret (inl (p, nblks))) (rv, nblks) ;;;
  cret rv.

Definition bmk_memalloc_init : M mastate unit :=
  mfor (fun i => bucket_put i []) (seqZ 0 LOCALBUCKETS).

Definition bucketalloc (bucket : Z) : M mastate Z :=
  malloc_lock ;;;
  l <-- bucket_get bucket ;;
  frb <-- match l with
          | [] => morecore bucket
          | frb :: l => bucket_put bucket l ;;; cret frb
          end ;;
  if frb =? 0 then malloc_unlock ;;; cret 0 else
  nmalloc_add bucket 1 ;;;
  malloc_unlock ;;;
  cret frb.

(** The closest block size which satisfies a request. *)
Definition bucket_for (allocbytes : Z) : Z :=
  if allocbytes <? Z.shiftl 1 MINSHIFT then 0
  else let bucket := 64 - clz64 (Z.shiftr allocbytes MINSHIFT) in
       if Z.land allocbytes (allocbytes - 1) =? 0 then bucket - 1 else bucket.

(** Round up to a power of two: [(x + (align-1)) & ~(align-1)]. *)
Definition align_up (x align : Z) : Z := Z.land (u64 (x + align - 1)) (Z.lnot (align - 1)).

Definition block_alloc (bucket : Z) : M mastate Z :=
  if LOCALBUCKETS <=? bucket
  then in_pg (pa_alloc (bucket + MINSHIFT - BMK_PCPU_PAGE_SHIFT))
  else bucketalloc bucket.

Definition bmk_memalloc (nbytes align : Z) (who : bmk_memwho) : M mastate Z :=
  if negb (Z.land align (u64 (align - 1)) =? 0) then cret 0 else
  let align := if align <? MINALIGN then MINALIGN else align in
  massert (align <=? 2 ^ 31) "align <= (1UL<<31)" ;;;
  let allocbytes := u64 (nbytes + align_up HDRSIZE align) in
  let bucket := bucket_for allocbytes in
  hdr <-- block_alloc bucket ;;
  if hdr =? 0 then cret 0 else
  let rv := align_up (hdr + HDRSIZE) align in
  let alignpad := u64 (rv - hdr) in
  in_mem (wr_list (rv - HDRSIZE)
    (hdr_bytes (MkHdr (u32 alignpad) MAGIC (u8 bucket) (who_num who)))) ;;;
  cret rv.

Definition bmk_xmalloc_bmk (howmuch : Z) : M mastate Z :=
  rv <-- bmk_memalloc howmuch 0 BMK_MEMWHO_WIREDBMK ;;
  if rv =? 0 then mhalt "xmalloc failed" else cret rv.

Definition bmk_memcalloc (n size : Z) (who : bmk_memwho) : M mastate Z :=
  let tot := u64 (n * size) in
  if negb (size =? 0) && negb (tot / size =? n) then cret 0 else
  v <-- bmk_memalloc tot MINALIGN who ;;
  if negb (v =? 0) then in_mem (bmk_memset v 0 tot) ;;; cret v else cret v.

Definition read_hdr (cp : Z) : M mastate memalloc_hdr :=
  l <-- in_mem (rd8 (cp - HDRSIZE)) ;; cret (hdr_of_bytes l).

Definition bmk_memfree (cp : Z) (who : bmk_memwho) : M mastate unit :=
  if cp =? 0 then cret tt else
  hdr <-- read_hdr cp ;;
  if negb (mh_magic hdr =? MAGIC) then cret tt   (* only a message *)
  else if negb (mh_who hdr =? who_num who) then mhalt "bmk_memalloc error" else
  let index := mh_index hdr in
  let origp := cp - mh_alignpad hdr in
  if LOCALBUCKETS <=? index
  then in_pg (pa_release origp (index + MINSHIFT - BMK_PCPU_PAGE_SHIFT))
  else
    malloc_lock ;;;
    bucket_insert_head index origp ;;;
    nmalloc_add index (-1) ;;;
    malloc_unlock.

(** [1 << n] at type [int]: undefined from 31 on. *)
Definition int_shl1 {St} (n : Z) : M St Z :=
  massert (n <? 31) "shift of an int" ;;; cret (Z.shiftl 1 n).

Definition bmk_memrealloc_user (cp nbytes : Z) : M mastate Z :=
  if cp =? 0 then bmk_memalloc nbytes MINALIGN BMK_MEMWHO_USER
  else if nbytes =? 0 then bmk_memfree cp BMK_MEMWHO_USER ;;; cret 0
  else
    hdr <-- read_hdr cp ;;
    let size := mh_index hdr in
    let alignpad := mh_alignpad hdr in
    sz <-- int_shl1 (size + MINSHIFT) ;;
    if nbytes <=? u64 (sz - alignpad) then cret cp else
    np <-- bmk_memalloc nbytes 8 BMK_MEMWHO_USER ;;
    if np =? 0 then cret 0 else
    in_mem (bmk_mempcpy np cp (u64 (sz - alignpad))) ;;;
    bmk_memfree cp BMK_MEMWHO_USER ;;;
    cret np.

(** What bmk_memalloc_printstats prints: per bucket its size, the length of its
    free list and its nmalloc, then the totals in use and free in kB. *)
Definition bmk_memalloc_printstats : M mastate (list (Z * Z * Z) * Z * Z) :=
  s <-- mget ;;
  let row i := (Z.shiftl 1 (i + MINSHIFT),
                Z.of_nat (length (default [] (freebuckets s !! Z.to_nat i))),
                default 0 (nmalloc s !! Z.to_nat i)) in
  let rows := map row (seqZ 0 LOCALBUCKETS) in
  let totfree := foldl (fun t '(sz, j, _) => u64 (t + u32 (j * sz))) 0 rows in
  let totused := foldl (fun t '(sz, _, n) => u64 (t + u32 (n * sz))) 0 rows in
  cret (rows, totused / 1024, totfree / 1024).
End Memalloc.
Arguments mastate P : clear implicits.
