(* ===== verification/MemallocThms.v ===== *)
(** * The byte allocator: blocks, headers and what each operation does *)

From S2P Require Import Prelude Pgalloc PgallocInv PageIface CString CStringThms Memalloc.

Definition bsize (b : Z) : Z := 2 ^ (b + MINSHIFT).
Definition in_bkt (a b x : Z) : Prop := a <= x < a + bsize b.

Lemma bsize_pos b : 0 <= b -> 0 < bsize b.
Proof. intros. apply Z.pow_pos_nonneg; unfold MINSHIFT; lia. Qed.

Lemma csize_bsize b : LOCALBUCKETS <= b -> csize (b + MINSHIFT - BMK_PCPU_PAGE_SHIFT) = bsize b.
Proof. intros. unfold csize, bsize, MINSHIFT, BMK_PCPU_PAGE_SHIFT. f_equal. lia. Qed.

(** ** Size classes *)

(** The bucket chosen is the smallest that holds the request. *)
Lemma bucket_for_ok n : 0 <= n <= 2 ^ 63 ->
  0 <= bucket_for n <= 58 /\ n <= bsize (bucket_for n) /\
  (bucket_for n = 0 \/ bsize (bucket_for n - 1) < n).
Proof.
  intros Hn. unfold bucket_for, bsize, MINSHIFT. change (Z.shiftl 1 5) with 32.
  destruct (Z.ltb_spec n 32); [change (2 ^ (0 + 5)) with 32; lia|].
  assert (Hm : clz64 (Z.shiftr n 5) = 68 - Z.log2 n).
  { unfold clz64. rewrite Z.log2_shiftr by lia.
    assert (5 <= Z.log2 n) by (apply Z.log2_le_pow2; lia). lia. }
  rewrite Hm. assert (5 <= Z.log2 n) by (apply Z.log2_le_pow2; lia).
  assert (Z.log2 n <= 63) by (change 63 with (Z.log2 (2 ^ 63)); apply Z.log2_le_mono; lia).
  destruct (Z.log2_spec n ltac:(lia)) as [Hlo Hhi].
  destruct (Z.eqb_spec (Z.land n (n - 1)) 0) as [Hp|Hp].
  - apply land_pred_pow2 in Hp; [|lia].
    replace (64 - (68 - Z.log2 n) - 1 + 5) with (Z.log2 n) by lia.
    replace (64 - (68 - Z.log2 n) - 1 - 1 + 5) with (Z.log2 n - 1) by lia.
    split; [lia|]. split; [lia|]. right. rewrite Hp at 2. apply Z.pow_lt_mono_r; lia.
  - assert (Hne : n <> 2 ^ Z.log2 n) by (intros E; apply Hp; rewrite E; apply land_pred_of_pow2; lia).
    assert (Z.log2 n < 63).
    { destruct (Z.eq_dec (Z.log2 n) 63) as [E|]; [|lia]. rewrite E in *. lia. }
    replace (64 - (68 - Z.log2 n) + 5) with (Z.succ (Z.log2 n)) by lia.
    replace (64 - (68 - Z.log2 n) - 1 + 5) with (Z.log2 n) by lia. lia.
Qed.

Lemma align_up_pow2 x k : 0 <= k < 64 -> 0 <= x -> x + 2 ^ k <= 2 ^ 64 ->
  align_up x (2 ^ k) = (x + 2 ^ k - 1) / 2 ^ k * 2 ^ k.
Proof.
  intros Hk Hx Hb. assert (0 < 2 ^ k) by (apply Z.pow_pos_nonneg; lia).
  unfold align_up, u64. rewrite Z.mod_small by lia.
  replace (2 ^ k - 1) with (Z.ones k) by (rewrite Z.ones_equiv; lia).
  rewrite <- Z.ldiff_land, Z.ldiff_ones_r by lia.
  by rewrite Z.shiftr_div_pow2, Z.shiftl_mul_pow2 by lia.
Qed.

(** The header padding of an aligned block is exactly the alignment. *)
Lemma align_up_hdr k : 4 <= k < 64 -> align_up HDRSIZE (2 ^ k) = 2 ^ k.
Proof.
  intros Hk. assert (16 <= 2 ^ k) by (change 16 with (2 ^ 4); apply Z.pow_le_mono_r; lia).
  assert (2 ^ k <= 2 ^ 63) by (apply Z.pow_le_mono_r; lia).
  rewrite align_up_pow2 by (unfold HDRSIZE; lia). unfold HDRSIZE.
  rewrite <- (Z.div_unique (8 + 2 ^ k - 1) (2 ^ k) 1 7) by lia. lia.
Qed.

Lemma align_up_block a k : 4 <= k < 63 -> (2 ^ k | a) -> 0 <= a -> a + 2 ^ k < 2 ^ 64 ->
  align_up (a + HDRSIZE) (2 ^ k) = a + 2 ^ k.
Proof.
  intros Hk [q ->] Ha Hlt. assert (16 <= 2 ^ k) by (change 16 with (2 ^ 4); apply Z.pow_le_mono_r; lia).
  assert (E : 2 ^ 64 = 2 ^ (64 - k) * 2 ^ k) by (rewrite <- Z.pow_add_r by lia; f_equal; lia).
  assert (q + 1 < 2 ^ (64 - k)) by (rewrite E in Hlt; apply (Zmult_gt_0_lt_reg_r _ _ (2 ^ k)); lia).
  assert ((q + 2) * 2 ^ k <= 2 ^ 64) by (rewrite E; apply Z.mul_le_mono_nonneg_r; lia).
  rewrite align_up_pow2 by (unfold HDRSIZE; lia). unfold HDRSIZE.
  rewrite <- (Z.div_unique (q * 2 ^ k + 8 + 2 ^ k - 1) (2 ^ k) (q + 1) 7) by lia. lia.
Qed.

(** ** Headers *)

Definition hdr_wf (h : memalloc_hdr) : Prop :=
  0 <= mh_alignpad h < 2 ^ 32 /\ 0 <= mh_magic h < 2 ^ 16 /\
  0 <= mh_index h < 256 /\ 0 <= mh_who h < 256.

Lemma hdr_roundtrip h : hdr_wf h -> hdr_of_bytes (hdr_bytes h) = h.
Proof.
  destruct h as [ap mg ix w]. unfold hdr_wf, hdr_of_bytes, hdr_bytes, u8. simpl mh_alignpad. simpl mh_magic.
  simpl mh_index. simpl mh_who. intros (H1 & H2 & H3 & H4). cbn [nth].
  change (2 ^ 8) with 256 in *. change (2 ^ 16) with 65536 in *. change (2 ^ 24) with 16777216.
  change (2 ^ 32) with 4294967296 in *. f_equal; Z.to_euclidean_division_equations; lia.
Qed.
Lemma hdr_bytes_length h : length (hdr_bytes h) = 8%nat.
Proof. done. Qed.

(** ** The raw layer: blocks handed out, blocks on the free lists *)
Section Thms.
Context {P : Type} `{PA : PageAllocator P}.
Implicit Types (s : mastate P) (raw : gmap Z Z).

(** [a] is a block of bucket [b], free or (in [raw]) handed out. *)
Definition on_bucket s (b a : Z) : Prop :=
  0 <= b /\ exists l, freebuckets s !! Z.to_nat b = Some l /\ a ∈ l.
Definition is_blk s raw (b a : Z) : Prop := on_bucket s b a \/ raw !! a = Some b.

Record raw_inv s raw : Prop := {
  ri_pg : pa_inv (ma_pg s);
  ri_fb : length (freebuckets s) = Z.to_nat LOCALBUCKETS;
  ri_nodup : forall i l, freebuckets s !! i = Some l -> NoDup l;
  ri_blk : forall b a, is_blk s raw b a -> 0 <= b <= 58 /\ (bsize b | a) /\
    pa_lo (ma_pg s) <= a /\ a + bsize b <= pa_hi (ma_pg s);
  ri_priv : forall b a x, is_blk s raw b a -> in_bkt a b x -> ~ pa_free (ma_pg s) x;
  ri_disj : forall b a b' a' x, is_blk s raw b a -> is_blk s raw b' a' ->
    in_bkt a b x -> in_bkt a' b' x -> a = a' /\ b = b';
  ri_used : forall b a, on_bucket s b a -> raw !! a = None;
  ri_count : forall b, 0 <= b < LOCALBUCKETS ->
    nmalloc s !! Z.to_nat b = Some (u32 (Z.of_nat (size (filter (fun '(_, i) => i = b) raw))));
  ri_lock : malloc_slock s = false
}.

(** Everything but the allocator's own lists is left alone. *)
Definition same_frame s s' : Prop :=
  ma_mem s' = ma_mem s /\ pa_lo (ma_pg s') = pa_lo (ma_pg s) /\ pa_hi (ma_pg s') = pa_hi (ma_pg s).

Definition raw_alloc_post s raw b : Z -> mastate P -> Prop := fun r s' =>
  same_frame s s' /\
  ((r = 0 /\ raw_inv s' raw) \/
   (r <> 0 /\ raw !! r = None /\ (forall x, in_bkt r b x -> forall b' a', raw !! a' = Some b' -> ~ in_bkt a' b' x)
    /\ raw_inv s' (<[r := b]> raw))).

Definition nout raw (b : Z) : Z := Z.of_nat (size (filter (fun '(_, i) => i = b) raw)).

Lemma nout_insert raw a b c : raw !! a = None ->
  nout (<[a := b]> raw) c = nout raw c + (if decide (b = c) then 1 else 0).
Proof.
  intros Ha. unfold nout. destruct (decide (b = c)) as [->|Hne].
  - rewrite map_filter_insert_True by done. rewrite map_size_insert_None; [lia|].
    apply map_lookup_filter_None. by left.
  - rewrite map_filter_insert_False by done. rewrite delete_id by done. lia.
Qed.
Lemma nout_delete raw a b c : raw !! a = Some b ->
  nout (delete a raw) c = nout raw c - (if decide (b = c) then 1 else 0).
Proof.
  intros Ha. rewrite <- (insert_delete_id raw a b Ha) at 2.
  rewrite nout_insert by apply lookup_delete_eq. lia.
Qed.
Lemma u32_step n d : u32 (u32 n + d) = u32 (n + d).
Proof. unfold u32. by rewrite Z.add_mod_idemp_l. Qed.

(** Moving a block between a free list and [raw] keeps the set of blocks. *)
Lemma raw_inv_blocks s raw s' raw' : raw_inv s raw -> ma_pg s' = ma_pg s ->
  length (freebuckets s') = Z.to_nat LOCALBUCKETS ->
  (forall i l, freebuckets s' !! i = Some l -> NoDup l) ->
  (forall b a, is_blk s' raw' b a -> is_blk s raw b a) ->
  (forall b a, on_bucket s' b a -> raw' !! a = None) ->
  (forall b, 0 <= b < LOCALBUCKETS -> nmalloc s' !! Z.to_nat b = Some (u32 (nout raw' b))) ->
  malloc_slock s' = false -> raw_inv s' raw'.
Proof.
  intros [Hpg Hfb Hnd Hblk Hpr Hdj Hus Hct Hlk] Epg Hfb' Hnd' Hsub Hus' Hct' Hlk'.
  split; rewrite ?Epg; try done.
  - intros b a H. by apply Hblk, Hsub.
  - intros b a x H. by apply Hpr, Hsub.
  - intros b a b' a' x H H'. by apply (Hdj b a b' a' x); apply Hsub.
Qed.

Lemma on_bucket_insert s b l c a s' : on_bucket s' c a ->
  freebuckets s' = <[Z.to_nat b := l]> (freebuckets s) -> 0 <= b -> (c = b /\ a ∈ l) \/ (c <> b /\ on_bucket s c a).
Proof.
  intros [Hc (l' & Hl & Ha)] E Hb. rewrite E in Hl.
  destruct (decide (c = b)) as [->|Hne]; [left|right; split; [done|]].
  - apply list_lookup_insert_Some in Hl as [(_ & -> & _)|[? _]]; done.
  - rewrite list_lookup_insert_ne in Hl by lia. split; [done|]. by exists l'.
Qed.

Lemma wp_bucket_insert_head s b a l Q : freebuckets s !! Z.to_nat b = Some l ->
  Q tt (set_fb (<[Z.to_nat b := a :: l]> (freebuckets s)) s) -> wp (bucket_insert_head b a) Q s.
Proof.
  intros Hl HQ. unfold bucket_insert_head, bucket_get.
  apply wp_bind, wp_bind, wp_get. by apply (wp_opt _ _ l).
Qed.
Lemma wp_nmalloc_add s b d n Q : nmalloc s !! Z.to_nat b = Some n ->
  Q tt (set_nmalloc (<[Z.to_nat b := u32 (n + d)]> (nmalloc s)) s) -> wp (nmalloc_add b d) Q s.
Proof.
  intros Hl HQ. unfold nmalloc_add. apply wp_bind, wp_get, wp_bind. by apply (wp_opt _ _ n).
Qed.

(** The blocks [morecore] cuts off a page, last one first. *)
Fixpoint carve (rv sz : Z) (k : nat) : list Z :=
  match k with O => [] | S k' => (rv + Z.of_nat k * sz) :: carve rv sz k' end.

Lemma elem_of_carve rv sz k a : 0 < sz ->
  a ∈ carve rv sz k <-> exists j, 1 <= j <= Z.of_nat k /\ a = rv + j * sz.
Proof.
  intros Hsz. induction k as [|k IH]; cbn [carve].
  - rewrite elem_of_nil. split; [done|]. intros (j & ? & _). lia.
  - rewrite elem_of_cons, IH. split.
    + intros [->|(j & ? & ->)]; [exists (Z.of_nat (S k))|exists j]; split; lia.
    + intros (j & ? & ->). destruct (decide (j = Z.of_nat (S k))) as [->|]; [by left|].
      right. exists j. split; [lia|done].
Qed.
Lemma carve_nodup rv sz k : 0 < sz -> NoDup (carve rv sz k).
Proof.
  intros Hsz. induction k as [|k IH]; cbn [carve]; constructor; [|done].
  rewrite elem_of_carve by done. intros (j & ? & ?).
  assert (Z.of_nat (S k) = j) by (apply (Z.mul_cancel_r _ _ sz); lia). lia.
Qed.

(** A small block size divides the page. *)
Lemma small_bsize b : 0 <= b < LOCALBUCKETS ->
  exists n, 2 <= n <= 128 /\ 4096 = n * bsize b /\ BMK_PCPU_PAGE_SIZE / bsize b = n /\ 32 <= bsize b.
Proof.
  unfold LOCALBUCKETS, BMK_PCPU_PAGE_SHIFT, MINSHIFT. intros Hb. exists (2 ^ (7 - b)).
  assert (b = 0 \/ b = 1 \/ b = 2 \/ b = 3 \/ b = 4 \/ b = 5 \/ b = 6) as E by lia.
  destruct E as [->|[->|[->|[->|[->|[->| ->]]]]]]; vm_compute; intuition congruence.
Qed.

Definition page_taken (p : P) (r : Z) (p' : P) : Prop :=
  pa_inv p' /\ pa_lo p' = pa_lo p /\ pa_hi p' = pa_hi p /\ r <> 0 /\ (4096 | r) /\
  pa_lo p <= r /\ r + 4096 <= pa_hi p /\ (forall x, r <= x < r + 4096 -> pa_free p x) /\
  (forall x, pa_free p' x <-> pa_free p x /\ ~ (r <= x < r + 4096)).

Lemma wp_morecore s b : pa_inv (ma_pg s) -> 0 <= b < LOCALBUCKETS ->
  freebuckets s !! Z.to_nat b = Some [] ->
  wp (morecore b) (fun r s' => exists p',
    (r = 0 /\ s' = set_pg p' s /\ pa_inv p' /\ pa_lo p' = pa_lo (ma_pg s) /\
     pa_hi p' = pa_hi (ma_pg s) /\ forall x, pa_free p' x <-> pa_free (ma_pg s) x) \/
    (page_taken (ma_pg s) r p' /\
     s' = set_fb (<[Z.to_nat b := carve r (bsize b) (Z.to_nat (BMK_PCPU_PAGE_SIZE / bsize b - 1))]>
            (freebuckets s)) (set_pg p' s))) s.
Proof.
  intros Hpg Hb Hl. destruct (small_bsize b Hb) as (n & Hn & H4 & Hq & H32).
  unfold morecore. rewrite Z.shiftl_1_l. fold (bsize b). rewrite Hq.
  apply wp_bind, wp_assert; [lia|]. apply wp_bind, wp_zoom. eapply wp_mono; [by apply pa_alloc_ok|].
  intros r p' (Hi & Elo & Ehi & [(-> & Hf)|(Hr & Hal & Hlo & Hhi & Hwas & Hnow)]).
  { apply wp_ret. exists p'. left. by split_and!. }
  rewrite (proj2 (Z.eqb_neq _ _) Hr). apply wp_bind.
  apply (wp_mono _ (fun _ s' => s' = set_fb (<[Z.to_nat b := carve r (bsize b) (Z.to_nat (n - 1))]>
    (freebuckets s)) (set_pg p' s)));
    [|intros [] s' ->; apply wp_ret; exists p'; right; split; [by split_and!|reflexivity]].
  apply (wp_loop _ (fun '(p, m) s' => exists k : nat, Z.of_nat k < n /\ m = n - Z.of_nat k /\
    p = r + Z.of_nat k * bsize b /\
    s' = set_fb (<[Z.to_nat b := carve r (bsize b) k]> (freebuckets s)) (set_pg p' s))
    (fun '(_, m) _ => m)); cbv beta iota zeta.
  - intros [p m] s' (k & Hk & -> & -> & ->). split; [lia|].
    destruct (Z.eqb_spec (n - Z.of_nat k - 1) 0).
    + apply wp_ret. replace (Z.to_nat (n - 1)) with k by lia. done.
    + apply wp_bind. eapply wp_bucket_insert_head.
      { cbn. apply list_lookup_insert_eq. by eapply lookup_lt_Some. }
      apply wp_ret. split; [|lia]. exists (S k). split_and!; [lia..|].
      unfold set_fb, set_pg; cbn. rewrite list_insert_insert_eq. cbn [carve]. do 2 f_equal. f_equal. lia.
  - exists 0%nat. split_and!; [lia..|]. cbn [carve]. rewrite list_insert_id by done. by destruct s.
  - lia.
Qed.

(** Blocks of the allocator are not in the page allocator's free memory. *)
Lemma blk_not_free s raw b a x : raw_inv s raw -> is_blk s raw b a ->
  in_bkt a b x -> pa_free (ma_pg s) x -> False.
Proof. intros Hi Hb Hx Hf. by apply (ri_priv _ _ Hi b a x). Qed.

Lemma in_bkt_self s raw b a : raw_inv s raw -> is_blk s raw b a -> in_bkt a b a.
Proof.
  intros Hi Hb. destruct (ri_blk _ _ Hi b a Hb) as [? _].
  pose proof (bsize_pos b ltac:(lia)). unfold in_bkt. lia.
Qed.

Section Morecore.
Context (s s' : mastate P) (raw : gmap Z Z) (b r : Z) (p' : P) (n : Z).
Hypothesis Hi : raw_inv s raw.
Hypothesis Hb : 0 <= b < LOCALBUCKETS.
Hypothesis Hempty : freebuckets s !! Z.to_nat b = Some [].
Hypothesis Hpt : page_taken (ma_pg s) r p'.
Hypothesis Hn : 2 <= n <= 128 /\ 4096 = n * bsize b.
Hypothesis Epg : ma_pg s' = p'.
Hypothesis Efb : freebuckets s' = <[Z.to_nat b := carve r (bsize b) (Z.to_nat (n - 1))]> (freebuckets s).

Lemma morecore_fresh c : raw !! r = Some c -> False.
Proof using Hi Hpt.
  intros Hr. destruct Hpt as (_ & _ & _ & _ & _ & _ & _ & Hwas & _).
  apply (blk_not_free s raw c r r Hi); [by right| |apply Hwas; lia].
  apply (in_bkt_self s raw); [done|by right].
Qed.

Lemma morecore_blk c a : is_blk s' (<[r := b]> raw) c a ->
  (c = b /\ exists j, 0 <= j < n /\ a = r + j * bsize b) \/ is_blk s raw c a.
Proof using Hb Hn Efb.
  assert (0 < bsize b) by (apply bsize_pos; lia). intros [H1|H1].
  - destruct (on_bucket_insert s b _ c a s' H1 Efb ltac:(lia)) as [[-> Ha]|[_ Ha]]; [left|by right; left].
    apply elem_of_carve in Ha as (j & Hj & ->); [|done]. split; [done|]. exists j. split; [lia|done].
  - destruct (decide (a = r)) as [->|Hne].
    + rewrite lookup_insert_eq in H1. injection H1 as <-. left. split; [done|]. exists 0. split; lia.
    + rewrite lookup_insert_ne in H1 by done. by right; right.
Qed.

Lemma morecore_page j x : 0 <= j < n -> in_bkt (r + j * bsize b) b x -> r <= x < r + 4096.
Proof using Hn. unfold in_bkt. intros. nia. Qed.

Lemma raw_inv_morecore :
  nmalloc s' = <[Z.to_nat b := u32 (nout raw b + 1)]> (nmalloc s) -> malloc_slock s' = false ->
  raw_inv s' (<[r := b]> raw).
Proof using All.
  intros Enm Elk. pose proof Hi as [Hpg Hfb Hnd Hblk Hpr Hdj Hus Hct Hlk].
  destruct Hpt as (Hpi & Elo & Ehi & Hr & Hal & Hlo & Hhi & Hwas & Hnow).
  assert (Hbs : 0 < bsize b) by (apply bsize_pos; lia).
  assert (HLB : LOCALBUCKETS = 7) by reflexivity.
  assert (Hold : forall c a x, is_blk s raw c a -> in_bkt a c x -> ~ (r <= x < r + 4096)).
  { intros c a x H1 H2 H3. by apply (blk_not_free s raw c a x), Hwas. }
  split; rewrite ?Epg, ?Elo, ?Ehi; try done.
  - by rewrite Efb, length_insert.
  - intros i l. rewrite Efb. intros [(_ & <- & _)|[_ H]]%list_lookup_insert_Some; [|by eapply Hnd].
    by apply carve_nodup.
  - intros c a [(-> & j & Hj & ->)|H]%morecore_blk; [|by apply Hblk].
    split; [lia|]. split; [|nia]. apply Z.divide_add_r; [|apply Z.divide_factor_r].
    etransitivity; [|exact Hal]. exists n. lia.
  - intros c a x [(-> & j & Hj & ->)|H]%morecore_blk Hx; rewrite Hnow; intros [Hf Hf'].
    + by apply Hf', (morecore_page j).
    + by eapply (blk_not_free s raw).
  - intros c a c' a' x [(-> & j & Hj & ->)|H]%morecore_blk [(-> & j' & Hj' & ->)|H']%morecore_blk Hx Hx'.
    + unfold in_bkt in *. assert (j = j') as -> by nia. done.
    + by destruct (Hold c' a' x H' Hx'); apply (morecore_page j).
    + by destruct (Hold c a x H Hx); apply (morecore_page j').
    + by apply (Hdj c a c' a' x).
  - intros c a Ho. destruct (on_bucket_insert s b _ c a s' Ho Efb ltac:(lia)) as [[-> Ha]|[_ Ha]].
    + apply elem_of_carve in Ha as (j & Hj & ->); [|done].
      rewrite lookup_insert_ne by nia. apply eq_None_not_Some. intros [c Hc].
      assert (Hblk' : is_blk s raw c (r + j * bsize b)) by by right.
      apply (Hold _ _ (r + j * bsize b) Hblk'); [by eapply in_bkt_self|]. nia.
    + rewrite lookup_insert_ne; [by eapply Hus|]. intros ->.
      assert (Hblk' : is_blk s raw c a) by by left.
      apply (Hold _ _ a Hblk'); [by eapply in_bkt_self|]. lia.
  - intros c Hc. rewrite Enm. fold (nout (<[r := b]> raw) c). rewrite nout_insert
      by (apply eq_None_not_Some; intros [? ?]; by eapply morecore_fresh).
    destruct (decide (b = c)) as [->|Hne].
    + rewrite list_lookup_insert_eq; [done|]. specialize (Hct c Hc). by eapply lookup_lt_Some.
    + rewrite list_lookup_insert_ne by lia. rewrite Z.add_0_r. by apply Hct.
Qed.
End Morecore.

Lemma disj_new s raw s' r b : raw_inv s' (<[r := b]> raw) -> raw !! r = None ->
  forall x, in_bkt r b x -> forall b' a', raw !! a' = Some b' -> ~ in_bkt a' b' x.
Proof.
  intros Hi Hr x Hx b' a' Ha Hx'.
  assert (a' <> r) by congruence.
  destruct (ri_disj _ _ Hi b r b' a' x) as [? _]; [right; by rewrite lookup_insert_eq| |done..|done].
  right. by rewrite lookup_insert_ne.
Qed.

Lemma wp_bucketalloc s raw b : raw_inv s raw -> 0 <= b < LOCALBUCKETS ->
  wp (bucketalloc b) (raw_alloc_post s raw b) s.
Proof.
  intros Hi Hb. pose proof Hi as [Hpg Hfb Hnd Hblk Hpr Hdj Hus Hct Hlk].
  assert (HLB : LOCALBUCKETS = 7) by reflexivity.
  unfold bucketalloc, malloc_lock, bucket_get.
  apply wp_bind, wp_bind, wp_get. rewrite Hlk. apply wp_modify.
  destruct (lookup_lt_is_Some_2 (freebuckets s) (Z.to_nat b)) as [l Hl]; [lia|].
  apply wp_bind, wp_bind, wp_get, (wp_opt _ _ l); [done|].
  assert (Hnm : forall t : mastate P, nmalloc t = nmalloc s ->
    nmalloc t !! Z.to_nat b = Some (u32 (nout raw b))) by (intros t ->; by apply Hct).
  destruct l as [|a l].
  - apply wp_bind. eapply wp_mono; [by apply wp_morecore|].
    intros r s' (p' & [(-> & -> & Hi' & Elo & Ehi & Hf)|(Hpt & ->)]).
    + apply wp_bind, wp_modify, wp_ret. split; [by split_and!|]. left. split; [done|].
      split; cbn; rewrite ?Elo, ?Ehi; try done.
      intros c x y Hc Hy Hfy. apply Hf in Hfy. by apply (Hpr c x y).
    + pose proof Hpt as (_ & Elo & Ehi & Hr & _). cbn in Hr. rewrite (proj2 (Z.eqb_neq _ _) Hr).
      apply wp_bind, (wp_nmalloc_add _ _ _ (u32 (nout raw b))); [by apply Hnm|].
      apply wp_bind, wp_modify, wp_ret. split; [by split_and!|]. right.
      destruct (small_bsize b Hb) as (n & Hn & H4 & Hq & H32).
      assert (Hfr : raw !! r = None) by (apply eq_None_not_Some; intros [? ?]; by eapply morecore_fresh).
      match goal with |- _ /\ _ /\ _ /\ raw_inv ?t _ => assert (Hni : raw_inv t (<[r := b]> raw)) end.
      { apply (raw_inv_morecore s _ raw b r p' n); try done; cbn; rewrite ?Hq, ?u32_step; done. }
      split_and!; [done..| |done]. by eapply disj_new.
  - apply wp_bind, wp_bind, wp_modify, wp_ret.
    assert (Hon : on_bucket s b a) by (split; [lia|]; exists (a :: l); split; [done|by left]).
    destruct (ri_blk _ _ Hi b a (or_introl Hon)) as (_ & _ & Hlo & _).
    pose proof (pa_region_ok _ Hpg). rewrite (proj2 (Z.eqb_neq a 0) ltac:(lia)).
    apply wp_bind, (wp_nmalloc_add _ _ _ (u32 (nout raw b))); [by apply Hnm|].
    apply wp_bind, wp_modify, wp_ret. cbn. split; [by split_and!|]. right.
    assert (Hfr : raw !! a = None) by by eapply Hus.
    pose proof (Hnd _ _ Hl) as [Hal Hndl]%NoDup_cons.
    match goal with |- _ /\ _ /\ _ /\ raw_inv ?t _ => assert (Hni : raw_inv t (<[a := b]> raw)) end.
    { eapply raw_inv_blocks; [exact Hi|done|cbn; by rewrite length_insert| | | | |done]; cbn.
      - intros i l'. intros [(_ & <- & _)|[_ H']]%list_lookup_insert_Some; [done|by eapply Hnd].
      - intros c x [H'|H'].
        + left. destruct (on_bucket_insert s b l c x _ H' eq_refl ltac:(lia)) as [[-> Hx]|[_ Hx]]; [|done].
          split; [lia|]. exists (a :: l). split; [done|by right].
        + apply lookup_insert_Some in H' as [[<- <-]|[_ H']]; [by left|by right].
      - intros c x H'. destruct (on_bucket_insert s b l c x _ H' eq_refl ltac:(lia)) as [[-> Hx]|[Hne Hx]].
        + rewrite lookup_insert_ne by (intros ->; done). apply (Hus b). split; [lia|].
          exists (a :: l). split; [done|by right].
        + rewrite lookup_insert_ne; [by eapply Hus|]. intros ->. apply Hne.
          destruct (Hdj c x b x x) as [_ ?]; try (by left); try done; by apply (in_bkt_self s raw); [|left].
      - intros c Hc. rewrite u32_step, nout_insert by done. destruct (decide (b = c)) as [->|Hne].
        + apply list_lookup_insert_eq. eapply lookup_lt_Some. by apply Hct.
        + rewrite list_lookup_insert_ne by lia. rewrite Z.add_0_r. by apply Hct. }
    split_and!; [lia|done| |done]. by eapply disj_new.
Qed.

(** A block of whole pages taken from the page allocator joins the blocks in
    use; a failed request changes nothing. *)
Lemma raw_inv_take s raw b r p' : raw_inv s raw -> LOCALBUCKETS <= b <= 58 ->
  pa_inv p' -> pa_lo p' = pa_lo (ma_pg s) -> pa_hi p' = pa_hi (ma_pg s) ->
  (bsize b | r) -> pa_lo (ma_pg s) <= r -> r + bsize b <= pa_hi (ma_pg s) ->
  (forall x, in_bkt r b x -> pa_free (ma_pg s) x) ->
  (forall x, pa_free p' x <-> pa_free (ma_pg s) x /\ ~ in_bkt r b x) ->
  raw !! r = None /\ (forall x, in_bkt r b x -> forall b' a', raw !! a' = Some b' -> ~ in_bkt a' b' x) /\
  raw_inv (set_pg p' s) (<[r := b]> raw).
Proof.
  intros Hi Hb Hi' Elo Ehi Hal Hlo Hhi Hwas Hnow.
  pose proof Hi as [Hpg Hfb Hnd Hblk Hpr Hdj Hus Hct Hlk].
  assert (HLB : LOCALBUCKETS = 7) by reflexivity.
  assert (Hold : forall c a x, is_blk s raw c a -> in_bkt a c x -> ~ in_bkt r b x).
  { intros c a x H1 H2 H3. by apply (blk_not_free s raw c a x), Hwas. }
  assert (Hself : in_bkt r b r) by (pose proof (bsize_pos b ltac:(lia)); unfold in_bkt; lia).
  assert (Hfr : raw !! r = None).
  { apply eq_None_not_Some. intros [c Hc]. apply (Hold c r r); [by right| |done].
    apply (in_bkt_self s raw); [done|by right]. }
  assert (Hsplit : forall c a, is_blk (set_pg p' s) (<[r := b]> raw) c a ->
    (c = b /\ a = r) \/ is_blk s raw c a).
  { intros c a [H1|[[<- <-]|[_ H1]]%lookup_insert_Some]; [by right; left|by left|by right; right]. }
  split_and!; [done..| |].
  { intros x Hx b' a' Ha Hx'. by apply (Hold b' a' x); [right| |]. }
  split; cbn; rewrite ?Elo, ?Ehi; try done.
  + intros c a [[-> ->]|H1]%Hsplit; [by split_and!; try lia|by apply Hblk].
  + intros c a x [[-> ->]|H1]%Hsplit Hx [Hf Hf']%Hnow; [by apply Hf'|by apply (Hpr c a x)].
  + intros c a c' a' x [[-> ->]|H1]%Hsplit [[-> ->]|H2]%Hsplit Hx Hx'; [done| | |by apply (Hdj c a c' a' x)].
    * by destruct (Hold c' a' x).
    * by destruct (Hold c a x).
  + intros c a Ho. rewrite lookup_insert_ne; [by eapply Hus|]. intros ->.
    apply (Hold c a a); [by left| |done]. apply (in_bkt_self s raw); [done|by left].
  + intros c Hc. fold (nout (<[r := b]> raw) c). rewrite nout_insert by done.
    rewrite decide_False by lia. rewrite Z.add_0_r. by apply Hct.
Qed.

Lemma raw_inv_same s raw p' : raw_inv s raw -> pa_inv p' -> pa_lo p' = pa_lo (ma_pg s) ->
  pa_hi p' = pa_hi (ma_pg s) -> (forall x, pa_free p' x <-> pa_free (ma_pg s) x) ->
  raw_inv (set_pg p' s) raw.
Proof.
  intros [Hpg Hfb Hnd Hblk Hpr Hdj Hus Hct Hlk] Hi' Elo Ehi Hf.
  split; cbn; rewrite ?Elo, ?Ehi; try done.
  intros c x y Hc Hy Hfy. apply Hf in Hfy. by apply (Hpr c x y).
Qed.

Lemma wp_block_alloc s raw b : raw_inv s raw -> 0 <= b <= 58 ->
  wp (block_alloc b) (raw_alloc_post s raw b) s.
Proof.
  intros Hi Hb. unfold block_alloc. destruct (Z.leb_spec LOCALBUCKETS b); [|apply wp_bucketalloc; [done|lia]].
  apply wp_zoom. eapply wp_mono.
  { apply pa_alloc_ok; [apply Hi|]. assert (LOCALBUCKETS = 7) by reflexivity.
    unfold MINSHIFT, BMK_PCPU_PAGE_SHIFT. lia. }
  rewrite csize_bsize by done.
  intros r p' (Hi' & Elo & Ehi & [(-> & Hf)|(Hr & Hal & Hlo & Hhi & Hwas & Hnow)]).
  - split; [by split_and!|]. left. split; [done|]. by apply raw_inv_same.
  - split; [by split_and!|]. right.
    assert (Hin : forall x, in_block (b + MINSHIFT - BMK_PCPU_PAGE_SHIFT) r x <-> in_bkt r b x).
    { intros x. unfold in_block, in_bkt. by rewrite csize_bsize. }
    split; [done|]. apply raw_inv_take; try done; [lia|..].
    + intros x Hx. by apply Hwas, Hin.
    + intros x. by rewrite Hnow, Hin.
Qed.

(** Returning a block. *)
Definition block_free (origp index : Z) : M (mastate P) unit :=
  if LOCALBUCKETS <=? index
  then in_pg (pa_release origp (index + MINSHIFT - BMK_PCPU_PAGE_SHIFT))
  else malloc_lock ;;; bucket_insert_head index origp ;;; nmalloc_add index (-1) ;;; malloc_unlock.

Lemma wp_block_free s raw b a : raw_inv s raw -> raw !! a = Some b ->
  wp (block_free a b) (fun _ s' => same_frame s s' /\ raw_inv s' (delete a raw)) s.
Proof.
  intros Hi Ha. pose proof Hi as [Hpg Hfb Hnd Hblk Hpr Hdj Hus Hct Hlk].
  destruct (Hblk b a (or_intror Ha)) as (Hb & Hal & Hlo & Hhi).
  assert (HLB : LOCALBUCKETS = 7) by reflexivity. unfold block_free.
  assert (Hdel : forall c, nout (delete a raw) c = nout raw c - (if decide (b = c) then 1 else 0))
    by (intros; by apply nout_delete).
  destruct (Z.leb_spec LOCALBUCKETS b).
  - assert (Hin : forall x, in_block (b + MINSHIFT - BMK_PCPU_PAGE_SHIFT) a x <-> in_bkt a b x).
    { intros x. unfold in_block, in_bkt. by rewrite csize_bsize. }
    apply wp_zoom. eapply wp_mono.
    { apply pa_release_ok; rewrite ?csize_bsize by done; try done.
      - unfold MINSHIFT, BMK_PCPU_PAGE_SHIFT; lia.
      - intros x Hx%Hin. by apply (Hpr b a x); [right|]. }
    intros [] p' (Hi' & Elo & Ehi & Hnow). split; [by split_and!|].
    assert (Hsplit : forall c x, is_blk (set_pg p' s) (delete a raw) c x -> is_blk s raw c x).
    { intros c x [H1|[_ H1]%lookup_delete_Some]; [by left|by right]. }
    split; cbn; rewrite ?Elo, ?Ehi; try done.
    + intros c x H1. by apply Hblk, Hsplit.
    + intros c x y H1 Hy [Hf|Hf%Hin]%Hnow; [by apply (Hpr c x y); [apply Hsplit| |]|].
      destruct (Hdj c x b a y) as [-> ->]; [by apply Hsplit|by right|done|done|].
      destruct H1 as [H1|H1]; [by rewrite (Hus _ _ H1) in Ha|by rewrite lookup_delete_eq in H1].
    + intros c x c' x' y H1 H2. apply (Hdj c x c' x' y); by apply Hsplit.
    + intros c x Ho. rewrite lookup_delete_None. right. by eapply Hus.
    + intros c Hc. fold (nout (delete a raw) c). rewrite Hdel, decide_False, Z.sub_0_r by lia. by apply Hct.
  - unfold malloc_lock. apply wp_bind, wp_bind, wp_get. rewrite Hlk. apply wp_modify, wp_bind.
    destruct (lookup_lt_is_Some_2 (freebuckets s) (Z.to_nat b)) as [l Hl]; [lia|].
    eapply wp_bucket_insert_head; [exact Hl|].
    apply wp_bind. eapply wp_nmalloc_add; [by apply Hct; lia|]. apply wp_modify.
    split; [by split_and!|]. cbn. fold (nout raw b).
    assert (Hnl : a ∉ l) by (intros Hin; rewrite (Hus b a) in Ha; [done|split; [lia|eauto]]).
    eapply raw_inv_blocks; [exact Hi|done|cbn; by rewrite length_insert| | | | |done]; cbn.
    + intros i l' [(_ & <- & _)|[_ H']]%list_lookup_insert_Some; [|by eapply Hnd].
      apply NoDup_cons. split; [done|by eapply Hnd].
    + intros c x [H'|[_ H']%lookup_delete_Some]; [|by right].
      destruct (on_bucket_insert s b _ c x _ H' eq_refl ltac:(lia)) as [[-> [->|Hx]%elem_of_cons]|[_ Hx]];
        [by right| |by left]. left. split; [lia|eauto].
    + intros c x H'. rewrite lookup_delete_None.
      destruct (on_bucket_insert s b _ c x _ H' eq_refl ltac:(lia)) as [[-> [->|Hx]%elem_of_cons]|[_ Hx]];
        [by left| |by right; eapply Hus]. right. apply (Hus b). split; [lia|eauto].
    + intros c Hc. rewrite Hdel, u32_step. destruct (decide (b = c)) as [->|Hne].
      * rewrite list_lookup_insert_eq; [done|]. eapply lookup_lt_Some. by apply Hct.
      * rewrite list_lookup_insert_ne by lia. rewrite Z.sub_0_r. by apply Hct.
Qed.
End Thms.
