(* ===== verification/MemallocInv.v ===== *)
(** * The byte allocator: live blocks and their contents *)

From S2P Require Import Prelude Pgalloc PgallocInv PageIface CString CStringThms Memalloc MemallocThms.

(** A block a client holds: its bucket, the distance of the returned pointer
    from the block, its owner class and the number of bytes asked for. *)
Record lblk := Lb { lb_index : Z; lb_pad : Z; lb_who : bmk_memwho; lb_req : Z }.

Definition lb_hdr (l : lblk) : memalloc_hdr :=
  MkHdr (lb_pad l) MAGIC (lb_index l) (who_num (lb_who l)).
Definition lb_base (p : Z) (l : lblk) : Z := p - lb_pad l.
(** The bytes behind the pointer that belong to the block. *)
Definition lb_usable (l : lblk) : Z := bsize (lb_index l) - lb_pad l.
Definition in_user (p : Z) (l : lblk) (x : Z) : Prop := p <= x < p + lb_req l.

(** What a request for [nbytes] at alignment [align] becomes. *)
Definition lblk_for (nbytes align : Z) (who : bmk_memwho) : lblk :=
  let pad := Z.max align MINALIGN in Lb (bucket_for (nbytes + pad)) pad who nbytes.

(** The requests the allocator supports. *)
Definition req_ok (nbytes align : Z) : Prop :=
  0 <= nbytes <= 2 ^ 62 /\ (align = 0 \/ exists k, 0 <= k <= 31 /\ align = 2 ^ k).

Section Inv.
Context {P : Type} `{PA : PageAllocator P}.
Implicit Types (s : mastate P) (raw : gmap Z Z) (live : gmap Z lblk).

Record live_inv (m : gmap Z Z) raw live : Prop := {
  li_blk : forall p l, live !! p = Some l ->
    raw !! lb_base p l = Some (lb_index l) /\
    bytes_at m (p - HDRSIZE) (hdr_bytes (lb_hdr l)) /\
    16 <= lb_pad l <= 2 ^ 31 /\ ((16 | lb_pad l) /\ (lb_pad l | p)) /\ 0 <= lb_req l <= lb_usable l;
  li_inj : forall p l p' l', live !! p = Some l -> live !! p' = Some l' ->
    lb_base p l = lb_base p' l' -> p = p'
}.

Definition region_mem s : Prop :=
  room (ma_mem s) (pa_lo (ma_pg s)) (pa_hi (ma_pg s) - pa_lo (ma_pg s)).

(** The invariant, with the blocks in use known ([raw]) or not. *)
Definition ma_inv_raw s raw live : Prop :=
  raw_inv s raw /\ live_inv (ma_mem s) raw live /\ region_mem s.
Definition ma_inv s live : Prop := exists raw, ma_inv_raw s raw live.

Lemma who_num_range w : 0 <= who_num w < 256.
Proof. destruct w; simpl; lia. Qed.

(** Live blocks do not overlap. *)
Lemma live_disj s raw live p l p' l' x : raw_inv s raw -> live_inv (ma_mem s) raw live ->
  live !! p = Some l -> live !! p' = Some l' ->
  in_bkt (lb_base p l) (lb_index l) x -> in_bkt (lb_base p' l') (lb_index l') x -> p = p'.
Proof.
  intros Hr [Hb Hj] H H' Hx Hx'. destruct (Hb _ _ H) as (R & _), (Hb _ _ H') as (R' & _).
  eapply Hj; [done..|]. by destruct (ri_disj _ _ Hr _ _ _ _ x (or_intror R) (or_intror R') Hx Hx').
Qed.

(** The pointer, its header and its user bytes are inside the block. *)
Lemma live_range m raw live p l x : live_inv m raw live -> live !! p = Some l ->
  p - HDRSIZE <= x < p + lb_usable l -> in_bkt (lb_base p l) (lb_index l) x.
Proof.
  intros [Hb _] H Hx. destruct (Hb _ _ H) as (_ & _ & Hp & _).
  unfold in_bkt, lb_base, lb_usable, HDRSIZE in *. lia.
Qed.

(** Only the header bytes of live blocks matter to the invariant. *)
Lemma live_inv_mem m m' raw live : live_inv m raw live ->
  (forall p l x, live !! p = Some l -> p - HDRSIZE <= x < p -> m' !! x = m !! x) ->
  live_inv m' raw live.
Proof.
  intros [Hb Hj] Hm. split; [|done]. intros p l H. destruct (Hb p l H) as (? & Hh & ?).
  split_and!; try done; [|intuition..]. intros i b Hi. apply lookup_lt_Some in Hi as Hlt.
  rewrite hdr_bytes_length in Hlt. rewrite (Hm p l) by (done || (unfold HDRSIZE; lia)). by apply Hh.
Qed.

Lemma room_sub m a n b k : room m a n -> a <= b -> b + k <= a + n -> room m b k.
Proof. intros H Ha Hk i Hi. replace (b + i) with (a + (b - a + i)) by lia. apply H. lia. Qed.

Lemma raw_inv_set_mem s raw m : raw_inv s raw -> raw_inv (set_mem m s) raw.
Proof. by intros [? ? ? ? ? ? ? ? ?]. Qed.
Lemma stored_region s m d l : region_mem s -> stored (ma_mem s) m d l -> region_mem (set_mem m s).
Proof. intros H Hs. by eapply stored_room. Qed.

(** A small power of two. *)
Lemma pad_pow2 nbytes align : req_ok nbytes align ->
  exists k, 4 <= k <= 31 /\ Z.max align MINALIGN = 2 ^ k.
Proof.
  unfold MINALIGN. intros [_ [->|(k & Hk & ->)]]; [by exists 4|].
  destruct (Z.le_gt_cases 4 k).
  - exists k. split; [lia|]. assert (2 ^ 4 <= 2 ^ k) by (apply Z.pow_le_mono_r; lia). lia.
  - exists 4. split; [lia|]. assert (2 ^ k <= 2 ^ 4) by (apply Z.pow_le_mono_r; lia).
    change (2 ^ 4) with 16 in *. lia.
Qed.

Lemma req_align_test nbytes align : req_ok nbytes align ->
  Z.land align (u64 (align - 1)) = 0 /\ 0 <= align.
Proof.
  intros [_ [->|(k & Hk & ->)]]; [by vm_compute|].
  assert (0 < 2 ^ k <= 2 ^ 31) by (split; [|apply Z.pow_le_mono_r]; lia).
  unfold u64. rewrite Z.mod_small by lia. split; [apply land_pred_of_pow2|]; lia.
Qed.

(** What an allocation gives. *)
Definition memalloc_post s live (l : lblk) : Z -> mastate P -> Prop := fun r s' =>
  (r = 0 /\ ma_inv s' live /\ same_frame s s') \/
  (r <> 0 /\ live !! r = None /\ ma_inv s' (<[r := l]> live) /\
   (forall p' l' x, live !! p' = Some l' -> p' - HDRSIZE <= x < p' + lb_usable l' ->
      ma_mem s' !! x = ma_mem s !! x) /\
   pa_lo (ma_pg s') = pa_lo (ma_pg s) /\ pa_hi (ma_pg s') = pa_hi (ma_pg s)).

Lemma lblk_for_ok nbytes align who : req_ok nbytes align -> let l := lblk_for nbytes align who in
  0 <= lb_index l <= 58 /\ (lb_pad l | bsize (lb_index l)) /\ 16 <= lb_pad l <= 2 ^ 31 /\
  0 <= lb_req l <= lb_usable l.
Proof.
  intros H. destruct (pad_pow2 _ _ H) as (k & Hk & Ek). destruct H as [Hn _].
  unfold lblk_for, lb_usable. cbn. rewrite Ek.
  assert (2 ^ 4 <= 2 ^ k <= 2 ^ 31) by (split; apply Z.pow_le_mono_r; lia).
  change (2 ^ 4) with 16 in *.
  destruct (bucket_for_ok (nbytes + 2 ^ k) ltac:(lia)) as (Hb & Hle & _).
  split_and!; try lia. apply pow2_divide_le. split; [lia|].
  apply (Z.pow_le_mono_r_iff 2); [lia|unfold MINSHIFT; lia|]. unfold bsize in Hle. lia.
Qed.

Lemma hdr_wf_lb l : 16 <= lb_pad l <= 2 ^ 31 -> 0 <= lb_index l <= 58 -> hdr_wf (lb_hdr l).
Proof.
  intros. pose proof (who_num_range (lb_who l)). unfold hdr_wf, lb_hdr, MAGIC. cbn.
  change (2 ^ 31) with 2147483648 in *. change (2 ^ 32) with 4294967296. lia.
Qed.

(** Writing the header of a fresh block makes it a live one. *)
Lemma ma_inv_new s raw live r l m : raw_inv s (<[r := lb_index l]> raw) -> raw !! r = None ->
  live_inv (ma_mem s) raw live -> region_mem s ->
  (16 | lb_pad l) -> (lb_pad l | r) -> 16 <= lb_pad l <= 2 ^ 31 -> 0 <= lb_req l <= lb_usable l ->
  stored (ma_mem s) m (r + lb_pad l - HDRSIZE) (hdr_bytes (lb_hdr l)) ->
  live !! (r + lb_pad l) = None /\
  ma_inv_raw (set_mem m s) (<[r := lb_index l]> raw) (<[r + lb_pad l := l]> live) /\
  (forall p' l' x, live !! p' = Some l' -> p' - HDRSIZE <= x < p' + lb_usable l' -> m !! x = ma_mem s !! x).
Proof.
  intros Hr Hfr Hl Hrm H16 Hdiv Hpad Hreq Hst.
  assert (Hnew : is_blk s (<[r := lb_index l]> raw) (lb_index l) r) by (right; apply lookup_insert_eq).
  assert (Hol : forall p' l', live !! p' = Some l' ->
    is_blk s (<[r := lb_index l]> raw) (lb_index l') (lb_base p' l') /\ lb_base p' l' <> r).
  { intros p' l' H'. destruct (li_blk _ _ _ Hl _ _ H') as (R & _).
    assert (lb_base p' l' <> r) by congruence. split; [|done]. right. by rewrite lookup_insert_ne. }
  assert (Hkeep : forall p' l' x, live !! p' = Some l' -> p' - HDRSIZE <= x < p' + lb_usable l' ->
    m !! x = ma_mem s !! x).
  { intros p' l' x H' Hx. apply Hst. rewrite hdr_bytes_length. intros Hx'.
    destruct (Hol _ _ H') as [Hb' Hne]. apply Hne.
    destruct (ri_disj _ _ Hr _ _ _ _ x Hb' Hnew) as [? _]; [by eapply live_range| |done].
    unfold in_bkt, lb_usable, HDRSIZE in *. lia. }
  assert (Hnone : live !! (r + lb_pad l) = None).
  { apply eq_None_not_Some. intros [l' H']. destruct (Hol _ _ H') as [Hb' Hne]. apply Hne.
    destruct (li_blk _ _ _ Hl _ _ H') as (_ & _ & Hp' & _ & Hq').
    destruct (ri_disj _ _ Hr _ _ _ _ (r + lb_pad l - HDRSIZE) Hb' Hnew) as [? _]; [| |done];
      unfold in_bkt, lb_base, lb_usable, HDRSIZE in *; lia. }
  split_and!; [done| |done].
  split; [by apply raw_inv_set_mem|]. split; [|by eapply stored_region].
  destruct Hl as [Hb Hj]. split.
  - intros p' l' [[<- <-]|[Hne H']]%lookup_insert_Some.
    + unfold lb_base at 1. rewrite Z.add_simpl_r, lookup_insert_eq. split_and!; try done; try lia.
      * apply Hst.
      * apply Z.divide_add_r; [done|reflexivity].
    + destruct (Hb _ _ H') as (R & Hh & Hrest). split_and!; try apply Hrest.
      * rewrite lookup_insert_ne; [done|]. symmetry. by apply Hol.
      * intros i b Hi. apply lookup_lt_Some in Hi as Hlt. rewrite hdr_bytes_length in Hlt. cbn.
        rewrite (Hkeep p' l'); [by apply Hh|done|]. unfold HDRSIZE in *. lia.
  - intros p1 l1 p2 l2 [[<- <-]|[Hne1 H1]]%lookup_insert_Some [[<- <-]|[Hne2 H2]]%lookup_insert_Some;
      [done| | |by eapply Hj].
    + unfold lb_base at 1. rewrite Z.add_simpl_r. intros E. by destruct (Hol _ _ H2).
    + unfold lb_base at 2. rewrite Z.add_simpl_r. intros E. by destruct (Hol _ _ H1).
Qed.

(** The same, saying which block was taken. *)
Definition memalloc_raw_post s raw live (l : lblk) : Z -> mastate P -> Prop := fun r s' =>
  (r = 0 /\ ma_inv_raw s' raw live /\ same_frame s s') \/
  (r <> 0 /\ live !! r = None /\ raw !! lb_base r l = None /\
   ma_inv_raw s' (<[lb_base r l := lb_index l]> raw) (<[r := l]> live) /\
   (forall p' l' x, live !! p' = Some l' -> p' - HDRSIZE <= x < p' + lb_usable l' ->
      ma_mem s' !! x = ma_mem s !! x) /\
   pa_lo (ma_pg s') = pa_lo (ma_pg s) /\ pa_hi (ma_pg s') = pa_hi (ma_pg s)).

Lemma wp_bmk_memalloc_raw s raw live nbytes align who : ma_inv_raw s raw live -> req_ok nbytes align ->
  wp (bmk_memalloc nbytes align who) (memalloc_raw_post s raw live (lblk_for nbytes align who)) s.
Proof.
  intros (Hr & Hl & Hrm) Hq. unfold bmk_memalloc.
  destruct (req_align_test _ _ Hq) as [-> Hpos]. cbn [negb Z.eqb].
  destruct (pad_pow2 _ _ Hq) as (k & Hk & Ek).
  pose proof (lblk_for_ok nbytes align who Hq) as (Hix & Hdiv & Hpad & Hreq). cbv zeta in *.
  assert (E : (if align <? MINALIGN then MINALIGN else align) = 2 ^ k).
  { rewrite <- Ek. destruct (Z.ltb_spec align MINALIGN); lia. }
  rewrite E. cbn in Hpad. rewrite Ek in Hpad. apply wp_bind, wp_assert; [lia|].
  rewrite align_up_hdr by lia. destruct Hq as [Hn _].
  assert (Eu : u64 (nbytes + 2 ^ k) = nbytes + 2 ^ k) by (unfold u64; apply Z.mod_small; lia).
  rewrite Eu. assert (Ei : bucket_for (nbytes + 2 ^ k) = lb_index (lblk_for nbytes align who)) by (cbn; by rewrite Ek).
  rewrite Ei. set (l := lblk_for nbytes align who) in *.
  assert (Epad : lb_pad l = 2 ^ k) by done.
  apply wp_bind. eapply wp_mono; [by apply wp_block_alloc|].
  intros r s' ((Em & Elo & Ehi) & [(-> & Hr')|(Hne & Hfr & Hdj & Hr')]).
  { apply wp_ret. left. split_and!; try done. split; [done|]. rewrite Em. split; [done|].
    unfold region_mem. by rewrite Em, Elo, Ehi. }
  rewrite (proj2 (Z.eqb_neq _ _) Hne).
  destruct (ri_blk _ _ Hr' (lb_index l) r) as (_ & Hrd & Hlo & Hhi); [right; apply lookup_insert_eq|].
  destruct (pa_region_ok _ (ri_pg _ _ Hr')) as [Hlo0 Hhi0].
  assert (Hge : lb_pad l <= bsize (lb_index l)) by (unfold lb_usable in Hreq; lia).
  assert (Hdr : (lb_pad l | r)) by (by etransitivity).
  rewrite align_up_block by (rewrite ?Epad in *; try done; lia).
  assert (Eap : u32 (u64 (r + 2 ^ k - r)) = lb_pad l).
  { replace (r + 2 ^ k - r) with (2 ^ k) by lia. unfold u32, u64.
    rewrite (Z.mod_small (2 ^ k) (2 ^ 64)), Z.mod_small by lia. done. }
  assert (Eix : u8 (lb_index l) = lb_index l) by (unfold u8; apply Z.mod_small; lia).
  rewrite Eap, Eix, <- Epad. fold (lb_hdr l).
  assert (Hrm' : region_mem s') by (unfold region_mem; by rewrite Em, Elo, Ehi).
  apply wp_bind, wp_zoom. eapply wp_mono; [apply wp_wr_list|].
  { rewrite hdr_bytes_length. eapply room_sub; [exact Hrm'|unfold HDRSIZE; lia|].
    unfold HDRSIZE, lb_usable in *. lia. }
  intros [] m Hst. apply wp_ret. right. rewrite <- Em in Hl.
  destruct (ma_inv_new s' raw live r l m) as (H1 & H2 & H3); try done; [|lia|].
  { rewrite Epad. change 16 with (2 ^ 4). apply pow2_divide_le. lia. }
  unfold lb_base. rewrite Z.add_simpl_r.
  split_and!; try done; [lia|]. intros p' l' x Hp Hx. rewrite <- Em. by apply (H3 p' l').
Qed.

Lemma wp_bmk_memalloc s live nbytes align who : ma_inv s live -> req_ok nbytes align ->
  wp (bmk_memalloc nbytes align who) (memalloc_post s live (lblk_for nbytes align who)) s.
Proof.
  intros [raw Hi] Hq. eapply wp_mono; [by apply (wp_bmk_memalloc_raw s raw)|].
  intros r s' [(-> & H & Hf)|(Hne & Hn & _ & H & Hk)]; [left|right]; split_and!; try done; try apply Hk;
    by eexists.
Qed.


Lemma wp_read_hdr s raw live p l Q : raw_inv s raw -> live_inv (ma_mem s) raw live ->
  live !! p = Some l -> Q (lb_hdr l) s -> wp (read_hdr p) Q s.
Proof.
  intros Hr Hl H HQ. destruct (li_blk _ _ _ Hl _ _ H) as (R & Hh & Hpad & _).
  destruct (ri_blk _ _ Hr _ _ (or_intror R)) as (Hix & _).
  apply wp_bind, wp_zoom. eapply wp_rd8; [exact Hh|done|].
  apply wp_ret. rewrite hdr_roundtrip by by apply hdr_wf_lb. by destruct s.
Qed.

Lemma live_nonzero s live p l : ma_inv s live -> live !! p = Some l -> 16 < p.
Proof.
  intros (raw & Hr & Hl & _) H. destruct (li_blk _ _ _ Hl _ _ H) as (R & _ & Hpad & _).
  destruct (ri_blk _ _ Hr _ _ (or_intror R)) as (_ & _ & Hlo & _).
  pose proof (pa_region_ok _ (ri_pg _ _ Hr)). unfold lb_base in Hlo. lia.
Qed.

Definition memfree_post s live p : unit -> mastate P -> Prop := fun _ s' =>
  ma_inv s' (delete p live) /\ same_frame s s'.

Lemma wp_bmk_memfree_raw s raw live p l : ma_inv_raw s raw live -> live !! p = Some l ->
  wp (bmk_memfree p (lb_who l)) (fun _ s' =>
    ma_inv_raw s' (delete (lb_base p l) raw) (delete p live) /\ same_frame s s') s.
Proof.
  intros Hi H. pose proof (live_nonzero _ _ _ _ (ex_intro _ raw Hi) H) as Hp0.
  destruct Hi as (Hr & Hl & Hrm). destruct (li_blk _ _ _ Hl _ _ H) as (R & _).
  unfold bmk_memfree. rewrite (proj2 (Z.eqb_neq p 0)) by lia.
  apply wp_bind. eapply wp_read_hdr; [done..|]. cbn [lb_hdr mh_magic mh_who mh_index mh_alignpad].
  rewrite !Z.eqb_refl. cbn [negb]. fold (lb_base p l). fold (block_free (PA := PA) (lb_base p l) (lb_index l)).
  eapply wp_mono; [by apply wp_block_free|]. intros [] s' [(Em & Elo & Ehi) Hr'].
  split; [|by split_and!]. split; [done|]. split.
  - rewrite Em. destruct Hl as [Hb Hj]. split.
    + intros p' l' [Hne H']%lookup_delete_Some. destruct (Hb _ _ H') as (R' & Hrest). split; [|done].
      rewrite lookup_delete_ne; [done|]. intros E. apply Hne. by eapply Hj.
    + intros p1 l1 p2 l2 [_ H1]%lookup_delete_Some [_ H2]%lookup_delete_Some. by eapply Hj.
  - unfold region_mem. by rewrite Em, Elo, Ehi.
Qed.

Lemma wp_bmk_memfree s live p l : ma_inv s live -> live !! p = Some l ->
  wp (bmk_memfree p (lb_who l)) (memfree_post s live p) s.
Proof.
  intros [raw Hi] H. eapply wp_mono; [by eapply wp_bmk_memfree_raw|].
  intros [] s' [Hi' Hf]. split; [by eexists|done].
Qed.

(** Writing user bytes of live blocks. *)
Lemma ma_inv_write s live p l m d bs : ma_inv s live -> live !! p = Some l ->
  p <= d -> d + Z.of_nat (length bs) <= p + lb_usable l -> stored (ma_mem s) m d bs ->
  ma_inv (set_mem m s) live /\
  (forall p' l' x, live !! p' = Some l' -> p' <> p -> p' - HDRSIZE <= x < p' + lb_usable l' ->
     m !! x = ma_mem s !! x).
Proof.
  intros (raw & Hr & Hl & Hrm) H Hd Hd' Hst.
  assert (Hk : forall p' l' x, live !! p' = Some l' -> p' <> p ->
    p' - HDRSIZE <= x < p' + lb_usable l' -> m !! x = ma_mem s !! x).
  { intros p' l' x H' Hne Hx. apply Hst. intros Hx'. apply Hne.
    eapply (live_disj s raw live p' l' p l x); try done; eapply live_range; try done.
    unfold HDRSIZE. lia. }
  split; [|done]. exists raw. split_and!; [by apply raw_inv_set_mem| |by eapply stored_region].
  eapply live_inv_mem; [exact Hl|]. intros p' l' x H' Hx. cbn.
  destruct (decide (p' = p)) as [->|Hne]; [apply Hst; lia|].
  destruct (li_blk _ _ _ Hl _ _ H') as (_ & _ & _ & _ & Hu). apply (Hk p' l'); try done. lia.
Qed.

Lemma user_room s live p l n : ma_inv s live -> live !! p = Some l -> n <= lb_usable l ->
  room (ma_mem s) p n.
Proof.
  intros (raw & Hr & Hl & Hrm) H Hn. destruct (li_blk _ _ _ Hl _ _ H) as (R & _ & Hpad & _).
  destruct (ri_blk _ _ Hr _ _ (or_intror R)) as (_ & _ & Hlo & Hhi).
  eapply room_sub; [exact Hrm|..]; unfold lb_base, lb_usable in *; lia.
Qed.

Lemma lb_usable_small s live p l : ma_inv s live -> live !! p = Some l -> lb_usable l < 2 ^ 63.
Proof.
  intros (raw & Hr & Hl & Hrm) H. destruct (li_blk _ _ _ Hl _ _ H) as (R & _ & Hpad & _).
  destruct (ri_blk _ _ Hr _ _ (or_intror R)) as (Hix & _).
  assert (bsize (lb_index l) <= 2 ^ 63) by (apply Z.pow_le_mono_r; unfold MINSHIFT; lia).
  unfold lb_usable. lia.
Qed.

Lemma wp_bmk_memcalloc s live n size who : ma_inv s live ->
  0 <= n -> 0 <= size -> n * size <= 2 ^ 62 ->
  let l := lblk_for (n * size) MINALIGN who in
  wp (bmk_memcalloc n size who) (fun r s' => memalloc_post s live l r s' /\
    (r <> 0 -> forall x, in_user r l x -> ma_mem s' !! x = Some 0)) s.
Proof.
  intros Hi Hn Hs Ht l. unfold bmk_memcalloc.
  assert (Eu : u64 (n * size) = n * size) by (apply Z.mod_small; nia). rewrite Eu.
  assert (Ed : negb (size =? 0) && negb (n * size / size =? n) = false).
  { destruct (Z.eqb_spec size 0); [done|]. rewrite Z.div_mul by done. by rewrite Z.eqb_refl. }
  rewrite Ed. apply wp_bind. eapply wp_mono.
  { apply (wp_bmk_memalloc s live); [done|]. split; [nia|]. right. exists 4. split; [lia|done]. }
  intros r s' Hpost. fold l in Hpost. destruct Hpost as [(-> & Hi' & Hsf)|(Hne & Hfr & Hi' & Hkeep & Elo & Ehi)].
  { rewrite Z.eqb_refl. apply wp_ret. split; [by left|done]. }
  rewrite (proj2 (Z.eqb_neq _ _) Hne). cbn [negb].
  assert (Hlr : <[r := l]> live !! r = Some l) by apply lookup_insert_eq.
  destruct (lblk_for_ok (n * size) MINALIGN who) as (_ & _ & _ & Hreq).
  { split; [nia|]. right. exists 4. split; [lia|done]. }
  change (0 <= n * size <= lb_usable l) in Hreq.
  pose proof (lb_usable_small _ _ _ _ Hi' Hlr) as Hus.
  assert (Hlq : lb_req l = n * size) by done. clearbody l.
  apply wp_bind, wp_zoom. rewrite <- (Z2Nat.id (n * size)) by nia.
  eapply wp_mono; [apply wp_memset|].
  { rewrite Z2Nat.id by nia. eapply user_room; [done..|]. lia. }
  { lia. }
  intros rv m [_ Hst]. apply wp_ret.
  destruct (ma_inv_write s' _ r l m r (replicate (Z.to_nat (n * size)) (u8 0)) Hi' Hlr ltac:(lia) ltac:(rewrite length_replicate; lia) Hst) as [Hi'' Hk].
  split.
  - right. split_and!; try done. intros p' l' x H' Hx. assert (p' <> r) by congruence.
    cbn. rewrite (Hk p' l'); [by apply (Hkeep p' l')| |done|done]. by rewrite lookup_insert_ne.
  - intros _ x Hx. unfold in_user in Hx. rewrite Hlq in Hx. destruct Hst as [Hb _].
    replace x with (r + Z.of_nat (Z.to_nat (x - r))) by lia. apply Hb. apply lookup_replicate_2. lia.
Qed.

(** Readable memory holds some bytes. *)
Lemma room_bytes m a n : room m a (Z.of_nat n) -> exists bs, length bs = n /\ bytes_at m a bs.
Proof.
  induction n as [|n IH]; intros Hr; [by exists []|].
  destruct IH as (bs & Hlen & Hb). { intros i Hi. apply Hr. lia. }
  destruct (Hr (Z.of_nat n)) as [b Eb]; [lia|]. exists (bs ++ [b]). rewrite length_app. simpl.
  split; [lia|]. intros i c [Hi|[Hge Hi]]%lookup_app_Some; [by apply Hb|].
  apply list_lookup_singleton_Some in Hi as [Hi <-]. replace i with n by lia. done.
Qed.

Definition realloc_moved s live p (l : lblk) nbytes r (s' : mastate P) : Prop :=
  r <> 0 /\ r <> p /\ live !! r = None /\
  ma_inv s' (<[r := lblk_for nbytes 8 BMK_MEMWHO_USER]> (delete p live)) /\
  (forall i, 0 <= i < lb_usable l -> ma_mem s' !! (r + i) = ma_mem s !! (p + i)) /\
  (forall p' l' x, live !! p' = Some l' -> p' <> p -> p' - HDRSIZE <= x < p' + lb_usable l' ->
     ma_mem s' !! x = ma_mem s !! x).

Definition realloc_post s live p (l : lblk) nbytes : Z -> mastate P -> Prop := fun r s' =>
  (nbytes <= lb_usable l /\ r = p /\ s' = s) \/
  (lb_usable l < nbytes /\ r = 0 /\ ma_inv s' live /\ same_frame s s') \/
  (lb_usable l < nbytes /\ realloc_moved s live p l nbytes r s').

Lemma wp_bmk_memrealloc s live p l nbytes : ma_inv s live -> live !! p = Some l ->
  lb_who l = BMK_MEMWHO_USER -> lb_index l + MINSHIFT < 31 -> 0 < nbytes <= 2 ^ 62 ->
  wp (bmk_memrealloc_user p nbytes) (realloc_post s live p l nbytes) s.
Proof.
  intros Hi H Hw Hsh Hn. pose proof (live_nonzero _ _ _ _ Hi H) as Hp0.
  pose proof (lb_usable_small _ _ _ _ Hi H) as Hsm.
  assert (Hu0 : 0 <= lb_usable l).
  { destruct Hi as (raw & _ & Hl & _). destruct (li_blk _ _ _ Hl _ _ H) as (_ & _ & _ & _ & ?). lia. }
  unfold bmk_memrealloc_user. rewrite (proj2 (Z.eqb_neq p 0)), (proj2 (Z.eqb_neq nbytes 0)) by lia.
  apply wp_bind. destruct Hi as (raw & Hr & Hl & Hrm). eapply wp_read_hdr; [done..|].
  cbn [lb_hdr mh_index mh_alignpad]. unfold int_shl1.
  apply wp_bind, wp_bind, wp_assert; [lia|]. apply wp_ret. rewrite Z.shiftl_1_l.
  fold (bsize (lb_index l)). fold (lb_usable l).
  assert (Hi : ma_inv s live) by by exists raw.
  assert (Eu : u64 (lb_usable l) = lb_usable l) by (apply Z.mod_small; lia). rewrite Eu.
  destruct (Z.leb_spec nbytes (lb_usable l)); [by apply wp_ret; left|].
  apply wp_bind. eapply wp_mono.
  { apply (wp_bmk_memalloc s live); [done|]. split; [lia|]. right. exists 3. split; [lia|done]. }
  set (l1 := lblk_for nbytes 8 BMK_MEMWHO_USER).
  intros r s1 [(-> & Hi1 & Hsf)|(Hne & Hfr & Hi1 & Hkeep & Elo & Ehi)].
  { rewrite Z.eqb_refl. apply wp_ret. right; left. by split_and!. }
  rewrite (proj2 (Z.eqb_neq _ _) Hne). assert (Hrp : r <> p) by congruence.
  assert (Hlr : <[r := l1]> live !! r = Some l1) by apply lookup_insert_eq.
  assert (Hlp : <[r := l1]> live !! p = Some l) by by rewrite lookup_insert_ne.
  assert (Hu1 : nbytes <= lb_usable l1).
  { apply (lblk_for_ok nbytes 8 BMK_MEMWHO_USER). split; [lia|]. right. exists 3. split; [lia|done]. }
  assert (El1 : l1 = lblk_for nbytes 8 BMK_MEMWHO_USER) by done. clearbody l1.
  destruct (room_bytes (ma_mem s1) p (Z.to_nat (lb_usable l))) as (bs & Hlen & Hbs).
  { rewrite Z2Nat.id by lia. by eapply user_room. }
  assert (Elen : Z.of_nat (length bs) = lb_usable l) by lia.
  assert (Hsep : r + lb_usable l <= p \/ p + lb_usable l <= r).
  { destruct (Z.le_gt_cases (r + lb_usable l) p); [by left|].
    destruct (Z.le_gt_cases (p + lb_usable l) r); [by right|]. exfalso. apply Hrp.
    destruct Hi1 as (raw1 & Hr1 & Hl1 & _).
    eapply (live_disj s1 raw1 _ r l1 p l (Z.max r p)); try done; eapply live_range; try done; unfold HDRSIZE; lia. }
  apply wp_bind, wp_zoom. rewrite <- Elen. eapply wp_mono.
  { apply wp_mempcpy. split; [done| |lia|lia].
    rewrite Elen. eapply user_room; [exact Hi1|done|lia]. }
  intros e m [_ Hst].
  destruct (ma_inv_write s1 _ r l1 m r bs Hi1 Hlr ltac:(lia) ltac:(lia) Hst) as [Hi2 Hk].
  apply wp_bind. rewrite <- Hw. eapply wp_mono; [by eapply wp_bmk_memfree|].
  intros [] s2 [Hi3 (Em & _)]. apply wp_ret. right; right. split; [done|].
  rewrite delete_insert_ne in Hi3 by done. unfold realloc_moved. rewrite <- El1. split_and!; try done.
  - intros i Hi'. rewrite Em. cbn.
    destruct (lookup_lt_is_Some_2 bs (Z.to_nat i)) as [b Hb]; [lia|].
    pose proof (proj1 Hst _ _ Hb) as E1. pose proof (Hbs _ _ Hb) as E2.
    rewrite Z2Nat.id in E1, E2 by lia. rewrite E1, <- E2. apply (Hkeep p l); [done|].
    unfold HDRSIZE. lia.
  - intros p' l' x H' Hne' Hx. rewrite Em. cbn. assert (p' <> r) by congruence.
    rewrite (Hk p' l'); [by apply (Hkeep p' l')| |done|done]. by rewrite lookup_insert_ne.
Qed.

(** A block that grows into its spare bytes. *)
Lemma ma_inv_grow s live p l n : ma_inv s live -> live !! p = Some l -> 0 <= n <= lb_usable l ->
  ma_inv s (<[p := Lb (lb_index l) (lb_pad l) (lb_who l) n]> live).
Proof.
  intros (raw & Hr & Hl & Hrm) H Hn. exists raw. split_and!; [done| |done].
  destruct Hl as [Hb Hj]. split.
  - intros p' l' [[<- <-]|[_ H']]%lookup_insert_Some; [|by apply Hb].
    destruct (Hb _ _ H) as (? & ? & ? & [? ?] & ?). split_and!; try done; first [apply Hn|simpl; lia].
  - intros p1 l1 p2 l2 [[<- <-]|[_ H1]]%lookup_insert_Some [[<- <-]|[_ H2]]%lookup_insert_Some E;
      [done|by apply (Hj p l p2 l2)|by apply (Hj p1 l1 p l)|by apply (Hj p1 l1 p2 l2)].
Qed.
End Inv.
