(* ===== verification/MemallocSpec.v ===== *)
(** * The byte allocator: what it promises *)

From S2P Require Import Prelude Pgalloc PgallocInv PgallocThms PageIface CString CStringThms.
From S2P Require Import Memalloc MemallocThms MemallocInv.

(** ** Clients of the allocator

    [live] is what the clients hold.  They may ask for memory, resize, return
    and write what they hold. *)
Inductive maop :=
| MMalloc (nbytes align : Z) (who : bmk_memwho)
| MCalloc (n sz : Z) (who : bmk_memwho)
| MRealloc (p nbytes : Z)
| MFree (p : Z)
| MStore (p x v : Z).

Definition req_okb (nbytes align : Z) : bool :=
  (0 <=? nbytes) && (nbytes <=? 2 ^ 62) &&
  ((align =? 0) || ((0 <? align) && (align <=? 2 ^ 31) && (Z.land align (align - 1) =? 0))).

Lemma req_okb_ok nbytes align : req_okb nbytes align = true -> req_ok nbytes align.
Proof.
  unfold req_okb, req_ok. intros H. split; [lia|]. destruct (Z.eqb_spec align 0) as [E0|Hne]; [by left|].
  right. assert (Hl : Z.land align (align - 1) = 0) by lia. apply land_pred_pow2 in Hl; [|lia].
  exists (Z.log2 align). split; [|done]. split; [apply Z.log2_nonneg|].
  change 31 with (Z.log2 (2 ^ 31)). apply Z.log2_le_mono. lia.
Qed.

Section Clients.
Context {P : Type} `{PA : PageAllocator P}.
Definition maclient : Type := (mastate P * gmap Z lblk)%type.

Definition run_client {A} (m : M (mastate P) A) (f : A -> gmap Z lblk) (s : mastate P) : res maclient :=
  match m s with Done (r, s') => Done (s', f r) | Halted w => Halted w | NoFuel => NoFuel end.

(** One step; [None] when the client breaks its side of the contract. *)
Definition ma_step (op : maop) (c : maclient) : option (res maclient) :=
  let '(s, live) := c in
  match op with
  | MMalloc nbytes align who =>
      if req_okb nbytes align
      then Some (run_client (bmk_memalloc nbytes align who)
             (fun r => if r =? 0 then live else <[r := lblk_for nbytes align who]> live) s)
      else None
  | MCalloc n sz who =>
      if (0 <=? n) && (0 <=? sz) && (n * sz <=? 2 ^ 62)
      then Some (run_client (bmk_memcalloc n sz who)
             (fun r => if r =? 0 then live else <[r := lblk_for (n * sz) MINALIGN who]> live) s)
      else None
  | MRealloc p nbytes =>
      l ← live !! p;
      if (who_num (lb_who l) =? who_num BMK_MEMWHO_USER) && (lb_index l + MINSHIFT <? 31) &&
         (0 <? nbytes) && (nbytes <=? 2 ^ 62)
      then Some (run_client (bmk_memrealloc_user p nbytes)
             (fun r => if r =? 0 then live
                       else if r =? p then <[p := Lb (lb_index l) (lb_pad l) (lb_who l) nbytes]> live
                       else <[r := lblk_for nbytes 8 BMK_MEMWHO_USER]> (delete p live)) s)
      else None
  | MFree p =>
      l ← live !! p;
      Some (run_client (bmk_memfree p (lb_who l)) (fun _ => delete p live) s)
  | MStore p x v =>
      l ← live !! p;
      if (p <=? x) && (x <? p + lb_req l)
      then Some (Done (set_mem (<[x := v]> (ma_mem s)) s, live)) else None
  end.

(** The static state of the module before [bmk_memalloc_init]. *)
Definition ma_boot (pg : P) (m : gmap Z Z) : mastate P :=
  MaState pg (replicate 7 []) (replicate 7 0) false m.

Inductive ma_reach : maclient -> Prop :=
| ma_reach_init pg m s : pa_inv pg -> room m (pa_lo pg) (pa_hi pg - pa_lo pg) ->
    bmk_memalloc_init (ma_boot pg m) = Done (tt, s) -> ma_reach (s, ∅)
| ma_reach_step op c c' : ma_reach c -> ma_step op c = Some (Done c') -> ma_reach c'.

Lemma memalloc_init_run pg m : bmk_memalloc_init (ma_boot pg m) = Done (tt, ma_boot pg m).
Proof. reflexivity. Qed.

Lemma boot_inv pg m : pa_inv pg -> room m (pa_lo pg) (pa_hi pg - pa_lo pg) ->
  ma_inv (ma_boot pg m) ∅.
Proof.
  intros Hp Hr.
  assert (Hno : forall b a, ~ is_blk (ma_boot pg m) ∅ b a).
  { intros b a [(_ & l & Hl & Ha)|H]; [|by rewrite lookup_empty in H].
    apply lookup_replicate in Hl as [-> _]. by apply elem_of_nil in Ha. }
  exists ∅. split_and!; [|by split; intros *; rewrite lookup_empty|done]. split; try done.
  - intros i l [-> _]%lookup_replicate. constructor.
  - intros b a H. by destruct (Hno b a).
  - intros b a x H. by destruct (Hno b a).
  - intros b a b' a' x H. by destruct (Hno b a).
  - intros b Hb. rewrite map_filter_empty, map_size_empty. apply lookup_replicate_2.
    change LOCALBUCKETS with 7 in Hb. lia.
Qed.

(** Storing a byte is storing a one-byte object. *)
Lemma stored_insert (m : gmap Z Z) x v : stored m (<[x := v]> m) x [v].
Proof.
  split.
  - intros i b [-> <-]%list_lookup_singleton_Some. rewrite Z.add_0_r. apply lookup_insert_eq.
  - intros y Hy. simpl in Hy. rewrite lookup_insert_ne; [done|lia].
Qed.

(** What one step does to the client's blocks: the blocks it is not about stay
    live with their contents. *)
Definition other_blocks_kept (op : maop) (c c' : maclient) : Prop :=
  forall p l x, snd c !! p = Some l -> op <> MFree p -> (forall n, op <> MRealloc p n) ->
    in_user p l x -> (forall v, op <> MStore p x v) ->
    snd c' !! p = Some l /\ ma_mem (fst c') !! x = ma_mem (fst c) !! x.

Lemma post_kept s live l r s' p l0 x : ma_inv s live -> memalloc_post s live l r s' ->
  live !! p = Some l0 -> in_user p l0 x ->
  (if r =? 0 then live else <[r := l]> live) !! p = Some l0 /\ ma_mem s' !! x = ma_mem s !! x.
Proof.
  intros (raw & Hr & Hl & _) Hpost H Hx. destruct (li_blk _ _ _ Hl _ _ H) as (_ & _ & _ & _ & Hu).
  destruct Hpost as [(-> & _ & Em & _)|(Hne & Hfr & _ & Hk & _)]; [by rewrite Em|].
  rewrite (proj2 (Z.eqb_neq _ _) Hne), lookup_insert_ne by congruence. split; [done|].
  apply (Hk p l0); [done|]. unfold in_user, HDRSIZE in *. lia.
Qed.
Lemma post_inv s live l r s' : memalloc_post s live l r s' ->
  ma_inv s' (if r =? 0 then live else <[r := l]> live).
Proof.
  intros [(-> & Hi & _)|(Hne & _ & Hi & _)]; [done|]. by rewrite (proj2 (Z.eqb_neq _ _) Hne).
Qed.

Lemma run_client_wp {A} (m : M (mastate P) A) f Q s : wp m Q s ->
  exists a s', run_client m f s = Done (s', f a) /\ Q a s'.
Proof. intros (a & s' & E & HQ)%wp_run. exists a, s'. unfold run_client. by rewrite E. Qed.

Lemma realloc_kept s live p l n r s' : ma_inv s live -> live !! p = Some l ->
  realloc_post s live p l n r s' -> 0 < n -> 0 < p ->
  let live' := if r =? 0 then live
    else if r =? p then <[p := Lb (lb_index l) (lb_pad l) (lb_who l) n]> live
    else <[r := lblk_for n 8 BMK_MEMWHO_USER]> (delete p live) in
  ma_inv s' live' /\ forall q l0 x, live !! q = Some l0 -> q <> p -> in_user q l0 x ->
    live' !! q = Some l0 /\ ma_mem s' !! x = ma_mem s !! x.
Proof.
  intros Hi H Hpost Hn Hp0 live'. subst live'.
  destruct Hpost as [(Hle & -> & ->)|[(_ & -> & Hi' & Em & _)|(_ & Hne & Hnp & Hfr & Hi' & _ & Hk)]].
  - rewrite (proj2 (Z.eqb_neq p 0)), Z.eqb_refl by lia. split; [apply ma_inv_grow; [done..|lia]|].
    intros q l0 x Hq Hqp _. by rewrite lookup_insert_ne.
  - rewrite Z.eqb_refl. split; [done|]. intros q l0 x Hq _ _. by rewrite Em.
  - rewrite (proj2 (Z.eqb_neq _ _) Hne), (proj2 (Z.eqb_neq _ _) Hnp). split; [done|].
    intros q l0 x Hq Hqp Hx. assert (q <> r) by congruence.
    rewrite lookup_insert_ne, lookup_delete_ne by done. split; [done|].
    destruct Hi as (raw & Hr & Hl & _). destruct (li_blk _ _ _ Hl _ _ Hq) as (_ & _ & _ & _ & Hu).
    apply (Hk q l0); [done..|]. unfold in_user, HDRSIZE in *. lia.
Qed.

Lemma ma_step_ok op c res : ma_inv (fst c) (snd c) -> ma_step op c = Some res ->
  exists c', res = Done c' /\ ma_inv (fst c') (snd c') /\ other_blocks_kept op c c'.
Proof.
  destruct c as [s live]. cbn [fst snd]. intros Hi.
  destruct op as [nb al w|n sz w|p nb|p|p x v]; cbn [ma_step].
  - destruct (req_okb nb al) eqn:E; [|done]. intros [= <-]. apply req_okb_ok in E.
    destruct (run_client_wp _ (fun r => if r =? 0 then live else <[r := lblk_for nb al w]> live) _ _
      (wp_bmk_memalloc s live nb al w Hi E)) as (r & s' & -> & Hpost).
    eexists. split; [done|]. split; [by eapply post_inv|]. intros q l x Hq _ _ Hx _. by eapply post_kept.
  - destruct (_ && _) eqn:E; [|done]. intros [= <-].
    destruct (run_client_wp _ (fun r => if r =? 0 then live else <[r := lblk_for (n * sz) MINALIGN w]> live) _ _
      (wp_bmk_memcalloc s live n sz w Hi ltac:(lia) ltac:(lia) ltac:(lia))) as (r & s' & -> & Hpost & _).
    eexists. split; [done|]. split; [by eapply post_inv|]. intros q l x Hq _ _ Hx _. by eapply post_kept.
  - destruct (live !! p) as [l|] eqn:Hp; [|done]. cbn [mbind option_bind].
    destruct (_ && _) eqn:E; [|done]. intros [= <-]. pose proof (live_nonzero _ _ _ _ Hi Hp).
    assert (Hw : lb_who l = BMK_MEMWHO_USER) by (destruct (lb_who l); [done|done|done]).
    destruct (run_client_wp _ (fun r => if r =? 0 then live
        else if r =? p then <[p := Lb (lb_index l) (lb_pad l) (lb_who l) nb]> live
        else <[r := lblk_for nb 8 BMK_MEMWHO_USER]> (delete p live)) _ _
      (wp_bmk_memrealloc s live p l nb Hi Hp Hw ltac:(lia) ltac:(lia))) as (r & s' & -> & Hpost).
    eexists. split; [done|].
    destruct (realloc_kept _ _ _ _ _ _ _ Hi Hp Hpost ltac:(lia) ltac:(lia)) as [Hi' Hk].
    split; [done|]. intros q l0 x Hq _ Hre Hx _. apply Hk; try done. intros ->. by apply (Hre nb).
  - destruct (live !! p) as [l|] eqn:Hp; [|done]. cbn [mbind option_bind]. intros [= <-].
    destruct (run_client_wp _ (fun _ => delete p live) _ _ (wp_bmk_memfree s live p l Hi Hp))
      as ([] & s' & -> & Hi' & Em & _).
    eexists. split; [done|]. split; [done|]. intros q l0 x Hq Hf _ Hx _. cbn in *.
    rewrite lookup_delete_ne, Em by congruence. done.
  - destruct (live !! p) as [l|] eqn:Hp; [|done]. cbn [mbind option_bind].
    destruct (_ && _) eqn:E; [|done]. intros [= <-]. eexists. split; [done|]. cbn [fst snd].
    assert (Hu : lb_req l <= lb_usable l).
    { destruct Hi as (raw & Hr & Hl & _). destruct (li_blk _ _ _ Hl _ _ Hp) as (_ & _ & _ & _ & ?). lia. }
    destruct (ma_inv_write s live p l _ x [v] Hi Hp ltac:(lia) ltac:(simpl; lia)
      (stored_insert (ma_mem s) x v)) as [Hi' Hk].
    split; [done|]. intros q l0 y Hq _ _ Hy Hst. split; [done|]. cbn in *.
    destruct (decide (y = x)) as [->|Hne]; [|by rewrite lookup_insert_ne].
    destruct (decide (q = p)) as [->|Hqp]; [by destruct (Hst v)|].
    assert (lb_req l0 <= lb_usable l0).
    { destruct Hi as (raw & Hr & Hl & _). destruct (li_blk _ _ _ Hl _ _ Hq) as (_ & _ & _ & _ & ?). lia. }
    apply (Hk q l0); try done. unfold in_user, HDRSIZE in *. lia.
Qed.

Lemma ma_reach_inv c : ma_reach c -> ma_inv (fst c) (snd c).
Proof.
  induction 1 as [pg m s Hp Hr E|op c c' Hr IH E].
  - rewrite memalloc_init_run in E. injection E as <-. by apply boot_inv.
  - by destruct (ma_step_ok op c _ IH E) as (c'' & [= ->] & ? & _).
Qed.

(** C2. From initialisation on, over any page allocator that keeps its
    interface, whatever clients do within their contract (allocate, clear,
    resize, free what they hold, write the bytes they asked for): every
    operation returns, and the blocks held are aligned to 16 bytes, lie in the
    managed region and share no byte with each other nor with the free pages of
    the page allocator. *)
Theorem ma_client_safe s live :
  ma_reach (s, live) ->
  (forall op r, ma_step op (s, live) = Some r -> exists c', r = Done c' /\ ma_reach c') /\
  (forall p l, live !! p = Some l -> (16 | p) /\ pa_lo (ma_pg s) <= p /\ p + lb_req l <= pa_hi (ma_pg s)) /\
  (forall p l x, live !! p = Some l -> in_user p l x -> ~ pa_free (ma_pg s) x) /\
  (forall p l p' l' x, live !! p = Some l -> live !! p' = Some l' ->
     in_user p l x -> in_user p' l' x -> p = p').
Proof.
  intros H. pose proof (ma_reach_inv _ H) as Hi. cbn in Hi. split.
  { intros op r E. destruct (ma_step_ok op (s, live) r Hi E) as (c' & -> & _).
    exists c'. split; [done|]. by eapply ma_reach_step. }
  destruct Hi as (raw & Hr & Hl & _).
  assert (Hin : forall p l x, live !! p = Some l -> in_user p l x -> in_bkt (lb_base p l) (lb_index l) x).
  { intros p l x Hp Hx. destruct (li_blk _ _ _ Hl _ _ Hp) as (_ & _ & _ & _ & Hu).
    eapply live_range; [done..|]. unfold in_user, HDRSIZE in *. lia. }
  split_and!.
  - intros p l Hp. destruct (li_blk _ _ _ Hl _ _ Hp) as (R & _ & Hpad & Hd & Hu).
    destruct (ri_blk _ _ Hr _ _ (or_intror R)) as (_ & Hal & Hlo & Hhi).
    split; [etransitivity; apply Hd|]. unfold lb_base, lb_usable in *. lia.
  - intros p l x Hp Hx. destruct (li_blk _ _ _ Hl _ _ Hp) as (R & _).
    apply (ri_priv _ _ Hr (lb_index l) (lb_base p l)); [by right|by apply Hin].
  - intros p l p' l' x Hp Hp' Hx Hx'. eapply (live_disj s raw live); try done; by apply Hin.
Qed.

(** A step changes only the block it is about: the contents of every other
    live block, and the bytes of a block not written, are kept. *)
Theorem ma_step_keeps_contents op s live s' live' :
  ma_reach (s, live) -> ma_step op (s, live) = Some (Done (s', live')) ->
  other_blocks_kept op (s, live) (s', live').
Proof.
  intros H E. destruct (ma_step_ok op _ _ (ma_reach_inv _ H) E) as (c' & [= <-] & _ & Hk). done.
Qed.

(** [bmk_memalloc] returns NULL for an alignment that is no power of two,
    and otherwise either NULL with nothing changed for the clients or a fresh
    block, aligned to the request and to 16, that holds the requested bytes
    behind its header; the other blocks and their contents are untouched. *)
Theorem memalloc_correct s live nbytes align who :
  ma_inv s live -> 0 <= align < 2 ^ 64 ->
  (Z.land align (u64 (align - 1)) <> 0 -> bmk_memalloc nbytes align who s = Done (0, s)) /\
  (req_ok nbytes align -> exists r s', bmk_memalloc nbytes align who s = Done (r, s') /\
     memalloc_post s live (lblk_for nbytes align who) r s' /\
     (r <> 0 -> (Z.max align 16 | r) /\ nbytes <= lb_usable (lblk_for nbytes align who))).
Proof.
  intros Hi Ha. split.
  - intros Hne. unfold bmk_memalloc. by rewrite (proj2 (Z.eqb_neq _ _) Hne).
  - intros Hq. destruct (wp_run _ _ _ (wp_bmk_memalloc s live nbytes align who Hi Hq)) as (r & s' & E & Hpost).
    exists r, s'. split_and!; [done..|]. intros Hne.
    destruct Hpost as [(-> & _)|(_ & _ & (raw & _ & Hl & _) & _)]; [done|].
    destruct (li_blk _ _ _ Hl r (lblk_for nbytes align who)) as (_ & _ & _ & Hd & Hu);
      [apply lookup_insert_eq|]. split; [apply Hd|]. simpl in Hu. lia.
Qed.

(** [bmk_memcalloc]: a product that overflows gives NULL, otherwise the
    result is an allocation of the product whose bytes are all zero. *)
Theorem memcalloc_correct s live n sz who :
  ma_inv s live -> 0 <= n < 2 ^ 64 -> 0 <= sz < 2 ^ 64 ->
  (2 ^ 64 <= n * sz -> bmk_memcalloc n sz who s = Done (0, s)) /\
  (n * sz <= 2 ^ 62 -> exists r s', bmk_memcalloc n sz who s = Done (r, s') /\
     memalloc_post s live (lblk_for (n * sz) MINALIGN who) r s' /\
     (r <> 0 -> forall i, 0 <= i < n * sz -> ma_mem s' !! (r + i) = Some 0)).
Proof.
  intros Hi Hn Hs. split.
  - intros Ho. unfold bmk_memcalloc.
    assert (Hs0 : sz <> 0) by (intros ->; lia).
    assert (Hne : u64 (n * sz) / sz <> n).
    { intros E. assert (u64 (n * sz) < 2 ^ 64) by (apply Z.mod_pos_bound; lia).
      assert (Hq : n * sz <= u64 (n * sz)) by (rewrite <- E at 1; rewrite Z.mul_comm; apply Z.mul_div_le; lia).
      lia. }
    by rewrite (proj2 (Z.eqb_neq _ _) Hs0), (proj2 (Z.eqb_neq _ _) Hne).
  - intros Ht. destruct (wp_run _ _ _ (wp_bmk_memcalloc s live n sz who Hi ltac:(lia) ltac:(lia) Ht))
      as (r & s' & E & Hpost & Hz).
    exists r, s'. split_and!; [done..|]. intros Hne i Hx. apply Hz; [done|]. unfold in_user. simpl. lia.
Qed.

(** [bmk_memfree]: freeing NULL does nothing; freeing a live block with its
    own class takes back exactly that block and no byte of memory changes; with
    another class the machine halts. *)
Theorem memfree_correct s live p l who :
  ma_inv s live -> live !! p = Some l ->
  bmk_memfree 0 who s = Done (tt, s) /\
  (who = lb_who l -> exists s', bmk_memfree p who s = Done (tt, s') /\
     ma_inv s' (delete p live) /\ ma_mem s' = ma_mem s) /\
  (who <> lb_who l -> bmk_memfree p who s = Halted "bmk_memalloc error").
Proof.
  intros Hi Hp. split_and!; [done| |].
  - intros ->. destruct (wp_run _ _ _ (wp_bmk_memfree s live p l Hi Hp)) as ([] & s' & E & Hi' & Em & _).
    by exists s'.
  - intros Hne. pose proof (live_nonzero _ _ _ _ Hi Hp). destruct Hi as (raw & Hr & Hl & _).
    destruct (wp_run _ _ _ (wp_read_hdr s raw live p l (fun h t => h = lb_hdr l /\ t = s) Hr Hl Hp
      (conj eq_refl eq_refl))) as (h & t & E & -> & ->).
    unfold bmk_memfree, cbind. rewrite (proj2 (Z.eqb_neq p 0)), E by lia. cbn.
    by destruct who, (lb_who l).
Qed.

(** [bmk_memrealloc_user] on a live block of the USER class: within the
    block it returns the same pointer and touches nothing; beyond it either
    returns NULL and the block stays as it was, or moves: the new block starts
    with every byte the old one could hold, the old one is freed, and no other
    block changes. *)
Theorem memrealloc_correct s live p l nbytes :
  ma_inv s live -> live !! p = Some l -> lb_who l = BMK_MEMWHO_USER ->
  lb_index l + MINSHIFT < 31 -> 0 < nbytes <= 2 ^ 62 ->
  exists r s', bmk_memrealloc_user p nbytes s = Done (r, s') /\
    realloc_post s live p l nbytes r s'.
Proof.
  intros Hi Hp Hw Hx Hn.
  destruct (wp_run _ _ _ (wp_bmk_memrealloc s live p l nbytes Hi Hp Hw Hx Hn)) as (r & s' & E & H). eauto.
Qed.

(** The size computation of [bmk_memalloc] is not checked for overflow: a
    request for all but the last 16 bytes of the address space is served exactly
    like a request for no byte at all, from the smallest bucket. *)
Theorem memalloc_overflow who (s : mastate P) :
  bmk_memalloc (2 ^ 64 - 16) 16 who s = bmk_memalloc 0 16 who s.
Proof. reflexivity. Qed.
End Clients.

(** The bucket chosen for a size is the smallest whose blocks hold it. *)
Theorem bucket_for_least n : 0 <= n <= 2 ^ 63 ->
  n <= 2 ^ (bucket_for n + MINSHIFT) /\
  forall b, 0 <= b -> n <= 2 ^ (b + MINSHIFT) -> bucket_for n <= b.
Proof.
  intros Hn. destruct (bucket_for_ok n Hn) as (Hb & Hle & Hlt). split; [done|].
  intros b Hb0 Hnb. destruct Hlt as [->|Hlt]; [done|].
  destruct (Z.le_gt_cases (bucket_for n) b); [done|exfalso].
  assert (2 ^ (b + MINSHIFT) <= bsize (bucket_for n - 1)) by (apply Z.pow_le_mono_r; unfold MINSHIFT; lia).
  lia.
Qed.

Lemma bucket_for_least_witness : bucket_for 65 <= 2.
Proof. apply (bucket_for_least 65); [lia|lia|]. vm_compute. discriminate. Defined.

Lemma bmk_memwho_dec (a b : bmk_memwho) : {a = b} + {a <> b}.
Proof. decide equality. Defined.
#[export] Instance bmk_memwho_eq_dec : EqDecision bmk_memwho := bmk_memwho_dec.
#[export] Instance lblk_eq_dec : EqDecision lblk.
Proof. solve_decision. Defined.

(** ** A concrete system: the buddy allocator below, three pages *)
Definition ma_pg_example : pgstate :=
  match bmk_pgalloc_loadmem 1048576 1064960 pg_boot with Done (_, s) => s | _ => pg_boot end.
Definition ma_mem_example : gmap Z Z := list_to_mem 1052672 (map (fun _ => 0) (seqZ 0 12288)).
Definition ma_example : mastate pgstate := ma_boot ma_pg_example ma_mem_example.

Lemma ma_pg_example_ok : pg_inv ma_pg_example /\ minpage_addr ma_pg_example = 1052672 /\
  maxpage_addr ma_pg_example = 1064960.
Proof.
  unfold ma_pg_example.
  destruct (wp_run _ _ _ (wp_bmk_pgalloc_loadmem 1048576 1064960 ltac:(lia) ltac:(lia)
    ltac:(lia) ltac:(vm_compute; discriminate))) as ([] & s & -> & (Hi & -> & -> & _)).
  split; [done|]. split; vm_compute; reflexivity.
Qed.

Lemma ma_example_room : room ma_mem_example (minpage_addr ma_pg_example)
  (maxpage_addr ma_pg_example - minpage_addr ma_pg_example).
Proof.
  destruct ma_pg_example_ok as (_ & -> & ->).
  pose proof (list_to_mem_room 1052672 (map (fun _ => 0) (seqZ 0 12288))) as Hr.
  rewrite length_map, length_seqZ in Hr. exact Hr.
Qed.

Lemma ma_example_reach : ma_reach (ma_example, ∅).
Proof.
  apply (ma_reach_init ma_pg_example ma_mem_example);
    [apply ma_pg_example_ok|exact ma_example_room|apply memalloc_init_run].
Qed.
#[global] Opaque ma_pg_example ma_mem_example.

Lemma ma_example_inv : ma_inv ma_example ∅.
Proof. exact (ma_reach_inv _ ma_example_reach). Qed.

(** One block held. *)
Lemma ma_step_malloc (s : mastate pgstate) live nbytes align who : req_okb nbytes align = true ->
  ma_step (MMalloc nbytes align who) (s, live) = Some (run_client (bmk_memalloc nbytes align who)
    (fun r => if r =? 0 then live else <[r := lblk_for nbytes align who]> live) s).
Proof. cbn [ma_step]. by intros ->. Qed.

(** A run that ends in a given client state. *)
Lemma run_client_inv {A} (m : M (mastate pgstate) A) f s s' live :
  run_client m f s = Done (s', live) -> exists r, m s = Done (r, s') /\ live = f r.
Proof. unfold run_client. destruct (m s) as [[r t]| |]; [|done|done]. intros [= -> <-]. eauto. Qed.

(** The block comes from the page allocator alone: memory plays no part. *)
Lemma ma_example_block m : match block_alloc 2 (ma_boot ma_pg_example m) with
  Done (h, _) => h =? 1052672 | _ => false end = true.
Proof. vm_compute. reflexivity. Qed.

Lemma ma_example_pointer m r s' :
  bmk_memalloc 100 0 BMK_MEMWHO_USER (ma_boot ma_pg_example m) = Done (r, s') -> r = 1052688.
Proof.
  pose proof (ma_example_block m) as F.
  change (bmk_memalloc 100 0 BMK_MEMWHO_USER) with (hdr <-- block_alloc (PA := buddy_page_allocator) 2 ;;
    if hdr =? 0 then cret 0 else
    let rv := align_up (hdr + HDRSIZE) 16 in
    in_mem (wr_list (rv - HDRSIZE) (hdr_bytes (MkHdr (u32 (u64 (rv - hdr))) MAGIC (u8 2) 2))) ;;; cret rv).
  unfold cbind at 1. destruct (block_alloc 2 (ma_boot ma_pg_example m)) as [[h s1]| |]; [|done|done].
  apply Z.eqb_eq in F as ->. cbn -[in_mem wr_list hdr_bytes align_up].
  unfold cbind. destruct (in_mem _ s1) as [[[] s2]| |]; [|done|done]. intros [= <- _]. reflexivity.
Qed.

Lemma ma_example_live : exists s live p,
  ma_reach (P := pgstate) (s, live) /\ ma_inv s live /\ live !! p = Some (Lb 2 16 BMK_MEMWHO_USER 100).
Proof.
  pose proof (ma_step_malloc ma_example ∅ 100 0 BMK_MEMWHO_USER eq_refl) as Es.
  destruct (ma_step_ok _ (ma_example, ∅) _ ma_example_inv Es) as ([s live] & E & Hi & _).
  rewrite E in Es. apply run_client_inv in E as (r & E & El). apply ma_example_pointer in E as ->.
  exists s, live, 1052688. split; [exact (ma_reach_step _ _ _ ma_example_reach Es)|]. split; [exact Hi|].
  rewrite El. reflexivity.
Qed.

Lemma ma_client_safe_witness : exists s live p l,
  ma_reach (P := pgstate) (s, live) /\ live !! p = Some l /\ lb_req l = 100 /\ (16 | p).
Proof.
  destruct ma_example_live as (s & live & p & Hr & _ & Hp).
  exists s, live, p, (Lb 2 16 BMK_MEMWHO_USER 100). split; [exact Hr|split; [exact Hp|split; [reflexivity|]]].
  exact (proj1 (proj1 (proj2 (ma_client_safe _ _ Hr)) _ _ Hp)).
Defined.

Lemma ma_step_keeps_contents_witness : exists (s s' : mastate pgstate) live live' p,
  ma_step (MMalloc 5000 0 BMK_MEMWHO_USER) (s, live) = Some (Done (s', live')) /\
  live !! p = Some (Lb 2 16 BMK_MEMWHO_USER 100) /\ ma_mem s' !! (p + 99) = ma_mem s !! (p + 99).
Proof.
  destruct ma_example_live as (s & live & p & Hr & Hi & Hp).
  pose proof (ma_step_malloc s live 5000 0 BMK_MEMWHO_USER eq_refl) as Es.
  destruct (ma_step_ok _ (s, live) _ Hi Es) as ([s' live'] & E & _). rewrite E in Es.
  exists s, s', live, live', p. split; [exact Es|split; [exact Hp|]].
  refine (proj2 (ma_step_keeps_contents _ _ _ _ _ Hr Es p _ (p + 99) Hp _ _ _ _)); try discriminate.
  unfold in_user. simpl. lia.
Defined.

Lemma memalloc_correct_witness : exists r s',
  bmk_memalloc 10 64 BMK_MEMWHO_RUMPKERN ma_example = Done (r, s') /\
  memalloc_post ma_example ∅ (lblk_for 10 64 BMK_MEMWHO_RUMPKERN) r s'.
Proof.
  destruct (proj2 (memalloc_correct ma_example ∅ 10 64 BMK_MEMWHO_RUMPKERN ma_example_inv ltac:(lia))
    ltac:(apply req_okb_ok; reflexivity)) as (r & s' & E & H & _).
  exists r, s'. split; [exact E|exact H].
Defined.

Lemma memcalloc_correct_witness : exists r s',
  bmk_memcalloc 3 50 BMK_MEMWHO_USER ma_example = Done (r, s') /\
  (r <> 0 -> ma_mem s' !! (r + 149) = Some 0).
Proof.
  destruct (proj2 (memcalloc_correct ma_example ∅ 3 50 BMK_MEMWHO_USER ma_example_inv ltac:(lia) ltac:(lia))
    ltac:(lia)) as (r & s' & E & _ & H).
  exists r, s'. split; [exact E|]. intros Hr. apply H; [exact Hr|lia].
Defined.

Lemma memfree_correct_witness : exists (s s' : mastate pgstate) live p,
  bmk_memfree p BMK_MEMWHO_USER s = Done (tt, s') /\ ma_inv s' (delete p live) /\
  bmk_memfree p BMK_MEMWHO_RUMPKERN s = Halted "bmk_memalloc error".
Proof.
  destruct ma_example_live as (s & live & p & _ & Hi & Hp).
  destruct (proj1 (proj2 (memfree_correct s live p _ BMK_MEMWHO_USER Hi Hp)) eq_refl) as (s' & E & Hi' & _).
  exists s, s', live, p. split; [exact E|split; [exact Hi'|]].
  apply (memfree_correct s live p _ BMK_MEMWHO_RUMPKERN Hi Hp). discriminate.
Defined.

Lemma memrealloc_correct_witness : exists (s s' : mastate pgstate) live p r,
  live !! p = Some (Lb 2 16 BMK_MEMWHO_USER 100) /\ bmk_memrealloc_user p 1000 s = Done (r, s') /\
  realloc_post s live p (Lb 2 16 BMK_MEMWHO_USER 100) 1000 r s'.
Proof.
  destruct ma_example_live as (s & live & p & _ & Hi & Hp).
  destruct (memrealloc_correct s live p _ 1000 Hi Hp eq_refl eq_refl ltac:(lia)) as (r & s' & E & H).
  exists s, s', live, p, r. split; [exact Hp|split; [exact E|exact H]].
Defined.
