(* ===== verification/RumpMem.v ===== *)
(** * Memory for the rump kernel (lib/libbmk_rumpuser/rumpuser_mem.c)

    The rump kernel allocates through these two calls: small requests go to the
    byte allocator, requests of a page or more to the page allocator.  Both work
    on the same pages, so the state is that of the byte allocator on top of the
    buddy allocator. *)
From S2P Require Import Prelude Pgalloc PgallocInv PgallocThms PageIface CString CStringThms Memalloc MemallocThms MemallocInv MemallocSpec.

Definition BMK_ENOMEM : Z := 12.

(** [v] is an int; [len] is not 0. *)
Definition len2order (len : Z) : Z :=
  let v := 64 - clz64 len in
  let v := if Z.land len (len - 1) =? 0 then v - 1 else v in
  v - BMK_PCPU_PAGE_SHIFT.

(** The error code and what [*retval] is set to. *)
Definition rumpuser_malloc (len alignment : Z) : M (mastate pgstate) (Z * Z) :=
  retval <-- (if len <? BMK_PCPU_PAGE_SIZE
              then bmk_memalloc len (u64 alignment) BMK_MEMWHO_RUMPKERN
              else massert (Z.land alignment (s32 (alignment - 1)) =? 0)
                     "(alignment & (alignment-1)) == 0" ;;;
                   let alignment := if alignment <? BMK_PCPU_PAGE_SIZE
                                    then BMK_PCPU_PAGE_SIZE else alignment in
                   in_pg (bmk_pgalloc_align (len2order len) alignment)) ;;
  cret (if retval =? 0 then BMK_ENOMEM else 0, retval).

Definition rumpuser_free (buf buflen : Z) : M (mastate pgstate) unit :=
  if buflen <? BMK_PCPU_PAGE_SIZE
  then bmk_memfree buf BMK_MEMWHO_RUMPKERN
  else in_pg (bmk_pgfree buf (len2order buflen)).

(** * Memory for the rump kernel: theorems

    The two allocators share the pages of one machine.  The theorem below is
    about all clients of rumpuser_mem.c together, whichever allocator serves
    them. *)

(** A request of a page or more has the size class the byte allocator would
    give it. *)
Lemma len2order_bucket len : 4096 <= len <= 2 ^ 62 -> len2order len = bucket_for len - 7.
Proof.
  intros H. unfold len2order, bucket_for, clz64, MINSHIFT, BMK_PCPU_PAGE_SHIFT.
  change (Z.shiftl 1 5) with 32. rewrite (proj2 (Z.ltb_ge len 32)) by lia.
  rewrite Z.log2_shiftr by lia.
  assert (12 <= Z.log2 len) by (change 12 with (Z.log2 4096); apply Z.log2_le_mono; lia).
  rewrite Z.max_r by lia. destruct (Z.land len (len - 1) =? 0); lia.
Qed.

(** The order [len2order] computes for a request of at least a page is the
    least one whose block holds it, and one the page allocator supports. *)
Theorem len2order_least len : 4096 <= len <= 2 ^ 62 ->
  0 <= len2order len < 52 /\ len <= csize (len2order len) /\
  (forall k, 0 <= k -> len <= csize k -> len2order len <= k).
Proof.
  intros H. rewrite len2order_bucket by done.
  destruct (bucket_for_ok len ltac:(lia)) as (Hb & Hle & Hmin).
  assert (Hge : 7 <= bucket_for len).
  { destruct (Z.le_gt_cases 7 (bucket_for len)); [done|exfalso].
    assert (bsize (bucket_for len) <= 2 ^ 11) by (apply Z.pow_le_mono_r; unfold MINSHIFT; lia).
    change (2 ^ 11) with 2048 in *. lia. }
  assert (E : forall b, csize (b - 7) = bsize b) by (intros b; unfold csize, bsize, MINSHIFT; f_equal; lia).
  rewrite E. split; [lia|]. split; [done|]. intros k Hk Hlk.
  destruct Hmin as [H0|Hmin]; [lia|].
  assert (Hlt : csize (bucket_for len - 1 - 7) < csize k) by (rewrite E; lia).
  unfold csize in Hlt. apply Z.pow_lt_mono_r_iff in Hlt; lia.
Qed.

(** ** Clients

    [held] is what the clients hold: the pointer and the length asked for. *)
Inductive rmop :=
| RMalloc (len alignment : Z)
| RFree (p : Z)
| RStore (p x v : Z).

Definition rmclient : Type := (mastate pgstate * gmap Z Z)%type.

(** A request for no bytes may get the address behind its block, so that is not
    asked for. *)
Definition rm_reqb (len alignment : Z) : bool :=
  (0 <? len) && req_okb len alignment && (alignment <=? 2 ^ 30).

(** One step; [None] when the client breaks its side of the contract. *)
Definition rm_step (op : rmop) (c : rmclient) : option (res rmclient) :=
  let '(s, held) := c in
  match op with
  | RMalloc len alignment =>
      if rm_reqb len alignment
      then Some (match rumpuser_malloc len alignment s with
           | Done ((err, p), s') => Done (s', if err =? 0 then <[p := len]> held else held)
           | Halted w => Halted w | NoFuel => NoFuel end)
      else None
  | RFree p =>
      len ← held !! p;
      Some (match rumpuser_free p len s with
            | Done (_, s') => Done (s', delete p held)
            | Halted w => Halted w | NoFuel => NoFuel end)
  | RStore p x v =>
      len ← held !! p;
      if (p <=? x) && (x <? p + len)
      then Some (Done (set_mem (<[x := v]> (ma_mem s)) s, held)) else None
  end.

Inductive rm_reach : rmclient -> Prop :=
| rm_reach_init pg m : pg_inv pg -> room m (minpage_addr pg) (maxpage_addr pg - minpage_addr pg) ->
    rm_reach (ma_boot pg m, ∅)
| rm_reach_step op c c' : rm_reach c -> rm_step op c = Some (Done c') -> rm_reach c'.

(** A held pointer is a block of the byte allocator or whole pages; [raw] and
    [live] are the blocks in use and those with a header. *)
Definition held_ok (raw : gmap Z Z) (live : gmap Z lblk) (p len : Z) : Prop :=
  0 < len /\ if len <? 4096
  then exists l, live !! p = Some l /\ lb_req l = len /\ lb_who l = BMK_MEMWHO_RUMPKERN
  else len <= 2 ^ 62 /\ raw !! p = Some (len2order len + 7) /\ forall q l, live !! q = Some l -> lb_base q l <> p.

Definition rm_inv (s : mastate pgstate) (held : gmap Z Z) : Prop :=
  exists raw live, ma_inv_raw s raw live /\ map_Forall (held_ok raw live) held.

Lemma bsize_pages k : bsize (k + 7) = csize k.
Proof. unfold bsize, csize, MINSHIFT. f_equal. lia. Qed.

(** The block a held pointer lies in. *)
Lemma held_block s raw live p len : ma_inv_raw s raw live -> held_ok raw live p len ->
  0 < len /\ exists a b, raw !! a = Some b /\ (forall x, p <= x < p + len -> in_bkt a b x) /\
    ((exists l, live !! p = Some l /\ lb_base p l = a) \/
     (p = a /\ forall q l, live !! q = Some l -> lb_base q l <> p)).
Proof.
  intros (Hr & Hl & _) [H0 H]. split; [done|]. destruct (Z.ltb_spec len 4096).
  - destruct H as (l & Hp & <- & _). destruct (li_blk _ _ _ Hl _ _ Hp) as (R & _ & Hpad & _ & Hu).
    exists (lb_base p l), (lb_index l). split_and!; [done| |by left; exists l].
    intros x Hx. eapply live_range; [done..|]. unfold HDRSIZE. lia.
  - destruct H as (Hle & R & Hne). exists p, (len2order len + 7).
    destruct (len2order_least len ltac:(lia)) as (Ho & Hc & _).
    unfold in_bkt. rewrite bsize_pages. split_and!; [done| |by right]. intros x Hx. lia.
Qed.

(** Held memory is disjoint. *)
Lemma held_disj s raw live p len p' len' x : ma_inv_raw s raw live ->
  held_ok raw live p len -> held_ok raw live p' len' ->
  p <= x < p + len -> p' <= x < p' + len' -> p = p'.
Proof.
  intros Hi Hp Hp' Hx Hx'.
  destruct (held_block _ _ _ _ _ Hi Hp) as (_ & a & b & R & Hin & Hk).
  destruct (held_block _ _ _ _ _ Hi Hp') as (_ & a' & b' & R' & Hin' & Hk').
  destruct Hi as (Hr & [_ Hj] & _).
  destruct (ri_disj _ _ Hr _ _ _ _ x (or_intror R) (or_intror R')) as [-> _]; [auto..|].
  destruct Hk as [(l & Hl & E)|[-> Hn]], Hk' as [(l' & Hl' & E')|[-> Hn']]; try done.
  - eapply Hj; [done..|congruence].
  - by destruct (Hn' _ _ Hl).
  - by destruct (Hn _ _ Hl').
Qed.

(** A block that joins those in use leaves the held pointers as they are. *)
Lemma held_ok_grow raw live a b p len : raw !! a = None -> held_ok raw live p len ->
  held_ok (<[a := b]> raw) live p len.
Proof.
  intros Ha [H0 H]. split; [done|]. destruct (len <? 4096); [done|].
  destruct H as (? & R & ?). split_and!; [done| |done]. rewrite lookup_insert_ne; congruence.
Qed.
Lemma held_ok_live raw live q l p len : live !! q = None -> raw !! lb_base q l = None ->
  held_ok raw live p len -> held_ok raw (<[q := l]> live) p len.
Proof.
  intros Hq Hb [H0 H]. split; [done|]. destruct (len <? 4096).
  - destruct H as (l' & Hp & ?). exists l'. split; [|done]. rewrite lookup_insert_ne; congruence.
  - destruct H as (? & R & Hn). split_and!; [done..|].
    intros q' l' [[<- <-]|[_ H']]%lookup_insert_Some; [congruence|by eapply Hn].
Qed.
Lemma live_inv_grow m raw live a b : raw !! a = None -> live_inv m raw live ->
  live_inv m (<[a := b]> raw) live.
Proof.
  intros Ha [Hb Hj]. split; [|done]. intros p l Hp. destruct (Hb _ _ Hp) as (R & Hrest).
  split; [|done]. rewrite lookup_insert_ne; congruence.
Qed.


(** What an allocation gives: an error, or aligned memory that nobody held. *)
Definition rm_malloc_post (s : mastate pgstate) (held : gmap Z Z) (len alignment : Z)
    (r : Z * Z) (s' : mastate pgstate) : Prop :=
  (r.1 = BMK_ENOMEM /\ r.2 = 0 /\ rm_inv s' held /\ ma_mem s' = ma_mem s) \/
  (r.1 = 0 /\ r.2 <> 0 /\ held !! r.2 = None /\
   (Z.max alignment (if len <? 4096 then 16 else 4096) | r.2) /\ rm_inv s' (<[r.2 := len]> held)).

Lemma rm_small s held len alignment : rm_inv s held -> rm_reqb len alignment = true -> len < 4096 ->
  wp (rumpuser_malloc len alignment) (rm_malloc_post s held len alignment) s.
Proof.
  intros (raw & live & Hi & Hh) Hq Hlt. unfold rm_reqb in Hq.
  assert (Hreq : req_okb len alignment = true) by (destruct (req_okb len alignment); lia).
  pose proof Hreq as Hr0. unfold req_okb in Hr0.
  unfold rumpuser_malloc, BMK_PCPU_PAGE_SIZE. rewrite (proj2 (Z.ltb_lt len 4096) Hlt).
  apply wp_bind. assert (Eu : u64 alignment = alignment) by (unfold u64; apply Z.mod_small; lia). rewrite Eu.
  eapply wp_mono; [apply (wp_bmk_memalloc_raw s raw live); [done|by apply req_okb_ok]|].
  intros r s' [(-> & Hi' & Em & _)|(Hne & Hn & Hb & Hi' & _)]; apply wp_ret.
  { left. split_and!; [done..| |done]. by exists raw, live. }
  rewrite (proj2 (Z.eqb_neq r 0) Hne). right. cbn [fst snd].
  set (l := lblk_for len alignment BMK_MEMWHO_RUMPKERN) in *.
  assert (Hnew : held_ok (<[lb_base r l := lb_index l]> raw) (<[r := l]> live) r len).
  { split; [lia|]. rewrite (proj2 (Z.ltb_lt len 4096) Hlt). exists l. by rewrite lookup_insert_eq. }
  destruct Hi' as (Hr' & Hl' & Hm').
  destruct (li_blk _ _ _ Hl' r l (lookup_insert_eq _ _ _)) as (R & _ & Hpad & [_ Hal] & Hu).
  split_and!; [done..| | |].
  - apply eq_None_not_Some. intros [len' Hold]. destruct (Hh _ _ Hold) as [H0 H].
    destruct (Z.ltb_spec len' 4096); [destruct H as (l' & ? & _); congruence|].
    destruct H as (Hle & R2 & _). destruct (len2order_least len' ltac:(lia)) as (_ & Hc & _).
    destruct (ri_disj _ _ Hr' (lb_index l) (lb_base r l) (len2order len' + 7) r r) as [E _].
    + by right.
    + right. rewrite lookup_insert_ne; congruence.
    + eapply live_range; [done|apply lookup_insert_eq|]. unfold HDRSIZE. cbn in Hu. lia.
    + unfold in_bkt. rewrite bsize_pages. lia.
    + unfold lb_base in E. lia.
  - rewrite (proj2 (Z.ltb_lt len 4096) Hlt). exact Hal.
  - exists (<[lb_base r l := lb_index l]> raw), (<[r := l]> live). split; [by split|].
    apply map_Forall_insert_2; [done|]. intros q len' Hq'.
    apply held_ok_grow; [done|]. apply held_ok_live; [done..|]. by apply Hh.
Qed.

Lemma rm_large s held len alignment : rm_inv s held -> rm_reqb len alignment = true -> 4096 <= len ->
  wp (rumpuser_malloc len alignment) (rm_malloc_post s held len alignment) s.
Proof.
  intros (raw & live & Hi & Hh) Hq Hge. pose proof Hi as (Hr & Hl & Hm).
  unfold rm_reqb, req_okb in Hq.
  destruct (len2order_least len ltac:(lia)) as (Ho & Hc & _).
  unfold rumpuser_malloc, BMK_PCPU_PAGE_SIZE. rewrite (proj2 (Z.ltb_ge len 4096) Hge).
  apply wp_bind, wp_bind, wp_assert.
  { destruct (Z.eqb_spec alignment 0) as [->|]; [done|].
    assert (s32 (alignment - 1) = alignment - 1) as -> by (unfold s32, swrap; rewrite Z.mod_small; lia). lia. }
  set (al := if alignment <? 4096 then 4096 else alignment).
  assert (Hal : 4096 <= al /\ Z.land al (al - 1) = 0 /\ al = Z.max alignment 4096).
  { subst al. destruct (Z.ltb_spec alignment 4096); [split_and!; [lia|done|lia]|]. lia. }
  apply wp_zoom. eapply wp_mono; [apply wp_bmk_pgalloc_align; [apply Hr|lia|lia|apply Hal]|].
  intros r p' (Hi' & Elo & Ehi & [(-> & -> & _)|(Hne & Hdiv & [[? ? ? ?] Hw Hn])]); apply wp_ret.
  { left. split_and!; try done. exists raw, live. split; [|done].
    split; [by apply raw_inv_same|]. by split. }
  rewrite (proj2 (Z.eqb_neq r 0) Hne). right. cbn [fst snd].
  assert (Hin : forall x, in_bkt r (len2order len + 7) x <-> in_block (len2order len) r x)
    by (intros x; unfold in_bkt, in_block; by rewrite bsize_pages).
  destruct (raw_inv_take s raw (len2order len + 7) r p') as (Hfr & Hdj & Hr');
    rewrite ?bsize_pages; try done.
  { assert (LOCALBUCKETS = 7) by reflexivity. lia. }
  { intros x Hx. by apply Hw, Hin. }
  { intros x. rewrite Hin. apply Hn. }
  assert (Hnb : forall q l, live !! q = Some l -> lb_base q l <> r).
  { intros q l Hql. destruct (li_blk _ _ _ Hl _ _ Hql) as (R & _). congruence. }
  split_and!; [done..| | |].
  - apply eq_None_not_Some. intros [len' Hold].
    destruct (held_block _ _ _ _ _ Hi (Hh _ _ Hold)) as (H0 & a & b & R & Hx & _).
    apply (Hdj r ltac:(apply Hin; unfold in_block; pose proof (csize_pos (len2order len) ltac:(lia)); lia) b a R).
    apply Hx. lia.
  - rewrite (proj2 (Z.ltb_ge len 4096) Hge). destruct Hal as (_ & _ & <-). exact Hdiv.
  - exists (<[r := len2order len + 7]> raw), live. split.
    { split; [done|]. split; [by apply live_inv_grow|]. unfold region_mem in *. cbn in *.
      by rewrite Elo, Ehi. }
    apply map_Forall_insert_2.
    + split; [lia|]. rewrite (proj2 (Z.ltb_ge len 4096) Hge). split_and!; [lia|apply lookup_insert_eq|done].
    + intros q len' Hq'. apply held_ok_grow; [done|]. by apply Hh.
Qed.

(** Freeing. *)
Lemma held_ok_shrink raw live a p len : (4096 <= len -> p <> a) -> held_ok raw live p len ->
  held_ok (delete a raw) live p len.
Proof.
  intros Ha [H0 H]. split; [done|]. destruct (Z.ltb_spec len 4096); [done|].
  destruct H as (? & R & ?). split_and!; [done| |done].
  rewrite lookup_delete_ne; [done|]. intros <-. by apply Ha.
Qed.
Lemma held_ok_forget raw live q p len : p <> q -> held_ok raw live p len ->
  held_ok raw (delete q live) p len.
Proof.
  intros Hq [H0 H]. split; [done|]. destruct (len <? 4096).
  - destruct H as (l' & Hp & ?). exists l'. split; [|done]. by rewrite lookup_delete_ne.
  - destruct H as (? & R & Hn). split_and!; [done..|].
    intros q' l' [_ H']%lookup_delete_Some. by eapply Hn.
Qed.

Lemma wp_rumpuser_free s held p len : rm_inv s held -> held !! p = Some len ->
  wp (rumpuser_free p len) (fun _ s' => rm_inv s' (delete p held) /\ ma_mem s' = ma_mem s) s.
Proof.
  intros (raw & live & Hi & Hh) Hp. pose proof (Hh _ _ Hp) as [H0 H].
  unfold rumpuser_free, BMK_PCPU_PAGE_SIZE. destruct (Z.ltb_spec len 4096).
  - destruct H as (l & Hl & Hreq & Hw). rewrite <- Hw.
    eapply wp_mono; [by eapply wp_bmk_memfree_raw|]. intros [] s' [Hi' (Em & _)]. split; [|done].
    exists (delete (lb_base p l) raw), (delete p live). split; [done|].
    intros q len' [Hne Hq]%lookup_delete_Some. apply held_ok_forget; [done|].
    pose proof (Hh _ _ Hq) as Hok. apply held_ok_shrink; [|done]. intros Hbig E.
    destruct Hok as [_ Hok]. rewrite (proj2 (Z.ltb_ge len' 4096) Hbig) in Hok.
    by apply (proj2 (proj2 Hok) p l).
  - destruct H as (Hle & R & Hn). destruct Hi as (Hr & Hl & Hm).
    destruct (len2order_least len ltac:(lia)) as (Ho & _).
    assert (E : in_pg (bmk_pgfree p (len2order len)) = block_free p (len2order len + 7)).
    { unfold block_free. rewrite (proj2 (Z.leb_le LOCALBUCKETS (len2order len + 7)))
        by (change LOCALBUCKETS with 7; lia).
      unfold MINSHIFT, BMK_PCPU_PAGE_SHIFT. by replace (len2order len + 7 + 5 - 12) with (len2order len) by lia. }
    rewrite E. eapply wp_mono; [by apply (wp_block_free s raw)|].
    intros [] s' [(Em & Elo & Ehi) Hr']. split; [|done].
    exists (delete p raw), live. split.
    + split; [done|]. rewrite Em. split; [|unfold region_mem; by rewrite Em, Elo, Ehi].
      destruct Hl as [Hb Hj]. split; [|done]. intros q l Hq. destruct (Hb _ _ Hq) as (Rq & Hrest).
      split; [|done]. rewrite lookup_delete_ne; [done|]. intros E'. by apply (Hn q l).
    + intros q len' [Hne Hq]%lookup_delete_Some. apply held_ok_shrink; [|by apply Hh]. congruence.
Qed.

(** ** Every step of every client *)
Lemma rm_store s held p len x v : rm_inv s held -> held !! p = Some len -> p <= x < p + len ->
  rm_inv (set_mem (<[x := v]> (ma_mem s)) s) held.
Proof.
  intros (raw & live & Hi & Hh) Hp Hx. exists raw, live. split; [|done].
  pose proof (held_block _ _ _ _ _ Hi (Hh _ _ Hp)) as (_ & a & b & R & Hin & Hk).
  destruct Hi as (Hr & Hl & Hm). split; [by apply raw_inv_set_mem|]. split.
  - eapply live_inv_mem; [exact Hl|]. intros q l y Hq Hy. cbn.
    rewrite lookup_insert_ne; [done|]. intros <-.
    assert (Hy' : in_bkt (lb_base q l) (lb_index l) x).
    { destruct (li_blk _ _ _ Hl _ _ Hq) as (_ & _ & _ & _ & Hu).
      eapply live_range; [done..|]. lia. }
    destruct (li_blk _ _ _ Hl _ _ Hq) as (Rq & _).
    destruct (ri_disj _ _ Hr _ _ _ _ x (or_intror R) (or_intror Rq)) as [E _]; [auto..|].
    destruct Hk as [(l' & Hl' & E')|[-> Hn]]; [|by destruct (Hn _ _ Hq)].
    assert (q = p) by (eapply (li_inj _ _ _ Hl); [done..|congruence]). subst q. lia.
  - eapply stored_region; [done|]. apply (stored_insert (ma_mem s) x v).
Qed.

Lemma rm_step_ok op c r : rm_inv (fst c) (snd c) -> rm_step op c = Some r ->
  exists c', r = Done c' /\ rm_inv (fst c') (snd c').
Proof.
  destruct c as [s held]. cbn. intros Hi Hs. destruct op as [len al|p|p x v]; cbn in Hs.
  - destruct (rm_reqb len al) eqn:Hq; [|done]. simplify_eq.
    assert (Hw : wp (rumpuser_malloc len al) (rm_malloc_post s held len al) s).
    { destruct (Z.lt_ge_cases len 4096); [by apply rm_small|by apply rm_large]. }
    destruct (wp_run _ _ _ Hw) as ([err p] & s' & -> & [(E & _ & Hi' & _)|(E & _ & _ & _ & Hi')]); cbn in E; subst err;
      eexists; (split; [reflexivity|exact Hi']).
  - destruct (held !! p) as [len|] eqn:Hp; [|done]. cbn in Hs. simplify_eq.
    destruct (wp_run _ _ _ (wp_rumpuser_free s held p len Hi Hp)) as ([] & s' & -> & Hi' & _).
    eexists. split; [reflexivity|exact Hi'].
  - destruct (held !! p) as [len|] eqn:Hp; [|done]. cbn in Hs.
    destruct ((p <=? x) && (x <? p + len)) eqn:Hx; [|done]. simplify_eq. eexists. split; [reflexivity|].
    cbn. apply (rm_store s held p len); [done..|lia].
Qed.

Lemma rm_reach_inv c : rm_reach c -> rm_inv (fst c) (snd c).
Proof.
  induction 1 as [pg m Hpg Hm|op c c' Hr IH Hs].
  - destruct (boot_inv (PA := buddy_page_allocator) pg m Hpg Hm) as [raw Hi].
    exists raw, ∅. by split.
  - destruct (rm_step_ok _ _ _ IH Hs) as (c'' & [= <-] & Hi). done.
Qed.

(** C3. The rump kernel's memory, with small requests served by the byte
    allocator and large ones by the page allocator out of the same pages: from
    boot, every sequence of rumpuser_malloc, rumpuser_free (with the length
    given at allocation) and stores to held memory returns; an allocation fails
    with ENOMEM or gives memory nobody holds, aligned as asked for (to a page
    from a page on); and what is held never overlaps. *)
Theorem rumpuser_mem_safe s held :
  rm_reach (s, held) ->
  (forall op r, rm_step op (s, held) = Some r -> exists c', r = Done c' /\ rm_reach c') /\
  (forall len alignment, rm_reqb len alignment = true -> exists err p s',
     rumpuser_malloc len alignment s = Done ((err, p), s') /\
     ((err = BMK_ENOMEM /\ p = 0) \/
      (err = 0 /\ p <> 0 /\ held !! p = None /\
       (Z.max alignment (if len <? 4096 then 16 else 4096) | p)))) /\
  (forall p len p' len' x, held !! p = Some len -> held !! p' = Some len' ->
     p <= x < p + len -> p' <= x < p' + len' -> p = p').
Proof.
  intros Hr. pose proof (rm_reach_inv _ Hr) as Hi. cbn in Hi. split_and!.
  - intros op r Hs. destruct (rm_step_ok op (s, held) r Hi Hs) as (c' & -> & _).
    exists c'. split; [done|]. by eapply rm_reach_step.
  - intros len al Hq.
    assert (Hw : wp (rumpuser_malloc len al) (rm_malloc_post s held len al) s).
    { destruct (Z.lt_ge_cases len 4096); [by apply rm_small|by apply rm_large]. }
    destruct (wp_run _ _ _ Hw) as ([err p] & s' & E & [(E1 & E2 & _)|(E1 & Hne & Hn & Hal & _)]);
      exists err, p, s'; (split; [done|]); cbn in *; [by left|by right].
  - destruct Hi as (raw & live & Hi & Hh). intros p len p' len' x Hp Hp'.
    apply (held_disj s raw live); [done|by apply Hh|by apply Hh].
Qed.

(** Three pages: a request for two of them and one for a few bytes. *)
Lemma rm_example_reach : rm_reach (ma_example, ∅).
Proof.
  apply rm_reach_init; [apply ma_pg_example_ok|exact ma_example_room].
Qed.

Lemma len2order_least_witness : 0 <= len2order 4097 < 52 /\ 4097 <= csize (len2order 4097).
Proof.
  destruct (len2order_least 4097 ltac:(lia)) as (H1 & H2 & _). exact (conj H1 H2).
Defined.

Lemma rumpuser_mem_safe_witness : exists err p s',
  rumpuser_malloc 5000 0 ma_example = Done ((err, p), s') /\
  ((err = BMK_ENOMEM /\ p = 0) \/ (err = 0 /\ p <> 0 /\ (∅ : gmap Z Z) !! p = None /\ (4096 | p))).
Proof.
  exact (proj1 (proj2 (rumpuser_mem_safe ma_example ∅ rm_example_reach)) 5000 0 eq_refl).
Defined.
