(* ===== verification/LfRing.v ===== *)
(** * The lock-free index ring (include/bmk-core/lfring.h)

    The ring holds indices below [n = 2 ^ (order + 1)]; an entry packs a cycle
    number, a "safe" bit ([n]) and an index (the low [order + 1] bits).  The
    operations are modelled at the granularity of a caller that runs alone:
    each atomic access is one access to the shared record, a compare-and-swap
    succeeds exactly when the expected value is found. *)

From S2P Require Import Prelude.

(** LF_CACHE_SHIFT is 7 and the atomic width 64 on amd64. *)
Definition LFRING_MIN : Z := 7 - 3.
Definition LFRING_EMPTY : Z := 2 ^ 64 - 1.

(** [__lfring_cmp(x, op, 0)]: the sign of the wrapped difference. *)
Definition lfring_diff (x y : Z) : Z := s64 (x - y).

Definition lfring_raw_map (idx order n : Z) : Z :=
  Z.lor (Z.shiftr (Z.land idx (n - 1)) (order - LFRING_MIN))
        (Z.land (u64 (Z.shiftl idx LFRING_MIN)) (n - 1)).
Definition lfring_map (idx order n : Z) : Z := lfring_raw_map idx (order + 1) n.
Definition lfring_threshold3 (half n : Z) : Z := half + n - 1.
Definition lfring_pow2 (order : Z) : Z := Z.shiftl 1 order.

Record lfring := MkRing {
  rg_head : Z;
  rg_threshold : Z;     (* signed *)
  rg_tail : Z;
  rg_array : list Z
}.
Definition ring_set_head (v : Z) (q : lfring) : lfring :=
  MkRing v (rg_threshold q) (rg_tail q) (rg_array q).
Definition ring_set_threshold (v : Z) (q : lfring) : lfring :=
  MkRing (rg_head q) v (rg_tail q) (rg_array q).
Definition ring_set_tail (v : Z) (q : lfring) : lfring :=
  MkRing (rg_head q) (rg_threshold q) v (rg_array q).
Definition ring_set_array (v : list Z) (q : lfring) : lfring :=
  MkRing (rg_head q) (rg_threshold q) (rg_tail q) v.

(** Atomic accesses to the array. *)
Definition arr_load (i : Z) : M lfring Z :=
  q <-- mget ;; mopt (rg_array q !! Z.to_nat i) "ring index".
Definition arr_store (i v : Z) : M lfring unit :=
  _ <-- arr_load i ;;
  modify (fun q => ring_set_array (<[Z.to_nat i := v]> (rg_array q)) q).
(** Compare and swap: success and the value found. *)
Definition arr_cas (i expected v : Z) : M lfring (bool * Z) :=
  w <-- arr_load i ;;
  if w =? expected then arr_store i v ;;; cret (true, w) else cret (false, w).

(** [init i j f] stores [f] for the indices [i <= k < j]. *)
Definition init_range (at_ : Z -> Z) (f : Z -> Z) (i j : Z) : M lfring unit :=
  mfor (fun k => arr_store (at_ k) (f k)) (seqZ i (j - i)).

Definition lfring_init_empty (order : Z) : M lfring unit :=
  let n := lfring_pow2 (order + 1) in
  init_range (fun i => i) (fun _ => u64 (-1)) 0 n ;;;
  modify (ring_set_head 0) ;;; modify (ring_set_threshold (-1)) ;;; modify (ring_set_tail 0).

Definition lfring_init_full (order : Z) : M lfring unit :=
  let half := lfring_pow2 order in
  let n := half * 2 in
  init_range (fun i => lfring_map i order n) (fun i => lfring_raw_map (n + i) order half) 0 half ;;;
  init_range (fun i => lfring_map i order n) (fun _ => u64 (-1)) half n ;;;
  modify (ring_set_head 0) ;;;
  modify (ring_set_threshold (lfring_threshold3 half n)) ;;;
  modify (ring_set_tail half).

Definition lfring_init_fill (s e order : Z) : M lfring unit :=
  let half := lfring_pow2 order in
  let n := half * 2 in
  init_range (fun i => lfring_map i order n) (fun _ => 2 * n - 1) 0 s ;;;
  init_range (fun i => lfring_map i order n) (fun i => n + i) s e ;;;
  init_range (fun i => lfring_map i order n) (fun _ => u64 (-1)) e n ;;;
  modify (ring_set_head s) ;;;
  modify (ring_set_threshold (lfring_threshold3 half n)) ;;;
  modify (ring_set_tail e).

(** The [retry] loop on one slot: true when the entry was installed. *)
Definition enqueue_slot (n eidx tail tcycle tidx entry : Z) : M lfring bool :=
  loopM (fun entry =>
    let ecycle := Z.lor entry (2 * n - 1) in
    q <-- mget ;;
    if (lfring_diff ecycle tcycle <? 0) &&
       ((entry =? ecycle) ||
        ((entry =? Z.lxor ecycle n) && (lfring_diff (rg_head q) tail <=? 0)))
    then
      '(ok, w) <-- arr_cas tidx entry (Z.lxor tcycle eidx) ;;
      if ok : bool then cret (inr true) else cret (inl w)
    else cret (inr false)) entry.

Definition lfring_enqueue (order eidx : Z) (nonempty : bool) : M lfring bool :=
  let half := lfring_pow2 order in
  let n := half * 2 in
  let eidx := Z.lxor eidx (n - 1) in
  loopM (fun _ : unit =>
    q <-- mget ;;
    let tail := rg_tail q in
    modify (ring_set_tail (u64 (tail + 1))) ;;;
    let tcycle := Z.lor (u64 (Z.shiftl tail 1)) (2 * n - 1) in
    let tidx := lfring_map tail order n in
    entry <-- arr_load tidx ;;
    ok <-- enqueue_slot n eidx tail tcycle tidx entry ;;
    if ok : bool then
      q <-- mget ;;
      (if negb nonempty && negb (rg_threshold q =? lfring_threshold3 half n)
       then modify (ring_set_threshold (lfring_threshold3 half n)) else cret tt) ;;;
      cret (inr true)
    else cret (inl tt)) tt.

Definition lfring_catchup (tail head : Z) : M lfring unit :=
  loopM (fun '(tail, head) =>
    q <-- mget ;;
    if rg_tail q =? tail then modify (ring_set_tail head) ;;; cret (inr tt)
    else
      let head := rg_head q in
      let tail := rg_tail q in
      if 0 <=? lfring_diff tail head then cret (inr tt) else cret (inl (tail, head)))
    (tail, head).

(** The inner loop of dequeue on one slot: the index taken, if the entry is of
    this cycle. *)
Definition dequeue_slot (n hcycle hidx entry : Z) : M lfring (option Z) :=
  loopM (fun entry =>
    let ecycle := Z.lor entry (2 * n - 1) in
    if ecycle =? hcycle then
      w <-- arr_load hidx ;;
      arr_store hidx (Z.lor w (n - 1)) ;;;
      cret (inr (Some (Z.land entry (n - 1))))
    else
      let entry_new :=
        if negb (Z.lor entry n =? ecycle) then Z.land entry (Z.lnot n)
        else Z.lxor hcycle (Z.land (Z.lnot entry) n) in
      if negb (Z.lor entry n =? ecycle) && (entry =? entry_new) then cret (inr None)
      else if lfring_diff ecycle hcycle <? 0 then
        '(ok, w) <-- arr_cas hidx entry entry_new ;;
        if ok : bool then cret (inr None) else cret (inl w)
      else cret (inr None)) entry.

Definition lfring_dequeue (order : Z) (nonempty : bool) : M lfring Z :=
  let n := lfring_pow2 (order + 1) in
  q <-- mget ;;
  if negb nonempty && (rg_threshold q <? 0) then cret LFRING_EMPTY else
  loopM (fun _ : unit =>
    q <-- mget ;;
    let head := rg_head q in
    modify (ring_set_head (u64 (head + 1))) ;;;
    let hcycle := Z.lor (u64 (Z.shiftl head 1)) (2 * n - 1) in
    let hidx := lfring_map head order n in
    entry <-- arr_load hidx ;;
    r <-- dequeue_slot n hcycle hidx entry ;;
    match r with
    | Some idx => cret (inr idx)
    | None =>
        if nonempty : bool then cret (inl tt) else
        q <-- mget ;;
        let tail := rg_tail q in
        if lfring_diff tail (u64 (head + 1)) <=? 0 then
          lfring_catchup tail (u64 (head + 1)) ;;;
          modify (fun q => ring_set_threshold (s64 (rg_threshold q - 1)) q) ;;;
          cret (inr LFRING_EMPTY)
        else
          let t := rg_threshold q in
          modify (ring_set_threshold (s64 (t - 1))) ;;;
          if t <=? 0 then cret (inr LFRING_EMPTY) else cret (inl tt)
    end) tt.

(** * The index ring: entries, slots and the refinement to a queue *)


Lemma s64_small x : - 2 ^ 63 <= x < 2 ^ 63 -> s64 x = x.
Proof. intros. unfold s64, swrap. change (2 ^ (64 - 1)) with (2 ^ 63). rewrite Z.mod_small; lia. Qed.

Lemma s64_period x q : s64 (x + q * 2 ^ 64) = s64 x.
Proof.
  unfold s64, swrap. replace (x + q * 2 ^ 64 + 2 ^ (64 - 1)) with (x + 2 ^ (64 - 1) + q * 2 ^ 64) by lia.
  by rewrite Z.mod_add by lia.
Qed.

(** Wrapped counters compare like the counters when these are close. *)
Lemma s64_diff a b : - 2 ^ 63 <= a - b < 2 ^ 63 -> s64 (u64 a - u64 b) = a - b.
Proof.
  intros H. unfold u64. rewrite !Z.mod_eq by lia.
  replace (a - 2 ^ 64 * (a / 2 ^ 64) - (b - 2 ^ 64 * (b / 2 ^ 64)))
    with (a - b + (b / 2 ^ 64 - a / 2 ^ 64) * 2 ^ 64) by lia.
  rewrite s64_period. by apply s64_small.
Qed.

Lemma lor_ones y k : 0 <= k -> 0 <= y < 2 ^ k -> Z.lor y (2 ^ k - 1) = 2 ^ k - 1.
Proof.
  intros Hk Hy. apply Z.bits_inj'. intros j Hj. rewrite Z.lor_spec, testbit_mask_below by done.
  destruct (Z.ltb_spec j k); [by rewrite (proj2 (Z.leb_le 0 j)), orb_true_r by done|].
  by rewrite (high_bits_zero k), andb_false_r by done.
Qed.

Section Entries.
Context (order : Z).
Hypothesis Ho : 4 <= order <= 60.
Let o := order + 1.
Let n := 2 ^ o.

(** An entry: cycle, safe bit, index. *)
Definition enc (c : Z) (s : bool) (x : Z) : Z :=
  (c mod 2 ^ (63 - o)) * 2 ^ (o + 1) + (Z.b2z s * 2 ^ o + x).

Lemma n_facts : 0 < n /\ 2 * n = 2 ^ (o + 1) /\ 2 ^ 64 = 2 ^ (63 - o) * 2 ^ (o + 1) /\ n <= 2 ^ 61.
Proof using Ho.
  unfold n, o. split_and!.
  - apply Z.pow_pos_nonneg; lia.
  - rewrite <- Z.pow_succ_r by lia. f_equal; lia.
  - rewrite <- Z.pow_add_r by lia. f_equal; lia.
  - apply Z.pow_le_mono_r; lia.
Qed.

Lemma low_range s x : 0 <= x < n -> 0 <= Z.b2z s * 2 ^ o + x < 2 ^ (o + 1).
Proof using Ho.
  destruct n_facts as (? & E & _). fold n. rewrite <- E. destruct s; cbn [Z.b2z]; lia.
Qed.

(** The entry with its index field split off. *)
Lemma enc_index c s x : enc c s x = (2 * (c mod 2 ^ (63 - o)) + Z.b2z s) * 2 ^ o + x.
Proof using Ho. unfold enc. rewrite Z.pow_add_r by (unfold o; lia). lia. Qed.

Lemma enc_range c s x : 0 <= x < n -> 0 <= enc c s x < 2 ^ 64.
Proof using Ho.
  intros Hx. pose proof (low_range s x Hx). destruct n_facts as (? & _ & -> & _).
  pose proof (Z.mod_pos_bound c (2 ^ (63 - o)) ltac:(apply Z.pow_pos_nonneg; unfold o; lia)).
  unfold enc. nia.
Qed.

Lemma enc_lor_all c s x : 0 <= x < n -> Z.lor (enc c s x) (2 * n - 1) = enc c true (n - 1).
Proof using Ho.
  intros Hx. destruct n_facts as (? & E & _). unfold enc. rewrite E.
  pose proof (low_range s x Hx). rewrite lor_fields, lor_ones by (unfold o in *; lia).
  fold n. cbn [Z.b2z]. lia.
Qed.
Lemma enc_land c s x : 0 <= x < n -> Z.land (enc c s x) (n - 1) = x.
Proof using Ho.
  intros Hx. rewrite enc_index. fold n. unfold n at 2.
  rewrite land_mask_mod by (unfold o; lia). fold n. rewrite Z.add_comm, Z.mod_add, Z.mod_small by lia. done.
Qed.
Lemma enc_lor_idx c s x : 0 <= x < n -> Z.lor (enc c s x) (n - 1) = enc c s (n - 1).
Proof using Ho.
  intros Hx. rewrite !enc_index. unfold n in *. by rewrite lor_fields, lor_ones by (unfold o in *; lia).
Qed.
Lemma enc_install c x : 0 <= x < n -> Z.lxor (enc c true (n - 1)) (Z.lxor x (n - 1)) = enc c true x.
Proof using Ho.
  intros Hx. rewrite !enc_index. unfold n in *.
  assert (0 <= 2 ^ o - 1 < 2 ^ o) by lia.
  rewrite lxor_fields; [|unfold o; lia|done|apply lxor_below; [unfold o; lia|done..]].
  f_equal. rewrite (Z.lxor_comm x), <- Z.lxor_assoc, Z.lxor_nilpotent. apply Z.lxor_0_l.
Qed.

Lemma testbit_enc_safe c s x : 0 <= x < n -> Z.testbit (enc c s x) o = s.
Proof using Ho.
  intros Hx. rewrite enc_index, testbit_fields by (unfold o in *; done || lia).
  rewrite Z.ltb_irrefl, Z.sub_diag. rewrite Z.bit0_odd, Z.odd_add, Z.odd_mul. by destruct s.
Qed.

(** Setting and clearing the safe bit. *)
Lemma enc_set_safe c s x : 0 <= x < n -> Z.lor (enc c s x) n = enc c true x.
Proof using Ho.
  intros Hx. assert (Hxo : Z.lor (2 ^ o) x = 2 ^ o + x).
  { replace (2 ^ o) with (1 * 2 ^ o + 0) at 1 by lia. rewrite lor_fields by (unfold o in *; lia).
    rewrite Z.lor_0_l. lia. }
  destruct n_facts as (? & E & _). unfold enc. pose proof (low_range s x Hx).
  rewrite lor_fields by (unfold o in *; lia). f_equal. fold n. fold n in Hxo.
  destruct s; cbn [Z.b2z]; rewrite ?Z.mul_1_l, ?Z.mul_0_l, ?Z.add_0_l.
  - rewrite <- Hxo, Z.lor_comm, Z.lor_assoc. unfold n. by rewrite Z.lor_diag.
  - by rewrite Z.lor_comm.
Qed.
Lemma enc_flip_safe c s x : 0 <= x < n -> Z.lxor (enc c s x) n = enc c (negb s) x.
Proof using Ho.
  intros Hx. assert (Hxo : Z.lxor (2 ^ o) x = 2 ^ o + x).
  { replace (2 ^ o) with (1 * 2 ^ o + 0) at 1 by lia. rewrite lxor_fields by (unfold o in *; lia).
    rewrite Z.lxor_0_l. lia. }
  destruct n_facts as (? & E & _). unfold enc. pose proof (low_range s x Hx).
  rewrite lxor_fields by (unfold o in *; lia). f_equal. fold n. fold n in Hxo.
  destruct s; cbn [Z.b2z negb]; rewrite ?Z.mul_1_l, ?Z.mul_0_l, ?Z.add_0_l.
  - rewrite <- Hxo, Z.lxor_comm, <- Z.lxor_assoc. unfold n. by rewrite Z.lxor_nilpotent, Z.lxor_0_l.
  - by rewrite Z.lxor_comm.
Qed.

Lemma enc_inj c s x c' s' x' : 0 <= x < n -> 0 <= x' < n -> enc c s x = enc c' s' x' ->
  c mod 2 ^ (63 - o) = c' mod 2 ^ (63 - o) /\ s = s' /\ x = x'.
Proof using Ho.
  intros Hx Hx' E. assert (Es : s = s') by (rewrite <- (testbit_enc_safe c s x), E by done; by apply testbit_enc_safe).
  assert (Ex : x = x') by (rewrite <- (enc_land c s x), E by done; by apply enc_land).
  split_and!; [|done..]. subst s' x'. unfold enc in E. destruct n_facts as (? & E' & _). nia.
Qed.

(** The cycle word of a counter. *)
Lemma cycle_word T : 0 <= T ->
  Z.lor (u64 (Z.shiftl (u64 T) 1)) (2 * n - 1) = enc (T / n) true (n - 1).
Proof using Ho.
  intros HT. destruct n_facts as (Hn & E & E64 & _).
  assert (Ew : u64 (Z.shiftl (u64 T) 1) = enc (T / n) false 0 + 2 * (T mod n)).
  { rewrite Z.shiftl_mul_pow2 by lia. change (2 ^ 1) with 2. unfold u64 at 1.
    unfold u64. rewrite Z.mul_mod_idemp_l by lia. unfold enc. rewrite <- E. cbn [Z.b2z].
    set (K := 2 ^ (63 - o)) in *. rewrite <- E in E64. assert (0 < K) by (apply Z.pow_pos_nonneg; unfold o; lia).
    pose proof (Z.div_mod T n ltac:(lia)) as D. pose proof (Z.mod_pos_bound T n Hn).
    pose proof (Z.div_mod (T / n) K ltac:(lia)) as D'. pose proof (Z.mod_pos_bound (T / n) K ltac:(lia)).
    symmetry. apply (Z.mod_unique_pos _ _ (T / n / K)); [nia|]. rewrite E64. nia. }
  rewrite Ew. unfold enc at 1. cbn [Z.b2z]. rewrite Z.mul_0_l, !Z.add_0_r, E.
  pose proof (Z.mod_pos_bound T n Hn). rewrite lor_fields, lor_ones by (unfold o in *; lia).
  unfold enc. cbn [Z.b2z]. fold n. lia.
Qed.

(** An entry of the previous cycle compares below. *)
Lemma cycle_before c : lfring_diff (enc (c - 1) true (n - 1)) (enc c true (n - 1)) < 0.
Proof using Ho.
  destruct n_facts as (Hn & E & E64 & Hle). unfold lfring_diff, enc. set (K := 2 ^ (63 - o)) in *.
  assert (1 < K) by (change 1 with (2 ^ 0); apply Z.pow_lt_mono_r; unfold o; lia).
  pose proof (Z.div_mod c K ltac:(lia)). pose proof (Z.mod_pos_bound c K ltac:(lia)).
  destruct (Z.eq_dec (c mod K) 0) as [Hz|Hz].
  - replace ((c - 1) mod K) with (K - 1) by (apply (Z.mod_unique_pos _ _ (c / K - 1)); lia).
    rewrite Hz. match goal with |- s64 ?e < 0 => replace e with (- (2 * n) + 1 * 2 ^ 64) by (rewrite E64, <- E; lia) end.
    rewrite s64_period, s64_small by lia. lia.
  - replace ((c - 1) mod K) with (c mod K - 1) by (apply (Z.mod_unique_pos _ _ (c / K)); lia).
    match goal with |- s64 ?e < 0 => replace e with (- (2 * n)) by (rewrite <- E; lia) end.
    rewrite s64_small by lia. lia.
Qed.

(** ** Slots *)
Definition slot (T : Z) : Z := let x := T mod n in x / 2 ^ (o - 4) + (x mod 2 ^ (o - 4)) * 16.

Lemma n_split : n = 16 * 2 ^ (o - 4) /\ 0 < 2 ^ (o - 4).
Proof using Ho.
  unfold n. split; [|apply Z.pow_pos_nonneg; unfold o; lia].
  change 16 with (2 ^ 4). rewrite <- Z.pow_add_r by (unfold o; lia). f_equal; lia.
Qed.

Lemma slot_range T : 0 <= slot T < n.
Proof using Ho.
  destruct n_split as [E Hp]. unfold slot. set (h := 2 ^ (o - 4)) in *.
  pose proof (Z.mod_pos_bound T n ltac:(lia)). set (x := T mod n) in *.
  pose proof (Z.mod_pos_bound x h Hp). pose proof (Z.div_mod x h ltac:(lia)). nia.
Qed.

Lemma slot_inj T T' : slot T = slot T' -> T mod n = T' mod n.
Proof using Ho.
  destruct n_split as [E Hp]. unfold slot. set (h := 2 ^ (o - 4)) in *.
  pose proof (Z.mod_pos_bound T n ltac:(lia)). pose proof (Z.mod_pos_bound T' n ltac:(lia)).
  set (x := T mod n) in *. set (x' := T' mod n) in *. intros Hs.
  pose proof (Z.mod_pos_bound x h Hp). pose proof (Z.div_mod x h ltac:(lia)).
  pose proof (Z.mod_pos_bound x' h Hp). pose proof (Z.div_mod x' h ltac:(lia)).
  assert (0 <= x / h < 16) by nia. assert (0 <= x' / h < 16) by nia.
  assert (x mod h = x' mod h) by lia. assert (x / h = x' / h) by lia. congruence.
Qed.

Lemma slot_window T T' : slot T = slot T' -> - n < T - T' < n -> T = T'.
Proof using Ho.
  intros E%slot_inj H. destruct n_facts as (Hn & _).
  pose proof (Z.div_mod T n ltac:(lia)). pose proof (Z.div_mod T' n ltac:(lia)).
  assert (En : n * (T / n - T' / n) = T - T') by lia.
  assert (T / n - T' / n = 0) by nia. nia.
Qed.

(** The rotation spreads consecutive counters over cache lines. *)
Lemma lfring_map_slot T : 0 <= T -> lfring_map (u64 T) order n = slot T.
Proof using Ho.
  intros HT. destruct n_split as [E Hp]. destruct n_facts as (Hn & _ & E64 & _).
  unfold lfring_map, lfring_raw_map, LFRING_MIN. fold o. change (7 - 3) with 4.
  assert (Em : Z.land (u64 T) (n - 1) = T mod n).
  { unfold n. rewrite land_mask_mod by (unfold o; lia). unfold u64. fold n.
    apply Z.mod_mod_divide. exists (2 ^ (64 - o)). unfold n.
    rewrite <- Z.pow_add_r by (unfold o; lia). f_equal; lia. }
  assert (El : Z.land (u64 (Z.shiftl (u64 T) 4)) (n - 1) = (T mod n) mod 2 ^ (o - 4) * 2 ^ 4 + 0).
  { unfold n at 1. rewrite land_mask_mod by (unfold o; lia). fold n.
    rewrite Z.shiftl_mul_pow2 by lia. unfold u64. rewrite Z.mul_mod_idemp_l by lia.
    rewrite Z.mod_mod_divide.
    - rewrite E. rewrite (Z.mul_comm 16), Z.mul_mod_distr_r by lia. change (2 ^ 4) with 16.
      rewrite Z.mod_mod_divide; [lia|]. exists 16. lia.
    - exists (2 ^ (64 - o)). unfold n. rewrite <- Z.pow_add_r by (unfold o; lia). f_equal; lia. }
  rewrite Em, El, Z.shiftr_div_pow2 by (unfold o; lia). unfold slot.
  pose proof (Z.mod_pos_bound T n Hn). set (x := T mod n) in *.
  rewrite Z.lor_comm, lor_fields; [rewrite Z.lor_0_l; lia|lia|lia|].
  split; [apply Z.div_pos; lia|]. apply Z.div_lt_upper_bound; [lia|]. change (2 ^ 4) with 16. lia.
Qed.
End Entries.

(** ** The ring as a queue *)
Section Ring.
Context (order : Z).
Hypothesis Ho : 4 <= order <= 60.
Let n := 2 ^ (order + 1).

(** The ring holds the queue [l]: its positions are the unbounded counters
    [H .. H + length l), the next positions up to [H + n] are free slots of the
    previous cycle. *)
Record ring_at (q : lfring) (H : Z) (l : list Z) : Prop := {
  ra_pos : 0 <= H;
  ra_head : rg_head q = u64 H;
  ra_tail : rg_tail q = u64 (H + Z.of_nat (length l));
  ra_len : Z.of_nat (length (rg_array q)) = n;
  ra_cap : Z.of_nat (length l) <= n;
  ra_elem : Forall (fun x => 0 <= x < n) l;
  ra_full : forall i x, l !! i = Some x -> exists s,
    rg_array q !! Z.to_nat (slot order (H + Z.of_nat i)) = Some (enc order ((H + Z.of_nat i) / n) s x);
  ra_free : forall j, H + Z.of_nat (length l) <= j < H + n -> exists s,
    rg_array q !! Z.to_nat (slot order j) = Some (enc order (j / n - 1) s (n - 1));
  ra_thr : - 1 <= rg_threshold q <= lfring_threshold3 (2 ^ order) n;
  ra_live : l <> [] -> 0 <= rg_threshold q
}.
Definition ring_rep (q : lfring) (l : list Z) : Prop := exists H, ring_at q H l.

Lemma half_n : lfring_pow2 order * 2 = n /\ lfring_pow2 (order + 1) = n /\ lfring_pow2 order = 2 ^ order.
Proof using Ho.
  unfold lfring_pow2, n. rewrite !Z.shiftl_1_l. rewrite Z.pow_add_r by lia. lia.
Qed.

Lemma slot_nat T : (Z.to_nat (slot order T) < Z.to_nat n)%nat.
Proof using Ho. pose proof (slot_range order Ho T) as Hs. fold n in Hs. lia. Qed.
Lemma slot_nat_inj T T' : Z.to_nat (slot order T) = Z.to_nat (slot order T') -> - n < T - T' < n -> T = T'.
Proof using Ho.
  intros E. apply (slot_window order Ho). pose proof (slot_range order Ho T). pose proof (slot_range order Ho T').
  lia.
Qed.

Lemma wp_arr_load q i v Q : rg_array q !! Z.to_nat i = Some v -> Q v q -> wp (arr_load i) Q q.
Proof. intros E HQ. apply wp_bind, wp_get. by apply (wp_opt _ _ v). Qed.
Lemma wp_arr_store q i v w Q : rg_array q !! Z.to_nat i = Some w ->
  Q tt (ring_set_array (<[Z.to_nat i := v]> (rg_array q)) q) -> wp (arr_store i v) Q q.
Proof. intros E HQ. apply wp_bind. eapply wp_arr_load; [exact E|]. by apply wp_modify. Qed.
Lemma wp_arr_cas_ok q i e v Q : rg_array q !! Z.to_nat i = Some e ->
  Q (true, e) (ring_set_array (<[Z.to_nat i := v]> (rg_array q)) q) -> wp (arr_cas i e v) Q q.
Proof.
  intros E HQ. apply wp_bind. eapply wp_arr_load; [exact E|]. rewrite Z.eqb_refl.
  apply wp_bind. by eapply wp_arr_store.
Qed.

(** Installing an entry in a free slot of the previous cycle. *)
Lemma wp_enqueue_slot q T c s x tidx head : 0 <= x < n ->
  rg_array q !! Z.to_nat tidx = Some (enc order (c - 1) s (n - 1)) ->
  rg_head q = head -> lfring_diff head T <= 0 ->
  wp (enqueue_slot n (Z.lxor x (n - 1)) T (enc order c true (n - 1)) tidx (enc order (c - 1) s (n - 1)))
     (fun r q' => r = true /\ q' = ring_set_array (<[Z.to_nat tidx := enc order c true x]> (rg_array q)) q) q.
Proof using Ho.
  intros Hx E Hh Hd. destruct (n_facts order Ho) as (Hn & _). fold n in Hn. unfold enqueue_slot.
  apply (wp_loop _ (fun e q' => e = enc order (c - 1) s (n - 1) /\ q' = q) (fun _ _ => 0)); [|done|lia].
  intros e q' [-> ->]. split; [lia|]. apply wp_bind, wp_get.
  pose proof (enc_lor_all order Ho (c - 1) s (n - 1)) as E1. fold n in E1. rewrite E1 by lia.
  pose proof (cycle_before order Ho c) as E2. fold n in E2. rewrite (proj2 (Z.ltb_lt _ _) E2).
  pose proof (enc_flip_safe order Ho (c - 1) true (n - 1)) as E3. fold n in E3. rewrite E3 by lia.
  rewrite Hh, (proj2 (Z.leb_le _ _) Hd).
  assert (Et : true && ((enc order (c - 1) s (n - 1) =? enc order (c - 1) true (n - 1)) ||
     ((enc order (c - 1) s (n - 1) =? enc order (c - 1) (negb true) (n - 1)) && true)) = true).
  { destruct s; cbn [negb]; rewrite Z.eqb_refl; simpl; [done|]. by rewrite orb_true_r. }
  rewrite Et. apply wp_bind. eapply wp_arr_cas_ok; [exact E|]. apply wp_ret.
  pose proof (enc_install order Ho c x) as E4. fold n in E4. by rewrite E4.
Qed.

Lemma ring_at_enqueue q H l x thr tail : ring_at q H l -> Z.of_nat (length l) < n -> 0 <= x < n ->
  0 <= thr <= lfring_threshold3 (2 ^ order) n -> tail = u64 (H + Z.of_nat (length l) + 1) ->
  let T := H + Z.of_nat (length l) in
  ring_at (MkRing (rg_head q) thr tail
    (<[Z.to_nat (slot order T) := enc order (T / n) true x]> (rg_array q))) H (l ++ [x]).
Proof using Ho.
  intros [Hp Hh Ht Hlen Hcap Hel Hfull Hfree Hthr Hlive] Hroom Hx Hth -> T.
  destruct (n_facts order Ho) as (Hn & _). fold n in Hn.
  pose proof (slot_nat T) as HT.
  split; cbn [rg_head rg_tail rg_array rg_threshold]; rewrite ?length_app, ?length_insert; cbn [length]; try lia.
  - f_equal. lia.
  - apply Forall_app. split; [done|]. by apply Forall_singleton.
  - intros i y [Hi|[Hge Hi]]%lookup_app_Some.
    + apply lookup_lt_Some in Hi as Hlt. rewrite list_lookup_insert_ne; [by apply Hfull|].
      intros E%slot_nat_inj; unfold T in *; lia.
    + apply list_lookup_singleton_Some in Hi as [Hi <-].
      replace (H + Z.of_nat i) with T by (unfold T; lia). exists true.
      apply list_lookup_insert_eq. lia.
  - intros j Hj. rewrite list_lookup_insert_ne; [apply Hfree; lia|].
    intros E%slot_nat_inj; unfold T in *; lia.
Qed.

Lemma wp_enqueue q l x nonempty : ring_rep q l -> Z.of_nat (length l) < n -> 0 <= x < n ->
  nonempty = false \/ 0 <= rg_threshold q ->
  wp (lfring_enqueue order x nonempty) (fun r q' => r = true /\ ring_rep q' (l ++ [x])) q.
Proof using Ho.
  intros [H Hr] Hroom Hx Hne. pose proof Hr as [Hp Hh Ht Hlen Hcap Hel Hfull Hfree Hthr Hlive].
  destruct (n_facts order Ho) as (Hn & _ & _ & Hle). fold n in Hn, Hle.
  destruct half_n as (E1 & _ & E2). set (T := H + Z.of_nat (length l)) in *.
  destruct (Hfree T ltac:(lia)) as [s Hs].
  unfold lfring_enqueue. rewrite E1.
  apply (wp_loop _ (fun _ q' => q' = q) (fun _ _ => 0)); [|done|lia].
  intros [] q' ->. split; [lia|]. apply wp_bind, wp_get. rewrite Ht. apply wp_bind, wp_modify.
  pose proof (cycle_word order Ho T ltac:(lia)) as Ec. fold n in Ec. rewrite Ec.
  pose proof (lfring_map_slot order Ho T ltac:(lia)) as Em. fold n in Em. rewrite Em.
  apply wp_bind. eapply wp_arr_load; [exact Hs|]. apply wp_bind. eapply wp_mono.
  { apply (wp_enqueue_slot (ring_set_tail (u64 (u64 T + 1)) q) (u64 T) (T / n) s x (slot order T) (u64 H) Hx Hs Hh).
    unfold lfring_diff. rewrite s64_diff; lia. }
  intros ok q' [-> ->]. apply wp_bind, wp_get. cbn [rg_threshold ring_set_array ring_set_tail rg_array].
  assert (Hth : 0 <= lfring_threshold3 (2 ^ order) n).
  { unfold lfring_threshold3. assert (0 < 2 ^ order) by (apply Z.pow_pos_nonneg; lia). lia. }
  rewrite E2. apply wp_bind.
  assert (Etl : u64 (u64 T + 1) = u64 (T + 1)) by (unfold u64; by rewrite Z.add_mod_idemp_l).
  destruct (negb nonempty && negb (rg_threshold q =? lfring_threshold3 (2 ^ order) n)) eqn:Eb.
  - apply wp_modify, wp_ret. split; [done|]. exists H.
    apply (ring_at_enqueue q H l x (lfring_threshold3 (2 ^ order) n)); try done; lia.
  - apply wp_ret, wp_ret. split; [done|]. exists H.
    apply (ring_at_enqueue q H l x (rg_threshold q)); try done. split; [|lia].
    destruct Hne as [->|]; [|done]. cbn in Eb. lia.
Qed.

(** Taking the entry at the head. *)
Lemma ring_at_dequeue q H x l s : ring_at q H (x :: l) ->
  rg_array q !! Z.to_nat (slot order H) = Some (enc order (H / n) s x) ->
  ring_at (MkRing (u64 (H + 1)) (rg_threshold q) (rg_tail q)
    (<[Z.to_nat (slot order H) := enc order (H / n) s (n - 1)]> (rg_array q))) (H + 1) l.
Proof using Ho.
  intros [Hp Hh Ht Hlen Hcap Hel Hfull Hfree Hthr Hlive] Hs.
  destruct (n_facts order Ho) as (Hn & _). fold n in Hn. pose proof (slot_nat H) as HT.
  apply Forall_cons in Hel as [Hx Hel]. cbn [length] in *.
  split; cbn [rg_head rg_tail rg_array rg_threshold]; rewrite ?length_insert; try done; try lia.
  - rewrite Ht. f_equal. lia.
  - intros i y Hi. apply lookup_lt_Some in Hi as Hlt. rewrite list_lookup_insert_ne.
    + destruct (Hfull (S i) y Hi) as [s' Hs']. exists s'. by replace (H + 1 + Z.of_nat i) with (H + Z.of_nat (S i)) by lia.
    + intros E%slot_nat_inj; lia.
  - intros j Hj. destruct (decide (j = H + n)) as [->|Hne].
    + exists s. assert (Es : slot order (H + n) = slot order H).
      { unfold slot. fold n. replace (H + n) with (H + 1 * n) by lia. by rewrite Z.mod_add by lia. }
      rewrite Es, list_lookup_insert_eq by lia. f_equal. f_equal.
      replace (H + n) with (H + 1 * n) by lia. rewrite Z.div_add by lia. lia.
    + rewrite list_lookup_insert_ne; [apply Hfree; lia|]. intros E%slot_nat_inj; lia.
  - intros _. by apply Hlive.
Qed.

Lemma wp_dequeue_some q x l nonempty : ring_rep q (x :: l) ->
  wp (lfring_dequeue order nonempty) (fun r q' => r = x /\ ring_rep q' l) q.
Proof using Ho.
  intros [H Hr]. pose proof Hr as [Hp Hh Ht Hlen Hcap Hel Hfull Hfree Hthr Hlive].
  destruct (n_facts order Ho) as (Hn & _ & _ & Hle). fold n in Hn, Hle.
  destruct half_n as (_ & E1 & _). destruct (Hfull 0%nat x eq_refl) as [s Hs].
  change (Z.of_nat 0) with 0 in Hs. rewrite Z.add_0_r in Hs.
  pose proof Hel as [Hx _]%Forall_cons.
  unfold lfring_dequeue. rewrite E1. apply wp_bind, wp_get.
  assert (Et : negb nonempty && (rg_threshold q <? 0) = false).
  { specialize (Hlive ltac:(done)). destruct (Z.ltb_spec (rg_threshold q) 0); [lia|]. by rewrite andb_false_r. }
  rewrite Et. apply (wp_loop _ (fun _ q' => q' = q) (fun _ _ => 0)); [|done|lia].
  intros [] q' ->. split; [lia|]. apply wp_bind, wp_get. rewrite Hh. apply wp_bind, wp_modify.
  pose proof (cycle_word order Ho H Hp) as Ec. fold n in Ec. rewrite Ec.
  pose proof (lfring_map_slot order Ho H Hp) as Em. fold n in Em. rewrite Em.
  apply wp_bind. eapply wp_arr_load; [exact Hs|]. apply wp_bind.
  pose proof (enc_lor_all order Ho (H / n) s x) as E2. fold n in E2. specialize (E2 Hx).
  pose proof (enc_lor_idx order Ho (H / n) s x) as E3. fold n in E3. specialize (E3 Hx).
  pose proof (enc_land order Ho (H / n) s x) as E4. fold n in E4. specialize (E4 Hx).
  apply (wp_mono _ (fun r q' => r = Some x /\ q' = MkRing (u64 (u64 H + 1)) (rg_threshold q) (rg_tail q)
    (<[Z.to_nat (slot order H) := enc order (H / n) s (n - 1)]> (rg_array q)))).
  { unfold dequeue_slot. match goal with |- wp _ _ ?t =>
      apply (wp_loop _ (fun e q' => e = enc order (H / n) s x /\ q' = t) (fun _ _ => 0)); [|done|lia] end.
    intros e q' [-> ->]. split; [lia|]. rewrite E2, Z.eqb_refl.
    apply wp_bind. eapply wp_arr_load; [exact Hs|]. rewrite E3. apply wp_bind.
    eapply wp_arr_store; [exact Hs|]. apply wp_ret. by rewrite E4. }
  intros r q' [-> ->]. apply wp_ret. split; [done|]. exists (H + 1).
  assert (Etl : u64 (u64 H + 1) = u64 (H + 1)) by (unfold u64; by rewrite Z.add_mod_idemp_l).
  rewrite Etl. by eapply ring_at_dequeue.
Qed.

(** Skipping the slot at the head of an empty ring. *)
Lemma ring_at_skip q H s thr : ring_at q H [] ->
  - 1 <= thr <= lfring_threshold3 (2 ^ order) n ->
  ring_at (MkRing (u64 (H + 1)) thr (u64 (H + 1))
    (<[Z.to_nat (slot order H) := enc order (H / n) s (n - 1)]> (rg_array q))) (H + 1) [].
Proof using Ho.
  intros [Hp Hh Ht Hlen Hcap Hel Hfull Hfree Hthr Hlive] Hth.
  destruct (n_facts order Ho) as (Hn & _). fold n in Hn. pose proof (slot_nat H) as HT. cbn [length] in *.
  split; cbn [rg_head rg_tail rg_array rg_threshold length]; rewrite ?length_insert; try done; try lia.
  - f_equal. lia.
  - intros j Hj. destruct (decide (j = H + n)) as [->|Hne].
    + exists s. assert (Es : slot order (H + n) = slot order H).
      { unfold slot. fold n. replace (H + n) with (H + 1 * n) by lia. by rewrite Z.mod_add by lia. }
      rewrite Es, list_lookup_insert_eq by lia. f_equal. f_equal.
      replace (H + n) with (H + 1 * n) by lia. rewrite Z.div_add by lia. lia.
    + rewrite list_lookup_insert_ne; [apply Hfree; lia|]. intros E%slot_nat_inj; lia.
Qed.

Lemma wp_dequeue_none q : ring_rep q [] ->
  wp (lfring_dequeue order false) (fun r q' => r = LFRING_EMPTY /\ ring_rep q' []) q.
Proof using Ho.
  intros [H Hr]. pose proof Hr as [Hp Hh Ht Hlen Hcap Hel Hfull Hfree Hthr Hlive].
  destruct (n_facts order Ho) as (Hn & _ & _ & Hle). fold n in Hn, Hle.
  destruct half_n as (_ & E1 & _). cbn [length] in *. change (Z.of_nat 0) with 0 in *.
  rewrite Z.add_0_r in *. destruct (Hfree H ltac:(lia)) as [s Hs].
  unfold lfring_dequeue. rewrite E1. apply wp_bind, wp_get. cbn [negb andb].
  destruct (Z.ltb_spec (rg_threshold q) 0) as [Hneg|Hpos]; [apply wp_ret; split; [done|by exists H]|].
  apply (wp_loop _ (fun _ q' => q' = q) (fun _ _ => 0)); [|done|lia].
  intros [] q' ->. split; [lia|]. apply wp_bind, wp_get. rewrite Hh. apply wp_bind, wp_modify.
  pose proof (cycle_word order Ho H Hp) as Ec. fold n in Ec. rewrite Ec.
  pose proof (lfring_map_slot order Ho H Hp) as Em. fold n in Em. rewrite Em.
  apply wp_bind. eapply wp_arr_load; [exact Hs|]. apply wp_bind.
  pose proof (enc_lor_all order Ho (H / n - 1) s (n - 1)) as E2. fold n in E2. specialize (E2 ltac:(lia)).
  pose proof (enc_set_safe order Ho (H / n - 1) s (n - 1)) as E3. fold n in E3. specialize (E3 ltac:(lia)).
  pose proof (cycle_before order Ho (H / n)) as E4. fold n in E4.
  assert (E5 : (enc order (H / n - 1) true (n - 1) =? enc order (H / n) true (n - 1)) = false).
  { apply Z.eqb_neq. intros E. rewrite E in E4. unfold lfring_diff in E4. rewrite Z.sub_diag in E4.
    by vm_compute in E4. }
  assert (E6 : Z.lxor (enc order (H / n) true (n - 1)) (Z.land (Z.lnot (enc order (H / n - 1) s (n - 1))) n) =
    enc order (H / n) s (n - 1)).
  { pose proof (testbit_enc_safe order Ho (H / n - 1) s (n - 1)) as Eb. fold n in Eb.
    match goal with |- context [Z.land ?w n] => change (Z.land w n) with (Z.land w (2 ^ (order + 1))) end.
    rewrite land_pow2_testbit by lia. rewrite Z.lnot_spec, Eb by lia. fold n.
    destruct s; cbn [negb]; [apply Z.lxor_0_r|].
    pose proof (enc_flip_safe order Ho (H / n) true (n - 1)) as Ef. fold n in Ef. by rewrite Ef by lia. }
  assert (Etl : u64 (u64 H + 1) = u64 (H + 1)) by (unfold u64; by rewrite Z.add_mod_idemp_l).
  set (q1 := MkRing (u64 (H + 1)) (rg_threshold q) (rg_tail q)
    (<[Z.to_nat (slot order H) := enc order (H / n) s (n - 1)]> (rg_array q))).
  apply (wp_mono _ (fun r q' => r = None /\ q' = q1)).
  { unfold dequeue_slot. match goal with |- wp _ _ ?t =>
      apply (wp_loop _ (fun e q' => e = enc order (H / n - 1) s (n - 1) /\ q' = t) (fun _ _ => 0)); [|done|lia] end.
    intros e q' [-> ->]. split; [lia|]. rewrite E2, E5, E3, Z.eqb_refl. cbn [negb andb].
    rewrite (proj2 (Z.ltb_lt _ _) E4), E6. apply wp_bind. eapply wp_arr_cas_ok; [exact Hs|].
    apply wp_ret. split; [done|]. unfold q1, ring_set_array, ring_set_head. cbn. by rewrite Etl. }
  intros r q' [-> ->]. apply wp_bind, wp_get. subst q1. cbn [rg_tail rg_threshold]. rewrite Ht, Etl.
  unfold lfring_diff at 1. rewrite s64_diff by lia. destruct (Z.leb_spec (H - (H + 1)) 0); [|lia].
  apply wp_bind. match goal with |- wp _ _ ?t => apply (wp_mono _ (fun _ q' => q' = ring_set_tail (u64 (H + 1)) t)) end.
  { unfold lfring_catchup. match goal with |- wp _ _ ?t =>
      apply (wp_loop _ (fun p q' => p = (u64 H, u64 (H + 1)) /\ q' = t) (fun _ _ => 0)); [|done|lia] end.
    intros p q' [-> ->]. split; [lia|]. apply wp_bind, wp_get. cbn [rg_tail]. rewrite Z.eqb_refl.
    apply wp_bind, wp_modify. by apply wp_ret. }
  intros [] q' ->. apply wp_bind, wp_modify, wp_ret. split; [done|]. exists (H + 1).
  apply ring_at_skip; [done|]. cbn [rg_threshold ring_set_tail]. rewrite s64_small; [lia|].
  unfold lfring_threshold3 in *. assert (0 < 2 ^ order <= 2 ^ 60) by (split; [|apply Z.pow_le_mono_r]; lia). lia.
Qed.
End Ring.
