(* ===== verification/LfRingSpec.v ===== *)
(** * The index ring: initial states and the refinement theorem *)

From S2P Require Import Prelude LfRing.

(** ** Initialisation *)
Fixpoint set_at (at_ f : Z -> Z) (ks : list Z) (a : list Z) : list Z :=
  match ks with [] => a | k :: ks => set_at at_ f ks (<[Z.to_nat (at_ k) := f k]> a) end.

Lemma set_at_length at_ f ks : forall a, length (set_at at_ f ks a) = length a.
Proof. induction ks as [|k ks IH]; intros a; [done|]. cbn. by rewrite IH, length_insert. Qed.

Lemma set_at_other at_ f ks i : forall a, (forall k, k ∈ ks -> Z.to_nat (at_ k) <> i) ->
  set_at at_ f ks a !! i = a !! i.
Proof.
  induction ks as [|k ks IH]; intros a Hi; [done|]. cbn. rewrite IH by (intros k' Hk; apply Hi; by right).
  rewrite list_lookup_insert_ne; [done|]. apply Hi. by left.
Qed.

Lemma set_at_here at_ f ks k : forall a, k ∈ ks -> NoDup ks ->
  (forall k', k' ∈ ks -> Z.to_nat (at_ k') = Z.to_nat (at_ k) -> k' = k) ->
  (Z.to_nat (at_ k) < length a)%nat -> set_at at_ f ks a !! Z.to_nat (at_ k) = Some (f k).
Proof.
  induction ks as [|k0 ks IH]; intros a Hk Hnd Hinj Hlen; [by apply elem_of_nil in Hk|].
  apply NoDup_cons in Hnd as [Hk0 Hnd]. cbn. apply elem_of_cons in Hk as [->|Hk].
  - rewrite set_at_other.
    + by apply list_lookup_insert_eq.
    + intros k' Hk' E. apply Hk0. rewrite <- (Hinj k'); [done|by right|done].
  - apply IH; [done..| |by rewrite length_insert]. intros k' Hk'. apply Hinj. by right.
Qed.

Lemma wp_init_range q at_ f i j :
  (forall k, i <= k < j -> (Z.to_nat (at_ k) < length (rg_array q))%nat) ->
  wp (init_range at_ f i j) (fun _ q' => q' = ring_set_array (set_at at_ f (seqZ i (j - i)) (rg_array q)) q) q.
Proof.
  intros Hin. unfold init_range.
  assert (Hks : forall k, k ∈ seqZ i (j - i) -> (Z.to_nat (at_ k) < length (rg_array q))%nat).
  { intros k Hk. apply elem_of_seqZ in Hk. apply Hin. lia. }
  clear Hin. revert q Hks. induction (seqZ i (j - i)) as [|k ks IH]; intros q Hks; [by destruct q|].
  apply wp_bind. destruct (lookup_lt_is_Some_2 (rg_array q) (Z.to_nat (at_ k))) as [w Hw]; [apply Hks; by left|].
  eapply wp_arr_store; [exact Hw|]. eapply wp_mono.
  - apply IH. intros k' Hk'. cbn. rewrite length_insert. apply Hks. by right.
  - by intros [] q' ->.
Qed.

Section Init.
Context (order : Z).
Hypothesis Ho : 4 <= order <= 60.
Let n := 2 ^ (order + 1).

Lemma enc_minus_one : u64 (-1) = enc order (-1) true (n - 1).
Proof using Ho.
  destruct (n_facts order Ho) as (Hn & E & E64 & _). fold n in Hn, E.
  assert (1 < 2 ^ (63 - (order + 1))) by (change 1 with (2 ^ 0); apply Z.pow_lt_mono_r; lia).
  unfold enc. replace (-1 mod 2 ^ (63 - (order + 1))) with (2 ^ (63 - (order + 1)) - 1)
    by (apply (Z.mod_unique_pos _ _ (-1)); lia).
  cbn [Z.b2z]. fold n. change (u64 (-1)) with (2 ^ 64 - 1). rewrite E64, <- E. lia.
Qed.
Lemma enc_zero s x : enc order 0 s x = Z.b2z s * n + x.
Proof using Ho. unfold enc. rewrite Z.mod_0_l by (apply Z.pow_nonzero; lia). fold n. lia. Qed.

Lemma div_small_n j : 0 <= j < n -> j / n = 0.
Proof. apply Z.div_small. Qed.

Lemma wp_init_empty q : Z.of_nat (length (rg_array q)) = n ->
  wp (lfring_init_empty order) (fun _ q' => ring_rep order q' []) q.
Proof using Ho.
  intros Hlen. destruct (n_facts order Ho) as (Hn & _). fold n in Hn.
  unfold lfring_init_empty. destruct (half_n order Ho) as (_ & E & _). fold n in E. rewrite E.
  apply wp_bind. eapply wp_mono; [apply wp_init_range; lia|]. intros [] q' ->.
  apply wp_bind, wp_modify, wp_bind, wp_modify, wp_modify. exists 0.
  split; cbn [rg_head rg_tail rg_array rg_threshold ring_set_head ring_set_tail ring_set_threshold ring_set_array length];
    rewrite ?set_at_length; fold n; try done; try lia.
  - intros j Hj. cbn [length] in Hj. exists true. rewrite div_small_n by lia.
    pose proof (slot_range order Ho j) as Hs. fold n in Hs.
    rewrite (set_at_here (fun i => i) (fun _ => u64 (-1)) _ (slot order j)).
    + by rewrite enc_minus_one.
    + apply elem_of_seqZ. lia.
    + apply NoDup_seqZ.
    + intros k Hk. apply elem_of_seqZ in Hk. lia.
    + lia.
  - unfold lfring_threshold3. assert (0 < 2 ^ order) by (apply Z.pow_pos_nonneg; lia). lia.
Qed.

(** Both filling initialisers store entries of cycle 0 from [s] to [e]. *)
Lemma map_slot i : 0 <= i < n -> lfring_map i order n = slot order i.
Proof using Ho.
  intros Hi. destruct (n_facts order Ho) as (_ & _ & _ & Hle). fold n in Hle.
  pose proof (lfring_map_slot order Ho i ltac:(lia)) as E. fold n in E.
  unfold u64 in E. rewrite Z.mod_small in E by lia. done.
Qed.
Lemma map_inj_nat i j : 0 <= i < n -> 0 <= j < n ->
  Z.to_nat (lfring_map i order n) = Z.to_nat (lfring_map j order n) -> i = j.
Proof using Ho. intros Hi Hj. rewrite !map_slot by done. intros E%slot_nat_inj; [done|done|fold n; lia]. Qed.

Lemma init_at a (f : Z -> Z) i j k : 0 <= i -> j <= n -> i <= k < j -> Z.of_nat (length a) = n ->
  set_at (fun i => lfring_map i order n) f (seqZ i (j - i)) a !! Z.to_nat (slot order k) = Some (f k).
Proof using Ho.
  intros Hi Hj Hk Ha. rewrite <- (map_slot k) by lia. apply (set_at_here (fun i => lfring_map i order n) f _ k).
  - apply elem_of_seqZ. lia.
  - apply NoDup_seqZ.
  - intros k' Hk'%elem_of_seqZ. apply map_inj_nat; lia.
  - rewrite map_slot by lia. pose proof (slot_nat order Ho k) as Hs. fold n in Hs. lia.
Qed.
Lemma init_not_at a (f : Z -> Z) i j k : 0 <= i -> j <= n -> 0 <= k < n -> ~ i <= k < j ->
  set_at (fun i => lfring_map i order n) f (seqZ i (j - i)) a !! Z.to_nat (slot order k) =
  a !! Z.to_nat (slot order k).
Proof using Ho.
  intros Hi Hj Hk Hn. rewrite <- (map_slot k) by lia. apply set_at_other.
  intros k' Hk'%elem_of_seqZ E. apply Hn. rewrite <- (map_inj_nat k' k); lia || done.
Qed.

Lemma wp_init_map q f i j : 0 <= i -> j <= n -> Z.of_nat (length (rg_array q)) = n ->
  wp (init_range (fun i => lfring_map i order n) f i j) (fun _ q' => q' =
    ring_set_array (set_at (fun i => lfring_map i order n) f (seqZ i (j - i)) (rg_array q)) q) q.
Proof using Ho.
  intros Hi Hj Hl. apply wp_init_range. intros k Hk. rewrite map_slot by lia.
  pose proof (slot_nat order Ho k) as Hs. fold n in Hs. lia.
Qed.

(** The free list handed out at first: every index below [2 ^ order] once. *)
Definition full_indices : list Z := map (fun i => lfring_raw_map (n + i) order (2 ^ order)) (seqZ 0 (2 ^ order)).

Lemma half_lt : n = 2 * 2 ^ order /\ 0 < 2 ^ order.
Proof using Ho. unfold n. rewrite Z.pow_add_r by lia. split; [lia|apply Z.pow_pos_nonneg; lia]. Qed.

Lemma full_index i : 5 <= order -> 0 <= i < 2 ^ order ->
  lfring_raw_map (n + i) order (2 ^ order) = slot (order - 1) i /\ 0 <= slot (order - 1) i < 2 ^ order.
Proof using Ho.
  intros H5 Hi. destruct half_lt as [En Hh]. destruct (n_facts order Ho) as (_ & _ & _ & Hle). fold n in Hle.
  pose proof (lfring_map_slot (order - 1) ltac:(lia) (n + i) ltac:(lia)) as E.
  unfold lfring_map in E. rewrite !Z.sub_simpl_r in E. unfold u64 in E. rewrite Z.mod_small in E by lia.
  pose proof (slot_range (order - 1) ltac:(lia) i) as Hs. rewrite Z.sub_simpl_r in Hs.
  split; [|done]. rewrite E. unfold slot. rewrite !Z.sub_simpl_r.
  replace (n + i) with (i + 2 * 2 ^ order) by lia. by rewrite Z.mod_add by lia.
Qed.

Lemma full_indices_perm : 5 <= order -> full_indices ≡ₚ seqZ 0 (2 ^ order).
Proof using Ho.
  intros H5. destruct half_lt as [En Hh]. unfold full_indices.
  assert (Hin : forall x, x ∈ map (fun i => lfring_raw_map (n + i) order (2 ^ order)) (seqZ 0 (2 ^ order)) ->
    x ∈ seqZ 0 (2 ^ order)).
  { intros x (i & -> & Hi%elem_of_seqZ)%list_elem_of_fmap. apply elem_of_seqZ.
    destruct (full_index i H5) as [-> ?]; lia. }
  assert (Hnd : NoDup (map (fun i => lfring_raw_map (n + i) order (2 ^ order)) (seqZ 0 (2 ^ order)))).
  { apply NoDup_fmap_2_strong; [|apply NoDup_seqZ]. intros i j Hi%elem_of_seqZ Hj%elem_of_seqZ.
    destruct (full_index i H5) as [-> _]; [lia|]. destruct (full_index j H5) as [-> _]; [lia|].
    intros E%slot_window; [done|lia|]. rewrite Z.sub_simpl_r. lia. }
  apply submseteq_length_Permutation; [|by rewrite length_map]. by apply NoDup_submseteq.
Qed.

Lemma wp_init_full q : 5 <= order -> Z.of_nat (length (rg_array q)) = n ->
  wp (lfring_init_full order) (fun _ q' => ring_rep order q' full_indices) q.
Proof using Ho.
  intros H5 Hlen. destruct half_lt as [En Hh]. destruct (n_facts order Ho) as (Hn & _). fold n in Hn.
  unfold lfring_init_full. destruct (half_n order Ho) as (E1 & _ & E2). fold n in E1. rewrite E1, E2.
  apply wp_bind. eapply wp_mono; [apply wp_init_map; lia|]. intros [] q1 ->.
  apply wp_bind. eapply wp_mono; [apply wp_init_map; try lia; cbn; by rewrite set_at_length|]. intros [] q2 ->.
  apply wp_bind, wp_modify, wp_bind, wp_modify, wp_modify. exists 0.
  assert (Hl : Z.of_nat (length full_indices) = 2 ^ order).
  { unfold full_indices. rewrite length_map, length_seqZ. lia. }
  split; cbn [rg_head rg_tail rg_array rg_threshold ring_set_head ring_set_tail ring_set_threshold ring_set_array];
    rewrite ?set_at_length, ?Hl; fold n; try done; try lia.
  - unfold u64. rewrite Z.mod_small; [lia|].
    assert (2 ^ order <= 2 ^ 60) by (apply Z.pow_le_mono_r; lia). lia.
  - apply Forall_forall. intros x (i & -> & Hi%elem_of_seqZ)%list_elem_of_fmap.
    destruct (full_index i H5) as [-> ?]; lia.
  - intros i x Hx. apply lookup_lt_Some in Hx as Hlt. unfold full_indices in Hx.
    rewrite list_lookup_fmap in Hx. destruct (seqZ 0 (2 ^ order) !! i) as [k|] eqn:Ek; [|done].
    apply lookup_seqZ in Ek as [-> Hk]. cbn in Hx. injection Hx as <-. exists false.
    rewrite div_small_n, enc_zero by lia.
    rewrite init_not_at, (init_at _ (fun i => lfring_raw_map (n + i) order (2 ^ order))) by lia. done.
  - intros j Hj. exists true. rewrite div_small_n by lia.
    rewrite (init_at _ (fun _ => u64 (-1))); [by rewrite enc_minus_one|lia..|cbn; by rewrite set_at_length].
  - unfold lfring_threshold3. lia.
  - unfold lfring_threshold3. lia.
Qed.

Lemma wp_init_fill q s e : 0 <= s <= e -> e <= n -> Z.of_nat (length (rg_array q)) = n ->
  wp (lfring_init_fill s e order) (fun _ q' => ring_rep order q' (seqZ s (e - s))) q.
Proof using Ho.
  intros Hs He Hlen. destruct half_lt as [En Hh]. destruct (n_facts order Ho) as (Hn & _). fold n in Hn.
  unfold lfring_init_fill. destruct (half_n order Ho) as (E1 & _ & E2). fold n in E1. rewrite E1, E2.
  apply wp_bind. eapply wp_mono; [apply wp_init_map; lia|]. intros [] q1 ->.
  apply wp_bind. eapply wp_mono; [apply wp_init_map; try lia; cbn; by rewrite set_at_length|]. intros [] q2 ->.
  apply wp_bind. eapply wp_mono; [apply wp_init_map; try lia; cbn; by rewrite !set_at_length|]. intros [] q3 ->.
  apply wp_bind, wp_modify, wp_bind, wp_modify, wp_modify. exists s.
  assert (Hl : Z.of_nat (length (seqZ s (e - s))) = e - s) by (rewrite length_seqZ; lia).
  assert (Hn61 : n <= 2 ^ 61) by apply (n_facts order Ho).
  split; cbn [rg_head rg_tail rg_array rg_threshold ring_set_head ring_set_tail ring_set_threshold ring_set_array];
    rewrite ?set_at_length, ?Hl; fold n; try done; try lia.
  - unfold u64. rewrite Z.mod_small; lia.
  - unfold u64. rewrite Z.mod_small; lia.
  - apply Forall_forall. intros x Hx%elem_of_seqZ. lia.
  - intros i x Hx. apply lookup_seqZ in Hx as [-> Hk]. exists true.
    rewrite div_small_n, enc_zero by lia.
    rewrite init_not_at, (init_at _ (fun i => n + i)) by (lia || (cbn; rewrite set_at_length; lia)).
    f_equal. cbn [Z.b2z]. lia.
  - intros j Hj. exists true. destruct (decide (j < n)) as [Hjn|Hjn].
    + rewrite div_small_n by lia.
      rewrite (init_at _ (fun _ => u64 (-1))); [by rewrite enc_minus_one|lia..|cbn; by rewrite !set_at_length].
    + assert (Es : slot order j = slot order (j - n)).
      { unfold slot. fold n. replace j with (j - n + 1 * n) at 1 2 by lia. by rewrite Z.mod_add by lia. }
      rewrite Es, !init_not_at by lia.
      rewrite (init_at _ (fun _ => 2 * n - 1)) by lia. f_equal.
      replace (j / n - 1) with 0; [rewrite enc_zero; cbn [Z.b2z]; lia|].
      rewrite <- (Z.div_unique j n 1 (j - n)); lia.
  - unfold lfring_threshold3. lia.
  - unfold lfring_threshold3. lia.
Qed.
End Init.

(** ** The abstract queue *)
Inductive ring_op := Enqueue (x : Z) | Dequeue.

(** What a first-in first-out queue answers, and what it holds then. *)
Definition fifo_step (op : ring_op) (l : list Z) : Z * list Z :=
  match op, l with
  | Enqueue x, _ => (1, l ++ [x])
  | Dequeue, [] => (LFRING_EMPTY, [])
  | Dequeue, x :: l => (x, l)
  end.
Definition fifo_fits (order : Z) (op : ring_op) (l : list Z) : bool :=
  match op with
  | Enqueue x => (Z.of_nat (length l) <? 2 ^ (order + 1)) && (0 <=? x) && (x <? 2 ^ (order + 1))
  | Dequeue => true
  end.
Fixpoint fifo_run (order : Z) (ops : list ring_op) (l : list Z) : option (list Z * list Z) :=
  match ops with
  | [] => Some ([], l)
  | op :: ops =>
      if fifo_fits order op l then
        let '(r, l') := fifo_step op l in
        '(rs, l'') ← fifo_run order ops l'; Some (r :: rs, l'')
      else None
  end.

Definition ring_step (order : Z) (op : ring_op) : M lfring Z :=
  match op with
  | Enqueue x => r <-- lfring_enqueue order x false ;; cret (Z.b2z r)
  | Dequeue => lfring_dequeue order false
  end.
Fixpoint ring_run (order : Z) (ops : list ring_op) : M lfring (list Z) :=
  match ops with
  | [] => cret []
  | op :: ops => r <-- ring_step order op ;; rs <-- ring_run order ops ;; cret (r :: rs)
  end.

Lemma wp_ring_step order op q l : 4 <= order <= 60 -> ring_rep order q l -> fifo_fits order op l = true ->
  wp (ring_step order op) (fun r q' => r = fst (fifo_step op l) /\ ring_rep order q' (snd (fifo_step op l))) q.
Proof.
  intros Ho Hr Hf. destruct op as [x|]; cbn [ring_step fifo_step fifo_fits] in *.
  - apply wp_bind. eapply wp_mono; [apply (wp_enqueue order Ho q l x false Hr); [lia|lia|by left]|].
    intros r q' [-> H']. by apply wp_ret.
  - destruct l as [|x l]; [by apply wp_dequeue_none|by apply wp_dequeue_some].
Qed.

(** C19. The ring refines a first-in first-out queue: whatever the positions of
    its 64-bit counters (wrapped around or not), every sequence of operations
    that never exceeds the capacity gives exactly the answers of the queue, the
    retry loops included all terminate, and the ring again holds what the queue
    holds. *)
Theorem lfring_refines_fifo order ops q l rs l' :
  4 <= order <= 60 -> ring_rep order q l -> fifo_run order ops l = Some (rs, l') ->
  exists q', ring_run order ops q = Done (rs, q') /\ ring_rep order q' l'.
Proof.
  intros Ho. revert q l rs. induction ops as [|op ops IH]; intros q l rs Hr Hrun.
  - injection Hrun as <- <-. by exists q.
  - cbn [fifo_run] in Hrun. destruct (fifo_fits order op l) eqn:Ef; [|done].
    destruct (wp_run _ _ _ (wp_ring_step order op q l Ho Hr Ef)) as (r & q1 & E & -> & Hr1).
    destruct (fifo_step op l) as [r l1]. cbn [fst snd] in *.
    destruct (fifo_run order ops l1) as [[rs1 l2]|] eqn:Er; [|done]. injection Hrun as <- <-.
    destruct (IH q1 l1 rs1 Hr1 Er) as (q2 & E2 & Hr2). exists q2. split; [|done].
    cbn [ring_run]. unfold cbind. by rewrite E, E2.
Qed.

(** The three initialisers give rings that represent the empty queue, the
    queue of all [2 ^ order] indices (each exactly once, in the order of the
    cache-line permutation) and the queue of a range of indices, whatever the
    memory held before. *)
Theorem lfring_init_correct order q s e :
  5 <= order <= 60 -> Z.of_nat (length (rg_array q)) = 2 ^ (order + 1) ->
  0 <= s <= e -> e <= 2 ^ (order + 1) ->
  (exists q', lfring_init_empty order q = Done (tt, q') /\ ring_rep order q' []) /\
  (exists q' l, lfring_init_full order q = Done (tt, q') /\ ring_rep order q' l /\
     l ≡ₚ seqZ 0 (2 ^ order)) /\
  (exists q', lfring_init_fill s e order q = Done (tt, q') /\ ring_rep order q' (seqZ s (e - s))).
Proof.
  intros Ho Hlen Hs He. assert (Ho' : 4 <= order <= 60) by lia. split_and!.
  - destruct (wp_run _ _ _ (wp_init_empty order Ho' q Hlen)) as ([] & q' & E & H). eauto.
  - destruct (wp_run _ _ _ (wp_init_full order Ho' q ltac:(lia) Hlen)) as ([] & q' & E & H).
    exists q', (full_indices order). split_and!; [done..|]. apply full_indices_perm; lia.
  - destruct (wp_run _ _ _ (wp_init_fill order Ho' q s e Hs He Hlen)) as ([] & q' & E & H). eauto.
Qed.

Definition ring_memory : lfring := MkRing 5 6 7 (replicate 64 9).

Lemma lfring_refines_fifo_witness : exists q q',
  lfring_init_empty 5 ring_memory = Done (tt, q) /\
  ring_run 5 [Enqueue 3; Enqueue 7; Dequeue; Dequeue; Dequeue; Enqueue 4] q =
    Done ([1; 1; 3; 7; LFRING_EMPTY; 1], q') /\ ring_rep 5 q' [4].
Proof.
  destruct (wp_run _ _ _ (wp_init_empty 5 ltac:(lia) ring_memory eq_refl)) as ([] & q & E & H).
  destruct (lfring_refines_fifo 5 [Enqueue 3; Enqueue 7; Dequeue; Dequeue; Dequeue; Enqueue 4] q []
    [1; 1; 3; 7; LFRING_EMPTY; 1] [4] ltac:(lia) H eq_refl) as (q' & E' & H').
  exists q, q'. split; [exact E|split; [exact E'|exact H']].
Defined.

Lemma lfring_init_correct_witness : exists q' l,
  lfring_init_full 5 ring_memory = Done (tt, q') /\ ring_rep 5 q' l /\ l ≡ₚ seqZ 0 32.
Proof.
  exact (proj1 (proj2 (lfring_init_correct 5 ring_memory 2 4 ltac:(lia) eq_refl ltac:(lia) ltac:(lia)))).
Defined.
