(* ===== verification/LfQueue.v ===== *)
(** * The markable queue of waiters (include/bmk-core/lfqueue.h)

    A linked queue with a sentinel.  The [next] word of the last node is odd:
    [__LFQ_NULL] minus twice the number of wake-ups posted while nobody waited.
    Operations are modelled for a caller that runs alone, each access to a
    stamped word being one access to the shared state. *)

From S2P Require Import Prelude.

(** A pointer or counter word with its stamp. *)
Record lfatomic_aba := Aba { aba_value : Z; aba_stamp : Z }.
Definition aba_eqb (a b : lfatomic_aba) : bool :=
  (aba_value a =? aba_value b) && (aba_stamp a =? aba_stamp b).

Record lfqueue_node := LfNode { ln_next : lfatomic_aba; ln_object : Z }.
Record lfqueue := LfQ { lq_head : lfatomic_aba; lq_tail : lfatomic_aba; lq_nodes : gmap Z lfqueue_node }.

Definition LFQ_CNT : Z := 1.
Definition LFQ_INC : Z := 2.
Definition LFQ_NULL : Z := 2 ^ 64 - 1.

Definition set_lq_head (v : lfatomic_aba) (q : lfqueue) : lfqueue := LfQ v (lq_tail q) (lq_nodes q).
Definition set_lq_tail (v : lfatomic_aba) (q : lfqueue) : lfqueue := LfQ (lq_head q) v (lq_nodes q).
Definition put_node (p : Z) (nd : lfqueue_node) (q : lfqueue) : lfqueue :=
  LfQ (lq_head q) (lq_tail q) (<[p := nd]> (lq_nodes q)).

Definition get_node (p : Z) : M lfqueue lfqueue_node :=
  q <-- mget ;; mopt (lq_nodes q !! p) "not a queue node".
Definition load_next (p : Z) : M lfqueue lfatomic_aba := nd <-- get_node p ;; cret (ln_next nd).
Definition set_next (p : Z) (v : lfatomic_aba) : M lfqueue unit :=
  nd <-- get_node p ;; modify (put_node p (LfNode v (ln_object nd))).

(** [__lfaba_cmpxchg]: success and the value found. *)
Definition cas_next (p : Z) (expected v : lfatomic_aba) : M lfqueue (bool * lfatomic_aba) :=
  w <-- load_next p ;;
  if aba_eqb w expected then set_next p v ;;; cret (true, w) else cret (false, w).
Definition cas_head (expected v : lfatomic_aba) : M lfqueue (bool * lfatomic_aba) :=
  q <-- mget ;; let w := lq_head q in
  if aba_eqb w expected then modify (set_lq_head v) ;;; cret (true, w) else cret (false, w).
Definition cas_tail (expected v : lfatomic_aba) : M lfqueue (bool * lfatomic_aba) :=
  q <-- mget ;; let w := lq_tail q in
  if aba_eqb w expected then modify (set_lq_tail v) ;;; cret (true, w) else cret (false, w).
(** [__lfaba_reload]: only the stamps are compared. *)
Definition lfaba_reload (now old : lfatomic_aba) : bool * lfatomic_aba :=
  if aba_stamp now =? aba_stamp old then (true, old) else (false, now).
Definition lfaba_store_value (p v : Z) : M lfqueue unit :=
  w <-- load_next p ;; set_next p (Aba v (u64 (aba_stamp w + 1))).

Definition lfqueue_init (node : Z) : M lfqueue unit :=
  set_next node (Aba LFQ_NULL 0) ;;;
  modify (set_lq_head (Aba node 0)) ;;; modify (set_lq_tail (Aba node 0)).

Definition lfqueue_sentinel : M lfqueue Z := q <-- mget ;; cret (aba_value (lq_head q)).

(** The inner loop of enqueue: [inl tail] goes round the outer loop again. *)
Definition enqueue_inner (node : Z) (mark : bool) (tail next : lfatomic_aba) :
    M lfqueue (lfatomic_aba + bool) :=
  loopM (fun '(tail, next) =>
    if Z.land (aba_value next) LFQ_CNT =? 0 then
      let value := Aba (aba_value next) (u64 (aba_stamp tail + 1)) in
      '(ok, w) <-- cas_tail tail value ;;
      cret (inr (inl (if ok : bool then value else w)))
    else
      q <-- mget ;;
      let '(same, tail) := lfaba_reload (lq_tail q) tail in
      if negb same then cret (inr (inl tail))
      else if mark && negb (aba_value next =? LFQ_NULL) then
        let value := Aba (u64 (aba_value next + LFQ_INC)) (u64 (aba_stamp next + 1)) in
        '(ok, w) <-- cas_next (aba_value tail) next value ;;
        if ok : bool then cret (inr (inr false)) else cret (inl (tail, w))
      else
        let value := Aba node (u64 (aba_stamp next + 1)) in
        '(ok, w) <-- cas_next (aba_value tail) next value ;;
        if ok : bool then
          _ <-- cas_tail tail (Aba node (u64 (aba_stamp tail + 1))) ;;
          cret (inr (inr true))
        else cret (inl (tail, w))) (tail, next).

Definition lfqueue_enqueue (node : Z) (mark : bool) : M lfqueue bool :=
  lfaba_store_value node LFQ_NULL ;;;
  q <-- mget ;;
  loopM (fun tail =>
    next <-- load_next (aba_value tail) ;;
    r <-- enqueue_inner node mark tail next ;;
    match r with inl tail => cret (inl tail) | inr b => cret (inr b) end) (lq_tail q).

(** From the label [repeat] on: [inl head] goes round the outer loop again. *)
Definition dequeue_inner (mark : bool) (head tail next : lfatomic_aba) : M lfqueue (lfatomic_aba + Z) :=
  loopM (fun '(head, next) =>
    q <-- mget ;;
    let '(same, head) := lfaba_reload (lq_head q) head in
    if negb same then cret (inr (inl head))
    else if negb (Z.land (aba_value next) LFQ_CNT =? 0) then
      let value := Aba (u64 (aba_value next - LFQ_INC)) (u64 (aba_stamp next + 1)) in
      if negb mark then cret (inr (inr 0)) else
      '(ok, w) <-- cas_next (aba_value head) next value ;;
      if ok : bool then cret (inr (inr 0)) else cret (inl (head, w))
    else
      (if aba_value head =? aba_value tail
       then _ <-- cas_tail tail (Aba (aba_value next) (u64 (aba_stamp tail + 1))) ;; cret tt
       else cret tt) ;;;
      nd <-- get_node (aba_value next) ;;
      let object := ln_object nd in
      '(ok, w) <-- cas_head head (Aba (aba_value next) (u64 (aba_stamp head + 1))) ;;
      if ok : bool then
        old <-- get_node (aba_value head) ;;
        modify (put_node (aba_value head) (LfNode (ln_next old) object)) ;;;
        cret (inr (inr (aba_value head)))
      else cret (inr (inl w))) (head, next).

(** 0 is NULL. *)
Definition lfqueue_dequeue (mark : bool) : M lfqueue Z :=
  q <-- mget ;;
  loopM (fun head =>
    q <-- mget ;;
    let tail := lq_tail q in
    next <-- load_next (aba_value head) ;;
    r <-- dequeue_inner mark head tail next ;;
    match r with inl head => cret (inl head) | inr p => cret (inr p) end) (lq_head q).

(** * The markable queue refines a queue with a wake-up counter *)


(** What the queue stands for: waiters in order, or posted wake-ups. *)
Inductive waitq := Waiters (l : list Z) | Posted (k : Z).

(** The nodes behind the sentinel [p]: the last [next] word is the odd word of
    [k] posted wake-ups, every other points to the next node. *)
Fixpoint chain (m : gmap Z lfqueue_node) (p : Z) (ns : list Z) (k : Z) : Prop :=
  match ns with
  | [] => exists nd, m !! p = Some nd /\ aba_value (ln_next nd) = u64 (LFQ_NULL - 2 * k)
  | n :: ns => (exists nd, m !! p = Some nd /\ aba_value (ln_next nd) = n) /\ chain m n ns k
  end.

Fixpoint lastd (p : Z) (ns : list Z) : Z :=
  match ns with [] => p | n :: ns => lastd n ns end.

Definition objects (m : gmap Z lfqueue_node) (ns : list Z) : list Z :=
  map (fun p => default 0 (ln_object <$> m !! p)) ns.

Record queue_at (q : lfqueue) (p : Z) (ns : list Z) (k : Z) : Prop := {
  qa_head : aba_value (lq_head q) = p;
  qa_tail : aba_value (lq_tail q) = lastd p ns;
  qa_chain : chain (lq_nodes q) p ns k;
  qa_nodup : NoDup (p :: ns);
  qa_even : Forall (fun n => 0 < n < 2 ^ 64 /\ Z.land n LFQ_CNT = 0) (p :: ns);
  qa_count : 0 <= k < 2 ^ 62 /\ (ns <> [] -> k = 0)
}.

Definition wait_of (q : lfqueue) (ns : list Z) (k : Z) : waitq :=
  if decide (ns = []) then (if decide (k = 0) then Waiters [] else Posted k)
  else Waiters (objects (lq_nodes q) ns).

Lemma null_odd k : 0 <= k < 2 ^ 62 -> Z.land (u64 (LFQ_NULL - 2 * k)) LFQ_CNT = 1.
Proof.
  intros Hk. unfold u64, LFQ_NULL, LFQ_CNT. rewrite Z.mod_small by lia.
  change 1 with (2 ^ 1 - 1) at 2. rewrite land_mask_mod by lia. change (2 ^ 1) with 2.
  replace (2 ^ 64 - 1 - 2 * k) with (1 + (2 ^ 63 - 1 - k) * 2) by lia. by rewrite Z.mod_add by lia.
Qed.
Lemma null_zero k : 0 <= k < 2 ^ 62 -> u64 (LFQ_NULL - 2 * k) = LFQ_NULL <-> k = 0.
Proof. intros Hk. unfold u64, LFQ_NULL. rewrite Z.mod_small by lia. lia. Qed.

Lemma chain_last m ns : forall p k, chain m p ns k ->
  exists nd, m !! lastd p ns = Some nd /\ aba_value (ln_next nd) = u64 (LFQ_NULL - 2 * k).
Proof. induction ns as [|n ns IH]; intros p k H; [done|]. by apply IH, H. Qed.

Lemma lastd_in ns : forall p, lastd p ns ∈ p :: ns.
Proof. induction ns as [|n ns IH]; intros p; [by left|]. right. apply IH. Qed.
Lemma lastd_snoc ns x : forall p, lastd p (ns ++ [x]) = x.
Proof. induction ns as [|n ns IH]; intros p; [done|]. apply IH. Qed.

(** Changing a node outside the chain. *)
Lemma chain_frame m ns x nd : forall p k, x ∉ p :: ns -> chain m p ns k -> chain (<[x := nd]> m) p ns k.
Proof.
  induction ns as [|n ns IH]; intros p k Hx H; cbn [chain] in *.
  - rewrite lookup_insert_ne; [done|]. set_solver.
  - rewrite lookup_insert_ne by set_solver. split; [apply H|]. apply IH; [set_solver|apply H].
Qed.

(** Appending a node. *)
Lemma chain_snoc m ns : forall p k x nd nx, chain m p ns k -> NoDup (p :: ns) -> x ∉ p :: ns ->
  m !! x = Some nx -> aba_value (ln_next nx) = LFQ_NULL -> m !! lastd p ns = Some nd ->
  forall st, chain (<[lastd p ns := LfNode (Aba x st) (ln_object nd)]> m) p (ns ++ [x]) 0.
Proof.
  induction ns as [|n ns IH]; intros p k x nd nx H Hnd Hx Hmx Hnx Hl st.
  - cbn. split; [rewrite lookup_insert_eq; eauto|]. exists nx. rewrite lookup_insert_ne by set_solver.
    split; [done|]. rewrite Hnx. reflexivity.
  - cbn [app chain lastd] in *. destruct H as [(np & Hp & Hn) Hc]. apply NoDup_cons in Hnd as [Hpn Hnd]. split.
    + exists np. split; [|done]. rewrite lookup_insert_ne; [done|]. intros E.
      apply Hpn. rewrite <- E. apply lastd_in.
    + eapply IH; try done. set_solver.
Qed.

Lemma wp_get_node q p nd Q : lq_nodes q !! p = Some nd -> Q nd q -> wp (get_node p) Q q.
Proof. intros E HQ. apply wp_bind, wp_get. by apply (wp_opt _ _ nd). Qed.
Lemma wp_load_next q p nd Q : lq_nodes q !! p = Some nd -> Q (ln_next nd) q -> wp (load_next p) Q q.
Proof. intros E HQ. apply wp_bind. eapply wp_get_node; [exact E|]. by apply wp_ret. Qed.
Lemma aba_eqb_refl a : aba_eqb a a = true.
Proof. unfold aba_eqb. by rewrite !Z.eqb_refl. Qed.
Lemma wp_cas_next q p nd v Q : lq_nodes q !! p = Some nd ->
  Q (true, ln_next nd) (put_node p (LfNode v (ln_object nd)) q) -> wp (cas_next p (ln_next nd) v) Q q.
Proof.
  intros E HQ. apply wp_bind. eapply wp_load_next; [exact E|]. rewrite aba_eqb_refl.
  apply wp_bind, wp_bind. eapply wp_get_node; [exact E|]. by apply wp_modify.
Qed.
Lemma wp_cas_head q v Q : Q (true, lq_head q) (set_lq_head v q) -> wp (cas_head (lq_head q) v) Q q.
Proof. intros HQ. apply wp_bind, wp_get. cbv zeta. rewrite aba_eqb_refl. by apply wp_bind, wp_modify. Qed.
Lemma wp_cas_tail q v Q : Q (true, lq_tail q) (set_lq_tail v q) -> wp (cas_tail (lq_tail q) v) Q q.
Proof. intros HQ. apply wp_bind, wp_get. cbv zeta. rewrite aba_eqb_refl. by apply wp_bind, wp_modify. Qed.
Lemma reload_same a : lfaba_reload a a = (true, a).
Proof. unfold lfaba_reload. by rewrite Z.eqb_refl. Qed.

(** Changing words outside the chain keeps the queue. *)
Lemma queue_at_frame q p ns k x nd : queue_at q p ns k -> x ∉ p :: ns -> queue_at (put_node x nd q) p ns k.
Proof. intros [? ? ? ? ? ?] Hx. split; try done. by apply chain_frame. Qed.

(** A wake-up was posted: enqueue takes it and does not queue the node. *)
Lemma wp_enqueue_posted q p k node nx : queue_at q p [] k -> 0 < k -> node <> p ->
  lq_nodes q !! node = Some nx ->
  wp (lfqueue_enqueue node true) (fun r q' => r = false /\ queue_at q' p [] (k - 1) /\
    exists nx', lq_nodes q' !! node = Some nx' /\ ln_object nx' = ln_object nx) q.
Proof.
  intros Hq Hk Hne Hn. unfold lfqueue_enqueue, lfaba_store_value, set_next.
  apply wp_bind, wp_bind. eapply wp_load_next; [exact Hn|]. apply wp_bind. eapply wp_get_node; [exact Hn|].
  apply wp_modify, wp_bind, wp_get.
  match goal with |- wp _ _ (put_node _ ?nd' _) => set (nd1 := nd') end.
  pose proof (queue_at_frame q p [] k node nd1 Hq ltac:(set_solver)) as Hq1.
  set (q1 := put_node node nd1 q) in *.
  assert (Hn1 : lq_nodes q1 !! node = Some nd1) by apply lookup_insert_eq. clearbody q1.
  destruct Hq1 as [Hh Ht (nd & Hp & Hv) Hnd Hev Hct]. cbn [lastd] in Ht.
  apply (wp_loop _ (fun t q' => t = lq_tail q1 /\ q' = q1) (fun _ _ => 0)); [|done|lia].
  intros t q' [-> ->]. split; [lia|]. rewrite Ht. apply wp_bind. eapply wp_load_next; [exact Hp|].
  apply wp_bind. unfold enqueue_inner.
  eapply (wp_mono _ (fun r q' => r = inr false /\ q' = put_node p (LfNode (Aba (u64 (aba_value (ln_next nd) + LFQ_INC))
    (u64 (aba_stamp (ln_next nd) + 1))) (ln_object nd)) q1)).
  { apply (wp_loop _ (fun tn q' => tn = (lq_tail q1, ln_next nd) /\ q' = q1) (fun _ _ => 0)); [|done|lia].
    intros tn q' [-> ->]. split; [lia|]. rewrite Hv, null_odd by lia. change (1 =? 0) with false. cbv iota.
    apply wp_bind, wp_get. rewrite reload_same. cbn [negb andb].
    destruct (Z.eqb_spec (u64 (LFQ_NULL - 2 * k)) LFQ_NULL) as [E|_]; [apply null_zero in E; lia|]. cbn [negb].
    apply wp_bind. rewrite Ht. eapply wp_cas_next; [exact Hp|]. by apply wp_ret. }
  intros r q' [-> ->]. apply wp_ret. split; [done|]. split.
  - split; try done; [|split; [lia|done]]. cbn [chain put_node lq_nodes]. rewrite lookup_insert_eq. eexists. split; [done|]. cbn.
    rewrite Hv. unfold u64, LFQ_NULL, LFQ_INC. rewrite (Z.mod_small (_ - _)), !Z.mod_small by lia. lia.
  - exists nd1. cbn. by rewrite lookup_insert_ne by done.
Qed.

Lemma objects_frame m ns x nd : x ∉ ns -> objects (<[x := nd]> m) ns = objects m ns.
Proof.
  intros Hx. unfold objects. apply map_ext_in. intros a Ha. rewrite lookup_insert_ne; [done|].
  intros ->. apply Hx. by apply list_elem_of_In.
Qed.
(** Changing the link of a node keeps its object. *)
Lemma objects_relink m ns x nd v : m !! x = Some nd ->
  objects (<[x := LfNode v (ln_object nd)]> m) ns = objects m ns.
Proof.
  intros Hx. unfold objects. apply map_ext. intros a. destruct (decide (x = a)) as [->|Hne].
  - by rewrite lookup_insert_eq, Hx.
  - by rewrite lookup_insert_ne.
Qed.

(** No posted wake-up: the node becomes the last waiter. *)
Lemma wp_enqueue_wait q p ns node nx : queue_at q p ns 0 -> node ∉ p :: ns ->
  0 < node < 2 ^ 64 -> Z.land node LFQ_CNT = 0 -> lq_nodes q !! node = Some nx ->
  wp (lfqueue_enqueue node true) (fun r q' => r = true /\ queue_at q' p (ns ++ [node]) 0 /\
    objects (lq_nodes q') (ns ++ [node]) = objects (lq_nodes q) ns ++ [ln_object nx]) q.
Proof.
  intros Hq Hne Hr Hev Hn. unfold lfqueue_enqueue, lfaba_store_value, set_next.
  apply wp_bind, wp_bind. eapply wp_load_next; [exact Hn|]. apply wp_bind. eapply wp_get_node; [exact Hn|].
  apply wp_modify, wp_bind, wp_get.
  match goal with |- wp _ _ (put_node _ ?nd' _) => set (nd1 := nd') end.
  pose proof (queue_at_frame q p ns 0 node nd1 Hq Hne) as Hq1.
  assert (Eo : objects (lq_nodes (put_node node nd1 q)) ns = objects (lq_nodes q) ns).
  { apply objects_frame. intros ?. apply Hne. by right. }
  set (q1 := put_node node nd1 q) in *.
  assert (Hn1 : lq_nodes q1 !! node = Some nd1) by apply lookup_insert_eq. clearbody q1.
  destruct Hq1 as [Hh Ht Hc Hnd Hall Hct]. destruct (chain_last _ _ _ _ Hc) as (nd & Hl & Hv).
  assert (Hlast : lastd p ns <> node) by (intros <-; apply Hne, lastd_in).
  apply (wp_loop _ (fun t q' => t = lq_tail q1 /\ q' = q1) (fun _ _ => 0)); [|done|lia].
  intros t q' [-> ->]. split; [lia|]. rewrite Ht. apply wp_bind. eapply wp_load_next; [exact Hl|].
  apply wp_bind. unfold enqueue_inner.
  set (q2 := put_node (lastd p ns) (LfNode (Aba node (u64 (aba_stamp (ln_next nd) + 1))) (ln_object nd)) q1).
  eapply (wp_mono _ (fun r q' => r = inr true /\ q' = set_lq_tail (Aba node (u64 (aba_stamp (lq_tail q1) + 1))) q2)).
  { apply (wp_loop _ (fun tn q' => tn = (lq_tail q1, ln_next nd) /\ q' = q1) (fun _ _ => 0)); [|done|lia].
    intros tn q' [-> ->]. split; [lia|]. rewrite Hv, null_odd by lia. change (1 =? 0) with false. cbv iota.
    apply wp_bind, wp_get. rewrite reload_same. cbn [negb andb].
    destruct (Z.eqb_spec (u64 (LFQ_NULL - 2 * 0)) LFQ_NULL) as [_|E]; [|by destruct E].
    cbn [negb]. apply wp_bind. rewrite Ht. eapply wp_cas_next; [exact Hl|]. fold q2. cbn iota.
    apply wp_bind. apply (wp_cas_tail q2). by apply wp_ret. }
  intros r q' [-> ->]. apply wp_ret. split; [done|]. cbn [set_lq_tail lq_nodes].
  split; [split; cbn [set_lq_tail lq_head lq_tail lq_nodes aba_value]|].
  - done.
  - by rewrite lastd_snoc.
  - by eapply chain_snoc.
  - change (p :: ns ++ [node]) with ((p :: ns) ++ [node]). apply NoDup_app. split_and!; [done| |apply NoDup_singleton].
    intros x Hx ->%list_elem_of_singleton. done.
  - change (p :: ns ++ [node]) with ((p :: ns) ++ [node]). apply Forall_app. split; [done|]. by apply Forall_singleton.
  - split; [lia|done].
  - unfold q2, put_node, lq_nodes at 1. rewrite objects_relink by done.
    unfold objects at 1. rewrite map_app. fold (objects (lq_nodes q1) ns). rewrite Eo. cbn [map]. by rewrite Hn1.
Qed.

(** Nobody waits: the wake-up is posted. *)
Lemma wp_dequeue_post q p k : queue_at q p [] k -> k + 1 < 2 ^ 62 ->
  wp (lfqueue_dequeue true) (fun r q' => r = 0 /\ queue_at q' p [] (k + 1) /\
    forall x, x <> p -> lq_nodes q' !! x = lq_nodes q !! x) q.
Proof.
  intros [Hh Ht (nd & Hp & Hv) Hnd Hall Hct] Hk. unfold lfqueue_dequeue.
  apply wp_bind, wp_get. apply (wp_loop _ (fun h q' => h = lq_head q /\ q' = q) (fun _ _ => 0)); [|done|lia].
  intros h q' [-> ->]. split; [lia|]. apply wp_bind, wp_get. rewrite Hh.
  apply wp_bind. eapply wp_load_next; [exact Hp|]. apply wp_bind. unfold dequeue_inner.
  eapply (wp_mono _ (fun r q' => r = inr 0 /\ q' = put_node p (LfNode (Aba (u64 (aba_value (ln_next nd) - LFQ_INC))
    (u64 (aba_stamp (ln_next nd) + 1))) (ln_object nd)) q)).
  { apply (wp_loop _ (fun hn q' => hn = (lq_head q, ln_next nd) /\ q' = q) (fun _ _ => 0)); [|done|lia].
    intros hn q' [-> ->]. split; [lia|]. apply wp_bind, wp_get. rewrite reload_same. cbn [negb].
    rewrite Hv, null_odd by lia. change (1 =? 0) with false. cbn [negb]. apply wp_bind. rewrite Hh.
    eapply wp_cas_next; [exact Hp|]. by apply wp_ret. }
  intros r q' [-> ->]. apply wp_ret. split; [done|]. split.
  - split; try done; [|split; [lia|done]]. cbn [chain put_node lq_nodes]. rewrite lookup_insert_eq.
    eexists. split; [done|]. cbn. rewrite Hv. unfold u64, LFQ_NULL, LFQ_INC.
    rewrite (Z.mod_small (2 ^ 64 - 1 - 2 * k)), !Z.mod_small by lia. lia.
  - intros x Hx. cbn. by rewrite lookup_insert_ne.
Qed.

(** The first waiter leaves; its object is handed over in the old sentinel. *)
Lemma wp_dequeue_wake q p n ns : queue_at q p (n :: ns) 0 ->
  wp (lfqueue_dequeue true) (fun r q' => r = p /\ queue_at q' n ns 0 /\
    objects (lq_nodes q') ns = objects (lq_nodes q) ns /\
    exists nd, lq_nodes q' !! p = Some nd /\ [ln_object nd] = objects (lq_nodes q) [n]) q.
Proof.
  intros [Hh Ht Hc Hnd Hall Hct]. cbn [chain lastd] in *. destruct Hc as [(nd & Hp & Hv) Hc].
  assert (Hn : exists nn, lq_nodes q !! n = Some nn).
  { destruct ns; [destruct Hc as (nn & ? & _)|destruct Hc as [(nn & ? & _) _]]; by exists nn. }
  destruct Hn as [nn Hn]. pose proof Hnd as [Hpn Hnd']%NoDup_cons.
  pose proof Hall as [_ Hall']%Forall_cons. pose proof Hall' as [Hne _]%Forall_cons.
  assert (Hht : (p =? lastd n ns) = false).
  { apply Z.eqb_neq. intros E. apply Hpn. rewrite E at 1. apply lastd_in. }
  unfold lfqueue_dequeue. apply wp_bind, wp_get.
  apply (wp_loop _ (fun h q' => h = lq_head q /\ q' = q) (fun _ _ => 0)); [|done|lia].
  intros h q' [-> ->]. split; [lia|]. apply wp_bind, wp_get. rewrite Hh.
  apply wp_bind. eapply wp_load_next; [exact Hp|]. apply wp_bind. unfold dequeue_inner.
  eapply (wp_mono _ (fun r q' => r = inr p /\ q' = put_node p (LfNode (ln_next nd) (ln_object nn))
    (set_lq_head (Aba n (u64 (aba_stamp (lq_head q) + 1))) q))).
  { apply (wp_loop _ (fun hn q' => hn = (lq_head q, ln_next nd) /\ q' = q) (fun _ _ => 0)); [|done|lia].
    intros hn q' [-> ->]. split; [lia|]. apply wp_bind, wp_get. rewrite reload_same. cbn [negb].
    rewrite Hv, (proj2 Hne). cbn [negb Z.eqb]. rewrite Hh, Ht, Hht. apply wp_bind, wp_ret.
    apply wp_bind. eapply wp_get_node; [exact Hn|]. apply wp_bind, wp_cas_head. cbn iota.
    apply wp_bind. eapply wp_get_node; [exact Hp|]. apply wp_bind, wp_modify. by apply wp_ret. }
  intros r q' [-> ->]. apply wp_ret. split; [done|]. split_and!.
  - split; cbn [put_node set_lq_head lq_head lq_tail lq_nodes aba_value]; try done.
    by apply chain_frame.
  - cbn [put_node set_lq_head lq_nodes]. apply objects_frame. intros ?. apply Hpn. by right.
  - eexists. cbn [put_node set_lq_head lq_nodes]. split; [apply lookup_insert_eq|]. cbn. by rewrite Hn.
Qed.

(** ** The abstract wait queue *)

(** Blocking takes a posted wake-up if there is one, else it queues. *)
Definition wq_block (o : Z) (w : waitq) : bool * waitq :=
  match w with
  | Waiters l => (true, Waiters (l ++ [o]))
  | Posted k => (false, if decide (k = 1) then Waiters [] else Posted (k - 1))
  end.
(** Waking releases the first waiter, or posts a wake-up. *)
Definition wq_wake (w : waitq) : option Z * waitq :=
  match w with
  | Waiters [] => (None, Posted 1)
  | Waiters (o :: l) => (Some o, Waiters l)
  | Posted k => (None, Posted (k + 1))
  end.
(** The object in the node a dequeue returned. *)
Definition woken (q : lfqueue) (r : Z) : option Z :=
  if r =? 0 then None else ln_object <$> lq_nodes q !! r.

Lemma wait_of_waiters q ns : wait_of q ns 0 = Waiters (objects (lq_nodes q) ns).
Proof. unfold wait_of. case_decide as E; [subst|done]. by rewrite decide_True. Qed.
Lemma wait_of_posted q k : 0 < k -> wait_of q [] k = Posted k.
Proof. intros. unfold wait_of. rewrite decide_True by done. by rewrite decide_False by lia. Qed.

(** The markable queue with its odd counter words refines a wait queue with
    posted wake-ups, on every branch: a blocking thread either takes a posted
    wake-up and does not queue, or becomes the last waiter; a wake releases the
    waiters in order, or is remembered.  So no wake-up is lost and none is taken
    twice; the node handed back by a wake is no longer part of the queue. *)
Theorem lfqueue_refines q p ns k :
  queue_at q p ns k -> k + 1 < 2 ^ 62 ->
  (forall node nx, node ∉ p :: ns -> 0 < node < 2 ^ 64 -> Z.land node LFQ_CNT = 0 ->
     lq_nodes q !! node = Some nx ->
     exists r q' ns' k', lfqueue_enqueue node true q = Done (r, q') /\ queue_at q' p ns' k' /\
       (r, wait_of q' ns' k') = wq_block (ln_object nx) (wait_of q ns k)) /\
  (exists r q' p' ns' k', lfqueue_dequeue true q = Done (r, q') /\ queue_at q' p' ns' k' /\
     (woken q' r, wait_of q' ns' k') = wq_wake (wait_of q ns k) /\ (r <> 0 -> r ∉ p' :: ns')).
Proof.
  intros Hq Hk. pose proof Hq as [_ _ _ Hnd Hall [Hk0 Hkz]]. split.
  - intros node nx Hf Hr He Hn. destruct (decide (k = 0)) as [->|Hkn].
    + destruct (wp_run _ _ _ (wp_enqueue_wait q p ns node nx Hq Hf Hr He Hn)) as (r & q' & E & -> & Hq' & Ho).
      exists true, q', (ns ++ [node]), 0. split_and!; [done..|]. by rewrite !wait_of_waiters, Ho.
    + assert (ns = []) as -> by (destruct ns; [done|]; by destruct Hkn; apply Hkz).
      destruct (wp_run _ _ _ (wp_enqueue_posted q p k node nx Hq ltac:(lia) ltac:(set_solver) Hn))
        as (r & q' & E & -> & Hq' & _).
      exists false, q', [], (k - 1). split_and!; [done..|]. rewrite (wait_of_posted q k) by lia. cbn.
      destruct (decide (k = 1)) as [->|]; [done|]. by rewrite wait_of_posted by lia.
  - destruct ns as [|n ns].
    + destruct (wp_run _ _ _ (wp_dequeue_post q p k Hq Hk)) as (r & q' & E & -> & Hq' & _).
      exists 0, q', p, [], (k + 1). split_and!; [done..| |done]. rewrite (wait_of_posted q' (k + 1)) by lia.
      destruct (decide (k = 0)) as [->|]; [done|]. by rewrite wait_of_posted by lia.
    + assert (k = 0) as -> by by apply Hkz.
      destruct (wp_run _ _ _ (wp_dequeue_wake q p n ns Hq)) as (r & q' & E & -> & Hq' & Ho & nd & Hp & Hob).
      exists p, q', n, ns, 0. split_and!; [done..| |].
      * rewrite !wait_of_waiters, Ho. unfold woken. apply Forall_cons in Hall as [[? _] _].
        rewrite (proj2 (Z.eqb_neq p 0)), Hp by lia. cbn in *. by injection Hob as ->.
      * intros _. by apply NoDup_cons in Hnd as [? _].
Qed.

Definition waitq_example : lfqueue :=
  LfQ (Aba 64 3) (Aba 96 9) {[ 64 := LfNode (Aba 96 1) 0; 96 := LfNode (Aba LFQ_NULL 5) 77;
                               128 := LfNode (Aba 5 8) 88 ]}.

Lemma lfqueue_refines_witness : exists r q' p' ns' k',
  lfqueue_dequeue true waitq_example = Done (r, q') /\ queue_at q' p' ns' k' /\
  (woken q' r, wait_of q' ns' k') = (Some 77, Waiters []).
Proof.
  assert (Hq : queue_at waitq_example 64 [96] 0).
  { split; [reflexivity|reflexivity| | | |split; [lia|reflexivity]].
    - split; eexists; (split; [vm_compute; reflexivity|reflexivity]).
    - apply NoDup_cons; split; [|apply NoDup_singleton]. rewrite list_elem_of_singleton. discriminate.
    - repeat constructor; lia. }
  destruct (proj2 (lfqueue_refines _ _ _ _ Hq ltac:(lia))) as (r & q' & p' & ns' & k' & E & Hq' & Hw & _).
  exists r, q', p', ns', k'. split; [exact E|split; [exact Hq'|exact Hw]].
Defined.
