(* ===== verification/Mutex.v ===== *)
(** * Mutexes under arbitrary interleavings (lib/libbmk_rumpuser/rumpuser_synch.c)

    The code of [rumpuser_mutex_*] is cut at its atomic accesses; each piece is
    one step of the thread that executes it, and threads interleave freely.  The
    wait queue is the abstract queue of waiters and posted wake-ups. *)

From S2P Require Import Prelude LfQueue.

(** The flag word: RUMPUSER_MTX_SPIN and RUMPUSER_MTX_KMUTEX are bits whose
    values the rump kernel's headers fix; only their presence is used. *)
Record mtx_flags := MtxFlags { MTX_SPIN : bool; MTX_KMUTEX : bool }.

Record rumpuser_mtx := Mtx {
  mx_block : waitq;
  mx_counter : Z;
  mx_owner : Z;       (* 0: NULL *)
  mx_flags : mtx_flags
}.
Definition set_mx_block (b : waitq) (m : rumpuser_mtx) : rumpuser_mtx :=
  Mtx b (mx_counter m) (mx_owner m) (mx_flags m).
Definition set_mx_counter (c : Z) (m : rumpuser_mtx) : rumpuser_mtx :=
  Mtx (mx_block m) c (mx_owner m) (mx_flags m).
Definition set_mx_owner (o : Z) (m : rumpuser_mtx) : rumpuser_mtx :=
  Mtx (mx_block m) (mx_counter m) o (mx_flags m).

Definition rumpuser_mutex_init (flags : mtx_flags) : rumpuser_mtx := Mtx (Waiters []) 0 0 flags.
Definition rumpuser_mutex_spin_p (m : rumpuser_mtx) : bool :=
  MTX_SPIN (mx_flags m).
Definition rumpuser_mutex_owner (m : rumpuser_mtx) : Z := mx_owner m.

(** Where a thread is with respect to the mutex. *)
Inductive mpc :=
| PcIdle          (* not using it *)
| PcBlocking      (* found the counter nonzero, on its way to sleep *)
| PcWaiting       (* in the wait queue *)
| PcAcquired      (* has the lock, about to store [owner] *)
| PcHeld          (* in the critical section *)
| PcReleasing     (* cleared [owner], about to decrement *)
| PcWaking.       (* decremented, about to wake a waiter *)
#[export] Instance mpc_eq_dec : EqDecision mpc.
Proof. solve_decision. Defined.

Record mtxsys := MSys { ms_mtx : rumpuser_mtx; ms_pc : gmap Z mpc }.

Inductive mact :=
| AEnter      (* rumpuser_mutex_enter: atomic_fetch_add(&counter, 1) *)
| ACallback   (* block_queue_callback, run by the next thread for this one *)
| AOwn        (* mtx->owner = owner *)
| ASpin       (* rumpuser_mutex_enter_nowrap: one round of the loop *)
| ATryEnter   (* rumpuser_mutex_tryenter *)
| AClear      (* rumpuser_mutex_exit: mtx->owner = NULL *)
| ADecrement  (* atomic_fetch_sub(&counter, 1) *)
| AWake.      (* bmk_block_queue_wake *)

(** [rumpuser_mutex_enter] up to the possible block: the flag tells to block. *)
Definition mutex_fetch_add (m : rumpuser_mtx) : bool * rumpuser_mtx :=
  (negb (mx_counter m =? 0), set_mx_counter (u64 (mx_counter m + 1)) m).
(** One round of the spin loop: load, and compare-and-swap from 0 to 1. *)
Definition mutex_spin_round (m : rumpuser_mtx) : bool * rumpuser_mtx :=
  if mx_counter m =? 0 then (true, set_mx_counter 1 m) else (false, m).
(** [rumpuser_mutex_tryenter]: 0, or BMK_EBUSY. *)
Definition BMK_EBUSY : Z := 16.
Definition mutex_try (m : rumpuser_mtx) : Z * rumpuser_mtx :=
  if negb (mx_counter m =? 0) then (BMK_EBUSY, m) else (0, set_mx_counter 1 m).
Definition mutex_fetch_sub (m : rumpuser_mtx) : bool * rumpuser_mtx :=
  (negb (mx_counter m =? 1), set_mx_counter (u64 (mx_counter m - 1)) m).
(** [block_queue_callback] for thread [t]: false when it may go on at once. *)
Definition mutex_block (t : Z) (m : rumpuser_mtx) : bool * rumpuser_mtx :=
  let '(queued, b) := wq_block t (mx_block m) in (queued, set_mx_block b m).
Definition mutex_wake (m : rumpuser_mtx) : option Z * rumpuser_mtx :=
  let '(w, b) := wq_wake (mx_block m) in (w, set_mx_block b m).

Definition goto (t : Z) (pc : mpc) (m : rumpuser_mtx) (s : mtxsys) : mtxsys :=
  MSys m (<[t := pc]> (ms_pc s)).

(** One step of thread [t]; [None] when it is not at that point. *)
Definition mtx_step (t : Z) (a : mact) (s : mtxsys) : option mtxsys :=
  let m := ms_mtx s in
  match ms_pc s !! t, a with
  | Some PcIdle, AEnter =>
      if MTX_SPIN (mx_flags m) then
        let '(ok, m) := mutex_spin_round m in
        Some (goto t (if ok then PcAcquired else PcIdle) m s)
      else if MTX_KMUTEX (mx_flags m) then
        let '(block, m) := mutex_fetch_add m in
        Some (goto t (if block then PcBlocking else PcAcquired) m s)
      else None
  | Some PcIdle, ASpin =>
      let '(ok, m) := mutex_spin_round m in Some (goto t (if ok then PcAcquired else PcIdle) m s)
  | Some PcIdle, ATryEnter =>
      let '(rc, m) := mutex_try m in Some (goto t (if rc =? 0 then PcAcquired else PcIdle) m s)
  | Some PcBlocking, ACallback =>
      let '(queued, m) := mutex_block t m in
      Some (goto t (if queued then PcWaiting else PcAcquired) m s)
  | Some PcAcquired, AOwn => Some (goto t PcHeld (set_mx_owner t m) s)
  | Some PcHeld, AClear => Some (goto t PcReleasing (set_mx_owner 0 m) s)
  | Some PcReleasing, ADecrement =>
      let '(wake, m) := mutex_fetch_sub m in
      Some (goto t (if wake then PcWaking else PcIdle) m s)
  | Some PcWaking, AWake =>
      let '(w, m) := mutex_wake m in
      let s := goto t PcIdle m s in
      Some (match w with Some t' => goto t' PcAcquired m s | None => s end)
  | _, _ => None
  end.

(** Runs from a fresh mutex and threads that do not use it. *)
Inductive mtx_reach (flags : mtx_flags) (threads : gset Z) : mtxsys -> Prop :=
| mr_init : mtx_reach flags threads
    (MSys (rumpuser_mutex_init flags) (set_to_map (fun t => (t, PcIdle)) threads))
| mr_step t a s s' : mtx_reach flags threads s -> mtx_step t a s = Some s' ->
    mtx_reach flags threads s'.

(** * Mutual exclusion and no lost wake-up *)


(** ** Counting threads by program point *)
Definition cnt (f : mpc -> bool) (pcs : gmap Z mpc) : Z :=
  Z.of_nat (size (filter (fun '(_, pc) => f pc = true) pcs)).

Lemma cnt_update f pcs t a b : pcs !! t = Some a ->
  cnt f (<[t := b]> pcs) = cnt f pcs - Z.b2z (f a) + Z.b2z (f b).
Proof.
  intros Ha.
  assert (Hins : forall (m : gmap Z mpc) c, m !! t = None -> cnt f (<[t := c]> m) = cnt f m + Z.b2z (f c)).
  { intros m c Hm. unfold cnt. destruct (f c) eqn:Ec; cbn [Z.b2z].
    - rewrite map_filter_insert_True by done. rewrite map_size_insert_None; [lia|].
      apply map_lookup_filter_None. by left.
    - rewrite map_filter_insert_False by (by rewrite Ec). rewrite delete_id by done. lia. }
  pose proof (Hins (delete t pcs) a (lookup_delete_eq _ _)) as E1. rewrite insert_delete_id in E1 by done.
  pose proof (Hins (delete t pcs) b (lookup_delete_eq _ _)) as E2. rewrite insert_delete_eq in E2. lia.
Qed.

Lemma cnt_pos f pcs t a : pcs !! t = Some a -> f a = true -> 1 <= cnt f pcs.
Proof.
  intros Ha Hf. assert (1 <= size (filter (fun '(_, pc) => f pc = true) pcs))%nat as H; [|unfold cnt; lia].
  destruct (size _) eqn:E; [|lia]. apply map_size_empty_inv in E.
  assert (H : filter (fun '(_, pc) => f pc = true) pcs !! t = Some a) by by apply map_lookup_filter_Some.
  by rewrite E, lookup_empty in H.
Qed.
Lemma cnt_nonneg f pcs : 0 <= cnt f pcs.
Proof. unfold cnt. lia. Qed.
Lemma cnt_exists f pcs : 0 < cnt f pcs -> exists t a, pcs !! t = Some a /\ f a = true.
Proof.
  intros H. destruct (map_choose (filter (fun '(_, pc) => f pc = true) pcs)) as (t & a & E).
  - intros E. unfold cnt in H. rewrite E, map_size_empty in H. lia.
  - apply map_lookup_filter_Some in E as [E Hf]. eauto.
Qed.
(** Two threads in the counted class count twice. *)
Lemma cnt_two f pcs t a t' a' : pcs !! t = Some a -> pcs !! t' = Some a' -> f a = true -> f a' = true ->
  cnt f pcs <= 1 -> t = t'.
Proof.
  intros Ha Ha' Hf Hf' Hle. destruct (decide (t = t')) as [|Hne]; [done|exfalso].
  unfold cnt in Hle. set (F := filter (fun '(_, pc) => f pc = true) pcs) in *.
  assert (H1 : F !! t = Some a) by by apply map_lookup_filter_Some.
  assert (H2 : delete t F !! t' = Some a') by (rewrite lookup_delete_ne by done; by apply map_lookup_filter_Some).
  rewrite <- (insert_delete_id F t a H1), map_size_insert_None in Hle by apply lookup_delete_eq.
  rewrite <- (insert_delete_id (delete t F) t' a' H2), map_size_insert_None in Hle by apply lookup_delete_eq. lia.
Qed.

(** ** The invariant *)
Definition in_crit (pc : mpc) : bool :=
  match pc with PcAcquired | PcHeld | PcReleasing => true | _ => false end.
Definition counted (pc : mpc) : bool :=
  match pc with PcAcquired | PcHeld | PcReleasing | PcBlocking | PcWaiting => true | _ => false end.
Definition is_waking (pc : mpc) : bool := match pc with PcWaking => true | _ => false end.

Definition posted (b : waitq) : Z := match b with Posted k => k | Waiters _ => 0 end.
Definition wq_matches (b : waitq) (pcs : gmap Z mpc) : Prop :=
  match b with
  | Waiters l => NoDup l /\ forall t, t ∈ l <-> pcs !! t = Some PcWaiting
  | Posted k => 0 < k /\ forall t, pcs !! t <> Some PcWaiting
  end.

Record mtx_inv (s : mtxsys) : Prop := {
  mi_counter : mx_counter (ms_mtx s) = cnt counted (ms_pc s);
  mi_token : cnt in_crit (ms_pc s) + cnt is_waking (ms_pc s) + posted (mx_block (ms_mtx s)) =
             if mx_counter (ms_mtx s) =? 0 then 0 else 1;
  mi_wq : wq_matches (mx_block (ms_mtx s)) (ms_pc s);
  mi_owner : forall t, ms_pc s !! t = Some PcHeld -> mx_owner (ms_mtx s) = t;
  mi_size : Z.of_nat (size (ms_pc s)) < 2 ^ 63
}.

Lemma cnt_le_size f pcs : cnt f pcs <= Z.of_nat (size pcs).
Proof.
  unfold cnt. apply inj_le. apply map_subseteq_size, map_filter_subseteq.
Qed.
Lemma size_update (pcs : gmap Z mpc) t a b : pcs !! t = Some a -> size (<[t := b]> pcs) = size pcs.
Proof. intros H. by rewrite map_size_insert_Some. Qed.

Lemma wq_frame b pcs t a c : pcs !! t = Some a -> a <> PcWaiting -> c <> PcWaiting ->
  wq_matches b pcs -> wq_matches b (<[t := c]> pcs).
Proof.
  intros Ha Hna Hnc. destruct b as [l|k]; cbn.
  - intros [Hnd Hl]. split; [done|]. intros t'. rewrite Hl. destruct (decide (t = t')) as [->|Hne].
    + rewrite Ha, lookup_insert_eq. split; congruence.
    + by rewrite lookup_insert_ne.
  - intros [Hk Hl]. split; [done|]. intros t'. destruct (decide (t = t')) as [->|Hne].
    + rewrite lookup_insert_eq. congruence.
    + by rewrite lookup_insert_ne.
Qed.

Lemma posted_nonneg b pcs : wq_matches b pcs -> 0 <= posted b.
Proof. destruct b; cbn; [done|]. intros [? _]. lia. Qed.

(** At most one thread is past the acquisition. *)
Lemma crit_le s : mtx_inv s -> cnt in_crit (ms_pc s) <= 1 /\ posted (mx_block (ms_mtx s)) <= 1.
Proof.
  intros [Hc Ht Hw _ _]. pose proof (cnt_nonneg in_crit (ms_pc s)). pose proof (cnt_nonneg is_waking (ms_pc s)).
  pose proof (posted_nonneg _ _ Hw).
  destruct (mx_counter _ =? 0); lia.
Qed.

(** Moving one thread between points that are not [PcWaiting]. *)
Lemma mtx_inv_move s t a c m : mtx_inv s -> ms_pc s !! t = Some a -> a <> PcWaiting -> c <> PcWaiting ->
  mx_block m = mx_block (ms_mtx s) ->
  mx_counter m = mx_counter (ms_mtx s) - Z.b2z (counted a) + Z.b2z (counted c) ->
  (if mx_counter m =? 0 then 0 else 1) = (if mx_counter (ms_mtx s) =? 0 then 0 else 1)
     - Z.b2z (in_crit a) + Z.b2z (in_crit c) - Z.b2z (is_waking a) + Z.b2z (is_waking c) ->
  (c = PcHeld -> mx_owner m = t) ->
  (c <> PcHeld -> in_crit a = false -> mx_owner m = mx_owner (ms_mtx s)) ->
  mtx_inv (goto t c m s).
Proof.
  intros Hi Ha Hna Hnc Eb Ec Et Ho1 Ho2. pose proof (crit_le s Hi) as [Hle _].
  destruct Hi as [Hct Htk Hw How Hsz].
  split; cbn [goto ms_mtx ms_pc].
  - rewrite (cnt_update _ _ _ _ _ Ha). lia.
  - rewrite !(cnt_update _ _ _ _ _ Ha), Eb, Et. lia.
  - rewrite Eb. by eapply wq_frame.
  - intros t'. destruct (decide (t = t')) as [->|Hne].
    + rewrite lookup_insert_eq. intros [= ->]. by apply Ho1.
    + rewrite lookup_insert_ne by done. intros Hh.
      assert (Hca : in_crit a = false).
      { destruct (in_crit a) eqn:E; [|done]. by destruct Hne; eapply (cnt_two in_crit). }
      destruct (decide (c = PcHeld)) as [->|Hnh]; [|rewrite Ho2 by done; by apply How].
      exfalso. cbn [in_crit Z.b2z] in Et. rewrite Hca in Et. cbn [Z.b2z] in Et.
      pose proof (cnt_pos in_crit _ _ _ Hh eq_refl).
      assert (Z.b2z (is_waking a) <= cnt is_waking (ms_pc s)).
      { destruct (is_waking a) eqn:E; [exact (cnt_pos is_waking _ _ _ Ha E)|apply cnt_nonneg]. }
      pose proof (posted_nonneg _ _ Hw).
      destruct a; cbn [Z.b2z is_waking in_crit] in *; try done;
        destruct (mx_counter (ms_mtx s) =? 0), (mx_counter m =? 0); lia.
  - by rewrite (size_update _ _ _ _ Ha).
Qed.

(** ** Every step keeps the invariant *)


(** With the counter at zero nobody is in or after the lock. *)
Lemma counter_zero s : mtx_inv s -> mx_counter (ms_mtx s) = 0 ->
  cnt in_crit (ms_pc s) = 0 /\ cnt is_waking (ms_pc s) = 0 /\ posted (mx_block (ms_mtx s)) = 0.
Proof.
  intros [Hc Ht Hw _ _] E. rewrite E in Ht. change (0 =? 0) with true in Ht. cbv iota in Ht.
  pose proof (cnt_nonneg in_crit (ms_pc s)). pose proof (cnt_nonneg is_waking (ms_pc s)).
  pose proof (posted_nonneg _ _ Hw). lia.
Qed.

(** Taking a free lock. *)
Lemma mtx_inv_acquire s t : mtx_inv s -> ms_pc s !! t = Some PcIdle -> mx_counter (ms_mtx s) = 0 ->
  mtx_inv (goto t PcAcquired (set_mx_counter 1 (ms_mtx s)) s).
Proof.
  intros Hi Ht Hc. eapply mtx_inv_move; try done; cbn; rewrite ?Hc; done.
Qed.
Lemma mtx_inv_stay s t : mtx_inv s -> ms_pc s !! t = Some PcIdle -> mtx_inv (goto t PcIdle (ms_mtx s) s).
Proof. intros Hi Ht. unfold goto. rewrite insert_id by done. by destruct s. Qed.

Lemma counter_range s : mtx_inv s -> 0 <= mx_counter (ms_mtx s) < 2 ^ 63.
Proof.
  intros [-> _ _ _ Hsz]. pose proof (cnt_le_size counted (ms_pc s)). pose proof (cnt_nonneg counted (ms_pc s)). lia.
Qed.

Lemma mtx_inv_enter s t : mtx_inv s -> ms_pc s !! t = Some PcIdle ->
  mtx_inv (goto t (if negb (mx_counter (ms_mtx s) =? 0) then PcBlocking else PcAcquired)
    (set_mx_counter (u64 (mx_counter (ms_mtx s) + 1)) (ms_mtx s)) s).
Proof.
  intros Hi Ht. pose proof (counter_range s Hi) as Hr.
  assert (Eu : u64 (mx_counter (ms_mtx s) + 1) = mx_counter (ms_mtx s) + 1) by (apply Z.mod_small; lia).
  rewrite Eu. destruct (Z.eqb_spec (mx_counter (ms_mtx s)) 0) as [E|E]; cbn [negb].
  - rewrite E. by apply mtx_inv_acquire.
  - eapply mtx_inv_move; try done; cbn; [lia|].
    destruct (Z.eqb_spec (mx_counter (ms_mtx s) + 1) 0), (Z.eqb_spec (mx_counter (ms_mtx s)) 0); lia.
Qed.

Lemma mtx_inv_callback s t : mtx_inv s -> ms_pc s !! t = Some PcBlocking ->
  mtx_inv (let '(queued, m) := mutex_block t (ms_mtx s) in
    goto t (if queued : bool then PcWaiting else PcAcquired) m s).
Proof.
  intros Hi Ht. pose proof (crit_le s Hi) as [_ Hple].
  pose proof Hi as [Hct Htk Hw How Hsz]. unfold mutex_block.
  destruct (mx_block (ms_mtx s)) as [l|k] eqn:Eb; cbn [wq_block].
  - destruct Hw as [Hnd Hl]. split; cbn [goto ms_mtx ms_pc set_mx_block mx_counter mx_block mx_owner].
    + rewrite (cnt_update _ _ _ _ _ Ht). cbn. lia.
    + rewrite !(cnt_update _ _ _ _ _ Ht). cbn in *. lia.
    + assert (Hnl : t ∉ l) by (intros H%Hl; congruence). split.
      * apply NoDup_app. split_and!; [done| |apply NoDup_singleton]. intros x Hx ->%list_elem_of_singleton. done.
      * intros t'. rewrite elem_of_app, list_elem_of_singleton, Hl.
        destruct (decide (t = t')) as [->|Hne]; [rewrite lookup_insert_eq; tauto|].
        rewrite lookup_insert_ne by done. split; [intros [?|?]; [done|congruence]|tauto].
    + intros t' H'. destruct (decide (t = t')) as [->|Hne]; [by rewrite lookup_insert_eq in H'|].
      rewrite lookup_insert_ne in H' by done. by apply How.
    + by rewrite (size_update _ _ _ _ Ht).
  - destruct Hw as [Hk Hl]. cbn in Hple. assert (k = 1) as -> by lia. rewrite decide_True by done.
    pose proof (cnt_nonneg in_crit (ms_pc s)). pose proof (cnt_nonneg is_waking (ms_pc s)). cbn in Htk.
    assert (Hc0 : cnt in_crit (ms_pc s) = 0) by (destruct (mx_counter _ =? 0); lia).
    split; cbn [goto ms_mtx ms_pc set_mx_block mx_counter mx_block mx_owner].
    + rewrite (cnt_update _ _ _ _ _ Ht). cbn. lia.
    + rewrite !(cnt_update _ _ _ _ _ Ht). cbn in *. lia.
    + split; [constructor|]. intros t'. rewrite elem_of_nil. split; [done|].
      destruct (decide (t = t')) as [->|Hne]; [by rewrite lookup_insert_eq|].
      rewrite lookup_insert_ne by done. by intros ?%Hl.
    + intros t' H'. destruct (decide (t = t')) as [->|Hne]; [by rewrite lookup_insert_eq in H'|].
      rewrite lookup_insert_ne in H' by done. pose proof (cnt_pos in_crit _ _ _ H' eq_refl). lia.
    + by rewrite (size_update _ _ _ _ Ht).
Qed.

Lemma mtx_inv_decrement s t : mtx_inv s -> ms_pc s !! t = Some PcReleasing ->
  mtx_inv (let '(wake, m) := mutex_fetch_sub (ms_mtx s) in
    goto t (if wake : bool then PcWaking else PcIdle) m s).
Proof.
  intros Hi Ht. pose proof (counter_range s Hi) as Hr. pose proof Hi as [Hct _ _ _ _].
  pose proof (cnt_pos counted _ _ _ Ht eq_refl) as Hp. unfold mutex_fetch_sub.
  assert (Eu : u64 (mx_counter (ms_mtx s) - 1) = mx_counter (ms_mtx s) - 1) by (apply Z.mod_small; lia).
  rewrite Eu. destruct (Z.eqb_spec (mx_counter (ms_mtx s)) 1) as [E|E]; cbn [negb].
  - eapply mtx_inv_move; try done; cbn; [lia|]. by rewrite E.
  - eapply mtx_inv_move; try done; cbn; [lia|].
    destruct (Z.eqb_spec (mx_counter (ms_mtx s) - 1) 0), (Z.eqb_spec (mx_counter (ms_mtx s)) 0); lia.
Qed.

Lemma mtx_inv_wake s t : mtx_inv s -> ms_pc s !! t = Some PcWaking ->
  mtx_inv (let '(w, m) := mutex_wake (ms_mtx s) in
    let s := goto t PcIdle m s in
    match w with Some t' => goto t' PcAcquired m s | None => s end).
Proof.
  intros Hi Ht. pose proof Hi as [Hct Htk Hw How Hsz]. unfold mutex_wake.
  pose proof (cnt_nonneg in_crit (ms_pc s)) as Hn. pose proof (cnt_pos is_waking _ _ _ Ht eq_refl) as Hwk.
  pose proof (posted_nonneg _ _ Hw) as Hpn.
  assert (Hz : cnt in_crit (ms_pc s) = 0 /\ posted (mx_block (ms_mtx s)) = 0 /\ cnt is_waking (ms_pc s) = 1)
    by (destruct (mx_counter _ =? 0); lia). destruct Hz as (Hc0 & Hp0 & Hw1).
  assert (Hnoheld : forall t', ms_pc s !! t' <> Some PcHeld).
  { intros t' H'. pose proof (cnt_pos in_crit _ _ _ H' eq_refl). lia. }
  destruct (mx_block (ms_mtx s)) as [[|t' l]|k] eqn:Eb; cbn [wq_wake]; [| |cbn in Hw, Hp0; lia].
  - destruct Hw as [_ Hl]. split; cbn [goto ms_mtx ms_pc set_mx_block mx_counter mx_block mx_owner].
    + rewrite (cnt_update _ _ _ _ _ Ht). cbn. lia.
    + rewrite !(cnt_update _ _ _ _ _ Ht). cbn in *. lia.
    + split; [lia|]. intros t'. destruct (decide (t = t')) as [->|Hne]; [by rewrite lookup_insert_eq|].
      rewrite lookup_insert_ne by done. intros H'%Hl. by apply elem_of_nil in H'.
    + intros t' H'. destruct (decide (t = t')) as [->|Hne]; [by rewrite lookup_insert_eq in H'|].
      rewrite lookup_insert_ne in H' by done. by destruct (Hnoheld t').
    + by rewrite (size_update _ _ _ _ Ht).
  - destruct Hw as [[Hnl Hnd]%NoDup_cons Hl].
    assert (Hwt : ms_pc s !! t' = Some PcWaiting) by (apply Hl; by left).
    assert (Hne : t <> t') by congruence.
    assert (Hwt' : <[t := PcIdle]> (ms_pc s) !! t' = Some PcWaiting) by by rewrite lookup_insert_ne.
    split; cbn [goto ms_mtx ms_pc set_mx_block mx_counter mx_block mx_owner].
    + rewrite (cnt_update _ _ _ _ _ Hwt'), (cnt_update _ _ _ _ _ Ht). cbn. lia.
    + rewrite !(cnt_update _ _ _ _ _ Hwt'), !(cnt_update _ _ _ _ _ Ht). cbn in *. lia.
    + split; [done|]. intros x. destruct (decide (t' = x)) as [->|Hx].
      { rewrite lookup_insert_eq. split; [done|congruence]. }
      rewrite lookup_insert_ne by done. destruct (decide (t = x)) as [->|Hx'].
      { rewrite lookup_insert_eq. split; [|congruence]. intros Hin.
        assert (ms_pc s !! x = Some PcWaiting) by (apply Hl; by right). congruence. }
      rewrite lookup_insert_ne, <- Hl, elem_of_cons by done. split; [by right|]. intros [->|?]; done.
    + intros x H'. destruct (decide (t' = x)) as [->|Hx]; [by rewrite lookup_insert_eq in H'|].
      rewrite lookup_insert_ne in H' by done.
      destruct (decide (t = x)) as [->|Hx']; [by rewrite lookup_insert_eq in H'|].
      rewrite lookup_insert_ne in H' by done. by destruct (Hnoheld x).
    + by rewrite (size_update _ _ _ _ Hwt'), (size_update _ _ _ _ Ht).
Qed.

Lemma mtx_step_inv t a s s' : mtx_inv s -> mtx_step t a s = Some s' -> mtx_inv s'.
Proof.
  intros Hi. unfold mtx_step. destruct (ms_pc s !! t) as [pc|] eqn:Ht; [|done].
  assert (Hspin : forall s', (let '(ok, m) := mutex_spin_round (ms_mtx s) in
     Some (goto t (if ok : bool then PcAcquired else PcIdle) m s)) = Some s' -> pc = PcIdle -> mtx_inv s').
  { unfold mutex_spin_round. intros x. destruct (Z.eqb_spec (mx_counter (ms_mtx s)) 0);
      intros [= <-] ->; [by apply mtx_inv_acquire|by apply mtx_inv_stay]. }
  destruct pc, a; try done; intros H.
  - destruct (MTX_SPIN _); [by apply Hspin|]. destruct (MTX_KMUTEX _); [|done].
    injection H as <-. by apply mtx_inv_enter.
  - by apply Hspin.
  - unfold mutex_try in H. destruct (Z.eqb_spec (mx_counter (ms_mtx s)) 0); cbn in H; injection H as <-;
      [by apply mtx_inv_acquire|by apply mtx_inv_stay].
  - pose proof (mtx_inv_callback s t Hi Ht) as Hc. destruct (mutex_block t (ms_mtx s)). by injection H as <-.
  - injection H as <-. eapply mtx_inv_move; try done; cbn; lia.
  - injection H as <-. eapply mtx_inv_move; try done; cbn; lia.
  - pose proof (mtx_inv_decrement s t Hi Ht) as Hc. destruct (mutex_fetch_sub (ms_mtx s)). by injection H as <-.
  - pose proof (mtx_inv_wake s t Hi Ht) as Hc. destruct (mutex_wake (ms_mtx s)). by injection H as <-.
Qed.

Lemma cnt_all_false f pcs : (forall t pc, pcs !! t = Some pc -> f pc = false) -> cnt f pcs = 0.
Proof.
  intros H. pose proof (cnt_nonneg f pcs). destruct (Z.eq_dec (cnt f pcs) 0) as [|Hne]; [done|].
  destruct (cnt_exists f pcs) as (t & pc & Hp & Hf); [lia|]. by rewrite (H t pc Hp) in Hf.
Qed.

Lemma mtx_inv_init flags (threads : gset Z) : Z.of_nat (size threads) < 2 ^ 63 ->
  mtx_inv (MSys (rumpuser_mutex_init flags) (set_to_map (fun t => (t, PcIdle)) threads)).
Proof.
  intros Hsz. set (pcs := set_to_map (fun t : Z => (t, PcIdle)) threads : gmap Z mpc).
  assert (Hidle : forall t pc, pcs !! t = Some pc -> pc = PcIdle).
  { intros t pc H. apply lookup_set_to_map in H as (t' & _ & [= _ ->]); [done|]. by intros ? ? _ _ ?. }
  assert (Hz : forall f, f PcIdle = false -> cnt f pcs = 0).
  { intros f Hf. apply cnt_all_false. intros t pc H. by rewrite (Hidle t pc H). }
  split; cbn [ms_mtx ms_pc rumpuser_mutex_init mx_counter mx_block mx_owner].
  - by rewrite Hz.
  - by rewrite !Hz.
  - split; [constructor|]. intros t. rewrite elem_of_nil. split; [done|]. by intros ?%Hidle.
  - by intros t ?%Hidle.
  - unfold pcs. assert (E : dom (set_to_map (fun t : Z => (t, PcIdle)) threads : gmap Z mpc) = threads).
    { apply set_eq. intros t. rewrite elem_of_dom. split.
      - intros [pc H]. apply lookup_set_to_map in H as (t' & Ht' & E'); [injection E' as E' _; by subst t'|]. by intros ? ? _ _ ?.
      - intros Ht. exists PcIdle. apply lookup_set_to_map; [by intros ? ? _ _ ?|]. eauto. }
    rewrite <- size_dom, E. done.
Qed.

Lemma mtx_reach_inv flags threads s : Z.of_nat (size threads) < 2 ^ 63 -> mtx_reach flags threads s -> mtx_inv s.
Proof.
  intros Hsz. induction 1; [by apply mtx_inv_init|]. by eapply mtx_step_inv.
Qed.

(** C15. Mutual exclusion: in every interleaving of any number of threads that
    enter (sleeping, spinning or trying) and leave a mutex, at most one thread
    is between acquiring it and releasing it, and [owner] names the thread in
    the critical section. *)
Theorem mutex_exclusion flags threads s t t' pc pc' :
  Z.of_nat (size threads) < 2 ^ 63 -> mtx_reach flags threads s ->
  ms_pc s !! t = Some pc -> ms_pc s !! t' = Some pc' -> in_crit pc = true -> in_crit pc' = true ->
  t = t' /\ (pc = PcHeld -> rumpuser_mutex_owner (ms_mtx s) = t).
Proof.
  intros Hsz Hr H H' Hc Hc'. pose proof (mtx_reach_inv _ _ _ Hsz Hr) as Hi. split.
  - eapply (cnt_two in_crit); try done. by apply crit_le.
  - intros ->. by apply Hi.
Qed.

(** C18. No wake-up is lost: whenever some thread sleeps on the mutex or is about
    to, there is a thread that has it or is about to wake a sleeper; or else the
    wake-up is already posted, nobody sleeps, and whoever is about to sleep will
    take the mutex instead.  When nobody uses it the mutex is free and no
    wake-up is left over. *)
Theorem mutex_no_lost_wakeup flags threads s :
  Z.of_nat (size threads) < 2 ^ 63 -> mtx_reach flags threads s ->
  (forall t pc, ms_pc s !! t = Some pc -> pc = PcBlocking \/ pc = PcWaiting ->
     (exists t' pc', ms_pc s !! t' = Some pc' /\ (in_crit pc' = true \/ pc' = PcWaking)) \/
     ((forall t', ms_pc s !! t' <> Some PcWaiting) /\
      forall t', ms_pc s !! t' = Some PcBlocking ->
        exists s', mtx_step t' ACallback s = Some s' /\ ms_pc s' !! t' = Some PcAcquired)) /\
  ((forall t pc, ms_pc s !! t = Some pc -> pc = PcIdle) ->
     mx_counter (ms_mtx s) = 0 /\ mx_block (ms_mtx s) = Waiters []).
Proof.
  intros Hsz Hr. pose proof (mtx_reach_inv _ _ _ Hsz Hr) as Hi. pose proof Hi as [Hct Htk Hw _ _].
  pose proof (cnt_nonneg in_crit (ms_pc s)). pose proof (cnt_nonneg is_waking (ms_pc s)).
  pose proof (posted_nonneg _ _ Hw). split.
  - intros t pc Ht Hpc.
    assert (Hpos : 1 <= mx_counter (ms_mtx s)) by (rewrite Hct; apply (cnt_pos _ _ t pc Ht); by destruct Hpc as [->| ->]).
    rewrite (proj2 (Z.eqb_neq _ 0)) in Htk by lia.
    destruct (Z.eq_dec (cnt in_crit (ms_pc s)) 0) as [E1|E1].
    + destruct (Z.eq_dec (cnt is_waking (ms_pc s)) 0) as [E2|E2].
      * right. destruct (mx_block (ms_mtx s)) as [l|k] eqn:Eb; [cbn in *; lia|]. destruct Hw as [Hk Hnw].
        split; [done|]. intros t' Ht'. unfold mtx_step. rewrite Ht'. unfold mutex_block. rewrite Eb. cbn [wq_block].
        eexists. split; [done|]. apply lookup_insert_eq.
      * left. destruct (cnt_exists is_waking (ms_pc s)) as (t' & pc' & Hp' & Hf); [lia|].
        exists t', pc'. split; [done|]. right. by destruct pc'.
    + left. destruct (cnt_exists in_crit (ms_pc s)) as (t' & pc' & Hp' & Hf); [lia|].
      exists t', pc'. split; [done|by left].
  - intros Hall.
    assert (Hz : forall f, f PcIdle = false -> cnt f (ms_pc s) = 0).
    { intros f Hf. apply cnt_all_false. intros t pc Hp. by rewrite (Hall t pc Hp). }
    rewrite (Hz counted) in Hct by done. split; [done|].
    rewrite Hct in Htk. rewrite (Hz in_crit), (Hz is_waking) in Htk by done. cbn in Htk.
    destruct (mx_block (ms_mtx s)) as [[|t l]|k]; cbn in *; [done| |lia].
    destruct Hw as [_ Hl]. assert (Hin : ms_pc s !! t = Some PcWaiting) by (apply Hl; by left).
    by apply Hall in Hin.
Qed.

(** Thread 1 takes the mutex, 2 and 3 sleep, 1 releases and wakes 2. *)
Definition mtx_script : list (Z * mact) :=
  [(1, AEnter); (1, AOwn); (2, AEnter); (3, AEnter); (2, ACallback); (1, AClear);
   (1, ADecrement); (1, AWake); (2, AOwn)].
Definition mtx_threads : gset Z := {[1; 2; 3]}.
Definition mtx_start : mtxsys :=
  MSys (rumpuser_mutex_init (MtxFlags false true)) (set_to_map (fun t => (t, PcIdle)) mtx_threads).
Fixpoint mtx_play (l : list (Z * mact)) (s : mtxsys) : option mtxsys :=
  match l with [] => Some s | (t, a) :: l => s' ← mtx_step t a s; mtx_play l s' end.

Lemma mtx_play_reach flags threads l : forall s s', mtx_reach flags threads s -> mtx_play l s = Some s' ->
  mtx_reach flags threads s'.
Proof.
  induction l as [|[t a] l IH]; intros s s' Hr E; [by injection E as <-|].
  cbn in E. destruct (mtx_step t a s) as [s1|] eqn:E1; [|done]. eapply IH; [|exact E]. by eapply mr_step.
Qed.

Lemma mtx_script_state : exists s, mtx_play mtx_script mtx_start = Some s /\
  mtx_reach (MtxFlags false true) mtx_threads s /\ Z.of_nat (size mtx_threads) < 2 ^ 63 /\
  ms_pc s !! 2 = Some PcHeld /\ ms_pc s !! 3 = Some PcBlocking.
Proof.
  destruct (mtx_play mtx_script mtx_start) as [s|] eqn:E; [|by vm_compute in E].
  exists s. split; [done|]. split; [eapply mtx_play_reach; [apply mr_init|exact E]|].
  split; [by vm_compute|]. vm_compute in E. injection E as <-. split; vm_compute; reflexivity.
Qed.

Lemma mutex_exclusion_witness : exists s, mtx_play mtx_script mtx_start = Some s /\
  rumpuser_mutex_owner (ms_mtx s) = 2.
Proof.
  destruct mtx_script_state as (s & E & Hr & Hsz & H2 & _). exists s. split; [exact E|].
  exact (proj2 (mutex_exclusion _ _ s 2 2 PcHeld PcHeld Hsz Hr H2 H2 eq_refl eq_refl) eq_refl).
Defined.

Lemma mutex_no_lost_wakeup_witness : exists s t' pc', mtx_play mtx_script mtx_start = Some s /\
  ms_pc s !! 3 = Some PcBlocking /\ ms_pc s !! t' = Some pc' /\ pc' <> PcBlocking.
Proof.
  destruct mtx_script_state as (s & E & Hr & Hsz & H2 & H3).
  destruct (proj1 (mutex_no_lost_wakeup _ _ s Hsz Hr) 3 _ H3 (or_introl eq_refl))
    as [(t' & pc' & Hp & Hf)|[_ Hb]].
  - exists s, t', pc'. split; [exact E|split; [exact H3|split; [exact Hp|]]]. intros ->.
    destruct Hf as [Hf|Hf]; discriminate Hf.
  - exists s, 2, PcHeld. split; [exact E|split; [exact H3|split; [exact H2|discriminate]]].
Defined.
