(* ===== verification/RwLock.v ===== *)
(** * Reader/writer locks (lib/libbmk_rumpuser/rumpuser_synch.c)

    Built from two mutexes and two atomic words.  The operations are modelled
    for a thread that runs alone: where the code would put it to sleep the run
    halts. *)

From S2P Require Import Prelude LfQueue Mutex.

(** ** The mutex operations of a thread [me] that runs alone *)
Definition rumpuser_mutex_enter (me : Z) : M rumpuser_mtx unit :=
  m <-- mget ;;
  if MTX_SPIN (mx_flags m) then
    let '(ok, m) := mutex_spin_round m in
    if ok : bool then mput (set_mx_owner me m) else mhalt "spins"
  else
    massert (MTX_KMUTEX (mx_flags m)) "RUMPUSER_MTX_KMUTEX" ;;;
    let '(block, m) := mutex_fetch_add m in
    if block : bool then mhalt "sleeps" else mput (set_mx_owner me m).
Definition rumpuser_mutex_tryenter (me : Z) : M rumpuser_mtx Z :=
  m <-- mget ;;
  let '(rc, m) := mutex_try m in
  if rc =? 0 then mput (set_mx_owner me m) ;;; cret 0 else cret rc.
Definition rumpuser_mutex_exit : M rumpuser_mtx unit :=
  modify (set_mx_owner 0) ;;;
  m <-- mget ;;
  let '(wake, m) := mutex_fetch_sub m in
  mput m ;;;
  if wake : bool then modify (fun m => snd (mutex_wake m)) else cret tt.
Definition rumpuser_mutex_destroy : M rumpuser_mtx unit :=
  m <-- mget ;; massert (mx_owner m =? 0) "mtx->owner == NULL".

(** ** The lock *)
Inductive lock_rw_type := LOCK_RW_UNKNOWN | LOCK_RW_WRITER | LOCK_RW_READER.
#[export] Instance lock_rw_type_eq_dec : EqDecision lock_rw_type.
Proof. solve_decision. Defined.
Inductive rumprwlock := RUMPUSER_RW_READER | RUMPUSER_RW_WRITER.

Record rumpuser_rw := RW {
  access_mtx : rumpuser_mtx;
  wait_mtx : rumpuser_mtx;
  rw_readers : Z;
  rw_type : lock_rw_type
}.
Definition set_access (m : rumpuser_mtx) (r : rumpuser_rw) : rumpuser_rw :=
  RW m (wait_mtx r) (rw_readers r) (rw_type r).
Definition set_wait (m : rumpuser_mtx) (r : rumpuser_rw) : rumpuser_rw :=
  RW (access_mtx r) m (rw_readers r) (rw_type r).
Definition set_readers (n : Z) (r : rumpuser_rw) : rumpuser_rw :=
  RW (access_mtx r) (wait_mtx r) n (rw_type r).
Definition set_type (t : lock_rw_type) (r : rumpuser_rw) : rumpuser_rw :=
  RW (access_mtx r) (wait_mtx r) (rw_readers r) t.
Definition on_access {A} (m : M rumpuser_mtx A) : M rumpuser_rw A := zoom access_mtx set_access m.
Definition on_wait {A} (m : M rumpuser_mtx A) : M rumpuser_rw A := zoom wait_mtx set_wait m.

Definition rumpuser_rw_init : rumpuser_rw :=
  RW (rumpuser_mutex_init (MtxFlags false true)) (rumpuser_mutex_init (MtxFlags false true))
     0 LOCK_RW_UNKNOWN.

(** atomic_fetch_add and atomic_fetch_sub on [readers]. *)
Definition readers_add (d : Z) : M rumpuser_rw Z :=
  r <-- mget ;; mput (set_readers (u64 (rw_readers r + d)) r) ;;; cret (rw_readers r).

Definition rumpuser_rw_enter (me : Z) (type : rumprwlock) : M rumpuser_rw unit :=
  on_wait (rumpuser_mutex_enter me) ;;;
  match type with
  | RUMPUSER_RW_WRITER =>
      on_access (rumpuser_mutex_enter me) ;;; modify (set_type LOCK_RW_WRITER)
  | RUMPUSER_RW_READER =>
      old <-- readers_add 1 ;;
      if old =? 0 then
        on_access (rumpuser_mutex_enter me) ;;; modify (set_type LOCK_RW_READER)
      else cret tt
  end ;;;
  on_wait rumpuser_mutex_exit.

(** The do-while loop of the reader case: the error code, 0 when it got in. *)
Definition rw_tryenter_reader (me : Z) : M rumpuser_rw Z :=
  r <-- mget ;;
  loopM (fun readers =>
    rc <-- (if readers =? 0 then
              rc <-- on_access (rumpuser_mutex_tryenter me) ;;
              if negb (rc =? 0) then cret rc else
              modify (set_readers 1) ;;; modify (set_type LOCK_RW_READER) ;;; cret 0
            else cret 0) ;;
    if negb (rc =? 0) then cret (inr rc) else
    r <-- mget ;;
    if rw_readers r =? readers
    then mput (set_readers (u64 (readers + 1)) r) ;;; cret (inr 0)
    else cret (inl (rw_readers r))) (rw_readers r).

Definition rumpuser_rw_tryenter (me : Z) (type : rumprwlock) : M rumpuser_rw Z :=
  rc <-- on_wait (rumpuser_mutex_tryenter me) ;;
  if negb (rc =? 0) then cret rc else
  rc <-- match type with
         | RUMPUSER_RW_WRITER =>
             rc <-- on_access (rumpuser_mutex_tryenter me) ;;
             if negb (rc =? 0) then cret rc else modify (set_type LOCK_RW_WRITER) ;;; cret 0
         | RUMPUSER_RW_READER => rw_tryenter_reader me
         end ;;
  on_wait rumpuser_mutex_exit ;;; cret rc.

Definition rumpuser_rw_exit : M rumpuser_rw unit :=
  r <-- mget ;;
  last <-- (if decide (rw_type r = LOCK_RW_WRITER) then cret true
            else old <-- readers_add (-1) ;; cret (old =? 1)) ;;
  if last : bool then modify (set_type LOCK_RW_UNKNOWN) ;;; on_access rumpuser_mutex_exit
  else cret tt.

Definition rumpuser_rw_destroy : M rumpuser_rw unit :=
  on_wait rumpuser_mutex_destroy ;;; on_access rumpuser_mutex_destroy.

Definition rumpuser_rw_held (type : rumprwlock) (r : rumpuser_rw) : bool :=
  match type with
  | RUMPUSER_RW_WRITER => bool_decide (rw_type r = LOCK_RW_WRITER)
  | RUMPUSER_RW_READER => bool_decide (rw_type r = LOCK_RW_READER)
  end.

Definition rumpuser_rw_downgrade : M rumpuser_rw unit :=
  modify (set_type LOCK_RW_READER) ;;;
  old <-- readers_add 1 ;;
  if negb (old =? 0) then on_access rumpuser_mutex_exit else cret tt.

Definition rumpuser_rw_tryupgrade : M rumpuser_rw Z :=
  r <-- mget ;;
  if rw_readers r =? 1 then
    mput (set_readers 0 r) ;;; modify (set_type LOCK_RW_WRITER) ;;; cret 0
  else cret BMK_EBUSY.

(** ** What a reader/writer lock is *)
Inductive rwstate := RwFree | RwWriter | RwReaders (n : Z).
Inductive rwop := OpEnter (t : rumprwlock) | OpTryEnter (t : rumprwlock) | OpExit | OpDowngrade | OpTryUpgrade.

(** The answer and the next state; [None] when the call would wait or is not
    allowed in this state. *)
Definition rw_spec (op : rwop) (st : rwstate) : option (Z * rwstate) :=
  match op, st with
  | OpEnter RUMPUSER_RW_WRITER, RwFree => Some (0, RwWriter)
  | OpEnter RUMPUSER_RW_READER, RwFree => Some (0, RwReaders 1)
  | OpEnter RUMPUSER_RW_READER, RwReaders n => Some (0, RwReaders (n + 1))
  | OpEnter _, _ => None
  | OpTryEnter RUMPUSER_RW_WRITER, RwFree => Some (0, RwWriter)
  | OpTryEnter RUMPUSER_RW_READER, RwFree => Some (0, RwReaders 1)
  | OpTryEnter RUMPUSER_RW_READER, RwReaders n => Some (0, RwReaders (n + 1))
  | OpTryEnter _, st => Some (BMK_EBUSY, st)
  | OpExit, RwWriter => Some (0, RwFree)
  | OpExit, RwReaders n => Some (0, if n =? 1 then RwFree else RwReaders (n - 1))
  | OpExit, RwFree => None
  | OpDowngrade, RwWriter => Some (0, RwReaders 1)
  | OpDowngrade, _ => None
  | OpTryUpgrade, RwReaders n => Some (if n =? 1 then (0, RwWriter) else (BMK_EBUSY, st))
  | OpTryUpgrade, _ => None
  end.

Definition rw_run (me : Z) (op : rwop) : M rumpuser_rw Z :=
  match op with
  | OpEnter t => rumpuser_rw_enter me t ;;; cret 0
  | OpTryEnter t => rumpuser_rw_tryenter me t
  | OpExit => rumpuser_rw_exit ;;; cret 0
  | OpDowngrade => rumpuser_rw_downgrade ;;; cret 0
  | OpTryUpgrade => rumpuser_rw_tryupgrade
  end.

Definition mtx_free (m : rumpuser_mtx) : Prop :=
  mx_counter m = 0 /\ mx_block m = Waiters [] /\ mx_flags m = MtxFlags false true /\ mx_owner m = 0.
Definition mtx_taken (m : rumpuser_mtx) : Prop :=
  mx_counter m = 1 /\ mx_block m = Waiters [] /\ mx_flags m = MtxFlags false true.

Definition rw_rep (r : rumpuser_rw) (st : rwstate) : Prop :=
  mtx_free (wait_mtx r) /\
  match st with
  | RwFree => mtx_free (access_mtx r) /\ rw_readers r = 0 /\ rw_type r = LOCK_RW_UNKNOWN
  | RwWriter => mtx_taken (access_mtx r) /\ rw_readers r = 0 /\ rw_type r = LOCK_RW_WRITER
  | RwReaders n => mtx_taken (access_mtx r) /\ rw_readers r = n /\ 0 < n < 2 ^ 62 /\ rw_type r = LOCK_RW_READER
  end.

(** * Reader/writer locks: what holds and what does not *)


Lemma wp_mput {St} (s0 : St) (Q : unit -> St -> Prop) s : Q tt s0 -> wp (mput s0) Q s.
Proof. exact id. Qed.

Lemma wp_enter_free me m (Q : unit -> rumpuser_mtx -> Prop) : mtx_free m ->
  (forall m', mtx_taken m' -> Q tt m') -> wp (rumpuser_mutex_enter me) Q m.
Proof.
  intros (Hc & Hb & Hf & _) HQ. unfold rumpuser_mutex_enter. apply wp_bind, wp_get. rewrite Hf. cbn [MTX_SPIN MTX_KMUTEX].
  apply wp_bind, wp_assert; [done|]. unfold mutex_fetch_add. rewrite Hc. cbn [negb Z.eqb].
  apply wp_mput, HQ. by split_and!.
Qed.
Lemma wp_try_free me m (Q : Z -> rumpuser_mtx -> Prop) : mtx_free m ->
  (forall m', mtx_taken m' -> Q 0 m') -> wp (rumpuser_mutex_tryenter me) Q m.
Proof.
  intros (Hc & Hb & Hf & _) HQ. unfold rumpuser_mutex_tryenter, mutex_try. apply wp_bind, wp_get.
  rewrite Hc. cbn [negb Z.eqb]. apply wp_bind, wp_mput, wp_ret, HQ. by split_and!.
Qed.
Lemma wp_try_taken me m (Q : Z -> rumpuser_mtx -> Prop) : mtx_taken m ->
  Q BMK_EBUSY m -> wp (rumpuser_mutex_tryenter me) Q m.
Proof.
  intros (Hc & Hb & Hf) HQ. unfold rumpuser_mutex_tryenter, mutex_try. apply wp_bind, wp_get.
  rewrite Hc. cbn [negb Z.eqb]. change (BMK_EBUSY =? 0) with false. cbv iota. by apply wp_ret.
Qed.
Lemma wp_exit_taken m (Q : unit -> rumpuser_mtx -> Prop) : mtx_taken m ->
  (forall m', mtx_free m' -> Q tt m') -> wp rumpuser_mutex_exit Q m.
Proof.
  intros (Hc & Hb & Hf) HQ. unfold rumpuser_mutex_exit, mutex_fetch_sub. apply wp_bind, wp_modify.
  apply wp_bind, wp_get. cbn [mx_counter set_mx_owner]. rewrite Hc. cbn [negb Z.eqb].
  apply wp_bind, wp_mput, wp_ret, HQ. by split_and!.
Qed.

(** Leaving the wait mutex at the end of an operation. *)
Lemma wp_leave_wait {A} (a : A) r st (Q : A -> rumpuser_rw -> Prop) :
  mtx_taken (wait_mtx r) ->
  (forall w, mtx_free w -> rw_rep (set_wait w r) st) -> (forall r', rw_rep r' st -> Q a r') ->
  wp (on_wait rumpuser_mutex_exit ;;; cret a) Q r.
Proof.
  intros Hw Hrep HQ. apply wp_bind, wp_zoom. apply wp_exit_taken; [done|].
  intros w Hfree. apply wp_ret, HQ, Hrep, Hfree.
Qed.

Lemma u64_id x : 0 <= x < 2 ^ 64 -> u64 x = x.
Proof. apply Z.mod_small. Qed.

Lemma wp_rw_enter me t r st st' : rw_rep r st -> rw_spec (OpEnter t) st = Some (0, st') ->
  (forall n, st = RwReaders n -> n + 1 < 2 ^ 62) ->
  wp (rumpuser_rw_enter me t) (fun _ r' => rw_rep r' st') r.
Proof.
  intros [Hw Hr] Hsp Hbig. unfold rumpuser_rw_enter. apply wp_bind, wp_zoom. apply wp_enter_free; [done|]. intros w Hwt.
  assert (Hend : forall r1 : rumpuser_rw, mtx_taken (wait_mtx r1) ->
    (forall w, mtx_free w -> rw_rep (set_wait w r1) st') ->
    wp (on_wait rumpuser_mutex_exit) (fun _ r' => rw_rep r' st') r1).
  { intros r1 H1 H2. apply wp_zoom, wp_exit_taken; [done|]. intros w' Hf. by apply H2. }
  destruct t, st as [| |n]; try discriminate Hsp; injection Hsp as <-.
  - destruct Hr as (Ha & Hn & Ht). apply wp_bind, wp_bind, wp_bind, wp_get. apply wp_bind, wp_mput, wp_ret.
    cbn [set_wait rw_readers]. rewrite Hn. cbn [Z.eqb]. apply wp_bind, wp_zoom. apply wp_enter_free; [done|].
    intros a Hat. apply wp_modify, Hend; [done|]. intros w' Hf. by split_and!.
  - destruct Hr as (Ha & Hn & Hpos & Ht). specialize (Hbig n eq_refl).
    apply wp_bind, wp_bind, wp_bind, wp_get. apply wp_bind, wp_mput, wp_ret.
    cbn [set_wait rw_readers]. rewrite Hn. destruct (Z.eqb_spec n 0); [lia|].
    apply wp_ret, Hend; [done|]. intros w' Hf. cbn. rewrite u64_id by lia. split_and!; try done; lia.
  - destruct Hr as (Ha & Hn & Ht). apply wp_bind, wp_bind, wp_zoom. apply wp_enter_free; [done|].
    intros a Hat. apply wp_modify, Hend; [done|]. intros w' Hf. by split_and!.
Qed.

Lemma wp_rw_tryenter me t r st rc st' : rw_rep r st -> rw_spec (OpTryEnter t) st = Some (rc, st') ->
  (t = RUMPUSER_RW_READER -> st <> RwFree) ->
  (forall n, st = RwReaders n -> n + 1 < 2 ^ 62) ->
  wp (rumpuser_rw_tryenter me t) (fun rc' r' => rc' = rc /\ rw_rep r' st') r.
Proof.
  intros [Hw Hr] Hsp Hnf Hbig. unfold rumpuser_rw_tryenter. apply wp_bind, wp_zoom.
  apply wp_try_free; [done|]. intros w Hwt. cbn [negb Z.eqb].
  destruct t, st as [| |n]; try discriminate Hsp; injection Hsp as <- <-.
  - by destruct (Hnf eq_refl).
  - destruct Hr as (Ha & Hn & Ht). unfold rw_tryenter_reader. apply wp_bind, wp_bind, wp_get. cbn [set_wait rw_readers].
    eapply (wp_mono _ (fun rc r' => rc = BMK_EBUSY /\ r' = set_wait w r)).
    { apply (wp_loop _ (fun n r' => n = 0 /\ r' = set_wait w r) (fun _ _ => 0)); [|by rewrite Hn|lia].
      intros n r' [-> ->]. split; [lia|]. cbn [Z.eqb]. apply wp_bind, wp_bind, wp_zoom. apply wp_try_taken; [done|].
      change (BMK_EBUSY =? 0) with false. cbn [negb]. apply wp_ret. change (BMK_EBUSY =? 0) with false. cbn [negb].
      apply wp_ret. split; [done|]. by destruct r. }
    intros rc r' [-> ->]. apply (wp_leave_wait _ _ RwWriter); [done| |done]. intros w' Hf. by split_and!.
  - destruct Hr as (Ha & Hn & Hpos & Ht). specialize (Hbig n eq_refl). unfold rw_tryenter_reader.
    apply wp_bind, wp_bind, wp_get. cbn [set_wait rw_readers].
    eapply (wp_mono _ (fun rc r' => rc = 0 /\ r' = set_readers (n + 1) (set_wait w r))).
    { apply (wp_loop _ (fun k r' => k = n /\ r' = set_wait w r) (fun _ _ => 0)); [|done|lia].
      intros k r' [-> ->]. split; [lia|]. destruct (Z.eqb_spec n 0); [lia|]. apply wp_bind, wp_ret. cbn [negb Z.eqb].
      apply wp_bind, wp_get. cbn [set_wait rw_readers]. rewrite Hn, Z.eqb_refl.
      apply wp_bind, wp_mput, wp_ret. by rewrite u64_id by lia. }
    intros rc r' [-> ->]. apply (wp_leave_wait _ _ (RwReaders (n + 1))); [done| |done].
    intros w' Hf. split; [done|]. cbn. split_and!; try done; lia.
  - destruct Hr as (Ha & Hn & Ht). apply wp_bind, wp_bind, wp_zoom. apply wp_try_free; [done|].
    intros a Hat. cbn [negb Z.eqb]. apply wp_bind, wp_modify, wp_ret.
    apply (wp_leave_wait _ _ RwWriter); [done| |done]. intros w' Hf. by split_and!.
  - destruct Hr as (Ha & Hn & Ht). apply wp_bind, wp_bind, wp_zoom. apply wp_try_taken; [done|].
    change (BMK_EBUSY =? 0) with false. cbn [negb]. apply wp_ret.
    apply (wp_leave_wait _ _ RwWriter); [done| |done]. intros w' Hf. by split_and!.
  - destruct Hr as (Ha & Hn & Hpos & Ht). apply wp_bind, wp_bind, wp_zoom. apply wp_try_taken; [done|].
    change (BMK_EBUSY =? 0) with false. cbn [negb]. apply wp_ret.
    apply (wp_leave_wait _ _ (RwReaders n)); [done| |done]. intros w' Hf. split_and!; try done; lia.
Qed.

Lemma wp_rw_exit r st st' : rw_rep r st -> rw_spec OpExit st = Some (0, st') ->
  wp rumpuser_rw_exit (fun _ r' => rw_rep r' st') r.
Proof.
  intros [Hw Hr] Hsp. unfold rumpuser_rw_exit. apply wp_bind, wp_get.
  destruct st as [| |n]; try discriminate Hsp; injection Hsp as <-.
  - destruct Hr as (Ha & Hn & Ht). rewrite decide_True by done. apply wp_bind, wp_ret, wp_bind, wp_modify, wp_zoom.
    apply wp_exit_taken; [done|]. intros a Hf. by split_and!.
  - destruct Hr as (Ha & Hn & Hpos & Ht). rewrite decide_False by congruence.
    apply wp_bind, wp_bind, wp_bind, wp_get. apply wp_bind, wp_mput, wp_ret, wp_ret. rewrite Hn.
    destruct (Z.eqb_spec n 1) as [->|Hne].
    + apply wp_bind, wp_modify, wp_zoom. apply wp_exit_taken; [done|]. intros a Hf. by split_and!.
    + apply wp_ret. split; [done|]. cbn. rewrite u64_id by lia. split_and!; try done; lia.
Qed.

Lemma wp_rw_downgrade r : rw_rep r RwWriter -> wp rumpuser_rw_downgrade (fun _ r' => rw_rep r' (RwReaders 1)) r.
Proof.
  intros [Hw (Ha & Hn & Ht)]. unfold rumpuser_rw_downgrade. apply wp_bind, wp_modify.
  apply wp_bind, wp_bind, wp_get. apply wp_bind, wp_mput, wp_ret. cbn [set_type rw_readers]. rewrite Hn.
  apply wp_ret. split; [done|]. by split_and!.
Qed.

Lemma wp_rw_tryupgrade r st rc st' : rw_rep r st -> rw_spec OpTryUpgrade st = Some (rc, st') ->
  wp rumpuser_rw_tryupgrade (fun rc' r' => rc' = rc /\ rw_rep r' st') r.
Proof.
  intros [Hw Hr] Hsp. unfold rumpuser_rw_tryupgrade. apply wp_bind, wp_get.
  destruct st as [| |n]; try discriminate Hsp. destruct Hr as (Ha & Hn & Hpos & Ht). cbn in Hsp. rewrite Hn.
  destruct (Z.eqb_spec n 1) as [->|Hne]; injection Hsp as <- <-.
  - apply wp_bind, wp_mput, wp_bind, wp_modify, wp_ret. split; [done|]. by split_and!.
  - apply wp_ret. split; [done|]. split; [done|]. split_and!; try done; lia.
Qed.

(** The reader/writer lock: every operation of a thread that does not have to
    wait gives the answer and the next state of a reader/writer lock, releases
    the wait mutex again, and never halts, with the one exception treated next
    (trying to enter a free lock as a reader). *)
Theorem rw_refines me op r st rc st' :
  rw_rep r st -> rw_spec op st = Some (rc, st') -> op <> OpTryEnter RUMPUSER_RW_READER \/ st <> RwFree ->
  (forall n, st = RwReaders n -> n + 1 < 2 ^ 62) ->
  exists r', rw_run me op r = Done (rc, r') /\ rw_rep r' st'.
Proof.
  intros Hr Hsp Hx Hbig.
  assert (H : wp (rw_run me op) (fun rc' r' => rc' = rc /\ rw_rep r' st') r);
    [|destruct (wp_run _ _ _ H) as (? & r' & ? & -> & ?); by exists r'].
  assert (Hret : forall m : M rumpuser_rw unit, rc = 0 -> wp m (fun _ r' => rw_rep r' st') r ->
    wp (m ;;; cret 0) (fun rc' r' => rc' = rc /\ rw_rep r' st') r).
  { intros m -> Hm. apply wp_bind. eapply wp_mono; [exact Hm|]. intros [] r' H'. by apply wp_ret. }
  destruct op as [t|t| | |]; cbn [rw_run].
  - assert (rc = 0) as -> by (destruct t, st; cbn in Hsp; congruence). apply Hret; [done|].
    by apply (wp_rw_enter me t r st).
  - apply (wp_rw_tryenter me t r st); try done. intros ->. by destruct Hx.
  - assert (rc = 0) as -> by (destruct st; cbn in Hsp; congruence). apply Hret; [done|]. by apply (wp_rw_exit r st).
  - destruct st; try discriminate Hsp. injection Hsp as <- <-. apply Hret; [done|]. by apply wp_rw_downgrade.
  - by apply (wp_rw_tryupgrade r st).
Qed.

Lemma rw_init_free : rw_rep rumpuser_rw_init RwFree.
Proof. by split_and!. Qed.

Lemma rw_refines_witness : exists r', rw_run 7 (OpEnter RUMPUSER_RW_WRITER) rumpuser_rw_init = Done (0, r') /\
  rw_rep r' RwWriter.
Proof.
  apply (rw_refines 7 (OpEnter RUMPUSER_RW_WRITER) rumpuser_rw_init RwFree 0 RwWriter rw_init_free eq_refl).
  - left. discriminate.
  - intros n E. discriminate E.
Defined.

(** A reader that enters a free lock with [rumpuser_rw_tryenter] is counted
    twice (the counter is set to 1 before the loop's compare-and-swap adds 1), so
    after it leaves the lock is still held by nobody's read and a writer cannot
    get in. *)
Theorem rw_tryenter_reader_leak me r :
  rw_rep r RwFree ->
  exists r1 r2, rumpuser_rw_tryenter me RUMPUSER_RW_READER r = Done (0, r1) /\ rw_rep r1 (RwReaders 2) /\
    rumpuser_rw_exit r1 = Done (tt, r2) /\
    rumpuser_rw_tryenter me RUMPUSER_RW_WRITER r2 = Done (BMK_EBUSY, r2).
Proof.
  intros Hr. destruct r as [[ba ca oa fa] [bw cw ow fw] n t].
  destruct Hr as [(Ew & Ebw & Efw & Eow) ((Ea & Eba & Efa & Eoa) & En & Et)]. cbn in *. subst.
  assert (Hw : wp (rumpuser_rw_tryenter me RUMPUSER_RW_READER) (fun rc r' => rc = 0 /\
    r' = RW (Mtx (Waiters []) 1 me (MtxFlags false true)) (Mtx (Waiters []) 0 0 (MtxFlags false true)) 2 LOCK_RW_READER)
    (RW (Mtx (Waiters []) 0 0 (MtxFlags false true)) (Mtx (Waiters []) 0 0 (MtxFlags false true)) 0 LOCK_RW_UNKNOWN)).
  { unfold rumpuser_rw_tryenter, rw_tryenter_reader. apply wp_bind. cbn. apply wp_bind, wp_bind, wp_get.
    set (r1 := set_wait _ _). cbn [rw_readers r1].
    eapply (wp_mono _ (fun rc r' => rc = 0 /\ r' = RW (Mtx (Waiters []) 1 me (MtxFlags false true)) (wait_mtx r1) 2 LOCK_RW_READER)).
    { apply (wp_loop _ (fun k r' => (k = 0 /\ r' = r1) \/ (k = 1 /\ r' =
        RW (Mtx (Waiters []) 1 me (MtxFlags false true)) (wait_mtx r1) 1 LOCK_RW_READER)) (fun k _ => 1 - k));
        [|by left|cbv beta; cbn; lia].
      intros k r' [[-> ->]|[-> ->]]; (split; [lia|]).
      - cbn. split; [by right|lia].
      - cbn. done. }
    intros rc r' [-> ->]. done. }
  destruct (wp_run _ _ _ Hw) as (rc & r1 & E & -> & ->). do 2 eexists. split; [exact E|]. split; [|split; reflexivity].
  by split_and!.
Qed.

Lemma rw_tryenter_reader_leak_witness : exists r1 r2,
  rumpuser_rw_tryenter 7 RUMPUSER_RW_READER rumpuser_rw_init = Done (0, r1) /\
  rumpuser_rw_exit r1 = Done (tt, r2) /\
  rumpuser_rw_tryenter 7 RUMPUSER_RW_WRITER r2 = Done (BMK_EBUSY, r2).
Proof.
  destruct (rw_tryenter_reader_leak 7 rumpuser_rw_init rw_init_free) as (r1 & r2 & E1 & _ & E2 & E3).
  exists r1, r2. split; [exact E1|split; [exact E2|exact E3]].
Defined.
