(* ===== verification/Sched.v ===== *)
(** * The thread scheduler (lib/libbmk_core/sched.c)

    Threads are indices into [thread_array].  The index rings (run queues, free
    and zombie lists, block-queue nodes) are the sequences they are proved to
    represent; the timeout queues are the sequences of their elements.  Stacks
    come from any page allocator. *)

From S2P Require Import Prelude Pgalloc PageIface.

Definition MAXCPUS : Z := 64.
Definition THR_MUSTJOIN : Z := 1.
Definition THR_EXTSTACK : Z := 2.
Definition BMK_SCHED_BLOCK_INFTIME : Z := -1.
Definition BMK_ETIMEDOUT : Z := 60.
Definition BLOCKTIME_MAX : Z := 1 * 1000 * 1000 * 1000.

(** The functions [bt_wake] is set to: rumpuser_clock.c and rumpuser_synch.c install
    bmk_sched_wake, _lwp_park installs _lwp_wake_timeq. *)
Inductive wakefn := wake_null | bmk_sched_wake_fn | bmk_sched_wake_timeq_fn | lwp_wake_timeq_fn.

Record bmk_thread := MkThread {
  bt_block_node : Z;
  bt_idx : Z;
  bt_cpuidx : Z;
  bt_timedout : Z;
  bt_flags : Z;
  bt_errno : Z;
  bt_stackbase : Z;
  bt_cookie : Z;
  bt_wakeup_time : Z;
  bt_wake : wakefn;
  bt_join : Z;
  bt_exit : Z
}.
Definition set_timedout (v : Z) (t : bmk_thread) : bmk_thread :=
  MkThread (bt_block_node t) (bt_idx t) (bt_cpuidx t) v (bt_flags t) (bt_errno t) (bt_stackbase t)
    (bt_cookie t) (bt_wakeup_time t) (bt_wake t) (bt_join t) (bt_exit t).
Definition set_wakeup (v : Z) (w : wakefn) (t : bmk_thread) : bmk_thread :=
  MkThread (bt_block_node t) (bt_idx t) (bt_cpuidx t) (bt_timedout t) (bt_flags t) (bt_errno t)
    (bt_stackbase t) (bt_cookie t) v w (bt_join t) (bt_exit t).
Definition set_cookie (v : Z) (t : bmk_thread) : bmk_thread :=
  MkThread (bt_block_node t) (bt_idx t) (bt_cpuidx t) (bt_timedout t) (bt_flags t) (bt_errno t)
    (bt_stackbase t) v (bt_wakeup_time t) (bt_wake t) (bt_join t) (bt_exit t).

Section Sched.
Context {P : Type} `{PA : PageAllocator P}.

Record sched := Sched {
  sc_pg : P;
  runq : list (option (list Z));     (* [None]: no such ring *)
  freeq : list Z;
  zombieq : list Z;
  nodes : list Z;
  timeq : list (list Z);
  timeq_lock : bool;
  thread_array : gmap Z bmk_thread;
  bmk_numcpus : Z;
  bmk_stackpageorder : Z;
  bmk_current : Z;
  rl_values : gmap Z Z               (* rl_value of the lwps among the threads *)
}.
Definition sset_pg (v : P) (s : sched) : sched :=
  Sched v (runq s) (freeq s) (zombieq s) (nodes s) (timeq s) (timeq_lock s) (thread_array s)
    (bmk_numcpus s) (bmk_stackpageorder s) (bmk_current s) (rl_values s).
Definition sset_runq (v : list (option (list Z))) (s : sched) : sched :=
  Sched (sc_pg s) v (freeq s) (zombieq s) (nodes s) (timeq s) (timeq_lock s) (thread_array s)
    (bmk_numcpus s) (bmk_stackpageorder s) (bmk_current s) (rl_values s).
Definition sset_freeq (v : list Z) (s : sched) : sched :=
  Sched (sc_pg s) (runq s) v (zombieq s) (nodes s) (timeq s) (timeq_lock s) (thread_array s)
    (bmk_numcpus s) (bmk_stackpageorder s) (bmk_current s) (rl_values s).
Definition sset_zombieq (v : list Z) (s : sched) : sched :=
  Sched (sc_pg s) (runq s) (freeq s) v (nodes s) (timeq s) (timeq_lock s) (thread_array s)
    (bmk_numcpus s) (bmk_stackpageorder s) (bmk_current s) (rl_values s).
Definition sset_nodes (v : list Z) (s : sched) : sched :=
  Sched (sc_pg s) (runq s) (freeq s) (zombieq s) v (timeq s) (timeq_lock s) (thread_array s)
    (bmk_numcpus s) (bmk_stackpageorder s) (bmk_current s) (rl_values s).
Definition sset_timeq (v : list (list Z)) (s : sched) : sched :=
  Sched (sc_pg s) (runq s) (freeq s) (zombieq s) (nodes s) v (timeq_lock s) (thread_array s)
    (bmk_numcpus s) (bmk_stackpageorder s) (bmk_current s) (rl_values s).
Definition sset_lock (v : bool) (s : sched) : sched :=
  Sched (sc_pg s) (runq s) (freeq s) (zombieq s) (nodes s) (timeq s) v (thread_array s)
    (bmk_numcpus s) (bmk_stackpageorder s) (bmk_current s) (rl_values s).
Definition sset_threads (v : gmap Z bmk_thread) (s : sched) : sched :=
  Sched (sc_pg s) (runq s) (freeq s) (zombieq s) (nodes s) (timeq s) (timeq_lock s) v
    (bmk_numcpus s) (bmk_stackpageorder s) (bmk_current s) (rl_values s).
Definition sset_current (v : Z) (s : sched) : sched :=
  Sched (sc_pg s) (runq s) (freeq s) (zombieq s) (nodes s) (timeq s) (timeq_lock s) (thread_array s)
    (bmk_numcpus s) (bmk_stackpageorder s) v (rl_values s).
Definition sset_rl (v : gmap Z Z) (s : sched) : sched :=
  Sched (sc_pg s) (runq s) (freeq s) (zombieq s) (nodes s) (timeq s) (timeq_lock s) (thread_array s)
    (bmk_numcpus s) (bmk_stackpageorder s) (bmk_current s) v.

Definition sched_pg {A} (m : M P A) : M sched A := zoom sc_pg sset_pg m.

(** ** Primitive accesses *)
Definition get_thread (t : Z) : M sched bmk_thread :=
  s <-- mget ;; mopt (thread_array s !! t) "no such thread".
Definition upd_thread (t : Z) (f : bmk_thread -> bmk_thread) : M sched unit :=
  th <-- get_thread t ;; modify (fun s => sset_threads (<[t := f th]> (thread_array s)) s).
(** [lfring_enqueue] to and [lfring_dequeue] from a run queue. *)
Definition runq_get (cpu : Z) : M sched (list Z) :=
  s <-- mget ;;
  q <-- mopt (runq s !! Z.to_nat cpu) "runq index" ;; mopt q "runq is NULL".
Definition runq_put (cpu : Z) (l : list Z) : M sched unit :=
  modify (fun s => sset_runq (<[Z.to_nat cpu := Some l]> (runq s)) s).
Definition runq_enqueue (cpu t : Z) : M sched unit :=
  l <-- runq_get cpu ;; runq_put cpu (l ++ [t]).
Definition runq_dequeue (cpu : Z) : M sched (option Z) :=
  l <-- runq_get cpu ;;
  match l with [] => cret None | t :: l => runq_put cpu l ;;; cret (Some t) end.
Definition timeq_get (cpu : Z) : M sched (list Z) :=
  s <-- mget ;; mopt (timeq s !! Z.to_nat cpu) "timeq index".
Definition timeq_put (cpu : Z) (l : list Z) : M sched unit :=
  modify (fun s => sset_timeq (<[Z.to_nat cpu := l]> (timeq s)) s).
Definition timeq_enter : M sched unit :=
  s <-- mget ;; if timeq_lock s then mnofuel else modify (sset_lock true).
Definition timeq_leave : M sched unit := modify (sset_lock false).

(** ** Waking *)
Definition bmk_sched_wake (t : Z) : M sched unit :=
  th <-- get_thread t ;; runq_enqueue (bt_cpuidx th) (bt_idx th).

Definition bmk_sched_wake_timeq (t : Z) : M sched unit :=
  timeq_enter ;;;
  th <-- get_thread t ;;
  let timedout := negb (bt_timedout th =? 0) in
  (if negb timedout then
     l <-- timeq_get (bt_cpuidx th) ;;
     timeq_put (bt_cpuidx th) (filter (fun x => x <> t) l)
   else cret tt) ;;;
  timeq_leave ;;;
  if negb timedout then bmk_sched_wake t else cret tt.

(** _lwp_wake_timeq: an lwp that has not been scheduled out is only marked. *)
Definition lwp_wake_timeq (t : Z) : M sched unit :=
  s <-- mget ;;
  v <-- mopt (rl_values s !! t) "me is NULL" ;;
  modify (sset_rl (<[t := 1]> (rl_values s))) ;;;
  if v =? 0 then bmk_sched_wake t else cret tt.

Definition call_wake (w : wakefn) (t : Z) : M sched unit :=
  match w with
  | wake_null => mhalt "bt_wake is NULL"
  | bmk_sched_wake_fn => bmk_sched_wake t
  | bmk_sched_wake_timeq_fn => bmk_sched_wake_timeq t
  | lwp_wake_timeq_fn => lwp_wake_timeq t
  end.

(** ** Timeouts *)

(** Insertion before the first element with a later deadline. *)
Fixpoint insert_before (deadline : Z -> Z) (d t : Z) (l : list Z) : option (list Z) :=
  match l with
  | [] => None
  | x :: l => if d <? deadline x then Some (t :: x :: l)
              else l' ← insert_before deadline d t l; Some (x :: l')
  end.
Definition deadline_of (s : sched) (t : Z) : Z :=
  match thread_array s !! t with Some th => bt_wakeup_time th | None => 0 end.

Definition bmk_insert_timeq (t : Z) : M sched unit :=
  th <-- get_thread t ;;
  let cpuidx := bt_cpuidx th in
  timeq_enter ;;;
  massert (negb (bt_wakeup_time th =? BMK_SCHED_BLOCK_INFTIME)) "bt_wakeup_time != INFTIME" ;;;
  l <-- timeq_get cpuidx ;;
  match l with
  | [] => timeq_put cpuidx [t]
  | _ :: _ =>
      s <-- mget ;;
      match insert_before (deadline_of s) (bt_wakeup_time th) t l with
      | Some l' => timeq_put cpuidx l'
      | None =>
          massert (match List.last (map Some l) None with
                   | Some x => deadline_of s x <=? bt_wakeup_time th | None => false end)
            "TAILQ_LAST <= wakeup_time" ;;;
          timeq_put cpuidx (l ++ [t])
      end
  end ;;;
  timeq_leave.

(** One timeout queue of [schedule]: wakes what has expired, returns the new
    time to wake up at. *)
Definition expire_timeq (cpu curtime waketime : Z) : M sched Z :=
  loopM (fun _ : unit =>
    l <-- timeq_get cpu ;;
    match l with
    | [] => cret (inr waketime)
    | t :: l =>
        th <-- get_thread t ;;
        if bt_wakeup_time th <=? curtime then
          upd_thread t (set_timedout BMK_ETIMEDOUT) ;;;
          timeq_put cpu l ;;;
          call_wake (bt_wake th) t ;;;
          cret (inl tt)
        else cret (inr (if bt_wakeup_time th <? waketime then bt_wakeup_time th else waketime))
    end) tt.

(** One round of the loop of [schedule]: the thread to run next, or [None] to
    go round again.  The time to sleep until is computed, but the call that would
    sleep is commented out. *)
Definition schedule_round (cpu prev idle curtime : Z) : M sched (option Z) :=
  r <-- runq_dequeue cpu ;;
  match r with
  | Some t => cret (Some t)
  | None =>
      s <-- mget ;;
      r <-- (if negb (bmk_numcpus s =? 1) then runq_dequeue MAXCPUS else cret None) ;;
      match r with
      | Some t => cret (Some t)
      | None =>
          let waketime := s64 (curtime + BLOCKTIME_MAX) in
          timeq_enter ;;;
          waketime <-- expire_timeq cpu curtime waketime ;;
          waketime <-- (if negb (bmk_numcpus s =? 1) then expire_timeq MAXCPUS curtime waketime
                        else cret waketime) ;;
          timeq_leave ;;;
          cret (if negb (prev =? idle) then Some idle else None)
      end
  end.

Definition stackalloc : M sched Z := s <-- mget ;; sched_pg (pa_alloc (bmk_stackpageorder s)).
Definition stackfree (th : bmk_thread) : M sched unit :=
  s <-- mget ;; sched_pg (pa_release (bt_stackbase th) (bmk_stackpageorder s)).

(** The reaper at the end of [schedule]. *)
Definition reap : M sched unit :=
  loopM (fun _ : unit =>
    s <-- mget ;;
    match zombieq s with
    | [] => cret (inr tt)
    | idx :: l =>
        modify (sset_zombieq l) ;;;
        th <-- get_thread idx ;;
        (if Z.land (bt_flags th) THR_EXTSTACK =? 0 then stackfree th else cret tt) ;;;
        modify (fun s => sset_freeq (freeq s ++ [idx]) s) ;;;
        cret (inl tt)
    end) tt.

(** ** Creation and exit *)
Definition do_block_node_alloc : M sched Z :=
  s <-- mget ;;
  match nodes s with
  | [] => mhalt "ran out of block queue nodes"
  | n :: l => modify (sset_nodes l) ;;; cret n
  end.

(** The thread created, or [None]; stacks, cookies and the TLS area are
    addresses, 0 is NULL. *)
Definition do_sched_create_withtls (cookie : Z) (joinable : bool) (cpuidx stack_base stack_size : Z)
    (insert : bool) : M sched (option Z) :=
  s <-- mget ;;
  match freeq s with
  | [] => cret None
  | idx :: l =>
      modify (sset_freeq l) ;;;
      let bt_cpu := if bmk_numcpus s =? 1 then 0
                    else if cpuidx =? -1 then MAXCPUS else u32 cpuidx in
      massert (negb (MAXCPUS <? bt_cpu)) "out of range CPU index" ;;;
      '(stack, flags) <--
        (if stack_base =? 0 then
           massert (stack_size =? 0) "stack_size == 0" ;;;
           a <-- stackalloc ;; cret (a, 0)
         else cret (stack_base, THR_EXTSTACK)) ;;
      let flags := if joinable then Z.lor flags THR_MUSTJOIN else flags in
      let join := if joinable then 1 else 0 in
      node <-- do_block_node_alloc ;;
      modify (fun s => sset_threads (<[idx := MkThread node idx bt_cpu 0 flags 0 stack cookie
        BMK_SCHED_BLOCK_INFTIME wake_null join join]> (thread_array s)) s) ;;;
      (if insert then runq_enqueue bt_cpu idx else cret tt) ;;;
      cret (Some idx)
  end.

Definition bmk_sched_create_withtls (cookie : Z) (joinable : bool) (cpuidx stack_base stack_size : Z) :
    M sched (option Z) :=
  do_sched_create_withtls cookie joinable cpuidx stack_base stack_size true.

(** The callbacks run for the previous thread after a switch. *)
Definition exit_callback (prev : Z) : M sched unit :=
  th <-- get_thread prev ;; modify (fun s => sset_zombieq (zombieq s ++ [bt_idx th]) s).
Definition yield_callback (prev : Z) : M sched unit :=
  th <-- get_thread prev ;; runq_enqueue (bt_cpuidx th) (bt_idx th).

(** ** Blocking *)
Definition bmk_sched_blockprepare_timeout (deadline : Z) (wake : wakefn) : M sched unit :=
  s <-- mget ;; upd_thread (bmk_current s) (set_wakeup deadline wake).
Definition bmk_sched_blockprepare : M sched unit :=
  s <-- mget ;;
  upd_thread (bmk_current s) (fun th => set_wakeup BMK_SCHED_BLOCK_INFTIME (bt_wake th) th).
Definition bmk_sched_suspend (t : Z) : M sched unit := mhalt "sched_suspend unimplemented".
Definition bmk_sched_unsuspend (t : Z) : M sched unit := mhalt "sched_unsuspend unimplemented".
Definition bmk_sched_init_mainlwp (cookie : Z) : M sched Z :=
  s <-- mget ;; upd_thread (bmk_current s) (set_cookie cookie) ;;; cret (bmk_current s).
Definition bmk_block_queue_wake_thread (node t : Z) : M sched unit :=
  upd_thread t (fun th => MkThread node (bt_idx th) (bt_cpuidx th) (bt_timedout th) (bt_flags th)
    (bt_errno th) (bt_stackbase th) (bt_cookie th) (bt_wakeup_time th) (bt_wake th) (bt_join th) (bt_exit th)) ;;;
  th <-- get_thread t ;; runq_enqueue (bt_cpuidx th) (bt_idx th).
End Sched.
Arguments sched P : clear implicits.

(** ** Joining: the word shared by the waiter and the poster *)

(** [join_wait]: the new word, and whether to block. *)
Definition join_init : Z := 1.
Definition join_wait_sub (v : Z) : bool * Z := (v =? 1, u64 (v - 1)).
(** [join_callback] for thread [t]: wake it at once? *)
Definition join_callback (t v : Z) : bool * Z := (v =? 1, t).
(** [join_post]: the thread to wake. *)
Definition join_post (v : Z) : option Z * Z := (if 1 <? v then Some v else None, u64 (v + 1)).

Inductive jwaiter := JwStart | JwBlocking | JwBlocked | JwDone.
Inductive jposter := JpStart | JpDone.
Record joinsys := JSys { js_value : Z; js_waiter : jwaiter; js_poster : jposter }.
Inductive jact := JWait | JCallback | JPost.

Definition join_step (t : Z) (a : jact) (s : joinsys) : option joinsys :=
  match a, js_waiter s, js_poster s with
  | JWait, JwStart, p =>
      let '(block, v) := join_wait_sub (js_value s) in
      Some (JSys v (if block then JwBlocking else JwDone) p)
  | JCallback, JwBlocking, p =>
      let '(wake, v) := join_callback t (js_value s) in
      Some (JSys v (if wake then JwDone else JwBlocked) p)
  | JPost, w, JpStart =>
      let '(wake, v) := join_post (js_value s) in
      Some (match wake with
            | Some t' => JSys v (if (t' =? t) && (match w with JwBlocked => true | _ => false end)
                                 then JwDone else w) JpDone
            | None => JSys v w JpDone end)
  | _, _, _ => None
  end.
Inductive join_reach (t : Z) : joinsys -> Prop :=
| jr_init : join_reach t (JSys join_init JwStart JpStart)
| jr_step a s s' : join_reach t s -> join_step t a s = Some s' -> join_reach t s'.

(** * The scheduler: lemmas on its queues *)


(** ** Sorted timeout queues *)
Definition sorted_by (d : Z -> Z) (l : list Z) : Prop :=
  forall i j x y, (i < j)%nat -> l !! i = Some x -> l !! j = Some y -> d x <= d y.

Lemma sorted_by_tail d x l : sorted_by d (x :: l) -> sorted_by d l.
Proof. intros H i j a b Hij Ha Hb. by apply (H (S i) (S j)); [lia|..]. Qed.
Lemma sorted_by_head d x l : sorted_by d (x :: l) -> Forall (fun y => d x <= d y) l.
Proof.
  intros H. apply Forall_lookup_2. intros j y Hj. apply (H 0%nat (S j)); [lia|done|done].
Qed.
Lemma sorted_by_cons d x l : Forall (fun y => d x <= d y) l -> sorted_by d l -> sorted_by d (x :: l).
Proof.
  intros Hx Hl i j a b Hij Ha Hb. destruct j as [|j]; [lia|]. destruct i as [|i]; simpl in *.
  - injection Ha as <-. rewrite Forall_lookup in Hx. by eapply Hx.
  - apply (Hl i j); [lia|done|done].
Qed.
Lemma sorted_by_app d a b : sorted_by d a -> sorted_by d b ->
  (forall x y, x ∈ a -> y ∈ b -> d x <= d y) -> sorted_by d (a ++ b).
Proof.
  intros Ha Hb Hab. induction a as [|x a IH]; [done|]. cbn. apply sorted_by_cons.
  - apply Forall_app. split; [by apply sorted_by_head|]. apply Forall_forall. intros y Hy. apply Hab; [by left|done].
  - apply IH; [by eapply sorted_by_tail|]. intros u v Hu Hv. apply Hab; [by right|done].
Qed.

(** Where the insertion happens. *)
Lemma insert_before_spec d dl t l : sorted_by dl l ->
  match insert_before dl d t l with
  | Some l' => exists a b, l = a ++ b /\ l' = a ++ t :: b /\
      Forall (fun x => dl x <= d) a /\ Forall (fun x => d < dl x) b /\ b <> []
  | None => Forall (fun x => dl x <= d) l
  end.
Proof.
  induction l as [|x l IH]; intros Hs; cbn [insert_before]; [constructor|].
  destruct (Z.ltb_spec d (dl x)) as [Hlt|Hge].
  - exists [], (x :: l). split_and!; [done|done|constructor| |done].
    constructor; [done|]. eapply Forall_impl; [by apply sorted_by_head|]. cbn. lia.
  - specialize (IH (sorted_by_tail _ _ _ Hs)). destruct (insert_before dl d t l) as [l'|]; cbn.
    + destruct IH as (a & b & -> & -> & Ha & Hb & Hne). exists (x :: a), b. split_and!; try done. by constructor.
    + by constructor.
Qed.

Lemma last_map_some (l : list Z) : l <> [] -> exists x, x ∈ l /\ List.last (map Some l) None = Some x.
Proof.
  induction l as [|a l IH]; [done|]. intros _. destruct l as [|b l]; [exists a; split; [by left|done]|].
  destruct IH as (x & Hx & E); [done|]. exists x. split; [by right|exact E].
Qed.

Section Thms.
Context {P : Type} `{PA : PageAllocator P}.
Implicit Types s : sched P.

Lemma wp_get_thread s t th Q : thread_array s !! t = Some th -> Q th s -> wp (get_thread t) Q s.
Proof. intros E HQ. apply wp_bind, wp_get. by apply (wp_opt _ _ th). Qed.
Lemma wp_timeq_get s cpu l Q : timeq s !! Z.to_nat cpu = Some l -> Q l s -> wp (timeq_get cpu) Q s.
Proof. intros E HQ. apply wp_bind, wp_get. by apply (wp_opt _ _ l). Qed.
Lemma wp_runq_get s cpu l Q : runq s !! Z.to_nat cpu = Some (Some l) -> Q l s -> wp (runq_get cpu) Q s.
Proof. intros E HQ. apply wp_bind, wp_get, wp_bind. apply (wp_opt _ _ (Some l)); [done|]. by apply (wp_opt _ _ l). Qed.
Lemma wp_runq_enqueue s cpu l t Q : runq s !! Z.to_nat cpu = Some (Some l) ->
  Q tt (sset_runq (<[Z.to_nat cpu := Some (l ++ [t])]> (runq s)) s) -> wp (runq_enqueue cpu t) Q s.
Proof. intros E HQ. apply wp_bind. eapply wp_runq_get; [exact E|]. by apply wp_modify. Qed.
Lemma wp_timeq_enter s Q : timeq_lock s = false -> Q tt (sset_lock true s) -> wp timeq_enter Q s.
Proof. intros E HQ. apply wp_bind, wp_get. rewrite E. by apply wp_modify. Qed.

(** ** Insertion *)
Lemma wp_bmk_insert_timeq s t th l : thread_array s !! t = Some th -> timeq_lock s = false ->
  bt_wakeup_time th <> BMK_SCHED_BLOCK_INFTIME ->
  timeq s !! Z.to_nat (bt_cpuidx th) = Some l -> sorted_by (deadline_of s) l ->
  wp (bmk_insert_timeq t) (fun _ s' => exists a b, l = a ++ b /\
    Forall (fun x => deadline_of s x <= bt_wakeup_time th) a /\
    Forall (fun x => bt_wakeup_time th < deadline_of s x) b /\
    s' = sset_timeq (<[Z.to_nat (bt_cpuidx th) := a ++ t :: b]> (timeq s)) s) s.
Proof.
  intros Ht Hlk Hinf Hl Hs. unfold bmk_insert_timeq. apply wp_bind. eapply wp_get_thread; [exact Ht|].
  apply wp_bind, wp_timeq_enter; [done|]. apply wp_bind, wp_assert; [by apply negb_true_iff, Z.eqb_neq|].
  apply wp_bind. eapply wp_timeq_get; [exact Hl|].
  assert (Eunlock : forall v, sset_lock false (sset_timeq v (sset_lock true s)) = sset_timeq v s).
  { intros v. unfold sset_lock, sset_timeq. cbn. by rewrite <- Hlk. }
  destruct l as [|x l].
  - apply wp_bind, wp_modify, wp_modify. exists [], []. split_and!; [done|constructor|constructor|apply Eunlock].
  - apply wp_bind, wp_bind, wp_get.
    change (deadline_of (sset_lock true s)) with (deadline_of s).
    pose proof (insert_before_spec (bt_wakeup_time th) (deadline_of s) t (x :: l) Hs) as Hins.
    destruct (insert_before _ _ t (x :: l)) as [l'|].
    + destruct Hins as (a & b & E & -> & Ha & Hb & _). apply wp_modify, wp_modify. exists a, b.
      split_and!; [done..|]. apply Eunlock.
    + destruct (last_map_some (x :: l)) as (y & Hy & Ey); [done|]. rewrite Ey.
      apply wp_bind, wp_assert.
      { rewrite Forall_forall in Hins. by apply Z.leb_le, Hins. }
      apply wp_modify, wp_modify. exists (x :: l), []. rewrite app_nil_r.
      split_and!; [done|done|constructor|]. apply Eunlock.
Qed.

(** ** Expiry *)

(** Threads that may sleep in queue [cpu]. *)
Definition sleeper_ok s (cpu t : Z) : Prop := exists th, thread_array s !! t = Some th /\
  bt_cpuidx th = cpu /\ bt_idx th = t /\
  (bt_wake th = bmk_sched_wake_fn \/ (bt_wake th = lwp_wake_timeq_fn /\ is_Some (rl_values s !! t))).
Definition wake_of s (t : Z) : wakefn := match thread_array s !! t with Some th => bt_wake th | None => wake_null end.

(** Marking a thread as timed out. *)
Definition mark_timedout (t : Z) (ta : gmap Z bmk_thread) : gmap Z bmk_thread :=
  alter (set_timedout BMK_ETIMEDOUT) t ta.
Definition mark_all (e : list Z) (ta : gmap Z bmk_thread) : gmap Z bmk_thread :=
  foldl (fun ta t => mark_timedout t ta) ta e.
(** Which of the expired threads are put on the run queue - an lwp only when it has been
    scheduled out -, and the lwps' words afterwards. *)
Definition wakes s (t : Z) : bool :=
  match wake_of s t with
  | bmk_sched_wake_fn => true
  | lwp_wake_timeq_fn => bool_decide (rl_values s !! t = Some 0)
  | _ => false
  end.
Definition unpark s (rl : gmap Z Z) (t : Z) : gmap Z Z := match wake_of s t with lwp_wake_timeq_fn => <[t := 1]> rl | _ => rl end.

(** The threads [e] have left the timeout queue [cpu], which is now [rest], for the run
    queue that was [rq]. *)
Definition expired s (cpu : Z) (rq e rest : list Z) : sched P :=
  sset_rl (foldl (unpark s) (rl_values s) e)
    (sset_threads (mark_all e (thread_array s))
      (sset_timeq (<[Z.to_nat cpu := rest]> (timeq s))
        (sset_runq (<[Z.to_nat cpu := Some (rq ++ filter (fun t => wakes s t) e)]> (runq s)) s))).

Definition same_but_timedout (f : bmk_thread -> bmk_thread) : Prop := forall th,
  bt_wakeup_time (f th) = bt_wakeup_time th /\ bt_cpuidx (f th) = bt_cpuidx th /\ bt_idx (f th) = bt_idx th /\ bt_wake (f th) = bt_wake th.
Lemma mark_lookup t x ta : exists f, mark_timedout t ta !! x = f <$> ta !! x /\ same_but_timedout f.
Proof.
  unfold mark_timedout. destruct (decide (t = x)) as [->|Hne].
  - exists (set_timedout BMK_ETIMEDOUT). split; [apply lookup_alter_eq|done].
  - exists id. rewrite lookup_alter_ne by done. split; [by destruct (ta !! x)|done].
Qed.
Lemma mark_all_lookup e : forall x ta, exists f, mark_all e ta !! x = f <$> ta !! x /\ same_but_timedout f.
Proof.
  induction e as [|t e IH]; intros x ta; [exists id; split; [cbn; by destruct (ta !! x)|done]|].
  destruct (IH x (mark_timedout t ta)) as (f & E & Hf). destruct (mark_lookup t x ta) as (g & E' & Hg).
  exists (f ∘ g). cbn. fold (mark_all e (mark_timedout t ta)). rewrite E, E'. split; [by destruct (ta !! x)|].
  intros th. destruct (Hf (g th)) as (E1 & E2 & E3 & E4), (Hg th) as (? & ? & ? & ?). split_and!; cbn; congruence.
Qed.
Lemma mark_all_snoc e t ta : mark_all (e ++ [t]) ta = mark_timedout t (mark_all e ta).
Proof. unfold mark_all. by rewrite foldl_app. Qed.
Lemma mark_all_deadline s s' e x : thread_array s' = mark_all e (thread_array s) ->
  deadline_of s' x = deadline_of s x.
Proof.
  intros E. unfold deadline_of. rewrite E. destruct (mark_all_lookup e x (thread_array s)) as (f & -> & Hf).
  destruct (thread_array s !! x); cbn; [apply Hf|done].
Qed.
Lemma unpark_lookup s e : forall rl t, (is_Some (rl !! t) -> is_Some (foldl (unpark s) rl e !! t)) /\ (t ∉ e -> foldl (unpark s) rl e !! t = rl !! t).
Proof.
  induction e as [|x e IH]; intros rl t; [done|]. cbn [foldl]. destruct (IH (unpark s rl x) t) as [H1 H2]. split.
  - intros H. apply H1. unfold unpark. destruct (wake_of s x); [done..|]. destruct (decide (x = t)) as [->|]; [by rewrite lookup_insert_eq|by rewrite lookup_insert_ne].
  - rewrite not_elem_of_cons. intros [Hx He]. rewrite H2 by done. unfold unpark. destruct (wake_of s x); [done..|by rewrite lookup_insert_ne].
Qed.
Lemma sleeper_expired s cpu rq e rest c t : sleeper_ok s c t -> sleeper_ok (expired s cpu rq e rest) c t.
Proof.
  intros (th & Hth & Hc & Hi & Hw). destruct (mark_all_lookup e t (thread_array s)) as (f & Ef & Hf). rewrite Hth in Ef. cbn in Ef.
  destruct (Hf th) as (_ & Ec & Ei & Ew). exists (f th). rewrite Ec, Ei, Ew. split_and!; try done.
  destruct Hw as [Hw|[Hw Hr]]; [by left|right]. split; [done|]. cbn. by apply unpark_lookup.
Qed.

Lemma wp_expire_timeq s cpu rq l curtime waketime : 0 <= cpu ->
  timeq s !! Z.to_nat cpu = Some l -> runq s !! Z.to_nat cpu = Some (Some rq) ->
  Forall (sleeper_ok s cpu) l -> NoDup l -> Z.of_nat (length l) < 2 ^ 63 ->
  wp (expire_timeq cpu curtime waketime) (fun _ s' => exists e rest, l = e ++ rest /\
    Forall (fun x => deadline_of s x <= curtime) e /\
    (match rest with [] => True | x :: _ => curtime < deadline_of s x end) /\ s' = expired s cpu rq e rest) s.
Proof.
  intros Hcpu Hl Hrq Hok Hnd Hsm. unfold expire_timeq.
  assert (E0 : expired s cpu rq [] l = s).
  { unfold expired, sset_rl, sset_threads, sset_timeq, sset_runq. cbn. rewrite app_nil_r, !list_insert_id by done. by destruct s. }
  assert (Htl : (Z.to_nat cpu < length (timeq s))%nat) by by eapply lookup_lt_Some.
  assert (Hrl : (Z.to_nat cpu < length (runq s))%nat) by by eapply lookup_lt_Some.
  apply (wp_loop _ (fun _ s' => exists e rest, l = e ++ rest /\ Forall (fun x => deadline_of s x <= curtime) e /\
      s' = expired s cpu rq e rest)
    (fun _ s' => match timeq s' !! Z.to_nat cpu with Some l' => Z.of_nat (length l') | None => 0 end)).
  - intros [] s' (e & rest & -> & He & ->).
    assert (Et : timeq (expired s cpu rq e rest) !! Z.to_nat cpu = Some rest) by by apply list_lookup_insert_eq.
    rewrite Et. split; [lia|]. apply wp_bind. eapply wp_timeq_get; [exact Et|].
    destruct rest as [|t rest].
    { apply wp_ret. exists e, []. by split_and!. }
    assert (Hokt : sleeper_ok s cpu t).
    { rewrite Forall_forall in Hok. apply Hok, elem_of_app. right. by left. }
    assert (Hte : t ∉ e).
    { apply NoDup_app in Hnd as (_ & Hnd & _). intros Hin. apply (Hnd t Hin). by left. }
    destruct Hokt as (th & Hth & Hc & Hi & Hw).
    destruct (mark_all_lookup e t (thread_array s)) as (f & Ef & Hf). rewrite Hth in Ef. cbn in Ef.
    destruct (Hf th) as (Ed & Ec & Ei & Ew).
    apply wp_bind. eapply wp_get_thread; [exact Ef|]. rewrite Ed.
    assert (Edl : deadline_of s t = bt_wakeup_time th) by (unfold deadline_of; by rewrite Hth).
    assert (Ewk : wake_of s t = bt_wake th) by (unfold wake_of; by rewrite Hth).
    destruct (Z.leb_spec (bt_wakeup_time th) curtime) as [Hle|Hgt].
    + apply wp_bind, wp_bind. eapply wp_get_thread; [exact Ef|]. apply wp_modify.
      apply wp_bind, wp_modify. apply wp_bind. rewrite Ew.
      set (s2 := sset_timeq _ _).
      assert (Hwake : forall (Q : unit -> sched P -> Prop) u, thread_array u = thread_array s2 -> runq u = runq s2 ->
        Q tt (sset_runq (<[Z.to_nat cpu := Some ((rq ++ filter (fun t => wakes s t) e) ++ [t])]> (runq s2)) u) -> wp (bmk_sched_wake t) Q u).
      { intros Q u Eu1 Eu2 HQ. unfold bmk_sched_wake. apply wp_bind. eapply wp_get_thread; [rewrite Eu1; apply lookup_insert_eq|].
        cbn [bt_cpuidx bt_idx set_timedout]. rewrite Ec, Ei, Hc, Hi.
        eapply wp_runq_enqueue; [rewrite Eu2; by apply list_lookup_insert_eq|]. by rewrite Eu2. }
      match goal with |- wp _ ?Q _ => assert (Hend : Q tt (expired s cpu rq (e ++ [t]) rest)) end.
      { apply wp_ret. split.
        - exists (e ++ [t]), rest. split_and!; [by rewrite <- app_assoc| |done].
          apply Forall_app. split; [done|]. apply Forall_singleton. lia.
        - cbn. rewrite list_lookup_insert_eq by done. lia. }
      assert (Emark : <[t := set_timedout BMK_ETIMEDOUT (f th)]> (mark_all e (thread_array s)) = mark_all (e ++ [t]) (thread_array s)).
      { rewrite mark_all_snoc. unfold mark_timedout. by rewrite (alter_alt_Some _ _ _ _ Ef). }
      assert (Efilt : filter (fun t => wakes s t) (e ++ [t]) = filter (fun t => wakes s t) e ++ (if wakes s t then [t] else [])).
      { rewrite filter_app, filter_cons, filter_nil. f_equal. by destruct (wakes s t). }
      destruct Hw as [Hw|[Hw [v Hv]]]; rewrite Hw in *; cbn [call_wake].
      * assert (Ewt : wakes s t = true) by (unfold wakes; by rewrite Ewk).
        apply Hwake; [done|done|]. match goal with |- _ ?u => replace u with (expired s cpu rq (e ++ [t]) rest); [exact Hend|] end.
        unfold expired, s2. rewrite Efilt, Ewt, foldl_app. cbn [foldl]. unfold unpark at 1. rewrite Ewk, <- Emark, app_assoc.
        unfold sset_rl, sset_threads, sset_timeq, sset_runq. cbn. by rewrite !list_insert_insert_eq.
      * assert (Hv' : rl_values s2 !! t = Some v) by (cbn; by rewrite (proj2 (unpark_lookup s e (rl_values s) t) Hte)).
        unfold lwp_wake_timeq. apply wp_bind, wp_get, wp_bind, (wp_opt _ _ v); [done|]. apply wp_bind, wp_modify.
        assert (Ewt : wakes s t = (v =? 0)) by (unfold wakes; rewrite Ewk, Hv; destruct (Z.eqb_spec v 0); case_bool_decide; congruence).
        rewrite <- Ewt. destruct (wakes s t); [apply Hwake; [done|done|]|apply wp_ret].
        all: match goal with |- _ ?u => replace u with (expired s cpu rq (e ++ [t]) rest); [exact Hend|] end.
        all: unfold expired, s2; rewrite Efilt, foldl_app; cbn [foldl]; unfold unpark at 1; rewrite Ewk, <- Emark, ?app_assoc, ?app_nil_r;
          unfold sset_rl, sset_threads, sset_timeq, sset_runq; cbn; by rewrite !list_insert_insert_eq.
    + apply wp_ret. exists e, (t :: rest). split_and!; [done|done|lia|done].
  - exists [], l. split_and!; [done|constructor|done].
  - rewrite Hl. lia.
Qed.
End Thms.
