(* ===== verification/SchedSpec.v ===== *)
(** * The scheduler: what it promises *)

From S2P Require Import Prelude Pgalloc PgallocInv PageIface Sched.

Section Spec.
Context {P : Type} `{PA : PageAllocator P}.
Implicit Types s : sched P.

(** [bmk_insert_timeq] puts a thread with a deadline behind all threads that
    expire no later and before all that expire later; the queue stays sorted,
    the other queues and the threads are untouched, the lock is released, and
    the assertion on the last element never fires. *)
Theorem insert_timeq_correct s t th l :
  thread_array s !! t = Some th -> timeq_lock s = false -> bt_wakeup_time th <> BMK_SCHED_BLOCK_INFTIME ->
  timeq s !! Z.to_nat (bt_cpuidx th) = Some l -> sorted_by (deadline_of s) l ->
  exists a b, l = a ++ b /\
    bmk_insert_timeq t s = Done (tt, sset_timeq (<[Z.to_nat (bt_cpuidx th) := a ++ t :: b]> (timeq s)) s) /\
    Forall (fun x => deadline_of s x <= deadline_of s t) a /\
    Forall (fun x => deadline_of s t < deadline_of s x) b /\
    sorted_by (deadline_of s) (a ++ t :: b).
Proof.
  intros Ht Hlk Hinf Hl Hs.
  destruct (wp_run _ _ _ (wp_bmk_insert_timeq s t th l Ht Hlk Hinf Hl Hs)) as ([] & s' & E & a & b & El & Ha & Hb & ->).
  assert (Ed : deadline_of s t = bt_wakeup_time th) by (unfold deadline_of; by rewrite Ht).
  exists a, b. rewrite Ed. split_and!; try done. rewrite El in Hs.
  rewrite Forall_forall in Ha, Hb. apply sorted_by_app.
  - intros i j x y Hij Hx Hy. apply (Hs i j); [done|by apply lookup_app_l_Some..].
  - apply sorted_by_cons.
    + apply Forall_forall. intros x Hx. rewrite Ed. specialize (Hb x Hx). lia.
    + intros i j x y Hij Hx Hy. apply (Hs (length a + i)%nat (length a + j)%nat); [lia| |]; rewrite lookup_app_r by lia;
        [by replace (length a + i - length a)%nat with i by lia|by replace (length a + j - length a)%nat with j by lia].
  - intros x y Hx Hy. specialize (Ha x Hx). apply elem_of_cons in Hy as [->|Hy]; [lia|]. specialize (Hb y Hy). lia.
Qed.

(** A timeout queue: sorted, each thread once, each of this CPU and woken by one of the
    functions that are installed. *)
Definition timeq_ok s (cpu : Z) (l : list Z) : Prop :=
  sorted_by (deadline_of s) l /\ Forall (sleeper_ok s cpu) l /\ NoDup l /\ Z.of_nat (length l) < 2 ^ 63.
(** The threads [e] of the queue have expired, [rest] have not. *)
Definition expiry s (curtime : Z) (l e rest : list Z) : Prop :=
  l = e ++ rest /\ (forall x, x ∈ e -> deadline_of s x <= curtime) /\ (forall x, x ∈ rest -> curtime < deadline_of s x).
Lemma expiry_sorted s curtime l e rest : sorted_by (deadline_of s) l -> l = e ++ rest -> Forall (fun x => deadline_of s x <= curtime) e ->
  (match rest with [] => True | x :: _ => curtime < deadline_of s x end) -> expiry s curtime l e rest.
Proof.
  intros Hs El He Hx. rewrite Forall_forall in He. split_and!; [done|done|]. intros x Hin.
  destruct rest as [|y rest]; [by apply elem_of_nil in Hin|]. apply elem_of_cons in Hin as [->|Hin]; [done|].
  apply list_elem_of_lookup in Hin as [j Hj]. assert (deadline_of s y <= deadline_of s x); [|lia].
  apply (Hs (length e) (length e + S j)%nat); [lia|..]; rewrite El, lookup_app_r by lia.
  - by rewrite Nat.sub_diag.
  - by replace (length e + S j - length e)%nat with (S j) by lia.
Qed.
Lemma wp_expire s cpu curtime waketime l : 0 <= cpu -> timeq s !! Z.to_nat cpu = Some l -> runq s !! Z.to_nat cpu = Some (Some []) -> timeq_ok s cpu l ->
  wp (expire_timeq cpu curtime waketime) (fun _ s' => exists e rest, expiry s curtime l e rest /\ s' = expired s cpu [] e rest) s.
Proof.
  intros Hc Hl Hrq (Hs & Hok & Hnd & Hsm). eapply wp_mono; [by apply (wp_expire_timeq s cpu [] l)|].
  intros w s' (e & rest & E & He & Hrest & ->). exists e, rest. split; [|done]. by apply expiry_sorted.
Qed.
Lemma expired_unlock s cpu e rest : timeq_lock s = false -> sset_lock false (expired (sset_lock true s) cpu [] e rest) = expired s cpu [] e rest.
Proof. destruct s. cbn. by intros ->. Qed.
Lemma expired_unlock2 s cpu e rest cpu' e' rest' : timeq_lock s = false ->
  sset_lock false (expired (expired (sset_lock true s) cpu [] e rest) cpu' [] e' rest') = expired (expired s cpu [] e rest) cpu' [] e' rest'.
Proof. destruct s. cbn. by intros ->. Qed.

(** C39. One round of [schedule] on CPU [cpu] of any number of CPUs.  The head of the CPU's
    run queue runs next, else, with several CPUs, the head of the shared one.  If both
    are empty exactly the threads whose deadline has passed leave the CPU's timeout
    queue, and with several CPUs the shared one: each is marked as timed out and goes to
    the end of the run queue, in the order of the deadlines - an lwp that has not been
    scheduled out yet is only marked -; nothing else changes, the lock is released and
    the idle thread runs next or, being current, goes round again. *)
Theorem schedule_round_correct s cpu prev idle curtime rq gq l lg :
  0 <= cpu < MAXCPUS -> timeq_lock s = false ->
  runq s !! Z.to_nat cpu = Some (Some rq) -> timeq s !! Z.to_nat cpu = Some l -> timeq_ok s cpu l ->
  (bmk_numcpus s <> 1 -> runq s !! Z.to_nat MAXCPUS = Some (Some gq) /\ timeq s !! Z.to_nat MAXCPUS = Some lg /\ timeq_ok s MAXCPUS lg) ->
  match rq, if bmk_numcpus s =? 1 then [] else gq with
  | t :: rq', _ => schedule_round cpu prev idle curtime s = Done (Some t, sset_runq (<[Z.to_nat cpu := Some rq']> (runq s)) s)
  | [], t :: gq' => schedule_round cpu prev idle curtime s = Done (Some t, sset_runq (<[Z.to_nat MAXCPUS := Some gq']> (runq s)) s)
  | [], [] => exists e rest, expiry s curtime l e rest /\
      if bmk_numcpus s =? 1
      then schedule_round cpu prev idle curtime s = Done (if prev =? idle then None else Some idle, expired s cpu [] e rest)
      else exists eg restg, expiry s curtime lg eg restg /\
        schedule_round cpu prev idle curtime s =
          Done (if prev =? idle then None else Some idle, expired (expired s cpu [] e rest) MAXCPUS [] eg restg)
  end.
Proof.
  intros Hcpu Hlk Hrq Hl Hok Hg. assert (Hwp : forall r s', wp (schedule_round cpu prev idle curtime) (fun x y => x = r /\ y = s') s ->
    schedule_round cpu prev idle curtime s = Done (r, s')).
  { intros r s' H. by destruct (wp_run _ _ _ H) as (? & ? & -> & -> & ->). }
  destruct rq as [|t rq'].
  2:{ apply Hwp. unfold schedule_round, runq_dequeue. apply wp_bind, wp_bind. eapply (wp_runq_get _ cpu); [exact Hrq|].
      apply wp_bind, wp_modify, wp_ret. by apply wp_ret. }
  destruct (Z.eqb_spec (bmk_numcpus s) 1) as [E1|E1].
  - assert (H : wp (schedule_round cpu prev idle curtime) (fun r s' => exists e rest, expiry s curtime l e rest /\
      r = (if prev =? idle then None else Some idle) /\ s' = expired s cpu [] e rest) s).
    { unfold schedule_round, runq_dequeue. apply wp_bind, wp_bind. eapply (wp_runq_get _ cpu); [exact Hrq|].
      apply wp_ret. apply wp_bind, wp_get. rewrite E1. cbn [negb Z.eqb]. apply wp_bind, wp_ret.
      apply wp_bind, wp_timeq_enter; [done|]. apply wp_bind. eapply wp_mono; [apply (wp_expire (sset_lock true s) cpu _ _ l); [lia|done..]|].
      intros w s' (e & rest & E & ->). apply wp_bind, wp_ret, wp_bind, wp_modify, wp_ret.
      exists e, rest. split_and!; [done|by destruct (prev =? idle)|by apply expired_unlock]. }
    destruct (wp_run _ _ _ H) as (r & s' & E & e & rest & He & -> & ->). by exists e, rest.
  - destruct (Hg E1) as (Hgq & Hlg & Hgok). destruct gq as [|t gq'].
    2:{ apply Hwp. unfold schedule_round, runq_dequeue. apply wp_bind, wp_bind. eapply (wp_runq_get _ cpu); [exact Hrq|].
        apply wp_ret. apply wp_bind, wp_get. rewrite (proj2 (Z.eqb_neq _ _) E1). cbn [negb]. apply wp_bind, wp_bind.
        eapply (wp_runq_get _ MAXCPUS); [exact Hgq|]. apply wp_bind, wp_modify, wp_ret. by apply wp_ret. }
    assert (H : wp (schedule_round cpu prev idle curtime) (fun r s' => exists e rest, expiry s curtime l e rest /\ exists eg restg, expiry s curtime lg eg restg /\
      r = (if prev =? idle then None else Some idle) /\ s' = expired (expired s cpu [] e rest) MAXCPUS [] eg restg) s).
    { unfold schedule_round, runq_dequeue. apply wp_bind, wp_bind. eapply (wp_runq_get _ cpu); [exact Hrq|].
      apply wp_ret. apply wp_bind, wp_get. rewrite (proj2 (Z.eqb_neq _ _) E1). cbn [negb]. apply wp_bind, wp_bind.
      eapply (wp_runq_get _ MAXCPUS); [exact Hgq|]. apply wp_ret.
      apply wp_bind, wp_timeq_enter; [done|]. apply wp_bind. eapply wp_mono; [apply (wp_expire (sset_lock true s) cpu _ _ l); [lia|done..]|].
      intros w s' (e & rest & E & ->). apply wp_bind.
      assert (Hne : Z.to_nat cpu <> Z.to_nat MAXCPUS) by (unfold MAXCPUS in *; lia).
      assert (Hdl : forall x, deadline_of (expired (sset_lock true s) cpu [] e rest) x = deadline_of s x) by (intros x; by apply (mark_all_deadline s _ e)).
      eapply wp_mono; [apply (wp_expire (expired (sset_lock true s) cpu [] e rest) MAXCPUS _ _ lg); [done|cbn; by rewrite list_lookup_insert_ne|cbn; by rewrite list_lookup_insert_ne|]|].
      - destruct Hgok as (Hs & Hok' & ? & ?). split_and!; [|eapply Forall_impl; [exact Hok'|]; intros x; exact (sleeper_expired (sset_lock true s) cpu [] e rest MAXCPUS x)|done|done].
        intros i j x y. rewrite !Hdl. apply Hs.
      - intros w' s' (eg & restg & (E2 & Eg & Er) & ->). apply wp_bind, wp_modify, wp_ret. exists e, rest. split; [done|]. exists eg, restg.
        split_and!; [split_and!; [done|intros x; rewrite <- Hdl; apply Eg|intros x; rewrite <- Hdl; apply Er]|by destruct (prev =? idle)|by apply expired_unlock2]. }
    destruct (wp_run _ _ _ H) as (r & s' & E & e & rest & He & eg & restg & Heg & -> & ->). exists e, rest. split; [done|]. by exists eg, restg.
Qed.

(** ** Thread indices are never lost or duplicated *)
Definition places s : list Z :=
  freeq s ++ zombieq s ++ concat (map (default []) (runq s)) ++ concat (timeq s).

Lemma concat_snoc_perm (q : list (option (list Z))) i l x : q !! i = Some (Some l) ->
  concat (map (default []) (<[i := Some (l ++ [x])]> q)) ≡ₚ x :: concat (map (default []) q).
Proof.
  revert i. induction q as [|o q IH]; intros [|i] Hi; [done|done| |]; cbn in *.
  - injection Hi as ->. cbn. rewrite <- app_assoc. cbn. by rewrite Permutation_middle.
  - rewrite (IH i Hi). by rewrite Permutation_middle.
Qed.

(** Creating a thread takes the first free index and either returns nothing
    (none free) or builds a thread on that index and puts it at the end of its
    CPU's run queue; no index is lost or duplicated among the free, zombie, run
    and timeout queues. *)
Theorem sched_create_correct s cookie joinable cpuidx stack_base size rq node ns cpu :
  stack_base <> 0 -> nodes s = node :: ns ->
  cpu = (if bmk_numcpus s =? 1 then 0 else if cpuidx =? -1 then MAXCPUS else u32 cpuidx) -> cpu <= MAXCPUS ->
  runq s !! Z.to_nat cpu = Some (Some rq) ->
  match freeq s with
  | [] => bmk_sched_create_withtls cookie joinable cpuidx stack_base size s = Done (None, s)
  | idx :: _ => exists s' th,
      bmk_sched_create_withtls cookie joinable cpuidx stack_base size s = Done (Some idx, s') /\
      thread_array s' !! idx = Some th /\ bt_idx th = idx /\ bt_cpuidx th = cpu /\ bt_block_node th = node /\
      bt_stackbase th = stack_base /\ bt_timedout th = 0 /\
      runq s' !! Z.to_nat cpu = Some (Some (rq ++ [idx])) /\ places s' ≡ₚ places s
  end.
Proof.
  intros Hsb Hn Ecpu Hcpu Hrq. unfold bmk_sched_create_withtls. destruct (freeq s) as [|idx fl] eqn:Ef.
  - assert (H : wp (do_sched_create_withtls cookie joinable cpuidx stack_base size true)
      (fun r t => r = None /\ t = s) s).
    { unfold do_sched_create_withtls. apply wp_bind, wp_get. rewrite Ef. by apply wp_ret. }
    by destruct (wp_run _ _ _ H) as (r & t & -> & -> & ->).
  - set (th := MkThread node idx cpu 0 (if joinable then Z.lor THR_EXTSTACK THR_MUSTJOIN else THR_EXTSTACK) 0
      stack_base cookie BMK_SCHED_BLOCK_INFTIME wake_null (if joinable then 1 else 0) (if joinable then 1 else 0)).
    set (s' := sset_runq (<[Z.to_nat cpu := Some (rq ++ [idx])]> (runq s))
      (sset_threads (<[idx := th]> (thread_array s)) (sset_nodes ns (sset_freeq fl s)))).
    assert (H : wp (do_sched_create_withtls cookie joinable cpuidx stack_base size true)
      (fun r t => r = Some idx /\ t = s') s).
    { unfold do_sched_create_withtls. apply wp_bind, wp_get. rewrite Ef. apply wp_bind, wp_modify. rewrite <- Ecpu.
      apply wp_bind, wp_assert; [apply negb_true_iff, Z.ltb_ge; lia|].
      rewrite (proj2 (Z.eqb_neq _ _) Hsb). apply wp_bind, wp_ret. cbv iota. unfold do_block_node_alloc.
      apply wp_bind, wp_bind, wp_get. cbn [nodes sset_freeq]. rewrite Hn. apply wp_bind, wp_modify, wp_ret.
      apply wp_bind, wp_modify. apply wp_bind. eapply (wp_runq_enqueue _ cpu rq); [exact Hrq|]. by apply wp_ret. }
    destruct (wp_run _ _ _ H) as (r & t & E & -> & ->). exists s', th.
    split_and!; try done; cbn.
    + apply lookup_insert_eq.
    + apply list_lookup_insert_eq. by eapply lookup_lt_Some.
    + unfold places. cbn. rewrite Ef. rewrite (concat_snoc_perm _ _ _ _ Hrq). cbn.
      by rewrite <- !Permutation_middle.
Qed.
End Spec.

(** ** Joining *)

(** C40. The exit/join handshake on the shared word: whatever the interleaving of
    the waiter's decrement, the callback that publishes its address and the
    poster's increment, the waiter goes on only after the post, and once the post
    has happened it is never left asleep: it is done, or its next step does not
    put it to sleep. *)
Theorem join_no_lost_wakeup t s :
  2 < t < 2 ^ 64 - 1 -> join_reach t s ->
  (js_waiter s = JwDone -> js_poster s = JpDone) /\
  (js_poster s = JpDone -> js_waiter s <> JwBlocked /\
     (js_waiter s = JwBlocking -> exists s', join_step t JCallback s = Some s' /\ js_waiter s' = JwDone) /\
     (js_waiter s = JwStart -> exists s', join_step t JWait s = Some s' /\ js_waiter s' = JwDone)).
Proof.
  intros Ht Hr.
  assert (Hinv : match js_waiter s, js_poster s with
    | JwStart, JpStart => js_value s = 1 | JwStart, JpDone => js_value s = 2
    | JwBlocking, JpStart => js_value s = 0 | JwBlocking, JpDone => js_value s = 1
    | JwBlocked, JpStart => js_value s = t | JwBlocked, JpDone => False
    | JwDone, JpStart => False | JwDone, JpDone => True end).
  { induction Hr as [|a s s' Hr IH E]; [done|]. destruct s as [v w p], a, w, p; cbn in *; try done;
      injection E as <-; cbn; try (by subst v).
    - subst v. destruct (Z.ltb_spec 1 t); [|lia]. by rewrite Z.eqb_refl. }
  destruct s as [v w p]. cbn in *. split.
  - by destruct w, p.
  - intros ->. split_and!.
    + by destruct w.
    + intros ->. cbn. rewrite Hinv. eexists. split; done.
    + intros ->. cbn. rewrite Hinv. eexists. split; done.
Qed.

(** ** A concrete scheduler *)
Definition th_example (i deadline : Z) : bmk_thread :=
  MkThread 0 i 0 0 0 0 0 0 deadline bmk_sched_wake_fn 0 0.
Definition sched_example : sched pgstate :=
  Sched pg_boot (Some [] :: replicate 64 None) [7; 8] [] [40; 41] ([3; 4] :: replicate 64 []) false
    {[ 3 := th_example 3 100; 4 := th_example 4 300; 5 := th_example 5 200; 6 := th_example 6 (-1) ]} 1 0 6 ∅.

Lemma sched_example_sorted : sorted_by (deadline_of sched_example) [3; 4].
Proof.
  intros i j x y Hij Hx Hy.
  destruct i as [|[|i]], j as [|[|j]]; try lia; try discriminate Hx; try discriminate Hy.
  injection Hx as <-. injection Hy as <-. vm_compute. discriminate.
Qed.

Lemma insert_timeq_correct_witness : exists s',
  bmk_insert_timeq 5 sched_example = Done (tt, s') /\ timeq s' !! 0%nat = Some [3; 5; 4].
Proof.
  destruct (insert_timeq_correct sched_example 5 (th_example 5 200) [3; 4] eq_refl eq_refl
    ltac:(vm_compute; discriminate) eq_refl sched_example_sorted) as (a & b & El & E & Ha & Hb & _).
  assert (F : match bmk_insert_timeq 5 sched_example with
    | Done (_, s') => bool_decide (timeq s' !! 0%nat = Some [3; 5; 4]) | _ => false end = true) by (vm_compute; reflexivity).
  eexists. split; [exact E|]. rewrite E in F. exact (bool_decide_eq_true_1 _ F).
Defined.

(** Two CPUs: thread 3 sleeps on CPU 0, the lwps 4 and 5, of which 5 has not been
    scheduled out, on both. *)
Definition lwp_example (i deadline : Z) : bmk_thread := MkThread 0 i 64 0 0 0 0 0 deadline lwp_wake_timeq_fn 0 0.
Definition sched_two : sched pgstate :=
  Sched pg_boot (Some [] :: Some [] :: replicate 62 None ++ [Some []]) [7; 8] [] [40; 41] ([3] :: replicate 63 [] ++ [[5; 4]]) false
    {[ 3 := th_example 3 100; 4 := lwp_example 4 120; 5 := lwp_example 5 110 ]} 2 0 6 {[ 4 := 0; 5 := 2 ]}.
Lemma schedule_round_correct_witness : exists e rest eg restg, expiry sched_two 150 [3] e rest /\ expiry sched_two 150 [5; 4] eg restg /\
  schedule_round 0 6 9 150 sched_two = Done (Some 9, expired (expired sched_two 0 [] e rest) MAXCPUS [] eg restg).
Proof.
  destruct (schedule_round_correct sched_two 0 6 9 150 [] [] [3] [5; 4] ltac:(unfold MAXCPUS; lia) eq_refl eq_refl eq_refl) as (e & rest & E & eg & restg & Eg & Er).
  - split_and!; [|repeat constructor; eexists; split_and!; [reflexivity..|by left]|apply NoDup_singleton|done].
    intros i j x y Hij Hx Hy. destruct i, j; try lia; discriminate.
  - intros _. split_and!; [reflexivity|reflexivity|]. split_and!; [|apply Forall_cons; split; [|apply Forall_cons; split; [|done]]|by apply (bool_decide_unpack _)|done].
    2,3: eexists; split_and!; [reflexivity|reflexivity|reflexivity|right; split; [reflexivity|by eexists]].
    intros i j x y Hij Hx Hy. destruct i as [|[|i]], j as [|[|j]]; try lia; try discriminate Hx; try discriminate Hy.
    injection Hx as <-. injection Hy as <-. vm_compute. discriminate.
  - exists e, rest, eg, restg. split; [exact E|]. split; [exact Eg|exact Er].
Defined.

Lemma sched_create_correct_witness : exists s' th,
  bmk_sched_create_withtls 0 true (-1) 65536 4096 sched_example = Done (Some 7, s') /\
  thread_array s' !! 7 = Some th /\ runq s' !! 0%nat = Some (Some [7]).
Proof.
  destruct (sched_create_correct sched_example 0 true (-1) 65536 4096 [] 40 [41] 0 ltac:(discriminate)
    eq_refl eq_refl ltac:(vm_compute; discriminate) eq_refl) as (s' & th & E & Ht & _ & _ & _ & _ & _ & Hr & _).
  exists s', th. split; [exact E|split; [exact Ht|exact Hr]].
Defined.

Lemma join_no_lost_wakeup_witness : exists s,
  join_reach 4096 s /\ js_poster s = JpDone /\ js_waiter s = JwBlocking /\ js_waiter s <> JwBlocked.
Proof.
  assert (Hr : join_reach 4096 (JSys 1 JwBlocking JpDone)).
  { eapply (jr_step _ JPost); [eapply (jr_step _ JWait); [apply jr_init|reflexivity]|reflexivity]. }
  exists (JSys 1 JwBlocking JpDone). split; [exact Hr|split; [reflexivity|split; [reflexivity|]]].
  exact (proj1 (proj2 (join_no_lost_wakeup 4096 _ ltac:(lia) Hr) eq_refl)).
Defined.
