(* ===== verification/Cv.v ===== *)
(** * Condition variables (lib/libbmk_rumpuser/rumpuser_synch.c)

    One condition variable and its interlock, used by any number of threads.
    A step is what happens between two points where another thread can run:
    the queue of waiters is only touched with the interlock held, so the
    operations on it are single steps; blocking ([bmk_sched_block] with its
    callback), waking, expiry and dispatch are separate steps.  The interlock
    is the mutual exclusion of the mutex component.  The scheduler's hand-over
    of the rump kernel's own CPU ([rumpkern_sched]) does not touch this state. *)

From S2P Require Import Prelude Sched.

(** What a thread is doing, and what the scheduler knows of it. *)
Inductive cvpc :=
| CvIdle                       (* outside a wait *)
| CvBlocking                   (* in bmk_sched_block, callback not run yet *)
| CvBlocked                    (* switched out *)
| CvResumed.                   (* running again, wants the interlock *)
Record cvthread := CvT {
  ct_pc : cvpc;
  ct_timed : bool;             (* rumpuser_cv_timedwait: w.wake is bmk_sched_wake_timeq *)
  ct_wthread : bool;           (* w.thread is not NULL *)
  ct_timedout : Z;             (* bt_timedout *)
  ct_timeq : bool;             (* on the timeout queue *)
  ct_runq : Z                  (* times on the run queue *)
}.
Definition ct_new : cvthread := CvT CvIdle false false 0 false 0.
Record cvsys := CvSys {
  cv_waiters : list Z;
  cv_owner : option Z;         (* the interlock *)
  cv_th : gmap Z cvthread;
  cv_fault : bool              (* an element was removed from a queue it is not on *)
}.
Definition set_th (t : Z) (x : cvthread) (s : cvsys) : cvsys :=
  CvSys (cv_waiters s) (cv_owner s) (<[t := x]> (cv_th s)) (cv_fault s).
Definition set_waiters (l : list Z) (s : cvsys) : cvsys := CvSys l (cv_owner s) (cv_th s) (cv_fault s).
Definition set_owner (o : option Z) (s : cvsys) : cvsys := CvSys (cv_waiters s) o (cv_th s) (cv_fault s).
Definition fault (s : cvsys) : cvsys := CvSys (cv_waiters s) (cv_owner s) (cv_th s) true.

(** TAILQ_REMOVE of a waiter. *)
Definition remove_waiter (t : Z) (s : cvsys) : cvsys :=
  if bool_decide (t ∈ cv_waiters s) then set_waiters (filter (fun x => x <> t) (cv_waiters s)) s else fault s.

(** [bmk_sched_wake] and [bmk_sched_wake_timeq] as far as this state goes. *)
Definition ct_wake (x : cvthread) : cvthread :=
  CvT (ct_pc x) (ct_timed x) (ct_wthread x) (ct_timedout x) (ct_timeq x) (ct_runq x + 1).
Definition cv_wake (t : Z) (s : cvsys) : cvsys :=
  match cv_th s !! t with Some x => set_th t (ct_wake x) s | None => fault s end.
Definition cv_wake_timeq (t : Z) (s : cvsys) : cvsys :=
  match cv_th s !! t with
  | Some x =>
      if ct_timedout x =? 0 then
        let s := if ct_timeq x then s else fault s in
        set_th t (ct_wake (CvT (ct_pc x) (ct_timed x) (ct_wthread x) (ct_timedout x) false (ct_runq x))) s
      else s
  | None => fault s
  end.

(** [rumpuser_cv_wait], [rumpuser_cv_wait_nowrap] and [rumpuser_cv_timedwait]
    up to the switch to another thread; the deadline is not part of this state,
    [CvExpire] can happen at any time. *)
Definition cv_wait_begin (timed : bool) (t : Z) (x : cvthread) (s : cvsys) : cvsys :=
  set_th t (CvT CvBlocking timed true 0 (ct_timeq x) (ct_runq x)) (set_waiters (cv_waiters s ++ [t]) s).
(** [cv_callback] and [cv_callback_timeout]. *)
Definition cv_callback (t : Z) (x : cvthread) (s : cvsys) : cvsys :=
  let x := if ct_timed x then CvT (ct_pc x) (ct_timed x) (ct_wthread x) (ct_timedout x) true (ct_runq x) else x in
  set_owner None (set_th t (CvT CvBlocked (ct_timed x) (ct_wthread x) (ct_timedout x) (ct_timeq x) (ct_runq x)) s).
(** [cv_sched_enter] and the rest of the wait; the result is [ct_timedout]. *)
Definition cv_wait_end (t : Z) (x : cvthread) (s : cvsys) : cvsys :=
  let s := set_owner (Some t) s in
  let s := if ct_timed x && ct_wthread x then remove_waiter t s else s in
  set_th t (CvT CvIdle (ct_timed x) (ct_wthread x) (ct_timedout x) (ct_timeq x) (ct_runq x)) s.

(** Waking the first waiter: the body of signal and broadcast. *)
Definition cv_wake_first (w : Z) (s : cvsys) : cvsys :=
  let s := remove_waiter w s in
  match cv_th s !! w with
  | None => fault s
  | Some x =>
      let s := set_th w (CvT (ct_pc x) (ct_timed x) false (ct_timedout x) (ct_timeq x) (ct_runq x)) s in
      if ct_timed x then cv_wake_timeq w s else cv_wake w s
  end.
Definition rumpuser_cv_signal (s : cvsys) : cvsys :=
  match cv_waiters s with [] => s | w :: _ => cv_wake_first w s end.
(** The loop of broadcast; every round removes a waiter, so their number is
    enough fuel. *)
Fixpoint cv_broadcast_loop (n : nat) (s : cvsys) : cvsys :=
  match n, cv_waiters s with
  | S n, w :: _ => cv_broadcast_loop n (cv_wake_first w s)
  | _, _ => s
  end.
Definition rumpuser_cv_broadcast (s : cvsys) : cvsys := cv_broadcast_loop (length (cv_waiters s)) s.
Definition rumpuser_cv_has_waiters (s : cvsys) : bool := match cv_waiters s with [] => false | _ => true end.

Definition rumpuser_cv_destroy (s : cvsys) : res unit :=
  if rumpuser_cv_has_waiters s then Halted "cv->waiters.tqh_first == NULL" else Done tt.

(** The current lwp of a thread, 0 when there is none. *)
Inductive rumplwpop := RUMPUSER_LWP_CREATE | RUMPUSER_LWP_DESTROY | RUMPUSER_LWP_SET | RUMPUSER_LWP_CLEAR.
Definition rumpuser_curlwpop (op : rumplwpop) (l : Z) : M Z unit :=
  cur <-- mget ;;
  match op with
  | RUMPUSER_LWP_SET => massert (cur =? 0) "current_lwp == NULL" ;;; mput l
  | RUMPUSER_LWP_CLEAR => massert (cur =? l) "current_lwp == l" ;;; mput 0
  | RUMPUSER_LWP_CREATE | RUMPUSER_LWP_DESTROY => cret tt
  end.
Definition rumpuser_curlwp : M Z Z := mget.

Inductive cvact := CvEnter | CvExit | CvWait (timed : bool) | CvCallback | CvExpire | CvDispatch | CvResume | CvSignal | CvBroadcast.

(** One step of thread [t] ([CvExpire]: of the scheduler for [t]). *)
Definition cv_step (t : Z) (a : cvact) (s : cvsys) : option cvsys :=
  match cv_th s !! t with
  | None => None
  | Some x =>
    let owns := bool_decide (cv_owner s = Some t) in
    let free := bool_decide (cv_owner s = None) in
    match a, ct_pc x with
    | CvEnter, CvIdle => if free then Some (set_owner (Some t) s) else None
    | CvExit, CvIdle => if owns then Some (set_owner None s) else None
    | CvWait timed, CvIdle => if owns then Some (cv_wait_begin timed t x s) else None
    | CvSignal, CvIdle => if owns then Some (rumpuser_cv_signal s) else None
    | CvBroadcast, CvIdle => if owns then Some (rumpuser_cv_broadcast s) else None
    | CvCallback, CvBlocking => Some (cv_callback t x s)
    | CvExpire, _ =>
        if ct_timeq x then
          Some (set_th t (ct_wake (CvT (ct_pc x) (ct_timed x) (ct_wthread x) BMK_ETIMEDOUT false (ct_runq x))) s)
        else None
    | CvDispatch, pc =>
        if 0 <? ct_runq x then
          Some (set_th t (CvT (match pc with CvBlocked => CvResumed | _ => pc end) (ct_timed x) (ct_wthread x)
                              (ct_timedout x) (ct_timeq x) (ct_runq x - 1)) s)
        else None
    | CvResume, CvResumed => if free then Some (cv_wait_end t x s) else None
    | _, _ => None
    end
  end.

(** Runs from [rumpuser_cv_init], the interlock free. *)
Definition cv_start (threads : gset Z) : cvsys := CvSys [] None (set_to_map (fun t => (t, ct_new)) threads) false.
Inductive cv_reach (threads : gset Z) : cvsys -> Prop :=
| cv_init : cv_reach threads (cv_start threads)
| cv_next t a s s' : cv_reach threads s -> cv_step t a s = Some s' -> cv_reach threads s'.

(** * Condition variables: no fault, no lost sleeper *)


(** What the state of a thread may be, given whether it is queued and whether
    it holds the interlock. *)
Definition ct_inv (x : cvthread) (queued owns : bool) : Prop :=
  match ct_pc x with
  | CvIdle => ct_runq x = 0 /\ ct_timeq x = false /\ queued = false
  | CvBlocking => owns = true /\ ct_runq x = 0 /\ ct_timeq x = false /\ ct_timedout x = 0 /\
                  ct_wthread x = true /\ queued = true
  | CvBlocked => owns = false /\ queued = ct_wthread x /\
      if ct_wthread x then
        if ct_timed x then ct_timeq x = true /\ ct_timedout x = 0 /\ ct_runq x = 0 \/
                           ct_timeq x = false /\ ct_timedout x <> 0 /\ ct_runq x = 1
        else ct_timeq x = false /\ ct_timedout x = 0 /\ ct_runq x = 0
      else ct_timeq x = false /\ ct_runq x = 1
  | CvResumed => owns = false /\ ct_runq x = 0 /\ ct_timeq x = false /\ queued = ct_wthread x /\
      (ct_wthread x = true -> ct_timed x = true /\ ct_timedout x <> 0)
  end.

Definition is_queued (s : cvsys) (t : Z) : bool := bool_decide (t ∈ cv_waiters s).
Definition owns (s : cvsys) (t : Z) : bool := bool_decide (cv_owner s = Some t).

Record cv_inv (s : cvsys) : Prop := {
  ci_fault : cv_fault s = false;
  ci_nodup : NoDup (cv_waiters s);
  ci_known : forall t, t ∈ cv_waiters s -> is_Some (cv_th s !! t);
  ci_th : forall t x, cv_th s !! t = Some x -> ct_inv x (is_queued s t) (owns s t)
}.

Lemma filter_notin (w : Z) (l : list Z) : w ∉ l -> filter (fun z => z <> w) l = l.
Proof.
  induction l as [|z l IH]; [done|]. intros Hz. apply not_elem_of_cons in Hz as [Hne Hz].
  by rewrite filter_cons_True, IH by congruence.
Qed.

(** A change of one thread: the others keep their place in the queue, and
    none of them is blocking with the interlock in hand. *)
Lemma cv_inv_update s l o t x : cv_inv s -> NoDup l -> is_Some (cv_th s !! t) ->
  (forall t', t' <> t -> t' ∈ l <-> t' ∈ cv_waiters s) ->
  (cv_owner s = o \/ cv_owner s = None \/ cv_owner s = Some t) -> (o = cv_owner s \/ o = None \/ o = Some t) ->
  ct_inv x (bool_decide (t ∈ l)) (bool_decide (o = Some t)) ->
  cv_inv (CvSys l o (<[t := x]> (cv_th s)) (cv_fault s)).
Proof.
  intros [Hf Hnd Hk Hth] Hl Ht Hq Ho Ho' Hx. split; cbn [cv_waiters cv_th cv_fault]; try done.
  - intros t' Hin. destruct (decide (t' = t)) as [->|Hne]; [by rewrite lookup_insert_eq|].
    rewrite lookup_insert_ne by done. apply Hk. by apply Hq.
  - intros t' x' Hx'. unfold is_queued, owns. cbn [cv_waiters cv_owner].
    destruct (decide (t' = t)) as [->|Hne].
    { rewrite lookup_insert_eq in Hx'. by simplify_eq. }
    rewrite lookup_insert_ne in Hx' by done. specialize (Hth t' x' Hx'). unfold is_queued, owns in Hth.
    rewrite (bool_decide_ext _ _ (Hq t' Hne)).
    destruct (decide (cv_owner s = Some t')) as [E|E].
    + assert (o = Some t') as -> by (destruct Ho as [<-|[?|?]]; congruence).
      rewrite (bool_decide_eq_true_2 _ E) in Hth. by rewrite (bool_decide_eq_true_2 (Some t' = Some t')).
    + rewrite (bool_decide_eq_false_2 _ E) in Hth. rewrite (bool_decide_eq_false_2 (o = Some t')); [done|].
      intros ->. destruct Ho' as [?|[?|?]]; congruence.
Qed.

Section Steps.
Context (s : cvsys) (t : Z) (x : cvthread).
Hypothesis Hs : cv_inv s.
Hypothesis Hx : cv_th s !! t = Some x.
Lemma thread_inv : ct_inv x (is_queued s t) (owns s t).
Proof using Hs Hx. exact (ci_th s Hs t x Hx). Qed.

(** Same queue, same interlock. *)
Lemma inv_thread x' : ct_inv x' (is_queued s t) (owns s t) -> cv_inv (set_th t x' s).
Proof using Hs Hx.
  intros H. apply (cv_inv_update s (cv_waiters s) (cv_owner s) t x'); auto; try done. apply Hs.
Qed.

Lemma inv_enter : ct_pc x = CvIdle -> cv_owner s = None -> cv_inv (set_owner (Some t) s).
Proof using All.
  pose proof thread_inv as Hin.
  intros Hpc Ho. pose proof (cv_inv_update s (cv_waiters s) (Some t) t x Hs (ci_nodup s Hs)) as H.
  rewrite insert_id in H by done. apply H; auto. unfold ct_inv in *. by rewrite Hpc in Hin |- *.
Qed.
Lemma inv_exit : ct_pc x = CvIdle -> cv_owner s = Some t -> cv_inv (set_owner None s).
Proof using All.
  pose proof thread_inv as Hin.
  intros Hpc Ho. pose proof (cv_inv_update s (cv_waiters s) None t x Hs (ci_nodup s Hs)) as H.
  rewrite insert_id in H by done. apply H; auto. unfold ct_inv in *. by rewrite Hpc in Hin |- *.
Qed.

Lemma inv_wait timed : ct_pc x = CvIdle -> cv_owner s = Some t -> cv_inv (cv_wait_begin timed t x s).
Proof using All.
  pose proof thread_inv as Hin.
  intros Hpc Ho. unfold ct_inv in Hin. rewrite Hpc in Hin. destruct Hin as (H1 & H2 & H3%bool_decide_eq_false).
  apply (cv_inv_update s (cv_waiters s ++ [t]) (cv_owner s)); auto.
  - apply NoDup_app. split_and!; [apply Hs|set_solver|apply NoDup_singleton].
  - set_solver.
  - rewrite !bool_decide_eq_true_2 by set_solver. done.
Qed.

Lemma inv_callback : ct_pc x = CvBlocking -> cv_inv (cv_callback t x s).
Proof using All.
  pose proof thread_inv as Hin.
  intros Hpc. unfold ct_inv in Hin. rewrite Hpc in Hin.
  destruct Hin as (H1%bool_decide_eq_true & H2 & H3 & H4 & H5 & H6).
  unfold is_queued in H6. unfold cv_callback.
  destruct (ct_timed x) eqn:Et; cbn [ct_timed ct_wthread ct_timedout ct_timeq ct_runq];
    (apply (cv_inv_update s (cv_waiters s) None); auto; [apply Hs|]);
    rewrite H6, bool_decide_eq_false_2 by done; unfold ct_inv; cbn; rewrite ?H5, ?Et. all: intuition.
Qed.

Lemma inv_expire : ct_timeq x = true ->
  cv_inv (set_th t (ct_wake (CvT (ct_pc x) (ct_timed x) (ct_wthread x) BMK_ETIMEDOUT false (ct_runq x))) s).
Proof using All.
  pose proof thread_inv as Hin.
  intros Hq. apply inv_thread. unfold ct_inv in *. cbn. destruct (ct_pc x); try (intuition congruence).
  destruct Hin as (H1 & H2 & H3). split_and!; [done|done|].
  destruct (ct_wthread x); [|intuition congruence]. destruct (ct_timed x); [|intuition congruence].
  right. split_and!; [done|done|]. destruct H3 as [(?&?&?)|(?&?&?)]; [lia|congruence].
Qed.

Lemma inv_dispatch : 0 < ct_runq x ->
  cv_inv (set_th t (CvT (match ct_pc x with CvBlocked => CvResumed | pc => pc end) (ct_timed x) (ct_wthread x)
    (ct_timedout x) (ct_timeq x) (ct_runq x - 1)) s).
Proof using All.
  pose proof thread_inv as Hin.
  intros Hr. apply inv_thread. unfold ct_inv in *. destruct (ct_pc x); cbn; try lia.
  destruct Hin as (H1 & H2 & H3). destruct (ct_wthread x); [destruct (ct_timed x)|]; intuition lia.
Qed.

Lemma inv_resume : ct_pc x = CvResumed -> cv_owner s = None -> cv_inv (cv_wait_end t x s).
Proof using All.
  pose proof thread_inv as Hin.
  intros Hpc Ho. unfold ct_inv in Hin. rewrite Hpc in Hin. destruct Hin as (H1 & H2 & H3 & H4 & H5).
  unfold cv_wait_end. destruct (ct_wthread x) eqn:Ew.
  - destruct (H5 eq_refl) as [Ht Hto]. rewrite Ht. cbn [andb]. apply bool_decide_eq_true in H4.
    unfold remove_waiter. cbn [cv_waiters set_owner]. rewrite bool_decide_eq_true_2 by done.
    apply (cv_inv_update s (filter (fun y => y <> t) (cv_waiters s)) (Some t)); auto.
    + apply NoDup_filter, Hs.
    + intros t' Hne. rewrite list_elem_of_filter. tauto.
    + rewrite bool_decide_eq_false_2; [done|]. rewrite list_elem_of_filter. tauto.
  - rewrite andb_false_r. apply (cv_inv_update s (cv_waiters s) (Some t)); auto; [apply Hs|].
    unfold is_queued in H4. rewrite H4. done.
Qed.
End Steps.

(** Waking the first waiter while a thread outside a wait holds the interlock:
    it leaves the queue, and if it was asleep it is now on the run queue. *)
Lemma wake_first_spec s t y w : cv_inv s -> cv_owner s = Some t -> cv_th s !! t = Some y -> ct_pc y = CvIdle ->
  w ∈ cv_waiters s -> exists x x', cv_th s !! w = Some x /\ ct_pc x' = ct_pc x /\ (ct_pc x = CvBlocked -> ct_runq x' = 1) /\
    cv_wake_first w s = CvSys (filter (fun z => z <> w) (cv_waiters s)) (cv_owner s) (<[w := x']> (cv_th s)) (cv_fault s) /\
    cv_inv (cv_wake_first w s).
Proof.
  intros Hs Ho Ht Hidle Hw. destruct (ci_known s Hs w Hw) as [x Hx]. pose proof (ci_th s Hs w x Hx) as Hin.
  assert (Hwt : w <> t).
  { intros ->. simplify_eq. unfold ct_inv in Hin. rewrite Hidle in Hin. destruct Hin as (_ & _ & Hq%bool_decide_eq_false). done. }
  assert (Hq : is_queued s w = true) by (by apply bool_decide_eq_true).
  assert (How : owns s w = false) by (apply bool_decide_eq_false; congruence).
  assert (exists x', cv_wake_first w s = CvSys (filter (fun z => z <> w) (cv_waiters s)) (cv_owner s) (<[w := x']> (cv_th s)) (cv_fault s) /\
    ct_pc x' = ct_pc x /\ (ct_pc x = CvBlocked -> ct_runq x' = 1) /\ ct_inv x' false false) as (x' & E & Hpc & Hr & Hx').
  { unfold cv_wake_first, remove_waiter. rewrite bool_decide_eq_true_2 by done. cbn [cv_th set_waiters]. rewrite Hx.
    rewrite Hq, How in Hin. unfold ct_inv in Hin.
    destruct x as [pc timed wt to tq rq]. cbn [ct_pc ct_timed ct_wthread ct_timedout ct_timeq ct_runq] in *.
    destruct pc; [by destruct Hin as (_ & _ & ?)|by destruct Hin| |].
    - destruct Hin as (_ & <- & Hin). destruct timed.
      + unfold cv_wake_timeq. cbn [set_th cv_th]. rewrite lookup_insert_eq. cbn [ct_timedout ct_timeq].
        destruct Hin as [(-> & -> & ->)|(-> & Hto & ->)]; cbn.
        * eexists. split; [unfold set_th, set_waiters; cbn; by rewrite insert_insert_eq|]. unfold ct_inv. cbn. intuition.
        * destruct (Z.eqb_spec to 0); [done|]. eexists. split; [done|]. unfold ct_inv. cbn. intuition.
      + destruct Hin as (-> & -> & ->). unfold cv_wake. cbn [set_th cv_th]. rewrite lookup_insert_eq.
        eexists. split; [unfold set_th, set_waiters; cbn; by rewrite insert_insert_eq|]. unfold ct_inv. cbn. intuition.
    - destruct Hin as (_ & -> & -> & <- & Hin). destruct (Hin eq_refl) as [-> Hto].
      unfold cv_wake_timeq. cbn [set_th cv_th]. rewrite lookup_insert_eq. cbn [ct_timedout ct_timeq].
      destruct (Z.eqb_spec to 0); [done|]. eexists. split; [done|]. unfold ct_inv. cbn. intuition congruence. }
  exists x, x'. split_and!; try done. rewrite E. apply cv_inv_update; auto.
  - apply NoDup_filter, Hs.
  - intros t' Hne. rewrite list_elem_of_filter. tauto.
  - rewrite !bool_decide_eq_false_2; [done|congruence|rewrite list_elem_of_filter; tauto].
Qed.

Lemma inv_signal s t y : cv_inv s -> cv_owner s = Some t -> cv_th s !! t = Some y -> ct_pc y = CvIdle ->
  cv_inv (rumpuser_cv_signal s).
Proof.
  intros Hs Ho Ht Hy. unfold rumpuser_cv_signal. destruct (cv_waiters s) as [|w l] eqn:E; [done|].
  destruct (wake_first_spec s t y w Hs Ho Ht Hy ltac:(rewrite E; set_solver)) as (? & ? & ? & ? & ? & ? & ?). done.
Qed.

(** What a broadcast leaves: nobody queued, every sleeper on the run queue. *)
Lemma broadcast_loop_spec t y n s : cv_inv s -> cv_owner s = Some t -> cv_th s !! t = Some y -> ct_pc y = CvIdle ->
  length (cv_waiters s) = n ->
  cv_inv (cv_broadcast_loop n s) /\ cv_waiters (cv_broadcast_loop n s) = [].
Proof.
  intros Hs Ho Ht Hy. revert s Hs Ho Ht. induction n as [|n IH]; intros s Hs Ho Ht Hn.
  { by destruct (cv_waiters s) eqn:E; cbn [cv_broadcast_loop]. }
  cbn [cv_broadcast_loop]. destruct (cv_waiters s) as [|w l] eqn:E; [done|].
  destruct (wake_first_spec s t y w Hs Ho Ht Hy ltac:(rewrite E; set_solver)) as (x & x' & Hx & Hpc & _ & Ew & Hs').
  assert (Hwt : w <> t).
  { intros ->. simplify_eq. pose proof (ci_th s Hs t y Ht) as Hin. unfold ct_inv in Hin. rewrite Hy in Hin.
    destruct Hin as (_ & _ & Hq%bool_decide_eq_false). apply Hq. rewrite E. set_solver. }
  apply IH; [done| | |].
  - by rewrite Ew.
  - rewrite Ew. cbn [cv_th]. by rewrite lookup_insert_ne.
  - rewrite Ew. cbn [cv_waiters]. rewrite E. pose proof (ci_nodup s Hs) as Hnd. rewrite E in Hnd.
    apply NoDup_cons in Hnd as [Hnin Hnd]. rewrite filter_cons_False by tauto.
    rewrite filter_notin by done. simpl in Hn. lia.
Qed.

Lemma cv_inv_start threads : cv_inv (cv_start threads).
Proof.
  split; cbn; [done|apply NoDup_nil_2|set_solver|].
  intros t x Hx. apply lookup_set_to_map in Hx as (y & _ & [= -> <-]); [|by intros ? ? _ _ ?].
  unfold ct_inv, ct_new, is_queued, owns. cbn. by rewrite bool_decide_eq_false_2 by set_solver.
Qed.
Lemma cv_inv_step t a s s' : cv_inv s -> cv_step t a s = Some s' -> cv_inv s'.
Proof.
  intros Hs. unfold cv_step. destruct (cv_th s !! t) as [x|] eqn:Hx; [|done].
  destruct a; try destruct (ct_pc x) eqn:Hpc; try done; try case_bool_decide; try done;
    intros Heq; simplify_eq; eauto using inv_enter, inv_exit, inv_wait, inv_signal, inv_callback, inv_resume.
  all: try (destruct (ct_timeq x) eqn:Hq; [|done]; simplify_eq;
            pose proof (inv_expire s t x Hs Hx Hq) as HH; by rewrite Hpc in HH).
  all: try (destruct (Z.ltb_spec 0 (ct_runq x)); [|done]; simplify_eq;
            pose proof (inv_dispatch s t x Hs Hx ltac:(lia)) as HH; by rewrite Hpc in HH).
  eapply broadcast_loop_spec; eauto.
Qed.
Lemma cv_reach_inv threads s : cv_reach threads s -> cv_inv s.
Proof. induction 1; [apply cv_inv_start|by eapply cv_inv_step]. Qed.

(** However threads wait, time out, signal and broadcast: no element is ever
    removed from a queue it is not on, a thread is on the run queue at most
    once, and a thread that is switched out and not on the run queue is still
    queued on the condition variable (and on the timeout queue if its wait has
    a deadline), so that a later signal can reach it. *)
Theorem cv_no_lost_sleeper threads s : cv_reach threads s ->
  cv_fault s = false /\
  forall t x, cv_th s !! t = Some x -> 0 <= ct_runq x <= 1 /\
    (ct_pc x = CvBlocked -> ct_runq x = 0 -> t ∈ cv_waiters s /\ (ct_timed x = true -> ct_timeq x = true)).
Proof.
  intros Hr. pose proof (cv_reach_inv _ _ Hr) as Hs. split; [apply Hs|]. intros t x Hx.
  pose proof (ci_th s Hs t x Hx) as H. unfold ct_inv in H. split.
  - destruct (ct_pc x); try lia. destruct H as (_ & _ & H). destruct (ct_wthread x); [destruct (ct_timed x)|]; lia.
  - intros Hpc Hr0. rewrite Hpc in H. destruct H as (_ & Hq & H). destruct (ct_wthread x); [|lia].
    split; [by apply bool_decide_eq_true in Hq|]. intros Ht. rewrite Ht in H. intuition lia.
Qed.

(** A broadcast by the holder of the interlock empties the queue and leaves
    every thread that is switched out on the run queue. *)
Theorem cv_broadcast_wakes_all threads s s' t : cv_reach threads s -> cv_step t CvBroadcast s = Some s' ->
  cv_waiters s' = [] /\ forall t' x, cv_th s' !! t' = Some x -> ct_pc x = CvBlocked -> ct_runq x = 1.
Proof.
  intros Hr Hstep. pose proof (cv_reach_inv _ _ Hr) as Hs. pose proof (cv_inv_step _ _ _ _ Hs Hstep) as Hs'.
  assert (Hw : cv_waiters s' = []).
  { unfold cv_step in Hstep. destruct (cv_th s !! t) as [x|] eqn:Hx; [|done]. destruct (ct_pc x) eqn:Hpc; try done.
    case_bool_decide as Ho; [|done]. injection Hstep as <-. by destruct (broadcast_loop_spec t x _ s Hs Ho Hx Hpc eq_refl). }
  split; [done|]. intros t' x Hx Hpc. pose proof (ci_th s' Hs' t' x Hx) as H. unfold ct_inv in H. rewrite Hpc in H.
  destruct H as (_ & Hq & H). unfold is_queued in Hq. rewrite Hw in Hq.
  rewrite bool_decide_eq_false_2 in Hq by set_solver. rewrite <- Hq in H. by destruct H.
Qed.

(** ** Runs *)
Fixpoint cv_run (l : list (Z * cvact)) (s : cvsys) : option cvsys :=
  match l with [] => Some s | (t, a) :: l => s' ← cv_step t a s; cv_run l s' end.
Lemma cv_run_reach threads l s s' : cv_reach threads s -> cv_run l s = Some s' -> cv_reach threads s'.
Proof.
  revert s. induction l as [|[t a] l IH]; cbn [cv_run]; intros s Hs H; [by simplify_eq|].
  destruct (cv_step t a s) as [s1|] eqn:E; [|done]. eapply IH; [|exact H]. by eapply cv_next.
Qed.

(** Thread 1 waits with a deadline, thread 2 without one; thread 1's time runs
    out; thread 3 enters. *)
Definition race : list (Z * cvact) :=
  [(1, CvEnter); (1, CvWait true); (1, CvCallback); (2, CvEnter); (2, CvWait false); (2, CvCallback);
   (1, CvExpire); (3, CvEnter)].
Definition race_threads : gset Z := {[1; 2; 3]}.

Lemma cv_no_lost_sleeper_witness : exists s, cv_run race (cv_start race_threads) = Some s /\ cv_fault s = false /\
  (exists x, cv_th s !! 2 = Some x /\ ct_pc x = CvBlocked /\ ct_runq x = 0) /\ 2 ∈ cv_waiters s.
Proof.
  destruct (cv_run race (cv_start race_threads)) as [s|] eqn:E; [|vm_compute in E; discriminate].
  assert (Hr : cv_reach race_threads s) by (eapply cv_run_reach; [apply cv_init|exact E]).
  assert (Hx : exists x, cv_th s !! 2 = Some x /\ ct_pc x = CvBlocked /\ ct_runq x = 0).
  { vm_compute in E. injection E as <-. eexists. split; [reflexivity|]. split; reflexivity. }
  destruct (cv_no_lost_sleeper race_threads s Hr) as [Hf Hall]. exists s. split; [done|]. split; [done|]. split; [done|].
  destruct Hx as (x & Hx & Hpc & Hr0). apply (Hall 2 x Hx); done.
Defined.

Lemma cv_broadcast_wakes_all_witness : exists s s', cv_reach race_threads s /\ cv_step 3 CvBroadcast s = Some s' /\
  cv_waiters s' = [].
Proof.
  destruct (cv_run race (cv_start race_threads)) as [s|] eqn:E; [|vm_compute in E; discriminate].
  assert (Hr : cv_reach race_threads s) by (eapply cv_run_reach; [apply cv_init|exact E]).
  destruct (cv_step 3 CvBroadcast s) as [s'|] eqn:E'; [|vm_compute in E; injection E as <-; vm_compute in E'; discriminate].
  exists s, s'. split; [done|]. split; [done|]. apply (cv_broadcast_wakes_all race_threads s s' 3 Hr E').
Defined.

(** A signal can be lost on a waiter whose deadline has passed: it is taken
    off the queue and not woken again, while a thread that waits without a
    deadline stays asleep, and the signal makes no thread runnable. *)
Theorem cv_signal_lost : exists s s', cv_reach race_threads s /\ cv_step 3 CvSignal s = Some s' /\
  (exists x, cv_th s' !! 2 = Some x /\ ct_pc x = CvBlocked /\ ct_runq x = 0) /\
  cv_waiters s = [1; 2] /\ cv_waiters s' = [2] /\
  (ct_runq <$> cv_th s') = (ct_runq <$> cv_th s).
Proof.
  destruct (cv_run race (cv_start race_threads)) as [s|] eqn:E; [|vm_compute in E; discriminate].
  assert (Hr : cv_reach race_threads s) by (eapply cv_run_reach; [apply cv_init|exact E]).
  destruct (cv_step 3 CvSignal s) as [s'|] eqn:E'; [|vm_compute in E; injection E as <-; vm_compute in E'; discriminate].
  exists s, s'. split; [done|]. split; [done|]. vm_compute in E. injection E as <-. vm_compute in E'. injection E' as <-.
  split; [eexists; split; [reflexivity|split; reflexivity]|]. split_and!; vm_compute; reflexivity.
Qed.
