(* ===== verification/Lwp.v ===== *)
(** * Parking threads of the application (lib/librumprun_base/_lwp.c)

    One lwp that parks, any number of threads that unpark it, and the
    scheduler that expires its timeout, one atomic access at a time.  The
    handling of the timeout queue is that of sched.c: [bmk_insert_timeq],
    [bmk_sched_wake_timeq] and the expiry loop exclude each other by the
    queue's lock, so each is one step. *)

From S2P Require Import Prelude.

Definition RL_MASK_UNPARK : Z := 1.
Definition RL_MASK_PARK : Z := 2.

Inductive lwppc :=
| PkRun         (* running *)
| PkBlocking    (* in bmk_sched_block, the callback has not started *)
| PkCallback    (* in _lwp_park_callback, behind bmk_insert_timeq *)
| PkSelfWake    (* the callback found the lwp unparked, about to call rl_wake *)
| PkBlocked     (* the callback is done *)
| PkWoken.      (* dispatched again, before the store that cleans rl_value *)
Record rumprun_lwp := Lwp {
  rl_value : Z;
  rl_timed : bool;             (* rl_wake is bmk_sched_wake_timeq, not bmk_sched_wake *)
  lw_pc : lwppc;
  lw_timedout : bool;          (* bt_timedout *)
  lw_timeq : bool;             (* on the timeout queue *)
  lw_runq : Z;                 (* times on the run queue *)
  lw_wakers : Z;               (* unparkers that found 0 and have not called rl_wake yet *)
  lw_fault : bool              (* removed from a queue it is not on, or run twice *)
}.
Definition set_value v l := Lwp v (rl_timed l) (lw_pc l) (lw_timedout l) (lw_timeq l) (lw_runq l) (lw_wakers l) (lw_fault l).
Definition set_lpc v l := Lwp (rl_value l) (rl_timed l) v (lw_timedout l) (lw_timeq l) (lw_runq l) (lw_wakers l) (lw_fault l).
Definition set_timeq v l := Lwp (rl_value l) (rl_timed l) (lw_pc l) (lw_timedout l) v (lw_runq l) (lw_wakers l) (lw_fault l).
Definition set_wakers v l := Lwp (rl_value l) (rl_timed l) (lw_pc l) (lw_timedout l) (lw_timeq l) (lw_runq l) v (lw_fault l).
Definition enqueue_lwp l := Lwp (rl_value l) (rl_timed l) (lw_pc l) (lw_timedout l) (lw_timeq l) (lw_runq l + 1) (lw_wakers l) (lw_fault l).
Definition fault_if (b : bool) l := Lwp (rl_value l) (rl_timed l) (lw_pc l) (lw_timedout l) (lw_timeq l) (lw_runq l) (lw_wakers l) (lw_fault l || b).

(** [rl->rl_wake(thread)]. *)
Definition rl_wake (l : rumprun_lwp) : rumprun_lwp :=
  if rl_timed l then
    if lw_timedout l then l else enqueue_lwp (set_timeq false (fault_if (negb (lw_timeq l)) l))
  else enqueue_lwp l.

(** [_lwp_park] up to the switch: the lwp goes on at once (EALREADY) if it has
    been unparked in the meantime.  The unpark of another lwp that a call may ask
    for is a step of that lwp, before this one. *)
Definition lwp_park (timed : bool) (l : rumprun_lwp) : rumprun_lwp :=
  if rl_value l =? RL_MASK_UNPARK then set_value RL_MASK_PARK l
  else Lwp RL_MASK_PARK timed PkBlocking false (lw_timeq l) (lw_runq l) (lw_wakers l) (lw_fault l).
(** [_lwp_park_callback] in its three steps. *)
Definition park_insert (l : rumprun_lwp) : rumprun_lwp :=
  set_lpc PkCallback (if rl_timed l then set_timeq true l else l).
Definition park_xor (l : rumprun_lwp) : rumprun_lwp :=
  let l' := set_value (Z.lxor (rl_value l) RL_MASK_PARK) l in
  set_lpc (if rl_value l =? RL_MASK_PARK then PkBlocked else PkSelfWake) l'.
Definition park_selfwake (l : rumprun_lwp) : rumprun_lwp := set_lpc PkBlocked (rl_wake l).
(** [_lwp_unpark] and [_lwp_wakeup] up to their call of [rl_wake]; the latter's
    result is 0, or ENODEV. *)
Definition lwp_unpark (l : rumprun_lwp) : rumprun_lwp :=
  let l' := set_value RL_MASK_UNPARK l in
  if rl_value l =? 0 then set_wakers (lw_wakers l + 1) l' else l'.
Definition ENODEV : Z := 19.
Definition lwp_wakeup (l : rumprun_lwp) : Z * rumprun_lwp :=
  if rl_value l =? 0 then (0, set_wakers (lw_wakers l + 1) (set_value RL_MASK_UNPARK l)) else (ENODEV, l).
(** The scheduler expires the deadline; [bt_wake] is [_lwp_wake_timeq]. *)
Definition lwp_expire (l : rumprun_lwp) : rumprun_lwp :=
  let l' := Lwp RL_MASK_UNPARK (rl_timed l) (lw_pc l) true false (lw_runq l) (lw_wakers l) (lw_fault l) in
  if rl_value l =? 0 then enqueue_lwp l' else l'.

Inductive lwpact := LPark (timed : bool) | LInsert | LXor | LSelfWake | LUnpark | LWakeup | LWake | LExpire | LDispatch | LClean.
Definition lwp_step (a : lwpact) (l : rumprun_lwp) : option rumprun_lwp :=
  match a, lw_pc l with
  | LPark timed, PkRun => Some (lwp_park timed l)
  | LInsert, PkBlocking => Some (park_insert l)
  | LXor, PkCallback => Some (park_xor l)
  | LSelfWake, PkSelfWake => Some (park_selfwake l)
  | LUnpark, _ => Some (lwp_unpark l)
  | LWakeup, _ => Some (lwp_wakeup l).2
  | LWake, _ => if 0 <? lw_wakers l then Some (rl_wake (set_wakers (lw_wakers l - 1) l)) else None
  | LExpire, _ => if lw_timeq l then Some (lwp_expire l) else None
  | LDispatch, pc =>
      if 0 <? lw_runq l then
        let l' := Lwp (rl_value l) (rl_timed l) (lw_pc l) (lw_timedout l) (lw_timeq l) (lw_runq l - 1) (lw_wakers l) (lw_fault l) in
        Some (match pc with PkBlocked => set_lpc PkWoken l' | _ => fault_if true l' end)
      else None
  | LClean, PkWoken => Some (set_lpc PkRun (set_value RL_MASK_PARK l))
  | _, _ => None
  end.

(** [rumprun_makelwp], [rumprun_lwp_init]. *)
Definition lwp_start : rumprun_lwp := Lwp RL_MASK_PARK false PkRun false false 0 0 false.
(** Runs with the actions allowed by [ok]. *)
Inductive lwp_reach (ok : lwpact -> bool) (l0 : rumprun_lwp) : rumprun_lwp -> Prop :=
| lwp_init : lwp_reach ok l0 l0
| lwp_next a l l' : lwp_reach ok l0 l -> ok a = true -> lwp_step a l = Some l' -> lwp_reach ok l0 l'.
Definition untimed (a : lwpact) : bool := match a with LPark timed => negb timed | _ => true end.

(** ** One CPU: what runs without a switch in between is one step *)
Inductive lwpact1 := UPark (timed : bool) | UCallback | UUnpark | UWakeup | UExpire | UDispatch.
Definition lwp_wake_now (l : rumprun_lwp) : rumprun_lwp :=
  if 0 <? lw_wakers l then rl_wake (set_wakers (lw_wakers l - 1) l) else l.
Definition lwp_step1 (a : lwpact1) (l : rumprun_lwp) : option rumprun_lwp :=
  match a, lw_pc l with
  | UPark timed, PkRun => Some (lwp_park timed l)
  | UCallback, PkBlocking =>
      let l := park_xor (park_insert l) in
      Some (match lw_pc l with PkSelfWake => park_selfwake l | _ => l end)
  | UUnpark, PkBlocking => None            (* the switch runs the callback first *)
  | UUnpark, _ => Some (lwp_wake_now (lwp_unpark l))
  | UWakeup, PkBlocking => None
  | UWakeup, _ => Some (lwp_wake_now (lwp_wakeup l).2)
  | UExpire, _ => if lw_timeq l then Some (lwp_expire l) else None
  | UDispatch, PkBlocked =>
      if 0 <? lw_runq l then
        Some (set_lpc PkRun (set_value RL_MASK_PARK (Lwp (rl_value l) (rl_timed l) (lw_pc l) (lw_timedout l) (lw_timeq l)
               (lw_runq l - 1) (lw_wakers l) (lw_fault l))))
      else None
  | _, _ => None
  end.
Inductive lwp_reach1 : rumprun_lwp -> Prop :=
| lwp_init1 : lwp_reach1 lwp_start
| lwp_next1 a l l' : lwp_reach1 l -> lwp_step1 a l = Some l' -> lwp_reach1 l'.

(** ** The list of lwps *)
Definition FIRST_LWPID : Z := 1.
Record lwptab := LwpTab {
  all_lwp : list Z;                  (* the ids on the list, in the order of creation *)
  lwps : gmap Z rumprun_lwp          (* the structures, the main thread's included *)
}.
(** [lwpid2rl]: the structure, by its own id; 0 stands for the main thread. *)
Definition lwpid2rl (t : lwptab) (lid : Z) : option Z :=
  if lid =? 0 then Some FIRST_LWPID else snd <$> list_find (fun x => x = lid) (all_lwp t).
(** [_lwp_unpark] with nothing in between, and its result. *)
Definition unpark_id (t : lwptab) (lid : Z) : Z * lwptab :=
  match lwpid2rl t lid with
  | None => (-1, t)
  | Some id => (0, LwpTab (all_lwp t) (alter (fun l => lwp_wake_now (lwp_unpark l)) id (lwps t)))
  end.
(** [_lwp_unpark_all]. *)
Fixpoint unpark_loop (targets : list Z) (rv : Z) (t : lwptab) : Z * lwptab :=
  match targets with
  | [] => (rv, t)
  | lid :: targets =>
      let '(r, t) := unpark_id t lid in unpark_loop targets (if negb (r =? 0) then rv - 1 else rv) t
  end.
Definition lwp_unpark_all (targets : option (list Z)) (t : lwptab) : Z * lwptab :=
  match targets with
  | None => (1024, t)
  | Some l => unpark_loop l (Z.of_nat (length l)) t
  end.
(** [rumprun_makelwp], the part that concerns the list: the new id. *)
Definition makelwp_insert (id : Z) (t : lwptab) : lwptab :=
  LwpTab (all_lwp t ++ [id]) (<[id := lwp_start]> (lwps t)).

(** * Parking: when a wake-up cannot be lost, and when it is *)


Abbreviation UN := RL_MASK_UNPARK.
Abbreviation PK := RL_MASK_PARK.

(** Parks without a deadline, on any number of CPUs. *)
Definition lwp_inv (l : rumprun_lwp) : Prop :=
  lw_fault l = false /\ lw_timeq l = false /\ rl_timed l = false /\
  match lw_pc l with
  | PkRun | PkBlocking | PkCallback => (rl_value l = PK \/ rl_value l = UN) /\ lw_runq l = 0 /\ lw_wakers l = 0
  | PkSelfWake | PkWoken => (rl_value l = 3 \/ rl_value l = UN) /\ lw_runq l = 0 /\ lw_wakers l = 0
  | PkBlocked => rl_value l = 0 /\ lw_runq l = 0 /\ lw_wakers l = 0 \/
      (rl_value l = 3 \/ rl_value l = UN) /\ 0 <= lw_runq l /\ 0 <= lw_wakers l /\ lw_runq l + lw_wakers l = 1
  end.

(** Parks with or without a deadline, on one CPU. *)
Definition lwp_inv1 (l : rumprun_lwp) : Prop :=
  lw_fault l = false /\ lw_wakers l = 0 /\
  match lw_pc l with
  | PkRun | PkBlocking => (rl_value l = PK \/ rl_value l = UN) /\ lw_runq l = 0 /\ lw_timeq l = false /\
      (lw_pc l = PkBlocking -> lw_timedout l = false)
  | PkBlocked => rl_value l = 0 /\ lw_runq l = 0 /\ lw_timeq l = rl_timed l /\ lw_timedout l = false \/
      (rl_value l = 3 \/ rl_value l = UN) /\ lw_runq l = 1 /\ lw_timeq l = false
  | _ => False
  end.

(** The lwp that nothing wakes any more. *)
Definition lwp_dead (l : rumprun_lwp) : Prop :=
  lw_pc l = PkBlocked /\ (rl_value l = 3 \/ rl_value l = UN) /\ lw_timeq l = false /\ lw_runq l = 0 /\ lw_wakers l = 0.

Ltac lwp_open := unfold lwp_wake_now, lwp_expire, lwp_park, park_insert, park_xor, park_selfwake, lwp_unpark, lwp_wakeup, rl_wake,
  RL_MASK_PARK, RL_MASK_UNPARK in *; cbn in *.
Ltac lwp_splits := repeat first
  [ progress cbn in *
  | match goal with
    | H : _ /\ _ |- _ => destruct H
    | H : _ \/ _ |- _ => destruct H
    | H : Some _ = Some _ |- _ => injection H as <-
    | H : ?x = _ |- _ => is_var x; subst x
    | H : context [if 0 <? ?x then _ else _] |- _ => destruct (Z.ltb_spec 0 x)
    | H : context [if ?b then _ else _] |- _ => is_var b; destruct b
    end
  | discriminate | contradiction | lia ].

Lemma lwp_inv_step a l l' : untimed a = true -> lwp_inv l -> lwp_step a l = Some l' -> lwp_inv l'.
Proof.
  destruct l as [v tm pc to tq rq wk ft]. unfold lwp_inv, lwp_step. intros Ha H E.
  destruct a as [[]| | | | | | | | |], pc; cbn in Ha; try discriminate; lwp_open; lwp_splits; intuition lia.
Qed.

Lemma lwp_inv1_step a l l' : lwp_inv1 l -> lwp_step1 a l = Some l' -> lwp_inv1 l'.
Proof.
  destruct l as [v tm pc to tq rq wk ft]. unfold lwp_inv1, lwp_step1. intros H E.
  destruct a as [[]| | | | |], pc, tm, to; lwp_open; lwp_splits; try change (0 <? 0 + 1) with true; cbn;
    intuition (try lia; try congruence).
Qed.

Lemma lwp_dead_step a l l' : lwp_dead l -> lwp_step a l = Some l' -> lwp_dead l'.
Proof.
  destruct l as [v tm pc to tq rq wk ft]. unfold lwp_dead, lwp_step. intros H E.
  destruct a as [[]| | | | | | | | |], pc; lwp_open; lwp_splits; intuition lia.
Qed.

Lemma lwp_reach_inv l : lwp_reach untimed lwp_start l -> lwp_inv l.
Proof.
  induction 1; [|by eapply lwp_inv_step].
  unfold lwp_inv. cbn. intuition.
Qed.
Lemma lwp_reach1_inv l : lwp_reach1 l -> lwp_inv1 l.
Proof.
  induction 1; [|by eapply lwp_inv1_step].
  unfold lwp_inv1. cbn. intuition congruence.
Qed.

(** A step with its result, for runs that are computed. *)
Lemma lwp_run ok acts l0 l l' : lwp_reach ok l0 l -> Forall (fun a => ok a = true) acts ->
  foldl (fun o a => o ≫= lwp_step a) (Some l) acts = Some l' -> lwp_reach ok l0 l'.
Proof.
  revert l. induction acts as [|a acts IH]; intros l H Hok E; cbn in E; [congruence|].
  apply Forall_cons in Hok as [Ha Hok].
  destruct (lwp_step a l) as [l1|] eqn:E1; [|exfalso; clear -E; induction acts; cbn in E; auto; discriminate].
  eapply IH; [|done|exact E]. by eapply lwp_next.
Qed.

(** An lwp that parks without a deadline misses no unpark, on any number
    of CPUs and at every interleaving of the accesses of [_lwp_park], its
    callback, [_lwp_unpark] and [_lwp_wakeup]: it is on the run queue at most
    once, never while it runs, and once it is switched out with nobody about to
    wake it, no unpark is pending. *)
Theorem lwp_park_no_lost_wakeup l :
  lwp_reach untimed lwp_start l ->
  lw_fault l = false /\ 0 <= lw_runq l <= 1 /\ (lw_runq l = 1 -> lw_pc l = PkBlocked) /\
  (lw_pc l = PkBlocked -> lw_runq l = 0 -> lw_wakers l = 0 -> rl_value l = 0).
Proof.
  intros H%lwp_reach_inv. destruct l as [v tm pc to tq rq wk ft]. unfold lwp_inv in H. cbn in *.
  destruct pc; intuition (lia || congruence).
Qed.
Lemma lwp_park_no_lost_wakeup_witness :
  lw_fault (Lwp 3 false PkBlocked false false 1 0 false) = false.
Proof.
  refine (proj1 (lwp_park_no_lost_wakeup (Lwp 3 false PkBlocked false false 1 0 false) _)).
  apply (lwp_run _ [LPark false; LInsert; LUnpark; LXor; LSelfWake] _ lwp_start);
    [apply lwp_init | repeat constructor | reflexivity].
Defined.

(** On one CPU, where the callback of a park runs in the switch and an
    unpark is not interrupted, parks with a deadline miss nothing either: a
    parked lwp that is not on the run queue has no unpark pending, and one that
    parked with a deadline is still on the timeout queue. *)
Theorem lwp_park_uniprocessor l :
  lwp_reach1 l ->
  lw_fault l = false /\ 0 <= lw_runq l <= 1 /\ (lw_runq l = 1 -> lw_pc l = PkBlocked /\ lw_timeq l = false) /\
  (lw_pc l = PkBlocked -> lw_runq l = 0 -> rl_value l = 0 /\ lw_timeq l = rl_timed l).
Proof.
  intros H%lwp_reach1_inv. destruct l as [v tm pc to tq rq wk ft]. unfold lwp_inv1 in H. cbn in *.
  destruct pc; intuition (lia || congruence).
Qed.
Lemma lwp_park_uniprocessor_witness :
  lw_fault (Lwp 1 true PkBlocked true false 1 0 false) = false.
Proof.
  refine (proj1 (lwp_park_uniprocessor (Lwp 1 true PkBlocked true false 1 0 false) _)).
  eapply (lwp_next1 UExpire (Lwp 0 true PkBlocked false true 0 0 false)); [|reflexivity].
  eapply (lwp_next1 UCallback (lwp_park true lwp_start)); [|reflexivity].
  eapply (lwp_next1 (UPark true)); [apply lwp_init1|reflexivity].
Defined.

(** With several CPUs a deadline that expires between the callback's
    [bmk_insert_timeq] and its exclusive or, or between the exchange of an
    unpark and its [bmk_sched_wake_timeq], leaves the lwp switched out for ever:
    it is on no queue, nobody is about to wake it, and no later unpark, wakeup
    or expiry puts it on the run queue. *)
Theorem lwp_timed_park_lost :
  Forall (fun acts => exists l, foldl (fun o a => o ≫= lwp_step a) (Some lwp_start) acts = Some l /\
    forall l', lwp_reach (fun _ => true) l l' -> lw_pc l' = PkBlocked /\ lw_runq l' = 0)
  [ [LPark true; LInsert; LExpire; LXor; LSelfWake]; [LPark true; LInsert; LXor; LUnpark; LExpire; LWake] ].
Proof.
  repeat constructor.
  all: eexists; split; [reflexivity|]; intros l' H;
    assert (lwp_dead l') as D by (induction H; [unfold lwp_dead; cbn; intuition | by eapply lwp_dead_step]);
    unfold lwp_dead in D; tauto.
Qed.

(** ** The table *)
Lemma unpark_id_list t lid : all_lwp (unpark_id t lid).2 = all_lwp t.
Proof. unfold unpark_id. by destruct (lwpid2rl t lid). Qed.
Lemma lwpid2rl_list t t' lid : all_lwp t' = all_lwp t -> lwpid2rl t' lid = lwpid2rl t lid.
Proof. unfold lwpid2rl. by intros ->. Qed.

(** [_lwp_unpark_all] counts the targets that exist. *)
Lemma unpark_loop_count targets : forall rv t,
  (unpark_loop targets rv t).1 = rv - Z.of_nat (length (filter (fun lid => lwpid2rl t lid = None) targets)).
Proof.
  induction targets as [|lid targets IH]; intros rv t; [cbn; lia|].
  cbn [unpark_loop]. pose proof (unpark_id_list t lid) as El.
  destruct (unpark_id t lid) as [r t'] eqn:E. rewrite IH. cbn in El.
  rewrite (list_filter_iff (fun lid0 => lwpid2rl t' lid0 = None) (fun lid0 => lwpid2rl t lid0 = None))
    by (intros; by rewrite (lwpid2rl_list t t')).
  rewrite filter_cons. unfold unpark_id in E.
  destruct (lwpid2rl t lid) eqn:E1; injection E as <- <-; case_decide; try congruence; cbn [length]; cbn; lia.
Qed.
Theorem unpark_all_result targets t :
  (lwp_unpark_all (Some targets) t).1 = Z.of_nat (length (filter (fun lid => lwpid2rl t lid <> None) targets)).
Proof.
  unfold lwp_unpark_all. rewrite unpark_loop_count.
  induction targets as [|lid targets IH]; [done|]. rewrite !filter_cons.
  destruct (lwpid2rl t lid); repeat case_decide; try congruence; cbn in *; lia.
Qed.
