(* ===== verification/Clock.v ===== *)
(** * Calendar time (platform/hw/clock_subr.c) *)

From S2P Require Import Prelude.

Definition POSIX_BASE_YEAR : Z := 1970.
Definition FEBRUARY : Z := 2.
Definition DAYSTO2000 : Z := 365 * 30 + 7.
Definition DAYS4YEARS : Z := 365 * 4 + 1.
Definition DAYS100YEARS : Z := 365 * 100 + 24.
Definition DAYS400YEARS : Z := 365 * 400 + 97.

Record bmk_clock_ymdhms := Ymdhms {
  dt_year : Z; dt_mon : Z; dt_day : Z; dt_hour : Z; dt_min : Z; dt_sec : Z
}.

Definition days_in_month (m : Z) : Z :=
  if m =? 2 then 28
  else if (m =? 4) || (m =? 6) || (m =? 9) || (m =? 11) then 30
  else if (m =? 1) || (m =? 3) || (m =? 5) || (m =? 7) || (m =? 8) || (m =? 10) || (m =? 12) then 31
  else -1.

Definition is_leap_year (year : Z) : bool :=
  if negb (Z.land year 3 =? 0) then false
  else if negb (year mod 100 =? 0) then true
  else year mod 400 =? 0.
Definition days_per_year (year : Z) : Z := if is_leap_year year then 366 else 365.

(** [for (i = a; i < b; i++) acc += f(i)], at 64 bits. *)
Definition sum_up (f : Z -> Z) (a b acc : Z) : Z :=
  foldl (fun acc i => u64 (acc + f i)) acc (seqZ a (b - a)).

Definition clock_ymdhms_to_secs (dt : bmk_clock_ymdhms) : Z :=
  let year := dt_year dt in
  if year <? POSIX_BASE_YEAR then 0 else
  let days := if is_leap_year year && (FEBRUARY <? dt_mon dt) then 1 else 0 in
  let days :=
    if year <? 2000 then sum_up days_per_year POSIX_BASE_YEAR year days
    else
      let days := days + DAYSTO2000 in
      let year := year - 2000 in
      let i := year / 400 in
      let days := u64 (days + i * DAYS400YEARS) in
      let year := year - i * 400 in
      let i := year / 100 in
      let days := u64 (days + i * DAYS100YEARS) in
      let year := year - i * 100 in
      let i := year / 4 in
      let days := u64 (days + i * DAYS4YEARS) in
      let year := year - i * 4 in
      sum_up days_per_year (dt_year dt - year) (dt_year dt) days in
  let days := sum_up days_in_month 1 (dt_mon dt) days in
  let days := u64 (days + (dt_day dt - 1)) in
  let secs := u64 (((days * 24 + dt_hour dt) * 60 + dt_min dt) * 60 + dt_sec dt) in
  s64 secs.

(** BCD to binary. *)
Definition bcdtobin (bcd : Z) : Z := Z.land (Z.shiftr bcd 4) 15 * 10 + Z.land bcd 15.

(** * Calendar time against the Gregorian calendar *)


(** The rule of the calendar. *)
Definition leap (y : Z) : Prop := (y mod 4 = 0 /\ y mod 100 <> 0) \/ y mod 400 = 0.
#[export] Instance leap_dec y : Decision (leap y).
Proof. unfold leap. apply _. Defined.

Fixpoint days_before_year (n : nat) : Z :=      (* of 1970 + n *)
  match n with O => 0 | S n => days_before_year n + (if decide (leap (1970 + Z.of_nat n)) then 366 else 365) end.
Definition month_length (lp : bool) (m : Z) : Z :=
  match m with
  | 2 => if lp then 29 else 28
  | 4 | 6 | 9 | 11 => 30
  | _ => 31
  end.
Fixpoint days_before_month (lp : bool) (n : nat) : Z :=     (* of month n + 1 *)
  match n with O => 0 | S n => days_before_month lp n + month_length lp (Z.of_nat (S n)) end.

Definition gregorian_secs (dt : bmk_clock_ymdhms) : Z :=
  let days := days_before_year (Z.to_nat (dt_year dt - 1970)) +
    days_before_month (bool_decide (leap (dt_year dt))) (Z.to_nat (dt_mon dt - 1)) + (dt_day dt - 1) in
  ((days * 24 + dt_hour dt) * 60 + dt_min dt) * 60 + dt_sec dt.

Lemma is_leap_year_spec y : is_leap_year y = true <-> leap y.
Proof.
  unfold is_leap_year, leap. change 3 with (2 ^ 2 - 1). rewrite land_mask_mod by lia. change (2 ^ 2) with 4.
  destruct (Z.eqb_spec (y mod 4) 0), (Z.eqb_spec (y mod 100) 0), (Z.eqb_spec (y mod 400) 0); cbn;
    (split; intros H; [try done|try done]); Z.to_euclidean_division_equations; lia.
Qed.
Lemma days_per_year_spec y : days_per_year y = if decide (leap y) then 366 else 365.
Proof.
  unfold days_per_year. destruct (is_leap_year y) eqn:E.
  - rewrite decide_True; [done|]. by apply is_leap_year_spec.
  - rewrite decide_False; [done|]. rewrite <- is_leap_year_spec. congruence.
Qed.

(** Days from year 0 in closed form. *)
Definition day_number (y : Z) : Z := 365 * y + (y + 3) / 4 - (y + 99) / 100 + (y + 399) / 400.
Lemma day_number_step y : day_number (y + 1) = day_number y + days_per_year y.
Proof.
  rewrite days_per_year_spec. unfold day_number, leap. case_decide; Z.to_euclidean_division_equations; lia.
Qed.
Lemma days_before_year_closed n : days_before_year n = day_number (1970 + Z.of_nat n) - day_number 1970.
Proof.
  induction n as [|n IH]; [done|]. cbn [days_before_year]. rewrite IH, <- days_per_year_spec.
  replace (1970 + Z.of_nat (S n)) with (1970 + Z.of_nat n + 1) by lia. rewrite day_number_step. lia.
Qed.

(** The loops do not wrap around. *)
Lemma sum_up_plain f a b acc : (forall i, a <= i < b -> 0 <= f i <= 366) -> 0 <= acc ->
  acc + 366 * (b - a) < 2 ^ 64 -> sum_up f a b acc = acc + foldr Z.add 0 (map f (seqZ a (b - a))).
Proof.
  unfold sum_up. intros Hf H0 Hb. destruct (Z.le_gt_cases b a) as [Hle|Hlt].
  { rewrite seqZ_nil by lia. simpl. lia. }
  remember (Z.to_nat (b - a)) as n eqn:En. revert acc a Hf H0 Hb Hlt En.
  induction n as [|n IH]; intros acc a Hf H0 Hb Hlt En; [lia|].
  rewrite seqZ_cons by lia. cbn [foldl map foldr]. pose proof (Hf a ltac:(lia)) as Hfa.
  assert (E : u64 (acc + f a) = acc + f a) by (apply Z.mod_small; lia). rewrite E.
  replace (Z.pred (b - a)) with (b - Z.succ a) by lia. destruct (decide (n = 0%nat)) as [->|Hn].
  - rewrite seqZ_nil by lia. simpl. lia.
  - rewrite IH; try lia. intros i Hi. apply Hf. lia.
Qed.
Lemma sum_years a n : foldr Z.add 0 (map days_per_year (seqZ a (Z.of_nat n))) = day_number (a + Z.of_nat n) - day_number a.
Proof.
  revert a. induction n as [|n IH]; intros a; [change (Z.of_nat 0) with 0; rewrite Z.add_0_r; simpl; lia|].
  rewrite seqZ_cons by lia. cbn [map foldr]. replace (Z.pred (Z.of_nat (S n))) with (Z.of_nat n) by lia.
  rewrite IH. replace (Z.succ a) with (a + 1) by lia. rewrite day_number_step.
  replace (a + 1 + Z.of_nat n) with (a + Z.of_nat (S n)) by lia. lia.
Qed.
Lemma sum_up_years a b acc : a <= b -> 0 <= acc -> acc + 366 * (b - a) < 2 ^ 64 ->
  sum_up days_per_year a b acc = acc + day_number b - day_number a.
Proof.
  intros Hab H0 Hb. rewrite sum_up_plain; [|intros i _; unfold days_per_year; destruct (is_leap_year i); lia|done|done].
  replace (b - a) with (Z.of_nat (Z.to_nat (b - a))) by lia. rewrite sum_years.
  replace (a + Z.of_nat (Z.to_nat (b - a))) with b by lia. lia.
Qed.

Lemma is_leap_year_bool y : is_leap_year y = bool_decide (leap y).
Proof.
  destruct (is_leap_year y) eqn:E; symmetry; [by apply bool_decide_eq_true, is_leap_year_spec|].
  apply bool_decide_eq_false. rewrite <- is_leap_year_spec. congruence.
Qed.

Lemma months_table lp m : 1 <= m <= 12 ->
  (if lp && (FEBRUARY <? m) then 1 else 0) + foldr Z.add 0 (map days_in_month (seqZ 1 (m - 1))) =
  days_before_month lp (Z.to_nat (m - 1)).
Proof.
  intros Hm.
  assert (Hc : m = 1 \/ m = 2 \/ m = 3 \/ m = 4 \/ m = 5 \/ m = 6 \/ m = 7 \/ m = 8 \/ m = 9 \/ m = 10 \/ m = 11 \/ m = 12) by lia.
  repeat (destruct Hc as [->|Hc]); try subst m; destruct lp; vm_compute; reflexivity.
Qed.

Lemma months_ok y m acc : 1 <= m <= 12 -> 0 <= acc < 2 ^ 63 ->
  sum_up days_in_month 1 m (acc + if is_leap_year y && (FEBRUARY <? m) then 1 else 0) =
  acc + days_before_month (bool_decide (leap y)) (Z.to_nat (m - 1)).
Proof.
  intros Hm Ha. rewrite <- months_table by done. rewrite is_leap_year_bool.
  rewrite sum_up_plain; [lia|intros i Hi|destruct (_ && _); lia|destruct (_ && _); lia].
  unfold days_in_month. assert (1 <= i < 12) by lia. zcases; lia.
Qed.

(** Years in which the code's 100-year steps misplace a leap day. *)
Definition late_century_start (y : Z) : Prop := 2000 <= y /\ 100 <= y mod 400 /\ y mod 100 < 4.
#[export] Instance late_century_start_dec y : Decision (late_century_start y).
Proof. unfold late_century_start. apply _. Defined.

Definition valid_dt (dt : bmk_clock_ymdhms) : Prop :=
  1970 <= dt_year dt < 2 ^ 32 /\ 1 <= dt_mon dt <= 12 /\ 1 <= dt_day dt <= 31 /\
  0 <= dt_hour dt < 24 /\ 0 <= dt_min dt < 60 /\ 0 <= dt_sec dt < 61.

Lemma year_steps y : 2000 <= y ->
  let r := y - 2000 in let a := r / 400 in let b := (r - a * 400) / 100 in
  let c := (r - a * 400 - b * 100) / 4 in let d := r - a * 400 - b * 100 - c * 4 in
  0 <= a /\ 0 <= b <= 3 /\ 0 <= c <= 24 /\ 0 <= d <= 3 /\
  day_number (y - d) = day_number 1970 + DAYSTO2000 + a * DAYS400YEARS + b * DAYS100YEARS + c * DAYS4YEARS +
    (if decide (late_century_start y) then 1 else 0).
Proof.
  intros Hy r a b c d.
  assert (Hr : r = 400 * a + (r - a * 400)) by lia.
  assert (Ha : 0 <= r - a * 400 < 400) by (unfold a; Z.to_euclidean_division_equations; lia).
  assert (Hb : 0 <= r - a * 400 - b * 100 < 100) by (unfold b; Z.to_euclidean_division_equations; lia).
  assert (Hd : 0 <= d < 4) by (unfold d, c; Z.to_euclidean_division_equations; lia).
  assert (H0a : 0 <= a) by (apply Z.div_pos; lia).
  assert (H0b : 0 <= b <= 3) by lia. assert (H0c : 0 <= c <= 24) by lia.
  split_and!; try lia.
  assert (Ey : y = 2000 + 400 * a + 100 * b + 4 * c + d) by lia. clearbody a b c d r.
  unfold day_number, DAYSTO2000, DAYS400YEARS, DAYS100YEARS, DAYS4YEARS.
  assert (Em : y mod 400 = 100 * b + 4 * c + d).
  { symmetry. apply (Z.mod_unique_pos _ _ (5 + a)); lia. }
  assert (Em' : y mod 100 = 4 * c + d).
  { symmetry. apply (Z.mod_unique_pos _ _ (20 + 4 * a + b)); lia. }
  replace (y - d) with (2000 + 400 * a + 100 * b + 4 * c) by lia.
  change ((1970 + 3) / 4) with 493. change ((1970 + 99) / 100) with 20. change ((1970 + 399) / 400) with 5.
  case_decide as Hl; unfold late_century_start in Hl; rewrite Em, Em' in Hl; clear Em Em';
    Z.to_euclidean_division_equations; lia.
Qed.

Lemma day_number_bound y : 1970 <= y < 2 ^ 32 -> 0 <= day_number y - day_number 1970 < 2 ^ 42.
Proof.
  intros Hy. unfold day_number. change (2 ^ 42) with 4398046511104. change (2 ^ 32) with 4294967296 in Hy.
  Z.to_euclidean_division_equations. lia.
Qed.
Lemma months_bound lp n : (n <= 11)%nat -> 0 <= days_before_month lp n <= 366.
Proof.
  intros Hn. assert (Hc : forall k, (k <= n)%nat -> 0 <= days_before_month lp k <= 31 * Z.of_nat k).
  { induction k as [|k IH]; intros Hk; [cbn; lia|]. cbn [days_before_month]. specialize (IH ltac:(lia)).
    assert (0 <= month_length lp (Z.of_nat (S k)) <= 31); [|lia].
    unfold month_length. destruct lp; repeat case_match; lia. }
  specialize (Hc n ltac:(lia)). lia.
Qed.

(** The year part of the conversion, leap day of this year aside. *)
Lemma years_ok y bonus : 1970 <= y < 2 ^ 32 -> 0 <= bonus <= 1 ->
  (if y <? 2000 then sum_up days_per_year POSIX_BASE_YEAR y bonus
   else let days := bonus + DAYSTO2000 in
      let year := y - 2000 in let i := year / 400 in
      let days := u64 (days + i * DAYS400YEARS) in
      let year := year - i * 400 in let i := year / 100 in
      let days := u64 (days + i * DAYS100YEARS) in
      let year := year - i * 100 in let i := year / 4 in
      let days := u64 (days + i * DAYS4YEARS) in
      let year := year - i * 4 in
      sum_up days_per_year (y - year) y days) =
  day_number y - day_number 1970 + bonus - (if decide (late_century_start y) then 1 else 0).
Proof.
  intros Hy Hb. destruct (Z.ltb_spec y 2000) as [Hlt|Hge].
  - rewrite decide_False by (unfold late_century_start; lia). unfold POSIX_BASE_YEAR.
    rewrite sum_up_years by lia. lia.
  - destruct (year_steps y Hge) as (Ha & Hbb & Hc & Hd & E). cbv zeta.
    set (a := (y - 2000) / 400) in *. set (b := (y - 2000 - a * 400) / 100) in *.
    set (c := (y - 2000 - a * 400 - b * 100) / 4) in *. set (d := y - 2000 - a * 400 - b * 100 - c * 4) in *.
    assert (a <= 2 ^ 32) by lia. clearbody a b c.
    unfold DAYSTO2000, DAYS400YEARS, DAYS100YEARS, DAYS4YEARS in *.
    rewrite (u64_small (bonus + _ + a * _)) by lia. rewrite (u64_small (_ + b * _)) by lia.
    rewrite (u64_small (_ + c * _)) by lia. rewrite sum_up_years by lia.
    destruct (decide (late_century_start y)); lia.
Qed.

Lemma clock_value dt : valid_dt dt ->
  clock_ymdhms_to_secs dt = gregorian_secs dt - (if decide (late_century_start (dt_year dt)) then 86400 else 0).
Proof.
  intros (Hy & Hm & Hd & Hh & Hmi & Hs). unfold clock_ymdhms_to_secs, gregorian_secs.
  destruct (Z.ltb_spec (dt_year dt) POSIX_BASE_YEAR) as [|_]; [unfold POSIX_BASE_YEAR in *; lia|].
  set (bonus := if is_leap_year (dt_year dt) && (FEBRUARY <? dt_mon dt) then 1 else 0).
  assert (Hb : 0 <= bonus <= 1) by (unfold bonus; destruct (_ && _); lia).
  cbv zeta. pose proof (years_ok (dt_year dt) bonus Hy Hb) as Ey. cbv zeta in Ey. rewrite Ey. clear Ey.
  pose proof (day_number_bound _ Hy) as HD. set (D := day_number (dt_year dt) - day_number 1970) in *.
  set (late := if decide (late_century_start (dt_year dt)) then 1 else 0).
  assert (Hl : 0 <= late <= 1 /\ 0 <= D - late).
  { unfold late. case_decide as Hlc; [|lia]. split; [lia|]. unfold D, day_number, late_century_start in *.
    change (2 ^ 32) with 4294967296 in Hy. Z.to_euclidean_division_equations. lia. }
  replace (D + bonus - late) with (D - late + bonus) by lia. unfold bonus at 1.
  rewrite months_ok by lia. pose proof (months_bound (bool_decide (leap (dt_year dt))) (Z.to_nat (dt_mon dt - 1)) ltac:(lia)) as HM.
  rewrite days_before_year_closed, Z2Nat.id by lia. replace (1970 + (dt_year dt - 1970)) with (dt_year dt) by lia. fold D.
  set (mo := days_before_month _ _) in *.
  rewrite (u64_small (D - late + mo + _)) by lia. rewrite u64_small by lia.
  assert (E86 : (if decide (late_century_start (dt_year dt)) then 86400 else 0) = 86400 * late)
    by (unfold late; case_decide; lia).
  rewrite E86. unfold s64, swrap. change (2 ^ (64 - 1)) with (2 ^ 63). rewrite Z.mod_small by lia. lia.
Qed.

(** [clock_ymdhms_to_secs] with its stepwise year arithmetic gives the number
    of seconds the Gregorian calendar gives for every date from 1970 to beyond
    the year four thousand million, except in the first four years of a century
    that does not start with a leap year, where it is exactly one day behind (the
    100-year step counts 24 leap days although the first hundred years of each
    400 have 25). *)
Theorem clock_ymdhms_correct dt :
  valid_dt dt ->
  (~ late_century_start (dt_year dt) -> clock_ymdhms_to_secs dt = gregorian_secs dt) /\
  (late_century_start (dt_year dt) -> clock_ymdhms_to_secs dt = gregorian_secs dt - 86400).
Proof.
  intros Hv. rewrite clock_value by done. split; intros H; [rewrite decide_False by done|rewrite decide_True by done]; lia.
Qed.

Lemma clock_ymdhms_correct_witness :
  clock_ymdhms_to_secs (Ymdhms 2024 3 1 12 0 0) = gregorian_secs (Ymdhms 2024 3 1 12 0 0) /\
  clock_ymdhms_to_secs (Ymdhms 2100 1 1 0 0 0) = gregorian_secs (Ymdhms 2100 1 1 0 0 0) - 86400.
Proof.
  split.
  - apply (clock_ymdhms_correct (Ymdhms 2024 3 1 12 0 0)); [unfold valid_dt; cbn; lia|].
    apply (bool_decide_eq_false_1 _). reflexivity.
  - apply (clock_ymdhms_correct (Ymdhms 2100 1 1 0 0 0)); [unfold valid_dt; cbn; lia|].
    apply (bool_decide_eq_true_1 _). reflexivity.
Defined.
