(* ===== verification/Intr.v ===== *)
(** * Interrupt delivery (platform/hw/intr.c)

    [todo] is the word shared by [isr], which posts interrupts, and the handler
    thread, which takes them; its top bit says that the thread is awake. *)

From S2P Require Import Prelude.

Definition isr_handler_todo : Z := 2 ^ 31.
Definition BMK_MAXINTR : Z := 32.
Definition BMK_INTR_ROUTED : Z := 1.
Definition INTR_LEVELS : Z := BMK_MAXINTR + 1.

Inductive routing := INTR_ROUTED_NOIDEA | INTR_ROUTED_YES | INTR_ROUTED_NO.
#[export] Instance routing_eq_dec : EqDecision routing.
Proof. solve_decision. Defined.

(** ** The word *)

(** [isr_callback] for the thread that goes to sleep: wake it again? *)
Definition isr_callback (todo : Z) : bool * Z :=
  (negb (todo =? isr_handler_todo), Z.lxor todo isr_handler_todo).
(** [isr]: wake the handler thread? *)
Definition isr (which todo : Z) : bool * Z := (todo =? 0, Z.lor todo which).
(** The two exchanges of [doisr]: the interrupts taken. *)
Definition isr_take_first (todo : Z) : Z * Z := (todo, isr_handler_todo).
Definition isr_take_again (todo : Z) : Z * Z := (Z.lxor todo isr_handler_todo, isr_handler_todo).

(** ** The handler thread and its interrupters *)
Inductive ipc :=
| IBlocking      (* decided to block; the callback has not run *)
| ISleeping
| IRunnable      (* woken: on the run queue *)
| IWorking (bits : Z).   (* dispatching [bits] *)

Record isys := ISys { is_todo : Z; is_pc : ipc; is_wakes : Z (* times on the run queue *);
                      is_raised : Z; is_done : Z (* bits raised and dispatched, as sets *) }.
Inductive iact := IRaise (which : Z) | IBlock | IWake | IDispatched.

Definition isr_step (a : iact) (s : isys) : option isys :=
  match a, is_pc s with
  | IRaise which, pc =>
      if (0 <? which) && (which <? 2 ^ 31) then
        let '(wake, t) := isr which (is_todo s) in
        Some (ISys t (if wake then (match pc with ISleeping => IRunnable | pc => pc end) else pc)
               (if wake then is_wakes s + 1 else is_wakes s) (Z.lor (is_raised s) which)
               (Z.ldiff (is_done s) which))
      else None
  | IBlock, IBlocking =>
      let '(wake, t) := isr_callback (is_todo s) in
      Some (ISys t (if wake then IRunnable else ISleeping)
             (if wake then is_wakes s + 1 else is_wakes s) (is_raised s) (is_done s))
  | IWake, IRunnable =>
      let '(bits, t) := isr_take_first (is_todo s) in
      Some (ISys t (IWorking bits) (is_wakes s - 1) (is_raised s) (is_done s))
  | IDispatched, IWorking bits =>
      let '(more, t) := isr_take_again (is_todo s) in
      let d := Z.lor (is_done s) bits in
      Some (ISys t (if more =? 0 then IBlocking else IWorking more) (is_wakes s) (is_raised s) d)
  | _, _ => None
  end.
Inductive isr_reach : isys -> Prop :=
| ir_init : isr_reach (ISys isr_handler_todo IBlocking 0 0 0)
| ir_step a s s' : isr_reach s -> isr_step a s = Some s' -> isr_reach s'.

(** ** Registration and dispatch *)
Record intrtab := IntrTab {
  isr_ih : list (list Z);          (* handlers of each level, newest first *)
  isr_routed : list routing;
  isr_lowest : Z
}.
Definition intr_init : intrtab :=
  IntrTab (replicate (Z.to_nat INTR_LEVELS) []) (replicate (Z.to_nat INTR_LEVELS) INTR_ROUTED_NOIDEA) 31.

(** Without BMK_SCREW_INTERRUPT_ROUTING. *)
Definition routeintr (i : Z) : Z := i.

(** [cpu_intr_init] is the platform's; its error code is an argument. *)
Definition bmk_isr_rumpkernel (cpu_intr_init : Z -> Z) (handler intr flags : Z) : M intrtab unit :=
  massert (negb ((4 * 8 <? u64 intr) || (BMK_MAXINTR <? intr))) "bmk_isr_rumpkernel: intr" ;;;
  massert (Z.land flags (Z.lnot BMK_INTR_ROUTED) =? 0) "bmk_isr_rumpkernel: flags" ;;;
  let routed := negb (Z.land flags BMK_INTR_ROUTED =? 0) in
  t <-- mget ;;
  let icheck := if routed then INTR_ROUTED_YES else INTR_ROUTED_NO in
  let routedintr := if routed then routeintr intr else intr in
  r <-- mopt (isr_routed t !! Z.to_nat intr) "isr_routed index" ;;
  let r := if decide (r = INTR_ROUTED_NOIDEA) then icheck else r in
  modify (fun t => IntrTab (isr_ih t) (<[Z.to_nat intr := r]> (isr_routed t)) (isr_lowest t)) ;;;
  massert (bool_decide (r = icheck)) "bmk_isr_rumpkernel: routed intr mismatch" ;;;
  massert (cpu_intr_init intr =? 0) "bmk_isr_rumpkernel: cpu_intr_init" ;;;
  t <-- mget ;;
  l <-- mopt (isr_ih t !! Z.to_nat routedintr) "isr_ih index" ;;
  modify (fun t => IntrTab (<[Z.to_nat routedintr := handler :: l]> (isr_ih t)) (isr_routed t)
    (if u32 intr <? isr_lowest t then intr else isr_lowest t)).

(** The dispatch loop of [doisr] on the bits taken: the handlers called. *)
Definition dispatch (isrcopy : Z) : M intrtab (list Z) :=
  t <-- mget ;;
  loopM (fun '(i, isrcopy, calls) =>
    if isrcopy =? 0 then cret (inr calls) else
    massert (i <? 4 * 8) "i < sizeof(isrcopy)*8" ;;;
    if Z.land isrcopy (Z.shiftl 1 i) =? 0 then cret (inl (i + 1, isrcopy, calls)) else
    let isrcopy := Z.land isrcopy (Z.lnot (Z.shiftl 1 i)) in
    r <-- mopt (isr_routed t !! Z.to_nat i) "isr_routed index" ;;
    let i := if decide (r = INTR_ROUTED_YES) then routeintr i else i in
    l <-- mopt (isr_ih t !! Z.to_nat i) "isr_ih index" ;;
    cret (inl (i + 1, isrcopy, calls ++ l))) (isr_lowest t, isrcopy, []).

(** * No interrupt is lost, and the handler thread is woken once *)


(** The interrupts posted in the word. *)
Definition pending (todo j : Z) : bool := (j <? 31) && Z.testbit todo j.
Definition working (pc : ipc) (j : Z) : bool := match pc with IWorking b => Z.testbit b j | _ => false end.

Record isr_inv (s : isys) : Prop := {
  ii_word : 0 <= is_todo s < 2 ^ 32;
  ii_pc : match is_pc s with
    | IBlocking => Z.testbit (is_todo s) 31 = true /\ is_wakes s = 0
    | ISleeping => is_todo s = 0 /\ is_wakes s = 0
    | IRunnable => Z.testbit (is_todo s) 31 = false /\ is_todo s <> 0 /\ is_wakes s = 1
    | IWorking b => Z.testbit (is_todo s) 31 = true /\ is_wakes s = 0 /\ 0 <= b < 2 ^ 31
    end;
  ii_kept : forall j, 0 <= j < 31 -> Z.testbit (is_raised s) j = true ->
    Z.testbit (is_done s) j = true \/ pending (is_todo s) j = true \/ working (is_pc s) j = true
}.

Lemma todo_bit j : 0 <= j -> Z.testbit isr_handler_todo j = (j =? 31).
Proof. intros. unfold isr_handler_todo. rewrite Z.pow2_bits_eqb by lia. apply Z.eqb_sym. Qed.
Lemma below31 w : 0 <= w < 2 ^ 31 -> forall j, 31 <= j -> Z.testbit w j = false.
Proof. intros Hw j Hj. by apply (high_bits_zero 31). Qed.
Lemma below31_intro w : 0 <= w < 2 ^ 32 -> Z.testbit w 31 = false -> w < 2 ^ 31.
Proof.
  intros Hw Hb. apply (below_pow2 31 ltac:(lia) w); [|lia]. intros j Hj.
  destruct (decide (j = 31)) as [->|]; [done|]. apply (high_bits_zero 32); lia.
Qed.
Lemma only_top w : 0 <= w < 2 ^ 32 -> Z.testbit w 31 = true ->
  (forall j, 0 <= j < 31 -> Z.testbit w j = false) -> w = isr_handler_todo.
Proof.
  intros Hw Ht Hl. apply Z.bits_inj'. intros j Hj. rewrite todo_bit by done. destruct (Z.eqb_spec j 31) as [->|Hne]; [done|].
  destruct (Z.lt_ge_cases j 31); [apply Hl; lia|]. apply (high_bits_zero 32); lia.
Qed.
Lemma lxor_todo w : 0 <= w < 2 ^ 32 -> 0 <= Z.lxor w isr_handler_todo < 2 ^ 32 /\
  forall j, 0 <= j -> Z.testbit (Z.lxor w isr_handler_todo) j = if j =? 31 then negb (Z.testbit w 31) else Z.testbit w j.
Proof.
  intros Hw. split; [apply lxor_below; unfold isr_handler_todo; lia|]. intros j Hj.
  rewrite Z.lxor_spec, todo_bit by done. destruct (Z.eqb_spec j 31) as [->|]; [by rewrite xorb_true_r|by rewrite xorb_false_r].
Qed.

Lemma isr_step_inv a s s' : isr_inv s -> isr_step a s = Some s' -> isr_inv s'.
Proof.
  intros [Hw Hp Hk] E. destruct s as [todo pc wakes raised dn]. unfold isr_step, isr, isr_callback, isr_take_first, isr_take_again in E.
  cbn [is_todo is_pc is_wakes is_raised is_done] in *.
  destruct a as [which| | |].
  - destruct ((0 <? which) && (which <? 2 ^ 31)) eqn:Eb; [|discriminate]. injection E as <-.
    assert (Hor : 0 <= Z.lor todo which < 2 ^ 32) by (apply lor_below; lia).
    assert (Hb31 : Z.testbit which 31 = false) by (apply below31; lia).
    assert (Hnz : Z.lor todo which <> 0) by (rewrite Z.lor_eq_0_iff; lia).
    split; cbn [is_todo is_pc is_wakes is_raised is_done]; [done| |].
    + assert (Hb : Z.testbit (Z.lor todo which) 31 = Z.testbit todo 31) by (by rewrite Z.lor_spec, Hb31, orb_false_r).
      assert (Hn : Z.testbit todo 31 = true -> (todo =? 0) = false).
      { intros Ht. destruct (Z.eqb_spec todo 0) as [E0|]; [by rewrite E0, Z.bits_0 in Ht|done]. }
      destruct pc as [| | |b].
      * destruct Hp as [Ht Hwk]. rewrite (Hn Ht), Hb. done.
      * destruct Hp as [-> ->]. rewrite Z.eqb_refl, Hb, Z.bits_0. done.
      * destruct Hp as (Ht & Hz & ->). destruct (Z.eqb_spec todo 0); [done|]. by rewrite Hb.
      * destruct Hp as (Ht & Hwk & Hbb). rewrite (Hn Ht), Hb. done.
    + intros j Hj. rewrite Z.lor_spec, Z.ldiff_spec. unfold pending. destruct (Z.ltb_spec j 31); [|lia].
      rewrite Z.lor_spec. cbn [andb]. destruct (Z.testbit which j) eqn:Ew.
      { intros _. right; left. apply orb_true_r. }
      rewrite !orb_false_r, andb_true_r. intros Hr. destruct (Hk j Hj Hr) as [H1|[H1|H1]]; [by left| |].
      * right; left. unfold pending in H1. destruct (j <? 31); [done|done].
      * right; right. destruct pc; try done; by destruct (todo =? 0).
  - destruct pc; try done. injection E as <-. destruct Hp as [Ht ->].
    destruct (lxor_todo todo Hw) as [Hx Hbits]. split; cbn [is_todo is_pc is_wakes is_raised is_done]; [done| |].
    + destruct (Z.eqb_spec todo isr_handler_todo) as [->|Hne]; cbn [negb].
      * by rewrite Z.lxor_nilpotent.
      * rewrite Hbits, Ht by lia. split_and!; [done| |done]. intros Hz. apply Hne.
        by apply Z.lxor_eq in Hz.
    + intros j Hj Hr. destruct (Hk j Hj Hr) as [H1|[H1|H1]]; [by left| |done].
      right; left. unfold pending in *. rewrite Hbits by lia. destruct (Z.eqb_spec j 31); [lia|done].
  - destruct pc; try done. injection E as <-. destruct Hp as (Ht & Hz & ->). split; cbn [is_todo is_pc is_wakes is_raised is_done].
    + unfold isr_handler_todo. lia.
    + split_and!; [by rewrite todo_bit|done|lia|]. by apply below31_intro.
    + intros j Hj Hr. destruct (Hk j Hj Hr) as [H1|[H1|H1]]; [by left| |done].
      right; right. unfold pending in H1. by apply andb_prop in H1 as [_ ?].
  - destruct pc as [| | |b]; try done. injection E as <-. destruct Hp as (Ht & -> & Hb).
    destruct (lxor_todo todo Hw) as [Hx Hbits]. split; cbn [is_todo is_pc is_wakes is_raised is_done].
    + unfold isr_handler_todo. lia.
    + destruct (Z.eqb_spec (Z.lxor todo isr_handler_todo) 0) as [E0|E0]; [by rewrite todo_bit|].
      split_and!; [by rewrite todo_bit|done|lia|]. apply below31_intro; [done|]. by rewrite Hbits, Ht by lia.
    + intros j Hj Hr. rewrite Z.lor_spec. destruct (Hk j Hj Hr) as [H1|[H1|H1]].
      * left. by rewrite H1.
      * unfold pending in H1. apply andb_prop in H1 as [_ H1].
        assert (H2 : Z.testbit (Z.lxor todo isr_handler_todo) j = true).
        { rewrite Hbits by lia. destruct (Z.eqb_spec j 31); [lia|done]. }
        destruct (Z.eqb_spec (Z.lxor todo isr_handler_todo) 0) as [E0|E0].
        { by rewrite E0, Z.bits_0 in H2. }
        by right; right.
      * left. cbn in H1. rewrite H1. apply orb_true_r.
Qed.

Lemma isr_reach_inv s : isr_reach s -> isr_inv s.
Proof.
  induction 1 as [|a s s' _ IH E]; [|by eapply isr_step_inv].
  split; cbn [is_todo is_pc is_wakes is_raised is_done]; [unfold isr_handler_todo; lia|by rewrite todo_bit|]. intros j _ H. by rewrite Z.bits_0 in H.
Qed.

(** C38. Interrupt delivery, in every interleaving of interrupts with the handler
    thread's blocking, waking and dispatching: the thread is on the run queue at
    most once, exactly when it has been woken and not yet run, and whenever it
    sleeps every interrupt raised so far has been dispatched after it was last
    raised. *)
Theorem isr_no_lost_interrupt s :
  isr_reach s ->
  is_wakes s = (match is_pc s with IRunnable => 1 | _ => 0 end) /\
  (is_pc s = ISleeping -> forall j, 0 <= j < 31 -> Z.testbit (is_raised s) j = true ->
     Z.testbit (is_done s) j = true).
Proof.
  intros Hr. destruct (isr_reach_inv s Hr) as [Hw Hp Hk]. split.
  - destruct (is_pc s); intuition.
  - intros Hs j Hj Hra. rewrite Hs in *. destruct (Hk j Hj Hra) as [?|[Hpd|?]]; [done| |done].
    destruct Hp as [E _]. rewrite E in Hpd. unfold pending in Hpd. by rewrite Z.bits_0, andb_false_r in Hpd.
Qed.

Lemma isr_no_lost_interrupt_witness : exists s, isr_reach s /\ is_pc s = ISleeping /\
  Z.testbit (is_raised s) 4 = true /\ Z.testbit (is_done s) 4 = true.
Proof.
  assert (Hr : isr_reach (ISys 0 ISleeping 0 16 16)).
  { apply (ir_step IBlock (ISys isr_handler_todo IBlocking 0 16 16)); [|reflexivity].
    apply (ir_step IDispatched (ISys isr_handler_todo (IWorking 16) 0 16 0)); [|reflexivity].
    apply (ir_step IWake (ISys 16 IRunnable 1 16 0)); [|reflexivity].
    apply (ir_step IBlock (ISys (2 ^ 31 + 16) IBlocking 0 16 0)); [|reflexivity].
    apply (ir_step (IRaise 16) (ISys isr_handler_todo IBlocking 0 0 0)); [|reflexivity]. apply ir_init. }
  exists (ISys 0 ISleeping 0 16 16). split; [exact Hr|split; [reflexivity|split; [reflexivity|]]].
  exact (proj2 (isr_no_lost_interrupt _ Hr) eq_refl 4 ltac:(lia) eq_refl).
Defined.

(** Interrupt 31 can be registered, but its bit in the word is the one that says that
    the handler thread is awake: raised while the thread works it changes nothing, and
    the exchange that would take it finds nothing to do. *)
Theorem interrupt_31_lost : (exists t', bmk_isr_rumpkernel (fun _ => 0) 7 31 0 intr_init = Done (tt, t') /\ isr_ih t' !! 31%nat = Some [7]) /\
  isr (2 ^ 31) isr_handler_todo = (false, isr_handler_todo) /\ isr_take_again isr_handler_todo = (0, isr_handler_todo).
Proof. split; [eexists; split; vm_compute; reflexivity|split; reflexivity]. Qed.
