(* ===== verification/Gnttab.v ===== *)
(** * The grant table (platform/hw/xen/gnttab.c)

    [gnttab_list] is an array used as a free list: the entry of a free
    reference holds the next free one, entry 0 the first.  The flags of an
    entry are shared with the hypervisor, which sets the in-use bits behind
    the code's back: before every access to the flags of an entry the next
    element of [gn_remote] says what the other side has written there. *)

From S2P Require Import Prelude Pgalloc.

(** Xen's public grant table interface: the entry's size and flag bits. *)
Class XenGrant := {
  sizeof_grant_entry : Z;
  GTF_permit_access : Z;
  GTF_accept_transfer : Z;
  GTF_readonly : Z;
  GTF_reading : Z;
  GTF_writing : Z;
  GTF_transfer_committed : Z;
  GTF_transfer_completed : Z
}.

Record grant_entry := MkGrant { ge_frame : Z; ge_domid : Z; ge_flags : Z }.

Definition NR_RESERVED_ENTRIES : Z := 8.
Definition NR_GRANT_FRAMES : Z := 8.

Record gnttab := Gnttab {
  gnttab_list : list Z;
  gnttab_sem : Z;                       (* the count of the semaphore *)
  gnttab_lock : bool;
  gnttab_table : list grant_entry;
  gn_remote : list (option Z);
  gn_physmap : list (Z * Z)             (* frames mapped: index, guest frame *)
}.
Definition set_list l (s : gnttab) := Gnttab l (gnttab_sem s) (gnttab_lock s) (gnttab_table s) (gn_remote s) (gn_physmap s).
Definition set_sem c (s : gnttab) := Gnttab (gnttab_list s) c (gnttab_lock s) (gnttab_table s) (gn_remote s) (gn_physmap s).
Definition set_glock b (s : gnttab) := Gnttab (gnttab_list s) (gnttab_sem s) b (gnttab_table s) (gn_remote s) (gn_physmap s).
Definition set_table t (s : gnttab) := Gnttab (gnttab_list s) (gnttab_sem s) (gnttab_lock s) t (gn_remote s) (gn_physmap s).
Definition set_remote r (s : gnttab) := Gnttab (gnttab_list s) (gnttab_sem s) (gnttab_lock s) (gnttab_table s) r (gn_physmap s).
Definition add_physmap x (s : gnttab) := Gnttab (gnttab_list s) (gnttab_sem s) (gnttab_lock s) (gnttab_table s) (gn_remote s) (gn_physmap s ++ [x]).

Section Gnttab.
Context `{XG : XenGrant}.

Definition NR_GRANT_ENTRIES : Z := NR_GRANT_FRAMES * BMK_PCPU_PAGE_SIZE / sizeof_grant_entry.

(** ** The semaphore (mini-os/semaphore.h) and the lock, for one caller

    A [down] that has to wait does not return. *)
Definition down : M gnttab unit :=
  s <-- mget ;; modify (set_sem (gnttab_sem s - 1)) ;;;
  if gnttab_sem s <=? 0 then mnofuel else cret tt.
Definition up : M gnttab unit := modify (fun s => set_sem (gnttab_sem s + 1) s).
Definition lock_enter : M gnttab unit :=
  s <-- mget ;; if gnttab_lock s then mnofuel else modify (set_glock true).
Definition lock_exit : M gnttab unit := modify (set_glock false).

Definition list_get (i : Z) : M gnttab Z :=
  s <-- mget ;; mopt (gnttab_list s !! Z.to_nat i) "gnttab_list index".
Definition list_put (i v : Z) : M gnttab unit :=
  s <-- mget ;; massert (i <? Z.of_nat (length (gnttab_list s))) "gnttab_list index" ;;;
  modify (set_list (<[Z.to_nat i := v]> (gnttab_list s))).

(** ** The free list *)
Definition put_free_entry (ref : Z) : M gnttab unit :=
  lock_enter ;;;
  first <-- list_get 0 ;;
  list_put ref first ;;;
  list_put 0 ref ;;;
  lock_exit ;;;
  up.

Definition get_free_entry : M gnttab Z :=
  down ;;;
  lock_enter ;;;
  ref <-- list_get 0 ;;
  massert (negb ((ref <? NR_RESERVED_ENTRIES) || (NR_GRANT_ENTRIES <=? ref))) "get_free_entry" ;;;
  next <-- list_get ref ;;
  list_put 0 next ;;;
  lock_exit ;;;
  cret ref.

(** ** Entries *)
Definition entry_get (ref : Z) : M gnttab grant_entry :=
  s <-- mget ;; mopt (gnttab_table s !! Z.to_nat ref) "gnttab_table index".
Definition entry_put (ref : Z) (e : grant_entry) : M gnttab unit :=
  s <-- mget ;; massert (ref <? Z.of_nat (length (gnttab_table s))) "gnttab_table index" ;;;
  modify (set_table (<[Z.to_nat ref := e]> (gnttab_table s))).
(** The hypervisor's turn: it may have changed the flags of [ref]. *)
Definition remote_turn (ref : Z) : M gnttab unit :=
  s <-- mget ;;
  match gn_remote s with
  | [] => cret tt
  | w :: rest =>
      modify (set_remote rest) ;;;
      match w with
      | None => cret tt
      | Some f => e <-- entry_get ref ;; entry_put ref (MkGrant (ge_frame e) (ge_domid e) f)
      end
  end.
Definition flags_load (ref : Z) : M gnttab Z :=
  remote_turn ref ;;; e <-- entry_get ref ;; cret (ge_flags e).
(** [synch_cmpxchg(&gnttab_table[ref].flags, old, new)]: the value found. *)
Definition flags_cmpxchg (ref old new : Z) : M gnttab Z :=
  remote_turn ref ;;; e <-- entry_get ref ;;
  (if ge_flags e =? old then entry_put ref (MkGrant (ge_frame e) (ge_domid e) new) else cret tt) ;;;
  cret (ge_flags e).

Definition gnttab_grant_access (domid frame readonly : Z) : M gnttab Z :=
  ref <-- get_free_entry ;;
  e <-- entry_get ref ;;
  let e := MkGrant (u32 frame) (u16 domid) (ge_flags e) in
  entry_put ref e ;;;
  let readonly := s32 (readonly * GTF_readonly) in
  entry_put ref (MkGrant (ge_frame e) (ge_domid e) (u16 (Z.lor GTF_permit_access readonly))) ;;;
  cret ref.

Definition gnttab_grant_transfer (domid pfn : Z) : M gnttab Z :=
  ref <-- get_free_entry ;;
  entry_put ref (MkGrant (u32 pfn) (u16 domid) GTF_accept_transfer) ;;;
  cret ref.

Definition ref_ok (ref : Z) : bool := negb ((NR_GRANT_ENTRIES <=? ref) || (ref <? NR_RESERVED_ENTRIES)).

Definition gnttab_end_access (ref : Z) : M gnttab Z :=
  massert (ref_ok ref) "gnttab_end_access" ;;;
  nflags <-- flags_load ref ;;
  done <-- loopM (fun flags =>
    if negb (Z.land flags (Z.lor GTF_reading GTF_writing) =? 0) then cret (inr false) else
    nflags <-- flags_cmpxchg ref flags 0 ;;
    if nflags =? flags then cret (inr true) else cret (inl nflags)) nflags ;;
  if (done : bool) then put_free_entry ref ;;; cret 1 else cret 0.

Definition gnttab_end_transfer (ref : Z) : M gnttab Z :=
  massert (ref_ok ref) "gnttab_end_transfer" ;;;
  r <-- loopM (fun (_ : unit) =>
    flags <-- flags_load ref ;;
    if negb (Z.land flags GTF_transfer_committed =? 0) then cret (inr (Some flags)) else
    nflags <-- flags_cmpxchg ref flags 0 ;;
    if nflags =? flags then cret (inr None) else cret (inl tt)) tt ;;
  match r with
  | None => put_free_entry ref ;;; cret 0
  | Some flags =>
      loopM (fun flags =>
        if negb (Z.land flags GTF_transfer_completed =? 0) then cret (inr tt) else
        f <-- flags_load ref ;; cret (inl f)) flags ;;;
      e <-- entry_get ref ;;
      put_free_entry ref ;;;
      cret (ge_frame e)
  end.

Section Hypercalls.
Variables (gnttabop_error_msgs : list string) (add_to_physmap : Z -> Z -> Z).

Definition gnttabop_error (status : Z) : string :=
  let status := swrap 16 (- status) in
  if (status <? 0) || (Z.of_nat (length gnttabop_error_msgs) <=? status) then "bad status"%string
  else nth (Z.to_nat status) gnttabop_error_msgs "bad status"%string.

(** [gnttab_table] is the table's address. *)
Definition init_gnttab (table : Z) : M gnttab unit :=
  let page := Z.shiftr table BMK_PCPU_PAGE_SHIFT in
  modify (set_sem 0) ;;;
  mfor put_free_entry (seqZ NR_RESERVED_ENTRIES (NR_GRANT_ENTRIES - NR_RESERVED_ENTRIES)) ;;;
  mfor (fun i =>
    modify (add_physmap (i, page + i)) ;;;
    massert (add_to_physmap i (page + i) =? 0) "cannot map gnttab_table")
    (rev (seqZ 0 NR_GRANT_FRAMES)).
End Hypercalls.
End Gnttab.

(** * Lemmas about the grant table: the free list as a sequence *)


(** [chain l i fl]: from entry [i] the array leads through [fl] to 0. *)
Fixpoint chain (l : list Z) (i : Z) (fl : list Z) : Prop :=
  match fl with
  | [] => l !! Z.to_nat i = Some 0
  | r :: fl => l !! Z.to_nat i = Some r /\ chain l r fl
  end.

Lemma chain_insert l i fl j v : 0 <= j -> 0 <= i -> j <> i -> Forall (fun r => 0 <= r) fl -> j ∉ fl ->
  chain l i fl -> chain (<[Z.to_nat j := v]> l) i fl.
Proof.
  revert i. induction fl as [|r fl IH]; intros i Hj Hi Hne Hf Hn; cbn [chain].
  - by rewrite list_lookup_insert_ne by lia.
  - apply Forall_cons in Hf as [Hr Hf]. apply not_elem_of_cons in Hn as [Hjr Hn].
    intros [H1 H2]. rewrite list_lookup_insert_ne by lia. split; [done|]. by apply IH.
Qed.

Section GnttabThms.
Context `{XG : XenGrant}.

Definition gref (r : Z) : Prop := NR_RESERVED_ENTRIES <= r < NR_GRANT_ENTRIES.

(** The table with free references [fl], first to be handed out first. *)
Record gnt_ok (s : gnttab) (fl : list Z) : Prop := {
  gk_len : Z.of_nat (length (gnttab_list s)) = NR_GRANT_ENTRIES;
  gk_tab : Z.of_nat (length (gnttab_table s)) = NR_GRANT_ENTRIES;
  gk_lock : gnttab_lock s = false;
  gk_sem : gnttab_sem s = Z.of_nat (length fl);
  gk_nodup : NoDup fl;
  gk_range : Forall gref fl;
  gk_chain : chain (gnttab_list s) 0 fl
}.
(** Entries and remote actions are not touched by free list operations. *)
Definition same_entries (s s' : gnttab) : Prop :=
  gnttab_table s' = gnttab_table s /\ gn_remote s' = gn_remote s.

Lemma gref_nonneg fl : Forall gref fl -> Forall (fun r => 0 <= r) fl.
Proof. intros H. eapply Forall_impl; [exact H|]. unfold gref, NR_RESERVED_ENTRIES. cbn. lia. Qed.

Lemma chain_first l fl : chain l 0 fl -> l !! 0%nat = Some (hd 0 fl).
Proof. destruct fl; cbn; [done|]. by intros [? _]. Qed.

Lemma wp_put_free_entry s fl r : gnt_ok s fl -> gref r -> r ∉ fl ->
  wp (put_free_entry r) (fun _ s' => gnt_ok s' (r :: fl) /\ same_entries s s') s.
Proof.
  intros [Hl Ht Hk Hs Hn Hr Hc] Hg Hni. pose proof (chain_first _ _ Hc) as H0. unfold gref, NR_RESERVED_ENTRIES in Hg.
  unfold put_free_entry, lock_enter. wp_steps. rewrite Hk. wp_steps.
  unfold list_get. wp_steps. eapply wp_opt; [exact H0|].
  unfold list_put. wp_steps. apply wp_assert; [cbn; lia|]. wp_steps.
  apply wp_assert; [cbn; rewrite length_insert; lia|]. unfold up, lock_exit. wp_steps.
  split; [|done]. split; cbn.
  - by rewrite !length_insert.
  - done.
  - done.
  - lia.
  - by constructor.
  - by constructor.
  - pose proof (gref_nonneg _ Hr). assert (0 ∉ fl).
    { intros H0'. rewrite Forall_forall in Hr. specialize (Hr 0 H0'). unfold gref, NR_RESERVED_ENTRIES in Hr. lia. }
    split; [apply list_lookup_insert_eq; rewrite length_insert; lia|].
    change 0%nat with (Z.to_nat 0). apply chain_insert; [lia|lia|lia|done|done|].
    destruct fl as [|f fl]; cbn in *; [apply list_lookup_insert_eq; lia|].
    destruct Hc as [_ Hc]. split; [apply list_lookup_insert_eq; lia|].
    apply not_elem_of_cons in Hni as [? ?]. apply Forall_cons in H as [? ?]. by apply chain_insert; try lia.
Qed.

Lemma wp_get_free_entry s fl r : gnt_ok s (r :: fl) ->
  wp get_free_entry (fun x s' => x = r /\ gnt_ok s' fl /\ same_entries s s') s.
Proof.
  intros [Hl Ht Hk Hs Hn Hr [H0 Hc]]. pose proof Hr as [Hg Hr']%Forall_cons. apply NoDup_cons in Hn as [Hni Hn].
  unfold gref, NR_RESERVED_ENTRIES in Hg. cbn [length] in Hs.
  unfold get_free_entry, down. wp_steps. destruct (Z.leb_spec (gnttab_sem s) 0); [lia|]. wp_steps.
  unfold lock_enter. wp_steps. cbn. rewrite Hk. wp_steps. unfold list_get. wp_steps. eapply wp_opt; [exact H0|].
  wp_steps. apply wp_assert; [unfold NR_RESERVED_ENTRIES; zcases|]. cbn. wp_steps.
  assert (Hnx : gnttab_list s !! Z.to_nat r = Some (hd 0 fl)) by (by destruct fl; [|destruct Hc]).
  eapply wp_opt; [exact Hnx|]. unfold list_put. wp_steps. apply wp_assert; [cbn; lia|]. unfold lock_exit. wp_steps.
  split; [done|]. split; [|done]. split; cbn; try done; [by rewrite length_insert|lia|].
  pose proof (gref_nonneg _ Hr'). destruct fl as [|f fl]; cbn; [apply list_lookup_insert_eq; lia|].
  split; [apply list_lookup_insert_eq; lia|]. change 0%nat with (Z.to_nat 0).
  apply Forall_cons in Hr' as [Hf Hr']. unfold gref, NR_RESERVED_ENTRIES in Hf.
  destruct Hc as [_ Hc]. apply chain_insert; [lia|lia|lia|by apply gref_nonneg| |done].
  intros H0'. rewrite Forall_forall in Hr'. specialize (Hr' 0 H0'). unfold gref, NR_RESERVED_ENTRIES in Hr'. lia.
Qed.

(** With every reference handed out the caller waits. *)
Lemma get_free_entry_blocks s : gnt_ok s [] -> get_free_entry s = NoFuel.
Proof.
  intros [_ _ _ Hs _ _ _]. unfold get_free_entry, down, cbind, mget, modify. cbn in *. rewrite Hs. done.
Qed.

(** ** Entries *)
Definition entry (s : gnttab) (r : Z) : grant_entry := nth (Z.to_nat r) (gnttab_table s) (MkGrant 0 0 0).
(** [s'] differs from [s] in the entry of [r] and in used-up remote actions. *)
Definition only_entry (r : Z) (s s' : gnttab) : Prop :=
  forall q, 0 <= q -> q <> r -> entry s' q = entry s q.

Lemma gnt_ok_put s fl r e : gnt_ok s fl -> gnt_ok (set_table (<[Z.to_nat r := e]> (gnttab_table s)) s) fl.
Proof. intros []; split; cbn; try done. by rewrite length_insert. Qed.
Lemma gnt_ok_remote s fl w : gnt_ok s fl -> gnt_ok (set_remote w s) fl.
Proof. by intros []. Qed.

Lemma entry_put_eq s r e : 0 <= r < Z.of_nat (length (gnttab_table s)) ->
  entry (set_table (<[Z.to_nat r := e]> (gnttab_table s)) s) r = e.
Proof. intros. unfold entry. cbn. apply nth_lookup_Some. rewrite list_lookup_insert_eq by lia. done. Qed.
Lemma entry_put_ne s r e q : 0 <= r -> 0 <= q -> q <> r ->
  entry (set_table (<[Z.to_nat r := e]> (gnttab_table s)) s) q = entry s q.
Proof. intros. unfold entry. cbn. rewrite !nth_lookup. by rewrite list_lookup_insert_ne by lia. Qed.

Lemma wp_entry_get s fl r Q : gnt_ok s fl -> gref r -> Q (entry s r) s -> wp (entry_get r) Q s.
Proof.
  intros Hk Hg HQ. unfold entry_get. wp_steps. eapply wp_opt; [|exact HQ]. unfold entry.
  unfold gref, NR_RESERVED_ENTRIES in Hg. destruct Hk as [_ Ht _ _ _ _ _].
  destruct (lookup_lt_is_Some_2 (gnttab_table s) (Z.to_nat r) ltac:(lia)) as [e He].
  rewrite He. f_equal. symmetry. by apply nth_lookup_Some.
Qed.
Lemma wp_entry_put s fl r e (Q : unit -> gnttab -> Prop) : gnt_ok s fl -> gref r ->
  Q tt (set_table (<[Z.to_nat r := e]> (gnttab_table s)) s) -> wp (entry_put r e) Q s.
Proof.
  intros Hk Hg HQ. unfold entry_put. wp_steps. unfold gref in Hg. destruct Hk as [_ Ht _ _ _ _ _].
  apply wp_assert; [lia|]. by wp_steps.
Qed.

(** One turn of the other side: what it can change, and that it is used up. *)
Record turn_post (r : Z) (fl : list Z) (s s' : gnttab) : Prop := {
  tp_ok : gnt_ok s' fl;
  tp_only : only_entry r s s';
  tp_body : ge_frame (entry s' r) = ge_frame (entry s r) /\ ge_domid (entry s' r) = ge_domid (entry s r);
  tp_flags : ge_flags (entry s' r) = default (ge_flags (entry s r)) (mjoin (head (gn_remote s)));
  tp_left : gn_remote s' = tl (gn_remote s);
  tp_idle : gn_remote s = [] -> s' = s
}.
Lemma wp_remote_turn s fl r : gnt_ok s fl -> gref r ->
  wp (remote_turn r) (fun _ s' => turn_post r fl s s') s.
Proof.
  intros Hk Hg. unfold remote_turn. wp_steps. destruct (gn_remote s) as [|[f|] rest] eqn:E; wp_steps.
  - split; try done; by rewrite E.
  - pose proof (gnt_ok_remote _ _ rest Hk) as Hk'. eapply wp_entry_get; [exact Hk'|done|]. eapply wp_entry_put; [exact Hk'|done|].
    assert (Hlen : 0 <= r < Z.of_nat (length (gnttab_table s))).
    { destruct Hk. unfold gref, NR_RESERVED_ENTRIES in Hg. lia. }
    split; [by apply gnt_ok_put| | | | |].
    + intros q Hq Hqr. by rewrite entry_put_ne by lia.
    + rewrite entry_put_eq by done. done.
    + rewrite entry_put_eq by done. by rewrite E.
    + by rewrite E.
    + by rewrite E.
  - split; [by apply gnt_ok_remote|done|done|by rewrite E..].
Qed.

(** ** Granting and revoking *)
Record granted (r domid frame flags : Z) (fl : list Z) (s s' : gnttab) : Prop := {
  gr_ok : gnt_ok s' fl;
  gr_only : only_entry r s s';
  gr_entry : entry s' r = MkGrant (u32 frame) (u16 domid) flags;
  gr_remote : gn_remote s' = gn_remote s
}.

Lemma entry_same s s' q : gnttab_table s' = gnttab_table s -> entry s' q = entry s q.
Proof. unfold entry. by intros ->. Qed.

Lemma table_room s fl r : gnt_ok s fl -> gref r -> 0 <= r < Z.of_nat (length (gnttab_table s)).
Proof. intros []. unfold gref, NR_RESERVED_ENTRIES. lia. Qed.

Lemma granted_put s s1 fl r e : gnt_ok s1 fl -> gref r -> same_entries s s1 ->
  granted r (ge_domid e) (ge_frame e) (ge_flags e) fl s
    (set_table (<[Z.to_nat r := MkGrant (u32 (ge_frame e)) (u16 (ge_domid e)) (ge_flags e)]> (gnttab_table s1)) s1).
Proof.
  intros Hk Hg [Et Er]. pose proof (table_room _ _ _ Hk Hg). split.
  - by apply gnt_ok_put.
  - intros q Hq Hqr. rewrite entry_put_ne by lia. by apply entry_same.
  - by apply entry_put_eq.
  - done.
Qed.

Definition access_flags (readonly : Z) : Z := u16 (Z.lor GTF_permit_access (s32 (readonly * GTF_readonly))).

Lemma wp_grant_access s fl r domid frame ro : gnt_ok s (r :: fl) ->
  wp (gnttab_grant_access domid frame ro) (fun x s' => x = r /\ granted r domid frame (access_flags ro) fl s s') s.
Proof.
  intros Hk. assert (Hg : gref r) by (destruct Hk as [_ _ _ _ _ [? _]%Forall_cons _]; done).
  unfold gnttab_grant_access. wp_steps. eapply wp_mono; [by apply wp_get_free_entry|].
  intros x s1 (-> & Hk1 & Hs). wp_steps. eapply wp_entry_get; [exact Hk1|done|]. wp_steps.
  eapply wp_entry_put; [exact Hk1|done|]. wp_steps. eapply wp_entry_put; [by apply gnt_ok_put|done|]. wp_steps.
  split; [done|]. cbn [set_table gnttab_table gnttab_list gnttab_sem gnttab_lock gn_remote gn_physmap ge_frame ge_domid]. rewrite list_insert_insert_eq.
  exact (granted_put s s1 fl r (MkGrant frame domid (access_flags ro)) Hk1 Hg Hs).
Qed.

Lemma wp_grant_transfer s fl r domid pfn : gnt_ok s (r :: fl) ->
  wp (gnttab_grant_transfer domid pfn) (fun x s' => x = r /\ granted r domid pfn GTF_accept_transfer fl s s') s.
Proof.
  intros Hk. assert (Hg : gref r) by (destruct Hk as [_ _ _ _ _ [? _]%Forall_cons _]; done).
  unfold gnttab_grant_transfer. wp_steps. eapply wp_mono; [by apply wp_get_free_entry|].
  intros x s1 (-> & Hk1 & Hs). wp_steps. eapply wp_entry_put; [exact Hk1|done|]. wp_steps.
  split; [done|]. exact (granted_put s s1 fl r (MkGrant pfn domid GTF_accept_transfer) Hk1 Hg Hs).
Qed.

Definition in_use (flags : Z) : bool := negb (Z.land flags (Z.lor GTF_reading GTF_writing) =? 0).

(** The flags as the other side leaves them with the writes [l]. *)
Definition seen (f : Z) (l : list (option Z)) : Z := foldl (fun f w => default f w) f l.
(** What revoking access does, whatever the other side does meanwhile: with [k] of its
    turns over, the flags as it has left them decide.  In use, they stay as they are and
    so does the reference; otherwise they are cleared and the reference is free. *)
Record end_post (r : Z) (fl : list Z) (s : gnttab) (x : Z) (s' : gnttab) : Prop := {
  ep_only : only_entry r s s';
  ep_body : ge_frame (entry s' r) = ge_frame (entry s r) /\ ge_domid (entry s' r) = ge_domid (entry s r);
  ep_seen : exists k, gn_remote s' = drop k (gn_remote s) /\
    let f := seen (ge_flags (entry s r)) (take k (gn_remote s)) in
    if in_use f then x = 0 /\ gnt_ok s' fl /\ ge_flags (entry s' r) = f
    else x = 1 /\ gnt_ok s' (r :: fl) /\ ge_flags (entry s' r) = 0
}.
Lemma end_idle r fl s x s' : end_post r fl s x s' -> gn_remote s = [] ->
  gn_remote s' = [] /\ if in_use (ge_flags (entry s r)) then x = 0 /\ gnt_ok s' fl else x = 1 /\ gnt_ok s' (r :: fl).
Proof.
  intros [_ _ (k & Hr & Hs)] E. rewrite E, ?drop_nil, ?take_nil in *. split; [done|]. cbn [seen foldl] in Hs. cbn zeta in Hs.
  destruct (in_use (ge_flags (entry s r))); destruct Hs as (? & ? & _); done.
Qed.

(** From [s] to [q] only turns of the other side have passed. *)
Record turned (r : Z) (fl : list Z) (s q : gnttab) : Prop := {
  tu_ok : gnt_ok q fl;
  tu_only : only_entry r s q;
  tu_body : ge_frame (entry q r) = ge_frame (entry s r) /\ ge_domid (entry q r) = ge_domid (entry s r);
  tu_seen : exists k, gn_remote q = drop k (gn_remote s) /\ ge_flags (entry q r) = seen (ge_flags (entry s r)) (take k (gn_remote s))
}.
Lemma turned_start r fl s : gnt_ok s fl -> turned r fl s s.
Proof. intros Hk. split; try done. by exists 0%nat. Qed.
Lemma turned_turn r fl s q q1 : turned r fl s q -> turn_post r fl q q1 -> turned r fl s q1.
Proof.
  intros [Hk Ho [Hb1 Hb2] (k & Hr & Hf)] [Hk1 Ho1 [Hc1 Hc2] Hf1 Hl1 _]. split; [done| |split; congruence|].
  - intros p Hp Hpr. by rewrite Ho1, Ho.
  - rewrite Hr in Hf1, Hl1. rewrite Hf in Hf1. destruct (drop k (gn_remote s)) as [|w rest] eqn:E.
    + exists k. cbn in *. by rewrite E.
    + exists (S k). assert (Ew : gn_remote s !! k = Some w) by (by rewrite <- (Nat.add_0_r k), <- lookup_drop, E).
      rewrite (take_S_r _ _ _ Ew). unfold seen in *. rewrite foldl_app. cbn in *. split; [|by rewrite Hf1; destruct w].
      rewrite Hl1. symmetry. rewrite <- Nat.add_1_r, <- drop_drop, E. done.
Qed.

Lemma only_entry_trans r s1 s2 s3 : only_entry r s1 s2 -> only_entry r s2 s3 -> only_entry r s1 s3.
Proof. intros H1 H2 q Hq Hr. by rewrite H2, H1. Qed.

Lemma wp_flags_cmpxchg s fl r old new : gnt_ok s fl -> gref r ->
  wp (flags_cmpxchg r old new) (fun x s' => exists s1, turn_post r fl s s1 /\ x = ge_flags (entry s1 r) /\
    s' = if x =? old then set_table (<[Z.to_nat r := MkGrant (ge_frame (entry s1 r)) (ge_domid (entry s1 r)) new]> (gnttab_table s1)) s1
         else s1) s.
Proof.
  intros Hk Hg. unfold flags_cmpxchg. wp_steps. eapply wp_mono; [by apply wp_remote_turn|].
  intros [] s1 Ht. wp_steps. eapply wp_entry_get; [apply Ht|done|]. wp_steps.
  destruct (ge_flags (entry s1 r) =? old) eqn:E.
  - eapply wp_entry_put; [apply Ht|done|]. wp_steps. exists s1. by rewrite E.
  - wp_steps. exists s1. by rewrite E.
Qed.

Lemma wp_end_access s fl r : gnt_ok s fl -> gref r -> r ∉ fl -> Z.of_nat (length (gn_remote s)) < 2 ^ 64 ->
  wp (gnttab_end_access r) (end_post r fl s) s.
Proof.
  intros Hk Hg Hni Hrem. unfold gnttab_end_access, flags_load. wp_steps.
  apply wp_assert. { unfold ref_ok, gref in *. zcases. } wp_steps.
  eapply wp_mono; [by apply wp_remote_turn|]. intros [] s1 Ht1. pose proof Ht1 as [Hk1 _ _ _ Hl1 _]. wp_steps.
  eapply wp_entry_get; [exact Hk1|done|]. wp_steps.
  eapply wp_mono; [eapply (wp_loop _
    (fun flags q => turned r fl s q /\ flags = ge_flags (entry q r))
    (fun _ q => Z.of_nat (length (gn_remote q)))
    (fun (b : bool) q => exists q0, turned r fl s q0 /\ b = negb (in_use (ge_flags (entry q0 r))) /\
       q = if b then set_table (<[Z.to_nat r := MkGrant (ge_frame (entry q0 r)) (ge_domid (entry q0 r)) 0]> (gnttab_table q0)) q0 else q0))|].
  - intros flags q [Htq ->]. split; [lia|]. fold (in_use (ge_flags (entry q r))). destruct (in_use (ge_flags (entry q r))) eqn:Eu; wp_steps.
    { exists q. by rewrite Eu. }
    eapply wp_mono; [apply wp_flags_cmpxchg; [apply Htq|done]|]. intros x q' (q1 & Ht2 & -> & ->).
    pose proof (turned_turn _ _ _ _ _ Htq Ht2) as Htq1. destruct Ht2 as [_ _ _ _ Hl2 Hi2].
    destruct (Z.eqb_spec (ge_flags (entry q1 r)) (ge_flags (entry q r))) as [E|E]; wp_steps.
    + exists q1. by rewrite E, Eu.
    + split; [by split|]. rewrite Hl2. destruct (gn_remote q) as [|w rest] eqn:Eq; cbn; [|lia]. destruct E. by rewrite Hi2.
  - split; [|done]. eapply turned_turn; [by apply turned_start|exact Ht1].
  - cbn. rewrite Hl1. destruct (gn_remote s); cbn in *; lia.
  - intros b q (q0 & [Hkq Hoq Hbq (k & Hr & Hf)] & -> & ->). pose proof (table_room _ _ _ Hkq Hg) as Hroom. destruct (in_use (ge_flags (entry q0 r))) eqn:Eu; cbn [negb]; wp_steps.
    + split; [done|done|]. exists k. cbn zeta. rewrite <- Hf, Eu. done.
    + eapply wp_mono; [apply wp_put_free_entry; [by apply gnt_ok_put|done|done]|]. intros [] q' [Hk' [Et Er]]. wp_steps.
      pose proof (entry_put_eq q0 r (MkGrant (ge_frame (entry q0 r)) (ge_domid (entry q0 r)) 0) Hroom) as Eput.
      split.
      * intros p Hp Hpr. rewrite (entry_same _ q' p Et), entry_put_ne by lia. by apply Hoq.
      * rewrite (entry_same _ q' r Et), Eput. done.
      * exists k. split; [by rewrite Er|]. cbn zeta. rewrite <- Hf, Eu, (entry_same _ q' r Et), Eput. done.
Qed.
End GnttabThms.
