(* ===== verification/GnttabSpec.v ===== *)
(** * Grant references are handed out once *)

From S2P Require Import Prelude Pgalloc Gnttab.

Section GnttabSpec.
Context `{XG : XenGrant}.
Hypothesis sizeof_ok : 0 < sizeof_grant_entry <= BMK_PCPU_PAGE_SIZE.

Lemma entries_ge : NR_RESERVED_ENTRIES <= NR_GRANT_ENTRIES.
Proof using sizeof_ok.
  unfold NR_GRANT_ENTRIES, NR_RESERVED_ENTRIES, NR_GRANT_FRAMES, BMK_PCPU_PAGE_SIZE, BMK_PCPU_PAGE_SHIFT in *.
  apply Z.div_le_lower_bound; lia.
Qed.

(** The static arrays at boot; the table holds whatever it holds. *)
Definition gnt_boot (t : list grant_entry) : gnttab :=
  Gnttab (replicate (Z.to_nat NR_GRANT_ENTRIES) 0) 0 false t [] [].

Lemma wp_put_all s fl i n : gnt_ok s fl -> NR_RESERVED_ENTRIES <= i -> i + Z.of_nat n <= NR_GRANT_ENTRIES ->
  (forall r, r ∈ fl -> r < i) -> gn_remote s = [] ->
  wp (mfor put_free_entry (seqZ i (Z.of_nat n)))
    (fun _ s' => gnt_ok s' (rev (seqZ i (Z.of_nat n)) ++ fl) /\ gn_remote s' = []) s.
Proof.
  revert s fl i. induction n as [|n IH]; intros s fl i Hk Hi Hn Hf Hr; [done|].
  rewrite Nat2Z.inj_succ, (seqZ_cons i) by lia. rewrite Z.pred_succ. cbn [mfor rev]. wp_steps.
  eapply wp_mono; [apply wp_put_free_entry; [done|unfold gref; lia|]|].
  { intros H%Hf. lia. }
  intros [] s1 [Hk1 [_ Hr1]]. rewrite <- app_assoc. cbn. rewrite <- (Z.add_1_l i), (Z.add_comm 1 i). apply IH; try done; try lia.
  - intros r [->|H%Hf]%elem_of_cons; lia.
  - congruence.
Qed.

Section Boot.
Variables (add_to_physmap : Z -> Z -> Z) (t : list grant_entry) (table : Z).
Hypothesis physmap_ok : forall i g, add_to_physmap i g = 0.
Hypothesis table_len : Z.of_nat (length t) = NR_GRANT_ENTRIES.

Lemma wp_init_gnttab :
  wp (init_gnttab add_to_physmap table) (fun _ s => exists fl, gnt_ok s fl /\ gn_remote s = [] /\
    (forall r, r ∈ fl <-> gref r)) (gnt_boot t).
Proof using sizeof_ok physmap_ok table_len.
  pose proof entries_ge as Hge. unfold NR_RESERVED_ENTRIES in Hge. unfold init_gnttab.
  rewrite <- (Z2Nat.id (NR_GRANT_ENTRIES - NR_RESERVED_ENTRIES)) by (unfold NR_RESERVED_ENTRIES; lia). wp_steps.
  eapply wp_mono; [eapply (wp_put_all _ [] _ (Z.to_nat (NR_GRANT_ENTRIES - NR_RESERVED_ENTRIES)))|].
  - unfold gnt_boot. split; cbn; try done; [rewrite length_replicate; lia|constructor|].
    apply lookup_replicate. unfold NR_RESERVED_ENTRIES in *. split; [done|].
    assert (NR_GRANT_ENTRIES <> 0) by lia. lia.
  - unfold NR_RESERVED_ENTRIES. lia.
  - unfold NR_RESERVED_ENTRIES. lia.
  - set_solver.
  - done.
  - intros [] s [Hk Hr]. wp_steps.
    set (fl := rev (seqZ _ _) ++ []) in *.
    assert (Hin : forall r, r ∈ fl <-> gref r).
    { intros r. unfold fl. rewrite app_nil_r, rev_alt. fold (reverse (seqZ NR_RESERVED_ENTRIES (Z.of_nat (Z.to_nat (NR_GRANT_ENTRIES - NR_RESERVED_ENTRIES))))). rewrite elem_of_reverse, elem_of_seqZ.
      unfold gref, NR_RESERVED_ENTRIES in *. lia. }
    eapply wp_mono; [apply (wp_for _ _ (fun s => exists fl, gnt_ok s fl /\ gn_remote s = [] /\ forall r, r ∈ fl <-> gref r))|].
    + by exists fl.
    + intros i q _ (fl' & Hk' & Hr' & H). wp_steps. apply wp_assert; [by rewrite physmap_ok|].
      exists fl'. split; [|done]. destruct Hk'. by split.
    + intros [] q H. exact H.
Qed.

(** ** A driver that grants and revokes; [owned] is what it holds *)
Inductive gop :=
| GGrant (domid frame ro : Z)
| GTransfer (domid pfn : Z)
| GEnd (ref : Z) (remote : list (option Z)).   (* with the other side's meddling *)

Definition gclient := (gnttab * gset Z)%type.

Definition gtake (m : M gnttab Z) (c : gclient) : res (Z * gclient) :=
  match m (fst c) with
  | Done (x, s') => Done (x, (s', {[x]} ∪ snd c))
  | Halted w => Halted w | NoFuel => NoFuel
  end.
Definition gstep (op : gop) (c : gclient) : option (res (Z * gclient)) :=
  match op with
  | GGrant domid frame ro => Some (gtake (gnttab_grant_access domid frame ro) c)
  | GTransfer domid pfn => Some (gtake (gnttab_grant_transfer domid pfn) c)
  | GEnd ref remote =>
      if bool_decide (ref ∈ snd c) && (Z.of_nat (length remote) <? 2 ^ 64) then
        Some (match gnttab_end_access ref (set_remote remote (fst c)) with
              | Done (x, s') => Done (x, (s', if x =? 1 then snd c ∖ {[ref]} else snd c))
              | Halted w => Halted w | NoFuel => NoFuel
              end)
      else None
  end.
Inductive gnt_reach : gclient -> Prop :=
| gr_init s : init_gnttab add_to_physmap table (gnt_boot t) = Done (tt, s) -> gnt_reach (s, ∅)
| gr_step op c x c' : gnt_reach c -> gstep op c = Some (Done (x, c')) -> gnt_reach c'.

Record gc_inv (c : gclient) (fl : list Z) : Prop := {
  gc_ok : gnt_ok (fst c) fl;
  gc_split : forall r, r ∈ fl <-> gref r /\ r ∉ snd c;
  gc_owned : forall r, r ∈ snd c -> gref r
}.

(** What a step does to the driver's references. *)
Definition gstep_post (op : gop) (c : gclient) (r : res (Z * gclient)) : Prop :=
  let taken d f fl := exists ref s', r = Done (ref, (s', {[ref]} ∪ snd c)) /\ gref ref /\ ref ∉ snd c /\
    entry s' ref = MkGrant (u32 f) (u16 d) fl /\ forall q, q ∈ snd c -> entry s' q = entry (fst c) q in
  let full := forall ref, gref ref -> ref ∈ snd c in
  match op with
  | GGrant d f ro => taken d f (access_flags ro) \/ (full /\ r = NoFuel)
  | GTransfer d f => taken d f GTF_accept_transfer \/ (full /\ r = NoFuel)
  | GEnd ref remote => exists s' k, gn_remote s' = drop k remote /\
      (let f := seen (ge_flags (entry (fst c) ref)) (take k remote) in
       if in_use f then r = Done (0, (s', snd c)) /\ ge_flags (entry s' ref) = f
       else r = Done (1, (s', snd c ∖ {[ref]})) /\ ge_flags (entry s' ref) = 0) /\
      (ge_frame (entry s' ref) = ge_frame (entry (fst c) ref) /\ ge_domid (entry s' ref) = ge_domid (entry (fst c) ref)) /\
      forall q, q ∈ snd c -> q <> ref -> entry s' q = entry (fst c) q
  end.

Lemma gtake_ok (m : M gnttab Z) c fl d f flags :
  (forall r fl', fl = r :: fl' -> wp m (fun x s' => x = r /\ granted r d f flags fl' (fst c) s') (fst c)) ->
  (fl = [] -> m (fst c) = NoFuel) -> gc_inv c fl ->
  (exists ref s', gtake m c = Done (ref, (s', {[ref]} ∪ snd c)) /\ gref ref /\ ref ∉ snd c /\
    entry s' ref = MkGrant (u32 f) (u16 d) flags /\ (forall q, q ∈ snd c -> entry s' q = entry (fst c) q) /\
    gc_inv (s', {[ref]} ∪ snd c) (tail fl)) \/
  ((forall ref, gref ref -> ref ∈ snd c) /\ gtake m c = NoFuel).
Proof.
  intros Hsome Hnone [Hk Hsp Hown]. unfold gtake. destruct fl as [|r fl].
  - right. rewrite (Hnone eq_refl). split; [|done]. intros ref Hg.
    destruct (decide (ref ∈ snd c)); [done|]. exfalso. by apply (not_elem_of_nil ref), Hsp.
  - left. destruct (wp_run _ _ _ (Hsome r fl eq_refl)) as (x & s' & -> & -> & [Hk' Ho He Hrm]).
    destruct (proj1 (Hsp r) ltac:(set_solver)) as [Hg Hno]. exists r, s'. split_and!; try done.
    + intros q Hq. apply Ho; [|set_solver]. specialize (Hown q Hq). unfold gref, NR_RESERVED_ENTRIES in Hown. lia.
    + cbn. destruct Hk as [_ _ _ _ [Hnd _]%NoDup_cons _ _]. split; cbn; [done| |].
      * intros q. specialize (Hsp q). rewrite elem_of_cons in Hsp.
        rewrite not_elem_of_union, not_elem_of_singleton. destruct (decide (q = r)) as [->|]; [tauto|]. intuition.
      * intros q [->%elem_of_singleton|Hq]%elem_of_union; auto.
Qed.

Lemma end_ok c fl ref remote : gc_inv c fl -> ref ∈ snd c -> Z.of_nat (length remote) < 2 ^ 64 ->
  exists s' x, gnttab_end_access ref (set_remote remote (fst c)) = Done (x, s') /\
    end_post ref fl (set_remote remote (fst c)) x s' /\
    gc_inv (s', if x =? 1 then snd c ∖ {[ref]} else snd c) (if x =? 1 then ref :: fl else fl).
Proof.
  intros [Hk Hsp Hown] Hin Hlen.
  assert (Hni : ref ∉ fl) by (intros [_ ?]%Hsp; done).
  destruct (wp_run _ _ _ (wp_end_access _ fl ref (gnt_ok_remote _ _ remote Hk) (Hown _ Hin) Hni Hlen))
    as (x & s' & E & Hp).
  exists s', x. split; [done|]. split; [done|]. destruct Hp as [_ _ (k & _ & Hs)]. cbn zeta in Hs.
  destruct (in_use _); destruct Hs as (-> & Hk' & _); cbn.
  2:{ split; cbn; [done| |].
      - intros q. rewrite elem_of_cons, Hsp. specialize (Hown ref Hin).
        rewrite not_elem_of_difference, elem_of_singleton. destruct (decide (q = ref)) as [->|]; intuition.
      - intros q Hq. apply Hown. by apply elem_of_difference in Hq as [? _]. }
  by split.
Qed.

Lemma gstep_ok op c fl r : gc_inv c fl -> gstep op c = Some r ->
  gstep_post op c r /\ forall x c', r = Done (x, c') -> exists fl', gc_inv c' fl'.
Proof.
  intros Hc. pose proof Hc as [Hk _ Hown]. destruct op as [d f ro|d f|ref remote]; cbn [gstep].
  - intros [= <-]. destruct (gtake_ok (gnttab_grant_access d f ro) c fl d f (access_flags ro)) as [(ref & s' & -> & ? & ? & ? & ? & Hi)|[? ->]]; [| |done| |].
    + intros r fl' ->. by apply wp_grant_access.
    + intros ->. unfold gnttab_grant_access, cbind. by rewrite get_free_entry_blocks.
    + split; [left; exists ref, s'; by split_and!|]. intros x c' [= <- <-]. by eexists.
    + split; [by right|done].
  - intros [= <-]. destruct (gtake_ok (gnttab_grant_transfer d f) c fl d f GTF_accept_transfer) as [(ref & s' & -> & ? & ? & ? & ? & Hi)|[? ->]]; [| |done| |].
    + intros r fl' ->. by apply wp_grant_transfer.
    + intros ->. unfold gnttab_grant_transfer, cbind. by rewrite get_free_entry_blocks.
    + split; [left; exists ref, s'; by split_and!|]. intros x c' [= <- <-]. by eexists.
    + split; [by right|done].
  - destruct (bool_decide_reflect (ref ∈ snd c)) as [Hin|]; [|done]. cbn [andb].
    destruct (Z.ltb_spec (Z.of_nat (length remote)) (2 ^ 64)) as [Hl|]; [|done]. intros [= <-].
    destruct (end_ok c fl ref remote Hc Hin Hl) as (s' & x & -> & [Ho Hb (k & Hr & Hs)] & Hi). split.
    + exists s', k. split; [done|]. split; [|split; [done|]].
      * change (entry (set_remote remote (fst c)) ref) with (entry (fst c) ref) in Hs. cbn [gn_remote set_remote] in Hs. cbn zeta in *.
        destruct (in_use _); destruct Hs as (-> & _ & ?); done.
      * intros q Hq Hne. change (entry s' q = entry (fst c) q). apply (Ho q); [|done].
        specialize (Hown q Hq). unfold gref, NR_RESERVED_ENTRIES in Hown. lia.
    + intros y c' [= <- <-]. by eexists.
Qed.

Lemma gnt_reach_inv c : gnt_reach c -> exists fl, gc_inv c fl.
Proof using sizeof_ok physmap_ok table_len.
  induction 1 as [s E|op c x c' _ [fl IH] E].
  - destruct (wp_run _ _ _ wp_init_gnttab) as ([] & s' & E' & fl & Hk & Hr & Hin).
    assert (s' = s) as -> by congruence. exists fl. split; cbn; [done| |set_solver].
    intros r. rewrite Hin. set_solver.
  - destruct (gstep_ok op c fl _ IH E) as [_ H]. by eapply H.
Qed.

(** C35. Grant references, from [init_gnttab] on, for every sequence of grants and
    revocations by a driver and whatever the other side does to the entries'
    flags meanwhile: no assertion fails; a grant hands out a valid reference the
    driver does not hold, fills its entry and touches no entry the driver holds,
    or waits because every reference is in use; a revocation returns, and the flags as
    the other side has left them at its last access decide: in use, the answer is 0, the
    flags are as they were and the driver keeps the reference; otherwise the answer is 1,
    the flags are cleared and the reference is free.  No flag that the other side sets
    before the exchange is ever overwritten. *)
Theorem gnttab_client_safe c op r :
  gnt_reach c -> gstep op c = Some r -> (forall q, q ∈ snd c -> gref q) /\ gstep_post op c r.
Proof using sizeof_ok physmap_ok table_len.
  intros [fl Hi]%gnt_reach_inv E. split; [apply Hi|]. by apply (gstep_ok op c fl).
Qed.
End Boot.
End GnttabSpec.

(** Xen's values. *)
#[local] Instance xen_grant : XenGrant :=
  {| sizeof_grant_entry := 8; GTF_permit_access := 1; GTF_accept_transfer := 2; GTF_readonly := 4;
     GTF_reading := 8; GTF_writing := 16; GTF_transfer_committed := 4; GTF_transfer_completed := 8 |}.

Abbreviation example_reach := (gnt_reach (fun _ _ => 0) (replicate 4096 (MkGrant 0 0 0)) 0).
(** A grant, and its revocation while the other side starts to write. *)
Lemma gnttab_client_safe_witness : exists s, example_reach (s, ∅) /\
  exists ref s1, gstep (GGrant 5 77 0) (s, ∅) = Some (Done (ref, (s1, {[ref]} ∪ ∅))) /\ ge_flags (entry s1 ref) = 1 /\
  exists r s2 k, gstep (GEnd ref [None; Some 17]) (s1, {[ref]} ∪ ∅) = Some r /\ gn_remote s2 = drop k [None; Some 17] /\
    (if in_use (seen 1 (take k [None; Some 17])) then r = Done (0, (s2, {[ref]} ∪ ∅)) /\ ge_flags (entry s2 ref) = seen 1 (take k [None; Some 17])
     else r = Done (1, (s2, ({[ref]} ∪ ∅) ∖ {[ref]})) /\ ge_flags (entry s2 ref) = 0).
Proof.
  assert (Hlen : Z.of_nat (length (replicate 4096 (MkGrant 0 0 0))) = NR_GRANT_ENTRIES) by (by rewrite length_replicate).
  assert (Hsz : 0 < sizeof_grant_entry <= BMK_PCPU_PAGE_SIZE) by (cbn; unfold BMK_PCPU_PAGE_SIZE; split; reflexivity || discriminate).
  destruct (wp_run _ _ _ (wp_init_gnttab Hsz (fun _ _ => 0) _ 0 (fun _ _ => eq_refl) Hlen)) as ([] & s & E & fl & Hk & _ & Hfl).
  assert (Hr : example_reach (s, ∅)) by (by apply gr_init).
  exists s. split; [exact Hr|].
  assert (H1 : gstep_post (GGrant 5 77 0) (s, ∅) (gtake (gnttab_grant_access 5 77 0) (s, ∅))) by
    (exact (proj2 (gnttab_client_safe Hsz (fun _ _ => 0) _ 0 (fun _ _ => eq_refl) Hlen (s, ∅) (GGrant 5 77 0) _ Hr eq_refl))).
  unfold gstep_post in H1. cbn zeta in H1. destruct H1 as [H1|H1].
  2:{ exfalso. destruct H1 as [Hfull ?]. apply (not_elem_of_empty (C := gset Z) 8), Hfull. split; [done|reflexivity]. }
  destruct H1 as (ref & s1 & E1 & H1). destruct H1 as (Hg & ? & H1). destruct H1 as [Ee ?].
  exists ref, s1. cbn [snd] in E1. split; [cbn [gstep]; by rewrite E1|]. split; [by rewrite Ee|].
  assert (Hr1 : example_reach (s1, {[ref]} ∪ ∅)).
  { apply (gr_step _ _ _ (GGrant 5 77 0) (s, ∅) ref _ Hr). cbn [gstep]. by rewrite E1. }
  assert (Eg : exists r, gstep (GEnd ref [None; Some 17]) (s1, {[ref]} ∪ ∅) = Some r).
  { cbn [gstep snd]. rewrite bool_decide_true by (apply elem_of_union; left; by apply elem_of_singleton). eexists. cbn [andb Z.ltb]. reflexivity. }
  destruct Eg as [r Eg].
  pose proof (proj2 (gnttab_client_safe Hsz (fun _ _ => 0) _ 0 (fun _ _ => eq_refl) Hlen _ _ r Hr1 Eg)) as H2.
  unfold gstep_post in H2. destruct H2 as (s2 & k & Hrm & Hs & _).
  exists r, s2, k. split; [exact Eg|]. split; [exact Hrm|]. cbn [fst snd] in Hs. rewrite Ee in Hs. exact Hs.
Defined.
