(* ===== verification/Gntmap.v ===== *)
(** * Grant mappings (platform/hw/xen/gntmap.c)

    Foreign pages are mapped over pages taken from the page allocator; a table
    of (host address, handle) pairs remembers what to unmap. *)

From S2P Require Import Prelude Pgalloc PgallocInv PageIface PgallocSpec.

(** Xen's grant table operations, on the hypervisor's state [X]; each returns
    the hypercall's code and the status of the operation. *)
Class XenMap (X : Type) := {
  GNTMAP_host_map : Z;
  GNTMAP_readonly : Z;
  GNTST_okay : Z;
  (** reference, domain, host address, flags: code, status, handle *)
  map_grant_ref : Z -> Z -> Z -> Z -> X -> (Z * Z * Z) * X;
  (** host address, handle: code, status *)
  unmap_grant_ref : Z -> Z -> X -> (Z * Z) * X;
  (** the frames mapped: host address to handle *)
  x_mapped : X -> gmap Z Z;
  (** and what they are: the domain, its reference and the flags *)
  x_page : X -> gmap Z (Z * Z * Z)
}.
(** What Xen documents of them. *)
Class XenMapLaws (X : Type) `{XM : XenMap X} : Prop := {
  okay_zero : GNTST_okay = 0;
  map_success : forall r d a f x h x', map_grant_ref r d a f x = ((0, GNTST_okay, h), x') ->
    x_mapped x' = <[a := h]> (x_mapped x) /\ x_page x' = <[a := (d, r, f)]> (x_page x);
  map_failure : forall r d a f x rc st h x', map_grant_ref r d a f x = ((rc, st, h), x') ->
    rc <> 0 \/ st <> GNTST_okay -> x_mapped x' = x_mapped x;
  unmap_success : forall a h x, x_mapped x !! a = Some h ->
    exists x', unmap_grant_ref a h x = ((0, GNTST_okay), x') /\ x_mapped x' = delete a (x_mapped x)
}.

Definition DEFAULT_MAX_GRANTS : Z := 4096.
Definition BMK_EINVAL : Z := 22.

Record gntmap_entry := GEnt { host_addr : Z; handle : Z }.

(** ** The order of a block of [count] pages (mini-os/gntmap.h) *)
Definition gntmap_map2order (count : Z) : Z :=
  let o := 8 * 8 - clz64 count in
  if Z.land count (u64 (count - 1)) =? 0 then o - 1 else o.

Section Gntmap.
Context {P X : Type} `{PA : PageAllocator P} `{XM : XenMap X}.

Record gntmap := Gntmap {
  gm_pg : P;
  gm_x : X;
  entries : list gntmap_entry;          (* [nentries] is its length *)
  gm_alive : bool                       (* [entries] is not NULL *)
}.
Definition set_gpg p s := Gntmap p (gm_x s) (entries s) (gm_alive s).
Definition set_x x s := Gntmap (gm_pg s) x (entries s) (gm_alive s).
Definition set_entries e s := Gntmap (gm_pg s) (gm_x s) e (gm_alive s).
Definition in_gpg {A} (m : M P A) : M gntmap A := zoom gm_pg set_gpg m.
Definition hypercall {A} (f : X -> A * X) : M gntmap A :=
  s <-- mget ;; let '(a, x) := f (gm_x s) in modify (set_x x) ;;; cret a.

Definition gntmap_entry_used (e : gntmap_entry) : bool := negb (host_addr e =? 0).
Definition set_host (i : nat) (a : Z) (s : gntmap) : gntmap :=
  set_entries (alter (fun e => GEnt a (handle e)) i (entries s)) s.

(** The slot found, marked as used. *)
Definition gntmap_find_free_entry : M gntmap (option nat) :=
  s <-- mget ;;
  match list_find (fun e => gntmap_entry_used e = false) (entries s) with
  | Some (i, _) => modify (set_host i (u64 (-1))) ;;; cret (Some i)
  | None => cret None
  end.
Definition gntmap_find_entry (addr : Z) : M gntmap (option nat) :=
  s <-- mget ;; cret (fst <$> list_find (fun e => host_addr e = addr) (entries s)).

Definition gntmap_set_max_grants (alloc_ok : bool) (count : Z) : M gntmap unit :=
  massert alloc_ok "cannot allocate gntmap" ;;;
  modify (fun s => Gntmap (gm_pg s) (gm_x s) (replicate (Z.to_nat count) (GEnt 0 0)) true).

Definition map_flags (writable : bool) : Z := if writable then GNTMAP_host_map else Z.lor GNTMAP_host_map GNTMAP_readonly.
Definition gntmap_map_grant_ref (i : nat) (addr domid ref : Z) (writable : bool) : M gntmap Z :=
  '(rc, status, h) <-- hypercall (map_grant_ref ref (u16 domid) addr (map_flags writable)) ;;
  if negb (rc =? 0) || negb (status =? GNTST_okay) then
    modify (set_host i 0) ;;; cret (if rc =? 0 then status else rc)
  else
    modify (set_host i addr) ;;;
    modify (fun s => set_entries (alter (fun e => GEnt (host_addr e) h) i (entries s)) s) ;;;
    cret 0.

Definition gntmap_unmap_grant_ref (i : nat) : M gntmap Z :=
  s <-- mget ;;
  e <-- mopt (entries s !! i) "entries index" ;;
  '(rc, status) <-- hypercall (unmap_grant_ref (host_addr e) (handle e)) ;;
  if negb (rc =? 0) || negb (status =? GNTST_okay) then cret (if rc =? 0 then status else rc)
  else modify (set_host i 0) ;;; cret 0.

(** [_gntmap_munmap]. *)
Definition gntmap_munmap_pages (start count : Z) : M gntmap Z :=
  loopM (fun i =>
    if i <? count then
      ent <-- gntmap_find_entry (u64 (start + BMK_PCPU_PAGE_SIZE * i)) ;;
      match ent with
      | None => cret (inr (- BMK_EINVAL))
      | Some k => rc <-- gntmap_unmap_grant_ref k ;;
                  if rc =? 0 then cret (inl (i + 1)) else cret (inr rc)
      end
    else cret (inr 0)) 0.

(** The pages stay allocated: the call that would free them is commented out. *)
Definition gntmap_munmap (start count : Z) : M gntmap Z := gntmap_munmap_pages start count.

Definition gntmap_map_grant_refs (count : Z) (domids : list Z) (stride : Z) (refs : list Z) (writable : bool) : M gntmap Z :=
  addr <-- in_gpg (pa_alloc (gntmap_map2order count)) ;;
  if addr =? 0 then cret 0 else
  loopM (fun i =>
    if i <? count then
      ent <-- gntmap_find_free_entry ;;
      ok <-- match ent with
        | None => cret false
        | Some k =>
            d <-- mopt (domids !! Z.to_nat (i * stride)) "domids index" ;;
            r <-- mopt (refs !! Z.to_nat i) "refs index" ;;
            rc <-- gntmap_map_grant_ref k (u64 (addr + BMK_PCPU_PAGE_SIZE * i)) d r writable ;;
            cret (rc =? 0)
        end ;;
      if (ok : bool) then cret (inl (i + 1)) else
      gntmap_munmap_pages addr i ;;;
      in_gpg (pa_release addr (gntmap_map2order count)) ;;;
      cret (inr 0)
    else cret (inr addr)) 0.

Definition gntmap_init (alloc_ok : bool) : M gntmap unit := gntmap_set_max_grants alloc_ok DEFAULT_MAX_GRANTS.

Definition gntmap_fini : M gntmap unit :=
  s <-- mget ;;
  mfor (fun i =>
    s <-- mget ;; e <-- mopt (entries s !! i) "entries index" ;;
    if gntmap_entry_used e then gntmap_unmap_grant_ref i ;;; cret tt else cret tt)
    (seq 0 (length (entries s))) ;;;
  modify (fun s => Gntmap (gm_pg s) (gm_x s) [] false).
End Gntmap.

(** * Grant mapping is all or nothing, and unmapping undoes it *)


(** ** The order of a block *)
Lemma map2order_log2_up c : 0 < c < 2 ^ 64 -> gntmap_map2order c = Z.log2_up c.
Proof.
  intros Hc. unfold gntmap_map2order, clz64, u64. rewrite Z.mod_small by lia.
  pose proof (Z.log2_nonneg c). destruct (Z.eqb_spec (Z.land c (c - 1)) 0) as [E|E].
  - pose proof (land_pred_pow2 c ltac:(lia) E) as Ep. rewrite Ep at 2. rewrite Z.log2_up_pow2 by lia. lia.
  - pose proof (Z.le_log2_up_succ_log2 c). pose proof (Z.le_log2_log2_up c).
    destruct (Z.eq_dec (Z.log2 c) (Z.log2_up c)) as [El|El]; [|lia].
    destruct E. destruct (Z.log2_spec c ltac:(lia)) as [Hlo _].
    assert (Hup : c <= 2 ^ Z.log2_up c).
    { destruct (Z.eq_dec c 1) as [->|]; [done|]. apply Z.log2_up_spec. lia. }
    rewrite <- El in Hup. replace c with (2 ^ Z.log2 c) by lia. apply land_pred_of_pow2. lia.
Qed.

(** The block is large enough, and the next smaller one is not. *)
Lemma map2order_room c : 0 < c < 2 ^ 51 -> 0 <= gntmap_map2order c < 52 /\ c <= 2 ^ gntmap_map2order c < 2 * c.
Proof.
  intros Hc. rewrite map2order_log2_up by lia. pose proof (Z.log2_up_nonneg c).
  destruct (Z.eq_dec c 1) as [->|]; [cbn; lia|]. destruct (Z.log2_up_spec c ltac:(lia)) as [H1 H2].
  assert (Z.log2_up c <= 51) by (apply Z.log2_up_le_pow2; lia).
  assert (0 < Z.log2_up c) by (apply Z.log2_up_pos; lia).
  replace (Z.log2_up c) with (Z.succ (Z.pred (Z.log2_up c))) at 4 by lia.
  rewrite Z.pow_succ_r by lia. lia.
Qed.

Section GntmapSpec.
Context {P X : Type} `{PA : PageAllocator P} `{XM : XenMap X} `{XL : !XenMapLaws X}.
Abbreviation gmst := (@gntmap P X).

Definition maps (es : list gntmap_entry) (a h : Z) : Prop := exists i, es !! i = Some (GEnt a h).
Definition uniq (es : list gntmap_entry) : Prop :=
  forall i j e e', es !! i = Some e -> es !! j = Some e' -> host_addr e = host_addr e' -> host_addr e <> 0 -> i = j.

(** The table tells the truth about the hypervisor, on pages that are not the
    allocator's. *)
Record gm_inv (s : gmst) : Prop := {
  gi_pa : pa_inv (gm_pg s);
  gi_uniq : uniq (entries s);
  gi_sound : forall a h, a <> 0 -> maps (entries s) a h -> x_mapped (gm_x s) !! a = Some h;
  gi_pages : forall a h, a <> 0 -> maps (entries s) a h -> ~ pa_free (gm_pg s) a
}.

Definition page (addr i : Z) : Z := addr + BMK_PCPU_PAGE_SIZE * i.
Definition page_of (addr n a : Z) : Prop := exists i, 0 <= i < n /\ a = page addr i.
(** [s'] has the mappings of [s] plus those of [n] pages from [addr]. *)
Record with_pages (addr n : Z) (s s' : gmst) : Prop := {
  wg_in : forall i, 0 <= i < n -> exists h, maps (entries s') (page addr i) h;
  wg_out : forall a h, a <> 0 -> ~ page_of addr n a -> maps (entries s') a h <-> maps (entries s) a h;
  wg_x : forall a, ~ page_of addr n a -> x_mapped (gm_x s') !! a = x_mapped (gm_x s) !! a
}.
(** The table part of the invariant. *)
Definition tab_ok (s : gmst) : Prop :=
  uniq (entries s) /\ forall a h, a <> 0 -> maps (entries s) a h -> x_mapped (gm_x s) !! a = Some h.

(** ** One entry *)
Lemma uniq_insert es i a h e0 : uniq es -> es !! i = Some e0 ->
  (a = 0 \/ forall h', ~ maps es a h') -> uniq (<[i := GEnt a h]> es).
Proof.
  intros Hu Hi Ha p q e e' Hp Hq E Hnz.
  destruct (decide (p = i)) as [->|Hpi], (decide (q = i)) as [->|Hqi]; [done| | |].
  - rewrite list_lookup_insert_eq in Hp by (by eapply lookup_lt_Some).
    rewrite list_lookup_insert_ne in Hq by done. injection Hp as <-. cbn in *.
    destruct Ha as [->|Ha]; [done|]. destruct (Ha (handle e')). exists q. destruct e'; cbn in *. by subst.
  - rewrite list_lookup_insert_eq in Hq by (by eapply lookup_lt_Some).
    rewrite list_lookup_insert_ne in Hp by done. injection Hq as <-. cbn in *.
    destruct Ha as [->|Ha]; [by rewrite E in Hnz|]. destruct (Ha (handle e)). exists p. destruct e; cbn in *. by subst.
  - rewrite list_lookup_insert_ne in Hp, Hq by done. by eapply Hu.
Qed.

Lemma maps_insert es i a h e0 b g : uniq es -> es !! i = Some e0 -> b <> 0 ->
  maps (<[i := GEnt a h]> es) b g <-> (b = a /\ g = h) \/ (b <> host_addr e0 /\ maps es b g).
Proof.
  intros Hu Hi Hb. split.
  - intros [p Hp]. destruct (decide (p = i)) as [->|Hpi].
    + rewrite list_lookup_insert_eq in Hp by (by eapply lookup_lt_Some). injection Hp as -> ->. by left.
    + rewrite list_lookup_insert_ne in Hp by done. right. split; [|by exists p].
      intros ->. apply Hpi. by eapply (Hu p i _ _ Hp Hi).
  - intros [[-> ->]|[Hne [p Hp]]].
    + exists i. apply list_lookup_insert_eq. by eapply lookup_lt_Some.
    + exists p. rewrite list_lookup_insert_ne; [done|]. intros ->. rewrite Hi in Hp. injection Hp as ->. by cbn in Hne.
Qed.

Lemma alter_insert (f : gntmap_entry -> gntmap_entry) (es : list gntmap_entry) (i : nat) e : es !! i = Some e -> alter f i es = <[i := f e]> es.
Proof.
  revert i. induction es as [|x es IH]; intros [|i] H; cbn in *; [done|done|by injection H as ->|]. f_equal. by apply IH.
Qed.

Lemma page_inj addr i j : page addr i = page addr j -> i = j.
Proof. unfold page, BMK_PCPU_PAGE_SIZE, BMK_PCPU_PAGE_SHIFT. lia. Qed.
Lemma page_of_succ addr n a : 0 <= n -> page_of addr (n + 1) a <-> page_of addr n a \/ a = page addr n.
Proof.
  intros Hn. split.
  - intros (i & Hi & ->). destruct (Z.eq_dec i n) as [->|]; [by right|]. left. exists i. split; [lia|done].
  - intros [(i & Hi & ->)| ->]; eexists; (split; [|reflexivity]); lia.
Qed.
#[local] Instance page_of_dec addr n a : Decision (page_of addr n a).
Proof.
  destruct (decide (0 <= (a - addr) / BMK_PCPU_PAGE_SIZE < n /\ a = page addr ((a - addr) / BMK_PCPU_PAGE_SIZE))) as [H|H];
    [left; by eexists|right].
  intros (i & Hi & ->). apply H. unfold page. replace (addr + BMK_PCPU_PAGE_SIZE * i - addr) with (i * BMK_PCPU_PAGE_SIZE) by lia.
  rewrite Z.div_mul by done. done.
Defined.
Lemma page_not_of addr n : ~ page_of addr n (page addr n).
Proof. intros (i & Hi & E%page_inj). lia. Qed.

(** ** Unmapping a run of pages *)
Record unmapped (addr n : Z) (s s' : gmst) : Prop := {
  um_tab : tab_ok s';
  um_pg : gm_pg s' = gm_pg s;
  um_maps : forall a h, a <> 0 -> maps (entries s') a h <-> ~ page_of addr n a /\ maps (entries s) a h;
  um_gone : forall a, page_of addr n a -> x_mapped (gm_x s') !! a = None;
  um_x : forall a, ~ page_of addr n a -> x_mapped (gm_x s') !! a = x_mapped (gm_x s) !! a
}.

Lemma wp_find_entry (s : gmst) a h : maps (entries s) a h ->
  wp (gntmap_find_entry a) (fun r s' => s' = s /\ exists k e, r = Some k /\ entries s !! k = Some e /\ host_addr e = a) s.
Proof.
  intros [i Hi]. unfold gntmap_find_entry. wp_steps. split; [done|].
  destruct (list_find (fun e => host_addr e = a) (entries s)) as [[k e]|] eqn:E.
  - apply list_find_Some in E as (Hk & Hh & _). by exists k, e.
  - apply list_find_None in E. rewrite Forall_lookup in E. by destruct (E _ _ Hi).
Qed.

Lemma wp_unmap_one (s : gmst) k e : tab_ok s -> entries s !! k = Some e -> host_addr e <> 0 ->
  wp (gntmap_unmap_grant_ref k) (fun r s' => r = 0 /\ tab_ok s' /\ gm_pg s' = gm_pg s /\
    entries s' = <[k := GEnt 0 (handle e)]> (entries s) /\
    x_mapped (gm_x s') = delete (host_addr e) (x_mapped (gm_x s))) s.
Proof using XL.
  intros [Hu Hs] Hk Hnz. unfold gntmap_unmap_grant_ref. wp_steps. eapply wp_opt; [exact Hk|]. wp_steps.
  assert (Hm : maps (entries s) (host_addr e) (handle e)) by (exists k; by destruct e).
  destruct (unmap_success _ _ _ (Hs _ _ Hnz Hm)) as (x' & Ex & Ed).
  unfold hypercall. wp_steps. rewrite Ex. wp_steps. rewrite okay_zero. cbn [Z.eqb negb orb]. wp_steps.
  unfold set_host. cbn [entries set_x gm_x gm_pg set_entries]. rewrite (alter_insert _ _ _ e) by done.
  split_and!; try done. split; cbn [entries gm_x set_entries set_x].
  - eapply uniq_insert; [done|exact Hk|by left].
  - intros a h Ha Hma. rewrite Ed. eapply (maps_insert _ _ _ _ _ _ _ Hu Hk) in Hma; [|done].
    destruct Hma as [[-> _]|[Hne Hma]]; [done|]. rewrite lookup_delete_ne by done. by apply Hs.
Qed.

Lemma wp_munmap_pages (s : gmst) addr n : tab_ok s -> 0 < addr -> 0 <= n < 2 ^ 63 -> page addr n <= 2 ^ 64 ->
  (forall i, 0 <= i < n -> exists h, maps (entries s) (page addr i) h) ->
  wp (gntmap_munmap_pages addr n) (fun r s' => r = 0 /\ unmapped addr n s s') s.
Proof using XL.
  intros Ht Ha Hn Hend Hin. unfold gntmap_munmap_pages.
  eapply (wp_loop _ (fun i q => 0 <= i <= n /\ unmapped addr i s q) (fun i _ => n - i)); [| |lia].
  - intros i q [Hi [Hqt Hqp Hqm Hqg Hqx]]. split; [lia|].
    destruct (Z.ltb_spec i n); wp_steps; [|replace n with i by lia; by split].
    assert (Hpg : page addr i < 2 ^ 64).
    { assert (page addr i < page addr n); [|lia]. unfold page, BMK_PCPU_PAGE_SIZE, BMK_PCPU_PAGE_SHIFT. lia. }
    assert (Hp0 : 0 < page addr i) by (unfold page, BMK_PCPU_PAGE_SIZE, BMK_PCPU_PAGE_SHIFT; lia).
    fold (page addr i). unfold u64. rewrite Z.mod_small by lia.
    destruct (Hin i ltac:(lia)) as [h Hh].
    assert (Hm : maps (entries q) (page addr i) h).
    { apply Hqm; [lia|]. split; [apply page_not_of|done]. }
    eapply wp_mono; [by eapply wp_find_entry|]. intros r q1 (-> & k & e & -> & Hk & He). wp_steps.
    eapply wp_mono; [by eapply wp_unmap_one; [..|rewrite He; lia]|].
    intros rc q2 (-> & Ht2 & Hp2 & He2 & Hx2). cbn [Z.eqb]. wp_steps. split; [|lia]. split; [lia|].
    split; [done|congruence| | |].
    + intros a g Hnz. rewrite He2, (maps_insert _ _ _ _ _ _ _ (proj1 Hqt) Hk) by done.
      rewrite He, Hqm, page_of_succ by lia. intuition congruence.
    + intros a. rewrite page_of_succ, Hx2, He by lia. intros [Hp| ->]; [|apply lookup_delete_eq].
      destruct (decide (a = page addr i)) as [->|]; [apply lookup_delete_eq|]. rewrite lookup_delete_ne by done. auto.
    + intros a. rewrite page_of_succ, Hx2, He by lia. intros Hnp. rewrite lookup_delete_ne by (intros <-; tauto). apply Hqx. tauto.
  - split; [lia|]. split; try done.
    + intros a h _. split; [|by intros [_ ?]]. intros Hma. split; [|done]. intros (j & Hj & _). lia.
    + intros a (j & Hj & _). lia.
Qed.

(** ** Mapping a run of pages *)
Definition slot_free (s : gmst) : Prop := exists k h, entries s !! k = Some (GEnt 0 h).

(** One turn of the loop: a new mapping, or nothing changed but the hypervisor. *)
Definition map_one (addr d r : Z) (w : bool) : M gmst bool :=
  ent <-- gntmap_find_free_entry ;;
  match ent with
  | None => cret false
  | Some k => rc <-- gntmap_map_grant_ref k addr d r w ;; cret (rc =? 0)
  end.
Lemma wp_map_one (s : gmst) a d r w : tab_ok s -> a <> 0 -> (forall h, ~ maps (entries s) a h) ->
  wp (map_one a d r w) (fun ok s' => tab_ok s' /\ gm_pg s' = gm_pg s /\
    if ok then exists h, (forall b g, b <> 0 -> maps (entries s') b g <-> (b = a /\ g = h) \/ maps (entries s) b g) /\
                         x_mapped (gm_x s') = <[a := h]> (x_mapped (gm_x s)) /\ x_page (gm_x s') = <[a := (u16 d, r, map_flags w)]> (x_page (gm_x s))
    else entries s' = entries s /\ x_mapped (gm_x s') = x_mapped (gm_x s)) s.
Proof using XL.
  intros [Hu Hs] Ha Hno. unfold map_one, gntmap_find_free_entry. wp_steps.
  destruct (list_find (fun e => gntmap_entry_used e = false) (entries s)) as [[k [e0 h0]]|] eqn:E; wp_steps; [|done].
  apply list_find_Some in E as (Hk & Hf & _). unfold gntmap_entry_used in Hf. apply negb_false_iff, Z.eqb_eq in Hf. cbn in Hf. subst e0.
  unfold gntmap_map_grant_ref, hypercall. wp_steps. unfold set_host. cbn [gm_x set_entries entries gm_pg].
  rewrite (alter_insert _ _ _ _ Hk). cbn [handle].
  destruct (map_grant_ref r (u16 d) a _ (gm_x s)) as [[[rc st] h] x'] eqn:Ex. wp_steps.
  assert (Hlen : (k < length (entries s))%nat) by (by eapply lookup_lt_Some).
  destruct (negb (rc =? 0) || negb (st =? GNTST_okay)) eqn:Eb; wp_steps.
  - cbn [set_x set_entries entries gm_x gm_pg].
    rewrite (alter_insert _ (<[k := GEnt (u64 (-1)) h0]> (entries s)) k (GEnt (u64 (-1)) h0)) by (by apply list_lookup_insert_eq). cbn [handle].
    rewrite list_insert_insert_eq, (list_insert_id _ _ _ Hk).
    assert (Em : x_mapped x' = x_mapped (gm_x s)).
    { eapply map_failure; [exact Ex|]. destruct (Z.eqb_spec rc 0); [right|by left]. destruct (Z.eqb_spec st GNTST_okay); done. }
    assert (Hrc : ((if rc =? 0 then st else rc) =? 0) = false).
    { rewrite okay_zero in Eb. destruct (Z.eqb_spec rc 0) as [->|]; [|by apply Z.eqb_neq].
      destruct (st =? 0); [done|done]. }
    rewrite Hrc. split_and!; try done. split; cbn; [done|]. by rewrite Em.
  - apply orb_false_iff in Eb as [E1%negb_false_iff%Z.eqb_eq E2%negb_false_iff%Z.eqb_eq]. subst rc st.
    cbn [set_x set_entries entries gm_x gm_pg].
    rewrite (alter_insert _ (<[k := GEnt (u64 (-1)) h0]> (entries s)) k (GEnt (u64 (-1)) h0)) by (by apply list_lookup_insert_eq). cbn [handle].
    rewrite list_insert_insert_eq. rewrite (alter_insert _ _ _ (GEnt a h0)) by (by apply list_lookup_insert_eq).
    cbn [host_addr]. rewrite list_insert_insert_eq. cbn [Z.eqb].
    destruct (map_success _ _ _ _ _ _ _ Ex) as [Em Ep].
    assert (Hmaps : forall b g, b <> 0 -> maps (<[k := GEnt a h]> (entries s)) b g <-> (b = a /\ g = h) \/ maps (entries s) b g).
    { intros b g Hb. rewrite (maps_insert _ _ _ _ _ _ _ Hu Hk) by done. cbn. intuition. }
    split_and!; [|done|exists h; by split_and!]. split; cbn [entries gm_x set_x set_entries].
    + eapply uniq_insert; [done|exact Hk|by right].
    + intros b g Hb Hm. cbn [gm_x set_x set_entries] in *. rewrite Em. apply Hmaps in Hm as [[-> ->]|Hm]; [apply lookup_insert_eq| |done].
      rewrite lookup_insert_ne; [by apply Hs|]. intros <-. by eapply Hno.
Qed.

(** The pages of a block of the order chosen for [count] pages. *)
Lemma gm_block_pages count addr i : 0 < count < 2 ^ 51 -> 0 <= i < count ->
  in_block (gntmap_map2order count) addr (page addr i) /\ page addr count <= addr + csize (gntmap_map2order count).
Proof.
  intros Hc Hi. destruct (map2order_room count Hc) as [Ho Hr]. unfold in_block, csize, page, BMK_PCPU_PAGE_SIZE, BMK_PCPU_PAGE_SHIFT.
  rewrite Z.pow_add_r by lia. change (2 ^ 12) with 4096. change (Z.shiftl 1 12) with 4096. nia.
Qed.

Definition same_maps (s s' : gmst) : Prop :=
  (forall a h, a <> 0 -> maps (entries s') a h <-> maps (entries s) a h) /\
  (forall a, x_mapped (gm_x s') !! a = x_mapped (gm_x s) !! a).

Section MapRefs.
Variables (s : gmst) (count : Z) (domids : list Z) (stride : Z) (refs : list Z) (w : bool).
Hypothesis Hinv : gm_inv s.
Hypothesis Hcount : 0 < count < 2 ^ 51.
Hypothesis Hdom : forall i, 0 <= i < count -> is_Some (domids !! Z.to_nat (i * stride)).
Hypothesis Hrefs : forall i, 0 <= i < count -> is_Some (refs !! Z.to_nat i).
(** Pages the allocator could hand out are not mapped by anyone. *)
Hypothesis Hunmapped : forall a, pa_free (gm_pg s) a -> x_mapped (gm_x s) !! a = None.

(** Page [i] from [addr] shows the [i]th reference, of the domain that goes with it. *)
Definition shows (addr n : Z) (s' : gmst) : Prop := forall i d r, 0 <= i < n -> domids !! Z.to_nat (i * stride) = Some d -> refs !! Z.to_nat i = Some r ->
  x_page (gm_x s') !! page addr i = Some (u16 d, r, map_flags w).
Definition map_post (r : Z) (s' : gmst) : Prop :=
  gm_inv s' /\
  ((r = 0 /\ same_maps s s' /\ forall x, pa_free (gm_pg s') x <-> pa_free (gm_pg s) x) \/
   (r <> 0 /\ pa_lo (gm_pg s) <= r /\ r + csize (gntmap_map2order count) <= pa_hi (gm_pg s) /\ with_pages r count s s' /\ shows r count s' /\
    (forall x, in_block (gntmap_map2order count) r x -> pa_free (gm_pg s) x) /\
    (forall x, pa_free (gm_pg s') x <-> pa_free (gm_pg s) x /\ ~ in_block (gntmap_map2order count) r x))).

(** The loop's invariant: [i] pages are mapped on top of [s]. *)
Record mloop (addr : Z) (p : P) (i : Z) (q : gmst) : Prop := {
  ml_i : 0 <= i <= count;
  ml_pg : gm_pg q = p;
  ml_tab : tab_ok q;
  ml_with : with_pages addr i s q;
  ml_shows : shows addr i q
}.

Lemma with_pages_step addr i q q' h : 0 <= i -> with_pages addr i s q -> page addr i <> 0 ->
  (forall j, 0 <= j < i -> page addr j <> 0) ->
  (forall b g, b <> 0 -> maps (entries q') b g <-> (b = page addr i /\ g = h) \/ maps (entries q) b g) ->
  x_mapped (gm_x q') = <[page addr i := h]> (x_mapped (gm_x q)) -> with_pages addr (i + 1) s q'.
Proof.
  intros Hi [Hin Hout Hx] Hnz Hnz' Hm Ex. split.
  - intros j Hj. destruct (Z.eq_dec j i) as [->|]; [exists h; apply Hm; [done|by left]|].
    destruct (Hin j ltac:(lia)) as [g Hg]. exists g. apply Hm; [apply Hnz'; lia|by right].
  - intros a g Ha. rewrite page_of_succ by done. intros Hn. rewrite Hm by done. rewrite <- Hout by tauto. intuition.
  - intros a. rewrite page_of_succ by done. intros Hn. rewrite Ex, lookup_insert_ne by (intros <-; tauto). apply Hx. tauto.
Qed.

Lemma rollback_same addr i q q' : (forall a, page_of addr i a -> a <> 0 -> (forall h, ~ maps (entries s) a h) /\ x_mapped (gm_x s) !! a = None) ->
  (forall a, page_of addr i a -> a <> 0) ->
  with_pages addr i s q -> unmapped addr i q q' -> same_maps s q'.
Proof.
  intros Hclean Hnz [Hin Hout Hx] [_ _ Um Ug Ux]. split.
  - intros a h Ha. rewrite Um by done. destruct (decide (page_of addr i a)) as [Hp|Hn].
    + destruct (Hclean a Hp Ha) as [H _]. split; [by intros [? _]|]. by intros ?%H.
    + rewrite Hout by done. tauto.
  - intros a. destruct (decide (page_of addr i a)) as [Hp|Hn].
    + rewrite Ug by done. symmetry. apply (Hclean a Hp). by apply Hnz.
    + rewrite Ux by done. by apply Hx.
Qed.

(** The turn as the loop writes it. *)
Lemma wp_turn (q : gmst) i addr d (Hd : domids !! Z.to_nat (i * stride) = Some d) r (Hr : refs !! Z.to_nat i = Some r)
  {R} (K : bool -> M gmst R) Q : wp (map_one addr d r w) (fun ok q' => wp (K ok) Q q') q ->
  wp (ent <-- gntmap_find_free_entry ;;
      ok <-- match ent with
        | None => cret false
        | Some k =>
            d <-- mopt (domids !! Z.to_nat (i * stride)) "domids index" ;;
            r <-- mopt (refs !! Z.to_nat i) "refs index" ;;
            rc <-- gntmap_map_grant_ref k addr d r w ;; cret (rc =? 0)
        end ;; K ok) Q q.
Proof.
  intros H. unfold map_one in H. apply wp_bind_inv in H. apply wp_bind. eapply wp_mono; [exact H|].
  intros [k|] q' H'; cbn beta iota in *; apply wp_bind; [|exact H'].
  rewrite Hd, Hr. exact H'.
Qed.

Lemma wp_map_grant_refs : wp (gntmap_map_grant_refs count domids stride refs w) map_post s.
Proof using Hinv Hcount Hdom Hrefs Hunmapped XL.
  destruct Hinv as [Hpa Hu Hs Hpgs]. destruct (map2order_room count Hcount) as [Ho _].
  unfold gntmap_map_grant_refs, in_gpg. wp_steps.
  eapply wp_mono; [apply (pa_alloc_ok _ _ Hpa Ho)|].
  intros addr p (Hpi & Elo & Ehi & [(-> & Hfr)|(Hne & Hal & Hlo & Hhi & Hwas & Hnow)]); cbn [Z.eqb].
  { wp_steps. split; [|by left]. split; cbn; try done. intros a h Ha Hm Hf. by apply (Hpgs a h Ha Hm), Hfr. }
  destruct (Z.eqb_spec addr 0); [done|]. destruct (pa_region_ok _ Hpa) as [Hrlo Hrhi].
  assert (Hend : page addr count < 2 ^ 64) by (destruct (gm_block_pages count addr 0 Hcount ltac:(lia)); lia).
  assert (Hpos : forall j, 0 <= j -> 0 < page addr j) by (intros; unfold page, BMK_PCPU_PAGE_SIZE, BMK_PCPU_PAGE_SHIFT; lia).
  assert (Hclean : forall a, page_of addr count a -> (forall h, ~ maps (entries s) a h) /\ x_mapped (gm_x s) !! a = None).
  { intros a (j & Hj & ->). destruct (gm_block_pages count addr j Hcount Hj) as [Hb _]. apply Hwas in Hb.
    split; [|by apply Hunmapped]. intros h Hm. specialize (Hpos j ltac:(lia)). by apply (Hpgs (page addr j) h ltac:(lia) Hm). }
  eapply (wp_loop _ (mloop addr p) (fun i _ => count - i)); [| |lia].
  - intros i q Hml. pose proof Hml as [Hi Ep Ht Hw Hsh]. split; [lia|]. destruct (Z.ltb_spec i count) as [Hlt|Hge].
    + assert (Hpi' : page addr i < 2 ^ 64).
      { assert (page addr i < page addr count); [|lia]. unfold page, BMK_PCPU_PAGE_SIZE. lia. }
      pose proof (Hpos i ltac:(lia)) as Hp0. destruct (Hdom i ltac:(lia)) as [d Hd], (Hrefs i ltac:(lia)) as [r Hr].
      fold (page addr i). unfold u64. rewrite (Z.mod_small (page addr i)) by lia.
      assert (Hfresh : forall h, ~ maps (entries q) (page addr i) h).
      { intros h Hm. apply (wg_out _ _ _ _ Hw) in Hm; [|lia|apply page_not_of].
        by apply (proj1 (Hclean (page addr i) ltac:(exists i; split; [lia|done])) h). }
      apply (wp_turn _ _ _ _ Hd _ Hr). eapply wp_mono; [apply wp_map_one; [done|lia|done]|].
      intros [] q' (Ht' & Ep' & Hok); wp_steps.
      * destruct Hok as (h & Hm & Ex & Epg). split; [|lia]. split; [lia|congruence|done| |].
        { apply (with_pages_step addr i q q' h); [lia|done|lia|intros j Hj; specialize (Hpos j); lia|done|done]. }
        intros j d' r' Hj Hd' Hr'. rewrite Epg. destruct (Z.eq_dec j i) as [-> |Hji]; [rewrite lookup_insert_eq; congruence|].
        rewrite lookup_insert_ne by (intros E%page_inj; lia). apply Hsh; [lia|done|done].
      * destruct Hok as [Ee Ex]. assert (Hw' : with_pages addr i s q').
        { destruct Hw as [W1 W2 W3]. split; [by rewrite Ee|by rewrite Ee|by rewrite Ex]. }
        eapply wp_mono; [apply wp_munmap_pages; [done|lia|lia|lia|]|].
        { intros j Hj. by apply Hw'. }
        intros rc q2 [-> Hum]. wp_steps.
        assert (Epg : gm_pg q2 = p) by (rewrite (um_pg _ _ _ _ Hum); congruence). rewrite Epg.
        eapply wp_mono; [apply (pa_release_ok p _ addr Hpi (proj1 Ho) Hal); [lia|lia|intros x Hx Hf; by apply Hnow in Hf as [_ ?]]|].
        intros [] p' (Hpi2 & _ & _ & Hnow'). wp_steps.
        assert (Hsame : same_maps s q2).
        { apply (rollback_same addr i q' q2); [| |done|done].
          - intros a (j & Hj & ->) _. apply Hclean. exists j. split; [lia|done].
          - intros a (j & Hj & ->). specialize (Hpos j). lia. }
        assert (Hback : forall x, pa_free p' x <-> pa_free (gm_pg s) x).
        { intros x. rewrite Hnow', Hnow. specialize (Hwas x).
          destruct (decide (addr <= x < addr + csize (gntmap_map2order count))) as [H|H]; unfold in_block in *; tauto. }
        destruct Hsame as [Hsm Hsx]. split; [|by left]. destruct (um_tab _ _ _ _ Hum) as [Hu2 Hs2].
        split; cbn; [done|done|done|]. intros a h Ha Hm. rewrite Hback. apply (Hpgs a h Ha). by apply Hsm.
    + wp_steps. assert (i = count) as -> by lia. destruct Ht as [Hu' Hs'].
      split; [|right; rewrite Ep; by split_and!]. split; rewrite ?Ep; try done.
      intros a h Ha Hm Hf. apply Hnow in Hf as [Hf Hnb].
      destruct (decide (page_of addr count a)) as [(j & Hj & ->)|Hn].
      * apply Hnb. by apply gm_block_pages.
      * apply (Hpgs a h Ha); [|done]. by apply (wg_out _ _ _ _ Hw).
  - split; [lia|done|by split| |intros j d r Hj; lia]. split; [intros; lia|done|done].
Qed.

(** C32. [gntmap_map_grant_refs] over any page allocator and any hypervisor that
    keeps the documented contract: it returns; on success every one of the
    [count] pages of a fresh block is mapped and recorded, the [i]th showing the [i]th
    reference of the domain that goes with it, on failure (no
    memory, no free slot, or a refused mapping part way) every mapping and the
    pages are as before; the table stays truthful.  After success
    [gntmap_munmap] of the same range returns 0 and removes exactly those
    mappings again; the pages stay allocated. *)
Theorem gntmap_all_or_nothing :
  wp (gntmap_map_grant_refs count domids stride refs w) (fun r s' => map_post r s' /\
    (r <> 0 -> wp (gntmap_munmap r count) (fun rc s'' => rc = 0 /\ same_maps s s'' /\ gm_pg s'' = gm_pg s') s')) s.
Proof using Hinv Hcount Hdom Hrefs Hunmapped XL.
  eapply wp_mono; [apply wp_map_grant_refs|]. intros r s' Hp. split; [done|]. intros Hne.
  destruct Hp as [[Hpi Hu' Hs' _] [(-> & _)|(_ & Hr0 & Hr1 & Hw & _ & Hwas & Hnow)]]; [done|].
  destruct Hinv as [Hpa Hu Hs Hpgs]. destruct (pa_region_ok _ Hpa) as [Hlo Hhi].
  pose proof (map2order_room count Hcount) as [Ho _].
  assert (Hfree : forall i, 0 <= i < count -> pa_free (gm_pg s) (page r i)).
  { intros i Hi. by apply Hwas, gm_block_pages. }
  eapply wp_mono; [apply wp_munmap_pages; [by split|lia|lia| |]|].
  - destruct (gm_block_pages count r 0 Hcount ltac:(lia)). lia.
  - intros i Hi. by apply Hw.
  - intros rc s'' [-> Hum]. split; [done|]. split; [|apply Hum].
    apply (rollback_same r count s' s''); [| |done|done].
    + intros a (i & Hi & ->) Ha. specialize (Hfree i Hi). split; [|by apply Hunmapped].
      intros h Hm. by apply (Hpgs _ _ Ha Hm).
    + intros a (i & Hi & ->). unfold page, BMK_PCPU_PAGE_SIZE. lia.
Qed.
End MapRefs.
End GntmapSpec.

(** A hypervisor that maps everything under handle 7. *)
Abbreviation xen7 := (gmap Z (Z * Z * Z)).
#[local] Instance example_xen : XenMap xen7 := {|
  GNTMAP_host_map := 2; GNTMAP_readonly := 4; GNTST_okay := 0;
  map_grant_ref := fun r d a f x => ((0, 0, 7), <[a := (d, r, f)]> x);
  unmap_grant_ref := fun a h x => if decide (is_Some (x !! a) /\ h = 7) then ((0, 0), delete a x) else ((0, -1), x);
  x_mapped := fun x => (fun _ => 7) <$> x; x_page := id |}.
#[local] Instance example_xen_laws : XenMapLaws xen7.
Proof.
  split; cbn; [done| | |].
  - intros r d a f x h x' [= <- <-]. by rewrite fmap_insert.
  - intros r d a f x rc st h x' [= <- <- <- <-] [?|?]; done.
  - intros a h x H. exists (delete a x). rewrite lookup_fmap_Some in H. destruct H as (y & <- & Hy). rewrite decide_True by eauto. by rewrite fmap_delete.
Qed.

Definition gntmap_example : @gntmap pgstate xen7 := Gntmap pg_example ∅ (replicate 8 (GEnt 0 0)) true.
Lemma gntmap_example_inv : gm_inv gntmap_example.
Proof.
  split; cbn [gntmap_example gm_pg gm_x entries].
  - apply pg_example_inv.
  - intros i j e e' [-> _]%lookup_replicate. done.
  - intros a h Ha [i [[= -> ->] _]%lookup_replicate]. done.
  - intros a h Ha [i [[= -> ->] _]%lookup_replicate]. done.
Qed.

Lemma gntmap_all_or_nothing_witness : gm_inv gntmap_example /\
  wp (gntmap_map_grant_refs 3 [5] 0 [20; 21; 22] true) (fun r s' => map_post gntmap_example 3 [5] 0 [20; 21; 22] true r s' /\
    (r <> 0 -> wp (gntmap_munmap r 3) (fun rc s'' => rc = 0 /\ same_maps gntmap_example s'' /\ gm_pg s'' = gm_pg s') s')) gntmap_example.
Proof.
  split; [exact gntmap_example_inv|].
  apply (gntmap_all_or_nothing gntmap_example 3 [5] 0 [20; 21; 22] true gntmap_example_inv).
  - lia.
  - intros i Hi. rewrite Z.mul_0_r. by exists 5.
  - intros i Hi. apply lookup_lt_is_Some_2. cbn. lia.
  - intros a _. cbn. by rewrite fmap_empty, lookup_empty.
Defined.
