(* ===== verification/Events.v ===== *)
(** * Event channels (platform/hw/xen/events.c, platform/hw/xen/hypervisor.c)

    Event bitmaps ([bound_ports], and [evtchn_pending] and [evtchn_mask] of the
    page shared with the hypervisor) are integers whose bit [p] is port [p]; a
    word of a bitmap is 64 of its bits.  A call of a handler is recorded in
    [ev_calls]; what the handlers do is their own.  Hypercalls act on the
    hypervisor's state. *)

From S2P Require Import Prelude.

Definition NR_EVS : Z := 1024.
Definition default_handler : Z := 0.
Definition NULL : Z := 0.

(** EVTCHNOP_*; each returns a code and, where it allocates one, a port. *)
Inductive evop :=
| EVTCHNOP_close (port : Z)
| EVTCHNOP_bind_virq (virq vcpu : Z)
| EVTCHNOP_bind_pirq (pirq : Z) (will_share : bool)
| EVTCHNOP_alloc_unbound (remote_dom : Z)
| EVTCHNOP_bind_interdomain (remote_dom remote_port : Z)
| EVTCHNOP_send (port : Z).

Record ev_action := EvAction { ea_lock : bool; ea_handler : Z; ea_data : Z; ea_count : Z }.

Definition bit_set (p b : Z) : Z := Z.lor b (Z.shiftl 1 p).
Definition bit_clear (p b : Z) : Z := Z.ldiff b (Z.shiftl 1 p).
Definition word (i b : Z) : Z := u64 (Z.shiftr b (64 * i)).

Section Events.
Context {H : Type}.
Variable hv_op : evop -> H -> (Z * Z) * H.

Record evst := Evst {
  ev_actions : list ev_action;
  bound_ports : Z;
  evtchn_pending : Z;
  evtchn_mask : Z;
  evtchn_pending_sel : Z;
  evtchn_upcall_pending : bool;
  evtchn_upcall_mask : bool;
  in_callback : bool;
  ev_calls : list (Z * Z * Z);          (* handler, port, data *)
  ev_hv : H
}.
Definition set_actions v s := Evst v (bound_ports s) (evtchn_pending s) (evtchn_mask s) (evtchn_pending_sel s) (evtchn_upcall_pending s) (evtchn_upcall_mask s) (in_callback s) (ev_calls s) (ev_hv s).
Definition set_bound v s := Evst (ev_actions s) v (evtchn_pending s) (evtchn_mask s) (evtchn_pending_sel s) (evtchn_upcall_pending s) (evtchn_upcall_mask s) (in_callback s) (ev_calls s) (ev_hv s).
Definition set_pending v s := Evst (ev_actions s) (bound_ports s) v (evtchn_mask s) (evtchn_pending_sel s) (evtchn_upcall_pending s) (evtchn_upcall_mask s) (in_callback s) (ev_calls s) (ev_hv s).
Definition set_mask v s := Evst (ev_actions s) (bound_ports s) (evtchn_pending s) v (evtchn_pending_sel s) (evtchn_upcall_pending s) (evtchn_upcall_mask s) (in_callback s) (ev_calls s) (ev_hv s).
Definition set_sel v s := Evst (ev_actions s) (bound_ports s) (evtchn_pending s) (evtchn_mask s) v (evtchn_upcall_pending s) (evtchn_upcall_mask s) (in_callback s) (ev_calls s) (ev_hv s).
Definition set_upcall v s := Evst (ev_actions s) (bound_ports s) (evtchn_pending s) (evtchn_mask s) (evtchn_pending_sel s) v (evtchn_upcall_mask s) (in_callback s) (ev_calls s) (ev_hv s).
Definition set_upmask v s := Evst (ev_actions s) (bound_ports s) (evtchn_pending s) (evtchn_mask s) (evtchn_pending_sel s) (evtchn_upcall_pending s) v (in_callback s) (ev_calls s) (ev_hv s).
Definition set_incb v s := Evst (ev_actions s) (bound_ports s) (evtchn_pending s) (evtchn_mask s) (evtchn_pending_sel s) (evtchn_upcall_pending s) (evtchn_upcall_mask s) v (ev_calls s) (ev_hv s).
Definition add_call c s := Evst (ev_actions s) (bound_ports s) (evtchn_pending s) (evtchn_mask s) (evtchn_pending_sel s) (evtchn_upcall_pending s) (evtchn_upcall_mask s) (in_callback s) (ev_calls s ++ [c]) (ev_hv s).
Definition set_hv v s := Evst (ev_actions s) (bound_ports s) (evtchn_pending s) (evtchn_mask s) (evtchn_pending_sel s) (evtchn_upcall_pending s) (evtchn_upcall_mask s) (in_callback s) (ev_calls s) v.

Definition HYPERVISOR_event_channel_op (op : evop) : M evst (Z * Z) :=
  s <-- mget ;; let '(r, h) := hv_op op (ev_hv s) in modify (set_hv h) ;;; cret r.

Definition minios_mask_evtchn (port : Z) : M evst unit :=
  modify (fun s => set_mask (bit_set port (evtchn_mask s)) s).
Definition minios_clear_evtchn (port : Z) : M evst unit :=
  modify (fun s => set_pending (bit_clear port (evtchn_pending s)) s).

(** [ev_actions[port]], under its spin lock. *)
Definition action_get (port : Z) : M evst ev_action :=
  s <-- mget ;; mopt (ev_actions s !! Z.to_nat port) "ev_actions index".
Definition action_put (port : Z) (a : ev_action) : M evst unit :=
  modify (fun s => set_actions (<[Z.to_nat port := a]> (ev_actions s)) s).
Definition spin_lock (port : Z) : M evst unit :=
  a <-- action_get port ;;
  if ea_lock a then mnofuel else action_put port (EvAction true (ea_handler a) (ea_data a) (ea_count a)).
Definition spin_unlock (port : Z) : M evst unit :=
  a <-- action_get port ;; action_put port (EvAction false (ea_handler a) (ea_data a) (ea_count a)).
Definition set_handler (port handler data : Z) : M evst unit :=
  a <-- action_get port ;; action_put port (EvAction (ea_lock a) handler data (ea_count a)).

(** ** Demultiplexing *)
Definition do_event (port : Z) : M evst Z :=
  minios_clear_evtchn port ;;;
  if NR_EVS <=? port then cret 1 else
  spin_lock port ;;;
  a <-- action_get port ;;
  action_put port (EvAction (ea_lock a) (ea_handler a) (ea_data a) (u32 (ea_count a + 1))) ;;;
  modify (add_call (ea_handler a, port, ea_data a)) ;;;
  spin_unlock port ;;;
  cret 1.

Definition active_evtchns (s : evst) (i : Z) : Z :=
  Z.land (word i (evtchn_pending s)) (u64 (Z.lnot (word i (evtchn_mask s)))).

(** The inner loop of the callback: every active port of word [l1i]. *)
Definition drain_word (l1i : Z) : M evst unit :=
  loopM (fun (_ : unit) =>
    s <-- mget ;;
    let l2 := active_evtchns s l1i in
    if l2 =? 0 then cret (inr tt) else
    let l2i := ctz l2 in
    let port := u32 (l1i * (8 * 8) + l2i) in
    do_event port ;;; cret (inl tt)) tt.

Definition do_hypervisor_callback : M evst unit :=
  modify (set_incb true) ;;;
  modify (set_upcall false) ;;;
  l1 <-- gets evtchn_pending_sel ;;
  modify (set_sel 0) ;;;
  loopM (fun l1 =>
    if l1 =? 0 then cret (inr tt) else
    let l1i := ctz l1 in
    let l1 := Z.land l1 (u64 (Z.lnot (Z.shiftl 1 l1i))) in
    drain_word l1i ;;;
    cret (inl l1)) l1 ;;;
  modify (set_incb false).

Definition minios_force_evtchn_callback : M evst unit :=
  save <-- gets evtchn_upcall_mask ;;
  loopM (fun (_ : unit) =>
    s <-- mget ;;
    if evtchn_upcall_pending s then
      modify (set_upmask true) ;;;
      do_hypervisor_callback ;;;
      modify (set_upmask save) ;;;
      cret (inl tt)
    else cret (inr tt)) tt.

Definition minios_unmask_evtchn (port : Z) : M evst unit :=
  modify (fun s => set_mask (bit_clear port (evtchn_mask s)) s) ;;;
  s <-- mget ;;
  if Z.testbit (evtchn_pending s) port then
    let sel := evtchn_pending_sel s in
    modify (set_sel (bit_set (port / (8 * 8)) sel)) ;;;
    if Z.testbit sel (port / (8 * 8)) then cret tt else
    modify (set_upcall true) ;;;
    if evtchn_upcall_mask s then cret tt else minios_force_evtchn_callback
  else cret tt.

(** ** Binding *)
Definition minios_bind_evtchn (port handler data : Z) : M evst Z :=
  spin_lock port ;;;
  set_handler port handler data ;;;
  spin_unlock port ;;;
  modify (fun s => set_bound (bit_set port (bound_ports s)) s) ;;;
  cret port.

Definition minios_unbind_evtchn (port : Z) : M evst unit :=
  spin_lock port ;;;
  minios_mask_evtchn port ;;;
  minios_clear_evtchn port ;;;
  set_handler port default_handler NULL ;;;
  spin_unlock port ;;;
  modify (fun s => set_bound (bit_clear port (bound_ports s)) s) ;;;
  HYPERVISOR_event_channel_op (EVTCHNOP_close port) ;;;
  cret tt.

(** One port of [unbind_all_ports]. *)
Definition unbind_if_bound (i : Z) : M evst unit :=
  s <-- mget ;;
  modify (set_bound (bit_clear i (bound_ports s))) ;;;
  if Z.testbit (bound_ports s) i then
    minios_mask_evtchn i ;;;
    spin_lock i ;;;
    set_handler i default_handler NULL ;;;
    spin_unlock i ;;;
    HYPERVISOR_event_channel_op (EVTCHNOP_close i) ;;;
    minios_clear_evtchn i
  else cret tt.
Definition unbind_all_ports : M evst unit :=
  mfor unbind_if_bound (seqZ 0 NR_EVS) ;;;
  modify (set_upcall false) ;;;
  modify (set_sel 0).
Definition fini_events : M evst unit := unbind_all_ports.

Definition minios_bind_virq (cpu virq handler data : Z) : M evst Z :=
  '(rc, port) <-- HYPERVISOR_event_channel_op (EVTCHNOP_bind_virq virq cpu) ;;
  if negb (rc =? 0) then cret (u32 (-1)) else
  minios_bind_evtchn port handler data ;;; cret port.
Definition minios_bind_pirq (pirq : Z) (will_share : bool) (handler data : Z) : M evst Z :=
  '(rc, port) <-- HYPERVISOR_event_channel_op (EVTCHNOP_bind_pirq pirq will_share) ;;
  if negb (rc =? 0) then cret (u32 (-1)) else
  minios_bind_evtchn port handler data ;;; cret port.

(** The code and, on success, the port stored through the pointer. *)
Definition minios_evtchn_alloc_unbound (pal handler data : Z) : M evst (Z * option Z) :=
  '(rc, port) <-- HYPERVISOR_event_channel_op (EVTCHNOP_alloc_unbound pal) ;;
  if negb (rc =? 0) then cret (rc, None) else
  p <-- minios_bind_evtchn port handler data ;; cret (rc, Some p).
Definition minios_evtchn_bind_interdomain (pal remote_port handler data : Z) : M evst (Z * option Z) :=
  '(rc, port) <-- HYPERVISOR_event_channel_op (EVTCHNOP_bind_interdomain pal remote_port) ;;
  if negb (rc =? 0) then cret (rc, None) else
  p <-- minios_bind_evtchn port handler data ;; cret (rc, Some p).
Definition minios_notify_remote_via_evtchn (port : Z) : M evst Z :=
  '(rc, _) <-- HYPERVISOR_event_channel_op (EVTCHNOP_send port) ;; cret rc.

Definition init_events : M evst unit :=
  mfor (fun i =>
    a <-- action_get i ;;
    action_put i (EvAction false default_handler (ea_data a) (ea_count a)) ;;;
    minios_mask_evtchn i) (seqZ 0 NR_EVS).
End Events.

(** * Pending events reach their handlers, once *)


(** Linear arithmetic with quotients and remainders. *)
Ltac dlia := Z.to_euclidean_division_equations; lia.

(** ** The set bits of a word, lowest first *)
Definition bits (x : Z) : list Z := filter (fun i => Z.testbit x i = true) (seqZ 0 64).

Lemma elem_of_bits x i : i ∈ bits x <-> 0 <= i < 64 /\ Z.testbit x i = true.
Proof. unfold bits. rewrite list_elem_of_filter, elem_of_seqZ. intuition lia. Qed.
Lemma bits_nodup x : NoDup (bits x).
Proof. apply NoDup_filter, NoDup_seqZ. Qed.
Lemma bits_0 : bits 0 = [].
Proof. reflexivity. Qed.

Lemma testbit_ctz x : 0 < x -> Z.testbit x (ctz x) = true /\ forall j, j < ctz x -> Z.testbit x j = false.
Proof.
  intros Hx. destruct (ctz_spec x Hx) as [Hc [q Hq]]. rewrite Z.mul_comm in Hq. split.
  - rewrite Hq at 1. replace (Z.testbit _ (ctz x)) with (Z.testbit ((2 * q + 1) * 2 ^ ctz x) (ctz x + 0)) by (f_equal; lia). rewrite Z.mul_pow2_bits_add by lia.
    by rewrite Z.bit0_odd, Z.add_comm, Z.odd_add_mul_2.
  - intros j Hj. rewrite Hq. by apply Z.mul_pow2_bits_low.
Qed.
Lemma ctz_lt x : 0 < x < 2 ^ 64 -> 0 <= ctz x < 64.
Proof.
  intros Hx. destruct (ctz_spec x ltac:(lia)) as [Hc _]. split; [done|].
  destruct (Z.lt_ge_cases (ctz x) 64); [done|]. destruct (testbit_ctz x ltac:(lia)) as [Hb _].
  by rewrite (high_bits_zero 64) in Hb by lia.
Qed.

Lemma testbit_clear p b j : 0 <= p -> 0 <= j -> Z.testbit (bit_clear p b) j = Z.testbit b j && negb (j =? p).
Proof.
  intros. unfold bit_clear. rewrite Z.shiftl_1_l, Z.ldiff_spec, Z.pow2_bits_eqb by lia. by rewrite Z.eqb_sym.
Qed.
Lemma testbit_set p b j : 0 <= p -> 0 <= j -> Z.testbit (bit_set p b) j = Z.testbit b j || (j =? p).
Proof. intros. unfold bit_set. rewrite Z.shiftl_1_l, Z.lor_spec, Z.pow2_bits_eqb by lia. by rewrite Z.eqb_sym. Qed.

Lemma filter_agree x y (l : list Z) : (forall j, j ∈ l -> Z.testbit x j = Z.testbit y j) ->
  filter (fun i => Z.testbit x i = true) l = filter (fun i => Z.testbit y i = true) l.
Proof.
  induction l as [|a l IH]; intros Hl; [done|]. rewrite !filter_cons, IH by (intros; apply Hl; by right).
  specialize (Hl a ltac:(by left)). destruct (decide _) as [E|E], (decide _) as [E'|E']; congruence.
Qed.
Lemma filter_none (l : list Z) : filter (fun i => Z.testbit 0 i = true) l = [].
Proof. induction l as [|a l IH]; [done|]. rewrite filter_cons, IH. by rewrite decide_False by (by rewrite Z.bits_0). Qed.

(** Clearing the lowest bit takes the head off the list. *)
Lemma bits_cons x y : 0 < x < 2 ^ 64 -> (forall j, 0 <= j < 64 -> Z.testbit y j = Z.testbit x j && negb (j =? ctz x)) ->
  bits x = ctz x :: bits y.
Proof.
  intros Hx Hy. pose proof (ctz_lt x Hx) as Hc. destruct (testbit_ctz x ltac:(lia)) as [Hb Hl]. unfold bits.
  assert (E : seqZ 0 64 = seqZ 0 (ctz x) ++ ctz x :: seqZ (ctz x + 1) (63 - ctz x)).
  { replace 64 with (ctz x + (64 - ctz x)) at 1 by lia. rewrite seqZ_app by lia. f_equal.
    rewrite seqZ_cons by lia. cbn. rewrite Z.add_0_l. do 2 f_equal; lia. }
  rewrite E, !filter_app, !filter_cons. rewrite (decide_True _ _ Hb).
  assert (Hy0 : Z.testbit y (ctz x) <> true) by (rewrite Hy, Z.eqb_refl, andb_false_r by lia; done).
  rewrite (decide_False _ _ Hy0).
  assert (Hnil : forall z, (forall j, 0 <= j < ctz x -> Z.testbit z j = false) ->
    filter (fun i => Z.testbit z i = true) (seqZ 0 (ctz x)) = []).
  { intros z Hz. rewrite <- (filter_none (seqZ 0 (ctz x))). apply filter_agree. intros j Hj%elem_of_seqZ. by rewrite Hz, Z.bits_0 by lia. }
  rewrite !Hnil; [|intros j Hj; rewrite Hy, Hl by lia; done|intros j Hj; apply Hl; lia].
  cbn. f_equal. apply filter_agree. intros j Hj%elem_of_seqZ.
  rewrite Hy by lia. destruct (Z.eqb_spec j (ctz x)); [lia|]. by rewrite andb_true_r.
Qed.

Lemma word_bit i b j : 0 <= i -> 0 <= j < 64 -> Z.testbit (word i b) j = Z.testbit b (64 * i + j).
Proof.
  intros Hi Hj. unfold word, u64. rewrite testbit_mod_pow2 by lia. destruct (Z.ltb_spec j 64); [|lia].
  cbn. rewrite Z.shiftr_spec by lia. f_equal. lia.
Qed.

Section EventsSpec.
Context {H : Type}.
Variable hv_op : evop -> H -> (Z * Z) * H.
Abbreviation st := (@evst H).

Record ev_ok (s : st) : Prop := {
  eo_len : Z.of_nat (length (ev_actions s)) = NR_EVS;
  eo_free : Forall (fun a => ea_lock a = false) (ev_actions s);
  eo_sel : 0 <= evtchn_pending_sel s < 2 ^ 64
}.
(** The calls an event on port [p] makes. *)
Definition call_of (s : st) (p : Z) : list (Z * Z * Z) :=
  if p <? NR_EVS then
    match ev_actions s !! Z.to_nat p with Some a => [(ea_handler a, p, ea_data a)] | None => [] end
  else [].
(** Nothing else moves. *)
Record quiet (s s' : st) : Prop := {
  qu_ok : ev_ok s';
  qu_mask : evtchn_mask s' = evtchn_mask s;
  qu_upmask : evtchn_upcall_mask s' = evtchn_upcall_mask s;
  qu_bound : bound_ports s' = bound_ports s;
  qu_hv : ev_hv s' = ev_hv s;
  qu_calls : forall p, 0 <= p -> call_of s' p = call_of s p
}.

Lemma active_bit (s : st) i j : 0 <= i -> 0 <= j < 64 -> Z.testbit (active_evtchns s i) j =
  Z.testbit (evtchn_pending s) (64 * i + j) && negb (Z.testbit (evtchn_mask s) (64 * i + j)).
Proof.
  intros Hi Hj. unfold active_evtchns, u64. rewrite Z.land_spec, word_bit, testbit_mod_pow2 by lia.
  destruct (Z.ltb_spec j 64); [|lia]. cbn. by rewrite Z.lnot_spec, word_bit by lia.
Qed.
Lemma active_range (s : st) i : 0 <= active_evtchns s i < 2 ^ 64.
Proof.
  unfold active_evtchns. split; [apply Z.land_nonneg; left; apply Z.mod_pos_bound; lia|].
  apply (below_pow2 64 ltac:(lia)).
  - intros j Hj. rewrite Z.land_spec. unfold word, u64. rewrite testbit_mod_pow2 by lia.
    destruct (Z.ltb_spec j 64); [lia|done].
  - apply Z.land_nonneg. left. apply Z.mod_pos_bound. lia.
Qed.

Lemma clear_nonneg_bits (s s' : st) i c : 0 <= i -> 0 <= c < 64 -> evtchn_mask s' = evtchn_mask s ->
  evtchn_pending s' = bit_clear (64 * i + c) (evtchn_pending s) ->
  forall j, 0 <= j < 64 -> Z.testbit (active_evtchns s' i) j = Z.testbit (active_evtchns s i) j && negb (j =? c).
Proof.
  intros Hi Hc Em Ep j Hj. rewrite !active_bit, Em, Ep, testbit_clear by lia.
  replace (64 * i + j =? 64 * i + c) with (j =? c) by (destruct (Z.eqb_spec j c), (Z.eqb_spec (64 * i + j) (64 * i + c)); lia).
  destruct (Z.testbit (evtchn_pending s) _), (Z.testbit (evtchn_mask s) _), (j =? c); done.
Qed.
Lemma clear_bit_lt x y c : 0 < x < 2 ^ 64 -> 0 <= y < 2 ^ 64 -> c = ctz x ->
  (forall j, 0 <= j < 64 -> Z.testbit y j = Z.testbit x j && negb (j =? c)) -> y < x.
Proof.
  intros Hx Hy -> Hb. pose proof (ctz_lt x Hx) as Hc. destruct (testbit_ctz x ltac:(lia)) as [Ht _].
  assert (x = Z.lxor y (2 ^ ctz x)) as E.
  { apply Z.bits_inj'. intros j Hj. rewrite Z.lxor_spec, Z.pow2_bits_eqb by lia.
    destruct (Z.lt_ge_cases j 64).
    - rewrite Hb by lia. rewrite (Z.eqb_sym (ctz x) j). destruct (Z.eqb_spec j (ctz x)) as [->|]; [by rewrite Ht|].
      by rewrite andb_true_r, xorb_false_r.
    - rewrite !(high_bits_zero 64) by lia. by destruct (Z.eqb_spec (ctz x) j); [lia|]. }
  assert (Hd : Z.land y (2 ^ ctz x) = 0).
  { rewrite land_pow2_testbit by lia. by rewrite Hb, Z.eqb_refl, andb_false_r by lia. }
  rewrite <- Z.add_nocarry_lxor in E by done. lia.
Qed.

Lemma wp_do_event (s : st) p : ev_ok s -> 0 <= p ->
  wp (do_event p) (fun _ s' => quiet s s' /\ evtchn_pending s' = bit_clear p (evtchn_pending s) /\
    evtchn_pending_sel s' = evtchn_pending_sel s /\ evtchn_upcall_pending s' = evtchn_upcall_pending s /\
    ev_calls s' = ev_calls s ++ call_of s p) s.
Proof.
  intros [Hl Hf Hs] Hp. unfold do_event, minios_clear_evtchn, call_of. wp_steps.
  destruct (Z.leb_spec NR_EVS p), (Z.ltb_spec p NR_EVS); try lia; wp_steps.
  { rewrite app_nil_r. split_and!; done. }
  destruct (lookup_lt_is_Some_2 (ev_actions s) (Z.to_nat p) ltac:(lia)) as [a Ha]. rewrite Ha.
  assert (Hlk : ea_lock a = false) by (rewrite Forall_lookup in Hf; eauto).
  assert (Hlen : (Z.to_nat p < length (ev_actions s))%nat) by lia.
  unfold spin_lock, spin_unlock, action_get, action_put. wp_steps. eapply wp_opt; [exact Ha|]. rewrite Hlk. wp_steps.
  eapply wp_opt; [by apply list_lookup_insert_eq|]. wp_steps.
  eapply wp_opt. { cbn. apply list_lookup_insert_eq. by rewrite length_insert. } wp_steps.
  cbn. rewrite !list_insert_insert_eq. split_and!; try done. split; cbn; try done.
  - split; cbn; [by rewrite length_insert|by apply Forall_insert|done].
  - intros q Hq. unfold call_of. cbn. destruct (q <? NR_EVS); [|done].
    destruct (decide (q = p)) as [->|]; [by rewrite list_lookup_insert_eq, Ha|].
    by rewrite list_lookup_insert_ne by lia.
Qed.

(** ** Draining a word, and the selected words *)
Definition word_calls (s : st) (i : Z) : list Z -> list (Z * Z * Z) := flat_map (fun j => call_of s (64 * i + j)).
Definition drained (s : st) (i : Z) (s' : st) : Prop :=
  quiet s s' /\ evtchn_pending_sel s' = evtchn_pending_sel s /\ evtchn_upcall_pending s' = evtchn_upcall_pending s /\
  (forall p, 0 <= p -> Z.testbit (evtchn_pending s') p =
     Z.testbit (evtchn_pending s) p && negb ((p / 64 =? i) && negb (Z.testbit (evtchn_mask s) p))) /\
  ev_calls s' = ev_calls s ++ word_calls s i (bits (active_evtchns s i)).

Lemma quiet_trans s1 s2 s3 : quiet s1 s2 -> quiet s2 s3 -> quiet s1 s3.
Proof. intros [] []; split; try congruence. intros p Hp. rewrite qu_calls1 by done. by apply qu_calls0. Qed.

Record draining (s : st) (i : Z) (q : st) : Prop := {
  dg_quiet : quiet s q;
  dg_sel : evtchn_pending_sel q = evtchn_pending_sel s;
  dg_up : evtchn_upcall_pending q = evtchn_upcall_pending s;
  dg_other : forall p, 0 <= p -> p / 64 <> i \/ Z.testbit (evtchn_mask s) p = true ->
    Z.testbit (evtchn_pending q) p = Z.testbit (evtchn_pending s) p;
  dg_calls : ev_calls q ++ word_calls s i (bits (active_evtchns q i)) = ev_calls s ++ word_calls s i (bits (active_evtchns s i))
}.

Lemma wp_drain_word (s : st) i : ev_ok s -> 0 <= i < 64 -> wp (drain_word i) (fun _ => drained s i) s.
Proof.
  intros Hok Hi. unfold drain_word.
  eapply (wp_loop _ (fun _ => draining s i) (fun _ q => active_evtchns q i)); [| |apply active_range].
  - intros [] q [Hq Hsel Hup Hoth Hcalls]. pose proof (active_range q i) as Hr. split; [lia|]. wp_steps.
    destruct (Z.eqb_spec (active_evtchns q i) 0) as [E|E]; wp_steps.
    + split_and!; try done.
      * intros p Hp. destruct (Z.eqb_spec (p / 64) i) as [Ei|Ei]; [|rewrite andb_true_r; auto].
        destruct (Z.testbit (evtchn_mask s) p) eqn:Em; cbn; [rewrite andb_true_r; auto|]. rewrite andb_false_r.
        pose proof (active_bit q i (p mod 64) ltac:(lia) ltac:(dlia)) as Hb. rewrite E, Z.bits_0 in Hb.
        rewrite (qu_mask _ _ Hq) in Hb. replace (64 * i + p mod 64) with p in Hb by dlia.
        rewrite Em, andb_true_r in Hb. by symmetry.
      * rewrite <- Hcalls, E. cbn. by rewrite app_nil_r.
    + assert (Hx : 0 < active_evtchns q i < 2 ^ 64) by lia. pose proof (ctz_lt _ Hx) as Hc.
      set (c := ctz (active_evtchns q i)) in *. unfold u32. rewrite Z.mod_small by lia. replace (i * (8 * 8) + c) with (64 * i + c) by lia.
      eapply wp_mono; [apply wp_do_event; [apply Hq|lia]|]. intros r q' (Hq' & Ep & Esel & Eup & Ec). wp_steps.
      pose proof (clear_nonneg_bits q q' i c ltac:(lia) Hc (qu_mask _ _ Hq') Ep) as Hbits.
      pose proof (active_range q' i) as Hr'.
      split; [|split; [apply Hr'|by apply (clear_bit_lt _ _ c)]].
      split; [by eapply quiet_trans|congruence|congruence| |].
      * intros p Hp Hside. rewrite Ep, testbit_clear by lia. rewrite Hoth by done.
        destruct (Z.eqb_spec p (64 * i + c)) as [->|]; [|by rewrite andb_true_r].
        exfalso. destruct Hside as [Hs|Hs]; [apply Hs; rewrite Z.mul_comm, Z.div_add_l, Z.div_small by lia; lia|].
        destruct (testbit_ctz (active_evtchns q i) ltac:(lia)) as [Ht _]. fold c in Ht.
        by rewrite active_bit, (qu_mask _ _ Hq), Hs, andb_false_r in Ht by lia.
      * rewrite <- Hcalls, (bits_cons (active_evtchns q i) (active_evtchns q' i) Hx Hbits). fold c. cbn [word_calls flat_map].
        rewrite Ec, (qu_calls _ _ Hq) by lia. by rewrite <- app_assoc.
  - by split.
Qed.

(** What the callback delivers: the active ports of the selected words. *)
Definition delivered (s : st) : list Z :=
  bits (evtchn_pending_sel s) ≫= fun i => (fun j => 64 * i + j) <$> bits (active_evtchns s i).

Lemma elem_of_delivered s p : p ∈ delivered s <-> 0 <= p < 4096 /\ Z.testbit (evtchn_pending_sel s) (p / 64) = true /\
  Z.testbit (evtchn_pending s) p = true /\ Z.testbit (evtchn_mask s) p = false.
Proof.
  unfold delivered. rewrite list_elem_of_bind. split.
  - intros (i & Hp & [Hi Hs]%elem_of_bits). apply list_elem_of_fmap in Hp as (j & -> & [Hj Ha]%elem_of_bits).
    rewrite active_bit in Ha by lia. apply andb_prop in Ha as [H1 H2%negb_true_iff].
    replace ((64 * i + j) / 64) with i by (rewrite Z.mul_comm, Z.div_add_l, Z.div_small by lia; lia). split_and!; try done; lia.
  - intros (Hp & Hs & H1 & H2). exists (p / 64). split; [|apply elem_of_bits; split; [dlia|done]].
    apply list_elem_of_fmap. exists (p mod 64). split; [dlia|]. apply elem_of_bits. split; [dlia|].
    rewrite active_bit by dlia. replace (64 * (p / 64) + p mod 64) with p by dlia. by rewrite H1, H2.
Qed.
Lemma delivered_nodup s : NoDup (delivered s).
Proof.
  unfold delivered. apply NoDup_bind; [| |apply bits_nodup].
  - intros i i' p [Hi _]%elem_of_bits [Hi' _]%elem_of_bits (j & -> & [Hj _]%elem_of_bits)%list_elem_of_fmap (j' & E & [Hj' _]%elem_of_bits)%list_elem_of_fmap. lia.
  - intros i _. apply NoDup_fmap_2; [intros ???; lia|apply bits_nodup].
Qed.

Definition all_calls (s : st) : list Z -> list (Z * Z * Z) := flat_map (fun i => word_calls s i (bits (active_evtchns s i))).
Lemma all_calls_delivered s : all_calls s (bits (evtchn_pending_sel s)) = flat_map (call_of s) (delivered s).
Proof.
  unfold all_calls, delivered. induction (bits (evtchn_pending_sel s)) as [|i l IH]; [done|]. cbn. rewrite flat_map_app, IH. f_equal.
  unfold word_calls. induction (bits (active_evtchns s i)) as [|j m IHm]; [done|]. cbn. by rewrite IHm.
Qed.
Lemma word_calls_quiet s q i l : quiet s q -> 0 <= i -> Forall (fun j => 0 <= j) l -> word_calls q i l = word_calls s i l.
Proof.
  intros Hq Hi. induction 1 as [|j l Hj _ IH]; [done|]. cbn. rewrite (qu_calls _ _ Hq) by lia. f_equal. exact IH.
Qed.
Lemma bits_nonneg x : Forall (fun j => 0 <= j) (bits x).
Proof. apply Forall_forall. intros j [? _]%elem_of_bits. lia. Qed.

Lemma active_same (s q : st) i : 0 <= i -> evtchn_mask q = evtchn_mask s ->
  (forall p, 0 <= p -> p / 64 = i -> Z.testbit (evtchn_pending q) p = Z.testbit (evtchn_pending s) p) ->
  active_evtchns q i = active_evtchns s i.
Proof.
  intros Hi Em Hp. apply Z.bits_inj'. intros j Hj. destruct (Z.lt_ge_cases j 64).
  - rewrite !active_bit, Em by lia. f_equal. apply Hp; [lia|]. dlia.
  - by rewrite !(high_bits_zero 64) by (try apply active_range; lia).
Qed.

Record scanning (s : st) (l1 l : Z) (q : st) : Prop := {
  sc_l : 0 <= l < 2 ^ 64;
  sc_sub : forall i, 0 <= i < 64 -> Z.testbit l i = true -> Z.testbit l1 i = true;
  sc_quiet : quiet s q;
  sc_sel : evtchn_pending_sel q = evtchn_pending_sel s;
  sc_up : evtchn_upcall_pending q = evtchn_upcall_pending s;
  sc_pend : forall p, 0 <= p < 4096 -> Z.testbit (evtchn_pending q) p = Z.testbit (evtchn_pending s) p &&
    negb (Z.testbit l1 (p / 64) && negb (Z.testbit l (p / 64)) && negb (Z.testbit (evtchn_mask s) p));
  sc_calls : ev_calls q ++ all_calls s (bits l) = ev_calls s ++ all_calls s (bits l1)
}.

(** One selected word. *)
Lemma scanning_step s l1 l l' q q' : scanning s l1 l q -> l <> 0 -> 0 <= l' < 2 ^ 64 ->
  (forall j, 0 <= j < 64 -> Z.testbit l' j = Z.testbit l j && negb (j =? ctz l)) ->
  drained q (ctz l) q' -> scanning s l1 l' q'.
Proof.
  intros [Hl Hsub Hq Hsel Hup Hpend Hcalls] Hnz Hl' Hbits (Hq' & Esel & Eup & Ep & Ec).
  assert (Hx : 0 < l < 2 ^ 64) by lia. pose proof (ctz_lt l Hx) as Hc. destruct (testbit_ctz l ltac:(lia)) as [Ht _].
  set (c := ctz l) in *.
  assert (Eact : active_evtchns q c = active_evtchns s c).
  { apply active_same; [lia|apply Hq|]. intros p Hp Hpc. rewrite Hpend, Hpc, Ht by dlia.
    by rewrite andb_false_r, andb_true_r. }
  split; [done| |by eapply quiet_trans|congruence|congruence| |].
  - intros i Hi. rewrite Hbits by done. intros [? _]%andb_prop. by apply Hsub.
  - intros p Hp. rewrite Ep, Hpend, (qu_mask _ _ Hq), Hbits by (try lia; dlia).
    destruct (Z.eqb_spec (p / 64) c) as [E|E]; cbn [negb andb].
    + rewrite !E, Ht, (Hsub c) by done. cbn. by rewrite !andb_true_r.
    + by rewrite !andb_true_r.
  - rewrite <- Hcalls, Ec, Eact, (bits_cons l l' Hx Hbits). fold c. cbn [all_calls flat_map].
    rewrite (word_calls_quiet s q) by (try done; try lia; apply bits_nonneg). by rewrite <- app_assoc.
Qed.

Lemma wp_scan (s : st) l1 : ev_ok s -> 0 <= l1 < 2 ^ 64 ->
  wp (loopM (fun l1 =>
    if l1 =? 0 then cret (inr tt) else
    let l1i := ctz l1 in
    let l1 := Z.land l1 (u64 (Z.lnot (Z.shiftl 1 l1i))) in
    drain_word l1i ;;; cret (inl l1)) l1) (fun _ q => scanning s l1 0 q) s.
Proof.
  intros Hok Hl. eapply (wp_loop _ (scanning s l1) (fun l _ => l)); [| |lia].
  - intros l q Hsc. pose proof (sc_l _ _ _ _ Hsc) as Hlr. split; [lia|]. destruct (Z.eqb_spec l 0) as [->|Hnz]; wp_steps; [done|].
    assert (Hx : 0 < l < 2 ^ 64) by lia. pose proof (ctz_lt l Hx) as Hc.
    set (l' := Z.land l (u64 (Z.lnot (Z.shiftl 1 (ctz l))))).
    assert (Hbits : forall j, 0 <= j < 64 -> Z.testbit l' j = Z.testbit l j && negb (j =? ctz l)).
    { intros j Hj. unfold l', u64. rewrite Z.shiftl_1_l, Z.land_spec, testbit_mod_pow2 by lia.
      destruct (Z.ltb_spec j 64); [|lia]. cbn [andb]. rewrite Z.lnot_spec, Z.pow2_bits_eqb by lia. by rewrite Z.eqb_sym. }
    assert (Hl' : 0 <= l' < 2 ^ 64).
    { apply (below_pow2 64 ltac:(lia)); [|apply Z.land_nonneg; left; lia].
      intros j Hj. unfold l'. rewrite Z.land_spec, (high_bits_zero 64) by lia. done. }
    cbv zeta. fold l'. wp_steps. eapply wp_mono; [apply wp_drain_word; [apply Hsc|lia]|]. intros [] q' Hd. wp_steps.
    split; [by eapply scanning_step|]. split; [lia|]. by apply (clear_bit_lt l l' (ctz l)).
  - split; try done. intros p Hp. by destruct (Z.testbit l1 (p / 64)); rewrite ?andb_true_r.
Qed.

(** What one callback does. *)
Record callback_post (s s' : st) : Prop := {
  cp_quiet : quiet s s';
  cp_sel : evtchn_pending_sel s' = 0;
  cp_up : evtchn_upcall_pending s' = false;
  cp_pend : forall p, 0 <= p < 4096 -> Z.testbit (evtchn_pending s') p =
    Z.testbit (evtchn_pending s) p && negb (bool_decide (p ∈ delivered s));
  cp_calls : ev_calls s' = ev_calls s ++ flat_map (call_of s) (delivered s)
}.

Lemma wp_callback (s : st) : ev_ok s -> wp do_hypervisor_callback (fun _ => callback_post s) s.
Proof.
  intros Hok. pose proof Hok as [Hlen Hfree Hsel]. unfold do_hypervisor_callback. wp_steps.
  eapply wp_mono; [apply wp_scan; [by split|done]|].
  intros [] q [_ _ [[Hlen' Hfree' _] Em Eum Eb Eh Ecall] Esel Eup Hp Hc]. wp_steps. cbn in *.
  split; cbn.
  - split; cbn; try done. split; cbn; [done|done|rewrite Esel; lia].
  - done.
  - done.
  - intros p Hr. rewrite Hp by done. rewrite Z.bits_0. cbn. rewrite andb_true_r.
    destruct (Z.testbit (evtchn_pending s) p) eqn:E; [|done]. cbn. f_equal. symmetry.
    destruct (bool_decide_reflect (p ∈ delivered s)) as [Hin|Hin]; rewrite elem_of_delivered in Hin.
    + destruct Hin as (_ & -> & _ & ->). done.
    + symmetry. apply not_true_iff_false. intros [E1 E2%negb_true_iff]%andb_prop. by apply Hin.
  - rewrite app_nil_r in Hc. rewrite Hc. f_equal. exact (all_calls_delivered s).
Qed.

(** C37. The hypervisor callback, from any state of the shared page: it returns;
    exactly the ports that are pending, unmasked and in a selected word have
    their pending bit cleared and their handler called, each once and with the
    port and the data it was bound with; every other event stays pending. *)
Theorem events_delivered s : ev_ok s ->
  wp do_hypervisor_callback (fun _ s' => callback_post s s' /\ NoDup (delivered s) /\
    forall p, p ∈ delivered s <-> 0 <= p < 4096 /\ Z.testbit (evtchn_pending_sel s) (p / 64) = true /\
      Z.testbit (evtchn_pending s) p = true /\ Z.testbit (evtchn_mask s) p = false) s.
Proof.
  intros Hok. eapply wp_mono; [by apply wp_callback|]. intros [] s' Hp.
  split; [done|]. split; [apply delivered_nodup|apply elem_of_delivered].
Qed.

Lemma wp_force (s : st) : ev_ok s -> evtchn_upcall_pending s = true ->
  wp minios_force_evtchn_callback (fun _ s' => callback_post (set_upmask true s) (set_upmask true s') /\
    evtchn_upcall_mask s' = evtchn_upcall_mask s) s.
Proof.
  intros Hok Hup. unfold minios_force_evtchn_callback. wp_steps.
  eapply (wp_loop _ (fun _ q => q = s \/ (evtchn_upcall_pending q = false /\
      callback_post (set_upmask true s) (set_upmask true q) /\ evtchn_upcall_mask q = evtchn_upcall_mask s))
    (fun _ q => if evtchn_upcall_pending q then 1 else 0)); [| |by rewrite Hup].
  - intros [] q Hq. split; [by destruct (evtchn_upcall_pending q)|]. wp_steps.
    destruct (evtchn_upcall_pending q) eqn:Eq; wp_steps.
    + destruct Hq as [->|[? _]]; [|done]. eapply wp_mono; [apply wp_callback; by destruct Hok|].
      intros [] q' Hc. wp_steps. pose proof (qu_upmask _ _ (cp_quiet _ _ Hc)) as Hum. pose proof (cp_up _ _ Hc) as Hu.
      cbn [set_upmask evtchn_upcall_pending]. rewrite Hu. split; [|lia]. right. split; [done|]. split; [|done].
      destruct q'; cbn in *. by subst.
    + destruct Hq as [->|(_ & ? & ?)]; [by rewrite Hup in Eq|done].
  - by left.
Qed.

(** Unmasking a port loses no event: if one is pending on it, then either the
    port's handler runs before [minios_unmask_evtchn] returns and the event is
    consumed, or upcalls are off or its word was already selected, and then the
    event stays pending in a selected word with an upcall outstanding, so that
    the next callback delivers it. *)
Theorem unmask_no_lost_event s p a : ev_ok s -> 0 <= p < NR_EVS -> ev_actions s !! Z.to_nat p = Some a ->
  Z.testbit (evtchn_pending s) p = true ->
  wp (minios_unmask_evtchn p) (fun _ s' =>
    Z.testbit (evtchn_mask s') p = false /\
    if evtchn_upcall_mask s || Z.testbit (evtchn_pending_sel s) (p / 64) then
      Z.testbit (evtchn_pending s') p = true /\ Z.testbit (evtchn_pending_sel s') (p / 64) = true /\
      (evtchn_upcall_pending s' = true \/ Z.testbit (evtchn_pending_sel s) (p / 64) = true) /\
      p ∈ delivered s'
    else Z.testbit (evtchn_pending s') p = false /\ (ea_handler a, p, ea_data a) ∈ ev_calls s') s.
Proof.
  intros Hok Hp Ha Hpend. pose proof Hok as [Hlen Hfree Hsel]. unfold minios_unmask_evtchn. wp_steps. cbn.
  rewrite Hpend. unfold NR_EVS in Hp. assert (Hdiv : 0 <= p / 64 < 64) by dlia.
  set (s1 := set_mask (bit_clear p (evtchn_mask s)) s).
  assert (Em : Z.testbit (bit_clear p (evtchn_mask s)) p = false) by (rewrite testbit_clear, Z.eqb_refl, andb_false_r by lia; done).
  assert (Es : Z.testbit (bit_set (p / 64) (evtchn_pending_sel s)) (p / 64) = true) by (rewrite testbit_set, Z.eqb_refl, orb_true_r by lia; done).
  wp_steps. change (p / (8 * 8)) with (p / 64) in *.
  destruct (Z.testbit (evtchn_pending_sel s) (p / 64)) eqn:Esel; wp_steps.
  { rewrite orb_true_r. cbn. split_and!; try done; [by right|]. apply elem_of_delivered. cbn. split_and!; try done; lia. }
  rewrite orb_false_r. destruct (evtchn_upcall_mask s) eqn:Eum; wp_steps.
  { cbn. split_and!; try done; [by left|]. apply elem_of_delivered. cbn. split_and!; try done; lia. }
  set (s2 := set_upcall true (set_sel (bit_set (p / 64) (evtchn_pending_sel s)) s1)).
  assert (Hok2 : ev_ok s2).
  { split; [done|done|]. cbn. unfold bit_set. rewrite Z.shiftl_1_l. apply lor_below; [lia|done|].
    split; [apply Z.pow_nonneg; lia|apply Z.pow_lt_mono_r; lia]. }
  eapply wp_mono; [by apply (wp_force s2)|]. intros [] s' [[[_ Em' _ _ _ _] _ _ Hpn Hcl] _]. cbn in Em', Hpn, Hcl.
  rewrite Em'. split; [done|].
  assert (Hin : p ∈ delivered (set_upmask true s2)) by (apply elem_of_delivered; cbn; split_and!; try done; lia).
  split.
  - rewrite Hpn by lia. rewrite bool_decide_eq_true_2 by done. apply andb_false_r.
  - rewrite Hcl. apply elem_of_app. right. apply list_elem_of_In, in_flat_map. exists p.
    split; [by apply list_elem_of_In|]. unfold call_of. cbn. destruct (Z.ltb_spec p NR_EVS); [|unfold NR_EVS in *; lia].
    rewrite Ha. by left.
Qed.
End EventsSpec.

(** Port 70 is pending, unmasked and selected; ports 3 and 80 are not all three. *)
Definition ev_example : @evst unit :=
  Evst (<[70%nat := EvAction false 5 42 0]> (replicate 1024 (EvAction false 0 0 0))) 0
    (2 ^ 70 + 2 ^ 3 + 2 ^ 80) (2 ^ 80) (2 ^ 1) true false false [] tt.
Lemma ev_example_ok : ev_ok ev_example.
Proof.
  split; cbn [ev_actions ev_example evtchn_pending_sel].
  - by rewrite length_insert, length_replicate.
  - apply Forall_insert; [by apply Forall_replicate|done].
  - lia.
Qed.

Lemma events_delivered_witness : ev_ok ev_example /\ delivered ev_example = [70] /\
  wp do_hypervisor_callback (fun _ s' => callback_post ev_example s' /\ NoDup (delivered ev_example) /\
    forall p, p ∈ delivered ev_example <-> 0 <= p < 4096 /\ Z.testbit (evtchn_pending_sel ev_example) (p / 64) = true /\
      Z.testbit (evtchn_pending ev_example) p = true /\ Z.testbit (evtchn_mask ev_example) p = false) ev_example.
Proof.
  split; [exact ev_example_ok|]. split; [vm_compute; reflexivity|]. exact (events_delivered ev_example ev_example_ok).
Defined.

Lemma unmask_no_lost_event_witness : ev_ok ev_example /\
  wp (minios_unmask_evtchn 3) (fun _ s' => Z.testbit (evtchn_mask s') 3 = false /\
    Z.testbit (evtchn_pending s') 3 = false /\ (0, 3, 0) ∈ ev_calls s') ev_example.
Proof.
  split; [exact ev_example_ok|].
  exact (unmask_no_lost_event ev_example 3 (EvAction false 0 0 0) ev_example_ok ltac:(unfold NR_EVS; lia) eq_refl eq_refl).
Defined.
