(* ===== verification/NetRing.v ===== *)
(** * The packet rings between an application and the network server
      (platform/hw/xen/frontend.c, platform/hw/xen/backend.c,
       platform/hw/include/xen/network_ring.h)

    A channel is one direction: a ring of free slot indices, a ring of filled
    ones, the slots, and the word that says whether the reader sleeps.  Both
    ends run the same code on it. *)

From S2P Require Import Prelude LfRing LfRingSpec.

Definition NETDOM_RING_ORDER : Z := 9.
Definition NETDOM_RING_SIZE : Z := Z.shiftl 1 NETDOM_RING_ORDER.
Definition NETDOM_DATA_SIZE : Z := 9216.

(** A slot: its first word, and the bytes after it. *)
Record netslot := NetSlot { sl_len : Z; sl_data : list Z }.
Definition SLOT_ROOM : Z := NETDOM_DATA_SIZE - 8.

Record channel := Channel {
  ch_open : bool;              (* the free ring's pointer is set *)
  ch_fring : lfring;
  ch_aring : lfring;
  ch_readers : Z;
  ch_slots : list netslot;
  ch_notified : Z              (* events sent to the other side *)
}.
Definition set_fring v c := Channel (ch_open c) v (ch_aring c) (ch_readers c) (ch_slots c) (ch_notified c).
Definition set_aring v c := Channel (ch_open c) (ch_fring c) v (ch_readers c) (ch_slots c) (ch_notified c).
Definition set_slots v c := Channel (ch_open c) (ch_fring c) (ch_aring c) (ch_readers c) v (ch_notified c).
Definition notify c := Channel (ch_open c) (ch_fring c) (ch_aring c) (ch_readers c) (ch_slots c) (ch_notified c + 1).
Definition in_fring {A} (m : M lfring A) : M channel A := zoom ch_fring set_fring m.
Definition in_aring {A} (m : M lfring A) : M channel A := zoom ch_aring set_aring m.

Definition slot_get (idx : Z) : M channel netslot :=
  c <-- mget ;; mopt (ch_slots c !! Z.to_nat idx) "slot index".
Definition slot_put (idx : Z) (sl : netslot) : M channel unit :=
  modify (fun c => set_slots (<[Z.to_nat idx := sl]> (ch_slots c)) c).

(** [bmk_mempcpy] of [l] to offset [off] of the slot's bytes. *)
Definition write_at (off : Z) (l : list Z) (d : list Z) : list Z :=
  take (Z.to_nat off) d ++ l ++ drop (Z.to_nat off + length l) d.

(** The loop over the mbufs of a packet. *)
Fixpoint fill_slot (idx off : Z) (m0 : list (list Z)) : M channel unit :=
  match m0 with
  | [] => cret tt
  | m :: m0 =>
      sl <-- slot_get idx ;;
      let len := u64 (sl_len sl + Z.of_nat (length m)) in
      slot_put idx (NetSlot len (sl_data sl)) ;;;
      massert (len <=? NETDOM_DATA_SIZE - 8) "frontend_send: a packet is too large" ;;;
      slot_put idx (NetSlot len (write_at off m (sl_data sl))) ;;;
      fill_slot idx (off + Z.of_nat (length m)) m0
  end.

(** [frontend_send] and [backend_forward_send]. *)
Definition net_send (m0 : list (list Z)) : M channel unit :=
  c <-- mget ;;
  if negb (ch_open c) then cret tt else
  idx <-- in_fring (lfring_dequeue NETDOM_RING_ORDER false) ;;
  if idx =? LFRING_EMPTY then cret tt else
  sl <-- slot_get idx ;;
  slot_put idx (NetSlot 0 (sl_data sl)) ;;;
  fill_slot idx 0 m0 ;;;
  in_aring (lfring_enqueue NETDOM_RING_ORDER idx false) ;;;
  c <-- mget ;;
  if ch_readers c <=? 0 then modify notify else cret tt.

(** One turn of the receivers' loop: the packet delivered, if there is one.
    The length is the slot's word; reading past the slot is a fault. *)
Definition net_receive : M channel (option (list Z)) :=
  idx <-- in_aring (lfring_dequeue NETDOM_RING_ORDER false) ;;
  if idx =? LFRING_EMPTY then cret None else
  sl <-- slot_get idx ;;
  massert (sl_len sl <=? Z.of_nat (length (sl_data sl))) "read past the slot" ;;;
  in_fring (lfring_enqueue NETDOM_RING_ORDER idx false) ;;;
  cret (Some (take (Z.to_nat (sl_len sl)) (sl_data sl))).

(** ** Sleeping and waking the receiver

    The interleaving of any number of senders, the event handler
    ([frontend_interrupt_handler], [backend_interrupt_handler]) and the receiver
    thread ([frontend_receiver], [backend_forward_receiver] with their
    [receiver_callback]), one atomic access at a time. *)
Inductive rpc :=
| RStart                       (* created, has not run *)
| RRun (fails : Z)             (* polling *)
| RFinal                       (* [readers] is -1; about to look once more *)
| RBlocking                    (* found nothing; the callback has not run *)
| RSleeping
| RWoken.                      (* on the run queue again *)

Record netwake := NetWake {
  nw_queue : Z;                (* packets in the ring *)
  nw_readers : Z;
  nw_pc : rpc;
  nw_unchecked : Z;            (* senders between enqueue and the test of [readers] *)
  nw_event : bool;             (* the event channel is pending *)
  nw_runq : Z                  (* times the thread is on the run queue *)
}.
Inductive nwact := SEnqueue | SCheck | EvHandler | RThread.

Definition nw_step (a : nwact) (s : netwake) : option netwake :=
  let 'NetWake q r pc u ev w := s in
  match a with
  | SEnqueue => Some (NetWake (q + 1) r pc (u + 1) ev w)
  | SCheck => if 0 <? u then Some (NetWake q r pc (u - 1) (if r <=? 0 then true else ev) w) else None
  | EvHandler =>
      if ev then
        (* atomic_exchange(&readers, 1) == 0: bmk_sched_wake *)
        if r =? 0 then Some (NetWake q 1 (match pc with RSleeping => RWoken | pc => pc end) u false (w + 1))
        else Some (NetWake q 1 pc u false w)
      else None
  | RThread =>
      match pc with
      | RStart => Some (NetWake q 1 (RRun 0) u ev (w - 1))
      | RRun fails =>
          if 0 <? q then Some (NetWake (q - 1) r (RRun 0) u ev w)
          else if fails + 1 <? 256 then Some (NetWake q r (RRun (fails + 1)) u ev w)
          else Some (NetWake q (-1) RFinal u ev w)
      | RFinal => if 0 <? q then Some (NetWake (q - 1) r (RRun 0) u ev w) else Some (NetWake q r RBlocking u ev w)
      | RBlocking => if r =? -1 then Some (NetWake q 0 RSleeping u ev w) else Some (NetWake q r RWoken u ev (w + 1))
      | RSleeping => None
      | RWoken => Some (NetWake q r (RRun 0) u ev (w - 1))
      end
  end.

(** A run from the creation of the thread, with [readers] as the ring was initialised;
    the handler may run before the thread first does. *)
Definition nw_created : netwake := NetWake 0 0 RStart 0 false 1.
Fixpoint nw_run (l : list nwact) (s : netwake) : option netwake :=
  match l with [] => Some s | a :: l => s' ← nw_step a s; nw_run l s' end.
Fixpoint woken_early (l : list nwact) : bool :=
  match l with EvHandler :: _ => true | RThread :: _ | [] => false | _ :: l => woken_early l end.

(** * Packets arrive intact and in order, and the receiver wakes up *)


(** ** The channel as a queue of packets *)
Definition slot_holds (sl : netslot) (pkt : list Z) : Prop :=
  sl_len sl = Z.of_nat (length pkt) /\ exists rest, sl_data sl = pkt ++ rest.

Record chan_rep (c : channel) (pkts : list (list Z)) (free used : list Z) : Prop := {
  cr_open : ch_open c = true;
  cr_f : ring_rep NETDOM_RING_ORDER (ch_fring c) free;
  cr_a : ring_rep NETDOM_RING_ORDER (ch_aring c) used;
  cr_perm : free ++ used ≡ₚ seqZ 0 NETDOM_RING_SIZE;
  cr_slots : Z.of_nat (length (ch_slots c)) = NETDOM_RING_SIZE;
  cr_room : forall i sl, ch_slots c !! i = Some sl -> Z.of_nat (length (sl_data sl)) = SLOT_ROOM;
  cr_pkts : Forall2 (fun idx pkt => exists sl, ch_slots c !! Z.to_nat idx = Some sl /\ slot_holds sl pkt) used pkts
}.

Lemma order_ok : 4 <= NETDOM_RING_ORDER <= 60.
Proof. unfold NETDOM_RING_ORDER. lia. Qed.

Section Rep.
Variables (c : channel) (pkts : list (list Z)) (free used : list Z).
Hypothesis Hr : chan_rep c pkts free used.

Lemma rep_index idx : idx ∈ free \/ idx ∈ used -> 0 <= idx < NETDOM_RING_SIZE.
Proof using Hr.
  intros Hi. assert (Hin : idx ∈ seqZ 0 NETDOM_RING_SIZE) by (rewrite <- (cr_perm _ _ _ _ Hr), elem_of_app; done).
  apply elem_of_seqZ in Hin. lia.
Qed.
Lemma rep_length : Z.of_nat (length free) + Z.of_nat (length used) = NETDOM_RING_SIZE.
Proof using Hr.
  pose proof (Permutation_length (cr_perm _ _ _ _ Hr)) as E. rewrite length_app, length_seqZ in E.
  unfold NETDOM_RING_SIZE, NETDOM_RING_ORDER in *. change (Z.shiftl 1 9) with 512 in *. lia.
Qed.
Lemma rep_nodup : NoDup (free ++ used).
Proof using Hr. rewrite (cr_perm _ _ _ _ Hr). apply NoDup_seqZ. Qed.
Lemma rep_slot idx : idx ∈ free \/ idx ∈ used -> exists sl, ch_slots c !! Z.to_nat idx = Some sl.
Proof using Hr.
  intros Hi%rep_index. pose proof (cr_slots _ _ _ _ Hr). apply lookup_lt_is_Some_2. lia.
Qed.
End Rep.

Lemma write_at_prefix pre l rest : (length l <= length rest)%nat ->
  exists rest', write_at (Z.of_nat (length pre)) l (pre ++ rest) = (pre ++ l) ++ rest' /\
    length ((pre ++ l) ++ rest') = length (pre ++ rest).
Proof.
  intros Hl. exists (drop (length l) rest). unfold write_at. rewrite Nat2Z.id, take_app_length, drop_app_add.
  split; [by rewrite <- app_assoc|]. rewrite !length_app, length_drop. lia.
Qed.

(** Only the slots change, and only slot [idx]. *)
Definition slots_only (c : channel) (idx : Z) (c' : channel) : Prop :=
  c' = set_slots (ch_slots c') c /\ length (ch_slots c') = length (ch_slots c) /\
  (forall i, i <> Z.to_nat idx -> ch_slots c' !! i = ch_slots c !! i).

Lemma wp_fill_slot idx m0 : forall c pre sl, ch_slots c !! Z.to_nat idx = Some sl -> slot_holds sl pre ->
  Z.of_nat (length (sl_data sl)) = SLOT_ROOM -> Z.of_nat (length (pre ++ concat m0)) <= SLOT_ROOM ->
  wp (fill_slot idx (Z.of_nat (length pre)) m0) (fun _ c' => slots_only c idx c' /\
    exists sl', ch_slots c' !! Z.to_nat idx = Some sl' /\ slot_holds sl' (pre ++ concat m0) /\
      Z.of_nat (length (sl_data sl')) = SLOT_ROOM) c.
Proof.
  induction m0 as [|m m0 IH]; intros c pre sl Hsl [Hlen [rest Hd]] Hroom Hfit; cbn [fill_slot concat] in *.
  - wp_steps. split; [by destruct c|]. exists sl. rewrite app_nil_r. split_and!; try done. by split; [|exists rest].
  - unfold slot_get, slot_put. wp_steps. eapply wp_opt; [exact Hsl|].
    rewrite Hd, length_app in Hroom. rewrite !length_app in Hfit. unfold SLOT_ROOM, NETDOM_DATA_SIZE in *.
    rewrite Hlen. unfold u64. rewrite Z.mod_small by lia. wp_steps. apply wp_assert; [lia|]. wp_steps.
    cbn. rewrite list_insert_insert_eq, Hd.
    destruct (write_at_prefix pre m rest ltac:(lia)) as (rest' & Ew & El). rewrite Ew.
    replace (Z.of_nat (length pre) + Z.of_nat (length m)) with (Z.of_nat (length (pre ++ m))) by (rewrite length_app; lia).
    set (c1 := set_slots _ _).
    eapply wp_mono; [apply (IH c1 (pre ++ m) (NetSlot (Z.of_nat (length (pre ++ m))) ((pre ++ m) ++ rest')))|].
    + cbn. apply list_lookup_insert_eq. by eapply lookup_lt_Some.
    + split; [done|by exists rest'].
    + cbn [sl_data]. rewrite El, length_app. lia.
    + rewrite <- app_assoc, !length_app. lia.
    + intros [] c' [(Ec & Elen & Ho) Hs]. rewrite <- app_assoc in Hs. split; [|exact Hs]. split_and!.
      * by rewrite Ec.
      * rewrite Elen. cbn. by rewrite length_insert.
      * intros i Hi. rewrite Ho by done. cbn. by rewrite list_lookup_insert_ne.
Qed.

Lemma forall2_slots_other (used : list Z) pkts (sl1 sl2 : list netslot) idx : Z.to_nat idx ∉ (Z.to_nat <$> used) ->
  (forall i, i <> Z.to_nat idx -> sl2 !! i = sl1 !! i) ->
  Forall2 (fun j pkt => exists sl, sl1 !! Z.to_nat j = Some sl /\ slot_holds sl pkt) used pkts ->
  Forall2 (fun j pkt => exists sl, sl2 !! Z.to_nat j = Some sl /\ slot_holds sl pkt) used pkts.
Proof.
  intros Hn Ho. induction 1 as [|j pkt used pkts (sl & Hsl & Hh) _ IH]; [constructor|].
  cbn in Hn. apply not_elem_of_cons in Hn as [Hne Hn]. constructor; [|by apply IH].
  exists sl. rewrite Ho by done. done.
Qed.

(** Sending: the packet is queued, or dropped when all slots are in flight. *)
Definition sent (c : channel) (pkts : list (list Z)) (pkt : list Z) (c' : channel) : Prop :=
  ch_readers c' = ch_readers c /\
  if (length pkts <? 512)%nat
  then (exists free used, chan_rep c' (pkts ++ [pkt]) free used) /\
       ch_notified c' = if ch_readers c <=? 0 then ch_notified c + 1 else ch_notified c
  else (exists free used, chan_rep c' pkts free used) /\ ch_notified c' = ch_notified c.

Lemma ring_size : NETDOM_RING_SIZE = 512.
Proof. reflexivity. Qed.

Lemma wp_net_send c pkts free used m0 : chan_rep c pkts free used -> Z.of_nat (length (concat m0)) <= SLOT_ROOM ->
  wp (net_send m0) (fun _ c' => sent c pkts (concat m0) c') c.
Proof.
  intros Hr Hfit. pose proof Hr as [Hop Hf Ha Hperm Hsl Hroom Hpk].
  pose proof (rep_length _ _ _ _ Hr) as Hlen. pose proof (rep_nodup _ _ _ _ Hr) as Hnd. rewrite ring_size in *.
  pose proof (Forall2_length _ _ _ Hpk) as Hpl.
  unfold net_send, sent. wp_steps. rewrite Hop. cbn [negb]. unfold in_fring, in_aring. wp_steps.
  destruct free as [|x free].
  - eapply wp_mono; [apply (wp_dequeue_none _ order_ok); done|]. intros r f' [-> Hf']. cbn [Z.eqb]. rewrite Z.eqb_refl. wp_steps.
    split; [done|]. cbn in Hlen. destruct (Nat.ltb_spec (length pkts) 512); [lia|]. split; [|done].
    exists [], used. by split.
  - eapply wp_mono; [apply (wp_dequeue_some _ order_ok); done|]. intros r f' [-> Hf'].
    assert (Hx : 0 <= x < 512) by (apply (rep_index _ _ _ _ Hr); left; by left).
    destruct (Z.eqb_spec x LFRING_EMPTY) as [->|_]; [by vm_compute in Hx; destruct Hx|].
    destruct (rep_slot _ _ _ _ Hr x ltac:(left; by left)) as [sl Hslx].
    unfold slot_get at 1. wp_steps. eapply wp_opt; [exact Hslx|]. unfold slot_put at 1. wp_steps.
    set (c1 := set_slots _ _).
    assert (Hlx : (Z.to_nat x < length (ch_slots c))%nat) by (by eapply lookup_lt_Some).
    eapply wp_mono; [apply (wp_fill_slot x m0 c1 [] (NetSlot 0 (sl_data sl)))|].
    + by apply list_lookup_insert_eq.
    + split; [done|by exists (sl_data sl)].
    + cbn [sl_data]. eapply Hroom. exact Hslx.
    + done.
    + intros [] c2 [(Ec & El & Ho) (sl' & Hsl' & Hh & Hrm)].
      cbn [app] in Hh. apply NoDup_app in Hnd as ([Hxf Hndf]%NoDup_cons & Hdis & Hndu).
      assert (Hxu : x ∉ used) by (apply Hdis; by left).
      assert (Eo : forall i, i <> Z.to_nat x -> ch_slots c2 !! i = ch_slots c !! i).
      { intros i Hi. rewrite Ho by done. cbn. by rewrite list_lookup_insert_ne. }
      assert (Efr : ch_fring c2 = f' /\ ch_aring c2 = ch_aring c /\ ch_readers c2 = ch_readers c /\ ch_notified c2 = ch_notified c /\ ch_open c2 = true).
      { rewrite Ec. cbn. done. }
      destruct Efr as (E1 & E2 & E3 & E4 & E5). wp_steps. rewrite E2.
      cbn [length] in Hlen.
      eapply wp_mono; [apply (wp_enqueue _ order_ok _ used x false Ha); [change (2 ^ (NETDOM_RING_ORDER + 1)) with 1024; lia|change (2 ^ (NETDOM_RING_ORDER + 1)) with 1024; lia|by left]|].
      intros r a' [-> Ha']. wp_steps. cbn [ch_readers set_aring]. rewrite E3.
      destruct (Nat.ltb_spec (length pkts) 512); [|lia].
      assert (Hrep : chan_rep (set_aring a' c2) (pkts ++ [concat m0]) free (used ++ [x])).
      { split; cbn [ch_open ch_fring ch_aring ch_slots set_aring]; rewrite ?E1; try done.
        - rewrite <- Hperm. cbn. rewrite app_assoc, (Permutation_app_comm (free ++ used) [x]). done.
        - rewrite El. cbn. rewrite length_insert, ring_size. lia.
        - intros i s Hs. destruct (decide (i = Z.to_nat x)) as [->|Hi]; [by simplify_eq|].
          rewrite Eo in Hs by done. by eapply Hroom.
        - apply Forall2_app.
          + eapply (forall2_slots_other _ _ (ch_slots c) _ x); [|done|done].
            intros (y & Ey & Hy)%list_elem_of_fmap. assert (0 <= y < 512) by (apply (rep_index _ _ _ _ Hr); by right).
            assert (x = y) by lia. by subst.
          + constructor; [|constructor]. by exists sl'. }
      destruct (ch_readers c <=? 0); wp_steps; cbn [ch_readers ch_notified notify set_aring]; rewrite ?E3, ?E4.
      * split; [done|]. split; [|done]. exists free, (used ++ [x]). destruct Hrep. by split.
      * split; [done|]. split; [|done]. by exists free, (used ++ [x]).
Qed.

Lemma wp_net_receive c pkts free used : chan_rep c pkts free used ->
  wp net_receive (fun r c' => r = head pkts /\ ch_readers c' = ch_readers c /\ ch_notified c' = ch_notified c /\
    exists free' used', chan_rep c' (tail pkts) free' used') c.
Proof.
  intros Hr. pose proof Hr as [Hop Hf Ha Hperm Hsl Hroom Hpk].
  pose proof (rep_length _ _ _ _ Hr) as Hlen. pose proof (rep_nodup _ _ _ _ Hr) as Hnd. rewrite ring_size in *.
  unfold net_receive, in_aring, in_fring. wp_steps. destruct used as [|x used].
  - inversion Hpk; subst. eapply wp_mono; [apply (wp_dequeue_none _ order_ok); done|]. intros r a' [-> Ha']. rewrite Z.eqb_refl. wp_steps.
    split_and!; try done. exists free, []. by split.
  - inversion Hpk as [|? pkt ? pkts' (sl & Hslx & Hl & rest & Hd) Hpk']; subst.
    eapply wp_mono; [apply (wp_dequeue_some _ order_ok); done|]. intros r a' [-> Ha'].
    assert (Hx : 0 <= x < 512) by (apply (rep_index _ _ _ _ Hr); right; by left).
    destruct (Z.eqb_spec x LFRING_EMPTY) as [->|_]; [by vm_compute in Hx; destruct Hx|].
    unfold slot_get. wp_steps. eapply wp_opt; [exact Hslx|].
    wp_steps. apply wp_assert; [apply Z.leb_le; rewrite Hl, Hd, length_app, Nat2Z.inj_add; clear; lia|]. wp_steps. cbn [length] in Hlen.
    eapply wp_mono; [apply (wp_enqueue _ order_ok _ free x false Hf); [change (2 ^ (NETDOM_RING_ORDER + 1)) with 1024; lia|change (2 ^ (NETDOM_RING_ORDER + 1)) with 1024; lia|by left]|].
    intros r f' [-> Hf']. wp_steps. split_and!; try done.
    + cbn. f_equal. rewrite Hd, Hl, Nat2Z.id. apply take_app_length.
    + exists (free ++ [x]), used. split; try done. cbn. rewrite <- app_assoc. exact Hperm.
Qed.

(** ** The refinement *)
Inductive netop := NSend (m0 : list (list Z)) | NRecv.
Definition queue_step (op : netop) (pkts : list (list Z)) : option (list Z) * list (list Z) :=
  match op with
  | NSend m0 => (None, if (length pkts <? 512)%nat then pkts ++ [concat m0] else pkts)
  | NRecv => (head pkts, tail pkts)
  end.
Definition net_step (op : netop) : M channel (option (list Z)) :=
  match op with NSend m0 => net_send m0 ;;; cret None | NRecv => net_receive end.
Fixpoint queue_run (ops : list netop) (pkts : list (list Z)) : list (option (list Z)) * list (list Z) :=
  match ops with
  | [] => ([], pkts)
  | op :: ops => let '(r, p) := queue_step op pkts in let '(rs, p') := queue_run ops p in (r :: rs, p')
  end.
Fixpoint net_run (ops : list netop) : M channel (list (option (list Z))) :=
  match ops with
  | [] => cret []
  | op :: ops => r <-- net_step op ;; rs <-- net_run ops ;; cret (r :: rs)
  end.
Definition fits (op : netop) : Prop := match op with NSend m0 => Z.of_nat (length (concat m0)) <= SLOT_ROOM | NRecv => True end.

Lemma wp_net_step op c pkts free used : chan_rep c pkts free used -> fits op ->
  wp (net_step op) (fun r c' => r = fst (queue_step op pkts) /\ exists f u, chan_rep c' (snd (queue_step op pkts)) f u) c.
Proof.
  intros Hr Hf. destruct op as [m0|]; cbn [net_step queue_step fst snd].
  - wp_steps. eapply wp_mono; [by eapply wp_net_send|]. intros [] c' [_ Hs]. wp_steps. split; [done|].
    destruct (length pkts <? 512)%nat; by destruct Hs as [H _].
  - eapply wp_mono; [by eapply wp_net_receive|]. intros r c' (-> & _ & _ & H). done.
Qed.

(** C5. A channel between the application and the network server is a FIFO queue
    of packets: for every sequence of sends and receives of packets that fit a
    slot, both ring operations' loops included, everything returns; every packet
    received is byte for byte the concatenation of the mbufs sent, in order; a
    send with all 512 slots in flight drops the packet; slots never leak. *)
Theorem net_refines_queue ops c pkts free used :
  chan_rep c pkts free used -> Forall fits ops ->
  exists c' free' used', net_run ops c = Done (fst (queue_run ops pkts), c') /\
    chan_rep c' (snd (queue_run ops pkts)) free' used'.
Proof.
  intros Hr Hf. revert c pkts free used Hr. induction Hf as [|op ops Hop _ IH]; intros c pkts free used Hr.
  - by exists c, free, used.
  - destruct (wp_run _ _ _ (wp_net_step op c pkts free used Hr Hop)) as (r & c1 & E & -> & f1 & u1 & Hr1).
    destruct (IH c1 _ f1 u1 Hr1) as (c2 & f2 & u2 & E2 & Hr2). exists c2, f2, u2.
    cbn [queue_run net_run]. unfold cbind at 1. rewrite E. unfold cbind at 1. rewrite E2.
    destruct (queue_step op pkts) as [r p]. cbn [fst snd] in *. destruct (queue_run ops p). done.
Qed.

(** Freshly initialised rings represent the empty queue. *)
Definition chan_memory (q : lfring) : channel := Channel true q q 0 (replicate (Z.to_nat NETDOM_RING_SIZE) (NetSlot 0 (replicate (Z.to_nat SLOT_ROOM) 0))) 0.
Definition chan_init : M channel unit :=
  in_aring (lfring_init_empty NETDOM_RING_ORDER) ;;; in_fring (lfring_init_full NETDOM_RING_ORDER).
Lemma wp_chan_init q : Z.of_nat (length (rg_array q)) = 1024 ->
  wp chan_init (fun _ c => exists free used, chan_rep c [] free used) (chan_memory q).
Proof.
  intros Hlen. unfold chan_init, in_aring, in_fring. wp_steps.
  eapply wp_mono; [apply (wp_init_empty _ order_ok); exact Hlen|]. intros [] a Ha. wp_steps.
  eapply wp_mono; [apply (wp_init_full _ order_ok); [done|exact Hlen]|]. intros [] f Hf.
  exists (full_indices NETDOM_RING_ORDER), []. split; try done.
  - rewrite app_nil_r. by apply (full_indices_perm _ order_ok).
  - intros i sl Hi. unfold chan_memory in Hi. cbn [ch_slots set_fring set_aring] in Hi. apply lookup_replicate in Hi as [-> _].
    cbn [sl_data]. by rewrite length_replicate, Z2Nat.id.
Qed.

Lemma net_refines_queue_witness : exists c c' free used,
  chan_rep c [] free used /\
  net_run [NSend [[1; 2]; [3]]; NSend [[4]]; NRecv; NRecv; NRecv] c = Done ([None; None; Some [1; 2; 3]; Some [4]; None], c').
Proof.
  destruct (wp_run _ _ _ (wp_chan_init (MkRing 0 0 0 (replicate 1024 0)) eq_refl)) as ([] & c & _ & free & used & Hr).
  destruct (net_refines_queue [NSend [[1; 2]; [3]]; NSend [[4]]; NRecv; NRecv; NRecv] c [] free used Hr) as (c' & _ & _ & E & _).
  - repeat constructor; vm_compute; discriminate.
  - exists c, c', free, used. split; [exact Hr|exact E].
Defined.

(** ** No wake-up is lost *)
(** How often the thread is to be on the run queue; [e]: it was woken before it ran. *)
Definition runq_of (e : bool) (pc : rpc) : Z := (match pc with RStart | RWoken => 1 | _ => 0 end) + (if e then 1 else 0).
Definition nw_inv (e : bool) (s : netwake) : Prop :=
  0 <= nw_queue s /\ 0 <= nw_unchecked s /\ nw_runq s = runq_of e (nw_pc s) /\
  match nw_pc s with
  | RStart => nw_readers s = if e then 1 else 0
  | RRun _ | RFinal => nw_readers s = -1 \/ nw_readers s = 1
  | RBlocking => nw_readers s = 1 \/ (nw_readers s = -1 /\ (0 < nw_queue s -> 0 < nw_unchecked s \/ nw_event s = true))
  | RSleeping => nw_readers s = 0 /\ (0 < nw_queue s -> 0 < nw_unchecked s \/ nw_event s = true)
  | RWoken => nw_readers s = 1
  end.
Definition starting (s : netwake) : bool := match nw_pc s with RStart => true | _ => false end.
Definition handler (a : nwact) : bool := match a with EvHandler => true | _ => false end.

Lemma nw_step_inv e a s s' : nw_inv e s -> nw_step a s = Some s' -> nw_inv (e || starting s && handler a) s'.
Proof.
  intros (Hq & Hu & Hw & Hpc). destruct s as [q r pc u ev w]. unfold nw_inv, starting, runq_of in *.
  cbn [nw_queue nw_unchecked nw_runq nw_pc nw_readers nw_event] in *. subst w. destruct a; cbn [nw_step handler]; rewrite ?andb_false_r, ?orb_false_r.
  - intros [= <-]. cbn. destruct pc; split_and!; try done; try lia; destruct Hpc; try (by left); right; split; try done; intros; left; lia.
  - destruct (Z.ltb_spec 0 u); [|done]. intros [= <-]. cbn. destruct (Z.leb_spec r 0).
    + destruct pc; split_and!; try done; try lia; destruct Hpc; try (by left); try lia; right; split; try done; by right.
    + destruct pc; split_and!; try done; try lia; destruct Hpc; try lia; by left.
  - destruct ev; [|done]. destruct (Z.eqb_spec r 0) as [->|]; intros [= <-]; cbn; destruct pc; cbn; rewrite ?orb_false_r; destruct e; cbn;
      split_and!; try done; try lia; destruct Hpc; try lia; auto.
  - destruct pc as [|fails| | | |]; [| | | |done|].
    + intros [= <-]. cbn. split_and!; try lia.
    + destruct (Z.ltb_spec 0 q); [intros [= <-]; cbn; by split_and!; try lia|].
      destruct (fails + 1 <? 256); intros [= <-]; cbn; split_and!; try lia; try done; by left.
    + destruct (Z.ltb_spec 0 q); intros [= <-]; cbn; split_and!; try lia; try done.
    + destruct (Z.eqb_spec r (-1)) as [->|]; intros [= <-]; cbn; split_and!; try lia; try done.
      destruct Hpc as [?|[_ ?]]; [lia|done].
    + intros [= <-]. cbn. split_and!; try lia.
Qed.
(** Only the thread itself leaves its start. *)
Lemma starting_step a s s' : nw_step a s = Some s' -> starting s' = starting s && negb (match a with RThread => true | _ => false end).
Proof.
  destruct s as [q r pc u ev w]. destruct a; cbn; repeat case_match; try done; intros [= <-]; by destruct pc.
Qed.
Lemma nw_run_inv l : forall e s s', nw_inv e s -> nw_run l s = Some s' -> nw_inv (e || starting s && woken_early l) s'.
Proof.
  induction l as [|a l IH]; intros e s s' H; cbn [nw_run].
  - intros [= <-]. by rewrite andb_false_r, orb_false_r.
  - destruct (nw_step a s) as [s1|] eqn:E; [|done]. cbn [mbind option_bind]. intros Hr. pose proof (IH _ _ _ (nw_step_inv e a s s1 H E) Hr) as H1.
    rewrite (starting_step a s s1 E) in H1. destruct (starting s), a, e; cbn in *; by rewrite ?orb_true_r, ?orb_false_r in H1.
Qed.


(** The receiver polls in vain and goes to sleep; a packet comes. *)
Definition to_sleep : list nwact := RThread :: replicate 258 RThread.

(** A packet sent to a receiver that has been created but not yet run puts the thread
    on the run queue a second time. *)
Theorem net_created_woken_twice : exists s,
  nw_run [SEnqueue; SCheck; EvHandler] nw_created = Some s /\ nw_pc s = RStart /\ nw_runq s = 2.
Proof. by eexists. Qed.
