(* ===== verification/Backend.v ===== *)
(** * The network server's side (platform/hw/xen/backend.c)

    One channel per application.  Packets from the NIC are dispatched by port;
    an application that says hello is connected by mapping the rings it has
    granted. *)

From S2P Require Import Prelude Pgalloc PageIface PgallocSpec LfRing LfRingSpec Gntmap Events NetRing.

Definition RUMPRUN_NUM_OF_APPS : Z := 16.
Definition RUMPRUN_SERVICE_IPS : Z := 20.
Definition NETDOM_RING_DATA_PAGES : Z :=
  (NETDOM_DATA_SIZE * NETDOM_RING_SIZE + BMK_PCPU_PAGE_SIZE - 1) / BMK_PCPU_PAGE_SIZE.
Definition BMK_ENOENT : Z := 2.

(** ** Dispatch of a packet *)
Definition ETHERTYPE_SWAP (x : Z) : Z := u16 (Z.lor (Z.shiftl x 8) (Z.shiftr x 8)).
Definition ETHERTYPE_IP : Z := ETHERTYPE_SWAP 2048.
Definition ETHERTYPE_ARP : Z := ETHERTYPE_SWAP 2054.

Record backend := Backend {
  be_chans : list channel;
  be_count : Z;                 (* frontend_dom *)
  tcp_portmap : Z -> Z;         (* the dom of each port: shared with Xen *)
  udp_portmap : Z -> Z
}.
Definition set_chans v b := Backend v (be_count b) (tcp_portmap b) (udp_portmap b).

Definition byte_at (l : list Z) (i : nat) : Z := nth i l 0.
Definition u16_at (l : list Z) (i : nat) : Z := byte_at l i + byte_at l (S i) * 256.

Definition backend_forward_send (dom : Z) (m0 : list (list Z)) : M backend unit :=
  b <-- mget ;;
  c <-- mopt (be_chans b !! Z.to_nat dom) "tx_fring index" ;;
  '(_, c') <-- (fun b => match net_send m0 c with Done r => Done (r, b) | Halted w => Halted w | NoFuel => NoFuel end) ;;
  modify (fun b => set_chans (<[Z.to_nat dom := c']> (be_chans b)) b).
Definition forward_all (m0 : list (list Z)) : M backend unit :=
  b <-- mget ;; mfor (fun i => backend_forward_send i m0) (seqZ 0 (be_count b)).

Definition backend_receive (m0 : list (list Z)) : M backend Z :=
  let data := hd [] m0 in
  if Z.of_nat (length data) <? 38 then cret BMK_EINVAL else
  let type := u16_at data 12 in
  b <-- mget ;;
  if type =? ETHERTYPE_IP then
    match (if byte_at data 23 =? 6 then Some (tcp_portmap b)
           else if byte_at data 23 =? 17 then Some (udp_portmap b) else None) with
    | None => cret BMK_ENOENT
    | Some portmap =>
        let port := u16_at data 36 in
        if (port =? 0) || (port =? 65535) then forward_all m0 ;;; cret BMK_ENOENT
        else
          let app_dom := u32 (portmap port) in
          if s32 app_dom =? -1 then cret BMK_ENOENT
          else backend_forward_send app_dom m0 ;;; cret 0
    end
  else if type =? ETHERTYPE_ARP then forward_all m0 ;;; cret BMK_ENOENT
  else cret BMK_ENOENT.

(** ** Connecting an application *)
Record frontend_connect := FConn { fc_domid : Z; fc_port : Z; fc_hello_port : Z; fc_status : Z; fc_grefs : list Z }.
Record frontend_grefs := FGrefs { next_grefs : list Z; aring_grefs : list Z; fring_grefs : list Z; buf_grefs : list Z }.

(** Addresses the server keeps for an application; 0 is NULL. *)
Record appconn := AppConn {
  ac_tx_aring : Z; ac_tx_fring : Z; ac_tx_buf : Z;
  ac_rx_aring : Z; ac_rx_fring : Z; ac_rx_buf : Z;
  ac_thread : bool; ac_port : Z
}.
Definition no_conn : appconn := AppConn 0 0 0 0 0 0 false 0.

Section Connect.
Context {P X H : Type} `{PA : PageAllocator P} `{XM : XenMap X}.
Variable hv_op : evop -> H -> (Z * Z) * H.
(** RUMPRUN_SERVICE_FETCH: the table Xen holds, or an error; the contents of a
    mapped page of references; the handlers' identities; DOMID_BACKEND is Xen's. *)
Variable service_fetch : option (list frontend_connect).
Variable mapped_grefs : Z -> frontend_grefs.
Variables (welcome_handler : Z) (interrupt_handler : Z -> Z) (DOMID_BACKEND : Z) (thread_created : bool).

Record server := Server {
  sv_pg : P;
  sv_x : X;
  sv_ev : @evst H;
  sv_maps : list (list gntmap_entry * bool);   (* backend_map *)
  sv_apps : list appconn;
  frontend_dom : Z;
  reconnection : Z;
  reconnect_welcome_port : list Z;
  app_dom_info : list frontend_connect;
  welcome_port : Z
}.
Definition set_sv_map p x m s := Server p x (sv_ev s) m (sv_apps s) (frontend_dom s) (reconnection s) (reconnect_welcome_port s) (app_dom_info s) (welcome_port s).
Definition set_sv_ev v s := Server (sv_pg s) (sv_x s) v (sv_maps s) (sv_apps s) (frontend_dom s) (reconnection s) (reconnect_welcome_port s) (app_dom_info s) (welcome_port s).
Definition set_apps v s := Server (sv_pg s) (sv_x s) (sv_ev s) (sv_maps s) v (frontend_dom s) (reconnection s) (reconnect_welcome_port s) (app_dom_info s) (welcome_port s).
Definition set_counts d r s := Server (sv_pg s) (sv_x s) (sv_ev s) (sv_maps s) (sv_apps s) d r (reconnect_welcome_port s) (app_dom_info s) (welcome_port s).
Definition set_info v s := Server (sv_pg s) (sv_x s) (sv_ev s) (sv_maps s) (sv_apps s) (frontend_dom s) (reconnection s) (reconnect_welcome_port s) v (welcome_port s).
Definition set_welcome v s := Server (sv_pg s) (sv_x s) (sv_ev s) (sv_maps s) (sv_apps s) (frontend_dom s) (reconnection s) (reconnect_welcome_port s) (app_dom_info s) v.

Definition in_ev {A} (m : M (@evst H) A) : M server A := zoom sv_ev set_sv_ev m.
(** [&backend_map[dom]] with the page allocator and the hypervisor. *)
Definition in_map {A} (dom : Z) (m : M (@gntmap P X) A) : M server A :=
  s <-- mget ;;
  '(es, alive) <-- mopt (sv_maps s !! Z.to_nat dom) "backend_map index" ;;
  '(a, g) <-- (fun s => match m (Gntmap (sv_pg s) (sv_x s) es alive) with
                        | Done r => Done (r, s) | Halted w => Halted w | NoFuel => NoFuel end) ;;
  modify (fun s => set_sv_map (gm_pg g) (gm_x g) (<[Z.to_nat dom := (entries g, gm_alive g)]> (sv_maps s)) s) ;;;
  cret a.
Definition update_app (dom : Z) (f : appconn -> appconn) : M server unit :=
  s <-- mget ;; a <-- mopt (sv_apps s !! Z.to_nat dom) "application index" ;;
  modify (set_apps (<[Z.to_nat dom := f a]> (sv_apps s))).

(** The application whose welcome port this is. *)
Definition get_dom (ports : list Z) (port : Z) : Z :=
  match list_find (fun p => p = port) ports with Some (i, _) => Z.of_nat i | None => u32 (-1) end.

Definition choose_dom (port : Z) : M server Z :=
  s <-- mget ;;
  if negb (reconnection s =? 0) then
    let dom := get_dom (reconnect_welcome_port s) port in
    massert (negb (dom =? u32 (-1))) "reconnection fails on backend_connect" ;;; cret dom
  else
    let dom := frontend_dom s in
    modify (set_counts (u32 (dom + 1)) (reconnection s)) ;;;
    massert (negb (RUMPRUN_NUM_OF_APPS <? dom)) "Too many frontend domains" ;;; cret dom.

(** The references at a mapped address; the result of the mapping is not tested. *)
Definition read_grefs (addr : Z) : M server frontend_grefs :=
  massert (negb (addr =? 0)) "NULL dereference" ;;; cret (mapped_grefs addr).

Definition map_rings (dom : Z) (info : frontend_connect) : M server unit :=
  let domids := [fc_domid info] in
  let map n refs := in_map dom (gntmap_map_grant_refs n domids 0 refs true) in
  tx <-- map 2 (fc_grefs info) ;;
  g <-- read_grefs tx ;;
  tx_aring <-- map 3 (aring_grefs g) ;;
  fring <-- map 3 (fring_grefs g) ;;
  tx_buf <-- map NETDOM_RING_DATA_PAGES (buf_grefs g) ;;
  rx <-- map 2 (next_grefs g) ;;
  g' <-- read_grefs rx ;;
  rx_aring <-- map 3 (aring_grefs g') ;;
  rx_fring <-- map 3 (fring_grefs g') ;;
  rx_buf <-- map NETDOM_RING_DATA_PAGES (buf_grefs g') ;;
  in_map dom (gntmap_munmap tx 2) ;;;
  in_map dom (gntmap_munmap rx 2) ;;;
  update_app dom (fun a => AppConn tx_aring fring tx_buf rx_aring rx_fring rx_buf (ac_thread a) (ac_port a)).

Definition backend_connect (port : Z) : M server unit :=
  dom <-- choose_dom port ;;
  match service_fetch with Some l => modify (set_info l) | None => cret tt end ;;;
  s <-- mget ;;
  info <-- mopt (app_dom_info s !! Z.to_nat dom) "app_dom_info index" ;;
  in_map dom (gntmap_init true) ;;;
  map_rings dom info ;;;
  massert thread_created "fatal thread creation failure" ;;;
  update_app dom (fun a => AppConn (ac_tx_aring a) (ac_tx_fring a) (ac_tx_buf a) (ac_rx_aring a) (ac_rx_fring a) (ac_rx_buf a) true (ac_port a)) ;;;
  r <-- in_ev (minios_evtchn_bind_interdomain hv_op (fc_domid info) (fc_port info) (interrupt_handler dom) NULL) ;;
  (match snd r with
   | Some p => update_app dom (fun a => AppConn (ac_tx_aring a) (ac_tx_fring a) (ac_tx_buf a) (ac_rx_aring a) (ac_rx_fring a) (ac_rx_buf a) (ac_thread a) p)
   | None => cret tt end) ;;;
  s <-- mget ;;
  a <-- mopt (sv_apps s !! Z.to_nat dom) "application index" ;;
  in_ev (minios_unmask_evtchn (ac_port a)) ;;;
  s <-- mget ;;
  (if reconnection s <=? 1 then
     r <-- in_ev (minios_evtchn_alloc_unbound hv_op DOMID_BACKEND welcome_handler NULL) ;;
     (match snd r with Some p => modify (set_welcome p) | None => cret tt end) ;;;
     s <-- mget ;;
     in_ev (minios_unmask_evtchn (welcome_port s))
   else cret tt) ;;;
  if reconnection s =? 0 then cret tt
  else modify (fun s => set_counts (frontend_dom s) (u32 (reconnection s - 1)) s).
End Connect.

(** ** The address pool *)
Record pool_entry := PoolEntry { pe_ipaddr : Z; pe_netmask : Z; pe_mtu : Z }.
Definition register_ip_addrpool (ipaddr netmask mtu : Z) : list pool_entry :=
  map (fun i => PoolEntry (u32 (ipaddr + u32 (Z.shiftl (i + 1) 24))) netmask mtu) (seqZ 0 RUMPRUN_SERVICE_IPS)
  ++ [PoolEntry ipaddr netmask mtu].

(** * Packets reach the applications they are for *)


(** Channel [i] is open or not, and holds a queue of packets. *)
Definition chan_ok (c : channel) (q : list (list Z)) : Prop :=
  ch_open c = false \/ exists f u, chan_rep c q f u.
Definition be_rep (b : backend) (op : Z -> bool) (qs : Z -> list (list Z)) : Prop :=
  length (be_chans b) = 16%nat /\
  forall i, 0 <= i < 16 -> exists c, be_chans b !! Z.to_nat i = Some c /\ ch_open c = op i /\ chan_ok c (qs i).
(** What a channel holds after a send. *)
Definition push (open : bool) (q : list (list Z)) (pkt : list Z) : list (list Z) :=
  if open && (length q <? 512)%nat then q ++ [pkt] else q.
Definition same_maps (b b' : backend) : Prop :=
  be_count b' = be_count b /\ tcp_portmap b' = tcp_portmap b /\ udp_portmap b' = udp_portmap b.

Lemma wp_forward_send b op qs dom m0 : be_rep b op qs -> 0 <= dom < 16 -> Z.of_nat (length (concat m0)) <= SLOT_ROOM ->
  wp (backend_forward_send dom m0) (fun _ b' => same_maps b b' /\
    be_rep b' op (fun i => if i =? dom then push (op i) (qs i) (concat m0) else qs i)) b.
Proof.
  intros [Hlen Hch] Hd Hfit. destruct (Hch dom Hd) as (c & Hc & Hop & Hok).
  unfold backend_forward_send. wp_steps. eapply wp_opt; [exact Hc|].
  assert (Hsend : exists c', net_send m0 c = Done (tt, c') /\ ch_open c' = op dom /\ chan_ok c' (push (op dom) (qs dom) (concat m0))).
  { destruct Hok as [Hcl|(f & u & Hr)].
    - exists c. unfold net_send, cbind, mget. rewrite Hcl. split; [done|]. split; [congruence|by left].
    - destruct (wp_run _ _ _ (wp_net_send c _ f u m0 Hr Hfit)) as ([] & c' & E & _ & Hs). exists c'. split; [done|].
      unfold push. rewrite <- Hop, (cr_open _ _ _ _ Hr). cbn [andb]. destruct (length (qs dom) <? 512)%nat;
        destruct Hs as [(f' & u' & Hr') _]; (split; [by rewrite (cr_open _ _ _ _ Hr')|right; eauto]). }
  destruct Hsend as (c' & E & Hop' & Hok'). wp_steps. unfold wp at 1. rewrite E. wp_steps.
  split; [done|]. split; cbn; [by rewrite length_insert|].
  intros i Hi. destruct (Z.eqb_spec i dom) as [->|Hne].
  - exists c'. split; [apply list_lookup_insert_eq; lia|done].
  - rewrite list_lookup_insert_ne by lia. by apply Hch.
Qed.

Lemma wp_forward_list b op qs m0 ds : be_rep b op qs -> Forall (fun d => 0 <= d < 16) ds -> NoDup ds ->
  Z.of_nat (length (concat m0)) <= SLOT_ROOM ->
  wp (mfor (fun i => backend_forward_send i m0) ds) (fun _ b' => same_maps b b' /\
    be_rep b' op (fun i => if bool_decide (i ∈ ds) then push (op i) (qs i) (concat m0) else qs i)) b.
Proof.
  intros Hr Hds Hnd Hfit. revert b qs Hr. induction Hds as [|d ds Hd _ IH]; intros b qs Hr.
  { split; [done|]. destruct Hr as [Hl Hc]. split; [done|]. intros i Hi. rewrite bool_decide_eq_false_2 by apply not_elem_of_nil. by apply Hc. }
  apply NoDup_cons in Hnd as [Hn Hnd]. cbn [mfor]. wp_steps. eapply wp_mono; [by apply wp_forward_send|].
  intros [] b1 [(E1 & E2 & E3) Hr1]. eapply wp_mono; [by apply IH|]. intros [] b2 [(F1 & F2 & F3) [Hl2 Hc2]].
  split; [unfold same_maps; split_and!; congruence|]. split; [done|]. intros i Hi.
  destruct (Hc2 i Hi) as (c & Hc & Ho & Hk). exists c. split; [done|]. split; [done|].
  destruct (Z.eqb_spec i d) as [->|Hne].
  - rewrite bool_decide_eq_false_2 in Hk by done. rewrite bool_decide_eq_true_2 by (by left). done.
  - destruct (bool_decide_reflect (i ∈ ds)) as [Hin|Hin].
    + rewrite bool_decide_eq_true_2 by (by right). done.
    + rewrite bool_decide_eq_false_2; [done|]. by intros [?|?]%elem_of_cons.
Qed.

(** ** The routing rule

    By the fields of an Ethernet frame: type at 12, IP protocol at 23, the
    destination port at 36, in network byte order. *)
Definition is_ip (d : list Z) : Prop := byte_at d 12 = 8 /\ byte_at d 13 = 0.
Definition is_arp (d : list Z) : Prop := byte_at d 12 = 8 /\ byte_at d 13 = 6.
(** The server's key for a port: its two bytes, low byte first. *)
Definition port_key (d : list Z) : Z := byte_at d 36 + byte_at d 37 * 256.

(** [routed b d code to_]: the answer, and who gets the frame. *)
Inductive routed (b : backend) (d : list Z) : Z -> (Z -> Prop) -> Prop :=
| rt_short : Z.of_nat (length d) < 38 -> routed b d BMK_EINVAL (fun _ => False)
| rt_arp : 38 <= Z.of_nat (length d) -> is_arp d -> routed b d BMK_ENOENT (fun i => i < be_count b)
| rt_other : 38 <= Z.of_nat (length d) -> ~ is_arp d ->
    ~ (is_ip d /\ (byte_at d 23 = 6 \/ byte_at d 23 = 17)) -> routed b d BMK_ENOENT (fun _ => False)
| rt_broadcast : 38 <= Z.of_nat (length d) -> is_ip d -> byte_at d 23 = 6 \/ byte_at d 23 = 17 ->
    port_key d = 0 \/ port_key d = 65535 -> routed b d BMK_ENOENT (fun i => i < be_count b)
| rt_nobody : 38 <= Z.of_nat (length d) -> is_ip d -> byte_at d 23 = 6 \/ byte_at d 23 = 17 -> 0 < port_key d < 65535 ->
    (if byte_at d 23 =? 6 then tcp_portmap b else udp_portmap b) (port_key d) = -1 -> routed b d BMK_ENOENT (fun _ => False)
| rt_app a : 38 <= Z.of_nat (length d) -> is_ip d -> byte_at d 23 = 6 \/ byte_at d 23 = 17 -> 0 < port_key d < 65535 ->
    (if byte_at d 23 =? 6 then tcp_portmap b else udp_portmap b) (port_key d) = a -> 0 <= a < 16 -> routed b d 0 (fun i => i = a).

Lemma byte_range d i : Forall (fun x => 0 <= x < 256) d -> 0 <= byte_at d i < 256.
Proof.
  intros Hd. unfold byte_at. destruct (nth_in_or_default i d 0) as [Hin|E]; [|rewrite E; lia].
  rewrite Forall_forall in Hd. apply Hd. by apply list_elem_of_In.
Qed.
Lemma type_ip d : Forall (fun x => 0 <= x < 256) d -> u16_at d 12 = ETHERTYPE_IP <-> is_ip d.
Proof.
  intros Hd. pose proof (byte_range d 12 Hd). pose proof (byte_range d 13 Hd). unfold u16_at, is_ip.
  change ETHERTYPE_IP with 8. lia.
Qed.
Lemma type_arp d : Forall (fun x => 0 <= x < 256) d -> u16_at d 12 = ETHERTYPE_ARP <-> is_arp d.
Proof.
  intros Hd. pose proof (byte_range d 12 Hd). pose proof (byte_range d 13 Hd). unfold u16_at, is_arp.
  change ETHERTYPE_ARP with 1544. lia.
Qed.

Section Receive.
Variables (b : backend) (op : Z -> bool) (qs : Z -> list (list Z)) (d : list Z) (m0 : list (list Z)).
Hypothesis Hrep : be_rep b op qs.
Hypothesis Hcount : 0 <= be_count b <= 16.
(** Xen's port maps name an application or say -1. *)
Hypothesis Htcp : forall p, tcp_portmap b p = -1 \/ 0 <= tcp_portmap b p < 16.
Hypothesis Hudp : forall p, udp_portmap b p = -1 \/ 0 <= udp_portmap b p < 16.
Hypothesis Hbytes : Forall (fun x => 0 <= x < 256) d.
Hypothesis Hfit : Z.of_nat (length (concat (d :: m0))) <= SLOT_ROOM.

(** The channels after the frame has gone to those in [to_]. *)
Definition delivered_to (to_ : Z -> Prop) (b' : backend) : Prop :=
  same_maps b b' /\ length (be_chans b') = 16%nat /\
  forall i, 0 <= i < 16 -> exists c, be_chans b' !! Z.to_nat i = Some c /\ ch_open c = op i /\
    (to_ i -> chan_ok c (push (op i) (qs i) (concat (d :: m0)))) /\ (~ to_ i -> chan_ok c (qs i)).

Lemma delivered_none : delivered_to (fun _ => False) b.
Proof using Hrep.
  destruct Hrep as [Hl Hc]. split; [done|]. split; [done|]. intros i Hi. destruct (Hc i Hi) as (c & ? & ? & ?). by exists c.
Qed.
Lemma wp_forward_all : wp (forward_all (d :: m0)) (fun _ => delivered_to (fun i => i < be_count b)) b.
Proof using Hrep Hcount Hfit.
  unfold forward_all. wp_steps. eapply wp_mono; [apply wp_forward_list; [done| |apply NoDup_seqZ|done]|].
  - apply Forall_forall. intros i Hi%elem_of_seqZ. lia.
  - intros [] b' [Hm [Hl Hc]]. split; [done|]. split; [done|]. intros i Hi. destruct (Hc i Hi) as (c & ? & ? & Hk). exists c.
    split_and!; try done; intros Ht.
    + rewrite bool_decide_eq_true_2 in Hk by (apply elem_of_seqZ; lia). done.
    + rewrite bool_decide_eq_false_2 in Hk; [done|]. rewrite elem_of_seqZ. lia.
Qed.

(** C6. [backend_receive]: every frame from the NIC is routed by its bytes: short
    frames are refused; ARP and broadcast-port frames go to every connected
    application and to the server; a TCP or UDP frame goes to exactly the
    application its destination port is mapped to, and to nobody else, or to the
    server if no application has the port; everything else stays with the
    server.  The packet is queued in order behind what the application's channel
    holds (or dropped when it is full or not open). *)
Theorem backend_receive_correct :
  exists code to_ b', backend_receive (d :: m0) b = Done (code, b') /\ routed b d code to_ /\ delivered_to to_ b'.
Proof using Hrep Hcount Htcp Hudp Hbytes Hfit.
  enough (wp (backend_receive (d :: m0)) (fun code b' => exists to_, routed b d code to_ /\ delivered_to to_ b') b) as Hwp.
  { destruct (wp_run _ _ _ Hwp) as (code & b' & E & to_ & ? & ?). by exists code, to_, b'. }
  pose proof delivered_none as H0. unfold backend_receive. cbn [hd].
  destruct (Z.ltb_spec (Z.of_nat (length d)) 38) as [Hs|Hs]; wp_steps.
  { exists (fun _ => False). split; [by constructor|done]. }
  pose proof (type_ip d Hbytes) as Hip. pose proof (type_arp d Hbytes) as Harp.
  destruct (Z.eqb_spec (u16_at d 12) ETHERTYPE_IP) as [Et|Et].
  - assert (Hnarp : ~ is_arp d) by (unfold is_arp; apply Hip in Et as [? ?]; lia). apply Hip in Et.
    assert (Hproto : forall pm, (forall p, pm p = -1 \/ 0 <= pm p < 16) -> byte_at d 23 = 6 \/ byte_at d 23 = 17 ->
      pm = (if byte_at d 23 =? 6 then tcp_portmap b else udp_portmap b) ->
      wp (let port := u16_at d 36 in
        if (port =? 0) || (port =? 65535) then forward_all (d :: m0) ;;; cret BMK_ENOENT
        else let app_dom := u32 (pm port) in
          if s32 app_dom =? -1 then cret BMK_ENOENT else backend_forward_send app_dom (d :: m0) ;;; cret 0)
        (fun code b' => exists to_, routed b d code to_ /\ delivered_to to_ b') b).
    { intros pm Hpm Hpr Epm. cbv zeta. change (u16_at d 36) with (port_key d).
      pose proof (byte_range d 36 Hbytes). pose proof (byte_range d 37 Hbytes).
      assert (Hk : 0 <= port_key d <= 65535) by (unfold port_key; lia).
      destruct ((port_key d =? 0) || (port_key d =? 65535)) eqn:Eb.
      - wp_steps. eapply wp_mono; [apply wp_forward_all|]. intros [] b' Hd. wp_steps. eexists. split; [|exact Hd].
        apply rt_broadcast; try done. lia.
      - assert (Hk' : 0 < port_key d < 65535) by lia. destruct (Hpm (port_key d)) as [Em|Hr].
        + rewrite Em. change (s32 (u32 (-1)) =? -1) with true. cbn iota. wp_steps. exists (fun _ => False).
          split; [|done]. apply rt_nobody; try done. by rewrite <- Epm.
        + assert (Eu : u32 (pm (port_key d)) = pm (port_key d)) by (unfold u32; rewrite Z.mod_small; lia). rewrite Eu.
          assert (Es : s32 (pm (port_key d)) = pm (port_key d)) by (unfold s32, swrap; rewrite Z.mod_small; lia). rewrite Es.
          destruct (Z.eqb_spec (pm (port_key d)) (-1)); [lia|]. wp_steps.
          eapply wp_mono; [apply wp_forward_send; done|]. intros [] b' [Hm [Hl Hc]]. wp_steps. exists (fun i => i = pm (port_key d)).
          split; [apply rt_app; try done; by rewrite <- Epm|]. split; [done|]. split; [done|]. intros i Hi.
          destruct (Hc i Hi) as (c & ? & ? & Hk2). exists c. split_and!; try done; intros Ht.
          * subst i. by rewrite Z.eqb_refl in Hk2.
          * by destruct (Z.eqb_spec i (pm (port_key d))). }
    destruct (Z.eqb_spec (byte_at d 23) 6) as [E6|E6]; [apply Hproto; auto|].
    destruct (Z.eqb_spec (byte_at d 23) 17) as [E17|E17]; [apply Hproto; auto|].
    wp_steps. exists (fun _ => False). split; [|done]. apply rt_other; try done. intuition.
  - assert (Hnip : ~ is_ip d) by (rewrite <- Hip; done).
    destruct (Z.eqb_spec (u16_at d 12) ETHERTYPE_ARP) as [Ea|Ea]; wp_steps.
    + eapply wp_mono; [apply wp_forward_all|]. intros [] b' Hd. wp_steps. eexists. split; [|exact Hd]. apply rt_arp; [lia|by apply Harp].
    + exists (fun _ => False). split; [|done]. apply rt_other; [lia|by rewrite <- Harp|tauto].
Qed.
End Receive.

(** A TCP frame for port 80, whose key is 80 * 256; application 0 has it. *)
Definition frame80 : list Z :=
  [1;2;3;4;5;6; 1;2;3;4;5;7; 8;0; 69;0;0;24; 0;0;0;0; 64;6;0;0; 10;0;0;1; 10;0;0;2; 4;210; 0;80; 9;9].
Definition be_example (c : channel) : backend :=
  Backend (<[0%nat := c]> (replicate 16 (Channel false (MkRing 0 0 0 []) (MkRing 0 0 0 []) 0 [] 0))) 1
    (fun p => if p =? 20480 then 0 else -1) (fun _ => -1).
Lemma be_example_rep c f u : chan_rep c [] f u -> be_rep (be_example c) (fun i => i =? 0) (fun _ => []).
Proof.
  intros Hr. split; [done|]. intros i Hi. unfold be_example. cbn [be_chans]. destruct (Z.eqb_spec i 0) as [->|Hne].
  - exists c. split; [done|]. split; [apply (cr_open _ _ _ _ Hr)|]. right. by exists f, u.
  - rewrite list_lookup_insert_ne by lia. eexists. split; [apply lookup_replicate; split; [done|lia]|]. split; [done|by left].
Qed.

Lemma backend_receive_correct_witness : exists c b', backend_receive [frame80] (be_example c) = Done (0, b') /\
  delivered_to (be_example c) (fun i => i =? 0) (fun _ => []) frame80 [] (fun i => i = 0) b'.
Proof.
  destruct (wp_run _ _ _ (wp_chan_init (MkRing 0 0 0 (replicate 1024 0)) eq_refl)) as ([] & c & _ & free & used & Hr).
  destruct (backend_receive_correct (be_example c) (fun i => i =? 0) (fun _ => []) frame80 []) as (code & to_ & b' & E & Ht & Hd).
  - exact (be_example_rep c free used Hr).
  - cbn. lia.
  - intros p. cbn. destruct (p =? 20480); [right; lia|left; reflexivity].
  - intros p. left. reflexivity.
  - repeat constructor; lia.
  - vm_compute. discriminate.
  - exists c, b'. assert (Hip : is_ip frame80) by (split; reflexivity).
    destruct Ht as [Hs| ? [_ Ha]|? ? Hn|? ? ? Hk|? ? ? ? Hm|a ? ? ? ? <- ?].
    + vm_compute in Hs. discriminate.
    + discriminate Ha.
    + destruct Hn. split; [exact Hip|left; reflexivity].
    + destruct Hk as [Hk|Hk]; discriminate Hk.
    + discriminate Hm.
    + split; [exact E|exact Hd].
Defined.

(** ** One application too many *)
Section Overflow.
Context {P X H : Type} `{PA : PageAllocator P} `{XM : XenMap X}.
Variables (hv_op : evop -> H -> (Z * Z) * H) (mapped_grefs : Z -> frontend_grefs).
Variables (welcome_handler : Z) (interrupt_handler : Z -> Z) (DOMID_BACKEND : Z) (thread_created : bool).

(** The check on the number of applications is off by one: with all 16 in
    use, the next hello is not refused with "Too many frontend domains" but
    goes on to read entry 16 of the 16-entry application table; only the one
    after that is refused. *)
Theorem backend_connect_overflow (s : @server P X H) l port :
  reconnection s = 0 -> length l = Z.to_nat RUMPRUN_NUM_OF_APPS ->
  (frontend_dom s = RUMPRUN_NUM_OF_APPS ->
     backend_connect hv_op (Some l) mapped_grefs welcome_handler interrupt_handler DOMID_BACKEND thread_created port s =
       Halted "app_dom_info index") /\
  (frontend_dom s = RUMPRUN_NUM_OF_APPS + 1 ->
     backend_connect hv_op (Some l) mapped_grefs welcome_handler interrupt_handler DOMID_BACKEND thread_created port s =
       Halted "Too many frontend domains").
Proof.
  intros Hrec Hl. split; intros Hd; unfold backend_connect, choose_dom, cbind, mget, modify; rewrite Hrec, Hd.
  - cbn -[lookup]. rewrite lookup_ge_None_2; [done|]. rewrite Hl. unfold RUMPRUN_NUM_OF_APPS. lia.
  - done.
Qed.
End Overflow.

#[local] Instance example_xen : XenMap (gmap Z Z) := {|
  GNTMAP_host_map := 2; GNTMAP_readonly := 4; GNTST_okay := 0;
  map_grant_ref := fun _ _ a _ x => ((0, 0, 7), <[a := 7]> x);
  unmap_grant_ref := fun a h x => ((0, 0), delete a x);
  x_mapped := id; x_page := fun _ => ∅ |}.
Definition server_example : @server pgstate (gmap Z Z) unit :=
  Server pg_example ∅ (Evst [] 0 0 0 0 false false false [] tt) [] [] 16 0 [] [] 0.

Lemma backend_connect_overflow_witness :
  backend_connect (fun _ x => ((0, 0), x)) (Some (replicate 16 (FConn 0 0 0 0 [])))
    (fun _ => FGrefs [] [] [] []) 1 (fun _ => 2) 3 true 5 server_example = Halted "app_dom_info index".
Proof.
  refine (proj1 (backend_connect_overflow (fun _ x => ((0, 0), x)) (fun _ => FGrefs [] [] [] []) 1 (fun _ => 2) 3 true
    server_example (replicate 16 (FConn 0 0 0 0 [])) 5 eq_refl eq_refl) eq_refl).
Defined.
