(* ===== verification/Frontend.v ===== *)
(** * The application's side: granting and revoking the rings
      (platform/hw/xen/frontend.c)

    A ring is a page block (three pages of free ring, three of filled ring, the
    slots) and a page pair holding the grant references of its pages. *)

From S2P Require Import Prelude Pgalloc PgallocInv PageIface PgallocSpec LfRing LfRingSpec Gnttab GnttabSpec Gntmap NetRing Backend.

Definition frontend_virt_to_pfn (a : Z) : Z := Z.shiftr a BMK_PCPU_PAGE_SHIFT.
Definition NETDOM_ARING (fring : Z) : Z := fring + 3 * BMK_PCPU_PAGE_SIZE.
Definition NETDOM_BUF (fring : Z) : Z := fring + 6 * BMK_PCPU_PAGE_SIZE.

Section Frontend.
Context {P : Type} `{PA : PageAllocator P} `{XG : XenGrant}.

Record frontend := Frontend {
  fe_pg : P;
  fe_gnt : gnttab;
  fe_grefs : gmap Z frontend_grefs;     (* pages of references, by address *)
  fe_rings : gmap Z channel             (* rings, by the free ring's address *)
}.
Definition set_fpg v s := Frontend v (fe_gnt s) (fe_grefs s) (fe_rings s).
Definition set_gnt v s := Frontend (fe_pg s) v (fe_grefs s) (fe_rings s).
Definition set_grefs v s := Frontend (fe_pg s) (fe_gnt s) v (fe_rings s).
Definition set_rings v s := Frontend (fe_pg s) (fe_gnt s) (fe_grefs s) v.
Definition in_fpg {A} (m : M P A) : M frontend A := zoom fe_pg set_fpg m.
Definition in_gnt {A} (m : M gnttab A) : M frontend A := zoom fe_gnt set_gnt m.

(** Granting the page at each address, in order. *)
Fixpoint grant_pages (domid : Z) (addrs : list Z) : M frontend (list Z) :=
  match addrs with
  | [] => cret []
  | a :: addrs =>
      r <-- in_gnt (gnttab_grant_access domid (frontend_virt_to_pfn a) 0) ;;
      rs <-- grant_pages domid addrs ;;
      cret (r :: rs)
  end.
Definition pages_from (a n : Z) : list Z := map (fun i => a + i * BMK_PCPU_PAGE_SIZE) (seqZ 0 n).

(** [ring_mem] and [slot_mem] are what the new pages hold.  The results: the
    page of references, the references of its two pages, the free ring. *)
Definition frontend_init_ring (domid : Z) (ring_mem : lfring) (slot_mem : list netslot) : M frontend (Z * list Z * Z) :=
  grefs <-- in_fpg (pa_alloc 1) ;;
  massert (negb (grefs =? 0)) "grefs shared page not allocated" ;;;
  result <-- grant_pages domid (pages_from grefs 2) ;;
  fring <-- in_fpg (pa_alloc (gntmap_map2order (6 + NETDOM_RING_DATA_PAGES))) ;;
  massert (negb (fring =? 0)) "shared pages are not allocated" ;;;
  agrefs <-- grant_pages domid (pages_from (NETDOM_ARING fring) 3) ;;
  fgrefs <-- grant_pages domid (pages_from fring 3) ;;
  rings <-- (fun s => match lfring_init_empty NETDOM_RING_ORDER ring_mem, lfring_init_full NETDOM_RING_ORDER ring_mem with
                      | Done (_, a), Done (_, f) => Done ((a, f), s)
                      | Halted w, _ | _, Halted w => Halted w
                      | _, _ => NoFuel end) ;;
  modify (fun s => set_rings (<[fring := Channel true (snd rings) (fst rings) 0 slot_mem 0]> (fe_rings s)) s) ;;;
  bgrefs <-- grant_pages domid (pages_from (NETDOM_BUF fring) NETDOM_RING_DATA_PAGES) ;;
  modify (fun s => set_grefs (<[grefs := FGrefs [] agrefs fgrefs bgrefs]> (fe_grefs s)) s) ;;;
  cret (grefs, result, fring).

(** Revoking each reference, in order; what [gnttab_end_access] says. *)
Fixpoint end_refs (refs : list Z) : M frontend (list Z) :=
  match refs with
  | [] => cret []
  | r :: refs => x <-- in_gnt (gnttab_end_access r) ;; xs <-- end_refs refs ;; cret (x :: xs)
  end.

(** The new contents of [result]: both answers go to its first element. *)
Definition frontend_terminate_ring (grefs : Z) (result : list Z) : M frontend (list Z) :=
  r0 <-- mopt (result !! 0%nat) "result index" ;;
  x0 <-- in_gnt (gnttab_end_access r0) ;;
  let result := <[0%nat := x0]> result in
  r1 <-- mopt (result !! 1%nat) "result index" ;;
  x1 <-- in_gnt (gnttab_end_access r1) ;;
  let result := <[0%nat := x1]> result in
  s <-- mget ;;
  g <-- mopt (fe_grefs s !! grefs) "grefs page" ;;
  end_refs (aring_grefs g) ;;;
  end_refs (fring_grefs g) ;;;
  end_refs (take (Z.to_nat NETDOM_RING_DATA_PAGES) (buf_grefs g)) ;;;
  cret result.
End Frontend.

(** * Rings are granted page by page, and revoking gives every reference back *)


Section FrontendSpec.
Context {P : Type} `{PA : PageAllocator P} `{XG : XenGrant}.
Abbreviation fst_ := (@frontend P).
Hypothesis idle_flags : in_use (access_flags 0) = false.

Definition grant_of (domid a : Z) : grant_entry := MkGrant (u32 (frontend_virt_to_pfn a)) (u16 domid) (access_flags 0).
(** The references [rs] grant the pages at [addrs], one each. *)
Definition grants (g : gnttab) (domid : Z) (rs addrs : list Z) : Prop :=
  Forall2 (fun r a => entry g r = grant_of domid a) rs addrs.
Definition keeps (g g' : gnttab) (rs : list Z) : Prop :=
  gn_remote g' = gn_remote g /\ forall q, 0 <= q -> q ∉ rs -> entry g' q = entry g q.

Lemma grants_keep g g' domid rs addrs qs : grants g domid rs addrs -> Forall (fun r => 0 <= r) rs ->
  (forall r, r ∈ rs -> r ∉ qs) -> keeps g g' qs -> grants g' domid rs addrs.
Proof.
  intros Hg Hp Hd [_ Hk]. induction Hg as [|r a rs addrs E _ IH]; [constructor|]. apply Forall_cons in Hp as [Hr Hp].
  constructor; [rewrite Hk; [done|done|apply Hd; by left]|]. apply IH; [done|]. intros q Hq. apply Hd. by right.
Qed.
Lemma keeps_trans g1 g2 g3 rs qs : keeps g1 g2 rs -> keeps g2 g3 qs -> keeps g1 g3 (rs ++ qs).
Proof.
  intros [E1 H1] [E2 H2]. split; [congruence|]. intros q Hq [? ?]%not_elem_of_app. by rewrite H2, H1.
Qed.

Lemma gnt_ok_split g rs fl : gnt_ok g (rs ++ fl) -> NoDup rs /\ Forall gref rs /\ forall r, r ∈ rs -> r ∉ fl.
Proof. intros [_ _ _ _ Hn Hr _]. apply NoDup_app in Hn as (? & ? & ?). by apply Forall_app in Hr as [? _]. Qed.

Lemma wp_grant_pages domid addrs : forall (s : fst_) rs fl, gnt_ok (fe_gnt s) (rs ++ fl) -> length rs = length addrs ->
  wp (grant_pages domid addrs) (fun r s' => r = rs /\ exists g, s' = set_gnt g s /\ gnt_ok g fl /\
    grants g domid rs addrs /\ keeps (fe_gnt s) g rs) s.
Proof.
  induction addrs as [|a addrs IH]; intros s [|r rs] fl Hk Hl; try done; cbn [grant_pages].
  - wp_steps. split; [done|]. exists (fe_gnt s). split; [by destruct s|]. split; [done|]. split; [constructor|done].
  - unfold in_gnt at 1. wp_steps. eapply wp_mono; [by apply (wp_grant_access _ (rs ++ fl) r)|].
    intros x g [-> [Hk1 Ho He Hrm]]. wp_steps.
    eapply wp_mono; [apply (IH _ rs fl); [exact Hk1|by injection Hl]|].
    intros r' s' (-> & g' & -> & Hk' & Hg & [Erm Hkeep]). wp_steps. split; [done|]. exists g'. split; [done|]. split; [done|].
    destruct (gnt_ok_split _ (r :: rs) fl Hk) as ([Hn _]%NoDup_cons & [Hr0 _]%Forall_cons & _). unfold gref, NR_RESERVED_ENTRIES in Hr0.
    split.
    + constructor; [|done]. rewrite Hkeep by (try lia; done). cbn. by rewrite He.
    + split; [cbn in *; congruence|]. intros q Hq [Hqr Hqs]%not_elem_of_cons. rewrite Hkeep by done. cbn. by apply Ho.
Qed.

Lemma wp_end_refs domid refs : forall (s : fst_) fl addrs, gnt_ok (fe_gnt s) fl -> gn_remote (fe_gnt s) = [] ->
  NoDup refs -> Forall gref refs -> (forall r, r ∈ refs -> r ∉ fl) -> grants (fe_gnt s) domid refs addrs ->
  wp (end_refs refs) (fun xs s' => xs = replicate (length refs) 1 /\ exists g, s' = set_gnt g s /\
    gnt_ok g (rev refs ++ fl) /\ keeps (fe_gnt s) g refs) s.
Proof using idle_flags.
  induction refs as [|r refs IH]; intros s fl addrs Hk Hrem Hn Hr Hd Hg; cbn [end_refs].
  - wp_steps. split; [done|]. exists (fe_gnt s). split; [by destruct s|done].
  - apply NoDup_cons in Hn as [Hnr Hn]. apply Forall_cons in Hr as [Hr0 Hr].
    inversion Hg as [|? a ? addrs' Er Hg']; subst.
    unfold in_gnt at 1. wp_steps. eapply wp_mono.
    { apply (wp_end_access _ fl r Hk Hr0); [apply Hd; by left|]. rewrite Hrem. cbn. lia. }
    intros x g Hep. pose proof Hep as [Ho Hb _]. destruct (end_idle _ _ _ _ _ Hep Hrem) as [Hrem1 Ex]. rewrite Er in Ex. cbn [ge_flags grant_of] in Ex.
    rewrite idle_flags in Ex. destruct Ex as [-> Hk1]. wp_steps.
    eapply wp_mono; [apply (IH (set_gnt g s) (r :: fl) addrs')|].
    + done.
    + done.
    + done.
    + done.
    + intros q Hq. apply not_elem_of_cons. split; [by intros ->|]. apply Hd. by right.
    + cbn. assert (Hp : Forall (fun q => 0 <= q) refs) by (by eapply gref_nonneg).
      apply (grants_keep (fe_gnt s) g domid refs addrs' [r]); [done|done|by intros q Hq ->%list_elem_of_singleton|].
      split; [congruence|]. intros q Hq Hqr%not_elem_of_cons. by apply Ho; destruct Hqr.
    + intros xs s' (-> & g' & -> & Hk' & [Erm Hkeep]). wp_steps. split; [done|]. exists g'. split; [done|]. split.
      * cbn [rev]. by rewrite <- app_assoc.
      * split; [cbn in *; congruence|]. intros q Hq [Hqr Hqs]%not_elem_of_cons. rewrite Hkeep by done. by apply Ho.
Qed.

(** ** A whole ring *)
Definition DATA_PAGES : Z := 1152.
Lemma data_pages : NETDOM_RING_DATA_PAGES = DATA_PAGES.
Proof. reflexivity. Qed.
Lemma ring_order : gntmap_map2order (6 + NETDOM_RING_DATA_PAGES) = 11.
Proof. reflexivity. Qed.
Lemma length_pages_from a n : 0 <= n -> length (pages_from a n) = Z.to_nat n.
Proof. intros. unfold pages_from. by rewrite length_map, length_seqZ. Qed.

(** The pages of a ring, in the order they are granted. *)
Definition ring_pages (grefs fring : Z) : list Z :=
  pages_from grefs 2 ++ pages_from (NETDOM_ARING fring) 3 ++ pages_from fring 3 ++ pages_from (NETDOM_BUF fring) DATA_PAGES.
Definition RING_REFS : nat := Z.to_nat (8 + DATA_PAGES).

Lemma elem_of_rev (l : list Z) r : r ∈ rev l <-> r ∈ l.
Proof. by rewrite <- (Permutation_rev l). Qed.
Lemma zoom_run {St Pt A} (get : St -> Pt) put (m : M Pt A) s a p : m (get s) = Done (a, p) -> zoom get put m s = Done (a, put p s).
Proof. unfold zoom. by intros ->. Qed.

Section Ring.
Variables (s : fst_) (fl : list Z) (domid : Z) (ring_mem : lfring) (slot_mem : list netslot).
Hypothesis Hpa : pa_inv (fe_pg s).
Hypothesis Hgnt : gnt_ok (fe_gnt s) fl.
Hypothesis Hfree : (RING_REFS <= length fl)%nat.
Hypothesis Hidle : gn_remote (fe_gnt s) = [].
Hypothesis Hring : Z.of_nat (length (rg_array ring_mem)) = 1024.
Hypothesis Hslots : Z.of_nat (length slot_mem) = NETDOM_RING_SIZE.
Hypothesis Hroom : forall i sl, slot_mem !! i = Some sl -> Z.of_nat (length (sl_data sl)) = SLOT_ROOM.

Record ring_made (grefs : Z) (result : list Z) (fring : Z) (s' : fst_) : Prop := {
  rm_free : gnt_ok (fe_gnt s') (drop RING_REFS fl);
  rm_grants : grants (fe_gnt s') domid (take RING_REFS fl) (ring_pages grefs fring);
  rm_chan : exists c f u, fe_rings s' !! fring = Some c /\ chan_rep c [] f u;
  rm_refs : exists ag fg bg, fe_grefs s' !! grefs = Some (FGrefs [] ag fg bg) /\ take RING_REFS fl = result ++ ag ++ fg ++ bg /\
    length result = 2%nat /\ length ag = 3%nat /\ length fg = 3%nat /\ length bg = Z.to_nat DATA_PAGES;
  rm_idle : gn_remote (fe_gnt s') = []
}.

(** The references of a ring, part by part. *)
Lemma split_refs : exists r1 r2 r3 r4, take RING_REFS fl = r1 ++ r2 ++ r3 ++ r4 /\ fl = r1 ++ r2 ++ r3 ++ r4 ++ drop RING_REFS fl /\
  length r1 = 2%nat /\ length r2 = 3%nat /\ length r3 = 3%nat /\ length r4 = Z.to_nat DATA_PAGES.
Proof using Hfree.
  set (l := take RING_REFS fl). assert (Hl : length l = RING_REFS) by (unfold l; rewrite length_take; clear -Hfree; lia).
  assert (El : l = take 2 l ++ take 3 (drop 2 l) ++ take 3 (drop 5 l) ++ drop 8 l).
  { rewrite <- (take_drop 2 l) at 1. f_equal. rewrite <- (take_drop 3 (drop 2 l)) at 1. f_equal. rewrite drop_drop.
    rewrite <- (take_drop 3 (drop (2 + 3) l)) at 1. f_equal. by rewrite drop_drop. }
  exists (take 2 l), (take 3 (drop 2 l)), (take 3 (drop 5 l)), (drop 8 l). split; [done|]. split.
  { rewrite <- (take_drop RING_REFS fl) at 1. fold l. rewrite El at 1. by rewrite <- !app_assoc. }
  unfold RING_REFS, DATA_PAGES in Hl |- *. rewrite !length_take, !length_drop, Hl. change (Z.to_nat (8 + 1152)) with (8 + Z.to_nat 1152)%nat. clear; lia.
Qed.

Lemma wp_fill_ring grefs r1 r2 r3 r4 (s1 : fst_) fring :
  fl = r1 ++ r2 ++ r3 ++ r4 ++ drop RING_REFS fl -> take RING_REFS fl = r1 ++ r2 ++ r3 ++ r4 ->
  length r1 = 2%nat -> length r2 = 3%nat -> length r3 = 3%nat -> length r4 = Z.to_nat DATA_PAGES ->
  gnt_ok (fe_gnt s1) (r2 ++ r3 ++ r4 ++ drop RING_REFS fl) -> grants (fe_gnt s1) domid r1 (pages_from grefs 2) ->
  gn_remote (fe_gnt s1) = [] ->
  wp (agrefs <-- grant_pages domid (pages_from (NETDOM_ARING fring) 3) ;;
      fgrefs <-- grant_pages domid (pages_from fring 3) ;;
      rings <-- (fun s => match lfring_init_empty NETDOM_RING_ORDER ring_mem, lfring_init_full NETDOM_RING_ORDER ring_mem with
                      | Done (_, a), Done (_, f) => Done ((a, f), s)
                      | Halted w, _ | _, Halted w => Halted w
                      | _, _ => NoFuel end) ;;
      modify (fun s => set_rings (<[fring := Channel true (snd rings) (fst rings) 0 slot_mem 0]> (fe_rings s)) s) ;;;
      bgrefs <-- grant_pages domid (pages_from (NETDOM_BUF fring) NETDOM_RING_DATA_PAGES) ;;
      modify (fun s => set_grefs (<[grefs := FGrefs [] agrefs fgrefs bgrefs]> (fe_grefs s)) s) ;;;
      cret (grefs, r1, fring))
    (fun '(g, r, f) s' => g = grefs /\ r = r1 /\ f = fring /\ ring_made grefs r1 fring s') s1.
Proof using All.
  intros Efl Et L1 L2 L3 L4 Hk1 Hg1 Hid1. pose proof Hgnt as Hn. rewrite Efl in Hn.
  assert (Hd : NoDup (r1 ++ r2 ++ r3 ++ r4)).
  { destruct Hn as [_ _ _ _ Hn _ _]. rewrite !app_assoc in Hn. apply NoDup_app in Hn as [Hn _]. by rewrite <- !app_assoc in Hn. }
  assert (Hp : Forall (fun r => 0 <= r) (r1 ++ r2 ++ r3 ++ r4)).
  { destruct Hn as [_ _ _ _ _ Hr _]. rewrite !app_assoc in Hr. apply Forall_app in Hr as [Hr _]. rewrite <- !app_assoc in Hr. by eapply gref_nonneg. }
  apply NoDup_app in Hd as (_ & D1 & [_ [D2 [_ [D3 _]]%NoDup_app]]%NoDup_app).
  rewrite !Forall_app in Hp. destruct Hp as (P1 & P2 & P3 & P4).
  wp_steps. eapply wp_mono; [apply (wp_grant_pages _ _ s1 r2); [exact Hk1|by rewrite length_pages_from]|].
  intros ag s2 (-> & g2 & -> & Hk2 & Hg2 & Hkp2). wp_steps.
  eapply wp_mono; [apply (wp_grant_pages _ _ (set_gnt g2 s1) r3); [exact Hk2|by rewrite length_pages_from]|].
  intros fg s3 (-> & g3 & -> & Hk3 & Hg3 & Hkp3). cbn [fe_gnt set_gnt] in *. wp_steps.
  destruct (wp_run _ _ _ (wp_init_empty _ order_ok ring_mem Hring)) as ([] & a & Ea & Ha).
  destruct (wp_run _ _ _ (wp_init_full _ order_ok ring_mem ltac:(done) Hring)) as ([] & f & Ef & Hf).
  unfold wp at 1. rewrite Ea, Ef. wp_steps. rewrite data_pages.
  eapply wp_mono; [apply (wp_grant_pages _ _ _ r4); [exact Hk3|by rewrite length_pages_from, L4]|].
  intros bg s4 (-> & g4 & -> & Hk4 & Hg4 & Hkp4). cbn [fe_gnt set_gnt set_rings] in *. wp_steps.
  split_and!; try done. split; cbn [fe_gnt fe_grefs fe_rings set_gnt set_rings set_grefs]; [done| | | |].
  - rewrite Et. unfold ring_pages, grants. repeat apply Forall2_app.
    + eapply (grants_keep g3 g4 _ _ _ r4); [|done|intros r Hr ?; apply (D1 r Hr); set_solver|done].
      eapply (grants_keep g2 g3 _ _ _ r3); [|done|intros r Hr ?; apply (D1 r Hr); set_solver|done].
      eapply (grants_keep _ g2 _ _ _ r2); [done|done|intros r Hr ?; apply (D1 r Hr); set_solver|done].
    + eapply (grants_keep g3 g4 _ _ _ r4); [|done|intros r Hr ?; apply (D2 r Hr); set_solver|done].
      eapply (grants_keep g2 g3 _ _ _ r3); [done|done|intros r Hr ?; apply (D2 r Hr); set_solver|done].
    + eapply (grants_keep g3 g4 _ _ _ r4); [done|done|done|done].
    + done.
  - exists (Channel true f a 0 slot_mem 0), (full_indices NETDOM_RING_ORDER), []. split; [by rewrite lookup_insert_eq|].
    split; try done. rewrite app_nil_r. by apply (full_indices_perm _ order_ok).
  - exists r2, r3, r4. split; [by rewrite lookup_insert_eq|]. by split_and!.
  - destruct Hkp2 as [E2 _], Hkp3 as [E3 _], Hkp4 as [E4 _]. congruence.
Qed.

(** Part way through: [d] revoked, [t] still granted. *)
Definition all_refs : list Z := take RING_REFS fl.
Record ending (gr : gmap Z frontend_grefs) (d t : list Z) (q : fst_) : Prop := {
  eg_split : d ++ t = all_refs;
  eg_page : fe_grefs q = gr;
  eg_ok : gnt_ok (fe_gnt q) (rev d ++ drop RING_REFS fl);
  eg_idle : gn_remote (fe_gnt q) = [];
  eg_grants : exists addrs, grants (fe_gnt q) domid t addrs
}.
Lemma all_refs_ok : NoDup all_refs /\ Forall gref all_refs /\ forall r, r ∈ all_refs -> r ∉ drop RING_REFS fl.
Proof using All. apply (gnt_ok_split (fe_gnt s)). unfold all_refs. by rewrite take_drop. Qed.

Lemma wp_ending gr d l t q : ending gr d (l ++ t) q ->
  wp (end_refs l) (fun xs q' => xs = replicate (length l) 1 /\ ending gr (d ++ l) t q') q.
Proof using All.
  intros [Es Ep Hk Hid [addrs Hg]]. destruct all_refs_ok as (Hnd & Hr & Hdis). rewrite <- Es in Hnd, Hr, Hdis.
  apply NoDup_app in Hnd as (_ & D1 & (N2 & D2 & N3)%NoDup_app). rewrite !Forall_app in Hr. destruct Hr as (_ & R2 & R3).
  apply Forall2_app_inv_l in Hg as (a1 & a2 & Hg1 & Hg2 & _).
  eapply wp_mono; [apply (wp_end_refs domid l q _ a1 Hk Hid N2 R2); [|done]|].
  - intros r Hl [Hd|Hd]%elem_of_app; [rewrite elem_of_rev in Hd; apply (D1 r Hd), elem_of_app; by left|].
    apply (Hdis r); [|done]. apply elem_of_app; right. apply elem_of_app. by left.
  - intros xs q' (-> & g & -> & Hk' & Hkp). split; [done|]. split; cbn [fe_gnt fe_grefs set_gnt].
    + by rewrite <- app_assoc.
    + done.
    + by rewrite rev_app_distr, <- app_assoc.
    + destruct Hkp; congruence.
    + exists a2. eapply (grants_keep _ g _ _ _ l Hg2); [by eapply gref_nonneg| |done]. intros r Ht Hl. by apply (D2 r).
Qed.
Lemma wp_ending_one gr d r t q : ending gr d (r :: t) q ->
  wp (in_gnt (gnttab_end_access r)) (fun x q' => x = 1 /\ ending gr (d ++ [r]) t q') q.
Proof using All.
  intros He. pose proof (wp_ending gr d [r] t q He) as Hw. cbn [end_refs] in Hw. apply wp_bind_inv in Hw.
  eapply wp_mono; [exact Hw|]. intros x q' H. apply wp_bind_inv in H. destruct H as [[= ->] H]. done.
Qed.

Lemma wp_terminate_ring grefs result fring s' : ring_made grefs result fring s' ->
  wp (frontend_terminate_ring grefs result) (fun res s'' => res = [1; nth 1 result 0] /\
    exists fl', gnt_ok (fe_gnt s'') fl' /\ fl' ≡ₚ fl) s'.
Proof using All.
  intros [Hk Hg _ (ag & fg & bg & Hgr & Et & L1 & L2 & L3 & L4) Hid].
  destruct result as [|x [|y [|]]]; try done. cbn [app] in Et.
  assert (H0 : ending (fe_grefs s') [] (x :: y :: ag ++ fg ++ bg) s').
  { split; try done. rewrite <- Et. by eexists. }
  unfold frontend_terminate_ring. wp_steps. eapply wp_opt; [done|]. wp_steps.
  eapply wp_mono; [apply (wp_ending_one _ _ _ _ _ H0)|]. intros z s1 [-> H1]. wp_steps. eapply wp_opt; [done|]. wp_steps.
  eapply wp_mono; [apply (wp_ending_one _ _ _ _ _ H1)|]. intros z s2 [-> H2]. wp_steps.
  rewrite (eg_page _ _ _ _ H2). eapply wp_opt; [exact Hgr|]. cbn [aring_grefs fring_grefs buf_grefs]. wp_steps.
  eapply wp_mono; [apply (wp_ending _ _ _ _ _ H2)|]. intros xs s3 [_ H3]. wp_steps.
  eapply wp_mono; [apply (wp_ending _ _ _ _ _ H3)|]. intros ys s4 [_ H4]. wp_steps.
  rewrite data_pages, <- L4, firstn_all. rewrite <- (app_nil_r bg) in H4.
  eapply wp_mono; [apply (wp_ending _ _ _ _ _ H4)|]. intros zs s5 [_ H5]. wp_steps. split; [done|].
  exists (rev ((((([] ++ [x]) ++ [y]) ++ ag) ++ fg) ++ bg) ++ drop RING_REFS fl). split; [apply H5|].
  pose proof (eg_split _ _ _ _ H5) as E5. rewrite app_nil_r in E5. rewrite E5.
  rewrite <- (Permutation_rev all_refs). unfold all_refs. by rewrite take_drop.
Qed.

(** C33. Setting up a ring and tearing it down.  With [RING_REFS] references free,
    [frontend_init_ring] returns or stops with one of its two out-of-memory
    messages, and only when the page allocator had nothing; it then has granted exactly the ring's pages to the network
    server, each under its own reference and each entry complete, the rings
    represent an empty channel with all slots free, and no other reference was
    touched.  If the other side has let go of the pages,
    [frontend_terminate_ring] revokes every one of them and all references are
    free again. *)
Theorem frontend_ring_roundtrip :
  match frontend_init_ring domid ring_mem slot_mem s with
  | Done ((grefs, result, fring), s') =>
      ring_made grefs result fring s' /\
      wp (frontend_terminate_ring grefs result) (fun res s'' => res = [1; nth 1 result 0] /\
        exists fl', gnt_ok (fe_gnt s'') fl' /\ fl' ≡ₚ fl) s'
  | Halted w =>
      (w = "grefs shared page not allocated"%string /\ exists p1, pa_alloc 1 (fe_pg s) = Done (0, p1)) \/
      (w = "shared pages are not allocated"%string /\ exists a p1 p2,
         pa_alloc 1 (fe_pg s) = Done (a, p1) /\ pa_alloc 11 p1 = Done (0, p2))
  | NoFuel => False
  end.
Proof using All.
  destruct split_refs as (r1 & r2 & r3 & r4 & Et & Efl & L1 & L2 & L3 & L4).
  unfold frontend_init_ring, in_fpg.
  destruct (wp_run _ _ _ (pa_alloc_ok _ 1 Hpa ltac:(lia))) as (grefs & p1 & E1 & Hp1 & _).
  rewrite (bind_run _ _ _ _ _ (zoom_run _ _ _ _ _ _ E1)).
  destruct (Z.eqb_spec grefs 0) as [->|Hg0]; [left; by eauto|]. rewrite (bind_run (massert (negb false) _) _ _ tt (set_fpg p1 s)) by done.
  pose proof Hgnt as Hk. rewrite Efl in Hk.
  destruct (wp_run _ _ _ (wp_grant_pages domid (pages_from grefs 2) (set_fpg p1 s) r1 _ Hk
    ltac:(by rewrite length_pages_from, L1))) as (r & s1 & Es1 & -> & g1 & -> & Hk1 & Hg1 & [Hrm1 Hkp1]).
  rewrite (bind_run _ _ _ _ _ Es1). rewrite ring_order.
  destruct (wp_run _ _ _ (pa_alloc_ok p1 11 Hp1 ltac:(lia))) as (fring & p2 & E2 & Hp2 & _).
  rewrite (bind_run _ _ _ _ _ (zoom_run fe_pg set_fpg _ (set_gnt g1 (set_fpg p1 s)) _ _ E2)).
  destruct (Z.eqb_spec fring 0) as [->|Hf0]; [right; split; [done|by exists grefs, p1, p2]|]. rewrite (bind_run (massert (negb false) _) _ _ tt (set_fpg p2 (set_gnt g1 (set_fpg p1 s)))) by done.
  destruct (wp_run _ _ _ (wp_fill_ring grefs r1 r2 r3 r4 (set_fpg p2 (set_gnt g1 (set_fpg p1 s))) fring Efl Et L1 L2 L3 L4 Hk1 Hg1
    ltac:(cbn in *; congruence))) as ([[g r] f] & s' & Ew & -> & -> & -> & Hm).
  rewrite Ew. split; [exact Hm|]. by apply (wp_terminate_ring _ _ fring).
Qed.
End Ring.
End FrontendSpec.

(** ** An example

    A page allocator that logs what it handed out and got back, newest first,
    and always hands out new addresses. *)
Definition plog := list (bool * Z * Z).      (* handed out?, address, size *)
Definition in_log (x : Z) (e : bool * Z * Z) : bool := let '(_, a, n) := e in (a <=? x) && (x <? a + n).
Definition log_free (l : plog) (x : Z) : Prop :=
  4096 <= x < 2 ^ 40 /\ match List.find (in_log x) l with Some (true, _, _) => False | _ => True end.
Fixpoint log_end (l : plog) : Z := match l with [] => 4096 | (_, a, n) :: l => Z.max (a + n) (log_end l) end.
Definition log_alloc (k : Z) : M plog Z := fun l =>
  let a := (log_end l / csize k + 1) * csize k in
  if a + csize k <=? 2 ^ 40 then Done (a, (true, a, csize k) :: l) else Done (0, l).
Definition log_release (p k : Z) : M plog unit := fun l => Done (tt, (false, p, csize k) :: l).

Lemma log_end_ge l : 4096 <= log_end l.
Proof. induction l as [|[[b a] n] l IH]; cbn; lia. Qed.
Lemma find_beyond l x : log_end l <= x -> List.find (in_log x) l = None.
Proof.
  induction l as [|[[b a] n] l IH]; [done|]. cbn. intros Hx. destruct (Z.leb_spec a x), (Z.ltb_spec x (a + n)); cbn; try lia; apply IH; lia.
Qed.
#[local, refine] Instance log_allocator : PageAllocator plog := {|
  pa_alloc := log_alloc; pa_release := log_release; pa_inv := fun _ => True;
  pa_lo := fun _ => 4096; pa_hi := fun _ => 2 ^ 40; pa_free := log_free |}.
Proof.
  - intros _ _. lia.
  - intros l k _ Hk. pose proof (csize_pos k ltac:(lia)) as Hc. pose proof (log_end_ge l) as He.
    pose proof (Z.mul_succ_div_gt (log_end l) (csize k) Hc) as Hgt. unfold log_alloc, wp. set (a := (log_end l / csize k + 1) * csize k).
    assert (Ha : log_end l < a) by (unfold a; lia).
    destruct (Z.leb_spec (a + csize k) (2 ^ 40)); [|by split_and!; [..|left]]. split_and!; try done. right.
    split_and!; [lia|by exists (log_end l / csize k + 1)|lia|lia| |].
    + intros x Hx. unfold in_block in Hx. split; [lia|]. by rewrite find_beyond by lia.
    + intros x. unfold log_free, in_block. cbn. destruct (Z.leb_spec a x), (Z.ltb_spec x (a + csize k)); cbn; intuition lia.
  - intros l k p _ Hk _ Hlo Hhi _. unfold log_release, wp. split_and!; try done. pose proof (csize_pos k Hk) as Hc.
    intros x. unfold log_free, in_block. cbn. destruct (Z.leb_spec p x), (Z.ltb_spec x (p + csize k)); cbn; intuition lia.
Defined.

#[local] Instance xen_grant : XenGrant :=
  {| sizeof_grant_entry := 8; GTF_permit_access := 1; GTF_accept_transfer := 2; GTF_readonly := 4;
     GTF_reading := 8; GTF_writing := 16; GTF_transfer_committed := 4; GTF_transfer_completed := 8 |}.
Definition slots_example : list netslot := replicate (Z.to_nat NETDOM_RING_SIZE) (NetSlot 0 (replicate (Z.to_nat SLOT_ROOM) 0)).

Lemma frontend_ring_roundtrip_witness : exists s grefs result fring s' s'',
  frontend_init_ring 5 (MkRing 0 0 0 (replicate 1024 0)) slots_example s = Done ((grefs, result, fring), s') /\
  frontend_terminate_ring grefs result s' = Done ([1; nth 1 result 0], s'').
Proof.
  assert (Hlen : Z.of_nat (length (replicate 4096 (MkGrant 0 0 0))) = NR_GRANT_ENTRIES) by (by rewrite length_replicate).
  assert (Hsz : 0 < sizeof_grant_entry <= BMK_PCPU_PAGE_SIZE) by (cbn; unfold BMK_PCPU_PAGE_SIZE; split; reflexivity || discriminate).
  destruct (wp_run _ _ _ (wp_init_gnttab Hsz (fun _ _ => 0) _ 0 (fun _ _ => eq_refl) Hlen)) as ([] & g & _ & fl & Hk & Hid & Hin).
  assert (Hfree : (RING_REFS <= length fl)%nat).
  { transitivity (length (seqZ 8 1160)); [by rewrite length_seqZ|]. apply submseteq_length, NoDup_submseteq; [apply NoDup_seqZ|].
    intros r Hr%elem_of_seqZ. apply Hin. unfold gref, NR_RESERVED_ENTRIES. change NR_GRANT_ENTRIES with 4096. lia. }
  assert (Hroom : forall i sl, slots_example !! i = Some sl -> Z.of_nat (length (sl_data sl)) = SLOT_ROOM).
  { intros i sl [-> _]%lookup_replicate. cbn [sl_data]. by rewrite length_replicate, Z2Nat.id. }
  assert (Hslots : Z.of_nat (length slots_example) = NETDOM_RING_SIZE) by (unfold slots_example; by rewrite length_replicate, Z2Nat.id).
  pose proof (frontend_ring_roundtrip eq_refl (Frontend ([] : plog) g ∅ ∅) fl 5 (MkRing 0 0 0 (replicate 1024 0)) slots_example
    I Hk Hfree Hid eq_refl Hslots Hroom) as Hth.
  destruct (frontend_init_ring 5 _ slots_example _) as [[[[grefs result] fring] s']|w|] eqn:E.
  - destruct Hth as [_ Hw]. destruct (wp_run _ _ _ Hw) as (res & s'' & E' & -> & _).
    exists (Frontend ([] : plog) g ∅ ∅), grefs, result, fring, s', s''. split; [exact E|exact E'].
  - destruct Hth as [[_ [p1 E1]]|[_ (a & p1 & p2 & E1 & E2)]]; cbn in E1; [discriminate E1|].
    injection E1 as <- <-. cbn in E2. discriminate E2.
  - destruct Hth.
Defined.
