(* ===== verification/Hello.v ===== *)
(** * The reconnection and mode-switch threads (platform/hw/xen/frontend.c)

    [frontend_reconnecter] and [frontend_switcher] sleep until an event handler
    ([frontend_hello_handler], [frontend_switch_handler]) finds the word they
    share with it at 0.  Both use the same protocol on [reconnecters] and
    [switchers]; the model is one such word, its thread and its handler, in
    every interleaving of their atomic accesses. *)

From S2P Require Import Prelude.

(** The thread's position in its loop. *)
Inductive hpc :=
| HCreated    (* on the run queue since its creation *)
| HWork       (* running, before the store of -1 *)
| HArmed      (* the store is done; blocking, the callback has not run *)
| HAsleep     (* switched out for good *)
| HRunnable.  (* woken: on the run queue *)
Record hello := Hello {
  h_word : Z;                  (* reconnecters, switchers *)
  h_pc : hpc;
  h_runq : Z;                  (* times on the run queue *)
  h_events : Z;                (* events handled so far *)
  h_served : Z                 (* times the thread has started its work after a wake-up *)
}.
Inductive hact := HEvent | HThread.

Definition h_wake (s : hello) : hello :=
  Hello (h_word s) (match h_pc s with HAsleep => HRunnable | pc => pc end) (h_runq s + 1) (h_events s) (h_served s).
(** [frontend_hello_handler] and [frontend_switch_handler]. *)
Definition hello_handler (s : hello) : hello :=
  let old := h_word s in
  let s := Hello 1 (h_pc s) (h_runq s) (h_events s + 1) (h_served s) in
  if old =? 0 then h_wake s else s.
(** [reconnect_callback] and [switch_callback], run once the thread is off its stack. *)
Definition hello_callback (s : hello) : hello :=
  let s := Hello (h_word s) HAsleep (h_runq s) (h_events s) (h_served s) in
  if h_word s =? -1 then Hello 0 (h_pc s) (h_runq s) (h_events s) (h_served s) else h_wake s.
(** The next step of the thread's loop. *)
Definition hello_thread (s : hello) : option hello :=
  match h_pc s with
  | HCreated => Some (Hello (h_word s) HWork (h_runq s - 1) (h_events s) (h_served s))
  | HWork => Some (Hello (-1) HArmed (h_runq s) (h_events s) (h_served s))
  | HArmed => Some (hello_callback s)
  | HAsleep => None
  | HRunnable => Some (Hello (h_word s) HWork (h_runq s - 1) (h_events s) (h_served s + 1))
  end.
Definition h_step (a : hact) (s : hello) : option hello :=
  match a with HEvent => Some (hello_handler s) | HThread => hello_thread s end.

(** [atomic_init(&reconnecters, 1)] and the thread's creation. *)
Definition h_start : hello := Hello 1 HCreated 1 0 0.
Inductive h_reach : hello -> Prop :=
| h_init : h_reach h_start
| h_next a s s' : h_reach s -> h_step a s = Some s' -> h_reach s'.

(** * The reconnection thread is woken once, but an event can be lost *)


Definition h_inv (s : hello) : Prop :=
  match h_pc s with
  | HCreated => h_runq s = 1 /\ h_word s = 1
  | HWork => h_runq s = 0
  | HArmed => h_runq s = 0 /\ (h_word s = -1 \/ h_word s = 1)
  | HAsleep => h_runq s = 0 /\ h_word s = 0
  | HRunnable => h_runq s = 1 /\ h_word s = 1
  end /\ (h_pc s = HWork -> h_word s = 1).

Lemma h_inv_step a s s' : h_inv s -> h_step a s = Some s' -> h_inv s'.
Proof.
  destruct s as [w pc q e v]. unfold h_inv, h_step, hello_thread, hello_handler, hello_callback, h_wake. cbn.
  destruct a, pc; cbn; intros [H1 H2] E; simplify_eq; cbn; zcases; cbn; intuition (try congruence; try lia).
Qed.
Lemma h_reach_inv s : h_reach s -> h_inv s.
Proof. induction 1; [done|by eapply h_inv_step]. Qed.

(** The thread is never put on the run queue twice, and when it sleeps the
    word is 0, so that the next event wakes it. *)
Theorem hello_wakes_once s : h_reach s ->
  0 <= h_runq s <= 1 /\ (h_pc s = HAsleep -> h_pc (hello_handler s) = HRunnable /\ h_runq (hello_handler s) = 1).
Proof.
  intros [H1 H2]%h_reach_inv. split; [destruct (h_pc s); lia|]. intros Hpc. rewrite Hpc in H1.
  destruct H1 as [Hq Hw]. unfold hello_handler, h_wake. rewrite Hw, Hpc. cbn. by rewrite Hq.
Qed.
Lemma hello_wakes_once_witness : h_reach (Hello 0 HAsleep 0 0 0) /\
  h_pc (hello_handler (Hello 0 HAsleep 0 0 0)) = HRunnable.
Proof.
  assert (H : h_reach (Hello 0 HAsleep 0 0 0)).
  { apply (h_next HThread (Hello (-1) HArmed 0 0 0)); [|reflexivity].
    apply (h_next HThread (Hello 1 HWork 0 0 0)); [|reflexivity]. apply (h_next HThread h_start); [apply h_init|reflexivity]. }
  split; [done|]. by apply (hello_wakes_once _ H).
Defined.

(** An event that arrives while the thread works leaves no trace: the thread
    overwrites the word before it sleeps again.  Two events are handled, the
    thread's work is started once, and it sleeps. *)
Theorem hello_event_lost : exists s, h_reach s /\ h_events s = 2 /\ h_served s = 1 /\ h_pc s = HAsleep /\ h_word s = 0.
Proof.
  exists (Hello 0 HAsleep 0 2 1). split; [|done].
  apply (h_next HThread (Hello (-1) HArmed 0 2 1)); [|reflexivity].
  apply (h_next HThread (Hello 1 HWork 0 2 1)); [|reflexivity].       (* the word is overwritten *)
  apply (h_next HEvent (Hello 1 HWork 0 1 1)); [|reflexivity].        (* the second event *)
  apply (h_next HThread (Hello 1 HRunnable 1 1 0)); [|reflexivity].   (* the work begins *)
  apply (h_next HEvent (Hello 0 HAsleep 0 0 0)); [|reflexivity].      (* the first event *)
  apply (h_next HThread (Hello (-1) HArmed 0 0 0)); [|reflexivity].
  apply (h_next HThread (Hello 1 HWork 0 0 0)); [|reflexivity].
  apply (h_next HThread h_start); [apply h_init|reflexivity].
Qed.
