(* ===== verification/Jsmn.v ===== *)
(** * The JSON tokenizer (lib/libbmk_core/jsmn.c, include/bmk-core/jsmn.h)

    Built without JSMN_STRICT and JSMN_PARENT_LINKS.  Characters are bytes; the
    source's [char] is signed, so bytes from 128 on compare as negative.
    Accesses outside the text or the token array are faults. *)

From S2P Require Import Prelude.

Inductive jsmntype := JSMN_PRIMITIVE | JSMN_OBJECT | JSMN_ARRAY | JSMN_STRING.
#[export] Instance jsmntype_eq_dec : EqDecision jsmntype.
Proof. solve_decision. Defined.

Definition JSMN_ERROR_NOMEM : Z := -1.
Definition JSMN_ERROR_INVAL : Z := -2.
Definition JSMN_ERROR_PART : Z := -3.

Record jsmntok := Tok { jt_type : jsmntype; jt_start : Z; jt_end : Z; jt_size : Z }.

(** The parser and the token array; [None] is a NULL array. *)
Record jsmn := Jsmn {
  js_pos : Z;                      (* unsigned int *)
  js_toknext : Z;                  (* unsigned int *)
  js_toksuper : Z;                 (* int *)
  js_tokens : option (list jsmntok)
}.
Definition set_pos v p := Jsmn v (js_toknext p) (js_toksuper p) (js_tokens p).
Definition set_next v p := Jsmn (js_pos p) v (js_toksuper p) (js_tokens p).
Definition set_super v p := Jsmn (js_pos p) (js_toknext p) v (js_tokens p).
Definition set_tokens v p := Jsmn (js_pos p) (js_toknext p) (js_toksuper p) (Some v).

Definition jsmn_init (p : jsmn) : jsmn := Jsmn 0 0 (-1) (js_tokens p).

Definition tok_get (i : Z) : M jsmn jsmntok :=
  p <-- mget ;;
  match js_tokens p with
  | None => mhalt "tokens is NULL"
  | Some l => if i <? 0 then mhalt "tokens index" else mopt (l !! Z.to_nat i) "tokens index"
  end.
Definition tok_put (i : Z) (t : jsmntok) : M jsmn unit :=
  tok_get i ;;; modify (fun p => match js_tokens p with
                                 | None => p | Some l => set_tokens (<[Z.to_nat i := t]> l) p end).
Definition open_tok (t : jsmntok) : bool := negb (jt_start t =? -1) && (jt_end t =? -1).

Section Parse.
Variables (js : list Z) (len num_tokens : Z).

Definition js_at (i : Z) : M jsmn Z := mopt (js !! Z.to_nat i) "js index".
Definition pos_inc : M jsmn unit := modify (fun p => set_pos (u32 (js_pos p + 1)) p).
Definition pos_dec : M jsmn unit := modify (fun p => set_pos (u32 (js_pos p - 1)) p).
Definition has_tokens (p : jsmn) : bool := match js_tokens p with Some _ => true | None => false end.

(** [pos < len && js[pos] != 0]: the character, if the loop goes on. *)
Definition more : M jsmn (option Z) :=
  p <-- mget ;;
  if js_pos p <? len then c <-- js_at (js_pos p) ;; cret (if c =? 0 then None else Some c) else cret None.

Definition jsmn_alloc_token : M jsmn (option Z) :=
  p <-- mget ;;
  if num_tokens <=? js_toknext p then cret None else
  t <-- tok_get (js_toknext p) ;;
  modify (set_next (u32 (js_toknext p + 1))) ;;;
  tok_put (js_toknext p) (Tok (jt_type t) (-1) (-1) 0) ;;;
  cret (Some (js_toknext p)).
Definition jsmn_fill_token (i : Z) (type : jsmntype) (start end_ : Z) : M jsmn unit :=
  tok_put i (Tok type start end_ 0).

(** Colon, tab, CR, LF, space, comma and closing brackets end a primitive. *)
Definition prim_end (c : Z) : bool := existsb (Z.eqb c) [58; 9; 13; 10; 32; 44; 93; 125].

Definition jsmn_parse_primitive : M jsmn Z :=
  start <-- gets js_pos ;;
  ok <-- loopM (fun (_ : unit) =>
    m <-- more ;;
    match m with
    | None => cret (inr true)
    | Some c =>
        if prim_end c then cret (inr true)
        else if (c <? 32) || (127 <=? c) then cret (inr false)
        else pos_inc ;;; cret (inl tt)
    end) tt ;;
  if negb (ok : bool) then modify (set_pos start) ;;; cret JSMN_ERROR_INVAL else
  p <-- mget ;;
  if negb (has_tokens p) then pos_dec ;;; cret 0 else
  t <-- jsmn_alloc_token ;;
  match t with
  | None => modify (set_pos start) ;;; cret JSMN_ERROR_NOMEM
  | Some i => p <-- mget ;; jsmn_fill_token i JSMN_PRIMITIVE (s32 start) (s32 (js_pos p)) ;;; pos_dec ;;; cret 0
  end.

Definition is_hex (c : Z) : bool :=
  ((48 <=? c) && (c <=? 57)) || ((65 <=? c) && (c <=? 70)) || ((97 <=? c) && (c <=? 102)).
(** The escapes of one character: quote, slash, backslash, b f r n t. *)
Definition simple_escape (c : Z) : bool := existsb (Z.eqb c) [34; 47; 92; 98; 102; 114; 110; 116].

(** The four digits of \uXXXX: false on a wrong one. *)
Definition hex_digits : M jsmn bool :=
  loopM (fun i =>
    if i <? 4 then
      m <-- more ;;
      match m with
      | None => cret (inr true)
      | Some c => if negb (is_hex c) then cret (inr false) else pos_inc ;;; cret (inl (i + 1))
      end
    else cret (inr true)) 0.

Inductive strend := StrClosed | StrBad | StrPart.

Definition jsmn_parse_string : M jsmn Z :=
  start <-- gets js_pos ;;
  pos_inc ;;;
  e <-- loopM (fun (_ : unit) =>
    m <-- more ;;
    match m with
    | None => cret (inr StrPart)
    | Some c =>
        if c =? 34 then cret (inr StrClosed) else
        p <-- mget ;;
        if (c =? 92) && (u32 (js_pos p + 1) <? len) then
          pos_inc ;;;
          p <-- mget ;;
          c <-- js_at (js_pos p) ;;
          if simple_escape c then pos_inc ;;; cret (inl tt)
          else if c =? 117 then
            pos_inc ;;;
            ok <-- hex_digits ;;
            if (ok : bool) then pos_dec ;;; pos_inc ;;; cret (inl tt) else cret (inr StrBad)
          else cret (inr StrBad)
        else pos_inc ;;; cret (inl tt)
    end) tt ;;
  match e with
  | StrPart => modify (set_pos start) ;;; cret JSMN_ERROR_PART
  | StrBad => modify (set_pos start) ;;; cret JSMN_ERROR_INVAL
  | StrClosed =>
      p <-- mget ;;
      if negb (has_tokens p) then cret 0 else
      t <-- jsmn_alloc_token ;;
      match t with
      | None => modify (set_pos start) ;;; cret JSMN_ERROR_NOMEM
      | Some i => p <-- mget ;; jsmn_fill_token i JSMN_STRING (s32 (start + 1)) (s32 (js_pos p)) ;;; cret 0
      end
  end.

(** [for (; i >= 0; i--)] up to the first token satisfying [f]; -1 if none. *)
Definition scan_down (f : jsmntok -> bool) (i : Z) : M jsmn Z :=
  loopM (fun i => if i <? 0 then cret (inr i) else
    t <-- tok_get i ;; if f t then cret (inr i) else cret (inl (i - 1))) i.

Definition bump_super : M jsmn unit :=
  p <-- mget ;;
  if negb (js_toksuper p =? -1) && has_tokens p then
    t <-- tok_get (js_toksuper p) ;;
    tok_put (js_toksuper p) (Tok (jt_type t) (jt_start t) (jt_end t) (s32 (jt_size t + 1)))
  else cret tt.

Definition is_container (t : jsmntok) : bool := bool_decide (jt_type t = JSMN_ARRAY) || bool_decide (jt_type t = JSMN_OBJECT).

(** An opening bracket: an error code, or none. *)
Definition open_bracket (type : jsmntype) : M jsmn (option Z) :=
  p <-- mget ;;
  if negb (has_tokens p) then cret None else
  t <-- jsmn_alloc_token ;;
  match t with
  | None => cret (Some JSMN_ERROR_NOMEM)
  | Some i =>
      bump_super ;;;
      tk <-- tok_get i ;;
      p <-- mget ;;
      tok_put i (Tok type (s32 (js_pos p)) (jt_end tk) (jt_size tk)) ;;;
      modify (set_super (s32 (js_toknext p - 1))) ;;;
      cret None
  end.

Definition close_bracket (type : jsmntype) : M jsmn (option Z) :=
  p <-- mget ;;
  if negb (has_tokens p) then cret None else
  i <-- scan_down open_tok (s32 (js_toknext p - 1)) ;;
  if i <? 0 then cret (Some JSMN_ERROR_INVAL) else
  t <-- tok_get i ;;
  if negb (bool_decide (jt_type t = type)) then cret (Some JSMN_ERROR_INVAL) else
  modify (set_super (-1)) ;;;
  tok_put i (Tok (jt_type t) (jt_start t) (s32 (js_pos p + 1)) (jt_size t)) ;;;
  j <-- scan_down open_tok i ;;
  (if j <? 0 then cret tt else modify (set_super j)) ;;;
  cret None.

Definition comma : M jsmn unit :=
  p <-- mget ;;
  if negb (has_tokens p) then cret tt else
  t <-- tok_get (js_toksuper p) ;;
  if is_container t then cret tt else
  j <-- scan_down (fun t => is_container t && open_tok t) (s32 (js_toknext p - 1)) ;;
  if j <? 0 then cret tt else modify (set_super j).

(** A value that is one token. *)
Definition leaf (m : M jsmn Z) (count : Z) : M jsmn (Z + Z) :=
  r <-- m ;;
  if r <? 0 then cret (inr r) else bump_super ;;; cret (inl (s32 (count + 1))).

(** One character of the main loop. *)
Definition parse_char (c count : Z) : M jsmn (Z + Z) :=
  if (c =? 123) || (c =? 91) then
    r <-- open_bracket (if c =? 123 then JSMN_OBJECT else JSMN_ARRAY) ;;
    cret (match r with Some e => inr e | None => inl (s32 (count + 1)) end)
  else if (c =? 125) || (c =? 93) then
    r <-- close_bracket (if c =? 125 then JSMN_OBJECT else JSMN_ARRAY) ;;
    cret (match r with Some e => inr e | None => inl count end)
  else if c =? 34 then leaf jsmn_parse_string count
  else if existsb (Z.eqb c) [9; 13; 10; 32] then cret (inl count)
  else if c =? 58 then modify (fun p => set_super (s32 (js_toknext p - 1)) p) ;;; cret (inl count)
  else if c =? 44 then comma ;;; cret (inl count)
  else leaf jsmn_parse_primitive count.

Definition parse_body (count : Z) : M jsmn (Z + (Z + Z)) :=
  m <-- more ;;
  match m with
  | None => cret (inr (inl count))
  | Some c =>
      r <-- parse_char c count ;;
      match r with
      | inr e => cret (inr (inr e))
      | inl count => pos_inc ;;; cret (inl count)
      end
  end.

Definition jsmn_parse : M jsmn Z :=
  r <-- loopM parse_body 0 ;;
  match r with
  | inr e => cret e
  | inl count =>
      p <-- mget ;;
      i <-- scan_down open_tok (s32 (js_toknext p - 1)) ;;
      cret (if i <? 0 then count else JSMN_ERROR_PART)
  end.
End Parse.
