(* ===== verification/JsmnThms.v ===== *)
(** * Lemmas on the JSON tokenizer's steps

    What each character of the main loop does to the parser, as weakest
    preconditions over a state with explicit position and token array. *)

From S2P Require Import Prelude Jsmn.

Lemma s32_small x : - 2 ^ 31 <= x < 2 ^ 31 -> s32 x = x.
Proof. intros. unfold s32, swrap. change (2 ^ (32 - 1)) with (2 ^ 31). rewrite Z.mod_small; lia. Qed.
Lemma u32_small x : 0 <= x < 2 ^ 32 -> u32 x = x.
Proof. intros. unfold u32. by rewrite Z.mod_small. Qed.

(** A parser with a token array. *)
Definition st (pos next sup : Z) (T : list jsmntok) : jsmn := Jsmn pos next sup (Some T).

Section Tokens.
Context (pos next sup : Z) (T : list jsmntok).

Lemma wp_tok_get i t Q : 0 <= i -> T !! Z.to_nat i = Some t ->
  Q t (st pos next sup T) -> wp (tok_get i) Q (st pos next sup T).
Proof.
  intros Hi Ht HQ. unfold tok_get. wp_steps. cbn [js_tokens st].
  destruct (Z.ltb_spec i 0); [lia|]. by eapply wp_opt.
Qed.
Lemma wp_tok_put i t Q : 0 <= i < Z.of_nat (length T) ->
  Q tt (st pos next sup (<[Z.to_nat i := t]> T)) -> wp (tok_put i t) Q (st pos next sup T).
Proof.
  intros Hi HQ. unfold tok_put. wp_step.
  destruct (lookup_lt_is_Some_2 T (Z.to_nat i) ltac:(lia)) as [t' Ht'].
  eapply wp_tok_get; [lia|done|]. by wp_step.
Qed.
End Tokens.

(** The index of the last token satisfying [f], or -1. *)
Fixpoint last_idx (f : jsmntok -> bool) (T : list jsmntok) : Z :=
  match T with
  | [] => -1
  | t :: T => if last_idx f T =? -1 then (if f t then 0 else -1) else 1 + last_idx f T
  end.

Lemma last_idx_range f T : -1 <= last_idx f T < Z.of_nat (length T).
Proof. induction T as [|t T IH]; simpl; [lia|]. destruct (last_idx f T =? -1) eqn:E; [destruct (f t)|]; lia. Qed.
Lemma last_idx_app f T U :
  last_idx f (T ++ U) = if last_idx f U =? -1 then last_idx f T else Z.of_nat (length T) + last_idx f U.
Proof.
  induction T as [|t T IH]; simpl.
  - destruct (Z.eqb_spec (last_idx f U) (-1)); lia.
  - rewrite IH. pose proof (last_idx_range f U).
    destruct (Z.eqb_spec (last_idx f U) (-1)); [done|].
    destruct (Z.eqb_spec (Z.of_nat (length T) + last_idx f U) (-1)); lia.
Qed.
Lemma last_idx_none f T : Forall (fun t => f t = false) T -> last_idx f T = -1.
Proof. induction 1 as [|t T Ht _ IH]; simpl; [done|]. by rewrite IH, Ht. Qed.
Lemma last_idx_last f T t U : f t = true -> Forall (fun t => f t = false) U ->
  last_idx f (T ++ t :: U) = Z.of_nat (length T).
Proof. intros Ht HU. rewrite last_idx_app. simpl. rewrite last_idx_none, Ht by done. simpl. lia. Qed.
Lemma last_idx_insert f T i t t' : T !! i = Some t -> f t' = f t ->
  last_idx f (<[i := t']> T) = last_idx f T.
Proof.
  revert i. induction T as [|u T IH]; intros i Hi Hf; [done|]. destruct i as [|i]; simpl in *.
  - simplify_eq. by rewrite Hf.
  - by rewrite (IH i).
Qed.

(** Scanning down from the last of the first [n] tokens. *)
Lemma wp_scan_down f pos next sup U R Q i : i = Z.of_nat (length U) - 1 -> i < 2 ^ 32 ->
  Q (last_idx f U) (st pos next sup (U ++ R)) ->
  wp (scan_down f i) Q (st pos next sup (U ++ R)).
Proof.
  intros -> Hlen HQ. unfold scan_down.
  apply (wp_loop _ (fun i s => s = st pos next sup (U ++ R) /\ -1 <= i < Z.of_nat (length U) /\
                      last_idx f (take (Z.to_nat (i + 1)) U) = last_idx f U)
           (fun i _ => i + 1)); [| |lia].
  - intros i s (-> & Hi & HL). split; [lia|]. destruct (Z.ltb_spec i 0).
    { assert (i = -1) as -> by lia. wp_step. simpl in HL. by rewrite HL. }
    destruct (lookup_lt_is_Some_2 U (Z.to_nat i) ltac:(lia)) as [t Ht].
    wp_step. eapply wp_tok_get; [lia| |].
    { rewrite lookup_app_l; [done|lia]. }
    replace (Z.to_nat (i + 1)) with (S (Z.to_nat i)) in HL by lia.
    rewrite (take_S_r U (Z.to_nat i) t Ht), last_idx_app in HL. simpl in HL.
    rewrite length_take in HL.
    destruct (f t); wp_step; simpl in HL.
    + replace (Z.of_nat (Z.to_nat i `min` length U) + 0) with i in HL by lia. by rewrite HL.
    + split_and!; [done|lia..| |lia|lia]. by replace (i - 1 + 1) with i by lia.
  - split_and!; [done|lia..|]. rewrite take_ge; [done|lia].
Qed.

(** ** One character at a time *)
Section Steps.
Context (js : list Z).
Let len : Z := Z.of_nat (length js).

(** The text at an offset. *)
Definition text_at (off : Z) (t : list Z) : Prop :=
  0 <= off /\ off + Z.of_nat (length t) <= len /\
  forall i c, t !! i = Some c -> js !! Z.to_nat (off + Z.of_nat i) = Some c.

Lemma text_at_cons off c t : text_at off (c :: t) <->
  0 <= off < len /\ js !! Z.to_nat off = Some c /\ text_at (off + 1) t.
Proof.
  unfold text_at. simpl. split.
  - intros (H0 & Hl & H). split_and!; try lia.
    + specialize (H 0%nat c eq_refl). by rewrite Z.add_0_r in H.
    + intros i c' Hi. replace (off + 1 + Z.of_nat i) with (off + Z.of_nat (S i)) by lia. by apply H.
  - intros (H0 & Hc & H1 & Hl & H). split_and!; try lia.
    intros [|i] c' Hi; simpl in Hi; simplify_eq; [by rewrite Z.add_0_r|].
    replace (off + Z.of_nat (S i)) with (off + 1 + Z.of_nat i) by lia. by apply H.
Qed.
Lemma text_at_app off t u : text_at off (t ++ u) <->
  text_at off t /\ text_at (off + Z.of_nat (length t)) u.
Proof.
  revert off. induction t as [|c t IH]; intros off; simpl.
  - rewrite Z.add_0_r. split; [|tauto]. intros H. split; [|done].
    destruct H as (? & ? & _). split_and!; simpl; [lia|lia|done].
  - rewrite !text_at_cons, IH. replace (off + 1 + Z.of_nat (length t)) with (off + Z.of_nat (S (length t))) by lia.
    tauto.
Qed.

(** The parser is at a character and the loop goes on. *)
Lemma wp_more s off c Q : js_pos s = off -> 0 <= off < len -> js !! Z.to_nat off = Some c -> c <> 0 ->
  Q (Some c) s -> wp (more js len) Q s.
Proof.
  intros Hp Hoff Hc Hc0 HQ. unfold more. wp_steps. rewrite Hp.
  destruct (Z.ltb_spec off len); [|lia]. wp_step. unfold js_at. eapply wp_opt; [done|].
  wp_step. by destruct (Z.eqb_spec c 0).
Qed.
Lemma wp_more_end s Q : len <= js_pos s -> Q None s -> wp (more js len) Q s.
Proof. intros Hp HQ. unfold more. wp_steps. destruct (Z.ltb_spec (js_pos s) len); [lia|]. by wp_step. Qed.

Context (num : Z).
Hypothesis Hlen : len < 2 ^ 31.
Hypothesis Hnum : 0 <= num < 2 ^ 31.

(** The number of the loop's rounds is bounded by the text. *)
Inductive steps : Z -> jsmn -> Z -> jsmn -> Prop :=
| steps_refl c s : steps c s c s
| steps_step c s c1 s1 c2 s2 :
    wp (parse_body js len num c) (fun r x => r = inl c1 /\ x = s1) s ->
    js_pos s < js_pos s1 -> js_pos s1 <= len -> steps c1 s1 c2 s2 -> steps c s c2 s2.

Lemma steps_trans c s c1 s1 c2 s2 : steps c s c1 s1 -> steps c1 s1 c2 s2 -> steps c s c2 s2.
Proof. induction 1; [done|]. intros. econstructor; eauto. Qed.

Lemma steps_loop c s c' s' Q : 0 <= js_pos s <= len -> steps c s c' s' -> js_pos s' = len ->
  Q (inl c') s' -> wp (loopM (parse_body js len num) c) Q s.
Proof using All.
  intros Hp Hs Hend HQ.
  apply (wp_loop _ (fun c s => js_pos s <= len /\ steps c s c' s') (fun _ s => len - js_pos s)); [|by split; [lia|]|].
  - clear c s Hp Hs. intros c s [Hp Hs]. split; [lia|]. destruct Hs as [c s|c s c1 s1 c2 s2 Hb Hlt Hle Hs].
    + unfold parse_body. wp_step. apply wp_more_end; [lia|]. by wp_step.
    + eapply wp_mono; [exact Hb|]. intros r x [-> ->]. split; [done|]. lia.
  - clear -Hlen Hp. lia.
Qed.

(** One step from what the character's case does. *)
Lemma step_char c s off ch c1 pos next sup T : js_pos s = off -> 0 <= off < len ->
  js !! Z.to_nat off = Some ch -> ch <> 0 -> off <= pos < len ->
  wp (parse_char js len num ch c) (fun r x => r = inl c1 /\ x = st pos next sup T) s ->
  steps c s c1 (st (pos + 1) next sup T).
Proof using All.
  intros Hp Hoff Hch H0 Hpos Hw. eapply steps_step; [| | |apply steps_refl]; cbn [js_pos st]; try lia.
  unfold parse_body. wp_step. eapply wp_more; [exact Hp|done..|]. cbv beta iota. wp_step.
  eapply wp_mono; [exact Hw|]. intros r x [-> ->]. cbv beta iota. unfold pos_inc. wp_steps.
  split; [done|]. unfold set_pos, st. cbn [js_pos js_toknext js_toksuper js_tokens].
  by rewrite u32_small by lia.
Qed.

Definition is_ws (c : Z) : bool := existsb (Z.eqb c) [9; 13; 10; 32].

Lemma steps_ws w c off next sup T : Forall (fun c => is_ws c = true) w -> text_at off w ->
  steps c (st off next sup T) c (st (off + Z.of_nat (length w)) next sup T).
Proof using All.
  intros Hw. revert off. induction Hw as [|ch w Hch Hw IH]; intros off Ht.
  { simpl. rewrite Z.add_0_r. apply steps_refl. }
  apply text_at_cons in Ht as (Hoff & Hc & Ht). simpl length.
  replace (off + Z.of_nat (S (length w))) with (off + 1 + Z.of_nat (length w)) by lia.
  eapply steps_trans; [|by apply IH].
  unfold is_ws in Hch. apply existsb_exists in Hch as (x & Hx & ->%Z.eqb_eq).
  eapply (step_char _ _ off x); [done|done|done| |lia|].
  - simpl in Hx. intuition lia.
  - simpl in Hx. destruct Hx as [<-|[<-|[<-|[<-|[]]]]]; unfold parse_char; cbn; done.
Qed.

Lemma step_colon c off next sup T : text_at off [58] -> 0 <= next < 2 ^ 31 ->
  steps c (st off next sup T) c (st (off + 1) next (next - 1) T).
Proof using All.
  intros Ht Hn. apply text_at_cons in Ht as (Hoff & Hc & _).
  eapply (step_char _ _ off 58); [done|done|done|done|lia|].
  unfold parse_char. simpl (58 =? _). cbv beta iota. cbn [orb existsb]. wp_steps.
  split; [done|]. unfold set_super, st. cbn [js_pos js_toknext js_tokens]. by rewrite s32_small by lia.
Qed.

(** ** Tokens *)
Definition incr (t : jsmntok) : jsmntok := Tok (jt_type t) (jt_start t) (jt_end t) (jt_size t + 1).
(** The parent's size counts a new child. *)
Definition bump (sup : Z) (U : list jsmntok) : list jsmntok :=
  match U !! Z.to_nat sup with
  | Some t => if sup =? -1 then U else <[Z.to_nat sup := incr t]> U
  | None => U
  end.
Definition sup_ok (sup : Z) (U : list jsmntok) : Prop :=
  sup = -1 \/ 0 <= sup /\ exists t, U !! Z.to_nat sup = Some t /\ - 2 ^ 31 <= jt_size t < 2 ^ 31 - 1.

Lemma length_bump sup U : length (bump sup U) = length U.
Proof. unfold bump. destruct (U !! _); [|done]. destruct (sup =? -1); [done|]. apply length_insert. Qed.
Lemma last_idx_bump f sup U : (forall t, f (incr t) = f t) -> last_idx f (bump sup U) = last_idx f U.
Proof.
  intros Hf. unfold bump. destruct (U !! Z.to_nat sup) as [t|] eqn:E; [|done].
  destruct (sup =? -1); [done|]. by eapply last_idx_insert.
Qed.

Lemma wp_bump_super pos next sup U R Q : sup_ok sup U ->
  Q tt (st pos next sup (bump sup U ++ R)) -> wp bump_super Q (st pos next sup (U ++ R)).
Proof.
  intros Hs HQ. unfold bump_super. wp_steps. unfold has_tokens. cbn [js_toksuper js_tokens st].
  unfold bump in HQ. rewrite andb_true_r. destruct Hs as [->|(H0 & t & Ht & Hz)].
  - simpl. wp_step. by destruct (U !! _).
  - destruct (Z.eqb_spec sup (-1)); [lia|]. simpl. rewrite Ht in HQ. pose proof (lookup_lt_Some _ _ _ Ht) as Hl.
    wp_step. eapply wp_tok_get; [done|by rewrite lookup_app_l|].
    apply wp_tok_put; [rewrite length_app; lia|].
    rewrite insert_app_l by done. by rewrite s32_small by lia.
Qed.

Lemma wp_alloc pos next sup U t R Q : next = Z.of_nat (length U) -> next < num ->
  Q (Some next) (st pos (next + 1) sup (U ++ Tok (jt_type t) (-1) (-1) 0 :: R)) ->
  wp (jsmn_alloc_token num) Q (st pos next sup (U ++ t :: R)).
Proof using All.
  intros -> Hn HQ. unfold jsmn_alloc_token. wp_steps. cbn [js_toknext st].
  destruct (Z.leb_spec num (Z.of_nat (length U))); [lia|]. wp_step.
  eapply wp_tok_get; [lia|by rewrite Nat2Z.id, list_lookup_middle|].
  wp_steps. unfold set_next. cbn [js_pos js_toksuper js_tokens st]. rewrite u32_small by lia.
  apply wp_tok_put; [rewrite length_app; simpl; lia|]. wp_step.
  rewrite Nat2Z.id, insert_app_r_alt, Nat.sub_diag by lia. done.
Qed.
Lemma wp_fill_token pos next sup U t R type a b Q i : i = Z.of_nat (length U) ->
  Q tt (st pos next sup (U ++ Tok type a b 0 :: R)) ->
  wp (jsmn_fill_token i type a b) Q (st pos next sup (U ++ t :: R)).
Proof.
  intros -> HQ. apply wp_tok_put; [rewrite length_app; simpl; lia|].
  by rewrite Nat2Z.id, insert_app_r_alt, Nat.sub_diag by lia.
Qed.

(** A value of one token, from the routine that scans it. *)
Lemma wp_leaf m pos sup U tok R next s : next = Z.of_nat (length U) -> next < num -> sup_ok sup U ->
  wp m (fun r x => r = 0 /\ x = st pos (next + 1) sup (U ++ tok :: R)) s ->
  wp (leaf m next) (fun r x => r = inl (next + 1) /\ x = st pos (next + 1) sup (bump sup U ++ tok :: R)) s.
Proof using All.
  intros Hn Hlt Hs Hm. unfold leaf. wp_step. eapply wp_mono; [exact Hm|].
  intros r x [-> ->]. simpl. wp_step. apply wp_bump_super; [done|]. wp_step.
  by rewrite s32_small by lia.
Qed.

(** *** Primitives *)
Definition prim_char (c : Z) : bool := (32 <? c) && (c <? 127) && negb (prim_end c).
(** A primitive ends at [o]. *)
Definition stop (o : Z) : Prop := o = len \/ exists c, 0 <= o < len /\ js !! Z.to_nat o = Some c /\ prim_end c = true.

Lemma prim_end_nonzero c : prim_end c = true -> c <> 0.
Proof. unfold prim_end. intros H ->. discriminate H. Qed.

Definition prims (p : list Z) : Prop := Forall (fun c => prim_char c = true) p.

Lemma wp_primitive_loop off p next sup T Q : prims p -> text_at off p -> stop (off + Z.of_nat (length p)) ->
  Q true (st (off + Z.of_nat (length p)) next sup T) ->
  wp (loopM (fun (_ : unit) =>
    m <-- more js len ;;
    match m with
    | None => cret (inr true)
    | Some c =>
        if prim_end c then cret (inr true)
        else if (c <? 32) || (127 <=? c) then cret (inr false)
        else pos_inc ;;; cret (inl tt)
    end) tt) Q (st off next sup T).
Proof using All.
  intros Hp Ht Hstop HQ. remember (off + Z.of_nat (length p)) as e eqn:Ee.
  apply (wp_loop _ (fun _ s => exists q pos, s = st pos next sup T /\ text_at pos q /\ prims q /\
           pos + Z.of_nat (length q) = e) (fun _ s => len - js_pos s)).
  - intros [] s (q & pos & -> & Hq & Hall & He). pose proof Hq as (H0 & Hq' & _).
    cbn [js_pos st]. split; [lia|]. wp_step. destruct q as [|c q].
    + simpl in He. rewrite Z.add_0_r in He. subst pos. destruct Hstop as [Hl|(c & Hc & Hjs & Hpe)].
      * apply wp_more_end; [cbn [js_pos st]; lia|]. cbv beta iota. by wp_step.
      * eapply wp_more; [reflexivity|exact Hc|exact Hjs|by apply prim_end_nonzero|]. cbv beta iota. rewrite Hpe. by wp_step.
    + apply text_at_cons in Hq as (Hpos & Hjs & Hq). inversion_clear Hall as [|? ? Hc Hall'].
      unfold prim_char in Hc. apply andb_prop in Hc as [[H1 H2]%andb_prop H3%negb_true_iff].
      eapply wp_more; [reflexivity|done|done|lia|]. cbv beta iota. rewrite H3.
      destruct (Z.ltb_spec c 32); [lia|]. destruct (Z.leb_spec 127 c); [lia|]. simpl.
      unfold pos_inc. wp_steps. unfold set_pos. cbn [js_pos st js_toknext js_toksuper js_tokens].
      rewrite u32_small by lia. simpl in He. split; [|lia]. exists q, (pos + 1). split_and!; try done. lia.
  - by exists p, off.
  - cbn [js_pos st]. destruct Ht as (? & _). lia.
Qed.

Lemma wp_primitive off p next sup U t R : prims p -> p <> [] -> text_at off p ->
  stop (off + Z.of_nat (length p)) -> next = Z.of_nat (length U) -> next < num ->
  wp (jsmn_parse_primitive js len num) (fun r x => r = 0 /\
      x = st (off + Z.of_nat (length p) - 1) (next + 1) sup (U ++ Tok JSMN_PRIMITIVE off (off + Z.of_nat (length p)) 0 :: R))
    (st off next sup (U ++ t :: R)).
Proof using All.
  intros Hp Hne Ht Hstop Hn Hlt. unfold jsmn_parse_primitive. wp_steps. cbn [js_pos st].
  apply wp_primitive_loop with (p := p); [done..|]. simpl. wp_steps. cbn [has_tokens js_tokens st negb].
  wp_step. eapply wp_alloc; [done|done|]. cbv beta iota. wp_steps. cbn [js_pos st].
  apply wp_fill_token; [done|]. destruct Ht as (Hoff & Hle & _). rewrite !s32_small by lia.
  unfold pos_dec. wp_steps. split; [done|]. unfold set_pos. cbn [js_pos st js_toknext js_toksuper js_tokens].
  assert (length p <> 0%nat) by (by destruct p). by rewrite u32_small by lia.
Qed.

(** *** Strings *)
Inductive schar := SPlain (c : Z) | SEsc (c : Z) | SHex (ds : list Z).
Definition print_schar (e : schar) : list Z :=
  match e with SPlain c => [c] | SEsc c => [92; c] | SHex ds => 92 :: 117 :: ds end.
Definition schar_ok (e : schar) : bool :=
  match e with
  | SPlain c => negb (existsb (Z.eqb c) [0; 34; 92])
  | SEsc c => simple_escape c
  | SHex ds => (length ds =? 4)%nat && forallb is_hex ds
  end.
Fixpoint print_chars (es : list schar) : list Z :=
  match es with [] => [] | e :: es => print_schar e ++ print_chars es end.

Lemma wp_pos_inc pos next sup T Q : 0 <= pos < len -> Q tt (st (pos + 1) next sup T) ->
  wp pos_inc Q (st pos next sup T).
Proof using All.
  intros Hp HQ. unfold pos_inc. wp_step. unfold set_pos. cbn [js_pos st js_toknext js_toksuper js_tokens].
  by rewrite u32_small by lia.
Qed.

Lemma is_hex_nonzero c : is_hex c = true -> c <> 0.
Proof. intros H ->. discriminate H. Qed.

Lemma wp_hex_digits off ds next sup T Q : length ds = 4%nat -> forallb is_hex ds = true -> text_at off ds ->
  Q true (st (off + 4) next sup T) -> wp (hex_digits js len) Q (st off next sup T).
Proof using All.
  intros Hl Hh Ht HQ. unfold hex_digits.
  apply (wp_loop _ (fun i s => exists q, s = st (off + i) next sup T /\ text_at (off + i) q /\ 0 <= i /\
           forallb is_hex q = true /\ i + Z.of_nat (length q) = 4) (fun i _ => 4 - i)); [| |lia].
  - intros i s (q & -> & Hq & H0 & Hall & He). split; [lia|]. destruct q as [|c q]; simpl in He.
    + assert (i = 4) as -> by lia. simpl. by wp_step.
    + destruct (Z.ltb_spec i 4); [|lia]. apply text_at_cons in Hq as (Hpos & Hjs & Hq).
      simpl in Hall. apply andb_prop in Hall as [Hc Hall]. wp_step.
      eapply wp_more; [reflexivity|done|done|by apply is_hex_nonzero|]. cbv beta iota. rewrite Hc. simpl.
      wp_step. apply wp_pos_inc; [done|]. wp_step. split; [|lia].
      exists q. replace (off + i + 1) with (off + (i + 1)) in * by lia. split_and!; [done|done|lia|done|lia].
  - exists ds. rewrite Z.add_0_r. split_and!; [done|done|lia|done|lia].
Qed.

(** The characters up to the closing quote. *)
Lemma wp_string_loop off es next sup T Q : Forall (fun e => schar_ok e = true) es ->
  text_at off (print_chars es ++ [34]) ->
  Q StrClosed (st (off + Z.of_nat (length (print_chars es))) next sup T) ->
  wp (loopM (fun (_ : unit) =>
    m <-- more js len ;;
    match m with
    | None => cret (inr StrPart)
    | Some c =>
        if c =? 34 then cret (inr StrClosed) else
        p <-- mget ;;
        if (c =? 92) && (u32 (js_pos p + 1) <? len) then
          pos_inc ;;;
          p <-- mget ;;
          c <-- js_at js (js_pos p) ;;
          if simple_escape c then pos_inc ;;; cret (inl tt)
          else if c =? 117 then
            pos_inc ;;;
            ok <-- hex_digits js len ;;
            if (ok : bool) then pos_dec ;;; pos_inc ;;; cret (inl tt) else cret (inr StrBad)
          else cret (inr StrBad)
        else pos_inc ;;; cret (inl tt)
    end) tt) Q (st off next sup T).
Proof using All.
  intros Hall Ht HQ. remember (off + Z.of_nat (length (print_chars es))) as e eqn:Ee.
  apply (wp_loop _ (fun _ s => exists q pos, s = st pos next sup T /\ text_at pos (print_chars q ++ [34]) /\
           Forall (fun e => schar_ok e = true) q /\
           pos + Z.of_nat (length (print_chars q)) = e) (fun _ s => len - js_pos s)).
  - clear off es Hall Ht Ee. intros [] s (q & pos & -> & Hq & Hall & He). pose proof Hq as (H0 & Hq' & _).
    cbn [js_pos st]. split; [lia|]. wp_step. destruct q as [|x q].
    { simpl in He. rewrite Z.add_0_r in He. subst pos. apply text_at_cons in Hq as (Hpos & Hjs & _).
      eapply wp_more; [reflexivity|done|done|done|]. cbv beta iota. simpl. by wp_step. }
    inversion_clear Hall as [|? ? Hx Hall']. cbn [print_chars] in Hq, He.
    rewrite length_app in He. rewrite <- app_assoc in Hq.
    destruct x as [c|c|ds]; simpl in Hq, He, Hx.
    + apply text_at_cons in Hq as (Hpos & Hjs & Hq). rewrite orb_false_r, !negb_orb in Hx.
      apply andb_prop in Hx as [H1%negb_true_iff%Z.eqb_neq [H2%negb_true_iff%Z.eqb_neq H3%negb_true_iff%Z.eqb_neq]%andb_prop].
      eapply wp_more; [reflexivity|done|done|done|]. cbv beta iota.
      destruct (Z.eqb_spec c 34); [done|]. destruct (Z.eqb_spec c 92); [done|]. simpl. wp_steps.
      apply wp_pos_inc; [done|]. wp_step. cbn [js_pos st]. split; [|lia].
      exists q, (pos + 1). split_and!; try done. lia.
    + apply text_at_cons in Hq as (Hpos & Hjs & Hq). apply text_at_cons in Hq as (Hpos' & Hjs' & Hq).
      eapply wp_more; [reflexivity|done|done|done|]. cbv beta iota. simpl (92 =? 34). cbv iota. wp_steps.
      cbn [js_pos st]. rewrite u32_small by lia. destruct (Z.ltb_spec (pos + 1) len); [|lia]. simpl.
      wp_step. apply wp_pos_inc; [done|]. wp_steps. cbn [js_pos st]. unfold js_at. eapply wp_opt; [exact Hjs'|].
      rewrite Hx. wp_step. apply wp_pos_inc; [done|]. wp_step. cbn [js_pos st]. split; [|lia].
      exists q, (pos + 1 + 1). split_and!; try done. rewrite <- He. lia.
    + apply andb_prop in Hx as [Hl%Nat.eqb_eq Hh].
      apply text_at_cons in Hq as (Hpos & Hjs & Hq). apply text_at_cons in Hq as (Hpos' & Hjs' & Hq).
      apply text_at_app in Hq as [Hds Hq]. rewrite Hl in Hq, He.
      eapply wp_more; [reflexivity|done|done|done|]. cbv beta iota. simpl (92 =? 34). cbv iota. wp_steps.
      cbn [js_pos st]. rewrite u32_small by lia. destruct (Z.ltb_spec (pos + 1) len); [|lia]. simpl.
      wp_step. apply wp_pos_inc; [done|]. wp_steps. cbn [js_pos st]. unfold js_at. eapply wp_opt; [exact Hjs'|].
      simpl. wp_step. apply wp_pos_inc; [done|]. wp_step. apply (wp_hex_digits _ ds); [done..|]. cbv beta iota.
      pose proof Hq as (_ & Hq'' & _). rewrite length_app in Hq''. simpl in Hq''.
      wp_step. unfold pos_dec. wp_steps. unfold set_pos. cbn [js_pos st js_toknext js_toksuper js_tokens].
      rewrite u32_small by lia. apply wp_pos_inc; [lia|]. wp_step. cbn [js_pos st]. split; [|lia].
      exists q, (pos + 6). replace (pos + 1 + 1 + 4 - 1 + 1) with (pos + 6) by lia.
      replace (pos + 1 + 1 + Z.of_nat 4) with (pos + 6) in Hq by lia. split_and!; try done. lia.
  - by exists es, off.
  - cbn [js_pos st]. destruct Ht as (? & _). lia.
Qed.

Lemma wp_string off es next sup U t R : Forall (fun e => schar_ok e = true) es ->
  text_at off (34 :: print_chars es ++ [34]) -> next = Z.of_nat (length U) -> next < num ->
  wp (jsmn_parse_string js len num) (fun r x => r = 0 /\
      x = st (off + 1 + Z.of_nat (length (print_chars es))) (next + 1) sup
            (U ++ Tok JSMN_STRING (off + 1) (off + 1 + Z.of_nat (length (print_chars es))) 0 :: R))
    (st off next sup (U ++ t :: R)).
Proof using All.
  intros Hes Ht Hn Hlt. apply text_at_cons in Ht as (Hoff & _ & Ht). unfold jsmn_parse_string. wp_steps.
  apply wp_pos_inc; [done|]. wp_step. apply wp_string_loop with (es := es); [done..|]. cbv beta iota. wp_steps.
  cbn [has_tokens js_tokens st negb]. wp_step. eapply wp_alloc; [done|done|]. cbv beta iota. wp_steps.
  cbn [js_pos st]. apply wp_fill_token; [done|]. destruct Ht as (_ & Hle & _). rewrite length_app in Hle. simpl in Hle.
  rewrite !s32_small by lia. by wp_step.
Qed.

Section Leaves.
Context (U R : list jsmntok) (t : jsmntok) (sup off next : Z).
Hypothesis Hnext : next = Z.of_nat (length U).
Hypothesis Hroom : next < num.
Hypothesis Hsup : sup_ok sup U.

Lemma step_string es : Forall (fun e => schar_ok e = true) es -> text_at off (34 :: print_chars es ++ [34]) ->
  steps next (st off next sup (U ++ t :: R)) (next + 1)
    (st (off + Z.of_nat (length (print_chars es)) + 2) (next + 1) sup
       (bump sup U ++ Tok JSMN_STRING (off + 1) (off + 1 + Z.of_nat (length (print_chars es))) 0 :: R)).
Proof using All.
  intros Hes Ht. pose proof Ht as (_ & Hle & _). simpl in Hle. rewrite length_app in Hle. simpl in Hle.
  pose proof Ht as (Hoff & Hjs & _)%text_at_cons.
  replace (off + _ + 2) with (off + 1 + Z.of_nat (length (print_chars es)) + 1) by lia.
  eapply (step_char _ _ off 34); [done|done|done|done|lia|].
  unfold parse_char. simpl (34 =? _). cbv beta iota. cbn [orb].
  apply wp_leaf; [done|done|done|]. by apply wp_string.
Qed.

Lemma step_primitive p : prims p -> text_at off p -> stop (off + Z.of_nat (length p)) ->
  match p with c :: _ => ~ c ∈ [34; 91; 123] | [] => False end ->
  steps next (st off next sup (U ++ t :: R)) (next + 1)
    (st (off + Z.of_nat (length p)) (next + 1) sup
       (bump sup U ++ Tok JSMN_PRIMITIVE off (off + Z.of_nat (length p)) 0 :: R)).
Proof using All.
  intros Hp Ht Hstop Hc. destruct p as [|c p]; [done|]. pose proof Ht as (_ & Hle & _).
  pose proof Ht as (Hoff & Hjs & _)%text_at_cons. simpl in Hle.
  set (e := off + Z.of_nat (length (c :: p))) in *. replace e with (e - 1 + 1) at 1 by lia.
  assert (He : off < e <= len) by (unfold e; simpl; lia).
  pose proof Hp as Hpc%Forall_inv. unfold prim_char in Hpc.
  apply andb_prop in Hpc as [[H1 H2]%andb_prop H3%negb_true_iff].
  eapply (step_char _ _ off c); [done|done|done|lia|lia|].
  assert (Hb : forall x, x ∈ [123; 91; 125; 93; 34; 9; 13; 10; 32; 58; 44] -> (c =? x) = false).
  { intros x Hx. apply Z.eqb_neq. intros ->. unfold prim_end in H3. clear -Hx Hc H3.
    rewrite !elem_of_cons in Hx. set_unfold.
    destruct Hx as [->|[->|[->|[->|[->|[->|[->|[->|[->|[->|[->|[]]]]]]]]]]]]; first [discriminate H3|tauto]. }
  unfold parse_char. cbn [existsb]. rewrite !Hb by (apply list_elem_of_In; cbn; tauto). cbn [orb].
  apply wp_leaf; [done|done|done|]. by apply wp_primitive.
Qed.

Lemma step_open type : text_at off [if bool_decide (type = JSMN_OBJECT) then 123 else 91] ->
  type = JSMN_OBJECT \/ type = JSMN_ARRAY ->
  steps next (st off next sup (U ++ t :: R)) (next + 1)
    (st (off + 1) (next + 1) next (bump sup U ++ Tok type off (-1) 0 :: R)).
Proof using All.
  intros Ht Htype. apply text_at_cons in Ht as (Hoff & Hjs & _).
  eapply (step_char _ _ off _ _ off); [reflexivity|exact Hoff|exact Hjs|by destruct Htype as [-> | ->]|lia|].
  assert (wp (open_bracket num type) (fun r x => r = None /\
    x = st off (next + 1) next (bump sup U ++ Tok type off (-1) 0 :: R)) (st off next sup (U ++ t :: R))) as Hw.
  { unfold open_bracket. wp_steps. cbn [has_tokens js_tokens st negb]. wp_step. apply wp_alloc; [done..|].
    cbv beta iota. wp_step. apply wp_bump_super; [done|]. wp_step.
    assert (Hn : Z.to_nat next = length (bump sup U)) by (rewrite length_bump; lia).
    eapply wp_tok_get; [lia|by rewrite Hn, list_lookup_middle|]. wp_steps. cbn [js_pos st jt_end jt_size].
    apply wp_tok_put; [rewrite length_app; simpl; lia|]. wp_steps. split; [done|].
    unfold set_super, st. cbn [js_pos js_toknext js_toksuper js_tokens].
    rewrite Hn, insert_app_r_alt, Nat.sub_diag by lia. rewrite !s32_small by lia. simpl.
    by replace (next + 1 - 1) with next by lia. }
  unfold parse_char. destruct Htype as [-> | ->]; cbn [orb Z.eqb Pos.eqb bool_decide decide_rel].
  - simpl. wp_step. eapply wp_mono; [exact Hw|]. intros r x [-> ->]. wp_step. by rewrite s32_small by lia.
  - simpl. wp_step. eapply wp_mono; [exact Hw|]. intros r x [-> ->]. wp_step. by rewrite s32_small by lia.
Qed.
End Leaves.

Definition closed (W : list jsmntok) : Prop := Forall (fun t => open_tok t = false) W.

(** A closing bracket closes the innermost open token. *)
Lemma step_close c type U o k W R sup off next :
  text_at off [if bool_decide (type = JSMN_OBJECT) then 125 else 93] ->
  type = JSMN_OBJECT \/ type = JSMN_ARRAY -> 0 <= o -> closed W ->
  next = Z.of_nat (length U) + 1 + Z.of_nat (length W) -> next < 2 ^ 31 ->
  steps c (st off next sup (U ++ Tok type o (-1) k :: W ++ R)) c
    (st (off + 1) next (last_idx open_tok U) (U ++ Tok type o (off + 1) k :: W ++ R)).
Proof using All.
  intros Ht Htype Ho HW Hn Hlt. apply text_at_cons in Ht as (Hoff & Hjs & _).
  eapply (step_char _ _ off _ _ off); [reflexivity|exact Hoff|exact Hjs|by destruct Htype as [-> | ->]|lia|].
  set (t := Tok type o (-1) k). set (t' := Tok type o (off + 1) k).
  assert (Hopen : open_tok t = true) by (unfold open_tok, t; cbn [jt_start jt_end]; lia).
  assert (Hclosed : open_tok t' = false) by (unfold open_tok, t'; cbn [jt_start jt_end]; lia).
  pose proof (last_idx_range open_tok U) as Hr.
  assert (wp (close_bracket type) (fun r x => r = None /\
    x = st off next (last_idx open_tok U) (U ++ t' :: W ++ R)) (st off next sup (U ++ t :: W ++ R))) as Hw.
  { unfold close_bracket. wp_steps. cbn [has_tokens js_tokens st negb js_toknext]. wp_step.
    rewrite s32_small by lia. replace (U ++ t :: W ++ R) with ((U ++ t :: W) ++ R) by (by rewrite <- app_assoc).
    apply wp_scan_down; [rewrite length_app; simpl; lia|lia|]. rewrite last_idx_last by done.
    destruct (Z.ltb_spec (Z.of_nat (length U)) 0); [lia|]. wp_step. rewrite <- app_assoc. simpl ((t :: W) ++ R).
    eapply wp_tok_get; [lia|by rewrite Nat2Z.id, list_lookup_middle|]. cbn [jt_type t].
    rewrite bool_decide_eq_true_2 by done. simpl negb. cbv iota. wp_steps.
    change (js_pos (st off next sup (U ++ t :: W ++ R))) with off. rewrite (s32_small (off + 1)) by lia.
    change (Tok _ _ _ _) with t'.
    change (set_super _ _) with (st off next (-1) (U ++ t :: W ++ R)).
    apply wp_tok_put; [rewrite length_app; simpl; lia|]. wp_step.
    rewrite Nat2Z.id, insert_app_r_alt, Nat.sub_diag by lia.
    change (<[0%nat := t']> (t :: W ++ R)) with ([t'] ++ W ++ R). rewrite app_assoc.
    change (t' :: W ++ R) with ([t'] ++ W ++ R). rewrite app_assoc.
    apply (wp_scan_down _ _ _ _ (U ++ [t']) (W ++ R)); [rewrite length_app; simpl; lia|lia|].
    assert (last_idx open_tok (U ++ [t']) = last_idx open_tok U) as -> by (rewrite last_idx_app; simpl; by rewrite Hclosed).
    wp_step. destruct (Z.ltb_spec (last_idx open_tok U) 0); wp_steps; split; try done.
    by assert (last_idx open_tok U = -1) as -> by lia. }
  unfold parse_char. destruct Htype as [-> | ->]; simpl; wp_step; (eapply wp_mono; [exact Hw|]);
    intros r x [-> ->]; by wp_step.
Qed.

(** A comma makes the innermost open container the parent again. *)
Lemma step_comma c V R t sup sup' off next : text_at off [44] -> next = Z.of_nat (length V) -> next < 2 ^ 31 ->
  0 <= sup -> V !! Z.to_nat sup = Some t ->
  (is_container t = true /\ sup' = sup \/
   is_container t = false /\ 0 <= sup' /\ last_idx (fun t => is_container t && open_tok t) V = sup') ->
  steps c (st off next sup (V ++ R)) c (st (off + 1) next sup' (V ++ R)).
Proof using All.
  intros Ht Hn Hlt H0 Hsup Hcase. apply text_at_cons in Ht as (Hoff & Hjs & _).
  eapply (step_char _ _ off _ _ off); [reflexivity|exact Hoff|exact Hjs|done|lia|].
  pose proof (lookup_lt_Some _ _ _ Hsup).
  assert (wp comma (fun _ x => x = st off next sup' (V ++ R)) (st off next sup (V ++ R))) as Hw.
  { unfold comma. wp_steps. cbn [has_tokens js_tokens st negb js_toknext js_toksuper]. wp_step.
    eapply wp_tok_get; [done|by rewrite lookup_app_l|]. destruct Hcase as [[-> ->]|(-> & Hs' & HL)]; [by wp_step|].
    rewrite s32_small by lia. wp_step. apply wp_scan_down; [lia|lia|]. rewrite HL.
    destruct (Z.ltb_spec sup' 0); [lia|]. by wp_step. }
  unfold parse_char. simpl. wp_step. eapply wp_mono; [exact Hw|]. intros [] x ->. by wp_step.
Qed.
End Steps.
