(* ===== verification/JsmnCount.v ===== *)
(** * The counting pass of the tokenizer

    A run without a token array follows a successful run with one: same
    positions, same count.  Shown by simulation over the main loop. *)

From S2P Require Import Prelude Jsmn JsmnThms.
#[local] Transparent loopM.

(** The two runs are at the same character. *)
Definition same_pos (s s0 : jsmn) : Prop :=
  js_pos s = js_pos s0 /\ has_tokens s = true /\ js_tokens s0 = None /\ js_toknext s0 = 0.

(** From [s] and [s0], [m0] follows [m] if [m] returns a value satisfying [good]. *)
Definition follows {A} (good : A -> Prop) (m m0 : M jsmn A) (s s0 : jsmn) : Prop := forall a s',
  m s = Done (a, s') -> good a -> exists s0', m0 s0 = Done (a, s0') /\ same_pos s' s0'.

(** [m] only works on the tokens. *)
Definition keeps_pos {A} (m : M jsmn A) : Prop := forall s a s',
  m s = Done (a, s') -> js_pos s' = js_pos s /\ (has_tokens s = true -> has_tokens s' = true).

Lemma keeps_bind {A B} (m : M jsmn A) (k : A -> M jsmn B) :
  keeps_pos m -> (forall a, keeps_pos (k a)) -> keeps_pos (cbind m k).
Proof.
  intros Hm Hk s b s' H. unfold cbind in H. destruct (m s) as [[a s1]| |] eqn:E; try done.
  destruct (Hm _ _ _ E) as [H1 H2], (Hk a _ _ _ H) as [H3 H4]. split; [congruence|auto].
Qed.
Lemma keeps_iter {L R} n (body : L -> M jsmn (L + R)) l : (forall l, keeps_pos (body l)) -> keeps_pos (iterM n body l).
Proof.
  intros Hb. revert l. induction n as [|n IH]; intros l; [apply Hb|]. cbn [iterM]. apply keeps_bind; [apply IH|].
  intros [l'|r]; [apply IH|]. intros s a s' [= <- <-]. auto.
Qed.
Lemma keeps_loop {L R} (body : L -> M jsmn (L + R)) l : (forall l, keeps_pos (body l)) -> keeps_pos (loopM body l).
Proof.
  intros Hb. apply keeps_bind; [by apply keeps_iter|]. intros [l'|r] s a s' H; [done|].
  injection H as <- <-. auto.
Qed.
Lemma keeps_ret {A} (a : A) : keeps_pos (cret a).
Proof. intros s b s' [= <- <-]. auto. Qed.
Lemma keeps_get : keeps_pos mget.
Proof. intros s b s' [= <- <-]. auto. Qed.
Lemma keeps_halt {A} w : keeps_pos (mhalt (A := A) w).
Proof. done. Qed.
Lemma keeps_super f : keeps_pos (modify (fun p => set_super (f p) p)).
Proof. intros s b s' [= <- <-]. auto. Qed.
Lemma keeps_next f : keeps_pos (modify (fun p => set_next (f p) p)).
Proof. intros s b s' [= <- <-]. auto. Qed.
Lemma keeps_tok_get i : keeps_pos (tok_get i).
Proof.
  intros s a s' H. unfold tok_get, cbind, mget, mopt in H.
  destruct (js_tokens s); [destruct (i <? 0); [|destruct (_ !! _)]|]; try done. injection H as <- <-. auto.
Qed.
Lemma keeps_tok_put i t : keeps_pos (tok_put i t).
Proof.
  apply keeps_bind; [apply keeps_tok_get|]. intros _ s a s' [= <- <-]. unfold has_tokens, set_tokens.
  by destruct (js_tokens s) eqn:E; rewrite ?E.
Qed.

Ltac keeps_step := first
  [ apply keeps_ret | apply keeps_get | apply keeps_halt | apply keeps_tok_get | apply keeps_tok_put
  | apply (keeps_super (fun _ => _)) | apply keeps_super | apply (keeps_next (fun _ => _))
  | apply keeps_loop; intros ? | apply keeps_bind; [|intros ?] | case_match ].

Lemma keeps_alloc num : keeps_pos (jsmn_alloc_token num).
Proof. unfold jsmn_alloc_token. repeat keeps_step. Qed.
Lemma keeps_scan f i : keeps_pos (scan_down f i).
Proof. unfold scan_down. repeat keeps_step. Qed.
Lemma keeps_bump : keeps_pos bump_super.
Proof. unfold bump_super. repeat keeps_step. Qed.
Ltac keeps := repeat first [apply keeps_alloc | apply keeps_scan | apply keeps_bump | keeps_step].
Lemma keeps_open num type : keeps_pos (open_bracket num type).
Proof. unfold open_bracket. keeps. Qed.
Lemma keeps_close type : keeps_pos (close_bracket type).
Proof. unfold close_bracket. keeps. Qed.
Lemma keeps_comma : keeps_pos comma.
Proof. unfold comma. keeps. Qed.
Lemma keeps_fill i type a b : keeps_pos (jsmn_fill_token i type a b).
Proof. apply keeps_tok_put. Qed.

(** ** Simulation *)
Abbreviation any := (fun _ => True).

Lemma follows_bind {A B} (mid : A -> Prop) (good : B -> Prop) m m0 k k0 s s0 :
  follows mid m m0 s s0 -> (forall a s b s', k a s = Done (b, s') -> good b -> mid a) ->
  (forall a s s0, same_pos s s0 -> mid a -> follows good (k a) (k0 a) s s0) ->
  follows good (cbind m k) (cbind m0 k0) s s0.
Proof.
  intros Hm Hmid Hk b s' H Hb. unfold cbind in *. destruct (m s) as [[a s1]| |] eqn:E; try done.
  destruct (Hm a s1 E) as (s2 & E2 & Hs2); [by eapply Hmid|].
  rewrite E2. eapply Hk; eauto.
Qed.
Lemma follows_seq {A B} (good : B -> Prop) (m m0 : M jsmn A) k k0 s s0 :
  follows any m m0 s s0 -> (forall a s s0, same_pos s s0 -> follows good (k a) (k0 a) s s0) ->
  follows good (cbind m k) (cbind m0 k0) s s0.
Proof. intros Hm Hk. eapply follows_bind; [exact Hm|done|auto]. Qed.
Lemma follows_get {A} (good : A -> Prop) k k0 s s0 :
  follows good (k s) (k0 s0) s s0 -> follows good (cbind mget k) (cbind mget k0) s s0.
Proof. exact id. Qed.
Lemma follows_ret {A} (good : A -> Prop) a s s0 : same_pos s s0 -> follows good (cret a) (cret a) s s0.
Proof. intros H b s' [= <- <-] _. by eexists. Qed.
Lemma follows_bad {A} (good : A -> Prop) a m0 s s0 : ~ good a -> follows good (cret a) m0 s s0.
Proof. intros H b s' [= <- <-] Hb. done. Qed.
Lemma follows_set_pos f s s0 : (forall p q, js_pos p = js_pos q -> f p = f q) -> same_pos s s0 ->
  follows any (modify (fun p => set_pos (f p) p)) (modify (fun p => set_pos (f p) p)) s s0.
Proof. intros Hf (H1 & H2 & H3 & H4) b s' [= <- <-] _. eexists. split; [done|]. split_and!; auto. simpl. auto. Qed.
(** Work on the tokens alone is followed by doing nothing. *)
Lemma follows_keeps {A} (good : A -> Prop) (m : M jsmn A) m0 s s0 : keeps_pos m -> same_pos s s0 ->
  (forall a s', m s = Done (a, s') -> good a -> exists v, m0 s0 = Done (a, set_super v s0)) -> follows good m m0 s s0.
Proof.
  intros Hm (H1 & H2 & H3 & H4) H0 a s' Ha Hg. destruct (Hm _ _ _ Ha) as [H5 H6], (H0 _ _ Ha Hg) as [v ->].
  eexists. split; [done|]. split_and!; simpl; auto. congruence.
Qed.

Lemma follows_iter {L R} (good : R -> Prop) (body body0 : L -> M jsmn (L + R)) :
  (forall l s s0, same_pos s s0 -> follows (fun r => match r with inl _ => True | inr x => good x end) (body l) (body0 l) s s0) ->
  forall n l s s0, same_pos s s0 ->
  follows (fun r => match r with inl _ => True | inr x => good x end) (iterM n body l) (iterM n body0 l) s s0.
Proof.
  intros Hb n. induction n as [|n IH]; intros l s s0 Hs; [by apply Hb|]. cbn [iterM].
  eapply follows_bind; [by apply IH| |].
  - intros [l'|x] s1 b s' H Hg; [done|]. injection H as <- <-. exact Hg.
  - intros [l'|x] s1 s2 H12 Hx; [by apply IH|by apply follows_ret].
Qed.
Lemma follows_loop {L R} (good : R -> Prop) (body body0 : L -> M jsmn (L + R)) l s s0 :
  (forall l s s0, same_pos s s0 -> follows (fun r => match r with inl _ => True | inr x => good x end) (body l) (body0 l) s s0) ->
  same_pos s s0 -> follows good (loopM body l) (loopM body0 l) s s0.
Proof.
  intros Hb Hs. eapply follows_bind; [by apply follows_iter| |].
  - intros [l'|x] s1 b s' H Hg; [done|]. injection H as <- <-. exact Hg.
  - intros [l'|x] s1 s2 H12 Hx; [done|by apply follows_ret].
Qed.

#[local] Opaque loopM.

Section Count.
Context (js : list Z) (len num num0 : Z).

Lemma follows_more s s0 : same_pos s s0 -> follows any (more js len) (more js len) s s0.
Proof.
  intros Hs. unfold more. apply follows_get. rewrite (proj1 Hs).
  destruct (js_pos s0 <? len); [|by apply follows_ret]. unfold js_at, mopt.
  destruct (js !! _); [|done]. apply follows_seq; [by apply follows_ret|]. intros. by apply follows_ret.
Qed.
Lemma follows_pos_inc s s0 : same_pos s s0 -> follows any pos_inc pos_inc s s0.
Proof. apply follows_set_pos. by intros p q ->. Qed.
Lemma follows_pos_dec s s0 : same_pos s s0 -> follows any pos_dec pos_dec s s0.
Proof. apply follows_set_pos. by intros p q ->. Qed.
Lemma follows_start s s0 : same_pos s s0 -> follows any (gets js_pos) (gets js_pos) s s0.
Proof. intros Hs a s' [= <- <-] _. exists s0. destruct Hs as (H1 & H2). by rewrite H1. Qed.

(** An error: whatever the state, the value is negative. *)
Lemma follows_error {A} (m : M jsmn A) e (m0 : M jsmn Z) s s0 : e < 0 ->
  follows (fun r => 0 <= r) (m ;;; cret e) m0 s s0.
Proof.
  intros He a s' H Ha. unfold cbind in H. destruct (m s) as [[x s1]| |]; try done. injection H as <- <-. lia.
Qed.

(** The token of a value, in both runs. *)
Lemma follows_token type (a b : jsmn -> Z) (z : M jsmn unit) start s s0 : same_pos s s0 ->
  (forall s s0, same_pos s s0 -> follows any z z s s0) ->
  follows (fun r => 0 <= r)
    (p <-- mget ;;
     if negb (has_tokens p) then z ;;; cret 0 else
     t <-- jsmn_alloc_token num ;;
     match t with
     | None => modify (set_pos start) ;;; cret JSMN_ERROR_NOMEM
     | Some i => p <-- mget ;; jsmn_fill_token i type (a p) (b p) ;;; z ;;; cret 0
     end)
    (z ;;; cret 0) s s0.
Proof.
  intros Hs Hz. intros r s' H Hr. unfold cbind at 1, mget in H. destruct Hs as (H1 & H2 & H3 & H4).
  rewrite H2 in H. simpl in H. unfold cbind at 1 in H.
  destruct (jsmn_alloc_token num s) as [[[i|] s1]| |] eqn:E; try done.
  - apply keeps_alloc in E as [E1 E2]. unfold cbind at 1, mget in H. unfold cbind at 1 in H.
    destruct (jsmn_fill_token i type (a s1) (b s1) s1) as [[u s2]| |] eqn:E3; try done.
    apply keeps_fill in E3 as [E4 E5].
    assert (Hs2 : same_pos s2 s0) by (split_and!; [congruence|auto|done|done]).
    revert H Hr. apply (follows_seq (fun r => 0 <= r) z z (fun _ => cret 0)); [by apply Hz|].
    intros. by apply follows_ret.
  - unfold cbind, modify, cret in H. injection H as <- <-. unfold JSMN_ERROR_NOMEM in Hr. lia.
Qed.

Lemma null_token {A} (z : M jsmn A) k s0 : js_tokens s0 = None ->
  (p <-- mget ;; if negb (has_tokens p) then z else k p) s0 = z s0.
Proof. intros H. unfold cbind, mget, has_tokens. by rewrite H. Qed.

Lemma follows_primitive s s0 : same_pos s s0 ->
  follows (fun r => 0 <= r) (jsmn_parse_primitive js len num) (jsmn_parse_primitive js len num0) s s0.
Proof.
  intros Hs. unfold jsmn_parse_primitive. apply follows_seq; [by apply follows_start|]. clear s s0 Hs.
  intros start s s0 Hs. apply follows_seq.
  { apply follows_loop; [|done]. clear s s0 Hs. intros [] s s0 Hs.
    apply follows_seq with (good := fun r => match r with inl _ => True | inr _ => True end); [by apply follows_more|].
    intros [c|] s1 s2 H12; [|by apply follows_ret].
    destruct (prim_end c); [by apply follows_ret|]. destruct (_ || _); [by apply follows_ret|].
    apply follows_seq; [by apply follows_pos_inc|]. intros. by apply follows_ret. }
  clear s s0 Hs. intros [] s s0 Hs; simpl; [|by apply follows_error].
  intros r s' H Hr.
  destruct (follows_token JSMN_PRIMITIVE (fun _ => s32 start) (fun p => s32 (js_pos p)) pos_dec start
    s s0 Hs follows_pos_dec r s' H Hr) as (s0' & H0 & Hs').
  exists s0'. split; [|done]. destruct Hs as (H1 & H2 & H3 & H4). rewrite null_token; done.
Qed.

Lemma follows_string s s0 : same_pos s s0 ->
  follows (fun r => 0 <= r) (jsmn_parse_string js len num) (jsmn_parse_string js len num0) s s0.
Proof.
  intros Hs. unfold jsmn_parse_string. apply follows_seq; [by apply follows_start|]. clear s s0 Hs.
  intros start s s0 Hs. apply follows_seq; [by apply follows_pos_inc|]. clear s s0 Hs. intros [] s s0 Hs.
  apply follows_seq.
  { apply follows_loop; [|done]. clear s s0 Hs. intros [] s s0 Hs.
    apply follows_seq with (good := fun r => match r with inl _ => True | inr _ => True end); [by apply follows_more|].
    clear s s0 Hs. intros [c|] s s0 Hs; [|by apply follows_ret].
    destruct (c =? 34); [by apply follows_ret|]. apply follows_get.
    rewrite (proj1 Hs). destruct (_ && _).
    2: { apply follows_seq; [by apply follows_pos_inc|]. intros. by apply follows_ret. }
    apply follows_seq; [by apply follows_pos_inc|]. clear s s0 Hs. intros [] s s0 Hs.
    apply follows_get. rewrite (proj1 Hs). unfold js_at, mopt.
    apply follows_seq; [destruct (js !! _); [by apply follows_ret|done]|]. clear s s0 Hs. intros d s s0 Hs.
    destruct (simple_escape d); [apply follows_seq; [by apply follows_pos_inc|]; intros; by apply follows_ret|].
    destruct (d =? 117); [|by apply follows_ret].
    apply follows_seq; [by apply follows_pos_inc|]. clear s s0 Hs. intros [] s s0 Hs. apply follows_seq.
    { unfold hex_digits. apply follows_loop; [|done]. clear s s0 Hs. intros i s s0 Hs. destruct (i <? 4); [|by apply follows_ret].
      apply follows_seq with (good := fun r => match r with inl _ => True | inr _ => True end); [by apply follows_more|].
      clear s s0 Hs. intros [c'|] s s0 Hs; [|by apply follows_ret]. destruct (negb (is_hex c')); [by apply follows_ret|].
      apply follows_seq; [by apply follows_pos_inc|]. intros. by apply follows_ret. }
    clear s s0 Hs. intros [] s s0 Hs; [|by apply follows_ret].
    apply follows_seq; [by apply follows_pos_dec|]. clear s s0 Hs. intros [] s s0 Hs.
    apply follows_seq; [by apply follows_pos_inc|]. intros. by apply follows_ret. }
  clear s s0 Hs. intros [] s s0 Hs; [|by apply follows_error..].
  intros r s' H Hr.
  destruct (follows_token JSMN_STRING (fun _ => s32 (start + 1)) (fun p => s32 (js_pos p)) (cret tt) start
    s s0 Hs) with (a := r) (s' := s') as (s0' & H0 & Hs'); [intros; by apply follows_ret| |done|].
  { exact H. }
  exists s0'. split; [|done]. destruct Hs as (H1 & H2 & H3 & H4). rewrite null_token; done.
Qed.

Abbreviation goodc := (fun r : Z + Z => match r with inl _ => True | inr e => 0 <= e end).

(** Every value [m] can return satisfies [P]. *)
Definition returns {A} (P : A -> Prop) (m : M jsmn A) : Prop := forall s a s', m s = Done (a, s') -> P a.
Lemma returns_bind {A B} (P : B -> Prop) (m : M jsmn A) k : (forall a, returns P (k a)) -> returns P (cbind m k).
Proof. intros Hk s b s' H. unfold cbind in H. destruct (m s) as [[a s1]| |]; try done. by eapply Hk. Qed.
Lemma returns_ret {A} (P : A -> Prop) a : P a -> returns P (cret a).
Proof. intros H s b s' [= <- <-]. done. Qed.
Ltac returns := repeat first [apply returns_ret; done | apply returns_bind; intros ? | case_match].
Abbreviation neg := (fun r => match r with Some e => e < 0 | None => True end).
Lemma open_neg type : returns neg (open_bracket num type).
Proof. unfold open_bracket. returns. Qed.
Lemma close_neg type : returns neg (close_bracket type).
Proof. unfold close_bracket. returns. Qed.

Lemma null_bump s0 : js_tokens s0 = None -> bump_super s0 = Done (tt, s0).
Proof. intros H. unfold bump_super, cbind, mget, has_tokens. by rewrite H, andb_false_r. Qed.
Lemma set_super_id s : set_super (js_toksuper s) s = s.
Proof. by destruct s. Qed.

Lemma follows_leaf m m0 c s s0 : follows (fun r => 0 <= r) m m0 s s0 ->
  follows goodc (leaf m c) (leaf m0 c) s s0.
Proof.
  intros Hm. unfold leaf. eapply follows_bind; [exact Hm| |]; cbv beta.
  - intros a s1 b s' H Hb. destruct (Z.ltb_spec a 0); [|done]. by injection H as <- <-.
  - intros a s1 s2 H12 Ha. destruct (Z.ltb_spec a 0); [lia|].
    apply follows_seq; [|intros; by apply follows_ret].
    apply follows_keeps; [apply keeps_bump|done|]. intros [] s' _ _. exists (js_toksuper s2).
    rewrite set_super_id. apply null_bump, H12.
Qed.

Lemma follows_bracket (m m0 : M jsmn (option Z)) c' s s0 : keeps_pos m -> returns neg m -> same_pos s s0 -> m0 s0 = Done (None, s0) ->
  follows goodc (r <-- m ;; cret (match r with Some e => inr e | None => inl (c' : Z) end))
    (r <-- m0 ;; cret (match r with Some e => inr e | None => inl c' end)) s s0.
Proof.
  intros Hk Hn Hs H0. eapply follows_bind with (mid := fun r => match r with Some e => 0 <= e | None => True end).
  - apply follows_keeps; [done|done|]. intros a s' H Ha. apply Hn in H. destruct a as [e|]; [lia|].
    exists (js_toksuper s0). by rewrite set_super_id.
  - intros [e|] s1 b s' H Hb; [|done]. by injection H as <- <-.
  - intros a s1 s2 H12 Ha. by apply follows_ret.
Qed.

Lemma follows_char ch c s s0 : same_pos s s0 ->
  follows goodc (parse_char js len num ch c) (parse_char js len num0 ch c) s s0.
Proof.
  intros Hs. pose proof Hs as (_ & _ & H3 & H4). unfold parse_char. destruct (_ || _).
  { apply follows_bracket; [apply keeps_open|apply open_neg|done|]. unfold open_bracket. by rewrite null_token. }
  destruct (_ || _).
  { apply follows_bracket; [apply keeps_close|apply close_neg|done|]. unfold close_bracket. by rewrite null_token. }
  destruct (ch =? 34); [by apply follows_leaf, follows_string|].
  destruct (existsb _ _); [by apply follows_ret|].
  destruct (ch =? 58).
  { apply follows_seq; [|intros; by apply follows_ret].
    apply follows_keeps; [apply keeps_super|done|]. intros [] s' _ _. by eexists. }
  destruct (ch =? 44); [|by apply follows_leaf, follows_primitive].
  apply follows_seq; [|intros; by apply follows_ret].
  apply follows_keeps; [apply keeps_comma|done|]. intros [] s' _ _. exists (js_toksuper s0).
  rewrite set_super_id. unfold comma. by rewrite null_token.
Qed.

Lemma follows_main c s s0 : same_pos s s0 ->
  follows goodc (loopM (parse_body js len num) c) (loopM (parse_body js len num0) c) s s0.
Proof.
  apply follows_loop. clear c s s0. intros c s s0 Hs. unfold parse_body.
  apply follows_seq with (good := fun r : Z + (Z + Z) => match r with inl _ => True | inr x => goodc x end);
    [by apply follows_more|].
  clear s s0 Hs. intros [ch|] s s0 Hs; [|by apply follows_ret].
  eapply follows_bind; [by apply follows_char| |].
  - intros [c'|e] s1 b s' H Hb; [done|]. injection H as <- <-. exact Hb.
  - intros [c'|e] s1 s2 H12 Hg; [|by apply follows_ret]. apply follows_seq; [by apply follows_pos_inc|].
    intros. by apply follows_ret.
Qed.

Lemma scan_down_empty f s : scan_down f (-1) s = Done (-1, s).
Proof. unfold scan_down. apply loop_leaves. reflexivity. Qed.

(** A successful parse and the counting pass return the same number. *)
Lemma count_pass s s0 n s' : same_pos s s0 -> jsmn_parse js len num s = Done (n, s') -> 0 <= n ->
  exists s0', jsmn_parse js len num0 s0 = Done (n, s0').
Proof.
  intros Hs H Hn. unfold jsmn_parse in *. unfold cbind at 1 in H.
  destruct (loopM (parse_body js len num) 0 s) as [[r s1]| |] eqn:E; try done.
  destruct (follows_main 0 s s0 Hs r s1 E) as (s2 & E2 & Hs2).
  { destruct r; [done|]. by injection H as -> _. }
  unfold cbind at 1. rewrite E2. destruct Hs2 as (_ & _ & H3 & H4). exists s2.
  destruct r as [c|e]; [|by injection H as -> _].
  unfold cbind at 1 in H. unfold mget in H. unfold cbind in H. unfold cbind at 1, mget. rewrite H4.
  change (s32 (0 - 1)) with (-1). unfold cbind. rewrite scan_down_empty. simpl.
  destruct (scan_down open_tok (s32 (js_toknext s1 - 1)) s1) as [[i s3]| |]; try done.
  injection H as H _. destruct (i <? 0); [by subst|]. unfold JSMN_ERROR_PART in H. lia.
Qed.
End Count.

(** * The counting pass returns on every text

    Without a token array no access can fail and every character moves the
    position forward, so the tokenizer returns whatever the text is. *)


(** A parser without a token array. *)
Definition nst (pos sup : Z) : jsmn := Jsmn pos 0 sup None.

Section Null.
Context (js : list Z) (num : Z).
Let len : Z := Z.of_nat (length js).
Hypothesis Hlen : len < 2 ^ 31.

Lemma wp_more_null pos sup Q : 0 <= pos <= len ->
  (forall c, pos < len -> js !! Z.to_nat pos = Some c -> c <> 0 -> Q (Some c) (nst pos sup)) ->
  ((pos = len \/ js !! Z.to_nat pos = Some 0) -> Q None (nst pos sup)) -> wp (more js len) Q (nst pos sup).
Proof using All.
  intros Hp HS HN. unfold more. wp_steps. cbn [js_pos nst]. destruct (Z.ltb_spec pos len); [|wp_step; apply HN; lia].
  destruct (lookup_lt_is_Some_2 js (Z.to_nat pos) ltac:(lia)) as [c Hc].
  wp_step. eapply wp_opt; [exact Hc|]. wp_step. destruct (Z.eqb_spec c 0); [subst; apply HN; by right|by apply HS].
Qed.
Lemma wp_inc_null pos sup Q : 0 <= pos <= len -> Q tt (nst (pos + 1) sup) -> wp pos_inc Q (nst pos sup).
Proof using All.
  intros Hp HQ. unfold pos_inc. wp_step. unfold set_pos, nst. cbn [js_pos js_toknext js_toksuper js_tokens].
  by rewrite u32_small by lia.
Qed.
Lemma wp_dec_null pos sup Q : 0 < pos <= len -> Q tt (nst (pos - 1) sup) -> wp pos_dec Q (nst pos sup).
Proof using All.
  intros Hp HQ. unfold pos_dec. wp_step. unfold set_pos, nst. cbn [js_pos js_toknext js_toksuper js_tokens].
  by rewrite u32_small by lia.
Qed.

(** What a routine that reads one value leaves behind. *)
Definition reads (start sup : Z) (r : Z) (s : jsmn) : Prop :=
  r = 0 /\ (exists pos, s = nst pos sup /\ start <= pos < len) \/ (r = JSMN_ERROR_INVAL \/ r = JSMN_ERROR_PART).

Lemma wp_primitive_null start sup c : 0 <= start < len -> js !! Z.to_nat start = Some c -> c <> 0 ->
  prim_end c = false -> wp (jsmn_parse_primitive js len num) (reads start sup) (nst start sup).
Proof using All.
  intros Hs Hc H0 Hpe. unfold jsmn_parse_primitive. wp_steps.
  apply (wp_loop _ (fun _ s => exists pos, s = nst pos sup /\ start <= pos <= len) (fun _ s => len - js_pos s)).
  - intros [] s (pos & -> & Hp). cbn [js_pos nst]. split; [lia|]. wp_step. apply wp_more_null; [lia| |].
    + intros d Hlt Hd Hd0. destruct (prim_end d) eqn:E.
      * assert (pos <> start) by (intros ->; congruence). wp_step. simpl. wp_steps. simpl.
        wp_step. apply wp_dec_null; [lia|]. wp_step. left. split; [done|]. eexists. split; [done|]. lia.
      * destruct (_ || _); [by wp_steps; right; left|]. wp_step. apply wp_inc_null; [lia|]. wp_step.
        cbn [js_pos nst]. split; [|lia]. eexists. split; [done|]. lia.
    + intros Hend. assert (pos <> start) by (intros ->; destruct Hend as [?|?]; [lia|congruence]).
      wp_step. simpl. wp_steps. simpl. wp_step. apply wp_dec_null; [lia|]. wp_step. left. split; [done|].
      eexists. split; [done|]. lia.
  - exists start. split; [done|]. lia.
  - simpl. lia.
Qed.

Lemma wp_hex_null start sup Q : 0 <= start <= len ->
  (forall b pos, start <= pos <= len -> Q b (nst pos sup)) -> wp (hex_digits js len) Q (nst start sup).
Proof using All.
  intros Hs HQ. unfold hex_digits.
  apply (wp_loop _ (fun i s => 0 <= i <= 4 /\ exists pos, s = nst pos sup /\ start <= pos <= len) (fun i _ => 4 - i)); [| |lia].
  - intros i s (Hi & pos & -> & Hp). split; [lia|]. destruct (Z.ltb_spec i 4); [|by wp_step; apply HQ].
    wp_step. apply wp_more_null; [lia| |by intros; wp_step; apply HQ].
    intros c Hlt Hc H0. destruct (negb _); [by wp_step; apply HQ|]. wp_step. apply wp_inc_null; [lia|].
    wp_step. split; [|lia]. split; [lia|]. eexists. split; [done|]. lia.
  - split; [lia|]. exists start. split; [done|]. lia.
Qed.

Lemma wp_string_null start sup : 0 <= start < len ->
  wp (jsmn_parse_string js len num) (reads start sup) (nst start sup).
Proof using All.
  intros Hs. unfold jsmn_parse_string. wp_steps. apply wp_inc_null; [lia|]. wp_step.
  apply (wp_loop _ (fun _ s => exists pos, s = nst pos sup /\ start < pos <= len) (fun _ s => len - js_pos s)).
  - intros [] s (pos & -> & Hp). cbn [js_pos nst]. split; [lia|]. wp_step. apply wp_more_null; [lia| |].
    2: { intros _. wp_steps. right. by right. }
    intros c Hlt Hc H0. destruct (c =? 34).
    { wp_steps. simpl. wp_step. left. split; [done|]. eexists. split; [done|]. lia. }
    wp_steps. cbn [js_pos nst]. rewrite u32_small by lia.
    assert (Hinc : forall pos', pos <= pos' < len -> wp (pos_inc ;;; cret (inl tt)) (fun r s' =>
      match r with
      | inl _ => (exists p, s' = nst p sup /\ start < p <= len) /\ 0 <= len - js_pos s' < len - pos
      | inr x => wp (match x with
                     | StrClosed => p <-- mget ;; if negb (has_tokens p) then cret 0 else
                         t <-- jsmn_alloc_token num ;;
                         match t with
                         | None => modify (set_pos start) ;;; cret JSMN_ERROR_NOMEM
                         | Some i => p <-- mget ;; jsmn_fill_token i JSMN_STRING (s32 (start + 1)) (s32 (js_pos p)) ;;; cret 0
                         end
                     | StrBad => modify (set_pos start) ;;; cret JSMN_ERROR_INVAL
                     | StrPart => modify (set_pos start) ;;; cret JSMN_ERROR_PART
                     end) (reads start sup) s'
      end) (nst pos' sup)).
    { intros pos' Hp'. wp_step. apply wp_inc_null; [lia|]. wp_step. cbn [js_pos nst]. split; [|lia].
      eexists. split; [done|]. lia. }
    destruct (Z.ltb_spec (pos + 1) len); [|rewrite andb_false_r; apply Hinc; lia].
    rewrite andb_true_r. destruct (c =? 92); [|apply Hinc; lia].
    destruct (lookup_lt_is_Some_2 js (Z.to_nat (pos + 1)) ltac:(lia)) as [d Hd].
    wp_step. apply wp_inc_null; [lia|]. wp_steps. cbn [js_pos nst]. eapply wp_opt; [exact Hd|].
    destruct (simple_escape d); [apply Hinc; lia|]. destruct (d =? 117); [|by wp_steps; right; left].
    wp_step. apply wp_inc_null; [lia|]. wp_step. apply wp_hex_null; [lia|].
    intros [] pos' Hpos'; [|by wp_steps; right; left]. wp_step. apply wp_dec_null; [lia|]. apply Hinc. lia.
  - exists (start + 1). split; [done|]. lia.
  - simpl. lia.
Qed.

Lemma wp_leaf_null m c pos sup : wp m (reads pos sup) (nst pos sup) -> 0 <= c < 2 ^ 31 - 1 ->
  wp (leaf m c) (fun r s => match r with
    | inl c' => c <= c' <= c + 1 /\ exists pos' sup', s = nst pos' sup' /\ pos <= pos' < len
    | inr e => e = JSMN_ERROR_INVAL \/ e = JSMN_ERROR_PART end) (nst pos sup).
Proof using All.
  intros Hm Hc. unfold leaf. wp_step. eapply wp_mono; [exact Hm|].
  intros r s [[-> (pos' & -> & Hp)]|Hr].
  - simpl. wp_step. unfold bump_super. wp_steps. cbn [has_tokens js_tokens nst]. rewrite andb_false_r. wp_steps.
    rewrite s32_small by lia. split; [lia|]. by exists pos', sup.
  - assert (r < 0) by (unfold JSMN_ERROR_INVAL, JSMN_ERROR_PART in Hr; lia).
    destruct (Z.ltb_spec r 0); [|lia]. by wp_step.
Qed.

Lemma wp_char_null ch c pos sup : 0 <= pos < len -> js !! Z.to_nat pos = Some ch -> ch <> 0 -> 0 <= c <= pos ->
  wp (parse_char js len num ch c) (fun r s => match r with
    | inl c' => c <= c' <= c + 1 /\ exists pos' sup', s = nst pos' sup' /\ pos <= pos' < len
    | inr e => e = JSMN_ERROR_INVAL \/ e = JSMN_ERROR_PART end) (nst pos sup).
Proof using All.
  intros Hp Hch H0 Hc. unfold parse_char.
  destruct ((ch =? 123) || (ch =? 91)) eqn:Ho.
  { wp_steps. unfold open_bracket. wp_steps. simpl. wp_steps. rewrite s32_small by lia. split; [lia|]. exists pos, sup. split; [done|lia]. }
  destruct ((ch =? 125) || (ch =? 93)) eqn:Hcl.
  { wp_steps. unfold close_bracket. wp_steps. simpl. wp_steps. split; [lia|]. exists pos, sup. split; [done|lia]. }
  destruct (Z.eqb_spec ch 34); [apply wp_leaf_null; [by apply wp_string_null|lia]|].
  destruct (existsb _ _) eqn:Hws; [wp_step; split; [lia|]; exists pos, sup; split; [done|lia]|].
  destruct (Z.eqb_spec ch 58); [wp_steps; split; [lia|]; exists pos, (s32 (0 - 1)); split; [done|lia]|].
  destruct (Z.eqb_spec ch 44).
  { wp_steps. unfold comma. wp_steps. simpl. wp_steps. split; [lia|]. exists pos, sup. split; [done|lia]. }
  apply wp_leaf_null; [|lia]. eapply wp_primitive_null; [done|exact Hch|done|].
  apply orb_false_iff in Hcl as [Ha%Z.eqb_neq Hb%Z.eqb_neq]. simpl in Hws. unfold prim_end. simpl. lia.
Qed.

(** The tokenizer returns on every text. *)
Lemma wp_count_total : wp (jsmn_parse js len num) (fun n _ => n = JSMN_ERROR_INVAL \/ n = JSMN_ERROR_PART \/ 0 <= n <= len)
  (nst 0 (-1)).
Proof using All.
  unfold jsmn_parse. wp_step.
  apply (wp_loop _ (fun c s => exists pos sup, s = nst pos sup /\ 0 <= c <= pos /\ pos <= len) (fun _ s => len - js_pos s)).
  - intros c s (pos & sup & -> & Hc & Hp). cbn [js_pos nst]. split; [lia|]. unfold parse_body. wp_step.
    apply wp_more_null; [lia| |].
    + intros ch Hlt Hch H0. wp_step. eapply wp_mono; [apply wp_char_null; [lia|done|done|done]|].
      intros [c'|e] s'; cbv beta iota.
      * intros (Hc' & pos' & sup' & -> & Hp'). wp_step. apply wp_inc_null; [lia|]. wp_step. cbn [js_pos nst].
        split; [|lia]. exists (pos' + 1), sup'. split; [done|]. lia.
      * intros He. wp_steps. tauto.
    + intros _. wp_steps. cbn [js_toknext nst]. change (s32 (0 - 1)) with (-1). unfold scan_down.
      apply (wp_loop _ (fun i s => i = -1) (fun _ _ => 0)); [|done|done].
      intros i s' ->. split; [done|]. simpl. wp_steps. simpl. right. right. lia.
  - exists 0, (-1). split; [done|]. lia.
  - simpl. lia.
Qed.
End Null.
