(* ===== verification/JsmnSpec.v ===== *)
(** * The tokenizer against printed JSON values

    JSON values with arbitrary white space, the text that denotes them and the
    tokens that describe that text; parsing the text, first without and then
    with a token array as the configuration reader does, gives these tokens. *)

From S2P Require Import Prelude Jsmn JsmnThms JsmnCount.


(** ** Values, their text and their tokens *)
Inductive json :=
| JPrim (p : list Z)
| JStr (es : list schar)
| JArr (l : jlist)
| JObj (l : jpairs)
| JPad (b : list Z) (v : json) (a : list Z)      (* white space around a value *)
with jlist := JNil | JCons (v : json) (l : jlist)
with jpairs := PNil | PCons (b : list Z) (k : list schar) (a : list Z) (v : json) (l : jpairs).

Scheme json_mut := Induction for json Sort Prop
with jlist_mut := Induction for jlist Sort Prop
with jpairs_mut := Induction for jpairs Sort Prop.
Combined Scheme json_ind3 from json_mut, jlist_mut, jpairs_mut.

Definition quoted (es : list schar) : list Z := 34 :: print_chars es ++ [34].

(** [print_list] and [print_pairs] put a comma before every element. *)
Fixpoint print (v : json) : list Z :=
  match v with
  | JPrim p => p
  | JStr es => quoted es
  | JArr l => 91 :: tail (print_list l) ++ [93]
  | JObj l => 123 :: tail (print_pairs l) ++ [125]
  | JPad b v a => b ++ print v ++ a
  end
with print_list (l : jlist) : list Z :=
  match l with JNil => [] | JCons v l => 44 :: print v ++ print_list l end
with print_pairs (l : jpairs) : list Z :=
  match l with
  | PNil => []
  | PCons b k a v l => 44 :: b ++ quoted k ++ a ++ 58 :: print v ++ print_pairs l
  end.

Fixpoint list_len (l : jlist) : Z := match l with JNil => 0 | JCons _ l => 1 + list_len l end.
Fixpoint pairs_len (l : jpairs) : Z := match l with PNil => 0 | PCons _ _ _ _ l => 1 + pairs_len l end.

(** The tokens of the value printed at [off]; of the elements whose commas
    start at [off]. *)
Fixpoint toks (v : json) (off : Z) : list jsmntok :=
  match v with
  | JPrim p => [Tok JSMN_PRIMITIVE off (off + zlen p) 0]
  | JStr es => [Tok JSMN_STRING (off + 1) (off + 1 + zlen (print_chars es)) 0]
  | JArr l => Tok JSMN_ARRAY off (off + zlen (print v)) (list_len l) :: toks_list l off
  | JObj l => Tok JSMN_OBJECT off (off + zlen (print v)) (pairs_len l) :: toks_pairs l off
  | JPad b v a => toks v (off + zlen b)
  end
with toks_list (l : jlist) (off : Z) : list jsmntok :=
  match l with
  | JNil => []
  | JCons v l => toks v (off + 1) ++ toks_list l (off + 1 + zlen (print v))
  end
with toks_pairs (l : jpairs) (off : Z) : list jsmntok :=
  match l with
  | PNil => []
  | PCons b k a v l =>
      let o := off + 1 + zlen b in
      let o' := o + zlen (quoted k) + zlen a + 1 in
      Tok JSMN_STRING (o + 1) (o + 1 + zlen (print_chars k)) 1 :: toks v o' ++
      toks_pairs l (o' + zlen (print v))
  end.

Fixpoint ntoks (v : json) : nat :=
  match v with
  | JPrim _ | JStr _ => 1
  | JArr l => S (ntoks_list l)
  | JObj l => S (ntoks_pairs l)
  | JPad _ v _ => ntoks v
  end
with ntoks_list (l : jlist) : nat :=
  match l with JNil => 0 | JCons v l => ntoks v + ntoks_list l end
with ntoks_pairs (l : jpairs) : nat :=
  match l with PNil => 0 | PCons _ _ _ v l => S (ntoks v + ntoks_pairs l) end.

(** Well-formed text: primitives of printable characters, proper escapes. *)
Definition prim_ok (p : list Z) : bool :=
  forallb prim_char p && match p with c :: _ => negb (existsb (Z.eqb c) [34; 91; 123]) | [] => false end.
Fixpoint json_ok (v : json) : bool :=
  match v with
  | JPrim p => prim_ok p
  | JStr es => forallb schar_ok es
  | JArr l => list_ok l
  | JObj l => pairs_ok l
  | JPad b v a => forallb is_ws b && json_ok v && forallb is_ws a
  end
with list_ok (l : jlist) : bool :=
  match l with JNil => true | JCons v l => json_ok v && list_ok l end
with pairs_ok (l : jpairs) : bool :=
  match l with
  | PNil => true
  | PCons b k a v l => forallb is_ws b && forallb schar_ok k && forallb is_ws a && json_ok v && pairs_ok l
  end.

Lemma length_toks_all :
  (forall v off, length (toks v off) = ntoks v) /\
  (forall l off, length (toks_list l off) = ntoks_list l) /\
  (forall l off, length (toks_pairs l off) = ntoks_pairs l).
Proof. apply json_ind3; intros; simpl; rewrite ?length_app; auto. Qed.
Lemma length_toks v off : length (toks v off) = ntoks v.
Proof. apply length_toks_all. Qed.

Lemma closed_toks_all :
  (forall v off, 0 <= off -> closed (toks v off)) /\
  (forall l off, 0 <= off -> closed (toks_list l off)) /\
  (forall l off, 0 <= off -> closed (toks_pairs l off)).
Proof.
  assert (H1 : forall ty a b k, 0 <= b -> open_tok (Tok ty a b k) = false).
  { intros. unfold open_tok. cbn [jt_end]. destruct (Z.eqb_spec b (-1)); [lia|]. apply andb_false_r. }
  unfold closed. apply json_ind3; intros; cbn [toks toks_list toks_pairs];
    repeat (apply Forall_app; split); repeat (apply Forall_cons; split); try apply Forall_app_2;
    try apply H1; repeat match goal with H : forall off, _ |- _ => apply H end; try apply Forall_nil_2; lia.
Qed.

(** The tokens of an unfinished container: what came before it, the open
    token with [k] children so far, the closed tokens of these. *)
Definition inside (type : jsmntype) (U : list jsmntok) (o k : Z) (W : list jsmntok) : list jsmntok :=
  U ++ Tok type o (-1) k :: W.

Section Inside.
Context (type : jsmntype) (U W : list jsmntok) (o k : Z).
Hypothesis Ho : 0 <= o.
Hypothesis HW : closed W.
Let V := inside type U o k W.

Lemma length_inside : zlen V = zlen U + 1 + zlen W.
Proof. unfold V, inside. rewrite length_app. simpl. lia. Qed.
Lemma open_inside : open_tok (Tok type o (-1) k) = true.
Proof using Ho. unfold open_tok. cbn [jt_start jt_end]. lia. Qed.
Lemma lookup_inside : V !! Z.to_nat (zlen U) = Some (Tok type o (-1) k).
Proof. unfold V, inside. by rewrite Nat2Z.id, list_lookup_middle. Qed.
Lemma last_open_inside : last_idx open_tok V = zlen U.
Proof using Ho HW. apply last_idx_last; [apply open_inside|done]. Qed.
Lemma bump_inside : bump (zlen U) V = inside type U o (k + 1) W.
Proof.
  unfold bump. rewrite lookup_inside. destruct (Z.eqb_spec (zlen U) (-1)); [lia|].
  unfold V, inside. by rewrite Nat2Z.id, insert_app_r_alt, Nat.sub_diag by lia.
Qed.
Lemma sup_ok_inside : 0 <= k < 2 ^ 31 - 1 -> sup_ok (zlen U) V.
Proof. intros Hk. right. split; [lia|]. eexists. split; [apply lookup_inside|]. cbn [jt_size]. lia. Qed.
End Inside.

Lemma inside_app type U o k W W' T : inside type U o k W ++ W' ++ T = inside type U o k (W ++ W') ++ T.
Proof. unfold inside. by rewrite <- !app_assoc; simpl; rewrite <- app_assoc. Qed.

Lemma inside_snoc type U o k W t W' : inside type U o k W ++ t :: W' = inside type U o k (W ++ [t]) ++ W'.
Proof. unfold inside. by rewrite <- !app_assoc; simpl; rewrite <- app_assoc. Qed.
Lemma lookup_inside_key type U o k k' W t W' :
  inside type U o k' (W ++ t :: W') !! Z.to_nat (zlen (inside type U o k W)) = Some t.
Proof.
  rewrite Nat2Z.id. unfold inside. rewrite !length_app. simpl.
  rewrite lookup_app_r by lia. replace (_ + S (length W) - length U)%nat with (S (length W)) by lia. simpl.
  by rewrite list_lookup_middle.
Qed.
Lemma bump_inside_key type U o k k' W t :
  bump (zlen (inside type U o k W)) (inside type U o k' (W ++ [t])) = inside type U o k' (W ++ [incr t]).
Proof.
  unfold bump. rewrite lookup_inside_key. destruct (Z.eqb_spec (zlen (inside type U o k W)) (-1)); [lia|].
  rewrite Nat2Z.id. unfold inside. rewrite !length_app. simpl.
  rewrite insert_app_r_alt by lia. replace (_ + S (length W) - length U)%nat with (S (length W)) by lia. simpl.
  by rewrite insert_app_r_alt, Nat.sub_diag by lia.
Qed.

Lemma closed_app W W' : closed W -> closed W' -> closed (W ++ W').
Proof. apply Forall_app_2. Qed.

Lemma ntoks_pos v : (0 < ntoks v)%nat.
Proof. induction v; simpl; lia. Qed.

Section RoundTrip.
Context (js : list Z) (num : Z).
Let len : Z := zlen js.
Hypothesis Hlen : len < 2 ^ 31.
Hypothesis Hnum : 0 <= num < 2 ^ 31.

Fixpoint is_cont (v : json) : bool :=
  match v with JArr _ | JObj _ => true | JPad _ v _ => is_cont v | _ => false end.
Definition sup_after (v : json) (sup : Z) (U : list jsmntok) : Z :=
  if is_cont v then last_idx open_tok U else sup.

Definition value_parses (v : json) : Prop := forall U R T off sup,
  json_ok v = true -> text_at js off (print v) -> stop js (off + zlen (print v)) -> sup_ok sup U ->
  zlen U + Z.of_nat (ntoks v) <= num -> length R = ntoks v ->
  steps js num (zlen U) (st off (zlen U) sup (U ++ R ++ T))
    (zlen U + Z.of_nat (ntoks v))
    (st (off + zlen (print v)) (zlen U + Z.of_nat (ntoks v)) (sup_after v sup U) (bump sup U ++ toks v off ++ T)).

(** Elements, from behind the opening bracket or a comma at [off]. *)
Definition elems_parse (type : jsmntype) (txt : list Z) (tk : Z -> list jsmntok) (n : nat) (cnt close : Z) : Prop :=
  forall U o k W R T off, 0 <= o -> 0 <= k <= zlen W -> closed W ->
  text_at js (off + 1) (tail txt ++ [close]) -> 0 <= off ->
  zlen (inside type U o k W) + Z.of_nat n <= num -> length R = n ->
  exists sup', steps js num (zlen (inside type U o k W))
    (st (off + 1) (zlen (inside type U o k W)) (zlen U) (inside type U o k W ++ R ++ T))
    (zlen (inside type U o k W) + Z.of_nat n)
    (st (off + 1 + zlen (tail txt)) (zlen (inside type U o k W) + Z.of_nat n) sup'
        (inside type U o (k + cnt) (W ++ tk off) ++ T)).
Definition list_parses (l : jlist) : Prop :=
  list_ok l = true -> elems_parse JSMN_ARRAY (print_list l) (toks_list l) (ntoks_list l) (list_len l) 93.
Definition pairs_parses (l : jpairs) : Prop :=
  pairs_ok l = true -> elems_parse JSMN_OBJECT (print_pairs l) (toks_pairs l) (ntoks_pairs l) (pairs_len l) 125.

Lemma stop_char off c t : text_at js off (c :: t) -> prim_end c = true -> stop js off.
Proof. intros (H & Hjs & _)%text_at_cons Hc. right. exists c. split_and!; try done; lia. Qed.

(** The parent token behind an element: the container, or a key in it. *)
Definition par_ok (sup : Z) (V : list jsmntok) (n : Z) : Prop := 0 <= sup /\ exists t, V !! Z.to_nat sup = Some t /\
  (is_container t = true /\ n = sup \/
   is_container t = false /\ 0 <= n /\ last_idx (fun t => is_container t && open_tok t) V = n).

(** What follows an element: nothing, or a comma and more elements. *)
Lemma elems_continue type txt tk n cnt close U o k W R T off sup :
  (txt = [] /\ n = 0%nat /\ cnt = 0 /\ (forall o, tk o = [])) \/ (exists txt', txt = 44 :: txt') ->
  elems_parse type txt tk n cnt close -> 0 <= o -> 0 <= k <= zlen W -> closed W -> text_at js off (txt ++ [close]) ->
  zlen (inside type U o k W) + Z.of_nat n <= num -> length R = n -> par_ok sup (inside type U o k W) (zlen U) ->
  exists sup', steps js num (zlen (inside type U o k W))
    (st off (zlen (inside type U o k W)) sup (inside type U o k W ++ R ++ T))
    (zlen (inside type U o k W) + Z.of_nat n)
    (st (off + zlen txt) (zlen (inside type U o k W) + Z.of_nat n) sup' (inside type U o (k + cnt) (W ++ tk off) ++ T)).
Proof using All.
  intros Hshape IH Ho Hk HW Ht Hroom HR Hpar. destruct Hshape as [(-> & -> & -> & Htk)|[txt' ->]].
  { exists sup. rewrite Htk, app_nil_r, !Z.add_0_r. destruct R; [|done]. apply steps_refl. }
  pose proof Ht as (H0 & _). simpl in Ht. apply text_at_cons in Ht as (Hoff & Hjs & Ht).
  destruct (IH U o k W R T off) as [sup' Hrest]; try done. exists sup'.
  destruct Hpar as (Hsup & t & Hlk & Hcase).
  eapply steps_trans; [apply (step_comma js num Hlen Hnum) with (t := t) (sup' := zlen U)|].
  - apply text_at_cons. split_and!; [lia|lia|done|]. split_and!; [lia|simpl; lia|done].
  - done.
  - lia.
  - done.
  - done.
  - exact Hcase.
  - cbn [tail] in Hrest. replace (off + zlen (44 :: txt')) with (off + 1 + zlen txt') by (simpl; lia). exact Hrest.
Qed.

Lemma list_step v l : value_parses v -> list_parses l -> list_parses (JCons v l).
Proof using All.
  intros IHv IHl Hok U o k W R T off Ho Hk HW Ht Hoff Hroom HR.
  cbn [ntoks_list print_list toks_list list_len tail] in *. simpl in Hok.
  apply andb_prop in Hok as [Hv Hl]. set (V := inside JSMN_ARRAY U o k W) in *.
  pose proof (length_inside JSMN_ARRAY U W o k) as HVl. fold V in HVl.
  assert (Htoks : closed (toks v (off + 1))) by (apply closed_toks_all; lia).
  rewrite <- app_assoc in Ht. apply text_at_app in Ht as [Htv Htl].
  assert (exists R1 R2, R = R1 ++ R2 /\ length R1 = ntoks v /\ length R2 = ntoks_list l) as (R1 & R2 & -> & HR1 & HR2).
  { exists (take (ntoks v) R), (drop (ntoks v) R). rewrite take_drop, length_take, length_drop. split_and!; [done|lia|lia]. }
  assert (Hstop : stop js (off + 1 + zlen (print v))).
  { destruct l; simpl in Htl; (eapply stop_char; [exact Htl|done]). }
  assert (Hs : sup_ok (zlen U) V) by (apply sup_ok_inside; lia).
  rewrite <- app_assoc.
  pose proof (IHv V R1 (R2 ++ T) (off + 1) (zlen U) Hv Htv Hstop Hs ltac:(lia) HR1) as Hstep.
  assert (HVo : last_idx open_tok V = zlen U) by (by apply last_open_inside).
  assert (HVb : bump (zlen U) V = inside JSMN_ARRAY U o (k + 1) W) by apply bump_inside.
  unfold sup_after in Hstep. rewrite HVo, HVb, inside_app in Hstep.
  replace (if is_cont v then zlen U else zlen U) with (zlen U) in Hstep by (by destruct (is_cont v)).
  set (W' := W ++ toks v (off + 1)) in *.
  assert (HW' : zlen W' = zlen W + Z.of_nat (ntoks v)) by (unfold W'; rewrite length_app, length_toks; lia).
  assert (HVl' : zlen (inside JSMN_ARRAY U o (k + 1) W') = zlen V + Z.of_nat (ntoks v)) by (rewrite length_inside; lia).
  pose proof (ntoks_pos v) as Hpos.
  edestruct (elems_continue JSMN_ARRAY (print_list l) (toks_list l) (ntoks_list l) (list_len l) 93
    U o (k + 1) W' R2 T (off + 1 + zlen (print v)) (zlen U)) as [sup' Hrest]; try done; try lia.
  - destruct l; [by left|right]. by eexists.
  - by apply IHl.
  - by apply closed_app.
  - split; [lia|]. eexists. split; [apply lookup_inside|]. by left.
  - exists sup'. eapply steps_trans; [exact Hstep|]. rewrite HVl' in Hrest.
    replace (zlen V + Z.of_nat (ntoks v + ntoks_list l)) with (zlen V + Z.of_nat (ntoks v) + Z.of_nat (ntoks_list l)) by lia.
    rewrite length_app, (app_assoc W). fold W'.
    replace (off + 1 + Z.of_nat (length (print v) + length (print_list l)))
      with (off + 1 + zlen (print v) + zlen (print_list l)) by lia.
    replace (k + (1 + list_len l)) with (k + 1 + list_len l) by lia. exact Hrest.
Qed.

Lemma forallb_Forall {A} (f : A -> bool) l : forallb f l = true -> Forall (fun x => f x = true) l.
Proof. intros H. apply List.Forall_forall. by apply forallb_forall. Qed.

(** A key with its colon. *)
Lemma steps_key U o k W rk R b ks a off : 0 <= o -> 0 <= k <= zlen W -> closed W ->
  forallb is_ws b = true -> forallb schar_ok ks = true -> forallb is_ws a = true ->
  text_at js off (b ++ quoted ks ++ a ++ [58]) -> zlen (inside JSMN_OBJECT U o k W) < num ->
  let n := zlen (inside JSMN_OBJECT U o k W) in
  let o1 := off + zlen b in
  steps js num n (st off n (zlen U) (inside JSMN_OBJECT U o k W ++ rk :: R)) (n + 1)
    (st (o1 + zlen (quoted ks) + zlen a + 1) (n + 1) n
       (inside JSMN_OBJECT U o (k + 1) (W ++ [Tok JSMN_STRING (o1 + 1) (o1 + 1 + zlen (print_chars ks)) 0]) ++ R)).
Proof using All.
  intros Ho Hk HW Hb Hks Ha Ht Hroom n o1.
  pose proof (length_inside JSMN_OBJECT U W o k) as HVl. fold n in HVl, Hroom.
  apply text_at_app in Ht as [Hb' Ht]. fold o1 in Ht. apply text_at_app in Ht as [Hq Ht].
  apply text_at_app in Ht as [Ha' Hc].
  eapply steps_trans; [apply (steps_ws js num Hlen Hnum b); [by apply forallb_Forall|done]|]. fold o1.
  eapply steps_trans.
  { apply (step_string js num Hlen Hnum) with (es := ks); [done|done|apply sup_ok_inside; lia|by apply forallb_Forall|done]. }
  rewrite bump_inside, inside_snoc.
  replace (o1 + zlen (print_chars ks) + 2) with (o1 + zlen (quoted ks)) by (unfold quoted; simpl; rewrite length_app; simpl; lia).
  eapply steps_trans; [apply (steps_ws js num Hlen Hnum a); [by apply forallb_Forall|done]|].
  pose proof (step_colon js num Hlen Hnum (n + 1) (o1 + zlen (quoted ks) + zlen a) (n + 1) (zlen U)) as Hcol.
  rewrite (Z.add_simpl_r n 1) in Hcol. apply Hcol; [done|lia].
Qed.

Lemma pairs_step b ks a v l : value_parses v -> pairs_parses l -> pairs_parses (PCons b ks a v l).
Proof using All.
  intros IHv IHl Hok U o k W R T off Ho Hk HW Ht Hoff Hroom HR.
  cbn [ntoks_pairs print_pairs toks_pairs pairs_len tail] in *. simpl in Hok.
  apply andb_prop in Hok as [[[[Hb Hks]%andb_prop Ha]%andb_prop Hv]%andb_prop Hl].
  set (V := inside JSMN_OBJECT U o k W) in *.
  pose proof (length_inside JSMN_OBJECT U W o k) as HVl. fold V in HVl.
  replace ((b ++ quoted ks ++ a ++ 58 :: print v ++ print_pairs l) ++ [125])
    with ((b ++ quoted ks ++ a ++ [58]) ++ print v ++ print_pairs l ++ [125]) in Ht
    by (rewrite <- !app_assoc; cbn [app]; by rewrite <- !app_assoc).
  apply text_at_app in Ht as [Htk Htl]. rewrite !length_app in Htl. simpl (length [58]) in Htl.
  set (o1 := off + 1 + zlen b). set (o2 := o1 + zlen (quoted ks) + zlen a + 1).
  replace (off + 1 + Z.of_nat (length b + (length (quoted ks) + (length a + 1)))) with o2 in Htl by (unfold o2, o1; lia).
  apply text_at_app in Htl as [Htv Htl].
  assert (exists rk R1 R2, R = rk :: R1 ++ R2 /\ length R1 = ntoks v /\ length R2 = ntoks_pairs l)
    as (rk & R1 & R2 & -> & HR1 & HR2).
  { destruct R as [|rk R]; [done|]. simpl in HR. exists rk, (take (ntoks v) R), (drop (ntoks v) R).
    rewrite take_drop, length_take, length_drop. split_and!; [done|lia|lia]. }
  simpl ((rk :: R1 ++ R2) ++ T). rewrite <- app_assoc.
  pose proof (steps_key U o k W rk (R1 ++ R2 ++ T) b ks a (off + 1) Ho Hk HW Hb Hks Ha Htk ltac:(fold V; lia)) as Hkey.
  fold V o1 in Hkey. cbv zeta in Hkey. fold o1 o2 in Hkey.
  set (K := Tok JSMN_STRING (o1 + 1) (o1 + 1 + zlen (print_chars ks)) 0) in *.
  set (V1 := inside JSMN_OBJECT U o (k + 1) (W ++ [K])) in *.
  assert (HV1 : zlen V1 = zlen V + 1) by (unfold V1; rewrite length_inside, length_app; simpl; lia).
  assert (HK : open_tok K = false).
  { unfold open_tok, K. cbn [jt_end]. destruct (Z.eqb_spec (o1 + 1 + zlen (print_chars ks)) (-1)); [unfold o1 in *; lia|]. apply andb_false_r. }
  assert (HWK : closed (W ++ [K])) by (apply closed_app; [done|by apply Forall_singleton]).
  assert (Hstop : stop js (o2 + zlen (print v))).
  { destruct l; simpl in Htl; (eapply stop_char; [exact Htl|done]). }
  assert (Hs : sup_ok (zlen V) V1).
  { right. split; [lia|]. exists K. split; [apply lookup_inside_key|]. cbn [jt_size K]. lia. }
  pose proof (IHv V1 R1 (R2 ++ T) o2 (zlen V) Hv Htv Hstop Hs ltac:(lia) HR1) as Hstep.
  assert (HVo : last_idx open_tok V1 = zlen U) by (by apply last_open_inside).
  assert (HVb : bump (zlen V) V1 = inside JSMN_OBJECT U o (k + 1) (W ++ [incr K])) by apply bump_inside_key.
  unfold sup_after in Hstep. rewrite HVo, HVb, inside_app, HV1 in Hstep. rewrite <- (app_assoc W) in Hstep. simpl ([_] ++ _) in Hstep.
  assert (Htoks : closed (incr K :: toks v o2)).
  { apply Forall_cons. split; [done|]. apply closed_toks_all. unfold o2, o1. lia. }
  set (W' := W ++ incr K :: toks v o2) in *.
  assert (HW' : zlen W' = zlen W + 1 + Z.of_nat (ntoks v)) by (unfold W'; rewrite length_app; simpl; rewrite length_toks; lia).
  assert (HVl' : zlen (inside JSMN_OBJECT U o (k + 1) W') = zlen V + 1 + Z.of_nat (ntoks v)) by (rewrite length_inside; lia).
  edestruct (elems_continue JSMN_OBJECT (print_pairs l) (toks_pairs l) (ntoks_pairs l) (pairs_len l) 125
    U o (k + 1) W' R2 T (o2 + zlen (print v)) (if is_cont v then zlen U else zlen V)) as [sup' Hrest]; try done; try lia.
  - destruct l; [by left|right]. by eexists.
  - by apply IHl.
  - by apply closed_app.
  - destruct (is_cont v); (split; [lia|]); eexists; (split; [first [apply lookup_inside|apply lookup_inside_key]|]); [by left|right].
    split_and!; [done|lia|]. apply last_idx_last; [rewrite open_inside; done|].
    eapply Forall_impl; [by apply (closed_app W (incr K :: toks v o2))|]. intros t ->. apply andb_false_r.
  - exists sup'. eapply steps_trans; [exact Hkey|]. eapply steps_trans; [exact Hstep|]. rewrite HVl' in Hrest.
    replace (zlen V + Z.of_nat (S (ntoks v + ntoks_pairs l))) with (zlen V + 1 + Z.of_nat (ntoks v) + Z.of_nat (ntoks_pairs l)) by lia.
    fold o1 o2. cbn zeta. replace (W ++ Tok JSMN_STRING (o1 + 1) (o1 + 1 + zlen (print_chars ks)) 1 :: toks v o2 ++ toks_pairs l (o2 + zlen (print v)))
      with (W' ++ toks_pairs l (o2 + zlen (print v))) by (unfold W'; by rewrite <- app_assoc).
    replace (off + 1 + zlen (b ++ quoted ks ++ a ++ 58 :: print v ++ print_pairs l)) with (o2 + zlen (print v) + zlen (print_pairs l))
      by (unfold o2, o1; rewrite !length_app; simpl; rewrite !length_app; simpl; lia).
    replace (k + (1 + pairs_len l)) with (k + 1 + pairs_len l) by lia. exact Hrest.
Qed.

(** A container, from its elements. *)
Lemma steps_container type txt tk n cnt U r R T off sup :
  type = JSMN_OBJECT \/ type = JSMN_ARRAY ->
  let o := if bool_decide (type = JSMN_OBJECT) then 123 else 91 in
  let c := if bool_decide (type = JSMN_OBJECT) then 125 else 93 in
  elems_parse type txt tk n cnt c -> (forall off, 0 <= off -> closed (tk off)) -> (forall off, length (tk off) = n) ->
  text_at js off (o :: tail txt ++ [c]) -> sup_ok sup U ->
  zlen U + Z.of_nat (S n) <= num -> length R = n ->
  steps js num (zlen U) (st off (zlen U) sup (U ++ r :: R ++ T)) (zlen U + Z.of_nat (S n))
    (st (off + zlen (o :: tail txt ++ [c])) (zlen U + Z.of_nat (S n)) (last_idx open_tok U)
       (bump sup U ++ Tok type off (off + zlen (o :: tail txt ++ [c])) cnt :: tk off ++ T)).
Proof using All.
  intros Htype o c Hel Hcl Hlk Ht Hs Hroom HR.
  pose proof Ht as (Hoff & Hjs & Ht1)%text_at_cons. pose proof Ht1 as (_ & Hclose)%text_at_app.
  eapply steps_trans; [apply (step_open js num Hlen Hnum) with (type := type); [done|lia|done| |done]|].
  { fold o. apply text_at_cons. split_and!; [lia|lia|done|]. split_and!; [lia|simpl; lia|done]. }
  destruct (Hel (bump sup U) off 0 [] R T off) as [sup' Hrest]; try done.
  { lia. } { apply Forall_nil_2. } { lia. }
  { rewrite length_inside, length_bump. simpl. lia. }
  rewrite length_inside, length_bump in Hrest. simpl (zlen []) in Hrest. rewrite Z.add_0_r in Hrest.
  unfold inside at 1 in Hrest. rewrite <- app_assoc in Hrest. simpl in Hrest.
  eapply steps_trans; [exact Hrest|]. unfold inside. rewrite <- app_assoc. simpl ((_ :: _) ++ T).
  pose proof (step_close js num Hlen Hnum (zlen U + 1 + Z.of_nat n) type (bump sup U) off cnt (tk off) T sup'
    (off + 1 + zlen (tail txt)) (zlen U + 1 + Z.of_nat n) Hclose Htype ltac:(lia) (Hcl off ltac:(lia))) as Hstep.
  rewrite length_bump, Hlk, last_idx_bump in Hstep by done. specialize (Hstep eq_refl ltac:(lia)).
  replace (off + zlen (o :: tail txt ++ [c])) with (off + 1 + zlen (tail txt) + 1) by (simpl; rewrite length_app; simpl; lia).
  replace (zlen U + Z.of_nat (S n)) with (zlen U + 1 + Z.of_nat n) by lia. exact Hstep.
Qed.

Lemma value_parses_pad b v a : value_parses v -> value_parses (JPad b v a).
Proof using All.
  intros IH U R T off sup Hok Ht Hstop Hs Hroom HR. simpl in *.
  apply andb_prop in Hok as [[Hb Hv]%andb_prop Ha]. apply text_at_app in Ht as [Htb Ht]. apply text_at_app in Ht as [Htv Hta].
  eapply steps_trans; [apply (steps_ws js num Hlen Hnum b); [by apply forallb_Forall|done]|].
  assert (Hst : stop js (off + zlen b + zlen (print v))).
  { destruct a as [|c a]; [by rewrite !length_app, Nat.add_0_r, Nat2Z.inj_add, Z.add_assoc in Hstop|].
    eapply stop_char; [exact Hta|]. simpl in Ha. apply andb_prop in Ha as [Hc _]. unfold is_ws in Hc.
    apply existsb_exists in Hc as (x & Hx & ->%Z.eqb_eq). simpl in Hx. by destruct Hx as [<-|[<-|[<-|[<-|[]]]]]. }
  eapply steps_trans; [by apply (IH U R T)|].
  replace (off + zlen (b ++ print v ++ a)) with (off + zlen b + zlen (print v) + zlen a) by (rewrite !length_app; lia).
  apply (steps_ws js num Hlen Hnum a); [by apply forallb_Forall|done].
Qed.

Lemma all_parse : (forall v, value_parses v) /\ (forall l, list_parses l) /\ (forall l, pairs_parses l).
Proof using All.
  apply json_ind3.
  - intros p U R T off sup Hok Ht Hstop Hs Hroom HR. simpl in *. apply andb_prop in Hok as [Hp Hc].
    destruct R as [|r [|]]; try done. simpl.
    apply (step_primitive js num Hlen Hnum); [done|lia|done|by apply forallb_Forall|done|done|].
    destruct p as [|c p]; [done|]. intros Hin. apply negb_true_iff in Hc. clear -Hc Hin. set_unfold.
    by destruct Hin as [->|[->|[->|[]]]].
  - intros es U R T off sup Hok Ht Hstop Hs Hroom HR. simpl in *. destruct R as [|r [|]]; try done. simpl.
    pose proof (step_string js num Hlen Hnum U T r sup off (zlen U) eq_refl ltac:(lia) Hs es) as Hstep.
    replace (off + Z.of_nat (S (length (print_chars es ++ [34])))) with (off + zlen (print_chars es) + 2)
      by (rewrite length_app; simpl; lia). apply Hstep; [by apply forallb_Forall|done].
  - intros l IH U R T off sup Hok Ht Hstop Hs Hroom HR. simpl in Hok, HR. destruct R as [|r R]; [done|].
    apply (steps_container JSMN_ARRAY (print_list l)); try done; [by right|by apply IH|apply closed_toks_all|apply length_toks_all|].
    by injection HR.
  - intros l IH U R T off sup Hok Ht Hstop Hs Hroom HR. simpl in Hok, HR. destruct R as [|r R]; [done|].
    apply (steps_container JSMN_OBJECT (print_pairs l)); try done; [by left|by apply IH|apply closed_toks_all|apply length_toks_all|].
    by injection HR.
  - intros b v IH a. by apply value_parses_pad.
  - intros _ U o k W R T off Ho Hk HW Ht Hoff Hroom HR. exists (zlen U). simpl. destruct R; [|done].
    rewrite !Z.add_0_r, app_nil_r. apply steps_refl.
  - intros v IHv l IHl. by apply list_step.
  - intros _ U o k W R T off Ho Hk HW Ht Hoff Hroom HR. exists (zlen U). simpl. destruct R; [|done].
    rewrite !Z.add_0_r, app_nil_r. apply steps_refl.
  - intros. by apply pairs_step.
Qed.
End RoundTrip.

Lemma ntoks_le_all :
  (forall v, json_ok v = true -> (ntoks v <= length (print v))%nat) /\
  (forall l, list_ok l = true -> (ntoks_list l <= length (tail (print_list l)))%nat) /\
  (forall l, pairs_ok l = true -> (ntoks_pairs l <= length (tail (print_pairs l)))%nat).
Proof.
  assert (Ht : forall l : list Z, (length (tail l) <= length l)%nat) by (intros [|? ?]; simpl; lia).
  apply json_ind3; simpl; intros; repeat match goal with H : _ && _ = true |- _ => apply andb_prop in H as [? ?] end;
    repeat match goal with IH : ?b = true -> _, H : ?b = true |- _ => specialize (IH H) end;
    repeat match goal with |- context [print_list ?l] => pose proof (Ht (print_list l)); generalize dependent (print_list l); intros
                         | |- context [print_pairs ?l] => pose proof (Ht (print_pairs l)); generalize dependent (print_pairs l); intros end;
    repeat (rewrite ?length_app; simpl); try lia.
  destruct p; [done|simpl; lia].
Qed.

(** The text of a value is tokenized into its tokens. *)
Lemma parse_print v T p q r : json_ok v = true -> zlen (print v) < 2 ^ 31 ->
  (ntoks v <= length T)%nat -> zlen T < 2 ^ 31 ->
  wp (jsmn_parse (print v) (zlen (print v)) (zlen T))
    (fun n s => n = Z.of_nat (ntoks v) /\ js_tokens s = Some (toks v 0 ++ drop (ntoks v) T))
    (jsmn_init (Jsmn p q r (Some T))).
Proof.
  intros Hok Hlen Hn HT. destruct (all_parse (print v) (zlen T) Hlen ltac:(lia)) as (Hall & _).
  specialize (Hall v [] (take (ntoks v) T) (drop (ntoks v) T) 0 (-1) Hok).
  unfold jsmn_parse. wp_step. eapply steps_loop.
  - exact Hlen.
  - lia.
  - simpl. lia.
  - simpl app in Hall. rewrite take_drop in Hall. apply Hall.
    + split_and!; [lia|simpl; lia|]. intros i c Hi. by rewrite Z.add_0_l, Nat2Z.id.
    + by left.
    + by left.
    + simpl. lia.
    + rewrite length_take. lia.
  - done.
  - cbv beta iota. wp_steps. cbn [js_toknext st]. simpl (zlen []). rewrite Z.add_0_l, s32_small by lia.
    apply wp_scan_down; [by rewrite length_toks|lia|]. rewrite last_idx_none by (apply closed_toks_all; lia).
    by wp_step.
Qed.

Lemma json_two_passes v T p q r : json_ok v = true -> zlen (print v) < 2 ^ 31 ->
  (ntoks v <= length T)%nat -> zlen T < 2 ^ 31 ->
  (exists s, jsmn_parse (print v) (zlen (print v)) 0 (jsmn_init (Jsmn p q r None)) = Done (Z.of_nat (ntoks v), s)) /\
  (exists s, jsmn_parse (print v) (zlen (print v)) (zlen T) (jsmn_init (Jsmn p q r (Some T))) = Done (Z.of_nat (ntoks v), s) /\
     js_tokens s = Some (toks v 0 ++ drop (ntoks v) T)).
Proof.
  intros Hok Hlen Hn HT. destruct (wp_run _ _ _ (parse_print v T p q r Hok Hlen Hn HT)) as (n & s & E & -> & Htk).
  split; [|by eauto]. eapply count_pass; [|exact E|lia]. by split_and!.
Qed.

(** C14. Tokenizing the text of a JSON value, with any white space, the way the
    configuration reader does: the pass without a token array returns the
    number of tokens, and the pass with an array of at least that many returns
    it again and fills the array with exactly the tokens of the value (types,
    offsets and child counts), leaving the rest alone. *)
Theorem jsmn_roundtrip v T p q r : json_ok v = true -> zlen (print v) < 2 ^ 31 ->
  (ntoks v <= length T)%nat -> zlen T < 2 ^ 31 ->
  (exists s, jsmn_parse (print v) (zlen (print v)) 0 (jsmn_init (Jsmn p q r None)) = Done (Z.of_nat (ntoks v), s)) /\
  (exists s, jsmn_parse (print v) (zlen (print v)) (zlen T) (jsmn_init (Jsmn p q r (Some T))) = Done (Z.of_nat (ntoks v), s) /\
     js_tokens s = Some (toks v 0 ++ drop (ntoks v) T)).
Proof. exact (json_two_passes v T p q r). Qed.

(** An object with one key and an array of a number and an escaped string. *)
Definition sample : json :=
  JObj (PCons [] [SPlain 97] [] (JPad [32] (JArr (JCons (JPrim [49]) (JCons (JPad [32] (JStr [SEsc 110]) []) JNil))) [32]) PNil).
Lemma jsmn_roundtrip_witness :
  json_ok sample = true /\
  exists s, jsmn_parse (print sample) 17 5 (jsmn_init (Jsmn 0 0 0 (Some (replicate 5 (Tok JSMN_PRIMITIVE 0 0 0))))) = Done (5, s) /\
    js_tokens s = Some [Tok JSMN_OBJECT 0 17 1; Tok JSMN_STRING 2 3 1; Tok JSMN_ARRAY 6 15 2;
                        Tok JSMN_PRIMITIVE 7 8 0; Tok JSMN_STRING 11 13 0].
Proof.
  split; [reflexivity|].
  exact (proj2 (jsmn_roundtrip sample (replicate 5 (Tok JSMN_PRIMITIVE 0 0 0)) 0 0 0 eq_refl eq_refl
    ltac:(simpl; lia) eq_refl)).
Defined.

(** A comma before any value indexes the token array with -1: the parser's
    current parent is then none, and the comma's test reads its type without
    checking. *)
Theorem jsmn_comma_out_of_bounds rest T num p q r :
  jsmn_parse (44 :: rest) (zlen (44 :: rest)) num (jsmn_init (Jsmn p q r (Some T))) = Halted "tokens index".
Proof.
  unfold jsmn_parse. unfold cbind at 1. rewrite (loop_halts _ _ "tokens index"); [done|].
  unfold parse_body, more, js_at. unfold cbind at 1. unfold cbind at 1. simpl js_pos. unfold mget at 1.
  destruct (Z.ltb_spec 0 (zlen (44 :: rest))); [|simpl in *; lia]. done.
Qed.

(** The counting pass returns on every text, NUL bytes and broken JSON
    included: an error code, or a count of at most one token per character. *)
Theorem jsmn_count_total (js : list Z) p q r num : zlen js < 2 ^ 31 ->
  exists n s, jsmn_parse js (zlen js) num (jsmn_init (Jsmn p q r None)) = Done (n, s) /\
    (n = JSMN_ERROR_INVAL \/ n = JSMN_ERROR_PART \/ 0 <= n <= zlen js).
Proof. intros Hlen. exact (wp_run _ _ _ (wp_count_total js num Hlen)). Qed.
Lemma jsmn_count_total_witness : zlen [91; 0; 200] < 2 ^ 31 /\
  exists n s, jsmn_parse [91; 0; 200] 3 0 (jsmn_init (Jsmn 5 5 5 None)) = Done (n, s) /\
    (n = JSMN_ERROR_INVAL \/ n = JSMN_ERROR_PART \/ 0 <= n <= 3).
Proof. split; [reflexivity|]. exact (jsmn_count_total [91; 0; 200] 5 5 5 0 eq_refl). Defined.
