(* ===== verification/Parseargs.v ===== *)
(** * Splitting a command line (lib/librumprun_base/parseargs.c)

    The text is split in place: the arguments overwrite it, and the array
    receives their addresses.  A call without an array only counts. *)

From S2P Require Import Prelude CString CStringThms.

Definition SQUOTE : Z := 39.
Definition DQUOTE : Z := 34.
Definition BSLASH : Z := 92.
(** Space, newline and tab. *)
Definition is_blank (ac : Z) : bool := existsb (Z.eqb ac) [32; 10; 9].

(** The local variables; [pa_arr] is the part of the array that is filled. *)
Record pargs := Pargs { pa_p : Z; pa_out : option Z; pa_quote : Z; pa_nargs : Z; pa_arr : list Z }.

(** [if (out) *out++ = c] *)
Definition put_out (out : option Z) (c : Z) : M (gmap Z Z) (option Z) :=
  match out with None => cret None | Some o => wr o (u8 c) ;;; cret (Some (o + 1)) end.
(** The next character, and what it stands for. *)
Definition next_char (p : Z) : M (gmap Z Z) (Z * Z * Z) :=
  ac <-- rdc p ;;
  if ac =? BSLASH then rc <-- rdc (p + 1) ;; cret (ac, rc, p + 2) else cret (ac, ac, p + 1).

Section Parse.
Variable cap : option Z.       (* the size of the array, if there is one *)

Definition start_arg (p : Z) (st : pargs) : M (gmap Z Z) pargs :=
  match cap with
  | None => cret (Pargs p (pa_out st) 0 (s32 (pa_nargs st + 1)) (pa_arr st))
  | Some n =>
      massert (pa_nargs st <? n) "outarray index" ;;;
      cret (Pargs p (Some (p - 1)) 0 (s32 (pa_nargs st + 1)) (pa_arr st ++ [p - 1]))
  end.

Definition parse_with (st : pargs) (ac rc p : Z) : M (gmap Z Z) (pargs + (Z * list Z)) :=
  let delim := (rc =? 0) || is_blank ac in
  '(out, quote) <-- (if delim && ((rc =? 0) || (pa_quote st =? 0))
                     then out <-- put_out (pa_out st) 0 ;; cret (out, -1)
                     else cret (pa_out st, pa_quote st)) ;;
  let st := Pargs p out quote (pa_nargs st) (pa_arr st) in
  if rc =? 0 then cret (inr (pa_nargs st, pa_arr st))
  else if delim && (quote <? 0) then cret (inl st) else
  st <-- (if quote <? 0 then start_arg p st else cret st) ;;
  if (0 <? pa_quote st) && (ac =? pa_quote st) then
    cret (inl (Pargs p (pa_out st) 0 (pa_nargs st) (pa_arr st)))
  else if (ac =? SQUOTE) || (ac =? DQUOTE) then
    cret (inl (Pargs p (pa_out st) ac (pa_nargs st) (pa_arr st)))
  else
    out <-- put_out (pa_out st) rc ;;
    cret (inl (Pargs p out (pa_quote st) (pa_nargs st) (pa_arr st))).
Definition parse_one (st : pargs) : M (gmap Z Z) (pargs + (Z * list Z)) :=
  '(ac, rc, p) <-- next_char (pa_p st) ;; parse_with st ac rc p.

Definition rumprun_parseargs (p : Z) : M (gmap Z Z) (Z * list Z) :=
  loopM parse_one (Pargs p None (-1) 0 []).
End Parse.

(** ** The arguments of a text *)
Fixpoint split_args (quote : Z) (cur s : list Z) : list (list Z) :=
  match s with
  | [] => if quote <? 0 then [] else [cur]
  | c :: s =>
      if c =? BSLASH then
        match s with
        | [] => if quote <? 0 then [] else [cur]
        | c :: s => split_args (Z.max quote 0) (if quote <? 0 then [c] else cur ++ [c]) s
        end
      else if is_blank c && (quote <=? 0) then
        (if quote <? 0 then [] else [cur]) ++ split_args (-1) [] s
      else
        let cur := if quote <? 0 then [] else cur in
        if (0 <? quote) && (c =? quote) then split_args 0 cur s
        else if (c =? SQUOTE) || (c =? DQUOTE) then split_args c cur s
        else split_args (Z.max quote 0) (cur ++ [c]) s
  end.
Definition args_of (s : list Z) : list (list Z) := split_args (-1) [] s.

(** ** Texts that quote given arguments

    A piece of an argument: a plain character, an escaped one, or a quoted run
    of characters, each escaped or not. *)
Inductive piece := PPlain (c : Z) | PEsc (c : Z) | PQuote (q : Z) (l : list (bool * Z)).
Definition special (c : Z) : bool := existsb (Z.eqb c) [0; BSLASH; SQUOTE; DQUOTE].
Definition char_ok (c : Z) : bool := (0 <? c) && (c <? 256).
Definition piece_ok (x : piece) : bool :=
  match x with
  | PPlain c => char_ok c && negb (special c || is_blank c)
  | PEsc c => char_ok c
  | PQuote q l => ((q =? SQUOTE) || (q =? DQUOTE)) &&
      forallb (fun '(esc, c) => char_ok c && (esc || negb (special c))) l
  end.
Definition quoted_char (x : bool * Z) : list Z := let '(esc, c) := x in if esc : bool then [BSLASH; c] else [c].
Definition piece_text (x : piece) : list Z :=
  match x with
  | PPlain c => [c]
  | PEsc c => [BSLASH; c]
  | PQuote q l => q :: concat (map quoted_char l) ++ [q]
  end.
Definition piece_chars (x : piece) : list Z :=
  match x with PPlain c | PEsc c => [c] | PQuote _ l => map snd l end.
(** Every argument is followed by blanks, the last possibly by none. *)
Fixpoint cmdline_text (l : list (list piece * list Z)) : list Z :=
  match l with [] => [] | (x, b) :: l => concat (map piece_text x) ++ b ++ cmdline_text l end.
Fixpoint cmdline_ok (l : list (list piece * list Z)) : bool :=
  match l with
  | [] => true
  | (x, b) :: l => forallb piece_ok x && negb (bool_decide (x = [])) && forallb is_blank b &&
      (negb (bool_decide (b = [])) || bool_decide (l = [])) && cmdline_ok l
  end.
Definition cmdline_args (l : list (list piece * list Z)) : list (list Z) :=
  map (fun '(x, _) => concat (map piece_chars x)) l.

(** * Splitting a command line: both passes against the arguments of the text *)



Lemma char_of_eqb c k : byte c -> 0 <= k < 128 -> (char_of c =? k) = (c =? k).
Proof.
  unfold byte. intros Hc Hk. unfold char_of, swrap. change (2 ^ (8 - 1)) with 128. change (2 ^ 8) with 256.
  destruct (Z.eqb_spec c k) as [->|]; [rewrite Z.mod_small by lia; lia|].
  apply Z.eqb_neq. destruct (Z_lt_ge_dec c 128); [rewrite Z.mod_small by lia; lia|].
  replace (c + 128) with (c - 128 + 1 * 256) by lia. rewrite Z_mod_plus_full, Z.mod_small by lia. lia.
Qed.
Lemma char_of_blank c : byte c -> is_blank (char_of c) = is_blank c.
Proof. intros Hc. unfold is_blank. cbn [existsb]. by rewrite !char_of_eqb by (done || lia). Qed.
Lemma u8_char_of c : byte c -> u8 (char_of c) = c.
Proof.
  unfold byte, u8, char_of, swrap. intros Hc. change (2 ^ (8 - 1)) with 128. change (2 ^ 8) with 256.
  rewrite Zminus_mod_idemp_l. replace (c + 128 - 128) with c by lia. rewrite Z.mod_small; lia.
Qed.

Lemma bytes_at_cons m a b l : bytes_at m a (b :: l) <-> m !! a = Some b /\ bytes_at m (a + 1) l.
Proof.
  unfold bytes_at. split.
  - intros H. split; [specialize (H 0%nat b eq_refl); by rewrite Z.add_0_r in H|].
    intros i c Hi. specialize (H (S i) c Hi). by replace (a + 1 + Z.of_nat i) with (a + Z.of_nat (S i)) by lia.
  - intros [H0 H] [|i] c Hi; cbn in Hi; [injection Hi as <-; by rewrite Z.add_0_r|].
    replace (a + Z.of_nat (S i)) with (a + 1 + Z.of_nat i) by lia. auto.
Qed.
Lemma cstr_nil m a : cstr m a [] <-> m !! a = Some 0.
Proof.
  unfold cstr. cbn [app]. rewrite bytes_at_cons. split; [tauto|]. intros H. split; [|constructor]. split; [done|].
  intros i b Hi. by rewrite lookup_nil in Hi.
Qed.
Lemma cstr_cons m a b l : cstr m a (b :: l) <-> 0 < b < 256 /\ m !! a = Some b /\ cstr m (a + 1) l.
Proof. unfold cstr. cbn [app]. rewrite bytes_at_cons, Forall_cons. tauto. Qed.
Lemma bytes_at_insert m a l x v : bytes_at m a l -> x < a \/ a + zlen l <= x -> bytes_at (<[x := v]> m) a l.
Proof.
  intros H Hx i b Hi. apply lookup_lt_Some in Hi as Hl. rewrite lookup_insert_ne by lia. auto.
Qed.
Lemma cstr_insert m a l x v : cstr m a l -> x < a \/ a + zlen l < x -> cstr (<[x := v]> m) a l.
Proof.
  intros [H Hf] Hx. split; [|done]. apply bytes_at_insert; [done|]. rewrite length_app. cbn. lia.
Qed.
Lemma bytes_at_snoc m a l v : bytes_at m a l -> bytes_at (<[a + zlen l := v]> m) a (l ++ [v]).
Proof.
  intros H i b Hi. destruct (decide (i = length l)) as [->|Hne].
  - rewrite list_lookup_middle in Hi by done. injection Hi as <-. apply lookup_insert_eq.
  - rewrite lookup_insert_ne by lia. apply H. apply lookup_lt_Some in Hi as Hl. rewrite length_app in Hl. cbn in Hl.
    by rewrite lookup_app_l in Hi by lia.
Qed.

(** ** Reading *)
Definition char_view (s : list Z) (p : Z) : Z * Z * Z :=
  match s with
  | [] => (0, 0, p + 1)
  | c :: s => if c =? BSLASH then match s with [] => (BSLASH, 0, p + 2) | d :: _ => (BSLASH, char_of d, p + 2) end
              else (char_of c, char_of c, p + 1)
  end.
Lemma wp_next_char m p s Q : cstr m p s -> Q (char_view s p) m -> wp (next_char p) Q m.
Proof.
  unfold next_char, char_view. intros Hs HQ. apply wp_bind. destruct s as [|c s].
  { apply cstr_nil in Hs. eapply wp_rdc; [exact Hs|]. apply wp_ret, HQ. }
  apply cstr_cons in Hs as (Hc & E & Hs). eapply wp_rdc; [exact E|].
  rewrite char_of_eqb by (unfold byte, BSLASH; lia).
  destruct (Z.eqb_spec c BSLASH) as [->|]; [|by apply wp_ret].
  apply wp_bind. destruct s as [|d s].
  - apply cstr_nil in Hs. eapply wp_rdc; [exact Hs|]. by apply wp_ret.
  - apply cstr_cons in Hs as (Hd & E' & _). eapply wp_rdc; [exact E'|]. by apply wp_ret.
Qed.

(** ** The array and the arguments in place

    The finished arguments lie below [lo]; the open one starts there. *)
Definition placed (cap : option Z) (m0 m : gmap Z Z) (b lo p : Z) (out : option Z) (quote : Z) (arr : list Z)
    (fin : list (list Z)) (cur : list Z) : Prop :=
  match cap with
  | None => m = m0 /\ out = None /\ arr = []
  | Some _ => exists ptrs, b <= lo /\
      Forall2 (fun a l => b <= a /\ a + zlen l < lo /\ cstr m a l) ptrs fin /\
      Forall (fun c => 0 < c < 256) cur /\
      if quote <? 0 then arr = ptrs /\ (out = None \/ exists o, out = Some o /\ lo <= o <= p)
      else arr = ptrs ++ [lo] /\ out = Some (lo + zlen cur) /\ lo + zlen cur <= p /\ bytes_at m lo cur
  end.

(** At most one byte between [b] and [hi] has changed. *)
Definition wrote (m m' : gmap Z Z) (b hi : Z) : Prop := m' = m \/ exists o v, b <= o <= hi /\ m' = <[o := v]> m.
Definition outside_same (m0 m : gmap Z Z) (b n : Z) : Prop := forall x, ~ (b <= x <= b + n) -> m !! x = m0 !! x.

Lemma wrote_cstr m m' b hi p s : wrote m m' b hi -> hi < p -> cstr m p s -> cstr m' p s.
Proof. intros [->|(o & v & Ho & ->)] Hp Hs; [done|]. apply cstr_insert; [done|lia]. Qed.
Lemma wrote_outside m0 m m' b hi n : wrote m m' b hi -> hi <= b + n -> outside_same m0 m b n -> outside_same m0 m' b n.
Proof. intros [->|(o & v & Ho & ->)] Hn H; [done|]. intros y Hy. rewrite lookup_insert_ne by lia. auto. Qed.
Lemma wrote_room m m' b hi a n : wrote m m' b hi -> room m a n -> room m' a n.
Proof.
  intros [->|(o & v & Ho & ->)] H; [done|]. intros i Hi. destruct (decide (o = a + i)) as [->|]; [by rewrite lookup_insert_eq|].
  rewrite lookup_insert_ne by done. auto.
Qed.

Lemma Forall2_cstr_insert m b lo ptrs fin x v :
  Forall2 (fun a l => b <= a /\ a + zlen l < lo /\ cstr m a l) ptrs fin -> lo <= x ->
  Forall2 (fun a l => b <= a /\ a + zlen l < lo /\ cstr (<[x := v]> m) a l) ptrs fin.
Proof. intros H Hx. eapply Forall2_impl; [exact H|]. intros a l (? & ? & ?). split_and!; try done. apply cstr_insert; [done|lia]. Qed.
Lemma Forall2_cstr_lo m b lo lo' ptrs (fin : list (list Z)) : lo <= lo' ->
  Forall2 (fun a l => b <= a /\ a + zlen l < lo /\ cstr m a l) ptrs fin ->
  Forall2 (fun a l => b <= a /\ a + zlen l < lo' /\ cstr m a l) ptrs fin.
Proof. intros Hlo H. eapply Forall2_impl; [exact H|]. intros a l (? & ? & ?). split_and!; try done. lia. Qed.

Definition ended (quote : Z) (cur : list Z) : list (list Z) := if quote <? 0 then [] else [cur].

(** The end of an argument, or of the text. *)
Lemma wp_end_arg cap m0 m b lo p p' out quote arr fin cur n :
  placed cap m0 m b lo p out quote arr fin cur -> room m b (n + 1) -> lo <= p -> p <= b + n -> p < p' ->
  wp (put_out out 0) (fun out' m' => wrote m m' b p /\ exists lo', lo' <= p' /\
    placed cap m0 m' b lo' p' out' (-1) arr (fin ++ ended quote cur) []) m.
Proof.
  intros Hp Hr Hlo Hn Hp'. unfold placed, ended in *. destruct cap as [k|].
  2:{ destruct Hp as (-> & -> & ->). apply wp_ret. split; [by left|]. exists lo. split; [lia|done]. }
  destruct Hp as (ptrs & Hb & Hf & Hc & H). change (-1 <? 0) with true. cbn match. destruct (Z.ltb_spec quote 0).
  - destruct H as [-> [->|(o & -> & Ho)]]; rewrite app_nil_r.
    + apply wp_ret. split; [by left|]. exists lo. split; [lia|]. exists ptrs. split_and!; eauto.
    + apply wp_bind, wp_wr; [replace o with (b + (o - b)) by lia; apply Hr; lia|]. apply wp_ret.
      split; [right; exists o; eexists; split; [|reflexivity]; lia|]. exists lo. split; [lia|]. exists ptrs.
      split_and!; [done|by apply Forall2_cstr_insert; [|lia]|constructor|done|]. right. eexists. split; [done|]. lia.
  - destruct H as (-> & -> & Ho & Hby). change (u8 0) with 0.
    apply wp_bind, wp_wr; [replace (lo + zlen cur) with (b + (lo + zlen cur - b)) by lia; apply Hr; lia|]. apply wp_ret.
    split; [right; do 2 eexists; split; [|reflexivity]; lia|]. exists (lo + zlen cur + 1). split; [lia|].
    exists (ptrs ++ [lo]). split_and!; [lia| |constructor|done|right; eexists; split; [done|]; lia].
    apply Forall2_app; [apply (Forall2_cstr_lo _ _ lo); [lia|]; apply Forall2_cstr_insert; [done|lia]|].
    constructor; [|constructor]. split_and!; [lia|lia|]. split; [by apply bytes_at_snoc|done].
Qed.

(** One more character of the open argument. *)
Lemma wp_add_char cap m0 m b lo p out quote arr fin cur c n :
  placed cap m0 m b lo p out quote arr fin cur -> 0 <= quote -> (cap <> None -> lo + zlen cur < p) ->
  room m b (n + 1) -> p - 1 <= b + n -> 0 < c < 256 ->
  wp (put_out out (char_of c)) (fun out' m' => wrote m m' b (p - 1) /\ placed cap m0 m' b lo p out' quote arr fin (cur ++ [c])) m.
Proof.
  intros Hp Hq Hlt Hr Hn Hc. unfold placed in *. destruct cap as [k|].
  2:{ destruct Hp as (-> & -> & ->). apply wp_ret. split; [by left|done]. }
  destruct Hp as (ptrs & Hb & Hf & Hcur & H). destruct (Z.ltb_spec quote 0); [lia|].
  destruct H as (-> & -> & Ho & Hby). specialize (Hlt ltac:(done)).
  apply wp_bind, wp_wr; [replace (lo + zlen cur) with (b + (lo + zlen cur - b)) by lia; apply Hr; lia|]. apply wp_ret.
  rewrite u8_char_of by (unfold byte; lia).
  split; [right; do 2 eexists; split; [|reflexivity]; lia|]. exists ptrs. rewrite length_app. cbn [length].
  split_and!; [done|apply Forall2_cstr_insert; [done|lia]| |done|f_equal; lia|lia|by apply bytes_at_snoc].
  apply Forall_app; split; [done|]. by constructor.
Qed.

(** The start of an argument. *)
Lemma placed_start cap m0 m b lo p p' out arr fin cur :
  placed cap m0 m b lo p out (-1) arr fin cur -> lo <= p -> p < p' ->
  placed cap m0 m b (p' - 1) p' (match cap with Some _ => Some (p' - 1) | None => out end) 0
    (match cap with Some _ => arr ++ [p' - 1] | None => arr end) fin [].
Proof.
  unfold placed. destruct cap as [k|]; [|done]. intros (ptrs & Hb & Hf & Hc & -> & _) Hlo Hp. cbn match.
  change (0 <? 0) with false. cbn match. exists ptrs. cbn [length].
  split_and!; [lia|by apply (Forall2_cstr_lo _ _ lo); [lia|]|constructor|done|f_equal; lia|lia|].
  intros i c Hi. by rewrite lookup_nil in Hi.
Qed.
Lemma placed_ahead cap m0 m b lo p p' out quote arr fin cur : p <= p' ->
  placed cap m0 m b lo p out quote arr fin cur -> placed cap m0 m b lo p' out quote arr fin cur.
Proof.
  unfold placed. destruct cap; [|done]. intros Hp (ptrs & Hb & Hf & Hc & H). exists ptrs. split_and!; try done.
  destruct (quote <? 0); [|intuition lia]. destruct H as [-> [->|(o & -> & Ho)]]; split; auto. right. exists o. split; [done|lia].
Qed.
Lemma placed_quote cap m0 m b lo p out q q' arr fin cur : 0 <= q -> 0 <= q' ->
  placed cap m0 m b lo p out q arr fin cur -> placed cap m0 m b lo p out q' arr fin cur.
Proof. unfold placed. intros. destruct (Z.ltb_spec q 0), (Z.ltb_spec q' 0); try lia; done. Qed.

(** ** The loop *)
Definition pa_inv (cap : option Z) (m0 : gmap Z Z) (b : Z) (s : list Z) (st : pargs) (m : gmap Z Z) : Prop :=
  exists lo fin cur rest,
    args_of s = fin ++ split_args (pa_quote st) cur rest /\
    pa_nargs st = zlen fin + (if pa_quote st <? 0 then 0 else 1) /\ pa_nargs st <= pa_p st - b /\
    cstr m (pa_p st) rest /\ pa_p st + zlen rest = b + zlen s /\
    (pa_quote st = -1 \/ pa_quote st = 0 \/ pa_quote st = SQUOTE \/ pa_quote st = DQUOTE) /\
    lo <= pa_p st /\ outside_same m0 m b (zlen s) /\ room m b (zlen s + 1) /\
    placed cap m0 m b lo (pa_p st) (pa_out st) (pa_quote st) (pa_arr st) fin cur.
Definition pa_post (cap : option Z) (m0 : gmap Z Z) (b : Z) (s : list Z) (r : Z * list Z) (m : gmap Z Z) : Prop :=
  r.1 = zlen (args_of s) /\ outside_same m0 m b (zlen s) /\
  match cap with None => m = m0 /\ r.2 = [] | Some _ =>
    Forall2 (fun a l => b <= a /\ a + zlen l <= b + zlen s /\ cstr m a l) r.2 (args_of s) end.
Definition pa_result cap m0 b s (st : pargs) (r : pargs + (Z * list Z)) (m : gmap Z Z) : Prop :=
  match r with
  | inl st' => pa_inv cap m0 b s st' m /\ pa_p st < pa_p st'
  | inr r => pa_post cap m0 b s r m
  end.

Lemma split_open q cur s : 0 <= q -> exists l l', split_args q cur s = l :: l'.
Proof.
  revert q cur. induction s as [s IH] using (induction_ltof1 _ (@length Z)); unfold ltof in IH. intros q cur Hq.
  assert (Hlt : (q <? 0) = false) by lia.
  destruct s as [|c s]; cbn [split_args]; rewrite ?Hlt; [by eauto|].
  destruct (c =? BSLASH).
  { destruct s as [|d s]; [by eauto|]. apply IH; [cbn; lia|lia]. }
  destruct (is_blank c && (q <=? 0)); [by eauto|]. cbv zeta.
  destruct ((0 <? q) && (c =? q)); [apply IH; cbn; lia|].
  destruct ((c =? SQUOTE) || (c =? DQUOTE)) eqn:E; [|apply IH; cbn; lia].
  apply IH; [cbn; lia|]. unfold SQUOTE, DQUOTE in E. lia.
Qed.

Ltac quotes := change (-1 <? 0) with true in *; change (-1 =? 0) with false in *; change (0 <? 0) with false in *;
  change (0 =? 0) with true in *; change (-1 <=? 0) with true in *; change (0 <=? 0) with true in *; cbn [andb orb app] in *; cbv beta iota in *.
Section Loop.
Context (cap : option Z) (m0 : gmap Z Z) (b : Z) (s : list Z).
Hypothesis Hs : zlen s < 2 ^ 31 - 1.
Hypothesis Hcap : forall n, cap = Some n -> zlen (args_of s) <= n.

Lemma pa_end st m ac p' rest : (forall q cur, split_args q cur rest = ended q cur) ->
  (exists lo fin cur, args_of s = fin ++ split_args (pa_quote st) cur rest /\
    pa_nargs st = zlen fin + (if pa_quote st <? 0 then 0 else 1) /\
    pa_p st <= b + zlen s /\ lo <= pa_p st /\ outside_same m0 m b (zlen s) /\ room m b (zlen s + 1) /\
    placed cap m0 m b lo (pa_p st) (pa_out st) (pa_quote st) (pa_arr st) fin cur) ->
  pa_p st < p' -> wp (parse_with cap st ac 0 p') (pa_result cap m0 b s st) m.
Proof using All.
  intros Hend (lo & fin & cur & E & En & Hp & Hlo & Hout & Hr & Hpl) Hp'. unfold parse_with.
  change (0 =? 0) with true. cbn [orb andb]. cbv zeta. apply wp_bind, wp_bind.
  eapply wp_mono; [eapply (wp_end_arg _ _ _ _ _ _ (pa_p st + 1)); try done; lia|]. intros out' m' (Hw & lo' & Hlo' & Hpl').
  apply wp_ret. cbv beta iota. apply wp_ret. rewrite Hend in E. unfold pa_result, pa_post. cbn [fst snd pa_nargs pa_arr].
  split_and!; [|by eapply wrote_outside|].
  - rewrite En, E, length_app. unfold ended. destruct (pa_quote st <? 0); cbn [length]; lia.
  - unfold placed in Hpl'. destruct cap; [|tauto]. destruct Hpl' as (ptrs & _ & Hf & _ & H). cbn in H. destruct H as [-> _].
    rewrite E. eapply Forall2_impl; [exact Hf|]. intros ?? (? & ? & ?). split_and!; try done; lia.
Qed.

(** A blank outside quotes. *)
Lemma pa_blank st m c rest : is_blank c = true -> 0 < c < 256 -> pa_quote st <= 0 ->
  (exists lo fin cur, args_of s = fin ++ split_args (pa_quote st) cur (c :: rest) /\
    pa_nargs st = zlen fin + (if pa_quote st <? 0 then 0 else 1) /\ pa_nargs st <= pa_p st - b /\
    cstr m (pa_p st + 1) rest /\ pa_p st + 1 + zlen rest = b + zlen s /\
    (pa_quote st = -1 \/ pa_quote st = 0) /\ lo <= pa_p st /\ outside_same m0 m b (zlen s) /\ room m b (zlen s + 1) /\
    placed cap m0 m b lo (pa_p st) (pa_out st) (pa_quote st) (pa_arr st) fin cur) ->
  wp (parse_with cap st (char_of c) (char_of c) (pa_p st + 1)) (pa_result cap m0 b s st) m.
Proof using All.
  intros Hc Hby Hq (lo & fin & cur & E & En & Hna & Hrest & Hlen & Hq' & Hlo & Hout & Hr & Hpl). unfold parse_with.
  rewrite char_of_blank, char_of_eqb, Hc by (unfold byte; lia). assert ((c =? 0) = false) as -> by lia.
  cbn [orb andb]. cbv zeta. cbn [split_args] in E. rewrite Hc in E.
  assert ((c =? BSLASH) = false) as Ebs by (unfold is_blank, BSLASH in *; cbn in Hc; lia).
  assert ((pa_quote st <=? 0) = true) as Eq by lia. rewrite Ebs, Eq in E. cbn [andb] in E.
  destruct Hq' as [Hq'|Hq']; rewrite Hq' in *; quotes.
  - apply wp_bind, wp_ret. quotes. cbn [pa_quote pa_nargs pa_p pa_arr pa_out]. apply wp_ret. split; [|cbn; lia]. exists lo, fin, [], rest. cbn [pa_quote pa_nargs pa_p pa_arr pa_out].
    split_and!; try done; try lia. unfold placed in *. destruct cap; [|done].
    destruct Hpl as (ptrs & ? & ? & ? & -> & Ho). exists ptrs. split_and!; try done. cbn. split; [done|].
    destruct Ho as [->|(o & -> & ?)]; [by left|]. right. exists o. split; [done|lia].
  - apply wp_bind, wp_bind. eapply wp_mono; [by eapply (wp_end_arg _ _ _ _ _ _ (pa_p st + 1)); try done; lia|].
    intros out' m' (Hw & lo' & Hlo' & Hpl'). apply wp_ret. quotes. apply wp_ret. split; [|cbn; lia].
    exists lo', (fin ++ [cur]), [], rest. cbn [pa_quote pa_nargs pa_p pa_arr pa_out]. quotes. rewrite <- app_assoc, length_app. cbn [length].
    split_and!; try done; try lia; try tauto; [by eapply wrote_cstr; [done|lia|]|by eapply wrote_outside; [done|lia|]|by eapply wrote_room].
Qed.

(** The rest of the loop body, inside an argument. *)
Definition in_arg (st : pargs) (ac rc p : Z) : M (gmap Z Z) (pargs + (Z * list Z)) :=
  if (0 <? pa_quote st) && (ac =? pa_quote st) then
    cret (inl (Pargs p (pa_out st) 0 (pa_nargs st) (pa_arr st)))
  else if (ac =? SQUOTE) || (ac =? DQUOTE) then
    cret (inl (Pargs p (pa_out st) ac (pa_nargs st) (pa_arr st)))
  else
    out <-- put_out (pa_out st) rc ;;
    cret (inl (Pargs p out (pa_quote st) (pa_nargs st) (pa_arr st))).

(** What the character does to the argument. *)
Definition arg_next (esc : bool) (q : Z) (cur : list Z) (c : Z) (rest : list Z) : list (list Z) :=
  if negb esc && (0 <? q) && (c =? q) then split_args 0 cur rest
  else if negb esc && ((c =? SQUOTE) || (c =? DQUOTE)) then split_args c cur rest
  else split_args q (cur ++ [c]) rest.

Lemma pa_in_arg (st : pargs) m (esc : bool) c p0 rest lo fin cur :
  0 < c < 256 -> p0 < pa_p st ->
  args_of s = fin ++ arg_next esc (pa_quote st) cur c rest ->
  pa_nargs st = zlen fin + 1 -> pa_nargs st <= pa_p st - b ->
  cstr m (pa_p st) rest -> pa_p st + zlen rest = b + zlen s ->
  (pa_quote st = 0 \/ pa_quote st = SQUOTE \/ pa_quote st = DQUOTE) ->
  lo <= pa_p st -> (cap <> None -> lo + zlen cur < pa_p st) ->
  outside_same m0 m b (zlen s) -> room m b (zlen s + 1) ->
  placed cap m0 m b lo (pa_p st) (pa_out st) (pa_quote st) (pa_arr st) fin cur ->
  wp (in_arg st (if esc then BSLASH else char_of c) (char_of c) (pa_p st))
    (fun r m' => match r with inl st' => pa_inv cap m0 b s st' m' /\ p0 < pa_p st' | inr _ => False end) m.
Proof using All.
  intros Hc Hp0 E En Hna Hrest Hlen Hq Hlo Hlt Hout Hr Hpl. unfold in_arg, arg_next in *.
  assert (Hq0 : 0 <= pa_quote st) by (unfold SQUOTE, DQUOTE in *; lia).
  assert (Hac : forall k, 0 <= k < 128 -> k <> BSLASH -> ((if esc then BSLASH else char_of c) =? k) = negb esc && (c =? k)).
  { intros k Hk Hkb. destruct esc; cbn [negb andb]; [lia|]. by rewrite char_of_eqb by (unfold byte; lia). }
  rewrite !Hac by (unfold SQUOTE, DQUOTE, BSLASH in *; lia).
  replace ((0 <? pa_quote st) && (negb esc && (c =? pa_quote st))) with (negb esc && (0 <? pa_quote st) && (c =? pa_quote st))
    by (by destruct esc, (0 <? pa_quote st)).
  rewrite <- andb_orb_distrib_r.
  destruct (negb esc && (0 <? pa_quote st) && (c =? pa_quote st)) eqn:E1; [|destruct (negb esc && ((c =? SQUOTE) || (c =? DQUOTE))) eqn:E2].
  - apply wp_ret. split; [|cbn; lia]. exists lo, fin, cur, rest. cbn [pa_quote pa_nargs pa_p pa_arr pa_out]. quotes.
    split_and!; try done; try lia. by eapply (placed_quote _ _ _ _ _ _ _ (pa_quote st)).
  - apply wp_ret. split; [|cbn; lia]. exists lo, fin, cur, rest. cbn [pa_quote pa_nargs pa_p pa_arr pa_out].
    destruct esc; [done|]. cbn [negb andb] in E2.
    assert (char_of c = c) as -> by (apply orb_prop in E2 as [E2|E2]; apply Z.eqb_eq in E2 as ->; reflexivity).
    assert ((c <? 0) = false) as -> by lia.
    split_and!; try done; try lia. eapply (placed_quote _ _ _ _ _ _ _ (pa_quote st)); [lia|lia|done].
  - apply wp_bind. eapply wp_mono; [by eapply (wp_add_char cap m0 m b lo); try done; lia|].
    intros out' m' (Hw & Hpl'). apply wp_ret. split; [|cbn; lia]. exists lo, fin, (cur ++ [c]), rest.
    cbn [pa_quote pa_nargs pa_p pa_arr pa_out]. assert ((pa_quote st <? 0) = false) as -> by lia.
    split_and!; try done; try lia; try tauto; [by eapply wrote_cstr; [done|lia|]|by eapply wrote_outside; [done|lia|]|by eapply wrote_room].
Qed.

(** A character of an argument, the first one or a later one. *)
Lemma pa_char st m (esc : bool) c rest p' :
  0 < c < 256 -> (esc = true \/ c <> BSLASH /\ (is_blank c && (pa_quote st <=? 0)) = false) ->
  p' = pa_p st + (if esc then 2 else 1) ->
  (exists lo fin cur,
    args_of s = fin ++ split_args (pa_quote st) cur (if esc then BSLASH :: c :: rest else c :: rest) /\
    pa_nargs st = zlen fin + (if pa_quote st <? 0 then 0 else 1) /\ pa_nargs st <= pa_p st - b /\
    cstr m p' rest /\ p' + zlen rest = b + zlen s /\
    (pa_quote st = -1 \/ pa_quote st = 0 \/ pa_quote st = SQUOTE \/ pa_quote st = DQUOTE) /\
    lo <= pa_p st /\ outside_same m0 m b (zlen s) /\ room m b (zlen s + 1) /\
    placed cap m0 m b lo (pa_p st) (pa_out st) (pa_quote st) (pa_arr st) fin cur) ->
  wp (parse_with cap st (if esc then BSLASH else char_of c) (char_of c) p') (pa_result cap m0 b s st) m.
Proof using All.
  intros Hc Hesc Ep (lo & fin & cur & E & En & Hna & Hrest & Hlen & Hq & Hlo & Hout & Hr & Hpl).
  assert (E' : args_of s = fin ++ arg_next esc (Z.max (pa_quote st) 0) (if pa_quote st <? 0 then [] else cur) c rest).
  { rewrite E. f_equal. unfold arg_next. destruct esc; cbn [negb andb].
    - cbn [split_args]. change (BSLASH =? BSLASH) with true. cbv iota. by destruct (pa_quote st <? 0).
    - destruct Hesc as [|[Hb1 Hb2]]; [done|]. cbn [split_args]. rewrite Hb2. assert ((c =? BSLASH) = false) as -> by lia. cbv zeta iota.
      replace (0 <? Z.max (pa_quote st) 0) with (0 <? pa_quote st) by lia.
      destruct (Z.ltb_spec 0 (pa_quote st)); [by rewrite Z.max_l by lia|done]. }
  unfold parse_with. rewrite char_of_eqb by (unfold byte; lia). assert ((c =? 0) = false) as -> by lia. cbn [orb]. cbv zeta.
  assert (Hnb : is_blank (if esc then BSLASH else char_of c) && (pa_quote st =? 0) = false /\
                is_blank (if esc then BSLASH else char_of c) && (pa_quote st <? 0) = false).
  { destruct esc; [done|]. destruct Hesc as [|[_ Hb2]]; [done|]. rewrite char_of_blank by (unfold byte; lia).
    destruct (is_blank c); [|done]. cbn [andb] in *. lia. }
  destruct Hnb as [Hn1 Hn2]. rewrite Hn1. apply wp_bind, wp_ret. cbv beta iota. rewrite Hn2.
  apply (wp_bind _ (fun st => in_arg st (if esc then BSLASH else char_of c) (char_of c) p')).
  destruct (Z.ltb_spec (pa_quote st) 0) as [Hneg|Hnn].
  - assert (pa_quote st = -1) as Eq by (unfold SQUOTE, DQUOTE in *; lia). rewrite Eq in *. quotes.
    apply (placed_start _ _ _ _ _ _ p') in Hpl; [|lia|destruct esc; lia].
    assert (Hs32 : s32 (pa_nargs st + 1) = pa_nargs st + 1).
    { unfold s32, swrap. change (32 - 1) with 31. destruct esc; rewrite Z.mod_small; lia. }
    assert (Hin : wp (in_arg (Pargs p' (match cap with Some _ => Some (p' - 1) | None => pa_out st end) 0 (pa_nargs st + 1)
        (match cap with Some _ => pa_arr st ++ [p' - 1] | None => pa_arr st end)) (if esc then BSLASH else char_of c) (char_of c) p')
        (pa_result cap m0 b s st) m).
    { eapply wp_mono; [apply (pa_in_arg (Pargs p' _ _ _ _) m esc c (pa_p st) rest (p' - 1) fin []); cbn [pa_quote pa_nargs pa_p pa_arr pa_out length]|].
      all: try done; try (destruct esc; lia); try tauto.
      by intros [st'|] m'. }
    unfold start_arg. cbn [pa_quote pa_nargs pa_p pa_arr pa_out]. rewrite Hs32. destruct cap as [k|].
    + apply wp_bind, wp_assert; [|by apply wp_ret]. specialize (Hcap k eq_refl). rewrite E' in Hcap. rewrite length_app in Hcap.
      assert (exists l l', arg_next esc 0 [] c rest = l :: l') as (l & l' & El).
      { unfold arg_next. repeat case_match; apply split_open; lia. }
      change (Z.max (-1) 0) with 0 in Hcap. rewrite El in Hcap. cbn [length] in Hcap. lia.
    + by apply wp_ret.
  - apply wp_ret. rewrite Z.max_l in E' by lia. pose proof Hpl as Epl. apply (placed_ahead _ _ _ _ _ _ p') in Epl; [|destruct esc; lia].
    eapply wp_mono; [apply (pa_in_arg (Pargs p' _ _ _ _) m esc c (pa_p st) rest lo fin cur); cbn [pa_quote pa_nargs pa_p pa_arr pa_out]|].
    all: try done; try (destruct esc; lia); try (unfold SQUOTE, DQUOTE in *; intuition lia).
    + intros Hcn. unfold placed in Hpl. destruct cap; [|done]. destruct Hpl as (? & _ & _ & _ & Hpl).
      assert ((pa_quote st <? 0) = false) as Ef by lia. rewrite Ef in Hpl. destruct esc; lia.
    + by intros [st'|] m'.
Qed.

Lemma pa_step st m : pa_inv cap m0 b s st m -> wp (parse_one cap st) (pa_result cap m0 b s st) m.
Proof using All.
  intros (lo & fin & cur & rest & E & En & Hna & Hrest & Hlen & Hq & Hlo & Hout & Hr & Hpl). unfold parse_one.
  apply wp_bind. eapply wp_next_char; [exact Hrest|]. unfold char_view. destruct rest as [|c rest]; cbv beta iota.
  { apply (pa_end _ _ _ _ []); [done| |lia]. cbn [length] in Hlen. exists lo, fin, cur. split_and!; try done; lia. }
  apply cstr_cons in Hrest as (Hc & _ & Hrest). cbn [length] in Hlen.
  destruct (Z.eqb_spec c BSLASH) as [->|Hcb].
  - destruct rest as [|d rest].
    { apply (pa_end _ _ _ _ [BSLASH]); [done| |lia]. cbn [length] in Hlen. exists lo, fin, cur. split_and!; try done; lia. }
    apply cstr_cons in Hrest as (Hd & _ & Hrest). cbn [length] in Hlen.
    apply (pa_char st m true d rest); [done|by left|done|]. exists lo, fin, cur. replace (pa_p st + 2) with (pa_p st + 1 + 1) by lia.
    split_and!; try done; lia.
  - destruct (is_blank c && (pa_quote st <=? 0)) eqn:Eb.
    + apply andb_prop in Eb as [Eb Eq]. apply (pa_blank st m c rest); [done|done|lia|]. exists lo, fin, cur.
      split_and!; try done; try lia. unfold SQUOTE, DQUOTE in *. lia.
    + apply (pa_char st m false c rest); [done|by right|done|]. exists lo, fin, cur. split_and!; try done; lia.
Qed.

Lemma wp_parseargs : cstr m0 b s -> wp (rumprun_parseargs cap b) (pa_post cap m0 b s) m0.
Proof using All.
  intros Hcs. unfold rumprun_parseargs.
  apply (wp_loop _ (pa_inv cap m0 b s) (fun st _ => b + zlen s - pa_p st)).
  - intros st m Hinv. pose proof Hinv as (_ & _ & _ & rest & _ & _ & _ & _ & Hlen & _).
    split; [lia|]. eapply wp_mono; [by apply pa_step|]. intros [st'|r] m'; [|done]. intros [Hi Hp].
    split; [done|]. destruct Hi as (_ & _ & _ & rest' & _ & _ & _ & _ & Hlen' & _). lia.
  - exists b, [], [], s. cbn [pa_quote pa_nargs pa_p pa_arr pa_out]. quotes. unfold placed, outside_same.
    split_and!; try done; try (cbn; lia).
    + intros i Hi. destruct (cstr_lookup m0 b s (Z.to_nat i) Hcs) as (v & Ev & _); [lia|]. rewrite Z2Nat.id in Ev by lia. by eexists.
    + destruct cap; [|done]. exists []. cbn. split_and!; try done; auto; lia.
  - cbn. lia.
Qed.
End Loop.

(** ** What the arguments of a text are *)
Lemma split_esc q cur c s : split_args q cur (BSLASH :: c :: s) = split_args (Z.max q 0) (if q <? 0 then [c] else cur ++ [c]) s.
Proof. done. Qed.
Lemma split_quoted q l cur s : q = SQUOTE \/ q = DQUOTE ->
  forallb (fun '(esc, c) => char_ok c && (esc || negb (special c))) l = true ->
  split_args q cur (concat (map quoted_char l) ++ s) = split_args q (cur ++ map snd l) s.
Proof.
  intros Hq0. assert (Hq : 0 < q) by (unfold SQUOTE, DQUOTE in *; lia). revert cur. induction l as [|[esc c] l IH]; intros cur Hl; cbn [map concat]; [by rewrite app_nil_r|].
  cbn [forallb] in Hl. apply andb_prop in Hl as [Hc Hl]. rewrite <- app_assoc. cbn [snd].
  replace (cur ++ c :: map snd l) with ((cur ++ [c]) ++ map snd l) by (by rewrite <- app_assoc). rewrite <- IH by done.
  destruct esc; cbn [quoted_char app].
  - rewrite split_esc, Z.max_l by lia. by destruct (Z.ltb_spec q 0); [lia|].
  - apply andb_prop in Hc as [_ Hc]. unfold special in Hc. cbn in Hc. cbn [split_args]. cbv zeta.
    assert ((q <=? 0) = false) as -> by lia. assert ((q <? 0) = false) as -> by lia. rewrite andb_false_r, Z.max_l by lia.
    assert ((c =? BSLASH) = false) as -> by lia. assert ((c =? SQUOTE) || (c =? DQUOTE) = false) as -> by lia.
    destruct ((0 <? q) && (c =? q)) eqn:E; [|done]. lia.
Qed.

Lemma split_piece x q cur s : piece_ok x = true -> q = -1 \/ q = 0 ->
  split_args q cur (piece_text x ++ s) = split_args 0 ((if q <? 0 then [] else cur) ++ piece_chars x) s.
Proof.
  intros Hx Hq. destruct x as [c|c|k l]; cbn [piece_ok piece_text piece_chars app] in *.
  - apply andb_prop in Hx as [_ Hx]. unfold special in Hx. cbn [split_args]. cbv zeta.
    assert (is_blank c = false /\ c <> BSLASH /\ c <> SQUOTE /\ c <> DQUOTE) as (Hb & H1 & H2 & H3).
    { destruct (is_blank c); cbn in Hx; [lia|]. split; [done|lia]. }
    rewrite Hb. assert ((c =? BSLASH) = false) as -> by lia. assert ((c =? SQUOTE) || (c =? DQUOTE) = false) as -> by lia.
    assert ((0 <? q) = false) as -> by lia. cbn [andb]. rewrite Z.max_r by lia. done.
  - rewrite split_esc, Z.max_r by lia. by destruct (q <? 0).
  - apply andb_prop in Hx as [Hk Hl].
    assert (Hk' : k = SQUOTE \/ k = DQUOTE) by lia.
    assert (split_args q cur (k :: (concat (map quoted_char l) ++ [k]) ++ s) =
            split_args k (if q <? 0 then [] else cur) (concat (map quoted_char l) ++ [k] ++ s)) as ->.
    { rewrite <- app_assoc. cbn [split_args]. cbv zeta. rewrite Hk. assert ((0 <? q) = false) as -> by lia.
      assert ((k =? BSLASH) = false) as -> by (unfold SQUOTE, DQUOTE, BSLASH in *; lia).
      assert (is_blank k = false) as -> by (by destruct Hk' as [-> | ->]). done. }
    rewrite split_quoted by done. cbn [app split_args]. cbv zeta.
    assert ((k =? BSLASH) = false) as -> by (unfold SQUOTE, DQUOTE, BSLASH in *; lia).
    assert (is_blank k = false) as -> by (by destruct Hk' as [-> | ->]).
    assert ((k <? 0) = false) as -> by (unfold SQUOTE, DQUOTE in *; lia).
    assert ((0 <? k) && (k =? k) = true) as -> by (unfold SQUOTE, DQUOTE in *; lia). done.
Qed.
Lemma split_pieces x : forall cur s, forallb piece_ok x = true ->
  split_args 0 cur (concat (map piece_text x) ++ s) = split_args 0 (cur ++ concat (map piece_chars x)) s.
Proof.
  induction x as [|y x IH]; intros cur s Hx; cbn [map concat forallb] in *; [by rewrite app_nil_r|].
  apply andb_prop in Hx as [Hy Hx]. rewrite <- app_assoc, split_piece by auto. rewrite IH by done. change (0 <? 0) with false. by rewrite app_assoc.
Qed.
Lemma split_blanks w s : forallb is_blank w = true -> split_args (-1) [] (w ++ s) = split_args (-1) [] s.
Proof.
  induction w as [|c w IH]; intros Hw; [done|]. cbn [forallb] in Hw. apply andb_prop in Hw as [Hc Hw].
  cbn [app split_args]. rewrite Hc. assert ((c =? BSLASH) = false) as -> by (unfold is_blank, BSLASH in *; cbn in Hc; lia).
  change (-1 <=? 0) with true. change (-1 <? 0) with true. cbn [andb app]. cbv iota. auto.
Qed.

Lemma args_of_cmdline l : cmdline_ok l = true -> args_of (cmdline_text l) = cmdline_args l.
Proof.
  unfold args_of. induction l as [|[x w] l IH]; intros Hl; [done|]. cbn [cmdline_ok cmdline_text] in *.
  apply andb_prop in Hl as [Hl Hok]. apply andb_prop in Hl as [Hl Hlast]. apply andb_prop in Hl as [Hl Hw].
  apply andb_prop in Hl as [Hx Hne]. unfold cmdline_args. cbn [map]. fold (cmdline_args l).
  destruct x as [|y x]; [done|]. cbn [map concat forallb] in *. apply andb_prop in Hx as [Hy Hx].
  rewrite <- app_assoc, split_piece by auto. change (-1 <? 0) with true. cbv iota. cbn [app]. rewrite split_pieces by done.
  destruct w as [|c w]; cbn [app].
  - destruct l; [|done]. by cbn.
  - cbn [forallb] in Hw. apply andb_prop in Hw as [Hc Hw]. cbn [split_args]. rewrite Hc.
    assert ((c =? BSLASH) = false) as -> by (unfold is_blank, BSLASH in *; cbn in Hc; lia).
    change (0 <=? 0) with true. change (0 <? 0) with false. cbn [andb app]. cbv iota. by rewrite split_blanks, IH.
Qed.

(** Both passes of [rumprun_parseargs] over a NUL-terminated text: the first
    changes nothing and returns the number of arguments; with an array of that
    size the second stays inside the array and the text, returns the same
    number, and leaves at the addresses it stored exactly the arguments of the
    text, each NUL-terminated. *)
Theorem parseargs_two_passes (m : gmap Z Z) (p : Z) (s : list Z) :
  cstr m p s -> zlen s < 2 ^ 31 - 1 ->
  rumprun_parseargs None p m = Done (zlen (args_of s), [], m) /\
  exists ptrs m', rumprun_parseargs (Some (zlen (args_of s))) p m = Done (zlen (args_of s), ptrs, m') /\
    Forall2 (cstr m') ptrs (args_of s) /\ (forall x, ~ (p <= x <= p + zlen s) -> m' !! x = m !! x).
Proof.
  intros Hs Hl. split.
  - destruct (wp_run _ _ _ (wp_parseargs None m p s Hl ltac:(done) Hs)) as ([n arr] & m' & E & En & _ & -> & Earr).
    cbn in *. by subst.
  - destruct (wp_run _ _ _ (wp_parseargs (Some (zlen (args_of s))) m p s Hl ltac:(intros ? [= <-]; lia) Hs))
      as ([n arr] & m' & E & En & Hout & Hf). cbn in *. subst. exists arr, m'. split_and!; try done. eapply Forall2_impl; [exact Hf|]. by intros ?? (? & ? & ?).
Qed.
Lemma parseargs_two_passes_witness :
  let s := [97; 32; 34; 98; 32; 99; 34] in
  exists ptrs m', rumprun_parseargs (Some 2) 100 (list_to_mem 100 (s ++ [0])) = Done (2, ptrs, m') /\
    Forall2 (cstr m') ptrs [[97]; [98; 32; 99]].
Proof.
  intros s. destruct (parseargs_two_passes (list_to_mem 100 (s ++ [0])) 100 s) as [_ (ptrs & m' & E & Hf & _)].
  - split; [apply list_to_mem_bytes|]. repeat constructor; lia.
  - reflexivity.
  - change (zlen (args_of s)) with 2 in E. change (args_of s) with [[97]; [98; 32; 99]] in Hf.
    exists ptrs, m'. split; [exact E|exact Hf].
Defined.

(** Quoting round trip: a command line in which every argument is written
    with plain characters, escapes and quoted runs, separated by blanks, is
    split into exactly these arguments, empty ones included. *)
Theorem parseargs_roundtrip (m : gmap Z Z) (p : Z) (l : list (list piece * list Z)) :
  cmdline_ok l = true -> cstr m p (cmdline_text l) -> zlen (cmdline_text l) < 2 ^ 31 - 1 ->
  exists ptrs m', rumprun_parseargs (Some (zlen l)) p m = Done (zlen l, ptrs, m') /\ Forall2 (cstr m') ptrs (cmdline_args l).
Proof.
  intros Hok Hs Hl. pose proof (args_of_cmdline l Hok) as Ea.
  assert (zlen (args_of (cmdline_text l)) = zlen l) as El by (rewrite Ea; unfold cmdline_args; by rewrite length_map).
  destruct (wp_run _ _ _ (wp_parseargs (Some (zlen l)) m p _ Hl ltac:(intros ? [= <-]; lia) Hs))
    as ([n arr] & m' & E & En & _ & Hf). cbn in *. rewrite El in En. subst. rewrite Ea in Hf. exists arr, m'. split; [done|]. eapply Forall2_impl; [exact Hf|]. by intros ?? (? & ? & ?).
Qed.
Lemma parseargs_roundtrip_witness :
  let l := [([PPlain 97; PQuote DQUOTE [(false, 32); (true, 34)]], [32]); ([PQuote SQUOTE []], [])] in
  exists ptrs m', rumprun_parseargs (Some 2) 100 (list_to_mem 100 (cmdline_text l ++ [0])) = Done (2, ptrs, m') /\
    Forall2 (cstr m') ptrs [[97; 32; 34]; []].
Proof.
  intros l. apply (parseargs_roundtrip _ 100 l).
  - reflexivity.
  - split; [apply list_to_mem_bytes|]. repeat constructor; lia.
  - reflexivity.
Defined.
