(* ===== verification/Config.v ===== *)
(** * Reading the configuration (lib/librumprun_base/config.c)

    The text is modified in place and the results are addresses inside it, so
    the state holds the bytes.  The calls into the rump kernel and libc that
    have effects of their own are recorded in the order in which they are made;
    what they return is a parameter, a function of the calls made so far and
    the call itself (for the calls on files a negative result is minus the error
    number).  [err] and [errx] end the program. *)

From Stdlib Require Import Ascii String.
From S2P Require Import Prelude CString CText Parseargs Jsmn.

Definition RUMPRUN_EXEC_BACKGROUND : Z := 1.
Definition RUMPRUN_EXEC_PIPE : Z := 2.
Definition RUMPRUN_EXEC_CMDLINE : Z := 4.
Record rumprun_exec := Rre { rre_flags : Z; rre_argc : Z; rre_argv : list Z }.

Inductive fsname := MOUNT_FFS | MOUNT_EXT2FS | MOUNT_CD9660 | MOUNT_KERNFS.
Inductive call :=
| CPutenv (ptr : Z) | CSethostname (name : list Z)
| CIfcreate (ifname : list Z) | CDhcp4 (ifname : list Z) | CAuto6 (ifname : list Z)
| CIfaddr4 (ifname addr : list Z) (cidr : Z) | CIfaddr6 (ifname addr : list Z) (cidr : Z)
| CGw4 (gw : list Z) | CGw6 (gw : list Z)
| CEtfs (key hostpath : list Z) | CMount (fs : fsname) (dev mp : list Z) (rdonly : bool) | CMkdir (path : list Z) (mode : Z)
| COpen (path : list Z) | CStat (path : list Z) | CMknod (path : list Z) (maj unit_ : Z)
| CVndset (file : list Z) | CClose | CChdir (path : list Z) | CRead (size : Z).

Record cfg := Cfg {
  cf_mem : gmap Z Z;
  cf_brk : Z;                          (* malloc: the next address *)
  cf_execs : list rumprun_exec;        (* rumprun_execs *)
  cf_calls : list call;
  cf_nextvnd : Z;
  cf_configured : bool                 (* the static variable of handle_net *)
}.
Definition set_cmem v c := Cfg v (cf_brk c) (cf_execs c) (cf_calls c) (cf_nextvnd c) (cf_configured c).
Definition set_calls v c := Cfg (cf_mem c) (cf_brk c) (cf_execs c) v (cf_nextvnd c) (cf_configured c).
Definition set_execs v c := Cfg (cf_mem c) (cf_brk c) v (cf_calls c) (cf_nextvnd c) (cf_configured c).
Definition set_vnd v c := Cfg (cf_mem c) (cf_brk c) (cf_execs c) (cf_calls c) v (cf_configured c).

Definition inmem {A} (m : M (gmap Z Z) A) : M cfg A := zoom cf_mem set_cmem m.
Definition errx {A} (why : string) : M cfg A := mhalt why.
Definition check (b : bool) (why : string) : M cfg unit := if b then cret tt else errx why.

(** The string at an address. *)
Definition str_at (p : Z) : M cfg (list Z) :=
  loopM (fun '(p, acc) =>
    c <-- inmem (rd p) ;;
    if c =? 0 then cret (inr acc) else cret (inl (p + 1, acc ++ [c]))) (p, []).
(** [malloc] and a copy, as [strdup] does. *)
Definition alloc_str (l : list Z) : M cfg Z :=
  c <-- mget ;;
  mput (Cfg (list_to_mem (cf_brk c) (l ++ [0]) ∪ cf_mem c) (cf_brk c + Z.of_nat (length l) + 1)
    (cf_execs c) (cf_calls c) (cf_nextvnd c) (cf_configured c)) ;;;
  cret (cf_brk c).

(** [strncmp(p, s, n) == 0] for a literal [s]. *)
Fixpoint strneq (p : Z) (s : list Z) (n : nat) {struct n} : M cfg bool :=
  match n with
  | O => cret true
  | S n =>
      c <-- inmem (rd p) ;;
      match s with
      | [] => cret (c =? 0)
      | d :: s => if negb (c =? d) then cret false else strneq (p + 1) s n
      end
  end.
(** [atoi]. *)
Fixpoint atoi_digits (acc : Z) (s : list Z) : Z :=
  match s with
  | c :: s => if (48 <=? c) && (c <=? 57) then atoi_digits (acc * 10 + (c - 48)) s else acc
  | [] => acc
  end.
Fixpoint atoi (s : list Z) : Z :=
  match s with
  | c :: s' => if is_blank c || ((11 <=? c) && (c <=? 13)) then atoi s'
               else if c =? 45 then s32 (- atoi_digits 0 s')
               else if c =? 43 then s32 (atoi_digits 0 s')
               else s32 (atoi_digits 0 s)
  | [] => 0
  end.
(** The digits of the unit number, as printf's d conversion writes them. *)
Definition dec_digit (n : Z) : Z := 48 + n.
Fixpoint dec_loop (fuel : nat) (n : Z) (acc : list Z) : list Z :=
  match fuel with
  | O => acc
  | S fuel => if n <? 10 then dec_digit n :: acc else dec_loop fuel (n / 10) (dec_digit (n mod 10) :: acc)
  end.
Definition dec (n : Z) : list Z := dec_loop 20 n [].

Section Config.
Context (env : list call -> call -> Z).
Context (RAW_PART : Z).
Context (toks : list jsmntok) (data : Z).

Definition do_call (c : call) : M cfg Z :=
  s <-- mget ;; modify (fun s => set_calls (cf_calls s ++ [c]) s) ;;; cret (env (cf_calls s) c).

Definition tok (t : Z) : M cfg jsmntok :=
  if t <? 0 then mhalt "token index" else mopt (toks !! Z.to_nat t) "token index".
Definition T_SIZE (t : jsmntok) : Z := s32 (jt_end t - jt_start t).
Definition T_STR (t : jsmntok) : Z := data + jt_start t.
Definition T_STREQ (t : jsmntok) (s : string) : M cfg bool := strneq (T_STR t) (lit s) (Z.to_nat (T_SIZE t)).
Definition T_CHECKTYPE (t : jsmntok) (exp : jsmntype) : M cfg unit := check (bool_decide (jt_type t = exp)) "unexpected type".
Definition T_CHECKSIZE (t : jsmntok) (exp : Z) : M cfg unit := check (jt_size t =? exp) "unexpected size".

Definition token2cstr (t : jsmntok) : M cfg Z := inmem (wr (T_STR t + T_SIZE t) 0) ;;; cret (T_STR t).

Definition add_exec (r : rumprun_exec) : M cfg unit := modify (fun s => set_execs (cf_execs s ++ [r]) s).
Definition makeargv (argvstr : Z) : M cfg unit :=
  '(nargs, _) <-- inmem (rumprun_parseargs None argvstr) ;;
  '(nargs, argv) <-- inmem (rumprun_parseargs (Some (nargs + 1)) argvstr) ;;
  add_exec (Rre RUMPRUN_EXEC_CMDLINE nargs (argv ++ [0])).

Definition handle_cmdline (t left : Z) : M cfg Z :=
  tk <-- tok t ;; T_CHECKTYPE tk JSMN_STRING ;;;
  p <-- token2cstr tk ;; makeargv p ;;; cret 1.

(** ** Programs to run: addbin, handle_rc *)
Record binspec := Binspec { t_bin : option Z; t_argv : option Z; t_runmode : option Z }.
(** One key and its value, at [t]: what it is and how many tokens it takes. *)
Definition addbin_key (t : Z) (b : binspec) : M cfg (binspec * Z) :=
  key <-- tok t ;;
  T_CHECKTYPE key JSMN_STRING ;;;
  is_bin <-- T_STREQ key "bin" ;;
  if is_bin : bool then
    value <-- tok (t + 1) ;;
    T_CHECKSIZE key 1 ;;; T_CHECKTYPE value JSMN_STRING ;;; T_CHECKSIZE value 0 ;;;
    cret (Binspec (Some (t + 1)) (t_argv b) (t_runmode b), 2)
  else
  is_argv <-- T_STREQ key "argv" ;;
  if is_argv : bool then
    value <-- tok (t + 1) ;;
    T_CHECKTYPE value JSMN_ARRAY ;;;
    cret (Binspec (t_bin b) (Some (t + 1)) (t_runmode b), 2 + jt_size value)
  else
  is_runmode <-- T_STREQ key "runmode" ;;
  if is_runmode : bool then
    value <-- tok (t + 1) ;;
    T_CHECKSIZE key 1 ;;; T_CHECKTYPE value JSMN_STRING ;;; T_CHECKSIZE value 0 ;;;
    cret (Binspec (t_bin b) (t_argv b) (Some (t + 1)), 2)
  else errx "unexpected key".

Fixpoint argv_tokens (n : nat) (t : Z) : M cfg (list Z) :=
  match n with
  | O => cret []
  | S n => tk <-- tok t ;; T_CHECKTYPE tk JSMN_STRING ;;; p <-- token2cstr tk ;;
           l <-- argv_tokens n (t + 1) ;; cret (p :: l)
  end.
Definition runmode_flags (o : option Z) : M cfg Z :=
  match o with
  | None => cret 0
  | Some t =>
      tk <-- tok t ;;
      if T_SIZE tk =? 1 then
        c <-- inmem (rd (T_STR tk)) ;;
        if c =? 38 then cret RUMPRUN_EXEC_BACKGROUND
        else if c =? 124 then cret RUMPRUN_EXEC_PIPE else errx "invalid runmode"
      else errx "invalid runmode"
  end.
Definition addbin (t : Z) : M cfg Z :=
  tk <-- tok t ;;
  T_CHECKTYPE tk JSMN_OBJECT ;;;
  '(b, binsize) <-- loopM (fun '(objleft, t, b, binsize) =>
    if objleft =? 0 then cret (inr (b, binsize)) else
    '(b, mysize) <-- addbin_key t b ;;
    cret (inl (objleft - 1, t + mysize, b, binsize + mysize))) (jt_size tk, t + 1, Binspec None None None, 1) ;;
  match t_bin b with
  | None => errx "missing bin"
  | Some tb =>
      tkb <-- tok tb ;;
      binname <-- token2cstr tkb ;;
      rreflags <-- runmode_flags (t_runmode b) ;;
      match t_argv b with
      | None => mhalt "t_argv is NULL"
      | Some ta =>
          tka <-- tok ta ;;
          args <-- argv_tokens (Z.to_nat (jt_size tka)) (ta + 1) ;;
          add_exec (Rre rreflags (1 + jt_size tka) (binname :: args ++ [0])) ;;;
          cret binsize
      end
  end.
Definition handle_rc (t left : Z) : M cfg Z :=
  tk <-- tok t ;;
  T_CHECKTYPE tk JSMN_ARRAY ;;;
  loopM (fun '(rem, t, totsize) =>
    if rem =? 0 then cret (inr totsize) else
    onesize <-- addbin t ;; cret (inl (rem - 1, t + onesize, totsize + onesize))) (jt_size tk, t + 1, 1).

(** ** Environment and host name *)
Definition handle_env (t left : Z) : M cfg Z :=
  tk <-- tok t ;; T_CHECKTYPE tk JSMN_STRING ;;;
  p <-- token2cstr tk ;;
  r <-- do_call (CPutenv p) ;;
  check (negb (r =? -1)) "putenv" ;;; cret 1.
(** The first [n] bytes at an address. *)
Fixpoint bytes_of (p : Z) (n : nat) : M cfg (list Z) :=
  match n with O => cret [] | S n => c <-- inmem (rd p) ;; l <-- bytes_of (p + 1) n ;; cret (c :: l) end.
Definition handle_hostname (t left : Z) : M cfg Z :=
  tk <-- tok t ;; T_CHECKTYPE tk JSMN_STRING ;;;
  p <-- token2cstr tk ;;
  name <-- bytes_of p (Z.to_nat (T_SIZE tk)) ;;
  r <-- do_call (CSethostname name) ;;
  check (negb (r =? -1)) "sethostname" ;;; cret 1.

(** ** Network *)
(** The values by key, as addresses or as texts. *)
Inductive netkey := NIf | NCloner | NType | NMethod | NAddr | NMask | NGw.
Record netspec (A : Type) := Netspec { n_if : option A; n_cloner : option A; n_type : option A; n_method : option A;
                                       n_addr : option A; n_mask : option A; n_gw : option A }.
#[global] Arguments Netspec {A} _ _ _ _ _ _ _.
#[global] Arguments n_if {A} _.
#[global] Arguments n_cloner {A} _.
#[global] Arguments n_type {A} _.
#[global] Arguments n_method {A} _.
#[global] Arguments n_addr {A} _.
#[global] Arguments n_mask {A} _.
#[global] Arguments n_gw {A} _.
Definition no_net {A} : netspec A := Netspec None None None None None None None.
Definition net_set {A} (k : netkey) (v : A) (n : netspec A) : netspec A :=
  match k with
  | NIf => Netspec (Some v) (n_cloner n) (n_type n) (n_method n) (n_addr n) (n_mask n) (n_gw n)
  | NCloner => Netspec (n_if n) (Some v) (n_type n) (n_method n) (n_addr n) (n_mask n) (n_gw n)
  | NType => Netspec (n_if n) (n_cloner n) (Some v) (n_method n) (n_addr n) (n_mask n) (n_gw n)
  | NMethod => Netspec (n_if n) (n_cloner n) (n_type n) (Some v) (n_addr n) (n_mask n) (n_gw n)
  | NAddr => Netspec (n_if n) (n_cloner n) (n_type n) (n_method n) (Some v) (n_mask n) (n_gw n)
  | NMask => Netspec (n_if n) (n_cloner n) (n_type n) (n_method n) (n_addr n) (Some v) (n_gw n)
  | NGw => Netspec (n_if n) (n_cloner n) (n_type n) (n_method n) (n_addr n) (n_mask n) (Some v)
  end.
Definition net_keys : list (string * netkey) :=
  [("if", NIf); ("cloner", NCloner); ("type", NType); ("method", NMethod); ("addr", NAddr); ("mask", NMask); ("gw", NGw)].

Definition str_is (p : Z) (s : string) : M cfg bool := l <-- str_at p ;; cret (bool_decide (l = lit s)).

Definition config_ipv4 (ifname method : Z) (addr mask gw : option Z) : M cfg unit :=
  is_dhcp <-- str_is method "dhcp" ;;
  ifn <-- str_at ifname ;;
  if is_dhcp : bool then
    r <-- do_call (CDhcp4 ifn) ;; check (r =? 0) "dhcp failed"
  else
    is_static <-- str_is method "static" ;;
    check is_static "method" ;;;
    match addr, mask with
    | Some addr, Some mask =>
        a <-- str_at addr ;; mk <-- str_at mask ;;
        r <-- do_call (CIfaddr4 ifn a (atoi mk)) ;; check (r =? 0) "ifconfig failed" ;;;
        match gw with
        | None => cret tt
        | Some gw => g <-- str_at gw ;; r <-- do_call (CGw4 g) ;; check (r =? 0) "gw failed"
        end
    | _, _ => errx "static net cfg missing addr or mask"
    end.
Definition config_ipv6 (ifname method : Z) (addr mask gw : option Z) : M cfg unit :=
  is_auto <-- str_is method "auto" ;;
  ifn <-- str_at ifname ;;
  if is_auto : bool then
    r <-- do_call (CAuto6 ifn) ;; check (r =? 0) "ipv6 autoconfig failed"
  else
    is_static <-- str_is method "static" ;;
    check is_static "method" ;;;
    match addr, mask with
    | Some addr, Some mask =>
        a <-- str_at addr ;; mk <-- str_at mask ;;
        r <-- do_call (CIfaddr6 ifn a (atoi mk)) ;; check (r =? 0) "ifconfig failed" ;;;
        match gw with
        | None => cret tt
        | Some gw => g <-- str_at gw ;; r <-- do_call (CGw6 g) ;; check (r =? 0) "gw failed"
        end
    | _, _ => errx "static net cfg missing addr or mask"
    end.

(** The first name of the table that the key matches. *)
Fixpoint key_match {A} (key : jsmntok) (table : list (string * A)) : M cfg (option A) :=
  match table with
  | [] => cret None
  | (name, a) :: table => b <-- T_STREQ key name ;; if b : bool then cret (Some a) else key_match key table
  end.
(** A key and its value, both strings: the entry of the table and the value. *)
Definition pair_at {A} (table : list (string * A)) (t : Z) : M cfg (A * Z) :=
  key <-- tok t ;; T_CHECKTYPE key JSMN_STRING ;;; T_CHECKSIZE key 1 ;;;
  value <-- tok (t + 1) ;; T_CHECKTYPE value JSMN_STRING ;;; T_CHECKSIZE value 0 ;;;
  valuestr <-- token2cstr value ;;
  r <-- key_match key table ;;
  match r with None => errx "unexpected key" | Some a => cret (a, valuestr) end.
Definition pairs_loop {K T} (table : list (string * K)) (set : K -> Z -> T -> T) (objsize t : Z) (s0 : T) : M cfg T :=
  loopM (fun '(i, t, s) =>
    if i <? objsize then
      '(k, v) <-- pair_at table t ;; cret (inl (i + 1, t + 2, set k v s))
    else cret (inr s)) (0, t, s0).

Definition handle_net (t left : Z) : M cfg Z :=
  tk <-- tok t ;;
  T_CHECKTYPE tk JSMN_OBJECT ;;;
  let objsize := jt_size tk in
  if left <? 2 * objsize + 1 then cret (-1) else
  s <-- mget ;;
  check (negb (cf_configured s)) "only 1 net configuration" ;;;
  n <-- pairs_loop net_keys net_set objsize (t + 1) no_net ;;
  match n_if n, n_type n, n_method n with
  | Some ifname, Some type, Some method =>
      (match n_cloner n with
       | None => cret tt
       | Some _ => ifn <-- str_at ifname ;; r <-- do_call (CIfcreate ifn) ;; check (r =? 0) "ifcreate failed"
       end) ;;;
      is4 <-- str_is type "inet" ;;
      (if is4 : bool then config_ipv4 ifname method (n_addr n) (n_mask n) (n_gw n) else
       is6 <-- str_is type "inet6" ;;
       if is6 : bool then config_ipv6 ifname method (n_addr n) (n_mask n) (n_gw n)
       else errx "network type") ;;;
      cret (2 * objsize + 1)
  | _, _, _ => errx "net cfg missing vital data"
  end.

(** ** Block devices and file systems *)
Definition ENOENT : Z := 2.
Definition EEXIST : Z := 17.
Definition makevnddev (israw : bool) (unit_ part : Z) : list Z :=
  take 31 (lit "/dev/" ++ (if israw then lit "r" else []) ++ lit "vnd" ++ dec unit_ ++ [97 + part]).
Definition getvndmajor (israw : bool) : M cfg Z :=
  r <-- do_call (CStat (makevnddev israw 0 RAW_PART)) ;;
  check (0 <=? r) "failed to stat" ;;; cret r.
Definition configvnd (path : list Z) : M cfg (list Z) :=
  s <-- mget ;;
  let nextvnd := cf_nextvnd s in
  let bbuf := makevnddev false nextvnd RAW_PART in
  let rbuf := makevnddev true nextvnd RAW_PART in
  fd <-- do_call (COpen rbuf) ;;
  fd <-- (if negb (fd =? - ENOENT) then cret fd else
          bmaj <-- getvndmajor false ;; rmaj <-- getvndmajor true ;;
          r <-- do_call (CMknod bbuf bmaj nextvnd) ;; check (0 <=? r) "mknod" ;;;
          r <-- do_call (CMknod rbuf rmaj nextvnd) ;; check (0 <=? r) "mknod" ;;;
          do_call (COpen rbuf)) ;;
  check (0 <=? fd) "cannot open" ;;;
  r <-- do_call (CVndset path) ;; check (negb (r =? -1)) "vndset failed" ;;;
  do_call CClose ;;;
  modify (set_vnd (nextvnd + 1)) ;;;
  cret bbuf.
Definition configetfs (path : list Z) (hard : bool) : M cfg (option (list Z)) :=
  let epath := take 31 (lit "XENBLK_" ++ path) in
  let buf := take 31 (lit "/dev/" ++ path) in
  rv <-- do_call (CEtfs buf epath) ;;
  if negb (rv =? 0) then (if negb hard then cret None else errx "etfs register failed")
  else cret (Some buf).
Definition mount_blk (dev mp : list Z) : M cfg bool :=
  r <-- do_call (CMount MOUNT_FFS dev mp false) ;;
  if r =? 0 then cret true else
  r <-- do_call (CMount MOUNT_EXT2FS dev mp false) ;;
  if r =? 0 then cret true else
  r <-- do_call (CMount MOUNT_CD9660 dev mp true) ;;
  cret (r =? 0).
Definition mount_kernfs (dev mp : list Z) : M cfg bool :=
  r <-- do_call (CMount MOUNT_KERNFS [] mp false) ;; cret (r =? 0).
Definition mounters : list (string * (list Z -> list Z -> M cfg bool)) := [("blk", mount_blk); ("kernfs", mount_kernfs)].
Fixpoint mount_by (table : list (string * (list Z -> list Z -> M cfg bool))) (fstype path : list Z) (mp : Z) : M cfg unit :=
  match table with
  | [] => errx "unknown fstype"
  | (name, f) :: table =>
      if bool_decide (fstype = lit name) then
        m <-- str_at mp ;; ok <-- f path m ;; check ok "failed to mount"
      else mount_by table fstype path mp
  end.

(** [strspn] and [strcspn] with the set of just the slash: the new position. *)
Definition skip_slashes (slash : bool) (p : Z) : M cfg Z :=
  loopM (fun p => c <-- inmem (rd p) ;;
    if negb (c =? 0) && Bool.eqb (c =? 47) slash then cret (inl (p + 1)) else cret (inr p)) p.
(** Every directory on the way to the mount point. *)
Definition mkdirs (mp : Z) : M cfg unit :=
  loopM (fun chunk =>
    chunk <-- skip_slashes true chunk ;;
    chunk <-- skip_slashes false chunk ;;
    c <-- inmem (rd chunk) ;;
    inmem (wr chunk 0) ;;;
    dir <-- str_at mp ;;
    r <-- do_call (CMkdir dir 493) ;;
    check ((0 <=? r) || (r =? - EEXIST)) "failed to create mp dir" ;;;
    if c =? 0 then cret (inr tt) else inmem (wr chunk 47) ;;; cret (inl chunk)) mp.

Inductive blkkey := BSource | BPath | BFstype | BMountpoint.
Record blkspec (A : Type) := Blkspec { b_source : option A; b_path : option A; b_fstype : option A; b_mp : option A }.
#[global] Arguments Blkspec {A} _ _ _ _.
#[global] Arguments b_source {A} _.
#[global] Arguments b_path {A} _.
#[global] Arguments b_fstype {A} _.
#[global] Arguments b_mp {A} _.
Definition no_blk {A} : blkspec A := Blkspec None None None None.
Definition blk_set {A} (k : blkkey) (v : A) (b : blkspec A) : blkspec A :=
  match k with
  | BSource => Blkspec (Some v) (b_path b) (b_fstype b) (b_mp b)
  | BPath => Blkspec (b_source b) (Some v) (b_fstype b) (b_mp b)
  | BFstype => Blkspec (b_source b) (b_path b) (Some v) (b_mp b)
  | BMountpoint => Blkspec (b_source b) (b_path b) (b_fstype b) (Some v)
  end.
Definition blk_keys : list (string * blkkey) :=
  [("source", BSource); ("path", BPath); ("fstype", BFstype); ("mountpoint", BMountpoint)].
Definition blk_path (source path : list Z) : M cfg (list Z) :=
  if bool_decide (source = lit "dev") then cret path
  else if bool_decide (source = lit "vnd") then configvnd path
  else if bool_decide (source = lit "etfs") then
    o <-- configetfs path true ;; mopt o "configetfs"
  else errx "unsupported blk source".
Definition handle_blk (t left : Z) : M cfg Z :=
  tk <-- tok t ;;
  T_CHECKTYPE tk JSMN_OBJECT ;;;
  let objsize := jt_size tk in
  if left <? 2 * objsize + 1 then cret (-1) else
  b <-- pairs_loop blk_keys blk_set objsize (t + 1) no_blk ;;
  match b_source b, b_path b with
  | Some source, Some path =>
      src <-- str_at source ;; orig <-- str_at path ;;
      dev <-- blk_path src orig ;;
      (match b_mp b with
       | None => cret tt
       | Some mp =>
           match b_fstype b with
           | None => errx "no fstype for mountpoint"
           | Some fstype => mkdirs mp ;;; ft <-- str_at fstype ;; mount_by mounters ft dev mp
           end
       end) ;;;
      cret (2 * objsize + 1)
  | _, _ => errx "blk cfg missing vital data"
  end.

(** ** The configuration *)
Definition parsers : list (string * (Z -> Z -> M cfg Z)) :=
  [ ("cmdline", handle_cmdline); ("rc_TESTING", handle_rc); ("env", handle_env);
    ("hostname", handle_hostname); ("blk", handle_blk); ("net", handle_net) ].
Definition config_step (ntok t : Z) : M cfg (Z + unit) :=
  if ntok <=? t then cret (inr tt) else
  tk <-- tok t ;;
  if bool_decide (jt_type tk = JSMN_OBJECT) then cret (inl (t + 1)) else
  T_CHECKTYPE tk JSMN_STRING ;;;
  h <-- key_match tk parsers ;;
  match h with
  | None => errx "no match for key"
  | Some handler => n <-- handler (t + 1) (ntok - (t + 1)) ;; cret (inl (t + 1 + n))
  end.
Definition sanity : M cfg unit :=
  s <-- mget ;;
  match last (cf_execs s) with
  | None => errx "no bins"
  | Some rre => check (Z.land (rre_flags rre) RUMPRUN_EXEC_PIPE =? 0) "last bin may not output to pipe"
  end.
End Config.

Section Main.
Context (env : list call -> call -> Z).
Context (RAW_PART : Z).
Context (junk : Z -> list jsmntok).      (* what malloc returns before it is filled *)

Definition CFGMAXSIZE : Z := 64 * 1024.
Definition ROOTCFG : string := "_RUMPRUN_ROOTFSCFG=".
(** [strstr] *)
Fixpoint find_sub (pat s : list Z) : option nat :=
  if bool_decide (take (length pat) s = pat) then Some 0%nat
  else match s with [] => None | _ :: s => S <$> find_sub pat s end.
Definition rumprun_config_path (cmdline : Z) : M cfg (option Z) :=
  s <-- str_at cmdline ;;
  cret ((fun i => cmdline + Z.of_nat i + Z.of_nat (length (lit ROOTCFG))) <$> find_sub (lit ROOTCFG) s).

Fixpoint try_roots (l : list string) : M cfg bool :=
  match l with
  | [] => cret false
  | d :: l => ok <-- mount_blk env (lit d) (lit "/rootfs") ;; if ok : bool then cret true else try_roots l
  end.
(** [file] is what the file holds. *)
Definition getcmdlinefromroot (file : list Z) (cfgname : Z) : M cfg Z :=
  r <-- do_call env (CMkdir (lit "/rootfs") 511) ;; check (0 <=? r) "mkdir /rootfs failed" ;;;
  found <-- try_roots ["/dev/ld0a"; "/dev/sd0a"] ;;
  (if found : bool then cret tt else
   o <-- configetfs env (lit "sda1") false ;;
   match o with
   | None => errx "failed to mount rootfs from image"
   | Some devpath => ok <-- mount_blk env devpath (lit "/rootfs") ;; check ok "failed to mount /rootfs"
   end) ;;;
  name <-- (p <-- skip_slashes true cfgname ;; str_at p) ;;
  r <-- do_call env (CChdir (lit "/rootfs")) ;; check (0 <=? r) "chdir rootfs" ;;;
  fd <-- do_call env (COpen name) ;; check (0 <=? fd) "open" ;;;
  r <-- do_call env (CStat name) ;; check (0 <=? r) "stat" ;;;
  let size := Z.of_nat (length file) in
  check (size <=? CFGMAXSIZE) "unbelievable cfg file size" ;;;
  r <-- do_call env (CRead size) ;; check (r =? size) "read cfgfile" ;;;
  do_call env CClose ;;;
  alloc_str file.

(** To the first brace; [None] when there is none. *)
Definition find_brace (cmdline : Z) : M cfg (option Z) :=
  loopM (fun p => c <-- inmem (rd p) ;;
    if c =? 123 then cret (inr (Some p)) else if c =? 0 then cret (inr None) else cret (inl (p + 1))) cmdline.
(** The tokenizer on the text, with the given array. *)
Definition tokenize (text : list Z) (num : Z) (arr : option (list jsmntok)) : M cfg (Z * option (list jsmntok)) :=
  fun s => match jsmn_parse text (Z.of_nat (length text)) num (jsmn_init (Jsmn 0 0 0 arr)) with
           | Done (n, p) => Done (n, js_tokens p, s)
           | Halted why => Halted why
           | NoFuel => NoFuel
           end.
Definition config_tokens (cmdline : Z) : M cfg (Z * list jsmntok) :=
  text <-- str_at cmdline ;;
  '(ntok, _) <-- tokenize text 0 None ;;
  check (0 <? ntok) "json parse failed 1" ;;;
  '(ntok, arr) <-- tokenize text ntok (Some (junk ntok)) ;;
  check (1 <=? ntok) "json parse failed 2" ;;;
  l <-- mopt arr "tokens" ;;
  cret (ntok, l).
Definition rumprun_config (file : list Z) (cmdline : Z) : M cfg unit :=
  o <-- rumprun_config_path cmdline ;;
  cmdline <-- (match o with None => cret cmdline | Some p => getcmdlinefromroot file p end) ;;
  o <-- find_brace cmdline ;;
  match o with
  | None => p <-- alloc_str (lit "rumprun") ;; makeargv p
  | Some cmdline =>
      '(ntok, toks) <-- config_tokens cmdline ;;
      tk <-- tok toks 0 ;;
      T_CHECKTYPE tk JSMN_OBJECT ;;;
      loopM (config_step env RAW_PART toks cmdline ntok) 0 ;;;
      sanity
  end.
End Main.
