(* ===== verification/ConfigThms.v ===== *)
(** * Lemmas on the configuration reader: memory, keys, values, handlers *)

From S2P Require Import Prelude CString CText CStringThms Parseargs Jsmn JsmnThms JsmnSpec Config.

Definition chars (l : list Z) : Prop := Forall (fun c => 0 < c < 256) l.

(** ** Memory *)
Lemma wp_inmem {A} (m : M (gmap Z Z) A) Q c : wp m (fun a mem => Q a (set_cmem mem c)) (cf_mem c) -> wp (inmem m) Q c.
Proof. intros H. unfold inmem. apply wp_zoom. exact H. Qed.
Lemma set_cmem_id c : set_cmem (cf_mem c) c = c.
Proof. by destruct c. Qed.
Lemma wp_inrd p v Q c : cf_mem c !! p = Some v -> Q v c -> wp (inmem (rd p)) Q c.
Proof. intros E HQ. apply wp_inmem. eapply wp_rd; [exact E|]. by rewrite set_cmem_id. Qed.
Lemma wp_check b why (Q : unit -> cfg -> Prop) c : b = true -> Q tt c -> wp (check b why) Q c.
Proof. intros -> HQ. by apply wp_ret. Qed.

Lemma bytes_at_app m a l l' : bytes_at m a (l ++ l') <-> bytes_at m a l /\ bytes_at m (a + zlen l) l'.
Proof.
  revert a. induction l as [|b l IH]; intros a; cbn [app length].
  - rewrite Z.add_0_r. split; [|by intros [_ H]]. intros H. split; [|done]. intros i c Hi. by rewrite lookup_nil in Hi.
  - rewrite !bytes_at_cons, IH. replace (a + 1 + zlen l) with (a + Z.of_nat (S (length l))) by lia. tauto.
Qed.
Lemma bytes_at_nil m a : bytes_at m a [].
Proof. intros i c Hi. by rewrite lookup_nil in Hi. Qed.
(** Only bytes below [hi], and not below [lo], differ. *)
Definition within (m m' : gmap Z Z) (lo hi : Z) : Prop := forall x, ~ (lo <= x < hi) -> m' !! x = m !! x.
Lemma within_bytes m m' lo hi a l : within m m' lo hi -> bytes_at m a l -> hi <= a \/ a + zlen l <= lo -> bytes_at m' a l.
Proof. intros Hw H Ha i c Hi. apply lookup_lt_Some in Hi as Hl. rewrite Hw by lia. auto. Qed.
Lemma within_cstr m m' lo hi a l : within m m' lo hi -> cstr m a l -> a + zlen l < lo -> cstr m' a l.
Proof. intros Hw [H Hf] Ha. split; [|done]. eapply within_bytes; [done..|]. rewrite length_app. cbn. lia. Qed.
Lemma within_trans m m1 m2 lo hi lo' hi' : within m m1 lo hi -> within m1 m2 lo' hi' ->
  within m m2 (Z.min lo lo') (Z.max hi hi').
Proof. intros H1 H2 x Hx. rewrite H2, H1 by lia. done. Qed.
Lemma within_refl m lo hi : within m m lo hi.
Proof. by intros x _. Qed.
Lemma within_wider m m' lo hi lo' hi' : within m m' lo hi -> lo' <= lo -> hi <= hi' -> within m m' lo' hi'.
Proof. intros H ?? x Hx. apply H. lia. Qed.
Lemma within_insert m lo hi x v : lo <= x < hi -> within m (<[x := v]> m) lo hi.
Proof. intros Hx y Hy. rewrite lookup_insert_ne by lia. done. Qed.

Lemma wp_str_at p s Q c : cstr (cf_mem c) p s -> zlen s < 2 ^ 63 -> Q s c -> wp (str_at p) Q c.
Proof.
  intros Hs Hl HQ. unfold str_at.
  apply (wp_loop _ (fun '(q, acc) c' => c' = c /\ exists rest, s = acc ++ rest /\ q = p + zlen acc)
    (fun '(q, acc) _ => zlen s - zlen acc)).
  - intros [q acc] c' (-> & rest & -> & ->). rewrite length_app. split; [lia|]. destruct Hs as [Hb Hf].
    rewrite <- app_assoc in Hb. apply bytes_at_app in Hb as [_ Hb]. apply wp_bind. destruct rest as [|d rest]; cbn [app] in Hb;
      apply bytes_at_cons in Hb as [Hd _]; (eapply wp_inrd; [exact Hd|]).
    + apply wp_ret. by rewrite app_nil_r in HQ.
    + apply Forall_app in Hf as [_ [Hd0 _]%Forall_cons]. assert ((d =? 0) = false) as -> by lia. apply wp_ret.
      rewrite length_app. cbn [length]. split; [|lia]. split; [done|]. exists rest. rewrite <- app_assoc. split; [done|lia].
  - split; [done|]. exists s. split; [done|cbn; lia].
  - cbn. lia.
Qed.
Lemma wp_bytes_of l : forall p Q c, bytes_at (cf_mem c) p l -> Q l c -> wp (bytes_of p (length l)) Q c.
Proof.
  induction l as [|b l IH]; intros p Q c Hb HQ; cbn [length bytes_of]; [by apply wp_ret|].
  apply bytes_at_cons in Hb as [Hb Hl]. apply wp_bind. eapply wp_inrd; [exact Hb|]. apply wp_bind. apply IH; [done|]. by apply wp_ret.
Qed.

(** ** Keys *)
Fixpoint prefixb (k s : list Z) : bool :=
  match k, s with
  | [], _ => true
  | c :: k, d :: s => (c =? d) && prefixb k s
  | _ :: _, [] => false
  end.
Lemma wp_strneq k : forall p s Q c, chars k -> bytes_at (cf_mem c) p k -> Q (prefixb k s) c -> wp (strneq p s (length k)) Q c.
Proof.
  induction k as [|x k IH]; intros p s Q c Hk Hb HQ; cbn [length strneq]; [apply wp_ret; exact HQ|].
  apply bytes_at_cons in Hb as [Hx Hb]. apply Forall_cons in Hk as [Hx0 Hk]. apply wp_bind. eapply wp_inrd; [exact Hx|].
  destruct s as [|d s]; cbn [prefixb] in HQ.
  - apply wp_ret. assert ((x =? 0) = false) as -> by lia. done.
  - destruct (x =? d); cbn [negb andb] in *; [by apply IH|]. apply wp_ret. exact HQ.
Qed.
Definition key_find {A} (k : list Z) (table : list (string * A)) : option A :=
  snd <$> List.find (fun '(name, _) => prefixb k (lit name)) table.

Section Toks.
Context (toks : list jsmntok) (data : Z).

Lemma wp_tok t tk Q c : 0 <= t -> toks !! Z.to_nat t = Some tk -> Q tk c -> wp (tok toks t) Q c.
Proof. intros Ht E HQ. unfold tok. destruct (Z.ltb_spec t 0); [lia|]. by eapply wp_opt. Qed.
Lemma T_SIZE_eq ty a n sz : 0 <= n < 2 ^ 31 -> T_SIZE (Tok ty a (a + n) sz) = n.
Proof. intros Hn. unfold T_SIZE. cbn [jt_end jt_start]. replace (a + n - a) with n by lia. unfold s32, swrap.
  change (32 - 1) with 31. rewrite Z.mod_small; lia. Qed.

Context (ty : jsmntype) (off sz : Z) (s : list Z).
Hypothesis Hs : chars s.
Hypothesis Hlen : zlen s < 2 ^ 31.
Let tk := Tok ty off (off + zlen s) sz.

Lemma wp_key_match {A} (table : list (string * A)) Q c : bytes_at (cf_mem c) (data + off) s ->
  Q (key_find s table) c -> wp (key_match data tk table) Q c.
Proof using All.
  intros Hb. unfold key_find. revert Q. induction table as [|[name a] table IH]; intros Q HQ; cbn [key_match]; [by apply wp_ret|].
  cbn [List.find] in HQ. apply wp_bind. unfold T_STREQ, tk. rewrite T_SIZE_eq, Nat2Z.id by lia.
  apply wp_strneq; [done|done|]. destruct (prefixb s (lit name)); [by apply wp_ret|]. by apply IH.
Qed.

(** The value's closing quote is overwritten. *)
Lemma wp_token2cstr rest Q c : bytes_at (cf_mem c) (data + off) (s ++ 34 :: rest) ->
  (forall m', cstr m' (data + off) s -> within (cf_mem c) m' (data + off) (data + off + zlen s + 1) ->
     Q (data + off) (set_cmem m' c)) -> wp (token2cstr data tk) Q c.
Proof using All.
  intros Hb HQ. unfold token2cstr, tk. rewrite T_SIZE_eq by lia. apply bytes_at_app in Hb as [Hb Hq].
  apply bytes_at_cons in Hq as [Hq _]. apply wp_bind, wp_inmem. unfold T_STR. cbn [jt_start].
  apply wp_wr; [by eexists|]. apply wp_ret. apply HQ; [|by apply within_insert; lia].
  split; [by apply bytes_at_snoc|done].
Qed.
End Toks.

(** ** Outcomes

    A program to run with the given arguments, and a call, as they are found in
    memory [m] below address [hi]. *)
Definition exec_is (m : gmap Z Z) (hi : Z) (r : rumprun_exec) (args : list (list Z)) : Prop :=
  exists ptrs, r = Rre RUMPRUN_EXEC_CMDLINE (zlen args) (ptrs ++ [0]) /\
    Forall2 (fun p a => p + zlen a < hi /\ cstr m p a) ptrs args.
Inductive ecall := ECall (c : call) | EPutenv (s : list Z).
Definition call_is (m : gmap Z Z) (hi : Z) (c : call) (e : ecall) : Prop :=
  match e with
  | ECall c' => c = c'
  | EPutenv s => exists p, c = CPutenv p /\ p + zlen s < hi /\ cstr m p s
  end.
Lemma exec_is_within m m' lo hi hi' r args : within m m' lo hi' -> hi <= lo -> exec_is m hi r args -> exec_is m' hi r args.
Proof.
  intros Hw Hlo (ptrs & -> & Hf). exists ptrs. split; [done|]. eapply Forall2_impl; [exact Hf|]. intros p a [Hp Hc].
  split; [done|]. eapply within_cstr; [done..|lia].
Qed.
Lemma call_is_within m m' lo hi hi' c e : within m m' lo hi' -> hi <= lo -> call_is m hi c e -> call_is m' hi c e.
Proof.
  intros Hw Hlo. destruct e as [c'|s]; [done|]. intros (p & -> & Hp & Hc). exists p. split_and!; try done.
  eapply within_cstr; [done..|lia].
Qed.
Lemma exec_is_mono m hi hi' r args : hi <= hi' -> exec_is m hi r args -> exec_is m hi' r args.
Proof.
  intros Hlo (ptrs & -> & Hf). exists ptrs. split; [done|]. eapply Forall2_impl; [exact Hf|]. intros p a [Hp Hc]. split; [lia|done].
Qed.
Lemma call_is_mono m hi hi' c e : hi <= hi' -> call_is m hi c e -> call_is m hi' c e.
Proof. intros Hlo. destruct e as [c'|s]; [done|]. intros (p & -> & Hp & Hc). exists p. split_and!; try done. lia. Qed.

(** ** Handlers of one string *)
Section Strings.
Context (env : list call -> call -> Z) (toks : list jsmntok) (data : Z).
Context (t off : Z) (s rest : list Z) (c : cfg).
Hypothesis Hs : chars s.
Hypothesis Hlen : zlen s < 2 ^ 31 - 1.
Hypothesis Ht : 0 <= t.
Hypothesis Htok : toks !! Z.to_nat t = Some (Tok JSMN_STRING off (off + zlen s) 0).
Hypothesis Hb : bytes_at (cf_mem c) (data + off) (s ++ 34 :: rest).
Hypothesis Henv : forall h k, env h k = 0.
Let hi := data + off + zlen s + 1.

Lemma wp_do_call k Q d : Q 0 (set_calls (cf_calls d ++ [k]) d) -> wp (do_call env k) Q d.
Proof using Henv. intros HQ. unfold do_call. wp_steps. by rewrite Henv. Qed.

Lemma wp_makeargv p l d : cstr (cf_mem d) p l -> zlen l < 2 ^ 31 - 1 ->
  wp (makeargv p) (fun _ c' => exists m' r, c' = set_execs (cf_execs d ++ [r]) (set_cmem m' d) /\
    within (cf_mem d) m' p (p + zlen l + 1) /\ exec_is m' (p + zlen l + 1) r (args_of l)) d.
Proof.
  intros Hc Hl. unfold makeargv. apply wp_bind, wp_inmem.
  eapply wp_mono; [by apply (wp_parseargs None (cf_mem d) p l)|]. intros [n arr] m1 (En & _ & -> & _). cbn in En. subst n.
  rewrite set_cmem_id. apply wp_bind, wp_inmem.
  eapply wp_mono; [apply (wp_parseargs (Some (zlen (args_of l) + 1)) (cf_mem d) p l); [done|intros ? [= <-]; lia|done]|].
  intros [n arr'] m1 (En & Hout & Hf). cbn in En, Hf. subst n. unfold add_exec. apply wp_modify.
  exists m1. eexists. split_and!; [reflexivity| |].
  - intros x Hx. apply Hout. lia.
  - exists arr'. split; [done|]. eapply Forall2_impl; [exact Hf|]. intros a q (? & ? & ?). split; [lia|done].
Qed.

Lemma wp_handle_cmdline left : wp (handle_cmdline toks data t left) (fun n c' => n = 1 /\ exists m' r,
    c' = set_execs (cf_execs c ++ [r]) (set_cmem m' c) /\ within (cf_mem c) m' (data + off) hi /\ exec_is m' hi r (args_of s)) c.
Proof using All.
  unfold handle_cmdline. apply wp_bind. eapply wp_tok; [done|exact Htok|]. apply wp_bind, wp_check; [done|].
  apply wp_bind. apply (wp_token2cstr toks data JSMN_STRING off 0 s Hs ltac:(lia) rest); [exact Hb|]. intros m1 Hc1 Hw1. apply wp_bind.
  eapply wp_mono; [apply (wp_makeargv _ s); [exact Hc1|done]|]. intros [] c' (m2 & r & -> & Hw2 & He). apply wp_ret. split; [done|].
  exists m2, r. split_and!; [by destruct c| |done]. eapply within_wider; [by eapply within_trans|unfold hi; lia..].
Qed.
Lemma wp_handle_env left : wp (handle_env env toks data t left) (fun n c' => n = 1 /\ exists m' k,
    c' = set_calls (cf_calls c ++ [k]) (set_cmem m' c) /\ within (cf_mem c) m' (data + off) hi /\ call_is m' hi k (EPutenv s)) c.
Proof using All.
  unfold handle_env. apply wp_bind. eapply wp_tok; [done|exact Htok|]. apply wp_bind, wp_check; [done|].
  apply wp_bind. apply (wp_token2cstr toks data JSMN_STRING off 0 s Hs ltac:(lia) rest); [exact Hb|]. intros m1 Hc1 Hw1.
  apply wp_bind, wp_do_call, wp_bind, wp_check; [done|]. apply wp_ret. split; [done|]. exists m1. eexists. split; [reflexivity|].
  split; [done|]. eexists. split_and!; [reflexivity|unfold hi; lia|done].
Qed.
Lemma wp_handle_hostname left : wp (handle_hostname env toks data t left) (fun n c' => n = 1 /\ exists m' k,
    c' = set_calls (cf_calls c ++ [k]) (set_cmem m' c) /\ within (cf_mem c) m' (data + off) hi /\ call_is m' hi k (ECall (CSethostname s))) c.
Proof using All.
  unfold handle_hostname. apply wp_bind. eapply wp_tok; [done|exact Htok|]. apply wp_bind, wp_check; [done|].
  apply wp_bind. apply (wp_token2cstr toks data JSMN_STRING off 0 s Hs ltac:(lia) rest); [exact Hb|]. intros m1 Hc1 Hw1.
  rewrite T_SIZE_eq, Nat2Z.id by lia. apply wp_bind. apply wp_bytes_of; [destruct Hc1 as [Hc1 _]; by apply bytes_at_app in Hc1 as [? _]|].
  apply wp_bind, wp_do_call, wp_bind, wp_check; [done|]. apply wp_ret. split; [done|]. exists m1. eexists. done.
Qed.
End Strings.

(** ** The text of a key and its value *)
Lemma pair_bytes m data off b k a v l :
  bytes_at m (data + off + 1) (tail (print_pairs (PCons b k a v l))) ->
  let o1 := off + 1 + zlen b in
  let o2 := o1 + zlen (quoted k) + zlen a + 1 in
  bytes_at m (data + (o1 + 1)) (print_chars k) /\ bytes_at m (data + o2) (print v) /\
  bytes_at m (data + (o2 + zlen (print v)) + 1) (tail (print_pairs l)).
Proof.
  intros H o1 o2. cbn [print_pairs tail] in H. unfold quoted in *.
  repeat first [rewrite bytes_at_app in H | rewrite bytes_at_cons in H | progress cbn [app] in H].
  destruct H as (_ & (_ & Hk & _) & _ & _ & Hv & Hl).
  unfold o2, o1. cbn [length app] in *. rewrite !length_app in *. cbn [length] in *. split_and!.
  - by replace (data + (off + 1 + zlen b + 1)) with (data + off + 1 + zlen b + 1) by lia.
  - match goal with H : bytes_at m ?x (print v) |- bytes_at m ?y (print v) => replace y with x by lia end. done.
  - destruct l; [apply bytes_at_nil|]. cbn [print_pairs tail] in *. apply bytes_at_cons in Hl as [_ Hl].
    match goal with H : bytes_at m ?x ?t |- bytes_at m ?y ?t => replace y with x by lia end. done.
Qed.
Lemma padded_bytes m data o w1 es w2 : bytes_at m (data + o) (print (JPad w1 (JStr es) w2)) ->
  bytes_at m (data + (o + zlen w1 + 1)) (print_chars es ++ 34 :: w2).
Proof.
  cbn [print]. unfold quoted. cbn [app]. rewrite bytes_at_app, bytes_at_cons, <- app_assoc. cbn [app].
  intros (_ & _ & H). by replace (data + (o + zlen w1 + 1)) with (data + o + zlen w1 + 1) by lia.
Qed.
Definition plain (s : string) : list schar := map SPlain (lit s).
Lemma print_plain s : print_chars (plain s) = lit s.
Proof. unfold plain. induction (lit s) as [|c l IH]; cbn; [done|]. by rewrite IH. Qed.

(** ** Objects whose values are strings *)
Record sfield (K : Type) := SField { f_b : list Z; f_key : K; f_a : list Z; f_w1 : list Z; f_val : list schar; f_w2 : list Z }.
#[global] Arguments f_b {K} _.
#[global] Arguments f_key {K} _.
#[global] Arguments f_a {K} _.
#[global] Arguments f_w1 {K} _.
#[global] Arguments f_val {K} _.
#[global] Arguments f_w2 {K} _.
#[global] Arguments SField {K} _ _ _ _ _ _.
Section Fields.
Context {K S T : Type} (name : K -> string) (table : list (string * K)).
Context (set : K -> Z -> S -> S) (sett : K -> list Z -> T -> T) (rel : gmap Z Z -> Z -> S -> T -> Prop).
Hypothesis Hname : forall k, key_find (lit (name k)) table = Some k.
Hypothesis Hchars : forall k, chars (lit (name k)).
Hypothesis Hshort : forall k, zlen (lit (name k)) < 2 ^ 31.
Hypothesis Hset : forall m hi k p v s t, rel m hi s t -> cstr m p v -> p + zlen v < hi -> zlen v < 2 ^ 31 ->
  rel m hi (set k p s) (sett k v t).
Hypothesis Hwithin : forall m m' lo hi hi' s t, within m m' lo hi' -> hi <= lo -> rel m hi s t -> rel m' hi s t.
Hypothesis Hmono : forall m hi hi' s t, hi <= hi' -> rel m hi s t -> rel m hi' s t.

Definition field_json (f : sfield K) : json := JPad (f_w1 f) (JStr (f_val f)) (f_w2 f).
Fixpoint fields_json (l : list (sfield K)) : jpairs :=
  match l with [] => PNil | f :: l => PCons (f_b f) (plain (name (f_key f))) (f_a f) (field_json f) (fields_json l) end.
Definition fields_val (t0 : T) (l : list (sfield K)) : T :=
  foldl (fun t f => sett (f_key f) (print_chars (f_val f)) t) t0 l.

Context (toks : list jsmntok) (data : Z).

Lemma wp_pair_at t k ok s ov rest c : 0 <= t -> chars s -> zlen s < 2 ^ 31 ->
  toks !! Z.to_nat t = Some (Tok JSMN_STRING ok (ok + zlen (lit (name k))) 1) ->
  toks !! Z.to_nat (t + 1) = Some (Tok JSMN_STRING ov (ov + zlen s) 0) ->
  bytes_at (cf_mem c) (data + ok) (lit (name k)) -> bytes_at (cf_mem c) (data + ov) (s ++ 34 :: rest) ->
  ok + zlen (lit (name k)) <= ov ->
  wp (pair_at toks data table t) (fun r c' => r = (k, data + ov) /\ exists m', c' = set_cmem m' c /\
    within (cf_mem c) m' (data + ov) (data + ov + zlen s + 1) /\ cstr m' (data + ov) s) c.
Proof using Hname Hchars Hshort.
  intros Ht Hs Hl Ek Ev Hk Hv Hle. unfold pair_at. apply wp_bind. eapply wp_tok; [done|exact Ek|].
  apply wp_bind, wp_check; [done|]. apply wp_bind, wp_check; [done|]. apply wp_bind. eapply wp_tok; [lia|exact Ev|].
  apply wp_bind, wp_check; [done|]. apply wp_bind, wp_check; [done|]. apply wp_bind.
  apply (wp_token2cstr toks data JSMN_STRING ov 0 s Hs Hl rest); [exact Hv|]. intros m' Hc Hw. apply wp_bind.
  apply (wp_key_match toks data JSMN_STRING ok 1 (lit (name k)) (Hchars k) (Hshort k)).
  { cbn [cf_mem set_cmem]. eapply within_bytes; [exact Hw|exact Hk|]. right. lia. }
  rewrite Hname. apply wp_ret. split; [done|]. by exists m'.
Qed.

Lemma drop_lookup_hd {A} (l r : list A) x n : drop n l = x :: r -> l !! n = Some x /\ drop (n + 1) l = r.
Proof.
  intros E. split; [rewrite <- (Nat.add_0_r n), <- lookup_drop, E; done|].
  by rewrite <- drop_drop, E.
Qed.

Definition fields_ok (l : list (sfield K)) : Prop := Forall (fun f => chars (print_chars (f_val f))) l.

Lemma fields_length l : zlen l <= zlen (print_pairs (fields_json l)).
Proof using. induction l as [|f l IH]; cbn [fields_json print_pairs length]; [lia|]. rewrite !length_app. cbn [length]. rewrite length_app. lia. Qed.

Lemma wp_pairs_loop l more t off s0 t0 c : 0 <= t ->
  drop (Z.to_nat t) toks = toks_pairs (fields_json l) off ++ more ->
  bytes_at (cf_mem c) (data + off + 1) (tail (print_pairs (fields_json l))) -> fields_ok l ->
  zlen (print_pairs (fields_json l)) < 2 ^ 31 -> rel (cf_mem c) (data + off + 1) s0 t0 ->
  let hi := data + off + zlen (print_pairs (fields_json l)) + 1 in
  wp (pairs_loop toks data table set (zlen l) t s0) (fun s c' => exists m', c' = set_cmem m' c /\
    within (cf_mem c) m' (data + off + 1) hi /\ rel m' hi s (fields_val t0 l)) c.
Proof using All.
  intros Ht Htoks Hb Hok Hlen Hr hi. unfold pairs_loop.
  set (fin := off + zlen (print_pairs (fields_json l))) in *.
  apply (wp_loop _ (fun '(i, t', s) c' => exists rest off' m' t1, 0 <= i /\ i + zlen rest = zlen l /\ 0 <= t' /\
      drop (Z.to_nat t') toks = toks_pairs (fields_json rest) off' ++ more /\ c' = set_cmem m' c /\
      bytes_at m' (data + off' + 1) (tail (print_pairs (fields_json rest))) /\ fields_ok rest /\ off <= off' /\
      off' + zlen (print_pairs (fields_json rest)) = fin /\ within (cf_mem c) m' (data + off + 1) (data + off' + 1) /\
      rel m' (data + off' + 1) s t1 /\ fields_val t1 rest = fields_val t0 l)
    (fun '(i, _, _) _ => zlen l - i)).
  - intros [[i t'] s] c' (rest & off' & m' & t1 & Hi & Hn & Ht' & Htk & -> & Hbr & Hokr & Hoff & Hfin & Hw & Hrel & Hv).
    split; [lia|]. destruct rest as [|f rest]; cbn [length] in Hn.
    { destruct (Z.ltb_spec i (zlen l)); [lia|]. apply wp_ret. exists m'. cbn in Hfin, Hv. subst t1.
      replace hi with (data + off' + 1) by (unfold hi; lia). done. }
    destruct (Z.ltb_spec i (zlen l)); [|lia]. cbn [fields_json toks_pairs] in Htk. cbv zeta in Htk. cbn [app] in Htk.
    apply pair_bytes in Hbr as (Hbk & Hbv & Hbr). unfold field_json in Htk, Hbv. apply padded_bytes in Hbv.
    rewrite print_plain in Hbk. apply Forall_cons in Hokr as [Hval Hokr].
    apply drop_lookup_hd in Htk as [Ek Htk].
    replace (Z.to_nat t' + 1)%nat with (Z.to_nat (t' + 1)) in Htk by lia. cbn [JsmnSpec.toks app] in Htk.
    apply drop_lookup_hd in Htk as [Ev Htk]. rewrite print_plain in Ek.
    set (ov := off' + 1 + zlen (f_b f) + zlen (quoted (plain (name (f_key f)))) + zlen (f_a f) + 1 + zlen (f_w1 f) + 1) in *.
    assert (Hpl : zlen (quoted (plain (name (f_key f)))) = zlen (lit (name (f_key f))) + 2).
    { unfold quoted. rewrite print_plain. cbn [length]. rewrite length_app. cbn. lia. }
    assert (Hfl : off' + zlen (print_pairs (fields_json (f :: rest))) =
      ov + zlen (print_chars (f_val f)) + 1 + zlen (f_w2 f) + zlen (print_pairs (fields_json rest))).
    { cbn [fields_json print_pairs]. unfold field_json. cbn [print]. unfold ov. rewrite Hpl.
      unfold quoted. rewrite print_plain. repeat (cbn [length]; rewrite !length_app). cbn [length]. lia. }
    assert (Hnext : off' + 1 + zlen (f_b f) + zlen (quoted (plain (name (f_key f)))) + zlen (f_a f) + 1 +
      zlen (print (JPad (f_w1 f) (JStr (f_val f)) (f_w2 f))) = ov + zlen (print_chars (f_val f)) + 1 + zlen (f_w2 f)).
    { cbn [print]. unfold ov, quoted. repeat (cbn [length]; rewrite !length_app). cbn [length]. lia. }
    assert (Hpos : off' + 1 < ov) by (unfold ov; lia). unfold field_json in Hbr. rewrite Hnext in Htk, Hbr.
    apply wp_bind. eapply wp_mono; [eapply (wp_pair_at t' (f_key f) _ (print_chars (f_val f)) ov); try done|].
    { rewrite Hfl in Hfin. lia. }
    { unfold ov. rewrite Hpl. lia. }
    intros [k p] c1 ([= -> ->] & m1 & -> & Hw1 & Hc1). cbn [cf_mem set_cmem] in Hw1. apply wp_ret. split; [|lia].
    exists rest, (ov + zlen (print_chars (f_val f)) + 1 + zlen (f_w2 f)), m1, (sett (f_key f) (print_chars (f_val f)) t1).
    split_and!; try done; try lia.
    + rewrite <- Htk. f_equal. lia.
    + eapply within_bytes; [exact Hw1|exact Hbr|]. left. lia.
    + eapply within_wider; [by eapply within_trans|lia..].
    + apply Hset; [|done|lia|rewrite Hfl in Hfin; lia]. apply (Hmono _ (data + off' + 1)); [lia|]. eapply Hwithin; [exact Hw1|lia|done].
  - exists l, off, (cf_mem c), t0. rewrite set_cmem_id. split_and!; try done; lia.
  - pose proof (fields_length l). lia.
Qed.
End Fields.

(** ** Network *)
Definition net_name (k : netkey) : string :=
  match k with NIf => "if" | NCloner => "cloner" | NType => "type" | NMethod => "method" | NAddr => "addr" | NMask => "mask" | NGw => "gw" end.
Lemma net_name_ok k : key_find (lit (net_name k)) net_keys = Some k /\ chars (lit (net_name k)) /\ zlen (lit (net_name k)) < 2 ^ 31.
Proof. destruct k; (split_and!; [reflexivity| |reflexivity]); unfold chars; cbn; repeat constructor; lia. Qed.

Definition opt_is (m : gmap Z Z) (hi : Z) (p : option Z) (s : option (list Z)) : Prop :=
  match p, s with
  | None, None => True
  | Some p, Some s => cstr m p s /\ p + zlen s < hi /\ zlen s < 2 ^ 31
  | _, _ => False
  end.
Definition net_is (m : gmap Z Z) (hi : Z) (n : netspec Z) (n' : netspec (list Z)) : Prop :=
  opt_is m hi (n_if n) (n_if n') /\ opt_is m hi (n_cloner n) (n_cloner n') /\ opt_is m hi (n_type n) (n_type n') /\
  opt_is m hi (n_method n) (n_method n') /\ opt_is m hi (n_addr n) (n_addr n') /\ opt_is m hi (n_mask n) (n_mask n') /\
  opt_is m hi (n_gw n) (n_gw n').
Lemma opt_is_within m m' lo hi hi' p s : within m m' lo hi' -> hi <= lo -> opt_is m hi p s -> opt_is m' hi p s.
Proof. intros Hw Hlo. destruct p, s; try done. intros (Hc & Hp & Hl). split_and!; try done. eapply within_cstr; [done..|lia]. Qed.
Lemma opt_is_mono m hi hi' p s : hi <= hi' -> opt_is m hi p s -> opt_is m hi' p s.
Proof. intros Hlo. destruct p, s; try done. intros (Hc & Hp & Hl). split_and!; try done. lia. Qed.
Lemma net_is_within m m' lo hi hi' n n' : within m m' lo hi' -> hi <= lo -> net_is m hi n n' -> net_is m' hi n n'.
Proof. unfold net_is. intros Hw Hlo H. decompose [and] H. split_and!; eapply opt_is_within; eauto. Qed.
Lemma net_is_mono m hi hi' n n' : hi <= hi' -> net_is m hi n n' -> net_is m hi' n n'.
Proof. unfold net_is. intros Hlo H. decompose [and] H. split_and!; eapply opt_is_mono; eauto. Qed.
Lemma net_is_set m hi k p v n n' : net_is m hi n n' -> cstr m p v -> p + zlen v < hi -> zlen v < 2 ^ 31 ->
  net_is m hi (net_set k p n) (net_set k v n').
Proof. unfold net_is. intros H Hc Hp Hl. decompose [and] H. destruct k; cbn; split_and!; done. Qed.

(** What a complete specification asks for: the calls it leads to. *)
Definition ip_calls (auto : string) (cauto : list Z -> call) (caddr : list Z -> list Z -> Z -> call) (cgw : list Z -> call)
    (ifn method : list Z) (addr mask gw : option (list Z)) : option (list call) :=
  if bool_decide (method = lit auto) then Some [cauto ifn]
  else if bool_decide (method = lit "static") then
    match addr, mask with
    | Some a, Some mk => Some (caddr ifn a (atoi mk) :: match gw with Some g => [cgw g] | None => [] end)
    | _, _ => None
    end
  else None.
Definition net_calls (n : netspec (list Z)) : option (list call) :=
  match n_if n, n_type n, n_method n with
  | Some ifn, Some type, Some method =>
      let pre := match n_cloner n with Some _ => [CIfcreate ifn] | None => [] end in
      app pre <$>
        (if bool_decide (type = lit "inet") then ip_calls "dhcp" CDhcp4 CIfaddr4 CGw4 ifn method (n_addr n) (n_mask n) (n_gw n)
         else if bool_decide (type = lit "inet6") then ip_calls "auto" CAuto6 CIfaddr6 CGw6 ifn method (n_addr n) (n_mask n) (n_gw n)
         else None)
  | _, _, _ => None
  end.

Lemma wp_str_opt m hi p s Q d : opt_is m hi (Some p) (Some s) -> cf_mem d = m -> Q s d -> wp (str_at p) Q d.
Proof. intros (Hc & _ & Hl) <- HQ. apply (wp_str_at p s); [done|lia|done]. Qed.
Lemma wp_str_is m hi p s name (Q : bool -> cfg -> Prop) d : opt_is m hi (Some p) (Some s) -> cf_mem d = m ->
  Q (bool_decide (s = lit name)) d -> wp (str_is p name) Q d.
Proof. intros Hp Hm HQ. unfold str_is. apply wp_bind. eapply wp_str_opt; [done..|]. by apply wp_ret. Qed.

Section Net.
Context (env : list call -> call -> Z) (Henv : forall h k, env h k = 0).
Context (m : gmap Z Z) (hi : Z).
Let ok := opt_is m hi.

Lemma wp_call_check k why (Q : unit -> cfg -> Prop) d : Q tt (set_calls (cf_calls d ++ [k]) d) ->
  wp (r <-- do_call env k ;; check (r =? 0) why) Q d.
Proof using Henv. intros HQ. apply wp_bind, (wp_do_call env Henv). by apply wp_check. Qed.

Lemma wp_config_ip v6 ifn method addr mask gw ifs ms adds masks gws cs d :
  ok (Some ifn) (Some ifs) -> ok (Some method) (Some ms) -> ok addr adds -> ok mask masks -> ok gw gws -> cf_mem d = m ->
  (if v6 : bool then ip_calls "auto" CAuto6 CIfaddr6 CGw6 ifs ms adds masks gws
   else ip_calls "dhcp" CDhcp4 CIfaddr4 CGw4 ifs ms adds masks gws) = Some cs ->
  wp (if v6 : bool then config_ipv6 env ifn method addr mask gw else config_ipv4 env ifn method addr mask gw)
    (fun _ d' => d' = set_calls (cf_calls d ++ cs) d) d.
Proof using Henv.
  unfold ok. intros Hif Hm Ha Hk Hg Hd E. unfold config_ipv4, config_ipv6, ip_calls in *.
  destruct v6; apply wp_bind; (eapply wp_str_is; [exact Hm|done|]); apply wp_bind; (eapply wp_str_opt; [exact Hif|done|]).
  all: case_bool_decide; [injection E as <-; by apply wp_call_check|].
  all: apply wp_bind; eapply wp_str_is; [exact Hm|done|].
  all: case_bool_decide; [|done]; apply wp_bind, wp_check; [done|].
  all: destruct addr as [addr|], adds as [adds|], mask as [mask|], masks as [masks|]; try done; injection E as <-.
  all: apply wp_bind; eapply wp_str_opt; [exact Ha|done|]; apply wp_bind; eapply wp_str_opt; [exact Hk|done|].
  all: apply wp_bind, (wp_do_call env Henv), wp_bind, wp_check; [done|].
  all: destruct gw as [gw|], gws as [gws|]; try done.
  all: try (apply wp_bind; eapply wp_str_opt; [exact Hg|done|]; apply wp_call_check; destruct d; cbn; by rewrite <- app_assoc).
  all: apply wp_ret; by destruct d.
Qed.
End Net.

Lemma fields_pairs_len {K} (name : K -> string) l : pairs_len (fields_json name l) = zlen l.
Proof. induction l as [|f l IH]; cbn [fields_json pairs_len length]; [done|]. rewrite IH. lia. Qed.
Lemma fields_ntoks {K} (name : K -> string) l : ntoks_pairs (fields_json name l) = (2 * length l)%nat.
Proof. induction l as [|f l IH]; cbn [fields_json ntoks_pairs length]; [done|]. rewrite IH. cbn. lia. Qed.
Lemma length_obj l : zlen (print_pairs l) + 1 <= zlen (print (JObj l)).
Proof. cbn [print length]. rewrite length_app. destruct (print_pairs l); cbn [tail length]; lia. Qed.

Section HandleNet.
Context (env : list call -> call -> Z) (Henv : forall h k, env h k = 0).
Context (toks : list jsmntok) (data t off : Z) (l : list (sfield netkey)) (more : list jsmntok) (c : cfg).
Let v := JObj (fields_json net_name l).
Hypothesis Ht : 0 <= t.
Hypothesis Htoks : drop (Z.to_nat t) toks = JsmnSpec.toks v off ++ more.
Hypothesis Hb : bytes_at (cf_mem c) (data + off) (print v).
Hypothesis Hok : fields_ok l.
Hypothesis Hlen : zlen (print v) < 2 ^ 31.
Hypothesis Hconf : cf_configured c = false.

Lemma wp_handle_net cs : net_calls (fields_val net_set no_net l) = Some cs ->
  wp (handle_net env toks data t (zlen toks - t)) (fun n c' => n = Z.of_nat (ntoks v) /\ exists m',
    c' = set_calls (cf_calls c ++ cs) (set_cmem m' c) /\ within (cf_mem c) m' (data + off) (data + off + zlen (print v))) c.
Proof using All.
  intros Hcs. pose proof (length_obj (fields_json net_name l)) as Hlo. fold v in Hlo.
  assert (Hnt : Z.of_nat (ntoks v) = 2 * zlen l + 1) by (unfold v; cbn [ntoks]; rewrite fields_ntoks; lia).
  assert (Hleft : zlen toks - t >= 2 * zlen l + 1).
  { apply (f_equal length) in Htoks. rewrite length_drop, length_app, length_toks in Htoks. lia. }
  assert (E : drop (Z.to_nat t) toks = Tok JSMN_OBJECT off (off + zlen (print v)) (zlen l) :: toks_pairs (fields_json net_name l) off ++ more).
  { rewrite Htoks. unfold v. cbn [JsmnSpec.toks app]. by rewrite fields_pairs_len. }
  apply drop_lookup_hd in E as [E1 E2]. replace (Z.to_nat t + 1)%nat with (Z.to_nat (t + 1)) in E2 by lia.
  unfold handle_net. apply wp_bind. eapply wp_tok; [done|exact E1|]. apply wp_bind, wp_check; [done|]. cbn [jt_size].
  destruct (Z.ltb_spec (zlen toks - t) (2 * zlen l + 1)); [lia|]. apply wp_bind, wp_get. rewrite Hconf. apply wp_bind, wp_check; [done|].
  apply wp_bind. eapply wp_mono; [eapply (wp_pairs_loop net_name net_keys net_set net_set net_is); try done|].
  all: try (intros; apply net_name_ok); try apply net_is_set; try apply net_is_mono; try (intros; by eapply net_is_within); try lia.
  { unfold v in Hb. cbn [print] in Hb. apply bytes_at_cons in Hb as [_ Hb']. by apply bytes_at_app in Hb' as [Hb' _]. }
  { instantiate (1 := no_net). by unfold net_is. }
  intros n c1 (m1 & -> & Hw & Hn). unfold net_calls in Hcs. destruct Hn as (Hi & Hcl & Hty & Hme & Ha & Hk & Hg).
  set (n' := fields_val net_set no_net l) in *.
  destruct (n_if n) as [pi|], (n_if n') as [si|]; try done. destruct (n_type n) as [pt|], (n_type n') as [st|]; try done.
  destruct (n_method n) as [pm|], (n_method n') as [sm|]; try done. cbv zeta in Hcs.
  set (pre := match n_cloner n' with Some _ => [CIfcreate si] | None => [] end) in *.
  apply wp_bind, (wp_mono _ (fun _ d => d = set_calls (cf_calls c ++ pre) (set_cmem m1 c))).
  { unfold pre. destruct (n_cloner n), (n_cloner n'); try done.
    - apply wp_bind. eapply wp_str_opt; [exact Hi|done|]. apply (wp_call_check env Henv); by destruct c.
    - apply wp_ret. destruct c; cbn. by rewrite app_nil_r. }
  intros [] d ->. apply wp_bind. eapply wp_str_is; [exact Hty|done|].
  set (d := set_calls (cf_calls c ++ pre) (set_cmem m1 c)).
  assert (Hfin : forall v6 cs', cs = pre ++ cs' ->
    (if v6 : bool then ip_calls "auto" CAuto6 CIfaddr6 CGw6 si sm (n_addr n') (n_mask n') (n_gw n')
     else ip_calls "dhcp" CDhcp4 CIfaddr4 CGw4 si sm (n_addr n') (n_mask n') (n_gw n')) = Some cs' ->
    wp (if v6 : bool then config_ipv6 env pi pm (n_addr n) (n_mask n) (n_gw n) else config_ipv4 env pi pm (n_addr n) (n_mask n) (n_gw n))
      (fun _ d' => d' = set_calls (cf_calls c ++ cs) (set_cmem m1 c)) d).
  { intros v6 cs' -> Hip. eapply wp_mono; [eapply (wp_config_ip env Henv m1 _ v6); done|]. intros [] d' ->.
    unfold d. destruct c; cbn. by rewrite <- app_assoc. }
  apply wp_bind, (wp_mono _ (fun _ d' => d' = set_calls (cf_calls c ++ cs) (set_cmem m1 c))).
  - case_bool_decide; [|apply wp_bind; eapply wp_str_is; [exact Hty|done|]; case_bool_decide; [|done]].
    + apply fmap_Some in Hcs as (cs' & Hip & ->). by apply (Hfin false cs').
    + apply fmap_Some in Hcs as (cs' & Hip & ->). by apply (Hfin true cs').
  - intros [] d' ->. apply wp_ret. split; [lia|]. exists m1. split; [done|]. eapply within_wider; [exact Hw|lia|lia].
Qed.
End HandleNet.
