(* ===== verification/ConfigSpec.v ===== *)
(** * From the text of a configuration to programs, environment and network *)

From S2P Require Import Prelude CString CText CStringThms Parseargs Jsmn JsmnThms JsmnSpec Config ConfigThms.

(** ** Configurations *)
Inductive entry := ECmdline (v : list schar) | EEnv (v : list schar) | EHostname (v : list schar) | ENet (l : list (sfield netkey)).
Record item := Item { it_b : list Z; it_e : entry; it_a : list Z; it_w1 : list Z; it_w2 : list Z }.

Definition entry_key (e : entry) : string :=
  match e with ECmdline _ => "cmdline" | EEnv _ => "env" | EHostname _ => "hostname" | ENet _ => "net" end.
Definition entry_value (e : entry) : json :=
  match e with ECmdline v | EEnv v | EHostname v => JStr v | ENet l => JObj (fields_json net_name l) end.
Definition item_json (i : item) : json := JPad (it_w1 i) (entry_value (it_e i)) (it_w2 i).
Fixpoint items_json (l : list item) : jpairs :=
  match l with [] => PNil | i :: l => PCons (it_b i) (plain (entry_key (it_e i))) (it_a i) (item_json i) (items_json l) end.
Definition config_json (l : list item) (w : list Z) : json := JPad [] (JObj (items_json l)) w.

(** ** What they ask for *)
Definition entry_execs (e : entry) : list (list (list Z)) :=
  match e with ECmdline v => [args_of (print_chars v)] | _ => [] end.
Definition entry_calls (e : entry) : list ecall :=
  match e with
  | ECmdline _ => []
  | EEnv v => [EPutenv (print_chars v)]
  | EHostname v => [ECall (CSethostname (print_chars v))]
  | ENet l => map ECall (default [] (net_calls (fields_val net_set no_net l)))
  end.
Definition items_execs (l : list item) := concat (map (fun i => entry_execs (it_e i)) l).
Definition items_calls (l : list item) := concat (map (fun i => entry_calls (it_e i)) l).
(** A network entry is complete. *)
Definition entry_valid (e : entry) : bool :=
  match e with ENet l => bool_decide (is_Some (net_calls (fields_val net_set no_net l))) | _ => true end.

Definition entry_chars (e : entry) : Prop :=
  match e with ECmdline v | EEnv v | EHostname v => chars (print_chars v) | ENet l => fields_ok l end.

Lemma chars_app a b : chars (a ++ b) <-> chars a /\ chars b.
Proof. apply Forall_app. Qed.
Lemma chars_cons a b : chars (a :: b) <-> 0 < a < 256 /\ chars b.
Proof. unfold chars. by rewrite Forall_cons. Qed.
Ltac chars_split H := unfold quoted in H; repeat first [rewrite chars_app in H | rewrite chars_cons in H | progress cbn [app] in H].

Lemma fields_chars l : chars (print_pairs (fields_json net_name l)) -> fields_ok l.
Proof.
  induction l as [|f l IH]; cbn [fields_json print_pairs]; [by constructor|]. unfold field_json. cbn [print]. intros H. chars_split H.
  constructor; [tauto|]. apply IH. tauto.
Qed.
Lemma chars_tail l : chars (tail (print_pairs l)) -> chars (print_pairs l).
Proof. destruct l; cbn [print_pairs tail]; [done|]. intros H. apply chars_cons. split; [lia|done]. Qed.
Lemma items_chars l : chars (print_pairs (items_json l)) -> Forall (fun i => entry_chars (it_e i)) l.
Proof.
  induction l as [|i l IH]; cbn [items_json print_pairs]; [by constructor|]. intros H. rewrite !chars_cons, !chars_app in H.
  destruct H as (_ & _ & _ & _ & H). rewrite chars_cons, chars_app in H. destruct H as (_ & Hv & Hl). constructor; [|auto].
  unfold item_json in Hv. cbn [print] in Hv. rewrite !chars_app in Hv. destruct Hv as (_ & Hv & _).
  destruct (it_e i); cbn [entry_value print entry_chars] in *; [chars_split Hv; tauto..|].
  rewrite chars_cons, chars_app in Hv. apply fields_chars, chars_tail. tauto.
Qed.
Lemma entry_keys e : chars (lit (entry_key e)) /\ zlen (lit (entry_key e)) < 2 ^ 31.
Proof. destruct e; (split; [|reflexivity]); unfold chars; cbn; repeat constructor; lia. Qed.

(** ** One entry *)
Section Step.
Context (env : list call -> call -> Z) (Henv : forall h k, env h k = 0) (RAW_PART : Z).
Context (toks : list jsmntok) (data : Z).

(** The handler of an entry, on its value at [off]. *)
Definition handled (e : entry) (off : Z) (c : cfg) (n : Z) (c' : cfg) : Prop :=
  n = Z.of_nat (ntoks (entry_value e)) /\ exists m' ex cl,
    c' = Cfg m' (cf_brk c) (cf_execs c ++ ex) (cf_calls c ++ cl) (cf_nextvnd c) (cf_configured c) /\
    within (cf_mem c) m' (data + off) (data + off + zlen (print (entry_value e))) /\
    Forall2 (exec_is m' (data + off + zlen (print (entry_value e)))) ex (entry_execs e) /\
    Forall2 (call_is m' (data + off + zlen (print (entry_value e)))) cl (entry_calls e).

Definition handler_of (e : entry) : Z -> Z -> M cfg Z :=
  match e with
  | ECmdline _ => handle_cmdline toks data
  | EEnv _ => handle_env env toks data
  | EHostname _ => handle_hostname env toks data
  | ENet _ => handle_net env toks data
  end.
Lemma handler_found e : key_find (lit (entry_key e)) (parsers env RAW_PART toks data) = Some (handler_of e).
Proof. by destruct e. Qed.

Lemma wp_handler e t off more c : 0 <= t -> drop (Z.to_nat t) toks = JsmnSpec.toks (entry_value e) off ++ more ->
  bytes_at (cf_mem c) (data + off) (print (entry_value e)) -> entry_chars e -> entry_valid e = true ->
  zlen (print (entry_value e)) < 2 ^ 31 - 1 -> cf_configured c = false ->
  wp (handler_of e t (zlen toks - t)) (handled e off c) c.
Proof using Henv.
  intros Ht Htk Hb Hc Hv Hl Hconf.
  destruct e as [s|s|s|l]; cbn [entry_value entry_chars handler_of] in *.
  1-3: cbn [JsmnSpec.toks app print] in *; unfold quoted in *; cbn [app length] in *; rewrite ?length_app in *;
    apply bytes_at_cons in Hb as [_ Hb]; rewrite <- Z.add_assoc in Hb; apply drop_lookup_hd in Htk as [Etk _].
  - eapply wp_mono; [eapply (wp_handle_cmdline env toks data t (off + 1) (print_chars s) [] c); try done; lia|].
    intros n c' (-> & m' & r & -> & Hw & He). split; [done|]. exists m', [r], []. cbn [entry_value print]. unfold quoted. cbn [length]. rewrite length_app. cbn [length].
    split_and!; [by destruct c; cbn; rewrite app_nil_r|by eapply within_wider; [exact Hw|lia..]| |constructor].
    constructor; [|constructor]. eapply exec_is_mono; [|exact He]. lia.
  - eapply wp_mono; [eapply (wp_handle_env env toks data t (off + 1) (print_chars s) [] c); try done; lia|].
    intros n c' (-> & m' & r & -> & Hw & He). split; [done|]. exists m', [], [r]. cbn [entry_value print]. unfold quoted. cbn [length]. rewrite length_app. cbn [length].
    split_and!; [by destruct c; cbn; rewrite app_nil_r|by eapply within_wider; [exact Hw|lia..]|constructor|].
    constructor; [|constructor]. eapply call_is_mono; [|exact He]. lia.
  - eapply wp_mono; [eapply (wp_handle_hostname env toks data t (off + 1) (print_chars s) [] c); try done; lia|].
    intros n c' (-> & m' & r & -> & Hw & He). split; [done|]. exists m', [], [r]. cbn [entry_value print]. unfold quoted. cbn [length]. rewrite length_app. cbn [length].
    split_and!; [by destruct c; cbn; rewrite app_nil_r|by eapply within_wider; [exact Hw|lia..]|constructor|].
    constructor; [|constructor]. eapply call_is_mono; [|exact He]. lia.
  - cbn [entry_valid] in Hv. apply bool_decide_eq_true in Hv as [cs Hcs].
    eapply wp_mono; [eapply (wp_handle_net env Henv toks data t off l more c); try done; lia|].
    intros n c' (-> & m' & -> & Hw). split; [done|]. exists m', [], cs. cbn [entry_execs entry_calls]. rewrite Hcs. cbn [default from_option id].
    split_and!; [by destruct c; cbn; rewrite app_nil_r|done|constructor|]. clear. induction cs; constructor; done.
Qed.

(** ** The loop over the entries *)
Context (items : list item) (c0 : cfg) (fin : Z).
Hypothesis Htoks : toks = Tok JSMN_OBJECT 0 fin (zlen items) :: toks_pairs (items_json items) 0.
Hypothesis Hvalid : Forall (fun i => entry_valid (it_e i) = true) items.
Hypothesis Hchars : Forall (fun i => entry_chars (it_e i)) items.
Hypothesis Hb0 : bytes_at (cf_mem c0) (data + 1) (tail (print_pairs (items_json items))).
Hypothesis Hlen : zlen (print_pairs (items_json items)) < 2 ^ 31 - 1.
Hypothesis Hconf : cf_configured c0 = false.
Hypothesis Hntok : zlen toks < 2 ^ 32.

(** The state with the entries [rest] left, from the comma at [off] on. *)
Definition left_inv (rest : list item) (off t : Z) (c : cfg) : Prop :=
  exists m' ex cl eex ecl,
    1 <= t <= zlen toks /\ drop (Z.to_nat t) toks = toks_pairs (items_json rest) off /\ 0 <= off /\
    off + zlen (print_pairs (items_json rest)) = zlen (print_pairs (items_json items)) /\
    bytes_at m' (data + off + 1) (tail (print_pairs (items_json rest))) /\
    Forall (fun i => entry_valid (it_e i) = true) rest /\ Forall (fun i => entry_chars (it_e i)) rest /\
    c = Cfg m' (cf_brk c0) (cf_execs c0 ++ ex) (cf_calls c0 ++ cl) (cf_nextvnd c0) (cf_configured c0) /\
    Forall2 (exec_is m' (data + off + 1)) ex eex /\ Forall2 (call_is m' (data + off + 1)) cl ecl /\
    eex ++ items_execs rest = items_execs items /\ ecl ++ items_calls rest = items_calls items.

Lemma step_entry i rest off t c : left_inv (i :: rest) off t c ->
  wp (config_step env RAW_PART toks data (zlen toks) t)
    (fun r c' => match r with inl t' => t < t' /\ exists off', left_inv rest off' t' c' | inr _ => False end) c.
Proof using All.
  intros (m' & ex & cl & eex & ecl & Ht & Htk & Hoff & Hfin & Hb & Hv & Hc & -> & Hex & Hcl & Eex & Ecl).
  cbn [items_json] in *. apply pair_bytes in Hb as (Hbk & Hbv & Hbr). cbn [toks_pairs] in Htk. cbv zeta in Htk.
  apply Forall_cons in Hv as [Hvi Hv]. apply Forall_cons in Hc as [Hci Hc]. rewrite print_plain in Hbk.
  apply drop_lookup_hd in Htk as [Ek Htk]. rewrite print_plain in Ek.
  destruct (entry_keys (it_e i)) as [Hkc Hkl].
  set (ok := off + 1 + zlen (it_b i) + 1) in *.
  set (o2 := off + 1 + zlen (it_b i) + zlen (quoted (plain (entry_key (it_e i)))) + zlen (it_a i) + 1) in *.
  assert (Hnext : off + zlen (print_pairs (PCons (it_b i) (plain (entry_key (it_e i))) (it_a i) (item_json i) (items_json rest))) =
    o2 + zlen (print (item_json i)) + zlen (print_pairs (items_json rest))).
  { cbn [print_pairs]. unfold o2. repeat (cbn [length]; rewrite !length_app). cbn [length]. lia. }
  assert (Ho2 : off + 1 < o2) by (unfold o2; lia).
  assert (Hval : zlen (print (item_json i)) = zlen (it_w1 i) + zlen (print (entry_value (it_e i))) + zlen (it_w2 i)).
  { unfold item_json. cbn [print]. rewrite !length_app. lia. }
  apply lookup_lt_Some in Ek as Hlt. unfold config_step. destruct (Z.leb_spec (zlen toks) t); [lia|].
  apply wp_bind. eapply wp_tok; [lia|exact Ek|]. cbn [jt_type]. rewrite bool_decide_eq_false_2 by done.
  apply wp_bind, wp_check; [done|]. apply wp_bind.
  apply (wp_key_match toks data JSMN_STRING ok 1 (lit (entry_key (it_e i))) Hkc Hkl); [exact Hbk|].
  rewrite handler_found. apply wp_bind.
  unfold item_json in Hbv, Htk. cbn [print] in Hbv. apply bytes_at_app in Hbv as [_ Hbv]. apply bytes_at_app in Hbv as [Hbv _].
  cbn [JsmnSpec.toks] in Htk. replace (Z.to_nat t + 1)%nat with (Z.to_nat (t + 1)) in Htk by lia.
  rewrite <- Z.add_assoc in Hbv. rewrite <- (Z.add_assoc data) in Hbr. replace (data + (o2 + zlen (print (item_json i)) + 1)) with
    (data + (o2 + zlen (print (item_json i))) + 1) in Hbr by lia.
  eapply wp_mono; [eapply (wp_handler (it_e i) (t + 1) (o2 + zlen (it_w1 i))); try done; lia|].
  intros n c' (-> & m2 & ex2 & cl2 & -> & Hw & Hex2 & Hcl2). cbn [cf_mem cf_brk cf_execs cf_calls cf_nextvnd cf_configured] in *.
  assert (Hnt : t + 1 + Z.of_nat (ntoks (entry_value (it_e i))) <= zlen toks).
  { apply (f_equal length) in Htk. rewrite length_drop, length_app, length_toks in Htk. lia. }
  apply wp_ret. split; [lia|]. exists (o2 + zlen (print (item_json i))).
  exists m2, (ex ++ ex2), (cl ++ cl2), (eex ++ entry_execs (it_e i)), (ecl ++ entry_calls (it_e i)).
  split_and!; try done; try lia.
  - apply (f_equal (drop (ntoks (entry_value (it_e i))))) in Htk. rewrite drop_drop, drop_app_length' in Htk by (symmetry; apply length_toks).
    fold (item_json i) in Htk. rewrite <- Htk. f_equal. lia.
  - eapply within_bytes; [exact Hw|exact Hbr|]. left. lia.
  - by rewrite <- !app_assoc.
  - apply Forall2_app; eapply Forall2_impl; try done; intros.
    + eapply (exec_is_mono _ (data + off + 1)); [lia|]. eapply exec_is_within; [exact Hw|lia|done].
    + eapply exec_is_mono; [|done]. lia.
  - apply Forall2_app; eapply Forall2_impl; try done; intros.
    + eapply (call_is_mono _ (data + off + 1)); [lia|]. eapply call_is_within; [exact Hw|lia|done].
    + eapply call_is_mono; [|done]. lia.
  - rewrite <- Eex, <- app_assoc. done.
  - rewrite <- Ecl, <- app_assoc. done.
Qed.

Definition config_done (c' : cfg) : Prop := exists ex cl, cf_execs c' = cf_execs c0 ++ ex /\ cf_calls c' = cf_calls c0 ++ cl /\
  Forall2 (exec_is (cf_mem c') (data + zlen (print_pairs (items_json items)) + 1)) ex (items_execs items) /\
  Forall2 (call_is (cf_mem c') (data + zlen (print_pairs (items_json items)) + 1)) cl (items_calls items).

Lemma wp_entries : wp (loopM (config_step env RAW_PART toks data (zlen toks)) 0) (fun _ c' => config_done c') c0.
Proof using All.
  apply (wp_loop _ (fun t c => t = 0 /\ c = c0 \/ exists rest off, left_inv rest off t c) (fun t _ => zlen toks + 1 - t)).
  - intros t c [[-> ->]|(rest & off & H)].
    + split; [lia|]. assert (Hone : 1 <= zlen toks) by (rewrite Htoks; cbn [length]; lia). unfold config_step. rewrite Htoks. cbn [length]. destruct (Z.leb_spec (Z.of_nat (S (length (toks_pairs (items_json items) 0)))) 0); [lia|].
      apply wp_bind. eapply wp_tok; [lia|done|]. cbn [jt_type]. rewrite bool_decide_eq_true_2 by done. apply wp_ret.
      split; [|lia]. right. exists items, 0, (cf_mem c0), [], [], [], []. rewrite !app_nil_r.
      rewrite Z.add_0_r. split_and!; try done; try lia; [by rewrite Htoks|by destruct c0].
    + destruct rest as [|i rest].
      * destruct H as (m' & ex & cl & eex & ecl & Ht & Htk & Hoff & Hfin & Hb & Hv & Hc & -> & Hex & Hcl & Eex & Ecl).
        cbn [items_json toks_pairs print_pairs length] in *.
        assert (Hle : zlen toks <= t) by (apply (f_equal length) in Htk; rewrite length_drop in Htk; cbn in Htk; lia).
        split; [lia|]. unfold config_step. destruct (Z.leb_spec (zlen toks) t); [|lia]. apply wp_ret.
        exists ex, cl. cbn [cf_execs cf_calls cf_mem]. rewrite <- Eex, <- Ecl. cbn [items_execs items_calls map concat].
        rewrite !app_nil_r. rewrite Z.add_0_r in Hfin. rewrite <- Hfin. done.
      * pose proof H as (_ & _ & _ & _ & _ & Ht & _). split; [lia|]. eapply wp_mono; [by eapply step_entry|].
        intros [t'|] c'; [|done]. intros (Hlt & off' & H'). pose proof H' as (_ & _ & _ & _ & _ & Ht' & _).
        split; [|lia]. right. by exists rest, off'.
  - by left.
  - lia.
Qed.
End Step.

(** ** The whole configuration *)
Lemma wp_find_brace pre text p c : Forall (fun x => x <> 0 /\ x <> 123) pre ->
  bytes_at (cf_mem c) p (pre ++ 123 :: text) -> zlen pre < 2 ^ 63 ->
  wp (find_brace p) (fun r c' => r = Some (p + zlen pre) /\ c' = c) c.
Proof.
  intros Hpre Hb Hl. unfold find_brace.
  apply (wp_loop _ (fun q c' => c' = c /\ exists a b, pre = a ++ b /\ q = p + zlen a) (fun q _ => zlen pre - (q - p))).
  - intros q c' (-> & a & b & -> & ->). rewrite length_app. split; [lia|]. rewrite <- app_assoc in Hb.
    apply bytes_at_app in Hb as [_ Hb]. apply Forall_app in Hpre as [_ Hpre]. apply wp_bind. destruct b as [|x b]; cbn [app] in Hb;
      apply bytes_at_cons in Hb as [Hx _]; (eapply wp_inrd; [exact Hx|]).
    + apply wp_ret. split; [f_equal; cbn; lia|done].
    + apply Forall_cons in Hpre as [[? ?] _]. destruct (Z.eqb_spec x 123); [done|]. destruct (Z.eqb_spec x 0); [done|].
      apply wp_ret. split; [|cbn [length]; lia]. split; [done|]. exists (a ++ [x]), b. rewrite <- app_assoc, length_app. cbn. split; [done|lia].
  - split; [done|]. exists [], pre. cbn. split; [done|lia].
  - lia.
Qed.
Lemma wp_tokenize text num arr n q (Q : Z * option (list jsmntok) -> cfg -> Prop) c :
  jsmn_parse text (zlen text) num (jsmn_init (Jsmn 0 0 0 arr)) = Done (n, q) -> Q (n, js_tokens q) c -> wp (tokenize text num arr) Q c.
Proof. intros E HQ. unfold wp, tokenize. by rewrite E. Qed.

Section Main.
Context (env : list call -> call -> Z) (RAW_PART : Z) (junk : Z -> list jsmntok) (file : list Z).
Hypothesis Henv : forall h k, env h k = 0.
Hypothesis Hjunk : forall n, 0 <= n -> zlen (junk n) = n.

Lemma wp_config_tokens v p (Q : Z * list jsmntok -> cfg -> Prop) c : cstr (cf_mem c) p (print v) -> json_ok v = true ->
  zlen (print v) < 2 ^ 31 -> Z.of_nat (ntoks v) < 2 ^ 31 -> Q (Z.of_nat (ntoks v), JsmnSpec.toks v 0) c -> wp (config_tokens junk p) Q c.
Proof using Hjunk.
  intros Hs Hok Hl Hn HQ. unfold config_tokens. apply wp_bind, (wp_str_at p (print v)); [done|lia|].
  pose proof (Hjunk (Z.of_nat (ntoks v)) ltac:(lia)) as Ej. pose proof (ntoks_pos v) as Hpos.
  destruct (json_two_passes v (junk (Z.of_nat (ntoks v))) 0 0 0) as [[s1 E1] (s2 & E2 & Htk)]; [done..|lia|lia|].
  apply wp_bind. eapply wp_tokenize; [exact E1|]. apply wp_bind, wp_check; [lia|].
  apply wp_bind. rewrite Ej in E2. eapply wp_tokenize; [exact E2|]. apply wp_bind, wp_check; [lia|].
  apply wp_bind. eapply wp_opt; [exact Htk|]. apply wp_ret. rewrite drop_ge by lia. by rewrite app_nil_r.
Qed.

Context (c : cfg) (p : Z) (pre : list Z) (items : list item) (w : list Z).
Let v := config_json items w.
Hypothesis Hmem : cstr (cf_mem c) p (pre ++ print v).
Hypothesis Hpre : Forall (fun x => x <> 123) pre.
Hypothesis Hroot : find_sub (lit ROOTCFG) (pre ++ print v) = None.
Hypothesis Hok : json_ok v = true.
Hypothesis Hlen : zlen (pre ++ print v) < 2 ^ 31 - 1.
Hypothesis Hvalid : Forall (fun i => entry_valid (it_e i) = true) items.
Hypothesis Hconf : cf_configured c = false.

Lemma wp_rumprun_config : items_execs items <> [] ->
  wp (rumprun_config env RAW_PART junk file p) (fun _ c' => exists ex cl, cf_execs c' = cf_execs c ++ ex /\ cf_calls c' = cf_calls c ++ cl /\
    exists hi, Forall2 (exec_is (cf_mem c') hi) ex (items_execs items) /\ Forall2 (call_is (cf_mem c') hi) cl (items_calls items)) c.
Proof using All.
  intros Hne. unfold rumprun_config, rumprun_config_path. apply wp_bind, wp_bind, (wp_str_at p (pre ++ print v)); [done|lia|].
  rewrite Hroot. apply wp_ret. cbn [fmap option_fmap option_map]. apply wp_bind, wp_ret. apply wp_bind.
  destruct Hmem as [Hb Hch]. apply Forall_app in Hch as [Hch1 Hch2].
  set (body := tail (print_pairs (items_json items)) ++ [125]).
  assert (Ev : print v = 123 :: body ++ w) by reflexivity.
  assert (Hv : cstr (cf_mem c) (p + zlen pre) (print v)).
  { split; [|done]. rewrite <- app_assoc in Hb. by apply bytes_at_app in Hb as [_ Hb']. }
  eapply wp_mono; [apply (wp_find_brace pre (body ++ w ++ [0]) p c)|].
  { rewrite Forall_forall in *. intros x Hx. specialize (Hch1 x Hx). specialize (Hpre x Hx). lia. }
  { rewrite Ev in Hb. rewrite <- app_assoc in Hb. cbn [app] in Hb. by rewrite <- app_assoc in Hb. }
  { rewrite length_app in Hlen. lia. }
  intros r c' [-> ->]. set (data := p + zlen pre) in *.
  assert (Hnt : (ntoks v <= length (print v))%nat) by (by apply ntoks_le_all).
  rewrite length_app in Hlen. apply wp_bind, (wp_config_tokens v data); [done|done|lia|lia|].
  assert (Etk : JsmnSpec.toks v 0 = Tok JSMN_OBJECT 0 (zlen (print (JObj (items_json items)))) (zlen items) :: toks_pairs (items_json items) 0).
  { unfold v, config_json. cbn [JsmnSpec.toks length]. rewrite !Z.add_0_l. f_equal. f_equal. clear. induction items as [|i l IH]; [done|].
    cbn [items_json pairs_len length]. rewrite IH. lia. }
  rewrite <- (length_toks v 0), Etk. set (tk := Tok JSMN_OBJECT 0 _ _).
  apply wp_bind. eapply wp_tok; [lia|done|]. apply wp_bind, wp_check; [done|]. apply wp_bind.
  assert (Hcc : chars (print_pairs (items_json items))).
  { apply chars_tail. rewrite Ev in Hch2. unfold body in Hch2. apply chars_cons in Hch2 as [_ Hch2]. rewrite !chars_app in Hch2. tauto. }
  assert (Hlp : zlen (print_pairs (items_json items)) < 2 ^ 31 - 1).
  { pose proof (length_obj (items_json items)). assert (zlen (print v) = zlen (print (JObj (items_json items))) + zlen w) by (rewrite Ev; unfold body; cbn [print length]; rewrite !length_app; cbn [length]; lia). lia. }
  eapply wp_mono; [apply (wp_entries env Henv RAW_PART (tk :: toks_pairs (items_json items) 0) data items c (zlen (print (JObj (items_json items))))); try done|].
  { by apply items_chars. }
  { destruct Hv as [Hv _]. rewrite Ev in Hv. unfold body in Hv. cbn [app] in Hv. apply bytes_at_cons in Hv as [_ Hv].
    rewrite <- !app_assoc in Hv. by apply bytes_at_app in Hv as [Hv _]. }
  { apply (f_equal length) in Etk. rewrite length_toks in Etk. cbn [length] in *. lia. }
  intros [] c' (ex & cl & Eex & Ecl & Hex & Hcl). unfold sanity. apply wp_bind, wp_get. rewrite Eex.
  assert (Hlast : exists r args, last (cf_execs c ++ ex) = Some r /\ exec_is (cf_mem c') (data + zlen (print_pairs (items_json items)) + 1) r args).
  { destruct ex as [|r0 ex] using rev_ind; [apply Forall2_nil_inv_l in Hex; by rewrite Hex in Hne|].
    apply Forall2_app_inv_l in Hex as (l1 & l2 & _ & Hr & _). apply Forall2_cons_inv_l in Hr as (args & l3 & Hr & _ & _).
    exists r0, args. rewrite app_assoc, last_snoc. done. }
  destruct Hlast as (r & args & -> & (ptrs & -> & _)). apply wp_check; [done|]. exists ex, cl. split_and!; [done..|]. eauto.
Qed.
End Main.

(** A program to run with the given arguments; a call with the given texts. *)
Definition runs (m : gmap Z Z) (r : rumprun_exec) (args : list (list Z)) : Prop :=
  exists ptrs, r = Rre RUMPRUN_EXEC_CMDLINE (zlen args) (ptrs ++ [0]) /\ Forall2 (cstr m) ptrs args.
Definition makes (m : gmap Z Z) (c : call) (e : ecall) : Prop :=
  match e with ECall c' => c = c' | EPutenv s => exists p, c = CPutenv p /\ cstr m p s end.
Lemma exec_is_runs m hi r args : exec_is m hi r args -> runs m r args.
Proof. intros (ptrs & -> & Hf). exists ptrs. split; [done|]. eapply Forall2_impl; [exact Hf|]. by intros ?? [_ ?]. Qed.
Lemma call_is_makes m hi c e : call_is m hi c e -> makes m c e.
Proof. destruct e; [done|]. intros (p & -> & _ & H). by exists p. Qed.

(** C12. The configuration reader, from the bytes of the command line to what it
    leaves behind: for every configuration written as a JSON object (with any
    white space, escapes and order of keys, behind any text without a brace)
    whose network entries are complete, and when the calls into the system
    succeed, [rumprun_config] returns; the programs to run are exactly those of
    the cmdline entries, in order, each with the arguments its text splits into,
    and the calls made are exactly those the env, hostname and net entries ask
    for, in order.  All strings are still in place when it returns, although
    the reader writes terminators and unquoted arguments over the text. *)
Theorem config_correct (env : list call -> call -> Z) (RAW_PART : Z) (junk : Z -> list jsmntok) (file : list Z)
    (c : cfg) (p : Z) (pre : list Z) (items : list item) (w : list Z) :
  (forall h k, env h k = 0) -> (forall n, 0 <= n -> zlen (junk n) = n) ->
  cstr (cf_mem c) p (pre ++ print (config_json items w)) ->
  Forall (fun x => x <> 123) pre -> find_sub (lit ROOTCFG) (pre ++ print (config_json items w)) = None ->
  json_ok (config_json items w) = true -> zlen (pre ++ print (config_json items w)) < 2 ^ 31 - 1 ->
  Forall (fun i => entry_valid (it_e i) = true) items -> cf_configured c = false -> items_execs items <> [] ->
  exists c' ex cl, rumprun_config env RAW_PART junk file p c = Done (tt, c') /\
    cf_execs c' = cf_execs c ++ ex /\ Forall2 (runs (cf_mem c')) ex (items_execs items) /\
    cf_calls c' = cf_calls c ++ cl /\ Forall2 (makes (cf_mem c')) cl (items_calls items).
Proof.
  intros Henv Hjunk Hmem Hpre Hroot Hok Hlen Hv Hconf Hne.
  destruct (wp_run _ _ _ (wp_rumprun_config env RAW_PART junk file Henv Hjunk c p pre items w Hmem Hpre Hroot Hok Hlen Hv Hconf Hne))
    as ([] & c' & E & ex & cl & Eex & Ecl & hi & Hex & Hcl).
  exists c', ex, cl. split_and!; try done; (eapply Forall2_impl; [done|]); intros; [by eapply exec_is_runs|by eapply call_is_makes].
Qed.

(** A command line of two words with a quoted blank, a variable, and a static address. *)
Definition sample_config : list item :=
  [ Item [32] (ECmdline (plain "ls 'a b'")) [] [32] [];
    Item [] (EEnv (plain "X=1")) [] [] [10];
    Item [] (ENet [SField [] NIf [] [] (plain "ix0") []; SField [32] NType [] [] (plain "inet") [];
                   SField [] NMethod [] [] (plain "static") []; SField [] NAddr [] [32] (plain "10.0.0.2") [];
                   SField [] NMask [] [] (plain "24") [32]]) [] [] [] ].
Definition sample_cfg : cfg := Cfg (list_to_mem 4096 (lit "app " ++ print (config_json sample_config []) ++ [0])) 65536 [] [] 0 false.
Lemma config_correct_witness :
  exists c' ex cl, rumprun_config (fun _ _ => 0) 3 (fun n => replicate (Z.to_nat n) (Tok JSMN_PRIMITIVE 0 0 0)) [] 4096 sample_cfg = Done (tt, c') /\
    cf_execs c' = ex /\ Forall2 (runs (cf_mem c')) ex [[lit "ls"; lit "a b"]] /\
    cf_calls c' = cl /\ Forall2 (makes (cf_mem c')) cl [EPutenv (lit "X=1"); ECall (CIfaddr4 (lit "ix0") (lit "10.0.0.2") 24)].
Proof.
  apply (config_correct (fun _ _ => 0) 3 (fun n => replicate (Z.to_nat n) (Tok JSMN_PRIMITIVE 0 0 0)) [] sample_cfg 4096 (lit "app ") sample_config []).
  - reflexivity.
  - intros n Hn. rewrite length_replicate. lia.
  - split; [rewrite <- app_assoc; apply list_to_mem_bytes|]. cbn. repeat constructor; lia.
  - cbn. repeat constructor; lia.
  - vm_compute. reflexivity.
  - vm_compute. reflexivity.
  - vm_compute. reflexivity.
  - repeat constructor; vm_compute; reflexivity.
  - reflexivity.
  - discriminate.
Defined.

(** ** Where the reader goes wrong *)
Definition text_cfg (l : list Z) : cfg := Cfg (list_to_mem 4096 (l ++ [0])) 65536 [] [] 0 false.
Definition blank_toks (n : Z) : list jsmntok := replicate (Z.to_nat n) (Tok JSMN_PRIMITIVE 0 0 0).
(** A program without arguments: the optional argv is read through a null
    pointer. *)
Theorem config_bin_without_argv :
  rumprun_config (fun _ _ => 0) 3 blank_toks [] 4096
    (text_cfg (print (JObj (PCons [] (plain "rc_TESTING") []
      (JArr (JCons (JObj (PCons [] (plain "bin") [] (JStr (plain "ls")) PNil)) JNil)) PNil)))) = Halted "t_argv is NULL".
Proof. vm_compute. reflexivity. Qed.
(** A net object with a key that has no value: the handler returns -1, and the
    loop is back at the key it came from, with nothing changed. *)
Theorem config_short_net_hangs :
  let toks := [Tok JSMN_OBJECT 0 14 1; Tok JSMN_STRING 2 5 1; Tok JSMN_OBJECT 7 13 1; Tok JSMN_STRING 9 11 0] in
  let c := text_cfg (123 :: 34 :: lit "net" ++ [34; 58; 123; 34] ++ lit "if" ++ [34; 125; 125]) in
  config_tokens blank_toks 4096 c = Done (4, toks, c) /\ config_step (fun _ _ => 0) 3 toks 4096 4 1 c = Done (inl 1, c).
Proof. split; vm_compute; reflexivity. Qed.
(** A key is matched by any of its prefixes: here the c of cmdline. *)
Theorem config_prefix_key :
  exists c, rumprun_config (fun _ _ => 0) 3 blank_toks [] 4096
    (text_cfg (print (JObj (PCons [] (plain "c") [] (JStr (plain "ls")) PNil)))) = Done (tt, c) /\
  cf_execs c = [Rre RUMPRUN_EXEC_CMDLINE 1 [4102; 0]].
Proof. eexists. split; [vm_compute; reflexivity|reflexivity]. Qed.
