(* ===== verification/Mman.v ===== *)
(** * Memory mapping calls (lib/librumpkern_mman/sys_mman.c)

    [mmap] is emulated with allocated memory and one bookkeeping chunk per
    mapping that counts the pages not yet unmapped.  The allocator of the rump
    kernel and its files are parameters; the blocks it has given out are part
    of the state, so that freeing anything else is a fault. *)

From S2P Require Import Prelude.

Definition PAGE_SIZE : Z := 4096.
(** [roundup2(x, PAGE_SIZE)] on a [size_t]. *)
Definition roundup_page (x : Z) : Z := Z.land (u64 (x + (PAGE_SIZE - 1))) (2 ^ 64 - PAGE_SIZE).

Inductive errno := EOPNOTSUPP | ENOMEM | EINVAL | EBADF | ENODEV | EIO (n : Z).
Record mmapchunk := Chunk { mm_start : Z; mm_size : Z; mm_pgsleft : Z }.
Record mman := Mman {
  mmc_list : list mmapchunk;
  mm_blocks : list (Z * Z);          (* given out by the allocator: start and size *)
  mm_bytes : Z -> Z                  (* the contents of memory *)
}.
Definition set_list v s := Mman v (mm_blocks s) (mm_bytes s).
Definition set_blocks v s := Mman (mmc_list s) v (mm_bytes s).
Definition set_bytes v s := Mman (mmc_list s) (mm_blocks s) v.

Record mmap_args := MmapArgs { a_len : Z; a_prot : Z; a_flags : Z; a_fd : Z; a_pos : Z }.
Record file := File { f_read : bool; f_vnode : bool }.

Section Mman.
Context (PROT_READ MAP_FIXED MAP_ANON : Z).
Context (rump_hypermalloc : list (Z * Z) -> Z -> option Z).
Context (fd_getfile : Z -> option file).
(** [dofileread] at a position: the bytes read, at most as many as asked for. *)
Context (dofileread : Z -> Z -> Z -> errno + list Z).

Definition kmem_free (start size : Z) : M mman unit :=
  s <-- mget ;;
  match list_find (fun b => b = (start, size)) (mm_blocks s) with
  | None => mhalt "freed a block that is not allocated"
  | Some (i, _) => modify (set_blocks (delete i (mm_blocks s)))
  end.
Definition write_bytes (a : Z) (f : Z -> Z) (n : Z) (m : Z -> Z) : Z -> Z :=
  fun x => if (a <=? x) && (x <? a + n) then f (x - a) else m x.

Definition mmapmem_alloc (roundedlen : Z) : M mman Z :=
  s <-- mget ;;
  let o := rump_hypermalloc (mm_blocks s) roundedlen in
  let v := default 0 o in
  mput (Mman (Chunk v roundedlen (roundedlen / PAGE_SIZE) :: mmc_list s)
             (match o with Some v => (v, roundedlen) :: mm_blocks s | None => mm_blocks s end) (mm_bytes s)) ;;;
  cret v.

Definition contains (addr roundedlen : Z) (mc : mmapchunk) : bool :=
  (mm_start mc <=? addr) && (u64 (addr + roundedlen) <=? u64 (mm_start mc + mm_size mc)).
Definition mmapmem_free (addr roundedlen : Z) : M mman (option errno) :=
  s <-- mget ;;
  match list_find (fun mc => contains addr roundedlen mc = true) (mmc_list s) with
  | None => cret (Some EINVAL)
  | Some (i, mc) =>
      let npgs := roundedlen / PAGE_SIZE in
      massert (npgs <=? mm_pgsleft mc) "KASSERT(npgs <= mc->mm_pgsleft)" ;;;
      let left := mm_pgsleft mc - npgs in
      if negb (left =? 0) then
        modify (set_list (<[i := Chunk (mm_start mc) (mm_size mc) left]> (mmc_list s))) ;;; cret None
      else
        modify (set_list (delete i (mmc_list s))) ;;;
        kmem_free (mm_start mc) (mm_size mc) ;;; cret None
  end.

Definition sys_mmap (uap : mmap_args) : M mman (option errno * option Z) :=
  if negb (a_fd uap =? -1) && negb (a_prot uap =? PROT_READ) then cret (Some EOPNOTSUPP, None)
  else if negb (Z.land (a_flags uap) MAP_FIXED =? 0) then cret (Some ENOMEM, None)
  else if negb (Z.land (a_pos uap) (PAGE_SIZE - 1) =? 0) then cret (Some EINVAL, None) else
  let roundedlen := roundup_page (a_len uap) in
  v <-- mmapmem_alloc roundedlen ;;
  if v =? 0 then cret (Some ENOMEM, None) else
  if negb (Z.land (a_flags uap) MAP_ANON =? 0) then
    modify (fun s => set_bytes (write_bytes v (fun _ => 0) roundedlen (mm_bytes s)) s) ;;; cret (None, Some v)
  else
  match fd_getfile (a_fd uap) with
  | None => cret (Some EBADF, Some v)
  | Some fp =>
      if negb (f_read fp) then cret (Some EBADF, Some v)
      else if negb (f_vnode fp) then cret (Some ENODEV, Some v) else
      match dofileread (a_fd uap) (a_pos uap) roundedlen with
      | inl error => mmapmem_free v roundedlen ;;; cret (Some error, Some v)
      | inr data =>
          let cnt := Z.of_nat (length data) in
          modify (fun s => set_bytes (write_bytes v (fun i => default 0 (data !! Z.to_nat i)) cnt (mm_bytes s)) s) ;;;
          (if negb (cnt =? roundedlen) then
             massert (cnt <? roundedlen) "KASSERT(cnt < roundedlen)" ;;;
             modify (fun s => set_bytes (write_bytes (v + cnt) (fun _ => 0) (roundedlen - cnt) (mm_bytes s)) s)
           else cret tt) ;;;
          cret (None, Some v)
      end
  end.

Definition sys_munmap (addr len : Z) : M mman (option errno) :=
  if negb (Z.land addr (PAGE_SIZE - 1) =? 0) then cret (Some EINVAL)
  else mmapmem_free addr (roundup_page len).
End Mman.

Definition sys_msync13 (MS_SYNC MS_ASYNC addr flags : Z) : option errno :=
  if negb (Z.land addr (PAGE_SIZE - 1) =? 0) then Some EINVAL
  else if Z.land flags (Z.lor MS_SYNC MS_ASYNC) =? Z.lor MS_SYNC MS_ASYNC then Some EINVAL
  else None.
Definition sys_mincore (len vec : Z) : M mman (option errno) :=
  modify (fun s => set_bytes (write_bytes vec (fun _ => 1) (u64 (len + PAGE_SIZE - 1) / PAGE_SIZE) (mm_bytes s)) s) ;;; cret None.
(** [madvise] and the other calls that do nothing. *)
Definition sys_madvise : option errno := None.

(** * Mappings: what stays allocated, what is freed, what they contain *)


Definition pages (a n : Z) : gset Z := list_to_set (seqZ (a / PAGE_SIZE) (n / PAGE_SIZE)).
Lemma elem_pages x a n : x ∈ pages a n <-> a / PAGE_SIZE <= x < a / PAGE_SIZE + n / PAGE_SIZE.
Proof. unfold pages. rewrite elem_of_list_to_set, elem_of_seqZ. done. Qed.
Lemma size_pages a n : 0 <= n -> Z.of_nat (size (pages a n)) = n / PAGE_SIZE.
Proof.
  intros Hn. unfold pages. rewrite size_list_to_set by apply NoDup_seqZ. rewrite length_seqZ.
  rewrite Z2Nat.id; [done|]. apply Z.div_pos; [done|]. unfold PAGE_SIZE. lia.
Qed.
Lemma roundup_page_spec x : 0 < x <= 2 ^ 64 - PAGE_SIZE ->
  x <= roundup_page x < x + PAGE_SIZE /\ roundup_page x mod PAGE_SIZE = 0 /\ roundup_page x <= 2 ^ 64 - PAGE_SIZE.
Proof.
  intros Hx. unfold roundup_page, u64. unfold PAGE_SIZE in *. rewrite Z.mod_small by lia.
  set (y := x + (4096 - 1)).
  assert (Z.land y (2 ^ 64 - 4096) = y - y mod 4096) as ->.
  { assert (Hy : 0 <= y < 2 ^ 64) by (unfold y; lia).
    replace (2 ^ 64 - 4096) with (Z.ldiff (2 ^ 64 - 1) (2 ^ 12 - 1)) by reflexivity.
    apply Z.bits_inj'. intros n Hn. rewrite Z.land_spec, Z.ldiff_spec.
    replace (y - y mod 4096) with (y / 2 ^ 12 * 2 ^ 12) by (change (2 ^ 12) with 4096; pose proof (Z.div_mod y 4096); lia).
    rewrite !testbit_mask_below by lia. assert ((0 <=? n) = true) as -> by lia. cbn [andb]. destruct (Z.ltb_spec n 12).
    - rewrite Z.mul_pow2_bits_low by lia. cbn [negb]. by rewrite !andb_false_r.
    - rewrite Z.mul_pow2_bits by lia. rewrite Z.div_pow2_bits by lia. replace (n - 12 + 12) with n by lia.
      destruct (Z.ltb_spec n 64).
      + cbn. by rewrite andb_true_r.
      + rewrite (high_bits_zero 64 ltac:(lia) y n) by lia. done. }
  pose proof (Z.mod_pos_bound y 4096). assert ((y - y mod 4096) mod 4096 = 0) by (rewrite Zminus_mod_idemp_r, Z.sub_diag; done).
  unfold y in *. split_and!; try done; try lia.
  pose proof (Z.div_mod (x + (4096 - 1)) 4096). lia.
Qed.
Lemma in_pages a n b k : a mod PAGE_SIZE = 0 -> n mod PAGE_SIZE = 0 -> b mod PAGE_SIZE = 0 -> k mod PAGE_SIZE = 0 ->
  b <= a -> a + n <= b + k -> pages a n ⊆ pages b k.
Proof.
  unfold PAGE_SIZE. intros ???? H1 H2 x. rewrite !elem_pages. unfold PAGE_SIZE.
  pose proof (Z.div_mod a 4096). pose proof (Z.div_mod b 4096). pose proof (Z.div_mod n 4096). pose proof (Z.div_mod k 4096). lia.
Qed.
Lemma disjoint_pages a n b k : a mod PAGE_SIZE = 0 -> n mod PAGE_SIZE = 0 -> b mod PAGE_SIZE = 0 -> k mod PAGE_SIZE = 0 ->
  a + n <= b \/ b + k <= a -> pages a n ## pages b k.
Proof.
  unfold PAGE_SIZE. intros ???? H1 x. rewrite !elem_pages. unfold PAGE_SIZE.
  pose proof (Z.div_mod a 4096). pose proof (Z.div_mod b 4096). pose proof (Z.div_mod n 4096). pose proof (Z.div_mod k 4096). lia.
Qed.

Definition block_of (c : mmapchunk) : Z * Z := (mm_start c, mm_size c).
Definition chunk_pages (c : mmapchunk) : gset Z := pages (mm_start c) (mm_size c).
Definition chunk_ok (P : gset Z) (c : mmapchunk) : Prop :=
  mm_start c mod PAGE_SIZE = 0 /\ mm_size c mod PAGE_SIZE = 0 /\ 0 < mm_start c /\ 0 < mm_size c /\ mm_start c + mm_size c < 2 ^ 64 /\
  0 < mm_pgsleft c /\ mm_pgsleft c = Z.of_nat (size (P ∩ chunk_pages c)).
Definition apart (c d : mmapchunk) : Prop := mm_start c + mm_size c <= mm_start d \/ mm_start d + mm_size d <= mm_start c.
Record mman_inv (s : mman) (P : gset Z) : Prop := {
  mi_ok : Forall (chunk_ok P) (mmc_list s);
  mi_apart : forall i j c d, mmc_list s !! i = Some c -> mmc_list s !! j = Some d -> i <> j -> apart c d;
  mi_mapped : forall x, x ∈ P -> exists c, c ∈ mmc_list s /\ x ∈ chunk_pages c;
  mi_blocks : mm_blocks s = map block_of (mmc_list s) }.

Lemma apart_pages P c d : chunk_ok P c -> chunk_ok P d -> apart c d -> chunk_pages c ## chunk_pages d.
Proof. intros (? & ? & _) (? & ? & _) Hap. unfold chunk_pages. by apply disjoint_pages. Qed.

(** ** Steps that keep the invariant *)
Lemma inv_add s P v n b : mman_inv s P -> v mod PAGE_SIZE = 0 -> n mod PAGE_SIZE = 0 -> 0 < v -> 0 < n -> v + n < 2 ^ 64 ->
  Forall (fun '(a, k) => v + n <= a \/ a + k <= v) (mm_blocks s) ->
  mman_inv (Mman (Chunk v n (n / PAGE_SIZE) :: mmc_list s) ((v, n) :: mm_blocks s) b) (P ∪ pages v n).
Proof.
  intros [Hok Hap Hm Hb] Hv Hn Hv0 Hn0 Hlt Hfresh. rewrite Hb in Hfresh. rewrite Forall_map in Hfresh.
  assert (Hdis : forall c, c ∈ mmc_list s -> apart (Chunk v n (n / PAGE_SIZE)) c).
  { intros c Hc. rewrite Forall_forall in Hfresh. by apply (Hfresh c). }
  assert (Hn1 : 0 < n / PAGE_SIZE) by (pose proof (Z.div_mod n PAGE_SIZE); unfold PAGE_SIZE in *; lia).
  assert (Hnew : chunk_ok (P ∪ pages v n) (Chunk v n (n / PAGE_SIZE))).
  { unfold chunk_ok, chunk_pages. cbn. split_and!; try done.
    replace ((P ∪ pages v n) ∩ pages v n) with (pages v n) by set_solver. rewrite size_pages; lia. }
  rewrite Forall_forall in Hok. split; cbn [mmc_list mm_blocks].
  - apply Forall_cons; split; [done|]. rewrite Forall_forall. intros c Hc. destruct (Hok c Hc) as (H1 & H2 & H3 & H4 & H5 & H6 & H7).
    split_and!; try done. rewrite H7.
    assert (Hd : pages v n ## chunk_pages c) by (unfold chunk_pages; apply disjoint_pages; try done; by apply Hdis).
    do 2 f_equal. set_solver.
  - intros [|i] [|j] c d Hi Hj Hne; cbn in *; simplify_eq.
    + apply Hdis. by eapply list_elem_of_lookup_2.
    + destruct (Hdis c) as [?|?]; [by eapply list_elem_of_lookup_2|by right|by left].
    + eapply Hap; [done..|lia].
  - intros x [Hx|Hx]%elem_of_union.
    + destruct (Hm x Hx) as (c & Hc & Hxc). exists c. split; [by right|done].
    + eexists. split; [by left|done].
  - by rewrite Hb.
Qed.

(** The chunk that contains mapped pages is the only one. *)
Lemma find_chunk s P a n : mman_inv s P -> a mod PAGE_SIZE = 0 -> n mod PAGE_SIZE = 0 -> 0 < n ->
  Exists (fun '(b, k) => b <= a /\ a + n <= b + k) (mm_blocks s) ->
  exists i c, list_find (fun mc => contains a n mc = true) (mmc_list s) = Some (i, c) /\ mmc_list s !! i = Some c /\
    mm_start c <= a /\ a + n <= mm_start c + mm_size c.
Proof.
  intros [Hok Hap Hm Hb] Ha Hn Hn0 Hex. rewrite Hb in Hex. rewrite Exists_exists in Hex. destruct Hex as ([b k] & Hin & Hin1 & Hin2).
  apply list_elem_of_fmap in Hin as (c & [= -> ->] & Hc). rewrite Forall_forall in Hok.
  destruct (list_find_elem_of (fun mc => contains a n mc = true) (mmc_list s) c Hc) as [[i d] Hd].
  { destruct (Hok c Hc) as (_ & _ & ? & ? & ? & _). unfold contains, u64. rewrite !Z.mod_small by lia. lia. }
  apply list_find_Some in Hd as Hd'. destruct Hd' as (Hi & Hcon & _).
  destruct (Hok c Hc) as (_ & _ & ? & ? & ? & _). destruct (Hok d ltac:(by eapply list_elem_of_lookup_2)) as (_ & _ & ? & ? & ? & _).
  exists i, d. unfold contains, u64 in Hcon. rewrite !Z.mod_small in Hcon by lia. split_and!; try done; lia.
Qed.

Lemma size_unmap (P R C : gset Z) : R ⊆ P -> R ⊆ C -> Z.of_nat (size ((P ∖ R) ∩ C)) = Z.of_nat (size (P ∩ C)) - Z.of_nat (size R).
Proof.
  intros HP HC. replace ((P ∖ R) ∩ C) with ((P ∩ C) ∖ R) by set_solver.
  assert (R ⊆ P ∩ C) as Hs by set_solver. rewrite size_difference by done. apply subseteq_size in Hs. lia.
Qed.
Lemma disjoint_unmap (P R C : gset Z) : R ## C -> (P ∖ R) ∩ C = P ∩ C.
Proof. set_solver. Qed.

Section Unmap.
Context (s : mman) (P : gset Z) (a n : Z) (i : nat) (c : mmapchunk).
Hypothesis Hinv : mman_inv s P.
Hypothesis Ha : a mod PAGE_SIZE = 0.
Hypothesis Hn : n mod PAGE_SIZE = 0.
Hypothesis Hn0 : 0 < n.
Hypothesis HR : pages a n ⊆ P.
Hypothesis Hi : mmc_list s !! i = Some c.
Hypothesis Hin : mm_start c <= a /\ a + n <= mm_start c + mm_size c.
Let R := pages a n.
Let left := mm_pgsleft c - n / PAGE_SIZE.

Lemma chunk_i : chunk_ok P c.
Proof using Hinv Hi. destruct Hinv as [Hok _ _ _]. rewrite Forall_forall in Hok. apply Hok. by eapply list_elem_of_lookup_2. Qed.
Lemma R_in_c : R ⊆ chunk_pages c.
Proof using All. destruct chunk_i as (? & ? & _). unfold R, chunk_pages. apply in_pages; try done; apply Hin. Qed.
Lemma left_eq : left = Z.of_nat (size ((P ∖ R) ∩ chunk_pages c)).
Proof using All.
  rewrite size_unmap by first [exact HR | exact R_in_c]. destruct chunk_i as (_ & _ & _ & _ & _ & _ & E). unfold left. rewrite E.
  unfold R. rewrite size_pages; lia.
Qed.
Lemma others_keep j d : j <> i -> mmc_list s !! j = Some d -> (P ∖ R) ∩ chunk_pages d = P ∩ chunk_pages d.
Proof using All.
  intros Hne Hj. apply disjoint_unmap. destruct Hinv as [Hok Hap _ _]. rewrite Forall_forall in Hok.
  pose proof (apart_pages P d c ltac:(apply Hok; by eapply list_elem_of_lookup_2) chunk_i (Hap _ _ _ _ Hj Hi Hne)).
  pose proof R_in_c. set_solver.
Qed.
Lemma others_ok j d : j <> i -> mmc_list s !! j = Some d -> chunk_ok (P ∖ R) d.
Proof using All.
  intros Hne Hj. pose proof (others_keep j d Hne Hj) as E. destruct Hinv as [Hok _ _ _]. rewrite Forall_forall in Hok.
  destruct (Hok d) as (? & ? & ? & ? & ? & ? & ?); [by eapply list_elem_of_lookup_2|]. unfold chunk_ok. rewrite E. done.
Qed.

Lemma inv_shrink : left <> 0 -> mman_inv (set_list (<[i := Chunk (mm_start c) (mm_size c) left]> (mmc_list s)) s) (P ∖ R).
Proof using All.
  intros Hl. pose proof Hinv as [Hok Hap Hm Hb]. apply lookup_lt_Some in Hi as Hlt. pose proof left_eq as El. split; cbn [set_list mmc_list mm_blocks].
  - rewrite Forall_lookup. intros j d Hj. destruct (decide (j = i)) as [->|Hne].
    + rewrite list_lookup_insert_eq in Hj by done. injection Hj as <-. destruct chunk_i as (? & ? & ? & ? & ? & _).
      unfold chunk_ok, chunk_pages in *. cbn. split_and!; try done. lia.
    + rewrite list_lookup_insert_ne in Hj by done. by eapply others_ok.
  - intros j k d e Hj Hk Hne.
    assert (Hsame : forall j d, <[i:=Chunk (mm_start c) (mm_size c) left]> (mmc_list s) !! j = Some d ->
      exists d', mmc_list s !! j = Some d' /\ block_of d = block_of d').
    { intros j' d' Hj'. destruct (decide (j' = i)) as [->|?].
      - rewrite list_lookup_insert_eq in Hj' by done. injection Hj' as <-. by exists c.
      - rewrite list_lookup_insert_ne in Hj' by done. by exists d'. }
    destruct (Hsame _ _ Hj) as (d' & Hj' & [= E1 E2]). destruct (Hsame _ _ Hk) as (e' & Hk' & [= E3 E4]).
    unfold apart. rewrite E1, E2, E3, E4. by eapply Hap.
  - intros x [Hx HxR]%elem_of_difference. destruct (Hm x Hx) as (d & [j Hj]%list_elem_of_lookup & Hxd).
    destruct (decide (j = i)) as [->|Hne].
    + eexists. split; [by apply (list_elem_of_lookup_2 _ i); rewrite list_lookup_insert_eq|]. assert (d = c) as -> by congruence. done.
    + exists d. split; [|done]. apply (list_elem_of_lookup_2 _ j). by rewrite list_lookup_insert_ne.
  - rewrite Hb. symmetry. change (map block_of) with (fmap (M:=list) block_of). rewrite list_fmap_insert. apply list_insert_id.
    by rewrite list_lookup_fmap, Hi.
Qed.

Lemma inv_remove : left = 0 ->
  list_find (fun b => b = block_of c) (mm_blocks s) = Some (i, block_of c) /\
  mman_inv (Mman (delete i (mmc_list s)) (delete i (mm_blocks s)) (mm_bytes s)) (P ∖ R).
Proof using All.
  intros Hl. pose proof Hinv as [Hok Hap Hm Hb]. apply lookup_lt_Some in Hi as Hlt. pose proof left_eq as El. rewrite Hl in El.
  assert (Hemp : (P ∖ R) ∩ chunk_pages c = ∅) by (apply leibniz_equiv, size_empty_inv; lia).
  assert (Hdel : forall j d, delete i (mmc_list s) !! j = Some d -> exists k, k <> i /\ mmc_list s !! k = Some d /\ k = (if (decide (j < i)%nat) then j else S j)).
  { intros j d Hj. destruct (decide (j < i)%nat).
    - rewrite list_lookup_delete_lt in Hj by done. exists j. split_and!; [lia|done|done].
    - rewrite list_lookup_delete_ge in Hj by lia. exists (S j). split_and!; [lia|done|done]. }
  split; [|split; cbn [mmc_list mm_blocks]].
  - apply list_find_Some. rewrite Hb. change (map block_of) with (fmap (M:=list) block_of). split_and!; [by rewrite list_lookup_fmap, Hi|done|].
    intros j b Hj Hlt' ->. rewrite list_lookup_fmap_Some in Hj. destruct Hj as (d & Ed & Hj).
    destruct chunk_i as (_ & _ & _ & ? & _). destruct (Hap j i d c Hj Hi ltac:(lia)) as [?|?]; injection Ed as ? ?; lia.
  - rewrite Forall_lookup. intros j d Hj. destruct (Hdel j d Hj) as (k & Hk & Hj' & _). by eapply others_ok.
  - intros j k d e Hj Hk Hne. destruct (Hdel _ _ Hj) as (j' & ? & Hj' & ->), (Hdel _ _ Hk) as (k' & ? & Hk' & ->).
    eapply Hap; [done..|]. repeat case_decide; lia.
  - intros x Hx. pose proof Hx as [HxP HxR]%elem_of_difference. destruct (Hm x HxP) as (d & [j Hj]%list_elem_of_lookup & Hxd).
    assert (j <> i) by (intros ->; assert (d = c) as -> by congruence; set_solver).
    exists d. split; [|done]. apply list_elem_of_lookup. destruct (decide (j < i)%nat).
    + exists j. by rewrite list_lookup_delete_lt.
    + exists (j - 1)%nat. rewrite list_lookup_delete_ge by lia. by replace (S (j - 1)) with j by lia.
  - rewrite Hb. change (map block_of) with (fmap (M:=list) block_of). by rewrite list_fmap_delete.
Qed.
End Unmap.

(** ** The calls *)
Lemma wp_result {St A} (m : M St A) (Q : A -> St -> Prop) s a s' : wp m Q s -> m s = Done (a, s') -> Q a s'.
Proof. unfold wp. intros H E. by rewrite E in H. Qed.
Lemma wp_mset {St} (s' : St) Q s : Q tt s' -> wp (mput s') Q s.
Proof. done. Qed.
Lemma wp_mmapmem_free s P a n : mman_inv s P -> a mod PAGE_SIZE = 0 -> n mod PAGE_SIZE = 0 -> 0 < n -> pages a n ⊆ P ->
  Exists (fun '(b, k) => b <= a /\ a + n <= b + k) (mm_blocks s) ->
  wp (mmapmem_free a n) (fun r s' => r = None /\ mman_inv s' (P ∖ pages a n) /\ mm_bytes s' = mm_bytes s) s.
Proof.
  intros Hinv Ha Hn Hn0 HR Hex. destruct (find_chunk s P a n Hinv Ha Hn Hn0 Hex) as (i & c & Ef & Hi & Hin).
  unfold mmapmem_free. apply wp_bind, wp_get. rewrite Ef.
  pose proof (left_eq s P a n i c Hinv Ha Hn Hn0 HR Hi Hin) as El.
  apply wp_bind, wp_assert; [lia|]. destruct (Z.eqb_spec (mm_pgsleft c - n / PAGE_SIZE) 0) as [E0|E0]; cbn [negb].
  - destruct (inv_remove s P a n i c Hinv Ha Hn Hn0 HR Hi Hin E0) as [Eb Hr]. apply wp_bind, wp_modify, wp_bind.
    unfold kmem_free. apply wp_bind, wp_get. cbn [set_list mm_blocks]. fold (block_of c). rewrite Eb. apply wp_modify, wp_ret. done.
  - apply wp_bind, wp_modify, wp_ret. split_and!; [done| |done]. by apply inv_shrink.
Qed.

Section Client.
Context (PROT_READ MAP_FIXED MAP_ANON : Z).
Context (hyper : list (Z * Z) -> Z -> option Z) (getfile : Z -> option file) (fileread : Z -> Z -> Z -> errno + list Z).
(** The allocator returns aligned memory that is not in use. *)
Hypothesis Hhyper : forall blocks n v, hyper blocks n = Some v ->
  v mod PAGE_SIZE = 0 /\ 0 < v /\ v + n < 2 ^ 64 /\ Forall (fun '(a, k) => v + n <= a \/ a + k <= v) blocks.
(** A read returns at most what was asked for. *)
Hypothesis Hread : forall fd pos n l, fileread fd pos n = inr l -> Z.of_nat (length l) <= n.

(** A request that is not empty and that the allocator can serve. *)
Definition mmap_ok (s : mman) (a : mmap_args) : Prop :=
  0 < a_len a <= 2 ^ 64 - PAGE_SIZE /\ is_Some (hyper (mm_blocks s) (roundup_page (a_len a))).
(** The descriptor of a file mapping is not open, not for reading, or of no file: sys_mmap
    then returns without giving back what it has allocated, the pages [leaked]. *)
Definition bad_fd (a : mmap_args) : bool :=
  (Z.land (a_flags a) MAP_ANON =? 0) && negb (match getfile (a_fd a) with Some fp => f_read fp && f_vnode fp | None => false end).
Definition leaked (a : mmap_args) (r : option Z) : gset Z :=
  match r with Some v => if bad_fd a then pages v (roundup_page (a_len a)) else ∅ | None => ∅ end.
(** Pages that are mapped, in one mapping. *)
Definition munmap_ok (s : mman) (P : gset Z) (addr len : Z) : Prop :=
  addr mod PAGE_SIZE = 0 /\ 0 < len <= 2 ^ 64 - PAGE_SIZE /\ pages addr (roundup_page len) ⊆ P /\
  Exists (fun '(b, k) => b <= addr /\ addr + roundup_page len <= b + k) (mm_blocks s).
(** What a mapping holds at offset [i]. *)
Definition mmap_byte (a : mmap_args) (i : Z) : Z :=
  if negb (Z.land (a_flags a) MAP_ANON =? 0) then 0 else
  match fileread (a_fd a) (a_pos a) (roundup_page (a_len a)) with
  | inl _ => 0
  | inr l => default 0 (l !! Z.to_nat i)
  end.

Abbreviation mmap := (sys_mmap PROT_READ MAP_FIXED MAP_ANON hyper getfile fileread).

Lemma wp_sys_mmap s P a : mman_inv s P -> mmap_ok s a ->
  wp (mmap a) (fun '(e, r) s' => match e with
    | None => exists v, r = Some v /\ mman_inv s' (P ∪ pages v (roundup_page (a_len a))) /\ P ## pages v (roundup_page (a_len a)) /\
        v mod PAGE_SIZE = 0 /\ (forall i, 0 <= i < roundup_page (a_len a) -> mm_bytes s' (v + i) = mmap_byte a i) /\
        (forall x, ~ (v <= x < v + roundup_page (a_len a)) -> mm_bytes s' x = mm_bytes s x)
    | Some _ => mman_inv s' (P ∪ leaked a r) /\ P ## leaked a r /\ mm_bytes s' = mm_bytes s
    end) s.
Proof using Hhyper Hread.
  intros Hinv (Hlen & [v Ev]). destruct (roundup_page_spec _ Hlen) as (Hr1 & Hr2 & Hr3). set (n := roundup_page (a_len a)) in *.
  unfold sys_mmap. fold n. assert (Hnone : mman_inv s (P ∪ ∅) /\ P ## (∅ : gset Z)) by (rewrite union_empty_r_L; split; [done|set_solver]).
  repeat (case_match; [by apply wp_ret; destruct Hnone|]). destruct (Hhyper _ _ _ Ev) as (Hv & Hv0 & Hvn & Hfresh).
  pose proof (inv_add s P v n (mm_bytes s) Hinv Hv Hr2 Hv0 ltac:(lia) Hvn Hfresh) as Hnew.
  assert (Hdis : P ## pages v n).
  { intros x Hx. destruct Hinv as [Hok _ Hm Hb]. destruct (Hm x Hx) as (c & Hc & Hxc). rewrite Forall_forall in Hok.
    destruct (Hok c Hc) as (? & ? & _). rewrite Hb, Forall_map, Forall_forall in Hfresh. specialize (Hfresh c Hc). cbn in Hfresh.
    assert (Hd : chunk_pages c ## pages v n) by (apply disjoint_pages; try done; lia). intros Hx2. by apply (Hd x). }
  apply wp_bind. unfold mmapmem_alloc. apply wp_bind, wp_get. rewrite Ev. cbn [default from_option id]. apply wp_bind, wp_mset, wp_ret.
  set (s1 := Mman _ _ _) in *. destruct (Z.eqb_spec v 0); [lia|].
  assert (Hbytes : forall b, mman_inv (set_bytes b s1) (P ∪ pages v n)) by (intros b; apply inv_add; done || lia).
  unfold mmap_byte. fold n. destruct (Z.eqb_spec (Z.land (a_flags a) MAP_ANON) 0) as [Hanon|Hanon]; cbn [negb].
  2:{ apply wp_bind, wp_modify, wp_ret. exists v. split_and!; try done.
      - intros i Hi. cbn. unfold write_bytes. case_match; [done|lia].
      - intros x Hx. cbn. unfold write_bytes. case_match; [lia|done]. }
  destruct (bad_fd a) eqn:Ebad.
  { assert (Hl : mman_inv s1 (P ∪ leaked a (Some v)) /\ P ## leaked a (Some v)) by (unfold leaked; rewrite Ebad; split; [exact (Hbytes (mm_bytes s))|done]).
    unfold bad_fd in Ebad. destruct (getfile (a_fd a)) as [[[] []]|]; cbn [f_read f_vnode negb andb] in *;
      [rewrite andb_false_r in Ebad; done|apply wp_ret; by destruct Hl..]. }
  assert (Hleak : leaked a (Some v) = ∅) by (unfold leaked; by rewrite Ebad).
  unfold bad_fd in Ebad. rewrite Hanon in Ebad. cbn [Z.eqb andb] in Ebad. destruct (getfile (a_fd a)) as [[[] []]|]; try done. clear Ebad.
  cbn [f_read f_vnode negb]. destruct (fileread _ _ n) as [e|l] eqn:El.
  - apply wp_bind. eapply wp_mono; [apply (wp_mmapmem_free s1 (P ∪ pages v n) v n); try done; [lia|set_solver|by left]|].
    intros r s2 (-> & Hi & Hb). apply wp_ret. replace ((P ∪ pages v n) ∖ pages v n) with P in Hi by set_solver. rewrite Hleak, union_empty_r_L. split_and!; [done|set_solver|done].
  - pose proof (Hread _ _ _ _ El) as Hl. apply wp_bind, wp_modify, wp_bind.
    apply (wp_mono _ (fun _ s2 => exists b, s2 = set_bytes b s1 /\
      (forall i, 0 <= i < n -> b (v + i) = default 0 (l !! Z.to_nat i)) /\ forall x, ~ (v <= x < v + n) -> b x = mm_bytes s x)).
    + destruct (Z.eqb_spec (Z.of_nat (length l)) n) as [Heq|Hne]; cbn [negb].
      * apply wp_ret. eexists. split_and!; [done| |].
        -- intros i Hi. unfold write_bytes. case_match; [by replace (v + i - v) with i by lia|lia].
        -- intros x Hx. unfold write_bytes. case_match; [lia|done].
      * apply wp_bind, wp_assert; [lia|]. apply wp_modify. eexists. split_and!; [done| |].
        -- intros i Hi. unfold write_bytes. cbn. case_match eqn:E1.
           ++ rewrite lookup_ge_None_2 by lia. done.
           ++ case_match; [by replace (v + i - v) with i by lia|lia].
        -- intros x Hx. unfold write_bytes. cbn. case_match; [lia|]. case_match; [lia|done].
    + intros [] s2 (b & -> & Hin & Hout). apply wp_ret. exists v. split_and!; try done.
Qed.

Lemma wp_sys_munmap s P addr len : mman_inv s P -> munmap_ok s P addr len ->
  wp (sys_munmap addr len) (fun r s' => r = None /\ mman_inv s' (P ∖ pages addr (roundup_page len)) /\ mm_bytes s' = mm_bytes s) s.
Proof using.
  intros Hinv (Ha & Hlen & HR & Hex). destruct (roundup_page_spec _ Hlen) as (Hr1 & Hr2 & Hr3). unfold sys_munmap.
  assert (Z.land addr (PAGE_SIZE - 1) = 0) as -> by (change (PAGE_SIZE - 1) with (2 ^ 12 - 1); rewrite (land_mask_mod addr 12) by lia; exact Ha).
  cbn [Z.eqb negb]. apply wp_mmapmem_free; try done. lia.
Qed.

(** A request of any length returns, also when there is no memory. *)
Lemma sys_mmap_returns s P a : mman_inv s P -> 0 < a_len a <= 2 ^ 64 - PAGE_SIZE -> exists e r s', mmap a s = Done (e, r, s').
Proof using Hhyper Hread.
  intros Hinv Hlen. destruct (hyper (mm_blocks s) (roundup_page (a_len a))) as [v|] eqn:Ev.
  - destruct (wp_run _ _ _ (wp_sys_mmap s P a Hinv (conj Hlen (ex_intro _ v Ev)))) as ([e r] & s' & E & _). eauto.
  - unfold sys_mmap. repeat (case_match; [by repeat eexists|]). unfold mmapmem_alloc, cbind, mget, mput, cret. rewrite Ev. by repeat eexists.
Qed.

(** The states a caller reaches that maps and unmaps as it may while memory lasts, with
    the pages it has mapped and those that failed requests have leaked. *)
Inductive mclient : mman -> gset Z -> gset Z -> Prop :=
| mc_start b : mclient (Mman [] [] b) ∅ ∅
| mc_mmap s P L a v s' : mclient s P L -> mmap_ok s a -> mmap a s = Done (None, Some v, s') -> mclient s' (P ∪ pages v (roundup_page (a_len a))) L
| mc_error s P L a e r s' : mclient s P L -> mmap_ok s a -> mmap a s = Done (Some e, r, s') -> mclient s' P (L ∪ leaked a r)
| mc_munmap s P L addr len r s' : mclient s P L -> munmap_ok s P addr len -> sys_munmap addr len s = Done (r, s') ->
    mclient s' (P ∖ pages addr (roundup_page len)) L.

Lemma unmap_keeps (P R L : gset Z) : R ⊆ P -> P ## L -> P ∖ R ∪ L = (P ∪ L) ∖ R.
Proof. set_solver. Qed.
Lemma map_keeps (P R L : gset Z) : P ∪ R ∪ L = P ∪ L ∪ R.
Proof. set_solver. Qed.
Lemma mclient_inv s P L : mclient s P L -> mman_inv s (P ∪ L) /\ P ## L.
Proof using Hhyper Hread.
  induction 1 as [b|s P L a v s' _ [IH Hd] Hok E|s P L a e r s' _ [IH Hd] Hok E|s P L addr len r s' _ [IH Hd] Hok E].
  - split; [|set_solver]. split; cbn; [constructor|done|set_solver|done].
  - destruct (wp_result _ _ _ _ _ (wp_sys_mmap s _ a IH Hok) E) as (v' & [= <-] & Hi & Hn & _).
    split; [|clear -Hd Hn; set_solver]. by rewrite (map_keeps P _ L).
  - destruct (wp_result _ _ _ _ _ (wp_sys_mmap s _ a IH Hok) E) as (Hi & Hn & _). split; [by rewrite union_assoc_L|set_solver].
  - assert (Hok' : munmap_ok s (P ∪ L) addr len) by (destruct Hok as (Ha & Hlen & HR & Hex); split; [done|]; split; [done|]; split; [set_solver|done]).
    destruct (wp_result _ _ _ _ _ (wp_sys_munmap s _ addr len IH Hok') E) as (_ & Hi & _). split; [|clear -Hd; set_solver].
    rewrite (unmap_keeps P _ L); [done| |done]. apply Hok.
Qed.

(** C36. Mappings are safe, and what they leak is known: whatever a caller has mapped and
    unmapped before (whole mappings or parts of them, in any order, each page once, while
    the allocator served every request), every request of a length returns and every
    unmap of mapped pages of one mapping succeeds; every page that is still mapped lies
    in a block that is still allocated, and every allocated block has a page that is
    still mapped or was leaked by a request for a descriptor that cannot be mapped -
    such a request keeps its memory. *)
Theorem mmap_client_safe s P L : mclient s P L ->
  (forall a, 0 < a_len a <= 2 ^ 64 - PAGE_SIZE -> exists e r s', mmap a s = Done (e, r, s')) /\
  (forall addr len, munmap_ok s P addr len -> exists s', sys_munmap addr len s = Done (None, s')) /\
  (forall x, x ∈ P -> Exists (fun '(b, k) => x ∈ pages b k) (mm_blocks s)) /\
  Forall (fun '(b, k) => exists x, x ∈ P ∪ L /\ x ∈ pages b k) (mm_blocks s).
Proof using Hhyper Hread.
  intros [Hinv Hd]%mclient_inv. pose proof Hinv as [Hok _ Hm Hb]. split_and!.
  - intros a Ha. by apply (sys_mmap_returns s (P ∪ L)).
  - intros addr len (Ha & Hlen & HR & Hex). assert (Hu : munmap_ok s (P ∪ L) addr len) by (split; [done|]; split; [done|]; split; [set_solver|done]).
    destruct (wp_run _ _ _ (wp_sys_munmap s _ addr len Hinv Hu)) as (r & s' & E & -> & _). eauto.
  - intros x Hx. destruct (Hm x ltac:(set_solver)) as (c & Hc & Hxc). rewrite Hb. apply Exists_exists. exists (block_of c).
    split; [by apply list_elem_of_fmap_2|done].
  - rewrite Hb, Forall_map. eapply Forall_impl; [exact Hok|]. intros c (_ & _ & _ & _ & _ & Hp & E). rewrite E in Hp.
    destruct (set_choose_L ((P ∪ L) ∩ chunk_pages c)) as [x Hx]; [intros E0; rewrite E0, size_empty in Hp; lia|].
    cbn. exists x. apply elem_of_intersection in Hx. done.
Qed.

(** What a successful [mmap] returns: page-aligned memory none of whose
    pages was mapped, filled with zeros or with the bytes of the file and zeros
    behind them; no other byte of memory changes. *)
Theorem mmap_fresh_and_filled s P L a v s' : mclient s P L -> mmap_ok s a -> mmap a s = Done (None, Some v, s') ->
  v mod PAGE_SIZE = 0 /\ P ∪ L ## pages v (roundup_page (a_len a)) /\
  (forall i, 0 <= i < roundup_page (a_len a) -> mm_bytes s' (v + i) = mmap_byte a i) /\
  (forall x, ~ (v <= x < v + roundup_page (a_len a)) -> mm_bytes s' x = mm_bytes s x).
Proof using Hhyper Hread.
  intros [Hinv _]%mclient_inv Hok E. destruct (wp_result _ _ _ _ _ (wp_sys_mmap s _ a Hinv Hok) E) as (v' & [= <-] & _ & ? & ? & ? & ?). done.
Qed.
End Client.

(** An allocator that never gives memory back. *)
Definition bump_alloc (blocks : list (Z * Z)) (n : Z) : option Z :=
  let v := PAGE_SIZE * (1 + foldr (fun '(a, k) m => Z.max m ((a + k) / PAGE_SIZE + 1)) 0 blocks) in
  if v + n <? 2 ^ 64 then Some v else None.
Lemma bump_alloc_ok blocks n v : bump_alloc blocks n = Some v ->
  v mod PAGE_SIZE = 0 /\ 0 < v /\ v + n < 2 ^ 64 /\ Forall (fun '(a, k) => v + n <= a \/ a + k <= v) blocks.
Proof.
  unfold bump_alloc. set (m := foldr _ _ _).
  assert (Hm : 0 <= m /\ Forall (fun '(a, k) => (a + k) / PAGE_SIZE + 1 <= m) blocks).
  { unfold m. clear. induction blocks as [|[a k] l [IH1 IH2]]; cbn; [split; [lia|constructor]|]. split; [lia|]. constructor; [lia|].
    eapply Forall_impl; [exact IH2|]. intros [b j] H. lia. }
  destruct Hm as [Hm Hf]. destruct (Z.ltb_spec (PAGE_SIZE * (1 + m) + n) (2 ^ 64)); [|done]. intros [= <-].
  split_and!; [rewrite Z.mul_comm; apply Z_mod_mult|unfold PAGE_SIZE; lia|lia|].
  eapply Forall_impl; [exact Hf|]. intros [a k] Hk. right. unfold PAGE_SIZE in *. pose proof (Z.div_mod (a + k) 4096). pose proof (Z.mod_pos_bound (a + k) 4096). lia.
Qed.

Definition anon_args : mmap_args := MmapArgs 5000 3 4096 (-1) 0.
Definition fail_read (_ _ _ : Z) : errno + list Z := inl EINVAL.
(** Two pages are mapped, then the first is unmapped. *)
Definition mapped_two : mman := Mman [Chunk 4096 8192 2] [(4096, 8192)] (write_bytes 4096 (fun _ => 0) 8192 (fun x => x)).
(** Then a mapping of a descriptor that is not open is asked for. *)
Definition file_args : mmap_args := MmapArgs 100 1 0 5 0.
Definition leaked_one : mman := Mman [Chunk 20480 4096 1; Chunk 4096 8192 1] [(20480, 4096); (4096, 8192)] (mm_bytes mapped_two).
Lemma mmap_client_safe_witness :
  (exists s', sys_munmap 8192 4096 leaked_one = Done (None, s')) /\
  Forall (fun '(b, k) => exists x, x ∈ (∅ ∪ pages 4096 (roundup_page 5000)) ∖ pages 4096 (roundup_page 4096) ∪ (∅ ∪ leaked 4096 (fun _ => None) file_args (Some 20480)) /\ x ∈ pages b k)
    (mm_blocks leaked_one).
Proof.
  assert (Hc : mclient 1 16 4096 bump_alloc (fun _ => None) fail_read leaked_one ((∅ ∪ pages 4096 (roundup_page 5000)) ∖ pages 4096 (roundup_page 4096))
    (∅ ∪ leaked 4096 (fun _ => None) file_args (Some 20480))).
  { apply (mc_error _ _ _ _ _ _ (Mman [Chunk 4096 8192 1] [(4096, 8192)] (mm_bytes mapped_two)) _ _ file_args EBADF).
    - apply (mc_munmap _ _ _ _ _ _ mapped_two _ _ 4096 4096 None).
      + apply (mc_mmap _ _ _ _ _ _ (Mman [] [] (fun x => x)) _ _ anon_args); [apply mc_start| |reflexivity].
        split_and!; [reflexivity|vm_compute; discriminate|by eexists].
      + split_and!; [reflexivity|reflexivity|vm_compute; discriminate| |left; vm_compute; split; discriminate].
        apply (bool_decide_unpack _). vm_compute. exact I.
      + reflexivity.
    - split_and!; [reflexivity|vm_compute; discriminate|by eexists].
    - reflexivity. }
  pose proof (mmap_client_safe 1 16 4096 bump_alloc (fun _ => None) fail_read bump_alloc_ok ltac:(done) _ _ _ Hc) as (_ & H2 & _ & H4).
  split; [|exact H4]. apply H2. split_and!; [reflexivity|reflexivity|vm_compute; discriminate| |right; left; vm_compute; split; discriminate].
  apply (bool_decide_unpack _). vm_compute. exact I.
Defined.
Lemma mmap_fresh_and_filled_witness :
  4096 mod PAGE_SIZE = 0 /\ mm_bytes mapped_two (4096 + 7) = mmap_byte 4096 fail_read anon_args 7.
Proof.
  destruct (mmap_fresh_and_filled 1 16 4096 bump_alloc (fun _ => None) fail_read bump_alloc_ok ltac:(done)
    (Mman [] [] (fun x => x)) ∅ ∅ anon_args 4096 mapped_two) as (H1 & _ & H2 & _).
  - apply mc_start.
  - split_and!; [reflexivity|vm_compute; discriminate|by eexists].
  - reflexivity.
  - split; [exact H1|]. apply H2. split; [discriminate|reflexivity].
Defined.

(** ** Where mappings are lost *)
(** A request that the allocator cannot serve leaves a chunk behind. *)
Theorem mmap_failure_leaves_chunk s : exists s',
  sys_mmap 1 16 4096 (fun _ _ => None) (fun _ => None) fail_read anon_args s = Done (Some ENOMEM, None, s') /\
  mmc_list s' = Chunk 0 8192 2 :: mmc_list s.
Proof. exists (Mman (Chunk 0 8192 2 :: mmc_list s) (mm_blocks s) (mm_bytes s)). split; reflexivity. Qed.
(** A file mapping of a descriptor that is not open keeps its memory. *)
Theorem mmap_bad_fd_leaks s v : bump_alloc (mm_blocks s) 4096 = Some v -> exists s',
  sys_mmap 1 16 4096 bump_alloc (fun _ => None) fail_read (MmapArgs 100 1 0 5 0) s = Done (Some EBADF, Some v, s') /\
  mm_blocks s' = (v, 4096) :: mm_blocks s.
Proof.
  intros E. destruct (bump_alloc_ok _ _ _ E) as (_ & Hv & _). unfold sys_mmap. cbn [a_fd a_prot a_flags a_pos a_len]. change (roundup_page 100) with 4096.
  change (Z.land 0 16 =? 0) with true. change (Z.land 0 (PAGE_SIZE - 1) =? 0) with true. change (Z.land 0 4096 =? 0) with true.
  change (1 =? 1) with true. change (5 =? -1) with false. cbn [negb andb]. unfold mmapmem_alloc, cbind, mget, mput, cret. cbv beta iota. rewrite E. cbn.
  destruct (Z.eqb_spec v 0); [lia|]. eexists. split; reflexivity.
Qed.
(** The chunk that a refused request leaves starts at 0 and is found first: an unmap of a
    mapping below its size is booked there, and the mapping is never freed. *)
Theorem mmap_failure_misdirects_munmap : exists s s',
  sys_mmap 1 16 4096 (fun _ _ => None) (fun _ => None) fail_read (MmapArgs (2 ^ 40) 3 4096 (-1) 0) mapped_two = Done (Some ENOMEM, None, s) /\
  sys_munmap 4096 8192 s = Done (None, s') /\ mm_blocks s' = mm_blocks mapped_two /\ mmc_list s' = [Chunk 0 (2 ^ 40) (2 ^ 28 - 2); Chunk 4096 8192 2].
Proof.
  exists (Mman [Chunk 0 (2 ^ 40) (2 ^ 28); Chunk 4096 8192 2] (mm_blocks mapped_two) (mm_bytes mapped_two)).
  exists (Mman [Chunk 0 (2 ^ 40) (2 ^ 28 - 2); Chunk 4096 8192 2] (mm_blocks mapped_two) (mm_bytes mapped_two)). split_and!; reflexivity.
Qed.
(** Pages are only counted: a page unmapped twice takes another one along. *)
Theorem munmap_twice_frees_mapped : exists s1 s2,
  sys_munmap 4096 4096 mapped_two = Done (None, s1) /\ sys_munmap 4096 4096 s1 = Done (None, s2) /\ mm_blocks s2 = [].
Proof. exists (Mman [Chunk 4096 8192 1] (mm_blocks mapped_two) (mm_bytes mapped_two)), (Mman [] [] (mm_bytes mapped_two)). split_and!; reflexivity. Qed.
