(* ===== verification/Timer.v ===== *)
(** * Time on x86 (platform/hw/arch/x86/clock.c, hypervisor.c)

    Conversion between ticks and nanoseconds, the clock read from memory that
    the hypervisor updates, the value all CPUs agree on, the calibration delay
    and the programming of the interval timer.  What the processor and the
    devices return (rdtsc, cpuid, port reads) is an argument. *)

From S2P Require Import Prelude Clock.

Definition NSEC_PER_SEC : Z := 1000000000.
Definition PIT_MIN_DELTA : Z := 16.
Definition TIMER_HZ : Z := 1193182.
(** Constants of the compiler: 64-bit division, stored in 32 bits. *)
Definition pit_mult : Z := u32 (2 ^ 63 / (u64 (Z.shiftl NSEC_PER_SEC 31) / TIMER_HZ)).

(** ** Scaling *)
(** [mul] leaves the 128-bit product in two registers, [shrd] shifts it. *)
Definition mul64_32 (a b : Z) : Z := u64 (Z.shiftr (a * b) 32).
(** The version for i386: two 32-bit products and an addition with carry. *)
Definition mul64_32_i386 (a b : Z) : Z :=
  let h := u32 (Z.shiftr a 32) in
  let l := u32 a in
  let t1 := u32 (Z.shiftr (l * b) 32) in
  let eax := u32 (h * b) in
  let edx := u32 (Z.shiftr (h * b) 32) in
  let carry := if 2 ^ 32 <=? eax + t1 then 1 else 0 in
  let eax := u32 (eax + t1) in
  let edx := u32 (edx + carry) in
  edx * 2 ^ 32 + eax.

(** ** The time stamp counter *)
Record tscclock := Tsc { time_base : Z; tsc_base : Z }.
Definition tscclock_monotonic (tsc_mult tsc_now : Z) (c : tscclock) : Z * tscclock :=
  let tsc_delta := u64 (tsc_now - tsc_base c) in
  let time := u64 (time_base c + mul64_32 tsc_delta tsc_mult) in
  (s64 time, Tsc time tsc_now).
Definition tscclock_init_notmain (tsc : Z) (boot : tscclock) : tscclock := Tsc (time_base boot) tsc.
(** The frequency from two readings 0.1 s apart; [None] is a division by 0. *)
Definition tsc_freq (before after : Z) : Z := u64 (u64 (after - before) * 10).
Definition tsc_multiplier (freq : Z) : option Z :=
  if freq =? 0 then None else Some (u32 (u64 (Z.shiftl NSEC_PER_SEC 32) / freq)).
Definition tscclock_init (before after : Z) : option (Z * tscclock) :=
  mult ← tsc_multiplier (tsc_freq before after);
  Some (mult, Tsc (mul64_32 before mult) before).

(** ** The calibration delay *)
Definition timer_rval : Z := TIMER_HZ / 100.
(** One round of the loop of [i8254_delay]: what is left after a reading. *)
Definition delay_round (initial_tick cur_tick remaining : Z) : Z :=
  if initial_tick <? cur_tick then s32 (u64 (remaining - (timer_rval - (cur_tick - initial_tick))))
  else s32 (u32 (remaining - (initial_tick - cur_tick))).
(** The rounds over a sequence of readings: what is left after the readings
    that were needed, and the readings that were not. *)
Fixpoint delay_loop (initial_tick remaining : Z) (ticks : list Z) : Z * list Z :=
  if remaining <=? 1 then (remaining, ticks) else
  match ticks with
  | [] => (remaining, [])
  | t :: ticks => delay_loop t (delay_round initial_tick t remaining) ticks
  end.
Definition i8254_delay (n : Z) (initial_tick : Z) (ticks : list Z) : Z * list Z :=
  delay_loop initial_tick (s32 (u64 (n * TIMER_HZ) / 1000000)) ticks.
(** Two reads of the counter port. *)
Definition i8254_gettick (lo hi : Z) : Z := Z.lor lo (u16 (Z.shiftl hi 8)).

(** ** The real-time clock *)
Definition RTC_NMI_DISABLE : Z := 256.
Definition RTC_UIP : Z := 128.
(** The register selected: the port takes 8 bits. *)
Definition rtc_read (reg : Z) : Z := u8 (Z.lor reg RTC_NMI_DISABLE).
(** The reading, with the registers as the clock returns them once its update
    flag is down. *)
Definition rtc_gettimeofday (rtc : Z -> Z) : Z :=
  let get reg := bcdtobin (rtc (rtc_read reg)) in
  s64 (s64 (clock_ymdhms_to_secs (Ymdhms (get 9 + 2000) (get 8) (get 7) (get 4) (get 2) (get 0))) * NSEC_PER_SEC).

(** ** Waiting for the timer *)
Inductive blockres := BLate | BSpin | BSleep (lo hi : Z).
Definition bmk_platform_cpu_block (spldepth now until : Z) : option blockres :=
  if negb (0 <? spldepth) then None
  else if until <=? now then Some BLate else
  let delta_ns := s64 (until - now) in
  let delta_ticks := mul64_32 (u64 delta_ns) pit_mult in
  if delta_ticks <? PIT_MIN_DELTA then Some BSpin else
  let ticks := if 65535 <? delta_ticks then 65535 else u32 delta_ticks in
  Some (BSleep (Z.land (ticks - 1) 255) (u8 (Z.shiftr (ticks - 1) 8))).

(** ** The paravirtual clock *)
Record pvti := Pvti { pv_tsc_timestamp : Z; pv_system_time : Z; pv_mul : Z; pv_shift : Z }.
Definition pv_time (tsc stamp shift1 shift2 mul base : Z) : Z :=
  let delta := u64 (tsc - stamp) in
  let delta := if shift1 <? 0 then Z.shiftr delta (- shift2) else u64 (Z.shiftl delta shift2) in
  s64 (u64 (mul64_32 delta mul + base)).
Definition pv_scale (ti : pvti) (tsc : Z) : Z :=
  pv_time tsc (pv_tsc_timestamp ti) (pv_shift ti) (pv_shift ti) (pv_mul ti) (pv_system_time ti).

(** The reader, one read of the shared structure at a time. *)
Inductive pvpc :=
| PvVersion                                       (* about to read version *)
| PvStamp | PvShift1 | PvShift2 | PvMul | PvBase  (* about to read a field *)
| PvTest1 | PvTest2                               (* about to read version again, twice *)
| PvDone.
Record pvreader := PvReader { pr_pc : pvpc; pr_version : Z; pr_tsc : Z; pr_stamp : Z; pr_shift1 : Z; pr_shift2 : Z; pr_mul : Z; pr_base : Z }.
(** The memory shared with the hypervisor. *)
Record pvshared := PvShared { pvs_version : Z; pvs_ti : pvti }.
Inductive pvact := VRead (tsc : Z) | VBegin | VWrite (ti : pvti) | VEnd.
Definition pv_read (tsc : Z) (sh : pvshared) (r : pvreader) : pvreader :=
  let ti := pvs_ti sh in
  match pr_pc r with
  | PvVersion => PvReader PvStamp (pvs_version sh) 0 0 0 0 0 0
  | PvStamp => PvReader PvShift1 (pr_version r) tsc (pv_tsc_timestamp ti) 0 0 0 0
  | PvShift1 => PvReader PvShift2 (pr_version r) (pr_tsc r) (pr_stamp r) (pv_shift ti) 0 0 0
  | PvShift2 => PvReader PvMul (pr_version r) (pr_tsc r) (pr_stamp r) (pr_shift1 r) (pv_shift ti) 0 0
  | PvMul => PvReader PvBase (pr_version r) (pr_tsc r) (pr_stamp r) (pr_shift1 r) (pr_shift2 r) (pv_mul ti) 0
  | PvBase => PvReader PvTest1 (pr_version r) (pr_tsc r) (pr_stamp r) (pr_shift1 r) (pr_shift2 r) (pr_mul r) (pv_system_time ti)
  | PvTest1 => PvReader (if Z.odd (pvs_version sh) then PvVersion else PvTest2)
                 (pr_version r) (pr_tsc r) (pr_stamp r) (pr_shift1 r) (pr_shift2 r) (pr_mul r) (pr_base r)
  | PvTest2 => PvReader (if pvs_version sh =? pr_version r then PvDone else PvVersion)
                 (pr_version r) (pr_tsc r) (pr_stamp r) (pr_shift1 r) (pr_shift2 r) (pr_mul r) (pr_base r)
  | PvDone => r
  end.
Definition pv_result (r : pvreader) : Z :=
  pv_time (pr_tsc r) (pr_stamp r) (pr_shift1 r) (pr_shift2 r) (pr_mul r) (pr_base r).
(** The hypervisor's side: the version is odd while the fields change. *)
Definition pv_step (a : pvact) (sh : pvshared) (r : pvreader) : option (pvshared * pvreader) :=
  match a with
  | VRead tsc => Some (sh, pv_read tsc sh r)
  | VBegin => if Z.odd (pvs_version sh) then None else Some (PvShared (pvs_version sh + 1) (pvs_ti sh), r)
  | VWrite ti => if Z.odd (pvs_version sh) then Some (PvShared (pvs_version sh) ti, r) else None
  | VEnd => if Z.odd (pvs_version sh) then Some (PvShared (pvs_version sh + 1) (pvs_ti sh), r) else None
  end.

(** The value all CPUs agree on: [pvclock_monotonic] behind the reading. *)
Inductive monopc :=
| MonoIdle
| MonoLoad (time : Z)                  (* about to load monotonic_value *)
| MonoCas (time value : Z).            (* value < time: about to compare and swap *)
Record monosys := MonoSys {
  monotonic_value : Z;
  mono_threads : list (monopc * nat);  (* and how many calls had returned when this one began *)
  mono_returned : list (nat * Z)       (* calls that have returned: the same count, and the result *)
}.
Inductive monoact := MonoStart (t : nat) (time : Z) | MonoStep (t : nat) (spurious : bool).
(** The test at the head of the loop, with the value just loaded. *)
Definition mono_test (t : nat) (time value : Z) (n0 : nat) (g : Z) (s : monosys) : monosys :=
  if time <=? value then MonoSys g (<[t := (MonoIdle, n0)]> (mono_threads s)) (mono_returned s ++ [(n0, value)])
  else MonoSys g (<[t := (MonoCas time value, n0)]> (mono_threads s)) (mono_returned s).
Definition mono_step (a : monoact) (s : monosys) : option monosys :=
  match a with
  | MonoStart t time =>
      match mono_threads s !! t with
      | Some (MonoIdle, _) => Some (MonoSys (monotonic_value s) (<[t := (MonoLoad time, length (mono_returned s))]> (mono_threads s)) (mono_returned s))
      | _ => None
      end
  | MonoStep t spurious =>
      match mono_threads s !! t with
      | Some (MonoLoad time, n0) => Some (mono_test t time (monotonic_value s) n0 (monotonic_value s) s)
      | Some (MonoCas time value, n0) =>
          if (monotonic_value s =? value) && negb spurious then
            Some (MonoSys time (<[t := (MonoIdle, n0)]> (mono_threads s)) (mono_returned s ++ [(n0, time)]))
          else Some (mono_test t time (monotonic_value s) n0 (monotonic_value s) s)
      | _ => None
      end
  end.

(** ** Which clock *)
Record cpuid := Cpuid { eax : Z; ebx : Z; ecx : Z; edx : Z }.
Inductive hypervisor := HYPERVISOR_XEN | HYPERVISOR_VMWARE | HYPERVISOR_HYPERV | HYPERVISOR_KVM | HYPERVISOR_NONE.
#[export] Instance hypervisor_eq_dec : EqDecision hypervisor.
Proof. solve_decision. Defined.
Definition hypervisors : list (hypervisor * Z * Z * Z * Z) :=
  [ (HYPERVISOR_XEN, 0x566e6558, 0x65584d4d, 0x4d4d566e, 2);
    (HYPERVISOR_VMWARE, 0x61774d56, 0x4d566572, 0x65726177, 0);
    (HYPERVISOR_HYPERV, 0x7263694d, 0x666f736f, 0x76482074, 0);
    (HYPERVISOR_KVM, 0x4b4d564b, 0x564b4d56, 0x0000004d, 0) ].
Definition sig_match (r : cpuid) (b c d : Z) : bool := (ebx r =? b) && (ecx r =? c) && (edx r =? d).
Section Cpuid.
Context (x86_cpuid : Z -> cpuid).
Definition hypervisor_detect : hypervisor :=
  if negb (1 <=? eax (x86_cpuid 0)) then HYPERVISOR_NONE
  else if negb (Z.testbit (ecx (x86_cpuid 1)) 31) then HYPERVISOR_NONE
  else if negb (0x40000000 <=? eax (x86_cpuid 0x40000000)) then HYPERVISOR_NONE
  else match List.find (fun '(_, b, c, d, _) => sig_match (x86_cpuid 0x40000000) b c d) hypervisors with
       | Some (h, _, _, _, _) => h
       | None => HYPERVISOR_NONE
       end.
(** The bases are tried in steps of 256. *)
Definition hypervisor_base (id : hypervisor) : Z :=
  match List.find (fun '(h, _, _, _, _) => bool_decide (h = id)) hypervisors with
  | None => 0
  | Some (_, b, c, d, leaves) =>
      match List.find (fun base => (leaves <=? u32 (eax (x86_cpuid base) - base)) && sig_match (x86_cpuid base) b c d)
              (map (fun i => 0x40000000 + 256 * Z.of_nat i) (seq 0 256)) with
      | Some base => base
      | None => 0
      end
  end.

Inductive pvchoice := PvNone | PvXen (stable : bool) | PvKvm (system_time wall_clock : Z) (stable : bool).
(** [xen_flags] is the flags byte of the first CPU's structure under Xen. *)
Definition pvclock_init (xen_flags : Z) : pvchoice :=
  match hypervisor_detect with
  | HYPERVISOR_XEN => PvXen (Z.testbit xen_flags 0)
  | HYPERVISOR_KVM =>
      let features := eax (x86_cpuid (u32 (hypervisor_base HYPERVISOR_KVM + 1))) in
      let stable := Z.testbit features 24 in
      if Z.testbit features 3 then PvKvm 0x4b564d01 0x4b564d00 stable
      else if Z.testbit features 0 then PvKvm 0x12 0x11 stable
      else PvNone
  | _ => PvNone
  end.
(** [x86_initclocks]: halts without a counter; the second part of the result is
    whether the counter is invariant. *)
Definition x86_initclocks (xen_flags : Z) : option (pvchoice * bool) :=
  let have_tsc := (1 <=? eax (x86_cpuid 0)) && Z.testbit (edx (x86_cpuid 1)) 4 in
  if negb have_tsc then None else
  let invariant_tsc := (0x80000007 <=? eax (x86_cpuid 0x80000000)) && Z.testbit (edx (x86_cpuid 0x80000007)) 8 in
  Some (pvclock_init xen_flags, invariant_tsc).
End Cpuid.

(** * Time: exactness, accumulated error, consistency and monotonicity *)


(** ** Scaling *)
Lemma mul64_32_exact a b : 0 <= a < 2 ^ 64 -> 0 <= b < 2 ^ 32 -> mul64_32 a b = a * b / 2 ^ 32.
Proof.
  intros Ha Hb. unfold mul64_32, u64. rewrite Z.shiftr_div_pow2 by lia. apply Z.mod_small.
  split; [apply Z.div_pos; nia|]. apply Z.div_lt_upper_bound; nia.
Qed.

(** The scaling never overflows: for all 64-bit and 32-bit operands the
    x86-64 instruction sequence computes the exact quotient of the product by
    2^32, and the i386 sequence of partial products computes the same. *)
Theorem mul64_32_correct a b : 0 <= a < 2 ^ 64 -> 0 <= b < 2 ^ 32 ->
  mul64_32 a b = a * b / 2 ^ 32 /\ mul64_32_i386 a b = mul64_32 a b.
Proof.
  intros Ha Hb. split; [by apply mul64_32_exact|]. rewrite mul64_32_exact by done.
  unfold mul64_32_i386, u32. rewrite !Z.shiftr_div_pow2 by lia. cbv zeta.
  set (h := a / 2 ^ 32). set (l := a mod 2 ^ 32).
  assert (Ea : a = h * 2 ^ 32 + l) by (unfold h, l; pose proof (Z.div_mod a (2 ^ 32)); lia).
  assert (Hh : 0 <= h < 2 ^ 32) by (unfold h; split; [apply Z.div_pos; lia|apply Z.div_lt_upper_bound; lia]).
  assert (Hl : 0 <= l < 2 ^ 32) by (apply Z.mod_pos_bound; lia). rewrite (Z.mod_small h) by lia.
  set (t1 := l * b / 2 ^ 32). assert (Ht1 : 0 <= t1 < 2 ^ 32) by (unfold t1; split; [apply Z.div_pos; nia|apply Z.div_lt_upper_bound; nia]).
  rewrite (Z.mod_small t1) by lia. set (p := h * b). assert (Hp : 0 <= p <= (2 ^ 32 - 1) * (2 ^ 32 - 1)) by (unfold p; nia).
  set (lo := p mod 2 ^ 32). set (hi := p / 2 ^ 32). assert (Ep : p = hi * 2 ^ 32 + lo) by (unfold hi, lo; pose proof (Z.div_mod p (2 ^ 32)); lia).
  assert (Hlo : 0 <= lo < 2 ^ 32) by (apply Z.mod_pos_bound; lia).
  assert (Hhi : 0 <= hi < 2 ^ 32 - 1) by (unfold hi; split; [apply Z.div_pos; lia|apply Z.div_lt_upper_bound; lia]).
  rewrite (Z.mod_small hi) by lia.
  assert (a * b / 2 ^ 32 = p + t1) as ->.
  { replace (a * b) with (l * b + p * 2 ^ 32) by (unfold p; rewrite Ea at 1; lia). rewrite Z.div_add by lia. unfold t1. lia. }
  destruct (Z.leb_spec (2 ^ 32) (lo + t1)).
  - rewrite (Z.mod_small (hi + 1)) by lia. replace (lo + t1) with (lo + t1 - 2 ^ 32 + 1 * 2 ^ 32) at 1 by lia.
    rewrite Z_mod_plus_full, Z.mod_small by lia. lia.
  - rewrite (Z.mod_small (hi + 0)), (Z.mod_small (lo + t1)) by lia. lia.
Qed.
Lemma mul64_32_correct_witness : mul64_32_i386 (2 ^ 64 - 1) (2 ^ 32 - 1) = (2 ^ 64 - 1) * (2 ^ 32 - 1) / 2 ^ 32.
Proof.
  destruct (mul64_32_correct (2 ^ 64 - 1) (2 ^ 32 - 1)) as [E1 E2]; [split; [discriminate|reflexivity]|split; [discriminate|reflexivity]|].
  rewrite E2. exact E1.
Defined.

(** ** The time stamp counter *)
Fixpoint tsc_run (mult : Z) (readings : list Z) (c : tscclock) : list Z * tscclock :=
  match readings with
  | [] => ([], c)
  | r :: rs => let '(t, c) := tscclock_monotonic mult r c in let '(ts, c) := tsc_run mult rs c in (t :: ts, c)
  end.
Fixpoint ascending (x : Z) (l : list Z) : Prop :=
  match l with [] => True | y :: l => x <= y /\ ascending y l end.
Fixpoint final (x : Z) (l : list Z) : Z := match l with [] => x | y :: l => final y l end.
Lemma ascending_final x l : ascending x l -> x <= final x l.
Proof. revert x. induction l as [|y l IH]; intros x; [cbn; lia|]. intros [Hx Hl]. specialize (IH y Hl). cbn. lia. Qed.

Lemma tsc_run_ok mult : 0 <= mult < 2 ^ 32 -> forall readings c, ascending (tsc_base c) readings ->
  0 <= tsc_base c -> 0 <= time_base c -> final (tsc_base c) readings < 2 ^ 64 ->
  2 ^ 32 * time_base c + (final (tsc_base c) readings - tsc_base c) * mult < 2 ^ 32 * 2 ^ 63 ->
  let '(ts, c') := tsc_run mult readings c in
  let total := (final (tsc_base c) readings - tsc_base c) * mult in
  ascending (time_base c) ts /\ final (time_base c) ts = time_base c' /\
  2 ^ 32 * (time_base c' - time_base c) <= total <= 2 ^ 32 * (time_base c' - time_base c) + (2 ^ 32 - 1) * Z.of_nat (length readings).
Proof.
  intros Hm readings. induction readings as [|r rs IH]; intros c Hasc H0 Ht0 Hlast Hfit.
  { cbn. split_and!; [done|done|lia|lia]. }
  destruct Hasc as [Hr Hasc]. cbn [final] in *. pose proof (ascending_final r rs Hasc) as Hle.
  cbn [tsc_run]. unfold tscclock_monotonic. unfold u64. rewrite (Z.mod_small (r - tsc_base c)) by lia.
  rewrite mul64_32_exact by lia. set (q := (r - tsc_base c) * mult / 2 ^ 32).
  assert (Hq : 2 ^ 32 * q <= (r - tsc_base c) * mult <= 2 ^ 32 * q + (2 ^ 32 - 1)).
  { unfold q. pose proof (Z.div_mod ((r - tsc_base c) * mult) (2 ^ 32)). pose proof (Z.mod_pos_bound ((r - tsc_base c) * mult) (2 ^ 32)). lia. }
  assert (Hq0 : 0 <= q) by (apply Z.div_pos; nia).
  assert (Hrest : 0 <= (final r rs - r) * mult) by nia.
  assert (Hsum : (final r rs - tsc_base c) * mult = (r - tsc_base c) * mult + (final r rs - r) * mult) by lia.
  assert (Htq : time_base c + q < 2 ^ 63) by lia.
  rewrite (Z.mod_small (time_base c + q)) by lia.
  assert (s64 (time_base c + q) = time_base c + q) as -> by (unfold s64, swrap; rewrite Z.mod_small; lia).
  specialize (IH (Tsc (time_base c + q) r)). cbn [tsc_base time_base] in IH.
  destruct (tsc_run mult rs (Tsc (time_base c + q) r)) as [ts c'].
  destruct IH as (IH1 & IH2 & IH3); [done|lia|lia|lia|lia|]. cbn [ascending final length] in *.
  split_and!; [lia|done|done|lia|lia].
Qed.

(** Reading the clock through the time stamp counter any number of times:
    for non-decreasing counter values the times returned never go backwards,
    and after [n] readings the clock is never ahead of the exact product of the
    ticks passed and the multiplier and less than [n] ns behind it, although
    every reading discards a fraction. *)
Theorem tscclock_accuracy mult readings c : 0 <= mult < 2 ^ 32 -> ascending (tsc_base c) readings -> readings <> [] ->
  0 <= tsc_base c -> 0 <= time_base c -> final (tsc_base c) readings < 2 ^ 64 ->
  2 ^ 32 * time_base c + (final (tsc_base c) readings - tsc_base c) * mult < 2 ^ 32 * 2 ^ 63 ->
  let '(ts, c') := tsc_run mult readings c in
  let exact := (final (tsc_base c) readings - tsc_base c) * mult in
  ascending (time_base c) ts /\ final (time_base c) ts = time_base c' /\
  2 ^ 32 * (time_base c' - time_base c) <= exact < 2 ^ 32 * (time_base c' - time_base c + Z.of_nat (length readings)).
Proof.
  intros Hm Ha Hne H0 Ht0 Hl Hf. pose proof (tsc_run_ok mult Hm readings c Ha H0 Ht0 Hl Hf) as H.
  destruct (tsc_run mult readings c) as [ts c']. cbv zeta in *. destruct H as (H1 & H2 & H3). split_and!; try done; try lia.
  destruct readings; [done|]. cbn [length] in *. lia.
Qed.
Lemma tscclock_accuracy_witness :
  let '(ts, c') := tsc_run 1431655765 [100; 200; 1000] (Tsc 7 50) in
  let exact := (1000 - 50) * 1431655765 in
  ascending 7 ts /\ final 7 ts = time_base c' /\ 2 ^ 32 * (time_base c' - 7) <= exact < 2 ^ 32 * (time_base c' - 7 + 3).
Proof. apply (tscclock_accuracy 1431655765 [100; 200; 1000] (Tsc 7 50)); cbn; try split_and!; try lia; discriminate. Defined.

(** The multiplier, and the counters for which it does not fit. *)
Theorem tsc_multiplier_exact freq : 10 ^ 9 < freq < 2 ^ 64 -> exists m, tsc_multiplier freq = Some m /\
  0 <= m < 2 ^ 32 /\ m * freq <= NSEC_PER_SEC * 2 ^ 32 < (m + 1) * freq.
Proof.
  intros Hf. unfold tsc_multiplier. destruct (Z.eqb_spec freq 0); [lia|]. rewrite Z.shiftl_mul_pow2 by lia.
  unfold u64. rewrite (Z.mod_small (NSEC_PER_SEC * 2 ^ 32)) by (unfold NSEC_PER_SEC; lia).
  set (m := NSEC_PER_SEC * 2 ^ 32 / freq). eexists. split; [reflexivity|].
  assert (Hm : 0 <= m < 2 ^ 32) by (unfold m, NSEC_PER_SEC; split; [apply Z.div_pos; lia|apply Z.div_lt_upper_bound; lia]).
  unfold u32. rewrite Z.mod_small by done. split; [done|].
  pose proof (Z.div_mod (NSEC_PER_SEC * 2 ^ 32) freq). pose proof (Z.mod_pos_bound (NSEC_PER_SEC * 2 ^ 32) freq). fold m in H. lia.
Qed.
Theorem tsc_multiplier_slow : tsc_multiplier (10 ^ 9) = Some 0.
Proof. reflexivity. Qed.

(** ** Waiting *)
(** Programming the interval timer: when the deadline is far enough away
    the two bytes written encode a count whose period, the counter's extra tick
    included, is between 16 and 65535 ticks and ends no later than the
    deadline; otherwise the call returns at once or spins. *)
Theorem cpu_block_not_late spldepth now until : 0 < spldepth -> - 2 ^ 62 <= now < 2 ^ 62 -> - 2 ^ 62 <= until < 2 ^ 62 ->
  exists r, bmk_platform_cpu_block spldepth now until = Some r /\
  match r with
  | BLate => until <= now
  | BSpin => now < until < now + 13500
  | BSleep lo hi => 0 <= lo < 256 /\ 0 <= hi < 256 /\ PIT_MIN_DELTA <= hi * 256 + lo + 1 <= 65535 /\
      (hi * 256 + lo + 1) * NSEC_PER_SEC <= (until - now) * TIMER_HZ
  end.
Proof.
  intros Hs Hn Hu. unfold bmk_platform_cpu_block. assert ((0 <? spldepth) = true) as -> by lia. cbn [negb].
  destruct (Z.leb_spec until now); [by eexists|].
  assert (s64 (until - now) = until - now) as -> by (unfold s64, swrap; rewrite Z.mod_small; lia).
  assert (u64 (until - now) = until - now) as -> by (unfold u64; rewrite Z.mod_small; lia).
  assert (Epm : pit_mult = 5124677) by reflexivity. rewrite Epm. rewrite mul64_32_exact by lia.
  set (d := until - now) in *. set (t := d * 5124677 / 2 ^ 32).
  assert (Ht : 2 ^ 32 * t <= d * 5124677 < 2 ^ 32 * t + 2 ^ 32).
  { unfold t. pose proof (Z.div_mod (d * 5124677) (2 ^ 32)). pose proof (Z.mod_pos_bound (d * 5124677) (2 ^ 32)). lia. }
  unfold PIT_MIN_DELTA, NSEC_PER_SEC, TIMER_HZ. destruct (Z.ltb_spec t 16).
  { eexists. split; [reflexivity|]. cbv beta iota. unfold d in *. lia. }
  set (k := if 65535 <? t then 65535 else u32 t).
  assert (Hk : 16 <= k <= 65535 /\ k <= t).
  { unfold k. destruct (Z.ltb_spec 65535 t); [lia|]. unfold u32. rewrite Z.mod_small; lia. }
  eexists. split; [reflexivity|]. cbv beta iota.
  assert (Elo : Z.land (k - 1) 255 = (k - 1) mod 256) by (change 255 with (2 ^ 8 - 1); rewrite land_mask_mod by lia; done).
  assert (Ehi : u8 (Z.shiftr (k - 1) 8) = (k - 1) / 256).
  { rewrite Z.shiftr_div_pow2 by lia. unfold u8. change (2 ^ 8) with 256. apply Z.mod_small.
    split; [apply Z.div_pos; lia|apply Z.div_lt_upper_bound; lia]. }
  rewrite Elo, Ehi. pose proof (Z.div_mod (k - 1) 256). pose proof (Z.mod_pos_bound (k - 1) 256).
  assert ((k - 1) / 256 < 256) by (apply Z.div_lt_upper_bound; lia). assert (0 <= (k - 1) / 256) by (apply Z.div_pos; lia).
  split_and!; lia.
Qed.
Lemma cpu_block_not_late_witness : bmk_platform_cpu_block 1 1000 1001000 = Some (BSleep 168 4) /\
  (4 * 256 + 168 + 1) * NSEC_PER_SEC <= 1000000 * TIMER_HZ.
Proof.
  destruct (cpu_block_not_late 1 1000 1001000) as (r & E & H); [lia|lia|lia|].
  change (bmk_platform_cpu_block 1 1000 1001000) with (Some (BSleep 168 4)) in E. injection E as <-. split; [reflexivity|]. apply H.
Defined.

(** The delay over readings of a counter that counts down from [timer_rval]:
    [T k] is the time of the k-th reading in ticks. *)
Definition counter (T : Z) : Z := (- T) mod timer_rval.
Lemma s32_of_unsigned w y : 32 <= w -> - 2 ^ 31 <= y < 2 ^ 31 -> s32 (y mod 2 ^ w) = y.
Proof.
  intros Hw Hy. unfold s32, swrap. change (32 - 1) with 31.
  assert (Hd : (2 ^ 32 | 2 ^ w)) by (apply pow2_divide_le; lia).
  rewrite <- Zplus_mod_idemp_l, Z.mod_mod_divide, Zplus_mod_idemp_l by done. rewrite Z.mod_small; lia.
Qed.
Lemma delay_round_elapsed T T' rem : T < T' < T + timer_rval -> 0 <= rem < 2 ^ 30 ->
  delay_round (counter T) (counter T') rem = rem - (T' - T).
Proof.
  intros HT Hr. unfold delay_round, counter. change timer_rval with 11931 in *.
  pose proof (Z.mod_pos_bound (- T) 11931). pose proof (Z.mod_pos_bound (- T') 11931).
  assert (HE : (- T') mod 11931 = (- T) mod 11931 - (T' - T) \/ (- T') mod 11931 = (- T) mod 11931 - (T' - T) + 11931).
  { Z.to_euclidean_division_equations. nia. }
  unfold u64, u32.
  destruct (Z.ltb_spec ((- T) mod 11931) ((- T') mod 11931)); destruct HE as [HE|HE]; try lia; rewrite HE, s32_of_unsigned; lia.
Qed.

(** Times of readings, each less than one period after the one before. *)
Fixpoint ticking (T : Z) (l : list Z) : Prop :=
  match l with [] => True | T' :: l => T < T' < T + timer_rval /\ ticking T' l end.
Lemma delay_loop_elapsed N T0 l : forall T, ticking T l -> 1 - timer_rval < N - (T - T0) < 2 ^ 30 -> N - 1 <= final T l - T0 ->
  exists T' post, delay_loop (counter T) (N - (T - T0)) (map counter l) = (N - (T' - T0), post) /\
    N - 1 <= T' - T0 /\ (T' = T \/ T' - T0 < N - 1 + timer_rval).
Proof.
  induction l as [|T1 l IH]; intros T Ht Hr Hf; cbn [map delay_loop final] in *; (destruct (Z.leb_spec (N - (T - T0)) 1);
    [exists T; eexists; split; [reflexivity|lia]|]).
  - lia.
  - destruct Ht as [HT Ht]. rewrite delay_round_elapsed by lia.
    replace (N - (T - T0) - (T1 - T)) with (N - (T1 - T0)) by lia.
    destruct (IH T1 Ht) as (T' & post & E & H'); [lia|done|]. exists T', post. split; [done|]. lia.
Qed.
(** The calibration delay: for a counter that is read more than once per
    period, the loop ends at a reading at which at least the requested time has
    passed (but for one tick), and less than one period more, wrap-arounds of
    the counter included. *)
Theorem i8254_delay_elapsed n T0 l : 0 <= n <= 10 ^ 6 -> ticking T0 l ->
  let N := n * TIMER_HZ / 1000000 in
  N - 1 <= final T0 l - T0 ->
  exists rem post elapsed, i8254_delay n (counter T0) (map counter l) = (rem, post) /\ rem = N - elapsed /\ N - 1 <= elapsed < Z.max 0 (N - 1) + timer_rval.
Proof.
  intros Hn Ht N HN. unfold i8254_delay. assert (HNr : 0 <= N <= 1193182).
  { unfold N, TIMER_HZ. split; [apply Z.div_pos; lia|]. apply Z.div_le_upper_bound; lia. }
  assert (u64 (n * TIMER_HZ) = n * TIMER_HZ) as -> by (unfold u64, TIMER_HZ; rewrite Z.mod_small; lia). fold N.
  assert (s32 N = N) as -> by (unfold s32, swrap; rewrite Z.mod_small; lia).
  destruct (delay_loop_elapsed N T0 l T0 Ht) as (T' & post & E & H'); [change timer_rval with 11931; lia|done|].
  replace (N - (T0 - T0)) with N in E by lia. exists (N - (T' - T0)), post, (T' - T0). change timer_rval with 11931 in *. split_and!; try done; lia.
Qed.
Lemma i8254_delay_elapsed_witness :
  exists rem post elapsed, i8254_delay 10000 (counter 5) (map counter [8000; 16000]) = (rem, post) /\ rem = 11931 - elapsed /\
    11930 <= elapsed < 11930 + 11931.
Proof.
  apply (i8254_delay_elapsed 10000 5 [8000; 16000]); [lia|vm_compute; split_and!; reflexivity|vm_compute; discriminate].
Defined.

(** ** The paravirtual clock *)
(** What has been read so far is what the structure holds, while its version is
    the one the reader has seen. *)
Definition pv_agree (ti : pvti) (r : pvreader) : Prop :=
  match pr_pc r with
  | PvVersion | PvStamp => True
  | PvShift1 => pr_stamp r = pv_tsc_timestamp ti
  | PvShift2 => pr_stamp r = pv_tsc_timestamp ti /\ pr_shift1 r = pv_shift ti
  | PvMul => pr_stamp r = pv_tsc_timestamp ti /\ pr_shift1 r = pv_shift ti /\ pr_shift2 r = pv_shift ti
  | PvBase => pr_stamp r = pv_tsc_timestamp ti /\ pr_shift1 r = pv_shift ti /\ pr_shift2 r = pv_shift ti /\ pr_mul r = pv_mul ti
  | _ => pr_stamp r = pv_tsc_timestamp ti /\ pr_shift1 r = pv_shift ti /\ pr_shift2 r = pv_shift ti /\ pr_mul r = pv_mul ti /\
         pr_base r = pv_system_time ti
  end.
(** What was published at the even versions. *)
Definition publish (pub : Z -> pvti) (sh : pvshared) : Z -> pvti :=
  if Z.odd (pvs_version sh) then pub else fun v => if v =? pvs_version sh then pvs_ti sh else pub v.
Inductive pv_reach : (Z -> pvti) -> pvshared -> pvreader -> Prop :=
| pv_start ti : pv_reach (fun _ => ti) (PvShared 0 ti) (PvReader PvVersion 0 0 0 0 0 0 0)
| pv_next pub sh r a sh' r' : pv_reach pub sh r -> pv_step a sh r = Some (sh', r') -> pv_reach (publish pub sh') sh' r'.

Record pv_inv (pub : Z -> pvti) (sh : pvshared) (r : pvreader) : Prop := {
  pv_pub : Z.odd (pvs_version sh) = false -> pub (pvs_version sh) = pvs_ti sh;
  pv_seen : pr_pc r <> PvVersion -> pr_version r <= pvs_version sh;
  pv_same : pr_pc r <> PvVersion -> pr_pc r <> PvDone -> pr_version r = pvs_version sh -> Z.odd (pr_version r) = false -> pv_agree (pvs_ti sh) r;
  pv_test : pr_pc r = PvTest2 -> pr_version r = pvs_version sh -> Z.odd (pr_version r) = false;
  pv_done : pr_pc r = PvDone -> Z.odd (pr_version r) = false /\ pv_agree (pub (pr_version r)) r }.

Lemma publish_here pub sh : Z.odd (pvs_version sh) = false -> publish pub sh (pvs_version sh) = pvs_ti sh.
Proof. intros H. unfold publish. by rewrite H, Z.eqb_refl. Qed.
Lemma publish_old pub sh v : v < pvs_version sh -> publish pub sh v = pub v.
Proof. intros H. unfold publish. destruct (Z.odd (pvs_version sh)); [done|]. by destruct (Z.eqb_spec v (pvs_version sh)); [lia|]. Qed.
Lemma publish_same pub sh v : (Z.odd (pvs_version sh) = false -> pub (pvs_version sh) = pvs_ti sh) -> publish pub sh v = pub v.
Proof. intros H. unfold publish. destruct (Z.odd (pvs_version sh)); [done|]. destruct (Z.eqb_spec v (pvs_version sh)) as [->|]; [|done]. by rewrite H. Qed.

Lemma pv_read_inv pub sh r tsc : pv_inv pub sh r -> pv_inv (publish pub sh) sh (pv_read tsc sh r).
Proof.
  intros [H1 H2 H3 H4 H5].
  assert (Hp : forall v, publish pub sh v = pub v) by (intros v; by apply publish_same).
  destruct r as [pc rv tsc0 st s1 s2 mu ba]. cbn in *.
  split; [by rewrite Hp| | | |].
  all: destruct pc; cbn in *; unfold pv_agree in *; cbn in *; rewrite ?Hp; intros; try congruence; try lia; try (apply H2; congruence).
  all: try (destruct (Z.odd (pvs_version sh)) eqn:Eo; cbn in *; try congruence; try (apply H2; congruence)).
  all: try (destruct (Z.eqb_spec (pvs_version sh) rv) as [Ev|Ev]; cbn in *; try congruence; try (apply H2; congruence)).
  all: try (split_and!; try done; apply H3; done || congruence).
  all: try (intuition congruence).
  all: assert (Ho : Z.odd rv = false) by (by apply H4); subst rv; try congruence; try (rewrite H1 by done; split; [done|by apply H3]).
Qed.

(** The hypervisor moves on to the next version. *)
Lemma pv_advance_inv pub sh r : pv_inv pub sh r -> let sh' := PvShared (pvs_version sh + 1) (pvs_ti sh) in pv_inv (publish pub sh') sh' r.
Proof.
  intros [H1 H2 H3 H4 H5] sh'. split; cbn [sh' pvs_version pvs_ti].
  - intros Ho. exact (publish_here pub sh' Ho).
  - intros Hpc. specialize (H2 Hpc). lia.
  - intros Hpc _ E. specialize (H2 Hpc). lia.
  - intros Hpc E. specialize (H2 ltac:(congruence)). lia.
  - intros Hpc. rewrite publish_old; [auto|]. specialize (H2 ltac:(congruence)). cbn. lia.
Qed.
Lemma pv_step_inv pub sh r a sh' r' : pv_inv pub sh r -> pv_step a sh r = Some (sh', r') -> pv_inv (publish pub sh') sh' r'.
Proof.
  intros Hinv E. destruct a as [tsc| |ti|]; cbn in E; [injection E as <- <-; by apply pv_read_inv|..].
  all: destruct (Z.odd (pvs_version sh)) eqn:Eo; try done; injection E as <- <-; try by apply pv_advance_inv.
  destruct Hinv as [H1 H2 H3 H4 H5]. unfold publish. cbn [pvs_version]. rewrite Eo. split; cbn [pvs_version pvs_ti]; try done; [congruence|].
  intros ?? E ?. rewrite E in *. congruence.
Qed.
Lemma pv_reach_inv pub sh r : pv_reach pub sh r -> pv_inv pub sh r.
Proof. induction 1; [by split|by eapply pv_step_inv]. Qed.

(** The paravirtual clock is read consistently: however the hypervisor's
    updates of the structure (version made odd, fields written one after the
    other, version made even) interleave with the reader's accesses, when the
    loop ends the time is computed from the fields of one published state, the
    one of the even version the reader saw. *)
Theorem pvclock_consistent pub sh r : pv_reach pub sh r -> pr_pc r = PvDone ->
  Z.odd (pr_version r) = false /\ pr_version r <= pvs_version sh /\ pv_result r = pv_scale (pub (pr_version r)) (pr_tsc r).
Proof.
  intros [_ H2 _ _ H5]%pv_reach_inv Hpc. destruct (H5 Hpc) as [Ho Ha]. split_and!; [done|apply H2; congruence|].
  unfold pv_agree in Ha. rewrite Hpc in Ha. destruct Ha as (E1 & E2 & E3 & E4 & E5). unfold pv_result, pv_scale. by rewrite E1, E2, E3, E4, E5.
Qed.
Lemma pvclock_consistent_witness : exists pub sh r,
  pv_reach pub sh r /\ pr_version r = 2 /\ pv_result r = pv_scale (pub 2) (pr_tsc r).
Proof.
  set (old := Pvti 5 7 1 0). set (new := Pvti 100 200 2147483648 1).
  set (acts := [VRead 0; VBegin; VRead 110; VWrite new; VRead 0; VRead 0; VEnd; VRead 0; VRead 0; VRead 0; VRead 0;
                VRead 0; VRead 120; VRead 0; VRead 0; VRead 0; VRead 0; VRead 0; VRead 0]).
  assert (H : forall l pub sh r, pv_reach pub sh r -> forall sh' r',
    foldl (fun o a => match o with Some (sh, r) => pv_step a sh r | None => None end) (Some (sh, r)) l = Some (sh', r') ->
    exists pub', pv_reach pub' sh' r').
  { induction l as [|a l IH]; intros pub sh r Hr sh' r' E; cbn in E; [injection E as <- <-; eauto|].
    destruct (pv_step a sh r) as [[sh1 r1]|] eqn:E1; [|exfalso; clear -E; induction l; cbn in E; auto; discriminate].
    eapply IH; [eapply pv_next; [exact Hr|exact E1]|exact E]. }
  destruct (H acts _ _ _ (pv_start old) (PvShared 2 new) (PvReader PvDone 2 120 100 1 1 2147483648 200) eq_refl) as [pub Hr].
  exists pub, (PvShared 2 new), (PvReader PvDone 2 120 100 1 1 2147483648 200). split_and!; [exact Hr|reflexivity|].
  exact (proj2 (proj2 (pvclock_consistent _ _ _ Hr eq_refl))).
Defined.

(** ** One time for all CPUs *)
Inductive mono_reach : monosys -> Prop :=
| mono_init n : mono_reach (MonoSys 0 (replicate n (MonoIdle, 0%nat)) [])
| mono_next a s s' : mono_reach s -> mono_step a s = Some s' -> mono_reach s'.

(** The calls that had returned before a call began returned at most [x]. *)
Definition before_le (ret : list (nat * Z)) (n0 : nat) (x : Z) : Prop := (n0 <= length ret)%nat /\ Forall (fun c => c.2 <= x) (take n0 ret).
Record mono_inv (s : monosys) : Prop := {
  mo_le : Forall (fun c => c.2 <= monotonic_value s) (mono_returned s);
  mo_ret : Forall (fun c => before_le (mono_returned s) c.1 c.2) (mono_returned s);
  mo_run : Forall (fun th => (th.2 <= length (mono_returned s))%nat /\
    match th.1 with MonoCas time value => value < time /\ before_le (mono_returned s) th.2 value | _ => True end) (mono_threads s) }.

Lemma before_le_snoc ret c n0 x : before_le ret n0 x -> before_le (ret ++ [c]) n0 x.
Proof. intros [Hn Hf]. split; [rewrite length_app; lia|]. by rewrite take_app_le. Qed.
Lemma before_le_all ret n0 x : (n0 <= length ret)%nat -> Forall (fun c => c.2 <= x) ret -> before_le ret n0 x.
Proof. intros Hn Hf. split; [done|]. by apply Forall_take. Qed.

(** A call returns [x], and the shared value becomes [g]. *)
Lemma mono_return s t n0 x g : mono_inv s -> before_le (mono_returned s) n0 x -> monotonic_value s <= g -> x <= g ->
  mono_inv (MonoSys g (<[t := (MonoIdle, n0)]> (mono_threads s)) (mono_returned s ++ [(n0, x)])).
Proof.
  intros [H1 H2 H3] Hb Hg Hx. split; cbn.
  - apply Forall_app; split; [eapply Forall_impl; [exact H1|]; intros; cbn in *; lia|]. by constructor.
  - apply Forall_app; split; [eapply Forall_impl; [exact H2|]; intros c Hc; by apply before_le_snoc|].
    constructor; [|constructor]. by apply before_le_snoc.
  - apply Forall_insert; [|split; [rewrite length_app; cbn; destruct Hb; lia|done]].
    eapply Forall_impl; [exact H3|]. intros [pc n] [Hn Hpc]. cbn in *. rewrite length_app. split; [lia|].
    destruct pc; try done. destruct Hpc as [? ?]. split; [done|by apply before_le_snoc].
Qed.
Lemma mono_update s t pc n0 : mono_inv s -> (n0 <= length (mono_returned s))%nat ->
  match pc with MonoCas time value => value < time /\ before_le (mono_returned s) n0 value | _ => True end ->
  mono_inv (MonoSys (monotonic_value s) (<[t := (pc, n0)]> (mono_threads s)) (mono_returned s)).
Proof. intros [H1 H2 H3] Hn Hpc. split; cbn; [done|done|]. by apply Forall_insert. Qed.
Lemma mono_test_inv s t time n0 : mono_inv s -> (n0 <= length (mono_returned s))%nat ->
  mono_inv (mono_test t time (monotonic_value s) n0 (monotonic_value s) s).
Proof.
  intros Hinv Hn. unfold mono_test. assert (Hb : before_le (mono_returned s) n0 (monotonic_value s)) by (apply before_le_all; [done|apply Hinv]).
  destruct (Z.leb_spec time (monotonic_value s)); [by apply mono_return|]. by apply mono_update.
Qed.
Lemma mono_step_inv a s s' : mono_inv s -> mono_step a s = Some s' -> mono_inv s'.
Proof.
  intros Hinv E. destruct a as [t time|t spurious]; cbn in E; destruct (mono_threads s !! t) as [[pc n0]|] eqn:Et; try done.
  - destruct pc; try done. injection E as <-. by apply mono_update.
  - pose proof Hinv as [H1 H2 H3]. rewrite Forall_lookup in H3. destruct (H3 _ _ Et) as [Hn Hpc]. cbn in *.
    destruct pc as [|time|time value]; try done; [injection E as <-; by apply mono_test_inv|].
    destruct Hpc as [Hlt Hb]. destruct ((monotonic_value s =? value) && negb spurious) eqn:Ec; injection E as <-; [|by apply mono_test_inv].
    apply andb_prop in Ec as [Ec _]. apply mono_return; try lia; [done|]. destruct Hb as [Hb1 Hb2]. split; [done|].
    eapply Forall_impl; [exact Hb2|]. cbn. lia.
Qed.
Lemma mono_reach_inv s : mono_reach s -> mono_inv s.
Proof.
  induction 1 as [n|]; [|by eapply mono_step_inv]. split; cbn; [constructor|constructor|].
  apply Forall_replicate. cbn. split; [lia|done].
Qed.

(** The clock does not run backwards across CPUs: however the loads and
    compare-and-swaps of any number of concurrent calls interleave (spurious
    failures included), and whatever times the CPUs read themselves, a call that
    begins after another has returned never returns an earlier time. *)
Theorem pvclock_monotonic_calls s i j n0 r m0 r' : mono_reach s ->
  mono_returned s !! i = Some (n0, r) -> mono_returned s !! j = Some (m0, r') -> (j < n0)%nat -> r' <= r.
Proof.
  intros [_ H2 _]%mono_reach_inv Hi Hj Hlt. rewrite Forall_lookup in H2. destruct (H2 _ _ Hi) as [_ Hf]. cbn in Hf.
  rewrite Forall_lookup in Hf. specialize (Hf j (m0, r')). cbn in Hf. apply Hf. by rewrite lookup_take_lt.
Qed.
Lemma pvclock_monotonic_calls_witness : 100 <= 100.
Proof.
  apply (pvclock_monotonic_calls (MonoSys 100 [(MonoIdle, 0%nat); (MonoIdle, 1%nat)] [(0%nat, 100); (1%nat, 100)]) 1 0 1 100 0 100); try reflexivity; [|lia].
  apply (mono_next (MonoStep 1 false) (MonoSys 100 [(MonoIdle, 0%nat); (MonoLoad 90, 1%nat)] [(0%nat, 100)])); [|reflexivity].
  apply (mono_next (MonoStart 1 90) (MonoSys 100 [(MonoIdle, 0%nat); (MonoIdle, 0%nat)] [(0%nat, 100)])); [|reflexivity].
  apply (mono_next (MonoStep 0 false) (MonoSys 0 [(MonoCas 100 0, 0%nat); (MonoIdle, 0%nat)] [])); [|reflexivity].
  apply (mono_next (MonoStep 0 false) (MonoSys 0 [(MonoLoad 100, 0%nat); (MonoIdle, 0%nat)] [])); [|reflexivity].
  apply (mono_next (MonoStart 0 100) (MonoSys 0 [(MonoIdle, 0%nat); (MonoIdle, 0%nat)] [])); [apply (mono_init 2)|reflexivity].
Defined.
