(* ===== verification/Wait.v ===== *)
(** * Waiting for events on Xen (platform/xen/xen/include/mini-os/wait.h, await_event)

    Two ways to sleep until an event handler says so.  minios_wait_event checks
    its condition and then, with interrupts off, puts the thread on the wait
    queue and blocks; await_event of xenbus.c checks and queues itself under the
    lock the other side takes to post.  Each is a transition system: one step is
    what runs with interrupts off, or one access of shared data.  A thread may
    run when it is on the run queue; bmk_sched_wake puts it there, whatever the
    thread is doing. *)
From S2P Require Import Prelude.

(** ** minios_wait_event *)
Inductive wpc :=
| WCheck                       (* about to test the condition *)
| WQueue                       (* the test failed: about to join the queue *)
| WBlocked                     (* in bmk_sched_block *)
| WDone.                       (* past the loop, off the queue *)

Record wsys := WSys {
  w_pc : wpc;
  w_cond : bool;               (* the condition, once true stays true *)
  w_irq : bool;                (* the event is pending *)
  w_waiting : bool;            (* the wait_queue entry is on the list *)
  w_runq : Z                   (* entries of the thread in the run queue *)
}.

Inductive wact :=
| WThread                      (* the waiting thread *)
| WRemote                      (* the other side makes the condition true and sends the event *)
| WHandler.                    (* the event handler: minios_wake_up *)

(** [minios_wake_up]: every thread on the list is put on the run queue. *)
Definition minios_wake_up (s : wsys) : wsys :=
  WSys (w_pc s) (w_cond s) false (w_waiting s) (if w_waiting s then w_runq s + 1 else w_runq s).

Definition wait_step (a : wact) (s : wsys) : option wsys :=
  match a with
  | WRemote => Some (WSys (w_pc s) true true (w_waiting s) (w_runq s))
  | WHandler => if w_irq s then Some (minios_wake_up s) else None
  | WThread =>
      match w_pc s with
      | WCheck => Some (if w_cond s then WSys WDone true (w_irq s) false (w_runq s)
                        else WSys WQueue false (w_irq s) (w_waiting s) (w_runq s))
      | WQueue => Some (WSys WBlocked (w_cond s) (w_irq s) true (w_runq s))
      | WBlocked => if 0 <? w_runq s
                    then Some (WSys WCheck (w_cond s) (w_irq s) (w_waiting s) (w_runq s - 1)) else None
      | WDone => None
      end
  end.

Definition wait_start : wsys := WSys WCheck false false false 0.
Inductive wait_reach : wsys -> Prop :=
| wait_reach_start : wait_reach wait_start
| wait_reach_step a s s' : wait_reach s -> wait_step a s = Some s' -> wait_reach s'.

(** ** await_event *)
Inductive apc := ACheck | ABlocked | AGot.
Record asys := ASys {
  a_pc : apc;
  a_events : Z;                (* events in the queue *)
  a_waiting : bool;
  a_runq : Z
}.

Inductive aact := AThread | APost.

(** One pass through the section of await_event that holds xenbus_req_lock, the
    return from minios_wait, and queue_event, which holds the lock too. *)
Definition await_step (a : aact) (s : asys) : option asys :=
  match a with
  | APost => Some (ASys (a_pc s) (a_events s + 1) (a_waiting s)
                        (if a_waiting s then a_runq s + 1 else a_runq s))
  | AThread =>
      match a_pc s with
      | ACheck => Some (if 0 <? a_events s then ASys AGot (a_events s - 1) false (a_runq s)
                        else ASys ABlocked (a_events s) true (a_runq s))
      | ABlocked => if 0 <? a_runq s
                    then Some (ASys ACheck (a_events s) (a_waiting s) (a_runq s - 1)) else None
      | AGot => None
      end
  end.

Definition await_start (n : Z) : asys := ASys ACheck n false 0.
Inductive await_reach (n : Z) : asys -> Prop :=
| await_reach_start : await_reach n (await_start n)
| await_reach_step a s s' : await_reach n s -> await_step a s = Some s' -> await_reach n s'.

(** * Waiting for events on Xen: theorems *)

Fixpoint wait_run (s : wsys) (l : list wact) : option wsys :=
  match l with [] => Some s | a :: l => s' ← wait_step a s; wait_run s' l end.
Lemma wait_run_reach s l s' : wait_reach s -> wait_run s l = Some s' -> wait_reach s'.
Proof.
  revert s. induction l as [|a l IH]; intros s Hs; cbn; [by intros [= <-]|].
  destruct (wait_step a s) as [t|] eqn:E; [|done]. cbn. apply IH. by eapply wait_reach_step.
Qed.

(** minios_wait_event loses wake-ups: the event may arrive, and its handler
    run, after the condition was found false and before the thread is on the
    queue.  The thread then blocks although the condition holds, and no step of
    the thread or of a handler gets it going again. *)
Theorem wait_event_lost_wakeup : exists s, wait_reach s /\
  w_pc s = WBlocked /\ w_cond s = true /\ wait_step WThread s = None /\ wait_step WHandler s = None.
Proof.
  exists (WSys WBlocked true false true 0). split; [|done].
  apply (wait_run_reach wait_start [WThread; WRemote; WHandler; WThread]); [constructor|reflexivity].
Qed.

(** Two events before the thread runs put it on the run queue twice: it leaves
    minios_wait_event with an entry still there, which will end a later, unrelated
    block of the thread early. *)
Theorem wait_event_double_wake : exists s, wait_reach s /\ w_pc s = WDone /\ w_runq s = 1.
Proof.
  exists (WSys WDone true false false 1). split; [|done].
  apply (wait_run_reach wait_start
    [WThread; WThread; WRemote; WHandler; WRemote; WHandler; WThread; WThread]); [constructor|reflexivity].
Qed.

(** ** await_event *)
Record await_inv (s : asys) : Prop := {
  ai_range : 0 <= a_events s /\ 0 <= a_runq s;
  ai_block : a_pc s = ABlocked -> a_waiting s = true;
  ai_wake : a_pc s = ABlocked -> 0 < a_events s -> 0 < a_runq s
}.

Lemma await_inv_reach n s : 0 <= n -> await_reach n s -> await_inv s.
Proof.
  intros Hn. induction 1 as [|a s s' Hr [[He Hq] Hb Hw] Hs]; [by split; cbn; [lia|..]|].
  destruct a; cbn in Hs.
  - destruct (a_pc s) eqn:Hpc; [| |done].
    + simplify_eq. destruct (Z.ltb_spec 0 (a_events s)); split; cbn; try done; lia.
    + destruct (Z.ltb_spec 0 (a_runq s)); [|done]. simplify_eq. split; cbn; try done; lia.
  - simplify_eq. split; cbn; [destruct (a_waiting s); lia|done|].
    intros Hpc _. rewrite (Hb Hpc). lia.
Qed.

(** await_event loses no wake-up: in every interleaving with any number of
    posts, a thread asleep with an event in its queue is on the run queue, so its
    next step is enabled and leads back to the test, which finds the event. *)
Theorem await_event_no_lost_wakeup n s : 0 <= n -> await_reach n s ->
  a_pc s = ABlocked -> 0 < a_events s ->
  exists s1 s2, await_step AThread s = Some s1 /\ await_step AThread s1 = Some s2 /\ a_pc s2 = AGot.
Proof.
  intros Hn Hr Hpc He. destruct (await_inv_reach n s Hn Hr) as [_ _ Hw]. specialize (Hw Hpc He).
  unfold await_step. rewrite Hpc, (proj2 (Z.ltb_lt 0 (a_runq s)) Hw). eexists _, _.
  split; [reflexivity|]. cbn. rewrite (proj2 (Z.ltb_lt 0 (a_events s)) He). by split.
Qed.

Lemma await_event_no_lost_wakeup_witness :
  exists s1 s2, await_step AThread (ASys ABlocked 1 true 1) = Some s1 /\
    await_step AThread s1 = Some s2 /\ a_pc s2 = AGot.
Proof.
  apply (await_event_no_lost_wakeup 0); [lia| |done|done].
  apply (await_reach_step 0 APost (ASys ABlocked 0 true 0)); [|reflexivity].
  apply (await_reach_step 0 AThread (await_start 0)); [apply await_reach_start|reflexivity].
Defined.
