(* ===== verification/ByteRing.v ===== *)
(** * Byte rings

    Arrays of bytes shared between a producer and a consumer with free-running
    32-bit positions: checked copies into and out of the array, and the array
    read as the window of a byte stream.  The XenStore client and the console
    use them. *)
From S2P Require Import Prelude.

(** Copies into and out of an array of the given bytes, checked. *)
Definition array_write (arr : list Z) (off : Z) (bs : list Z) : option (list Z) :=
  if (0 <=? off) && (off + zlen bs <=? zlen arr)
  then Some (take (Z.to_nat off) arr ++ bs ++ drop (Z.to_nat off + length bs) arr) else None.
Definition array_read (arr : list Z) (off n : Z) : option (list Z) :=
  if (0 <=? off) && (0 <=? n) && (off + n <=? zlen arr)
  then Some (take (Z.to_nat n) (drop (Z.to_nat off) arr)) else None.

(** ** Byte rings

    [rget r n i]: the byte at stream position [i] of a ring of [n] bytes;
    [window r n a k]: the [k] bytes from position [a] on. *)
Definition rget (r : list Z) (n i : Z) : Z := r !!! Z.to_nat (i mod n).
Definition window (r : list Z) (n a k : Z) : list Z := rget r n <$> seqZ a k.

Section Ring.
Context (n : Z) (Hn : 0 < n).
Implicit Types r bs : list Z.

Lemma window_length r a k : 0 <= k -> zlen (window r n a k) = k.
Proof. intros. unfold window. rewrite length_fmap, length_seqZ. lia. Qed.

Lemma window_lookup r a k i : 0 <= i < k -> window r n a k !! Z.to_nat i = Some (rget r n (a + i)).
Proof.
  intros H. unfold window. rewrite list_lookup_fmap, lookup_seqZ_lt by lia. cbn. f_equal. f_equal. lia.
Qed.

Lemma window_app r a k1 k2 : 0 <= k1 -> 0 <= k2 ->
  window r n a (k1 + k2) = window r n a k1 ++ window r n (a + k1) k2.
Proof. intros. unfold window. by rewrite seqZ_app, fmap_app. Qed.

Lemma window_ext r r' a a' k : (forall i, 0 <= i < k -> rget r n (a + i) = rget r' n (a' + i)) ->
  window r n a k = window r' n a' k.
Proof.
  intros H. apply list_eq. intros i. destruct (Z.lt_ge_cases (Z.of_nat i) k) as [Hi|Hi].
  - replace i with (Z.to_nat (Z.of_nat i)) by lia. rewrite !window_lookup by lia. f_equal. apply H. lia.
  - rewrite !lookup_ge_None_2; [done|unfold window; rewrite length_fmap, length_seqZ; lia..].
Qed.

(** Positions matter modulo the size only. *)
Lemma window_mod r a a' k : a mod n = a' mod n -> window r n a k = window r n a' k.
Proof.
  intros H. apply window_ext. intros i Hi. unfold rget. do 2 f_equal.
  rewrite (Z.add_mod a), (Z.add_mod a'), H by lia. done.
Qed.

(** A read that does not wrap. *)
Lemma array_read_window r a k : zlen r = n -> 0 <= k -> a mod n + k <= n ->
  array_read r (a mod n) k = Some (window r n a k).
Proof.
  intros Hr Hk Hle. pose proof (Z.mod_pos_bound a n Hn). unfold array_read.
  rewrite (proj2 (Z.leb_le 0 (a mod n))), (proj2 (Z.leb_le 0 k)), (proj2 (Z.leb_le _ (zlen r))) by lia.
  cbn [andb]. f_equal. apply list_eq. intros i. destruct (Z.lt_ge_cases (Z.of_nat i) k) as [Hi|Hi].
  - rewrite lookup_take_lt, lookup_drop by lia.
    replace i with (Z.to_nat (Z.of_nat i)) at 2 by lia. rewrite window_lookup by lia.
    unfold rget. assert (E : (a + Z.of_nat i) mod n = a mod n + Z.of_nat i).
    { rewrite Z.add_mod by lia. rewrite (Z.mod_small (Z.of_nat i)) by lia. apply Z.mod_small. lia. }
    rewrite E. replace (Z.to_nat (a mod n + Z.of_nat i)) with (Z.to_nat (a mod n) + i)%nat by lia.
    apply list_lookup_lookup_total_lt. lia.
  - rewrite !lookup_ge_None_2; [done|unfold window; rewrite length_fmap, length_seqZ; lia|].
    rewrite length_take. lia.
Qed.

(** A write that does not wrap: the bytes are there, all other positions of a
    lap keep theirs. *)
Lemma array_write_ring r a bs : zlen r = n -> a mod n + zlen bs <= n ->
  exists r', array_write r (a mod n) bs = Some r' /\ zlen r' = n /\
    window r' n a (zlen bs) = bs /\
    forall i, zlen bs <= (i - a) mod n -> rget r' n i = rget r n i.
Proof.
  intros Hr Hle. pose proof (Z.mod_pos_bound a n Hn). unfold array_write.
  rewrite (proj2 (Z.leb_le 0 (a mod n))), (proj2 (Z.leb_le _ (zlen r))) by lia. cbn [andb].
  eexists. split; [reflexivity|]. split_and!.
  - rewrite !length_app, length_take, length_drop. lia.
  - apply list_eq. intros i. destruct (Z.lt_ge_cases (Z.of_nat i) (zlen bs)) as [Hi|Hi].
    + replace i with (Z.to_nat (Z.of_nat i)) at 1 by lia. rewrite window_lookup by lia. unfold rget.
      assert (E : (a + Z.of_nat i) mod n = a mod n + Z.of_nat i).
      { rewrite Z.add_mod by lia. rewrite (Z.mod_small (Z.of_nat i)) by lia. apply Z.mod_small. lia. }
      rewrite E. destruct (lookup_lt_is_Some_2 bs i ltac:(lia)) as [x Hx]. rewrite Hx. f_equal.
      apply list_lookup_total_correct. rewrite lookup_app_r by (rewrite length_take; lia).
      rewrite length_take, lookup_app_l by lia. rewrite <- Hx. f_equal. lia.
    + rewrite !lookup_ge_None_2; [done|lia|unfold window; rewrite length_fmap, length_seqZ; lia].
  - intros i Hi. unfold rget. pose proof (Z.mod_pos_bound i n Hn) as Hin.
    assert (Hcase : i mod n < a mod n \/ a mod n + zlen bs <= i mod n).
    { rewrite Zminus_mod in Hi. destruct (Z.lt_ge_cases (i mod n) (a mod n)); [by left|right].
      rewrite Z.mod_small in Hi by lia. lia. }
    clear Hi. rewrite !list_lookup_total_alt. f_equal.
    destruct Hcase as [Hc|Hc].
    + rewrite lookup_app_l by (rewrite length_take; lia). by rewrite lookup_take_lt by lia.
    + rewrite lookup_app_r by (rewrite length_take; lia). rewrite length_take.
      rewrite lookup_app_r by lia. rewrite lookup_drop. f_equal. lia.
Qed.

(** Appending at the producer's end, without wrapping, behind [k] bytes. *)
Lemma ring_append r cons k bs : zlen r = n -> 0 <= k -> k + zlen bs <= n ->
  (cons + k) mod n + zlen bs <= n ->
  exists r', array_write r ((cons + k) mod n) bs = Some r' /\ zlen r' = n /\
    window r' n cons (k + zlen bs) = window r n cons k ++ bs.
Proof using Hn.
  intros Hr Hk Hle Hw.
  destruct (array_write_ring r (cons + k) bs Hr Hw) as (r' & E & Hl & Hb & Hold).
  exists r'. split_and!; [done..|]. rewrite window_app by lia. f_equal; [|done].
  apply window_ext. intros i Hi. apply Hold.
  replace (cons + i - (cons + k)) with ((i - k + n) + (-1) * n) by lia.
  rewrite Z.mod_add, Z.mod_small by lia. lia.
Qed.
End Ring.

(** ** Positions *)
Lemma u32_mod_divides n x : 0 < n -> (n | 2 ^ 32) -> u32 x mod n = x mod n.
Proof.
  intros Hn [q Hq]. unfold u32. rewrite Hq.
  rewrite (Z.mul_comm q), Z.rem_mul_r by (try lia; destruct (Z.lt_trichotomy q 0) as [|[->|]]; lia).
  rewrite Z.add_mod, Z.mul_comm, Z.mod_mul, Z.add_0_r, !Z.mod_mod by lia. done.
Qed.
Lemma u32_idem x : u32 (u32 x) = u32 x.
Proof. unfold u32. apply Z.mod_mod. lia. Qed.
Lemma u32_range x : 0 <= u32 x < 2 ^ 32.
Proof. unfold u32. apply Z.mod_pos_bound. lia. Qed.
Lemma u32_id x : 0 <= x < 2 ^ 32 -> u32 x = x.
Proof. unfold u32. apply Z.mod_small. Qed.
Lemma u32_add_l a b : u32 (u32 a + b) = u32 (a + b).
Proof. unfold u32. rewrite Zplus_mod_idemp_l. done. Qed.
Lemma u32_add_r a b : u32 (a + u32 b) = u32 (a + b).
Proof. unfold u32. rewrite Zplus_mod_idemp_r. done. Qed.
Lemma u32_sub_l a b : u32 (u32 a - b) = u32 (a - b).
Proof. unfold u32. rewrite Zminus_mod_idemp_l. done. Qed.
Lemma u32_sub_r a b : u32 (a - u32 b) = u32 (a - b).
Proof. unfold u32. rewrite Zminus_mod_idemp_r. done. Qed.
