(* ===== verification/Console.v ===== *)
(** * The Xen console (platform/xen/xen/console/xencons_ring.c, console.c)

    Output goes byte by byte into a ring that the console daemon in another
    domain empties; input comes through a second ring in the same page and is
    echoed.  The layout of the page (struct xencons_interface of io/console.h,
    not part of the repository) is the class [XenCons].  The daemon is a
    parameter: how many bytes it is ready to take at each point where the code
    looks at its position. *)
From S2P Require Import Prelude CString Kprintf CText ByteRing.

(** What the code relies on of io/console.h: ring sizes that are powers of two,
    the mask macro, and [out] directly behind [in]. *)
Class XenCons := {
  in_size : Z; out_size : Z;
  MASK_XENCONS_IDX : Z -> Z -> Z;          (* position, sizeof(ring) *)
  in_size_pow2 : exists k, 0 <= k <= 30 /\ in_size = 2 ^ k;
  out_size_pow2 : exists k, 0 <= k <= 30 /\ out_size = 2 ^ k;
  mask_cons_mod : forall i n, 0 <= i -> (exists k, 0 <= k <= 30 /\ n = 2 ^ k) -> MASK_XENCONS_IDX i n = i mod n
}.

(** [struct xencons_interface]. *)
Record consif := CI {
  ci_in : list Z; ci_out : list Z;
  in_cons : Z; in_prod : Z; out_cons : Z; out_prod : Z
}.

(** [ring]: the page, None when the domain has no console channel; [xen_log]: what
    went to the hypervisor's own console; [tick] counts the daemon's turns and
    [taken] is what it has read. *)
Record cs := Cs {
  ring : option consif;
  console_initialised : bool;
  xen_log : list Z;
  tick : Z;
  taken : list Z;
  notified : Z
}.

Definition set_ring (r : consif) (s : cs) : cs :=
  Cs (Some r) (console_initialised s) (xen_log s) (tick s) (taken s) (notified s).
Definition set_out (o : list Z) (r : consif) : consif := CI (ci_in r) o (in_cons r) (in_prod r) (out_cons r) (out_prod r).
Definition set_out_prod (p : Z) (r : consif) : consif := CI (ci_in r) (ci_out r) (in_cons r) (in_prod r) (out_cons r) p.

Section Console.
Context `{C : XenCons}.
Variable daemon : Z -> Z.

(** The daemon reads. *)
Definition daemon_turn : M cs unit := modify (fun s =>
  match ring s with
  | None => Cs None (console_initialised s) (xen_log s) (tick s + 1) (taken s) (notified s)
  | Some r =>
      let n := Z.min (Z.max 0 (daemon (tick s))) (u32 (out_prod r - out_cons r)) in
      Cs (Some (CI (ci_in r) (ci_out r) (in_cons r) (in_prod r) (u32 (out_cons r + n)) (out_prod r)))
         (console_initialised s) (xen_log s) (tick s + 1) (taken s ++ window (ci_out r) out_size (out_cons r) n) (notified s)
  end).
Definition notify_daemon : M cs unit := modify (fun s =>
  Cs (ring s) (console_initialised s) (xen_log s) (tick s) (taken s) (notified s + 1)).
(** [xencons_interface()], dereferenced. *)
Definition the_ring : M cs consif := s <-- mget ;; mopt (ring s) "interface".

(** ** Sending *)
Definition send_round (data : list Z) (cons : Z) (l : Z * Z) : M cs ((Z * Z) + (Z * Z)) :=
  let '(prod, sent) := l in
  if (sent <? zlen data) && (u32 (prod - cons) <? out_size) then
    c <-- mopt (data !! Z.to_nat sent) "data" ;;
    r <-- the_ring ;;
    o <-- mopt (array_write (ci_out r) (MASK_XENCONS_IDX prod out_size) [c]) "intf->out" ;;
    modify (set_ring (set_out o r)) ;;;
    cret (inl (u32 (prod + 1), sent + 1))
  else cret (inr (prod, sent)).

(** How many bytes were sent. *)
Definition xencons_ring_send_no_notify (data : list Z) : M cs Z :=
  daemon_turn ;;;
  s <-- mget ;;
  match ring s with
  | None => cret 0
  | Some r =>
      let cons := out_cons r in
      massert (negb (out_size <? u32 (out_prod r - cons))) "BUG_ON((prod - cons) > sizeof(intf->out))" ;;;
      '(prod, sent) <-- loopM (send_round data cons) (out_prod r, 0) ;;
      r <-- the_ring ;;
      modify (set_ring (set_out_prod prod r)) ;;;
      cret sent
  end.

Definition ring_send_round (data : list Z) (sent : Z) : M cs (Z + Z) :=
  if sent <? zlen data then
    part <-- xencons_ring_send_no_notify (drop (Z.to_nat sent) data) ;;
    notify_daemon ;;;
    cret (inl (sent + part))
  else cret (inr sent).
Definition xencons_ring_send (data : list Z) : M cs Z :=
  sent <-- loopM (ring_send_round data) 0 ;;
  massert (sent =? zlen data) "ASSERT(sent == len)" ;;;
  cret sent.

(** ** Printing *)

(** [*(p + i)] and its assignment for the local array. *)
Definition arr_get (a : list Z) (i : Z) : M cs Z := mopt (if 0 <=? i then a !! Z.to_nat i else None) "copied_str".
Definition arr_set (a : list Z) (i v : Z) : M cs (list Z) :=
  _ <-- arr_get a i ;; cret (<[Z.to_nat i := v]> a).
Definition arr_part (a : list Z) (i n : Z) : M cs (list Z) := mopt (array_read a i n) "copied_str".

(** One turn of the loop over the characters; the loop keeps the array, [curr_char],
    [copied_ptr] and [length]. *)
Definition print_round (ring_send_fn : list Z -> M cs Z) (l : list Z * Z * Z * Z) :
    M cs ((list Z * Z * Z * Z) + (list Z * Z * Z)) :=
  let '(a, curr, copied, len) := l in
  if negb (curr <? copied + len - 1) then cret (inr (a, copied, len)) else
  c <-- arr_get a curr ;;
  if c =? 10 then
    a <-- arr_set a curr 13 ;;
    saved_char <-- arr_get a (curr + 1) ;;
    a <-- arr_set a (curr + 1) 10 ;;
    let part_len := curr - copied + 2 in
    part <-- arr_part a copied part_len ;;
    ring_send_fn part ;;;
    a <-- arr_set a (curr + 1) saved_char ;;
    cret (inl (a, curr + 1, curr + 1, len - (part_len - 1)))
  else cret (inl (a, curr + 1, copied, len)).

(** The array has one byte more than the text; it is never read before it is
    written, here it is 0. *)
Definition minios_console_print (data : list Z) : M cs unit :=
  s <-- mget ;;
  let ring_send_fn := if console_initialised s then xencons_ring_send else xencons_ring_send_no_notify in
  '(a, copied, len) <-- loopM (print_round ring_send_fn) (data ++ [0], 0, 0, zlen data) ;;
  c <-- arr_get a (copied + len - 1) ;;
  '(a, len) <--
    (if c =? 10 then a <-- arr_set a (copied + len - 1) 13 ;; a <-- arr_set a (copied + len) 10 ;; cret (a, len + 1)
     else cret (a, len)) ;;
  part <-- arr_part a copied len ;;
  sent <-- ring_send_fn part ;;
  massert (negb (console_initialised s) || (sent =? len))
    "ASSERT(ring_send_fn == xencons_ring_send_no_notify || sent == length)".

(** [HYPERVISOR_console_io(CONSOLEIO_write, ...)]. *)
Definition console_io (text : list Z) : M cs unit := modify (fun s =>
  Cs (ring s) (console_initialised s) (xen_log s ++ text) (tick s) (taken s) (notified s)).

(** [print], with USE_XEN_CONSOLE as it is built. *)
Definition print (direct : bool) (fmt : list Z) (args : list varg) : M cs unit :=
  '(_, text) <-- lift_res (sprint 1024 fmt args) ;;
  console_io text ;;;
  if direct then cret tt else minios_console_print text.
Definition minios_printk (fmt : list Z) (args : list varg) : M cs unit := print false fmt args.
Definition xprintk (fmt : list Z) (args : list varg) : M cs unit := print true fmt args.
Definition minios_putc (c : Z) : M cs unit := minios_printk (lit "%c") [VInt c].

(** ** Input *)

(** A byte of the page, [in] first and [out] behind it. *)
Definition page_get (r : consif) (i : Z) : option Z := (ci_in r ++ ci_out r) !! Z.to_nat i.
Definition page_set (r : consif) (i v : Z) : consif :=
  let p := <[Z.to_nat i := v]> (ci_in r ++ ci_out r) in
  CI (take (length (ci_in r)) p) (drop (length (ci_in r)) p) (in_cons r) (in_prod r) (out_cons r) (out_prod r).

(** [xencons_rx(buf, 1, regs)], [buf] at offset [i] of the page. *)
Definition xencons_rx (i : Z) : M cs unit :=
  r <-- the_ring ;;
  modify (set_ring (page_set r (i + 1) 0)) ;;;
  r <-- the_ring ;;
  text <-- lift_res (str_of (drop (Z.to_nat i) (ci_in r ++ ci_out r))) ;;
  minios_printk (lit "%s") [VStr (Some (text ++ [0]))] ;;;
  r <-- the_ring ;;
  c <-- mopt (page_get r i) "buf" ;;
  if c =? 13 then minios_printk (10 :: lit "No console input handler." ++ [10]) [] else cret tt.

Definition input_round (prod : Z) (cons : Z) : M cs (Z + Z) :=
  if cons =? prod then cret (inr cons) else
  xencons_rx (MASK_XENCONS_IDX cons in_size) ;;; cret (inl (u32 (cons + 1))).
Definition console_handle_input : M cs unit :=
  r <-- the_ring ;;
  massert (negb (in_size <? u32 (in_prod r - in_cons r))) "BUG_ON((prod - cons) > sizeof(intf->in))" ;;;
  cons <-- loopM (input_round (in_prod r)) (in_cons r) ;;
  r <-- the_ring ;;
  modify (set_ring (CI (ci_in r) (ci_out r) cons (in_prod r) (out_cons r) (out_prod r))) ;;;
  notify_daemon.

(** ** Starting up *)

(** [err] is what minios_bind_evtchn returns. *)
Definition xencons_ring_init (err : Z) : M cs unit :=
  s <-- mget ;;
  match ring s with
  | None => cret tt
  | Some _ =>
      if err <=? 0 then minios_printk (lit "XEN console request chn bind failed %i" ++ [10]) [VInt err]
      else notify_daemon
  end.
Definition init_console (err : Z) : M cs unit :=
  minios_printk (lit "Initialising console ... ") [] ;;;
  xencons_ring_init err ;;;
  modify (fun s => Cs (ring s) true (xen_log s) (tick s) (taken s) (notified s)) ;;;
  minios_printk (lit "done." ++ [10]) [].
End Console.

(** * Theorems *)
Section Output.
Context `{C : XenCons}.
Variable daemon : Z -> Z.

Lemma out_pos : 0 < out_size.
Proof. destruct out_size_pow2 as (k & Hk & ->). apply Z.pow_pos_nonneg; lia. Qed.
Lemma out_bound : out_size <= 2 ^ 30.
Proof. destruct out_size_pow2 as (k & Hk & ->). apply Z.pow_le_mono_r; lia. Qed.
Lemma out_divides : (out_size | 2 ^ 32).
Proof. destruct out_size_pow2 as (k & Hk & ->). apply pow2_divide_le. lia. Qed.

(** The page is what the two sides agreed on. *)
Record page_ok (r : consif) : Prop := {
  pk_in : zlen (ci_in r) = in_size;
  pk_out : zlen (ci_out r) = out_size;
  pk_cons : 0 <= out_cons r < 2 ^ 32;
  pk_prod : 0 <= out_prod r < 2 ^ 32;
  pk_used : u32 (out_prod r - out_cons r) <= out_size
}.
Definition used (r : consif) : Z := u32 (out_prod r - out_cons r).
Definition pending (r : consif) : list Z := window (ci_out r) out_size (out_cons r) (used r).
(** Everything ever printed: what the daemon has and what it will find. *)
Definition output (s : cs) : list Z := taken s ++ match ring s with Some r => pending r | None => [] end.

(** What sending leaves alone. *)
Definition same_input (r r' : consif) : Prop :=
  ci_in r' = ci_in r /\ in_cons r' = in_cons r /\ in_prod r' = in_prod r.
Record sends (bs : list Z) (s s' : cs) : Prop := {
  sn_ring : exists r r', ring s = Some r /\ ring s' = Some r' /\ page_ok r' /\ same_input r r';
  sn_out : output s' = output s ++ bs;
  sn_init : console_initialised s' = console_initialised s;
  sn_log : xen_log s' = xen_log s;
  sn_tick : tick s <= tick s'
}.

Lemma sends_trans b1 b2 s1 s2 s3 : sends b1 s1 s2 -> sends b2 s2 s3 -> sends (b1 ++ b2) s1 s3.
Proof.
  intros [(r & r' & E1 & E2 & Hk & (H1 & H2 & H3)) Ho Hi Hl Ht] [(q & q' & F1 & F2 & Gk & (G1 & G2 & G3)) Go Gi Gl Gt].
  simplify_eq. split; [|by rewrite Go, Ho, app_assoc|congruence|congruence|lia].
  exists r, q'. split_and!; [done..|]. split_and!; congruence.
Qed.
Lemma sends_nil s r : ring s = Some r -> page_ok r -> sends [] s s.
Proof. intros E Hk. split; [|by rewrite app_nil_r|done|done|lia]. exists r, r. done. Qed.

Lemma daemon_turn_sends s r : ring s = Some r -> page_ok r ->
  wp (daemon_turn daemon) (fun _ s' => sends [] s s' /\ tick s' = tick s + 1 /\ exists r', ring s' = Some r' /\
    used r' = used r - Z.min (Z.max 0 (daemon (tick s))) (used r)) s.
Proof.
  intros E [Hi Ho Hc Hp Hu]. apply wp_modify. rewrite E. fold (used r).
  set (n := Z.min (Z.max 0 (daemon (tick s))) (used r)).
  pose proof (u32_range (out_prod r - out_cons r)) as Hr. fold (used r) in *.
  assert (Hn : 0 <= n <= used r) by lia.
  assert (Hd : u32 (out_prod r - u32 (out_cons r + n)) = used r - n).
  { rewrite u32_sub_r. replace (out_prod r - (out_cons r + n)) with ((out_prod r - out_cons r) - n) by lia.
    rewrite <- u32_sub_l. fold (used r). apply u32_id. lia. }
  split; [|split; [done|]].
  - split; cbn [ring taken console_initialised xen_log tick]; [|..|done|done|lia].
    + eexists r, _. split_and!; [done|done| |done].
      split; cbn; [done|done|apply u32_range|done|]. rewrite Hd. lia.
    + unfold output. cbn. rewrite E, app_nil_r, <- app_assoc. f_equal.
      unfold pending, used at 1. cbn. rewrite Hd.
      rewrite (window_mod out_size out_pos _ (u32 (out_cons r + n)) (out_cons r + n)).
      2:{ apply u32_mod_divides; [apply out_pos|apply out_divides]. }
      rewrite <- window_app by lia. f_equal. lia.
  - eexists. split; [done|]. unfold used at 1. cbn. exact Hd.
Qed.

(** ** The ring writer *)
Section Loop.
Variables (data : list Z) (s0 : cs) (r0 : consif).
Hypothesis Hring : ring s0 = Some r0.
Hypothesis Hpage : page_ok r0.

Definition send_inv (l : Z * Z) (s : cs) : Prop := exists o,
  s = set_ring (set_out o r0) s0 /\ zlen o = out_size /\ 0 <= l.2 <= zlen data /\ used r0 + l.2 <= out_size /\
  l.1 = u32 (out_cons r0 + (used r0 + l.2)) /\
  window o out_size (out_cons r0) (used r0 + l.2) = pending r0 ++ take (Z.to_nat l.2) data.

Lemma used_range : 0 <= used r0 < 2 ^ 32.
Proof. unfold used. apply u32_range. Qed.

Lemma wp_send_round l s : send_inv l s ->
  wp (send_round data (out_cons r0) l) (fun r s' => match r with
    | inl l' => send_inv l' s' /\ 0 <= zlen data - l'.2 < zlen data - l.2
    | inr x => x = l /\ send_inv l s' /\ l.2 = Z.min (zlen data) (out_size - used r0) end) s.
Proof using Hring Hpage.
  pose proof out_pos as Hpos. pose proof out_bound as Hb. pose proof used_range as Hur.
  destruct l as [prod sent]. intros (o & -> & Ho & Hs & Hf & Hp & Hw). cbn [fst snd] in *.
  assert (Hd : u32 (prod - out_cons r0) = used r0 + sent).
  { rewrite Hp, u32_sub_l. replace (out_cons r0 + (used r0 + sent) - out_cons r0) with (used r0 + sent) by lia.
    apply u32_id. change (2 ^ 30) with 1073741824 in *. lia. }
  unfold send_round. rewrite Hd.
  destruct (Z.ltb_spec sent (zlen data)); cbn [andb].
  2:{ apply wp_ret. split_and!; [done| |lia]. exists o. split_and!; try done; cbn; lia. }
  destruct (Z.ltb_spec (used r0 + sent) out_size).
  2:{ apply wp_ret. split_and!; [done| |lia]. exists o. split_and!; try done; cbn; lia. }
  destruct (lookup_lt_is_Some_2 data (Z.to_nat sent)) as [c Hc]; [lia|].
  apply wp_bind, (wp_opt _ _ c); [done|]. apply wp_bind. unfold the_ring. apply wp_bind, wp_get, (wp_opt _ _ (set_out o r0)); [done|].
  assert (Hm : MASK_XENCONS_IDX prod out_size = (out_cons r0 + (used r0 + sent)) mod out_size).
  { rewrite mask_cons_mod; [|rewrite Hp; apply u32_range|apply out_size_pow2].
    rewrite Hp. apply u32_mod_divides; [done|apply out_divides]. }
  destruct (ring_append out_size Hpos o (out_cons r0) (used r0 + sent) [c] Ho ltac:(lia) ltac:(cbn; lia)) as (o' & E & Ho' & Hw').
  { pose proof (Z.mod_pos_bound (out_cons r0 + (used r0 + sent)) out_size Hpos). cbn. lia. }
  apply wp_bind, (wp_opt _ _ o'); [by rewrite Hm|]. apply wp_bind, wp_modify, wp_ret. cbn [snd].
  split; [|lia]. exists o'. cbn [fst snd]. split_and!; [done|done|lia|lia|lia| |].
  - rewrite Hp, u32_add_l. f_equal. lia.
  - replace (used r0 + (sent + 1)) with (used r0 + sent + zlen [c]) by (cbn; lia). rewrite Hw', Hw, <- app_assoc.
    f_equal. replace (Z.to_nat (sent + 1)) with (S (Z.to_nat sent)) by lia. by rewrite (take_S_r _ _ c).
Qed.

Lemma wp_send_loop : zlen data < 2 ^ 31 ->
  wp (loopM (send_round data (out_cons r0)) (out_prod r0, 0)) (fun x s' =>
    send_inv x s' /\ x.2 = Z.min (zlen data) (out_size - used r0)) s0.
Proof using Hring Hpage.
  intros Hlen. pose proof used_range. pose proof Hpage as [Hi Ho Hc Hp Hu].
  apply wp_loop with (I := send_inv) (meas := fun l _ => zlen data - l.2).
  - intros l t HI. split; [destruct HI as (o & _ & _ & ? & _); lia|].
    eapply wp_mono; [by apply wp_send_round|]. intros [l'|x] t' H'; [done|]. by destruct H' as (-> & ? & ?).
  - exists (ci_out r0). cbn [fst snd]. rewrite Z.add_0_r. split_and!; [|done|lia|lia|exact Hu| |by rewrite app_nil_r].
    + destruct s0, r0; cbn in *; by simplify_eq.
    + unfold used. rewrite u32_add_r. replace (out_cons r0 + (out_prod r0 - out_cons r0)) with (out_prod r0) by lia.
      by rewrite u32_id.
  - cbn [snd]. lia.
Qed.
End Loop.

(** [sent] is what fits behind what is there after the daemon's turn. *)
Lemma wp_send_no_notify data s r : ring s = Some r -> page_ok r -> zlen data < 2 ^ 31 ->
  wp (xencons_ring_send_no_notify daemon data) (fun sent s' =>
    sends (take (Z.to_nat sent) data) s s' /\ tick s' = tick s + 1 /\ exists n,
    0 <= n <= used r /\ (0 < daemon (tick s) -> 0 < used r -> 0 < n) /\
    sent = Z.min (zlen data) (out_size - (used r - n))) s.
Proof.
  intros E Hk Hlen. pose proof out_pos. unfold xencons_ring_send_no_notify. apply wp_bind.
  eapply wp_mono; [by eapply daemon_turn_sends|]. intros [] s1 (Hs & Ht & r1 & E1 & Hu).
  apply wp_bind, wp_get. rewrite E1.
  assert (Hk1 : page_ok r1). { destruct Hs as [(q & q' & _ & F & G & _) _ _ _ _]. rewrite E1 in F. by simplify_eq. }
  pose proof Hk1 as [Hi1 Ho1 Hc1 Hp1 Hu1].
  apply wp_bind, wp_assert; [rewrite (proj2 (Z.ltb_ge _ _)); [done|exact Hu1]|].
  apply wp_bind. eapply wp_mono; [by apply wp_send_loop|].
  intros [prod sent] t ((o & -> & Ho & Hn & Hf & Hp & Hw) & Hm). cbn [fst snd] in *.
  apply wp_bind. unfold the_ring. apply wp_bind, wp_get, (wp_opt _ _ (set_out o r1)); [done|].
  apply wp_bind, wp_modify, wp_ret. pose proof (used_range r1) as Hur. pose proof out_bound.
  assert (Hd : u32 (prod - out_cons r1) = used r1 + sent).
  { rewrite Hp, u32_sub_l. replace (out_cons r1 + (used r1 + sent) - out_cons r1) with (used r1 + sent) by lia.
    apply u32_id. change (2 ^ 30) with 1073741824 in *. lia. }
  split; [|split; [done|]].
  - apply (sends_trans [] _ s s1); [done|]. split; [| |done|done|cbn; lia].
    + eexists r1, _. split_and!; [done|done| |done]. split; cbn; try done; [rewrite Hp; apply u32_range|lia].
    + unfold output. cbn. rewrite E1. cbn. rewrite <- app_assoc. f_equal.
      unfold pending at 1, used at 1. cbn. by rewrite Hd.
  - exists (Z.min (Z.max 0 (daemon (tick s))) (used r)). pose proof (used_range r). lia.
Qed.

(** ** Sending everything *)
Section Fair.
(** Whenever one looks, the daemon will be ready within [B] turns. *)
Variable B : Z.
Hypothesis HB : 0 < B <= 2 ^ 31.
Hypothesis fair : forall t, exists d, 0 <= d < B /\ 0 < daemon (t + d).

Definition page_state (s : cs) : Prop := exists r, ring s = Some r /\ page_ok r.

Lemma sends_page b s s' : sends b s s' -> page_state s'.
Proof. intros [(r & r' & _ & E & H & _) _ _ _ _]. by exists r'. Qed.

Lemma sends_notify s : page_state s -> wp notify_daemon (fun _ s' => sends [] s s' /\ tick s' = tick s) s.
Proof.
  intros (r & E & Hk). apply wp_modify. split; [|done]. split; [|by rewrite app_nil_r|done|done|cbn; lia].
  by exists r, r.
Qed.

(** How far the loop is: bytes to go, and turns until the daemon is ready. *)
Definition togo (data : list Z) (s0 : cs) (sent : Z) (s : cs) (k : Z) : Prop :=
  page_state s /\ 0 <= sent <= zlen data /\ sends (take (Z.to_nat sent) data) s0 s /\
  exists d, 0 <= d < B /\ 0 < daemon (tick s + d) /\ k = (zlen data - sent) * B + d.

Lemma wp_ring_send_round data s0 sent s k : zlen data < 2 ^ 31 -> togo data s0 sent s k -> 0 <= k /\
  wp (ring_send_round daemon data sent) (fun x s' => match x with
    | inl sent' => exists k', togo data s0 sent' s' k' /\ 0 <= k' < k
    | inr n => n = zlen data /\ sends data s0 s' end) s.
Proof using HB fair.
  intros Hlen ((r & E & Hk) & Hs & Hsnd & d & Hd & Hday & ->). split; [nia|]. unfold ring_send_round.
  destruct (Z.ltb_spec sent (zlen data)) as [Hlt|Hge].
  2:{ apply wp_ret. replace (Z.to_nat sent) with (length data) in Hsnd by lia. rewrite firstn_all in Hsnd. split; [lia|done]. }
  apply wp_bind. eapply wp_mono; [apply (wp_send_no_notify _ s r); [done..|rewrite length_drop; lia]|].
  intros part s1 (H1 & Ht1 & n & Hn & Hday' & Hpart). rewrite length_drop in Hpart.
  apply wp_bind. eapply wp_mono; [apply sends_notify; by eapply sends_page|].
  intros [] s2 [H2 Ht2]. apply wp_ret.
  pose proof (sends_trans _ _ _ _ _ Hsnd (sends_trans _ _ _ _ _ H1 H2)) as H3. rewrite app_nil_r in H3.
  assert (Hrange : 0 <= part <= zlen data - sent). { destruct Hk as [_ _ _ _ Hu]. fold (used r) in Hu. lia. }
  assert (H3' : sends (take (Z.to_nat (sent + part)) data) s0 s2).
  { replace (Z.to_nat (sent + part)) with (Z.to_nat sent + Z.to_nat part)%nat by lia. by rewrite take_take_drop in H3. }
  destruct (Z.eq_dec part 0) as [-> | Hne].
  - assert (d <> 0). { intros ->. rewrite Z.add_0_r in Hday. pose proof (used_range r). destruct Hk as [_ _ _ _ Hu]. fold (used r) in Hu. pose proof out_pos. lia. }
    exists ((zlen data - sent) * B + (d - 1)). split; [|nia]. rewrite Z.add_0_r in *. split_and!; [by eapply sends_page|lia|lia|done|].
    exists (d - 1). split_and!; [lia|lia| |lia]. by replace (tick s2 + (d - 1)) with (tick s + d) by lia.
  - destruct (fair (tick s2)) as (d' & Hd' & Hday2).
    exists ((zlen data - (sent + part)) * B + d'). split; [|nia]. split_and!; [by eapply sends_page|lia|lia|done|]. by exists d'.
Qed.

Lemma wp_ring_send data s : page_state s -> zlen data < 2 ^ 31 ->
  wp (xencons_ring_send daemon data) (fun n s' => n = zlen data /\ sends data s s') s.
Proof using HB fair.
  intros Hp Hlen. unfold xencons_ring_send. apply wp_bind. destruct (fair (tick s)) as (d & Hd & Hday).
  eapply wp_mono.
  - apply wp_loop_variant with (I := togo data s) (Q := fun n s' => n = zlen data /\ sends data s s')
      (k := (zlen data - 0) * B + d).
    + intros l t k. by apply wp_ring_send_round.
    + destruct Hp as (r & E & Hk). split_and!; [by exists r|lia|lia|by eapply sends_nil|]. by exists d.
    + change (2 ^ 31) with 2147483648 in *. change (2 ^ 64) with 18446744073709551616. nia.
  - intros n s' [-> H]. apply wp_bind, wp_assert; [by rewrite Z.eqb_refl|]. by apply wp_ret.
Qed.

(** ** Newlines *)
Definition crlf (data : list Z) : list Z := concat (map (fun c => if c =? 10 then [13; 10] else [c]) data).
Lemma crlf_app d1 d2 : crlf (d1 ++ d2) = crlf d1 ++ crlf d2.
Proof. unfold crlf. by rewrite map_app, concat_app. Qed.
Lemma crlf_plain d : Forall (fun c => c <> 10) d -> crlf d = d.
Proof. induction 1 as [|c d Hc Hd IH]; [done|]. unfold crlf in *. cbn. by rewrite (proj2 (Z.eqb_neq _ _) Hc), IH. Qed.

(** The array at a place that is in it. *)
Lemma wp_arr_get l1 c l2 i Q s : i = zlen l1 -> Q c s -> wp (arr_get (l1 ++ c :: l2) i) Q s.
Proof.
  intros -> HQ. unfold arr_get. rewrite (proj2 (Z.leb_le _ _)) by lia.
  apply (wp_opt _ _ c); [|done]. rewrite Nat2Z.id. by apply list_lookup_middle.
Qed.
Lemma wp_arr_set l1 c v l2 i Q s : i = zlen l1 -> Q (l1 ++ v :: l2) s -> wp (arr_set (l1 ++ c :: l2) i v) Q s.
Proof.
  intros -> HQ. unfold arr_set. apply wp_bind, wp_arr_get; [done|]. apply wp_ret.
  rewrite Nat2Z.id, insert_app_r_alt, Nat.sub_diag by lia. done.
Qed.
Lemma wp_arr_part l1 l2 l3 i n Q s : i = zlen l1 -> n = zlen l2 -> Q l2 s -> wp (arr_part (l1 ++ l2 ++ l3) i n) Q s.
Proof.
  intros -> -> HQ. unfold arr_part. apply (wp_opt _ _ l2); [|done]. unfold array_read.
  rewrite !length_app, !(proj2 (Z.leb_le _ _)) by lia. cbn [andb]. rewrite !Nat2Z.id, drop_app_length, take_app_length. done.
Qed.

Section Print.
Variables (fn : list Z -> M cs Z) (data : list Z) (s0 : cs).
Hypothesis fn_sends : forall part s, page_state s -> zlen part < 2 ^ 31 ->
  wp (fn part) (fun n s' => n = zlen part /\ sends part s s') s.
Hypothesis Hlen : zlen data < 2 ^ 30.

Definition print_inv (l : list Z * Z * Z * Z) (s : cs) : Prop := exists d1 pre mid rest x,
  data = d1 ++ mid ++ rest /\ length pre = length d1 /\ Forall (fun c => c <> 10) mid /\ rest <> [] /\
  l = (pre ++ mid ++ rest ++ [x], zlen pre + zlen mid, zlen pre, zlen mid + zlen rest) /\
  page_state s /\ sends (crlf d1) s0 s.

Lemma wp_print_round l s : print_inv l s ->
  wp (print_round fn l) (fun r s' => match r with
    | inl l' => print_inv l' s' /\ 0 <= zlen data - l'.1.1.2 < zlen data - l.1.1.2
    | inr x => exists pre mid d1 c y, x = (pre ++ mid ++ [c; y], zlen pre, zlen mid + 1) /\ data = d1 ++ mid ++ [c] /\
        Forall (fun c => c <> 10) mid /\ page_state s' /\ sends (crlf d1) s0 s' end) s.
Proof using fn_sends Hlen.
  intros (d1 & pre & mid & rest & x & Hd & Hpre & Hmid & Hne & -> & Hp & Hs).
  unfold print_round. cbn [fst snd].
  assert (Hz : zlen data = zlen pre + zlen mid + zlen rest) by (rewrite Hd, !length_app; lia).
  destruct rest as [|c [|c2 rest]]; [done| |].
  - rewrite (proj2 (Z.ltb_ge _ _)) by (cbn; lia). cbn [negb]. apply wp_ret.
    exists pre, mid, d1, c, x. split_and!; [done|done|done|done|done].
  - rewrite (proj2 (Z.ltb_lt _ _)) by (cbn; lia). cbn [negb].
    replace (pre ++ mid ++ (c :: c2 :: rest) ++ [x]) with ((pre ++ mid) ++ c :: c2 :: rest ++ [x]) by (by rewrite <- app_assoc).
    assert (Hi : zlen pre + zlen mid = zlen (pre ++ mid)) by (rewrite length_app; lia).
    apply wp_bind, wp_arr_get; [done|]. destruct (Z.eqb_spec c 10) as [-> | Hc].
    2:{ apply wp_ret. cbn [fst snd]. split; [|cbn in *; lia].
        exists d1, pre, (mid ++ [c]), (c2 :: rest), x. split_and!; try done.
        - rewrite Hd, <- !app_assoc. done.
        - apply Forall_app. split; [done|by apply Forall_singleton].
        - rewrite <- !app_assoc, !length_app. cbn [length app]. f_equal; [f_equal; f_equal|]; lia. }
    assert (Hi1 : zlen pre + zlen mid + 1 = zlen ((pre ++ mid) ++ [13])) by (rewrite !length_app; cbn; lia).
    apply wp_bind, wp_arr_set; [done|].
    rewrite (app_assoc (pre ++ mid) [13] (c2 :: rest ++ [x])) || change ((pre ++ mid) ++ 13 :: c2 :: rest ++ [x]) with ((pre ++ mid) ++ [13] ++ c2 :: rest ++ [x]); rewrite (app_assoc (pre ++ mid) [13]).
    apply wp_bind, wp_arr_get; [done|]. apply wp_bind, wp_arr_set; [done|].
    apply wp_bind.
    replace (((pre ++ mid) ++ [13]) ++ 10 :: rest ++ [x]) with (pre ++ (mid ++ [13; 10]) ++ rest ++ [x]) by (by rewrite <- !app_assoc).
    apply wp_arr_part; [done|rewrite length_app; cbn; lia|].
    apply wp_bind. eapply wp_mono; [apply fn_sends; [done|rewrite length_app; cbn in *; lia]|].
    intros n s1 [_ H1]. apply wp_bind.
    replace (pre ++ (mid ++ [13; 10]) ++ rest ++ [x]) with (((pre ++ mid) ++ [13]) ++ 10 :: rest ++ [x]) by (by rewrite <- !app_assoc).
    apply wp_arr_set; [done|]. apply wp_ret. cbn [fst snd]. split; [|cbn in *; lia].
    exists (d1 ++ mid ++ [10]), ((pre ++ mid) ++ [13]), [], (c2 :: rest), x. split_and!; try done.
    + rewrite Hd, <- !app_assoc. done.
    + rewrite !length_app. cbn. lia.
    + rewrite !length_app. cbn [length app]. f_equal; [f_equal; [f_equal|]|]; lia.
    + by eapply sends_page.
    + rewrite !crlf_app, (crlf_plain mid) by done. change (crlf [10]) with [13; 10]. by eapply sends_trans.
Qed.
End Print.

Lemma wp_console_print data s : console_initialised s = true -> page_state s -> data <> [] -> zlen data < 2 ^ 30 ->
  wp (minios_console_print daemon data) (fun _ s' => sends (crlf data) s s') s.
Proof using HB fair.
  intros Hinit Hp Hne Hlen. unfold minios_console_print. apply wp_bind, wp_get. rewrite Hinit.
  pose proof wp_ring_send as Hfn. apply wp_bind. eapply wp_mono.
  { apply wp_loop with (I := print_inv data s) (meas := fun l _ => zlen data - l.1.1.2)
      (Q := fun x s' => exists pre mid d1 c y, x = (pre ++ mid ++ [c; y], zlen pre, zlen mid + 1) /\ data = d1 ++ mid ++ [c] /\
        Forall (fun c => c <> 10) mid /\ page_state s' /\ sends (crlf d1) s s').
    - intros l t HI. split; [|by apply wp_print_round].
      destruct HI as (d1 & pre & mid & rest & x & -> & Hl & _ & _ & -> & _). cbn. rewrite !length_app. lia.
    - exists [], [], [], data, 0. destruct Hp as (r & E & Hk). split_and!; try done; [by exists r|by eapply sends_nil].
    - cbn. lia. }
  intros [[a copied] len] s1 (pre & mid & d1 & c & y & [= -> -> ->] & Hd & Hmid & Hp1 & Hs1).
  assert (Hz : zlen data = zlen d1 + zlen mid + 1) by (rewrite Hd, !length_app; cbn; lia).
  replace (pre ++ mid ++ [c; y]) with ((pre ++ mid) ++ c :: [y]) by (by rewrite <- app_assoc).
  assert (Hi : zlen pre + (zlen mid + 1) - 1 = zlen (pre ++ mid)) by (rewrite length_app; lia).
  apply wp_bind, wp_arr_get; [done|]. apply wp_bind.
  assert (Hend : forall a len part, crlf (mid ++ [c]) = part -> len = zlen part -> (exists l3, a = pre ++ part ++ l3) ->
    wp (part <-- arr_part a (zlen pre) len ;; sent <-- xencons_ring_send daemon part ;;
      massert (negb true || (sent =? len)) "ASSERT(ring_send_fn == xencons_ring_send_no_notify || sent == length)")
      (fun _ s' => sends (crlf data) s s') s1).
  { intros a len part Hpart -> (l3 & ->). apply wp_bind, wp_arr_part; [done|done|].
    assert (Hpl : zlen part < 2 ^ 31).
    { rewrite <- Hpart, crlf_app, (crlf_plain mid), length_app by done. unfold crlf. cbn. destruct (c =? 10); cbn; lia. }
    apply wp_bind. eapply wp_mono; [by apply Hfn|]. intros n s2 [-> H2]. apply wp_assert; [cbn; by rewrite Z.eqb_refl|].
    rewrite Hd, crlf_app, Hpart. by eapply sends_trans. }
  destruct (Z.eqb_spec c 10) as [-> | Hc].
  - apply wp_bind, wp_arr_set; [done|]. apply wp_bind.
    change ((pre ++ mid) ++ [13; y]) with ((pre ++ mid) ++ [13] ++ y :: []). rewrite (app_assoc (pre ++ mid) [13]).
    apply wp_arr_set; [rewrite !length_app; cbn; lia|]. apply wp_ret.
    apply (Hend _ _ (mid ++ [13; 10])); [by rewrite crlf_app, crlf_plain|rewrite length_app; cbn; lia|].
    exists []. by rewrite <- !app_assoc.
  - apply wp_ret. apply (Hend _ _ (mid ++ [c])); [|rewrite length_app; cbn; lia|exists [y]; by rewrite <- !app_assoc].
    apply crlf_plain, Forall_app. split; [done|by apply Forall_singleton].
Qed.

Lemma wp_printk fmt args rv text s : console_initialised s = true -> page_state s ->
  sprint 1024 fmt args = Done (rv, text) -> text <> [] -> zlen text < 2 ^ 30 ->
  wp (minios_printk daemon fmt args) (fun _ s' => exists r r', ring s = Some r /\ ring s' = Some r' /\ page_ok r' /\
    same_input r r' /\ output s' = output s ++ crlf text /\ xen_log s' = xen_log s ++ text /\
    console_initialised s' = true) s.
Proof using HB fair.
  intros Hinit Hp E Hne Hlen. unfold minios_printk, print. apply wp_bind.
  eapply run_wp; [unfold lift_res; by rewrite E|]. apply wp_bind, wp_modify.
  eapply wp_mono; [apply wp_console_print; done|].
  intros [] s' [(r & r' & E1 & E2 & Hk & Hsi) Ho Hi Hl _]. exists r, r'. cbn in *. split_and!; try done. congruence.
Qed.

(** C28. What is printed arrives: with the console up and a daemon that is ready
    now and then, minios_printk returns, the daemon's stream (what it has read
    and what waits for it in the ring) grows by exactly the text with a carriage
    return before every newline, whatever the ring held, and the hypervisor's
    log by the text itself. *)
Theorem console_printk_delivers fmt args rv text s :
  console_initialised s = true -> page_state s ->
  sprint 1024 fmt args = Done (rv, text) -> text <> [] -> zlen text < 2 ^ 30 ->
  wp (minios_printk daemon fmt args) (fun _ s' => page_state s' /\
    output s' = output s ++ crlf text /\ xen_log s' = xen_log s ++ text) s.
Proof using HB fair.
  intros Hi Hp E Hne Hlen. eapply wp_mono; [by eapply wp_printk|].
  intros [] s' (r & r' & _ & E2 & Hk & _ & Ho & Hl & _). split_and!; [by exists r'|done|done].
Qed.

(** ** Input *)
Lemma page_set_in r i v : page_ok r -> 0 <= i < in_size ->
  page_set r i v = CI (<[Z.to_nat i := v]> (ci_in r)) (ci_out r) (in_cons r) (in_prod r) (out_cons r) (out_prod r).
Proof.
  intros [Hi Ho _ _ _] H. unfold page_set. rewrite insert_app_l by lia.
  rewrite <- (length_insert (ci_in r) (Z.to_nat i) v) at 1. rewrite take_app_length.
  rewrite <- (length_insert (ci_in r) (Z.to_nat i) v). by rewrite drop_app_length.
Qed.
Lemma page_set_out r v : page_ok r ->
  page_set r in_size v = CI (ci_in r) (<[0%nat := v]> (ci_out r)) (in_cons r) (in_prod r) (out_cons r) (out_prod r).
Proof.
  intros [Hi Ho _ _ _]. unfold page_set. rewrite insert_app_r_alt by lia.
  replace (Z.to_nat in_size - length (ci_in r))%nat with 0%nat by lia. by rewrite take_app_length, drop_app_length.
Qed.

Lemma echo_text c : 0 < c < 256 -> sprint 1024 (lit "%s") [VStr (Some [c; 0])] = Done (1, [c]).
Proof.
  intros H.
  assert (Hall : forallb (fun c => match sprint 1024 (lit "%s") [VStr (Some [c; 0])] with
      Done (1, [d]) => d =? c | _ => false end) (seqZ 1 255) = true) by (by vm_compute).
  rewrite forallb_forall in Hall. specialize (Hall c).
  rewrite <- list_elem_of_In, elem_of_seqZ in Hall. specialize (Hall ltac:(lia)).
  destruct (sprint 1024 (lit "%s") [VStr (Some [c; 0])]) as [[[|[| |]|] [|d [|? ?]]]| |]; try done.
  apply Z.eqb_eq in Hall. by subst d.
Qed.
Definition no_handler : list Z := 10 :: lit "No console input handler." ++ [10].
Lemma no_handler_text : sprint 1024 no_handler [] = Done (27, no_handler).
Proof. by vm_compute. Qed.

(** One character, its successor in the ring being overwritten. *)
Definition echo (c : Z) : list Z := crlf [c] ++ (if c =? 13 then crlf no_handler else []).
Lemma wp_xencons_rx i c r s : console_initialised s = true -> ring s = Some r -> page_ok r ->
  0 <= i -> i + 1 < in_size -> ci_in r !! Z.to_nat i = Some c -> 0 < c < 256 ->
  wp (xencons_rx daemon i) (fun _ s' => console_initialised s' = true /\ output s' = output s ++ echo c /\ exists r',
    ring s' = Some r' /\ page_ok r' /\ ci_in r' = <[Z.to_nat (i + 1) := 0]> (ci_in r) /\
    in_cons r' = in_cons r /\ in_prod r' = in_prod r) s.
Proof using HB fair.
  intros Hinit E Hk H0 Hi Hc Hcb. unfold xencons_rx, the_ring.
  apply wp_bind, wp_bind, wp_get, (wp_opt _ _ r); [done|]. apply wp_bind, wp_modify.
  rewrite page_set_in by (done || lia). set (r1 := CI _ _ _ _ _ _).
  assert (Hk1 : page_ok r1). { destruct Hk as [a b d e f]. split; cbn; try done. by rewrite length_insert. }
  apply wp_bind, wp_bind, wp_get, (wp_opt _ _ r1); [done|].
  assert (Hin1 : ci_in r1 !! Z.to_nat i = Some c) by (cbn; rewrite list_lookup_insert_ne by lia; done).
  assert (Hin2 : ci_in r1 !! S (Z.to_nat i) = Some 0).
  { cbn. replace (Z.to_nat (i + 1)) with (S (Z.to_nat i)) by lia. apply list_lookup_insert_eq. destruct Hk. lia. }
  apply wp_bind.
  assert (Hstr : str_of (drop (Z.to_nat i) (ci_in r1 ++ ci_out r1)) = Done [c]).
  { rewrite drop_app_le by (apply lookup_lt_Some in Hin1; lia).
    rewrite (drop_S _ _ _ Hin1), (drop_S _ _ _ Hin2). unfold str_of. cbn.
    rewrite (proj2 (Z.eqb_neq c 0)) by lia. done. }
  eapply run_wp; [unfold lift_res; by rewrite Hstr|]. cbn [app].
  apply wp_bind. eapply wp_mono; [apply (wp_printk _ _ 1 [c]); [done|by exists r1|by apply echo_text|done|done]|].
  intros [] s2 (q & r2 & [= <-] & E2 & Hk2 & (Hsi & Hsc & Hsp) & Ho2 & _ & Hi2).
  apply wp_bind, wp_bind, wp_get, (wp_opt _ _ r2); [done|]. apply wp_bind, (wp_opt _ _ c).
  { unfold page_get. rewrite lookup_app_l by (rewrite Hsi; apply lookup_lt_Some in Hin1; done). by rewrite Hsi. }
  assert (Hout : output (set_ring r1 s) = output s) by (unfold output; cbn; rewrite E; done).
  unfold echo. destruct (c =? 13).
  - eapply wp_mono; [apply (wp_printk _ _ 27 no_handler); [done|by exists r2|apply no_handler_text|done|done]|].
    intros [] s3 (q & r3 & Eq & E3 & Hk3 & (Hti & Htc & Htp) & Ho3 & _ & Hi3). rewrite E2 in Eq. injection Eq as <-.
    split_and!; [done|by rewrite Ho3, Ho2, Hout, app_assoc|]. exists r3. split_and!; try done; by (rewrite Hti, Hsi || rewrite Htc, Hsc || rewrite Htp, Hsp).
  - apply wp_ret. split_and!; [done|by rewrite Ho2, Hout, app_nil_r|]. exists r2. done.
Qed.

Lemma in_pos : 0 < in_size.
Proof. destruct in_size_pow2 as (k & Hk & ->). apply Z.pow_pos_nonneg; lia. Qed.
Lemma in_mask i : 0 <= i -> MASK_XENCONS_IDX i in_size = i mod in_size.
Proof. intros H. apply mask_cons_mod; [done|apply in_size_pow2]. Qed.

(** The start of the handler. *)
Lemma wp_input_start Q s r : ring s = Some r -> page_ok r -> u32 (in_prod r - in_cons r) <= in_size ->
  wp (cons <-- loopM (input_round daemon (in_prod r)) (in_cons r) ;;
      r <-- the_ring ;;
      modify (set_ring (CI (ci_in r) (ci_out r) cons (in_prod r) (out_cons r) (out_prod r))) ;;; notify_daemon) Q s ->
  wp (console_handle_input daemon) Q s.
Proof.
  intros E Hk Hu H. unfold console_handle_input, the_ring at 1. apply wp_bind, wp_bind, wp_get, (wp_opt _ _ r); [done|].
  apply wp_bind, wp_assert; [by rewrite (proj2 (Z.ltb_ge _ _))|]. done.
Qed.

(** A single character of input, anywhere but in the last place of the ring, is
    echoed (a carriage return with the note that nobody reads input) and
    consumed. *)
Theorem console_echo c s r : console_initialised s = true -> ring s = Some r -> page_ok r ->
  0 <= in_cons r < 2 ^ 32 -> in_prod r = u32 (in_cons r + 1) -> in_cons r mod in_size + 1 < in_size ->
  ci_in r !! Z.to_nat (in_cons r mod in_size) = Some c -> 0 < c < 256 ->
  wp (console_handle_input daemon) (fun _ s' => output s' = output s ++ echo c /\ exists r',
    ring s' = Some r' /\ page_ok r' /\ in_cons r' = in_prod r /\ in_prod r' = in_prod r) s.
Proof using HB fair.
  intros Hinit E Hk Hc Hp Hlast Hch Hcb. pose proof in_pos as Hpos.
  assert (Hone : u32 1 = 1) by done.
  assert (Hd : u32 (in_prod r - in_cons r) = 1).
  { rewrite Hp, u32_sub_l. by replace (in_cons r + 1 - in_cons r) with 1 by lia. }
  apply (wp_input_start _ s r); [done..|lia|]. apply wp_bind.
  assert (Hne : in_cons r <> in_prod r) by (intros Hx; rewrite <- Hx, Z.sub_diag in Hd; done).
  pose proof (Z.mod_pos_bound (in_cons r) in_size Hpos).
  eapply wp_mono.
  { apply wp_loop with (I := fun l t => (l = in_cons r /\ t = s) \/ (l = in_prod r /\ output t = output s ++ echo c /\
        exists r', ring t = Some r' /\ page_ok r' /\ in_prod r' = in_prod r))
      (meas := fun l _ => if l =? in_prod r then 0 else 1)
      (Q := fun l t => l = in_prod r /\ output t = output s ++ echo c /\
        exists r', ring t = Some r' /\ page_ok r' /\ in_prod r' = in_prod r).
    - intros l t HI. split; [by destruct (l =? in_prod r)|]. unfold input_round.
      destruct HI as [[-> ->]|[-> Ht]]; [|rewrite Z.eqb_refl; by apply wp_ret].
      rewrite (proj2 (Z.eqb_neq _ _) Hne), in_mask by lia. apply wp_bind.
      eapply wp_mono; [apply (wp_xencons_rx _ c r); (done || lia)|].
      intros [] t (_ & Ho & r' & E' & Hk' & _ & _ & Hp'). apply wp_ret. rewrite <- Hp, Z.eqb_refl.
      split; [|lia]. right. split_and!; [done|done|]. by exists r'.
    - by left.
    - destruct (_ =? _); lia. }
  intros l t (-> & Ho & r' & E' & Hk' & Hp'). unfold the_ring. apply wp_bind, wp_bind, wp_get, (wp_opt _ _ r'); [done|].
  apply wp_bind, wp_modify, wp_modify. split; [unfold output in *; cbn; by rewrite E' in Ho|].
  eexists. split; [done|]. split; [by destruct Hk'; split|done].
Qed.

(** A text of no characters is not one the printing loop expects. *)
Lemma print_nothing s : minios_console_print daemon [] s = Halted "copied_str".
Proof.
  unfold minios_console_print, cbind at 1. cbn [mget]. set (fn := if console_initialised s then _ else _).
  assert (El : loopM (print_round fn) ([] ++ [0], 0, 0, zlen (@nil Z)) s = Done (([0], 0, 0), s)).
  { assert (Hw : wp (loopM (print_round fn) ([] ++ [0], 0, 0, zlen (@nil Z))) (fun x t => x = ([0], 0, 0) /\ t = s) s).
    { apply wp_loop with (I := fun l t => l = ([] ++ [0], 0, 0, zlen (@nil Z)) /\ t = s) (meas := fun _ _ => 1); [|done|done].
      intros l t [-> ->]. split; [lia|]. by apply wp_ret. }
    destruct (wp_run _ _ _ Hw) as (x & t & Ex & -> & ->). done. }
  by rewrite (bind_run _ _ _ _ _ El).
Qed.

(** Two characters of input bring the handler down: putting a NUL behind the
    first one overwrites the second in the ring, whose echo is then the empty
    text, for which the printing loop reads in front of its buffer. *)
Theorem console_input_clobbered c d s r : console_initialised s = true -> ring s = Some r -> page_ok r ->
  0 <= in_cons r < 2 ^ 32 -> 2 <= u32 (in_prod r - in_cons r) <= in_size -> in_cons r mod in_size + 2 < in_size ->
  ci_in r !! Z.to_nat (in_cons r mod in_size) = Some c -> 0 < c < 256 ->
  ci_in r !! Z.to_nat (in_cons r mod in_size + 1) = Some d ->
  console_handle_input daemon s = Halted "copied_str".
Proof using HB fair.
  intros Hinit E Hk Hc Hu Hlast Hch Hcb Hdh. pose proof in_pos as Hpos.
  pose proof (Z.mod_pos_bound (in_cons r) in_size Hpos).
  unfold console_handle_input, the_ring at 1. rewrite (bind_run _ _ s r s) by (unfold cbind; cbn; by rewrite E).
  rewrite (proj2 (Z.ltb_ge _ _)) by lia. erewrite bind_run by reflexivity.
  enough (El : loopM (input_round daemon (in_prod r)) (in_cons r) s = Halted "copied_str") by (unfold cbind at 1; by rewrite El).
  assert (Hne : in_cons r <> in_prod r) by (intros Hx; rewrite <- Hx, Z.sub_diag in Hu; change (u32 0) with 0 in Hu; lia).
  assert (H1 : wp (xencons_rx daemon (MASK_XENCONS_IDX (in_cons r) in_size)) (fun _ t => exists r', ring t = Some r' /\ page_ok r' /\
      ci_in r' !! Z.to_nat (in_cons r mod in_size + 1) = Some 0) s).
  { rewrite in_mask by lia. eapply wp_mono; [apply (wp_xencons_rx _ c r); (done || lia)|].
    intros [] t (_ & _ & r' & E' & Hk' & Hi' & _). exists r'. split_and!; [done|done|]. rewrite Hi'.
    apply list_lookup_insert_eq. destruct Hk. lia. }
  destruct (wp_run _ _ _ H1) as ([] & t & E1 & r' & Er' & Hk' & Hz).
  assert (R1 : input_round daemon (in_prod r) (in_cons r) s = Done (inl (u32 (in_cons r + 1)), t)).
  { unfold input_round. rewrite (proj2 (Z.eqb_neq _ _) Hne). by rewrite (bind_run _ _ _ _ _ E1). }
  assert (R2 : input_round daemon (in_prod r) (u32 (in_cons r + 1)) t = Halted "copied_str").
  { unfold input_round. rewrite (proj2 (Z.eqb_neq _ _)).
    2:{ intros Hx. rewrite <- Hx, u32_sub_l in Hu. replace (in_cons r + 1 - in_cons r) with 1 in Hu by lia. change (u32 1) with 1 in Hu. lia. }
    assert (Hm : MASK_XENCONS_IDX (u32 (in_cons r + 1)) in_size = in_cons r mod in_size + 1).
    { rewrite in_mask by apply u32_range. destruct in_size_pow2 as (k & Hkk & Ek).
      rewrite u32_mod_divides by (done || (rewrite Ek; apply pow2_divide_le; lia)).
      rewrite <- Zplus_mod_idemp_l. apply Z.mod_small. lia. }
    rewrite Hm. set (i := in_cons r mod in_size + 1) in *.
    unfold xencons_rx, the_ring. unfold cbind at 1. erewrite (bind_run _ _ t r' t); [|unfold cbind; cbn; by rewrite Er'].
    erewrite bind_run by reflexivity. rewrite page_set_in by (done || lia). set (r2 := CI _ _ _ _ _ _).
    rewrite (bind_run _ _ _ r2 (set_ring r2 t)) by done.
    assert (Hz2 : ci_in r2 !! Z.to_nat i = Some 0) by (cbn; rewrite list_lookup_insert_ne by lia; done).
    assert (Hstr : str_of (drop (Z.to_nat i) (ci_in r2 ++ ci_out r2)) = Done []).
    { rewrite drop_app_le by (apply lookup_lt_Some in Hz2; lia). by rewrite (drop_S _ _ _ Hz2). }
    erewrite bind_run by (unfold lift_res; by rewrite Hstr). unfold cbind at 1.
    assert (Ep : minios_printk daemon (lit "%s") [VStr (Some ([] ++ [0]))] (set_ring r2 t) = Halted "copied_str").
    { unfold minios_printk, print. erewrite bind_run by (unfold lift_res; by vm_compute (sprint _ _ _)). cbv beta iota.
      erewrite bind_run by reflexivity. cbv iota. apply print_nothing. }
    by rewrite Ep. }
  by eapply loop_halts_next.
Qed.
End Fair.

(** A domain without a console channel hangs as soon as it prints after
    init_console: nothing is ever sent, and the loop waits for everything to
    be. *)
Theorem console_missing_hangs data s : ring s = None -> data <> [] -> xencons_ring_send daemon data s = NoFuel.
Proof.
  intros E Hne. unfold xencons_ring_send.
  enough (El : loopM (ring_send_round daemon data) 0 s = NoFuel) by (unfold cbind; by rewrite El).
  apply (loop_diverges _ (fun sent s => sent = 0 /\ ring s = None)); [|done].
  intros l t [-> Et]. unfold ring_send_round. destruct data as [|c data]; [done|].
  rewrite (proj2 (Z.ltb_lt _ _)) by (cbn; lia). eexists 0, _. split; [|split; [done|]].
  - unfold cbind, xencons_ring_send_no_notify, daemon_turn, modify, cbind, mget. rewrite Et. reflexivity.
  - done.
Qed.

(** The last place of the input ring: the NUL behind its character is the first
    byte of the output ring, so a byte that the daemon has not read yet is
    lost. *)
Theorem console_input_hits_output r v : page_ok r ->
  ci_in (page_set r in_size v) = ci_in r /\ ci_out (page_set r in_size v) !! 0%nat = Some v /\
  (forall i, (0 < i)%nat -> ci_out (page_set r in_size v) !! i = ci_out r !! i).
Proof.
  intros Hk. rewrite page_set_out by done. cbn. pose proof out_pos. destruct Hk as [_ Ho _ _ _]. split_and!; [done| |].
  - apply list_lookup_insert_eq. lia.
  - intros i Hi. apply list_lookup_insert_ne. lia.
Qed.
End Output.

(** ** Witnesses *)
#[local] Program Instance xen_cons : XenCons :=
  {| in_size := 1024; out_size := 2048; MASK_XENCONS_IDX i n := Z.land i (n - 1) |}.
Next Obligation. by exists 10. Qed.
Next Obligation. by exists 11. Qed.
Next Obligation.
  intros i n Hi (k & Hk & ->). replace (2 ^ k - 1) with (Z.ones k) by (rewrite Z.ones_equiv; lia). apply Z.land_ones. lia.
Qed.

(** A daemon that takes five bytes every fourth time; input AB at the wrap of the
    indices. *)
Definition slow_daemon (t : Z) : Z := if t mod 4 =? 3 then 5 else 0.
Lemma slow_daemon_fair t : exists d, 0 <= d < 4 /\ 0 < slow_daemon (t + d).
Proof.
  exists ((3 - t) mod 4). split; [apply Z.mod_pos_bound; lia|]. unfold slow_daemon.
  rewrite Zplus_mod_idemp_r. by replace (t + (3 - t)) with 3 by lia.
Qed.
Definition sample_page (n : Z) : consif :=
  CI (65 :: 66 :: replicate 1022 0) (replicate 2048 120) 0 n (2 ^ 32 - 2048) 0.
Definition sample_cs (n : Z) : cs := Cs (Some (sample_page n)) true [] 0 [] 0.
Lemma sample_page_ok n : page_ok (sample_page n).
Proof. split; by vm_compute. Qed.

(** The ring is full when this text is printed. *)
Definition sample_fmt : list Z := lit "vif%d" ++ [10] ++ lit "up" ++ [10].
Lemma console_printk_delivers_witness :
  wp (minios_printk slow_daemon sample_fmt [VInt 7]) (fun _ s' => page_state s' /\
    output s' = output (sample_cs 0) ++ lit "vif7" ++ [13; 10] ++ lit "up" ++ [13; 10] /\
    xen_log s' = lit "vif7" ++ [10] ++ lit "up" ++ [10]) (sample_cs 0).
Proof.
  apply (console_printk_delivers slow_daemon 4 ltac:(lia) slow_daemon_fair sample_fmt [VInt 7] 8
    (lit "vif7" ++ [10] ++ lit "up" ++ [10]) (sample_cs 0)); try done.
  - exists (sample_page 0). split; [done|apply sample_page_ok].
Defined.

Lemma console_echo_witness :
  wp (console_handle_input slow_daemon) (fun _ s' => output s' = output (sample_cs 1) ++ [65] /\ exists r',
    ring s' = Some r' /\ page_ok r' /\ in_cons r' = 1 /\ in_prod r' = 1) (sample_cs 1).
Proof.
  apply (console_echo slow_daemon 4 ltac:(lia) slow_daemon_fair 65 (sample_cs 1) (sample_page 1)); done.
Defined.

Lemma console_input_clobbered_witness : console_handle_input slow_daemon (sample_cs 2) = Halted "copied_str".
Proof.
  apply (console_input_clobbered slow_daemon 4 ltac:(lia) slow_daemon_fair 65 66 (sample_cs 2) (sample_page 2)); done.
Defined.

Lemma console_missing_hangs_witness : xencons_ring_send slow_daemon (lit "done.") (Cs None true [] 0 [] 0) = NoFuel.
Proof. by apply console_missing_hangs. Defined.

Lemma console_input_hits_output_witness : ci_out (page_set (sample_page 0) 1024 0) !! 0%nat = Some 0.
Proof. exact (proj1 (proj2 (console_input_hits_output (sample_page 0) 0 (sample_page_ok 0)))). Defined.
