(* ===== verification/SpWire.v ===== *)
(** * Remote system calls: the wire (lib/librumprun_base/sysproxy.c)

    Requests and answers are frames, a fixed header and data, on a byte stream.
    The server's main thread reads them piecemeal with [readframe]; [dosend]
    writes one with as many calls as it takes.  The host's read, sendmsg and poll
    are parameters: their results are a list in the state, one for each call. *)
From S2P Require Import Prelude ByteRing.

(** ** Headers *)

(** Numbers in memory, least significant byte first. *)
Fixpoint le (n : nat) (x : Z) : list Z :=
  match n with O => [] | S n => x mod 256 :: le n (x / 256) end.
Fixpoint of_le (l : list Z) : Z := match l with [] => 0 | b :: l => b + 256 * of_le l end.

(** [struct rsp_hdr]; [rsp_u] is the union of sysnum, error, handshake and signo. *)
Record rsp_hdr := RspHdr { rsp_len : Z; rsp_reqno : Z; rsp_class : Z; rsp_type : Z; rsp_u : Z }.
Definition HDRSZ : Z := 24.
Definition hdr_bytes (h : rsp_hdr) : list Z :=
  le 8 (rsp_len h) ++ le 8 (rsp_reqno h) ++ le 2 (rsp_class h) ++ le 2 (rsp_type h) ++ le 4 (rsp_u h).
Definition hdr_of (l : list Z) : rsp_hdr :=
  RspHdr (of_le (take 8 l)) (of_le (take 8 (drop 8 l))) (of_le (take 2 (drop 16 l)))
         (of_le (take 2 (drop 18 l))) (of_le (take 4 (drop 20 l))).

(** ** Reading *)

(** What the next [host_read] does: deliver up to so many bytes, fail with EAGAIN,
    report the end of the stream, or fail otherwise. *)
Inductive rdres := RdSome (n : Z) | RdAgain | RdEof | RdFail.

(** The part of [struct spclient] that readframe uses, and the socket. *)
Record rdst := Rd {
  spc_hdr : list Z;               (* the bytes of spc_hdr *)
  spc_buf : option (list Z);
  spc_off : Z;
  sock : list Z;                  (* bytes to be read *)
  rd_plan : list rdres
}.

Inductive hread := HBytes (l : list Z) | HZero | HAgain | HErr.
Definition host_read (left : Z) : M rdst hread :=
  s <-- mget ;;
  match rd_plan s with
  | [] => cret HAgain
  | r :: rest =>
      let s := Rd (spc_hdr s) (spc_buf s) (spc_off s) (sock s) rest in
      match r with
      | RdSome n =>
          match sock s with
          | [] => mput s ;;; cret HAgain
          | _ => let k := Z.min (Z.max 1 n) (Z.min left (zlen (sock s))) in
                 mput (Rd (spc_hdr s) (spc_buf s) (spc_off s) (drop (Z.to_nat k) (sock s)) rest) ;;;
                 cret (HBytes (take (Z.to_nat k) (sock s)))
          end
      | RdAgain => mput s ;;; cret HAgain
      | RdEof => mput s ;;; cret HZero
      | RdFail => mput s ;;; cret HErr
      end
  end.

Definition set_hdr (h : list Z) (off : Z) (s : rdst) : rdst := Rd h (spc_buf s) off (sock s) (rd_plan s).
Definition set_buf (b : option (list Z)) (off : Z) (s : rdst) : rdst := Rd (spc_hdr s) b off (sock s) (rd_plan s).

Definition spcresetbuf : M rdst unit := modify (set_buf None 0).

(** [malloc_ok]: whether malloc finds that many bytes. *)
Section Read.
Variable malloc_ok : Z -> bool.

(** readframe from [left = framelen - spc->spc_off] on. *)
Definition read_body (framelen : Z) : M rdst Z :=
  s <-- mget ;;
  let left := u64 (framelen - spc_off s) in
  if left =? 0 then cret 1 else
  r <-- host_read left ;;
  match r with
  | HZero => cret (-1)
  | HAgain => cret 0
  | HErr => cret (-1)
  | HBytes l =>
      buf <-- mopt (spc_buf s) "spc_buf" ;;
      b <-- mopt (array_write buf (spc_off s - HDRSZ) l) "spc_buf" ;;
      modify (set_buf (Some b) (spc_off s + zlen l)) ;;;
      cret (if left - zlen l =? 0 then 1 else 0)
  end.

(** 1: a frame is complete; 0: not yet; -1: the connection is to be given up. *)
Definition readframe : M rdst Z :=
  s <-- mget ;;
  if spc_off s <? HDRSZ then
    r <-- host_read (HDRSZ - spc_off s) ;;
    match r with
    | HZero => cret (-1)
    | HAgain => cret 0
    | HErr => cret (-1)
    | HBytes l =>
        h <-- mopt (array_write (spc_hdr s) (spc_off s) l) "spc_hdr" ;;
        let off := spc_off s + zlen l in
        modify (set_hdr h off) ;;;
        if off <? HDRSZ then cret 0 else
        let framelen := rsp_len (hdr_of h) in
        if framelen <? HDRSZ then cret (-1)
        else if framelen =? HDRSZ then cret 1
        else if negb (malloc_ok (framelen - HDRSZ)) then cret (-1)
        else modify (set_buf (Some (replicate (Z.to_nat (framelen - HDRSZ)) 0)) off) ;;; read_body framelen
    end
  else read_body (rsp_len (hdr_of (spc_hdr s))).
End Read.

(** ** Writing *)
Definition EINTR : Z := 4.
Definition EAGAIN : Z := 35.
Definition ENOTCONN : Z := 57.

(** The results of the next calls of sendmsg ([SdSome n]: up to [n] bytes are
    taken, [SdErr e]: -1 with errno [e]) and of poll ([None]: ready). *)
Inductive sdres := SdSome (n : Z) | SdZero | SdErr (e : Z).
Record sdst := Sd {
  wire : list Z;                  (* what has been sent *)
  sd_plan : list sdres;
  polls : list (option Z);
  curlwp : Z                      (* 0: none *)
}.

(** [while (n >= (ssize_t)iov[0].iov_len && iovlen) ...] *)
Fixpoint iov_advance (n : Z) (iov : list (list Z)) : Z * list (list Z) :=
  match iov with
  | [] => (n, [])
  | v :: rest => if zlen v <=? n then iov_advance (n - zlen v) rest else (n, iov)
  end.

(** One call of sendmsg and what follows it. *)
Definition send_chunk (iov : list (list Z)) : M sdst ((list (list Z) * Z) + Z) :=
  s <-- mget ;;
  match sd_plan s with
  | [] => mnofuel
  | r :: rest =>
      match r with
      | SdErr e =>
          mput (Sd (wire s) rest (polls s) (curlwp s)) ;;;
          if negb (e =? EAGAIN) then cret (inr e) else cret (inl (iov, -1))
      | SdZero => mput (Sd (wire s) rest (polls s) (curlwp s)) ;;; cret (inr ENOTCONN)
      | SdSome k =>
          let bytes := take (Z.to_nat (Z.max 1 k)) (concat iov) in
          mput (Sd (wire s ++ bytes) rest (polls s) (curlwp s)) ;;;
          if zlen bytes =? 0 then cret (inr ENOTCONN) else
          let '(n, iov) := iov_advance (zlen bytes) iov in
          match iov with
          | [] => massert (n =? 0) "_DIAGASSERT(n == 0)" ;;; cret (inr 0)
          | v :: iov => cret (inl (drop (Z.to_nat n) v :: iov, n))
          end
      end
  end.

(** One round; the loop keeps [iov] and [n], and ends with [error]. *)
Definition send_iov_round (l : list (list Z) * Z) : M sdst ((list (list Z) * Z) + Z) :=
  let '(iov, n) := l in
  if negb (n =? 0) then
    s <-- mget ;;
    match polls s with
    | [] => mnofuel
    | p :: ps =>
        mput (Sd (wire s) (sd_plan s) ps (curlwp s)) ;;;
        match p with
        | Some e => if e =? EINTR then cret (inl (iov, n)) else cret (inr e)
        | None => send_chunk iov
        end
    end
  else send_chunk iov.

(** [fresh] is the lwp that lwproc_newlwp makes.  Leaving through [out] skips the
    release. *)
Definition dosend (fresh : Z) (iov : list (list Z)) : M sdst Z :=
  mylwp <-- gets curlwp ;;
  modify (fun s => Sd (wire s) (sd_plan s) (polls s) fresh) ;;;
  error <-- loopM send_iov_round (iov, 0) ;;
  if negb (error =? 0) then cret error else
  modify (fun s => Sd (wire s) (sd_plan s) (polls s) 0) ;;;
  (if negb (mylwp =? 0) then modify (fun s => Sd (wire s) (sd_plan s) (polls s) mylwp) else cret tt) ;;;
  cret error.

(** * Theorems *)

(** ** Headers *)
Lemma le_length n x : length (le n x) = n.
Proof. revert x. induction n as [|n IH]; intros x; [done|]. cbn. by rewrite IH. Qed.
Lemma of_le_le n x : 0 <= x < 256 ^ Z.of_nat n -> of_le (le n x) = x.
Proof.
  revert x. induction n as [|n IH]; intros x Hx; [change (256 ^ Z.of_nat 0) with 1 in Hx; cbn; lia|].
  cbn [le of_le]. rewrite Nat2Z.inj_succ, Z.pow_succ_r in Hx by lia.
  rewrite IH; [|split; [apply Z.div_pos; lia|apply Z.div_lt_upper_bound; lia]].
  pose proof (Z.div_mod x 256). lia.
Qed.

Definition hdr_wf (h : rsp_hdr) : Prop :=
  0 <= rsp_len h < 2 ^ 64 /\ 0 <= rsp_reqno h < 2 ^ 64 /\ 0 <= rsp_class h < 2 ^ 16 /\
  0 <= rsp_type h < 2 ^ 16 /\ 0 <= rsp_u h < 2 ^ 32.

Lemma rsp_bytes_length h : length (hdr_bytes h) = 24%nat.
Proof. unfold hdr_bytes. by rewrite !length_app, !le_length. Qed.
Lemma hdr_roundtrip_wire h : hdr_wf h -> hdr_of (hdr_bytes h) = h.
Proof.
  intros (H1 & H2 & H3 & H4 & H5). destruct h as [a b c d e]. cbn [rsp_len rsp_reqno rsp_class rsp_type rsp_u] in *.
  pose proof (le_length 8 a) as La. pose proof (le_length 8 b) as Lb. pose proof (le_length 2 c) as Lc.
  pose proof (le_length 2 d) as Ld. pose proof (le_length 4 e) as Le.
  unfold hdr_of, hdr_bytes. cbn [rsp_len rsp_reqno rsp_class rsp_type rsp_u].
  assert (Hd : forall (l1 l2 : list Z) n, length l1 = n -> drop n (l1 ++ l2) = l2) by (intros l1 l2 n <-; apply drop_app_length).
  assert (Ht : forall (l1 l2 : list Z) n, length l1 = n -> take n (l1 ++ l2) = l1) by (intros l1 l2 n <-; apply take_app_length).
  rewrite (Ht _ _ 8%nat La), (Hd _ _ 8%nat La), (Ht _ _ 8%nat Lb).
  assert (Hs : forall (l1 l2 : list Z) n m, length l1 = n -> drop (n + m) (l1 ++ l2) = drop m l2).
  { intros l1 l2 n m <-. rewrite drop_app_ge by lia. f_equal. lia. }
  rewrite (Hs _ _ 8%nat 8%nat La), (Hd _ _ 8%nat Lb), (Ht _ _ 2%nat Lc).
  rewrite (Hs _ _ 8%nat 10%nat La), (Hs _ _ 8%nat 2%nat Lb), (Hd _ _ 2%nat Lc), (Ht _ _ 2%nat Ld).
  rewrite (Hs _ _ 8%nat 12%nat La), (Hs _ _ 8%nat 4%nat Lb), (Hs _ _ 2%nat 2%nat Lc), (Hd _ _ 2%nat Ld).
  rewrite (take_ge (le 4 e)) by lia. by rewrite !of_le_le.
Qed.

(** ** Frames *)
Definition frame : Type := rsp_hdr * list Z.
Definition enc (f : frame) : list Z := hdr_bytes f.1 ++ f.2.
Definition frame_ok (f : frame) : Prop := hdr_wf f.1 /\ rsp_len f.1 = HDRSZ + zlen f.2.
Lemma enc_length f : zlen (enc f) = HDRSZ + zlen f.2.
Proof. unfold enc, HDRSZ. rewrite length_app, rsp_bytes_length. lia. Qed.
Lemma frame_small f : frame_ok f -> 0 <= HDRSZ + zlen f.2 < 2 ^ 64.
Proof. intros [(H & _) E]. lia. Qed.

(** Reads the program is used to: data or nothing yet. *)
Definition live (r : rdres) : Prop := match r with RdSome _ | RdAgain => True | _ => False end.
Definition eager (r : rdres) : Prop := match r with RdSome _ => True | _ => False end.

Lemma wp_host_read left s Q : Forall live (rd_plan s) -> 0 < left ->
  (forall l plan rest, sock s = l ++ rest -> zlen l <= left -> l <> [] -> Forall live plan -> (exists r, rd_plan s = r :: plan) ->
     Q (HBytes l) (Rd (spc_hdr s) (spc_buf s) (spc_off s) rest plan)) ->
  (forall plan, Forall live plan -> plan = rd_plan s \/ (exists r, rd_plan s = r :: plan) ->
     (Forall eager (rd_plan s) -> rd_plan s <> [] -> sock s = []) ->
     Q HAgain (Rd (spc_hdr s) (spc_buf s) (spc_off s) (sock s) plan)) ->
  wp (host_read left) Q s.
Proof.
  intros Hp Hl HB HA. unfold host_read. apply wp_bind, wp_get. destruct (rd_plan s) as [|r rest] eqn:Ep.
  { apply wp_ret. destruct s; cbn in *. subst. apply (HA []); [done|by left|done]. }
  apply Forall_cons in Hp as [Hr Hp]. destruct r; try done; cbn [sock].
  - destruct (sock s) as [|c l] eqn:Es.
    { apply wp_bind. apply HA; [done|right; eauto|done]. }
    set (k := Z.min _ _). assert (Hk : 1 <= k <= left /\ k <= zlen (c :: l)) by (unfold k; cbn; lia).
    apply wp_bind. apply (HB (take (Z.to_nat k) (c :: l))).
    + by rewrite take_drop.
    + rewrite length_take. lia.
    + destruct (Z.to_nat k) eqn:E; [lia|done].
    + done.
    + eauto.
  - apply wp_bind. apply HA; [done|right; eauto|]. intros H _. by apply Forall_cons in H as [? _].
Qed.

Lemma array_write_take arr off bs : 0 <= off -> off + zlen bs <= zlen arr ->
  exists arr', array_write arr off bs = Some arr' /\ length arr' = length arr /\
    take (Z.to_nat off + length bs) arr' = take (Z.to_nat off) arr ++ bs.
Proof.
  intros H0 Hle. unfold array_write. rewrite !(proj2 (Z.leb_le _ _)) by lia. cbn [andb].
  eexists. split; [done|]. split; [rewrite !length_app, length_take, length_drop; lia|].
  rewrite app_assoc. apply take_app_length'. rewrite length_app, length_take. lia.
Qed.

(** The frame [f] of which [cur] has been read. *)
Definition partial (f : frame) (cur : list Z) (s : rdst) : Prop :=
  spc_off s = zlen cur /\ length (spc_hdr s) = 24%nat /\ Forall live (rd_plan s) /\
  ((zlen cur < HDRSZ /\ spc_buf s = None /\ take (length cur) (spc_hdr s) = cur) \/
   (HDRSZ <= zlen cur < zlen (enc f) /\ spc_hdr s = hdr_bytes f.1 /\ exists b, spc_buf s = Some b /\ zlen b = zlen f.2 /\
     take (length cur - 24) b = drop 24 cur)).

(** One call: what it read, and how the plan shrank. *)
Definition took (l : list Z) (s s' : rdst) : Prop :=
  sock s = l ++ sock s' /\ (exists used, rd_plan s = used ++ rd_plan s' /\ (length used <= 2)%nat) /\
  (Forall eager (rd_plan s) -> (2 <= length (rd_plan s))%nat -> sock s = [] \/ l <> []).
Definition complete (f : frame) (s : rdst) : Prop :=
  hdr_of (spc_hdr s) = f.1 /\ default [] (spc_buf s) = f.2 /\ length (spc_hdr s) = 24%nat /\ Forall live (rd_plan s).
Definition step_post (f : frame) (cur : list Z) (s0 : rdst) (r : Z) (s : rdst) : Prop :=
  (r = 0 /\ exists l, took l s0 s /\ partial f (cur ++ l) s) \/
  (r = 1 /\ exists l, took l s0 s /\ cur ++ l = enc f /\ complete f s).

Section Step.
Variable malloc_ok : Z -> bool.
Variables (f : frame) (future more : list Z).
Hypothesis Hf : frame_ok f.

(** The body of a frame, [l0] having just been read by the same call. *)
Lemma wp_read_body s0 s cur l0 : partial f (cur ++ l0) s -> HDRSZ <= zlen (cur ++ l0) ->
  (cur ++ l0) ++ sock s ++ future = enc f ++ more ->
  sock s0 = l0 ++ sock s -> (exists used, rd_plan s0 = used ++ rd_plan s /\ (length used <= 1)%nat /\ (used = [] -> l0 = [])) ->
  (l0 <> [] \/ (l0 = [] /\ rd_plan s = rd_plan s0)) ->
  wp (read_body (rsp_len f.1)) (step_post f cur s0) s.
Proof using Hf.
  set (c := cur ++ l0). intros (Hoff & Hh & Hp & [[Hc _]|(Hc & Ehdr & b & Eb & Hb & Htb)]) Hge Hstr Hs0 (used & Hu & Hul & Hue) Hl0; [lia|].
  pose proof (frame_small f Hf) as Hsm. destruct Hf as [Hwf Hlen]. rewrite enc_length in Hc.
  unfold read_body. apply wp_bind, wp_get. rewrite Hoff, Hlen.
  unfold u64. rewrite Z.mod_small by lia. rewrite (proj2 (Z.eqb_neq _ _)) by lia.
  assert (Hplan : forall plan, plan = rd_plan s \/ (exists r, rd_plan s = r :: plan) ->
    exists used, rd_plan s0 = used ++ plan /\ (length used <= 2)%nat).
  { intros plan [-> | [r Er]]; [exists used; split; [done|lia]|]. exists (used ++ [r]). rewrite Hu, Er, <- app_assoc. split; [done|].
    rewrite length_app. cbn. lia. }
  apply wp_bind, wp_host_read; [done|lia|..].
  - intros l plan rest Es Hl Hne Hlive Hpl. apply wp_bind, (wp_opt _ _ b); [done|].
    destruct (array_write_take b (zlen c - HDRSZ) l) as (b' & Ew & Hlb & Htk); [unfold HDRSZ in *; lia..|].
    apply wp_bind, (wp_opt _ _ b'); [done|]. apply wp_bind, wp_modify, wp_ret.
    replace (Z.to_nat (zlen c - HDRSZ)) with (length c - 24)%nat in Htk by (unfold HDRSZ; lia). rewrite Htb in Htk.
    assert (Hcl : (24 <= length c)%nat) by (unfold HDRSZ in *; lia).
    assert (Htook : took (l0 ++ l) s0 (set_buf (Some b') (zlen c + zlen l) (Rd (spc_hdr s) (spc_buf s) (spc_off s) rest plan))).
    { split_and!; [cbn; by rewrite <- app_assoc, <- Es|by apply Hplan; right|]. intros _ _. right. by destruct l0. }
    destruct (Z.eqb_spec (HDRSZ + zlen f.2 - zlen c - zlen l) 0) as [Hz|Hz].
    + right. split; [done|]. exists (l0 ++ l). rewrite app_assoc. fold c.
      assert (Hall : c ++ l = enc f).
      { rewrite Es, <- app_assoc, app_assoc in Hstr. apply app_inj_1 in Hstr as [-> _]; [done|].
        pose proof (enc_length f). rewrite length_app. lia. }
      split_and!; [done|done|]. split_and!; cbn; [by rewrite Ehdr, hdr_roundtrip_wire| |done|done].
      rewrite <- (take_ge b' (length c - 24 + length l)) by (unfold HDRSZ in *; lia). rewrite Htk.
      rewrite <- drop_app_le by done. rewrite Hall. unfold enc. rewrite <- (rsp_bytes_length f.1). apply drop_app_length.
    + left. split; [done|]. exists (l0 ++ l). split; [done|]. rewrite app_assoc. fold c.
      split_and!; cbn [set_buf spc_off spc_hdr rd_plan spc_buf]; [rewrite length_app; lia|done|done|]. right. rewrite enc_length, length_app.
      split; [lia|]. split; [done|]. exists b'. split_and!; [done|lia|].
      replace (length c + length l - 24)%nat with (length c - 24 + length l)%nat by lia. by rewrite Htk, drop_app_le.
  - intros plan Hlive Hpl Heag. apply wp_ret. left. split; [done|]. exists l0. split.
    + split_and!; [done|by apply Hplan|]. intros He Hpl2. cbn. destruct l0 as [|x l0]; [left|by right].
      destruct Hl0 as [?|[_ Ep]]; [done|]. rewrite Hs0. cbn. apply Heag; rewrite Ep; [done|]. intros E. rewrite E in Hpl2. cbn in Hpl2. lia.
    + split_and!; cbn [spc_off spc_hdr rd_plan spc_buf]; try done. right. rewrite enc_length. fold c. split; [lia|]. split; [done|]. by exists b.
Qed.

Hypothesis Hmalloc : forall n, 0 < n <= zlen f.2 -> malloc_ok n = true.

Lemma wp_readframe s cur : partial f cur s -> cur ++ sock s ++ future = enc f ++ more ->
  wp (readframe malloc_ok) (step_post f cur s) s.
Proof using Hf Hmalloc.
  intros Hpart Hstr. pose proof Hpart as (Hoff & Hh & Hp & Hcase). pose proof (enc_length f) as Hel.
  unfold readframe. apply wp_bind, wp_get. rewrite Hoff.
  destruct (Z.ltb_spec (zlen cur) HDRSZ) as [Hlt|Hge].
  2:{ destruct Hcase as [[? _]|(_ & Eh & _)]; [lia|]. rewrite Eh, hdr_roundtrip_wire by apply Hf.
      apply (wp_read_body s s cur []); rewrite ?app_nil_r; try done.
      - exists []. split_and!; [done|cbn; lia|done].
      - by right. }
  destruct Hcase as [(_ & Ebuf & Htk)|(? & _)]; [|lia].
  apply wp_bind, wp_host_read; [done|lia|..].
  2:{ intros plan Hlive Hpl Heag. apply wp_ret. left. split; [done|]. exists []. rewrite app_nil_r. split.
      - split_and!; [done| |].
        + cbn. destruct Hpl as [-> | [r ->]]; [by exists []; split; [|cbn; lia]|by exists [r]; split; [|cbn; lia]].
        + intros He Hn. left. apply Heag; [done|]. intros E. rewrite E in Hn. cbn in Hn. lia.
      - split_and!; cbn [spc_off spc_hdr rd_plan spc_buf]; try done. by left. }
  intros l plan rest Es Hl Hne Hlive [r Er]. rewrite Es, <- app_assoc in Hstr.
  destruct (array_write_take (spc_hdr s) (zlen cur) l) as (h & Ew & Hlh & Hth); [unfold HDRSZ in *; lia..|].
  apply wp_bind, (wp_opt _ _ h); [done|]. apply wp_bind, wp_modify. cbn [spc_off set_hdr].
  rewrite Nat2Z.id, Htk in Hth.
  assert (Htook : forall h off, took l s (set_hdr h off (Rd (spc_hdr s) (spc_buf s) (spc_off s) rest plan))).
  { intros h' off. split_and!; [done|exists [r]; split; [done|cbn; lia]|by right]. }
  destruct (Z.ltb_spec (zlen cur + zlen l) HDRSZ) as [Hlt2|Hge2].
  { apply wp_ret. left. split; [done|]. exists l. split; [done|].
    split_and!; cbn [set_hdr spc_off spc_hdr rd_plan spc_buf]; [rewrite length_app; lia|lia|done|]. left.
    rewrite length_app. split_and!; [lia|done|done]. }
  assert (Hcl : cur ++ l = hdr_bytes f.1).
  { assert (E24 : length (cur ++ l) = 24%nat) by (rewrite length_app; unfold HDRSZ in *; lia).
    unfold enc in Hstr. rewrite <- app_assoc, app_assoc in Hstr.
    apply app_inj_1 in Hstr as [-> _]; [done|]. by rewrite E24, rsp_bytes_length. }
  assert (Eh : h = hdr_bytes f.1).
  { rewrite <- Hcl, <- Hth. symmetry. apply take_ge. unfold HDRSZ in *. lia. }
  rewrite Eh, hdr_roundtrip_wire by apply Hf. pose proof Hf as [Hwf Hlen]. rewrite Hlen.
  rewrite (proj2 (Z.ltb_ge _ _)) by lia. destruct (Z.eqb_spec (HDRSZ + zlen f.2) HDRSZ) as [Hz|Hz].
  { apply wp_ret. right. split; [done|]. exists l. split; [done|].
    assert (E0 : f.2 = []) by (destruct (f.2); [done|cbn in Hz; lia]).
    split; [unfold enc; by rewrite Hcl, E0, app_nil_r|].
    split_and!; cbn [set_hdr spc_hdr spc_buf rd_plan]; [by rewrite hdr_roundtrip_wire|by rewrite Ebuf, E0|by rewrite rsp_bytes_length|done]. }
  rewrite Hmalloc by lia. cbn [negb]. apply wp_bind, wp_modify. rewrite <- Hlen.
  apply (wp_read_body s _ cur l).
  - split_and!; cbn [set_buf set_hdr spc_off spc_hdr rd_plan spc_buf]; [rewrite length_app; lia|by rewrite rsp_bytes_length|done|].
    right. rewrite Hcl, rsp_bytes_length, enc_length. split; [unfold HDRSZ in *; lia|]. split; [done|].
    eexists. split; [done|]. split; [rewrite length_replicate; unfold HDRSZ in *; lia|].
    rewrite Nat.sub_diag, take_0. symmetry. apply drop_ge. by rewrite rsp_bytes_length.
  - rewrite length_app. lia.
  - cbn. rewrite <- app_assoc. done.
  - done.
  - exists [r]. split_and!; [done|cbn; lia|done].
  - by left.
Qed.
End Step.

(** The main loop as the reader sees it: [n] calls, each complete frame handed on
    and the buffer reset. *)
Fixpoint collect (malloc_ok : Z -> bool) (n : nat) : M rdst (list frame) :=
  match n with
  | O => cret []
  | S n =>
      r <-- readframe malloc_ok ;;
      if r =? 0 then collect malloc_ok n
      else if r =? 1 then
        s <-- mget ;; spcresetbuf ;;; l <-- collect malloc_ok n ;;
        cret ((hdr_of (spc_hdr s), default [] (spc_buf s)) :: l)
      else mhalt "disconnected"
  end.

Definition stream (fs : list frame) : list Z := concat (map enc fs).

Lemma wp_collect malloc_ok n : forall frames future cur s,
  Forall frame_ok frames -> (forall f k, f ∈ frames -> 0 < k <= zlen f.2 -> malloc_ok k = true) ->
  frames <> [] -> (forall f, head frames = Some f -> partial f cur s) ->
  cur ++ sock s ++ future = stream frames -> future <> [] ->
  wp (collect malloc_ok n) (fun fs s' => exists fs' cur', frames = fs ++ fs' /\ fs' <> [] /\
    cur ++ sock s = stream fs ++ cur' ++ sock s' /\ (forall f, head fs' = Some f -> partial f cur' s') /\
    (Forall eager (rd_plan s) -> (2 * n <= length (rd_plan s))%nat -> (length (sock s) <= n)%nat -> sock s' = [])) s.
Proof.
  induction n as [|n IH]; intros frames future cur s Hok Hm Hne Hpart Hstr Hfut.
  { apply wp_ret. exists frames, cur. split_and!; try done. intros _ _ H. destruct (sock s); [done|cbn in H; lia]. }
  cbn [collect]. destruct frames as [|f frames]; [done|]. clear Hne. specialize (Hpart f eq_refl).
  unfold stream in Hstr. cbn [map concat] in Hstr. fold (stream frames) in Hstr.
  apply Forall_cons in Hok as [Hf Hok]. apply wp_bind.
  eapply wp_mono; [eapply (wp_readframe malloc_ok f future (stream frames) Hf); [|done|exact Hstr]|].
  { intros k Hk. apply (Hm f); [by left|done]. }
  intros r s1 [(-> & l & (Hs & (used & Hu & Hul) & Hpr) & Hp1)|(-> & l & (Hs & (used & Hu & Hul) & Hpr) & Hall & Hh & Hb & Hhl & Hlive)].
  - cbn [Z.eqb]. eapply wp_mono.
    { apply (IH (f :: frames) future (cur ++ l) s1); [by constructor|done|done|by intros ? [= <-]| |done].
      rewrite Hs, <- app_assoc in Hstr. by rewrite <- app_assoc. }
    intros fs s' (fs' & cur' & E & Hne & Hcs & Hp & Hprog). exists fs', cur'. split_and!; [done|done| |done|].
    + rewrite Hs. rewrite <- app_assoc in Hcs. by rewrite Hcs.
    + intros He Hn Hlen. apply Hprog.
      * rewrite Hu in He. by apply Forall_app in He as [_ ?].
      * rewrite Hu, length_app in Hn. lia.
      * destruct (Hpr He ltac:(lia)) as [E0|Hl]; [rewrite E0 in Hs; destruct l; [|done]; cbn in Hs; rewrite <- Hs; cbn; lia|].
        rewrite Hs, length_app in Hlen. destruct l; [done|cbn in Hlen; lia].
  - cbn [Z.eqb]. apply wp_bind, wp_get, wp_bind, wp_modify, wp_bind. rewrite Hh, Hb.
    destruct frames as [|f2 frames].
    { exfalso. change (stream []) with (@nil Z) in Hstr. rewrite app_nil_r, <- Hall, Hs, <- !app_assoc in Hstr.
      assert (Hl0 : length (cur ++ l ++ sock s1 ++ future) = length (cur ++ l)) by (by rewrite Hstr).
      rewrite !length_app in Hl0. destruct future; [done|cbn in Hl0; lia]. }
    eapply wp_mono.
    { apply (IH (f2 :: frames) future [] (set_buf None 0 s1)).
      - done.
      - intros g k Hg. apply Hm. by right.
      - done.
      - intros g [= <-]. split_and!; try done. left. split_and!; [by unfold HDRSZ|done|done].
      - cbn [app set_buf sock]. rewrite Hs in Hstr.
        assert (E : (cur ++ l) ++ sock s1 ++ future = enc f ++ stream (f2 :: frames)) by (rewrite <- Hstr, <- !app_assoc; done).
        rewrite Hall in E. by apply app_inv_head in E.
      - done. }
    intros fs s' (fs' & cur' & E & Hne & Hcs & Hp & Hprog). apply wp_ret.
    destruct f as [hf df]. cbn [fst snd] in *.
    exists fs', cur'. split_and!; [cbn; by rewrite E|done| |done|].
    + unfold stream in *. cbn [map concat app set_buf sock] in Hcs |- *.
      rewrite Hs, app_assoc, Hall, Hcs, <- !app_assoc. done.
    + cbn [set_buf sock rd_plan] in Hprog. intros He Hn Hlen. apply Hprog.
      * rewrite Hu in He. by apply Forall_app in He as [_ ?].
      * rewrite Hu, length_app in Hn. lia.
      * destruct (Hpr He ltac:(lia)) as [E0|Hl]; [rewrite E0 in Hs; destruct l; [|done]; cbn in Hs; rewrite <- Hs; cbn; lia|].
        rewrite Hs, length_app in Hlen. destruct l; [done|cbn in Hlen; lia].
Qed.

(** Nothing of a frame has been read. *)
Definition at_frame_start (s : rdst) : Prop :=
  spc_off s = 0 /\ spc_buf s = None /\ length (spc_hdr s) = 24%nat /\ Forall live (rd_plan s).

(** C23. Frames survive any chopping of the stream: whatever pieces the reads deliver
    and however often they deliver nothing, the frames handed on are exactly the
    first of those sent, headers and data; what else has been read is the start
    of the next one.  If every read finds something, a call for every byte
    suffices to read all there is.  No connection is given up. *)
Theorem frames_reassembled malloc_ok n frames future s :
  Forall frame_ok frames -> (forall f k, f ∈ frames -> 0 < k <= zlen f.2 -> malloc_ok k = true) ->
  at_frame_start s -> sock s ++ future = stream frames -> future <> [] ->
  wp (collect malloc_ok n) (fun fs s' => exists fs' cur, frames = fs ++ fs' /\
    sock s = stream fs ++ cur ++ sock s' /\ (forall f, head fs' = Some f -> zlen cur < zlen (enc f)) /\
    (Forall eager (rd_plan s) -> (2 * n <= length (rd_plan s))%nat -> (length (sock s) <= n)%nat -> sock s' = [])) s.
Proof.
  intros Hok Hm (Ho & Hb & Hh & Hp) Hstr Hfut.
  assert (Hne : frames <> []) by (intros ->; destruct (sock s); destruct future; done).
  eapply wp_mono; [apply (wp_collect malloc_ok n frames future [] s); try done|].
  - intros f _. split_and!; try done. left. by split_and!.
  - intros fs s' (fs' & cur & E & Hne' & Hs & Hpart & Hpr). exists fs', cur. split_and!; try done.
    intros f Hf. destruct (Hpart f Hf) as (_ & _ & _ & [[H _]|[H _]]); [|lia]. rewrite enc_length. lia.
Qed.

(** ** Sending *)
Lemma iov_advance_spec iov n : 0 <= n <= zlen (concat iov) -> let '(k, iov') := iov_advance n iov in
  0 <= k /\ drop (Z.to_nat k) (concat iov') = drop (Z.to_nat n) (concat iov) /\
  match iov' with [] => k = 0 | v :: _ => k < zlen v end.
Proof.
  revert n. induction iov as [|v iov IH]; intros n Hn; cbn [iov_advance concat] in *; [cbn in Hn; split_and!; [lia|done|lia]|].
  destruct (Z.leb_spec (zlen v) n) as [Hle|Hgt]; [|split_and!; [lia|done|lia]].
  specialize (IH (n - zlen v)). rewrite length_app in Hn. specialize (IH ltac:(lia)).
  destruct (iov_advance (n - zlen v) iov) as [k iov']. destruct IH as (H0 & Hd & Hk). split_and!; [done| |done].
  rewrite Hd, drop_app_ge by lia. f_equal. lia.
Qed.

(** What a round does with bytes that the socket took. *)
Lemma wire_round (w w0 total : list Z) iov k : w ++ concat iov = w0 ++ total ->
  let bytes := take k (concat iov) in
  let '(n, iov') := iov_advance (zlen bytes) iov in
  match iov' with
  | [] => n = 0 /\ w ++ bytes = w0 ++ total
  | v :: rest => 0 <= n < zlen v /\ concat (drop (Z.to_nat n) v :: rest) <> [] /\ (w ++ bytes) ++ concat (drop (Z.to_nat n) v :: rest) = w0 ++ total /\
      zlen (concat (drop (Z.to_nat n) v :: rest)) = zlen (concat iov) - zlen bytes
  end.
Proof.
  intros Hw bytes. pose proof (iov_advance_spec iov (zlen bytes)) as Hs.
  assert (Hle : 0 <= zlen bytes <= zlen (concat iov)) by (unfold bytes; rewrite length_take; lia).
  specialize (Hs Hle). destruct (iov_advance (zlen bytes) iov) as [n iov']. destruct Hs as (H0 & Hd & Hn).
  assert (Hsplit : bytes ++ drop (Z.to_nat (zlen bytes)) (concat iov) = concat iov).
  { assert (Hb : bytes = take (length bytes) (concat iov)).
    { unfold bytes. by rewrite length_take, <- take_take, firstn_all. }
    rewrite Nat2Z.id, Hb at 1. apply take_drop. }
  destruct iov' as [|v rest].
  - split; [done|]. subst n. cbn in Hd. rewrite <- Hd, app_nil_r in Hsplit. by rewrite Hsplit.
  - assert (E : concat (drop (Z.to_nat n) v :: rest) = drop (Z.to_nat (zlen bytes)) (concat iov)).
    { cbn [concat] in *. rewrite <- Hd, drop_app_le by lia. done. }
    split; [lia|]. split.
    { cbn [concat]. intros [Hz _]%app_eq_nil. assert (Hl : length (drop (Z.to_nat n) v) = 0%nat) by (by rewrite Hz).
      rewrite length_drop in Hl. lia. }
    rewrite E, <- app_assoc, Hsplit. split; [done|]. rewrite length_drop. lia.
Qed.

(** ** The outcomes of dosend *)
(** Errors have a number. *)
Definition errnos (s : sdst) : Prop := Forall (fun p => p <> SdErr 0) (sd_plan s) /\ Forall (fun p => p <> Some 0) (polls s).
(** A call that returns 0 has put the whole frame on the wire, in one piece, and the
    thread is the lwp it was; a call that fails has put a proper beginning of it
    there and leaves the thread running as the lwp that was made for sending. *)
Definition sent_or_error (fresh : Z) (iov : list (list Z)) (s : sdst) (r : Z) (s' : sdst) : Prop :=
  (r = 0 /\ wire s' = wire s ++ concat iov /\ curlwp s' = curlwp s) \/
  (r <> 0 /\ (exists sent rest, wire s' = wire s ++ sent /\ concat iov = sent ++ rest /\ rest <> []) /\ curlwp s' = fresh).

Section Outcomes.
Context (fresh : Z) (iov : list (list Z)) (s : sdst).
(** What is on the wire and what is left of the frame, between the rounds. *)
Definition sending (l : list (list Z) * Z) (t : sdst) : Prop :=
  curlwp t = fresh /\ errnos t /\ exists sent, wire t = wire s ++ sent /\ concat iov = sent ++ concat l.1 /\ concat l.1 <> [].
Definition sending_ends (e : Z) (t : sdst) : Prop :=
  curlwp t = fresh /\ exists sent rest, wire t = wire s ++ sent /\ concat iov = sent ++ rest /\ (e = 0 <-> rest = []).
Definition round_outcome (r : (list (list Z) * Z) + Z) (t : sdst) : Prop :=
  match r with inl l => sending l t | inr e => sending_ends e t end.

Lemma sending_error e l t t' : sending l t -> wire t' = wire t -> curlwp t' = curlwp t -> e <> 0 -> sending_ends e t'.
Proof. intros (Hc & _ & sent & Hw & E & Hne) Hw' Hl He. split; [by rewrite Hl|]. exists sent, (concat l.1). by rewrite Hw'. Qed.
Lemma send_chunk_outcome iov' w plan ps r t : sending (iov', 0) (Sd w plan ps fresh) ->
  send_chunk iov' (Sd w plan ps fresh) = Done (r, t) -> round_outcome r t.
Proof.
  intros H. pose proof H as (_ & (Hp & Hq) & sent & Hw & E & Hne). cbn [fst sd_plan polls wire] in *.
  unfold send_chunk, cbind, mget, mput. cbn [sd_plan wire polls curlwp].
  destruct plan as [|p plan]; [done|]. apply Forall_cons in Hp as [Hp0 Hp]. destruct p as [k| |e].
  - assert (Hb : 1 <= zlen (take (Z.to_nat (Z.max 1 k)) (concat iov'))) by (rewrite length_take; destruct (concat iov'); [done|cbn [length]; lia]).
    rewrite (proj2 (Z.eqb_neq _ _)) by lia.
    pose proof (wire_round sent [] (concat iov) iov' (Z.to_nat (Z.max 1 k)) (eq_sym E)) as Hr. cbv zeta in Hr. cbn [app] in Hr.
    destruct (iov_advance _ iov') as [m [|v rest]].
    + destruct Hr as [-> Hr]. cbn. intros [= <- <-]. split; [done|]. eexists _, []. split_and!; [by rewrite Hw, <- app_assoc|by rewrite app_nil_r|done].
    + destruct Hr as (_ & Hn & Hr & _). intros [= <- <-]. split; [done|]. split; [done|]. eexists. split_and!; [by rewrite Hw, <- app_assoc|by rewrite <- Hr|done].
  - intros [= <- <-]. by eapply (sending_error _ _ _ _ H).
  - destruct (negb (e =? EAGAIN)); intros [= <- <-]; [eapply (sending_error _ _ _ _ H); [done|done|by intros ->]|].
    split; [done|]. split; [done|]. by exists sent.
Qed.
Lemma send_round_outcome l t r t' : sending l t -> send_iov_round l t = Done (r, t') -> round_outcome r t'.
Proof.
  destruct l as [iov' n], t as [w plan ps lw]. intros H. pose proof H as (Hc & (Hp & Hq) & Hs). cbn [curlwp sd_plan polls] in *. subst lw.
  unfold send_iov_round. destruct (negb (n =? 0)); [|by apply send_chunk_outcome].
  unfold cbind, mget, mput. cbn [polls wire sd_plan curlwp]. destruct ps as [|p ps]; [done|]. apply Forall_cons in Hq as [Hp0 Hq].
  destruct p as [e|]; [|by apply send_chunk_outcome].
  destruct (e =? EINTR); intros [= <- <-]; [by split|]. eapply (sending_error _ _ _ _ H); [done|done|by intros ->].
Qed.
Lemma dosend_outcome r s' : concat iov <> [] -> errnos s -> dosend fresh iov s = Done (r, s') -> sent_or_error fresh iov s r s'.
Proof.
  intros Hne He. unfold dosend, cbind, gets, modify at 1. cbn [wire sd_plan polls curlwp].
  set (s1 := Sd (wire s) (sd_plan s) (polls s) fresh).
  destruct (loopM send_iov_round (iov, 0) s1) as [[e t]| |] eqn:El; [|done|done].
  assert (Ht : sending_ends e t).
  { refine (loop_returns send_iov_round sending sending_ends (iov, 0) s1 e t _ _ El).
    - intros l t0 r0 t1 Hl E. by pose proof (send_round_outcome _ _ _ _ Hl E) as H.
    - split; [done|]. split; [done|]. exists []. by rewrite app_nil_r. }
  destruct Ht as (Hl & sent & rest & Hw & E & H0). destruct (Z.eqb_spec e 0) as [-> | Hn]; cbn [negb].
  - intros H. left. rewrite (proj1 H0 eq_refl), app_nil_r in E. subst sent.
    destruct (Z.eqb_spec (curlwp s) 0) as [E0|E0]; cbn in H; injection H as <- <-; cbn; split_and!; auto.
  - intros [= <- <-]. right. split; [done|]. split; [|done]. exists sent, rest. split_and!; [done|done|tauto].
Qed.
End Outcomes.

(** A socket that takes something now and then: no errors, as many successful calls
    as there are bytes, and poll returns as often as sendmsg is called. *)
Definition sd_good (p : sdres) : bool := match p with SdSome _ => true | SdErr e => e =? EAGAIN | SdZero => false end.
Definition sd_takes (p : sdres) : bool := match p with SdSome _ => true | _ => false end.
Definition poll_good (p : option Z) : bool := match p with None => true | Some e => e =? EINTR end.
Definition poll_ready (p : option Z) : bool := match p with None => true | _ => false end.
Definition count {A} (t : A -> bool) (l : list A) : Z := foldr (fun a n => (if t a then 1 else 0) + n) 0 l.
Lemma count_cons {A} (t : A -> bool) a l : count t (a :: l) = (if t a then 1 else 0) + count t l.
Proof. done. Qed.
Lemma count_nonneg {A} (t : A -> bool) l : 0 <= count t l.
Proof. induction l as [|a l IH]; [done|]. rewrite count_cons. destruct (t a); lia. Qed.

Definition accepting (len : Z) (s : sdst) : Prop :=
  forallb sd_good (sd_plan s) = true /\ forallb poll_good (polls s) = true /\
  len <= count sd_takes (sd_plan s) /\ zlen (sd_plan s) <= count poll_ready (polls s).

Definition accepted (m : Z) (r : (list (list Z) * Z) + Z) (s' : sdst) : Prop :=
  match r with
  | inl (iov', _) => concat iov' <> [] /\ accepting (zlen (concat iov')) s' /\ zlen (sd_plan s') + zlen (polls s') < m
  | inr e => e = 0
  end.

(** One more poll may have been used than calls of sendmsg. *)
Lemma wp_send_chunk iov w plan ps lw m : concat iov <> [] -> forallb sd_good plan = true -> forallb poll_good ps = true ->
  zlen (concat iov) <= count sd_takes plan -> zlen plan <= count poll_ready ps + 1 -> zlen plan + zlen ps <= m ->
  wp (send_chunk iov) (accepted m) (Sd w plan ps lw).
Proof.
  intros Hne Hp Hq Hlen Hc Hm.
  assert (Hpos : 0 < zlen (concat iov)) by (destruct (concat iov); [done|cbn; lia]).
  unfold send_chunk. apply wp_bind, wp_get. cbn [sd_plan wire polls curlwp].
  destruct plan as [|p plan]; [cbn in Hlen; lia|]. rewrite count_cons in Hlen. cbn [length forallb] in *.
  apply andb_prop in Hp as [Hp0 Hp]. destruct p as [k| |e]; [|done|]; apply wp_bind; unfold mput; unfold wp at 1.
  - cbv zeta. set (bytes := take (Z.to_nat (Z.max 1 k)) (concat iov)).
    assert (Hb : 1 <= zlen bytes) by (unfold bytes; rewrite length_take; lia).
    rewrite (proj2 (Z.eqb_neq _ _)) by lia.
    pose proof (wire_round w [] (w ++ concat iov) iov (Z.to_nat (Z.max 1 k)) eq_refl) as Hr. cbv zeta in Hr. fold bytes in Hr.
    destruct (iov_advance (zlen bytes) iov) as [j [|v rest]].
    + destruct Hr as [-> _]. apply wp_bind, wp_assert; [done|]. by apply wp_ret.
    + destruct Hr as (Hj & _ & _ & Hl). apply wp_ret. cbn [sd_takes] in Hlen. split_and!.
      * intros E. cbn [concat] in E. apply app_eq_nil in E as [E _].
        assert (Hz : length (drop (Z.to_nat j) v) = 0%nat) by (by rewrite E). rewrite length_drop in Hz. lia.
      * split_and!; try done; cbn [sd_plan polls]; lia.
      * cbn [sd_plan polls]. lia.
  - cbn [sd_good] in Hp0. apply Z.eqb_eq in Hp0 as ->. cbn [Z.eqb EAGAIN negb]. apply wp_ret. cbn [sd_takes] in Hlen.
    split_and!; [done| |cbn [sd_plan polls]; lia]. split_and!; try done; cbn [sd_plan polls]; lia.
Qed.

Lemma wp_send_iov_round iov n s : concat iov <> [] -> accepting (zlen (concat iov)) s ->
  wp (send_iov_round (iov, n)) (accepted (zlen (sd_plan s) + zlen (polls s))) s.
Proof.
  intros Hne (Hp & Hq & Hlen & Hpo). destruct s as [w plan ps lw]. cbn [sd_plan polls] in *. unfold send_iov_round.
  destruct (negb (n =? 0)); [|apply wp_send_chunk; (done || lia)].
  apply wp_bind, wp_get. cbn [polls wire sd_plan curlwp]. destruct ps as [|p ps].
  { exfalso. cbn in Hpo. destruct plan; [|cbn in Hpo; lia]. cbn in Hlen. destruct (concat iov); [done|cbn in Hlen; lia]. }
  apply wp_bind. unfold mput. unfold wp at 1. cbn [forallb length] in *. apply andb_prop in Hq as [Hq0 Hq]. rewrite count_cons in Hpo.
  destruct p as [e|]; cbn [poll_ready poll_good] in *.
  - rewrite Hq0. apply wp_ret. split_and!; [done| |cbn [sd_plan polls]; lia]. split_and!; try done; cbn [sd_plan polls]; lia.
  - apply wp_send_chunk; (done || lia).
Qed.

(** C27. Sending a frame.  On a socket that goes on taking bytes, however little each
    call takes, dosend ends, returns 0, the wire has the frame, and the thread is the
    lwp it was.  On every socket, when dosend returns 0 the whole frame is on the wire
    and the thread is the lwp it was, and when it returns an error a proper beginning
    of the frame is there and the thread still runs as the lwp made for sending. *)
Theorem dosend_completes fresh iov s : concat iov <> [] -> errnos s ->
  (accepting (zlen (concat iov)) s -> zlen (sd_plan s) + zlen (polls s) < 2 ^ 63 ->
   wp (dosend fresh iov) (fun r s' => r = 0 /\ wire s' = wire s ++ concat iov /\ curlwp s' = curlwp s) s) /\
  (forall r s', dosend fresh iov s = Done (r, s') -> sent_or_error fresh iov s r s').
Proof.
  intros Hne He. split; [|by intros; apply dosend_outcome]. intros Hacc Hfuel.
  assert (Hw : wp (dosend fresh iov) (fun r _ => r = 0) s).
  { unfold dosend. apply wp_bind, wp_gets, wp_bind, wp_modify, wp_bind. eapply wp_mono.
    - apply wp_loop with (I := fun l t => concat l.1 <> [] /\ accepting (zlen (concat l.1)) t)
        (meas := fun _ t => zlen (sd_plan t) + zlen (polls t)) (Q := fun e _ => e = 0); [|done|cbn [sd_plan polls]; lia].
      intros [iov' n] t [Hn Ha]. split; [lia|]. eapply wp_mono; [by apply wp_send_iov_round|].
      intros [[iov2 m]|e] t' H; [|done]. destruct H as (? & ? & ?). split; [done|lia].
    - intros e t ->. cbn [Z.eqb negb]. apply wp_bind, wp_modify, wp_bind.
      destruct (negb (curlwp s =? 0)); [apply wp_modify|apply wp_ret]; by apply wp_ret. }
  destruct (wp_run _ _ _ Hw) as (r & s' & E & ->). eapply run_wp; [exact E|].
  by destruct (dosend_outcome fresh iov s 0 s' Hne He E) as [H|[? _]].
Qed.

(** ** Witnesses *)
Definition sample_frame (n : Z) (data : list Z) : frame := (RspHdr (24 + zlen data) n 0 1 7, data).
Definition sample_frames : list frame := [sample_frame 1 [5; 6; 7]; sample_frame 2 []; sample_frame 3 [9]].
Definition sample_sock : list Z := take 60 (stream sample_frames).
Definition sample_rd : rdst := Rd (replicate 24 0) None 0 sample_sock (replicate 160 (RdSome 7)).

Lemma sample_frame_ok n data : 0 <= n < 1000 -> zlen data < 1000 -> frame_ok (sample_frame n data).
Proof. intros Hn Hd. split; [|done]. unfold hdr_wf. cbn. lia. Qed.

Lemma frames_reassembled_witness :
  wp (collect (fun _ => true) 80) (fun fs s' => exists fs' cur, sample_frames = fs ++ fs' /\
    sock sample_rd = stream fs ++ cur ++ sock s' /\ (forall f, head fs' = Some f -> zlen cur < zlen (enc f)) /\
    (Forall eager (rd_plan sample_rd) -> (2 * 80 <= length (rd_plan sample_rd))%nat ->
      (length (sock sample_rd) <= 80)%nat -> sock s' = [])) sample_rd.
Proof.
  apply (frames_reassembled (fun _ => true) 80 sample_frames (drop 60 (stream sample_frames)) sample_rd).
  - unfold sample_frames. rewrite !Forall_cons. split_and!; [apply sample_frame_ok; cbn; lia..|apply Forall_nil, I].
  - done.
  - split_and!; try done. by apply Forall_replicate.
  - apply take_drop.
  - vm_compute. done.
Defined.

Definition sample_sd : sdst := Sd [1] (SdSome 2 :: SdErr 35 :: replicate 8 (SdSome 1)) (Some 4 :: replicate 10 None) 77.
(** A socket whose other end goes away after one byte. *)
Definition sample_lost : sdst := Sd [1] [SdSome 1; SdErr 32] [None; None] 77.
Lemma dosend_completes_witness :
  wp (dosend 99 [[10; 11]; []; [12; 13; 14]]) (fun r s' => r = 0 /\ wire s' = [1; 10; 11; 12; 13; 14] /\ curlwp s' = 77) sample_sd /\
  dosend 99 [[10; 11]] sample_lost = Done (32, Sd [1; 10] [] [None] 99) /\
  sent_or_error 99 [[10; 11]] sample_lost 32 (Sd [1; 10] [] [None] 99).
Proof.
  assert (H : dosend 99 [[10; 11]] sample_lost = Done (32, Sd [1; 10] [] [None] 99)) by (by vm_compute).
  split; [|split; [exact H|]].
  - apply (dosend_completes 99 [[10; 11]; []; [12; 13; 14]] sample_sd); [done| |by split_and!; vm_compute|done].
    by split; repeat constructor.
  - apply (dosend_completes 99 [[10; 11]] sample_lost); [done| |exact H]. by split; repeat constructor.
Defined.
