(* ===== verification/SpServer.v ===== *)
(** * Remote system calls: the server (lib/librumprun_base/sysproxy.c)

    One thread accepts connections, reads frames and answers the simple ones;
    system calls and exec are queued for a pool of workers.  A slot of [clients]
    is [struct spclient]; its references are the connection and the queued or
    running pieces of work.  The rump kernel's process calls are recorded and
    their results are parameters; a frame is sent as a whole, and recorded by client, or
    the send fails.  The current lwp is that of the main thread; a worker has its own.
    Lengths and buffers are those of SpWire. *)
From S2P Require Import Prelude SpWire.

Definition RUMPSP_REQ : Z := 0.
Definition RUMPSP_RESP : Z := 1.
Definition RUMPSP_ERROR : Z := 2.
Definition RUMPSP_HANDSHAKE : Z := 0.
Definition RUMPSP_SYSCALL : Z := 1.
Definition RUMPSP_COPYIN : Z := 2.
Definition RUMPSP_COPYINSTR : Z := 3.
Definition RUMPSP_COPYOUT : Z := 4.
Definition RUMPSP_ANONMMAP : Z := 6.
Definition RUMPSP_PREFORK : Z := 7.
Definition RUMPSP_RAISE : Z := 8.
Definition HANDSHAKE_GUEST : Z := 0.
Definition HANDSHAKE_FORK : Z := 2.
Definition HANDSHAKE_EXEC : Z := 3.
Definition MAXCLI : Z := 256.
Definition AUTHBYTES : Z := 16.

Inductive rumpsp_err :=
| RUMPSP_ERR_NONE | RUMPSP_ERR_TRYAGAIN | RUMPSP_ERR_AUTH | RUMPSP_ERR_INVALID_PREFORK
| RUMPSP_ERR_RFORK_FAILED | RUMPSP_ERR_INEXEC | RUMPSP_ERR_NOMEM | RUMPSP_ERR_MALFORMED_REQUEST.
Definition err_num (e : rumpsp_err) : Z :=
  match e with
  | RUMPSP_ERR_NONE => 0 | RUMPSP_ERR_TRYAGAIN => 1 | RUMPSP_ERR_AUTH => 2 | RUMPSP_ERR_INVALID_PREFORK => 3
  | RUMPSP_ERR_RFORK_FAILED => 4 | RUMPSP_ERR_INEXEC => 5 | RUMPSP_ERR_NOMEM => 6 | RUMPSP_ERR_MALFORMED_REQUEST => 7
  end.
(** [errmap]: NetBSD's numbers. *)
Definition errmap (e : Z) : Z :=
  if e =? 0 then 0 else if e =? 2 then 1 else if e =? 1 then 35 else if e =? 3 then 3 else if e =? 4 then 5
  else if e =? 5 then 16 else if e =? 6 then 12 else if e =? 7 then 22 else -1.

(** [struct respwait]: by address. *)
Record respwait := Rw { rw_addr : Z; rw_reqno : Z; rw_data : option (list Z); rw_dlen : Z; rw_done : bool; rw_error : Z }.

Inductive spcstate := SPCSTATE_NEW | SPCSTATE_RUNNING | SPCSTATE_DYING.
#[global] Instance spcstate_dec : EqDecision spcstate.
Proof. solve_decision. Defined.

(** [struct spclient]. *)
Record client := Cl {
  cl_fd : Z;
  cl_refcnt : Z;
  cl_state : spcstate;
  cl_mainlwp : Z;
  cl_pid : Z;
  cl_respwait : list respwait;
  cl_hdr : rsp_hdr;
  cl_buf : option (list Z);
  cl_off : Z;
  cl_nextreq : Z;
  cl_syscallreq : Z;
  cl_inexec : bool
}.

Inductive sbatype := SBA_SYSCALL | SBA_EXEC.
(** [struct servbouncearg]. *)
Record sba := Sba { sba_spc : Z; sba_hdr : rsp_hdr; sba_type : sbatype; sba_data : option (list Z) }.
(** [struct prefork]. *)
Record prefork := Pf { pf_auth : list Z; pf_lwp : Z }.

Inductive kcall :=
| KSwitch (l : Z) | KRelease | KRfork (spc flags : Z) (comm : option (list Z)) | KNewlwp (pid : Z)
| KExecnotify (comm : list Z) | KLwpexit | KSyscall (num : Z) (data : option (list Z)).

Record server := Server {
  clients : list client;
  pfds : list Z;                         (* pfdlist[i].fd *)
  preforks : list prefork;
  wrklist : list sba;
  disco : Z;
  curlwp : Z;
  kn_log : list kcall;
  sent : list (Z * frame);               (* per client index *)
  shut : list Z;                         (* descriptors shut down *)
  closed : list Z;                       (* descriptors closed *)
  overruns : Z                           (* bytes written past a buffer's end *)
}.

Definition set_clients v s := Server v (pfds s) (preforks s) (wrklist s) (disco s) (curlwp s) (kn_log s) (sent s) (shut s) (closed s) (overruns s).
Definition set_pfds v s := Server (clients s) v (preforks s) (wrklist s) (disco s) (curlwp s) (kn_log s) (sent s) (shut s) (closed s) (overruns s).
Definition set_preforks v s := Server (clients s) (pfds s) v (wrklist s) (disco s) (curlwp s) (kn_log s) (sent s) (shut s) (closed s) (overruns s).
Definition set_wrklist v s := Server (clients s) (pfds s) (preforks s) v (disco s) (curlwp s) (kn_log s) (sent s) (shut s) (closed s) (overruns s).
Definition set_disco v s := Server (clients s) (pfds s) (preforks s) (wrklist s) v (curlwp s) (kn_log s) (sent s) (shut s) (closed s) (overruns s).
Definition set_kern lwp log s := Server (clients s) (pfds s) (preforks s) (wrklist s) (disco s) lwp log (sent s) (shut s) (closed s) (overruns s).
Definition set_sent v s := Server (clients s) (pfds s) (preforks s) (wrklist s) (disco s) (curlwp s) (kn_log s) v (shut s) (closed s) (overruns s).
Definition set_shut v s := Server (clients s) (pfds s) (preforks s) (wrklist s) (disco s) (curlwp s) (kn_log s) (sent s) v (closed s) (overruns s).
Definition set_closed v s := Server (clients s) (pfds s) (preforks s) (wrklist s) (disco s) (curlwp s) (kn_log s) (sent s) (shut s) v (overruns s).
Definition add_overrun s := Server (clients s) (pfds s) (preforks s) (wrklist s) (disco s) (curlwp s) (kn_log s) (sent s) (shut s) (closed s) (overruns s + 1).

Definition the_client (i : Z) : M server client := s <-- mget ;; mopt (clients s !! Z.to_nat i) "spclist".
Definition put_client (i : Z) (c : client) : M server unit := modify (fun s => set_clients (<[Z.to_nat i := c]> (clients s)) s).
Definition upd_client (i : Z) (f : client -> client) : M server unit := c <-- the_client i ;; put_client i (f c).

Definition set_ref v c := Cl (cl_fd c) v (cl_state c) (cl_mainlwp c) (cl_pid c) (cl_respwait c) (cl_hdr c) (cl_buf c) (cl_off c) (cl_nextreq c) (cl_syscallreq c) (cl_inexec c).
Definition set_state v c := Cl (cl_fd c) (cl_refcnt c) v (cl_mainlwp c) (cl_pid c) (cl_respwait c) (cl_hdr c) (cl_buf c) (cl_off c) (cl_nextreq c) (cl_syscallreq c) (cl_inexec c).
Definition set_mainlwp v c := Cl (cl_fd c) (cl_refcnt c) (cl_state c) v (cl_pid c) (cl_respwait c) (cl_hdr c) (cl_buf c) (cl_off c) (cl_nextreq c) (cl_syscallreq c) (cl_inexec c).
Definition set_pid v c := Cl (cl_fd c) (cl_refcnt c) (cl_state c) (cl_mainlwp c) v (cl_respwait c) (cl_hdr c) (cl_buf c) (cl_off c) (cl_nextreq c) (cl_syscallreq c) (cl_inexec c).
Definition set_wait v c := Cl (cl_fd c) (cl_refcnt c) (cl_state c) (cl_mainlwp c) (cl_pid c) v (cl_hdr c) (cl_buf c) (cl_off c) (cl_nextreq c) (cl_syscallreq c) (cl_inexec c).
Definition set_inexec v c := Cl (cl_fd c) (cl_refcnt c) (cl_state c) (cl_mainlwp c) (cl_pid c) (cl_respwait c) (cl_hdr c) (cl_buf c) (cl_off c) (cl_nextreq c) (cl_syscallreq c) v.
Definition set_sysreq v c := Cl (cl_fd c) (cl_refcnt c) (cl_state c) (cl_mainlwp c) (cl_pid c) (cl_respwait c) (cl_hdr c) (cl_buf c) (cl_off c) (cl_nextreq c) v (cl_inexec c).
Definition set_nextreq v c := Cl (cl_fd c) (cl_refcnt c) (cl_state c) (cl_mainlwp c) (cl_pid c) (cl_respwait c) (cl_hdr c) (cl_buf c) (cl_off c) v (cl_syscallreq c) (cl_inexec c).
(** [spcresetbuf] and [spcfreebuf]. *)
Definition reset_buf c := Cl (cl_fd c) (cl_refcnt c) (cl_state c) (cl_mainlwp c) (cl_pid c) (cl_respwait c) (cl_hdr c) None 0 (cl_nextreq c) (cl_syscallreq c) (cl_inexec c).
Definition spcfreebuf (i : Z) : M server unit := upd_client i reset_buf.

(** ** The rump kernel *)
Definition kern_log (k : kcall) : M server unit := modify (fun s => set_kern (curlwp s) (kn_log s ++ [k]) s).
Definition lwproc_switch (l : Z) : M server unit := modify (fun s => set_kern l (kn_log s ++ [KSwitch l]) s).
Definition lwproc_release : M server unit := modify (fun s => set_kern 0 (kn_log s ++ [KRelease]) s).
Definition lwproc_curlwp : M server Z := gets curlwp.
Definition lwproc_lwpexit : M server unit := kern_log KLwpexit.
(** [e] and [l]: the result and the new lwp. *)
Definition lwproc_rfork (e l : Z) (i flags : Z) (comm : option (list Z)) : M server Z :=
  modify (fun s => set_kern (if e =? 0 then l else curlwp s) (kn_log s ++ [KRfork i flags comm]) s) ;;; cret e.

Definition RUMP_RFFD_CLEAR : Z := 1.
Definition RUMP_RFFD_SHARE : Z := 0.
Definition RUMP_RFFD_COPY : Z := 2.

Definition lwproc_newlwp (e l pid : Z) : M server Z :=
  modify (fun s => set_kern (if e =? 0 then l else curlwp s) (kn_log s ++ [KNewlwp pid]) s) ;;; cret e.

(** ** Sending

    What becomes of a send: whether process 1 gets a new lwp, that lwp, and the error that
    the socket ends it with, 0 when all has been sent. *)
Record sending := Snd { snd_new : Z; snd_lwp : Z; snd_err : Z }.
Section Sends.
Variable snd : sending.
(** dosend: an error leaves the thread with the lwp it was sending as. *)
Definition send_frame (i : Z) (h : rsp_hdr) (data : list Z) : M server Z :=
  mylwp <-- lwproc_curlwp ;;
  lwproc_newlwp (snd_new snd) (snd_lwp snd) 1 ;;;
  if negb (snd_err snd =? 0) then cret (snd_err snd) else
  modify (fun s => set_sent (sent s ++ [(i, (h, data))]) s) ;;;
  lwproc_release ;;;
  (if negb (mylwp =? 0) then lwproc_switch mylwp else cret tt) ;;;
  cret 0.
Definition send_error_resp (i reqno : Z) (error : rumpsp_err) : M server unit :=
  send_frame i (RspHdr HDRSZ reqno RUMPSP_ERROR 0 (err_num error)) [] ;;; cret tt.
Definition send_handshake_resp (i reqno error : Z) : M server Z :=
  send_frame i (RspHdr (HDRSZ + 4) reqno RUMPSP_RESP RUMPSP_HANDSHAKE 0) (le 4 error).
(** [struct rsp_sysresp]: an int, padding, and two registers. *)
Definition send_syscall_resp (i reqno error r0 r1 : Z) : M server Z :=
  send_frame i (RspHdr (HDRSZ + 24) reqno RUMPSP_RESP RUMPSP_SYSCALL 0) (le 8 error ++ le 8 r0 ++ le 8 r1).
Definition send_prefork_resp (i reqno : Z) (auth : list Z) : M server Z :=
  send_frame i (RspHdr (HDRSZ + AUTHBYTES) reqno RUMPSP_RESP RUMPSP_PREFORK 0) auth.
End Sends.
Definition shutdown (i : Z) : M server unit := c <-- the_client i ;; modify (fun s => set_shut (shut s ++ [cl_fd c]) s).

(** ** References *)
Definition spcref (i : Z) : M server unit := upd_client i (fun c => set_ref (cl_refcnt c + 1) c).

Definition spcrelease (i : Z) : M server unit :=
  upd_client i (fun c => set_ref (cl_refcnt c - 1) c) ;;;
  c <-- the_client i ;;
  if 0 <? cl_refcnt c then cret tt else
  massert (match cl_respwait c with [] => true | _ => false end) "_DIAGASSERT(TAILQ_EMPTY(&spc->spc_respwait))" ;;;
  massert (match cl_buf c with None => true | _ => false end) "_DIAGASSERT(spc->spc_buf == NULL)" ;;;
  (if negb (cl_mainlwp c =? 0) then lwproc_switch (cl_mainlwp c) ;;; lwproc_release else cret tt) ;;;
  modify (fun s => set_closed (closed s ++ [cl_fd c]) s) ;;;
  upd_client i (fun c => Cl (-1) (cl_refcnt c) SPCSTATE_NEW 0 (cl_pid c) (cl_respwait c) (cl_hdr c) (cl_buf c) (cl_off c) (cl_nextreq c) (cl_syscallreq c) (cl_inexec c)) ;;;
  modify (fun s => set_disco (disco s + 1) s).

(** [memset((char * )spc + SPC_ZEROFF, 0, ...)]. *)
Definition zero_tail c := Cl (cl_fd c) (cl_refcnt c) (cl_state c) (cl_mainlwp c) (cl_pid c) (cl_respwait c) (RspHdr 0 0 0 0 0) None 0 0 0 false.

Definition serv_handledisco (i : Z) : M server unit :=
  modify (fun s => set_pfds (<[Z.to_nat i := -1]> (pfds s)) s) ;;;
  upd_client i (set_state SPCSTATE_DYING) ;;;
  c <-- the_client i ;;
  (if negb (cl_inexec c) && negb (cl_mainlwp c =? 0)
   then lwproc_switch (cl_mainlwp c) ;;; lwproc_lwpexit ;;; lwproc_switch 0 else cret tt) ;;;
  upd_client i zero_tail ;;;
  spcrelease i.

Definition serv_shutdown_one (i : Z) : M server unit :=
  c <-- the_client i ;;
  if cl_fd c =? -1 then cret tt else shutdown i ;;; serv_handledisco i ;;; spcrelease i.
Definition serv_shutdown : M server unit := mfor serv_shutdown_one (seqZ 1 (MAXCLI - 1)).

(** The slot search; MAXCLI when there is none. *)
Definition slot_free (s : server) (i : nat) : bool :=
  match pfds s !! i, clients s !! i with
  | Some fd, Some c => (fd =? -1) && bool_decide (cl_state c = SPCSTATE_NEW)
  | _, _ => false
  end.
Fixpoint find_slot (s : server) (n i : nat) : nat :=
  match n with O => i | S n => if slot_free s i then i else find_slot s n (S i) end.

(** What accept, fcntl, the connection hook and the send of the banner answer. *)
Record newconn := Conn { nc_fd : Z; nc_fcntl : Z; nc_hook : Z; nc_banner : bool }.
(** The index, or 0. *)
Definition serv_handleconn (n : newconn) (busy : bool) : M server Z :=
  let newfd := nc_fd n in
  let turn_down := modify (fun s => set_closed (closed s ++ [newfd]) s) ;;; cret 0 in
  if newfd =? -1 then cret 0 else
  if busy then turn_down else
  if nc_fcntl n =? -1 then turn_down else
  if negb (nc_hook n =? 0) then turn_down else
  if negb (nc_banner n) then turn_down else
  s <-- mget ;;
  let i := Z.of_nat (find_slot s (Z.to_nat MAXCLI) 0) in
  massert (negb (i =? MAXCLI)) "abort()" ;;;
  modify (fun s => set_pfds (<[Z.to_nat i := newfd]> (pfds s)) s) ;;;
  upd_client i (fun c => Cl newfd 1 (cl_state c) (cl_mainlwp c) (cl_pid c) [] (cl_hdr c) (cl_buf c) (cl_off c) (cl_nextreq c) (cl_syscallreq c) (cl_inexec c)) ;;;
  cret i.

(** ** Requests *)

(** [malloc_sba]: whether malloc finds room for a work item.  Without it the code
    tries for ever while there are workers ([retries] is never increased). *)
Section Requests.
Variables (snd : sending) (malloc_sba : bool) (nworker : Z) (pid_of : Z -> Z) (malloc_pf : bool) (random : list Z) (rfork_err rfork_lwp : Z).

Definition schedulework (i : Z) (ty : sbatype) : M server unit :=
  c <-- the_client i ;;
  let reqno := rsp_reqno (cl_hdr c) in
  if negb malloc_sba then
    if nworker =? 0 then send_error_resp snd i reqno RUMPSP_ERR_TRYAGAIN ;;; spcfreebuf i else mnofuel
  else
  upd_client i reset_buf ;;;
  spcref i ;;;
  modify (fun s => set_wrklist (wrklist s ++ [Sba i (cl_hdr c) ty (cl_buf c)]) s).

(** [comm[commlen] = 0], just behind the buffer that readframe allocated. *)
Definition terminate_comm (i : Z) : M server (list Z) :=
  c <-- the_client i ;;
  match cl_buf c with
  | None => mhalt "comm is NULL"
  | Some b => modify add_overrun ;;; cret b
  end.

Definition reject (i reqno : Z) (e : rumpsp_err) : M server unit :=
  send_error_resp snd i reqno e ;;; shutdown i ;;; spcfreebuf i.

(** The end of a handshake. *)
Definition handshake_done (i reqno : Z) : M server unit :=
  l <-- lwproc_curlwp ;;
  upd_client i (set_pid (pid_of l)) ;;;
  lwproc_switch 0 ;;;
  upd_client i (set_state SPCSTATE_RUNNING).

Definition handshake_guest (i reqno : Z) : M server unit :=
  comm <-- terminate_comm i ;;
  l <-- lwproc_curlwp ;;
  massert (l =? 0) "_DIAGASSERT(lwproc_curlwp() == NULL)" ;;;
  error <-- lwproc_rfork rfork_err rfork_lwp i RUMP_RFFD_CLEAR (Some comm) ;;
  (if negb (error =? 0) then shutdown i else cret tt) ;;;
  spcfreebuf i ;;;
  if negb (error =? 0) then cret tt else
  l <-- lwproc_curlwp ;;
  upd_client i (set_mainlwp l) ;;;
  send_handshake_resp snd i reqno 0 ;;;
  handshake_done i reqno.

(** The first credential that matches, and the others. *)
Fixpoint take_prefork (auth : list Z) (l : list prefork) : option (prefork * list prefork) :=
  match l with
  | [] => None
  | p :: l => if bool_decide (pf_auth p = auth) then Some (p, l)
              else match take_prefork auth l with Some (q, r) => Some (q, p :: r) | None => None end
  end.

(** [struct handshake_fork]: the credential and the cancel flag. *)
Definition handshake_fork (i reqno : Z) : M server unit :=
  c <-- the_client i ;;
  if negb (u64 (cl_off c - HDRSZ) =? AUTHBYTES + 4) then reject i reqno RUMPSP_ERR_MALFORMED_REQUEST else
  b <-- mopt (cl_buf c) "spc_buf" ;;
  let auth := take (Z.to_nat AUTHBYTES) b in
  let cancel := negb (of_le (drop (Z.to_nat AUTHBYTES) b) =? 0) in
  s <-- mget ;;
  let found := take_prefork auth (preforks s) in
  (match found with Some (_, rest) => modify (set_preforks rest) | None => cret tt end) ;;;
  spcfreebuf i ;;;
  match found with
  | None => send_error_resp snd i reqno RUMPSP_ERR_INVALID_PREFORK ;;; shutdown i
  | Some (pf, _) =>
      let tmpmain := pf_lwp pf in
      lwproc_switch tmpmain ;;;
      if cancel : bool then lwproc_release ;;; shutdown i else
      error <-- lwproc_rfork rfork_err rfork_lwp i RUMP_RFFD_SHARE None ;;
      if negb (error =? 0) then send_error_resp snd i reqno RUMPSP_ERR_RFORK_FAILED ;;; shutdown i ;;; lwproc_release else
      l <-- lwproc_curlwp ;;
      upd_client i (set_mainlwp l) ;;;
      lwproc_switch tmpmain ;;; lwproc_release ;;; lwproc_switch l ;;;
      send_handshake_resp snd i reqno 0 ;;;
      handshake_done i reqno
  end.

Definition handle_prefork (i reqno : Z) : M server unit :=
  spcfreebuf i ;;;
  c <-- the_client i ;;
  if cl_inexec c then send_error_resp snd i reqno RUMPSP_ERR_INEXEC ;;; shutdown i else
  if negb malloc_pf then send_error_resp snd i reqno RUMPSP_ERR_NOMEM else
  lwproc_switch (cl_mainlwp c) ;;;
  error <-- lwproc_rfork rfork_err rfork_lwp i RUMP_RFFD_COPY None ;;
  if negb (error =? 0) then send_error_resp snd i reqno RUMPSP_ERR_RFORK_FAILED ;;; lwproc_switch 0 else
  l <-- lwproc_curlwp ;;
  lwproc_switch 0 ;;;
  modify (fun s => set_preforks (Pf random l :: preforks s) s) ;;;
  send_prefork_resp snd i reqno random ;;; cret tt.

Definition handle_exec (i reqno : Z) : M server unit :=
  c <-- the_client i ;;
  if negb (rsp_u (cl_hdr c) =? HANDSHAKE_EXEC) then reject i reqno RUMPSP_ERR_MALFORMED_REQUEST else
  if cl_inexec c then reject i reqno RUMPSP_ERR_INEXEC else
  upd_client i (set_inexec true) ;;;
  lwproc_switch (cl_mainlwp c) ;;; lwproc_lwpexit ;;; lwproc_switch 0 ;;;
  schedulework i SBA_EXEC.

Definition handlereq (i : Z) : M server unit :=
  c <-- the_client i ;;
  let reqno := rsp_reqno (cl_hdr c) in
  let type := rsp_type (cl_hdr c) in
  if bool_decide (cl_state c = SPCSTATE_NEW) then
    if negb (type =? RUMPSP_HANDSHAKE) then reject i reqno RUMPSP_ERR_AUTH
    else if rsp_u (cl_hdr c) =? HANDSHAKE_GUEST then handshake_guest i reqno
    else if rsp_u (cl_hdr c) =? HANDSHAKE_FORK then handshake_fork i reqno
    else reject i reqno RUMPSP_ERR_AUTH
  else if type =? RUMPSP_PREFORK then handle_prefork i reqno
  else if type =? RUMPSP_HANDSHAKE then handle_exec i reqno
  else if negb (type =? RUMPSP_SYSCALL) then send_error_resp snd i reqno RUMPSP_ERR_MALFORMED_REQUEST ;;; spcfreebuf i
  else schedulework i SBA_SYSCALL.
End Requests.

(** ** Answers *)
Fixpoint kick (reqno : Z) (f : respwait -> respwait) (l : list respwait) : option (list respwait) :=
  match l with
  | [] => None
  | w :: l => if rw_reqno w =? reqno then Some (f w :: l)
              else match kick reqno f l with Some l => Some (w :: l) | None => None end
  end.
Definition kickwaiter (i : Z) : M server unit :=
  c <-- the_client i ;;
  let h := cl_hdr c in
  let isr := rsp_class h =? RUMPSP_ERROR in
  match kick (rsp_reqno h) (fun w => Rw (rw_addr w) (rw_reqno w) (cl_buf c) (u64 (cl_off c - HDRSZ)) true
          (if isr then errmap (rsp_u h) else rw_error w)) (cl_respwait c) with
  | None => spcfreebuf i
  | Some l => upd_client i (set_wait l) ;;; upd_client i reset_buf
  end.

(** The dispatch of a complete frame in spserver. *)
Definition dispatch (snd : sending) (malloc_sba : bool) (nworker : Z) (pid_of : Z -> Z) (malloc_pf : bool) (random : list Z) (rfork_err rfork_lwp : Z)
    (i : Z) : M server unit :=
  c <-- the_client i ;;
  let cls := rsp_class (cl_hdr c) in
  if cls =? RUMPSP_RESP then kickwaiter i
  else if cls =? RUMPSP_REQ then handlereq snd malloc_sba nworker pid_of malloc_pf random rfork_err rfork_lwp i
  else send_error_resp snd i (rsp_reqno (cl_hdr c)) RUMPSP_ERR_MALFORMED_REQUEST ;;; spcfreebuf i.

(** ** Workers *)
Section Workers.
Variable snd : sending.

(** [newlwp], [lwp], [rv], [r0], [r1]: what the rump kernel answers. *)
Definition serv_handlesyscall (newlwp lwp rv r0 r1 : Z) (w : sba) : M server unit :=
  let i := sba_spc w in
  let reqno := rsp_reqno (sba_hdr w) in
  c <-- the_client i ;;
  error <-- lwproc_newlwp newlwp lwp (cl_pid c) ;;
  if negb (error =? 0) then send_syscall_resp snd i reqno error (-1) 0 ;;; cret tt else
  upd_client i (set_sysreq reqno) ;;;
  kern_log (KSyscall (rsp_u (sba_hdr w)) (sba_data w)) ;;;
  upd_client i (set_sysreq 0) ;;;
  lwproc_release ;;;
  send_syscall_resp snd i reqno rv r0 r1 ;;; cret tt.

(** serv_handleexec once the other references are gone; until then the worker
    sleeps. *)
Definition serv_handleexec (w : sba) : M server unit :=
  let i := sba_spc w in
  c <-- the_client i ;;
  if 2 <? cl_refcnt c then mnofuel else
  comm <-- mopt (sba_data w) "comm is NULL" ;;
  modify add_overrun ;;;
  lwproc_switch (cl_mainlwp c) ;;; kern_log (KExecnotify comm) ;;; lwproc_switch 0 ;;;
  upd_client i (set_inexec false) ;;;
  send_handshake_resp snd i (rsp_reqno (sba_hdr w)) 0 ;;; cret tt.

Definition serv_work (newlwp lwp rv r0 r1 : Z) (w : sba) : M server unit :=
  (match sba_type w with SBA_SYSCALL => serv_handlesyscall newlwp lwp rv r0 r1 w | SBA_EXEC => serv_handleexec w end) ;;;
  spcrelease (sba_spc w).
End Workers.
(** A thread whose current lwp is [l], beside the main thread. *)
Definition as_worker {A} (l : Z) (m : M server A) : M server A :=
  s <-- mget ;; modify (fun s => set_kern l (kn_log s) s) ;;;
  r <-- m ;; modify (fun s' => set_kern (curlwp s) (kn_log s') s') ;;; cret r.

(** ** Asking the client *)

(** [putwait]: a numbered place for the answer, the waiter known by its address. *)
Definition putwait (i addr : Z) : M server Z :=
  c <-- the_client i ;;
  upd_client i (fun c => set_nextreq (u64 (cl_nextreq c + 1))
    (set_wait (cl_respwait c ++ [Rw addr (cl_nextreq c) None 0 false 0]) c)) ;;;
  cret (cl_nextreq c).
Definition remove_wait (addr : Z) (l : list respwait) : list respwait := filter (fun w => rw_addr w <> addr) l.
(** [unputwait], after a send that failed. *)
Definition unputwait (i addr : Z) : M server unit := upd_client i (fun c => set_wait (remove_wait addr (cl_respwait c)) c).
(** [waitresp]: the result, the data and its length; the caller sleeps until there is
    an answer or the client is gone. *)
Definition waitresp (i addr : Z) : M server (Z * option (list Z) * Z) :=
  c <-- the_client i ;;
  w <-- mopt (list_find (fun w => rw_addr w = addr) (cl_respwait c)) "respwait" ;;
  let w := w.2 in
  let dying := bool_decide (cl_state c = SPCSTATE_DYING) in
  if negb (rw_done w) && negb dying then mnofuel else
  upd_client i (fun c => set_wait (remove_wait addr (cl_respwait c)) c) ;;;
  cret (if dying : bool then ENOTCONN else rw_error w, rw_data w, rw_dlen w).

Section Asking.
Variable snd : sending.
(** A question that could not be sent has no answer to wait for. *)
Definition ask_client (i addr : Z) (ask : Z -> M server Z) : M server Z :=
  n <-- putwait i addr ;;
  rv <-- ask n ;;
  (if negb (rv =? 0) then unputwait i addr else cret tt) ;;;
  cret rv.
(** copyin_req up to the wait; [struct rsp_copydata] is a length and an address. *)
Definition copyin_send (i addr remaddr dlen : Z) (wantstr : bool) : M server Z :=
  ask_client i addr (fun n => send_frame snd i (RspHdr (HDRSZ + 16) n RUMPSP_REQ (if wantstr then RUMPSP_COPYINSTR else RUMPSP_COPYIN) 0)
    (le 8 dlen ++ le 8 remaddr)).
(** sp_copyin from the wait on: EFAULT, or the bytes copied into the [room] bytes at
    [laddr]. *)
Definition EFAULT : Z := 14.
Definition copyin_end (i addr dlen room : Z) (wantstr : bool) : M server (Z * list Z) :=
  '(rv, rdata, rlen) <-- waitresp i addr ;;
  if negb (rv =? 0) then cret (EFAULT, []) else
  let len := if wantstr then rlen else dlen in
  let src := default [] rdata in
  massert (len <=? zlen src) "memcpy reads past the answer" ;;;
  massert (len <=? room) "memcpy writes past laddr" ;;;
  cret (0, take (Z.to_nat len) src).
(** send_copyout_req: nobody waits for the answer. *)
Definition nextreq (i : Z) : M server Z :=
  c <-- the_client i ;; upd_client i (fun c => set_nextreq (u64 (cl_nextreq c + 1)) c) ;;; cret (cl_nextreq c).
Definition send_copyout_req (i remaddr : Z) (data : list Z) : M server Z :=
  n <-- nextreq i ;;
  send_frame snd i (RspHdr (HDRSZ + 16 + zlen data) n RUMPSP_REQ RUMPSP_COPYOUT 0) (le 8 (zlen data) ++ le 8 remaddr ++ data).
Definition anonmmap_send (i addr howmuch : Z) : M server Z :=
  ask_client i addr (fun n => send_frame snd i (RspHdr (HDRSZ + 8) n RUMPSP_REQ RUMPSP_ANONMMAP 0) (le 8 howmuch)).
(** rumpuser_sp_anonmmap from the wait on: the error and the address. *)
Definition anonmmap_end (i addr : Z) : M server (Z * Z) :=
  '(rv, rdata, _) <-- waitresp i addr ;;
  if negb (rv =? 0) then cret (EFAULT, 0) else
  d <-- mopt rdata "rdata is NULL" ;;
  massert (8 <=? zlen d) "read past the answer" ;;;
  let resp := of_le (take 8 d) in
  cret (if resp =? 0 then 12 else 0, resp).
(** send_raise_req leaves the number of the request unset: [junk]. *)
Definition send_raise_req (i junk signo : Z) : M server Z :=
  send_frame snd i (RspHdr HDRSZ junk RUMPSP_REQ RUMPSP_RAISE signo) [].
End Asking.

(** ** The whole

    [running]: what the workers are at, with the address of the wait of a worker that
    waits for its client; [nfds] and [maxidx] are spserver's locals. *)
Record sys := Sys { srv : server; running : list (sba * option Z); nfds : Z; maxidx : Z }.
Definition set_srv (v : server) (t : sys) : sys := Sys v (running t) (nfds t) (maxidx t).
Definition in_srv {A} (m : M server A) : M sys A := zoom srv set_srv m.
Definition set_running (r : list (sba * option Z)) (t : sys) : sys := Sys (srv t) r (nfds t) (maxidx t).

(** [while (idx) ...]: the last index in use, or [maxidx] as it was. *)
Fixpoint last_used (fds : list Z) (idx : nat) (maxidx : Z) : Z :=
  match idx with
  | O => maxidx
  | S j => match fds !! idx with
           | Some fd => if negb (fd =? -1) then Z.of_nat idx else last_used fds j maxidx
           | None => maxidx
           end
  end.
(** The start of a turn of the main loop: [discoed] connections are gone. *)
Definition collect_gone (t : sys) : sys :=
  let discoed := disco (srv t) in
  Sys (set_disco 0 (srv t)) (running t) (nfds t - discoed)
      (if discoed =? 0 then maxidx t else last_used (pfds (srv t)) (Z.to_nat (maxidx t)) (maxidx t)).

(** What the allocators, the rump kernel and the socket answer to the request. *)
Record oracle := Orc {
  o_malloc_sba : bool; o_nworker : Z; o_pid_of : Z -> Z; o_malloc_pf : bool; o_random : list Z;
  o_rfork_err : Z; o_rfork_lwp : Z; o_snd : sending
}.
(** What a system call needs of the client's memory, or tells it. *)
Inductive question := QCopyin (remaddr dlen : Z) (wantstr : bool) | QAnonmmap (howmuch : Z).
Inductive telling := TCopyout (remaddr : Z) (data : list Z) | TRaise (junk signo : Z).
Definition put_question (snd : sending) (i addr : Z) (q : question) : M server Z :=
  match q with QCopyin r d w => copyin_send snd i addr r d w | QAnonmmap h => anonmmap_send snd i addr h end.
Definition tell (snd : sending) (i : Z) (m : telling) : M server Z :=
  match m with TCopyout r d => send_copyout_req snd i r d | TRaise j n => send_raise_req snd i j n end.
(** Workers' events start with the worker's own current lwp. *)
Inductive sev :=
| EConn (n : newconn)                                (* the listening socket is ready *)
| EGone                                              (* getdisco *)
| EFrame (i : Z) (h : rsp_hdr) (data : list Z) (o : oracle)  (* readframe completes a frame *)
| EDisco (i : Z)                                     (* readframe gives up *)
| ETake                                              (* a worker takes the first piece of work *)
| EAsk (k : nat) (l : Z) (snd : sending) (addr : Z) (q : question)  (* worker k asks its client *)
| ETell (k : nat) (l : Z) (snd : sending) (m : telling)
| EAnswered (k : nat)                                (* and goes on *)
| EDone (k : nat) (l : Z) (snd : sending) (newlwp lwp rv r0 r1 : Z).  (* worker k is done *)

Definition arrive (h : rsp_hdr) (data : list Z) (c : client) : client :=
  Cl (cl_fd c) (cl_refcnt c) (cl_state c) (cl_mainlwp c) (cl_pid c) (cl_respwait c) h
     (match data with [] => None | _ => Some data end) (HDRSZ + zlen data) (cl_nextreq c) (cl_syscallreq c) (cl_inexec c).

(** The index serv_handleconn returns, which spserver goes on from. *)
Definition main_conn (n : newconn) : M sys Z :=
  t <-- mget ;;
  idx <-- in_srv (serv_handleconn n (nfds t =? MAXCLI)) ;;
  modify (fun t => Sys (srv t) (running t) (if negb (idx =? 0) then nfds t + 1 else nfds t) (Z.max (maxidx t) idx)) ;;;
  cret idx.
Definition sp_event (e : sev) : M sys unit :=
  match e with
  | EConn n => main_conn n ;;; cret tt
  | EGone => modify collect_gone
  | EFrame i h data o =>
      in_srv (upd_client i (arrive h data)) ;;;
      in_srv (dispatch (o_snd o) (o_malloc_sba o) (o_nworker o) (o_pid_of o) (o_malloc_pf o) (o_random o) (o_rfork_err o) (o_rfork_lwp o) i)
  | EDisco i => in_srv (serv_handledisco i)
  | ETake =>
      t <-- mget ;;
      match wrklist (srv t) with
      | [] => cret tt
      | w :: l => modify (fun t => Sys (set_wrklist l (srv t)) (running t ++ [(w, None)]) (nfds t) (maxidx t))
      end
  | EAsk k l snd addr q =>
      t <-- mget ;; '(w, _) <-- mopt (running t !! k) "worker" ;;
      rv <-- in_srv (as_worker l (put_question snd (sba_spc w) addr q)) ;;
      modify (fun t => set_running (<[k := (w, if rv =? 0 then Some addr else None)]> (running t)) t)
  | ETell k l snd m =>
      t <-- mget ;; '(w, _) <-- mopt (running t !! k) "worker" ;;
      in_srv (as_worker l (tell snd (sba_spc w) m)) ;;; cret tt
  | EAnswered k =>
      t <-- mget ;; '(w, a) <-- mopt (running t !! k) "worker" ;; addr <-- mopt a "not waiting" ;;
      _ <-- in_srv (waitresp (sba_spc w) addr) ;;
      modify (fun t => set_running (<[k := (w, None)]> (running t)) t)
  | EDone k l snd newlwp lwp rv r0 r1 =>
      t <-- mget ;; '(w, _) <-- mopt (running t !! k) "worker" ;;
      in_srv (as_worker l (serv_work snd newlwp lwp rv r0 r1 w)) ;;;
      modify (fun t => set_running (delete k (running t)) t)
  end.

(** * Theorems *)

(** ** What a handler may change

    [at_client i c lw s0 s]: since [s0] nothing of the tables has changed but
    client [i], which is now [c]; the thread runs as [lw]. *)
Record at_client (i : Z) (c : client) (lw : Z) (s0 s : server) : Prop := {
  ac_clients : clients s = <[Z.to_nat i := c]> (clients s0);
  ac_index : (Z.to_nat i < length (clients s0))%nat;
  ac_lwp : curlwp s = lw;
  ac_pfds : pfds s = pfds s0;
  ac_wrk : wrklist s = wrklist s0;
  ac_closed : closed s = closed s0;
  ac_disco : disco s = disco s0
}.
Lemma at_client_start i c s : clients s !! Z.to_nat i = Some c -> at_client i c (curlwp s) s s.
Proof. intros H. split; try done; [by rewrite list_insert_id|by eapply lookup_lt_Some]. Qed.

(** Operations that change none of this. *)
Definition quiet (m : M server unit) : Prop :=
  forall i c lw s0 s, at_client i c lw s0 s -> wp m (fun _ => at_client i c lw s0) s.

Section Ops.
Variables (i : Z) (s0 : server).
Implicit Types (c : client) (s : server).

Lemma wp_the_client c lw s Q : at_client i c lw s0 s -> Q c s -> wp (the_client i) Q s.
Proof.
  intros [Hc Hi _ _ _ _ _] HQ. unfold the_client. apply wp_bind, wp_get, (wp_opt _ _ c); [|done].
  rewrite Hc. by apply list_lookup_insert_eq.
Qed.
Lemma wp_upd_client c lw s f Q : at_client i c lw s0 s -> (forall s', at_client i (f c) lw s0 s' -> Q tt s') -> wp (upd_client i f) Q s.
Proof.
  intros H HQ. unfold upd_client. apply wp_bind, (wp_the_client c lw); [done|]. apply wp_modify, HQ.
  destruct H as [Hc Hi Hl Hp Hw Hcl Hd]. split; try done. cbn. by rewrite Hc, list_insert_insert_eq.
Qed.
Lemma wp_spcfreebuf c lw s Q : at_client i c lw s0 s -> (forall s', at_client i (reset_buf c) lw s0 s' -> Q tt s') -> wp (spcfreebuf i) Q s.
Proof. apply wp_upd_client. Qed.
Lemma wp_quiet m c lw s Q : quiet m -> at_client i c lw s0 s -> (forall s', at_client i c lw s0 s' -> Q tt s') -> wp m Q s.
Proof. intros Hm H HQ. eapply wp_mono; [by apply Hm|]. intros [] s' H'. by apply HQ. Qed.
Lemma wp_curlwp c lw s Q : at_client i c lw s0 s -> Q lw s -> wp lwproc_curlwp Q s.
Proof. intros H HQ. apply wp_gets. by rewrite (ac_lwp _ _ _ _ _ H). Qed.
Lemma wp_switch c lw s l Q : at_client i c lw s0 s -> (forall s', at_client i c l s0 s' -> Q tt s') -> wp (lwproc_switch l) Q s.
Proof. intros H HQ. apply wp_modify, HQ. by destruct H. Qed.
Lemma wp_release c lw s Q : at_client i c lw s0 s -> (forall s', at_client i c 0 s0 s' -> Q tt s') -> wp lwproc_release Q s.
Proof. intros H HQ. apply wp_modify, HQ. by destruct H. Qed.
Lemma wp_shutdown c lw s Q : at_client i c lw s0 s -> (forall s', at_client i c lw s0 s' -> Q tt s') -> wp (shutdown i) Q s.
Proof. intros H HQ. apply wp_bind, (wp_the_client c lw); [done|]. apply wp_modify, HQ. by destruct H. Qed.
Lemma wp_rfork c lw s j fl comm e l Q : at_client i c lw s0 s ->
  (forall s', at_client i c (if e =? 0 then l else lw) s0 s' -> Q e s') -> wp (lwproc_rfork e l j fl comm) Q s.
Proof. intros H HQ. apply wp_bind, wp_modify, wp_ret, HQ. destruct H. split; try done. cbn. by destruct (e =? 0). Qed.
Lemma wp_newlwp c lw s e l pid Q : at_client i c lw s0 s ->
  (forall s', at_client i c (if e =? 0 then l else lw) s0 s' -> Q e s') -> wp (lwproc_newlwp e l pid) Q s.
Proof. intros H HQ. apply wp_bind, wp_modify, wp_ret, HQ. destruct H. split; try done. cbn. by destruct (e =? 0). Qed.

(** The thread's lwp after a send: its own, or after an error the one it was sending as. *)
Definition after_send (snd : sending) (lw : Z) : Z :=
  if snd_err snd =? 0 then lw else if snd_new snd =? 0 then snd_lwp snd else lw.
Lemma wp_send snd j h d c lw s Q : at_client i c lw s0 s ->
  (forall s', at_client i c (after_send snd lw) s0 s' -> Q (snd_err snd) s') -> wp (send_frame snd j h d) Q s.
Proof.
  intros H HQ. unfold send_frame, after_send in *. apply wp_bind, (wp_curlwp c lw _ _ H). apply wp_bind, (wp_newlwp c lw _ _ _ _ _ H). clear H. intros s1 H.
  destruct (Z.eqb_spec (snd_err snd) 0) as [E|E]; cbn [negb]; [|by apply wp_ret, HQ]. rewrite E in HQ.
  apply wp_bind, wp_modify. set (s1' := set_sent _ s1). assert (H' : at_client i c (if snd_new snd =? 0 then snd_lwp snd else lw) s0 s1') by (by destruct H).
  apply wp_bind, (wp_release c _ _ _ H'). clear H H'. intros s2 H. apply wp_bind.
  destruct (Z.eqb_spec lw 0) as [-> |Hn]; cbn [negb]; [by apply wp_ret, wp_ret, HQ|]. apply (wp_switch c _ _ _ _ H). clear H. intros s3 H. by apply wp_ret, HQ.
Qed.
Lemma wp_error_resp snd j n e c lw s Q : at_client i c lw s0 s ->
  (forall s', at_client i c (after_send snd lw) s0 s' -> Q tt s') -> wp (send_error_resp snd j n e) Q s.
Proof. intros H HQ. apply wp_bind, (wp_send snd _ _ _ c lw); [done|]. intros s' H'. by apply wp_ret, HQ. Qed.
Lemma wp_reject snd c lw s n e Q : at_client i c lw s0 s -> (forall s', at_client i (reset_buf c) (after_send snd lw) s0 s' -> Q tt s') -> wp (reject snd i n e) Q s.
Proof.
  intros H HQ. unfold reject. apply wp_bind, (wp_error_resp snd _ _ _ c lw _ _ H). clear H. intros s1 H. apply wp_bind, (wp_shutdown c _ _ _ H).
  intros s' H'. by eapply wp_spcfreebuf.
Qed.
End Ops.

Lemma quiet_modify f : (forall s, clients (f s) = clients s /\ curlwp (f s) = curlwp s /\ pfds (f s) = pfds s /\
  wrklist (f s) = wrklist s /\ closed (f s) = closed s /\ disco (f s) = disco s) -> quiet (modify f).
Proof.
  intros Hf i c lw s0 s H. apply wp_modify. destruct (Hf s) as (E1 & E2 & E3 & E4 & E5 & E6).
  destruct H. split; congruence.
Qed.
Lemma quiet_log k : quiet (kern_log k).
Proof. by apply quiet_modify. Qed.
Lemma quiet_lwpexit : quiet lwproc_lwpexit.
Proof. apply quiet_log. Qed.
Lemma quiet_overrun : quiet (modify add_overrun).
Proof. by apply quiet_modify. Qed.
Lemma quiet_preforks f : quiet (modify (fun s => set_preforks (f s) s)).
Proof. by apply quiet_modify. Qed.
Lemma quiet_set_preforks l : quiet (modify (set_preforks l)).
Proof. by apply quiet_modify. Qed.
Lemma spquiet_ret : quiet (cret tt).
Proof. intros i c lw s0 s H. exact H. Qed.
Create HintDb spquiet.
#[export] Hint Resolve quiet_log quiet_lwpexit
  quiet_overrun quiet_preforks quiet_set_preforks spquiet_ret : spquiet.

(** Steps through a handler: the current client is found in an [at_client]
    hypothesis. *)
Ltac sp_step :=
  lazymatch goal with
  | |- wp (cbind _ _) _ _ => apply wp_bind; sp_step
  | H : at_client ?i ?c ?lw ?s0 ?s |- wp ?m _ ?s =>
      lazymatch m with
      | the_client i => apply (wp_the_client i s0 c lw s _ H)
      | upd_client i _ => apply (wp_upd_client i s0 c lw s _ _ H); clear H; intros ? H
      | spcfreebuf i => apply (wp_spcfreebuf i s0 c lw s _ H); clear H; intros ? H
      | reject ?snd i _ _ => apply (wp_reject i s0 snd c lw s _ _ _ H); clear H; intros ? H
      | send_error_resp ?snd _ _ _ => apply (wp_error_resp i s0 snd _ _ _ c lw s _ H); clear H; intros ? H
      | send_handshake_resp ?snd _ _ _ => apply (wp_send i s0 snd _ _ _ c lw s _ H); clear H; intros ? H
      | send_prefork_resp ?snd _ _ _ => apply (wp_send i s0 snd _ _ _ c lw s _ H); clear H; intros ? H
      | send_syscall_resp ?snd _ _ _ _ _ => apply (wp_send i s0 snd _ _ _ c lw s _ H); clear H; intros ? H
      | send_frame ?snd _ _ _ => apply (wp_send i s0 snd _ _ _ c lw s _ H); clear H; intros ? H
      | lwproc_newlwp _ _ _ => apply (wp_newlwp i s0 c lw s _ _ _ _ H); clear H; intros ? H
      | shutdown i => apply (wp_shutdown i s0 c lw s _ H); clear H; intros ? H
      | lwproc_rfork _ _ _ _ _ => apply (wp_rfork i s0 c lw s _ _ _ _ _ _ H); clear H; intros ? H
      | lwproc_switch _ => apply (wp_switch i s0 c lw s _ _ H); clear H; intros ? H
      | lwproc_release => apply (wp_release i s0 c lw s _ H); clear H; intros ? H
      | lwproc_curlwp => apply (wp_curlwp i s0 c lw s _ H)
      | _ => apply (wp_quiet i s0 m c lw s); [solve [eauto with spquiet]|exact H|]; clear H; intros ? H
      end
  end.

(** The effect of a request that queues no work: the client keeps its references,
    and a handshake may have made it run. *)
Definition same_refs (c c' : client) : Prop :=
  cl_fd c' = cl_fd c /\ cl_refcnt c' = cl_refcnt c /\
  map rw_addr (cl_respwait c') = map rw_addr (cl_respwait c) /\ cl_buf c' = None.
(** The main thread is back at no lwp if its sends succeed. *)
Definition keeps_lwp (snd : sending) (lw lw' : Z) : Prop := snd_err snd = 0 -> lw = 0 -> lw' = 0.
Definition calm (snd : sending) (i : Z) (c : client) (lw : Z) (s0 s' : server) : Prop := exists c' lw', at_client i c' lw' s0 s' /\ same_refs c c' /\
  (cl_state c' = cl_state c \/
   (cl_state c = SPCSTATE_NEW /\ cl_state c' = SPCSTATE_RUNNING /\ rsp_type (cl_hdr c) = RUMPSP_HANDSHAKE)) /\ keeps_lwp snd lw lw'.
Lemma after_send_ok snd lw : snd_err snd = 0 -> after_send snd lw = lw.
Proof. intros E. unfold after_send. by rewrite E. Qed.
Ltac lwp_done := intros ? ?; rewrite ?after_send_ok by done; done.
Ltac calm_done := eexists _, _; split; [eassumption|]; split; [done|]; split; [first [by left | by right]|lwp_done].

(** How a frame can stop the server. *)
Definition COMM_NULL : string := "comm is NULL".
Definition CURLWP_SET : string := "_DIAGASSERT(lwproc_curlwp() == NULL)".
Definition is_guest (h : rsp_hdr) : bool := (rsp_type h =? RUMPSP_HANDSHAKE) && (rsp_u h =? HANDSHAKE_GUEST).
Definition is_work (h : rsp_hdr) (inexec : bool) : bool :=
  (rsp_type h =? RUMPSP_SYSCALL) || (rsp_type h =? RUMPSP_HANDSHAKE) && (rsp_u h =? HANDSHAKE_EXEC) && negb inexec.
Definition frame_stops (malloc_sba : bool) (nworker lw : Z) (c : client) : option (res unit) :=
  let h := cl_hdr c in
  if negb (rsp_class h =? RUMPSP_REQ) then None
  else if bool_decide (cl_state c = SPCSTATE_NEW) then
    if is_guest h then
      match cl_buf c with None => Some (Halted COMM_NULL) | Some _ => if lw =? 0 then None else Some (Halted CURLWP_SET) end
    else None
  else if is_work h (cl_inexec c) && negb malloc_sba && negb (nworker =? 0) then Some NoFuel else None.

(** A handler that stops after steps that do not. *)
Definition stops {A} (r : res unit) (o : res A) : Prop := match r, o with Halted w, Halted w' => w = w' | NoFuel, NoFuel => True | _, _ => False end.
Lemma stops_bind {St A B} (m : M St A) (k : A -> M St B) r s : wp m (fun a s' => stops r (k a s')) s -> stops r (cbind m k s).
Proof. intros H. destruct (wp_run _ _ _ H) as (a & s' & E & Hk). by rewrite (bind_run _ _ _ _ _ E). Qed.
Lemma stops_bind_l {St A B} (m : M St A) (k : A -> M St B) r s : stops r (m s) -> stops r (cbind m k s).
Proof. unfold cbind. by destruct (m s), r. Qed.

Section Handlers.
Variables (snd : sending) (malloc_sba : bool) (nworker : Z) (pid_of : Z -> Z) (malloc_pf : bool) (random : list Z) (rfork_err rfork_lwp : Z).
Variables (i : Z) (c : client) (lw : Z) (s0 : server).

Lemma wp_handshake_done n c1 lw1 s : at_client i c1 lw1 s0 s -> same_refs c c1 -> cl_state c = SPCSTATE_NEW ->
  rsp_type (cl_hdr c) = RUMPSP_HANDSHAKE -> wp (handshake_done pid_of i n) (fun _ => calm snd i c lw s0) s.
Proof. intros H Hs Hn Ht. unfold handshake_done. do 4 sp_step. eexists _, _. split; [done|]. split; [done|]. split; [by right|lwp_done]. Qed.

Lemma wp_handshake_guest n s : at_client i c lw s0 s -> lw = 0 -> cl_state c = SPCSTATE_NEW -> rsp_type (cl_hdr c) = RUMPSP_HANDSHAKE ->
  cl_buf c <> None -> wp (handshake_guest snd pid_of rfork_err rfork_lwp i n) (fun _ => calm snd i c lw s0) s.
Proof.
  intros H Hlw Hn Ht Hb. unfold handshake_guest, terminate_comm. sp_step.
  destruct (cl_buf c) as [b|]; [|done]. sp_step. apply wp_ret. sp_step. apply wp_bind, wp_assert; [by rewrite Hlw|].
  sp_step. apply wp_bind. destruct (Z.eqb_spec rfork_err 0) as [-> | He]; cbn [negb Z.eqb] in *.
  - apply wp_ret. sp_step. sp_step. sp_step. sp_step. by eapply wp_handshake_done.
  - sp_step. sp_step. apply wp_ret. calm_done.
Qed.

Lemma wp_handshake_fork n s : at_client i c lw s0 s -> cl_state c = SPCSTATE_NEW -> rsp_type (cl_hdr c) = RUMPSP_HANDSHAKE ->
  cl_off c = HDRSZ + zlen (default [] (cl_buf c)) -> wp (handshake_fork snd pid_of rfork_err rfork_lwp i n) (fun _ => calm snd i c lw s0) s.
Proof.
  intros H Hn Ht Hoff. unfold handshake_fork. sp_step. destruct (negb (u64 _ =? _)) eqn:El; [sp_step; calm_done|].
  destruct (cl_buf c) as [b|] eqn:Eb; [|by rewrite Hoff in El; vm_compute in El]. apply wp_bind, (wp_opt _ _ b); [done|].
  apply wp_bind, wp_get. destruct (take_prefork _ _) as [[pf rest]|].
  2:{ sp_step. sp_step. sp_step. sp_step. calm_done. }
  sp_step. sp_step. sp_step. destruct (negb (of_le _ =? 0)); [sp_step; sp_step; calm_done|].
  sp_step. destruct (Z.eqb_spec rfork_err 0) as [-> | He]; cbn [negb Z.eqb] in *.
  - sp_step. sp_step. sp_step. sp_step. sp_step. sp_step. by eapply wp_handshake_done.
  - sp_step. sp_step. sp_step. calm_done.
Qed.

Lemma wp_handle_prefork n s : at_client i c lw s0 s -> wp (handle_prefork snd malloc_pf random rfork_err rfork_lwp i n) (fun _ => calm snd i c lw s0) s.
Proof.
  intros H. unfold handle_prefork. sp_step. sp_step. destruct (cl_inexec (reset_buf c)); [sp_step; sp_step; calm_done|].
  destruct (negb malloc_pf); [sp_step; calm_done|]. sp_step. sp_step.
  destruct (negb (rfork_err =? 0)); [sp_step; sp_step; calm_done|]. sp_step. sp_step. sp_step. sp_step. apply wp_ret. calm_done.
Qed.

(** The effect of a request that does: one piece of work for the client, which has
    one reference more. *)
Definition queued (ty : sbatype) (s' : server) : Prop := exists c' lw',
  at_client i c' lw' (set_wrklist (wrklist s0 ++ [Sba i (cl_hdr c) ty (cl_buf c)]) s0) s' /\
  cl_fd c' = cl_fd c /\ cl_refcnt c' = cl_refcnt c + 1 /\ cl_respwait c' = cl_respwait c /\ cl_buf c' = None /\
  cl_state c' = cl_state c /\ keeps_lwp snd lw lw'.

Lemma wp_schedulework ty c1 lw1 s : malloc_sba = true \/ nworker = 0 -> at_client i c1 lw1 s0 s -> (lw = 0 -> lw1 = 0) ->
  same_refs (reset_buf c) (reset_buf c1) -> cl_hdr c1 = cl_hdr c ->
  cl_respwait c1 = cl_respwait c -> cl_buf c1 = cl_buf c -> cl_state c1 = cl_state c ->
  wp (schedulework snd malloc_sba nworker i ty) (fun _ s' => calm snd i c lw s0 s' \/ queued ty s') s.
Proof.
  intros Hmem H Hlw Hs Eh Er Eb Es. unfold schedulework. sp_step. destruct Hs as (Hf & Hr & _ & _).
  destruct malloc_sba; cbn [negb].
  - unfold spcref. sp_step. sp_step. apply wp_modify. right. eexists _, lw1. rewrite Eh, Eb. split.
    + destruct H as [a b d e f g h]. split; cbn in *; try done. by rewrite f.
    + cbn in *. split_and!; try done; [lia|]. intros _. done.
  - destruct Hmem as [|E0]; [done|]. rewrite E0. cbn [Z.eqb]. sp_step. sp_step. left.
    eexists _, _. split; [eassumption|]. split; [|split; [by left|]]; [split_and!; cbn in *; congruence|].
    intros Hok Hl. rewrite after_send_ok by done. auto.
Qed.
Lemma schedulework_spins ty c1 lw1 s : malloc_sba = false -> nworker <> 0 -> at_client i c1 lw1 s0 s ->
  stops NoFuel (schedulework snd malloc_sba nworker i ty s).
Proof. intros -> Hn H. unfold schedulework. apply stops_bind. sp_step. cbn [negb]. by rewrite (proj2 (Z.eqb_neq _ _) Hn). Qed.

(** exec, up to the work. *)
Lemma wp_handle_exec n s : malloc_sba = true \/ nworker = 0 -> at_client i c lw s0 s ->
  wp (handle_exec snd malloc_sba nworker i n) (fun _ s' => calm snd i c lw s0 s' \/ queued SBA_EXEC s') s.
Proof.
  intros Hmem H. unfold handle_exec. sp_step. destruct (negb _); [sp_step; left; calm_done|].
  destruct (cl_inexec c); [sp_step; left; calm_done|]. sp_step. sp_step. sp_step. sp_step.
  eapply wp_schedulework; [exact Hmem|eassumption|done..].
Qed.
Lemma wp_handle_exec_refused n s : rsp_u (cl_hdr c) <> HANDSHAKE_EXEC \/ cl_inexec c = true -> at_client i c lw s0 s ->
  wp (handle_exec snd malloc_sba nworker i n) (fun _ => calm snd i c lw s0) s.
Proof.
  intros Hr H. unfold handle_exec. sp_step. destruct (Z.eqb_spec (rsp_u (cl_hdr c)) HANDSHAKE_EXEC); cbn [negb]; [|sp_step; calm_done].
  destruct (cl_inexec c); [sp_step; calm_done|by destruct Hr].
Qed.
Lemma handle_exec_spins n s : malloc_sba = false -> nworker <> 0 -> rsp_u (cl_hdr c) = HANDSHAKE_EXEC -> cl_inexec c = false -> at_client i c lw s0 s ->
  stops NoFuel (handle_exec snd malloc_sba nworker i n s).
Proof.
  intros Hm Hn Eu Ei H. unfold handle_exec. apply stops_bind. sp_step. rewrite Eu, Ei. cbn [negb]. change (negb (HANDSHAKE_EXEC =? HANDSHAKE_EXEC)) with false. cbv iota.
  do 4 (apply stops_bind; sp_step). by eapply schedulework_spins.
Qed.

(** A request: work is queued only for a client that has been let in. *)
Definition handled (s' : server) : Prop := calm snd i c lw s0 s' \/ (cl_state c <> SPCSTATE_NEW /\ exists ty, queued ty s').
Definition handled_or_stops (m : M server unit) s : Prop :=
  match frame_stops malloc_sba nworker lw c with Some r => stops r (m s) | None => wp m (fun _ => handled) s end.
Lemma new_request s : at_client i c lw s0 s -> cl_off c = HDRSZ + zlen (default [] (cl_buf c)) -> rsp_class (cl_hdr c) = RUMPSP_REQ -> cl_state c = SPCSTATE_NEW ->
  handled_or_stops (handlereq snd malloc_sba nworker pid_of malloc_pf random rfork_err rfork_lwp i) s.
Proof.
  intros H Hoff Ecl Hst. unfold handled_or_stops, frame_stops. cbn zeta. rewrite Ecl, (bool_decide_eq_true_2 _ Hst). cbn [negb]. change (negb (RUMPSP_REQ =? RUMPSP_REQ)) with false. cbv iota.
  unfold is_guest. destruct (Z.eqb_spec (rsp_type (cl_hdr c)) RUMPSP_HANDSHAKE) as [Ht|Ht]; cbn [andb].
  2:{ unfold handlereq. sp_step. rewrite (bool_decide_eq_true_2 _ Hst), (proj2 (Z.eqb_neq _ _) Ht). cbn [negb]. sp_step. left. calm_done. }
  destruct (rsp_u (cl_hdr c) =? HANDSHAKE_GUEST) eqn:Eg.
  - assert (Hrun : forall r, stops r (handshake_guest snd pid_of rfork_err rfork_lwp i (rsp_reqno (cl_hdr c)) s) ->
      stops r (handlereq snd malloc_sba nworker pid_of malloc_pf random rfork_err rfork_lwp i s)).
    { intros r Hr. unfold handlereq. apply stops_bind. sp_step. rewrite (bool_decide_eq_true_2 _ Hst), Ht, Eg. exact Hr. }
    destruct (cl_buf c) as [b|] eqn:Eb; [destruct (Z.eqb_spec lw 0) as [Hl|Hl]|].
    + unfold handlereq. sp_step. rewrite (bool_decide_eq_true_2 _ Hst), Ht, Eg. cbn [negb]. change (negb (RUMPSP_HANDSHAKE =? RUMPSP_HANDSHAKE)) with false. cbv iota.
      eapply wp_mono; [apply wp_handshake_guest; try done; by rewrite Eb|]. intros [] s' Hc. by left.
    + apply Hrun. unfold handshake_guest. apply stops_bind. unfold terminate_comm. sp_step. rewrite Eb. sp_step. apply wp_ret. apply stops_bind. sp_step.
      apply stops_bind_l. unfold massert. rewrite (proj2 (Z.eqb_neq _ _) Hl). done.
    + apply Hrun. unfold handshake_guest. apply stops_bind_l. unfold terminate_comm. apply stops_bind. sp_step. by rewrite Eb.
  - unfold handlereq. sp_step. rewrite (bool_decide_eq_true_2 _ Hst), Ht, Eg. cbn [negb]. change (negb (RUMPSP_HANDSHAKE =? RUMPSP_HANDSHAKE)) with false. cbv iota.
    destruct (rsp_u (cl_hdr c) =? HANDSHAKE_FORK); [eapply wp_mono; [by apply wp_handshake_fork|]; intros [] s' Hc; by left|]. sp_step. left. calm_done.
Qed.
Lemma later_request s : at_client i c lw s0 s -> rsp_class (cl_hdr c) = RUMPSP_REQ -> cl_state c <> SPCSTATE_NEW ->
  handled_or_stops (handlereq snd malloc_sba nworker pid_of malloc_pf random rfork_err rfork_lwp i) s.
Proof.
  intros H Ecl Hst. unfold handled_or_stops, frame_stops. cbn zeta. rewrite Ecl, (bool_decide_eq_false_2 _ Hst). change (negb (RUMPSP_REQ =? RUMPSP_REQ)) with false. cbv iota.
  unfold is_work. destruct (Z.eqb_spec (rsp_type (cl_hdr c)) RUMPSP_SYSCALL) as [Et|Et]; cbn [orb andb].
  - destruct (negb malloc_sba && negb (nworker =? 0)) eqn:Em.
    + apply andb_true_iff in Em as [Em%negb_true_iff En%negb_true_iff]. unfold handlereq. apply stops_bind. sp_step. rewrite (bool_decide_eq_false_2 _ Hst), Et.
      by eapply schedulework_spins; [|apply Z.eqb_neq|].
    + assert (Hmem : malloc_sba = true \/ nworker = 0) by (destruct malloc_sba; [by left|right; apply Z.eqb_eq; by destruct (nworker =? 0)]).
      unfold handlereq. sp_step. rewrite (bool_decide_eq_false_2 _ Hst), Et. cbn.
      eapply wp_mono; [eapply wp_schedulework; [exact Hmem|eassumption|done..]|]. intros [] s' [Hc|Hc]; [by left|right; eauto].
  - destruct (Z.eqb_spec (rsp_type (cl_hdr c)) RUMPSP_HANDSHAKE) as [Eh|Eh]; cbn [andb].
    + assert (Hre : forall b, handlereq snd malloc_sba nworker pid_of malloc_pf random rfork_err rfork_lwp i s = b <->
        handle_exec snd malloc_sba nworker i (rsp_reqno (cl_hdr c)) s = b).
      { intros b. unfold handlereq. assert (Ec : the_client i s = Done (c, s)).
        { destruct (wp_run _ _ _ (wp_the_client i s0 c lw s (fun a s' => a = c /\ s' = s) H ltac:(done))) as (? & ? & E & -> & ->). done. }
        rewrite (bind_run _ _ _ _ _ Ec). by rewrite (bool_decide_eq_false_2 _ Hst), Eh. }
      destruct (Z.eqb_spec (rsp_u (cl_hdr c)) HANDSHAKE_EXEC) as [Eu|Eu]; cbn [andb].
      * destruct (cl_inexec c) eqn:Ei; cbn [negb andb].
        -- unfold wp. rewrite (proj2 (Hre _) eq_refl). eapply wp_mono; [apply wp_handle_exec_refused; [by right|done]|]. intros [] s' Hc. by left.
        -- destruct (negb malloc_sba && negb (nworker =? 0)) eqn:Em.
           ++ apply andb_true_iff in Em as [Em%negb_true_iff En%negb_true_iff]. rewrite (proj2 (Hre _) eq_refl). apply handle_exec_spins; try done. by apply Z.eqb_neq.
           ++ unfold wp. rewrite (proj2 (Hre _) eq_refl). assert (Hmem : malloc_sba = true \/ nworker = 0) by (destruct malloc_sba; [by left|right; apply Z.eqb_eq; by destruct (nworker =? 0)]).
              eapply wp_mono; [by apply wp_handle_exec|]. intros [] s' [Hc|Hc]; [by left|right; eauto].
      * unfold wp. rewrite (proj2 (Hre _) eq_refl). eapply wp_mono; [apply wp_handle_exec_refused; [by left|done]|]. intros [] s' Hc. by left.
    + unfold handlereq. sp_step. rewrite (bool_decide_eq_false_2 _ Hst), (proj2 (Z.eqb_neq _ _) Eh), (proj2 (Z.eqb_neq _ _) Et). cbn [negb].
      destruct (rsp_type (cl_hdr c) =? RUMPSP_PREFORK); [eapply wp_mono; [by apply wp_handle_prefork|]; intros [] s' Hc; by left|]. sp_step. sp_step. left. calm_done.
Qed.

(** An answer: the waiters stay the same. *)
Lemma kick_addrs n f l l' : (forall w, rw_addr (f w) = rw_addr w) -> kick n f l = Some l' -> map rw_addr l' = map rw_addr l.
Proof.
  intros Hf. revert l'. induction l as [|w l IH]; intros l'; cbn; [done|]. destruct (rw_reqno w =? n).
  - intros [= <-]. cbn. by rewrite Hf.
  - destruct (kick n f l) as [l1|]; [|done]. intros [= <-]. cbn. by rewrite (IH l1).
Qed.
Lemma wp_kickwaiter s : at_client i c lw s0 s -> wp (kickwaiter i) (fun _ => calm snd i c lw s0) s.
Proof.
  intros H. unfold kickwaiter. sp_step. destruct (kick _ _ _) as [l|] eqn:E; [|sp_step; calm_done].
  sp_step. sp_step. eexists _, _. split; [eassumption|]. split; [|split; [by left|lwp_done]]. split_and!; try done. cbn. eapply kick_addrs; [|exact E]. done.
Qed.

Lemma dispatch_handles s : at_client i c lw s0 s -> cl_off c = HDRSZ + zlen (default [] (cl_buf c)) ->
  handled_or_stops (dispatch snd malloc_sba nworker pid_of malloc_pf random rfork_err rfork_lwp i) s.
Proof.
  intros H Hoff. destruct (Z.eqb_spec (rsp_class (cl_hdr c)) RUMPSP_REQ) as [E|E].
  - assert (Er : dispatch snd malloc_sba nworker pid_of malloc_pf random rfork_err rfork_lwp i s = handlereq snd malloc_sba nworker pid_of malloc_pf random rfork_err rfork_lwp i s).
    { unfold dispatch. destruct (wp_run _ _ _ (wp_the_client i s0 c lw s (fun a s' => a = c /\ s' = s) H ltac:(done))) as (? & ? & Ec & -> & ->).
      rewrite (bind_run _ _ _ _ _ Ec). by rewrite E. }
    assert (Hd : handled_or_stops (handlereq snd malloc_sba nworker pid_of malloc_pf random rfork_err rfork_lwp i) s).
    { destruct (decide (cl_state c = SPCSTATE_NEW)); [by apply new_request|by apply later_request]. }
    unfold handled_or_stops, wp in *. by rewrite Er.
  - unfold handled_or_stops, frame_stops. cbn zeta. rewrite (proj2 (Z.eqb_neq _ _) E). cbn [negb]. unfold dispatch. sp_step. rewrite (proj2 (Z.eqb_neq _ _) E).
    destruct (rsp_class (cl_hdr c) =? RUMPSP_RESP); [eapply wp_mono; [by apply wp_kickwaiter|]; intros [] s' Hc; by left|]. sp_step. sp_step. left. calm_done.
Qed.
End Handlers.
