(* ===== verification/SpSafe.v ===== *)
(** * Remote system calls: references and authentication

    What holds of the server in every state it can reach, whatever its clients
    send, whenever they go away, and however the workers are scheduled. *)
From S2P Require Import Prelude SpWire SpServer.

Definition work_of (i : Z) (l : list sba) : list sba := filter (fun w => sba_spc w = i) l.
Definition run_of (i : Z) (l : list (sba * option Z)) : list (sba * option Z) := filter (fun r => sba_spc r.1 = i) l.
Definition waits_of (i : Z) (l : list (sba * option Z)) : list Z := omap snd (run_of i l).
(** The pieces of work for a client. *)
Definition held (i : Z) (t : sys) : Z := zlen (work_of i (wrklist (srv t))) + zlen (run_of i (running t)).

Inductive slot_case (i : Z) (t : sys) (c : client) (fd : Z) : Prop :=
| slot_closed : cl_fd c = -1 -> fd = -1 -> cl_refcnt c = 0 -> cl_state c = SPCSTATE_NEW -> held i t = 0 -> slot_case i t c fd
| slot_open : cl_fd c = fd -> fd <> -1 -> cl_refcnt c = 1 + held i t -> cl_state c <> SPCSTATE_DYING ->
    (cl_state c = SPCSTATE_NEW -> held i t = 0) -> slot_case i t c fd
| slot_dying : cl_fd c <> -1 -> fd = -1 -> cl_state c = SPCSTATE_DYING -> 0 < held i t -> cl_refcnt c = held i t -> slot_case i t c fd.

Definition slot_ok (i : Z) (t : sys) : Prop := exists c fd,
  clients (srv t) !! Z.to_nat i = Some c /\ pfds (srv t) !! Z.to_nat i = Some fd /\ cl_buf c = None /\
  map rw_addr (cl_respwait c) ≡ₚ waits_of i (running t) /\ NoDup (map rw_addr (cl_respwait c)) /\ slot_case i t c fd.

Definition nopen (l : list client) : Z := zlen (filter (fun c => cl_fd c <> -1) l).

Record sp_inv (t : sys) : Prop := {
  sp_clients : zlen (clients (srv t)) = MAXCLI;
  sp_pfds : zlen (pfds (srv t)) = MAXCLI;
  sp_slots : forall i, 0 < i < MAXCLI -> slot_ok i t;
  sp_work : Forall (fun w => 0 < sba_spc w < MAXCLI) (wrklist (srv t));
  sp_run : Forall (fun r => 0 < sba_spc r.1 < MAXCLI) (running t);
  sp_listen : exists fd c, pfds (srv t) !! 0%nat = Some fd /\ fd <> -1 /\ clients (srv t) !! 0%nat = Some c /\ cl_fd c = fd;
  sp_disco : 0 <= disco (srv t);
  sp_nfds : nfds t = nopen (clients (srv t)) + disco (srv t);
  sp_cap : nfds t <= MAXCLI;
  sp_maxidx : 0 <= maxidx t < MAXCLI;
  sp_max : forall i fd, pfds (srv t) !! Z.to_nat i = Some fd -> 0 < i -> fd <> -1 -> i <= maxidx t
}.

(** What may happen: a frame comes from a connected client; a worker asks once at a
    time, at a place of its own; it goes on when it has its answer or its client is
    gone; an exec is finished when the other references are gone. *)
Definition sp_legal (e : sev) (t : sys) : Prop :=
  match e with
  | EConn _ | EGone | ETake => True
  | EFrame i _ _ _ | EDisco i => 0 < i < MAXCLI /\ exists fd, pfds (srv t) !! Z.to_nat i = Some fd /\ fd <> -1
  | EAsk k _ _ addr _ => exists w, running t !! k = Some (w, None) /\ addr ∉ waits_of (sba_spc w) (running t)
  | ETell k _ _ _ => exists w, running t !! k = Some (w, None)
  | EAnswered k => exists w addr c, running t !! k = Some (w, Some addr) /\ clients (srv t) !! Z.to_nat (sba_spc w) = Some c /\
      (cl_state c = SPCSTATE_DYING \/ forall r, r ∈ cl_respwait c -> rw_addr r = addr -> rw_done r = true)
  | EDone k _ _ _ _ _ _ _ => exists w c, running t !! k = Some (w, None) /\ clients (srv t) !! Z.to_nat (sba_spc w) = Some c /\
      (sba_type w = SBA_EXEC -> cl_refcnt c <= 2)
  end.
(** The events that stop the server: a guest handshake without a name, or one while the
    main thread has an lwp; an exec without a name; work for which there is no memory while
    there are workers, for which the server tries for ever. *)
Definition event_stops (e : sev) (t : sys) : option (res unit) :=
  match e with
  | EFrame i h data o =>
      match clients (srv t) !! Z.to_nat i with
      | Some c => frame_stops (o_malloc_sba o) (o_nworker o) (curlwp (srv t)) (arrive h data c)
      | None => None
      end
  | EDone k _ _ _ _ _ _ _ =>
      match running t !! k with
      | Some (w, _) => match sba_type w, sba_data w with SBA_EXEC, None => Some (Halted COMM_NULL) | _, _ => None end
      | None => None
      end
  | _ => None
  end.
(** The main thread has no lwp, as long as its sends succeed. *)
Definition sends_ok (e : sev) : Prop := match e with EFrame _ _ _ o => snd_err (o_snd o) = 0 | _ => True end.
Definition lwp_kept (e : sev) (t t' : sys) : Prop := sends_ok e -> curlwp (srv t) = 0 -> curlwp (srv t') = 0.

(** ** Changing one slot *)
Lemma slot_ok_ext j t t' : clients (srv t') !! Z.to_nat j = clients (srv t) !! Z.to_nat j ->
  pfds (srv t') !! Z.to_nat j = pfds (srv t) !! Z.to_nat j ->
  work_of j (wrklist (srv t')) = work_of j (wrklist (srv t)) -> run_of j (running t') = run_of j (running t) ->
  slot_ok j t -> slot_ok j t'.
Proof.
  intros Ec Ep Ew Er (c & fd & H1 & H2 & H3 & H4 & H5 & H6).
  exists c, fd. rewrite Ec, Ep. unfold waits_of in *. rewrite Er.
  split_and!; [done..|]. assert (Eh : held j t' = held j t) by (unfold held; by rewrite Ew, Er).
  destruct H6; [apply slot_closed|apply slot_open|apply slot_dying]; rewrite ?Eh; done.
Qed.

Lemma nopen_insert l i c c' : l !! i = Some c -> (cl_fd c' = -1 <-> cl_fd c = -1) -> nopen (<[i := c']> l) = nopen l.
Proof.
  intros Hi Hc. unfold nopen. f_equal. rewrite <- (list_insert_id l i c Hi) at 2.
  apply lookup_lt_Some in Hi. rewrite !insert_take_drop by done. rewrite !filter_app, !length_app. f_equal.
  rewrite !filter_cons. destruct (decide (cl_fd c' <> -1)), (decide (cl_fd c <> -1)); cbn; try done; tauto.
Qed.
Lemma nopen_change l i c c' : l !! i = Some c -> nopen (<[i := c']> l) =
  nopen l + (if decide (cl_fd c' = -1) then 0 else 1) - (if decide (cl_fd c = -1) then 0 else 1).
Proof.
  intros Hi. unfold nopen. rewrite <- (list_insert_id l i c Hi) at 2.
  apply lookup_lt_Some in Hi. rewrite !insert_take_drop by done. rewrite !filter_app, !length_app, !filter_cons.
  destruct (decide (cl_fd c' = -1)), (decide (cl_fd c = -1)); repeat case_decide; try done; cbn [length]; lia.
Qed.

Record frame_of (i : Z) (t t' : sys) : Prop := {
  fo_clients : exists c, clients (srv t') = <[Z.to_nat i := c]> (clients (srv t));
  fo_pfds : exists fd, pfds (srv t') = <[Z.to_nat i := fd]> (pfds (srv t));
  fo_work : forall j, j <> i -> work_of j (wrklist (srv t')) = work_of j (wrklist (srv t));
  fo_run : forall j, j <> i -> run_of j (running t') = run_of j (running t);
  fo_wrange : Forall (fun w => 0 < sba_spc w < MAXCLI) (wrklist (srv t'));
  fo_rrange : Forall (fun r => 0 < sba_spc r.1 < MAXCLI) (running t');
  fo_disco : 0 <= disco (srv t');
  fo_cap : nfds t' <= MAXCLI;
  fo_maxidx : 0 <= maxidx t' < MAXCLI;
  fo_nfds : nfds t' = nopen (clients (srv t')) + disco (srv t');
  fo_max : forall j fd, pfds (srv t') !! Z.to_nat j = Some fd -> 0 < j -> fd <> -1 -> j <= maxidx t'
}.

Lemma sp_inv_frame i t t' : sp_inv t -> 0 < i < MAXCLI -> frame_of i t t' -> slot_ok i t' -> sp_inv t'.
Proof.
  intros H Hi F Hs. destruct F as [[c Ec] [fd Ep] Fw Fr ? ? ? ? ? ? ?]. destruct H as [? ? H4 ? ? H7 ? ? ? ? ?]. split; try done.
  - by rewrite Ec, length_insert.
  - by rewrite Ep, length_insert.
  - intros j Hj. destruct (decide (j = i)) as [-> | Hne]; [done|].
    apply (slot_ok_ext j t t'); [by rewrite Ec, list_lookup_insert_ne by lia|by rewrite Ep, list_lookup_insert_ne by lia|by apply Fw|by apply Fr|by apply H4].
  - destruct H7 as (f & c0 & Hf & Hn & Hc & Hcf). exists f, c0. by rewrite Ep, Ec, !list_lookup_insert_ne by lia.
Qed.

(** Every other open connection is still open. *)
Definition keeps_open (i : Z) (t t' : sys) : Prop := forall j fd, j <> i -> 0 <= j ->
  pfds (srv t) !! Z.to_nat j = Some fd -> fd <> -1 -> pfds (srv t') !! Z.to_nat j = Some fd.
Definition sp_after (i : Z) (t t' : sys) : Prop := sp_inv t' /\ keeps_open i t t'.
Lemma keeps_set i t t' : 0 < i -> (exists fd, pfds (srv t') = <[Z.to_nat i := fd]> (pfds (srv t))) -> keeps_open i t t'.
Proof. intros Hi [f E] j fd Hj Hj0 Hp _. rewrite E, list_lookup_insert_ne by lia. done. Qed.
Lemma sp_after_frame i t t' : sp_inv t -> 0 < i < MAXCLI -> frame_of i t t' -> slot_ok i t' -> sp_after i t t'.
Proof. intros H Hi F Hs. split; [by eapply sp_inv_frame|]. apply keeps_set; [lia|apply F]. Qed.

(** ** Requests *)
Lemma held_eq i t t' : wrklist (srv t') = wrklist (srv t) -> running t' = running t -> held i t' = held i t.
Proof. intros E1 E2. unfold held. by rewrite E1, E2. Qed.

Lemma work_of_app i l w : work_of i (l ++ [w]) = work_of i l ++ (if decide (sba_spc w = i) then [w] else []).
Proof. unfold work_of. rewrite filter_app, filter_cons, filter_nil. by case_decide. Qed.
Lemma run_of_app i l w : run_of i (l ++ [w]) = run_of i l ++ (if decide (sba_spc w.1 = i) then [w] else []).
Proof. unfold run_of. rewrite filter_app, filter_cons, filter_nil. by case_decide. Qed.
Lemma held_queue i t t' w : wrklist (srv t') = wrklist (srv t) ++ [w] -> running t' = running t ->
  held i t' = held i t + (if decide (sba_spc w = i) then 1 else 0).
Proof. intros E1 E2. unfold held. rewrite E1, E2, work_of_app, length_app. case_decide; cbn [length]; lia. Qed.

Lemma slot_ok_open i t fd : slot_ok i t -> pfds (srv t) !! Z.to_nat i = Some fd -> fd <> -1 -> exists c,
  clients (srv t) !! Z.to_nat i = Some c /\ cl_buf c = None /\ map rw_addr (cl_respwait c) ≡ₚ waits_of i (running t) /\
  NoDup (map rw_addr (cl_respwait c)) /\ cl_fd c = fd /\ cl_refcnt c = 1 + held i t /\ cl_state c <> SPCSTATE_DYING /\
  (cl_state c = SPCSTATE_NEW -> held i t = 0).
Proof.
  intros (c & fd' & H1 & H2 & H3 & H4 & H5 & H6) Hp Hn. assert (fd' = fd) as -> by congruence.
  exists c. destruct H6; try congruence. done.
Qed.

(** What a handler of the main thread leaves, as a state of the whole. *)
Lemma frame_at i c c' lw s t s' : sp_inv t -> 0 < i < MAXCLI -> clients (srv t) !! Z.to_nat i = Some c -> cl_fd c' = cl_fd c ->
  at_client i c' lw s s' -> clients s = clients (srv t) -> pfds s = pfds (srv t) -> disco s = disco (srv t) ->
  (forall j, j <> i -> work_of j (wrklist s) = work_of j (wrklist (srv t))) ->
  Forall (fun w => 0 < sba_spc w < MAXCLI) (wrklist s) -> frame_of i t (set_srv s' t).
Proof.
  intros [] Hi Hc Ef [E1 E2 E3 E4 E5 E6 E7] Ec Ep Ed Hw HF. split; cbn; rewrite ?E1, ?E4, ?E5, ?E7, ?Ec, ?Ep, ?Ed; try done.
  - by eexists.
  - destruct (lookup_lt_is_Some_2 (pfds (srv t)) (Z.to_nat i)) as [fd Hfd]; [unfold MAXCLI in *; lia|].
    exists fd. by rewrite list_insert_id.
  - rewrite (nopen_insert _ _ c); [done..|]. by rewrite Ef.
Qed.

Lemma frame_handled i h data o c s' t : sp_inv t -> sp_legal (EFrame i h data o) t -> clients (srv t) !! Z.to_nat i = Some c ->
  handled (o_snd o) i (arrive h data c) (curlwp (srv t)) (srv t) s' -> sp_after i t (set_srv s' t) /\ lwp_kept (EFrame i h data o) t (set_srv s' t).
Proof.
  intros H (Hi & (fd & Hfd & Hn)) Hc0 Hcase. destruct (slot_ok_open i t fd (sp_slots t H i Hi) Hfd Hn) as (c1 & Hc & Hb & Hw & Hnd & Hf & Hr & Hs & Hnew). assert (c1 = c) as -> by congruence.
  destruct Hcase as [(c' & lw' & A' & (E1 & E2 & E3 & E4) & Hst & Hlw) | (Hst & ty & c' & lw' & A' & E1 & E2 & E3 & E4 & E5 & Hlw)]; cbn in *.
  - split; [|intros Hok Hl; cbn; rewrite (ac_lwp _ _ _ _ _ A'); by apply Hlw].
    eapply (sp_after_frame i t); [done|done|eapply (frame_at i c c' lw' _ t s' H Hi Hc E1 A'); try done; by apply H|].
    exists c', fd. destruct A' as [B1 B2 B3 B4 B5 B6 B7]. cbn. rewrite B1, B4, list_lookup_insert_eq by done. rewrite E3.
    split_and!; try done. assert (Eh : held i (set_srv s' t) = held i t) by (by apply held_eq).
    apply slot_open; rewrite ?Eh; [congruence|done|congruence| |].
    + destruct Hst as [-> | (? & -> & _)]; done.
    + destruct Hst as [-> | (? & -> & _)]; done.
  - split; [|intros Hok Hl; cbn; rewrite (ac_lwp _ _ _ _ _ A'); by apply Hlw].
    eapply (sp_after_frame i t); [done|done|eapply (frame_at i c c' lw' (set_wrklist _ (srv t)) t s' H Hi Hc E1 A'); try done|].
    + intros j Hj. cbn [wrklist set_wrklist]. rewrite work_of_app. cbn. rewrite decide_False by done. by rewrite app_nil_r.
    + cbn. apply Forall_app. split; [by apply H|]. rewrite Forall_cons. done.
    + exists c', fd. destruct A' as [B1 B2 B3 B4 B5 B6 B7]. cbn in *. rewrite B1, B4, list_lookup_insert_eq by done. rewrite E3.
      split_and!; try done. apply slot_open; [congruence|done| | |].
      * rewrite (held_queue i t (set_srv s' t) _ B5 eq_refl), decide_True by done. lia.
      * by rewrite E5.
      * rewrite E5. done.
Qed.
(** An event that either stops the server in the way it should, or is handled. *)
Definition safely (e : sev) (Q : sys -> Prop) (t : sys) : Prop :=
  match event_stops e t with Some r => stops r (sp_event e t) | None => wp (sp_event e) (fun _ => Q) t end.
Lemma safely_mono e (P Q : sys -> Prop) t : safely e P t -> (forall t', P t' -> Q t') -> safely e Q t.
Proof. unfold safely. intros H HQ. destruct (event_stops e t); [done|]. eapply wp_mono; [exact H|]. intros [] t'. apply HQ. Qed.
Lemma event_frame i h data o t : sp_inv t -> sp_legal (EFrame i h data o) t ->
  safely (EFrame i h data o) (fun t' => sp_after i t t' /\ lwp_kept (EFrame i h data o) t t') t.
Proof.
  intros H L. pose proof L as (Hi & (fd & Hfd & Hn)). destruct (slot_ok_open i t fd (sp_slots t H i Hi) Hfd Hn) as (c & Hc & _).
  pose proof (at_client_start i c (srv t) Hc) as A.
  destruct (wp_run _ _ _ (wp_upd_client i (srv t) c _ (srv t) (arrive h data) (fun _ s' => at_client i (arrive h data c) (curlwp (srv t)) (srv t) s') A ltac:(done))) as ([] & s1 & E1 & A1).
  pose proof (dispatch_handles (o_snd o) (o_malloc_sba o) (o_nworker o) (o_pid_of o) (o_malloc_pf o) (o_random o) (o_rfork_err o) (o_rfork_lwp o) i (arrive h data c) (curlwp (srv t)) (srv t) s1 A1 ltac:(cbn; by destruct data)) as Hd.
  unfold safely, handled_or_stops in *. cbn [event_stops sp_event]. rewrite Hc.
  assert (Eu : in_srv (upd_client i (arrive h data)) t = Done (tt, set_srv s1 t)) by (unfold in_srv, zoom; by rewrite E1).
  destruct (frame_stops _ _ _ _) as [x|].
  - rewrite (bind_run _ _ _ _ _ Eu). unfold in_srv, zoom. cbn [srv set_srv]. destruct (dispatch _ _ _ _ _ _ _ _ i s1); destruct x; try done.
  - apply wp_bind, (run_wp _ _ _ _ _ Eu), wp_zoom. eapply wp_mono; [exact Hd|]. intros [] s' Hh. exact (frame_handled i h data o c s' t H L Hc Hh).
Qed.

(** ** Going away *)
Definition gone (c : client) : client :=
  Cl (-1) (cl_refcnt c - 1) SPCSTATE_NEW 0 (cl_pid c) (cl_respwait c) (cl_hdr c) (cl_buf c) (cl_off c) (cl_nextreq c) (cl_syscallreq c) (cl_inexec c).

Lemma wp_spcrelease i c lw s0 s Q : at_client i c lw s0 s ->
  (1 < cl_refcnt c -> forall s', at_client i (set_ref (cl_refcnt c - 1) c) lw s0 s' -> Q tt s') ->
  (cl_refcnt c <= 1 -> cl_respwait c = [] /\ cl_buf c = None /\ forall lw' s', (lw = 0 -> lw' = 0) ->
     at_client i (gone c) lw' (set_disco (disco s0 + 1) (set_closed (closed s0 ++ [cl_fd c]) s0)) s' -> Q tt s') ->
  wp (spcrelease i) Q s.
Proof.
  intros A Hmore Hlast. unfold spcrelease. sp_step. sp_step. cbn [cl_refcnt set_ref]. case_match eqn:E.
  { apply wp_ret, Hmore; [lia|done]. }
  destruct Hlast as (Ew & Eb & HQ); [lia|]. cbn [cl_respwait cl_buf set_ref cl_mainlwp cl_fd]. rewrite Ew, Eb.
  apply wp_bind, wp_assert; [done|]. apply wp_bind, wp_assert; [done|]. apply wp_bind.
  assert (Hend : forall lw1 s1, (lw = 0 -> lw1 = 0) -> at_client i (set_ref (cl_refcnt c - 1) c) lw1 s0 s1 ->
    wp (modify (fun s => set_closed (closed s ++ [cl_fd c]) s) ;;;
        upd_client i (fun c => Cl (-1) (cl_refcnt c) SPCSTATE_NEW 0 (cl_pid c) (cl_respwait c) (cl_hdr c) (cl_buf c) (cl_off c) (cl_nextreq c) (cl_syscallreq c) (cl_inexec c)) ;;;
        modify (fun s => set_disco (disco s + 1) s)) Q s1).
  { intros lw1 s1 Hlw [E1 E2 E3 E4 E5 E6 E7]. apply wp_bind, wp_modify. apply wp_bind.
    eapply (wp_upd_client i (set_closed (closed s0 ++ [cl_fd c]) s0) (set_ref (cl_refcnt c - 1) c) lw1); [split; cbn; try done; by rewrite E6|].
    intros s2 [F1 F2 F3 F4 F5 F6 F7]. apply wp_modify, (HQ lw1); [done|]. split; cbn in *; try done. by rewrite F7. }
  case_match; [sp_step; sp_step; by apply (Hend 0)|apply wp_ret; by apply (Hend lw)].
Qed.

(** A state of the whole in which only slot [i] differs, from the handler's view. *)
Lemma frame_after i c c' lw s0 t s' r' : sp_inv t -> 0 < i < MAXCLI -> clients (srv t) !! Z.to_nat i = Some c ->
  at_client i c' lw s0 s' -> clients s0 = clients (srv t) ->
  (pfds s0 = pfds (srv t) \/ pfds s0 = <[Z.to_nat i := -1]> (pfds (srv t))) ->
  (forall j, j <> i -> work_of j (wrklist s0) = work_of j (wrklist (srv t))) ->
  (forall j, j <> i -> run_of j r' = run_of j (running t)) ->
  Forall (fun w => 0 < sba_spc w < MAXCLI) (wrklist s0) -> Forall (fun r => 0 < sba_spc r.1 < MAXCLI) r' ->
  0 <= disco s0 ->
  (if decide (cl_fd c' = -1) then 0 else 1) - (if decide (cl_fd c = -1) then 0 else 1) + disco s0 = disco (srv t) ->
  frame_of i t (set_running r' (set_srv s' t)).
Proof.
  intros [] Hi Hc [E1 E2 E3 E4 E5 E6 E7] Ec Ep Hw Hr HF HR Hd Hn. split; cbn; rewrite ?E1, ?E4, ?E5, ?E7, ?Ec; try done.
  - by eexists.
  - destruct (lookup_lt_is_Some_2 (pfds (srv t)) (Z.to_nat i)) as [fd Hfd]; [unfold MAXCLI in *; lia|].
    destruct Ep as [-> | ->]; [|by eexists]. exists fd. by rewrite list_insert_id.
  - rewrite (nopen_change _ _ c) by done. lia.
  - intros j fd Hj Hj0 Hfd. destruct Ep as [Ep|Ep]; rewrite Ep in Hj; [eauto|].
    destruct (decide (j = i)) as [-> |].
    + rewrite list_lookup_insert_eq in Hj; [congruence|]. unfold MAXCLI in *; lia.
    + rewrite list_lookup_insert_ne in Hj by lia. eauto.
Qed.

Lemma event_disco i t : sp_inv t -> sp_legal (EDisco i) t -> wp (sp_event (EDisco i)) (fun _ t' => sp_after i t t' /\ lwp_kept (EDisco i) t t') t.
Proof.
  intros H (Hi & fd & Hfd & Hn). destruct (slot_ok_open i t fd (sp_slots t H i Hi) Hfd Hn) as (c & Hc & Hb & Hw & Hnd & Hf & Hr & Hs & Hnew).
  pose proof (lookup_lt_Some _ _ _ Hfd) as Hlen.
  cbn [sp_event]. apply wp_zoom. unfold serv_handledisco. apply wp_bind, wp_modify.
  set (s0 := set_pfds (<[Z.to_nat i := -1]> (pfds (srv t))) (srv t)).
  pose proof (at_client_start i c s0 Hc) as A. change (curlwp s0) with (curlwp (srv t)) in A. set (lw := curlwp (srv t)) in *.
  sp_step. sp_step. apply wp_bind.
  match goal with |- wp _ ?Q _ => assert (Hend : forall lw1 s1, (lw = 0 -> lw1 = 0) -> at_client i (set_state SPCSTATE_DYING c) lw1 s0 s1 -> Q tt s1) end.
  2:{ case_match; [sp_step; sp_step; sp_step; by apply (Hend 0)|apply wp_ret; by apply (Hend lw)]. }
  clear A. intros lw1 s1 Hlw1 A. sp_step. rename s' into sz. apply (wp_spcrelease i _ lw1 s0 _ _ A); cbn.
  - intros Hm s' A'. change (sp_after i t (set_running (running t) (set_srv s' t)) /\ lwp_kept (EDisco i) t (set_srv s' t)).
    split; [|intros ? Hl; cbn; rewrite (ac_lwp _ _ _ _ _ A'); auto].
    eapply (sp_after_frame i t); [done..|eapply (frame_after i c); try done; try apply H; [by right|]|].
    { cbn. destruct A'. repeat case_decide; try lia. }
    exists (set_ref (cl_refcnt c - 1) (zero_tail (set_state SPCSTATE_DYING c))), (-1).
    destruct A' as [B1 B2 B3 B4 B5 B6 B7]. cbn. rewrite B1, B4. cbn. rewrite !list_lookup_insert_eq by done. split_and!; try done.
    apply slot_dying; rewrite ?(held_eq i t (set_running (running t) (set_srv s' t)) B5 eq_refl); cbn; try done; try lia.
  - intros Hm. assert (Eh : held i t = 0) by (unfold held in *; lia).
    assert (Er : run_of i (running t) = []) by (apply length_zero_iff_nil; unfold held in Eh; lia).
    assert (Ew : cl_respwait c = []). { unfold waits_of in Hw. rewrite Er in Hw. apply Permutation_nil_r, map_eq_nil in Hw. done. }
    split_and!; [done..|]. intros lw' s' Hlw' A'. change (sp_after i t (set_running (running t) (set_srv s' t)) /\ lwp_kept (EDisco i) t (set_srv s' t)).
    split; [|intros ? Hl; cbn; rewrite (ac_lwp _ _ _ _ _ A'); auto].
    eapply (sp_after_frame i t); [done..|eapply (frame_after i c _ _ _ _ _ _ H Hi Hc A'); try done; try apply H; [by right| |]|].
    + cbn. pose proof (sp_disco t H). lia.
    + cbn. repeat case_decide; lia.
    + eexists _, (-1). destruct A' as [B1 B2 B3 B4 B5 B6 B7]. cbn. rewrite B1, B4. cbn. rewrite !list_lookup_insert_eq by done. split_and!; try done.
      apply slot_closed; rewrite ?(held_eq i t (set_running (running t) (set_srv s' t)) B5 eq_refl); cbn; try done; try lia.
Qed.

(** ** Connections *)
Lemma find_slot_spec s n i : let j := find_slot s n i in (i <= j <= i + n)%nat /\ ((j < i + n)%nat -> slot_free s j = true) /\
  (forall k, (i <= k < j)%nat -> slot_free s k = false).
Proof.
  revert i. induction n as [|n IH]; intros i; cbn [find_slot].
  { split_and!; intros; try lia. }
  destruct (slot_free s i) eqn:E; [split_and!; intros; [lia..|done|lia]|]. destruct (IH (S i)) as (H1 & H2 & H3). cbn zeta in *.
  split_and!; [lia..|intros; apply H2; lia|]. intros k Hk. destruct (decide (k = i)) as [-> |]; [done|]. apply H3. lia.
Qed.

Lemma nopen_full l : (forall k c, l !! k = Some c -> cl_fd c <> -1) -> nopen l = zlen l.
Proof.
  intros H. unfold nopen. induction l as [|c l IH]; [done|]. rewrite filter_cons, decide_True by (by apply (H 0%nat)).
  cbn [length]. rewrite !Nat2Z.inj_succ, IH; [done|]. intros k. apply (H (S k)).
Qed.

(** There is a slot for a connection that is let in: abort() is not reached. *)
Lemma conn_slot t : sp_inv t -> nfds t <> MAXCLI -> exists i, Z.of_nat (find_slot (srv t) (Z.to_nat MAXCLI) 0) = i /\ 0 < i < MAXCLI /\ slot_free (srv t) (Z.to_nat i) = true.
Proof.
  intros H Hn. destruct (find_slot_spec (srv t) (Z.to_nat MAXCLI) 0) as (H1 & H2 & H3). cbn zeta in *.
  set (j := find_slot _ _ _) in *. exists (Z.of_nat j). rewrite Nat2Z.id. split; [done|].
  assert (Hj : (j < Z.to_nat MAXCLI)%nat).
  { destruct (decide (j < Z.to_nat MAXCLI)%nat) as [|Hge]; [done|]. exfalso.
    assert (Ho : nopen (clients (srv t)) = MAXCLI).
    { rewrite <- (sp_clients t H). apply nopen_full. intros k c Hk Hc. pose proof (lookup_lt_Some _ _ _ Hk) as Hl.
      pose proof (sp_clients t H) as Hlen. destruct (decide (k = 0%nat)) as [-> | Hk0].
      { destruct (sp_listen t H) as (fd & c' & ? & ? & ? & ?). congruence. }
      destruct (sp_slots t H (Z.of_nat k)) as (c' & fd & Hc1 & Hf1 & _ & _ & _ & Hcase); [lia|]. rewrite Nat2Z.id in *.
      assert (c' = c) as -> by congruence. specialize (H3 k). unfold slot_free in H3. rewrite Hf1, Hk in H3.
      destruct Hcase as [? -> ? Es ? | | ]; [|congruence..]. rewrite Es in H3. cbn in H3. unfold MAXCLI in *. discriminate H3. lia. }
    pose proof (sp_nfds t H). pose proof (sp_disco t H). pose proof (sp_cap t H). lia. }
  specialize (H2 ltac:(lia)). split; [|done]. split; [|unfold MAXCLI in *; lia].
  destruct j; [|lia]. exfalso. unfold slot_free in H2. destruct (sp_listen t H) as (fd & c & E1 & E2 & E3 & E4).
  rewrite E1, E3 in H2. destruct (Z.eqb_spec fd (-1)); [done|discriminate H2].
Qed.

(** A caller that is not let in, or not there. *)
Definition turned_away (n : newconn) (t : sys) : bool :=
  (nc_fd n =? -1) || (nfds t =? MAXCLI) || (nc_fcntl n =? -1) || negb (nc_hook n =? 0) || negb (nc_banner n).
Definition conn_after (n : newconn) (t : sys) (idx : Z) (t' : sys) : Prop :=
  sp_after (-1) t t' /\ curlwp (srv t') = curlwp (srv t) /\
  if turned_away n t then idx = 0 else 0 < idx < MAXCLI /\ slot_free (srv t) (Z.to_nat idx) = true /\ pfds (srv t') !! Z.to_nat idx = Some (nc_fd n).
Lemma conn_closes f t : sp_inv t -> sp_inv (Sys (set_closed f (srv t)) (running t) (nfds t) (maxidx t)).
Proof. intros H. pose proof (sp_slots t H) as Hsl. destruct H. split; try done. intros j Hj. by apply (slot_ok_ext j t), Hsl. Qed.
Lemma wp_main_conn n t : sp_inv t -> wp (main_conn n) (conn_after n t) t.
Proof.
  intros H. unfold main_conn. apply wp_bind, wp_get, wp_bind, wp_zoom. unfold serv_handleconn. cbn zeta. set (fd := nc_fd n).
  assert (Hno : forall s1, s1 = srv t \/ (exists f, s1 = set_closed f (srv t)) -> turned_away n t = true ->
    wp (modify (fun t => Sys (srv t) (running t) (if negb (0 =? 0) then nfds t + 1 else nfds t) (Z.max (maxidx t) 0)) ;;; cret 0) (conn_after n t) (set_srv s1 t)).
  { intros s1 Hs1 Ht. apply wp_bind, wp_modify, wp_ret. cbn. pose proof (sp_maxidx t H). rewrite Z.max_l by lia. unfold conn_after. rewrite Ht. split; [|by destruct Hs1 as [-> | [f ->]]].
    destruct Hs1 as [-> | [f ->]]; [|split; [by apply conn_closes|by intros j]]. replace (Sys _ _ _ _) with t by (by destruct t). split; [done|by intros j]. }
  unfold turned_away in Hno. fold fd in Hno.
  destruct (Z.eqb_spec fd (-1)) as [Ef|Hfd]; [apply wp_ret; apply (Hno (srv t)); [by left|done]|].
  destruct (Z.eqb_spec (nfds t) MAXCLI) as [E|E]; [apply wp_bind, wp_modify, wp_ret, Hno; [by right; eexists|done]|].
  destruct (nc_fcntl n =? -1) eqn:Ec; [apply wp_bind, wp_modify, wp_ret, Hno; [by right; eexists|done]|].
  destruct (negb (nc_hook n =? 0)) eqn:Eh; [apply wp_bind, wp_modify, wp_ret, Hno; [by right; eexists|done]|].
  destruct (negb (nc_banner n)) eqn:Eb; [apply wp_bind, wp_modify, wp_ret, Hno; [by right; eexists|done]|]. clear Hno.
  assert (Hin : turned_away n t = false) by (unfold turned_away; fold fd; by rewrite (proj2 (Z.eqb_neq _ _) Hfd), (proj2 (Z.eqb_neq _ _) E), Ec, Eh, Eb).
  apply wp_bind, wp_get. destruct (conn_slot t H E) as (i & Ei & Hi & Hfree). rewrite Ei. clear Ei. pose proof Hfree as Hslot.
  apply wp_bind, wp_assert. { destruct (Z.eqb_spec i MAXCLI); [lia|done]. }
  destruct (sp_slots t H i Hi) as (c & pf & Hc & Hpf & Hb & Hw & Hnd & Hcase).
  unfold slot_free in Hfree. rewrite Hc, Hpf in Hfree. apply andb_true_iff in Hfree as [Hpf1 Hst]. apply bool_decide_eq_true_1 in Hst.
  apply Z.eqb_eq in Hpf1. subst pf. destruct Hcase as [Hfdc _ Hr _ Hh| |]; [|done|congruence].
  pose proof (lookup_lt_Some _ _ _ Hpf) as Hlen. pose proof (lookup_lt_Some _ _ _ Hc) as Hlen'.
  apply wp_bind, wp_modify.
  pose proof (at_client_start i c (set_pfds (<[Z.to_nat i := fd]> (pfds (srv t))) (srv t)) Hc) as A.
  cbv beta. sp_step. apply wp_ret, wp_bind, wp_modify, wp_ret. rename s' into s1. cbn. destruct (Z.eqb_spec i 0); [lia|]. cbn [negb].
  destruct A as [B1 B2 B3 B4 B5 B6 B7]. cbn in B1, B2, B3, B4, B5, B6, B7.
  assert (Er : run_of i (running t) = []) by (apply length_zero_iff_nil; unfold held in Hh; lia).
  assert (Hh' : held i (Sys s1 (running t) (nfds t + 1) (Z.max (maxidx t) i)) = 0) by (unfold held in *; cbn; by rewrite B5).
  pose proof (sp_cap t H). pose proof (sp_maxidx t H). unfold conn_after. rewrite Hin. split; [|split; [by cbn; rewrite B3|split_and!; [lia|lia|done|cbn; rewrite B4; by apply list_lookup_insert_eq]]].
  split.
  2:{ intros j fd' _ Hj0 Hj Hfd'. cbn [srv]. rewrite B4. destruct (decide (j = i)) as [-> |]; [congruence|by rewrite list_lookup_insert_ne by lia]. }
  eapply (sp_inv_frame i t); [done|done| |].
  - destruct H. split; cbn; rewrite ?B1, ?B3, ?B4, ?B5, ?B7; try done; try lia; try by eexists.
    + rewrite (nopen_change _ _ c) by done. cbn. rewrite Hfdc. repeat case_decide; lia.
    + intros j fd' Hj Hj0 Hfd'. destruct (decide (j = i)) as [-> |]; [lia|].
      rewrite list_lookup_insert_ne in Hj by lia. specialize (sp_max0 j fd' Hj Hj0 Hfd'). lia.
  - eexists _, fd. cbn [srv running]. rewrite B1, B4, !list_lookup_insert_eq by done. split_and!; try done.
    + cbn [cl_respwait map]. cbn [running]. unfold waits_of. by rewrite Er.
    + constructor.
    + apply slot_open; rewrite ?Hh'; cbn; try done. by rewrite Hst.
Qed.

Lemma last_used_bound fds n m : Z.of_nat n <= m -> 0 <= m -> 0 <= last_used fds n m <= m.
Proof.
  induction n as [|n IH]; intros Hn Hm; cbn [last_used]; [lia|]. destruct (fds !! S n) as [fd|]; [|lia].
  destruct (negb (fd =? -1)); [lia|]. apply IH; lia.
Qed.
Lemma last_used_covers fds n m i fd : Z.of_nat n <= m -> fds !! Z.to_nat i = Some fd -> 0 < i <= Z.of_nat n -> fd <> -1 -> i <= last_used fds n m.
Proof.
  intros Hn Hi. induction n as [|n IH]; intros Hr Hfd; cbn [last_used]; [lia|]. destruct (fds !! S n) as [fd'|] eqn:E; [|lia].
  destruct (Z.eqb_spec fd' (-1)) as [-> |]; cbn [negb]; [|lia]. apply IH; [lia| |done].
  destruct (decide (i = Z.of_nat (S n))) as [-> |]; [|lia]. rewrite Nat2Z.id in Hi. congruence.
Qed.

Lemma event_conn n t : sp_inv t -> wp (sp_event (EConn n)) (fun _ t' => sp_after (-1) t t' /\ lwp_kept (EConn n) t t') t.
Proof. intros H. apply wp_bind. eapply wp_mono; [by apply wp_main_conn|]. intros idx t' (Ha & El & _). apply wp_ret. split; [done|]. intros _. by rewrite El. Qed.

Lemma event_gone t : sp_inv t -> wp (sp_event EGone) (fun _ t' => sp_inv t' /\ lwp_kept EGone t t') t.
Proof.
  intros H. apply wp_modify. split; [|intros _; done]. pose proof (sp_maxidx t H). pose proof (last_used_bound (pfds (srv t)) (Z.to_nat (maxidx t)) (maxidx t)).
  destruct H. split; try done; cbn.
  - intros i Hi. by apply (slot_ok_ext i t), sp_slots0.
  - lia.
  - lia.
  - case_match; lia.
  - intros i fd Hi Hi0 Hfd. specialize (sp_max0 i fd Hi Hi0 Hfd). case_match; [done|].
    eapply last_used_covers; [|done|lia|done]. lia.
Qed.

(** ** Workers *)
Lemma run_of_mid i l1 x l2 : run_of i (l1 ++ x :: l2) = run_of i l1 ++ (if decide (sba_spc x.1 = i) then [x] else []) ++ run_of i l2.
Proof. unfold run_of. rewrite filter_app, filter_cons. by case_decide. Qed.
Lemma waits_of_mid i l1 x l2 : waits_of i (l1 ++ x :: l2) = waits_of i l1 ++ (if decide (sba_spc x.1 = i) then option_list x.2 else []) ++ waits_of i l2.
Proof. unfold waits_of. rewrite run_of_mid, !omap_app. do 2 f_equal. case_decide; [|done]. by destruct x as [w [a|]]. Qed.

Lemma event_take t : sp_inv t -> wp (sp_event ETake) (fun _ t' => sp_inv t' /\ lwp_kept ETake t t') t.
Proof.
  intros H. cbn [sp_event]. apply wp_bind, wp_get. destruct (wrklist (srv t)) as [|w l] eqn:E; [by apply wp_ret; split; [|intros ?]|].
  apply wp_modify. split; [|intros _; done]. set (t' := Sys _ _ _ _). set (i := sba_spc w). pose proof (sp_work t H) as Hw. rewrite E, Forall_cons in Hw. destruct Hw as [Hi HF].
  assert (Hh : held i t' = held i t).
  { unfold held, t'. cbn [srv wrklist set_wrklist running]. rewrite E, run_of_app, length_app. cbn [fst].
    unfold work_of. rewrite filter_cons, !decide_True by done. cbn [length]. lia. }
  assert (Hwt : waits_of i (running t') = waits_of i (running t)).
  { unfold t', waits_of. cbn [running]. rewrite run_of_app, omap_app. case_decide; cbn [omap list_omap snd]; apply app_nil_r. }
  destruct (sp_slots t H i Hi) as (c & fd & Hc & Hfd & Hb & Hwp & Hnd & Hcase).
  apply (sp_inv_frame i t); [done|done| |].
  - destruct H. split; unfold t'; cbn [srv running clients pfds wrklist set_wrklist nfds maxidx disco]; try done.
    + exists c. by rewrite list_insert_id.
    + exists fd. by rewrite list_insert_id.
    + intros j Hj. rewrite E. unfold work_of. rewrite filter_cons, decide_False by done. done.
    + intros j Hj. rewrite run_of_app, decide_False by done. apply app_nil_r.
    + apply Forall_app. split; [done|]. by rewrite Forall_cons.
  - exists c, fd. split_and!; try done. { by rewrite Hwt. }
    destruct Hcase; [apply slot_closed|apply slot_open|apply slot_dying]; rewrite ?Hh; done.
Qed.

(** Worker [k] is at a piece of work of client [i]. *)
Section OneWorker.
Variables (k : nat) (w : sba) (r : list (sba * option Z)).
Hypothesis Hk : is_Some (r !! k).
Let i := sba_spc w.

Lemma run_set o : <[k := (w, o)]> r = take k r ++ (w, o) :: drop (S k) r.
Proof using Hk. apply insert_take_drop. by apply lookup_lt_is_Some. Qed.
Lemma waits_set o : waits_of i (<[k := (w, o)]> r) ≡ₚ option_list o ++ waits_of i (delete k r).
Proof using Hk.
  rewrite run_set, waits_of_mid, delete_take_drop. cbn [fst snd]. rewrite decide_True by done.
  unfold waits_of, run_of. rewrite filter_app, omap_app. apply Permutation_app_swap_app.
Qed.
Lemma run_set_len o : zlen (run_of i (<[k := (w, o)]> r)) = 1 + zlen (run_of i (delete k r)).
Proof using Hk.
  rewrite run_set, run_of_mid, delete_take_drop. cbn [fst]. rewrite decide_True by done. unfold run_of. rewrite filter_app, !length_app. cbn [length]. lia.
Qed.
Lemma run_set_other j o : j <> i -> run_of j (<[k := (w, o)]> r) = run_of j (delete k r).
Proof using Hk.
  intros Hj. rewrite run_set, run_of_mid, delete_take_drop. cbn [fst]. rewrite decide_False by done. unfold run_of. by rewrite filter_app.
Qed.
End OneWorker.

Section AWorker.
Variables (t : sys) (k : nat) (w : sba) (o : option Z).
Let i := sba_spc w.
Hypothesis (H : sp_inv t) (Hk : running t !! k = Some (w, o)).

Lemma worker_index : 0 < i < MAXCLI.
Proof using H Hk. pose proof (sp_run t H) as HF. rewrite Forall_lookup in HF. exact (HF k _ Hk). Qed.
Lemma worker_held : 0 < held i t /\ held i t = zlen (work_of i (wrklist (srv t))) + 1 + zlen (run_of i (delete k (running t))).
Proof using Hk.
  unfold held. rewrite <- (list_insert_id _ _ _ Hk) at 1 2. unfold i at 2 4. rewrite (run_set_len k w (running t)) by eauto. fold i. lia.
Qed.
(** The client of a worker is open or dying, and its waits are those of the other
    workers and of this one. *)
Lemma worker_slot : exists c fd, clients (srv t) !! Z.to_nat i = Some c /\ pfds (srv t) !! Z.to_nat i = Some fd /\ cl_buf c = None /\
  map rw_addr (cl_respwait c) ≡ₚ option_list o ++ waits_of i (delete k (running t)) /\ NoDup (map rw_addr (cl_respwait c)) /\
  cl_fd c <> -1 /\ cl_state c <> SPCSTATE_NEW /\ slot_case i t c fd.
Proof using H Hk.
  destruct (sp_slots t H i worker_index) as (c & fd & Hc & Hfd & Hb & Hw & Hnd & Hcase). exists c, fd.
  pose proof worker_held. split_and!; try done.
  - rewrite Hw, <- (list_insert_id _ _ _ Hk) at 1. apply waits_set. eauto.
  - destruct Hcase; [lia|congruence|congruence].
  - intros En. destruct Hcase as [|? ? ? ? Hz|]; [lia|specialize (Hz En); lia|congruence].
Qed.
End AWorker.

(** The worker goes on, waiting or not; its client keeps its references. *)
Lemma worker_stays t k w o o' c c' lw s1 : sp_inv t -> running t !! k = Some (w, o) ->
  clients (srv t) !! Z.to_nat (sba_spc w) = Some c -> at_client (sba_spc w) c' lw (srv t) s1 ->
  cl_fd c' = cl_fd c -> cl_refcnt c' = cl_refcnt c -> cl_state c' = cl_state c -> cl_buf c' = None ->
  map rw_addr (cl_respwait c') ≡ₚ option_list o' ++ waits_of (sba_spc w) (delete k (running t)) -> NoDup (map rw_addr (cl_respwait c')) ->
  sp_inv (set_running (<[k := (w, o')]> (running t)) (set_srv s1 t)).
Proof.
  intros H Hk Hc A Ef Er Es Eb Hw Hnd. pose proof (worker_index t k w o H Hk) as Hi.
  destruct (worker_slot t k w o H Hk) as (c0 & fd & Hc0 & Hfd & _ & _ & _ & _ & _ & Hcase). assert (c0 = c) as -> by congruence. clear Hc0.
  destruct (worker_held t k w o Hk) as [_ Hh]. set (i := sba_spc w) in *. set (r' := <[k := _]> _).
  assert (El : zlen (run_of i r') = 1 + zlen (run_of i (delete k (running t)))) by (apply run_set_len; eauto).
  eapply (sp_inv_frame i t); [done|done|eapply (frame_after i c _ _ _ _ _ _ H Hi Hc A); try done; try apply H; [by left|..]|].
  - intros j Hj. unfold r'. rewrite run_set_other by eauto. rewrite <- (list_insert_id _ _ _ Hk) at 2. symmetry. apply run_set_other; eauto.
  - unfold r'. apply Forall_insert; [apply H|done].
  - rewrite Ef. lia.
  - exists c', fd. destruct A as [B1 B2 B3 B4 B5 B6 B7]. cbn [srv set_running set_srv]. rewrite B1, B4, list_lookup_insert_eq by done.
    assert (Eh : held i (set_running r' (set_srv s1 t)) = held i t).
    { unfold held in *. cbn [srv running set_running set_srv]. rewrite B5, El. lia. }
    split_and!; try done.
    + rewrite Hw. cbn [running set_running]. unfold r', i. by rewrite waits_set by eauto.
    + destruct Hcase; [apply slot_closed|apply slot_open|apply slot_dying]; rewrite ?Eh, ?Ef, ?Er, ?Es; done.
Qed.

Lemma remove_wait_addrs a l : map rw_addr (remove_wait a l) = filter (fun x => x <> a) (map rw_addr l).
Proof.
  induction l as [|x l IH]; [done|]. unfold remove_wait in *. cbn [map]. rewrite !filter_cons.
  destruct (decide (rw_addr x <> a)); cbn [map]; by rewrite IH.
Qed.
Lemma remove_wait_perm a l X : map rw_addr l ≡ₚ a :: X -> NoDup (map rw_addr l) -> map rw_addr (remove_wait a l) ≡ₚ X.
Proof.
  intros Hp Hn. rewrite remove_wait_addrs. rewrite Hp in Hn. rewrite Hp. apply NoDup_cons in Hn as [Ha _].
  rewrite filter_cons, decide_False by tauto. clear Hp. induction X as [|x X IH]; [done|]. rewrite not_elem_of_cons in Ha.
  rewrite filter_cons, decide_True by naive_solver. by rewrite IH by naive_solver.
Qed.
Lemma wait_found a l : a ∈ map rw_addr l -> exists r, list_find (fun w => rw_addr w = a) l = Some r /\ rw_addr r.2 = a /\ r.2 ∈ l.
Proof.
  intros Ha. apply list_elem_of_In, in_map_iff in Ha as (x & Ex & Hx). apply list_elem_of_In in Hx.
  destruct (list_find_elem_of (fun w => rw_addr w = a) l x Hx Ex) as [[n y] Hy]. exists (n, y). pose proof (list_find_Some (fun w => rw_addr w = a) l n y) as [Hs _].
  destruct (Hs Hy) as (H1 & H2 & _). split_and!; [done..|]. cbn. by eapply list_elem_of_lookup_2.
Qed.

(** What a worker does leaves the main thread's lwp alone. *)
Lemma wp_as_worker {A} i c lw s0 s l (m : M server A) Q : at_client i c lw s0 s ->
  (forall s1, at_client i c l s0 s1 -> wp m (fun r s2 => exists c' lw' s0', at_client i c' lw' s0' s2 /\ forall s3, at_client i c' lw s0' s3 -> Q r s3) s1) ->
  wp (as_worker l m) Q s.
Proof.
  intros At HQ. unfold as_worker. apply wp_bind, wp_get, wp_bind, wp_modify, wp_bind. rewrite (ac_lwp _ _ _ _ _ At).
  eapply wp_mono; [apply HQ; by destruct At|]. intros r s2 (c' & lw' & s0' & A' & Hr). apply wp_bind, wp_modify, wp_ret, Hr. by destruct A'.
Qed.
Lemma event_ask k l snd addr q t : sp_inv t -> sp_legal (EAsk k l snd addr q) t -> wp (sp_event (EAsk k l snd addr q)) (fun _ t' => sp_inv t' /\ lwp_kept (EAsk k l snd addr q) t t') t.
Proof.
  intros H (w & Hk & Ha). cbn [sp_event]. apply wp_bind, wp_get, wp_bind, (wp_opt _ _ _ _ _ Hk), wp_bind, wp_zoom.
  destruct (worker_slot t k w None H Hk) as (c & fd & Hc & Hfd & Hb & Hw & Hnd & Hf & Hs & Hcase).
  pose proof (at_client_start _ c (srv t) Hc) as A0. cbn [option_list app] in Hw.
  assert (Hna : addr ∉ map rw_addr (cl_respwait c)).
  { rewrite Hw. intros Hx. apply Ha. rewrite <- (list_insert_id _ _ _ Hk). rewrite waits_set by eauto. done. }
  eapply (wp_as_worker _ c); [exact A0|]. intros s1 A.
  assert (Hq : forall ask, (forall n, exists h d, ask n = send_frame snd (sba_spc w) h d) ->
    wp (ask_client (sba_spc w) addr ask) (fun r s2 => exists c' lw' s0', at_client (sba_spc w) c' lw' s0' s2 /\ forall s3, at_client (sba_spc w) c' (curlwp (srv t)) s0' s3 ->
      wp (modify (fun t => set_running (<[k := (w, if r =? 0 then Some addr else None)]> (running t)) t)) (fun _ t' => sp_inv t' /\ lwp_kept (EAsk k l snd addr q) t t') (set_srv s3 t)) s1).
  { intros ask Hask. unfold ask_client. apply wp_bind. unfold putwait. sp_step. sp_step. apply wp_ret. apply wp_bind. destruct (Hask (cl_nextreq c)) as (h & d & ->). sp_step. apply wp_bind.
    assert (Hnew : NoDup (map rw_addr (cl_respwait c ++ [Rw addr (cl_nextreq c) None 0 false 0]))).
    { rewrite map_app. apply NoDup_app. split_and!; [done| |by apply NoDup_singleton]. intros x Hx Hx'. cbn in Hx'. apply list_elem_of_singleton in Hx' as ->. done. }
    destruct (Z.eqb_spec (snd_err snd) 0) as [Ee|Ee]; cbn [negb].
    - apply wp_ret, wp_ret. eexists _, _, _. split; [exact A|]. intros s3 A3. apply wp_modify. cbv beta. rewrite Ee. cbn [Z.eqb]. split; [|intros _ Hl; cbn; by rewrite (ac_lwp _ _ _ _ _ A3)].
      eapply (worker_stays t k w None (Some addr) c _ _ _ H Hk Hc A3); try done; cbn [cl_respwait set_nextreq set_wait].
      rewrite map_app. cbn [map rw_addr option_list app]. rewrite Hw. by rewrite Permutation_app_comm.
    - unfold unputwait. sp_step. apply wp_ret. eexists _, _, _. split; [exact A|]. intros s3 A3. apply wp_modify. cbv beta. rewrite (proj2 (Z.eqb_neq _ _) Ee). split; [|intros _ Hl; cbn; by rewrite (ac_lwp _ _ _ _ _ A3)].
      assert (Hp : map rw_addr (remove_wait addr (cl_respwait c ++ [Rw addr (cl_nextreq c) None 0 false 0])) ≡ₚ waits_of (sba_spc w) (delete k (running t))).
      { apply remove_wait_perm; [|done]. rewrite map_app. cbn [map rw_addr]. rewrite Hw. by rewrite Permutation_app_comm. }
      eapply (worker_stays t k w None None c _ _ _ H Hk Hc A3); try done; cbn [cl_respwait set_nextreq set_wait]. rewrite Hp. by rewrite <- Hw. }
  destruct q as [ra dl ws|hm]; cbn [put_question]; apply Hq; intros n; by eexists _, _.
Qed.
Lemma event_tell k l snd m t : sp_inv t -> sp_legal (ETell k l snd m) t -> wp (sp_event (ETell k l snd m)) (fun _ t' => sp_inv t' /\ lwp_kept (ETell k l snd m) t t') t.
Proof.
  intros H (w & Hk). cbn [sp_event]. apply wp_bind, wp_get, wp_bind, (wp_opt _ _ _ _ _ Hk), wp_bind, wp_zoom.
  destruct (worker_slot t k w None H Hk) as (c & fd & Hc & Hfd & Hb & Hw & Hnd & Hf & Hs & Hcase). cbn [option_list app] in Hw.
  pose proof (at_client_start _ c (srv t) Hc) as A0. eapply (wp_as_worker _ c); [exact A0|]. intros s1 A.
  assert (Hend : forall c' s3, at_client (sba_spc w) c' (curlwp (srv t)) (srv t) s3 -> cl_fd c' = cl_fd c -> cl_refcnt c' = cl_refcnt c -> cl_state c' = cl_state c -> cl_buf c' = None ->
    cl_respwait c' = cl_respwait c -> wp (cret tt) (fun _ t' => sp_inv t' /\ lwp_kept (ETell k l snd m) t t') (set_srv s3 t)).
  { intros c' s3 A3 E1 E2 E3 E4 E5. apply wp_ret. split; [|intros _ Hl; cbn; by rewrite (ac_lwp _ _ _ _ _ A3)].
    replace (set_srv s3 t) with (set_running (<[k := (w, None)]> (running t)) (set_srv s3 t)) by (unfold set_running; cbn; by rewrite list_insert_id).
    eapply (worker_stays t k w None None c _ _ _ H Hk Hc A3); try done; by rewrite E5. }
  destruct m as [ra d|j n]; cbn [tell].
  - unfold send_copyout_req, nextreq. apply wp_bind. sp_step. sp_step. apply wp_ret. sp_step. eexists _, _, _. split; [exact A|]. intros s3 A3. by eapply Hend.
  - unfold send_raise_req. sp_step. eexists _, _, _. split; [exact A|]. intros s3 A3. by eapply Hend.
Qed.

Lemma event_answered k t : sp_inv t -> sp_legal (EAnswered k) t -> wp (sp_event (EAnswered k)) (fun _ t' => sp_inv t' /\ lwp_kept (EAnswered k) t t') t.
Proof.
  intros H (w & addr & c0 & Hk & Hc0 & Hdone). cbn [sp_event].
  apply wp_bind, wp_get, wp_bind, (wp_opt _ _ _ _ _ Hk), wp_bind, (wp_opt _ _ addr), wp_bind, wp_zoom; [done|].
  destruct (worker_slot t k w _ H Hk) as (c & fd & Hc & Hfd & Hb & Hw & Hnd & Hf & Hs & Hcase). assert (c0 = c) as -> by congruence.
  pose proof (at_client_start _ c (srv t) Hc) as A. cbn [option_list app] in Hw.
  destruct (wait_found addr (cl_respwait c)) as (x & Hx & Ex & Hin). { rewrite Hw. by left. }
  unfold waitresp. sp_step. apply wp_bind, (wp_opt _ _ _ _ _ Hx). cbn zeta.
  assert (Eg : negb (rw_done x.2) && negb (bool_decide (cl_state c = SPCSTATE_DYING)) = false).
  { destruct Hdone as [Hd|Hd]; [rewrite (bool_decide_eq_true_2 _ Hd); apply andb_false_r|by rewrite (Hd _ Hin Ex)]. }
  rewrite Eg. sp_step. apply wp_ret, wp_modify. pose proof (remove_wait_perm addr (cl_respwait c) _ Hw Hnd) as Hp.
  split; [|intros _ Hl; cbn; by rewrite (ac_lwp _ _ _ _ _ A)].
  eapply (worker_stays t k w _ None c _ _ _ H Hk Hc A); try done; cbn [cl_respwait set_wait].
  rewrite Hp. rewrite Hw in Hnd. by apply NoDup_cons in Hnd as [_ ?].
Qed.

(** The work itself: the client keeps its references until the release at its end. *)
Lemma wp_work snd newlwp lwp rv r0 r1 w c lw s0 s Q : at_client (sba_spc w) c lw s0 s ->
  (sba_type w = SBA_EXEC -> cl_refcnt c <= 2 /\ sba_data w <> None) ->
  (forall c' lw' s', at_client (sba_spc w) c' lw' s0 s' -> cl_fd c' = cl_fd c -> cl_refcnt c' = cl_refcnt c -> cl_buf c' = cl_buf c ->
     cl_state c' = cl_state c -> cl_respwait c' = cl_respwait c -> Q tt s') ->
  wp (match sba_type w with SBA_SYSCALL => serv_handlesyscall snd newlwp lwp rv r0 r1 w | SBA_EXEC => serv_handleexec snd w end) Q s.
Proof.
  intros A He HQ. destruct (sba_type w).
  - unfold serv_handlesyscall. cbn zeta. sp_step. sp_step. destruct (negb (newlwp =? 0)); [sp_step; apply wp_ret; by eapply HQ|].
    sp_step. sp_step. sp_step. sp_step. sp_step. apply wp_ret. by eapply HQ.
  - destruct He as [Hr Hd]; [done|]. unfold serv_handleexec. cbn zeta. sp_step. destruct (Z.ltb_spec 2 (cl_refcnt c)); [lia|].
    destruct (sba_data w) as [d|]; [|done]. apply wp_bind, (wp_opt _ _ d); [done|]. sp_step. sp_step. sp_step. sp_step. sp_step. sp_step. apply wp_ret. by eapply HQ.
Qed.
(** Worker [k] is gone, and one reference of its client with it. *)
Section Finished.
Variables (t : sys) (k : nat) (w : sba) (c : client).
Hypotheses (H : sp_inv t) (Hk : running t !! k = Some (w, None)) (Hc : clients (srv t) !! Z.to_nat (sba_spc w) = Some c).
Let i := sba_spc w.
Let r' := delete k (running t).
Lemma finished_others : (forall j, j <> i -> run_of j r' = run_of j (running t)) /\ Forall (fun r => 0 < sba_spc r.1 < MAXCLI) r'.
Proof using H Hk.
  split; [|apply Forall_delete, H]. intros j Hj. unfold r'. rewrite <- (list_insert_id _ _ _ Hk) at 2. symmetry. apply run_set_other; eauto.
Qed.
Lemma finished_held s1 : wrklist s1 = wrklist (srv t) -> held i (set_running r' (set_srv s1 t)) = held i t - 1.
Proof using Hk. intros Es1. destruct (worker_held t k w _ Hk) as [_ Hh]. unfold held in *. cbn [srv running set_running set_srv]. rewrite Es1. fold i in Hh. fold r' in Hh. lia. Qed.
Lemma finished_inv c' lw s' : at_client i c' lw (srv t) s' -> cl_fd c' = cl_fd c -> cl_refcnt c' = cl_refcnt c -> cl_buf c' = cl_buf c -> cl_state c' = cl_state c -> cl_respwait c' = cl_respwait c ->
  wp (spcrelease i) (fun _ s2 => exists c2 lw2 s02, at_client i c2 lw2 s02 s2 /\ forall s3 lw3, at_client i c2 lw3 s02 s3 -> sp_inv (set_running r' (set_srv s3 t))) s'.
Proof using H Hk Hc.
  intros A E1 E2 E3 E4 E5. destruct (worker_slot t k w _ H Hk) as (c0 & fd & Hc0 & Hfd & Hb & Hw & Hnd & Hf & Hs & Hcase). assert (c0 = c) as -> by congruence. clear Hc0.
  cbn [option_list app] in Hw. pose proof (worker_index t k w _ H Hk) as Hi. destruct (worker_held t k w _ Hk) as [_ Hh]. destruct finished_others as [Hother Hall].
  pose proof finished_held as Hheld. fold i in Hw, Hi, Hh, Hcase. fold r' in Hw, Hh.
  apply (wp_spcrelease i c' lw (srv t) s'); [done|intros Hr s1 A1|intros Hr]; [|split_and!].
  - eexists _, _, _. split; [exact A1|]. clear A1 s1. intros s1 lw3 A1. eapply (sp_inv_frame i t); [done|done|eapply (frame_after i c _ _ _ _ _ r' H Hi Hc A1); try done; try apply H; [by left|cbn; rewrite E1; lia]|].
    exists (set_ref (cl_refcnt c' - 1) c'), fd. destruct A1 as [B1 B2 B3 B4 B5 B6 B7]. cbn [srv set_running set_srv]. rewrite B1, B4, list_lookup_insert_eq by done.
    specialize (Hheld s1 B5). cbn [cl_buf cl_respwait set_ref]. rewrite E3, E5. split_and!; try done.
    rewrite E2 in Hr. destruct Hcase; [done|apply slot_open|apply slot_dying]; rewrite ?Hheld; cbn [cl_fd cl_refcnt cl_state set_ref]; rewrite ?E1, ?E2, ?E4; try done; lia.
  - assert (zlen (run_of i r') = 0) as Hz by (destruct Hcase; [done|lia|lia]). assert (Hn : run_of i r' = []) by (apply length_zero_iff_nil; lia).
    unfold waits_of in Hw. rewrite Hn in Hw. rewrite E5. by apply Permutation_nil_r, map_eq_nil in Hw.
  - congruence.
  - intros lw2 s1 _ A1. eexists _, _, _. split; [exact A1|]. clear A1 s1. intros s1 lw3 A1. destruct Hcase as [|? ? Hopen|Hcf -> Hd Hpos Hd']; [done|lia|].
    eapply (sp_inv_frame i t); [done|done|eapply (frame_after i c _ _ _ _ _ r' H Hi Hc A1); try done; try apply H; [by left|..]|].
    + cbn. pose proof (sp_disco t H). lia.
    + cbn. repeat case_decide; try lia; done.
    + exists (gone c'), (-1). destruct A1 as [B1 B2 B3 B4 B5 B6 B7]. cbn [srv set_running set_srv]. rewrite B1, B4. cbn [pfds set_disco set_closed].
      cbn [clients set_disco set_closed] in *. rewrite list_lookup_insert_eq by done. specialize (Hheld s1 B5). cbn [cl_buf cl_respwait gone]. rewrite E3, E5. split_and!; try done.
      apply slot_closed; rewrite ?Hheld; cbn [cl_fd cl_refcnt cl_state gone]; try done; lia.
Qed.
End Finished.

Lemma event_done k l snd newlwp lwp rv r0 r1 t : sp_inv t -> sp_legal (EDone k l snd newlwp lwp rv r0 r1) t ->
  safely (EDone k l snd newlwp lwp rv r0 r1) (fun t' => sp_inv t' /\ lwp_kept (EDone k l snd newlwp lwp rv r0 r1) t t') t.
Proof.
  intros H (w & c & Hk & Hc & He). unfold safely. cbn [event_stops sp_event]. rewrite Hk.
  pose proof (at_client_start _ c (srv t) Hc) as A0. destruct (sba_type w) eqn:Ety; [|destruct (sba_data w) as [d|] eqn:Ed].
  3:{ apply stops_bind, wp_get, stops_bind, (wp_opt _ _ _ _ _ Hk), stops_bind_l. unfold in_srv, zoom.
      assert (Hs : stops (Halted COMM_NULL) (as_worker l (serv_work snd newlwp lwp rv r0 r1 w) (srv t))).
      { unfold as_worker. apply stops_bind, wp_get, stops_bind, wp_modify, stops_bind_l. unfold serv_work. rewrite Ety. apply stops_bind_l.
        set (s1 := set_kern l _ _). assert (A : at_client (sba_spc w) c l (srv t) s1) by (by destruct A0). unfold serv_handleexec. cbn zeta.
        apply stops_bind. sp_step. destruct (Z.ltb_spec 2 (cl_refcnt c)); [specialize (He eq_refl); lia|]. apply stops_bind_l. by rewrite Ed. }
      by destruct (as_worker l _ (srv t)). }
  all: apply wp_bind, wp_get, wp_bind, (wp_opt _ _ _ _ _ Hk), wp_bind, wp_zoom; eapply (wp_as_worker _ c); [exact A0|]; intros s1 A;
    unfold serv_work; apply wp_bind, (wp_work _ _ _ _ _ _ w c l (srv t)); [done|rewrite Ety, ?Ed; intros; split; [auto|done]|];
    intros c' lw' s' A' E1 E2 E3 E4 E5; eapply wp_mono; [exact (finished_inv t k w c H Hk Hc c' lw' s' A' E1 E2 E3 E4 E5)|];
    intros [] s2 (c2 & lw2 & s02 & A2 & Hinv); exists c2, lw2, s02; split; [done|]; intros s3 A3; apply wp_modify; split; [by apply (Hinv s3 (curlwp (srv t)))|];
    intros _ Hl; cbn; by rewrite (ac_lwp _ _ _ _ _ A3).
Qed.

(** ** The server *)
Lemma safely_wp e Q t : event_stops e t = None -> wp (sp_event e) (fun _ => Q) t -> safely e Q t.
Proof. intros E Hw. unfold safely. by rewrite E. Qed.
Lemma safely_done e Q t t' : safely e Q t -> sp_event e t = Done (tt, t') -> Q t'.
Proof. unfold safely, wp. intros H E. rewrite E in H. by destruct (event_stops e t) as [[| |]|]. Qed.
Lemma sp_event_safe e t : sp_inv t -> sp_legal e t -> safely e (fun t' => sp_inv t' /\ lwp_kept e t t') t.
Proof.
  intros H He. destruct e; try (apply safely_wp; [done|]).
  - eapply wp_mono; [by apply event_conn|]. by intros [] t' [[? _] ?].
  - by apply event_gone.
  - eapply safely_mono; [by apply event_frame|]. by intros t' [[? _] ?].
  - eapply wp_mono; [by apply event_disco|]. by intros [] t' [[? _] ?].
  - by apply event_take.
  - by apply event_ask.
  - by apply event_tell.
  - by apply event_answered.
  - by apply event_done.
Qed.

(** The start of spserver. *)
Definition idle_client (fd : Z) : client := Cl fd 0 SPCSTATE_NEW 0 0 [] (RspHdr 0 0 0 0 0) None 0 0 0 false.
Definition spserver_start (sps_sock : Z) : sys :=
  Sys (Server (idle_client sps_sock :: replicate 255 (idle_client (-1))) (sps_sock :: replicate 255 (-1)) [] [] 0 0 [] [] [] [] 0) [] 1 0.

Lemma sp_inv_start sock : sock <> -1 -> sp_inv (spserver_start sock).
Proof.
  intros Hs. split; try done; cbn [srv clients pfds spserver_start].
  - intros i Hi. exists (idle_client (-1)), (-1).
    assert (Hl : forall A (x y : A), (x :: replicate 255 y) !! Z.to_nat i = Some y).
    { intros A x y. destruct (Z.to_nat i) as [|n] eqn:En; [lia|]. rewrite lookup_cons, lookup_replicate. split; [done|]. unfold MAXCLI in *; lia. }
    cbn [srv clients pfds spserver_start]. rewrite !Hl. split_and!; try done; [constructor|]. by apply slot_closed.
  - exists sock, (idle_client sock). done.
  - cbn [nfds spserver_start disco]. unfold nopen. rewrite filter_cons, decide_True by done.
    by vm_compute.
  - intros i fd Hi Hi0 Hfd. exfalso. destruct (Z.to_nat i) as [|n] eqn:En; [lia|]. rewrite lookup_cons, lookup_replicate in Hi. destruct Hi. congruence.
Qed.

(** The states of a server that listens on [sock]. *)
Inductive sp_reach (sock : Z) : sys -> Prop :=
| sp_reach_start : sp_reach sock (spserver_start sock)
| sp_reach_event e t t' : sp_reach sock t -> sp_legal e t -> sp_event e t = Done (tt, t') -> sp_reach sock t'.

Lemma sp_reach_inv sock t : sock <> -1 -> sp_reach sock t -> sp_inv t.
Proof.
  intros Hs. induction 1 as [|e t t' _ IH He E]; [by apply sp_inv_start|].
  by apply (safely_done e _ _ _ (sp_event_safe e t IH He) E).
Qed.

(** A client's slot: one reference for the connection and one for each piece of its
    work, queued or running; the slot is free exactly when there are none; work
    is only for clients that were let in and whose descriptor is still open. *)
Definition refs_exact (t : sys) : Prop := forall i c fd, 0 < i < MAXCLI ->
  clients (srv t) !! Z.to_nat i = Some c -> pfds (srv t) !! Z.to_nat i = Some fd ->
  cl_refcnt c = (if decide (fd = -1) then 0 else 1) + held i t /\ (cl_fd c = -1 <-> cl_refcnt c = 0).
Definition work_let_in (t : sys) : Prop := forall w, w ∈ wrklist (srv t) \/ w ∈ map fst (running t) ->
  exists c, clients (srv t) !! Z.to_nat (sba_spc w) = Some c /\ cl_state c <> SPCSTATE_NEW /\ cl_fd c <> -1.

Lemma held_nonneg i t : 0 <= held i t.
Proof. unfold held. lia. Qed.
Lemma sp_inv_refs t : sp_inv t -> refs_exact t.
Proof.
  intros H i c fd Hi Hc Hfd. destruct (sp_slots t H i Hi) as (c' & fd' & Hc' & Hfd' & _ & _ & _ & Hcase).
  assert (c' = c) as -> by congruence. assert (fd' = fd) as -> by congruence. pose proof (held_nonneg i t).
  destruct Hcase; case_decide; try congruence; try lia.
Qed.
Lemma held_pos i t w : sba_spc w = i -> w ∈ wrklist (srv t) \/ w ∈ map fst (running t) -> 0 < held i t.
Proof.
  intros Hi [Hw|Hw]; unfold held.
  - assert (Hin : w ∈ work_of i (wrklist (srv t))) by (by apply list_elem_of_filter).
    destruct (work_of i _); [by apply not_elem_of_nil in Hin|cbn [length]; lia].
  - apply list_elem_of_fmap in Hw as (x & -> & Hx). assert (Hin : x ∈ run_of i (running t)) by (by apply list_elem_of_filter).
    destruct (run_of i _); [by apply not_elem_of_nil in Hin|cbn [length]; lia].
Qed.
Lemma sp_inv_work t : sp_inv t -> work_let_in t.
Proof.
  intros H w Hw. pose proof (held_pos _ t w eq_refl Hw) as Hp. assert (Hi : 0 < sba_spc w < MAXCLI).
  { destruct Hw as [Hw|Hw].
    - pose proof (sp_work t H) as HF. rewrite Forall_forall in HF. by apply HF.
    - apply list_elem_of_fmap in Hw as (x & -> & Hx). pose proof (sp_run t H) as HF. rewrite Forall_forall in HF. by apply HF. }
  destruct (sp_slots t H _ Hi) as (c & fd & Hc & _ & _ & _ & _ & Hcase). exists c. split; [done|].
  destruct Hcase as [|? ? ? ? Hz|]; [lia| |split; congruence]. split; [|congruence]. intros En. specialize (Hz En). lia.
Qed.


Definition all_sent : sending := Snd 0 90 0.
Definition yes : oracle := Orc true 1 (fun l => l + 100) true [] 0 5 all_sent.
Definition connected : sys := match sp_event (EConn (Conn 7 0 0 true)) (spserver_start 3) with Done (_, t) => t | _ => spserver_start 3 end.
Definition guest (i : Z) (name : list Z) (o : oracle) : sev := EFrame i (RspHdr (HDRSZ + zlen name) 1 RUMPSP_REQ RUMPSP_HANDSHAKE HANDSHAKE_GUEST) name o.
Lemma connected_reach : sp_reach 3 connected.
Proof. apply (sp_reach_event 3 (EConn (Conn 7 0 0 true)) (spserver_start 3)); [apply sp_reach_start|exact I|vm_compute; reflexivity]. Qed.

(** ** Questions and answers *)
Lemma kick_app n f l w r : Forall (fun x => rw_reqno x <> n) l -> rw_reqno w = n -> kick n f (l ++ w :: r) = Some (l ++ f w :: r).
Proof.
  intros HF Hw. induction HF as [|x l Hx HF IH]; cbn [app kick]; [by rewrite Hw, Z.eqb_refl|].
  destruct (Z.eqb_spec (rw_reqno x) n); [done|]. by rewrite IH.
Qed.
Lemma find_app_last a l w : a ∉ map rw_addr l -> rw_addr w = a -> list_find (fun x => rw_addr x = a) (l ++ [w]) = Some (length l, w).
Proof.
  intros Ha Hw. rewrite list_find_app_r.
  - cbn. rewrite decide_True by done. done.
  - apply list_find_None, Forall_forall. intros x Hx E. apply Ha. rewrite <- E. by apply list_elem_of_fmap_2.
Qed.
Lemma remove_app_last a l w : a ∉ map rw_addr l -> rw_addr w = a -> remove_wait a (l ++ [w]) = l.
Proof.
  intros Ha Hw. unfold remove_wait. rewrite filter_app, filter_cons, decide_False, filter_nil, app_nil_r by tauto.
  induction l as [|x l IH]; [done|]. cbn [map] in Ha. rewrite not_elem_of_cons in Ha. rewrite filter_cons, decide_True by naive_solver. by rewrite IH by naive_solver.
Qed.

(** What a client answers with [d] to the question of the waiter at [addr]. *)
Definition ask_copyin (snd : sending) (i addr remaddr dlen : Z) (wantstr : bool) (d : list Z) : M server (Z * list Z) :=
  c <-- the_client i ;;
  copyin_send snd i addr remaddr dlen wantstr ;;;
  upd_client i (arrive (RspHdr (HDRSZ + zlen d) (cl_nextreq c) RUMPSP_RESP (if wantstr then RUMPSP_COPYINSTR else RUMPSP_COPYIN) 0) d) ;;;
  kickwaiter i ;;;
  copyin_end i addr dlen dlen wantstr.

(** A worker that reads from its client's memory gets the bytes the client answers with - those asked for, or
    the whole answer for a string -, whatever other workers of the same client
    wait for; their waits are as before and the answer's buffer is the worker's. *)
Theorem copyin_roundtrip sd i addr remaddr dlen (wantstr : bool) d c s : clients s !! Z.to_nat i = Some c -> cl_state c <> SPCSTATE_DYING ->
  addr ∉ map rw_addr (cl_respwait c) -> Forall (fun x => rw_reqno x <> cl_nextreq c) (cl_respwait c) ->
  0 <= dlen -> (if wantstr then zlen d <= dlen else dlen <= zlen d) -> HDRSZ + zlen d < 2 ^ 64 -> snd_err sd = 0 ->
  wp (ask_copyin sd i addr remaddr dlen wantstr d) (fun r s' => r = (0, take (Z.to_nat dlen) d) /\
    exists c', clients s' = <[Z.to_nat i := c']> (clients s) /\ cl_respwait c' = cl_respwait c /\ cl_buf c' = None /\
    cl_nextreq c' = u64 (cl_nextreq c + 1)) s.
Proof.
  intros Hc Hs Ha Hn H0 Hd Hl Hok. pose proof (at_client_start i c s Hc) as A. unfold ask_copyin, copyin_send, ask_client, putwait.
  sp_step. apply wp_bind, wp_bind. sp_step. sp_step. apply wp_ret. sp_step. rewrite Hok. apply wp_bind, wp_ret, wp_ret. sp_step. unfold kickwaiter. sp_step.
  cbn [cl_hdr arrive rsp_reqno rsp_class cl_respwait set_nextreq set_wait cl_buf cl_off]. rewrite kick_app by done.
  sp_step. sp_step. unfold copyin_end, waitresp. apply wp_bind. sp_step.
  cbn [cl_respwait set_wait reset_buf cl_state set_state arrive set_nextreq]. rewrite find_app_last by done. apply wp_bind, (wp_opt _ _ _ _ _ eq_refl).
  cbn zeta. cbn [snd rw_done rw_error rw_data rw_dlen negb andb]. sp_step. rewrite bool_decide_eq_false_2 by done. apply wp_ret. cbn [Z.eqb negb].
  assert (Eu : u64 (HDRSZ + zlen d - HDRSZ) = zlen d) by (unfold u64; rewrite Z.mod_small; unfold HDRSZ in *; lia). rewrite Eu.
  assert (Ed : default [] (match d with [] => None | _ => Some d end) = d) by (by destruct d). rewrite Ed.
  apply wp_bind, wp_assert. { destruct wantstr; apply Z.leb_le; lia. }
  apply wp_bind, wp_assert. { destruct wantstr; apply Z.leb_le; lia. }
  apply wp_ret. split.
  - f_equal. destruct wantstr; [|done]. rewrite !take_ge; [done|lia|lia].
  - eexists. split; [apply A|]. cbn. split_and!; try done. by apply remove_app_last.
Qed.

Definition running_client : client := Cl 7 2 SPCSTATE_RUNNING 5 105 [Rw 900 4 None 0 false 0] (RspHdr 0 0 0 0 0) None 0 5 0 false.
Definition one_client : server := set_clients [idle_client 3; running_client] (srv (spserver_start 3)).
Lemma copyin_roundtrip_witness : wp (ask_copyin all_sent 1 700 4096 3 false [10; 20; 30; 40]) (fun r s' => r = (0, [10; 20; 30]) /\
    exists c', clients s' = <[1%nat := c']> (clients one_client) /\ cl_respwait c' = cl_respwait running_client /\ cl_buf c' = None /\
    cl_nextreq c' = u64 (cl_nextreq running_client + 1)) one_client.
Proof.
  apply (copyin_roundtrip all_sent 1 700 4096 3 false [10; 20; 30; 40] running_client one_client); [reflexivity|discriminate| | |lia|cbn; lia|reflexivity|reflexivity].
  - cbn. rewrite list_elem_of_singleton. discriminate.
  - cbn. apply Forall_singleton. cbn. discriminate.
Defined.

(** ** Flaws *)

(** A guest handshake without a name stops the server: [comm] is NULL. *)
Theorem guest_without_name_faults :
  sp_event (guest 1 [] yes) connected = Halted COMM_NULL.
Proof. vm_compute. reflexivity. Qed.

(** A send that fails leaves the main thread with the lwp it was sending as, and the next
    guest handshake, of another client, trips the assertion: here client 1, which has
    not been let in, asks for a system call and does not read the refusal. *)
Definition broken_pipe : sending := Snd 0 90 32.
Definition rude : sev := EFrame 1 (RspHdr HDRSZ 1 RUMPSP_REQ RUMPSP_SYSCALL 4) [] (Orc true 1 (fun l => l + 100) true [] 0 5 broken_pipe).
Definition after_rude : sys :=
  match mfor sp_event [EConn (Conn 7 0 0 true); EConn (Conn 8 0 0 true); rude] (spserver_start 3) with Done (_, t) => t | _ => spserver_start 3 end.
Theorem failed_send_trips_assertion : mfor sp_event [EConn (Conn 7 0 0 true); EConn (Conn 8 0 0 true); rude] (spserver_start 3) = Done (tt, after_rude) /\
  curlwp (srv after_rude) = 90 /\ sp_event (guest 2 [97] yes) after_rude = Halted CURLWP_SET.
Proof. split_and!; vm_compute; reflexivity. Qed.
(** A guest whose reply could not be sent is let in all the same, with the process of the
    lwp that was to send it, process 1, in place of its own. *)
Theorem unanswered_guest_is_process_1 : exists t' c, sp_event (guest 1 [97] (Orc true 1 (fun l => l + 100) true [] 0 5 broken_pipe)) connected = Done (tt, t') /\
  clients (srv t') !! 1%nat = Some c /\ cl_state c = SPCSTATE_RUNNING /\ cl_mainlwp c = 5 /\ cl_pid c = 90 + 100.
Proof. eexists _, _. split_and!; vm_compute; reflexivity. Qed.

(** An answer that is shorter than what was asked for is read past its end. *)
Theorem short_answer_faults : ask_copyin all_sent 1 700 4096 3 false [10; 20] one_client = Halted "memcpy reads past the answer".
Proof. vm_compute. reflexivity. Qed.

(** An error answer never reaches the waiter. *)
Theorem error_answer_lost : forall n d, wp (upd_client 1 (arrive (RspHdr (HDRSZ + zlen d) n RUMPSP_ERROR RUMPSP_COPYIN 2) d) ;;;
    dispatch all_sent true 1 (fun l => l) true [] 0 5 1) (fun _ s' => exists c', clients s' !! 1%nat = Some c' /\ cl_respwait c' = cl_respwait running_client) one_client.
Proof.
  intros n d. pose proof (at_client_start 1 running_client one_client eq_refl) as A. change (curlwp one_client) with 0 in A.
  sp_step. unfold dispatch. sp_step. cbv zeta. change (rsp_class (cl_hdr _)) with RUMPSP_ERROR. change (RUMPSP_ERROR =? RUMPSP_RESP) with false.
  change (RUMPSP_ERROR =? RUMPSP_REQ) with false. cbv iota.
  sp_step. sp_step. eexists. destruct A as [B1 _ _ _ _ _ _]. rewrite B1. split; [apply list_lookup_insert_eq; cbn; lia|]. done.
Qed.
