(* ===== verification/SpMain.v ===== *)
(** * Remote system calls: the main loop and the workers' pool

    One turn of spserver's loop over poll, which events it handles and that they
    are the ones SpSafe admits; and the counters with which schedulework and
    serv_workbouncer decide whom to wake. *)
From S2P Require Import Prelude SpWire SpServer SpSafe.

(** ** The main loop *)

(** What readframe returns for a connection. *)
Inductive heard := HeardPart | HeardGone | HeardFrame (h : rsp_hdr) (data : list Z) (o : oracle).

Section Turn.
Variables (revents : list bool) (rv : Z) (spfini : bool) (conn : newconn) (hear : Z -> heard).

(** A descriptor of -1 cannot be read. *)
Definition readframe_at (i : Z) : M sys heard :=
  c <-- in_srv (the_client i) ;; cret (if cl_fd c =? -1 then HeardGone else hear i).

Definition main_client (i : Z) : M sys unit :=
  r <-- readframe_at i ;;
  match r with
  | HeardPart => cret tt
  | HeardGone => sp_event (EDisco i)
  | HeardFrame h data o => sp_event (EFrame i h data o)
  end.

(** [for (idx = 0; seen < rv && idx < MAXCLI; idx++)]; true when the server ends. *)
Fixpoint main_scan (n : nat) (idx seen : Z) : M sys bool :=
  match n with
  | O => mnofuel
  | S n =>
      if negb ((seen <? rv) && (idx <? MAXCLI)) then cret false else
      if negb (nth (Z.to_nat idx) revents false) then main_scan n (idx + 1) seen else
      if 0 <? idx then main_client idx ;;; main_scan n (idx + 1) (seen + 1) else
      if spfini then
        c <-- in_srv (the_client 0) ;;
        in_srv (modify (fun s => set_closed (closed s ++ [cl_fd c]) s)) ;;; in_srv serv_shutdown ;;; cret true
      else
      idx <-- main_conn conn ;; main_scan n (idx + 1) (seen + 1)
  end.
Definition main_turn : M sys bool := sp_event EGone ;;; main_scan (S (Z.to_nat MAXCLI)) 0 0.
End Turn.

(** ** The pool

    [q]: the length of [wrklist]; [top]: workers on their way to the top of the loop,
    [asleep] in pthread_cond_wait, [woken] from it, [busy] with a piece of work. *)
Record pool := Pool { q : Z; nwork : Z; idleworker : Z; nworker : Z; top : Z; asleep : Z; woken : Z; busy : Z }.

Section Pool.
Variables (rumpsp_maxworker rumpsp_idleworker : Z).

(** The locked part of schedulework; [created]: whether pthread_create would work. *)
Definition pool_add (created : bool) (p : pool) : pool :=
  let q' := q p + 1 in let n := nwork p + 1 in
  if n <=? idleworker p then
    if 0 <? asleep p then Pool q' n (idleworker p) (nworker p) (top p) (asleep p - 1) (woken p + 1) (busy p)
    else Pool q' n (idleworker p) (nworker p) (top p) (asleep p) (woken p) (busy p)
  else if (nworker p <? rumpsp_maxworker) && created
  then Pool q' n (idleworker p) (nworker p + 1) (top p + 1) (asleep p) (woken p) (busy p)
  else Pool q' n (idleworker p) (nworker p) (top p) (asleep p) (woken p) (busy p).

(** serv_workbouncer behind the wait: the first piece of work. *)
Definition pool_take (p : pool) : pool :=
  Pool (q p - 1) (nwork p - 1) (idleworker p - 1) (nworker p) (top p) (asleep p) (woken p) (busy p + 1).
(** From the top of the loop to the wait or to the work. *)
Definition pool_top : M pool unit :=
  p <-- mget ;;
  let p := Pool (q p) (nwork p) (idleworker p) (nworker p) (top p - 1) (asleep p) (woken p) (busy p) in
  if rumpsp_idleworker <=? idleworker p - nwork p
  then mput (Pool (q p) (nwork p) (idleworker p) (nworker p - 1) (top p) (asleep p) (woken p) (busy p)) else
  let p := Pool (q p) (nwork p) (idleworker p + 1) (nworker p) (top p) (asleep p) (woken p) (busy p) in
  if q p =? 0 then
    massert (nwork p =? 0) "_DIAGASSERT(nwork == 0)" ;;;
    mput (Pool (q p) (nwork p) (idleworker p) (nworker p) (top p) (asleep p + 1) (woken p) (busy p))
  else mput (pool_take p).
(** A woken worker has the mutex again. *)
Definition pool_wake : M pool unit :=
  p <-- mget ;;
  let p := Pool (q p) (nwork p) (idleworker p) (nworker p) (top p) (asleep p) (woken p - 1) (busy p) in
  if q p =? 0 then
    massert (nwork p =? 0) "_DIAGASSERT(nwork == 0)" ;;;
    mput (Pool (q p) (nwork p) (idleworker p) (nworker p) (top p) (asleep p + 1) (woken p) (busy p))
  else mput (pool_take p).
(** The end of a piece of work. *)
Definition pool_finish (p : pool) : pool :=
  Pool (q p) (nwork p) (idleworker p) (nworker p) (top p + 1) (asleep p) (woken p) (busy p - 1).

Inductive pev := PAdd (created : bool) | PTop | PWake | PSpurious | PFinish.
Definition pool_event (e : pev) : M pool unit :=
  match e with
  | PAdd created => modify (pool_add created)
  | PTop => pool_top
  | PWake => pool_wake
  | PSpurious => modify (fun p => Pool (q p) (nwork p) (idleworker p) (nworker p) (top p) (asleep p - 1) (woken p + 1) (busy p))
  | PFinish => modify pool_finish
  end.
Definition pool_legal (e : pev) (p : pool) : Prop :=
  match e with PAdd _ => True | PTop => 0 < top p | PWake => 0 < woken p | PSpurious => 0 < asleep p | PFinish => 0 < busy p end.
Definition pool_start : pool := Pool 0 0 0 0 0 0 0 0.
End Pool.

(** * Theorems *)

(** ** The pool *)
Section PoolThms.
Variables (maxw idlew : Z) (may_fail : bool).
Hypotheses (Hmax : 0 < maxw) (Hidle : 0 < idlew).

Record pool_inv (p : pool) : Prop := {
  pi_q : nwork p = q p;
  pi_idle : idleworker p = asleep p + woken p;
  pi_all : nworker p = top p + asleep p + woken p + busy p;
  pi_pos : 0 <= q p /\ 0 <= top p /\ 0 <= asleep p /\ 0 <= woken p /\ 0 <= busy p;
  pi_max : nworker p <= maxw;
  pi_woken : 0 < asleep p -> q p <= woken p;
  pi_none : may_fail = false -> nworker p = 0 -> q p = 0
}.
Definition pool_allowed (e : pev) (p : pool) : Prop := pool_legal e p /\ (may_fail = false -> e <> PAdd false).

Lemma pool_inv_event e p : pool_inv p -> pool_allowed e p -> wp (pool_event maxw idlew e) (fun _ => pool_inv) p.
Proof using Hmax Hidle.
  intros [] [He Hc]. destruct e as [created| | | | ]; cbn [pool_event pool_legal] in *.
  - apply wp_modify. unfold pool_add. cbn zeta. destruct (Z.leb_spec (nwork p + 1) (idleworker p)).
    { destruct (Z.ltb_spec 0 (asleep p)); split; cbn; try lia. }
    destruct (Z.ltb_spec (nworker p) maxw), created; cbn [andb]; split; cbn; try lia.
    intros Hf. by specialize (Hc Hf).
  - unfold pool_top. apply wp_bind, wp_get. cbn. destruct (Z.leb_spec idlew (idleworker p - nwork p)).
    { split; cbn; try lia. }
    destruct (Z.eqb_spec (q p) 0).
    { apply wp_bind, wp_assert; [apply Z.eqb_eq; lia|]. split; cbn; try lia. }
    split; cbn; try lia.
  - unfold pool_wake. apply wp_bind, wp_get. cbn. destruct (Z.eqb_spec (q p) 0).
    { apply wp_bind, wp_assert; [apply Z.eqb_eq; lia|]. split; cbn; try lia. }
    split; cbn; try lia.
  - split; cbn; try lia.
  - split; cbn; try lia.
Qed.

Inductive pool_reach : pool -> Prop :=
| pool_reach_start : pool_reach pool_start
| pool_reach_event e p p' : pool_reach p -> pool_allowed e p -> pool_event maxw idlew e p = Done (tt, p') -> pool_reach p'.
Lemma pool_reach_inv p : pool_reach p -> pool_inv p.
Proof using Hmax Hidle.
  induction 1 as [|e p p' _ IH He E]; [by split; cbn; try lia|].
  pose proof (pool_inv_event e p IH He) as Hw. unfold wp in Hw. by rewrite E in Hw.
Qed.
End PoolThms.

(** C25. The workers' pool: however requests, wake-ups and the workers interleave, no step fails its assertion,
    there are never more workers than allowed, and while any worker sleeps each queued
    piece of work has a woken worker of its own, whether threads can be created or
    not.  Provided every pthread_create has succeeded ([may_fail = false]) queued work
    also always has a worker that is awake; [request_stranded] shows that the proviso
    is needed. *)
Theorem pool_no_lost_work maxw idlew may_fail p e : 0 < maxw -> 0 < idlew -> pool_reach maxw idlew may_fail p -> pool_allowed may_fail e p ->
  exists p', pool_event maxw idlew e p = Done (tt, p') /\ nworker p' <= maxw /\ nwork p' = q p' /\
    (0 < asleep p' -> q p' <= woken p') /\ (may_fail = false -> 0 < q p' -> 0 < top p' + woken p' + busy p').
Proof.
  intros Hm Hi Hr He. pose proof (pool_reach_inv maxw idlew may_fail Hm Hi p Hr) as H.
  destruct (wp_run _ _ _ (pool_inv_event maxw idlew may_fail Hm Hi e p H He)) as ([] & p' & E & []).
  exists p'. split_and!; [done..|]. intros Hf Hq. specialize (pi_none0 Hf). lia.
Qed.

Lemma pool_no_lost_work_witness : let p := Pool 1 1 0 1 1 0 0 0 in pool_reach 128 16 false p /\
  exists p', pool_event 128 16 PTop p = Done (tt, p') /\ nworker p' <= 128 /\ nwork p' = q p' /\
    (0 < asleep p' -> q p' <= woken p') /\ (false = false -> 0 < q p' -> 0 < top p' + woken p' + busy p').
Proof.
  intros p. assert (Hr : pool_reach 128 16 false p).
  { apply (pool_reach_event 128 16 false (PAdd true) pool_start); [apply pool_reach_start|split; [exact I|discriminate]|reflexivity]. }
  split; [exact Hr|]. apply (pool_no_lost_work 128 16 false p PTop); [lia|lia|exact Hr|]. split; [cbn; lia|discriminate].
Defined.

(** When the first worker cannot be created the request stays where it is, and
    nobody is told. *)
Theorem request_stranded : exists p, pool_event 128 16 (PAdd false) pool_start = Done (tt, p) /\ q p = 1 /\ nworker p = 0.
Proof. eexists. by split. Qed.

(** ** The main loop *)
Definition marked (revents : list bool) (i : Z) : bool := nth (Z.to_nat i) revents false.
(** poll's marks are of open connections. *)
Definition fresh (revents : list bool) (t : sys) : Prop := forall i, 0 < i < MAXCLI -> marked revents i = true ->
  exists fd, pfds (srv t) !! Z.to_nat i = Some fd /\ fd <> -1.

(** What a turn does for the connections from [idx] on, [seen] marks having been dealt
    with: one event for each marked connection that has something to say, in the order of
    the slots, until [rv] marks have been seen. *)
Definition heard_at (hear : Z -> heard) (i : Z) : list sev :=
  match hear i with HeardPart => [] | HeardGone => [EDisco i] | HeardFrame h data o => [EFrame i h data o] end.
Definition served (revents : list bool) (rv : Z) (hear : Z -> heard) (idx seen : Z) : list sev :=
  concat (map (heard_at hear) (take (Z.to_nat (rv - seen)) (filter (fun i => marked revents i = true) (seqZ idx (MAXCLI - idx))))).

Lemma mfor_app {St A} (f : A -> M St unit) l l' s : mfor f (l ++ l') s = (mfor f l ;;; mfor f l') s.
Proof.
  revert s. induction l as [|x l IH]; intros s; [done|]. cbn [app mfor]. unfold cbind in *. destruct (f x s) as [[[] s1]| |]; [|done|done]. apply IH.
Qed.
Section Scan.
Variables (revents : list bool) (rv : Z) (conn : newconn) (hear : Z -> heard).
Abbreviation served := (served revents rv hear).

Lemma served_end idx seen : rv <= seen \/ MAXCLI <= idx -> served idx seen = [].
Proof. intros H. unfold served. destruct H as [H|H]; [by rewrite (Z2Nat.nonpos (rv - seen)) by lia|]. by rewrite seqZ_nil, filter_nil, take_nil by lia. Qed.
Lemma served_skip idx seen : idx < MAXCLI -> marked revents idx = false -> served idx seen = served (idx + 1) seen.
Proof.
  intros Hi Hm. unfold served. rewrite (seqZ_cons idx) by lia. rewrite filter_cons_False by (by rewrite Hm). unfold Z.succ. replace (Z.pred (MAXCLI - idx)) with (MAXCLI - (idx + 1)) by lia. done.
Qed.
Lemma served_one idx seen : idx < MAXCLI -> seen < rv -> marked revents idx = true -> served idx seen = heard_at hear idx ++ served (idx + 1) (seen + 1).
Proof.
  intros Hi Hs Hm. unfold served. rewrite (seqZ_cons idx) by lia. rewrite filter_cons_True by done. unfold Z.succ. replace (Z.pred (MAXCLI - idx)) with (MAXCLI - (idx + 1)) by lia.
  replace (Z.to_nat (rv - seen)) with (S (Z.to_nat (rv - (seen + 1)))) by lia. done.
Qed.

(** Connections that have not been looked at are open. *)
Definition ahead (idx : Z) (t : sys) : Prop := forall i, idx <= i < MAXCLI -> 0 < i -> marked revents i = true ->
  exists fd, pfds (srv t) !! Z.to_nat i = Some fd /\ fd <> -1.
Lemma ahead_after i t t' : 0 < i -> ahead i t -> keeps_open i t t' -> ahead (i + 1) t'.
Proof. intros Hi Ha Hk j Hj Hj0 Hjr. destruct (Ha j) as (f & Hf & Hfn); [lia|lia|done|]. exists f. split; [apply Hk; [lia|lia|done|done]|done]. Qed.

(** One connection: its event, in a state that is fit for it. *)
Lemma main_client_event i t : sp_inv t -> ahead i t -> 0 < i < MAXCLI -> marked revents i = true ->
  main_client hear i t = mfor sp_event (heard_at hear i) t /\ Forall (fun e => sp_legal e t) (heard_at hear i) /\
  forall t', main_client hear i t = Done (tt, t') -> sp_inv t' /\ ahead (i + 1) t'.
Proof.
  intros H Ha Hi Hr. destruct (Ha i) as (fd & Hfd & Hn); [lia|lia|done|].
  destruct (sp_slots t H i Hi) as (c & fd' & Hc & Hfd' & _ & _ & _ & Hcase). assert (fd' = fd) as -> by congruence.
  assert (Hfdc : cl_fd c <> -1) by (destruct Hcase; congruence).
  assert (Er : readframe_at hear i t = Done (hear i, t)).
  { unfold readframe_at, in_srv, zoom, the_client, cbind, mget, mopt. rewrite Hc. cbn. rewrite (proj2 (Z.eqb_neq _ _) Hfdc). by destruct t. }
  assert (L : forall h data o, sp_legal (EFrame i h data o) t /\ sp_legal (EDisco i) t) by (intros; split; split; eauto).
  unfold main_client, heard_at. rewrite (bind_run _ _ _ _ _ Er).
  assert (H1 : forall e, mfor sp_event [e] t = sp_event e t) by (intros e; cbn [mfor]; unfold cbind; by destruct (sp_event e t) as [[[] ?]| |]).
  destruct (hear i) as [| |h data o].
  - split_and!; [done|constructor|]. intros t' [= <-]. split; [done|]. intros j Hj. apply Ha. lia.
  - rewrite H1. split_and!; [done|apply Forall_singleton, (L (RspHdr 0 0 0 0 0) [] yes)|]. intros t' E. pose proof (event_disco i t H (proj2 (L (RspHdr 0 0 0 0 0) [] yes))) as Hw. unfold wp in Hw. rewrite E in Hw.
    destruct Hw as [[? ?] _]. split; [done|]. by eapply ahead_after; [lia|..].
  - rewrite H1. split_and!; [done|apply Forall_singleton; exact (proj1 (L h data o))|]. intros t' E. pose proof (safely_done _ _ _ _ (event_frame i h data o t H (proj1 (L h data o))) E) as [[? ?] _].
    split; [done|]. by eapply ahead_after; [lia|..].
Qed.

(** The scan from slot 1 on is the events of the marked connections. *)
Lemma main_scan_serves n idx seen t : MAXCLI - idx < Z.of_nat n -> 0 < idx <= MAXCLI -> sp_inv t -> ahead idx t ->
  main_scan revents rv false conn hear n idx seen t = (mfor sp_event (served idx seen) ;;; cret false) t.
Proof.
  revert idx seen t. induction n as [|n IH]; intros idx seen t Hn Hi H Ha; [unfold MAXCLI in *; lia|]. cbn [main_scan].
  destruct ((seen <? rv) && (idx <? MAXCLI)) eqn:E; cbn [negb].
  2:{ rewrite served_end; [done|]. apply andb_false_iff in E as [E%Z.ltb_ge|E%Z.ltb_ge]; [by left|by right]. }
  apply andb_true_iff in E as [Es%Z.ltb_lt Ei%Z.ltb_lt]. fold (marked revents idx). destruct (marked revents idx) eqn:Er; cbn [negb].
  2:{ rewrite IH; [by rewrite (served_skip idx)|lia|lia|done|]. intros j Hj. apply Ha. lia. }
  destruct (Z.ltb_spec 0 idx); [|lia]. destruct (main_client_event idx t H Ha ltac:(lia) Er) as (E1 & _ & E2). rewrite served_one by done.
  unfold cbind at 1. destruct (main_client hear idx t) as [[[] t1]| |] eqn:Em; unfold cbind at 1; rewrite mfor_app; unfold cbind at 1; rewrite <- E1; try done.
  destruct (E2 t1 eq_refl) as [H1 Ha1]. rewrite (IH _ _ t1); [done|lia|lia|done|done].
Qed.
(** and leads to a state of the server, if it ends. *)
Lemma main_scan_reach sock n idx seen t t' b : sp_reach sock t -> MAXCLI - idx < Z.of_nat n -> 0 < idx <= MAXCLI -> sp_inv t -> ahead idx t ->
  main_scan revents rv false conn hear n idx seen t = Done (b, t') -> b = false /\ sp_reach sock t' /\ sp_inv t'.
Proof.
  revert idx seen t. induction n as [|n IH]; intros idx seen t Hreach Hn Hi H Ha; [unfold MAXCLI in *; lia|]. cbn [main_scan].
  destruct ((seen <? rv) && (idx <? MAXCLI)) eqn:E; cbn [negb]; [|by intros [= <- <-]].
  apply andb_true_iff in E as [Es%Z.ltb_lt Ei%Z.ltb_lt]. fold (marked revents idx). destruct (marked revents idx) eqn:Er; cbn [negb].
  2:{ apply IH; [done|lia|lia|done|]. intros j Hj. apply Ha. lia. }
  destruct (Z.ltb_spec 0 idx); [|lia]. destruct (main_client_event idx t H Ha ltac:(lia) Er) as (E1 & L & E2).
  unfold cbind. destruct (main_client hear idx t) as [[[] t1]| |] eqn:Em; [|done|done]. destruct (E2 t1 eq_refl) as [H1 Ha1].
  apply (IH _ _ t1); [|lia|lia|done|done]. unfold heard_at in *. destruct (hear idx) as [| |h data o]; cbn [mfor] in E1; [by injection E1 as ->|..];
    rewrite Forall_singleton in L; unfold cbind in E1; (eapply sp_reach_event; [exact Hreach|exact L|]);
    match type of E1 with _ = match ?x with _ => _ end => destruct x as [[[] ?]| |] end; try done; by injection E1 as ->.
Qed.
(** The scan from slot 0. *)
Lemma main_scan_first sock n t : Z.of_nat n = MAXCLI -> sp_reach sock t -> sp_inv t -> ahead 1 t ->
  let listen := marked revents 0 && (0 <? rv) in
  main_scan revents rv false conn hear (S n) 0 0 t =
    (j <-- (if listen then main_conn conn else cret 0) ;; mfor sp_event (served (j + 1) (if listen then 1 else 0)) ;;; cret false) t /\
  forall b t', main_scan revents rv false conn hear (S n) 0 0 t = Done (b, t') -> b = false /\ sp_reach sock t' /\ sp_inv t'.
Proof.
  intros Hn R H A listen. assert (H0 : 0 < MAXCLI) by done. cbn [main_scan]. change (nth (Z.to_nat 0) revents false) with (marked revents 0). unfold listen.
  rewrite (proj2 (Z.ltb_lt 0 MAXCLI) H0), andb_true_r. destruct (Z.ltb_spec 0 rv) as [Hrv|Hrv]; cbn [negb]; rewrite ?andb_true_r, ?andb_false_r.
  2:{ split; [|by intros b t' [= <- <-]]. unfold cbind, cret. rewrite served_end by lia. done. }
  destruct (marked revents 0); cbn [negb].
  - rewrite Z.ltb_irrefl. destruct (wp_run _ _ _ (wp_main_conn conn t H)) as (j & t2 & Ec & [[H2 Hk] [_ Hj]]).
    assert (Hj' : 0 <= j < MAXCLI) by (destruct (turned_away conn t); [subst j; lia|lia]).
    assert (R2 : sp_reach sock t2) by (eapply (sp_reach_event sock (EConn conn) t); [done|done|]; cbn [sp_event]; by rewrite (bind_run _ _ _ _ _ Ec)).
    assert (A2 : ahead (j + 1) t2).
    { intros i Hi Hi0 Hm. destruct (A i) as (f & Hf2 & Hfn); [lia|lia|done|]. exists f. split; [apply Hk; [lia|lia|done|done]|done]. }
    rewrite !(bind_run _ _ _ _ _ Ec). replace (0 + 1) with 1 by lia. split; [apply main_scan_serves; [lia|lia|done|done]|].
    intros b t'. apply main_scan_reach; [done|lia|lia|done|done].
  - replace (0 + 1) with 1 by lia. split; [|intros b t'; apply main_scan_reach; [done|lia|lia|done|done]].
    rewrite main_scan_serves by (done || lia). unfold cbind at 2. done.
Qed.
End Scan.


(** In that turn the caller is turned away, for its banner is not sent, and the connection of
    slot 1 is served: its end is seen. *)
Example turn_serves_1 : served [true; true] 2 (fun _ => HeardGone) (0 + 1) 1 = [EDisco 1].
Proof. vm_compute. reflexivity. Qed.

(** After a connection the loop goes on from its slot; marks it has passed over leave
    [seen] behind [rv], so the loop goes on past the entries poll has set and
    takes an old mark of a closed slot for a disconnection.  The server then counts
    one connection less than it has. *)
Definition run_all (l : list sev) : M sys unit := mfor sp_event l.
Definition stale_start : sys :=
  match run_all [EConn (Conn 11 0 0 true); EConn (Conn 12 0 0 true); EConn (Conn 13 0 0 true); EConn (Conn 14 0 0 true); EDisco 3; EDisco 4; EGone] (spserver_start 3) with Done (_, t) => t | _ => spserver_start 3 end.
Theorem stale_marks_miscount : exists t', (_ <-- main_turn [true; true; false; false; true] 2 false (Conn 15 0 0 true) (fun _ => HeardPart) ;; sp_event EGone) stale_start = Done (tt, t') /\
  nfds t' = 3 /\ nopen (clients (srv t')) = 4 /\ nfds stale_start = 3 /\ nopen (clients (srv stale_start)) = 3.
Proof. eexists. split_and!; vm_compute; reflexivity. Qed.
