(* ===== verification/SpUrl.v ===== *)
(** * Remote system calls: locators, start and stop of the server (lib/librumprun_base/sysproxy.c)

    A locator is tcp://host:port or unix://path.  Texts are lists of bytes without
    NUL; the fixed arrays of the parsers are arrays of bytes with checked copies.  What
    the host answers (inet_pton, getcwd, malloc, the socket calls) are parameters;
    what is asked of it is logged. *)
From S2P Require Import Prelude CString CText ByteRing.

(** ** The string routines the parsers use *)
Definition strchr (c : Z) (l : list Z) : option nat := fst <$> list_find (fun x => x = c) l.
Definition starts (pat l : list Z) : bool := bool_decide (pat `prefix_of` l).
Fixpoint strstr (pat l : list Z) : option nat :=
  if starts pat l then Some O else match l with [] => None | _ :: l => S <$> strstr pat l end.
Definition digit (c : Z) : bool := (48 <=? c) && (c <=? 57).
Fixpoint strspn_digits (l : list Z) : nat :=
  match l with [] => O | c :: l => if digit c then S (strspn_digits l) else O end.
(** [atoi] of digits; undefined when the value is not an int. *)
Definition dval (ds : list Z) : Z := foldl (fun v c => 10 * v + (c - 48)) 0 ds.
Definition atoi (ds : list Z) : option Z := if dval ds <? 2 ^ 31 then Some (dval ds) else None.
Definition htons (p : Z) : Z := p mod 256 * 256 + p / 256.

(** ** Addresses *)
Definition EINVAL : Z := 22.
Definition ERANGE : Z := 34.
Definition ENOMEM : Z := 12.
Definition EOPNOTSUPP : Z := 45.
Definition ENAMETOOLONG : Z := 63.
Definition SIZEOF_SIN : Z := 16.
Definition SUN_PATH : Z := 104.
Definition SIZEOF_SUN : Z := 106.
Definition INADDR_ANY : Z := 0.
Definition COLON : Z := 58.
Definition SLASH : Z := 47.

(** What malloc gave for the address: a sockaddr_in, or the first [slen] bytes of a
    sockaddr_un. *)
Inductive sockaddr := SaIn (sin_port s_addr : Z) | SaUn (sun_path : list Z) (slen : Z).
Inductive pton := PtonOk (a : Z) | PtonBad | PtonErr (e : Z).

(** What is asked of the host. *)
Inductive call :=
| CSocket (domain : Z) | CClose (fd : Z) | CBind (fd : Z) (sa : sockaddr) (len : Z) | CListen (fd : Z)
| CThread (sock connhook : Z) | CUnlink (path : list Z) | CShutdown (fd : Z) | CResp (reqno : Z).

Record sps := Sps {
  parsedurl : list Z;                 (* the text in the array of 256 *)
  banner : list Z;
  cleanupidx : Z;
  cleanupsa : option sockaddr;
  spfini : bool;
  calls : list call
}.
Definition set_parsedurl v s := Sps v (banner s) (cleanupidx s) (cleanupsa s) (spfini s) (calls s).
Definition set_banner v s := Sps (parsedurl s) v (cleanupidx s) (cleanupsa s) (spfini s) (calls s).
Definition set_cleanup i sa s := Sps (parsedurl s) (banner s) i (Some sa) (spfini s) (calls s).
Definition set_spfini s := Sps (parsedurl s) (banner s) (cleanupidx s) (cleanupsa s) true (calls s).
Definition log c s := Sps (parsedurl s) (banner s) (cleanupidx s) (cleanupsa s) (spfini s) (calls s ++ [c]).

(** strncpy of [n] bytes and the NUL after them, into an array of [size] bytes; the
    string that is in the array afterwards. *)
Definition copy_text (size : Z) (text : list Z) (n : nat) : M sps (list Z) :=
  buf <-- mopt (array_write (replicate (Z.to_nat size) 0) 0 (take n text ++ [0])) "buf" ;;
  lift_res (str_of buf).

Section Url.
Variable inet_pton : list Z -> pton.
Variable getcwd : option (list Z).
Variable malloc_ok : Z -> bool.

Definition STAR : list Z := [42].
Definition ZERO : list Z := [48].
Definition host_addr (host : list Z) : Z + Z :=
  if bool_decide (host = STAR) || bool_decide (host = ZERO) then inr INADDR_ANY else
  match inet_pton host with PtonOk a => inr a | PtonBad => inl EINVAL | PtonErr e => inl e end.

(** From the port number on. *)
Definition tcp_port (p : list Z) (a : Z) : M sps (Z + sockaddr) :=
  let l := strspn_digits p in
  if (l =? 0)%nat then cret (inl EINVAL) else
  buf <-- copy_text 64 p l ;;
  if match p !! l with None => false | Some c => negb (c =? SLASH) end then cret (inl EINVAL) else
  port <-- mopt (atoi buf) "atoi" ;;
  if (port <? 0) || (2 ^ 16 <=? port) then cret (inl ERANGE) else
  if negb (malloc_ok SIZEOF_SIN) then cret (inl ENOMEM) else cret (inr (SaIn (htons port) a)).
Definition tcp_parse (addr : list Z) (allow_wildcard : bool) : M sps (Z + sockaddr) :=
  match strchr COLON addr with
  | None => cret (inl EINVAL)
  | Some l =>
      if 64 - 1 <? Z.of_nat l then cret (inl EINVAL) else
      host <-- copy_text 64 addr l ;;
      match host_addr host with
      | inl e => cret (inl e)
      | inr a =>
          if negb allow_wildcard && (a =? INADDR_ANY) then cret (inl EINVAL)
          else tcp_port (drop (S l) addr) a
      end
  end.

(** [strcpy] and [strcat] into sun_path. *)
Definition sun_cat (path text : list Z) : M sps (list Z) :=
  massert (zlen path + zlen text <? SUN_PATH) "sun_path" ;;; cret (path ++ text).
Definition UNIX_URL : list Z := lit "unix://".
(** The path and whether it was made absolute here. *)
Definition sun_of (addr : list Z) : M sps (Z + (list Z * bool)) :=
  if bool_decide (head addr = Some SLASH) then p <-- sun_cat [] addr ;; cret (inr (p, false)) else
  match getcwd with
  | None => p <-- sun_cat [] addr ;; cret (inr (p, false))
  | Some mywd =>
      if SUN_PATH <=? zlen addr + zlen mywd + 1 then cret (inl ENAMETOOLONG) else
      p <-- sun_cat [] mywd ;; p <-- sun_cat p [SLASH] ;; p <-- sun_cat p addr ;; cret (inr (p, true))
  end.
Definition unix_parse (addr : list Z) (allow_wildcard : bool) : M sps (Z + sockaddr) :=
  if SUN_PATH <=? zlen addr then cret (inl ENAMETOOLONG) else
  r <-- sun_of addr ;;
  match r with
  | inl e => cret (inl e)
  | inr (path, savepath) =>
      let slen := 2 + zlen path + 1 in
      s <-- mget ;;
      (if savepath && bool_decide (parsedurl s = [])
       then modify (set_parsedurl (take 255 (UNIX_URL ++ path))) else cret tt) ;;;
      if negb (malloc_ok slen) then cret (inl ENOMEM) else cret (inr (SaUn path slen))
  end.
Definition unix_cleanup (sa : option sockaddr) : M sps unit :=
  match sa with
  | Some (SaUn path _) => if bool_decide (head path = Some SLASH) then modify (log (CUnlink path)) else cret tt
  | _ => mhalt "sockaddr_un"
  end.
Definition notsupp (addr : list Z) (allow_wildcard : bool) : M sps (Z + sockaddr) := cret (inl EOPNOTSUPP).
Definition success : M sps unit := cret tt.

(** ** The table of address families; connect hooks by the table's index *)
Definition PF_LOCAL : Z := 1.
Definition PF_INET : Z := 2.
Definition PF_INET6 : Z := 24.
Definition SIZEOF_SIN6 : Z := 28.
Record family := Family {
  fam_id : list Z; fam_domain : Z; fam_slen : Z;
  fam_ap : list Z -> bool -> M sps (Z + sockaddr);
  fam_cleanup : option sockaddr -> M sps unit
}.
Definition parsetab : list family :=
  [Family (lit "tcp") PF_INET SIZEOF_SIN tcp_parse (fun _ => success);
   Family (lit "unix") PF_LOCAL SIZEOF_SUN unix_parse unix_cleanup;
   Family (lit "tcp6") PF_INET6 SIZEOF_SIN6 notsupp (fun _ => success)].

Definition SEP : list Z := [58; 47; 47].
(** The table's index and the address. *)
Definition parseurl (url : list Z) (allow_wildcard : bool) : M sps (Z + (Z * sockaddr)) :=
  match strstr SEP url with
  | None => cret (inl EINVAL)
  | Some l =>
      if 16 - 1 <? Z.of_nat l then cret (inl EINVAL) else
      id <-- copy_text 16 url l ;;
      match list_find (fun f => fam_id f = id) parsetab with
      | None => cret (inl EINVAL)
      | Some (i, f) =>
          r <-- fam_ap f (drop (l + 3) url) allow_wildcard ;;
          match r with inl e => cret (inl e) | inr sa => cret (inr (Z.of_nat i, sa)) end
      end
  end.

(** ** Start and stop

    [h_socket], [h_bind], ...: the answers of the host, an error being a number. *)
Record host := Host { h_strdup : bool; h_socket : Z + Z; h_sarg : bool; h_bind : Z; h_listen : Z; h_thread : Z }.
Definition MAXBANNER : Z := 96.
Definition banner_text (ostype osrelease machine : list Z) : list Z :=
  take 95 (lit "RUMPSP-0.4-" ++ ostype ++ lit "-" ++ osrelease ++ lit "/" ++ machine ++ [10]).
Definition rumpuser_sp_init (h : host) (url ostype osrelease machine : list Z) : M sps Z :=
  if negb (h_strdup h) then cret ENOMEM else
  r <-- parseurl url true ;;
  match r with
  | inl e => cret e
  | inr (idx, sa) =>
      f <-- mopt (parsetab !! Z.to_nat idx) "parsetab" ;;
      modify (set_banner (banner_text ostype osrelease machine)) ;;;
      modify (log (CSocket (fam_domain f))) ;;;
      match h_socket h with
      | inl e => cret e
      | inr s =>
          if negb (h_sarg h) then modify (log (CClose s)) ;;; cret ENOMEM else
          modify (set_cleanup idx sa) ;;;
          modify (log (CBind s sa (fam_slen f))) ;;;
          if negb (h_bind h =? 0) then cret (h_bind h) else
          modify (log (CListen s)) ;;;
          if negb (h_listen h =? 0) then cret (h_listen h) else
          modify (log (CThread s idx)) ;;; cret (h_thread h)
      end
  end.
(** [fd0]: the descriptor of the first slot, the listening socket; [reqno]: the call
    of the client that asked for the end, if one did. *)
Definition rumpuser_sp_fini (fd0 : Z) (reqno : option Z) : M sps unit :=
  s <-- mget ;;
  (if negb (fd0 =? 0) then
     f <-- mopt (parsetab !! Z.to_nat (cleanupidx s)) "parsetab" ;;
     fam_cleanup f (cleanupsa s)
   else cret tt) ;;;
  (match reqno with Some n => modify (log (CResp n)) | None => cret tt end) ;;;
  if negb (fd0 =? 0) then modify (log (CShutdown fd0)) ;;; modify set_spfini else cret tt.

(** ** What the string routines find *)
Lemma strchr_Some c l n : strchr c l = Some n -> (l = take n l ++ c :: drop (S n) l) /\ (c ∉ take n l) /\ (n < length l)%nat.
Proof.
  unfold strchr. destruct (list_find _ l) as [[i x]|] eqn:E; [|done]. intros [= <-].
  apply list_find_Some in E as (Hi & -> & Hb). split; [by symmetry; apply take_drop_middle|]. split; [|by eapply lookup_lt_Some].
  intros Hc. apply list_elem_of_lookup in Hc as [j Hj]. apply lookup_take_Some in Hj as [Hj Hlt]. by apply (Hb j c).
Qed.
Lemma strchr_app c l r : c ∉ l -> strchr c (l ++ c :: r) = Some (length l).
Proof.
  intros Hc. unfold strchr. rewrite (proj2 (list_find_Some (fun x => x = c) (l ++ c :: r) (length l) c)); [done|].
  rewrite lookup_app_r, Nat.sub_diag by lia. repeat split. intros j y Hj Hlt ->. apply Hc.
  rewrite lookup_app_l in Hj by lia. by eapply list_elem_of_lookup_2.
Qed.
Lemma strstr_Some pat l n : strstr pat l = Some n -> l = take n l ++ pat ++ drop (n + length pat) l /\ (n <= length l)%nat.
Proof.
  revert n. induction l as [|c l IH]; intros n; cbn [strstr]; unfold starts; case_bool_decide as Hp.
  - intros [= <-]. destruct Hp as [r Hr]. destruct pat; [|done]. done.
  - done.
  - intros [= <-]. destruct Hp as [r ->]. cbn [take Nat.add app]. split; [by rewrite drop_app_length|cbn; lia].
  - destruct (strstr pat l) as [m|] eqn:E; [|done]. intros [= <-]. destruct (IH m eq_refl) as [E' ?]. cbn. split; [by f_equal|lia].
Qed.
Lemma strstr_app id rest : COLON ∉ id -> strstr SEP (id ++ SEP ++ rest) = Some (length id).
Proof.
  induction id as [|c id IH]; intros Hc.
  - cbn. unfold starts. rewrite bool_decide_true by (by exists rest). done.
  - cbn [app strstr length]. unfold starts. rewrite bool_decide_false; [by rewrite IH by set_solver|].
    intros [r Hr]. injection Hr as -> _. apply Hc. by left.
Qed.
Lemma strspn_app ds rest : Forall digit ds -> match head rest with Some c => digit c = false | None => True end ->
  strspn_digits (ds ++ rest) = length ds.
Proof.
  intros Hd Hr. induction Hd as [|c ds Hc Hd IH]; cbn [app strspn_digits length].
  - destruct rest as [|c rest]; [done|]. cbn in *. by rewrite Hr.
  - destruct (digit c); [by rewrite IH|done].
Qed.
Lemma strspn_split p : exists ds rest, p = ds ++ rest /\ Forall digit ds /\ match head rest with Some c => digit c = false | None => True end.
Proof.
  induction p as [|c p (ds & rest & -> & Hd & Hr)]; [by exists [], []|].
  destruct (digit c) eqn:E; [exists (c :: ds), rest|exists [], (c :: ds ++ rest)]; repeat split; try done.
  constructor; [by rewrite E|done].
Qed.
Lemma dval_nonneg ds : Forall digit ds -> 0 <= dval ds.
Proof.
  unfold dval. intros Hd. assert (H : forall v, 0 <= v -> 0 <= foldl (fun v c => 10 * v + (c - 48)) v ds); [|by apply H].
  induction Hd as [|c ds Hc Hd IH]; intros v Hv; [done|]. cbn. apply IH.
  unfold digit in Hc. destruct (Z.leb_spec 48 c), (Z.leb_spec c 57); cbn in Hc; try done; lia.
Qed.
Lemma copy_text_ok size text n s : no_nul text -> (n <= length text)%nat -> Z.of_nat n < size -> copy_text size text n s = Done (take n text, s).
Proof.
  intros Hn Hl Hs. unfold copy_text, array_write, cbind, mopt. rewrite length_app, length_take, length_replicate. cbn [length].
  change (0 <=? 0) with true. cbn [andb]. rewrite (proj2 (Z.leb_le _ _)) by lia.
  unfold cret, lift_res, str_of. change (Z.to_nat 0) with O. rewrite take_0, <- app_assoc. cbn [app]. rewrite cstring_app; [done|]. by apply Forall_take.
Qed.
Lemma copy_text_overrun size text n s : (n <= length text)%nat -> 0 <= size <= Z.of_nat n -> copy_text size text n s = Halted "buf".
Proof.
  intros Hl Hs. unfold copy_text, array_write, cbind, mopt. rewrite length_app, length_take, length_replicate. cbn [length].
  change (0 <=? 0) with true. cbn [andb]. rewrite (proj2 (Z.leb_gt _ _)) by lia. done.
Qed.

(** ** The grammar of locators *)
Definition tail_ok (rest : list Z) : Prop := rest = [] \/ head rest = Some SLASH.
Definition tcp_address (addr : list Z) (allow : bool) (sa : sockaddr) : Prop := exists host ds rest a,
  addr = host ++ COLON :: ds ++ rest /\ (COLON ∉ host) /\ zlen host < 64 /\
  host_addr host = inr a /\ (allow = true \/ a <> INADDR_ANY) /\
  Forall digit ds /\ 0 < zlen ds < 64 /\ dval ds < 2 ^ 16 /\ tail_ok rest /\
  malloc_ok SIZEOF_SIN = true /\ sa = SaIn (htons (dval ds)) a.
Definition abs_path (addr : list Z) : list Z :=
  if decide (head addr = Some SLASH) then addr else match getcwd with None => addr | Some wd => wd ++ SLASH :: addr end.
Definition unix_address (addr : list Z) (sa : sockaddr) : Prop :=
  zlen (abs_path addr) < SUN_PATH /\ malloc_ok (3 + zlen (abs_path addr)) = true /\
  sa = SaUn (abs_path addr) (3 + zlen (abs_path addr)).
Definition locator (url : list Z) (allow : bool) (i : Z) (sa : sockaddr) : Prop :=
  (exists addr, url = lit "tcp" ++ SEP ++ addr /\ i = 0 /\ tcp_address addr allow sa) \/
  (exists addr, url = lit "unix" ++ SEP ++ addr /\ i = 1 /\ unix_address addr sa).
(** Ports behind a host that is accepted: its digits and what follows them are as [P] says. *)
Definition port_such (P : list Z -> list Z -> Prop) (addr : list Z) (allow : bool) : Prop := exists host ds rest a,
  addr = host ++ COLON :: ds ++ rest /\ (COLON ∉ host) /\ zlen host < 64 /\
  host_addr host = inr a /\ (allow = true \/ a <> INADDR_ANY) /\ Forall digit ds /\ P ds rest.
(** A port with more digits than its array has room for. *)
Definition port_too_long : list Z -> bool -> Prop := port_such (fun ds _ => 64 <= zlen ds).
(** A port that fits its array, ends as it should, and is a number no int holds. *)
Definition port_no_int : list Z -> bool -> Prop := port_such (fun ds rest => zlen ds < 64 /\ 2 ^ 31 <= dval ds /\ tail_ok rest).

(** ** tcp *)
Definition port_result (ds rest : list Z) (a : Z) (s : sps) : res ((Z + sockaddr) * sps) :=
  if decide (64 <= zlen ds) then Halted "buf"
  else if decide (~ tail_ok rest) then Done (inl EINVAL, s)
  else if decide (2 ^ 31 <= dval ds) then Halted "atoi"
  else if decide (2 ^ 16 <= dval ds) then Done (inl ERANGE, s)
  else if malloc_ok SIZEOF_SIN then Done (inr (SaIn (htons (dval ds)) a), s) else Done (inl ENOMEM, s).

Lemma tail_test ds rest : match (ds ++ rest) !! length ds with None => false | Some c => negb (c =? SLASH) end = bool_decide (~ tail_ok rest).
Proof.
  rewrite lookup_app_r, Nat.sub_diag by lia. unfold tail_ok. destruct rest as [|c rest]; cbn -[bool_decide].
  - rewrite bool_decide_false; [done|]. intros H. apply H. by left.
  - destruct (Z.eqb_spec c SLASH) as [->|Hc]; cbn -[bool_decide].
    + rewrite bool_decide_false; [done|]. intros H. apply H. by right.
    + rewrite bool_decide_true; [done|]. intros [?|[=]]; done.
Qed.
Lemma tcp_port_run ds rest a s : ds <> [] -> Forall digit ds -> no_nul (ds ++ rest) ->
  match head rest with Some c => digit c = false | None => True end -> tcp_port (ds ++ rest) a s = port_result ds rest a s.
Proof.
  intros Hne Hd Hn Hr. unfold tcp_port, port_result. rewrite strspn_app by done.
  destruct (Nat.eqb_spec (length ds) 0) as [E|_]; [by destruct ds|]. pose proof (dval_nonneg ds Hd) as Hv.
  case_decide as H64. { unfold cbind at 1. rewrite copy_text_overrun; [done|rewrite length_app; lia|lia]. }
  unfold cbind at 1. rewrite copy_text_ok; [|done|rewrite length_app; lia|lia].
  rewrite take_app_length, tail_test. case_decide as Ht; [by rewrite (bool_decide_true _ Ht)|rewrite bool_decide_false by tauto].
  unfold atoi, cbind, mopt. destruct (Z.ltb_spec (dval ds) (2 ^ 31)); case_decide; try lia; [|done].
  unfold cret at 1. rewrite (proj2 (Z.ltb_ge _ _)) by lia. cbn [orb].
  destruct (Z.leb_spec (2 ^ 16) (dval ds)); case_decide; try lia; [done|]. by destruct (malloc_ok SIZEOF_SIN).
Qed.
Lemma tcp_port_none p a s : match head p with Some c => digit c = false | None => True end -> tcp_port p a s = Done (inl EINVAL, s).
Proof. intros H. change p with ([] ++ p). unfold tcp_port. by rewrite strspn_app. Qed.

Lemma tcp_host_run host p allow s : COLON ∉ host -> zlen host < 64 -> no_nul (host ++ COLON :: p) ->
  tcp_parse (host ++ COLON :: p) allow s =
    match host_addr host with
    | inl e => Done (inl e, s)
    | inr a => if negb allow && (a =? INADDR_ANY) then Done (inl EINVAL, s) else tcp_port p a s
    end.
Proof.
  intros Hc Hl Hn. unfold tcp_parse. rewrite strchr_app by done. rewrite (proj2 (Z.ltb_ge _ _)) by lia.
  unfold cbind. rewrite copy_text_ok; [|done|rewrite length_app; cbn; lia|lia].
  rewrite take_app_length. destruct (host_addr host) as [e|a]; [done|].
  rewrite (cons_middle COLON host p), app_assoc. rewrite drop_app_length'; [by destruct (_ && _)|]. rewrite length_app. cbn. lia.
Qed.
Lemma wildcard_ok allow a : negb allow && (a =? INADDR_ANY) = false <-> allow = true \/ a <> INADDR_ANY.
Proof. destruct allow, (Z.eqb_spec a INADDR_ANY); cbn; naive_solver. Qed.

(** What tcp_parse does to every address. *)
Lemma tcp_parse_cases addr allow s : no_nul addr ->
  (exists sa, tcp_parse addr allow s = Done (inr sa, s) /\ tcp_address addr allow sa) \/
  (exists e, tcp_parse addr allow s = Done (inl e, s)) \/
  (tcp_parse addr allow s = Halted "buf" /\ port_too_long addr allow) \/
  (tcp_parse addr allow s = Halted "atoi" /\ port_no_int addr allow).
Proof.
  intros Hn. destruct (strchr COLON addr) as [l|] eqn:E; [|right; left; unfold tcp_parse; rewrite E; eexists; reflexivity].
  destruct (Z.lt_ge_cases (Z.of_nat l) 64) as [Hl|Hl].
  2: { right; left. unfold tcp_parse. rewrite E, (proj2 (Z.ltb_lt _ _)) by lia. eexists; reflexivity. }
  destruct (strchr_Some _ _ _ E) as (Ha & Hc & Hlen).
  assert (Hh : zlen (take l addr) < 64) by (rewrite length_take; lia).
  remember (take l addr) as host. remember (drop (S l) addr) as p. rewrite Ha in Hn |- *. clear Ha Heqhost Heqp E Hlen Hl.
  rewrite tcp_host_run by done. destruct (host_addr host) as [e|a] eqn:Eh; [right; left; eexists; reflexivity|].
  destruct (negb allow && (a =? INADDR_ANY)) eqn:Ew; [right; left; eexists; reflexivity|]. apply wildcard_ok in Ew.
  destruct (strspn_split p) as (ds & rest & -> & Hd & Hr).
  destruct (decide (ds = [])) as [->|Hne]; [right; left; rewrite tcp_port_none by done; eexists; reflexivity|].
  rewrite tcp_port_run; [|done|done|by apply Forall_app in Hn as [_ [_ ?]%Forall_cons]|done].
  assert (0 < zlen ds) by (destruct ds; cbn; [done|lia]). unfold port_result.
  case_decide. { right; right; left. split; [reflexivity|]. exists host, ds, rest, a. eauto 10. }
  case_decide as Ht; [right; left; eexists; reflexivity|].
  case_decide. { right; right; right. split; [reflexivity|]. exists host, ds, rest, a. repeat split; try done; lia. }
  case_decide; [right; left; eexists; reflexivity|].
  destruct (malloc_ok SIZEOF_SIN) eqn:Em; [|right; left; eexists; reflexivity].
  left. eexists. split; [reflexivity|]. exists host, ds, rest, a. repeat split; try done; lia.
Qed.

Lemma tcp_parse_accepts addr allow sa s : no_nul addr -> tcp_address addr allow sa -> tcp_parse addr allow s = Done (inr sa, s).
Proof.
  intros Hn (host & ds & rest & a & -> & Hc & Hl & Eh & Hw & Hd & Hds & Hv & Ht & Em & ->).
  rewrite tcp_host_run, Eh by done. rewrite (proj2 (wildcard_ok allow a) Hw).
  rewrite tcp_port_run; [|intros ->; cbn in Hds; lia|done|by apply Forall_app in Hn as [_ [_ ?]%Forall_cons]|by destruct Ht as [-> | ->]].
  unfold port_result. rewrite decide_False, decide_False, decide_False, decide_False, Em by (tauto || lia). done.
Qed.

(** ** unix *)
Definition saved (addr : list Z) (s : sps) : sps :=
  if decide (head addr <> Some SLASH /\ getcwd <> None /\ parsedurl s = []) then set_parsedurl (UNIX_URL ++ abs_path addr) s else s.
Lemma sun_cat_ok path text s : zlen path + zlen text < SUN_PATH -> sun_cat path text s = Done (path ++ text, s).
Proof. intros H. unfold sun_cat, cbind, massert. by rewrite (proj2 (Z.ltb_lt _ _)). Qed.
Lemma sun_of_run addr s : zlen addr < SUN_PATH -> sun_of addr s =
  if decide (SUN_PATH <= zlen (abs_path addr)) then Done (inl ENAMETOOLONG, s)
  else Done (inr (abs_path addr, bool_decide (head addr <> Some SLASH /\ getcwd <> None)), s).
Proof.
  intros Ha. unfold sun_of, abs_path. destruct (decide (head addr = Some SLASH)) as [Hh|Hh];
    [rewrite (bool_decide_true (head addr = Some SLASH)) by done|rewrite (bool_decide_false (head addr = Some SLASH)) by done].
  - rewrite decide_False by lia. unfold cbind. rewrite sun_cat_ok by (cbn [length]; lia). cbn [app]. rewrite bool_decide_false by tauto. done.
  - destruct getcwd as [wd|].
    2: { rewrite decide_False by lia. unfold cbind. rewrite sun_cat_ok by (cbn [length]; lia). cbn [app]. rewrite bool_decide_false by tauto. done. }
    rewrite length_app. cbn [length]. destruct (Z.leb_spec SUN_PATH (zlen addr + zlen wd + 1)); [by rewrite decide_True by lia|].
    rewrite decide_False by lia. unfold cbind. rewrite sun_cat_ok by (cbn [length]; lia). cbn [app].
    rewrite sun_cat_ok by (cbn [length]; lia). rewrite sun_cat_ok by (rewrite length_app; cbn [length]; lia).
    rewrite bool_decide_true by done. by rewrite <- app_assoc.
Qed.
Lemma abs_path_longer addr : zlen addr <= zlen (abs_path addr).
Proof. unfold abs_path. case_decide; [lia|]. destruct getcwd; [rewrite length_app; cbn [length]; lia|lia]. Qed.
Lemma unix_parse_run addr allow s : unix_parse addr allow s =
  if decide (SUN_PATH <= zlen (abs_path addr)) then Done (inl ENAMETOOLONG, s)
  else Done (if malloc_ok (3 + zlen (abs_path addr)) then inr (SaUn (abs_path addr) (3 + zlen (abs_path addr))) else inl ENOMEM, saved addr s).
Proof.
  pose proof (abs_path_longer addr). unfold unix_parse.
  destruct (Z.leb_spec SUN_PATH (zlen addr)); [by rewrite decide_True by lia|].
  unfold cbind at 1. rewrite sun_of_run by done. case_decide; [done|].
  replace (2 + zlen (abs_path addr) + 1) with (3 + zlen (abs_path addr)) by lia.
  unfold cbind, mget, saved, cret.
  destruct (bool_decide (head addr ≠ Some SLASH ∧ getcwd ≠ None) && bool_decide (parsedurl s = [])) eqn:E.
  - apply andb_true_iff in E as [E1%bool_decide_eq_true E2%bool_decide_eq_true].
    rewrite decide_True by tauto. unfold modify. rewrite take_ge; [by destruct (malloc_ok _)|].
    rewrite length_app. change (length UNIX_URL) with 7%nat. unfold SUN_PATH in *. lia.
  - rewrite decide_False; [by destruct (malloc_ok _)|]. intros (? & ? & ?).
    rewrite !bool_decide_true in E by done. done.
Qed.

(** ** The scheme *)
Lemma parseurl_at url l allow s : no_nul url -> strstr SEP url = Some l -> (l < 16)%nat ->
  parseurl url allow s =
    match list_find (fun f => fam_id f = take l url) parsetab with
    | None => Done (inl EINVAL, s)
    | Some (i, f) =>
        cbind (fam_ap f (drop (l + 3) url) allow) (fun r => match r with inl e => cret (inl e) | inr sa => cret (inr (Z.of_nat i, sa)) end) s
    end.
Proof.
  intros Hn E Hl. unfold parseurl. rewrite E, (proj2 (Z.ltb_ge _ _)) by lia.
  unfold cbind at 1. destruct (strstr_Some _ _ _ E) as [_ ?]. rewrite copy_text_ok by (done || lia).
  by destruct (list_find _ _) as [[i f]|].
Qed.
Lemma parseurl_scheme id addr allow s : no_nul (id ++ SEP ++ addr) -> COLON ∉ id -> (length id < 16)%nat ->
  parseurl (id ++ SEP ++ addr) allow s =
    match list_find (fun f => fam_id f = id) parsetab with
    | None => Done (inl EINVAL, s)
    | Some (i, f) =>
        cbind (fam_ap f addr allow) (fun r => match r with inl e => cret (inl e) | inr sa => cret (inr (Z.of_nat i, sa)) end) s
    end.
Proof.
  intros Hn Hc Hl. rewrite (parseurl_at _ (length id)); [|done|by apply strstr_app|done].
  rewrite take_app_length, app_assoc, drop_app_length'; [done|]. rewrite length_app. cbn. lia.
Qed.
Lemma family_cases id i f : list_find (fun f => fam_id f = id) parsetab = Some (i, f) ->
  (id = lit "tcp" /\ i = 0%nat /\ f = Family (lit "tcp") PF_INET SIZEOF_SIN tcp_parse (fun _ => success)) \/
  (id = lit "unix" /\ i = 1%nat /\ f = Family (lit "unix") PF_LOCAL SIZEOF_SUN unix_parse unix_cleanup) \/
  (id = lit "tcp6" /\ i = 2%nat /\ f = Family (lit "tcp6") PF_INET6 SIZEOF_SIN6 notsupp (fun _ => success)).
Proof.
  intros (Hi & <- & _)%list_find_Some. unfold parsetab in *.
  destruct i as [|[|[|i]]]; cbn in Hi; simplify_eq; tauto.
Qed.

Lemma find_tcp : list_find (fun f => fam_id f = lit "tcp") parsetab = Some (0%nat, Family (lit "tcp") PF_INET SIZEOF_SIN tcp_parse (fun _ => success)).
Proof. reflexivity. Qed.
Lemma find_unix : list_find (fun f => fam_id f = lit "unix") parsetab = Some (1%nat, Family (lit "unix") PF_LOCAL SIZEOF_SUN unix_parse unix_cleanup).
Proof. reflexivity. Qed.

(** What parseurl does to every text. *)
Lemma parseurl_cases url allow s : no_nul url ->
  (exists i sa s', parseurl url allow s = Done (inr (i, sa), s') /\ locator url allow i sa) \/
  (exists e s', parseurl url allow s = Done (inl e, s')) \/
  (exists addr, url = lit "tcp" ++ SEP ++ addr /\
     (parseurl url allow s = Halted "buf" /\ port_too_long addr allow \/
      parseurl url allow s = Halted "atoi" /\ port_no_int addr allow)).
Proof.
  intros Hn. destruct (strstr SEP url) as [l|] eqn:E; [|right; left; unfold parseurl; rewrite E; by repeat eexists].
  destruct (decide (l < 16)%nat) as [Hl|Hl].
  2: { right; left. unfold parseurl. rewrite E, (proj2 (Z.ltb_lt _ _)) by lia. by repeat eexists. }
  rewrite (parseurl_at url l) by done. destruct (strstr_Some _ _ _ E) as [Hu _]. change (length SEP) with 3%nat in Hu.
  destruct (list_find _ _) as [[i f]|] eqn:Ef; [|right; left; by repeat eexists].
  remember (drop (l + 3) url) as addr eqn:Ea. assert (Hna : no_nul addr) by (subst; by apply Forall_drop). unfold cbind.
  destruct (family_cases _ _ _ Ef) as [(Eid & -> & ->)|[(Eid & -> & ->)|(Eid & -> & ->)]]; cbn [fam_ap]; rewrite Eid in Hu.
  - destruct (tcp_parse_cases addr allow s Hna) as [(sa & -> & H)|[(e & ->)|[(-> & H)|(-> & H)]]].
    + left. exists 0, sa, s. split; [done|]. left. by exists addr.
    + right; left. by repeat eexists.
    + right; right. exists addr. split; [done|]. by left.
    + right; right. exists addr. split; [done|]. by right.
  - rewrite unix_parse_run. case_decide; [right; left; by repeat eexists|]. destruct (malloc_ok _) eqn:Em.
    + left. exists 1. do 2 eexists. split; [reflexivity|]. right. exists addr. repeat split; [done|lia|done].
    + right; left. by repeat eexists.
  - right; left. by repeat eexists.
Qed.
Lemma parseurl_accepts url allow i sa s : no_nul url -> locator url allow i sa ->
  exists s', parseurl url allow s = Done (inr (i, sa), s') /\ calls s' = calls s /\ (0 <= i < 2).
Proof.
  intros Hn [(addr & -> & -> & H)|(addr & -> & -> & H1 & H2 & ->)].
  - exists s. rewrite parseurl_scheme; [|done|by apply (bool_decide_unpack _); vm_compute|cbn; lia].
    rewrite find_tcp. unfold cbind. cbn [fam_ap]. rewrite (tcp_parse_accepts addr allow sa s); [done|by apply Forall_app in Hn as [_ [_ ?]%Forall_app]|done].
  - exists (saved addr s). rewrite parseurl_scheme; [|done|by apply (bool_decide_unpack _); vm_compute|cbn; lia].
    rewrite find_unix. unfold cbind. cbn [fam_ap]. rewrite unix_parse_run, decide_False, H2 by lia. unfold saved. by case_decide.
Qed.

(** A tcp address with a host that is accepted is left to its port. *)
Lemma tcp_parse_port P addr allow s : no_nul addr -> port_such P addr allow -> exists ds rest a,
  Forall digit ds /\ P ds rest /\ no_nul (ds ++ rest) /\ tcp_parse addr allow s = tcp_port (ds ++ rest) a s.
Proof.
  intros Hn (host & ds & rest & a & -> & Hc & Hl & Eh & Hw & Hd & HP). exists ds, rest, a.
  rewrite tcp_host_run, Eh, (proj2 (wildcard_ok allow a) Hw) by done.
  by apply Forall_app in Hn as [_ [_ Hn]%Forall_cons].
Qed.
Lemma tcp_parse_overruns addr allow s : no_nul addr -> port_too_long addr allow -> tcp_parse addr allow s = Halted "buf".
Proof.
  intros Hn H. destruct (tcp_parse_port _ _ _ s Hn H) as (ds & rest & a & Hd & Hlong & Hn' & ->).
  destruct (strspn_split rest) as (d2 & r2 & -> & Hd2 & Hr2). rewrite app_assoc in Hn' |- *.
  rewrite tcp_port_run; [|intros [-> ->]%app_nil; cbn in Hlong; lia|by apply Forall_app|done|done].
  unfold port_result. by rewrite decide_True by (rewrite length_app; lia).
Qed.
Lemma tcp_parse_no_int addr allow s : no_nul addr -> port_no_int addr allow -> tcp_parse addr allow s = Halted "atoi".
Proof.
  intros Hn H. destruct (tcp_parse_port _ _ _ s Hn H) as (ds & rest & a & Hd & (H64 & Hv & Ht) & Hn' & ->).
  rewrite tcp_port_run; [|intros ->; cbn in Hv; lia|done|done|by destruct Ht as [-> | ->]].
  unfold port_result. by rewrite decide_False, decide_False, decide_True by (tauto || lia).
Qed.
(** The same, from the whole locator. *)
Lemma parseurl_tcp addr allow w s : tcp_parse addr allow s = Halted w -> no_nul (lit "tcp" ++ SEP ++ addr) ->
  parseurl (lit "tcp" ++ SEP ++ addr) allow s = Halted w.
Proof.
  intros E Hn. rewrite parseurl_scheme; [|done|by apply (bool_decide_unpack _); vm_compute|cbn; lia].
  rewrite find_tcp. unfold cbind. cbn [fam_ap]. by rewrite E.
Qed.

(** C13. [parseurl] accepts exactly the locators and gives the address they name: in
    tcp://host:port the host is what inet_pton accepts or the wildcard where a server
    may have it, the port a number below 65536 with nothing or a slash behind it, put
    in network order; unix://path gives the path, made absolute with the working
    directory, if it fits its array; everything else is refused. *)
Theorem parseurl_grammar url allow i sa s : no_nul url ->
  (exists s', parseurl url allow s = Done (inr (i, sa), s')) <-> locator url allow i sa.
Proof using Type.
  intros Hn. split.
  - intros [s' E]. destruct (parseurl_cases url allow s Hn) as [(i' & sa' & s1 & E' & H)|[(e & s1 & E')|(addr & _ & [[E' _]|[E' _]])]];
      rewrite E in E'; simplify_eq; done.
  - intros H. destruct (parseurl_accepts url allow i sa s Hn H) as (s' & E & _). eauto.
Qed.

(** C22. Where [parseurl] is not defined: the digits of a tcp port are copied into an
    array of 64 without a check, and it is exactly a port of 64 digits or more behind a
    host it accepts that leaves an array; a port of fewer digits that is properly ended
    but is no int is given to atoi, which has no value for it; every other text, of any
    length, is accepted or refused with an error. *)
Theorem parseurl_bounds url allow s : no_nul url ->
  (parseurl url allow s = Halted "buf" <-> exists addr, url = lit "tcp" ++ SEP ++ addr /\ port_too_long addr allow) /\
  (parseurl url allow s = Halted "atoi" <-> exists addr, url = lit "tcp" ++ SEP ++ addr /\ port_no_int addr allow) /\
  (parseurl url allow s <> Halted "buf" -> parseurl url allow s <> Halted "atoi" -> exists r s', parseurl url allow s = Done (r, s')).
Proof using Type.
  intros Hn. pose proof (parseurl_cases url allow s Hn) as Hc. repeat split.
  - intros E. rewrite E in Hc. naive_solver.
  - intros (addr & -> & H). apply parseurl_tcp; [|done]. apply tcp_parse_overruns; [by apply Forall_app in Hn as [_ [_ ?]%Forall_app]|done].
  - intros E. rewrite E in Hc. naive_solver.
  - intros (addr & -> & H). apply parseurl_tcp; [|done]. apply tcp_parse_no_int; [by apply Forall_app in Hn as [_ [_ ?]%Forall_app]|done].
  - naive_solver.
Qed.

(** What is to be removed when the server stops, and the domain and length of an address. *)
Definition unlinks (sa : sockaddr) : list call :=
  match sa with SaUn path _ => if decide (head path = Some SLASH) then [CUnlink path] else [] | SaIn _ _ => [] end.
Definition domain_of (sa : sockaddr) : Z := match sa with SaIn _ _ => PF_INET | SaUn _ _ => PF_LOCAL end.
Definition slen_of (sa : sockaddr) : Z := match sa with SaIn _ _ => SIZEOF_SIN | SaUn _ _ => SIZEOF_SUN end.
Lemma logs_calls l s : calls (foldl (fun s c => log c s) s l) = calls s ++ l.
Proof. revert s. induction l as [|c l IH]; intros s; cbn; [by rewrite app_nil_r|]. rewrite IH. cbn. by rewrite <- app_assoc. Qed.
Lemma locator_family url allow i sa : locator url allow i sa -> exists f, parsetab !! Z.to_nat i = Some f /\
  fam_domain f = domain_of sa /\ fam_slen f = slen_of sa /\
  (forall s, fam_cleanup f (Some sa) s = Done (tt, foldl (fun s c => log c s) s (unlinks sa))).
Proof.
  intros [(addr & _ & -> & host & ds & rest & a & H)|(addr & _ & -> & _ & _ & ->)].
  - destruct H as (_ & _ & _ & _ & _ & _ & _ & _ & _ & _ & ->). eexists. by split; [reflexivity|].
  - eexists. split; [reflexivity|]. split; [done|]. split; [done|]. intros s. unfold fam_cleanup, unix_cleanup, unlinks.
    case_bool_decide; [by rewrite decide_True by done|by rewrite decide_False by done].
Qed.

(** Started with a locator, the server listens on that address and keeps what it
    bound; stopped, it removes the socket of an absolute path and no other file,
    answers the call that asked for the end and shuts its socket. *)
Theorem sp_start_stop url i sa fd ostype osrelease machine reqno s : no_nul url -> locator url true i sa -> fd <> 0 ->
  exists s1 s2,
    rumpuser_sp_init (Host true (inr fd) true 0 0 0) url ostype osrelease machine s = Done (0, s1) /\
    calls s1 = calls s ++ [CSocket (domain_of sa); CBind fd sa (slen_of sa); CListen fd; CThread fd i] /\
    cleanupsa s1 = Some sa /\ zlen (banner s1) < MAXBANNER /\
    rumpuser_sp_fini fd reqno s1 = Done (tt, s2) /\ spfini s2 = true /\
    calls s2 = calls s1 ++ unlinks sa ++ (match reqno with Some n => [CResp n] | None => [] end) ++ [CShutdown fd].
Proof using Type.
  intros Hn H Hfd. destruct (parseurl_accepts url true i sa s Hn H) as (s0 & E & Hcalls & Hi).
  destruct (locator_family _ _ _ _ H) as (f & Ef & Hdom & Hslen & Hcl).
  unfold rumpuser_sp_init, rumpuser_sp_fini. unfold cbind, mopt. cbn [h_strdup negb]. rewrite E, Ef.
  cbn. eexists. rewrite (proj2 (Z.eqb_neq fd 0) Hfd). cbn. destruct reqno as [n|]; eexists; (split; [reflexivity|]);
    cbn; rewrite Hdom, Hslen, Hcalls, Ef, <- !app_assoc; (split; [done|]); (split; [done|]);
    (split; [unfold banner_text; rewrite length_take; unfold MAXBANNER; lia|]); cbn; rewrite Hcl; (split; [reflexivity|]); cbn;
    rewrite logs_calls; cbn; rewrite ?Hcalls, ?Hdom, ?Hslen, <- ?app_assoc; done.
Qed.
End Url.

(** ** Concrete instances *)
Definition pton_one (h : list Z) : pton := if decide (h = lit "10.0.0.1") then PtonOk 16777226 else PtonBad.
Definition url_tcp : list Z := lit "tcp://10.0.0.1:8080/rump".
Definition url_unix : list Z := lit "unix://sock".
Definition url_long : list Z := lit "tcp://*:" ++ replicate 64 49.
Definition s_start : sps := Sps [] [] 0 None false [].
Lemma tcp_located cwd : locator pton_one cwd (fun _ => true) url_tcp false 0 (SaIn 36895 16777226).
Proof.
  left. exists (lit "10.0.0.1:8080/rump"). split; [done|]. split; [done|].
  exists (lit "10.0.0.1"), (lit "8080"), (lit "/rump"), 16777226. split; [done|]. split; [by apply (bool_decide_unpack _); vm_compute|].
  split; [done|]. split; [by vm_compute|]. split; [by right|]. split; [by repeat constructor|]. split; [done|]. split; [done|]. split; [by right|]. done.
Qed.
Lemma parseurl_grammar_witness : no_nul url_tcp /\
  exists s', parseurl pton_one None (fun _ => true) url_tcp false s_start = Done (inr (0, SaIn 36895 16777226), s').
Proof.
  assert (H : no_nul url_tcp) by (by repeat constructor). split; [done|].
  apply (parseurl_grammar pton_one None (fun _ => true) url_tcp false 0 (SaIn 36895 16777226) s_start H). apply tcp_located.
Defined.
Lemma long_port : port_too_long pton_one (lit "*:" ++ replicate 64 49) true.
Proof.
  exists STAR, (replicate 64 49), [], 0. split; [done|]. split; [by apply (bool_decide_unpack _); vm_compute|].
  split; [done|]. split; [by vm_compute|]. split; [by left|]. split; [by repeat constructor|]. by vm_compute.
Qed.
(** Ten digits fit the array, and are no int. *)
Definition url_no_int : list Z := lit "tcp://*:9999999999".
Lemma no_int_port : port_no_int pton_one (lit "*:9999999999") true.
Proof.
  exists STAR, (lit "9999999999"), [], 0. split; [done|]. split; [by apply (bool_decide_unpack _); vm_compute|].
  split; [done|]. split; [by vm_compute|]. split; [by left|]. split; [by repeat constructor|].
  split; [by vm_compute|]. split; [by apply (bool_decide_unpack _); vm_compute|by left].
Qed.
Lemma parseurl_bounds_witness : no_nul url_long /\ no_nul url_no_int /\
  parseurl pton_one None (fun _ => true) url_long true s_start = Halted "buf" /\
  parseurl pton_one None (fun _ => true) url_no_int true s_start = Halted "atoi".
Proof.
  assert (H : no_nul url_long) by (by repeat constructor). assert (H' : no_nul url_no_int) by (by repeat constructor).
  split; [done|]. split; [done|]. split.
  - apply (parseurl_bounds pton_one None (fun _ => true) url_long true s_start H).
    exists (lit "*:" ++ replicate 64 49). split; [done|]. apply long_port.
  - apply (parseurl_bounds pton_one None (fun _ => true) url_no_int true s_start H').
    exists (lit "*:9999999999"). split; [done|]. apply no_int_port.
Defined.
Lemma unix_located : locator pton_one (Some (lit "/tmp")) (fun _ => true) url_unix true 1 (SaUn (lit "/tmp/sock") 12).
Proof. right. exists (lit "sock"). split; [done|]. split; [done|]. by vm_compute. Qed.
Lemma sp_start_stop_witness : exists s1 s2,
  rumpuser_sp_init pton_one (Some (lit "/tmp")) (fun _ => true) (Host true (inr 5) true 0 0 0) url_unix [] [] [] s_start = Done (0, s1) /\
  rumpuser_sp_fini pton_one (Some (lit "/tmp")) (fun _ => true) 5 None s1 = Done (tt, s2) /\
  CUnlink (lit "/tmp/sock") ∈ calls s2.
Proof.
  destruct (sp_start_stop pton_one (Some (lit "/tmp")) (fun _ => true) url_unix 1 (SaUn (lit "/tmp/sock") 12) 5 [] [] [] None s_start)
    as (s1 & s2 & H1 & Hc1 & _ & _ & H2 & _ & Hc2); [by repeat constructor|exact unix_located|lia|].
  exists s1, s2. split; [done|]. split; [done|]. rewrite Hc2. apply elem_of_app. right. by left.
Defined.
