(* ===== verification/Paging.v ===== *)
(** * Page tables of the Xen guest (platform/xen/xen/arch/x86/mm.c)

    Four levels of tables (x86_64) live in machine frames; the guest reads them
    through its 1:1 area, which starts at [VIRT_START] and shows frame [p2m pfn] at
    page [pfn], and changes them only by asking the hypervisor.  [mem] holds the
    entries by machine address, 0 where nothing was written.  The hypervisor's
    verdicts are parameters; it writes an entry that it accepts and nothing else. *)
From S2P Require Import Prelude Pgalloc PgallocInv PageIface.

(** Xen's public headers: the update command in the low bits, the sizes of the two
    batch entries; a verdict (rc) on each update. *)
Class XenMmu := {
  MMU_NORMAL_PT_UPDATE : Z;
  sizeof_mmu_update : Z;
  sizeof_multicall_entry : Z;
  DOMID_SELF : Z;
  mmu_verdict : gmap Z Z -> Z -> Z -> Z -> Z;        (* memory, domain, entry, value *)
  va_verdict : gmap Z Z -> Z -> Z -> Z;              (* memory, va, value *)
  multicall_verdict : gmap Z Z -> Z -> Z             (* memory, number of calls *)
}.
Class XenMmuLaws `{XenMmu} : Prop := {
  normal_update_zero : MMU_NORMAL_PT_UPDATE = 0;
  mmu_update_fits : 0 < sizeof_mmu_update <= 131072;
  multicall_fits : 0 < sizeof_multicall_entry <= 131072
}.

(** ** x86/mm.h *)
Definition PAGE_SHIFT : Z := 12.
Definition PAGE_SIZE : Z := 4096.
Definition PAGE_MASK : Z := u64 (Z.lnot (PAGE_SIZE - 1)).
Definition STACK_SIZE : Z := PAGE_SIZE * 64.
Definition L1_PAGETABLE_SHIFT : Z := 12.
Definition L2_PAGETABLE_SHIFT : Z := 21.
Definition L3_PAGETABLE_SHIFT : Z := 30.
Definition L4_PAGETABLE_SHIFT : Z := 39.
Definition L1_MASK : Z := Z.shiftl 1 L2_PAGETABLE_SHIFT - 1.
Definition l1_table_offset (a : Z) : Z := Z.land (Z.shiftr a L1_PAGETABLE_SHIFT) 511.
Definition l2_table_offset (a : Z) : Z := Z.land (Z.shiftr a L2_PAGETABLE_SHIFT) 511.
Definition l3_table_offset (a : Z) : Z := Z.land (Z.shiftr a L3_PAGETABLE_SHIFT) 511.
Definition l4_table_offset (a : Z) : Z := Z.land (Z.shiftr a L4_PAGETABLE_SHIFT) 511.
Definition _PAGE_PRESENT : Z := 1.
Definition _PAGE_RW : Z := 2.
Definition _PAGE_USER : Z := 4.
Definition _PAGE_ACCESSED : Z := 32.
Definition _PAGE_DIRTY : Z := 64.
Definition L1_PROT : Z := Z.lor (Z.lor (Z.lor _PAGE_PRESENT _PAGE_RW) _PAGE_ACCESSED) _PAGE_USER.
Definition L2_PROT : Z := Z.lor (Z.lor (Z.lor (Z.lor _PAGE_PRESENT _PAGE_RW) _PAGE_ACCESSED) _PAGE_DIRTY) _PAGE_USER.
Definition L3_PROT : Z := Z.lor (Z.lor (Z.lor (Z.lor _PAGE_PRESENT _PAGE_RW) _PAGE_ACCESSED) _PAGE_DIRTY) _PAGE_USER.
Definition L4_PROT : Z := Z.lor (Z.lor (Z.lor (Z.lor _PAGE_PRESENT _PAGE_RW) _PAGE_ACCESSED) _PAGE_DIRTY) _PAGE_USER.
Definition PADDR_MASK : Z := Z.shiftl 1 52 - 1.
Definition DEMAND_MAP_PAGES : Z := Z.shiftl 128 30 / PAGE_SIZE.
Definition pte_to_mfn (pte : Z) : Z := Z.shiftr (Z.land pte (Z.land PADDR_MASK PAGE_MASK)) L1_PAGETABLE_SHIFT.
Definition present (e : Z) : bool := negb (Z.land e _PAGE_PRESENT =? 0).
Definition sizeof_pgentry : Z := 8.

Section Paging.
Context {P : Type} `{PA : PageAllocator P} `{XM : XenMmu}.

Record mm := Mm { mm_pg : P; mem : gmap Z Z; p2m : gmap Z Z; m2p : gmap Z Z; demand_map_area_start : Z }.
Definition set_pg v s := Mm v (mem s) (p2m s) (m2p s) (demand_map_area_start s).
Definition set_mem v s := Mm (mm_pg s) v (p2m s) (m2p s) (demand_map_area_start s).
Definition in_pg {A} (m : M P A) : M mm A := zoom mm_pg set_pg m.

(** [VIRT_START]: the address of [_text]; [pt_base]: start_info's. *)
Variables (VIRT_START pt_base : Z).

Definition to_phys (x : Z) : Z := u64 (x - VIRT_START).
Definition to_virt (x : Z) : Z := u64 (x + VIRT_START).
Definition pfn_to_mfn (pfn : Z) : M mm Z := s <-- mget ;; mopt (p2m s !! pfn) "phys_to_machine_mapping".
Definition mfn_to_pfn (mfn : Z) : M mm Z := s <-- mget ;; mopt (m2p s !! mfn) "machine_to_phys_mapping".
Definition virt_to_pfn (virt : Z) : Z := Z.shiftr (to_phys virt) L1_PAGETABLE_SHIFT.
Definition virt_to_mfn (virt : Z) : M mm Z := pfn_to_mfn (virt_to_pfn virt).
Definition pfn_to_virt (pfn : Z) : Z := to_virt (u64 (Z.shiftl pfn PAGE_SHIFT)).
Definition mfn_to_virt (mfn : Z) : M mm Z := pfn <-- mfn_to_pfn mfn ;; cret (pfn_to_virt pfn).
(** virt_to_mach, by phys_to_machine. *)
Definition virt_to_mach (virt : Z) : M mm Z :=
  machine <-- pfn_to_mfn (Z.shiftr (to_phys virt) PAGE_SHIFT) ;;
  cret (Z.lor (u64 (Z.shiftl machine PAGE_SHIFT)) (Z.land (to_phys virt) (PAGE_SIZE - 1))).
(** An entry of a table at a virtual address of the 1:1 area. *)
Definition load_entry (tab offset : Z) : M mm Z :=
  a <-- virt_to_mach (u64 (tab + sizeof_pgentry * offset)) ;; gets (fun s => default 0 (mem s !! a)).
Definition load_at (p : Z) : M mm Z := a <-- virt_to_mach p ;; gets (fun s => default 0 (mem s !! a)).

(** The processor's walk: the table of depth [d] (0 is the root) for [va], and the
    machine address of its entry. *)
Definition idx (d : nat) (va : Z) : Z := Z.land (Z.shiftr va (39 - 9 * Z.of_nat d)) 511.
Definition ent_addr (m i : Z) : Z := m * 4096 + 8 * i.
Definition ent (s : mm) (m i : Z) : Z := default 0 (mem s !! ent_addr m i).
Fixpoint node (s : mm) (va : Z) (d : nat) : option Z :=
  match d with
  | O => p2m s !! virt_to_pfn pt_base
  | S d => match node s va d with
           | Some m => let e := ent s m (idx d va) in if present e then Some (pte_to_mfn e) else None
           | None => None
           end
  end.

(** HYPERVISOR_mmu_update: in order, up to the first refusal. *)
Fixpoint mmu_update (dom : Z) (l : list (Z * Z)) : M mm Z :=
  match l with
  | [] => cret 0
  | (ptr, val) :: l =>
      s <-- mget ;;
      let rc := mmu_verdict (mem s) dom ptr val in
      if rc <? 0 then cret rc else
      modify (set_mem (<[ptr := val]> (mem s))) ;;; mmu_update dom l
  end.

(** [bmk_memset(pt_page, 0, PAGE_SIZE)]. *)
Definition clear_page (pt_page : Z) : M mm unit :=
  m <-- virt_to_mfn pt_page ;;
  modify (fun s => set_mem (foldr (fun i => delete (u64 (Z.shiftl m PAGE_SHIFT) + sizeof_pgentry * i)) (mem s) (seqZ 0 512)) s).

(** The level gives the protections of the page's own mapping and of its hook. *)
Inductive frame_level := L1_FRAME | L2_FRAME | L3_FRAME.
Definition prot_e (level : frame_level) : Z := match level with L1_FRAME => L1_PROT | L2_FRAME => L2_PROT | L3_FRAME => L3_PROT end.
Definition prot_t (level : frame_level) : Z := match level with L1_FRAME => L2_PROT | L2_FRAME => L3_PROT | L3_FRAME => L4_PROT end.

Definition pte_to_virt (pte : Z) : M mm Z := mfn_to_virt (pte_to_mfn pte).

Definition new_pt_frame (pt_pfn prev_l_mfn offset : Z) (level : frame_level) : M mm unit :=
  let pt_page := pfn_to_virt pt_pfn in
  clear_page pt_page ;;;
  e4 <-- load_entry pt_base (l4_table_offset pt_page) ;; tab <-- pte_to_virt e4 ;;
  e3 <-- load_entry tab (l3_table_offset pt_page) ;; tab <-- pte_to_virt e3 ;;
  e2 <-- load_entry tab (l2_table_offset pt_page) ;;
  mfn <-- pfn_to_mfn pt_pfn ;;
  rc <-- mmu_update DOMID_SELF [(u64 (Z.land e2 PAGE_MASK + sizeof_pgentry * l1_table_offset pt_page),
    Z.lor (u64 (Z.shiftl mfn PAGE_SHIFT)) (Z.land (prot_e level) (u64 (Z.lnot _PAGE_RW))))] ;;
  if rc <? 0 then mhalt "PTE for new page table page could not be updated" else
  rc <-- mmu_update DOMID_SELF [(u64 (u64 (Z.shiftl prev_l_mfn PAGE_SHIFT) + sizeof_pgentry * offset),
    Z.lor (u64 (Z.shiftl mfn PAGE_SHIFT)) (prot_t level))] ;;
  if rc <? 0 then mhalt "mmu_update failed" else cret tt.

(** One level of get_pgt: the next table. *)
Definition get_level (tab offset : Z) : M mm (option Z) :=
  e <-- load_entry tab offset ;;
  if negb (present e) then cret None else
  v <-- mfn_to_virt (pte_to_mfn e) ;; cret (Some v).
(** get_pgt: the address of the entry, 0 for NULL. *)
Definition get_pgt (va : Z) : M mm Z :=
  t3 <-- get_level pt_base (l4_table_offset va) ;;
  match t3 with None => cret 0 | Some tab =>
  t2 <-- get_level tab (l3_table_offset va) ;;
  match t2 with None => cret 0 | Some tab =>
  t1 <-- get_level tab (l2_table_offset va) ;;
  match t1 with None => cret 0 | Some tab =>
  cret (u64 (tab + sizeof_pgentry * l1_table_offset va)) end end end.

(** One level of need_pgt.  The page of a failed allocation would be cleared at
    address 0, where nothing is mapped. *)
Definition OUT_OF_PAGES : string := "bmk_pgalloc_one returned NULL".
Definition need_level (tab pt_mfn offset : Z) (level : frame_level) : M mm (Z * Z) :=
  e <-- load_entry tab offset ;;
  (if negb (present e) then
     p <-- in_pg (pa_alloc 0) ;;
     massert (negb (p =? 0)) OUT_OF_PAGES ;;;
     new_pt_frame (virt_to_pfn p) pt_mfn offset level
   else cret tt) ;;;
  e <-- load_entry tab offset ;;
  massert (present e) "ASSERT(tab[offset] & _PAGE_PRESENT)" ;;;
  let pt_mfn := pte_to_mfn e in
  tab <-- mfn_to_virt pt_mfn ;;
  cret (pt_mfn, tab).
Definition need_pgt (va : Z) : M mm Z :=
  pt_mfn <-- virt_to_mfn pt_base ;;
  '(pt_mfn, tab) <-- need_level pt_base pt_mfn (l4_table_offset va) L3_FRAME ;;
  '(pt_mfn, tab) <-- need_level tab pt_mfn (l3_table_offset va) L2_FRAME ;;
  '(pt_mfn, tab) <-- need_level tab pt_mfn (l2_table_offset va) L1_FRAME ;;
  cret (u64 (tab + sizeof_pgentry * l1_table_offset va)).

Definition arch_init_demand_mapping_area (cur_pfn : Z) : M mm unit :=
  modify (fun s => Mm (mm_pg s) (mem s) (p2m s) (m2p s) (pfn_to_virt (u64 (cur_pfn + 1)))).

(** The pages from [addr] that are free, up to [n]: the final [y]. *)
Definition ondemand_run (n : Z) (l : Z * Z * Z) : M mm ((Z * Z * Z) + Z) :=
  let '(y, addr, pgt) := l in
  if negb (y <? n) then cret (inr y) else
  pgt <-- (if Z.land addr L1_MASK =? 0 then get_pgt addr else cret pgt) ;;
  if negb (pgt =? 0) then
    e <-- load_at pgt ;;
    if present e then cret (inr y) else cret (inl (y + 1, u64 (addr + PAGE_SIZE), u64 (pgt + sizeof_pgentry)))
  else cret (inl (y + 1, u64 (addr + PAGE_SIZE), pgt)).
Definition ondemand_try (n alignment : Z) (l : Z * Z) : M mm ((Z * Z) + (Z * Z)) :=
  let '(x, y) := l in
  if negb (x <=? u64 (DEMAND_MAP_PAGES - n)) then cret (inr (x, y)) else
  start <-- gets demand_map_area_start ;;
  let addr := u64 (start + x * PAGE_SIZE) in
  pgt <-- get_pgt addr ;;
  y <-- loopM (ondemand_run n) (0, addr, pgt) ;;
  if y =? n then cret (inr (x, y))
  else cret (inl (Z.land (u64 (x + y + 1 + alignment - 1)) (u64 (Z.lnot (u64 (alignment - 1)))), y)).
Definition allocate_ondemand (n alignment : Z) : M mm Z :=
  '(x, y) <-- loopM (ondemand_try n alignment) (0, 0) ;;
  if negb (y =? n) then cret 0 else
  start <-- gets demand_map_area_start ;; cret (u64 (start + x * PAGE_SIZE)).

(** ** Mapping frames *)
Definition MAP_BATCH : Z := (STACK_SIZE / 2) / sizeof_mmu_update.
Definition UNMAP_BATCH : Z := (STACK_SIZE / 2) / sizeof_multicall_entry.

Section Map.
Variables (mfns : list Z) (n stride incr id prot : Z).

Definition frame_no (j : Z) : M mm Z := m <-- mopt (mfns !! Z.to_nat (j * stride)) "mfns" ;; cret (u64 (m + j * incr)).
(** The updates of a batch, with the [va] and [pgt] it ends with. *)
Fixpoint map_batch (k : nat) (j va pgt : Z) : M mm (list (Z * Z) * Z * Z) :=
  match k with
  | O => cret ([], va, pgt)
  | S k =>
      pgt <-- (if (pgt =? 0) || (Z.land va L1_MASK =? 0) then need_pgt va else cret pgt) ;;
      ptr <-- virt_to_mach pgt ;;
      f <-- frame_no j ;;
      '(l, va, pgt) <-- map_batch k (j + 1) (u64 (va + PAGE_SIZE)) (u64 (pgt + sizeof_pgentry)) ;;
      cret ((Z.lor ptr MMU_NORMAL_PT_UPDATE, Z.lor (u64 (Z.shiftl f PAGE_SHIFT)) prot) :: l, va, pgt)
  end.
(** [err]: None for NULL. *)
Definition map_round (l : Z * Z * Z * option (list Z)) : M mm ((Z * Z * Z * option (list Z)) + option (list Z)) :=
  let '(done, va, pgt, err) := l in
  if negb (done <? n) then cret (inr err) else
  let todo := Z.min (match err with Some _ => 1 | None => n - done end) MAP_BATCH in
  '(ups, va, pgt) <-- map_batch (Z.to_nat todo) done va pgt ;;
  rc <-- mmu_update id ups ;;
  if rc <? 0 then
    match err with
    | Some e =>
        massert (done * stride <? zlen e) "err[done * stride]" ;;;
        cret (inl (done + todo, va, pgt, Some (<[Z.to_nat (done * stride) := rc]> e)))
    | None => mhalt "Map failed"
    end
  else cret (inl (done + todo, va, pgt, err)).
End Map.

Definition minios_map_frames (va : Z) (mfns : option (list Z)) (n stride incr id : Z) (err : option (list Z)) (prot : Z) : M mm (option (list Z)) :=
  match mfns with
  | None => cret err
  | Some mfns =>
      err <-- match err with
              | Some e => massert (n <=? zlen e) "memset(err)" ;;; cret (Some (replicate (Z.to_nat n) 0 ++ drop (Z.to_nat n) e))
              | None => cret None
              end ;;
      loopM (map_round mfns n stride incr id prot) (0, va, 0, err)
  end.

Definition minios_map_frames_ex (mfns : option (list Z)) (n stride incr alignment id : Z) (err : option (list Z)) (prot : Z) : M mm (Z * option (list Z)) :=
  va <-- allocate_ondemand n alignment ;;
  if va =? 0 then cret (0, err) else
  err <-- minios_map_frames va mfns n stride incr id err prot ;;
  cret (va, err).

(** HYPERVISOR_update_va_mapping: the leaf entry of [va]. *)
Definition update_va_mapping (va val : Z) : M mm Z :=
  s <-- mget ;;
  match node s va 3 with
  | None => cret (-22)
  | Some m =>
      let rc := va_verdict (mem s) va val in
      if negb (rc =? 0) then cret rc else
      modify (set_mem (<[ent_addr m (idx 3 va) := val]> (mem s))) ;;; cret 0
  end.
(** HYPERVISOR_multicall of update_va_mapping: the results. *)
Fixpoint multicall_va (l : list (Z * Z)) : M mm (list Z) :=
  match l with
  | [] => cret []
  | (va, val) :: l => r <-- update_va_mapping va val ;; rs <-- multicall_va l ;; cret (r :: rs)
  end.
Definition multicall (l : list (Z * Z)) : M mm (Z * list Z) :=
  s <-- mget ;;
  let ret := multicall_verdict (mem s) (zlen l) in
  if negb (ret =? 0) then cret (ret, []) else rs <-- multicall_va l ;; cret (0, rs).
Definition first_error (rs : list Z) : option Z := head (filter (fun r => r <> 0) rs).

Definition unmap_round (l : Z * Z * Z) : M mm ((Z * Z * Z) + Z) :=
  let '(va, num_frames, n) := l in
  if num_frames =? 0 then cret (inr 0) else
  let n := if num_frames <? n then num_frames else n in
  '(ret, results) <-- multicall (map (fun i => (u64 (va + PAGE_SIZE * i), 0)) (seqZ 0 n)) ;;
  if negb (ret =? 0) then cret (inr (- ret)) else
  match first_error results with
  | Some r => cret (inr (- r))
  | None => cret (inl (u64 (va + PAGE_SIZE * n), num_frames - n, n))
  end.
Definition unmap_frames (va num_frames : Z) : M mm Z :=
  massert (Z.land va (u64 (Z.lnot PAGE_MASK)) =? 0) "ASSERT(!(va & ~PAGE_MASK))" ;;;
  loopM unmap_round (va, num_frames, UNMAP_BATCH).
End Paging.
