(* ===== verification/PagingThms.v ===== *)
(** * Page tables: entries, walks and the tree they form *)
From S2P Require Import Prelude Pgalloc PgallocInv PageIface Paging.

(** ** Entries *)
Lemma land_511 x : Z.land x 511 = x mod 512.
Proof. apply (Z.land_ones x 9). lia. Qed.
Lemma idx_div d va : (d <= 3)%nat -> idx d va = (va / 2 ^ (39 - 9 * Z.of_nat d)) mod 512.
Proof. intros Hd. unfold idx. rewrite land_511, Z.shiftr_div_pow2 by lia. done. Qed.
Lemma idx_range d va : 0 <= idx d va < 512.
Proof. unfold idx. rewrite land_511. apply Z.mod_pos_bound. lia. Qed.

(** What of an address selects the table of depth [d]; [pfx 4] is its page. *)
Definition pfx (d : nat) (va : Z) : Z := (va / 2 ^ (48 - 9 * Z.of_nat d)) mod 2 ^ (9 * Z.of_nat d).
Lemma pfx_S d va : (d <= 3)%nat -> pfx (S d) va = idx d va + 512 * pfx d va.
Proof.
  intros Hd. rewrite idx_div by done. unfold pfx. rewrite Nat2Z.inj_succ.
  replace (48 - 9 * Z.succ (Z.of_nat d)) with (39 - 9 * Z.of_nat d) by lia.
  replace (9 * Z.succ (Z.of_nat d)) with (9 + 9 * Z.of_nat d) by lia.
  rewrite Z.pow_add_r by lia. change (2 ^ 9) with 512.
  rewrite Z.rem_mul_r by (try apply Z.pow_pos_nonneg; lia). f_equal. f_equal. f_equal.
  rewrite Z.div_div by (try apply Z.pow_pos_nonneg; lia). f_equal.
  replace (48 - 9 * Z.of_nat d) with (39 - 9 * Z.of_nat d + 9) by lia. rewrite Z.pow_add_r by lia. done.
Qed.
Lemma pfx_split d va va' : (d <= 3)%nat -> pfx (S d) va = pfx (S d) va' <-> idx d va = idx d va' /\ pfx d va = pfx d va'.
Proof. intros Hd. rewrite !pfx_S by done. pose proof (idx_range d va). pose proof (idx_range d va'). lia. Qed.
Lemma pfx_0 va va' : pfx 0 va = pfx 0 va'.
Proof. unfold pfx. rewrite !Z.mod_1_r. done. Qed.
Lemma pfx_page va : pfx 4 va = (va / 4096) mod 2 ^ 36.
Proof. done. Qed.

Lemma present_odd e : present e = Z.odd e.
Proof. unfold present, _PAGE_PRESENT. change 1 with (Z.ones 1) at 1. rewrite Z.land_ones by lia. change (2 ^ 1) with 2. rewrite Zmod_odd. by destruct (Z.odd e). Qed.
Lemma pte_mfn_div e : pte_to_mfn e = (e / 4096) mod 2 ^ 40.
Proof.
  unfold pte_to_mfn, L1_PAGETABLE_SHIFT. rewrite Z.shiftr_land.
  change (Z.shiftr (Z.land PADDR_MASK PAGE_MASK) 12) with (Z.ones 40). by rewrite Z.land_ones, Z.shiftr_div_pow2 by lia.
Qed.
(** An entry is a frame number over twelve bits of protection. *)
Lemma mk_entry m prot : 0 <= m < 2 ^ 40 -> 0 <= prot < 4096 -> Z.lor (u64 (Z.shiftl m 12)) prot = m * 4096 + prot.
Proof.
  intros Hm Hp. rewrite Z.shiftl_mul_pow2 by lia. unfold u64. rewrite Z.mod_small by lia.
  rewrite <- (Z.add_0_r (m * 2 ^ 12)) at 1. rewrite (lor_fields m 12 0 prot) by (change (2 ^ 12) with 4096; lia). done.
Qed.
Lemma entry_mfn m prot : 0 <= m < 2 ^ 40 -> 0 <= prot < 4096 -> pte_to_mfn (m * 4096 + prot) = m.
Proof. intros Hm Hp. rewrite pte_mfn_div, Z.div_add_l, (Z.div_small prot), Z.add_0_r, Z.mod_small by lia. done. Qed.
Lemma entry_present m prot : present (m * 4096 + prot) = present prot.
Proof. rewrite !present_odd. replace (m * 4096) with (2 * (m * 2048)) by lia. by rewrite Z.add_comm, Z.odd_add_mul_2. Qed.
Lemma page_mask m x : 0 <= m < 2 ^ 52 -> 0 <= x < 4096 -> Z.land (m * 4096 + x) PAGE_MASK = m * 4096.
Proof.
  intros Hm Hp. apply Z.bits_inj'. intros j Hj.
  replace (m * 4096 + x) with (m * 2 ^ 12 + x) by lia. replace (m * 4096) with (m * 2 ^ 12 + 0) by lia.
  rewrite Z.land_spec, !testbit_fields by (change (2 ^ 12) with 4096; lia).
  change PAGE_MASK with (Z.shiftl (Z.ones 52) 12). rewrite Z.shiftl_spec by done.
  destruct (Z.ltb_spec j 12); [rewrite Z.testbit_0_l, (Z.testbit_neg_r _ (j - 12)), andb_false_r by lia; done|].
  destruct (Z.ltb_spec (j - 12) 52); [by rewrite Z.ones_spec_low, andb_true_r by lia|].
  rewrite (high_bits_zero 52 ltac:(lia) m) by lia. done.
Qed.
Lemma entry_frame m prot : 0 <= m < 2 ^ 40 -> 0 <= prot < 4096 -> Z.land (m * 4096 + prot) PAGE_MASK = m * 4096.
Proof. intros Hm Hp. apply page_mask; lia. Qed.

(** ** The tree of tables *)
Section Tree.
Context {P : Type} `{PA : PageAllocator P} `{XM : XenMmu}.
Variables (VIRT_START pt_base : Z).
Abbreviation node := (node VIRT_START pt_base).
Implicit Types s : mm (P := P).

Definition store (m i v : Z) (s : mm (P := P)) : mm := set_mem (<[ent_addr m i := v]> (mem s)) s.
Lemma ent_store m i v s m' i' : 0 <= i < 512 -> 0 <= i' < 512 ->
  ent (store m i v s) m' i' = if decide (m' = m /\ i' = i) then v else ent s m' i'.
Proof.
  intros Hi Hi'. unfold ent, store, ent_addr. cbn [mem set_mem]. case_decide as E.
  - destruct E as [-> ->]. by rewrite lookup_insert_eq.
  - rewrite lookup_insert_ne; [done|]. intros E'. apply E. lia.
Qed.

(** Frame [m] is the guest's, and its 1:1 area shows it at [p]. *)
Definition seen_at s (m p : Z) : Prop := 0 <= m < 2 ^ 40 /\ exists pfn, 0 <= pfn /\ m2p s !! m = Some pfn /\ p2m s !! pfn = Some m /\
  p = VIRT_START + pfn * 4096 /\ 0 <= VIRT_START /\ 0 < p /\ p + 4096 <= 2 ^ 64.
Definition is_node s (m : Z) : Prop := exists va d, (d <= 3)%nat /\ node s va d = Some m.
Record tree s : Prop := {
  tr_frame : forall m, is_node s m -> exists p, seen_at s m p;
  tr_inj : forall va d va' d' m, (d <= 3)%nat -> (d' <= 3)%nat -> node s va d = Some m -> node s va' d' = Some m ->
    d = d' /\ pfx d va = pfx d va';
  tr_small : forall va d m, (d < 3)%nat -> node s va d = Some m -> present (ent s m (idx d va)) = true -> 0 <= ent s m (idx d va) < 2 ^ 52;
  tr_root : exists m, p2m s !! virt_to_pfn VIRT_START pt_base = Some m /\ seen_at s m pt_base
}.
(** The leaf entry of an address, and the mapping it is when it is present. *)
Definition pte s (va : Z) : option Z := match node s va 3 with Some m => Some (ent s m (idx 3 va)) | None => None end.
Definition mapping s (va : Z) : option Z := match pte s va with Some e => if present e then Some e else None | None => None end.

Lemma node_pfx s va va' d : (d <= 4)%nat -> pfx d va = pfx d va' -> node s va d = node s va' d.
Proof.
  induction d as [|d IH]; [done|]. intros Hd E. apply pfx_split in E as [Ei Ep]; [|lia].
  cbn [Paging.node]. rewrite (IH ltac:(lia) Ep), Ei. done.
Qed.
Lemma mapping_page s va va' : pfx 4 va = pfx 4 va' -> mapping s va = mapping s va'.
Proof.
  intros E. apply pfx_split in E as [Ei Ep]; [|lia]. unfold mapping, pte. rewrite (node_pfx s va va' 3), Ei by (lia || done). done.
Qed.

(** The same tables: what the walks of [s] read above the leaves is in [s'] too. *)
Definition same_inner s s' : Prop := forall va d m, (d < 3)%nat -> node s va d = Some m -> ent s' m (idx d va) = ent s m (idx d va).
Definition same_frames s s' : Prop := p2m s' = p2m s /\ m2p s' = m2p s.
Lemma seen_same s s' m p : same_frames s s' -> seen_at s m p -> seen_at s' m p.
Proof. intros [Hp Hm]. unfold seen_at. by rewrite Hp, Hm. Qed.
Lemma same_nodes s s' va d : same_inner s s' -> same_frames s s' -> (d <= 3)%nat -> node s' va d = node s va d.
Proof.
  intros Hi [Hp _]. induction d as [|d IH]; intros Hd; cbn [Paging.node]; [by rewrite Hp|]. rewrite IH by lia.
  destruct (node s va d) as [m|] eqn:E; [|done]. rewrite Hi by (lia || done). done.
Qed.
Lemma tree_same s s' : same_inner s s' -> same_frames s s' -> tree s -> tree s'.
Proof.
  intros Hi Hf [H1 H2 H3 H4]. split.
  - intros m (va & d & Hd & E). destruct (H1 m) as [p Hp]; [exists va, d; by rewrite <- (same_nodes s s')|]. exists p. by eapply seen_same.
  - intros va d va' d' m Hd Hd'. rewrite !(same_nodes s s') by done. by apply H2.
  - intros va d m Hd E. rewrite (same_nodes s s') in E by (done || lia). rewrite Hi by done. by apply H3.
  - destruct H4 as (m & Hm & Hs). exists m. rewrite (proj1 Hf). split; [done|]. by eapply seen_same.
Qed.

(** A change of a leaf entry changes one mapping. *)
Lemma leaf_store s va m v : tree s -> node s va 3 = Some m -> let s' := store m (idx 3 va) v s in
  same_inner s s' /\ forall va', pte s' va' = if decide (pfx 4 va' = pfx 4 va) then Some v else pte s va'.
Proof.
  intros T Hm s'. pose proof (idx_range 3 va) as Hi.
  assert (Hn : same_inner s s').
  { intros va' d m' Hd E. unfold s'. rewrite ent_store by (done || apply idx_range).
    rewrite decide_False; [done|]. intros [-> _]. destruct (tr_inj s T va' d va 3 m) as [? _]; [lia|lia|done|done|lia]. }
  split; [done|]. intros va'. unfold pte. rewrite (same_nodes s s') by done. destruct (node s va' 3) as [m'|] eqn:E.
  - unfold s'. rewrite ent_store by (done || apply idx_range). repeat case_decide; try done.
    + exfalso. destruct H as [-> Hx]. apply H0. apply pfx_split; [lia|]. split; [done|]. by eapply (tr_inj s T va' 3 va 3 m).
    + exfalso. apply H. apply pfx_split in H0 as [? Hp]; [|lia]. split; [|done]. rewrite (node_pfx s va' va 3) in E by (lia || done). congruence.
  - case_decide as Hp; [|done]. apply pfx_split in Hp as [_ Hp]; [|lia]. rewrite (node_pfx s va' va 3) in E by (lia || done). congruence.
Qed.

(** Changes of a frame that is no table change nothing. *)
Lemma foreign_change s s' f : ~ is_node s f -> same_frames s s' -> (forall m i, m <> f -> 0 <= i < 512 -> ent s' m i = ent s m i) ->
  same_inner s s' /\ forall va, pte s' va = pte s va.
Proof.
  intros Hf Hfr He. assert (Hn : same_inner s s').
  { intros va d m Hd E. apply He; [|apply idx_range]. intros ->. apply Hf. exists va, d. split; [lia|done]. }
  split; [done|]. intros va. unfold pte. rewrite (same_nodes s s') by done. destruct (node s va 3) as [m|] eqn:E; [|done].
  rewrite He; [done| |apply idx_range]. intros ->. apply Hf. exists va, 3%nat. done.
Qed.

Lemma node_none s va d k : node s va d = None -> (d <= k)%nat -> node s va k = None.
Proof. intros H Hk. induction Hk as [|k Hk IH]; [done|]. cbn [Paging.node]. by rewrite IH. Qed.

(** A new, empty table in a hole of the tree. *)
Section Hook.
Variables (s : mm (P := P)) (va : Z) (d : nat) (pm f v : Z).
Hypotheses (T : tree s) (Hd : (d < 3)%nat) (Hpm : node s va d = Some pm) (Hhole : present (ent s pm (idx d va)) = false).
Hypotheses (Hf : ~ is_node s f) (Hzero : forall i, 0 <= i < 512 -> ent s f i = 0).
Hypotheses (Hv : present v = true) (Hvm : pte_to_mfn v = f).
Let s' := store pm (idx d va) v s.

Lemma hook_ent m i : 0 <= i < 512 -> ~ (m = pm /\ i = idx d va) -> ent s' m i = ent s m i.
Proof using. intros Hi Hn. unfold s'. rewrite ent_store by (done || apply idx_range). by rewrite decide_False. Qed.
Lemma hook_hole va' k : pfx (S d) va' = pfx (S d) va -> (S d <= k)%nat -> node s va' k = None.
Proof using Hpm Hhole Hd.
  intros E Hk. apply pfx_split in E as [Ei Ep]; [|lia]. eapply node_none; [|exact Hk]. cbn [Paging.node].
  rewrite (node_pfx s va' va d), Hpm, Ei, Hhole by (lia || done). done.
Qed.
Lemma hook_node va' k : (k <= 3)%nat -> node s' va' k =
  if decide (k <= d)%nat then node s va' k else
  if decide (pfx (S d) va' = pfx (S d) va) then (if decide (k = S d) then Some f else None) else node s va' k.
Proof using T Hd Hpm Hhole Hf Hzero Hv Hvm.
  assert (Hfp : f <> pm) by (intros ->; apply Hf; exists va, d; split; [lia|done]).
  induction k as [|k IH]; intros Hk; [done|]. cbn [Paging.node]. rewrite IH by lia. clear IH.
  assert (Hother : forall m, node s va' k = Some m -> k <> d -> ent s' m (idx k va') = ent s m (idx k va')).
  { intros m Hm Hkd. apply hook_ent; [apply idx_range|]. intros [-> _]. destruct (tr_inj s T va' k va d pm); [lia|lia|done..]. }
  destruct (decide (k <= d)%nat) as [Hle|Hgt].
  - destruct (decide (k = d)) as [-> | Hne].
    + rewrite (decide_False (P := (S d <= d)%nat)) by lia. destruct (node s va' d) as [m|] eqn:E.
      * destruct (decide (m = pm /\ idx d va' = idx d va)) as [[-> Hi]|Hn].
        { unfold s'. rewrite Hi, ent_store by apply idx_range. rewrite decide_True, Hv, Hvm by done.
          rewrite decide_True; [by rewrite decide_True|]. apply pfx_split; [lia|]. split; [done|]. by eapply (tr_inj s T va' d va d pm); [lia|lia|..]. }
        rewrite hook_ent by (done || apply idx_range). case_decide as Hp; [|done]. exfalso. apply pfx_split in Hp as [Hi Hp]; [|lia].
        rewrite (node_pfx s va' va d) in E by (lia || done). apply Hn. split; [congruence|done].
      * case_decide as Hp; [|done]. apply pfx_split in Hp as [Hi Hp]; [|lia]. rewrite (node_pfx s va' va d) in E by (lia || done). congruence.
    + rewrite (decide_True (P := (S k <= d)%nat)) by lia. destruct (node s va' k) as [m|] eqn:E; [|done]. by rewrite Hother.
  - rewrite (decide_False (P := (S k <= d)%nat)) by lia. case_decide as Hp.
    + rewrite (decide_False (P := S k = S d)) by lia. case_decide; [|done]. rewrite hook_ent; [|apply idx_range|by intros []].
      by rewrite Hzero by apply idx_range.
    + destruct (node s va' k) as [m|] eqn:E; [|done]. rewrite Hother by (done || lia). done.
Qed.

Lemma hook_pte va' : mapping s' va' = mapping s va'.
Proof using T Hd Hpm Hhole Hf Hzero Hv Hvm.
  assert (Hfp : f <> pm) by (intros ->; apply Hf; exists va, d; split; [lia|done]).
  unfold mapping, pte. rewrite hook_node by lia. rewrite (decide_False (P := (3 <= d)%nat)) by lia. case_decide as Hp.
  - rewrite (hook_hole va' 3) by (done || lia). case_decide; [|done]. rewrite hook_ent; [|apply idx_range|by intros []].
    by rewrite Hzero by apply idx_range.
  - destruct (node s va' 3) as [m|] eqn:E; [|done]. rewrite hook_ent; [done|apply idx_range|].
    intros [-> _]. destruct (tr_inj s T va' 3 va d pm); [lia|lia|done|done|lia].
Qed.
Lemma hook_keeps va' k m : (k <= 3)%nat -> node s va' k = Some m -> node s' va' k = Some m.
Proof using T Hd Hpm Hhole Hf Hzero Hv Hvm.
  intros Hk E. rewrite hook_node by done. case_decide; [done|]. case_decide as Hp; [|done]. rewrite (hook_hole va' k) in E by (done || lia). done.
Qed.
Lemma hook_new : node s' va (S d) = Some f.
Proof using T Hd Hpm Hhole Hf Hzero Hv Hvm. rewrite hook_node by lia. rewrite decide_False, !decide_True by (done || lia). done. Qed.
Lemma hook_from va' k m : (k <= 3)%nat -> node s' va' k = Some m -> node s va' k = Some m \/ (m = f /\ k = S d /\ pfx (S d) va' = pfx (S d) va).
Proof using T Hd Hpm Hhole Hf Hzero Hv Hvm. intros Hk. rewrite hook_node by done. repeat case_decide; intros E; simplify_eq; auto. Qed.
Hypotheses (Hfok : exists p, seen_at s f p) (Hsmall : 0 <= v < 2 ^ 52).
Lemma hook_tree : tree s'.
Proof using T Hd Hpm Hhole Hf Hfok Hsmall Hzero Hv Hvm.
  split.
  - intros m (va' & k & Hk & E). apply hook_from in E as [E|(-> & _)]; [|done|done].
    destruct (tr_frame s T m) as [p Hp]; [by exists va', k|]. by exists p.
  - intros va1 k1 va2 k2 m H1 H2 E1 E2. apply hook_from in E1 as [E1|(-> & -> & Hp1)]; [| |done]; (apply hook_from in E2 as [E2|(Em & -> & Hp2)]; [| |done]).
    + by eapply (tr_inj s T).
    + exfalso. subst m. apply Hf. by exists va1, k1.
    + exfalso. apply Hf. by exists va2, k2.
    + split; [done|]. congruence.
  - intros va' k m Hk E Hpr. destruct (decide (m = pm /\ idx k va' = idx d va)) as [[-> Ei]|Hn].
    { unfold s'. rewrite Ei, ent_store by apply idx_range. by rewrite decide_True. }
    rewrite hook_ent in Hpr |- * by (done || apply idx_range). apply hook_from in E as [E|(-> & -> & _)]; [|by rewrite Hzero in Hpr by apply idx_range|lia].
    by apply (tr_small s T va' k m).
  - destruct (tr_root s T) as (m & Hm & Hs). by exists m.
Qed.
End Hook.
End Tree.
