(* ===== verification/PagingOps.v ===== *)
(** * Page tables: what the operations of mm.c do to the tree *)
From S2P Require Import Prelude Pgalloc PgallocInv PageIface Paging PagingThms.

Section Ops.
Context {P : Type} `{PA : PageAllocator P} `{XM : XenMmu}.
Variables (VIRT_START pt_base : Z).
Abbreviation node := (node VIRT_START pt_base).
Abbreviation seen_at := (seen_at VIRT_START).
Abbreviation tree := (tree VIRT_START pt_base).
Abbreviation is_node := (is_node VIRT_START pt_base).
Abbreviation pte := (pte VIRT_START pt_base).
Abbreviation mapping := (mapping VIRT_START pt_base).
Abbreviation same_inner := (same_inner VIRT_START pt_base).
Implicit Types s : mm (P := P).

(** ** Reading through the 1:1 area *)
Lemma seen_fun s m p p' : seen_at s m p -> seen_at s m p' -> p = p'.
Proof. intros (_ & n & _ & E & _ & -> & _) (_ & n' & _ & E' & _ & -> & _). congruence. Qed.
Lemma seen_phys s m p i : seen_at s m p -> 0 <= i < 512 -> exists pfn, to_phys VIRT_START (p + 8 * i) = pfn * 4096 + 8 * i /\ p2m s !! pfn = Some m.
Proof.
  intros (_ & pfn & H0 & _ & E & -> & Hv & Hpos & Hb) Hi. exists pfn. split; [|done]. unfold to_phys, u64.
  rewrite Z.mod_small by lia. lia.
Qed.
Lemma page_parts pfn x : 0 <= x < 4096 -> Z.shiftr (pfn * 4096 + x) 12 = pfn /\ Z.land (pfn * 4096 + x) (PAGE_SIZE - 1) = x.
Proof.
  intros Hx. split.
  - rewrite Z.shiftr_div_pow2 by lia. change (2 ^ 12) with 4096. rewrite Z.div_add_l, Z.div_small by lia. lia.
  - change (PAGE_SIZE - 1) with (Z.ones 12). rewrite Z.land_ones by lia. change (2 ^ 12) with 4096.
    rewrite Z.add_comm, Z.mod_add, Z.mod_small by lia. done.
Qed.
Lemma wp_virt_to_mach s m p i Q : seen_at s m p -> 0 <= i < 512 -> Q (ent_addr m i) s -> wp (virt_to_mach VIRT_START (p + 8 * i)) Q s.
Proof.
  intros Hs Hi HQ. destruct (seen_phys s m p i Hs Hi) as (pfn & E & Em). unfold virt_to_mach, pfn_to_mfn, PAGE_SHIFT.
  rewrite E. destruct (page_parts pfn (8 * i)) as [E1 E2]; [lia|]. rewrite E1, E2.
  apply wp_bind, wp_bind, wp_get, (wp_opt _ _ m); [done|]. apply wp_ret. rewrite mk_entry by (apply Hs || lia). done.
Qed.
Lemma entry_ptr s m p i : seen_at s m p -> 0 <= i < 512 -> u64 (p + 8 * i) = p + 8 * i.
Proof. intros (_ & pfn & H0 & _ & _ & -> & Hv & Hpos & Hb) Hi. unfold u64. rewrite Z.mod_small by lia. done. Qed.
Lemma wp_load_at s m p i Q : seen_at s m p -> 0 <= i < 512 -> Q (ent s m i) s -> wp (load_at VIRT_START (p + 8 * i)) Q s.
Proof. intros Hs Hi HQ. apply wp_bind, (wp_virt_to_mach s m); [done|done|]. by apply wp_gets. Qed.
Lemma wp_load_entry s m p i Q : seen_at s m p -> 0 <= i < 512 -> Q (ent s m i) s -> wp (load_entry VIRT_START p i) Q s.
Proof.
  intros Hs Hi HQ. unfold load_entry, sizeof_pgentry. rewrite (entry_ptr s m) by done. by apply (wp_load_at s m).
Qed.
Lemma seen_virt s m p : seen_at s m p -> exists pfn, m2p s !! m = Some pfn /\ p2m s !! pfn = Some m /\ pfn_to_virt VIRT_START pfn = p /\ virt_to_pfn VIRT_START p = pfn.
Proof.
  intros Hs. destruct (seen_phys s m p 0 Hs ltac:(lia)) as (pfn' & E & E'). destruct Hs as (Hm & pfn & H0 & E1 & E2 & Ep & Hv & Hpos & Hb).
  exists pfn. split_and!; [done|done| |].
  - unfold pfn_to_virt, to_virt, PAGE_SHIFT, u64. rewrite Z.shiftl_mul_pow2 by lia. change (2 ^ 12) with 4096. subst p.
    rewrite (Z.mod_small (pfn * 4096)), Z.mod_small by lia. lia.
  - unfold virt_to_pfn, to_phys, u64, L1_PAGETABLE_SHIFT. rewrite Z.mod_small by lia. subst p.
    replace (VIRT_START + pfn * 4096 - VIRT_START) with (pfn * 4096 + 0) by lia. by apply page_parts.
Qed.
Lemma wp_mfn_to_virt s m p Q : seen_at s m p -> Q p s -> wp (mfn_to_virt VIRT_START m) Q s.
Proof.
  intros Hs HQ. destruct (seen_virt s m p Hs) as (pfn & E1 & E2 & Ev & _). unfold mfn_to_virt, mfn_to_pfn.
  apply wp_bind, wp_bind, wp_get, (wp_opt _ _ pfn); [done|]. apply wp_ret. by rewrite Ev.
Qed.

Lemma node_seen s va d m : tree s -> (d <= 3)%nat -> node s va d = Some m -> exists p, seen_at s m p.
Proof. intros T Hd E. apply (tr_frame _ _ s T). by exists va, d. Qed.

(** One step of a walk. *)
Lemma wp_get_level s va d m p Q : tree s -> (d < 3)%nat -> node s va d = Some m -> seen_at s m p ->
  match node s va (S d) with None => Q None s | Some m' => forall p', seen_at s m' p' -> Q (Some p') s end ->
  wp (get_level VIRT_START p (idx d va)) Q s.
Proof.
  intros T Hd Hm Hp HQ. unfold get_level. apply wp_bind, (wp_load_entry s m); [done|apply idx_range|].
  destruct (node s va (S d)) as [m'|] eqn:E.
  - destruct (node_seen s va (S d) m' T ltac:(lia) E) as [p' Hp']. cbn [Paging.node] in E. rewrite Hm in E. case_match; [|done]. injection E as <-. cbn [negb].
    apply wp_bind, (wp_mfn_to_virt s _ p'); [done|]. apply wp_ret. by apply HQ.
  - cbn [Paging.node] in E. rewrite Hm in E. case_match; [done|]. cbn [negb]. by apply wp_ret.
Qed.
Lemma wp_get_pgt s va Q : tree s ->
  match node s va 3 with None => Q 0 s | Some m => forall p, seen_at s m p -> Q (p + 8 * idx 3 va) s end ->
  wp (get_pgt VIRT_START pt_base va) Q s.
Proof.
  intros T HQ. destruct (tr_root _ _ s T) as (m0 & E0 & Hp0). unfold get_pgt.
  apply wp_bind, (wp_get_level s va 0 m0 pt_base); [done|lia|done|done|]. destruct (node s va 1) as [m1|] eqn:E1.
  2:{ apply wp_ret. by rewrite (node_none _ _ s va 1 3) in HQ by (done || lia). }
  intros p1 Hp1. apply wp_bind, (wp_get_level s va 1 m1 p1); [done|lia|done|done|]. destruct (node s va 2) as [m2|] eqn:E2.
  2:{ apply wp_ret. by rewrite (node_none _ _ s va 2 3) in HQ by (done || lia). }
  intros p2 Hp2. apply wp_bind, (wp_get_level s va 2 m2 p2); [done|lia|done|done|]. destruct (node s va 3) as [m3|] eqn:E3.
  2:{ by apply wp_ret. }
  intros p3 Hp3. apply wp_ret. change (l1_table_offset va) with (idx 3 va). unfold sizeof_pgentry.
  rewrite (entry_ptr s m3) by (done || apply idx_range). by apply HQ.
Qed.

(** ** New tables *)

(** [s'] has the tables of [s] and more; the mappings are the same but for the
    pages in [R]. *)
Record extends (R : Z -> Prop) s s' : Prop := {
  ex_tree : tree s';
  ex_frames : same_frames s s';
  ex_demand : demand_map_area_start s' = demand_map_area_start s;
  ex_nodes : forall va d m, (d <= 3)%nat -> node s va d = Some m -> node s' va d = Some m;
  ex_map : forall va, ~ R va -> mapping s' va = mapping s va
}.
Lemma extends_refl R s : tree s -> extends R s s.
Proof. intros T. split; auto. by split. Qed.
Lemma extends_trans (R R' : Z -> Prop) s1 s2 s3 : (forall x, R' x -> R x) -> extends R s1 s2 -> extends R' s2 s3 -> extends R s1 s3.
Proof.
  intros HR [T1 [F1 F1'] D1 N1 M1] [T2 [F2 F2'] D2 N2 M2]. split; [done|split; congruence|congruence|auto|].
  intros va Hva. rewrite M2, M1; [done|done|auto].
Qed.

Hypothesis Hself : forall mem ptr val, 0 <= mmu_verdict mem DOMID_SELF ptr val.
Lemma wp_mmu_one s ptr val Q : Q 0 (set_mem (<[ptr := val]> (mem s)) s) -> wp (mmu_update DOMID_SELF [(ptr, val)]) Q s.
Proof using Hself.
  intros HQ. cbn [mmu_update]. apply wp_bind, wp_get. cbn zeta. destruct (Z.ltb_spec (mmu_verdict (mem s) DOMID_SELF ptr val) 0) as [Hl|_].
  { specialize (Hself (mem s) ptr val). lia. }
  apply wp_bind, wp_modify. by apply wp_ret.
Qed.

Lemma clear_lookup base l (mm0 : gmap Z Z) a :
  foldr (fun i => delete (base + 8 * i)) mm0 l !! a = if decide (Exists (fun i => a = base + 8 * i) l) then None else mm0 !! a.
Proof.
  induction l as [|i l IH]; cbn [foldr].
  - rewrite decide_False; [done|]. intros H; by apply Exists_nil in H.
  - destruct (decide (a = base + 8 * i)) as [-> | Hne].
    + rewrite lookup_delete_eq, decide_True; [done|]. by left.
    + rewrite lookup_delete_ne, IH by done. apply decide_ext. rewrite Exists_cons. naive_solver.
Qed.
Lemma wp_clear_page s f p Q : seen_at s f p ->
  (forall s', same_frames s s' -> mm_pg s' = mm_pg s -> demand_map_area_start s' = demand_map_area_start s ->
     (forall i, 0 <= i < 512 -> ent s' f i = 0) -> (forall m i, m <> f -> 0 <= i < 512 -> ent s' m i = ent s m i) -> Q tt s') ->
  wp (clear_page VIRT_START p) Q s.
Proof.
  intros Hs HQ. destruct (seen_virt s f p Hs) as (pfn & E1 & E2 & _ & Ep). unfold clear_page, virt_to_mfn, pfn_to_mfn, PAGE_SHIFT, sizeof_pgentry.
  rewrite Ep. apply wp_bind, wp_bind, wp_get, (wp_opt _ _ f); [done|]. apply wp_modify.
  assert (Eb : u64 (Z.shiftl f 12) = f * 4096).
  { destruct Hs as [Hf _]. rewrite Z.shiftl_mul_pow2 by lia. unfold u64. rewrite Z.mod_small by lia. done. }
  rewrite Eb. apply HQ; try done.
  - intros i Hi. unfold ent, ent_addr. cbn [mem set_mem]. rewrite clear_lookup, decide_True; [done|]. apply Exists_exists. exists i. split; [|done]. apply elem_of_seqZ. lia.
  - intros m i Hm Hi. unfold ent, ent_addr. cbn [mem set_mem]. rewrite clear_lookup, decide_False; [done|]. intros (j & Hj & E)%Exists_exists. apply elem_of_seqZ in Hj. lia.
Qed.

Lemma small_entry e : 0 <= e < 2 ^ 52 -> Z.land e PAGE_MASK = pte_to_mfn e * 4096.
Proof.
  intros He. rewrite pte_mfn_div, (Z.mod_small (e / 4096)) by (split; [apply Z.div_pos; lia|apply Z.div_lt_upper_bound; lia]).
  rewrite (Z.div_mod e 4096) at 1 by lia. rewrite Z.mul_comm. apply entry_frame.
  - split; [apply Z.div_pos; lia|apply Z.div_lt_upper_bound; lia].
  - apply Z.mod_pos_bound. lia.
Qed.

(** The second level table entry that leads to the leaf table of [va]. *)
Lemma node_step s va d m m' : node s va d = Some m -> node s va (S d) = Some m' ->
  present (ent s m (idx d va)) = true /\ pte_to_mfn (ent s m (idx d va)) = m'.
Proof. intros E E'. cbn [Paging.node] in E'. rewrite E in E'. case_match; [|done]. by injection E'. Qed.
Lemma node_above s va d m : node s va (S d) = Some m -> exists m', node s va d = Some m'.
Proof. cbn [Paging.node]. destruct (node s va d); [eauto|done]. Qed.
Lemma walk_to_leaf s va m Q : tree s -> node s va 3 = Some m ->
  (forall m2 e, node s va 2 = Some m2 -> e = ent s m2 (idx 2 va) -> 0 <= e < 2 ^ 52 -> pte_to_mfn e = m -> Q e s) ->
  wp (e4 <-- load_entry VIRT_START pt_base (l4_table_offset va) ;; tab <-- pte_to_virt VIRT_START e4 ;;
      e3 <-- load_entry VIRT_START tab (l3_table_offset va) ;; tab <-- pte_to_virt VIRT_START e3 ;;
      load_entry VIRT_START tab (l2_table_offset va)) Q s.
Proof.
  intros T E3 HQ. destruct (tr_root _ _ s T) as (m0 & E0 & Hp0). destruct (node_above s va 2 m E3) as [m2 E2]. destruct (node_above s va 1 m2 E2) as [m1 E1].
  destruct (node_step s va 0 m0 m1 E0 E1) as [_ F0]. destruct (node_step s va 1 m1 m2 E1 E2) as [_ F1]. destruct (node_step s va 2 m2 m E2 E3) as [Pr F2].
  destruct (node_seen s va 1 m1 T ltac:(lia) E1) as [p1 Hp1]. destruct (node_seen s va 2 m2 T ltac:(lia) E2) as [p2 Hp2].
  apply wp_bind, (wp_load_entry s m0); [done|apply (idx_range 0)|]. apply wp_bind. unfold pte_to_virt at 1. change (l4_table_offset va) with (idx 0 va).
  rewrite F0. apply (wp_mfn_to_virt s m1 p1); [done|]. apply wp_bind, (wp_load_entry s m1); [done|apply (idx_range 1)|]. apply wp_bind. unfold pte_to_virt.
  change (l3_table_offset va) with (idx 1 va). rewrite F1. apply (wp_mfn_to_virt s m2 p2); [done|]. apply (wp_load_entry s m2); [done|apply (idx_range 2)|].
  apply (HQ m2); [done|done|apply (tr_small _ _ s T va 2 m2); [lia|done|done]|done].
Qed.

Definition ro_prot (level : frame_level) : Z := Z.land (prot_e level) (u64 (Z.lnot _PAGE_RW)).

Section NewFrame.
Variables (s : mm (P := P)) (va : Z) (d : nat) (pm f r lm : Z) (level : frame_level).
Hypotheses (T : tree s) (Hd : (d < 3)%nat) (Hpm : node s va d = Some pm) (Hhole : present (ent s pm (idx d va)) = false).
Hypotheses (Hf : ~ is_node s f) (Hr : seen_at s f r) (Hlm : node s r 3 = Some lm).

Definition new_frame_post (s' : mm (P := P)) : Prop :=
  extends (fun x => pfx 4 x = pfx 4 r) s s' /\ mm_pg s' = mm_pg s /\ node s' va (S d) = Some f /\
  mapping s' r = Some (f * 4096 + ro_prot level) /\ forall m, is_node s' m -> is_node s m \/ m = f.

Lemma new_frame_effect s1 : same_frames s s1 -> mm_pg s1 = mm_pg s -> demand_map_area_start s1 = demand_map_area_start s ->
  (forall i, 0 <= i < 512 -> ent s1 f i = 0) -> (forall m i, m <> f -> 0 <= i < 512 -> ent s1 m i = ent s m i) ->
  new_frame_post (store pm (idx d va) (f * 4096 + prot_t level) (store lm (idx 3 r) (f * 4096 + ro_prot level) s1)).
Proof using T Hd Hpm Hhole Hf Hr Hlm.
  intros Fr Ep Ed Hz Ho. destruct (foreign_change VIRT_START pt_base s s1 f Hf Fr Ho) as [I1 P1]. pose proof (tree_same _ _ s s1 I1 Fr T) as T1.
  assert (Hl1 : node s1 r 3 = Some lm) by (by rewrite (same_nodes _ _ s s1)).
  set (v1 := f * 4096 + ro_prot level). destruct (leaf_store VIRT_START pt_base s1 r lm v1 T1 Hl1) as [I2 P2]. set (s2 := store lm (idx 3 r) v1 s1) in *.
  assert (F2 : same_frames s1 s2) by done. pose proof (tree_same _ _ s1 s2 I2 F2 T1) as T2.
  assert (Hnodes : forall x k, (k <= 3)%nat -> node s2 x k = node s x k).
  { intros x k Hk. rewrite (same_nodes _ _ s1 s2), (same_nodes _ _ s s1) by done. done. }
  assert (Hf2 : ~ is_node s2 f). { intros (x & k & Hk & E). rewrite Hnodes in E by done. apply Hf. by exists x, k. }
  assert (Hlf : lm <> f) by (intros ->; apply Hf; by exists r, 3%nat).
  assert (Hz2 : forall i, 0 <= i < 512 -> ent s2 f i = 0).
  { intros i Hi. unfold s2. rewrite ent_store by (done || apply idx_range). rewrite decide_False; [by apply Hz|]. intros [? _]. by subst. }
  assert (Hhole2 : present (ent s2 pm (idx d va)) = false).
  { rewrite I2 by (done || by rewrite (same_nodes _ _ s s1) by (done || lia)). by rewrite I1. }
  assert (Hfr : 0 <= f < 2 ^ 40) by apply Hr.
  assert (Hpt : 0 <= prot_t level < 4096 /\ present (prot_t level) = true) by (by destruct level).
  set (v2 := f * 4096 + prot_t level). assert (Hv2 : present v2 = true) by (unfold v2; rewrite entry_present; apply Hpt).
  assert (Hv2m : pte_to_mfn v2 = f) by (apply entry_mfn; [done|apply Hpt]).
  assert (Hpm2 : node s2 va d = Some pm) by (by rewrite Hnodes by lia). assert (Hsm : 0 <= v2 < 2 ^ 52) by (unfold v2; lia).
  assert (Hok2 : exists p, PagingThms.seen_at VIRT_START s2 f p).
  { exists r. apply (seen_same _ s s2); [|done]. split; [by rewrite (proj1 F2), (proj1 Fr)|by rewrite (proj2 F2), (proj2 Fr)]. }
  split; [split|split_and!]; try done.
  - by apply (hook_tree VIRT_START pt_base s2 va d pm f v2).
  - intros x k m Hk E. apply (hook_keeps VIRT_START pt_base s2 va d pm f v2); try done. by rewrite Hnodes.
  - intros x Hx. rewrite (hook_pte VIRT_START pt_base s2 va d pm f v2) by done. unfold PagingThms.mapping. rewrite P2, decide_False, P1 by done. done.
  - by apply (hook_new VIRT_START pt_base s2 va d pm f v2).
  - rewrite (hook_pte VIRT_START pt_base s2 va d pm f v2) by done. unfold PagingThms.mapping. rewrite P2, decide_True by done.
    unfold v1. rewrite entry_present. by destruct level.
  - intros m (x & k & Hk & E). apply (hook_from VIRT_START pt_base s2 va d pm f v2) in E as [E|(-> & _)]; try done; [|by right].
    left. exists x, k. by rewrite <- Hnodes.
Qed.

Lemma wp_new_pt_frame : wp (new_pt_frame VIRT_START pt_base (virt_to_pfn VIRT_START r) pm (idx d va) level) (fun _ => new_frame_post) s.
Proof using T Hd Hpm Hhole Hf Hr Hlm Hself.
  destruct (seen_virt s f r Hr) as (pfn & E1 & E2 & Ev & Epf). unfold new_pt_frame. rewrite Epf, Ev. cbn zeta.
  apply wp_bind, (wp_clear_page s f); [done|]. intros s1 Fr Ep Ed Hz Ho.
  destruct (foreign_change VIRT_START pt_base s s1 f Hf Fr Ho) as [I1 _]. pose proof (tree_same _ _ s s1 I1 Fr T) as T1.
  assert (Hl1 : node s1 r 3 = Some lm) by (by rewrite (same_nodes _ _ s s1)).
  pose proof (new_frame_effect s1 Fr Ep Ed Hz Ho) as Heff.
  assert (Hw : forall Q : Z -> M (mm (P := P)) unit, (forall e, 0 <= e < 2 ^ 52 -> pte_to_mfn e = lm -> wp (Q e) (fun _ => new_frame_post) s1) ->
    wp (e4 <-- load_entry VIRT_START pt_base (l4_table_offset r) ;; tab <-- pte_to_virt VIRT_START e4 ;;
      e3 <-- load_entry VIRT_START tab (l3_table_offset r) ;; tab <-- pte_to_virt VIRT_START e3 ;;
      e2 <-- load_entry VIRT_START tab (l2_table_offset r) ;; Q e2) (fun _ => new_frame_post) s1).
  { intros Q HQ. pose proof (walk_to_leaf s1 r lm (fun e s' => wp (Q e) (fun _ => new_frame_post) s') T1 Hl1) as Hw.
    specialize (Hw (fun m2 e _ _ He Hm => HQ e He Hm)).
    do 4 (apply wp_bind; apply wp_bind_inv in Hw; eapply wp_mono; [exact Hw|]; clear Hw; intros ? ? Hw). by apply wp_bind. }
  apply Hw. clear Hw. intros e He Hm. unfold pfn_to_mfn, PAGE_SHIFT, sizeof_pgentry. apply wp_bind, wp_bind, wp_get, (wp_opt _ _ f); [by rewrite (proj1 Fr)|].
  assert (Hpm40 : 0 <= pm < 2 ^ 40). { destruct (node_seen s va d pm T ltac:(lia) Hpm) as [p Hp]. apply Hp. }
  assert (Hlm40 : 0 <= lm < 2 ^ 40). { destruct (node_seen s r 3 lm T ltac:(lia) Hlm) as [p Hp]. apply Hp. }
  assert (Hf40 : 0 <= f < 2 ^ 40) by apply Hr. pose proof (idx_range d va). pose proof (idx_range 3 r).
  rewrite small_entry, Hm by done. change (l1_table_offset r) with (idx 3 r).
  assert (Hl : forall m i, 0 <= m < 2 ^ 40 -> 0 <= i < 512 -> u64 (m * 4096 + 8 * i) = ent_addr m i).
  { intros m i Hm0 Hi. unfold u64. rewrite Z.mod_small by lia. done. }
  rewrite !Hl by done. apply wp_bind, wp_mmu_one. cbn [Z.ltb Z.compare]. rewrite !mk_entry by (done || by destruct level).
  apply wp_bind, wp_mmu_one. cbn [Z.ltb Z.compare]. apply wp_ret.
  rewrite Z.shiftl_mul_pow2 by lia. change (2 ^ 12) with 4096. unfold u64 at 2. rewrite (Z.mod_small (pm * 4096)) by lia. rewrite Hl by done. exact Heff.
Qed.
End NewFrame.

(** ** Walks that make tables *)

(** The allocator's free pages are seen in the 1:1 area, whose tables exist, and
    none of them is a table. *)
Record mm_inv s : Prop := {
  mi_pa : pa_inv (mm_pg s);
  mi_tree : tree s;
  mi_free : forall p, (4096 | p) -> pa_free (mm_pg s) p -> exists f, seen_at s f p /\ ~ is_node s f /\ node s p 3 <> None
}.
(** The pages of the allocator. *)
Definition spare s (x : Z) : Prop := exists p, pa_free (mm_pg s) p /\ pfx 4 x = pfx 4 p.
(** What a walk that makes tables leaves. *)
Record grown s s' : Prop := {
  gr_inv : mm_inv s';
  gr_ext : extends (spare s) s s';
  gr_pg : forall x, pa_free (mm_pg s') x -> pa_free (mm_pg s) x
}.
Lemma grown_refl s : mm_inv s -> grown s s.
Proof. intros H. split; [done|apply extends_refl, H|done]. Qed.
Lemma grown_trans s1 s2 s3 : grown s1 s2 -> grown s2 s3 -> grown s1 s3.
Proof.
  intros [I1 E1 F1] [I2 E2 F2]. split; [done| |auto]. eapply extends_trans; [|done|done].
  intros x (p & Hp & E). exists p. auto.
Qed.

Lemma node_set_pg pg s va d : node (set_pg pg s) va d = node s va d.
Proof. induction d as [|d IH]; [done|]. cbn [Paging.node]. by rewrite IH. Qed.
Lemma mapping_set_pg pg s va : mapping (set_pg pg s) va = mapping s va.
Proof. unfold PagingThms.mapping, PagingThms.pte. by rewrite node_set_pg. Qed.
Lemma extends_pg R pg s : tree s -> extends R s (set_pg pg s).
Proof.
  intros T. split; try done.
  - apply (tree_same VIRT_START pt_base s); [|done|done]. by intros va d m _ _.
  - intros va d m _. by rewrite node_set_pg.
Qed.
Lemma wp_pgalloc_one s Q : mm_inv s -> (forall s', grown s s' -> mem s' = mem s -> Q 0 s') ->
  (forall r f s', grown s s' -> mem s' = mem s -> r <> 0 -> spare s r -> seen_at s' f r -> ~ is_node s' f -> node s' r 3 <> None ->
     ~ pa_free (mm_pg s') r -> Q r s') -> wp (in_pg (pa_alloc 0)) Q s.
Proof.
  intros [Hpa T Hf] H0 HQ. apply wp_zoom. eapply wp_mono; [apply (pa_alloc_ok _ 0 Hpa); lia|].
  assert (Hext : forall pg, extends (spare s) s (set_pg pg s)) by (intros pg; by apply extends_pg).
  assert (Hnode : forall pg f, is_node (set_pg pg s) f -> is_node s f).
  { intros pg f (va & d & Hd & E). exists va, d. by rewrite <- (node_set_pg pg). }
  intros r pg (Hi & _ & _ & [(-> & Hfr)|(Hne & Hal & _ & _ & Hwas & Hnow)]).
  - apply H0; [|done]. split; [split; [done|apply (Hext pg)|]|apply Hext|]; cbn [mm_pg set_pg].
    + intros p Hp Hfp. apply Hfr in Hfp. destruct (Hf p Hp Hfp) as (f & ? & ? & ?). exists f. rewrite node_set_pg. split_and!; eauto.
    + intros x Hx. by apply Hfr.
  - assert (Hin : in_block 0 r r) by (unfold in_block; change (csize 0) with 4096; lia).
    destruct (Hf r Hal (Hwas r Hin)) as (f & Hs & Hn & H3). apply (HQ r f); try done.
    + split; [split; [done|apply (Hext pg)|]|apply Hext|]; cbn [mm_pg set_pg].
      * intros p Hp Hfp. apply Hnow in Hfp as [Hfp _]. destruct (Hf p Hp Hfp) as (g & ? & ? & ?). exists g. rewrite node_set_pg. split_and!; eauto.
      * intros x Hx. by apply Hnow in Hx as [? _].
    + exists r. split; [by apply Hwas|done].
    + intros Hx. by apply Hn, (Hnode pg).
    + intros Hx. by apply Hnow in Hx as [_ ?].
Qed.

(** The new table and the allocator. *)
Lemma grown_new s s1 s' va d f r level : grown s s1 -> spare s r -> seen_at s1 f r -> ~ pa_free (mm_pg s1) r ->
  new_frame_post s1 va d f r level s' -> grown s s'.
Proof.
  intros [I1 X1 G1] (q & Hq & Eq) Hs Hnf (E & Epg & _ & _ & Hnew). split.
  - split; [by rewrite Epg; apply I1|apply E|]. rewrite Epg. intros p Hp Hfp. destruct (mi_free s1 I1 p Hp Hfp) as (g & Hg & Hng & H3).
    exists g. split_and!.
    + eapply seen_same; [apply E|done].
    + intros Hg'. apply Hnew in Hg' as [?| ->]; [done|]. by rewrite (seen_fun s1 f p r) in Hfp.
    + destruct (node s1 p 3) as [m|] eqn:E3; [|done]. by rewrite (ex_nodes _ _ _ E p 3 m).
  - eapply extends_trans; [|exact X1|exact E]. intros x Hx. exists q. split; [done|congruence].
  - intros x. rewrite Epg. apply G1.
Qed.

Lemma wp_present s m p i Q : seen_at s m p -> 0 <= i < 512 -> present (ent s m i) = true ->
  (forall p', seen_at s (pte_to_mfn (ent s m i)) p' -> Q (pte_to_mfn (ent s m i), p') s) -> (exists p', seen_at s (pte_to_mfn (ent s m i)) p') ->
  wpx OUT_OF_PAGES (e <-- load_entry VIRT_START p i ;; massert (present e) "ASSERT(tab[offset] & _PAGE_PRESENT)" ;;;
    let pt_mfn := pte_to_mfn e in tab <-- mfn_to_virt VIRT_START pt_mfn ;; cret (pt_mfn, tab)) Q s.
Proof.
  intros Hs Hi Hpr HQ [p' Hp']. apply wpx_wp, wp_bind, (wp_load_entry s m); [done|done|]. apply wp_bind, wp_assert; [done|].
  apply wp_bind, (wp_mfn_to_virt s _ p'); [done|]. by apply wp_ret, HQ.
Qed.

Lemma wp_need_level s va d pm tab level : mm_inv s -> (d < 3)%nat -> node s va d = Some pm -> seen_at s pm tab ->
  wpx OUT_OF_PAGES (need_level VIRT_START pt_base tab pm (idx d va) level) (fun r s' => grown s s' /\
    node s' va (S d) = Some r.1 /\ seen_at s' r.1 r.2) s.
Proof using Hself.
  intros I Hd Hpm Htab. unfold need_level. apply wpx_bind, wpx_wp, (wp_load_entry s pm); [done|apply idx_range|].
  assert (Hfin : forall s', grown s s' -> present (ent s' pm (idx d va)) = true ->
    wpx OUT_OF_PAGES (e <-- load_entry VIRT_START tab (idx d va) ;; massert (present e) "ASSERT(tab[offset] & _PAGE_PRESENT)" ;;;
      let pt_mfn := pte_to_mfn e in tab <-- mfn_to_virt VIRT_START pt_mfn ;; cret (pt_mfn, tab)) (fun r s' => grown s s' /\
      node s' va (S d) = Some r.1 /\ seen_at s' r.1 r.2) s').
  { intros s' G Hpr. pose proof (ex_nodes _ _ _ (gr_ext _ _ G) va d pm ltac:(lia) Hpm) as Hpm'.
    assert (Hnext : node s' va (S d) = Some (pte_to_mfn (ent s' pm (idx d va)))) by (cbn [Paging.node]; by rewrite Hpm', Hpr).
    apply (wp_present s' pm tab); [|apply idx_range|done|done|].
    - eapply seen_same; [apply (gr_ext _ _ G)|done].
    - apply (node_seen s' va (S d)); [apply G|lia|done]. }
  apply wpx_bind. destruct (present (ent s pm (idx d va))) eqn:Hpr; cbn [negb].
  { apply wpx_wp, wp_ret. apply Hfin; [by apply grown_refl|done]. }
  apply wpx_bind, wpx_wp. apply (wp_pgalloc_one s); [done| |].
  { intros s' _ _. apply wpx_bind, wpx_assert. done. }
  intros r f s1 G Em Hr Hsp Hs Hnf H3 Hfr. apply wpx_bind, wpx_assert. intros _.
  destruct (node s1 r 3) as [lm|] eqn:E3; [|done]. pose proof (ex_nodes _ _ _ (gr_ext _ _ G) va d pm ltac:(lia) Hpm) as Hpm1.
  assert (Hh1 : present (ent s1 pm (idx d va)) = false) by (unfold ent in *; by rewrite Em).
  apply wpx_wp. eapply wp_mono; [apply (wp_new_pt_frame s1 va d pm f r lm level); try done; apply G|].
  intros [] s2 Hpost. apply Hfin; [by eapply grown_new|]. destruct Hpost as (E & _ & Hn & _ & _).
  cbn [Paging.node] in Hn. rewrite (ex_nodes _ _ _ E va d pm) in Hn by (done || lia). by case_match.
Qed.

(** need_pgt: the address of the leaf entry, whose table there is now. *)
Lemma wp_need_pgt s va : mm_inv s -> wpx OUT_OF_PAGES (need_pgt VIRT_START pt_base va) (fun r s' => grown s s' /\
  exists m p, node s' va 3 = Some m /\ seen_at s' m p /\ r = p + 8 * idx 3 va) s.
Proof using Hself.
  intros I. destruct (tr_root _ _ s (mi_tree s I)) as (m0 & E0 & Hp0). unfold need_pgt, virt_to_mfn, pfn_to_mfn.
  apply wpx_bind, wpx_wp, wp_bind, wp_get, (wp_opt _ _ m0); [done|].
  apply wpx_bind. eapply wpx_mono; [apply (wp_need_level s va 0 m0 pt_base); [done|lia|done|done]|]. intros [m1 p1] s1 (G1 & E1 & Hp1). cbn [fst snd] in *.
  apply wpx_bind. eapply wpx_mono; [apply (wp_need_level s1 va 1 m1 p1); [apply G1|lia|done|done]|]. intros [m2 p2] s2 (G2 & E2 & Hp2). cbn [fst snd] in *.
  apply wpx_bind. eapply wpx_mono; [apply (wp_need_level s2 va 2 m2 p2); [apply G2|lia|done|done]|]. intros [m3 p3] s3 (G3 & E3 & Hp3). cbn [fst snd] in *.
  apply wpx_wp, wp_ret. split; [by eapply grown_trans; [eapply grown_trans|]|]. exists m3, p3. split_and!; [done|done|].
  change (l1_table_offset va) with (idx 3 va). apply (entry_ptr s3 m3); [done|apply idx_range].
Qed.
End Ops.
