(* ===== verification/PagingSpec.v ===== *)
(** * Page tables: mapping, finding room for and unmapping frames *)
From S2P Require Import Prelude Pgalloc PgallocInv PgallocThms PageIface PgallocSpec Paging PagingThms PagingOps.

(** ** Consecutive pages *)
Lemma page_step va i : pfx 4 (va + i * 4096) = (va / 4096 + i) mod 2 ^ 36.
Proof. rewrite pfx_page, Z.div_add by lia. done. Qed.
Lemma vpage_inj va i j : 0 <= i < 2 ^ 36 -> 0 <= j < 2 ^ 36 -> pfx 4 (va + i * 4096) = pfx 4 (va + j * 4096) -> i = j.
Proof.
  rewrite !page_step. intros Hi Hj E. assert (E2 : (i - j) mod 2 ^ 36 = 0).
  { replace (i - j) with ((va / 4096 + i) - (va / 4096 + j)) by lia. rewrite Zminus_mod, E, Z.sub_diag. done. }
  apply Z.mod_divide in E2 as [q E2]; lia.
Qed.
Definition inpages (va n x : Z) : Prop := exists i, 0 <= i < n /\ pfx 4 x = pfx 4 (va + i * 4096).
Lemma inpages_next va n x : 0 <= n -> inpages va (n + 1) x <-> pfx 4 x = pfx 4 va \/ inpages (va + 4096) n x.
Proof.
  intros Hn. split.
  - intros (i & Hi & E). destruct (decide (i = 0)) as [-> |]; [left; by rewrite Z.add_0_r in E|]. right. exists (i - 1).
    replace (va + 4096 + (i - 1) * 4096) with (va + i * 4096) by lia. split; [lia|done].
  - intros [E|(i & Hi & E)]; [exists 0; rewrite Z.add_0_r; split; [lia|done]|]. exists (i + 1).
    replace (va + (i + 1) * 4096) with (va + 4096 + i * 4096) by lia. split; [lia|done].
Qed.

(** Within the reach of one leaf table the index goes up by one. *)
Lemma l1_mask va : Z.land va L1_MASK = va mod 2 ^ 21.
Proof. change L1_MASK with (Z.ones 21). apply Z.land_ones. lia. Qed.
Lemma idx3_page va : idx 3 va = (va / 4096) mod 512.
Proof. apply idx_div. lia. Qed.
Lemma pfx3_page va : pfx 3 va = (va / 2 ^ 21) mod 2 ^ 27.
Proof. done. Qed.
Lemma leaf_next va : (4096 | va) -> (va + 4096) mod 2 ^ 21 <> 0 -> idx 3 (va + 4096) = idx 3 va + 1 /\ pfx 3 (va + 4096) = pfx 3 va.
Proof.
  intros [q ->] Hb. rewrite !idx3_page, !pfx3_page. replace (q * 4096 + 4096) with ((q + 1) * 4096) in * by lia.
  rewrite !Z.div_mul by lia. replace (2 ^ 21) with (4096 * 512) in * by done. rewrite <- !Z.div_div, !Z.div_mul by lia.
  assert (Hq : (q + 1) mod 512 <> 0).
  { intros E. apply Hb. apply Z.mod_divide in E as [k E]; [|lia]. rewrite E. replace (k * 512 * 4096) with (k * (4096 * 512)) by lia. by apply Z.mod_mul. }
  pose proof (Z.div_mod q 512 ltac:(lia)) as Hd. pose proof (Z.mod_pos_bound q 512 ltac:(lia)) as Hr. set (a := q / 512) in *. set (b := q mod 512) in *.
  assert (b <> 511). { intros E. apply Hq. rewrite Hd, E. replace (512 * a + 511 + 1) with ((a + 1) * 512) by lia. by apply Z.mod_mul. }
  assert (E1 : (q + 1) mod 512 = b + 1). { symmetry. apply (Z.mod_unique_pos _ _ a); lia. }
  assert (E2 : (q + 1) / 512 = a). { symmetry. apply (Z.div_unique_pos _ _ a (b + 1)); lia. }
  rewrite E1, E2. done.
Qed.

Section Spec.
Context {P : Type} `{PA : PageAllocator P} `{XM : XenMmu} {XL : XenMmuLaws}.
Variables (VIRT_START pt_base : Z).
Abbreviation node := (node VIRT_START pt_base).
Abbreviation seen_at := (seen_at VIRT_START).
Abbreviation tree := (tree VIRT_START pt_base).
Abbreviation pte := (pte VIRT_START pt_base).
Abbreviation mapping := (mapping VIRT_START pt_base).
Abbreviation mm_inv := (mm_inv VIRT_START pt_base).
Abbreviation grown := (grown VIRT_START pt_base).
Implicit Types s : mm (P := P).
Hypothesis Hself : forall mem ptr val, 0 <= mmu_verdict mem DOMID_SELF ptr val.

(** The same tables and frames; the leaf entries may differ. *)
Record same_tables s s' : Prop := {
  st_inner : same_inner VIRT_START pt_base s s';
  st_frames : same_frames s s';
  st_pg : mm_pg s' = mm_pg s;
  st_demand : demand_map_area_start s' = demand_map_area_start s
}.
Lemma st_refl s : same_tables s s.
Proof. by split. Qed.
Lemma st_node s s' va d : same_tables s s' -> (d <= 3)%nat -> node s' va d = node s va d.
Proof. intros [H1 H2 _ _] Hd. by apply same_nodes. Qed.
Lemma st_trans s1 s2 s3 : same_tables s1 s2 -> same_tables s2 s3 -> same_tables s1 s3.
Proof.
  intros S1 S2. pose proof S1 as [I1 [F1 F1'] P1 D1]. pose proof S2 as [I2 [F2 F2'] P2 D2]. split; [|split; congruence|congruence|congruence].
  intros va d m Hd E. rewrite <- (I1 va d m Hd E). apply I2; [done|]. rewrite (st_node s1 s2) by (done || lia). done.
Qed.
Lemma st_tree s s' : same_tables s s' -> tree s -> tree s'.
Proof. intros [H1 H2 _ _]. by apply tree_same. Qed.
Lemma st_seen s s' m p : same_tables s s' -> seen_at s m p -> seen_at s' m p.
Proof. intros [_ H2 _ _]. by apply seen_same. Qed.
Lemma st_inv s s' : same_tables s s' -> mm_inv s -> mm_inv s'.
Proof.
  intros S [I1 I2 I3]. split; [by rewrite (st_pg _ _ S)|by eapply st_tree|]. rewrite (st_pg _ _ S). intros p Hp Hf.
  destruct (I3 p Hp Hf) as (f & H1 & H2 & H3). exists f. split_and!; [by eapply st_seen| |by rewrite (st_node s s')].
  intros (va & d & Hd & E). apply H2. exists va, d. by rewrite <- (st_node s s').
Qed.
Lemma leaf_tables s va m v : tree s -> node s va 3 = Some m -> let s' := store m (idx 3 va) v s in
  same_tables s s' /\ forall x, pte s' x = if decide (pfx 4 x = pfx 4 va) then Some v else pte s x.
Proof. intros T E s'. destruct (leaf_store _ _ s va m v T E) as [H1 H2]. split; [|done]. by split. Qed.

(** ** Batches *)
Section Map.
Variables (mfns : list Z) (n stride incr id prot va0 : Z).
Definition frame_of_page (j : Z) : Z := u64 (default 0 (mfns !! Z.to_nat (j * stride)) + j * incr).
Definition val (j : Z) : Z := frame_of_page j * 4096 + prot.
Hypotheses (Hn : 0 <= n < 2 ^ 36) (Hva : (4096 | va0)) (Hrange : 0 <= va0 /\ va0 + n * 4096 < 2 ^ 64).
Hypotheses (Hprot : 0 <= prot < 4096) (Hpres : present prot = true).
Hypothesis Hmfns : forall j, 0 <= j < n -> is_Some (mfns !! Z.to_nat (j * stride)) /\ frame_of_page j < 2 ^ 40.
Definition at_page (j : Z) : Z := va0 + j * 4096.

(** The running pointer of the loop. *)
Definition cursor s (va pgt : Z) : Prop :=
  pgt = 0 \/ Z.land va L1_MASK = 0 \/ exists m p, node s va 3 = Some m /\ seen_at s m p /\ pgt = p + 8 * idx 3 va.
(** The updates for the pages from [j] on. *)
Fixpoint leaves s (j : Z) (ups : list (Z * Z)) : Prop :=
  match ups with
  | [] => True
  | (ptr, v) :: ups => (exists m, node s (at_page j) 3 = Some m /\ ptr = ent_addr m (idx 3 (at_page j))) /\ v = val j /\ leaves s (j + 1) ups
  end.

Lemma leaves_keep s s' j ups : (forall va m, node s va 3 = Some m -> node s' va 3 = Some m) -> leaves s j ups -> leaves s' j ups.
Proof.
  intros H. revert j. induction ups as [|[ptr v] ups IH]; intros j; cbn [leaves]; [done|]. intros ((m & E & ->) & -> & Hl).
  split_and!; [|done|by apply IH]. exists m. by rewrite (H _ m E).
Qed.
Lemma cursor_keep s s' va pgt : (forall x m, node s x 3 = Some m -> node s' x 3 = Some m) -> same_frames s s' -> cursor s va pgt -> cursor s' va pgt.
Proof.
  intros H F [?|[?|(m & p & E & Hs & ->)]]; [by left|by right; left|]. right; right. exists m, p. rewrite (H va m E). split_and!; [done| |done].
  by eapply seen_same.
Qed.
Lemma cursor_next s m p j : node s (at_page j) 3 = Some m -> seen_at s m p -> 
  cursor s (at_page (j + 1)) (u64 (p + 8 * idx 3 (at_page j) + sizeof_pgentry)).
Proof using Hva.
  intros E Hs. unfold cursor. rewrite l1_mask. replace (at_page (j + 1)) with (at_page j + 4096) by (unfold at_page; lia).
  destruct (decide ((at_page j + 4096) mod 2 ^ 21 = 0)) as [?|Hb]; [by right; left|]. right; right.
  assert (Hal : (4096 | at_page j)) by (unfold at_page; apply Z.divide_add_r; [done|by exists j]).
  destruct (leaf_next (at_page j) Hal Hb) as [Ei Ep]. exists m, p. rewrite (node_pfx _ _ s _ (at_page j) 3) by (done || lia).
  split_and!; [done|done|]. rewrite Ei. unfold sizeof_pgentry. pose proof (idx_range 3 (at_page j + 4096)). pose proof (idx_range 3 (at_page j)).
  replace (p + 8 * idx 3 (at_page j) + 8) with (p + 8 * (idx 3 (at_page j) + 1)) by lia. by apply (entry_ptr VIRT_START s m); [|lia].
Qed.

Lemma u64_page j : 0 <= j < n -> u64 (at_page j + PAGE_SIZE) = at_page (j + 1).
Proof using Hrange. intros Hj. unfold u64, at_page, PAGE_SIZE. rewrite Z.mod_small by lia. lia. Qed.

Lemma wp_map_batch k j pgt s : mm_inv s -> cursor s (at_page j) pgt -> 0 <= j -> j + Z.of_nat k <= n ->
  wpx OUT_OF_PAGES (map_batch VIRT_START pt_base mfns stride incr prot k j (at_page j) pgt) (fun r s' => let '(ups, va', pgt') := r in
    grown s s' /\ length ups = k /\ leaves s' j ups /\ va' = at_page (j + Z.of_nat k) /\ cursor s' va' pgt') s.
Proof using Hself XL Hva Hrange Hmfns Hprot.
  revert j pgt s. induction k as [|k IH]; intros j pgt s I Hc Hj Hk; cbn [map_batch].
  { apply wpx_wp, wp_ret. split_and!; try done; [by apply grown_refl|by rewrite Z.add_0_r]. }
  apply wpx_bind.
  assert (Hpg : wpx OUT_OF_PAGES (if (pgt =? 0) || (Z.land (at_page j) L1_MASK =? 0) then need_pgt VIRT_START pt_base (at_page j) else cret pgt)
    (fun r s' => grown s s' /\ exists m p, node s' (at_page j) 3 = Some m /\ seen_at s' m p /\ r = p + 8 * idx 3 (at_page j)) s).
  { destruct ((pgt =? 0) || (Z.land (at_page j) L1_MASK =? 0)) eqn:E; [by apply wp_need_pgt|].
    apply orb_false_iff in E as [E1 E2]. apply Z.eqb_neq in E1, E2. apply wpx_wp, wp_ret. split; [by apply grown_refl|].
    destruct Hc as [?|[?|Hc]]; done. }
  eapply wpx_mono; [exact Hpg|]. clear Hpg Hc pgt. intros pgt s1 (G1 & m & p & E & Hs & ->).
  apply wpx_bind, wpx_wp, (wp_virt_to_mach VIRT_START s1 m); [done|apply idx_range|].
  destruct (Hmfns j ltac:(lia)) as [[f0 Hf0] Hf]. apply wpx_bind, wpx_wp. unfold frame_no. apply wp_bind, (wp_opt _ _ f0); [done|]. apply wp_ret.
  apply wpx_bind. rewrite u64_page by lia.
  eapply wpx_mono; [apply (IH (j + 1)); [apply G1|by apply (cursor_next s1 m)|lia|lia]|].
  intros [[ups va'] pgt'] s2 (G2 & Hl & Hlv & -> & Hc). apply wpx_wp, wp_ret.
  pose proof (ex_nodes _ _ _ _ _ (gr_ext _ _ _ _ G2) (at_page j) 3 m ltac:(lia) E) as E'.
  split_and!; [by eapply grown_trans|by cbn; rewrite Hl| |f_equal; lia|done].
  cbn [leaves]. rewrite normal_update_zero, Z.lor_0_r. split_and!; [by exists m| |done].
  unfold val. assert (Ef : frame_of_page j = u64 (f0 + j * incr)) by (unfold frame_of_page; by rewrite Hf0).
  rewrite <- Ef. apply mk_entry; [|done]. split; [unfold frame_of_page, u64; apply Z.mod_pos_bound; lia|done].
Qed.

(** ** The hypervisor's answer to a batch *)
Definition batch_set s s' (j k : Z) : Prop :=
  (forall i, 0 <= i < k -> pte s' (at_page (j + i)) = Some (val (j + i))) /\
  (forall x, ~ inpages (at_page j) k x -> pte s' x = pte s x).
Lemma at_page_add j i : at_page j + i * 4096 = at_page (j + i).
Proof. unfold at_page. lia. Qed.

Lemma wp_mmu_leaves ups j s : (forall mem ptr v, 0 <= mmu_verdict mem id ptr v) -> tree s -> leaves s j ups -> zlen ups < 2 ^ 36 ->
  wp (mmu_update id ups) (fun rc s' => rc = 0 /\ same_tables s s' /\ batch_set s s' j (zlen ups)) s.
Proof.
  intros Hid. revert j s. induction ups as [|[ptr v] ups IH]; intros j s T Hl Hlen; cbn [mmu_update].
  { apply wp_ret. split_and!; [done|apply st_refl|]. split; [intros i Hi; cbn in Hi; lia|done]. }
  cbn [leaves] in Hl. destruct Hl as ((m & E & ->) & -> & Hl). apply wp_bind, wp_get. cbn zeta.
  destruct (Z.ltb_spec (mmu_verdict (mem s) id (ent_addr m (idx 3 (at_page j))) (val j)) 0) as [Hneg|_].
  { specialize (Hid (mem s) (ent_addr m (idx 3 (at_page j))) (val j)). lia. }
  apply wp_bind, wp_modify. destruct (leaf_tables s (at_page j) m (val j) T E) as [S1 P1]. set (s1 := store m (idx 3 (at_page j)) (val j) s) in *.
  cbn [length] in Hlen. eapply wp_mono; [apply (IH (j + 1) s1); [by eapply st_tree| |lia]|].
  { eapply leaves_keep; [|exact Hl]. intros x m' E'. by rewrite (st_node s s1) by done. }
  intros rc s' (-> & S2 & Hset & Hout). split_and!; [done|by eapply st_trans|]. cbn [length].
  split.
  - intros i Hi. destruct (decide (i = 0)) as [-> | Hi0].
    + rewrite Z.add_0_r, Hout, P1, decide_True; [done|done|]. intros (q & Hq & E'). rewrite at_page_add in E'.
      replace (at_page (j + 1 + q)) with (at_page j + (1 + q) * 4096) in E' by (unfold at_page; lia).
      rewrite <- (Z.add_0_r (at_page j)) in E' at 1. apply (vpage_inj (at_page j) 0 (1 + q)) in E'; lia.
    + replace (j + i) with (j + 1 + (i - 1)) by lia. apply Hset. lia.
  - intros x Hx. rewrite Nat2Z.inj_succ in Hx. unfold Z.succ in Hx. rewrite inpages_next in Hx by lia. replace (at_page j + 4096) with (at_page (j + 1)) in Hx by (unfold at_page; lia).
    rewrite Hout by tauto. rewrite P1, decide_False by tauto. done.
Qed.

Lemma wp_mmu_single ups j s : tree s -> leaves s j ups -> length ups = 1%nat ->
  wp (mmu_update id ups) (fun rc s' => same_tables s s' /\ ((rc < 0 /\ s' = s) \/ (0 <= rc /\ batch_set s s' j 1))) s.
Proof.
  intros T Hl Hlen. destruct ups as [|[ptr v] [|]]; try done. cbn [leaves] in Hl. destruct Hl as ((m & E & ->) & -> & _). cbn [mmu_update].
  apply wp_bind, wp_get. cbn zeta. destruct (Z.ltb_spec (mmu_verdict (mem s) id (ent_addr m (idx 3 (at_page j))) (val j)) 0) as [Hneg|_].
  { apply wp_ret. split; [apply st_refl|by left]. }
  destruct (leaf_tables s (at_page j) m (val j) T E) as [S1 P1]. apply wp_bind, wp_modify, wp_ret. split; [done|]. right. split; [lia|]. split.
  - intros i Hi. assert (i = 0) as -> by lia. rewrite Z.add_0_r. by rewrite P1, decide_True.
  - intros x Hx. rewrite P1, decide_False; [done|]. intros Ex. apply Hx. exists 0. rewrite Z.add_0_r. split; [lia|done].
Qed.

(** ** The whole call

    [err0]: the error array, already cleared. *)
Variables (s0 : mm (P := P)) (err0 : option (list Z)).
Hypothesis Herr : match err0 with
  | None => forall mem ptr v, 0 <= mmu_verdict mem id ptr v
  | Some e => stride = 1 /\ forall i, 0 <= i < n -> e !! Z.to_nat i = Some 0
  end.
Hypothesis Hspare : forall i, 0 <= i < n -> ~ spare s0 (at_page i).

(** Page [i] is mapped, or was refused and is as it was. *)
Definition page_outcome s (r i : Z) : Prop :=
  (r = 0 /\ mapping s (at_page i) = Some (val i)) \/ (r < 0 /\ err0 <> None /\ mapping s (at_page i) = mapping s0 (at_page i)).
Record mapped_upto (done : Z) (rs : list Z) s : Prop := {
  mu_inv : mm_inv s;
  mu_len : zlen rs = done;
  mu_range : 0 <= done <= n;
  mu_free : forall x, pa_free (mm_pg s) x -> pa_free (mm_pg s0) x;
  mu_frames : same_frames s0 s;
  mu_demand : demand_map_area_start s = demand_map_area_start s0;
  mu_done : forall i r, rs !! Z.to_nat i = Some r -> 0 <= i -> page_outcome s r i;
  mu_other : forall x, ~ spare s0 x -> ~ inpages va0 done x -> mapping s x = mapping s0 x;
  mu_none : err0 = None -> Forall (fun r => r = 0) rs;
  mu_nodes : forall x m, node s0 x 3 = Some m -> node s x 3 = Some m
}.

Lemma inpages_split k j x : 0 <= k -> 0 <= j -> ~ inpages va0 (j + k) x -> ~ inpages va0 j x /\ ~ inpages (at_page j) k x.
Proof.
  intros Hk Hj Hx. split; intros (i & Hi & E); apply Hx.
  - exists i. split; [lia|done].
  - exists (j + i). rewrite at_page_add in E. split; [lia|done].
Qed.
Lemma val_present j : present (val j) = true.
Proof using Hpres. unfold val. by rewrite entry_present. Qed.
Lemma mapping_pte s s' x : pte s' x = pte s x -> mapping s' x = mapping s x.
Proof. intros E. unfold PagingThms.mapping. by rewrite E. Qed.
Lemma spare_mono s x : (forall y, pa_free (mm_pg s) y -> pa_free (mm_pg s0) y) -> spare s x -> spare s0 x.
Proof. intros H (p & Hp & E). exists p. auto. Qed.

(** New tables, then the batch: refused or done. *)
Lemma mapped_step done rs s s1 s2 k rc : mapped_upto done rs s -> grown s s1 -> same_tables s1 s2 -> 0 < k -> done + k <= n ->
  (rc < 0 /\ s2 = s1 /\ k = 1 /\ err0 <> None) \/ (0 <= rc /\ batch_set s1 s2 done k) ->
  mapped_upto (done + k) (rs ++ (if rc <? 0 then [rc] else replicate (Z.to_nat k) 0)) s2.
Proof using Hspare Hpres Hn.
  intros [I1 L1 R1 F1 Fr1 D1 O1 X1 N1 W1] [GI GE GF] S Hk Hkn Hrc.
  assert (Hmap1 : forall x, ~ spare s0 x -> mapping s1 x = mapping s x).
  { intros x Hx. apply (ex_map _ _ _ _ _ GE). intros Hs. apply Hx. by eapply spare_mono. }
  assert (Hother : forall x, ~ spare s0 x -> ~ inpages va0 (done + k) x -> mapping s2 x = mapping s0 x).
  { intros x Hx Hp. apply inpages_split in Hp as [Hp1 Hp2]; [|lia|lia]. rewrite <- X1, <- Hmap1 by done.
    destruct Hrc as [(_ & -> & _)|(_ & _ & Hb)]; [done|]. by apply mapping_pte, Hb. }
  assert (Hold : forall i, 0 <= i < done -> mapping s2 (at_page i) = mapping s (at_page i)).
  { intros i Hi. rewrite <- Hmap1 by (apply Hspare; lia). destruct Hrc as [(_ & -> & _)|(_ & _ & Hb)]; [done|]. apply mapping_pte, Hb.
    intros (q & Hq & E). rewrite at_page_add in E. unfold at_page in E. apply vpage_inj in E; lia. }
  split; try done.
  - by eapply st_inv.
  - rewrite length_app. destruct Hrc as [(? & _ & -> & _)|(? & _)]; destruct (Z.ltb_spec rc 0); try lia; rewrite ?length_replicate; cbn [length]; lia.
  - lia.
  - intros x. rewrite (st_pg _ _ S). auto.
  - destruct Fr1, (ex_frames _ _ _ _ _ GE), (st_frames _ _ S). split; congruence.
  - rewrite (st_demand _ _ S), (ex_demand _ _ _ _ _ GE). done.
  - intros i r Hr Hi. destruct (decide (i < done)) as [Hlt|Hge].
    + rewrite lookup_app_l in Hr by lia. destruct (O1 i r Hr Hi) as [[-> Hm]|(Hr0 & He & Hm)]; [left|right]; rewrite Hold by lia; done.
    + rewrite lookup_app_r in Hr by lia. pose proof (lookup_lt_Some _ _ _ Hr) as Hlt. destruct Hrc as [(Hneg & -> & -> & He)|(Hpos & Hb & _)].
      * destruct (Z.ltb_spec rc 0); [|lia]. cbn [length] in Hlt. assert (i = done) as -> by lia. right.
        replace (Z.to_nat done - length rs)%nat with 0%nat in Hr by lia. injection Hr as <-. split_and!; [done|done|].
        rewrite Hmap1 by (apply Hspare; lia). apply X1; [apply Hspare; lia|]. intros (q & Hq & E). unfold at_page in E. apply vpage_inj in E; lia.
      * destruct (Z.ltb_spec rc 0); [lia|]. rewrite length_replicate in Hlt. apply lookup_replicate in Hr as [-> _]. left. split; [done|].
        replace i with (done + (i - done)) by lia. unfold PagingThms.mapping. rewrite Hb by lia. by rewrite val_present.
  - intros He. apply Forall_app. split; [by apply N1|]. destruct Hrc as [(_ & _ & _ & ?)|(Hpos & _)]; [done|]. destruct (Z.ltb_spec rc 0); [lia|]. by apply Forall_replicate.
  - intros x m E. rewrite (st_node s1 s2) by done. apply (ex_nodes _ _ _ _ _ GE); [lia|]. by apply W1.
Qed.

Lemma map_batch_pos : 0 < MAP_BATCH.
Proof using XL. unfold MAP_BATCH. destruct (mmu_update_fits (XenMmuLaws := XL)). apply Z.div_str_pos. change (STACK_SIZE / 2) with 131072. lia. Qed.
Definition err_of (rs : list Z) : option (list Z) := match err0 with None => None | Some e => Some (rs ++ drop (length rs) e) end.
Definition map_loop_inv (l : Z * Z * Z * option (list Z)) s (k : Z) : Prop :=
  let '(done, va, pgt, err) := l in
  exists rs, mapped_upto done rs s /\ va = at_page done /\ cursor s va pgt /\ err = err_of rs /\ k = n - done.

Lemma err_refused e rs rc done : err0 = Some e -> zlen rs = done -> done < n -> err0 <> None ->
  (done * stride <? zlen (rs ++ drop (length rs) e)) = true /\
  Some (<[Z.to_nat (done * stride) := rc]> (rs ++ drop (length rs) e)) = err_of (rs ++ [rc]).
Proof using Herr.
  intros He Hl Hd _. rewrite He in Herr. destruct Herr as [Es Hz]. rewrite Es, Z.mul_1_r. pose proof (lookup_lt_Some _ _ _ (Hz done ltac:(lia))) as Hle.
  split.
  - apply Z.ltb_lt. rewrite length_app, length_drop. lia.
  - unfold err_of. rewrite He. f_equal. rewrite length_app, <- app_assoc. cbn [app length]. replace (Z.to_nat done) with (length rs + 0)%nat by lia.
    rewrite insert_app_r. f_equal. replace (length rs + 1)%nat with (S (length rs)) by lia.
    destruct (lookup_lt_is_Some_2 e (length rs)) as [x Hx]; [lia|]. by rewrite (drop_S _ _ _ Hx).
Qed.
Lemma err_done e rs done : err0 = Some e -> zlen rs = done -> done < n -> Some (rs ++ drop (length rs) e) = err_of (rs ++ [0]).
Proof using Herr.
  intros He Hl Hd. rewrite He in Herr. destruct Herr as [_ Hz]. unfold err_of. rewrite He. f_equal. rewrite length_app, <- app_assoc. cbn [app length].
  f_equal. replace (length rs + 1)%nat with (S (length rs)) by lia. apply drop_S. rewrite <- (Hz done) by lia. f_equal. lia.
Qed.

Lemma err_cases : err0 = None \/ exists e, err0 = Some e.
Proof. destruct err0; eauto. Qed.
Lemma wp_map_round l s k : map_loop_inv l s k -> 0 <= k /\ wpx OUT_OF_PAGES (map_round VIRT_START pt_base mfns n stride incr id prot l)
  (fun r s' => match r with inl l' => exists k', map_loop_inv l' s' k' /\ 0 <= k' < k
               | inr e => exists rs, mapped_upto n rs s' /\ e = err_of rs end) s.
Proof using Hself XL Hn Hva Hrange Hmfns Hprot Hpres Herr Hspare.
  destruct l as [[[done va] pgt] err]. intros (rs & U & -> & Hc & -> & ->). pose proof (mu_range _ _ _ U) as Hr. split; [lia|]. unfold map_round.
  destruct (Z.ltb_spec done n) as [Hlt|Hge]; cbn [negb].
  2:{ apply wpx_wp, wp_ret. exists rs. assert (done = n) as -> by lia. done. }
  pose proof map_batch_pos as Hb. set (todo := Z.min (match err_of rs with Some _ => 1 | None => n - done end) MAP_BATCH).
  assert (Ht : 0 < todo <= n - done) by (unfold todo, err_of; destruct err0; lia).
  apply wpx_bind. eapply wpx_mono; [apply (wp_map_batch (Z.to_nat todo) done pgt s); [apply U|done|lia|lia]|].
  intros [[ups va'] pgt'] s1 (G & Hlen & Hlv & -> & Hc1). rewrite Z2Nat.id in * by lia.
  assert (Hup : wp (mmu_update id ups) (fun rc s2 => same_tables s1 s2 /\ ((rc < 0 /\ s2 = s1 /\ todo = 1 /\ err0 <> None) \/ (0 <= rc /\ batch_set s1 s2 done todo))) s1).
  { assert (T1 : tree s1) by apply G. destruct err_cases as [He|[e He]].
    2:{ assert (todo = 1) as E1 by (unfold todo, err_of; rewrite ?He; lia). rewrite E1 in *. eapply wp_mono; [apply (wp_mmu_single ups done); [done|done|lia]|].
      intros rc s2 [S [[? ->]|[? ?]]]; (split; [done|]); [left|right]; try done. split_and!; try done. by rewrite He. }
    rewrite He in Herr. eapply wp_mono; [apply (wp_mmu_leaves ups done); [done|done|done|lia]|]. intros rc s2 (-> & S & Hset). split; [done|]. right. split; [lia|].
      by replace todo with (zlen ups) by lia. }
  apply wpx_bind, wpx_wp. eapply wp_mono; [exact Hup|]. clear Hup. intros rc s2 [S Hrc].
  pose proof (mapped_step done rs s s1 s2 todo rc U G S ltac:(lia) ltac:(lia) Hrc) as U2.
  assert (Hc2 : cursor s2 (at_page (done + todo)) pgt').
  { eapply cursor_keep; [|apply S|exact Hc1]. intros x m Ex. by rewrite (st_node s1 s2). }
  destruct (Z.ltb_spec rc 0) as [Hneg|Hpos].
  - destruct Hrc as [(_ & -> & E1 & He)|[? _]]; [|lia]. rewrite E1 in *. destruct err_cases as [He0|[e He0]]; [done|]. unfold err_of at 1. rewrite He0.
    destruct (err_refused e rs rc done He0 (mu_len _ _ _ U) Hlt He) as [Ha Ee]. apply wpx_wp, wp_bind, wp_assert; [done|]. apply wp_ret.
    exists (n - (done + 1)). split; [|lia]. exists (rs ++ [rc]). rewrite Ee. done.
  - apply wpx_wp, wp_ret. exists (n - (done + todo)). split; [|lia]. exists (rs ++ replicate (Z.to_nat todo) 0). split_and!; try done.
    destruct err_cases as [He0|[e He0]]; [by unfold err_of; rewrite He0|].
    assert (todo = 1) as -> by (unfold todo, err_of; rewrite ?He0; lia). unfold err_of at 1. rewrite He0. by apply (err_done e rs done He0 (mu_len _ _ _ U)).
Qed.
End Map.

(** What minios_map_frames needs of its arguments. *)
Record map_args (mfns : list Z) (n stride incr id prot va : Z) (err : option (list Z)) s : Prop := {
  ma_n : 0 <= n < 2 ^ 36;
  ma_va : (4096 | va);
  ma_range : 0 <= va /\ va + n * 4096 < 2 ^ 64;
  ma_prot : 0 <= prot < 4096 /\ present prot = true;
  ma_mfns : forall j, 0 <= j < n -> is_Some (mfns !! Z.to_nat (j * stride)) /\ frame_of_page mfns stride incr j < 2 ^ 40;
  ma_err : match err with None => forall mem ptr v, 0 <= mmu_verdict mem id ptr v | Some e => stride = 1 /\ n <= zlen e end;
  ma_spare : forall i, 0 <= i < n -> ~ spare s (at_page va i)
}.
Definition map_post (mfns : list Z) (n stride incr prot va : Z) (err : option (list Z)) s (e' : option (list Z)) s' : Prop :=
  exists rs, e' = option_map (fun e => rs ++ drop (Z.to_nat n) e) err /\ mapped_upto mfns n stride incr prot va s err n rs s'.

Lemma wp_minios_map_frames mfns n stride incr id prot va err s : map_args mfns n stride incr id prot va err s -> mm_inv s ->
  wpx OUT_OF_PAGES (minios_map_frames VIRT_START pt_base va (Some mfns) n stride incr id err prot) (map_post mfns n stride incr prot va err s) s.
Proof using Hself XL.
  intros [Hn Hva Hra [Hp Hpr] Hm He Hsp] I. unfold minios_map_frames.
  set (err0 := option_map (fun e => replicate (Z.to_nat n) 0 ++ drop (Z.to_nat n) e) err). apply wpx_bind.
  assert (Hclr : wp (match err with Some e => massert (n <=? zlen e) "memset(err)" ;;; cret (Some (replicate (Z.to_nat n) 0 ++ drop (Z.to_nat n) e)) | None => cret None end)
    (fun r s' => r = err0 /\ s' = s) s).
  { destruct err as [e|]; [|by apply wp_ret]. apply wp_bind, wp_assert; [apply Z.leb_le; lia|]. by apply wp_ret. }
  apply wpx_wp. eapply wp_mono; [exact Hclr|]. clear Hclr. intros r s1 [-> ->].
  assert (He0 : match err0 with None => forall mem ptr v, 0 <= mmu_verdict mem id ptr v | Some e => stride = 1 /\ forall i, 0 <= i < n -> e !! Z.to_nat i = Some 0 end).
  { unfold err0. destruct err as [e|]; [|done]. cbn [option_map]. destruct He as [-> Hl]. split; [done|]. intros i Hi.
    rewrite lookup_app_l by (rewrite length_replicate; lia). apply lookup_replicate. split; [done|lia]. }
  eapply wpx_mono.
  - eapply (wpx_loop _ _ (map_loop_inv mfns n stride incr prot va s err0) _ (wp_map_round mfns n stride incr id prot va Hn Hva Hra Hp Hpr Hm s err0 He0 Hsp) _ _ n); [|lia].
    exists []. split_and!.
    + split; try done; lia.
    + unfold at_page. lia.
    + by left.
    + unfold err_of. destruct err0; done.
    + lia.
  - intros e' s' (rs & U & ->). pose proof (mu_len _ _ _ _ _ _ _ _ _ _ _ U) as Hl. exists rs. split.
    + unfold err_of, err0. destruct err as [e|]; [|done]. cbn [option_map]. f_equal. f_equal.
      rewrite drop_app_ge by (rewrite length_replicate; lia). rewrite length_replicate, drop_drop. f_equal. lia.
    + destruct U. split; try done.
      * intros i r Hr Hi. destruct (mu_done0 i r Hr Hi) as [?|(? & He' & ?)]; [by left|right]. split_and!; try done. intros ->. by apply He'.
      * intros ->. by apply mu_none0.
Qed.

(** ** Room in the demand area *)
Section Ondemand.
Variables (s : mm (P := P)) (n a : Z).
Let A := demand_map_area_start s.
Hypotheses (T : tree s) (HA : (4096 | A)) (HA0 : 0 < A /\ A + DEMAND_MAP_PAGES * 4096 < 2 ^ 64).
Hypotheses (Hn : 0 < n <= DEMAND_MAP_PAGES) (Ha : 0 <= a < 25).
Definition area_page (i : Z) : Z := A + i * 4096.
Definition page_free (i : Z) : Prop := mapping s (area_page i) = None.
Definition run_free (x : Z) : Prop := forall i, 0 <= i < n -> page_free (x + i).

(** The entry pointer of the search: exact for the address, or about to be. *)
Definition exact (va pgt : Z) : Prop :=
  match node s va 3 with None => pgt = 0 | Some m => exists p, seen_at s m p /\ pgt = p + 8 * idx 3 va end.
Lemma area_aligned i : (4096 | area_page i).
Proof using HA. unfold area_page. apply Z.divide_add_r; [done|by exists i]. Qed.
Lemma exact_next i pgt : exact (area_page i) pgt -> Z.land (area_page (i + 1)) L1_MASK <> 0 ->
  exact (area_page (i + 1)) (if pgt =? 0 then pgt else u64 (pgt + sizeof_pgentry)).
Proof using HA.
  rewrite l1_mask. replace (area_page (i + 1)) with (area_page i + 4096) by (unfold area_page; lia). intros He Hb.
  destruct (leaf_next (area_page i) (area_aligned i) Hb) as [Ei Ep]. unfold exact in *. rewrite (node_pfx _ _ s _ (area_page i) 3) by (done || lia).
  destruct (node s (area_page i) 3) as [m|]; [|by rewrite He]. destruct He as (p & Hs & ->). exists p. split; [done|]. rewrite Ei.
  pose proof (idx_range 3 (area_page i + 4096)). pose proof (idx_range 3 (area_page i)).
  destruct (Z.eqb_spec (p + 8 * idx 3 (area_page i)) 0) as [E|_]; [destruct Hs as (_ & pfn & _ & _ & _ & _ & _ & Hpos & _); lia|]. unfold sizeof_pgentry.
  replace (p + 8 * idx 3 (area_page i) + 8) with (p + 8 * (idx 3 (area_page i) + 1)) by lia. apply (entry_ptr VIRT_START s m); [done|lia].
Qed.
Lemma wp_exact_get i (Q : Z -> mm (P := P) -> Prop) : (forall pgt, exact (area_page i) pgt -> Q pgt s) -> wp (get_pgt VIRT_START pt_base (area_page i)) Q s.
Proof using T.
  intros HQ. apply wp_get_pgt; [done|]. destruct (node s (area_page i) 3) as [m|] eqn:E.
  - intros p Hp. apply HQ. unfold exact. rewrite E. by exists p.
  - apply HQ. unfold exact. by rewrite E.
Qed.
Lemma exact_free i pgt (Q : bool -> mm (P := P) -> Prop) : exact (area_page i) pgt ->
  (page_free i -> Q false s) -> (~ page_free i -> Q true s) ->
  wp (if negb (pgt =? 0) then e <-- load_at VIRT_START pgt ;; cret (present e) else cret false) Q s.
Proof.
  unfold exact, page_free, PagingThms.mapping, PagingThms.pte. intros He Hf Hu. destruct (node s (area_page i) 3) as [m|].
  - destruct He as (p & Hs & ->). pose proof (idx_range 3 (area_page i)).
    destruct (Z.eqb_spec (p + 8 * idx 3 (area_page i)) 0) as [E|_]; [destruct Hs as (_ & pfn & _ & _ & _ & _ & _ & Hpos & _); lia|]. cbn [negb].
    apply wp_bind, (wp_load_at VIRT_START s m); [done|done|]. apply wp_ret. destruct (present (ent s m (idx 3 (area_page i)))); [by apply Hu|by apply Hf].
  - rewrite He. cbn [Z.eqb negb]. apply wp_ret. by apply Hf.
Qed.

Lemma area_u64 i : 0 <= i <= DEMAND_MAP_PAGES -> u64 (A + i * PAGE_SIZE) = area_page i.
Proof using HA0. intros Hi. unfold u64, area_page, PAGE_SIZE. rewrite Z.mod_small by lia. done. Qed.
Lemma area_step i : 0 <= i < DEMAND_MAP_PAGES -> u64 (area_page i + PAGE_SIZE) = area_page (i + 1).
Proof using HA0. intros Hi. unfold u64, area_page, PAGE_SIZE. rewrite Z.mod_small by lia. lia. Qed.

(** The free pages from [x] on, up to [n]. *)
Lemma wp_ondemand_run x pgt : 0 <= x -> x + n <= DEMAND_MAP_PAGES -> exact (area_page x) pgt ->
  wp (loopM (ondemand_run VIRT_START pt_base n) (0, area_page x, pgt)) (fun y s' => s' = s /\ 0 <= y <= n /\
    (forall i, 0 <= i < y -> page_free (x + i)) /\ (y < n -> ~ page_free (x + y))) s.
Proof using T HA HA0 Hn.
  intros Hx Hxn He. apply (wp_loop _) with (I := fun l s' => s' = s /\ let '(y, addr, pgt) := l in 0 <= y <= n /\ addr = area_page (x + y) /\
    (forall i, 0 <= i < y -> page_free (x + i)) /\ (Z.land addr L1_MASK = 0 \/ exact addr pgt)) (meas := fun l _ => n - l.1.1); [| |cbn; unfold DEMAND_MAP_PAGES, PAGE_SIZE in *; cbn in *; lia].
  2:{ split; [done|]. rewrite Z.add_0_r. split_and!; try done; [lia|intros i Hi; lia|by right]. }
  clear pgt He. intros [[y addr] pgt] s' (-> & Hy & -> & Hfr & He). cbn [fst]. split; [lia|]. unfold ondemand_run.
  destruct (Z.ltb_spec y n) as [Hlt|Hge]; cbn [negb]; [|apply wp_ret; split_and!; try done; lia].
  apply wp_bind.
  assert (Hg : wp (if Z.land (area_page (x + y)) L1_MASK =? 0 then get_pgt VIRT_START pt_base (area_page (x + y)) else cret pgt)
    (fun r s' => s' = s /\ exact (area_page (x + y)) r) s).
  { destruct (Z.eqb_spec (Z.land (area_page (x + y)) L1_MASK) 0); [by apply wp_exact_get|]. apply wp_ret. destruct He; done. }
  eapply wp_mono; [exact Hg|]. clear Hg He pgt. intros pgt s' [-> He].
  assert (Hnext : page_free (x + y) -> 0 <= y + 1 <= n /\ u64 (area_page (x + y) + PAGE_SIZE) = area_page (x + (y + 1)) /\
    (forall i, 0 <= i < y + 1 -> page_free (x + i)) /\
    (Z.land (area_page (x + (y + 1))) L1_MASK = 0 \/ exact (area_page (x + (y + 1))) (if pgt =? 0 then pgt else u64 (pgt + sizeof_pgentry)))).
  { intros Hf. rewrite area_step by lia. rewrite Z.add_assoc. split_and!; [lia|lia|done| |].
    - intros i Hi. destruct (decide (i = y)) as [-> |]; [done|]. apply Hfr. lia.
    - destruct (decide (Z.land (area_page (x + y + 1)) L1_MASK = 0)); [by left|right]. by apply exact_next. }
  pose proof (exact_free (x + y) pgt (fun b s' => s' = s /\ if b then ~ page_free (x + y) else page_free (x + y)) He) as Hp.
  specialize (Hp ltac:(done) ltac:(done)). destruct (pgt =? 0) eqn:Ez; cbn [negb] in *.
  - destruct Hp as [_ Hf]. destruct (Hnext Hf) as (H1 & H2 & H3 & H4). apply wp_ret. cbn [fst]. rewrite H2. split_and!; try done; try lia.
  - apply wp_bind. apply wp_bind_inv in Hp. eapply wp_mono; [exact Hp|]. intros e s' [-> Hf]. destruct (present e).
    + apply wp_ret. split_and!; try done; lia.
    + destruct (Hnext Hf) as (H1 & H2 & H3 & H4). apply wp_ret. cbn [fst]. rewrite H2. split_and!; try done; try lia.
Qed.

(** The next candidate behind page [v]: no aligned one is passed over. *)
Lemma next_aligned v : 0 <= v < 2 ^ 26 -> let x' := Z.land (u64 (v + 1 + 2 ^ a - 1)) (u64 (Z.lnot (u64 (2 ^ a - 1)))) in
  (2 ^ a | x') /\ v < x' <= v + 2 ^ a /\ forall z, (2 ^ a | z) -> z < x' -> z <= v.
Proof using A Ha.
  intros Hv x'. assert (Hp : 0 < 2 ^ a) by (apply Z.pow_pos_nonneg; lia). assert (Hp2 : 2 ^ a <= 2 ^ 24) by (apply Z.pow_le_mono_r; lia).
  assert (Ex : x' = 2 ^ a * ((v + 2 ^ a) / 2 ^ a)).
  { unfold x'. replace (v + 1 + 2 ^ a - 1) with (v + 2 ^ a) by lia. rewrite (u64_small (v + 2 ^ a)), (u64_small (2 ^ a - 1)) by lia. apply land_not_pow2; lia. }
  pose proof (Z.div_mod (v + 2 ^ a) (2 ^ a) ltac:(lia)) as Hd. pose proof (Z.mod_pos_bound (v + 2 ^ a) (2 ^ a) Hp) as Hm.
  split_and!; [rewrite Ex; apply Z.divide_factor_l|lia|lia|]. intros z [q ->] Hz. rewrite Ex in Hz.
  set (k := (v + 2 ^ a) / 2 ^ a) in *. assert (Hq : q <= k - 1) by nia. assert (q * 2 ^ a <= (k - 1) * 2 ^ a) by (apply Z.mul_le_mono_nonneg_r; lia). lia.
Qed.
Lemma demand_pages : DEMAND_MAP_PAGES = 2 ^ 25.
Proof. done. Qed.

Definition no_run : Prop := forall z, 0 <= z -> (2 ^ a | z) -> z + n <= DEMAND_MAP_PAGES -> ~ run_free z.
Definition found (x : Z) : Prop := 0 <= x /\ x + n <= DEMAND_MAP_PAGES /\ (2 ^ a | x) /\ run_free x.

Lemma wp_allocate_ondemand : wp (allocate_ondemand VIRT_START pt_base n (2 ^ a)) (fun r s' => s' = s /\
  ((r = 0 /\ no_run) \/ exists x, found x /\ r = area_page x)) s.
Proof using T HA HA0 Hn Ha.
  unfold allocate_ondemand. apply wp_bind. pose proof demand_pages as HD.
  apply (wp_loop _) with (I := fun l s' => s' = s /\ 0 <= l.1 <= 2 ^ 26 /\ (2 ^ a | l.1) /\ l.2 <> n /\
      forall z, 0 <= z < l.1 -> (2 ^ a | z) -> z + n <= DEMAND_MAP_PAGES -> ~ run_free z)
    (meas := fun l _ => 2 ^ 26 - l.1); [| |cbn; lia].
  2:{ cbn [fst snd]. split_and!; [done|lia|lia|apply Z.divide_0_r|lia|intros z Hz; lia]. }
  intros [x y] s' (-> & Hx & Hal & Hy & Hno). cbn [fst snd] in *. split; [lia|]. unfold ondemand_try.
  assert (Eu : u64 (DEMAND_MAP_PAGES - n) = DEMAND_MAP_PAGES - n) by (unfold u64; rewrite Z.mod_small; lia). rewrite Eu.
  destruct (Z.leb_spec x (DEMAND_MAP_PAGES - n)) as [Hle|Hgt]; cbn [negb].
  2:{ apply wp_ret. destruct (Z.eqb_spec y n); [done|]. cbn [negb]. apply wp_ret. split; [done|]. left. split; [done|]. intros z Hz Hzd Hzn. apply Hno; [lia|done|done]. }
  apply wp_bind, wp_gets. fold A. rewrite area_u64 by lia. apply wp_bind, wp_exact_get. intros pgt He. apply wp_bind.
  eapply wp_mono; [apply (wp_ondemand_run x pgt); [lia|lia|done]|]. intros y' s' (-> & Hy' & Hfr & Hbusy). destruct (Z.eqb_spec y' n) as [-> | Hne].
  - apply wp_ret. rewrite Z.eqb_refl. cbn [negb]. apply wp_bind, wp_gets, wp_ret. split; [done|]. right. exists x. fold A. rewrite area_u64 by lia. split; [|done]. split_and!; try done; lia.
  - apply wp_ret. cbn [fst snd]. destruct (next_aligned (x + y')) as (H1 & H2 & H3); [lia|]. pose proof (Z.pow_le_mono_r 2 a 24 ltac:(lia) ltac:(lia)).
    replace (x + y' + 1 + 2 ^ a - 1) with (x + y' + 1 + 2 ^ a - 1) by lia. split_and!; try done; try lia.
    intros z Hz Hzd Hzn Hrun. specialize (H3 z Hzd ltac:(lia)). destruct (decide (z < x)) as [|Hge]; [by apply (Hno z); [lia|..]|].
    apply Hbusy; [lia|]. replace (x + y') with (z + (x + y' - z)) by lia. apply Hrun. lia.
Qed.
End Ondemand.

(** ** Unmapping *)
Section Unmap.
Variables (va n : Z).
Hypotheses (Hn : 0 <= n < 2 ^ 36) (Hra : 0 <= va /\ va + n * 4096 < 2 ^ 64).
Hypotheses (Hva_ok : forall mem x v, va_verdict mem x v = 0) (Hmc_ok : forall mem k, multicall_verdict mem k = 0).
Definition has_leaves s : Prop := forall i, 0 <= i < n -> node s (at_page va i) 3 <> None.
(** Pages [j] to [j + k - 1] are cleared. *)
Definition cleared s s' (j k : Z) : Prop :=
  (forall i, j <= i < j + k -> pte s' (at_page va i) = Some 0) /\ (forall x, ~ inpages (at_page va j) k x -> pte s' x = pte s x).

Lemma wp_multicall_va k j s : tree s -> has_leaves s -> 0 <= j -> j + Z.of_nat k <= n ->
  wp (multicall_va VIRT_START pt_base (map (fun i => (at_page va i, 0)) (seqZ j (Z.of_nat k)))) (fun rs s' => same_tables s s' /\
    Forall (fun r => r = 0) rs /\ cleared s s' j (Z.of_nat k)) s.
Proof using Hn Hra Hva_ok.
  revert j s. induction k as [|k IH]; intros j s T Hl Hj Hk.
  { apply wp_ret. split_and!; [apply st_refl|by constructor|]. split; [intros i Hi; lia|done]. }
  rewrite seqZ_cons by lia. cbn [map multicall_va]. replace (Z.succ j) with (j + 1) by lia. replace (Z.pred (Z.of_nat (S k))) with (Z.of_nat k) by lia.
  apply wp_bind. unfold update_va_mapping. apply wp_bind, wp_get. destruct (node s (at_page va j) 3) as [m|] eqn:E; [|by destruct (Hl j); [lia|]].
  cbn zeta. rewrite Hva_ok. cbn [Z.eqb negb]. apply wp_bind, wp_modify, wp_ret. destruct (leaf_tables s (at_page va j) m 0 T E) as [S1 P1]. set (s1 := store m _ 0 s) in *.
  apply wp_bind. eapply wp_mono; [apply (IH (j + 1) s1); [by eapply st_tree| |lia|lia]|].
  { intros i Hi. rewrite (st_node s s1) by done. by apply Hl. }
  intros rs s2 (S2 & Hrs & Hset & Hout). apply wp_ret. split_and!; [by eapply st_trans|by constructor|]. split.
  - intros i Hi. destruct (decide (i = j)) as [-> |]; [|apply Hset; lia]. rewrite Hout, P1, decide_True; [done|done|].
    intros (q & Hq & Eq). rewrite at_page_add in Eq. unfold at_page in Eq. apply vpage_inj in Eq; lia.
  - intros x Hx. rewrite Nat2Z.inj_succ in Hx. unfold Z.succ in Hx. rewrite inpages_next in Hx by lia.
    replace (at_page va j + 4096) with (at_page va (j + 1)) in Hx by (unfold at_page; lia). rewrite Hout by tauto. by rewrite P1, decide_False by tauto.
Qed.
Lemma no_error rs : Forall (fun r => r = 0) rs -> first_error rs = None.
Proof. unfold first_error. induction 1 as [|r rs -> _ IH]; [done|]. rewrite filter_cons, decide_False by tauto. done. Qed.
Lemma cleared_join s s1 s2 j k : same_tables s s1 -> cleared s s1 0 j -> cleared s1 s2 j k -> 0 <= j -> 0 <= k -> j + k <= n -> cleared s s2 0 (j + k).
Proof using Hn Hra.
  intros _ [A1 B1] [A2 B2] Hj Hk Hjk. split.
  - intros i Hi. destruct (decide (i < j)); [|apply A2; lia]. rewrite B2; [apply A1; lia|]. intros (q & Hq & E).
    rewrite at_page_add in E. unfold at_page in E. apply vpage_inj in E; lia.
  - intros x Hx. apply (inpages_split (at_page va 0)) in Hx as [H1 H2]; [|lia|lia]. rewrite B2, B1; [done|done|].
    unfold at_page in *. by rewrite Z.mul_0_l, Z.add_0_r in H2.
Qed.
Lemma unmap_batch_pos : 0 < UNMAP_BATCH.
Proof using XL. unfold UNMAP_BATCH. destruct (multicall_fits (XenMmuLaws := XL)). apply Z.div_str_pos. change (STACK_SIZE / 2) with 131072. lia. Qed.

Lemma wp_unmap_frames s : (4096 | va) -> tree s -> has_leaves s ->
  wp (unmap_frames VIRT_START pt_base va n) (fun rc s' => rc = 0 /\ same_tables s s' /\ cleared s s' 0 n) s.
Proof using Hn Hra Hva_ok Hmc_ok XL.
  intros Hal T Hl. unfold unmap_frames. apply wp_bind, wp_assert.
  { change (u64 (Z.lnot PAGE_MASK)) with (Z.ones 12). rewrite Z.land_ones by lia. change (2 ^ 12) with 4096. apply Z.eqb_eq. by apply Z.mod_divide. }
  apply (wp_loop _) with (I := fun l s' => exists j, 0 <= j <= n /\ l.1.1 = at_page va j /\ l.1.2 = n - j /\ 0 < l.2 /\ same_tables s s' /\ cleared s s' 0 j) (meas := fun l _ => l.1.2);
    [| |cbn; lia].
  2:{ exists 0. cbn [fst snd]. split_and!; [lia|lia|unfold at_page; lia|lia|apply unmap_batch_pos|apply st_refl|]. split; [intros i Hi; lia|done]. }
  intros [[va' num] b] s1 (j & Hj & Eva & Enum & Hb & S1 & C1). cbn [fst snd] in *. subst va' num. split; [lia|]. unfold unmap_round.
  destruct (Z.eqb_spec (n - j) 0) as [E|E].
  { apply wp_ret. assert (j = n) as -> by lia. done. }
  set (b' := if n - j <? b then n - j else b). assert (Hb' : 0 < b' <= n - j) by (unfold b'; destruct (Z.ltb_spec (n - j) b); lia).
  assert (El : map (fun i => (u64 (at_page va j + PAGE_SIZE * i), 0)) (seqZ 0 b') = map (fun i => (at_page va i, 0)) (seqZ j (Z.of_nat (Z.to_nat b')))).
  { rewrite Z2Nat.id by lia. pose proof (fmap_add_seqZ j 0 b') as Ef. rewrite Z.add_0_r in Ef. rewrite <- Ef, <- list_fmap_compose. apply list_fmap_ext. intros i x Hx. apply lookup_seqZ in Hx as [-> Hi].
    cbn. f_equal. unfold at_page, PAGE_SIZE. rewrite u64_small by lia. lia. }
  rewrite El. apply wp_bind. unfold multicall. apply wp_bind, wp_get. cbn zeta. rewrite Hmc_ok. cbn [Z.eqb negb]. apply wp_bind.
  eapply wp_mono; [apply (wp_multicall_va (Z.to_nat b') j s1); [by eapply st_tree| |lia|lia]|].
  { intros i Hi. rewrite (st_node s s1) by done. by apply Hl. }
  intros rs s2 (S2 & Hrs & C2). apply wp_ret. cbn [Z.eqb negb]. rewrite (no_error rs Hrs). apply wp_ret. rewrite Z2Nat.id in C2 by lia.
  split; [|cbn; lia]. exists (j + b'). cbn [fst snd]. split_and!; try lia.
  - unfold at_page, PAGE_SIZE. rewrite u64_small by lia. lia.
  - by eapply st_trans.
  - apply (cleared_join s s1 s2 j b'); [done|done|done|lia|lia|lia].
Qed.
End Unmap.

(** ** Mapping frames somewhere, and unmapping them *)

(** The demand area: in the address space, none of it the allocator's, and the
    entries there are whole pages. *)
Record area_ok s : Prop := {
  ao_aligned : (4096 | demand_map_area_start s);
  ao_range : 0 < demand_map_area_start s /\ demand_map_area_start s + DEMAND_MAP_PAGES * 4096 < 2 ^ 64;
  ao_spare : forall i, 0 <= i < DEMAND_MAP_PAGES -> ~ spare s (demand_map_area_start s + i * 4096)
}.
Definition same_mappings s s' : Prop := forall x, ~ spare s x -> mapping s' x = mapping s x.

(** The frames are mapped at page [x] of the area and nothing else changed. *)
Record mapped_at s (x n : Z) (frame : Z -> Z) (prot : Z) s' : Prop := {
  ma_inv : mm_inv s';
  ma_pages : forall i, 0 <= i < n -> mapping s' (area_page s (x + i)) = Some (frame i * 4096 + prot);
  ma_other : forall y, ~ spare s y -> ~ inpages (area_page s x) n y -> mapping s' y = mapping s y
}.
Lemma wp_map_frames_ex mfns n stride incr a id prot s :
  mm_inv s -> area_ok s -> 0 < n <= DEMAND_MAP_PAGES -> 0 <= a < 25 -> 0 <= prot < 4096 -> present prot = true ->
  (forall j, 0 <= j < n -> is_Some (mfns !! Z.to_nat (j * stride)) /\ frame_of_page mfns stride incr j < 2 ^ 40) ->
  (forall mem ptr v, 0 <= mmu_verdict mem id ptr v) ->
  wpx OUT_OF_PAGES (minios_map_frames_ex VIRT_START pt_base (Some mfns) n stride incr (2 ^ a) id None prot) (fun r s' =>
    (r = (0, None) /\ s' = s /\ no_run s n a) \/
    (exists x, found s n a x /\ r = (area_page s x, None) /\ mapped_at s x n (frame_of_page mfns stride incr) prot s')) s.
Proof using Hself XL.
  intros I [Hal Hra Hsp] Hn Ha Hp Hpr Hm Hid. pose proof demand_pages as HD. unfold minios_map_frames_ex. apply wpx_bind, wpx_wp.
  eapply wp_mono; [apply (wp_allocate_ondemand s n a); [apply I|done..]|]. intros r s1 [-> [[-> Hno]|(x & Hf & ->)]].
  { apply wpx_wp, wp_ret. by left. }
  destruct Hf as (Hx & Hxn & Hxa & Hrun). assert (Hva : area_page s x = demand_map_area_start s + x * 4096) by done.
  destruct (Z.eqb_spec (area_page s x) 0); [lia|]. apply wpx_bind.
  assert (Hpage : forall i, at_page (area_page s x) i = area_page s (x + i)) by (intros i; unfold at_page, area_page; lia).
  assert (Args : map_args mfns n stride incr id prot (area_page s x) None s).
  { split; try done; [lia|by apply area_aligned|lia|]. intros i Hi. rewrite Hpage. apply Hsp. lia. }
  eapply wpx_mono; [by apply wp_minios_map_frames|]. intros e s' (rs & -> & U). apply wpx_wp, wp_ret. right. exists x.
  split_and!; try done. split; [apply U| |by apply U].
  intros i Hi. pose proof (mu_len _ _ _ _ _ _ _ _ _ _ _ U) as Hl. destruct (lookup_lt_is_Some_2 rs (Z.to_nat i)) as [r Hr]; [lia|].
  destruct (mu_done _ _ _ _ _ _ _ _ _ _ _ U i r Hr ltac:(lia)) as [[_ E]|(_ & ? & _)]; [|done]. by rewrite Hpage in E.
Qed.
Lemma wp_unmap_back s n a x frame prot s' : area_ok s -> 0 < n -> found s n a x -> mapped_at s x n frame prot s' ->
  (forall mem x v, va_verdict mem x v = 0) -> (forall mem k, multicall_verdict mem k = 0) ->
  wp (unmap_frames VIRT_START pt_base (area_page s x) n) (fun rc s'' => rc = 0 /\ same_mappings s s'') s'.
Proof using XL.
  intros [Hal Hra Hsp] Hn (Hx & Hxn & Hxa & Hrun) [I' Hmap Hother] Hvv Hmc. pose proof demand_pages as HD.
  assert (Hva : area_page s x = demand_map_area_start s + x * 4096) by done.
  assert (Hpage : forall i, at_page (area_page s x) i = area_page s (x + i)) by (intros i; unfold at_page, area_page; lia).
  eapply wp_mono; [apply (wp_unmap_frames (area_page s x) n ltac:(lia) ltac:(lia) Hvv Hmc s'); [by apply area_aligned|apply I'|]|].
  { intros i Hi. rewrite Hpage. specialize (Hmap i Hi). unfold PagingThms.mapping, PagingThms.pte in Hmap. by destruct (node s' (area_page s (x + i)) 3). }
  intros rc s2 (-> & S2 & Hc & Hout). split; [done|]. intros y Hy.
  destruct (decide (Exists (fun i => pfx 4 y = pfx 4 (area_page s (x + i))) (seqZ 0 n))) as [Hex|Hnot].
  - apply Exists_exists in Hex as (i & Hi & E). apply elem_of_seqZ in Hi. rewrite !(mapping_page _ _ _ y (area_page s (x + i)) E). rewrite (Hrun i) by lia.
    unfold PagingThms.mapping. rewrite <- Hpage, Hc by lia. done.
  - assert (Hnin : ~ inpages (area_page s x) n y).
    { intros (i & Hi & E). apply Hnot, Exists_exists. exists i. split; [apply elem_of_seqZ; lia|]. rewrite E. f_equal. unfold area_page. lia. }
    rewrite <- (Hother y Hy Hnin). apply mapping_pte, Hout. unfold at_page. by rewrite Z.mul_0_l, Z.add_0_r.
Qed.

(** C29. minios_map_frames_ex over any page allocator of the interface: unless it runs out of pages for tables it returns.  It
    returns 0 and changes nothing when no aligned run of [n] pages of the demand
    area is free; otherwise the address of a run that was free, whose page [i] is
    now frame [mfns[i * stride] + i * incr] with the protection asked for, while
    every other mapping is as before (the allocator's own pages apart, which
    become read-only when they become tables).  unmap_frames of the range then
    returns 0 and every mapping is again what it was. *)
Theorem map_frames_ex_roundtrip mfns n stride incr a id prot s :
  mm_inv s -> area_ok s -> 0 < n <= DEMAND_MAP_PAGES -> 0 <= a < 25 -> 0 <= prot < 4096 -> present prot = true ->
  (forall j, 0 <= j < n -> is_Some (mfns !! Z.to_nat (j * stride)) /\ frame_of_page mfns stride incr j < 2 ^ 40) ->
  (forall mem ptr v, 0 <= mmu_verdict mem id ptr v) -> (forall mem x v, va_verdict mem x v = 0) -> (forall mem k, multicall_verdict mem k = 0) ->
  wpx OUT_OF_PAGES (minios_map_frames_ex VIRT_START pt_base (Some mfns) n stride incr (2 ^ a) id None prot) (fun r s' =>
    (r = (0, None) /\ s' = s /\ no_run s n a) \/
    (exists x, found s n a x /\ r = (area_page s x, None) /\ mm_inv s' /\
       (forall i, 0 <= i < n -> mapping s' (area_page s (x + i)) = Some (frame_of_page mfns stride incr i * 4096 + prot)) /\
       (forall y, ~ spare s y -> ~ inpages (area_page s x) n y -> mapping s' y = mapping s y) /\
       wp (unmap_frames VIRT_START pt_base (area_page s x) n) (fun rc s'' => rc = 0 /\ same_mappings s s'') s')) s.
Proof using Hself XL.
  intros I Ha Hn Hal Hp Hpr Hm Hid Hvv Hmc. eapply wpx_mono; [by apply wp_map_frames_ex|]. intros r s' [?|(x & Hf & -> & Hma)]; [by left|].
  right. exists x. pose proof (wp_unmap_back _ _ _ _ _ _ _ Ha (proj1 Hn) Hf Hma Hvv Hmc). destruct Hma. by split_and!.
Qed.
End Spec.

(** minios_map_frames with an error array: unless it runs out of pages for tables it returns; the array says for every page
    whether it is mapped (0) or what the hypervisor answered when it refused it
    (a negative number), a refused page keeps the mapping it had, and what is not
    among the pages keeps its mapping. *)
Theorem map_frames_reports {P : Type} {PA : PageAllocator P} {XM : XenMmu} {XL : XenMmuLaws} VIRT_START pt_base mfns n incr id prot va e
    (s : mm (P := P)) :
  (forall mem ptr v, 0 <= mmu_verdict mem DOMID_SELF ptr v) ->
  map_args mfns n 1 incr id prot va (Some e) s -> mm_inv VIRT_START pt_base s ->
  wpx OUT_OF_PAGES (minios_map_frames VIRT_START pt_base va (Some mfns) n 1 incr id (Some e) prot) (fun r s' =>
    mm_inv VIRT_START pt_base s' /\ exists rs, r = Some (rs ++ drop (Z.to_nat n) e) /\ zlen rs = n /\
    (forall i x, rs !! Z.to_nat i = Some x -> 0 <= i ->
       (x = 0 /\ mapping VIRT_START pt_base s' (va + i * 4096) = Some (frame_of_page mfns 1 incr i * 4096 + prot)) \/
       (x < 0 /\ mapping VIRT_START pt_base s' (va + i * 4096) = mapping VIRT_START pt_base s (va + i * 4096))) /\
    (forall y, ~ spare s y -> ~ inpages va n y -> mapping VIRT_START pt_base s' y = mapping VIRT_START pt_base s y)) s.
Proof.
  intros Hself Args I. eapply wpx_mono; [by apply wp_minios_map_frames|]. intros r s' (rs & -> & U).
  split; [apply U|]. exists rs. split_and!; [done|apply U| |apply U].
  intros i x Hx Hi. destruct (mu_done _ _ _ _ _ _ _ _ _ _ _ _ _ U i x Hx Hi) as [?|(? & _ & ?)]; [by left|by right].
Qed.

(** ** An example: the first two megabytes are the 1:1 area. *)
#[local] Instance example_mmu : XenMmu := {|
  MMU_NORMAL_PT_UPDATE := 0; sizeof_mmu_update := 16; sizeof_multicall_entry := 64; DOMID_SELF := 32752;
  mmu_verdict := fun _ dom _ v => if (dom =? 7) && (pte_to_mfn v =? 78) then -14 else 0;
  va_verdict := fun _ _ _ => 0; multicall_verdict := fun _ _ => 0 |}.
#[local] Instance example_mmu_laws : XenMmuLaws.
Proof. split; cbn; lia. Qed.
Definition identity : gmap Z Z := map_seqZ 0 (seqZ 0 512).
Lemma identity_lookup i : 0 <= i < 512 -> identity !! i = Some i.
Proof. intros Hi. apply lookup_map_seqZ_Some. rewrite lookup_seqZ. split_and!; lia. Qed.
Definition hook (m : Z) : mm (P := pgstate) -> mm := store m 0 ((m + 1) * 4096 + L2_PROT).
Definition mm_example : mm (P := pgstate) := hook 3 (hook 2 (hook 1 (Mm pg_example ∅ identity identity (2 ^ 30)))).

Lemma example_ent m i : 0 <= i < 512 -> ent mm_example m i = if decide (1 <= m <= 3 /\ i = 0) then (m + 1) * 4096 + L2_PROT else 0.
Proof.
  intros Hi. unfold mm_example, hook. rewrite !ent_store by lia. repeat case_decide; try lia; try (destruct_and?; subst; done).
Qed.
Lemma example_present m : present ((m + 1) * 4096 + L2_PROT) = true.
Proof. by rewrite entry_present. Qed.
Lemma example_root va : node 0 4096 mm_example va 0 = Some 1.
Proof. change (node 0 4096 mm_example va 0) with (identity !! 1). apply identity_lookup. lia. Qed.
#[local] Opaque identity.
Lemma example_node va d m : (d <= 3)%nat -> node 0 4096 mm_example va d = Some m -> m = 1 + Z.of_nat d /\ pfx d va = 0.
Proof.
  revert m. induction d as [|d IH]; intros m Hd.
  { rewrite example_root. intros [= <-]. split; [done|]. unfold pfx. by rewrite Z.mod_1_r. }
  cbn [node]. destruct (node 0 4096 mm_example va d) as [m'|] eqn:E; [|done]. destruct (IH m' ltac:(lia) eq_refl) as [-> Hp].
  rewrite example_ent by apply idx_range. case_decide as Hc; [|done]. rewrite example_present. intros [= <-].
  rewrite entry_mfn by (try split; done || lia). split; [lia|]. rewrite pfx_S by lia. lia.
Qed.
Lemma example_low p d : 0 <= p < 2 ^ 21 -> (d <= 3)%nat -> node 0 4096 mm_example p d = Some (1 + Z.of_nat d).
Proof.
  intros Hp. induction d as [|d IH]; intros Hd; [apply example_root|]. cbn [node]. rewrite IH by lia. rewrite example_ent by apply idx_range.
  assert (Ei : idx d p = 0).
  { rewrite idx_div by lia. rewrite Z.div_small; [done|]. split; [lia|]. assert (2 ^ 21 <= 2 ^ (39 - 9 * Z.of_nat d)) by (apply Z.pow_le_mono_r; lia). lia. }
  rewrite decide_True by lia. rewrite example_present, entry_mfn by (try split; done || lia). f_equal. lia.
Qed.
Lemma example_seen m : 0 < m < 512 -> seen_at 0 mm_example m (m * 4096).
Proof.
  intros Hm. split; [lia|]. exists m. change (m2p mm_example) with identity. change (p2m mm_example) with identity.
  rewrite !identity_lookup by lia. split_and!; try reflexivity; lia.
Qed.
Lemma example_free x : pa_free (mm_pg mm_example) x -> 1048576 <= x < 1310720.
Proof.
  destruct pg_example_load as [_ (_ & _ & _ & Hc)]. intros Hx. apply Hc in Hx.
  assert (1048576 <= load_min 1048576 1310720 /\ load_max 1310720 <= 1310720) by (split; vm_compute; discriminate). lia.
Qed.
Lemma example_tree : tree 0 4096 mm_example.
Proof.
  split.
  - intros m (va & d & Hd & E). apply example_node in E as [-> _]; [|done]. eexists. apply example_seen. lia.
  - intros va d va' d' m Hd Hd' E E'. apply example_node in E as [-> E1]; [|done]. apply example_node in E' as [Em E2]; [|done].
    assert (d = d') as -> by lia. split; [done|congruence].
  - intros va d m Hd E Hpr. apply example_node in E as [-> _]; [|lia]. rewrite example_ent in * by apply idx_range. case_decide; [|done].
    change L2_PROT with 103. lia.
  - exists 1. split; [exact (example_root 0)|]. exact (example_seen 1 ltac:(lia)).
Qed.
Lemma example_inv : mm_inv 0 4096 mm_example.
Proof.
  split; [apply pg_example_inv|apply example_tree|]. intros p [q ->] Hf. apply example_free in Hf.
  exists q. split_and!; [apply example_seen; lia| |by rewrite example_low by lia].
  intros (va & d & Hd & E). apply example_node in E as [E _]; [|done]. lia.
Qed.
Lemma example_spare x : 2 ^ 30 <= x < 2 ^ 40 -> ~ spare mm_example x.
Proof.
  intros Hx (p & Hf & E). apply example_free in Hf. rewrite !pfx_page in E.
  assert (2 ^ 18 <= x / 4096 < 2 ^ 28) by (split; [apply Z.div_le_lower_bound; lia|apply Z.div_lt_upper_bound; lia]).
  assert (0 <= p / 4096 < 2 ^ 10) by (split; [apply Z.div_pos; lia|apply Z.div_lt_upper_bound; lia]).
  rewrite !Z.mod_small in E by lia. lia.
Qed.
Lemma example_area : area_ok mm_example.
Proof.
  change (demand_map_area_start mm_example) with (2 ^ 30). split.
  - exists (2 ^ 18). done.
  - change (demand_map_area_start mm_example) with (2 ^ 30). change DEMAND_MAP_PAGES with (2 ^ 25). lia.
  - intros i Hi. apply example_spare. change (demand_map_area_start mm_example) with (2 ^ 30). change DEMAND_MAP_PAGES with (2 ^ 25) in Hi. lia.
Qed.
Lemma example_frames j : 0 <= j < 3 -> is_Some ([77; 78; 79] !! Z.to_nat (j * 1)) /\ frame_of_page [77; 78; 79] 1 0 j < 2 ^ 40.
Proof. intros Hj. assert (j = 0 \/ j = 1 \/ j = 2) as [-> | [-> | ->]] by lia; (split; [by eexists|done]). Qed.

Lemma example_accepts (mem : gmap Z Z) ptr v : 0 <= mmu_verdict mem DOMID_SELF ptr v.
Proof. discriminate. Qed.

Lemma map_frames_ex_roundtrip_witness : mm_inv 0 4096 mm_example /\
  wpx OUT_OF_PAGES (minios_map_frames_ex 0 4096 (Some [77; 78; 79]) 3 1 0 (2 ^ 1) 5 None L1_PROT) (fun r s' =>
    (r = (0, None) /\ s' = mm_example /\ no_run 0 4096 mm_example 3 1) \/
    (exists x, found 0 4096 mm_example 3 1 x /\ r = (area_page mm_example x, None) /\ mm_inv 0 4096 s' /\
       (forall i, 0 <= i < 3 -> mapping 0 4096 s' (area_page mm_example (x + i)) = Some (frame_of_page [77; 78; 79] 1 0 i * 4096 + L1_PROT)) /\
       (forall y, ~ spare mm_example y -> ~ inpages (area_page mm_example x) 3 y -> mapping 0 4096 s' y = mapping 0 4096 mm_example y) /\
       wp (unmap_frames 0 4096 (area_page mm_example x) 3) (fun rc s'' => rc = 0 /\ same_mappings 0 4096 mm_example s'') s')) mm_example.
Proof.
  split; [exact example_inv|].
  apply (map_frames_ex_roundtrip 0 4096 example_accepts [77; 78; 79] 3 1 0 1 5 L1_PROT mm_example).
  - exact example_inv.
  - exact example_area.
  - change DEMAND_MAP_PAGES with (2 ^ 25). lia.
  - lia.
  - split; [discriminate|reflexivity].
  - reflexivity.
  - exact example_frames.
  - intros. discriminate.
  - reflexivity.
  - reflexivity.
Defined.

Lemma map_frames_reports_witness :
  wpx OUT_OF_PAGES (minios_map_frames 0 4096 (2 ^ 30) (Some [77; 78; 79]) 3 1 0 7 (Some [1; 1; 1]) L1_PROT) (fun r s' =>
    mm_inv 0 4096 s' /\ exists rs, r = Some (rs ++ drop 3 [1; 1; 1]) /\ zlen rs = 3 /\
    (forall i x, rs !! Z.to_nat i = Some x -> 0 <= i ->
       (x = 0 /\ mapping 0 4096 s' (2 ^ 30 + i * 4096) = Some (frame_of_page [77; 78; 79] 1 0 i * 4096 + L1_PROT)) \/
       (x < 0 /\ mapping 0 4096 s' (2 ^ 30 + i * 4096) = mapping 0 4096 mm_example (2 ^ 30 + i * 4096))) /\
    (forall y, ~ spare mm_example y -> ~ inpages (2 ^ 30) 3 y -> mapping 0 4096 s' y = mapping 0 4096 mm_example y)) mm_example.
Proof.
  apply (map_frames_reports 0 4096 [77; 78; 79] 3 0 7 L1_PROT (2 ^ 30) [1; 1; 1] mm_example); [intros; discriminate| |exact example_inv].
  split; [lia|exists (2 ^ 18); reflexivity|lia|split; [split; [discriminate|reflexivity]|reflexivity]|exact example_frames|split; [reflexivity|cbn; lia]|].
  intros i Hi. apply example_spare. unfold at_page. lia.
Defined.
