(* ===== verification/Ioremap.v ===== *)
(** * Device memory of the Xen guest (platform/xen/xen/arch/x86/ioremap.c)

    A client of the page tables: a range of machine addresses that is not RAM is
    mapped somewhere in the demand area, byte for byte.  The domain that stands for
    device memory and the last frame of RAM are the hypervisor's. *)
From S2P Require Import Prelude Pgalloc PgallocInv PgallocThms PageIface PgallocSpec Paging PagingThms PagingOps PagingSpec.

Definition _PAGE_PCD : Z := 16.
Definition IO_PROT : Z := L1_PROT.
Definition IO_PROT_NOCACHE : Z := Z.lor L1_PROT _PAGE_PCD.

Section Ioremap.
Context {P : Type} `{PA : PageAllocator P} `{XM : XenMmu}.
Variables (VIRT_START pt_base DOMID_IO system_ram_end_mfn : Z).

(** An unsigned comparison: [system_ram_end_mfn] is a long. *)
Definition mfn_is_ram (mfn : Z) : bool := mfn <=? u64 system_ram_end_mfn.

(** The frames are checked one by one, [i] an int: true when one is RAM. *)
Definition ram_round (num_pages : Z) (l : Z * Z) : M (mm (P := P)) ((Z * Z) + bool) :=
  let '(i, mfn) := l in
  if negb (u64 i <? num_pages) then cret (inr false) else
  if mfn_is_ram mfn then cret (inr true) else cret (inl (s32 (i + 1), u64 (mfn + 1))).

Definition num_io_pages (offset size : Z) : Z := u64 (offset + size + PAGE_SIZE - 1) / PAGE_SIZE.
Definition __do_ioremap (phys_addr size prot : Z) : M (mm (P := P)) Z :=
  let offset := Z.land phys_addr (u64 (Z.lnot PAGE_MASK)) in
  let num_pages := num_io_pages offset size in
  let mfns := Z.shiftr (Z.land phys_addr PAGE_MASK) PAGE_SHIFT in
  ram <-- loopM (ram_round num_pages) (0, mfns) ;;
  if (ram : bool) then cret 0 else
  '(va, _) <-- minios_map_frames_ex VIRT_START pt_base (Some [mfns]) num_pages 0 1 1 DOMID_IO None prot ;;
  cret (u64 (va + offset)).
Definition minios_ioremap (phys_addr size : Z) : M (mm (P := P)) Z := __do_ioremap phys_addr size IO_PROT.
Definition minios_ioremap_nocache (phys_addr size : Z) : M (mm (P := P)) Z := __do_ioremap phys_addr size IO_PROT_NOCACHE.
Definition minios_iounmap (va size : Z) : M (mm (P := P)) Z :=
  unmap_frames VIRT_START pt_base (Z.land va PAGE_MASK) (num_io_pages (Z.land va (u64 (Z.lnot PAGE_MASK))) size).

(** ** Pages and offsets *)
Lemma land_offset x : 0 <= x < 2 ^ 64 -> Z.land x (u64 (Z.lnot PAGE_MASK)) = x mod 4096.
Proof. intros Hx. change (u64 (Z.lnot PAGE_MASK)) with (Z.ones 12). rewrite Z.land_ones by lia. done. Qed.
Lemma land_page x : 0 <= x < 2 ^ 64 -> Z.land x PAGE_MASK = x / 4096 * 4096.
Proof.
  intros Hx. rewrite (Z.div_mod x 4096) at 1 by lia. rewrite (Z.mul_comm 4096). apply page_mask; [|apply Z.mod_pos_bound; lia].
  split; [apply Z.div_pos; lia|apply Z.div_lt_upper_bound; lia].
Qed.
(** The pages of a range are those of its bytes, no more and no fewer. *)
Lemma num_io_pages_exact x size : 0 <= x -> 0 < size -> x + size <= 2 ^ 52 ->
  num_io_pages (x mod 4096) size = (x + size - 1) / 4096 - x / 4096 + 1.
Proof.
  intros Hx Hs He. unfold num_io_pages, PAGE_SIZE. pose proof (Z.mod_pos_bound x 4096 ltac:(lia)). rewrite u64_small by lia.
  rewrite (Z.div_mod x 4096) at 2 by lia. replace (4096 * (x / 4096) + x mod 4096 + size - 1) with (x mod 4096 + size - 1 + x / 4096 * 4096) by lia.
  rewrite Z.div_add by lia. replace (x mod 4096 + size + 4096 - 1) with (x mod 4096 + size - 1 + 1 * 4096) by lia. rewrite Z.div_add by lia. lia.
Qed.

Definition io_ram (phys size : Z) : Prop := exists b, 0 <= b < size /\ mfn_is_ram ((phys + b) / 4096) = true.
Lemma byte_page phys size b : 0 <= phys -> 0 <= b < size -> 0 <= (phys + b) / 4096 - phys / 4096 < (phys + size - 1) / 4096 - phys / 4096 + 1.
Proof.
  intros Hp Hb. assert (phys / 4096 <= (phys + b) / 4096) by (apply Z.div_le_mono; lia).
  assert ((phys + b) / 4096 <= (phys + size - 1) / 4096) by (apply Z.div_le_mono; lia). lia.
Qed.
Lemma page_byte phys size i : 0 <= phys -> 0 < size -> 0 <= i < (phys + size - 1) / 4096 - phys / 4096 + 1 ->
  exists b, 0 <= b < size /\ (phys + b) / 4096 = phys / 4096 + i.
Proof.
  intros Hp Hs Hi. destruct (Z.eq_dec i 0) as [->|Hn]; [exists 0; by rewrite !Z.add_0_r|].
  exists ((phys / 4096 + i) * 4096 - phys). pose proof (Z.div_mod phys 4096 ltac:(lia)). pose proof (Z.mod_pos_bound phys 4096 ltac:(lia)).
  pose proof (Z.div_mod (phys + size - 1) 4096 ltac:(lia)). pose proof (Z.mod_pos_bound (phys + size - 1) 4096 ltac:(lia)).
  split; [lia|]. replace (phys + ((phys / 4096 + i) * 4096 - phys)) with ((phys / 4096 + i) * 4096) by lia. by rewrite Z.div_mul.
Qed.

Lemma wp_ram_check phys n s : 0 <= phys < 2 ^ 52 -> 0 <= n < 2 ^ 31 ->
  wp (loopM (ram_round n) (0, phys / 4096)) (fun r s' => s' = s /\
    ((r = true /\ exists i, 0 <= i < n /\ mfn_is_ram (phys / 4096 + i) = true) \/
     (r = false /\ forall i, 0 <= i < n -> mfn_is_ram (phys / 4096 + i) = false))) s.
Proof.
  intros Hp Hn. assert (Hm : 0 <= phys / 4096 < 2 ^ 40) by (split; [apply Z.div_pos; lia|apply Z.div_lt_upper_bound; lia]).
  eapply (wp_loop_variant _ (fun l s' k => exists i, l = (i, phys / 4096 + i) /\ 0 <= i <= n /\ k = n - i /\ s' = s /\
    forall j, 0 <= j < i -> mfn_is_ram (phys / 4096 + j) = false)).
  2: { exists 0. rewrite Z.add_0_r. split_and!; try done; lia. }
  2: lia.
  intros l s' k (i & -> & Hi & -> & -> & Hok). split; [lia|]. unfold ram_round. rewrite u64_small by lia.
  destruct (Z.ltb_spec i n); cbn [negb]; [|apply wp_ret; cbn; split; [done|right; split; [done|intros; apply Hok; lia]]].
  destruct (mfn_is_ram (phys / 4096 + i)) eqn:E; apply wp_ret; cbn.
  - split; [done|]. left. split; [done|]. exists i. split; [lia|done].
  - exists (n - (i + 1)). split; [|lia]. exists (i + 1). unfold s32, swrap. rewrite u64_small by lia. change (2 ^ (32 - 1)) with (2 ^ 31).
    rewrite Z.mod_small by lia. split_and!; [f_equal; lia|lia|lia|lia|done|].
    intros j Hj. destruct (Z.eq_dec j i) as [->|]; [done|]. apply Hok. lia.
Qed.

(** ** The mapping *)
Context {XL : XenMmuLaws}.
Hypothesis Hself : forall mem ptr v, 0 <= mmu_verdict mem DOMID_SELF ptr v.
Definition io_pages (phys size : Z) : Z := (phys + size - 1) / 4096 - phys / 4096 + 1.
Record io_args (phys size : Z) (s : mm (P := P)) : Prop := {
  ia_inv : mm_inv VIRT_START pt_base s;
  ia_area : area_ok s;
  ia_range : 0 <= phys /\ 0 < size /\ phys + size <= 2 ^ 52;
  ia_room : io_pages phys size <= DEMAND_MAP_PAGES
}.
Record io_prot (prot : Z) : Prop := { ip_low : 0 <= prot < 4096; ip_present : present prot = true }.
(** Byte [b] of the range is the byte at [va + b], with the protection [prot]. *)
Definition io_bytes (phys size prot va : Z) (s' : mm (P := P)) : Prop := forall b, 0 <= b < size ->
  exists e, mapping VIRT_START pt_base s' (va + b) = Some e /\ pte_to_mfn e * 4096 + (va + b) mod 4096 = phys + b /\ e mod 4096 = prot.
Definition io_page_of (va size y : Z) : Prop := exists b, 0 <= b < size /\ pfx 4 y = pfx 4 (va + b).

Lemma area_byte (s : mm (P := P)) phys x b : (4096 | demand_map_area_start s) -> 0 <= phys -> 0 <= b ->
  let va := area_page s x + phys mod 4096 in let i := (phys + b) / 4096 - phys / 4096 in
  (va + b) mod 4096 = (phys + b) mod 4096 /\ pfx 4 (va + b) = pfx 4 (area_page s (x + i)).
Proof.
  intros [q Hq] Hp Hb va i. unfold va, area_page. rewrite Hq. pose proof (Z.div_mod phys 4096 ltac:(lia)) as E.
  replace (q * 4096 + x * 4096 + phys mod 4096 + b) with (phys + b + (q + x - phys / 4096) * 4096) by lia. rewrite Z.mod_add by lia.
  split; [done|]. rewrite !pfx_page, Z.div_add by lia. rewrite <- Z.mul_add_distr_r, Z.div_mul by lia. f_equal. unfold i. lia.
Qed.
Lemma io_frame phys i : 0 <= phys -> phys / 4096 + i < 2 ^ 40 -> 0 <= i -> frame_of_page [phys / 4096] 0 1 i = phys / 4096 + i.
Proof.
  intros Hp Hi H0. assert (0 <= phys / 4096) by (apply Z.div_pos; lia). unfold frame_of_page. rewrite Z.mul_0_r, Z.mul_1_r. apply u64_small. cbn [default]. lia.
Qed.
Lemma io_last phys size i : 0 <= phys -> 0 < size -> phys + size <= 2 ^ 52 -> i < io_pages phys size -> phys / 4096 + i < 2 ^ 40.
Proof. intros Hp Hs He Hi. unfold io_pages in Hi. assert ((phys + size - 1) / 4096 < 2 ^ 40) by (apply Z.div_lt_upper_bound; lia). lia. Qed.
Lemma io_no_ram phys size : 0 <= phys -> 0 < size -> (forall i, 0 <= i < io_pages phys size -> mfn_is_ram (phys / 4096 + i) = false) -> ~ io_ram phys size.
Proof.
  intros Hp Hs H (b & Hb & Hr). pose proof (byte_page phys size b Hp Hb). specialize (H ((phys + b) / 4096 - phys / 4096) ltac:(unfold io_pages; lia)).
  replace (phys / 4096 + ((phys + b) / 4096 - phys / 4096)) with ((phys + b) / 4096) in H by lia. congruence.
Qed.

Lemma io_bytes_mapped s phys size prot x s' : io_args phys size s -> io_prot prot ->
  mapped_at VIRT_START pt_base s x (io_pages phys size) (frame_of_page [phys / 4096] 0 1) prot s' ->
  io_bytes phys size prot (area_page s x + phys mod 4096) s'.
Proof.
  intros [I A (Hp & Hs & He) Hr] [Hl Hpr] Hm b Hb. pose proof (byte_page phys size b Hp Hb) as Hi.
  destruct (area_byte s phys x b) as [Em Ep]; [apply A|lia|lia|]. cbn zeta in *. set (i := (phys + b) / 4096 - phys / 4096) in *.
  pose proof (io_last phys size i Hp Hs He (proj2 Hi)) as Hlast. pose proof (Z.div_pos phys 4096 Hp ltac:(lia)).
  exists ((phys / 4096 + i) * 4096 + prot). rewrite (mapping_page _ _ _ _ _ Ep), (ma_pages _ _ _ _ _ _ _ _ Hm i Hi), io_frame by lia. split; [done|].
  rewrite entry_mfn, Em by lia. pose proof (Z.div_mod (phys + b) 4096 ltac:(lia)). split; [unfold i; lia|].
  rewrite Z.add_comm, Z.mod_add, Z.mod_small by lia. done.
Qed.
Lemma io_other_mapped s phys size prot x s' y : io_args phys size s ->
  mapped_at VIRT_START pt_base s x (io_pages phys size) (frame_of_page [phys / 4096] 0 1) prot s' ->
  ~ spare s y -> ~ io_page_of (area_page s x + phys mod 4096) size y -> mapping VIRT_START pt_base s' y = mapping VIRT_START pt_base s y.
Proof.
  intros [I A (Hp & Hs & He) Hr] Hm Hsp Hy. apply (ma_other _ _ _ _ _ _ _ _ Hm); [done|]. intros (i & Hi & E). apply Hy.
  destruct (page_byte phys size i Hp Hs Hi) as (b & Hb & Eb). exists b. split; [done|].
  destruct (area_byte s phys x b) as [_ Ep]; [apply A|lia|lia|]. cbn zeta in *. rewrite Ep, E, Eb. f_equal. unfold area_page. lia.
Qed.

Lemma wp_do_ioremap phys size prot s : io_args phys size s -> io_prot prot -> (forall mem ptr v, 0 <= mmu_verdict mem DOMID_IO ptr v) ->
  wpx OUT_OF_PAGES (__do_ioremap phys size prot) (fun va s' =>
    (va = 0 /\ s' = s /\ io_ram phys size) \/
    (~ io_ram phys size /\ ((va = phys mod 4096 /\ s' = s /\ no_run VIRT_START pt_base s (io_pages phys size) 0) \/
     exists x, found VIRT_START pt_base s (io_pages phys size) 0 x /\ va = area_page s x + phys mod 4096 /\
       mapped_at VIRT_START pt_base s x (io_pages phys size) (frame_of_page [phys / 4096] 0 1) prot s'))) s.
Proof using Hself XL.
  intros [I A (Hp & Hs & He) Hr] [Hl Hpr] Hio. pose proof demand_pages as HD. unfold __do_ioremap. rewrite land_offset by lia.
  rewrite num_io_pages_exact by lia. fold (io_pages phys size). rewrite land_page by lia.
  unfold PAGE_SHIFT. rewrite Z.shiftr_div_pow2 by lia. change (2 ^ 12) with 4096. rewrite Z.div_mul by lia.
  assert (Hn : 0 < io_pages phys size) by (pose proof (byte_page phys size 0 Hp ltac:(lia)); unfold io_pages; lia).
  apply wpx_bind, wpx_wp. eapply wp_mono; [apply (wp_ram_check phys (io_pages phys size) s); lia|]. intros ram s1 [-> [[-> (i & Hi & Er)]|[-> Hram]]].
  { apply wpx_wp, wp_ret. left. split_and!; try done. destruct (page_byte phys size i Hp Hs Hi) as (b & Hb & Eb). exists b. by rewrite Eb. }
  apply wpx_bind. eapply wpx_mono; [apply (wp_map_frames_ex VIRT_START pt_base Hself [phys / 4096] (io_pages phys size) 0 1 0 DOMID_IO prot s)|]; try done; try lia.
  { intros j Hj. rewrite io_frame by (try lia; by apply (io_last phys size); lia). split; [by rewrite Z.mul_0_r; eexists|by apply (io_last phys size); lia]. }
  pose proof (Z.mod_pos_bound phys 4096 ltac:(lia)). pose proof (io_no_ram phys size Hp Hs Hram) as Hno.
  intros r s' [(-> & -> & Hrun)|(x & Hf & -> & Hm)]; apply wpx_wp, wp_ret; right; (split; [done|]).
  - left. rewrite Z.add_0_l, u64_small by lia. done.
  - right. exists x. split; [done|]. split; [|done]. destruct A as [_ Ar _]. destruct Hf as (Hx & Hxn & _). unfold area_page. rewrite u64_small; lia.
Qed.

Lemma wp_iounmap phys size prot s x s' : io_args phys size s -> found VIRT_START pt_base s (io_pages phys size) 0 x ->
  mapped_at VIRT_START pt_base s x (io_pages phys size) (frame_of_page [phys / 4096] 0 1) prot s' ->
  (forall mem x v, va_verdict mem x v = 0) -> (forall mem k, multicall_verdict mem k = 0) ->
  wp (minios_iounmap (area_page s x + phys mod 4096) size) (fun rc s'' => rc = 0 /\ same_mappings VIRT_START pt_base s s'') s'.
Proof using XL.
  intros [I A (Hp & Hs & He) Hr] Hf Hm Hvv Hmc. pose proof (Z.mod_pos_bound phys 4096 ltac:(lia)) as Ho. destruct Hf as (Hx & Hxn & Hxa) eqn:Ef. clear Ef.
  destruct (ao_range _ A) as [Ha1 Ha2]. destruct (ao_aligned _ A) as [q Hq]. pose proof demand_pages as HD.
  assert (Hn : 0 < io_pages phys size) by (pose proof (byte_page phys size 0 Hp ltac:(lia)); unfold io_pages; lia).
  assert (Eva : area_page s x + phys mod 4096 = (q + x) * 4096 + phys mod 4096) by (unfold area_page; lia).
  assert (Hva : 0 <= area_page s x + phys mod 4096 < 2 ^ 64) by (unfold area_page in *; lia).
  unfold minios_iounmap. rewrite land_offset, land_page by done. rewrite Eva, Z.add_comm, Z.mod_add, (Z.mod_small (phys mod 4096)) by lia.
  rewrite num_io_pages_exact by lia. fold (io_pages phys size). rewrite Z.div_add, (Z.div_small (phys mod 4096)), Z.add_0_l by lia.
  replace ((q + x) * 4096) with (area_page s x) by (unfold area_page; lia).
  by eapply (wp_unmap_back VIRT_START pt_base s (io_pages phys size) 0 x).
Qed.
End Ioremap.

(** C30. minios_ioremap and minios_ioremap_nocache of a range of machine addresses: unless
    pages for tables run out the call returns.  It answers NULL and changes nothing when
    some byte of the range is in RAM; when the demand area has no room it changes nothing
    and answers the offset of the range in its page, which is NULL only for an aligned
    range; otherwise every byte of the range is reached at the same distance from the
    address returned, with the protection asked for, no page without a byte of the range
    changes (the allocator's own apart), and minios_iounmap of the same range takes it all back. *)
Theorem ioremap_range {P : Type} {PA : PageAllocator P} {XM : XenMmu} {XL : XenMmuLaws} VIRT_START pt_base DOMID_IO ram_end
    (nocache : bool) phys size (s : mm (P := P)) :
  (forall mem ptr v, 0 <= mmu_verdict mem DOMID_SELF ptr v) -> (forall mem ptr v, 0 <= mmu_verdict mem DOMID_IO ptr v) ->
  (forall mem x v, va_verdict mem x v = 0) -> (forall mem k, multicall_verdict mem k = 0) ->
  io_args VIRT_START pt_base phys size s ->
  wpx OUT_OF_PAGES ((if nocache then minios_ioremap_nocache else minios_ioremap) VIRT_START pt_base DOMID_IO ram_end phys size) (fun va s' =>
    (va = 0 /\ s' = s /\ io_ram ram_end phys size) \/
    (~ io_ram ram_end phys size /\
     ((va = phys mod 4096 /\ s' = s /\ no_run VIRT_START pt_base s (io_pages phys size) 0) \/
      (io_bytes VIRT_START pt_base phys size (if nocache then IO_PROT_NOCACHE else IO_PROT) va s' /\
       (forall y, ~ spare s y -> ~ io_page_of va size y -> mapping VIRT_START pt_base s' y = mapping VIRT_START pt_base s y) /\
       wp (minios_iounmap VIRT_START pt_base va size) (fun rc s'' => rc = 0 /\ same_mappings VIRT_START pt_base s s'') s')))) s.
Proof.
  intros Hself Hio Hvv Hmc Ha. set (prot := if nocache then IO_PROT_NOCACHE else IO_PROT). assert (Hprot : io_prot prot) by (unfold prot; destruct nocache; by split).
  replace ((if nocache then minios_ioremap_nocache else minios_ioremap) VIRT_START pt_base DOMID_IO ram_end phys size)
    with (__do_ioremap VIRT_START pt_base DOMID_IO ram_end phys size prot) by (by destruct nocache).
  eapply wpx_mono; [by apply wp_do_ioremap|]. intros va s' [?|(Hno & [?|(x & Hf & -> & Hm)])]; [by left|right; split; [done|by left]|].
  right. split; [done|]. right. split_and!; [by eapply io_bytes_mapped|by eauto using io_other_mapped|by eapply wp_iounmap].
Qed.

#[local] Existing Instances example_mmu example_mmu_laws.
Lemma ioremap_range_witness :
  wpx OUT_OF_PAGES (minios_ioremap_nocache 0 4096 6 512 4276092936 100 ) (fun va s' =>
    (va = 0 /\ s' = mm_example /\ io_ram 512 4276092936 100) \/
    (~ io_ram 512 4276092936 100 /\
     ((va = 4276092936 mod 4096 /\ s' = mm_example /\ no_run 0 4096 mm_example (io_pages 4276092936 100) 0) \/
      (io_bytes 0 4096 4276092936 100 IO_PROT_NOCACHE va s' /\
       (forall y, ~ spare mm_example y -> ~ io_page_of va 100 y -> mapping 0 4096 s' y = mapping 0 4096 mm_example y) /\
       wp (minios_iounmap 0 4096 va 100) (fun rc s'' => rc = 0 /\ same_mappings 0 4096 mm_example s'') s')))) mm_example.
Proof.
  apply (ioremap_range 0 4096 6 512 true 4276092936 100 mm_example); [exact example_accepts|intros; discriminate|reflexivity..|].
  split; [exact example_inv|exact example_area|lia|change DEMAND_MAP_PAGES with (2 ^ 25); vm_compute; discriminate].
Defined.
