(* ===== verification/Evtdev.v ===== *)
(** * The event channel device (platform/xen/librumpxen_xendev/evtdev.c)

    Programs open /dev/xenevt, bind event channels to it and read the numbers of the
    ports that fired.  The interrupt side stores them in a ring of the driver, a
    thread moves each to the ring of the device it belongs to, and reads empty that.
    The event channels themselves are those of [Events] (platform/xen/xen/events.c is
    the same code); a handler that [Events] records as called is run when the call of
    the event channel layer returns.  Devices are numbered; a closed one is gone. *)
From S2P Require Import Prelude Events.

Definition EVTDEV_RING_SIZE : Z := 2048.
Definition EVTDEV_RING_MASK : Z := 2047.
Definition BYTES_PER_PORT : Z := 4.
Definition EVTDEV_F_OVERFLOW : Z := 1.
(** NetBSD's error numbers and poll bits. *)
Definition EINVAL : Z := 22.
Definition EFBIG : Z := 27.
Definition EAGAIN : Z := 35.
Definition EMSGSIZE : Z := 40.
Definition ENOTCONN : Z := 57.
Definition POLLIN : Z := 1.
Definition POLLOUT : Z := 4.
Definition POLLRDNORM : Z := 64.
Definition POLLWRNORM : Z := POLLOUT.
Definition WBITS : Z := Z.lor POLLOUT POLLWRNORM.
Definition RBITS : Z := Z.lor POLLIN POLLRDNORM.

Record xenevt_dev_data := Dev { ring : list Z; ring_cons : Z; ring_prod : Z; dflags : Z; d_lock : bool }.
Definition set_ring v d := Dev v (ring_cons d) (ring_prod d) (dflags d) (d_lock d).
Definition set_rcons v d := Dev (ring d) v (ring_prod d) (dflags d) (d_lock d).
Definition set_rprod v d := Dev (ring d) (ring_cons d) v (dflags d) (d_lock d).
Definition set_dflags v d := Dev (ring d) (ring_cons d) (ring_prod d) v (d_lock d).
Definition set_dlock v d := Dev (ring d) (ring_cons d) (ring_prod d) (dflags d) v.

(** What a sleeping reader may be woken by: ports put on its ring, or a signal. *)
Inductive wake := WakePorts (l : list Z) | WakeSignal (err : Z).

Section Evtdev.
Context {H : Type}.
Variable hv_op : evop -> H -> (Z * Z) * H.
(** Xen's number of event channels, and the address of minios_evtdev_handler. *)
Variables (NR_EVENT_CHANNELS evtdev_handler : Z).

Record evd := Evd {
  xenevt_ring : list Z;
  xenevt_ring_prod : Z;
  xenevt_ring_cons : Z;
  thread_prod : Z;                      (* prod of xenevt_thread_func *)
  devs : gmap Z xenevt_dev_data;
  devevents : gmap Z Z;                 (* the devices of the ports that have one *)
  devevent_lock : bool;
  used_after_free : list Z;
  wakes : list wake;
  ev : evst (H := H)
}.
Definition set_xring v s := Evd v (xenevt_ring_prod s) (xenevt_ring_cons s) (thread_prod s) (devs s) (devevents s) (devevent_lock s) (used_after_free s) (wakes s) (ev s).
Definition set_xprod v s := Evd (xenevt_ring s) v (xenevt_ring_cons s) (thread_prod s) (devs s) (devevents s) (devevent_lock s) (used_after_free s) (wakes s) (ev s).
Definition set_xcons v s := Evd (xenevt_ring s) (xenevt_ring_prod s) v (thread_prod s) (devs s) (devevents s) (devevent_lock s) (used_after_free s) (wakes s) (ev s).
Definition set_tprod v s := Evd (xenevt_ring s) (xenevt_ring_prod s) (xenevt_ring_cons s) v (devs s) (devevents s) (devevent_lock s) (used_after_free s) (wakes s) (ev s).
Definition set_devs v s := Evd (xenevt_ring s) (xenevt_ring_prod s) (xenevt_ring_cons s) (thread_prod s) v (devevents s) (devevent_lock s) (used_after_free s) (wakes s) (ev s).
Definition set_devevents v s := Evd (xenevt_ring s) (xenevt_ring_prod s) (xenevt_ring_cons s) (thread_prod s) (devs s) v (devevent_lock s) (used_after_free s) (wakes s) (ev s).
Definition set_delock v s := Evd (xenevt_ring s) (xenevt_ring_prod s) (xenevt_ring_cons s) (thread_prod s) (devs s) (devevents s) v (used_after_free s) (wakes s) (ev s).
Definition add_uaf v s := Evd (xenevt_ring s) (xenevt_ring_prod s) (xenevt_ring_cons s) (thread_prod s) (devs s) (devevents s) (devevent_lock s) (used_after_free s ++ [v]) (wakes s) (ev s).
Definition set_wakes v s := Evd (xenevt_ring s) (xenevt_ring_prod s) (xenevt_ring_cons s) (thread_prod s) (devs s) (devevents s) (devevent_lock s) (used_after_free s) v (ev s).
Definition set_ev v s := Evd (xenevt_ring s) (xenevt_ring_prod s) (xenevt_ring_cons s) (thread_prod s) (devs s) (devevents s) (devevent_lock s) (used_after_free s) (wakes s) v.

(** ** Devices and locks *)
Definition dev_get (d : Z) : M evd xenevt_dev_data := s <-- mget ;; mopt (devs s !! d) "struct xenevt_dev_data".
Definition dev_put (d : Z) (v : xenevt_dev_data) : M evd unit := modify (fun s => set_devs (<[d := v]> (devs s)) s).
Definition dev_enter (d : Z) : M evd unit := v <-- dev_get d ;; if d_lock v then mnofuel else dev_put d (set_dlock true v).
Definition dev_exit (d : Z) : M evd unit := v <-- dev_get d ;; dev_put d (set_dlock false v).
Definition devevent_enter : M evd unit := s <-- mget ;; if devevent_lock s then mnofuel else modify (set_delock true).
Definition devevent_exit : M evd unit := modify (set_delock false).
Definition devevents_get (port : Z) : M evd (option Z) :=
  massert (port <? NR_EVENT_CHANNELS) "devevents index" ;;; gets (fun s => devevents s !! port).

(** ** The rings *)
Definition queue (d port : Z) : M evd unit :=
  v <-- dev_get d ;;
  massert (d_lock v) "KASSERT(mutex_owned(&d->lock))" ;;;
  if ring_cons v =? Z.land (u32 (ring_prod v + 1)) EVTDEV_RING_MASK then
    dev_put d (set_dflags (Z.lor (dflags v) EVTDEV_F_OVERFLOW) v)
  else
    massert (ring_prod v <? zlen (ring v)) "d->ring index" ;;;
    dev_put d (set_rprod (Z.land (u32 (ring_prod v + 1)) EVTDEV_RING_MASK) (set_ring (<[Z.to_nat (ring_prod v) := port]> (ring v)) v)).

Definition rump_evtdev_callback (port : Z) : M evd unit :=
  s <-- mget ;;
  if xenevt_ring_cons s =? Z.land (u32 (xenevt_ring_prod s + 1)) EVTDEV_RING_MASK then cret tt
  else
    massert (xenevt_ring_prod s <? zlen (xenevt_ring s)) "xenevt_ring index" ;;;
    modify (set_xring (<[Z.to_nat (xenevt_ring_prod s) := port]> (xenevt_ring s))) ;;;
    modify (set_xprod (Z.land (u32 (xenevt_ring_prod s + 1)) EVTDEV_RING_MASK)).

(** ** Event channels *)
Definition minios_evtdev_handler (port : Z) : M evd unit :=
  zoom ev set_ev (minios_mask_evtchn port) ;;; rump_evtdev_callback port.
(** A call of the event channel layer, and the handlers it called. *)
Definition in_ev {A} (m : M evst A) : M evd A :=
  before <-- gets (fun s => length (ev_calls (ev s))) ;;
  r <-- zoom ev set_ev m ;;
  calls <-- gets (fun s => drop before (ev_calls (ev s))) ;;
  mfor (fun c : Z * Z * Z => if c.1.1 =? evtdev_handler then minios_evtdev_handler c.1.2 else cret tt) calls ;;;
  cret r.

(** A port of the driver's ring goes to its device. *)
Definition deliver_port (port : Z) : M evd unit :=
  massert (port <? NR_EVENT_CHANNELS) "KASSERT(port < NR_EVENT_CHANNELS)" ;;;
  devevent_enter ;;;
  d <-- devevents_get port ;;
  d <-- mopt d "KASSERT(d)" ;;
  dev_enter d ;;;
  queue d port ;;;
  dev_exit d ;;;
  devevent_exit.
Definition thread_round (prod cons : Z) : M evd (Z + Z) :=
  if cons =? prod then cret (inr cons) else
  port <-- (s <-- mget ;; mopt (xenevt_ring s !! Z.to_nat cons) "xenevt_ring index") ;;
  deliver_port port ;;;
  cret (inl (u32 (cons + 1))).
(** One turn of the loop of xenevt_thread_func, once the wait is over. *)
Definition xenevt_thread_turn : M evd unit :=
  s <-- mget ;;
  if xenevt_ring_prod s =? thread_prod s then mnofuel else
  modify (set_tprod (xenevt_ring_prod s)) ;;;
  cons <-- loopM (thread_round (xenevt_ring_prod s)) (xenevt_ring_cons s) ;;
  modify (set_xcons cons).

(** ** Writing: ports to unmask

    The bytes of the write; [fault] is what uiomove answers. *)
Definition chan (bytes : list Z) (i : Z) : Z := default 0 (bytes !! Z.to_nat (2 * i)) + 256 * default 0 (bytes !! Z.to_nat (2 * i + 1)).
Definition write_chan (d : Z) (bytes : list Z) (i : Z) : M evd unit :=
  let c := chan bytes i in
  if c <? NR_EVENT_CHANNELS then
    o <-- devevents_get c ;;
    if bool_decide (o = Some d) then in_ev (minios_unmask_evtchn c) else cret tt
  else cret tt.
Definition xenevt_dev_write (d : Z) (bytes : list Z) (fault : Z) : M evd Z :=
  let resid := zlen bytes in
  if resid =? 0 then cret 0 else
  let nentries := resid / 2 in
  if NR_EVENT_CHANNELS <? nentries then cret EMSGSIZE else
  let size := nentries * 2 in
  massert (resid <=? size) "uiomove past chans" ;;;
  if negb (fault =? 0) then cret fault else
  devevent_enter ;;;
  mfor (write_chan d bytes) (seqZ 0 nentries) ;;;
  devevent_exit ;;;
  cret 0.

(** ** Reading *)
Record uio := Uio { uio_resid : Z; uio_out : list Z; uio_faults : list Z }.
(** uiomove of [len] ports of [ring] from [cons]: what the copy answers is the next of
    [uio_faults] (0 when they are used up). *)
Definition move_ports (d cons len : Z) (u : uio) : M evd (Z * uio) :=
  v <-- dev_get d ;;
  massert (cons + len <=? zlen (ring v)) "uiomove past d->ring" ;;;
  match uio_faults u with
  | e :: l => if negb (e =? 0) then cret (e, Uio (uio_resid u) (uio_out u) l)
              else cret (0, Uio (uio_resid u - len * BYTES_PER_PORT) (uio_out u ++ take (Z.to_nat len) (drop (Z.to_nat cons) (ring v))) l)
  | [] => cret (0, Uio (uio_resid u - len * BYTES_PER_PORT) (uio_out u ++ take (Z.to_nat len) (drop (Z.to_nat cons) (ring v))) [])
  end.
(** cv_wait_sig: without the lock, whatever comes; it takes the lock again. *)
Definition cv_wait_sig (d : Z) : M evd Z :=
  dev_exit d ;;;
  w <-- (s <-- mget ;; match wakes s with [] => mnofuel | w :: l => modify (set_wakes l) ;;; cret w end) ;;
  match w with
  | WakePorts l => dev_enter d ;;; mfor (queue d) l ;;; cret 0
  | WakeSignal e => dev_enter d ;;; cret e
  end.
Definition read_wait (d : Z) (nonblock : bool) (err : Z) : M evd (Z + Z) :=
  if negb (err =? 0) then cret (inr err) else
  v <-- dev_get d ;;
  if negb (ring_cons v =? ring_prod v) then cret (inr 0) else
  if negb (Z.land (dflags v) EVTDEV_F_OVERFLOW =? 0) then cret (inr 0) else
  if negb nonblock then e <-- cv_wait_sig d ;; cret (inl e) else cret (inl EAGAIN).
(** The two copies: an error, or the ring's new start. *)
Definition read_copy (d : Z) (u : uio) : M evd (Z * uio) :=
  v <-- dev_get d ;;
  let cons := ring_cons v in let prod := ring_prod v in
  let uio_len := uio_resid u / BYTES_PER_PORT in
  let len := if cons <=? prod then u32 (prod - cons) else u32 (EVTDEV_RING_SIZE - cons) in
  let len := if uio_len <? len then uio_len else len in
  '(err, u) <-- move_ports d cons len u ;;
  if negb (err =? 0) then cret (err, u) else
  let cons := Z.land (u32 (cons + len)) EVTDEV_RING_MASK in
  let uio_len := uio_resid u / BYTES_PER_PORT in
  if uio_len =? 0 then dev_put d (set_rcons cons v) ;;; cret (0, u) else
  let len := u32 (prod - cons) in
  let len := if uio_len <? len then uio_len else len in
  '(err, u) <-- move_ports d cons len u ;;
  if negb (err =? 0) then cret (err, u) else
  dev_put d (set_rcons (Z.land (u32 (cons + len)) EVTDEV_RING_MASK) v) ;;; cret (0, u).
Definition xenevt_dev_read (d : Z) (nonblock : bool) (u : uio) : M evd (Z * uio) :=
  dev_enter d ;;;
  err <-- loopM (read_wait d nonblock) 0 ;;
  v <-- dev_get d ;;
  let err := if (err =? 0) && negb (Z.land (dflags v) EVTDEV_F_OVERFLOW =? 0) then EFBIG else err in
  if negb (err =? 0) then dev_exit d ;;; cret (err, u) else
  r <-- read_copy d u ;;
  dev_exit d ;;; cret r.

(** What poll answers, and whether it records the caller to be told later. *)
Definition xenevt_dev_poll (d events : Z) : M evd (Z * bool) :=
  dev_enter d ;;;
  v <-- dev_get d ;;
  let revents := Z.land events WBITS in
  let revents := if negb (Z.land events RBITS =? 0) && negb (ring_prod v =? ring_cons v) then Z.lor revents (Z.land events RBITS) else revents in
  dev_exit d ;;;
  cret (revents, (revents =? 0) && negb (Z.land events RBITS =? 0)).

(** ** Control *)
Inductive evtchn_ioctl :=
| IOCTL_EVTCHN_RESET
| IOCTL_EVTCHN_BIND_VIRQ (virq : Z)
| IOCTL_EVTCHN_BIND_INTERDOMAIN (remote_domain remote_port : Z)
| IOCTL_EVTCHN_BIND_UNBOUND_PORT (remote_domain : Z)
| IOCTL_EVTCHN_UNBIND (port : Z)
| IOCTL_EVTCHN_NOTIFY (port : Z)
| IOCTL_other.

(** The three ways to bind differ in the hypercall only. *)
Definition bind_ioctl (d : Z) (op : evop) : M evd (Z * option Z) :=
  '(err, port) <-- in_ev (HYPERVISOR_event_channel_op hv_op op) ;;
  if negb (err =? 0) then cret (- err, None) else
  devevent_enter ;;;
  o <-- devevents_get port ;;
  massert (bool_decide (o = None)) "KASSERT(devevents[port] == NULL)" ;;;
  modify (fun s => set_devevents (<[port := d]> (devevents s)) s) ;;;
  devevent_exit ;;;
  in_ev (minios_bind_evtchn port evtdev_handler d) ;;;
  in_ev (minios_unmask_evtchn port) ;;;
  cret (0, Some port).
Definition xenevt_dev_ioctl (d : Z) (cmd : evtchn_ioctl) : M evd (Z * option Z) :=
  match cmd with
  | IOCTL_EVTCHN_RESET =>
      dev_enter d ;;;
      v <-- dev_get d ;; dev_put d (set_dflags 0 (set_rprod 0 (set_rcons 0 v))) ;;;
      dev_exit d ;;; cret (0, None)
  | IOCTL_EVTCHN_BIND_VIRQ virq => bind_ioctl d (EVTCHNOP_bind_virq virq 0)
  | IOCTL_EVTCHN_BIND_INTERDOMAIN dom port => bind_ioctl d (EVTCHNOP_bind_interdomain dom port)
  | IOCTL_EVTCHN_BIND_UNBOUND_PORT dom => bind_ioctl d (EVTCHNOP_alloc_unbound dom)
  | IOCTL_EVTCHN_UNBIND port =>
      if NR_EVENT_CHANNELS <=? port then cret (EINVAL, None) else
      devevent_enter ;;;
      o <-- devevents_get port ;;
      if negb (bool_decide (o = Some d)) then devevent_exit ;;; cret (ENOTCONN, None) else
      modify (fun s => set_devevents (delete port (devevents s)) s) ;;;
      devevent_exit ;;;
      in_ev (minios_mask_evtchn port) ;;;
      in_ev (minios_unbind_evtchn hv_op port) ;;;
      cret (0, None)
  | IOCTL_EVTCHN_NOTIFY port =>
      if NR_EVENT_CHANNELS <=? port then cret (EINVAL, None) else
      devevent_enter ;;;
      o <-- devevents_get port ;;
      if negb (bool_decide (o = Some d)) then devevent_exit ;;; cret (ENOTCONN, None) else
      in_ev (HYPERVISOR_event_channel_op hv_op (EVTCHNOP_send port)) ;;;
      devevent_exit ;;; cret (0, None)
  | IOCTL_other => cret (EINVAL, None)
  end.

(** ** Opening and closing *)
Definition xenevt_dev_open (d : Z) : M evd unit :=
  s <-- mget ;;
  massert (bool_decide (devs s !! d = None)) "a device that is open" ;;;
  dev_put d (Dev (replicate (Z.to_nat EVTDEV_RING_SIZE) 0) 0 0 0 false).
Definition close_port (d i : Z) : M evd unit :=
  o <-- devevents_get i ;;
  if bool_decide (o = Some d) then
    in_ev (minios_unbind_evtchn hv_op i) ;;;
    modify (fun s => set_devevents (delete i (devevents s)) s)
  else cret tt.
(** kmem_free comes before cv_destroy, which is given a field of what was freed. *)
Definition xenevt_dev_close (d : Z) : M evd Z :=
  devevent_enter ;;;
  dev_enter d ;;;
  mfor (close_port d) (seqZ 0 NR_EVENT_CHANNELS) ;;;
  dev_exit d ;;;
  devevent_exit ;;;
  modify (fun s => set_devs (delete d (devs s)) s) ;;;
  modify (fun s => match devs s !! d with None => add_uaf d s | Some _ => s end) ;;;
  cret 0.
End Evtdev.
