(* ===== verification/EvtdevThms.v ===== *)
(** * The event channel device: its rings, and reading *)
From S2P Require Import Prelude Events Evtdev.

(** ** A ring as a queue *)
Definition ring_q (r : list Z) (c p : Z) : list Z :=
  if c <=? p then take (Z.to_nat (p - c)) (drop (Z.to_nat c) r) else drop (Z.to_nat c) r ++ take (Z.to_nat p) r.
Definition idx_ok (c : Z) : Prop := 0 <= c < 2048.
Definition next (p : Z) : Z := Z.land (u32 (p + 1)) EVTDEV_RING_MASK.

Lemma ring_mask x : 0 <= x < 2 ^ 32 -> Z.land (u32 x) EVTDEV_RING_MASK = x mod 2048.
Proof. intros Hx. unfold u32. rewrite Z.mod_small by lia. apply (Z.land_ones x 11). lia. Qed.
Lemma next_cases p : idx_ok p -> (next p = p + 1 /\ p < 2047) \/ (next p = 0 /\ p = 2047).
Proof.
  intros Hp. unfold idx_ok, next in *. rewrite ring_mask by lia. destruct (Z.eq_dec p 2047) as [->|]; [by right|left]. rewrite Z.mod_small; lia.
Qed.
Lemma ring_q_length r c p : length r = 2048%nat -> idx_ok c -> idx_ok p -> zlen (ring_q r c p) = (p - c) mod 2048.
Proof.
  intros Hr Hc Hp. unfold idx_ok, ring_q in *. destruct (Z.leb_spec c p).
  - rewrite length_take, length_drop, Hr, Z.mod_small by lia. lia.
  - rewrite length_app, length_take, length_drop, Hr. rewrite <- (Z.mod_add _ 1), Z.mod_small by lia. lia.
Qed.
Lemma ring_q_empty r c : ring_q r c c = [].
Proof. unfold ring_q. rewrite Z.leb_refl, Z.sub_diag. by apply take_0. Qed.

Lemma take_drop_insert (r : list Z) c p x : (c <= p)%nat -> (p < length r)%nat -> take (S p - c) (drop c (<[p := x]> r)) = take (p - c) (drop c r) ++ [x].
Proof.
  intros Hc Hp. rewrite drop_insert_ge by done. replace (S p - c)%nat with (S (p - c)) by lia.
  rewrite (take_S_r _ _ x) by (apply list_lookup_insert_eq; rewrite length_drop; lia). by rewrite take_insert_ge.
Qed.
Lemma take_insert_last (r : list Z) p x : (p < length r)%nat -> take (S p) (<[p := x]> r) = take p r ++ [x].
Proof. intros Hp. rewrite (take_S_r _ _ x) by (by apply list_lookup_insert_eq). by rewrite take_insert_ge. Qed.
Lemma ring_q_push r c p x : length r = 2048%nat -> idx_ok c -> idx_ok p -> c <> next p ->
  ring_q (<[Z.to_nat p := x]> r) c (next p) = ring_q r c p ++ [x].
Proof.
  intros Hr Hc Hp Hn. unfold idx_ok in *. destruct (next_cases p Hp) as [[E ?]|[E ->]]; rewrite E in *; unfold ring_q.
  - destruct (Z.leb_spec c p); destruct (Z.leb_spec c (p + 1)); try lia.
    + replace (Z.to_nat (p + 1 - c)) with (S (Z.to_nat p) - Z.to_nat c)%nat by lia. rewrite take_drop_insert by lia.
      by replace (Z.to_nat (p - c)) with (Z.to_nat p - Z.to_nat c)%nat by lia.
    + rewrite drop_insert_lt by lia. replace (Z.to_nat (p + 1)) with (S (Z.to_nat p)) by lia. rewrite take_insert_last by lia. by rewrite (assoc_L (++)).
  - destruct (Z.leb_spec c 0); [lia|]. destruct (Z.leb_spec c 2047); [|lia]. change (Z.to_nat 0) with 0%nat. rewrite take_0, app_nil_r.
    rewrite <- (firstn_all (drop (Z.to_nat c) (<[Z.to_nat 2047 := x]> r))), length_drop, length_insert, Hr.
    replace (2048 - Z.to_nat c)%nat with (S (Z.to_nat 2047) - Z.to_nat c)%nat by lia. rewrite take_drop_insert by lia.
    by replace (Z.to_nat (2047 - c)) with (Z.to_nat 2047 - Z.to_nat c)%nat by lia.
Qed.
Lemma ring_full r c p : length r = 2048%nat -> idx_ok c -> idx_ok p -> c = next p <-> zlen (ring_q r c p) = 2047.
Proof.
  intros Hr Hc Hp. rewrite ring_q_length by done. unfold idx_ok in *. destruct (next_cases p Hp) as [[E ?]|[E ->]]; rewrite E.
  - destruct (Z.le_gt_cases c p).
    + rewrite Z.mod_small by lia. lia.
    + rewrite <- (Z.mod_add _ 1), Z.mod_small by lia. lia.
  - rewrite Z.mod_small by lia. lia.
Qed.

(** Taking [k] from the front. *)
Lemma ring_q_pop r c p k : length r = 2048%nat -> idx_ok c -> idx_ok p -> 0 <= k <= (if c <=? p then p - c else 2048 - c) ->
  take (Z.to_nat k) (drop (Z.to_nat c) r) = take (Z.to_nat k) (ring_q r c p) /\
  ring_q r ((c + k) mod 2048) p = drop (Z.to_nat k) (ring_q r c p).
Proof.
  intros Hr Hc Hp Hk. unfold idx_ok, ring_q in *. destruct (Z.leb_spec c p) as [Hcp|Hcp].
  - rewrite take_take, Z.mod_small by lia. split; [f_equal; lia|]. destruct (Z.leb_spec (c + k) p); [|lia].
    rewrite skipn_firstn_comm, drop_drop. f_equal; [lia|f_equal; lia].
  - rewrite take_app_le by (rewrite length_drop; lia). split; [done|]. destruct (Z.eq_dec k (2048 - c)) as [->|].
    + replace (c + (2048 - c)) with (1 * 2048) by lia. rewrite Z.mod_mul by lia. destruct (Z.leb_spec 0 p); [|lia]. rewrite drop_0, Z.sub_0_r.
      by rewrite drop_app_length' by (rewrite length_drop; lia).
    + rewrite Z.mod_small by lia. destruct (Z.leb_spec (c + k) p); [lia|]. rewrite drop_app_le, drop_drop by (rewrite length_drop; lia).
      do 2 f_equal. lia.
Qed.

(** ** One device *)
Record dev_ok (v : xenevt_dev_data) : Prop := { dk_len : length (ring v) = 2048%nat; dk_cons : idx_ok (ring_cons v); dk_prod : idx_ok (ring_prod v) }.
Definition dq (v : xenevt_dev_data) : list Z := ring_q (ring v) (ring_cons v) (ring_prod v).
Definition overflowed (v : xenevt_dev_data) : bool := negb (Z.land (dflags v) EVTDEV_F_OVERFLOW =? 0).

(** What queue makes of a device. *)
Definition queued (port : Z) (v : xenevt_dev_data) : xenevt_dev_data :=
  if ring_cons v =? next (ring_prod v) then set_dflags (Z.lor (dflags v) EVTDEV_F_OVERFLOW) v
  else set_rprod (next (ring_prod v)) (set_ring (<[Z.to_nat (ring_prod v) := port]> (ring v)) v).
Lemma queued_ok port v : dev_ok v -> dev_ok (queued port v).
Proof.
  intros [Hl Hc Hp]. unfold queued. zcases_step; [by split|]. split; cbn; [by rewrite length_insert|done|].
  destruct (next_cases _ Hp) as [[-> ?]|[-> ?]]; unfold idx_ok in *; lia.
Qed.
Lemma queued_lock port v : d_lock (queued port v) = d_lock v.
Proof. unfold queued. by zcases_step. Qed.
Lemma queued_room port v : dev_ok v -> zlen (dq v) < 2047 -> dq (queued port v) = dq v ++ [port] /\ overflowed (queued port v) = overflowed v.
Proof.
  intros [Hl Hc Hp] Hroom. unfold queued. destruct (Z.eqb_spec (ring_cons v) (next (ring_prod v))) as [E|E].
  - apply (ring_full (ring v)) in E; try done. unfold dq in Hroom. lia.
  - split; [|done]. by apply ring_q_push.
Qed.
Lemma queued_full port v : dev_ok v -> zlen (dq v) = 2047 -> dq (queued port v) = dq v /\ overflowed (queued port v) = true.
Proof.
  intros [Hl Hc Hp] Hfull. unfold queued. apply (ring_full (ring v)) in Hfull; try done. rewrite Hfull, Z.eqb_refl. split; [done|].
  unfold overflowed, EVTDEV_F_OVERFLOW. cbn. rewrite Z.land_lor_distr_l. destruct (Z.eqb_spec (Z.lor (Z.land (dflags v) 1) (Z.land 1 1)) 0) as [E|]; [|done].
  by apply Z.lor_eq_0_iff in E as [_ E].
Qed.
Lemma dq_bound v : dev_ok v -> zlen (dq v) <= 2047.
Proof. intros [Hl Hc Hp]. unfold dq. rewrite ring_q_length by done. pose proof (Z.mod_pos_bound (ring_prod v - ring_cons v) 2048 ltac:(lia)). lia. Qed.
Lemma dq_nil v : dev_ok v -> dq v = [] <-> ring_cons v = ring_prod v.
Proof.
  intros [Hl Hc Hp]. split; [|intros E; unfold dq; rewrite E; apply ring_q_empty]. intros E. pose proof (ring_q_length (ring v) _ _ Hl Hc Hp) as Hq.
  unfold dq in E. rewrite E in Hq. cbn in Hq. unfold idx_ok in *. symmetry in Hq. apply Z.mod_divide in Hq as [k Hk]; [|lia]. lia.
Qed.

Definition queue_all (l : list Z) (v : xenevt_dev_data) : xenevt_dev_data := foldl (fun v p => queued p v) v l.
Lemma queue_all_ok l v : dev_ok v -> dev_ok (queue_all l v) /\ d_lock (queue_all l v) = d_lock v.
Proof. revert v. induction l as [|p l IH]; intros v Hok; [done|]. destruct (IH _ (queued_ok p v Hok)) as [? E]. by rewrite queued_lock in E. Qed.
(** The ring keeps the first 2047 ports; the device overflows when there are more. *)
Lemma queue_all_dq l v : dev_ok v -> dq (queue_all l v) = take 2047 (dq v ++ l) /\ overflowed (queue_all l v) = overflowed v || (2047 <? zlen (dq v) + zlen l).
Proof.
  revert v. induction l as [|p l IH]; intros v Hok; pose proof (dq_bound v Hok) as Hb.
  { change (queue_all [] v) with v. cbn [length]. rewrite app_nil_r, take_ge by lia. split; [done|]. destruct (Z.ltb_spec 2047 (zlen (dq v) + Z.of_nat 0)); [lia|]. by rewrite orb_false_r. }
  cbn [queue_all foldl]. fold (queue_all l (queued p v)). destruct (IH _ (queued_ok p v Hok)) as [-> ->]. cbn [length]. destruct (Z.lt_ge_cases (zlen (dq v)) 2047).
  - destruct (queued_room p v Hok ltac:(lia)) as [-> ->]. rewrite <- (assoc_L (++)), length_app. cbn [app length]. split; [done|]. do 2 f_equal. lia.
  - destruct (queued_full p v Hok ltac:(lia)) as [-> ->]. rewrite !take_app_le by lia. split; [done|]. destruct (Z.ltb_spec 2047 (zlen (dq v) + Z.of_nat (S (length l)))); [|lia]. by rewrite orb_true_r.
Qed.

Lemma queue_all_lock l v b : queue_all l (set_dlock b v) = set_dlock b (queue_all l v).
Proof.
  revert v. induction l as [|p l IH]; intros v; [done|]. cbn [queue_all foldl]. fold (queue_all l (queued p v)). fold (queue_all l (queued p (set_dlock b v))).
  rewrite <- IH. f_equal. unfold queued. cbn. by zcases_step.
Qed.

Section Dev.
Context {H : Type}.
Variable hv_op : evop -> H -> (Z * Z) * H.
Variables (NR_EVENT_CHANNELS evtdev_handler : Z).
Abbreviation evd := (evd (H := H)).
Implicit Types (s : evd).

Definition put_dev (d : Z) (v : xenevt_dev_data) s : evd := set_devs (<[d := v]> (devs s)) s.
Lemma put_put d v v' s : put_dev d v' (put_dev d v s) = put_dev d v' s.
Proof. unfold put_dev. cbn. by rewrite insert_insert_eq. Qed.
Lemma put_same d v s : devs s !! d = Some v -> put_dev d v s = s.
Proof. intros E. unfold put_dev. rewrite insert_id by done. by destruct s. Qed.
Lemma put_get d v s : devs (put_dev d v s) !! d = Some v.
Proof. cbn. by rewrite lookup_insert_eq. Qed.

Lemma wp_dev_get d v s (Q : xenevt_dev_data -> evd -> Prop) : devs s !! d = Some v -> Q v s -> wp (dev_get d) Q s.
Proof. intros E HQ. apply wp_bind, wp_get. by eapply wp_opt. Qed.
Lemma wp_dev_enter d v s (Q : unit -> evd -> Prop) : devs s !! d = Some v -> d_lock v = false -> Q tt (put_dev d (set_dlock true v) s) -> wp (dev_enter d) Q s.
Proof. intros E El HQ. apply wp_bind. eapply wp_dev_get; [done|]. rewrite El. by apply wp_modify. Qed.
Lemma wp_dev_exit d v s (Q : unit -> evd -> Prop) : devs s !! d = Some v -> Q tt (put_dev d (set_dlock false v) s) -> wp (dev_exit d) Q s.
Proof. intros E HQ. apply wp_bind. eapply wp_dev_get; [done|]. by apply wp_modify. Qed.
Lemma wp_queue d v port s (Q : unit -> evd -> Prop) : devs s !! d = Some v -> dev_ok v -> d_lock v = true -> Q tt (put_dev d (queued port v) s) -> wp (queue d port) Q s.
Proof.
  intros E [Hl Hc Hp] El HQ. apply wp_bind. eapply wp_dev_get; [done|]. apply wp_bind, wp_assert; [done|]. unfold queued, next in HQ.
  destruct (ring_cons v =? _); [by apply wp_modify|]. apply wp_bind, wp_assert; [rewrite Hl; unfold idx_ok in Hp; apply Z.ltb_lt; lia|]. by apply wp_modify.
Qed.

(** ** Reading *)
Definition copied (k : Z) (u : uio) (q : list Z) : uio :=
  Uio (uio_resid u - 4 * Z.min k (zlen q)) (uio_out u ++ take (Z.to_nat k) q) (uio_faults u).
Lemma wp_move_ports d v cons len u s (Q : Z * uio -> evd -> Prop) : devs s !! d = Some v -> uio_faults u = [] -> cons + len <= zlen (ring v) ->
  Q (0, Uio (uio_resid u - len * 4) (uio_out u ++ take (Z.to_nat len) (drop (Z.to_nat cons) (ring v))) []) s -> wp (move_ports d cons len u) Q s.
Proof. intros E Ef Hl HQ. apply wp_bind. eapply wp_dev_get; [done|]. apply wp_bind, wp_assert; [by apply Z.leb_le|]. rewrite Ef. by apply wp_ret. Qed.

Lemma wp_read_copy d v u s : devs s !! d = Some v -> dev_ok v -> 0 <= uio_resid u -> uio_faults u = [] ->
  wp (read_copy d u) (fun r s' => r = (0, copied (uio_resid u / 4) u (dq v)) /\ exists c, s' = put_dev d (set_rcons c v) s /\
    dev_ok (set_rcons c v) /\ dq (set_rcons c v) = drop (Z.to_nat (uio_resid u / 4)) (dq v)) s.
Proof.
  intros E Hok Hr Ef. pose proof Hok as [Hl Hc Hp]. set (k := uio_resid u / 4). assert (Hk : 0 <= k) by (apply Z.div_pos; lia).
  assert (Hdiv : forall n, (uio_resid u - n * 4) / 4 = k - n) by (intros n; replace (uio_resid u - n * 4) with (uio_resid u + - n * 4) by lia; rewrite Z.div_add by lia; unfold k; lia).
  apply wp_bind. eapply wp_dev_get; [done|]. cbn zeta. unfold BYTES_PER_PORT, EVTDEV_RING_SIZE. fold k.
  set (c := ring_cons v) in *. set (p := ring_prod v) in *. set (span := if c <=? p then p - c else 2048 - c).
  assert (Espan : (if c <=? p then u32 (p - c) else u32 (2048 - c)) = span).
  { unfold span, idx_ok, u32 in *. destruct (Z.leb_spec c p); apply Z.mod_small; lia. }
  rewrite Espan. assert (Elen : (if k <? span then k else span) = Z.min k span) by (destruct (Z.ltb_spec k span); lia). rewrite Elen. set (len := Z.min k span).
  assert (Hspan : 0 <= span /\ c + span <= 2048 /\ span <= zlen (dq v)).
  { unfold dq. rewrite ring_q_length by done. fold c p. unfold span, idx_ok in *. destruct (Z.leb_spec c p); [rewrite Z.mod_small by lia; lia|].
    rewrite <- (Z.mod_add _ 1), Z.mod_small by lia. lia. }
  assert (Hlen : 0 <= len <= span) by lia. destruct (ring_q_pop (ring v) c p len Hl Hc Hp Hlen) as [Etake Edrop]. change (ring_q (ring v) c p) with (dq v) in Etake, Edrop.
  apply wp_bind. eapply wp_move_ports; [done|done|lia|]. cbn [fst snd negb Z.eqb uio_resid uio_out]. rewrite Etake, Hdiv, ring_mask by (unfold idx_ok in *; lia).
  assert (Hc1 : idx_ok ((c + len) mod 2048)) by (apply Z.mod_pos_bound; lia).
  destruct (Z.eqb_spec (k - len) 0) as [E0|E0].
  { assert (Ek : len = k) by lia. apply wp_bind, wp_modify, wp_ret. split.
    - unfold copied. rewrite Ef. do 2 f_equal; [lia|by rewrite Ek].
    - exists ((c + len) mod 2048). split_and!; [done|by split|]. replace k with len by lia. exact Edrop. }
  assert (Els : len = span) by lia. set (c1 := (c + len) mod 2048) in *.
  assert (Hrest : c1 <= p /\ u32 (p - c1) = p - c1 /\ zlen (dq v) = len + (p - c1)).
  { pose proof (ring_q_length (ring v) c1 p Hl Hc1 Hp) as Hq. rewrite Edrop, length_drop in Hq. unfold idx_ok, u32 in *.
    assert (c1 <= p) by (unfold c1; rewrite Els; unfold span; destruct (Z.leb_spec c p); [rewrite Z.mod_small by lia; lia|]; replace (c + (2048 - c)) with (1 * 2048) by lia; rewrite Z.mod_mul; lia).
    rewrite Z.mod_small in Hq by lia. rewrite Z.mod_small by lia. split_and!; lia. }
  destruct Hrest as (Hcp & -> & Eq). assert (El2 : (if k - len <? p - c1 then k - len else p - c1) = Z.min (k - len) (p - c1)) by (destruct (Z.ltb_spec (k - len) (p - c1)); lia).
  rewrite El2. set (len2 := Z.min (k - len) (p - c1)). assert (Hlen2 : 0 <= len2 <= (if c1 <=? p then p - c1 else 2048 - c1)) by (destruct (Z.leb_spec c1 p); lia).
  destruct (ring_q_pop (ring v) c1 p len2 Hl Hc1 Hp Hlen2) as [Etake2 Edrop2]. rewrite Edrop in Etake2, Edrop2.
  apply wp_bind. unfold idx_ok in *. eapply wp_move_ports; [done|done|lia|]. cbn [fst snd negb Z.eqb uio_resid uio_out]. rewrite Etake2, ring_mask by lia.
  apply wp_bind, wp_modify, wp_ret. split.
  - unfold copied. rewrite Ef. do 2 f_equal; [lia|]. rewrite <- (assoc_L (++)). f_equal. rewrite take_take_drop. rewrite <- Z2Nat.inj_add by lia.
    destruct (Z.le_gt_cases k (zlen (dq v))); [f_equal; lia|]. rewrite !take_ge by lia. done.
  - exists ((c1 + len2) mod 2048). split_and!; [done|split; [done|apply Z.mod_pos_bound; lia|done]|]. unfold dq at 1. cbn. fold p. rewrite Edrop2, drop_drop, <- Z2Nat.inj_add by lia.
    destruct (Z.le_gt_cases k (zlen (dq v))); [f_equal; lia|]. rewrite !drop_ge by lia. done.
Qed.

Lemma wp_read_now d nonblock v s (Q : Z -> evd -> Prop) : devs s !! d = Some v -> dev_ok v -> nonblock = true \/ dq v <> [] \/ overflowed v = true ->
  Q (if bool_decide (dq v = []) && negb (overflowed v) then EAGAIN else 0) s -> wp (loopM (read_wait d nonblock) 0) Q s.
Proof.
  intros E Hok Hnow HQ. pose proof (dq_nil v Hok) as Hnil.
  apply (wp_loop_variant _ (fun e s' k => s' = s /\ ((k = 1 /\ e = 0) \/ (k = 0 /\ e = EAGAIN /\ dq v = [] /\ overflowed v = false)))) with (k := 1); [|auto|lia].
  intros e s' k [-> [[-> ->]|(-> & -> & En & Eo)]]; (split; [lia|]); unfold read_wait; cbn [Z.eqb negb].
  2: { apply wp_ret. by rewrite En, Eo in HQ. }
  apply wp_bind. eapply wp_dev_get; [done|]. unfold overflowed in *. destruct (Z.eqb_spec (ring_cons v) (ring_prod v)) as [Ec|Ec]; cbn [negb].
  - rewrite (bool_decide_eq_true_2 _ (proj2 Hnil Ec)) in HQ. destruct (Z.land (dflags v) EVTDEV_F_OVERFLOW =? 0); cbn [negb andb] in *; [|by apply wp_ret].
    destruct nonblock; [|destruct Hnow as [?|[?|?]]; [done|tauto|done]]. cbn [negb]. apply wp_ret. exists 0. split; [|lia]. split; [done|]. right. split_and!; [done..|tauto|done].
  - rewrite bool_decide_eq_false_2 in HQ by tauto. by apply wp_ret.
Qed.
Lemma set_lock_twice v b : d_lock v = b -> set_dlock b (set_dlock true v) = v.
Proof. destruct v. cbn. by intros ->. Qed.

(** xenevt_dev_read that need not sleep. *)
Definition read_post (d : Z) (v : xenevt_dev_data) (u : uio) s (r : Z * uio) s' : Prop :=
  if overflowed v then r = (EFBIG, u) /\ s' = s else
  if bool_decide (dq v = []) then r = (EAGAIN, u) /\ s' = s else
  r = (0, copied (uio_resid u / 4) u (dq v)) /\ exists c, s' = put_dev d (set_rcons c v) s /\ dev_ok (set_rcons c v) /\ dq (set_rcons c v) = drop (Z.to_nat (uio_resid u / 4)) (dq v).
Lemma wp_read_after d v u err s s0 : devs s !! d = Some (set_dlock true v) -> put_dev d v s = s0 -> dev_ok v -> d_lock v = false -> 0 <= uio_resid u -> uio_faults u = [] ->
  err = (if bool_decide (dq v = []) && negb (overflowed v) then EAGAIN else 0) ->
  wp (v <-- dev_get d ;;
      let err := if (err =? 0) && negb (Z.land (dflags v) EVTDEV_F_OVERFLOW =? 0) then EFBIG else err in
      if negb (err =? 0) then dev_exit d ;;; cret (err, u) else r <-- read_copy d u ;; dev_exit d ;;; cret r) (read_post d v u s0) s.
Proof.
  intros E Es Hok El Hr Ef ->. assert (Hback : forall r, r = (if overflowed v then (EFBIG, u) else (EAGAIN, u)) -> overflowed v = true \/ dq v = [] ->
    wp (dev_exit d ;;; cret r) (read_post d v u s0) s).
  { intros r -> Hc. apply wp_bind. eapply wp_dev_exit; [done|]. apply wp_ret. rewrite set_lock_twice, Es by done. unfold read_post.
    destruct (overflowed v); [done|]. destruct Hc as [?|Hc]; [done|]. by rewrite bool_decide_eq_true_2. }
  apply wp_bind. eapply wp_dev_get; [done|]. cbn zeta. change (dflags (set_dlock true v)) with (dflags v). fold (overflowed v).
  destruct (overflowed v) eqn:Eo; [rewrite andb_false_r; cbn; apply Hback; tauto|]. rewrite andb_false_r, andb_true_r.
  destruct (bool_decide (dq v = [])) eqn:Eq; [cbn; apply bool_decide_eq_true in Eq; apply Hback; [done|by right]|]. cbn [Z.eqb negb].
  apply wp_bind. eapply wp_mono; [apply (wp_read_copy d (set_dlock true v) u s E); [by destruct Hok|done|done]|]. intros r s' (-> & c & -> & Hok' & Ed).
  apply wp_bind. eapply wp_dev_exit; [apply put_get|]. apply wp_ret. unfold read_post. rewrite Eo, Eq. split; [done|]. exists c. rewrite put_put.
  split_and!; [|by destruct Hok'|done]. rewrite <- Es, put_put. f_equal. destruct v. cbn in *. by subst.
Qed.
Lemma wp_read d nonblock v u s : devs s !! d = Some v -> dev_ok v -> d_lock v = false -> 0 <= uio_resid u -> uio_faults u = [] ->
  nonblock = true \/ dq v <> [] \/ overflowed v = true -> wp (xenevt_dev_read d nonblock u) (read_post d v u s) s.
Proof.
  intros E Hok El Hr Ef Hnow. unfold xenevt_dev_read. apply wp_bind. eapply wp_dev_enter; [done..|]. apply wp_bind.
  eapply (wp_read_now d nonblock (set_dlock true v)); [apply put_get|by destruct Hok|done|]. 
  eapply wp_read_after; try done; [apply put_get|by rewrite put_put, put_same].
Qed.

Lemma wp_queue_all d l v s (Q : unit -> evd -> Prop) : devs s !! d = Some v -> dev_ok v -> d_lock v = true -> Q tt (put_dev d (queue_all l v) s) -> wp (mfor (queue d) l) Q s.
Proof.
  revert v s. induction l as [|p l IH]; intros v s E Hok El HQ; [apply wp_ret; by rewrite put_same in HQ|]. apply wp_bind. eapply wp_queue; [done..|].
  apply (IH (queued p v)); [apply put_get|by apply queued_ok|by rewrite queued_lock|]. by rewrite put_put.
Qed.
Lemma wp_cv_wait d v w ws s (Q : Z -> evd -> Prop) : devs s !! d = Some (set_dlock true v) -> dev_ok v -> wakes s = w :: ws ->
  match w with WakePorts l => Q 0 (set_wakes ws (put_dev d (queue_all l (set_dlock true v)) s)) | WakeSignal e => Q e (set_wakes ws s) end ->
  wp (cv_wait_sig d) Q s.
Proof.
  intros E Hok Ew HQ. unfold cv_wait_sig. apply wp_bind. eapply wp_dev_exit; [done|]. apply wp_bind, wp_bind, wp_get. cbn [wakes put_dev set_devs]. rewrite Ew. apply wp_bind, wp_modify, wp_ret.
  assert (Eu : set_dlock false (set_dlock true v) = set_dlock false v) by done.
  assert (El : set_dlock true (set_dlock false (set_dlock true v)) = set_dlock true v) by done.
  assert (Ed : devs (set_wakes ws (put_dev d (set_dlock false (set_dlock true v)) s)) !! d = Some (set_dlock false (set_dlock true v))) by apply put_get.
  assert (Ep : forall x, put_dev d x (set_wakes ws (put_dev d (set_dlock false (set_dlock true v)) s)) = set_wakes ws (put_dev d x s)) by (intros x; exact (f_equal (set_wakes ws) (put_put d _ x s))).
  destruct w as [l|e]; apply wp_bind; (eapply wp_dev_enter; [exact Ed|done|]); rewrite El, Ep.
  - apply wp_bind. eapply (wp_queue_all d l (set_dlock true v)); [apply put_get|by destruct Hok|done|]. apply wp_ret.
    replace (put_dev d _ _) with (set_wakes ws (put_dev d (queue_all l (set_dlock true v)) s)); [done|]. exact (eq_sym (f_equal (set_wakes ws) (put_put d _ _ s))).
  - apply wp_ret. by rewrite put_same.
Qed.

(** A read with nothing to take sleeps; woken by ports it goes on as if they had been there. *)
Lemma wp_read_sleeps d v u w ws s : devs s !! d = Some v -> dev_ok v -> d_lock v = false -> 0 <= uio_resid u -> uio_faults u = [] ->
  dq v = [] -> overflowed v = false -> wakes s = w :: ws ->
  match w with
  | WakePorts l => l <> [] -> wp (xenevt_dev_read d false u) (read_post d (queue_all l v) u (set_wakes ws (put_dev d (queue_all l v) s))) s
  | WakeSignal e => e <> 0 -> wp (xenevt_dev_read d false u) (fun r s' => r = (e, u) /\ s' = set_wakes ws s) s
  end.
Proof.
  intros E Hok El Hr Ef En Eo Ew. pose proof (proj1 (dq_nil v Hok) En) as Ec.
  set (s1 := put_dev d (set_dlock true v) s).
  assert (Hfirst : forall (Q : Z + Z -> evd -> Prop), wp (cv_wait_sig d) (fun e => Q (inl e)) s1 -> wp (read_wait d false 0) Q s1).
  { intros Q HQ. unfold read_wait. cbn [Z.eqb negb]. apply wp_bind. eapply wp_dev_get; [apply put_get|]. cbn [ring_cons ring_prod dflags set_dlock].
    unfold overflowed in Eo. rewrite Ec, Z.eqb_refl, Eo. cbn [negb]. apply wp_bind. eapply wp_mono; [exact HQ|]. intros. by apply wp_ret. }
  assert (Ewait : forall Q, match w with WakePorts l => Q 0 (set_wakes ws (put_dev d (set_dlock true (queue_all l v)) s)) | WakeSignal e => Q e (set_wakes ws s1) end -> wp (cv_wait_sig d) Q s1).
  { intros Q HQ. eapply (wp_cv_wait d v w ws); [apply put_get|done|done|]. destruct w as [l|e]; [|exact HQ]. unfold s1; by rewrite queue_all_lock, put_put. }
  destruct w as [l|e]; intros Hl; unfold xenevt_dev_read; apply wp_bind; (eapply wp_dev_enter; [done..|]); fold s1; apply wp_bind.
  - destruct (queue_all_ok l v Hok) as [Hok' El']. destruct (queue_all_dq l v Hok) as [Ed Eo']. set (v' := queue_all l v) in *. set (s2 := set_wakes ws (put_dev d (set_dlock true v') s)).
    assert (Hdev : devs s2 !! d = Some (set_dlock true v')) by apply put_get.
    assert (Hne : dq v' <> []) by (rewrite Ed, En; destruct l; [done|discriminate]).
    assert (Hend : wp (read_wait d false 0) (fun r s' => r = inr 0 /\ s' = s2) s2).
    { unfold read_wait. cbn [Z.eqb negb]. apply wp_bind. eapply wp_dev_get; [exact Hdev|]. destruct (Z.eqb_spec (ring_cons (set_dlock true v')) (ring_prod (set_dlock true v'))) as [E'|]; [|by apply wp_ret].
      by apply (dq_nil v' Hok') in E'. }
    apply (wp_loop_variant _ (fun e s' k => e = 0 /\ ((k = 1 /\ s' = s1) \/ (k = 0 /\ s' = s2)))) with (k := 1); [|auto|lia].
    intros e s' k [-> [[-> ->]|[-> ->]]]; (split; [lia|]).
    + apply Hfirst, Ewait. exists 0. split; [split; [done|by right]|lia].
    + eapply wp_mono; [exact Hend|]. intros r s' [-> ->]. eapply (wp_read_after d v'); try done; [|congruence|by rewrite bool_decide_eq_false_2].
      exact (f_equal (set_wakes ws) (put_put d _ v' s)).
  - set (s2 := set_wakes ws s1). apply (wp_loop_variant _ (fun e' s' k => (k = 1 /\ e' = 0 /\ s' = s1) \/ (k = 0 /\ e' = e /\ s' = s2))) with (k := 1); [|auto|lia].
    intros e' s' k [(-> & -> & ->)|(-> & -> & ->)]; (split; [lia|]).
    + apply Hfirst, Ewait. exists 0. split; [by right|lia].
    + unfold read_wait. destruct (Z.eqb_spec e 0); [done|]. cbn [negb]. apply wp_ret. apply wp_bind. eapply wp_dev_get; [apply put_get|].
      cbn zeta. destruct (Z.eqb_spec e 0); [done|]. cbn [andb]. destruct (Z.eqb_spec e 0); [done|]. cbn [negb]. apply wp_bind. eapply wp_dev_exit; [apply put_get|]. apply wp_ret. split; [done|].
      rewrite set_lock_twice by done. refine (f_equal (set_wakes ws) (eq_trans (put_put d _ v s) _)). by apply put_same.
Qed.
End Dev.
