(* ===== verification/EvtdevSpec.v ===== *)
(** * The event channel device: delivery, bounds, writing and closing *)
From S2P Require Import Prelude Events Evtdev EvtdevThms.

(** ** From the interrupt to the devices *)
Section Delivery.
Context {H : Type}.
Variables (NR_EVENT_CHANNELS : Z) (E : gmap Z Z) (D : gset Z).
Abbreviation evd := (evd (H := H)).
Implicit Types (s : evd).
(** The bindings: every bound port is a port and belongs to an open device. *)
Hypothesis HE : forall p d, E !! p = Some d -> p < NR_EVENT_CHANNELS /\ d ∈ D.

Definition drv s : list Z := ring_q (xenevt_ring s) (xenevt_ring_cons s) (xenevt_ring_prod s).
Definition dev_free (v : xenevt_dev_data) : Prop := dev_ok v /\ d_lock v = false.
Record base_ok s : Prop := {
  bo_len : length (xenevt_ring s) = 2048%nat;
  bo_cons : idx_ok (xenevt_ring_cons s);
  bo_prod : idx_ok (xenevt_ring_prod s);
  bo_lock : devevent_lock s = false;
  bo_events : devevents s = E;
  bo_dom : dom (devs s) = D;
  bo_devs : map_Forall (fun _ => dev_free) (devs s)
}.
Definition bound (p : Z) : Prop := is_Some (E !! p).
(** Queueing a port at its device. *)
Definition to_dev (p : Z) s : evd :=
  match E !! p with
  | Some d => match devs s !! d with Some v => put_dev d (queued p v) s | None => s end
  | None => s
  end.
Lemma to_dev_ok p s : base_ok s -> base_ok (to_dev p s).
Proof.
  intros B. unfold to_dev. destruct (E !! p) as [d|]; [|done]. destruct (devs s !! d) as [v|] eqn:Ev; [|done]. destruct B as [? ? ? ? ? Hd Hf]. split; try done; cbn.
  - rewrite dom_insert_L, Hd. apply elem_of_dom_2 in Ev. rewrite <- Hd in *. set_solver.
  - destruct (Hf _ _ Ev) as [Hv El]. apply map_Forall_insert_2; [|done]. split; [by apply queued_ok|by rewrite queued_lock].
Qed.
Lemma set_delock_back s : devevent_lock s = false -> set_delock false (set_delock true s) = s.
Proof. destruct s. cbn. by intros ->. Qed.
Lemma wp_deliver p s (Q : unit -> evd -> Prop) : base_ok s -> bound p -> Q tt (to_dev p s) -> wp (deliver_port NR_EVENT_CHANNELS p) Q s.
Proof using HE.
  intros [Hl Hc Hp Hlk Hev Hd Hf] [d Ed] HQ. destruct (HE _ _ Ed) as [HN Hin]. rewrite <- Hd in Hin. apply elem_of_dom in Hin as [v Ev]. destruct (Hf _ _ Ev) as [Hv El].
  unfold to_dev in HQ. rewrite Ed, Ev in HQ. unfold deliver_port. assert (HN' : (p <? NR_EVENT_CHANNELS) = true) by (apply Z.ltb_lt; lia).
  apply wp_bind, wp_assert; [done|]. apply wp_bind. unfold devevent_enter. apply wp_bind, wp_get. rewrite Hlk. apply wp_modify.
  apply wp_bind. unfold devevents_get. apply wp_bind, wp_assert; [done|]. apply wp_gets. apply wp_bind. eapply wp_opt; [cbn; rewrite Hev; exact Ed|].
  apply wp_bind. eapply wp_dev_enter; [exact Ev|done|]. apply wp_bind. eapply wp_queue; [apply put_get|by destruct Hv|done|].
  apply wp_bind. eapply wp_dev_exit; [apply put_get|]. apply wp_modify. rewrite !put_put.
  replace (set_dlock false (queued p (set_dlock true v))) with (queued p v).
  2: { unfold queued. cbn [ring_cons ring_prod set_dlock]. destruct v. cbn in *. subst. by zcases_step. }
  replace (set_delock false (put_dev d (queued p v) (set_delock true s))) with (put_dev d (queued p v) s); [done|]. unfold put_dev, set_devs, set_delock. cbn. by rewrite Hlk.
Qed.

(** The driver's ring as it is, from an index that has not been masked. *)
Definition ring_bound s (c p : Z) : Prop := forall i, c <= i < p -> exists q, xenevt_ring s !! Z.to_nat i = Some q /\ bound q.
Lemma to_dev_frame p s : exists ds, to_dev p s = set_devs ds s.
Proof. unfold to_dev. destruct (E !! p) as [d|]; [destruct (devs s !! d)|]; [by eexists| |]; exists (devs s); by destruct s. Qed.
Lemma wp_thread_round prod c s (Q : Z + Z -> evd -> Prop) q : base_ok s -> 0 <= c < 2048 -> c <> prod -> xenevt_ring s !! Z.to_nat c = Some q -> bound q ->
  Q (inl (c + 1)) (to_dev q s) -> wp (thread_round NR_EVENT_CHANNELS prod c) Q s.
Proof using HE.
  intros B Hc Hne Eq Hb HQ. unfold thread_round. destruct (Z.eqb_spec c prod); [done|]. apply wp_bind, wp_bind, wp_get. eapply wp_opt; [done|].
  apply wp_bind, wp_deliver; [done..|]. apply wp_ret. unfold u32. by rewrite Z.mod_small by lia.
Qed.

(** The thread of a driver ring that has wrapped runs off its end: the index it
    keeps is never reduced. *)
Lemma thread_overruns s : base_ok s -> xenevt_ring_prod s < xenevt_ring_cons s -> ring_bound s (xenevt_ring_cons s) 2048 ->
  thread_prod s <> xenevt_ring_prod s ->
  xenevt_thread_turn NR_EVENT_CHANNELS s = Halted "xenevt_ring index".
Proof using HE.
  intros B Hw Hr Ht. assert (Hx : wpx "xenevt_ring index" (xenevt_thread_turn NR_EVENT_CHANNELS) (fun _ _ => False) s).
  2: { unfold wpx in Hx. destruct (xenevt_thread_turn NR_EVENT_CHANNELS s) as [[? ?]| |]; [done|by subst|done]. }
  unfold xenevt_thread_turn. apply wpx_bind, wpx_wp, wp_get. destruct (Z.eqb_spec (xenevt_ring_prod s) (thread_prod s)); [congruence|].
  apply wpx_bind, wpx_wp, wp_modify. apply wpx_bind. pose proof (bo_cons _ B) as Hc. unfold idx_ok in Hc.
  apply (wpx_loop _ _ (fun c s' k => base_ok s' /\ xenevt_ring_cons s <= c <= 2048 /\ ring_bound s' c 2048 /\ k = 2048 - c)) with (k := 2048 - xenevt_ring_cons s); [| |lia].
  2: { split_and!; try lia; [|done]. by destruct B. }
  intros c s' k (B' & Hc' & Hr' & ->). split; [lia|]. destruct (Z.eq_dec c 2048) as [->|].
  - unfold thread_round. destruct (Z.eqb_spec 2048 (xenevt_ring_prod s)); [lia|]. apply wpx_bind, wpx_bind, wpx_wp, wp_get.
    rewrite lookup_ge_None_2 by (rewrite (bo_len _ B'); lia). done.
  - destruct (Hr' c ltac:(lia)) as (q & Eq & Hb). apply wpx_wp. apply (wp_thread_round _ c s' _ q); [done|lia|lia|done|done|].
    exists (2048 - (c + 1)). split; [|lia]. split_and!; [by apply to_dev_ok|lia|lia| |done]. destruct (to_dev_frame q s') as [ds ->]. intros i Hi. apply Hr'. lia.
Qed.

(** ** Every event reaches its reader, once and in order *)
Definition owned (d : Z) (l : list Z) : list Z := filter (fun p => E !! p = Some d) l.
Record flow (n : Z) s : Prop := {
  fl_base : base_ok s;
  fl_prod : xenevt_ring_prod s = n;
  fl_cons : xenevt_ring_cons s <= n;
  fl_thread : thread_prod s = xenevt_ring_cons s;
  fl_bound : Forall bound (drv s);
  fl_devs : map_Forall (fun _ v => overflowed v = false /\ zlen (dq v) <= xenevt_ring_cons s) (devs s)
}.
Lemma to_dev_lookup p s d v' : devs (to_dev p s) !! d = Some v' ->
  exists v, devs s !! d = Some v /\ v' = if bool_decide (E !! p = Some d) then queued p v else v.
Proof.
  unfold to_dev. destruct (E !! p) as [d'|] eqn:Ed; [|intros; by exists v']. destruct (devs s !! d') as [v0|] eqn:Ev; cbn.
  - destruct (decide (d' = d)) as [->|Hne]; [rewrite lookup_insert_eq; intros [= <-]; exists v0; by rewrite bool_decide_eq_true_2|].
    rewrite lookup_insert_ne by done. intros. exists v'. split; [done|]. rewrite bool_decide_eq_false_2 by congruence. done.
  - intros Hv. exists v'. split; [done|]. rewrite bool_decide_eq_false_2 by congruence. done.
Qed.
(** The thread after [k] of the ports [q]. *)
Record moved (q : list Z) (c0 : Z) s0 (k : Z) s : Prop := {
  mv_base : base_ok s;
  mv_frame : s = set_devs (devs s) s0;
  mv_devs : map_Forall (fun d v => exists v0, devs s0 !! d = Some v0 /\ overflowed v = false /\ zlen (dq v) <= c0 + k /\ dq v = dq v0 ++ owned d (take (Z.to_nat k) q)) (devs s)
}.
Lemma moved_step q c0 s0 k s p : moved q c0 s0 k s -> 0 <= k -> q !! Z.to_nat k = Some p -> c0 + k < 2047 -> moved q c0 s0 (k + 1) (to_dev p s).
Proof.
  intros [B Hfr Hd] Hk Eq Hc. split; [by apply to_dev_ok| |].
  - destruct (to_dev_frame p s) as [ds ->]. rewrite Hfr. done.
  - intros d v' Ev. apply to_dev_lookup in Ev as (v & Ev & ->). destruct (Hd _ _ Ev) as (v0 & E0 & Eo & Hl & Eq0). exists v0. split; [done|].
    destruct (bo_devs _ B _ _ Ev) as [Hok _]. replace (Z.to_nat (k + 1)) with (S (Z.to_nat k)) by lia. rewrite (take_S_r _ _ _ Eq). unfold owned in *. rewrite filter_app.
    destruct (bool_decide_reflect (E !! p = Some d)) as [Ep|Ep].
    + destruct (queued_room p v Hok ltac:(lia)) as [-> ->]. rewrite filter_cons_True, filter_nil by done. rewrite length_app, Eq0, (assoc_L (++)). cbn [length]. rewrite Eq0 in Hl. split_and!; [done|lia|done].
    + rewrite filter_cons_False, filter_nil, app_nil_r by done. split_and!; [done|lia|done].
Qed.
Lemma wp_evt_turn n s : flow n s -> xenevt_ring_cons s <> n ->
  wp (xenevt_thread_turn NR_EVENT_CHANNELS) (fun _ s' => flow n s' /\ drv s' = [] /\ dom (devs s') = dom (devs s) /\
    map_Forall (fun d v' => exists v, devs s !! d = Some v /\ dq v' = dq v ++ owned d (drv s)) (devs s')) s.
Proof using HE.
  intros [B Hp Hc Ht Hb Hd] Hne. pose proof B as [Hl Hci Hpi _ _ Hdom _]. unfold idx_ok in *. rewrite Hp in *. set (c0 := xenevt_ring_cons s) in *.
  assert (Hq : zlen (drv s) = n - c0) by (unfold drv; rewrite Hp, ring_q_length by (done || (unfold idx_ok; lia)); apply Z.mod_small; fold c0; lia).
  assert (Hdrv : forall k, 0 <= k < n - c0 -> drv s !! Z.to_nat k = xenevt_ring s !! Z.to_nat (c0 + k)).
  { intros k Hk. unfold drv, ring_q. rewrite Hp. fold c0. destruct (Z.leb_spec c0 n); [|lia]. rewrite lookup_take_lt, lookup_drop by lia. f_equal. lia. }
  unfold xenevt_thread_turn. apply wp_bind, wp_get. destruct (Z.eqb_spec (xenevt_ring_prod s) (thread_prod s)) as [E1|E1]; [rewrite Ht, Hp in E1; fold c0 in E1; lia|]. rewrite Hp.
  apply wp_bind, wp_modify, wp_bind. set (s0 := set_tprod n s).
  eapply wp_mono; [apply (wp_loop_variant _ (fun c s' k => c = n - k /\ 0 <= k <= n - c0 /\ moved (drv s) c0 s0 (c - c0) s') (fun c s' => c = n /\ moved (drv s) c0 s0 (n - c0) s')) with (k := n - c0); [| |lia]|].
  - intros c s' k (-> & Hk & Hm). split; [lia|]. destruct (Z.eq_dec k 0) as [->|].
    + unfold thread_round. rewrite Z.sub_0_r in *. rewrite Z.eqb_refl. by apply wp_ret.
    + destruct (lookup_lt_is_Some_2 (drv s) (Z.to_nat (n - k - c0))) as [p Ep]; [lia|]. pose proof (Forall_lookup_1 _ _ _ _ Hb Ep) as Hbp.
      apply (wp_thread_round n (n - k) s' _ p); [apply Hm|lia|lia| |done|].
      * rewrite (mv_frame _ _ _ _ _ Hm). change (xenevt_ring s !! Z.to_nat (n - k) = Some p). rewrite <- Ep, Hdrv by lia. f_equal. lia.
      * exists (k - 1). split; [|lia]. split_and!; [lia..|]. replace (n - k + 1 - c0) with (n - k - c0 + 1) by lia. apply moved_step; [done|lia|done|lia].
  - split_and!; [fold c0; lia|lia|lia|]. fold c0. rewrite Z.sub_diag. split; [by destruct B|by destruct s|]. intros d v Ev. destruct (Hd _ _ Ev) as [Eo Hz]. exists v. unfold owned. rewrite take_0, filter_nil, app_nil_r. split_and!; [done..|lia|done].
  - intros c s' [-> [B' Hfr Hm]]. apply wp_modify. rewrite take_ge in Hm by lia. assert (Hpr : xenevt_ring_prod s' = n) by (rewrite Hfr; exact Hp).
    assert (Hdr : drv (set_xcons n s') = []) by (unfold drv; cbn; rewrite Hpr; apply ring_q_empty). split_and!; [|done| |].
    + split; cbn; [|done|lia|by rewrite Hfr|by rewrite Hdr|].
      * destruct B'. by split.
      * intros d v Ev. destruct (Hm _ _ Ev) as (v0 & _ & Eo & Hz & _). split; [done|lia].
    + cbn. rewrite (bo_dom _ B'). by rewrite Hdom.
    + intros d v Ev. destruct (Hm _ _ Ev) as (v0 & E0 & _ & _ & Eq). by exists v0.
Qed.

Lemma wp_fire n p s : flow n s -> n < 2047 -> bound p ->
  wp (minios_evtdev_handler p) (fun _ s' => flow (n + 1) s' /\ drv s' = drv s ++ [p] /\ devs s' = devs s) s.
Proof using Type.
  intros [B Hp Hc Ht Hb Hd] Hn Hbp. pose proof B as [Hl Hci Hpi _ _ _ _]. rewrite Hp in *. unfold minios_evtdev_handler. apply wp_bind, wp_zoom, wp_modify.
  unfold rump_evtdev_callback. apply wp_bind, wp_get. cbn [xenevt_ring_cons xenevt_ring_prod set_ev]. fold (next (xenevt_ring_prod s)). rewrite Hp.
  destruct (next_cases n Hpi) as [[En _]|[_ ?]]; [|lia]. destruct (Z.eqb_spec (xenevt_ring_cons s) (next n)) as [?|Hne]; [unfold idx_ok in *; lia|].
  cbn [xenevt_ring set_ev]. apply wp_bind, wp_assert; [rewrite Hl; unfold idx_ok in *; apply Z.ltb_lt; lia|]. apply wp_bind, wp_modify, wp_modify.
  assert (Hdrv : drv (set_xprod (next n) (set_xring (<[Z.to_nat n := p]> (xenevt_ring s)) (set_ev (set_mask (bit_set p (evtchn_mask (ev s))) (ev s)) s))) = drv s ++ [p]).
  { unfold drv. cbn. rewrite Hp. by apply ring_q_push. }
  split_and!; [|exact Hdrv|done]. split; cbn; [|done|lia|done|rewrite Hdrv; apply Forall_app; by split; [|constructor]|done].
  destruct B. split; cbn; try done; [by rewrite length_insert|]. fold (next n); rewrite ?En. unfold idx_ok in *. lia.
Qed.

(** What programs and the hardware do: a bound port fires, the thread runs, a
    device is read without waiting, for so many bytes. *)
Inductive evd_op := Fire (port : Z) | Turn | Read (d bytes : Z).
Definition run_op (op : evd_op) : M evd (list (Z * list Z)) :=
  match op with
  | Fire p => minios_evtdev_handler p ;;; cret []
  | Turn => s <-- mget ;; if xenevt_ring_prod s =? thread_prod s then cret [] else xenevt_thread_turn NR_EVENT_CHANNELS ;;; cret []
  | Read d n => '(_, u) <-- xenevt_dev_read d true (Uio n [] []) ;; cret [(d, uio_out u)]
  end.
Fixpoint run_ops (ops : list evd_op) : M evd (list (Z * list Z)) :=
  match ops with [] => cret [] | op :: ops => o <-- run_op op ;; os <-- run_ops ops ;; cret (o ++ os) end.
Definition fires (ops : list evd_op) : list Z := omap (fun op => match op with Fire p => Some p | _ => None end) ops.
Definition read_by (d : Z) (os : list (Z * list Z)) : list Z := concat (map snd (filter (fun o => o.1 = d) os)).
Definition op_ok (op : evd_op) : Prop := match op with Fire p => bound p | Turn => True | Read d n => d ∈ D /\ 0 <= n end.

(** Nothing is lost, doubled or reordered between [s] and [s']. *)
Definition conserved s (fired : list Z) (os : list (Z * list Z)) s' : Prop := forall d v v', devs s !! d = Some v -> devs s' !! d = Some v' ->
  dq v ++ owned d (drv s) ++ owned d fired = read_by d os ++ dq v' ++ owned d (drv s').
Lemma owned_app d l l' : owned d (l ++ l') = owned d l ++ owned d l'.
Proof. apply filter_app. Qed.
Lemma conserved_trans s s1 s2 f f' os os' : dom (devs s1) = D -> dom (devs s) = D -> conserved s f os s1 -> conserved s1 f' os' s2 -> conserved s (f ++ f') (os ++ os') s2.
Proof.
  intros D1 D0 H1 H2 d v v' Ev Ev'. destruct (proj1 (elem_of_dom (devs s1) d)) as [v1 E1]; [rewrite D1, <- D0; by eapply elem_of_dom_2|].
  specialize (H1 d v v1 Ev E1). specialize (H2 d v1 v' E1 Ev'). unfold read_by in *. rewrite filter_app, map_app, concat_app, owned_app, !(assoc_L (++)), <- !(assoc_L (++)).
  rewrite (assoc_L (++) (owned d (drv s))), (assoc_L (++) (dq v)), H1, <- !(assoc_L (++)), H2. done.
Qed.
Lemma wp_run_op n op s : flow n s -> op_ok op -> n + zlen (fires [op]) <= 2047 ->
  wp (run_op op) (fun os s' => flow (n + zlen (fires [op])) s' /\ conserved s (fires [op]) os s') s.
Proof using HE.
  intros F Hop Hn. destruct op as [p| |d k]; cbn [run_op fires omap list_omap length] in *.
  - apply wp_bind. eapply wp_mono; [by apply (wp_fire n); [|lia|]|]. intros _ s' (F' & Ed & Es). apply wp_ret. split; [done|]. intros d v v' Ev Ev'. rewrite Es in Ev'. simplify_eq.
    rewrite Ed, owned_app. done.
  - rewrite Z.add_0_r in *. apply wp_bind, wp_get. destruct (Z.eqb_spec (xenevt_ring_prod s) (thread_prod s)) as [Ep|Ep].
    { apply wp_ret. split; [done|]. intros d v v' Ev Ev'. simplify_eq. by rewrite app_nil_r. }
    pose proof F as [_ Hp _ Ht _ _]. apply wp_bind. eapply wp_mono; [apply (wp_evt_turn n); [done|congruence]|]. intros _ s' (F' & Edrv & Edom & Hm). apply wp_ret. split; [done|].
    intros d v v' Ev Ev'. destruct (Hm _ _ Ev') as (v0 & E0 & ->). simplify_eq. rewrite Edrv, !app_nil_r. done.
  - rewrite Z.add_0_r in *. destruct Hop as [Hin Hk]. pose proof F as [B Hp Hc Ht Hb Hd]. rewrite <- (bo_dom _ B) in Hin. apply elem_of_dom in Hin as [v Ev].
    destruct (bo_devs _ B _ _ Ev) as [Hok El]. destruct (Hd _ _ Ev) as [Eo Hz].
    apply wp_bind. eapply wp_mono; [apply (wp_read d true v); try done; by left|]. intros [err u'] s' Hr. unfold read_post in Hr. rewrite Eo in Hr. destruct (bool_decide (dq v = [])).
    { destruct Hr as [[= -> ->] ->]. apply wp_ret. split; [done|]. intros d' v1 v1' E1 E1'. simplify_eq. unfold read_by, owned. destruct (decide (d = d')); [rewrite filter_cons_True by done|rewrite filter_cons_False by done]; cbn; by rewrite app_nil_r. }
    destruct Hr as ([= -> ->] & c & -> & Hok' & Edq). apply wp_ret. cbn [uio_out copied app]. set (kk := Z.to_nat (k / 4)) in *. split.
    + split; try done.
      * destruct B. split; try done; cbn; [rewrite dom_insert_L; apply elem_of_dom_2 in Ev; set_solver|]. by apply map_Forall_insert_2.
      * apply map_Forall_insert_2; [|done]. split; [done|]. rewrite Edq, length_drop. cbn. lia.
    + intros d' v1 v1' E1 E1'. change (drv (put_dev d (set_rcons c v) s)) with (drv s). unfold read_by, owned. rewrite filter_nil, app_nil_r. cbn [devs put_dev set_devs] in E1'. destruct (decide (d = d')) as [->|Hne].
      * rewrite lookup_insert_eq in E1'. simplify_eq. rewrite filter_cons_True, filter_nil by done. cbn. rewrite app_nil_r, Edq, (assoc_L (++)), take_drop. done.
      * rewrite lookup_insert_ne in E1' by done. simplify_eq. rewrite filter_cons_False, filter_nil by done. done.
Qed.
Lemma wp_run_ops n ops s : flow n s -> Forall op_ok ops -> n + zlen (fires ops) <= 2047 ->
  wp (run_ops ops) (fun os s' => flow (n + zlen (fires ops)) s' /\ conserved s (fires ops) os s') s.
Proof using HE.
  revert n s. induction ops as [|op ops IH]; intros n s F Hops Hn; cbn [run_ops].
  { apply wp_ret. cbn. rewrite Z.add_0_r. split; [done|]. intros d v v' Ev Ev'. simplify_eq. by rewrite app_nil_r. }
  apply Forall_cons in Hops as [Hop Hops]. assert (Efs : fires (op :: ops) = fires [op] ++ fires ops) by (by destruct op).
  rewrite Efs, length_app in *. apply wp_bind. eapply wp_mono; [apply (wp_run_op n); [done|done|lia]|]. intros o s1 [F1 C1].
  apply wp_bind. eapply wp_mono; [apply (IH (n + zlen (fires [op])) s1); [done|done|lia]|]. intros os s2 [F2 C2]. apply wp_ret.
  split; [by rewrite Nat2Z.inj_add, Z.add_assoc|]. eapply conserved_trans; [apply F1|apply F|done|done].
Qed.
End Delivery.

(** ** The bound of the driver's ring *)
Section Bounds.
Context {H : Type}.
Variables (NR_EVENT_CHANNELS : Z) (E : gmap Z Z) (D : gset Z).
Abbreviation evd := (evd (H := H)).
Implicit Types (s : evd).
Hypothesis HE : forall p d, E !! p = Some d -> p < NR_EVENT_CHANNELS /\ d ∈ D.
(** The driver's ring by its counts: [n] events taken into it, [c] of them delivered.  A
    full ring holds 2047; an event that finds it full is dropped.  The thread delivers
    all there are, but only the first 2047 there ever were: [None]. *)
Definition tally_step (x : option (Z * Z)) (op : evd_op) : option (Z * Z) :=
  '(n, c) ← x;
  match op with
  | Fire _ => Some (if n - c =? 2047 then (n, c) else (n + 1, c))
  | Turn => if n =? c then Some (n, c) else if n <=? 2047 then Some (n, n) else None
  | Read _ _ => Some (n, c)
  end.
Definition tally_of (ops : list evd_op) : option (Z * Z) := foldl tally_step (Some (0, 0)) ops.
Lemma tally_none ops : foldl tally_step None ops = None.
Proof. by induction ops as [|op ops IH]. Qed.

(** The ring has wrapped: the events that the thread has not yet seen start at [c] and go
    round the end. *)
Record wrapped (n c : Z) s : Prop := {
  wr_base : base_ok E D s;
  wr_n : 2048 <= n <= c + 2047;
  wr_prod : xenevt_ring_prod s = n - 2048;
  wr_cons : xenevt_ring_cons s = c;
  wr_thread : thread_prod s = c;
  wr_bound : ring_bound E s c 2048
}.
Definition tally (x : Z * Z) s : Prop :=
  if x.1 <=? 2047 then flow E D x.1 s /\ xenevt_ring_cons s = x.2 else wrapped x.1 x.2 s.
Lemma tally_flow n c s : n <= 2047 -> flow E D n s -> xenevt_ring_cons s = c -> tally (n, c) s.
Proof. intros Hn F Hc. unfold tally. cbn. by rewrite (proj2 (Z.leb_le _ _) Hn). Qed.
Lemma tally_wrapped n c s : wrapped n c s -> tally (n, c) s.
Proof. intros W. unfold tally. cbn. destruct (Z.leb_spec n 2047); [pose proof (wr_n _ _ _ W); lia|done]. Qed.
Lemma tally_cases n c s : tally (n, c) s -> (n <= 2047 /\ flow E D n s /\ xenevt_ring_cons s = c) \/ wrapped n c s.
Proof. unfold tally. cbn. destruct (Z.leb_spec n 2047); [left|right]; tauto. Qed.
Lemma flow_ring n s : flow E D n s -> ring_bound E s (xenevt_ring_cons s) n.
Proof using Type.
  intros [B Hp Hc _ Hb _] i Hi. pose proof B as [Hl Hci Hpi _ _ _ _]. unfold idx_ok in *. rewrite Hp in *.
  destruct (lookup_lt_is_Some_2 (xenevt_ring s) (Z.to_nat i)) as [q Eq]; [lia|]. exists q. split; [done|].
  eapply (Forall_lookup_1 _ _ (Z.to_nat (i - xenevt_ring_cons s)) _ Hb). unfold drv, ring_q. rewrite Hp.
  destruct (Z.leb_spec (xenevt_ring_cons s) n); [|lia]. rewrite lookup_take_lt, lookup_drop by lia. rewrite <- Eq. f_equal. lia.
Qed.

(** A firing at a ring that has room, or has none, by its indices. *)
Lemma wp_fire_at p s (Q : unit -> evd -> Prop) : base_ok E D s ->
  (let e := set_ev (set_mask (bit_set p (evtchn_mask (ev s))) (ev s)) s in
   Q tt (if xenevt_ring_cons s =? next (xenevt_ring_prod s) then e
         else set_xprod (next (xenevt_ring_prod s)) (set_xring (<[Z.to_nat (xenevt_ring_prod s) := p]> (xenevt_ring s)) e))) ->
  wp (minios_evtdev_handler p) Q s.
Proof using Type.
  intros [Hl Hci Hpi _ _ _ _] HQ. unfold minios_evtdev_handler. apply wp_bind, wp_zoom, wp_modify. unfold rump_evtdev_callback. apply wp_bind, wp_get.
  cbn [xenevt_ring_cons xenevt_ring_prod xenevt_ring set_ev]. fold (next (xenevt_ring_prod s)). cbn zeta in HQ. destruct (_ =? _); [by apply wp_ret|].
  apply wp_bind, wp_assert; [rewrite Hl; unfold idx_ok in *; apply Z.ltb_lt; lia|]. by apply wp_bind, wp_modify, wp_modify.
Qed.
Lemma base_pushed p s i j e : base_ok E D s -> idx_ok i -> base_ok E D (set_xprod i (set_xring (<[j := p]> (xenevt_ring s)) (set_ev e s))).
Proof. intros [] Hi. split; try done. cbn. by rewrite length_insert. Qed.
Lemma ring_bound_push p s i j e c : ring_bound E s c 2048 -> 0 <= j < c -> ring_bound E (set_xprod i (set_xring (<[Z.to_nat j := p]> (xenevt_ring s)) (set_ev e s))) c 2048.
Proof.
  intros Hr Hj k Hk. cbn [xenevt_ring set_xprod set_xring]. destruct (Hr k Hk) as (q & Eq & Hb). exists q. split; [|done].
  by rewrite list_lookup_insert_ne by lia.
Qed.

Lemma wp_fire_cons n p s : flow E D n s -> n < 2047 -> bound E p ->
  wp (minios_evtdev_handler p) (fun _ s' => flow E D (n + 1) s' /\ xenevt_ring_cons s' = xenevt_ring_cons s) s.
Proof using Type.
  intros F Hn Hb. eapply wp_mono; [apply wp_and; [by apply (wp_fire E D n p s)|apply (wp_fire_at p s (fun _ s' => xenevt_ring_cons s' = xenevt_ring_cons s)); [apply F|]]|].
  - cbn zeta. by case_match.
  - intros _ s' [(F' & _) Hc]. done.
Qed.
Lemma tally_fire p n c s : tally (n, c) s -> bound E p ->
  wp (minios_evtdev_handler p) (fun _ => tally (if n - c =? 2047 then (n, c) else (n + 1, c))) s.
Proof using Type.
  intros [(Hn & F & Hc)|[B Hn Hp Hc Ht Hr]]%tally_cases Hb.
  - pose proof F as [B Hp Hcn Ht Hbs Hd]. pose proof (bo_cons _ _ _ B) as Hci. unfold idx_ok in Hci. destruct (Z.lt_ge_cases n 2047) as [Hlt|Hge].
    { rewrite (proj2 (Z.eqb_neq _ _)) by lia. eapply wp_mono; [by apply (wp_fire_cons n p s)|]. intros _ s' [F' Hc']. apply tally_flow; [lia|done|congruence]. }
    assert (n = 2047) as -> by lia. apply wp_fire_at; [done|]. cbn zeta. rewrite Hp, Hc. change (next 2047) with 0. destruct (Z.eqb_spec c 0) as [->|Hc0].
    { apply tally_flow; [lia|by destruct F as [[] ? ? ? ? ?]; split|done]. }
    rewrite (proj2 (Z.eqb_neq _ _)) by lia. apply tally_wrapped. split; [apply base_pushed; [done|unfold idx_ok; lia]|lia|done|done|cbn; congruence|].
    intros i Hi. cbn [xenevt_ring set_xprod set_xring]. destruct (Z.eq_dec i 2047) as [->|Hne].
    + exists p. split; [|done]. apply list_lookup_insert_eq. rewrite (bo_len _ _ _ B). lia.
    + rewrite list_lookup_insert_ne by lia. apply (flow_ring _ _ F). lia.
  - pose proof (bo_cons _ _ _ B) as Hci. unfold idx_ok in Hci. apply wp_fire_at; [done|]. cbn zeta. rewrite Hp, Hc.
    destruct (next_cases (n - 2048)) as [[En _]|[_ ?]]; [unfold idx_ok; lia| |lia]. rewrite En.
    destruct (Z.eqb_spec c (n - 2048 + 1)), (Z.eqb_spec (n - c) 2047); try lia; apply tally_wrapped.
    + split; try done. by destruct B.
    + split; cbn; [apply base_pushed; [done|unfold idx_ok; lia]|lia|lia|done|done|]. apply ring_bound_push; [done|lia].
Qed.
Lemma read_keeps_ring d k s : base_ok E D s -> d ∈ D -> 0 <= k -> wp (xenevt_dev_read d true (Uio k [] [])) (fun _ s' =>
  xenevt_ring_cons s' = xenevt_ring_cons s /\ xenevt_ring_prod s' = xenevt_ring_prod s /\ thread_prod s' = thread_prod s /\ xenevt_ring s' = xenevt_ring s /\ base_ok E D s') s.
Proof using HE.
  intros B Hd Hk. pose proof B as [? ? ? ? ? Hdom Hf]. rewrite <- Hdom in Hd. apply elem_of_dom in Hd as [v Ev]. destruct (Hf _ _ Ev) as [Hok El].
  eapply wp_mono; [apply (wp_read d true v); try done; by left|]. intros [err u] s' Hr. unfold read_post in Hr. repeat case_match; destruct Hr as [_ Hr]; try (by subst s').
  all: destruct Hr as (c & -> & Hok' & _); split_and!; try done; split; try done; cbn; [rewrite dom_insert_L; apply elem_of_dom_2 in Ev; set_solver|]; apply map_Forall_insert_2; [by split|done].
Qed.
Lemma tally_read d k n c s : tally (n, c) s -> d ∈ D -> 0 <= k -> wp (xenevt_dev_read d true (Uio k [] [])) (fun _ => tally (n, c)) s.
Proof using HE.
  intros T Hd Hk. apply tally_cases in T as [(Hn & F & Hc)|W].
  - pose proof (wp_run_op NR_EVENT_CHANNELS E D HE n (Read d k) s F (conj Hd Hk)) as Hr. cbn [fires omap list_omap length] in Hr. specialize (Hr ltac:(lia)).
    cbn [run_op] in Hr. apply wp_bind_inv in Hr. eapply wp_mono; [apply wp_and; [exact Hr|apply (read_keeps_ring d k s); [apply F|done|done]]|].
    intros [err u] s' [[F' _] Hc']. rewrite Z.add_0_r in F'. apply tally_flow; [done|done|]. by rewrite <- Hc, (proj1 Hc').
  - eapply wp_mono; [apply (read_keeps_ring d k s); [apply W|done|done]|]. intros _ s' (E1 & E2 & E3 & E4 & B'). apply tally_wrapped.
    destruct W as [B ? ? ? ? Hr]. split; [done|done|congruence|congruence|congruence|]. intros i Hi. rewrite E4. by apply Hr.
Qed.

Lemma tally_op op x s : tally x s -> op_ok E D op ->
  match tally_step (Some x) op with
  | Some y => wp (run_op NR_EVENT_CHANNELS op) (fun _ => tally y) s
  | None => run_op NR_EVENT_CHANNELS op s = Halted "xenevt_ring index"
  end.
Proof using HE.
  destruct x as [n c]. intros T Hop. destruct op as [p| |d k]; cbn [tally_step mbind option_bind run_op].
  - apply wp_bind. eapply wp_mono; [by apply tally_fire|]. intros [] s' T'. by apply wp_ret.
  - apply tally_cases in T as [(Hn & F & Hc)|W].
    + pose proof F as [_ Hp Hcn Ht _ _]. destruct (Z.eqb_spec n c) as [Enc|Enc].
      { apply wp_bind, wp_get. rewrite Hp, Ht, (proj2 (Z.eqb_eq _ _)) by congruence. apply wp_ret, tally_flow; done. }
      rewrite (proj2 (Z.leb_le _ _)) by lia. apply wp_bind, wp_get. rewrite Hp, Ht, (proj2 (Z.eqb_neq _ _)) by congruence.
      apply wp_bind. eapply wp_mono; [apply (wp_evt_turn NR_EVENT_CHANNELS E D HE n s F); congruence|]. intros [] s' (F' & Edrv & _). apply wp_ret, tally_flow; [done|done|].
      destruct F' as [[Hl Hc2 Hp2 _ _ _ _] Hp' Hcn' _ _ _]. pose proof (ring_q_length _ _ _ Hl Hc2 Hp2) as Hq. unfold drv in Edrv. rewrite Edrv, Hp' in Hq. cbn in Hq. unfold idx_ok in *.
      rewrite Z.mod_small in Hq by lia. lia.
    + pose proof W as [B Hn Hp Hc Ht Hr]. pose proof (bo_cons _ _ _ B) as Hci. unfold idx_ok in Hci.
      rewrite (proj2 (Z.eqb_neq n c)), (proj2 (Z.leb_gt _ _)) by lia. unfold cbind at 1. cbn [mget]. rewrite (proj2 (Z.eqb_neq _ _)) by lia. unfold cbind at 1.
      rewrite (thread_overruns NR_EVENT_CHANNELS E D HE s); [done|done|lia|by rewrite Hc|lia].
  - destruct Hop. apply wp_bind. eapply wp_mono; [by apply tally_read|]. intros [err u] s' T'. by apply wp_ret.
Qed.
Lemma tally_ops ops x s : tally x s -> Forall (op_ok E D) ops ->
  match foldl tally_step (Some x) ops with
  | Some y => wp (run_ops NR_EVENT_CHANNELS ops) (fun _ => tally y) s
  | None => run_ops NR_EVENT_CHANNELS ops s = Halted "xenevt_ring index"
  end.
Proof using HE.
  revert x s. induction ops as [|op ops IH]; intros x s T Hops; cbn [foldl run_ops]; [by apply wp_ret|].
  apply Forall_cons in Hops as [Hop Hops]. pose proof (tally_op op x s T Hop) as H1. destruct (tally_step (Some x) op) as [y|].
  - destruct (wp_run _ _ _ H1) as (o & s1 & Er & T1). specialize (IH y s1 T1 Hops). destruct (foldl tally_step (Some y) ops) as [z|].
    + apply wp_bind. eapply run_wp; [exact Er|]. apply wp_bind. eapply wp_mono; [exact IH|]. intros os s2 T2. by apply wp_ret.
    + unfold cbind. by rewrite Er, IH.
  - rewrite tally_none. unfold cbind. by rewrite H1.
Qed.
End Bounds.

(** ** Writing and closing *)
Section Control.
Context {H : Type}.
Variable hv_op : evop -> H -> (Z * Z) * H.
Variables (NR_EVENT_CHANNELS evtdev_handler : Z).
Abbreviation evd := (evd (H := H)).
Implicit Types (s : evd).

(** A call of the event channel layer that calls no handler. *)
Lemma wp_in_ev {A} (m : M evst A) s (Q : A -> evd -> Prop) : wp m (fun r e => ev_calls e = ev_calls (ev s) /\ Q r (set_ev e s)) (ev s) -> wp (in_ev evtdev_handler m) Q s.
Proof.
  intros Hm. unfold in_ev. apply wp_bind, wp_gets. apply wp_bind, wp_zoom. eapply wp_mono; [exact Hm|]. intros r e [Ec HQ]. apply wp_bind, wp_gets. cbn [ev set_ev].
  rewrite Ec, drop_all. apply wp_bind, wp_ret. by apply wp_ret.
Qed.
Lemma wp_unmask_quiet p (e : evst (H := H)) (Q : unit -> evst -> Prop) : Z.testbit (evtchn_pending e) p = false -> Q tt (set_mask (bit_clear p (evtchn_mask e)) e) -> wp (minios_unmask_evtchn p) Q e.
Proof. intros Hp HQ. unfold minios_unmask_evtchn. apply wp_bind, wp_modify. apply wp_bind, wp_get. cbn [evtchn_pending set_mask]. rewrite Hp. by apply wp_ret. Qed.

(** A write of pairs of bytes unmasks the ports it names that are the device's. *)
Definition unmasks s (d : Z) (bytes : list Z) (l : list Z) (p : Z) : bool :=
  bool_decide (Exists (fun i => chan bytes i = p) l) && (p <? NR_EVENT_CHANNELS) && bool_decide (devevents s !! p = Some d).
Lemma wp_write_chans d bytes l s : Forall (fun b => 0 <= b) bytes -> evtchn_pending (ev s) = 0 ->
  wp (mfor (write_chan NR_EVENT_CHANNELS evtdev_handler d bytes) l) (fun _ s' => exists m, s' = set_ev (set_mask m (ev s)) s /\
    forall p, 0 <= p -> Z.testbit m p = Z.testbit (evtchn_mask (ev s)) p && negb (unmasks s d bytes l p)) s.
Proof.
  intros Hb. revert s. induction l as [|i l IH]; intros s Hp; cbn [mfor].
  { apply wp_ret. exists (evtchn_mask (ev s)). split; [by destruct s as [? ? ? ? ? ? ? ? ? []]|]. intros p Hp0. unfold unmasks. by rewrite andb_true_r. }
  set (c := chan bytes i). assert (Hc : 0 <= c).
  { unfold c, chan. assert (forall j, 0 <= default 0 (bytes !! j)); [|pose proof (H0 (Z.to_nat (2 * i))); pose proof (H0 (Z.to_nat (2 * i + 1))); lia].
    intros j. destruct (bytes !! j) eqn:Ej; [|done]. exact (Forall_lookup_1 _ _ _ _ Hb Ej). }
  set (hit := (c <? NR_EVENT_CHANNELS) && bool_decide (devevents s !! c = Some d)).
  assert (Hone : wp (write_chan NR_EVENT_CHANNELS evtdev_handler d bytes i) (fun _ s' => s' = if hit then set_ev (set_mask (bit_clear c (evtchn_mask (ev s))) (ev s)) s else s) s).
  { unfold write_chan. fold c. unfold hit. destruct (c <? NR_EVENT_CHANNELS) eqn:Ec; [|by apply wp_ret]. apply wp_bind. unfold devevents_get. apply wp_bind, wp_assert; [done|]. apply wp_gets.
    cbn [andb]. destruct (bool_decide (devevents s !! c = Some d)); [|by apply wp_ret]. apply wp_in_ev, wp_unmask_quiet; [by rewrite Hp, Z.testbit_0_l|done]. }
  apply wp_bind. eapply wp_mono; [exact Hone|]. intros [] s1 ->. eapply wp_mono; [apply IH; by destruct hit|]. intros [] s2 (m & -> & Hm). exists m.
  split; [by destruct hit|]. intros p Hp0. rewrite Hm by done. replace (unmasks (if hit then _ else s) d bytes l p) with (unmasks s d bytes l p) by (by destruct hit).
  assert (Ecase : unmasks s d bytes (i :: l) p = unmasks s d bytes l p || (hit && (p =? c))).
  { unfold unmasks, hit. destruct (Z.eqb_spec p c) as [->|Hne].
    - rewrite (bool_decide_eq_true_2 (Exists _ (i :: l))) by (by left). destruct (bool_decide (Exists _ l)), (c <? NR_EVENT_CHANNELS), (bool_decide (devevents s !! c = Some d)); done.
    - rewrite andb_false_r, orb_false_r. f_equal. f_equal. apply bool_decide_ext. rewrite Exists_cons. split; [intros [Hx|Hx]; [by subst p|done]|by right]. }
  rewrite Ecase. destruct hit; cbn [ev set_ev evtchn_mask set_mask].
  - rewrite testbit_clear by done. destruct (Z.testbit (evtchn_mask (ev s)) p), (unmasks s d bytes l p), (p =? c); done.
  - by rewrite orb_false_r.
Qed.
Lemma wp_write d bytes s : Forall (fun b => 0 <= b) bytes -> evtchn_pending (ev s) = 0 -> devevent_lock s = false -> bytes <> [] ->
  zlen bytes <= 2 * NR_EVENT_CHANNELS -> zlen bytes mod 2 = 0 ->
  wp (xenevt_dev_write NR_EVENT_CHANNELS evtdev_handler d bytes 0) (fun r s' => r = 0 /\ exists m, s' = set_ev (set_mask m (ev s)) s /\
    forall p, 0 <= p -> Z.testbit m p = Z.testbit (evtchn_mask (ev s)) p && negb (unmasks s d bytes (seqZ 0 (zlen bytes / 2)) p)) s.
Proof.
  intros Hb Hp Hl Hne Hlen Hev. pose proof (Z.div_mod (zlen bytes) 2 ltac:(lia)). unfold xenevt_dev_write. destruct bytes as [|b0 bs]; [done|]. set (bytes := b0 :: bs) in *.
  destruct (Z.eqb_spec (zlen bytes) 0); [cbn in *; lia|]. destruct (Z.ltb_spec NR_EVENT_CHANNELS (zlen bytes / 2)); [lia|].
  apply wp_bind, wp_assert; [apply Z.leb_le; lia|]. cbn [Z.eqb negb]. apply wp_bind. unfold devevent_enter. apply wp_bind, wp_get. rewrite Hl. apply wp_modify.
  apply wp_bind. eapply wp_mono; [by apply wp_write_chans|]. intros [] s1 (m & -> & Hm). apply wp_bind, wp_modify. apply wp_ret. split; [done|]. exists m. split; [|exact Hm].
  destruct s. cbn in *. by rewrite Hl.
Qed.
(** An odd number of bytes is copied into a buffer one byte shorter. *)
Lemma write_odd_overruns d bytes fault s : zlen bytes mod 2 = 1 -> zlen bytes <= 2 * NR_EVENT_CHANNELS + 1 ->
  xenevt_dev_write NR_EVENT_CHANNELS evtdev_handler d bytes fault s = Halted "uiomove past chans".
Proof.
  intros Hodd Hlen. pose proof (Z.div_mod (zlen bytes) 2 ltac:(lia)). unfold xenevt_dev_write. destruct (Z.eqb_spec (zlen bytes) 0) as [E0|]; [rewrite E0 in Hodd; done|].
  destruct (Z.ltb_spec NR_EVENT_CHANNELS (zlen bytes / 2)); [lia|]. unfold cbind, massert. destruct (Z.leb_spec (zlen bytes) (zlen bytes / 2 * 2)); [lia|]. done.
Qed.

(** ** Closing *)
Lemma wp_unbind (e : evst (H := H)) p a : ev_actions e !! Z.to_nat p = Some a -> ea_lock a = false ->
  wp (minios_unbind_evtchn hv_op p) (fun _ e' => ev_calls e' = ev_calls e /\ ev_actions e' = <[Z.to_nat p := EvAction false default_handler NULL (ea_count a)]> (ev_actions e)) e.
Proof.
  intros Ea El. pose proof (lookup_lt_Some _ _ _ Ea) as Hlt. unfold minios_unbind_evtchn, spin_lock, spin_unlock, set_handler, action_get, action_put, minios_mask_evtchn, minios_clear_evtchn.
  repeat (apply wp_bind). apply wp_get. eapply wp_opt; [exact Ea|]. rewrite El. apply wp_modify. apply wp_bind. apply wp_modify. apply wp_bind. apply wp_modify. cbn [ev_actions set_actions set_mask set_pending ea_lock ea_handler ea_data ea_count].
  repeat (apply wp_bind). apply wp_get. cbn [ev_actions set_actions set_mask set_pending ea_lock ea_handler ea_data ea_count]. eapply wp_opt; [by apply list_lookup_insert_eq|]. apply wp_modify. cbn [ev_actions set_actions set_mask set_pending ea_lock ea_handler ea_data ea_count]. rewrite list_insert_insert_eq.
  repeat (apply wp_bind). apply wp_get. cbn [ev_actions set_actions set_mask set_pending ea_lock ea_handler ea_data ea_count]. eapply wp_opt; [by apply list_lookup_insert_eq|]. apply wp_modify. cbn [ev_actions set_actions set_mask set_pending ea_lock ea_handler ea_data ea_count]. rewrite list_insert_insert_eq.
  apply wp_bind, wp_modify. unfold HYPERVISOR_event_channel_op. repeat (apply wp_bind). apply wp_get. destruct (hv_op _ _) as [r h]. apply wp_bind, wp_modify, wp_ret, wp_ret. done.
Qed.
(** The ports of the device have their entry of the event channel layer, unlocked. *)
Definition acts_ok s (d : Z) : Prop := forall p, devevents s !! p = Some d -> exists a, ev_actions (ev s) !! Z.to_nat p = Some a /\ ea_lock a = false.
Record ports_closed s (d : Z) (l : list Z) s' : Prop := {
  pc_frame : s' = set_ev (ev s') (set_devevents (devevents s') s);
  pc_acts : acts_ok s' d;
  pc_mine : forall p, p ∈ l -> devevents s' !! p <> Some d;
  pc_other : forall p, devevents s !! p <> Some d -> devevents s' !! p = devevents s !! p;
  pc_gone : forall p, devevents s !! p = Some d -> devevents s' !! p = Some d \/ devevents s' !! p = None
}.
Lemma set_back s : s = set_ev (ev s) (set_devevents (devevents s) s).
Proof. by destruct s. Qed.
Lemma wp_close_port d i s : acts_ok s d -> i < NR_EVENT_CHANNELS -> wp (close_port hv_op NR_EVENT_CHANNELS evtdev_handler d i) (fun _ => ports_closed s d [i]) s.
Proof.
  intros Ha Hi. unfold close_port. apply wp_bind. unfold devevents_get. apply wp_bind, wp_assert; [by apply Z.ltb_lt|]. apply wp_gets. case_bool_decide as Eo.
  - destruct (Ha i Eo) as (a & Ea & El). apply wp_bind, wp_in_ev. eapply wp_mono; [by apply (wp_unbind _ _ a)|]. intros [] e [Ec Eacts]. split; [done|]. apply wp_modify. split; cbn; [done| | | |].
    + intros p. cbn. intros Ep. destruct (decide (p = i)) as [->|Hne]; [by rewrite lookup_delete_eq in Ep|]. rewrite lookup_delete_ne in Ep by done. destruct (Ha p Ep) as (a' & Ea' & El').
      rewrite Eacts. destruct (decide (Z.to_nat p = Z.to_nat i)) as [->|]; [eexists; by rewrite list_lookup_insert_eq by (by eapply lookup_lt_Some)|]. rewrite list_lookup_insert_ne by done. by exists a'.
    + intros p ->%list_elem_of_singleton. by rewrite lookup_delete_eq.
    + intros p Hp. rewrite lookup_delete_ne; [done|]. congruence.
    + intros p Hp. destruct (decide (p = i)) as [->|]; [right; by rewrite lookup_delete_eq|left; by rewrite lookup_delete_ne].
  - apply wp_ret. split; [apply set_back|done| |done|by left]. intros p ->%list_elem_of_singleton. done.
Qed.
Lemma wp_close_ports d l s : acts_ok s d -> Forall (fun i => i < NR_EVENT_CHANNELS) l -> wp (mfor (close_port hv_op NR_EVENT_CHANNELS evtdev_handler d) l) (fun _ => ports_closed s d l) s.
Proof.
  revert s. induction l as [|i l IH]; intros s Ha Hl; cbn [mfor].
  { apply wp_ret. split; [apply set_back|done| |done|by left]. by intros p ?%elem_of_nil. }
  apply Forall_cons in Hl as [Hi Hl]. apply wp_bind. eapply wp_mono; [by apply wp_close_port|]. intros [] s1 [F1 A1 M1 O1 G1]. eapply wp_mono; [by apply IH|]. intros [] s2 [F2 A2 M2 O2 G2].
  assert (Hkeep : forall p, devevents s1 !! p <> Some d -> devevents s2 !! p <> Some d) by (intros p Hp; by rewrite O2).
  split; [|done| | |].
  - rewrite F2, F1. done.
  - intros p [->|Hp]%elem_of_cons; [apply Hkeep, M1; set_solver|by apply M2].
  - intros p Hp. rewrite O2; [by apply O1|]. by rewrite O1.
  - intros p Hp. destruct (G1 p Hp) as [E1|E1]; [by apply G2|]. right. by rewrite O2; rewrite E1.
Qed.
Lemma wp_close d v s : devs s !! d = Some v -> d_lock v = false -> devevent_lock s = false -> acts_ok s d -> (forall p d', devevents s !! p = Some d' -> 0 <= p < NR_EVENT_CHANNELS) ->
  wp (xenevt_dev_close hv_op NR_EVENT_CHANNELS evtdev_handler d) (fun r s' => r = 0 /\ devs s' = delete d (devs s) /\ devevent_lock s' = false /\
    (forall p, devevents s' !! p = if bool_decide (devevents s !! p = Some d) then None else devevents s !! p) /\
    used_after_free s' = used_after_free s ++ [d]) s.
Proof.
  intros Ev El Hlk Ha Hr. unfold xenevt_dev_close. apply wp_bind. unfold devevent_enter. apply wp_bind, wp_get. rewrite Hlk. apply wp_modify. apply wp_bind. eapply wp_dev_enter; [exact Ev|done|].
  set (s1 := put_dev d (set_dlock true v) (set_delock true s)). apply wp_bind. eapply wp_mono; [apply (wp_close_ports d _ s1); [exact Ha|]|].
  { apply Forall_forall. intros i Hi%elem_of_seqZ. lia. }
  intros [] s2 [F A M O G]. assert (Ed2 : devs s2 = devs s1) by (by rewrite F). apply wp_bind. eapply wp_dev_exit; [rewrite Ed2; apply put_get|]. apply wp_bind, wp_modify. apply wp_bind, wp_modify. apply wp_bind, wp_modify. apply wp_ret.
  cbn. rewrite lookup_delete_eq. cbn. rewrite Ed2. cbn. split_and!; [done|by rewrite !delete_insert_eq|done| |by rewrite F].
  intros p. case_bool_decide as Ep; [|by apply O]. destruct (G p Ep) as [E2|]; [|done]. exfalso. apply (M p); [|done]. apply elem_of_seqZ. pose proof (Hr p d Ep). lia.
Qed.
End Control.

(** C7. The event channel device, from the interrupt to the reader.  With the ports [E]
    bound to open devices, however firings of bound ports, turns of the delivery thread
    and reads are interleaved, as long as no more than 2047 ports have fired since the
    driver started every call returns, and for every device the ports it was sent, in the
    order they fired, are exactly those its readers got, followed by those still in its
    ring, followed by those still in the driver's: none lost, doubled or reordered. *)
Theorem evtdev_delivers {H} NR (E : gmap Z Z) (D : gset Z) n ops (s : evd (H := H)) :
  (forall p d, E !! p = Some d -> p < NR /\ d ∈ D) -> flow E D n s -> Forall (op_ok E D) ops -> n + zlen (fires ops) <= 2047 ->
  wp (run_ops NR ops) (fun os s' => flow E D (n + zlen (fires ops)) s' /\ forall d v v', devs s !! d = Some v -> devs s' !! d = Some v' ->
    dq v ++ owned E d (drv s) ++ owned E d (fires ops) = read_by d os ++ dq v' ++ owned E d (drv s')) s.
Proof. intros HE F Hops Hn. by apply (wp_run_ops NR E D HE). Qed.

(** C26. The bound of the driver's ring, for every sequence of firings of bound ports,
    turns of the delivery thread and reads from the driver's start.  [tally_of] counts the
    events taken and delivered: an event that finds 2047 undelivered ones is dropped.  As
    long as it has a count every call returns and the indices of the ring are those
    counts; and exactly when the thread runs with something to deliver after more than
    2047 events have been taken it reads past the end of the ring, because it does not
    reduce its index when the ring wraps. *)
Theorem evtdev_ring_bounds {H} NR (E : gmap Z Z) (D : gset Z) ops (s : evd (H := H)) :
  (forall p d, E !! p = Some d -> p < NR /\ d ∈ D) -> flow E D 0 s -> Forall (op_ok E D) ops ->
  match tally_of ops with
  | Some (n, c) => wp (run_ops NR ops) (fun _ s' => xenevt_ring_prod s' = n mod 2048 /\ xenevt_ring_cons s' = c /\ 0 <= c < 2048 /\ c <= n <= c + 2047) s
  | None => run_ops NR ops s = Halted "xenevt_ring index"
  end.
Proof.
  intros HE F Hops. assert (Hc : xenevt_ring_cons s = 0) by (pose proof (fl_cons _ _ _ _ F); pose proof (bo_cons _ _ _ (fl_base _ _ _ _ F)); unfold idx_ok in *; lia).
  pose proof (tally_ops NR E D HE ops (0, 0) s (tally_flow E D 0 0 s ltac:(lia) F Hc) Hops) as Ht. unfold tally_of. destruct (foldl _ _ _) as [[n c]|]; [|done].
  eapply wp_mono; [exact Ht|]. intros _ s' [(Hn & F' & Hc')|[B Hn Hp Hc' _ _]]%tally_cases.
  - pose proof F' as [[_ Hci Hpi _ _ _ _] Hp Hcn _ _ _]. unfold idx_ok in *. rewrite Z.mod_small by lia. split_and!; lia.
  - pose proof (bo_cons _ _ _ B). unfold idx_ok in *. replace n with (n - 2048 + 1 * 2048) by lia. rewrite Z_mod_plus_full, Z.mod_small by lia. split_and!; lia.
Qed.

(** xenevt_dev_read of an open device.  It fails with EFBIG when the ring has
    overflowed, changing nothing; with an empty ring it fails with EAGAIN if it may not
    wait, with the signal's error if a signal comes, and otherwise goes on with the ports
    that woke it; and then it moves as many whole ports as the buffer has room for, oldest
    first, whether or not the ring wraps, and removes exactly those. *)
Theorem xenevt_read_correct {H} d nonblock v u (s : evd (H := H)) :
  devs s !! d = Some v -> dev_ok v -> d_lock v = false -> 0 <= uio_resid u -> uio_faults u = [] ->
  (nonblock = true \/ dq v <> [] \/ overflowed v = true -> wp (xenevt_dev_read d nonblock u) (read_post d v u s) s) /\
  (dq v = [] -> overflowed v = false -> forall w ws, wakes s = w :: ws ->
   match w with
   | WakePorts l => l <> [] -> wp (xenevt_dev_read d false u) (read_post d (queue_all l v) u (set_wakes ws (put_dev d (queue_all l v) s))) s /\
       dq (queue_all l v) = take 2047 l /\ overflowed (queue_all l v) = (2047 <? zlen l)
   | WakeSignal e => e <> 0 -> wp (xenevt_dev_read d false u) (fun r s' => r = (e, u) /\ s' = set_wakes ws s) s
   end).
Proof.
  intros Ev Hok El Hr Ef. split; [by apply wp_read|]. intros Eq Eo w ws Ew. pose proof (wp_read_sleeps d v u w ws s Ev Hok El Hr Ef Eq Eo Ew) as Hs.
  destruct w as [l|e]; [|done]. intros Hl. split; [by apply Hs|]. destruct (queue_all_dq l v Hok) as [-> ->]. by rewrite Eq, Eo.
Qed.

(** ** An example: ports 5 and 9 of device 0, port 7 of device 1. *)
Definition fresh_dev : xenevt_dev_data := Dev (replicate 2048 0) 0 0 0 false.
Definition example_ports : gmap Z Z := {[5 := 0; 9 := 0; 7 := 1]}.
Definition evd_example : evd (H := unit) :=
  Evd (replicate 2048 0) 0 0 0 {[0 := fresh_dev; 1 := fresh_dev]} example_ports false [] [WakePorts [9; 5]]
    (Evst (replicate 1024 (EvAction false default_handler NULL 0)) 0 0 0 0 false false false [] tt).
Lemma example_ports_ok p d : example_ports !! p = Some d -> p < 4096 /\ d ∈ ({[0; 1]} : gset Z).
Proof. unfold example_ports. intros [[<- <-]|[_ [[<- <-]|[_ [<- <-]%lookup_singleton_Some]]%lookup_insert_Some]]%lookup_insert_Some; (split; [lia|set_solver]). Qed.
Lemma fresh_ok : dev_ok fresh_dev.
Proof. split; [apply length_replicate|unfold idx_ok; cbn; lia..]. Qed.
Lemma evd_example_flow : flow example_ports {[0; 1]} 0 evd_example.
Proof.
  split; try done; [split; try done|].
  - apply map_Forall_insert_2; [split; [apply fresh_ok|done]|]. apply map_Forall_singleton. split; [apply fresh_ok|done].
  - apply map_Forall_insert_2; [by split|]. apply map_Forall_singleton. by split.
Qed.

Lemma evtdev_delivers_witness :
  wp (run_ops 4096 [Fire 9; Fire 7; Turn; Fire 5; Read 0 8; Turn]) (fun os s' => flow example_ports {[0; 1]} 3 s' /\
    forall d v v', devs evd_example !! d = Some v -> devs s' !! d = Some v' ->
    dq v ++ owned example_ports d (drv evd_example) ++ owned example_ports d [9; 7; 5] = read_by d os ++ dq v' ++ owned example_ports d (drv s')) evd_example.
Proof.
  apply (evtdev_delivers 4096 example_ports {[0; 1]} 0 [Fire 9; Fire 7; Turn; Fire 5; Read 0 8; Turn] evd_example example_ports_ok evd_example_flow).
  - repeat apply Forall_cons_2; [by eexists|by eexists|done|by eexists|split; [set_solver|lia]|done|done].
  - cbn. lia.
Defined.

(** Port 5 fires again and again, the thread running after each: the 2048th turn leaves the
    ring.  Fired as often before the thread runs at all, the last event is dropped. *)
Definition rounds (k : nat) (p : Z) : list evd_op := concat (replicate k [Fire p; Turn]).
Lemma rounds_ok k : Forall (op_ok example_ports {[0; 1]}) (rounds k 5).
Proof. unfold rounds. induction k as [|k IH]; [done|]. cbn [replicate concat app]. apply Forall_cons_2; [by eexists|]. by apply Forall_cons_2. Qed.
Lemma evtdev_ring_bounds_witness :
  wp (run_ops 4096 (rounds 2000 5)) (fun _ s' => xenevt_ring_prod s' = 2000 mod 2048 /\ xenevt_ring_cons s' = 2000 /\ 0 <= 2000 < 2048 /\ 2000 <= 2000 <= 2000 + 2047) evd_example /\
  run_ops 4096 (rounds 2048 5) evd_example = Halted "xenevt_ring index" /\
  wp (run_ops 4096 (replicate 2048 (Fire 5) ++ [Turn])) (fun _ s' => xenevt_ring_prod s' = 2047 mod 2048 /\ xenevt_ring_cons s' = 2047 /\ 0 <= 2047 < 2048 /\ 2047 <= 2047 <= 2047 + 2047) evd_example.
Proof.
  assert (E1 : tally_of (rounds 2000 5) = Some (2000, 2000)) by (vm_compute; reflexivity).
  assert (E2 : tally_of (rounds 2048 5) = None) by (vm_compute; reflexivity).
  assert (E3 : tally_of (replicate 2048 (Fire 5) ++ [Turn]) = Some (2047, 2047)) by (vm_compute; reflexivity).
  split_and!.
  - pose proof (evtdev_ring_bounds 4096 example_ports {[0; 1]} (rounds 2000 5) evd_example example_ports_ok evd_example_flow (rounds_ok _)) as Hw. by rewrite E1 in Hw.
  - pose proof (evtdev_ring_bounds 4096 example_ports {[0; 1]} (rounds 2048 5) evd_example example_ports_ok evd_example_flow (rounds_ok _)) as Hw. by rewrite E2 in Hw.
  - pose proof (evtdev_ring_bounds 4096 example_ports {[0; 1]} (replicate 2048 (Fire 5) ++ [Turn]) evd_example example_ports_ok evd_example_flow) as Hw.
    rewrite E3 in Hw. apply Hw. apply Forall_app. split; [apply Forall_replicate; by eexists|by apply Forall_cons_2].
Defined.

Lemma xenevt_read_correct_witness :
  wp (xenevt_dev_read 0 true (Uio 8 [] [])) (read_post 0 fresh_dev (Uio 8 [] []) evd_example) evd_example /\
  wp (xenevt_dev_read 0 false (Uio 4 [] [])) (read_post 0 (queue_all [9; 5] fresh_dev) (Uio 4 [] []) (set_wakes [] (put_dev 0 (queue_all [9; 5] fresh_dev) evd_example))) evd_example.
Proof.
  split.
  - apply (xenevt_read_correct 0 true fresh_dev (Uio 8 [] []) evd_example); [reflexivity|exact fresh_ok|reflexivity|cbn; lia|reflexivity|by left].
  - exact (proj1 (proj2 (xenevt_read_correct 0 false fresh_dev (Uio 4 [] []) evd_example eq_refl fresh_ok eq_refl ltac:(cbn; lia) eq_refl)
      eq_refl eq_refl (WakePorts [9; 5]) [] eq_refl ltac:(discriminate))).
Defined.
