(* ===== verification/Blk.v ===== *)
(** * Block devices of the Xen guest (platform/xen/rumphyper_bio.c, platform/xen/xen/blkfront.c)

    The rump kernel's block requests become requests in a ring shared with the backend;
    a thread collects the answers and calls back.  The ring is Xen's: requests leave in
    the order they are pushed, answers arrive as the backend gives them ([rq_ring] and
    [rs_ring]); a slot is in use from the push to the collection of the answer.  Grants
    are an interface; control blocks are numbered by their address. *)
From stdpp Require Import pretty.
From S2P Require Import Prelude CString.

(** Xen's block interface. *)
Class XenBlk := {
  BLKIF_OP_READ : Z;
  BLKIF_OP_WRITE : Z;
  BLKIF_OP_WRITE_BARRIER : Z;
  BLKIF_OP_FLUSH_DISKCACHE : Z;
  BLKIF_MAX_SEGMENTS_PER_REQUEST : Z;
  RING_SIZE : Z
}.
(** Grants, as platform/xen/xen/gnttab.c gives them out: [None] when there is no entry,
    for which the caller would wait. *)
Class Grants (G : Type) := {
  grant_access : Z -> Z -> bool -> G -> option (Z * G);      (* domain, frame, read-only *)
  end_access : Z -> G -> bool * G;
  grants_of : G -> gmap Z (Z * Z * bool);                    (* domain, frame, read-only *)
  grant_entries : Z                                          (* how many there can be *)
}.
Definition granted {G} `{Grants G} (g : G) : gset Z := dom (grants_of g).
(** gnttab_end_access gives up, and reports it, on a grant that the other side is using. *)
Class GrantsLaws (G : Type) `{Grants G} : Prop := {
  grant_law : forall d f ro g r g', grant_access d f ro g = Some (r, g') -> grants_of g !! r = None /\ grants_of g' = <[r := (d, f, ro)]> (grants_of g);
  grant_room : forall d f ro g, Z.of_nat (size (granted g)) < grant_entries -> is_Some (grant_access d f ro g);
  end_law : forall r g, r ∈ granted g -> grants_of (snd (end_access r g)) = if fst (end_access r g) then delete r (grants_of g) else grants_of g
}.
(** The other side has let go of what it is asked for. *)
Class GrantsPrompt (G : Type) `{Grants G} : Prop := end_prompt : forall r g, r ∈ granted g -> fst (end_access r g) = true.

Section Laws.
Context {G : Type} `{GL : GrantsLaws G}.
Lemma grant_fresh d f ro g r g' : grant_access d f ro g = Some (r, g') -> r ∉ granted g /\ granted g' = {[r]} ∪ granted g.
Proof using GL. intros E. destruct (grant_law _ _ _ _ _ _ E) as [Hn Eg]. unfold granted. rewrite Eg, dom_insert_L. split; [by apply not_elem_of_dom|done]. Qed.
Lemma end_some r g : r ∈ granted g -> granted (snd (end_access r g)) = if fst (end_access r g) then granted g ∖ {[r]} else granted g.
Proof using GL. intros Hr. unfold granted. rewrite end_law by done. destruct (fst _); [apply dom_delete_L|done]. Qed.
Lemma end_known {GP : GrantsPrompt G} r g : r ∈ granted g -> granted (snd (end_access r g)) = granted g ∖ {[r]}.
Proof using GL. intros Hr. by rewrite end_some, end_prompt. Qed.
End Laws.

Definition PAGE : Z := 4096.
Definition PAGE_LOW : Z := 4095.
Definition BMK_EIO : Z := 5.
Definition BMK_ENXIO : Z := 6.
Definition BMK_EBADF : Z := 9.
Definition BMK_EROFS : Z := 30.
Definition NBLKDEV : Z := 10.
Definition BLKFDOFF : Z := 64.

(** The callback of a control block: biocomp with its biocb, or blkfront_aio_cb. *)
Inductive aio_callback := CbBio (bio_num bio_arg : Z) | CbSync.
Record aiocb := Aiocb { aio_dev : Z; aio_buf : Z; aio_nbytes : Z; aio_offset : Z; aio_n : Z; aio_gref : list Z; aio_cb : aio_callback; aio_data : bool }.
Definition set_grefs n l a := Aiocb (aio_dev a) (aio_buf a) (aio_nbytes a) (aio_offset a) n l (aio_cb a) (aio_data a).
Definition set_data b a := Aiocb (aio_dev a) (aio_buf a) (aio_nbytes a) (aio_offset a) (aio_n a) (aio_gref a) (aio_cb a) b.
Record seg := Seg { seg_gref : Z; first_sect : Z; last_sect : Z }.
Record request := Request { rq_op : Z; rq_id : Z; rq_sector : Z; rq_segs : list seg }.
Record response := Response { rs_id : Z; rs_op : Z; rs_status : Z }.
Record blkfront_info := Info { sectors : Z; sector_size : Z; rdwr : bool; barrier : bool; flush : bool }.
Record blkfront_dev := Front { fd_dom : Z; fd_info : blkfront_info; ring_used : Z; rq_ring : list request; rs_ring : list response }.
Definition set_rings u q r d := Front (fd_dom d) (fd_info d) u q r.
Record blkdev := Blkdev { blk_dev : Z; blk_info : blkfront_info; blk_open : Z; blk_outstanding : Z; blk_vbd : Z }.
Definition set_blk_dev v b := Blkdev v (blk_info b) (blk_open b) (blk_outstanding b) (blk_vbd b).
Definition set_blk_open v b := Blkdev (blk_dev b) (blk_info b) v (blk_outstanding b) (blk_vbd b).
Definition set_blk_out v b := Blkdev (blk_dev b) (blk_info b) (blk_open b) v (blk_vbd b).
Definition set_blk_vbd v b := Blkdev (blk_dev b) (blk_info b) (blk_open b) (blk_outstanding b) v.
Definition BLANK : blkdev := Blkdev 0 (Info 0 0 false false false) 0 0 (-1).

(** What happens while a thread sleeps: the backend answers request [k] of a ring, or another
    thread collects the answers of a device. *)
Record answer := Answer { an_dev : Z; an_k : nat; an_status : Z }.
Inductive meanwhile := Ans (a : answer) | OtherPoll (d : Z).

Section Blk.
Context `{XB : XenBlk} {G : Type} `{GR : Grants G}.
Variable virtual_to_mfn : Z -> Z.

Record blk := Blk {
  blkdevs : list blkdev;
  bio_outstanding_total : Z;
  fronts : gmap Z blkfront_dev;
  aiocbs : gmap Z aiocb;
  grants : G;
  biodone : list (Z * Z * Z);           (* calls of bio_done: argument, bytes, error *)
  backend : list (list meanwhile);      (* what happens in the sleeps to come *)
  warned : list Z                       (* g.e. still in use *)
}.
Definition set_blkdevs v s := Blk v (bio_outstanding_total s) (fronts s) (aiocbs s) (grants s) (biodone s) (backend s) (warned s).
Definition set_total v s := Blk (blkdevs s) v (fronts s) (aiocbs s) (grants s) (biodone s) (backend s) (warned s).
Definition set_fronts v s := Blk (blkdevs s) (bio_outstanding_total s) v (aiocbs s) (grants s) (biodone s) (backend s) (warned s).
Definition set_aiocbs v s := Blk (blkdevs s) (bio_outstanding_total s) (fronts s) v (grants s) (biodone s) (backend s) (warned s).
Definition set_grants v s := Blk (blkdevs s) (bio_outstanding_total s) (fronts s) (aiocbs s) v (biodone s) (backend s) (warned s).
Definition add_done v s := Blk (blkdevs s) (bio_outstanding_total s) (fronts s) (aiocbs s) (grants s) (biodone s ++ [v]) (backend s) (warned s).
Definition add_warned r s := Blk (blkdevs s) (bio_outstanding_total s) (fronts s) (aiocbs s) (grants s) (biodone s) (backend s) (warned s ++ [r]).
Definition set_backend v s := Blk (blkdevs s) (bio_outstanding_total s) (fronts s) (aiocbs s) (grants s) (biodone s) v (warned s).

Definition blkdev_get (num : Z) : M blk blkdev :=
  massert (0 <=? num) "blkdevs index" ;;; s <-- mget ;; mopt (blkdevs s !! Z.to_nat num) "blkdevs index".
Definition blkdev_put (num : Z) (b : blkdev) : M blk unit := modify (fun s => set_blkdevs (<[Z.to_nat num := b]> (blkdevs s)) s).
Definition front_get (d : Z) : M blk blkfront_dev := s <-- mget ;; mopt (fronts s !! d) "struct blkfront_dev".
Definition front_put (d : Z) (f : blkfront_dev) : M blk unit := modify (fun s => set_fronts (<[d := f]> (fronts s)) s).
Definition aiocb_get (p : Z) : M blk aiocb := s <-- mget ;; mopt (aiocbs s !! p) "struct blkfront_aiocb".
Definition aiocb_put (p : Z) (a : aiocb) : M blk unit := modify (fun s => set_aiocbs (<[p := a]> (aiocbs s)) s).
Definition gnttab_grant_access (dom frame : Z) (ro : bool) : M blk Z :=
  s <-- mget ;; match grant_access dom frame ro (grants s) with Some (r, g) => modify (set_grants g) ;;; cret r | None => mnofuel end.
(** Its result, which the callers here do not look at; the warning it prints when it is 0. *)
Definition gnttab_end_access (r : Z) : M blk bool :=
  s <-- mget ;;
  let '(ok, g) := end_access r (grants s) in
  modify (set_grants g) ;;; (if ok : bool then cret tt else modify (add_warned r)) ;;; cret ok.

(** ** The backend *)
Definition answer_one (s : blk) (a : answer) : blk :=
  match fronts s !! an_dev a with
  | Some f =>
      match rq_ring f !! an_k a with
      | Some q => set_fronts (<[an_dev a := set_rings (ring_used f) (delete (an_k a) (rq_ring f)) (rs_ring f ++ [Response (rq_id q) (rq_op q) (an_status a)]) f]> (fronts s)) s
      | None => s
      end
  | None => s
  end.

(** ** Collecting answers *)
Definition biocomp (p num arg nbytes : Z) (ret : Z) : M blk unit :=
  modify (add_done (if negb (ret =? 0) then (arg, 0, BMK_EIO) else (arg, nbytes, 0))) ;;;
  modify (fun s => set_aiocbs (delete p (aiocbs s)) s) ;;;
  modify (fun s => set_total (s32 (bio_outstanding_total s - 1)) s) ;;;
  b <-- blkdev_get num ;; blkdev_put num (set_blk_out (s32 (blk_outstanding b - 1)) b).
Definition poll_response (d : Z) (rsp : response) : M blk unit :=
  (if (rs_op rsp =? BLKIF_OP_READ) || (rs_op rsp =? BLKIF_OP_WRITE) then
     a <-- aiocb_get (rs_id rsp) ;; mfor (fun r => gnttab_end_access r ;;; cret tt) (take (Z.to_nat (aio_n a)) (aio_gref a))
   else cret tt) ;;;
  f <-- front_get d ;; front_put d (set_rings (ring_used f - 1) (rq_ring f) (tail (rs_ring f)) f) ;;;
  if rs_id rsp =? 0 then cret tt else
  a <-- aiocb_get (rs_id rsp) ;;
  match aio_cb a with
  | CbBio num arg => biocomp (rs_id rsp) num arg (aio_nbytes a) (if negb (rs_status rsp =? 0) then - BMK_EIO else 0)
  | CbSync => aiocb_put (rs_id rsp) (set_data true a)
  end.
Definition poll_round (d : Z) (nr : Z) : M blk (Z + Z) :=
  f <-- front_get d ;;
  match rs_ring f with
  | [] => cret (inr nr)
  | rsp :: _ => poll_response d rsp ;;; cret (inl (s32 (nr + 1)))
  end.
Definition blkfront_aio_poll (d : Z) : M blk Z := loopM (poll_round d) 0.

(** minios_wait on blkfront_queue. *)
Definition meanwhile_one (e : meanwhile) : M blk unit :=
  match e with
  | Ans a => modify (fun s => answer_one s a)
  | OtherPoll d => s <-- mget ;; match fronts s !! d with Some _ => blkfront_aio_poll d ;;; cret tt | None => cret tt end
  end.
Definition sleep : M blk unit :=
  s <-- mget ;; match backend s with [] => mnofuel | l :: w => modify (set_backend w) ;;; mfor meanwhile_one l end.

(** ** Issuing requests *)
Definition ring_full (f : blkfront_dev) : bool := ring_used f =? RING_SIZE.
Definition slot_round (d : Z) (_ : unit) : M blk (unit + unit) :=
  blkfront_aio_poll d ;;;
  f <-- front_get d ;;
  if negb (ring_full f) then cret (inr tt) else sleep ;;; cret (inl tt).
Definition blkfront_wait_slot (d : Z) : M blk unit :=
  f <-- front_get d ;; if ring_full f then loopM (slot_round d) tt else cret tt.

Definition seg_first (buf j : Z) : Z := if j =? 0 then Z.land buf PAGE_LOW / 512 else 0.
Definition seg_last (buf nbytes n j : Z) : Z := if j =? n - 1 then Z.land (u64 (buf + nbytes - 1)) PAGE_LOW / 512 else PAGE / 512 - 1.
Fixpoint grant_segs (dom buf nbytes n start : Z) (write : bool) (j : Z) (k : nat) : M blk (list seg) :=
  match k with
  | O => cret []
  | S k =>
      r <-- gnttab_grant_access dom (virtual_to_mfn (u64 (start + j * PAGE))) write ;;
      l <-- grant_segs dom buf nbytes n start write (j + 1) k ;;
      cret (Seg r (seg_first buf j) (seg_last buf nbytes n j) :: l)
  end.
Definition push_request (d : Z) (q : request) : M blk unit :=
  f <-- front_get d ;; front_put d (set_rings (ring_used f + 1) (rq_ring f ++ [q]) (rs_ring f) f).
Definition num_segs (buf nbytes : Z) : Z :=
  let start := Z.land buf (u64 (Z.lnot PAGE_LOW)) in let end' := Z.land (u64 (buf + nbytes + PAGE - 1)) (u64 (Z.lnot PAGE_LOW)) in
  s32 (u64 (end' - start) / PAGE).
Definition blkfront_aio (p : Z) (write : bool) : M blk unit :=
  a <-- aiocb_get p ;;
  f <-- front_get (aio_dev a) ;;
  let mask := sector_size (fd_info f) - 1 in
  massert (Z.land (u64 (aio_offset a)) mask =? 0) "ASSERT(offset)" ;;;
  massert (Z.land (aio_nbytes a) mask =? 0) "ASSERT(nbytes)" ;;;
  massert (Z.land (aio_buf a) mask =? 0) "ASSERT(buf)" ;;;
  let n := num_segs (aio_buf a) (aio_nbytes a) in
  massert (n <=? BLKIF_MAX_SEGMENTS_PER_REQUEST) "ASSERT(n)" ;;;
  blkfront_wait_slot (aio_dev a) ;;;
  massert (0 <? n) "seg index" ;;;
  segs <-- grant_segs (fd_dom f) (aio_buf a) (aio_nbytes a) n (Z.land (aio_buf a) (u64 (Z.lnot PAGE_LOW))) write 0 (Z.to_nat n) ;;
  aiocb_put p (set_grefs n (map seg_gref segs) a) ;;;
  push_request (aio_dev a) (Request (if write then BLKIF_OP_WRITE else BLKIF_OP_READ) p (aio_offset a / 512) segs).
Definition blkfront_push_operation (d op id : Z) : M blk unit :=
  blkfront_wait_slot d ;;; push_request d (Request op id 0 []).
(** A read or write that waits for its answer. *)
Definition io_round (p d : Z) (_ : unit) : M blk (unit + unit) :=
  blkfront_aio_poll d ;;;
  a <-- aiocb_get p ;; if aio_data a then cret (inr tt) else sleep ;;; cret (inl tt).
Definition blkfront_io (p : Z) (write : bool) : M blk unit :=
  blkfront_aio p write ;;;
  a <-- aiocb_get p ;; aiocb_put p (set_data false a) ;;;
  loopM (io_round p (aio_dev a)) tt.
Definition sync_round (d : Z) (_ : unit) : M blk (unit + unit) :=
  blkfront_aio_poll d ;;;
  f <-- front_get d ;; if ring_used f =? 0 then cret (inr tt) else sleep ;;; cret (inl tt).
Definition blkfront_sync (d : Z) : M blk unit :=
  f <-- front_get d ;;
  (if rdwr (fd_info f) then
     (if barrier (fd_info f) then blkfront_push_operation d BLKIF_OP_WRITE_BARRIER 0 else cret tt) ;;;
     (if flush (fd_info f) then blkfront_push_operation d BLKIF_OP_FLUSH_DISKCACHE 0 else cret tt)
   else cret tt) ;;;
  loopM (sync_round d) tt.

(** ** Names of devices *)
Inductive devtype := DEV_SD | DEV_HD | DEV_XVD.
Definition XENBLK_MAGIC : list Z := [88; 69; 78; 66; 76; 75; 95].
Definition has_prefix (l name : list Z) : bool := bool_decide (take (length l) name = l).
Definition dev_type (name : list Z) : option (devtype * list Z) :=
  if has_prefix [104; 100] name then Some (DEV_HD, drop 2 name)
  else if has_prefix [115; 100] name then Some (DEV_SD, drop 2 name)
  else if has_prefix [120; 118; 100] name then Some (DEV_XVD, drop 3 name)
  else None.
Definition mkvbd (dt : devtype) (disk part : Z) : Z :=
  match dt with
  | DEV_HD =>
      if disk <? 2 then Z.lor (Z.lor (Z.shiftl 3 8) (Z.shiftl disk 6)) part
      else if disk <? 4 then Z.lor (Z.lor (Z.shiftl 22 8) (Z.shiftl (disk - 2) 6)) part
      else -1
  | DEV_SD => if (16 <? disk) || (16 <? part) then -1 else Z.lor (Z.lor (Z.shiftl 8 8) (Z.shiftl disk 4)) part
  | DEV_XVD =>
      if disk <? 16 then Z.lor (Z.lor (Z.shiftl 202 8) (Z.shiftl disk 4)) part
      else if 122 - 97 <? disk then -1
      else Z.lor (Z.lor (Z.shiftl 1 28) (Z.shiftl disk 8)) part
  end.
Definition devname2vbd (name : list Z) : Z :=
  if negb (has_prefix XENBLK_MAGIC name) then -1 else
  match dev_type (drop 7 name) with
  | None => -1
  | Some (dt, dp) =>
      match dp with
      | [c] => let disk := char_of c - 97 in if disk <? 0 then -1 else mkvbd dt disk 0
      | [c; e] =>
          let disk := char_of c - 97 in let part := char_of e - 48 in
          if (disk <? 0) || (part <? 0) || (9 <? part) then -1 else mkvbd dt disk part
      | _ => -1
      end
  end.
Definition devname2num (name : list Z) : M blk Z :=
  let vbd := devname2vbd name in
  if vbd =? -1 then cret (-1) else
  s <-- mget ;;
  match list_find (fun b => blk_vbd b = vbd) (blkdevs s) with
  | Some (i, _) => cret (Z.of_nat i)
  | None =>
      match list_find (fun b => blk_vbd b = -1) (blkdevs s) with
      | Some (i, b) => blkdev_put (Z.of_nat i) (set_blk_vbd vbd b) ;;; cret (Z.of_nat i)
      | None => cret (-1)
      end
  end.

(** ** Opening and closing

    [blkfront_init] is what connecting to the path gave: a device, and its data. *)
Definition vbd_path (vbd : Z) : string := "device/vbd/" +:+ pretty vbd.
Section Open.
Variable blkfront_init : string -> option (Z * blkfront_dev).
Definition devopen (num : Z) : M blk Z :=
  massert (num <? NBLKDEV) "bmk_assert(num < NBLKDEV)" ;;;
  b <-- blkdev_get num ;;
  if negb (blk_open b =? 0) then blkdev_put num (set_blk_open (s32 (blk_open b + 1)) b) ;;; cret 1 else
  match blkfront_init (vbd_path (blk_vbd b)) with
  | Some (d, f) =>
      front_put d f ;;;
      blkdev_put num (Blkdev d (fd_info f) 1 (blk_outstanding b) (blk_vbd b)) ;;; cret 0
  | None => blkdev_put num (set_blk_dev 0 b) ;;; cret BMK_EIO
  end.
(** The result and the descriptor; the mode as its bits BIO and a writing access. *)
Definition rumpuser_open (name : list Z) (bio write : bool) : M blk (Z * option Z) :=
  if negb bio then cret (BMK_ENXIO, None) else
  num <-- devname2num name ;;
  if num =? -1 then cret (BMK_ENXIO, None) else
  rv <-- devopen num ;;
  if negb (rv =? 0) then cret (rv, None) else
  b <-- blkdev_get num ;;
  if write && negb (rdwr (blk_info b)) then cret (BMK_EROFS, None) else cret (0, Some (BLKFDOFF + num)).
Definition rumpuser_close (fd : Z) : M blk Z :=
  let rfd := s32 (fd - BLKFDOFF) in
  if (rfd <? 0) || (NBLKDEV <? rfd + 1) then cret BMK_EBADF else
  b <-- blkdev_get rfd ;;
  let open' := s32 (blk_open b - 1) in
  (if open' =? 0 then
     blkdev_put rfd (set_blk_dev 0 (set_blk_open open' b)) ;;;
     modify (fun s => set_fronts (delete (blk_dev b) (fronts s)) s)
   else blkdev_put rfd (set_blk_open open' b)) ;;;
  cret 0.
Definition rumpuser_getfileinfo (name : list Z) : M blk (Z * option Z) :=
  num <-- devname2num name ;;
  if num =? -1 then cret (BMK_ENXIO, None) else
  rv <-- devopen num ;;
  if negb (rv =? 0) then cret (rv, None) else
  b <-- blkdev_get num ;;
  let size := u64 (sectors (blk_info b) * sector_size (blk_info b)) in
  rumpuser_close (num + BLKFDOFF) ;;;
  cret (0, Some size).
End Open.
Definition rumpuser_init : M blk unit := modify (fun s => set_blkdevs (map (set_blk_vbd (-1)) (blkdevs s)) s).

(** ** Requests of the rump kernel

    [p] is the control block that bmk_xmalloc_bmk gave. *)
Definition rumpuser_bio (p fd : Z) (read : bool) (data dlen off arg : Z) : M blk unit :=
  let num := s32 (fd - BLKFDOFF) in
  b <-- blkdev_get num ;;
  aiocb_put p (Aiocb (blk_dev b) data dlen off 0 [] (CbBio num arg) false) ;;;
  blkfront_aio p (negb read) ;;;
  modify (fun s => set_total (s32 (bio_outstanding_total s + 1)) s) ;;;
  b <-- blkdev_get num ;; blkdev_put num (set_blk_out (s32 (blk_outstanding b + 1)) b).

(** biothread: one pass over the devices. *)
Definition scan_dev (did i : Z) : M blk Z :=
  b <-- blkdev_get i ;;
  if negb (blk_outstanding b =? 0) then n <-- blkfront_aio_poll (blk_dev b) ;; cret (s32 (did + n)) else cret did.
Fixpoint scan_devs (did : Z) (l : list Z) : M blk Z :=
  match l with [] => cret did | i :: l => did <-- scan_dev did i ;; scan_devs did l end.
Definition biothread_round (did : Z) : M blk (Z + unit) :=
  did <-- scan_devs did (seqZ 0 NBLKDEV) ;;
  if negb (did =? 0) then cret (inr tt) else sleep ;;; cret (inl did).
(** A turn of the thread, once there is something outstanding. *)
Definition biothread_turn : M blk unit :=
  s <-- mget ;;
  if bio_outstanding_total s =? 0 then mnofuel else loopM biothread_round 0.
End Blk.
