(* ===== verification/BlkSpec.v ===== *)
(** * Block devices: every request is answered once, and names are numbers *)
From S2P Require Import Prelude CString Paging PagingThms Ioremap Blk.

(** ** What is in flight *)
Definition flight (m : gmap Z aiocb) : list aiocb := (map_to_list m).*2.
Definition cb_num (a : aiocb) : Z := match aio_cb a with CbBio num _ => num | CbSync => -1 end.
Definition cb_arg (a : aiocb) : Z := match aio_cb a with CbBio _ arg => arg | CbSync => 0 end.
Definition payload (a : aiocb) : Z * Z := (cb_arg a, aio_nbytes a).
Definition on_slot (i : Z) (l : list aiocb) : Z := zlen (filter (fun a => cb_num a = i) l).
(** A call of bio_done for a request: all its bytes, or an error. *)
Definition outcome (x : (Z * Z) * bool) : Z * Z * Z := if x.2 then (x.1.1, x.1.2, 0) else (x.1.1, 0, BMK_EIO).

Lemma flight_delete m p a : m !! p = Some a -> flight m ≡ₚ a :: flight (delete p m).
Proof. intros E. unfold flight. by rewrite <- (map_to_list_delete m p a E). Qed.
Lemma flight_insert m p a : m !! p = None -> flight (<[p := a]> m) ≡ₚ a :: flight m.
Proof. intros E. unfold flight. by rewrite (map_to_list_insert m p a E). Qed.
Lemma on_slot_cons i a l : on_slot i (a :: l) = on_slot i l + if bool_decide (cb_num a = i) then 1 else 0.
Proof. unfold on_slot. case_bool_decide; [rewrite filter_cons_True by done|rewrite filter_cons_False by done]; cbn [length]; lia. Qed.
Lemma on_slot_perm i l l' : l ≡ₚ l' -> on_slot i l = on_slot i l'.
Proof. intros E. unfold on_slot. by rewrite E. Qed.
Lemma on_slot_bound i l : 0 <= on_slot i l <= zlen l.
Proof. unfold on_slot. pose proof (length_filter (fun a => cb_num a = i) l). lia. Qed.
Lemma s32_near x : 0 <= x < 2 ^ 31 -> s32 x = x.
Proof. intros Hx. unfold s32, swrap. change (2 ^ (32 - 1)) with (2 ^ 31). rewrite Z.mod_small by lia. lia. Qed.

Section Flight.
Context `{XB : XenBlk} {G : Type} `{GR : Grants G} {GL : GrantsLaws G}.
Abbreviation blk := (blk (G := G)).
Implicit Types (s : blk) (f : blkfront_dev) (a : aiocb).

Definition ids f : list Z := map rq_id (rq_ring f) ++ map rs_id (rs_ring f).
Definition is_rw (op : Z) : Prop := op = BLKIF_OP_READ \/ op = BLKIF_OP_WRITE.
Record front_ok s (d : Z) f : Prop := {
  fo_used : ring_used f = zlen (ids f);
  fo_cap : ring_used f <= RING_SIZE;
  fo_nodup : NoDup (ids f);
  fo_mine : Forall (fun p => exists a, aiocbs s !! p = Some a /\ aio_dev a = d) (ids f);
  fo_rw : Forall (fun q => is_rw (rq_op q)) (rq_ring f) /\ Forall (fun r => is_rw (rs_op r)) (rs_ring f)
}.
Record cb_ok s (p : Z) a : Prop := {
  co_ptr : p <> 0;
  co_n : aio_n a = zlen (aio_gref a);
  co_ring : exists f, fronts s !! aio_dev a = Some f /\ p ∈ ids f;
  co_slot : exists arg b, aio_cb a = CbBio (cb_num a) arg /\ 0 <= cb_num a /\ blkdevs s !! Z.to_nat (cb_num a) = Some b /\ blk_dev b = aio_dev a;
  co_refs : NoDup (aio_gref a)
}.
(** [g0]: the grants of others.  A grant whose end was refused stays, and has been
    warned of. *)
Record grants_ok (g0 : gset Z) s : Prop := {
  go_all : forall r, r ∈ granted (grants s) <-> (r ∈ g0 \/ r ∈ warned s) \/ exists p a, aiocbs s !! p = Some a /\ r ∈ aio_gref a;
  go_others : forall p a r, aiocbs s !! p = Some a -> r ∈ aio_gref a -> ~ (r ∈ g0 \/ r ∈ warned s);
  go_apart : forall p p' a a' r, aiocbs s !! p = Some a -> aiocbs s !! p' = Some a' -> r ∈ aio_gref a -> r ∈ aio_gref a' -> p = p'
}.
Record blk_inv (g0 : gset Z) s : Prop := {
  bi_fronts : map_Forall (front_ok s) (fronts s);
  bi_cbs : map_Forall (cb_ok s) (aiocbs s);
  bi_len : length (blkdevs s) = Z.to_nat NBLKDEV;
  bi_total : bio_outstanding_total s = zlen (flight (aiocbs s));
  bi_out : forall i b, blkdevs s !! i = Some b -> blk_outstanding b = on_slot (Z.of_nat i) (flight (aiocbs s));
  bi_small : zlen (flight (aiocbs s)) < 2 ^ 31 - 1;
  bi_grants : grants_ok g0 s
}.

(** ** Collecting one answer *)
Definition revoked g w s : blk := Blk (blkdevs s) (bio_outstanding_total s) (fronts s) (aiocbs s) g (biodone s) (backend s) (warned s ++ w).
(** Of the grants [l] those of [w] stay. *)
Definition ended (g : G) (l w : list Z) (g' : G) : Prop := w ⊆ l /\ forall r, r ∈ granted g' <-> r ∈ granted g /\ (r ∉ l \/ r ∈ w).
Lemma wp_end_grants l s (Q : unit -> blk -> Prop) : NoDup l -> (forall r, r ∈ l -> r ∈ granted (grants s)) ->
  (forall g w, ended (grants s) l w g -> Q tt (revoked g w s)) -> wp (mfor (fun r => gnttab_end_access r ;;; cret tt) l) Q s.
Proof using GL.
  revert s. induction l as [|r l IH]; intros s Hn Hl HQ; cbn [mfor].
  { apply wp_ret. replace s with (revoked (grants s) [] s) by (destruct s; unfold revoked; cbn; by rewrite app_nil_r). apply HQ. split; [done|]. intros r. set_solver. }
  apply NoDup_cons in Hn as [Hr Hn]. pose proof (end_some r (grants s) ltac:(apply Hl; set_solver)) as Eg.
  apply wp_bind, wp_bind. unfold gnttab_end_access. apply wp_bind, wp_get. destruct (end_access r (grants s)) as [ok g] eqn:Ee. cbn in Eg. apply wp_bind, wp_modify.
  apply wp_bind. destruct ok; [apply wp_ret|apply wp_modify]; apply wp_ret, wp_ret; (apply IH; [done|intros x Hx; cbn; rewrite Eg; set_solver|]); intros g' w [Hw Hg]; cbn in Hg.
  - apply (HQ g' w). split; [set_solver|]. intros x. rewrite Hg, Eg. destruct (decide (x = r)) as [->|]; set_solver.
  - replace (revoked g' w (add_warned r (set_grants g s))) with (revoked g' (r :: w) s) by (unfold revoked; cbn; by rewrite <- (assoc_L (++))).
    apply (HQ g' (r :: w)). split; [set_solver|]. intros x. rewrite Hg, Eg. destruct (decide (x = r)) as [->|]; set_solver.
Qed.

(** A control block that is not in a ring yet, beside the others. *)
Definition plus (x : option (Z * aiocb)) s : blk := match x with Some (p, a) => set_aiocbs (<[p := a]> (aiocbs s)) s | None => s end.
Definition apart (x : option (Z * aiocb)) s : Prop := match x with Some (p, _) => aiocbs s !! p = None | None => True end.
Lemma plus_some x s q a : apart x s -> aiocbs s !! q = Some a -> aiocbs (plus x s) !! q = Some a.
Proof. destruct x as [[p a0]|]; cbn; [|done]. intros Hp Hq. rewrite lookup_insert_ne; [done|congruence]. Qed.
Lemma plus_fronts x s : fronts (plus x s) = fronts s.
Proof. by destruct x as [[? ?]|]. Qed.
Lemma plus_blkdevs x s : blkdevs (plus x s) = blkdevs s.
Proof. by destruct x as [[? ?]|]. Qed.
Lemma plus_grants x s : grants (plus x s) = grants s.
Proof. by destruct x as [[? ?]|]. Qed.
Lemma plus_backend x s : backend (plus x s) = backend s.
Proof. by destruct x as [[? ?]|]. Qed.

(** The state after the answer [rsp] of device [d] has been collected. *)
Definition answered (d p num arg : Z) f a (ok : bool) (b : blkdev) g w s : blk :=
  Blk (<[Z.to_nat num := set_blk_out (blk_outstanding b - 1) b]> (blkdevs s)) (bio_outstanding_total s - 1)
    (<[d := set_rings (ring_used f - 1) (rq_ring f) (tail (rs_ring f)) f]> (fronts s)) (delete p (aiocbs s)) g
    (biodone s ++ [outcome ((arg, aio_nbytes a), ok)]) (backend s) (warned s ++ w).
Lemma wp_poll_response g0 x d f rsp tl s (Q : unit -> blk -> Prop) : blk_inv g0 s -> apart x s -> fronts s !! d = Some f -> rs_ring f = rsp :: tl ->
  (forall a b g w, aiocbs s !! rs_id rsp = Some a -> aio_dev a = d -> blkdevs s !! Z.to_nat (cb_num a) = Some b -> 0 <= cb_num a ->
     ended (grants s) (aio_gref a) w g ->
     Q tt (plus x (answered d (rs_id rsp) (cb_num a) (cb_arg a) f a (rs_status rsp =? 0) b g w s))) ->
  wp (poll_response d rsp) Q (plus x s).
Proof using GL.
  intros I Hx Ef Er HQ. destruct (bi_fronts _ _ I _ _ Ef) as [Hu Hc Hn Hm [_ Hrw]]. rewrite Er in Hrw. apply Forall_cons in Hrw as [Hop _].
  assert (Hin : rs_id rsp ∈ ids f) by (unfold ids; rewrite Er; apply elem_of_app; right; cbn; set_solver).
  destruct (proj1 (Forall_forall _ _) Hm _ Hin) as (a & Ea & Ed). destruct (bi_cbs _ _ I _ _ Ea) as [Hp Hna _ (arg & b & Ecb & H0 & Eb & Edev) Hnd].
  unfold poll_response. assert (Hrd : (rs_op rsp =? BLKIF_OP_READ) || (rs_op rsp =? BLKIF_OP_WRITE) = true) by (destruct Hop as [-> | ->]; rewrite Z.eqb_refl; by rewrite ?orb_true_r).
  rewrite Hrd. apply wp_bind. apply wp_bind. unfold aiocb_get. apply wp_bind, wp_get. eapply wp_opt; [by apply plus_some|]. rewrite Hna, Nat2Z.id, take_ge by lia.
  apply wp_end_grants; [done|intros r Hr; rewrite plus_grants; apply (go_all _ _ (bi_grants _ _ I)); right; eauto|]. intros g w Hg. rewrite plus_grants in Hg.
  apply wp_bind. unfold front_get. apply wp_bind, wp_get. eapply wp_opt; [cbn; by rewrite plus_fronts|]. apply wp_bind, wp_modify. destruct (Z.eqb_spec (rs_id rsp) 0); [done|].
  apply wp_bind. unfold aiocb_get. apply wp_bind, wp_get. eapply wp_opt; [by apply plus_some|]. rewrite Ecb. unfold biocomp.
  apply wp_bind, wp_modify. apply wp_bind, wp_modify. apply wp_bind, wp_modify. apply wp_bind. unfold blkdev_get. apply wp_bind, wp_assert; [by apply Z.leb_le|].
  apply wp_bind, wp_get. eapply wp_opt; [cbn; rewrite plus_blkdevs; exact Eb|]. apply wp_modify.
  specialize (HQ a b g w Ea Ed Eb H0 Hg).
  assert (Hsub : 0 <= bio_outstanding_total s - 1 < 2 ^ 31 /\ 0 <= blk_outstanding b - 1 < 2 ^ 31).
  { pose proof (flight_delete _ _ _ Ea) as Hf. pose proof (bi_small _ _ I) as Hs. rewrite (bi_total _ _ I), (bi_out _ _ I _ _ Eb), Z2Nat.id by done.
    rewrite (on_slot_perm _ _ _ Hf), on_slot_cons, bool_decide_eq_true_2, Hf in * by done. cbn [length] in *. pose proof (on_slot_bound (cb_num a) (flight (delete (rs_id rsp) (aiocbs s)))). lia. }
  assert (Eout : (if negb ((if negb (rs_status rsp =? 0) then - BMK_EIO else 0) =? 0) then (arg, 0, BMK_EIO) else (arg, aio_nbytes a, 0)) = outcome ((cb_arg a, aio_nbytes a), rs_status rsp =? 0)).
  { unfold cb_arg, outcome. rewrite Ecb. by destruct (rs_status rsp =? 0). }
  rewrite Eout. destruct x as [[px ax]|]; unfold answered, plus in HQ; cbn in HQ |- *; rewrite !s32_near by lia; [|done].
  rewrite delete_insert_ne; [done|]. cbn in Hx. congruence.
Qed.

Definition popped f : blkfront_dev := set_rings (ring_used f - 1) (rq_ring f) (tail (rs_ring f)) f.
Lemma ids_pop f rsp tl : rs_ring f = rsp :: tl -> ids f ≡ₚ rs_id rsp :: ids (popped f).
Proof. intros E. unfold ids. cbn. rewrite E. cbn. by rewrite <- Permutation_middle. Qed.
Lemma out_lookup (l : list blkdev) n b i b' : l !! n = Some b -> forall v, <[n := set_blk_out v b]> l !! i = Some b' ->
  exists b0, l !! i = Some b0 /\ blk_dev b' = blk_dev b0 /\ blk_outstanding b' = if bool_decide (i = n) then v else blk_outstanding b0.
Proof.
  intros En v. destruct (decide (i = n)) as [->|Hne].
  - rewrite list_lookup_insert_eq by (by eapply lookup_lt_Some). intros [= <-]. exists b. by rewrite bool_decide_eq_true_2.
  - rewrite list_lookup_insert_ne by done. intros E. exists b'. by rewrite bool_decide_eq_false_2.
Qed.
Lemma out_keeps (l : list blkdev) n b v i b0 : l !! n = Some b -> l !! i = Some b0 -> exists b', <[n := set_blk_out v b]> l !! i = Some b' /\ blk_dev b' = blk_dev b0.
Proof.
  intros En Ei. destruct (decide (i = n)) as [->|Hne].
  - simplify_eq. rewrite list_lookup_insert_eq by (by eapply lookup_lt_Some). by eexists.
  - rewrite list_lookup_insert_ne by done. by exists b0.
Qed.

Section Answered.
Variables (g0 : gset Z) (s : blk) (d : Z) (f : blkfront_dev) (rsp : response) (tl : list response) (a : aiocb) (b : blkdev) (g : G) (w : list Z).
Hypotheses (I : blk_inv g0 s) (Ef : fronts s !! d = Some f) (Er : rs_ring f = rsp :: tl).
Hypotheses (Ea : aiocbs s !! rs_id rsp = Some a) (Ed : aio_dev a = d) (Eb : blkdevs s !! Z.to_nat (cb_num a) = Some b) (H0 : 0 <= cb_num a).
Hypothesis Hg : ended (grants s) (aio_gref a) w g.
Let s' := answered d (rs_id rsp) (cb_num a) (cb_arg a) f a (rs_status rsp =? 0) b g w s.

Lemma answered_id q : q ∈ ids (popped f) -> q <> rs_id rsp.
Proof using Ef Er I.
  pose proof (fo_nodup _ _ _ (bi_fronts _ _ I _ _ Ef)) as Hn. rewrite (ids_pop f rsp tl Er) in Hn. apply NoDup_cons in Hn as [Hn _]. by intros Hq ->.
Qed.
Lemma answered_fronts : map_Forall (front_ok s') (fronts s').
Proof using Ef Er I Ea Ed.
  intros d' f' E'. unfold s', answered in *. cbn in E'. assert (Hkeep : forall q a', aiocbs s !! q = Some a' -> q <> rs_id rsp -> delete (rs_id rsp) (aiocbs s) !! q = Some a') by (intros; by rewrite lookup_delete_ne).
  destruct (decide (d' = d)) as [->|Hne].
  - rewrite lookup_insert_eq in E'. injection E' as <-. fold (popped f). destruct (bi_fronts _ _ I _ _ Ef) as [Hu Hc Hn Hm [Hq Hr]]. pose proof (ids_pop f rsp tl Er) as Hp.
    rewrite Hp in Hu, Hn, Hm. apply Forall_cons in Hm as [_ Hm]. apply NoDup_cons in Hn as [_ Hn]. cbn [length] in Hu.
    split; [change (ring_used f - 1 = zlen (ids (popped f))); lia|change (ring_used f - 1 <= RING_SIZE); lia|done| |].
    + apply Forall_forall. intros q Hin. destruct (proj1 (Forall_forall _ _) Hm q Hin) as (a' & Ea' & Ed'). exists a'. split; [|done]. cbn. apply Hkeep; [done|by apply answered_id].
    + split; [done|]. cbn. rewrite Er in *. by apply Forall_cons in Hr as [_ Hr].
  - rewrite lookup_insert_ne in E' by done. destruct (bi_fronts _ _ I _ _ E') as [Hu Hc Hn Hm Hrw]. split; try done. eapply Forall_impl; [exact Hm|]. cbn. intros q (a' & Ea' & Ed'). exists a'. split; [|done].
    apply Hkeep; [done|]. intros ->. congruence.
Qed.
Lemma answered_cbs : map_Forall (cb_ok s') (aiocbs s').
Proof using Ef Er I Ea Ed Eb.
  intros q a' Ea'. unfold s', answered in *. cbn in Ea'. apply lookup_delete_Some in Ea' as [Hne Ea']. destruct (bi_cbs _ _ I _ _ Ea') as [Hp Hn (f' & Ef' & Hin) (arg & b' & Ecb & Hc & Eb' & Edev) Hnd].
  split; try done; cbn.
  - destruct (decide (aio_dev a' = d)) as [Hd|Hd]; [|rewrite lookup_insert_ne by done; by exists f']. rewrite Hd, lookup_insert_eq. rewrite Hd in Ef'. simplify_eq. fold (popped f). exists (popped f). split; [done|].
    rewrite (ids_pop f rsp tl Er) in Hin. by apply elem_of_cons in Hin as [Hin|Hin]; [symmetry in Hin|].
  - destruct (out_keeps _ _ _ (blk_outstanding b - 1) _ _ Eb Eb') as (b2 & E2 & Eb2). exists arg, b2. split_and!; [done..|congruence].
Qed.
Lemma answered_grants : grants_ok g0 s'.
Proof using Ef Er I Ea Ed Eb Hg.
  destruct (bi_grants _ _ I) as [Hall Hoth Hap]. destruct Hg as [Hw Hend]. unfold s', answered. split; cbn.
  - intros r. rewrite Hend, Hall, elem_of_app. split.
    + intros [[Hr|(q & a' & Ea' & Hr)] Hn]; [left; tauto|]. destruct (decide (r ∈ w)) as [Hrw|Hrw]; [left; tauto|]. right. exists q, a'. split; [|done]. rewrite lookup_delete_ne; [done|]. intros <-. simplify_eq. tauto.
    + intros [Hr|(q & a' & Ea' & Hr)].
      * destruct (decide (r ∈ w)) as [Hrw|Hrw]; [split; [right; exists (rs_id rsp), a; split; [done|by apply Hw]|tauto]|]. split; [left; tauto|]. left. intros Hin. apply (Hoth _ _ _ Ea Hin). tauto.
      * apply lookup_delete_Some in Ea' as [Hne Ea']. split; [right; eauto|]. left. intros Hin. by eapply Hne, Hap.
  - intros q a' r Ea' Hr. apply lookup_delete_Some in Ea' as [Hne Ea']. rewrite elem_of_app. pose proof (Hoth _ _ _ Ea' Hr). enough (r ∉ w) by tauto. intros Hrw%Hw. by eapply Hne, Hap.
  - intros q q' a' a'' r [_ E1]%lookup_delete_Some [_ E2]%lookup_delete_Some. eauto.
Qed.
Lemma answered_inv : blk_inv g0 s' /\ flight (aiocbs s) ≡ₚ a :: flight (aiocbs s').
Proof using Ef Er I Ea Ed Eb Hg H0.
  assert (Hf : flight (aiocbs s) ≡ₚ a :: flight (aiocbs s')) by (by apply flight_delete). split; [|done].
  split; [apply answered_fronts|apply answered_cbs| | | | |apply answered_grants]; unfold s', answered; cbn.
  - rewrite length_insert. apply I.
  - rewrite (bi_total _ _ I), Hf. cbn. lia.
  - intros i b' Hi. destruct (out_lookup _ _ _ _ _ Eb _ Hi) as (b0 & E0 & _ & ->). pose proof (bi_out _ _ I _ _ E0) as Ho. pose proof (bi_out _ _ I _ _ Eb) as Hob. rewrite Z2Nat.id in Hob by done.
    rewrite (on_slot_perm _ _ _ Hf), on_slot_cons in Ho. rewrite (on_slot_perm _ _ _ Hf), on_slot_cons, bool_decide_eq_true_2 in Hob by done. change (delete (rs_id rsp) (aiocbs s)) with (aiocbs s').
    destruct (decide (i = Z.to_nat (cb_num a))) as [->|Ei]; [rewrite bool_decide_eq_true_2, Z2Nat.id by done; lia|].
    rewrite (bool_decide_eq_false_2 (i = _)) by done. rewrite bool_decide_eq_false_2 in Ho by lia. lia.
  - pose proof (bi_small _ _ I) as Hs. rewrite Hf in Hs. cbn [length] in Hs. change (delete (rs_id rsp) (aiocbs s)) with (aiocbs s'). lia.
Qed.
End Answered.

(** ** Collecting answers *)
Hypothesis HR : 0 < RING_SIZE < 2 ^ 31.
(** From [s] to [s'] the requests [l] were answered and called back, and nothing else happened. *)
Record went (g0 : gset Z) s (l : list ((Z * Z) * bool)) s' : Prop := {
  wt_inv : blk_inv g0 s';
  wt_done : biodone s' = biodone s ++ map outcome l;
  wt_pay : map payload (flight (aiocbs s)) ≡ₚ map fst l ++ map payload (flight (aiocbs s'));
  wt_cbs : aiocbs s' ⊆ aiocbs s;
  wt_granted : granted (grants s') ⊆ granted (grants s);
  wt_backend : backend s' = backend s;
  wt_slots : forall i b, blkdevs s !! i = Some b -> exists b', blkdevs s' !! i = Some b' /\ blk_dev b' = blk_dev b;
  wt_fronts : forall d f, fronts s !! d = Some f -> exists f', fronts s' !! d = Some f' /\ rq_ring f' = rq_ring f /\ fd_info f' = fd_info f /\ fd_dom f' = fd_dom f /\ (rs_ring f = [] -> rs_ring f' = [])
}.
Lemma went_refl g0 s : blk_inv g0 s -> went g0 s [] s.
Proof. intros I. split; try done; [by rewrite app_nil_r|eauto|]. intros d f Ef. exists f. by split_and!. Qed.
Lemma went_trans g0 s1 l s2 l' s3 : went g0 s1 l s2 -> went g0 s2 l' s3 -> went g0 s1 (l ++ l') s3.
Proof.
  intros [I1 D1 P1 C1 G1 B1 S1 F1] [I2 D2 P2 C2 G2 B2 S2 F2]. split; [done| | |by etrans|by etrans|congruence| |].
  - by rewrite D2, D1, map_app, (assoc_L (++)).
  - rewrite P1, P2, map_app. by rewrite (assoc_L (++)).
  - intros i b Eb. destruct (S1 i b Eb) as (b1 & E1 & H1). destruct (S2 i b1 E1) as (b2 & E2 & H2). exists b2. split; [done|congruence].
  - intros d f Ef. destruct (F1 d f Ef) as (f1 & E1 & ? & ? & ? & R1). destruct (F2 d f1 E1) as (f2 & E2 & ? & ? & ? & R2). exists f2. split_and!; [done|congruence..|by eauto].
Qed.
Lemma answered_went g0 s d f rsp tl a b g w : blk_inv g0 s -> fronts s !! d = Some f -> rs_ring f = rsp :: tl -> aiocbs s !! rs_id rsp = Some a -> aio_dev a = d ->
  blkdevs s !! Z.to_nat (cb_num a) = Some b -> 0 <= cb_num a -> ended (grants s) (aio_gref a) w g ->
  went g0 s [(payload a, rs_status rsp =? 0)] (answered d (rs_id rsp) (cb_num a) (cb_arg a) f a (rs_status rsp =? 0) b g w s).
Proof using Type.
  intros I Ef Er Ea Ed Eb H0 Hg. destruct (answered_inv g0 s d f rsp tl a b g w I Ef Er Ea Ed Eb H0 Hg) as [I' Hf]. split; [done|done| | | |done| |].
  - by rewrite Hf.
  - apply delete_subseteq.
  - intros r Hr. by apply Hg in Hr as [? _].
  - intros i b0 Ei. by eapply out_keeps.
  - intros d' f' E'. cbn. destruct (decide (d' = d)) as [->|Hne]; [|rewrite lookup_insert_ne by done; exists f'; by split_and!]. simplify_eq. rewrite lookup_insert_eq. eexists. split_and!; try done. by rewrite Er.
Qed.

Lemma apart_weaken x s s' : apart x s -> aiocbs s' ⊆ aiocbs s -> apart x s'.
Proof. destruct x as [[p a]|]; cbn; [|done]. intros Hp Hs. destruct (aiocbs s' !! p) eqn:E; [|done]. by rewrite (lookup_weaken _ _ _ _ E Hs) in Hp. Qed.
Definition polled (d : Z) f s' : Prop := exists f', fronts s' !! d = Some f' /\ rs_ring f' = [] /\ rq_ring f' = rq_ring f /\ ring_used f' = zlen (rq_ring f).
Lemma wp_poll_beside g0 x d f s : blk_inv g0 s -> apart x s -> fronts s !! d = Some f ->
  wp (blkfront_aio_poll d) (fun n s' => exists l s1, s' = plus x s1 /\ went g0 s l s1 /\ n = zlen l /\ zlen l = zlen (rs_ring f) /\ polled d f s1) (plus x s).
Proof using GL HR.
  intros I Hx Ef. unfold blkfront_aio_poll. pose proof (bi_fronts _ _ I _ _ Ef) as [Hu Hc _ _ _]. assert (Hlen : zlen (rs_ring f) <= RING_SIZE) by (unfold ids in Hu; rewrite length_app, !length_map in Hu; lia).
  apply (wp_loop_variant _ (fun nr s' k => exists l f1 s1, s' = plus x s1 /\ went g0 s l s1 /\ nr = zlen l /\ fronts s1 !! d = Some f1 /\ rq_ring f1 = rq_ring f /\ k = zlen (rs_ring f1) /\ zlen l + k = zlen (rs_ring f))) with (k := zlen (rs_ring f)); [| |lia].
  2: { exists [], f, s. split_and!; [done|by apply went_refl|done..]. }
  intros nr s' k (l & f1 & s1 & -> & W & -> & E1 & Eq & -> & Hk). split; [lia|]. unfold poll_round. apply wp_bind. unfold front_get. apply wp_bind, wp_get. eapply wp_opt; [rewrite plus_fronts; exact E1|].
  destruct (rs_ring f1) as [|rsp tl] eqn:Er.
  { apply wp_ret. exists l, s1. cbn in Hk. split_and!; [done|done|done|lia|]. exists f1. split_and!; [done..|]. pose proof (bi_fronts _ _ (wt_inv _ _ _ _ W) _ _ E1) as [Hu1 _ _ _ _].
    rewrite Hu1. unfold ids. rewrite Er, app_nil_r, length_map. congruence. }
  apply wp_bind. eapply (wp_poll_response g0 x d f1 rsp tl); [apply W|by eapply apart_weaken, wt_cbs|done|done|]. intros a b g w Ea Ed Eb H0 Hg. apply wp_ret. cbn [length] in *.
  exists (zlen tl). split; [|lia]. eexists (l ++ [(payload a, rs_status rsp =? 0)]), (popped f1), _. split_and!.
  - reflexivity.
  - eapply went_trans; [done|]. eapply answered_went; try done. apply W.
  - rewrite length_app. cbn [length]. rewrite s32_near by lia. lia.
  - cbn. by rewrite lookup_insert_eq.
  - done.
  - cbn. by rewrite Er.
  - rewrite length_app. cbn [length]. lia.
Qed.
Lemma wp_poll g0 d f s : blk_inv g0 s -> fronts s !! d = Some f ->
  wp (blkfront_aio_poll d) (fun n s' => exists l, went g0 s l s' /\ n = zlen l /\ zlen l = zlen (rs_ring f) /\ polled d f s') s.
Proof using GL HR. intros I Ef. eapply wp_mono; [by apply (wp_poll_beside g0 None d f s)|]. cbn. intros n s' (l & s1 & -> & H). by exists l. Qed.

(** biothread's pass over the devices: no answer is left for slot [i]. *)
Definition clean (i : Z) s : Prop := forall p a f, aiocbs s !! p = Some a -> cb_num a = i -> fronts s !! aio_dev a = Some f -> rs_ring f = [].
Lemma clean_went g0 i s l s' : blk_inv g0 s -> clean i s -> went g0 s l s' -> clean i s'.
Proof.
  intros I Hc W p a f' Ea Hi Ef'. assert (Ea0 : aiocbs s !! p = Some a) by (eapply lookup_weaken; [done|apply W]). destruct (bi_cbs _ _ I _ _ Ea0) as [_ _ (f & Ef & _) _ _].
  destruct (wt_fronts _ _ _ _ W _ _ Ef) as (f2 & E2 & _ & _ & _ & Hr). simplify_eq. by eapply Hr, Hc.
Qed.
Lemma went_len g0 s l s' : went g0 s l s' -> zlen (flight (aiocbs s)) = zlen l + zlen (flight (aiocbs s')).
Proof. intros W. pose proof (Permutation_length (wt_pay _ _ _ _ W)) as E. rewrite length_app, !length_map in E. lia. Qed.
Lemma slot_front g0 s i b : blk_inv g0 s -> blkdevs s !! i = Some b -> blk_outstanding b <> 0 -> exists f, fronts s !! blk_dev b = Some f.
Proof.
  intros I Eb Hout. rewrite (bi_out _ _ I _ _ Eb) in Hout. unfold on_slot in Hout. destruct (filter (fun a => cb_num a = Z.of_nat i) (flight (aiocbs s))) as [|a l] eqn:El; [done|].
  assert (Ha : a ∈ filter (fun a => cb_num a = Z.of_nat i) (flight (aiocbs s))) by (rewrite El; by left). apply list_elem_of_filter in Ha as [Hn Ha].
  unfold flight in Ha. apply list_elem_of_fmap in Ha as ([p a'] & -> & Ha). apply elem_of_map_to_list in Ha. destruct (bi_cbs _ _ I _ _ Ha) as [_ _ (f & Ef & _) (arg & b' & _ & _ & Eb' & Edev) _].
  cbn in Hn. rewrite Hn, Nat2Z.id in Eb'. simplify_eq. rewrite Edev. eauto.
Qed.
Lemma wp_scan_dev g0 did i s : blk_inv g0 s -> 0 <= i < NBLKDEV -> 0 <= did -> did + zlen (flight (aiocbs s)) < 2 ^ 31 ->
  wp (scan_dev did i) (fun n s' => exists l, went g0 s l s' /\ n = did + zlen l /\ clean i s') s.
Proof using GL HR.
  intros I Hi Hd Hs. destruct (lookup_lt_is_Some_2 (blkdevs s) (Z.to_nat i)) as [b Eb]; [rewrite (bi_len _ _ I); unfold NBLKDEV in *; lia|].
  unfold scan_dev, blkdev_get. apply wp_bind, wp_bind, wp_assert; [apply Z.leb_le; lia|]. apply wp_bind, wp_get. eapply wp_opt; [exact Eb|].
  destruct (Z.eqb_spec (blk_outstanding b) 0) as [E0|E0]; cbn [negb].
  - apply wp_ret. exists []. split_and!; [by apply went_refl|cbn; lia|]. intros p a f Ea Hn _. exfalso. rewrite (bi_out _ _ I _ _ Eb), Z2Nat.id, (on_slot_perm _ _ _ (flight_delete _ _ _ Ea)), on_slot_cons, bool_decide_eq_true_2 in E0 by (done || lia).
    pose proof (on_slot_bound i (flight (delete p (aiocbs s)))). lia.
  - destruct (slot_front _ _ _ _ I Eb E0) as [f Ef]. apply wp_bind. eapply wp_mono; [by apply (wp_poll g0 _ f)|]. intros n s' (l & W & -> & _ & f1 & E1 & Er & _). apply wp_ret. exists l.
    pose proof (went_len _ _ _ _ W). rewrite s32_near by lia. split_and!; [done..|]. intros p a f' Ea Hn Ef'. pose proof (lookup_weaken _ _ _ _ Ea (wt_cbs _ _ _ _ W)) as Ea0.
    destruct (bi_cbs _ _ I _ _ Ea0) as [_ _ _ (arg & b' & _ & _ & Eb' & Edev) _]. rewrite Hn in Eb'. simplify_eq. congruence.
Qed.

Lemma wp_scan_devs g0 did l s : blk_inv g0 s -> Forall (fun i => 0 <= i < NBLKDEV) l -> 0 <= did -> did + zlen (flight (aiocbs s)) < 2 ^ 31 ->
  wp (scan_devs did l) (fun n s' => exists k, went g0 s k s' /\ n = did + zlen k /\ Forall (fun i => clean i s') l) s.
Proof using GL HR.
  revert did s. induction l as [|i l IH]; intros did s I Hl Hd Hs; cbn [scan_devs].
  { apply wp_ret. exists []. split_and!; [by apply went_refl|cbn; lia|done]. }
  apply Forall_cons in Hl as [Hi Hl]. apply wp_bind. eapply wp_mono; [by apply (wp_scan_dev g0 did i)|]. intros n s1 (k & W & -> & Hc).
  pose proof (went_len _ _ _ _ W). eapply wp_mono; [apply (IH (did + zlen k) s1); [apply W|done|lia|lia]|]. intros n s2 (k2 & W2 & -> & Hcs). exists (k ++ k2).
  split_and!; [by eapply went_trans|rewrite length_app; lia|]. apply Forall_cons. split; [|done]. eapply clean_went; [apply W|done|done].
Qed.
Lemma wp_bio_scan g0 s : blk_inv g0 s ->
  wp (scan_devs 0 (seqZ 0 NBLKDEV)) (fun n s' => exists l, went g0 s l s' /\ n = zlen l /\ map_Forall (fun _ f => rs_ring f = []) (fronts s')) s.
Proof using GL HR.
  intros I. eapply wp_mono; [apply (wp_scan_devs g0 0); [done| |lia|pose proof (bi_small _ _ I); lia]|].
  { apply Forall_forall. intros i Hi%elem_of_seqZ. lia. }
  intros n s' (l & W & -> & Hc). exists l. split_and!; [done|lia|]. intros d f Ef. destruct (rs_ring f) as [|r tl] eqn:Er; [done|]. exfalso.
  pose proof (wt_inv _ _ _ _ W) as I'. pose proof (fo_mine _ _ _ (bi_fronts _ _ I' _ _ Ef)) as Hm. rewrite (ids_pop f r tl Er) in Hm. apply Forall_cons in Hm as [(a & Ea & Ed) _].
  destruct (bi_cbs _ _ I' _ _ Ea) as [_ _ _ (arg & b & _ & H0 & Eb & _) _]. apply lookup_lt_Some in Eb. rewrite (bi_len _ _ I') in Eb.
  assert (Hin : cb_num a ∈ seqZ 0 NBLKDEV) by (apply elem_of_seqZ; unfold NBLKDEV in *; lia).
  pose proof (proj1 (Forall_forall _ _) Hc _ Hin _ _ f Ea eq_refl) as Hcl. rewrite Ed, Er in Hcl. specialize (Hcl Ef). discriminate.
Qed.

(** ** The backend answers *)
Lemma answer_inv g0 s x : blk_inv g0 s -> blk_inv g0 (answer_one s x) /\ aiocbs (answer_one s x) = aiocbs s /\ biodone (answer_one s x) = biodone s.
Proof using Type.
  intros I. unfold answer_one. destruct (fronts s !! an_dev x) as [f|] eqn:Ef; [|done]. destruct (rq_ring f !! an_k x) as [q|] eqn:Eq; [|done]. split; [|done].
  set (f1 := set_rings _ _ _ _). assert (Hids : ids f1 ≡ₚ ids f).
  { unfold ids, f1. cbn. rewrite map_app. cbn. rewrite (delete_Permutation _ _ _ Eq) at 2. cbn. rewrite (assoc_L (++)). rewrite <- Permutation_cons_append. done. }
  destruct (bi_fronts _ _ I _ _ Ef) as [Hu Hc Hn Hm [Hq Hr]].
  destruct I as [If Ic Il It Io Is Ig]. split; try done; cbn.
  - intros d' f' E'. destruct (decide (d' = an_dev x)) as [->|Hne]; [|rewrite lookup_insert_ne in E' by done; by destruct (If _ _ E')]. rewrite lookup_insert_eq in E'. injection E' as <-. fold f1.
    split; [by rewrite Hids|done|by rewrite Hids|by rewrite Hids|]. cbn. rewrite (delete_Permutation _ _ _ Eq) in Hq. apply Forall_cons in Hq as [Hq1 Hq]. split; [done|]. apply Forall_app. split; [done|]. by apply Forall_singleton.
  - intros p a Ea. destruct (Ic _ _ Ea) as [? ? (f' & Ef' & Hin) ? ?]. split; try done. cbn. destruct (decide (aio_dev a = an_dev x)) as [Hd|Hd]; [|rewrite lookup_insert_ne by done; by exists f'].
    rewrite Hd in *. simplify_eq. rewrite lookup_insert_eq. exists f1. split; [done|]. by rewrite Hids.
  - by destruct Ig.
Qed.

(** ** Waiting for a slot *)

(** From [s] to [s'] the backend has answered, and answers have been collected. *)
Record moved (g0 : gset Z) s (l : list ((Z * Z) * bool)) s' : Prop := {
  mv_inv : blk_inv g0 s';
  mv_done : biodone s' = biodone s ++ map outcome l;
  mv_pay : map payload (flight (aiocbs s)) ≡ₚ map fst l ++ map payload (flight (aiocbs s'));
  mv_cbs : aiocbs s' ⊆ aiocbs s;
  mv_granted : granted (grants s') ⊆ granted (grants s);
  mv_slots : forall i b, blkdevs s !! i = Some b -> exists b', blkdevs s' !! i = Some b' /\ blk_dev b' = blk_dev b;
  mv_fronts : forall d f, fronts s !! d = Some f -> exists f', fronts s' !! d = Some f' /\ rq_ring f' `sublist_of` rq_ring f /\ fd_info f' = fd_info f /\ fd_dom f' = fd_dom f
}.
Lemma went_moved g0 s l s' : went g0 s l s' -> moved g0 s l s'.
Proof.
  intros [I D P C Gr _ Sl F]. split; try done. intros d f Ef. destruct (F d f Ef) as (f' & E' & Eq & ? & ? & _). exists f'. rewrite Eq. done.
Qed.
Lemma moved_refl g0 s : blk_inv g0 s -> moved g0 s [] s.
Proof. intros I. by apply went_moved, went_refl. Qed.
Lemma moved_trans g0 s1 l s2 l' s3 : moved g0 s1 l s2 -> moved g0 s2 l' s3 -> moved g0 s1 (l ++ l') s3.
Proof.
  intros [I1 D1 P1 C1 G1 S1 F1] [I2 D2 P2 C2 G2 S2 F2]. split; [done| | |by etrans|by etrans| |].
  - by rewrite D2, D1, map_app, (assoc_L (++)).
  - rewrite P1, P2, map_app. by rewrite (assoc_L (++)).
  - intros i b Eb. destruct (S1 i b Eb) as (b1 & E1 & H1). destruct (S2 i b1 E1) as (b2 & E2 & H2). exists b2. split; [done|congruence].
  - intros d f Ef. destruct (F1 d f Ef) as (f1 & E1 & R1 & ? & ?). destruct (F2 d f1 E1) as (f2 & E2 & R2 & ? & ?). exists f2. split_and!; [done|by etrans|congruence..].
Qed.
Lemma answer_plus x s e : answer_one (plus x s) e = plus x (answer_one s e).
Proof. destruct x as [[p a]|]; [|done]. unfold answer_one. cbn. destruct (fronts s !! an_dev e) as [f|]; [|done]. by destruct (rq_ring f !! an_k e). Qed.
Lemma answer_moved g0 s e : blk_inv g0 s -> moved g0 s [] (answer_one s e) /\ backend (answer_one s e) = backend s.
Proof.
  intros I. destruct (answer_inv g0 s e I) as (I' & Ec & Ed). unfold answer_one in *. destruct (fronts s !! an_dev e) as [f|] eqn:Ef; [|split; [by apply moved_refl|done]].
  destruct (rq_ring f !! an_k e) as [q|] eqn:Eq; [|split; [by apply moved_refl|done]]. split; [|done]. split; try done; [by rewrite app_nil_r|eauto|].
  intros d f' E'. cbn. destruct (decide (d = an_dev e)) as [->|Hne]; [|rewrite lookup_insert_ne by done; by exists f']. simplify_eq. rewrite lookup_insert_eq. eexists. split; [done|]. cbn. split; [apply sublist_delete|done].
Qed.

(** The sleep brings an answer of device [d]. *)
Definition frees (d : Z) (l : list meanwhile) : Prop := exists k st, Ans (Answer d k st) ∈ l /\ Z.of_nat k < RING_SIZE.
Definition has_slot (d : Z) s : Prop := exists f, fronts s !! d = Some f /\ zlen (rq_ring f) < RING_SIZE.
Lemma moved_slot g0 d s l s' : moved g0 s l s' -> has_slot d s -> has_slot d s'.
Proof. intros Mv (f & Ef & Hl). destruct (mv_fronts _ _ _ _ Mv _ _ Ef) as (f' & E' & Hs & _). exists f'. split; [done|]. apply sublist_length in Hs. lia. Qed.
Lemma answer_slot g0 d k st s f : blk_inv g0 s -> fronts s !! d = Some f -> Z.of_nat k < RING_SIZE -> has_slot d (answer_one s (Answer d k st)).
Proof.
  intros I Ef Hk. unfold answer_one. cbn. rewrite Ef. destruct (rq_ring f !! k) as [q|] eqn:Eq; [|exists f; split; [done|apply lookup_ge_None in Eq; lia]].
  eexists. cbn. rewrite lookup_insert_eq. split; [done|]. cbn. pose proof (length_delete _ _ ltac:(by exists q)) as Hl. apply lookup_lt_Some in Eq.
  destruct (bi_fronts _ _ I _ _ Ef) as [Hu Hc _ _ _]. unfold ids in Hu. rewrite length_app, !length_map in Hu. lia.
Qed.
Lemma wp_meanwhile g0 x e s : blk_inv g0 s -> apart x s ->
  wp (meanwhile_one e) (fun _ s' => exists l s1, s' = plus x s1 /\ moved g0 s l s1 /\ backend s1 = backend s /\
    forall d k st f, e = Ans (Answer d k st) -> fronts s !! d = Some f -> Z.of_nat k < RING_SIZE -> has_slot d s1) (plus x s).
Proof using GL HR.
  intros I Hx. destruct e as [e|d]; cbn [meanwhile_one].
  - apply wp_modify. exists [], (answer_one s e). rewrite answer_plus. destruct (answer_moved g0 s e I). split_and!; try done. intros d k st f [= ->] Ef Hk. by eapply answer_slot.
  - apply wp_bind, wp_get. rewrite plus_fronts. destruct (fronts s !! d) as [f|] eqn:Ef; [|apply wp_ret; exists [], s; split_and!; [done|by apply moved_refl|done..]].
    apply wp_bind. eapply wp_mono; [by apply (wp_poll_beside g0 x d f)|]. intros n s' (l & s1 & -> & W & _). apply wp_ret. exists l, s1. split_and!; [done|by apply went_moved|apply W|done].
Qed.
Lemma wp_meanwhiles g0 x d l s : blk_inv g0 s -> apart x s -> is_Some (fronts s !! d) ->
  wp (mfor meanwhile_one l) (fun _ s' => exists k s1, s' = plus x s1 /\ moved g0 s k s1 /\ backend s1 = backend s /\ (frees d l -> has_slot d s1)) (plus x s).
Proof using GL HR.
  revert s. induction l as [|e l IH]; intros s I Hx [f Ef]; cbn [mfor].
  { apply wp_ret. exists [], s. split_and!; [done|by apply moved_refl|done|]. intros (k & st & Hin & _). by apply elem_of_nil in Hin. }
  apply wp_bind. eapply wp_mono; [by apply (wp_meanwhile g0 x e s)|]. intros _ s' (k & s1 & -> & M1 & B1 & S1).
  eapply wp_mono; [apply (IH s1); [apply M1|by eapply apart_weaken, mv_cbs|]|].
  { destruct (mv_fronts _ _ _ _ M1 _ _ Ef) as (f1 & E1 & _). by exists f1. }
  intros _ s' (k' & s2 & -> & M2 & B2 & S2). exists (k ++ k'), s2. split_and!; [done|by eapply moved_trans|congruence|].
  intros (i & st & [He|Hin]%elem_of_cons & Hi); [|apply S2; by exists i, st]. eapply moved_slot; [done|]. by eapply S1.
Qed.

(** If there is no slot and no answer, one will come. *)
Definition slot_comes (d : Z) f s : Prop := ring_used f = RING_SIZE -> rs_ring f = [] -> exists i l, Z.of_nat i < 2 ^ 63 /\ backend s !! i = Some l /\ frees d l.
Lemma ring_split g0 s d f : blk_inv g0 s -> fronts s !! d = Some f -> ring_used f = zlen (rq_ring f) + zlen (rs_ring f) /\ ring_used f <= RING_SIZE.
Proof. intros I Ef. destruct (bi_fronts _ _ I _ _ Ef) as [Hu Hc _ _ _]. unfold ids in Hu. rewrite length_app, !length_map in Hu. split; [lia|done]. Qed.
Definition waited g0 x d f s s' : Prop := exists l s1 f1, s' = plus x s1 /\ moved g0 s l s1 /\ fronts s1 !! d = Some f1 /\ ring_used f1 < RING_SIZE /\ (ring_used f < RING_SIZE -> s1 = s).
Lemma wp_wait_slot g0 x d f s : blk_inv g0 s -> apart x s -> fronts s !! d = Some f -> slot_comes d f s ->
  wp (blkfront_wait_slot d) (fun _ => waited g0 x d f s) (plus x s).
Proof using GL HR.
  intros I Hx Ef Hcomes. unfold blkfront_wait_slot. apply wp_bind. unfold front_get. apply wp_bind, wp_get. eapply wp_opt; [by rewrite plus_fronts|].
  destruct (ring_split g0 s d f I Ef) as [Hu Hc]. unfold ring_full at 1. destruct (Z.eqb_spec (ring_used f) RING_SIZE) as [Efull|Efull].
  2: { apply wp_ret. exists [], s, f. split_and!; [done|by apply moved_refl|done|lia|done]. }
  set (J := fun k s1 => has_slot d s1 \/ exists i l, k = Z.of_nat i + 1 /\ backend s1 !! i = Some l /\ frees d l).
  assert (HJ : exists k, 0 <= k < 2 ^ 64 /\ J k s).
  { destruct (rs_ring f) as [|rsp tl] eqn:Er; [|exists 0; split; [lia|]; left; exists f; split; [done|cbn in Hu; lia]].
    destruct (Hcomes Efull Er) as (i & l & Hi & El & Hl). exists (Z.of_nat i + 1). split; [lia|]. right. by exists i, l. }
  destruct HJ as (k0 & Hk0 & HJ0).
  apply (wp_loop_variant _ (fun _ s' k => 0 <= k /\ exists l s1, s' = plus x s1 /\ moved g0 s l s1 /\ J k s1)) with (k := k0); [|split; [lia|]; exists [], s; split_and!; [done|by apply moved_refl|done]|lia].
  clear k0 Hk0 HJ0. intros u s' k (Hk & l & s1 & -> & M1 & HJ1). split; [done|]. destruct (mv_fronts _ _ _ _ M1 _ _ Ef) as (f1 & E1 & _). pose proof (apart_weaken _ _ _ Hx (mv_cbs _ _ _ _ M1)) as Hx1.
  unfold slot_round. apply wp_bind. eapply wp_mono; [apply (wp_poll_beside g0 x d f1 s1); [apply M1|done|done]|]. intros n s' (l2 & s2 & -> & W & _ & _ & f2 & E2 & Er2 & Eq2 & Hu2).
  pose proof (moved_trans _ _ _ _ _ _ M1 (went_moved _ _ _ _ W)) as M2.
  apply wp_bind. unfold front_get. apply wp_bind, wp_get. eapply wp_opt; [by rewrite plus_fronts|]. unfold ring_full. destruct (ring_split g0 s2 d f2 (wt_inv _ _ _ _ W) E2) as [_ Hc2].
  destruct (Z.eqb_spec (ring_used f2) RING_SIZE) as [Ef2|Ef2]; cbn [negb]; [|apply wp_ret; exists (l ++ l2), s2, f2; split_and!; [done|done|done|lia|lia]].
  destruct HJ1 as [(f1' & E1' & Hl1)|(i & lb & -> & Eb & Hfr)]; [simplify_eq; lia|]. rewrite <- (wt_backend _ _ _ _ W) in Eb.
  apply wp_bind. unfold sleep. apply wp_bind, wp_get. rewrite plus_backend. destruct (backend s2) as [|l0 w] eqn:Ew; [done|]. apply wp_bind, wp_modify.
  set (s3 := set_backend w s2). replace (set_backend w (plus x s2)) with (plus x s3) by (by destruct x as [[? ?]|]).
  assert (I3 : blk_inv g0 s3) by (destruct (wt_inv _ _ _ _ W) as [If Ic ? ? ? ? [? ? ?]]; split; try done; [intros d' f' E'; by destruct (If d' f' E')|intros q a E; by destruct (Ic q a E)]).
  assert (M3 : moved g0 s2 [] s3) by (split; try done; [by rewrite app_nil_r|eauto|intros d' f' E'; by exists f']).
  eapply wp_mono; [apply (wp_meanwhiles g0 x d l0 s3); [done|cbn; eapply apart_weaken; [exact Hx1|apply W]|by exists f2]|].
  intros _ s' (l4 & s4 & -> & M4 & B4 & S4). apply wp_ret. exists (Z.of_nat i). split; [|lia]. split; [lia|].
  eexists _, s4. split; [done|]. split; [eapply moved_trans; [exact M2|eapply moved_trans; [exact M3|exact M4]]|].
  destruct i as [|i]; [left; apply S4; by injection Eb as -> |]. right. exists i, lb. split_and!; [lia| |done]. rewrite B4. done.
Qed.

(** ** Issuing a request *)
Variable virtual_to_mfn : Z -> Z.
Lemma wp_grant_segs dom buf nbytes n start write k j s (Q : list seg -> blk -> Prop) : Z.of_nat (size (granted (grants s))) + Z.of_nat k <= grant_entries ->
  (forall segs g, length segs = k -> NoDup (map seg_gref segs) -> (forall r, r ∈ granted g <-> r ∈ granted (grants s) \/ r ∈ map seg_gref segs) ->
    (forall r, r ∈ map seg_gref segs -> r ∉ granted (grants s)) ->
    (forall i x, segs !! i = Some x -> first_sect x = seg_first buf (j + Z.of_nat i) /\ last_sect x = seg_last buf nbytes n (j + Z.of_nat i)) ->
    grants_of (grants s) ⊆ grants_of g ->
    (forall i x, segs !! i = Some x -> grants_of g !! seg_gref x = Some (dom, virtual_to_mfn (u64 (start + (j + Z.of_nat i) * PAGE)), write)) ->
    Q segs (set_grants g s)) ->
  wp (grant_segs virtual_to_mfn dom buf nbytes n start write j k) Q s.
Proof using GL HR.
  revert j s Q. induction k as [|k IH]; intros j s Q Hroom HQ; cbn [grant_segs].
  { apply wp_ret. replace s with (set_grants (grants s) s) by (by destruct s). apply HQ; try done; [apply NoDup_nil_2|intros r; cbn; rewrite elem_of_nil; tauto|intros r Hr; by apply elem_of_nil in Hr]. }
  assert (Hlt : Z.of_nat (size (granted (grants s))) < grant_entries) by lia.
  destruct (grant_room dom (virtual_to_mfn (u64 (start + j * PAGE))) write (grants s) Hlt) as [[r g] Eg]. destruct (grant_fresh _ _ _ _ _ _ Eg) as [Hr Hg]. destruct (grant_law _ _ _ _ _ _ Eg) as [Hnone Hmap].
  apply wp_bind. unfold gnttab_grant_access. apply wp_bind, wp_get. rewrite Eg. apply wp_bind, wp_modify, wp_ret. apply wp_bind.
  assert (Hsz : Z.of_nat (size (granted g)) = Z.of_nat (size (granted (grants s))) + 1) by (rewrite Hg, size_union, size_singleton by (by apply disjoint_singleton_l); lia).
  apply IH; [cbn; lia|]. intros segs g' Hlen Hnd Hg' Hfr Hsec Hsub Hent. apply wp_ret. cbn in Hg', Hfr, Hsub. apply (HQ _ g'); cbn.
  - by rewrite Hlen.
  - apply NoDup_cons. split; [|done]. intros Hin. apply (Hfr r Hin). rewrite Hg. by apply elem_of_union_l, elem_of_singleton_2.
  - intros x. rewrite Hg', Hg, elem_of_union, elem_of_singleton, elem_of_cons. tauto.
  - intros x [->|Hx]%elem_of_cons; [done|]. intros Hx'. apply (Hfr x Hx). rewrite Hg. by apply elem_of_union_r.
  - intros [|i] x Hi; cbn in Hi; [injection Hi as <-; cbn; by rewrite Z.add_0_r|]. replace (j + Z.of_nat (S i)) with (j + 1 + Z.of_nat i) by lia. by apply Hsec.
  - etrans; [|exact Hsub]. rewrite Hmap. by apply insert_subseteq.
  - intros [|i] x Hi; cbn in Hi; [injection Hi as <-; cbn; rewrite Z.add_0_r; eapply lookup_weaken; [|exact Hsub]; rewrite Hmap; apply lookup_insert_eq|].
    replace (j + Z.of_nat (S i)) with (j + 1 + Z.of_nat i) by lia. by apply Hent.
Qed.

(** The pages of the buffer. *)
Definition buf_pages (buf nbytes : Z) : Z := (buf + nbytes - 1) / 4096 - buf / 4096 + 1.
Lemma num_segs_pages buf nbytes : 0 <= buf -> 0 < nbytes -> buf + nbytes + 4096 <= 2 ^ 64 -> buf_pages buf nbytes < 2 ^ 31 -> num_segs buf nbytes = buf_pages buf nbytes.
Proof.
  intros Hb Hn He Hp. unfold num_segs, PAGE, PAGE_LOW. change (u64 (Z.lnot 4095)) with PAGE_MASK. rewrite (u64_small (buf + nbytes + 4096 - 1)) by lia. rewrite !land_page by lia.
  replace (buf + nbytes + 4096 - 1) with (buf + nbytes - 1 + 1 * 4096) by lia. rewrite Z.div_add by lia.
  assert (buf / 4096 <= (buf + nbytes - 1) / 4096) by (apply Z.div_le_mono; lia). assert ((buf + nbytes - 1) / 4096 < 2 ^ 52 - 1) by (apply Z.div_lt_upper_bound; lia). assert (0 <= buf / 4096) by (apply Z.div_pos; lia).
  rewrite u64_small by lia. rewrite <- Z.mul_sub_distr_r, Z.div_mul by lia. unfold buf_pages in *. rewrite s32_near by lia. lia.
Qed.
Lemma land_low x : 0 <= x -> Z.land x PAGE_LOW = x mod 4096.
Proof. intros. apply (Z.land_ones x 12). lia. Qed.
(** The sectors of the segments are those of the buffer, page by page. *)
Lemma segments_cover buf nbytes x : 0 <= buf -> 0 < nbytes -> buf + nbytes + 4096 <= 2 ^ 64 -> buf mod 512 = 0 -> nbytes mod 512 = 0 -> 0 <= x ->
  (buf <= x < buf + nbytes) <-> exists j, 0 <= j < buf_pages buf nbytes /\ x / 4096 = buf / 4096 + j /\
    seg_first buf j <= x mod 4096 / 512 <= seg_last buf nbytes (buf_pages buf nbytes) j.
Proof.
  intros Hb Hn He Hb5 Hn5 Hx. set (e := buf + nbytes). assert (He5 : e mod 512 = 0) by (unfold e; rewrite Z.add_mod, Hb5, Hn5 by lia; done).
  unfold seg_first, seg_last, PAGE. change (4096 / 512 - 1) with 7. rewrite u64_small by lia. rewrite !land_low by lia. replace (buf + nbytes - 1) with (e - 1) by (unfold e; lia). unfold buf_pages.
  replace (buf + nbytes - 1) with (e - 1) by (unfold e; lia).
  pose proof (Z.div_mod buf 4096 ltac:(lia)). pose proof (Z.mod_pos_bound buf 4096 ltac:(lia)). pose proof (Z.div_mod (e - 1) 4096 ltac:(lia)). pose proof (Z.mod_pos_bound (e - 1) 4096 ltac:(lia)).
  pose proof (Z.div_mod x 4096 ltac:(lia)). pose proof (Z.mod_pos_bound x 4096 ltac:(lia)).
  pose proof (Z.div_mod (x mod 4096) 512 ltac:(lia)). pose proof (Z.mod_pos_bound (x mod 4096) 512 ltac:(lia)).
  pose proof (Z.div_mod (buf mod 4096) 512 ltac:(lia)). pose proof (Z.div_mod ((e - 1) mod 4096) 512 ltac:(lia)). pose proof (Z.mod_pos_bound ((e - 1) mod 4096) 512 ltac:(lia)).
  assert (Eb : (buf mod 4096) mod 512 = 0) by (change 4096 with (512 * 8); rewrite Z.rem_mul_r, Hb5 by lia; rewrite Z.add_0_l, Z.mul_comm, Z.mod_mul; lia).
  assert (Ee : ((e - 1) mod 4096) mod 512 = 511).
  { change 4096 with (512 * 8). rewrite Z.rem_mul_r, Z.mul_comm, Z.mod_add, Z.mod_mod by lia. rewrite Zminus_mod, He5. done. }
  split.
  - intros Hin. exists (x / 4096 - buf / 4096). assert (buf / 4096 <= x / 4096) by (apply Z.div_le_mono; lia). assert (x / 4096 <= (e - 1) / 4096) by (apply Z.div_le_mono; lia).
    split_and!; try lia; zcases_step; lia.
  - intros (j & Hj & Hp & Hs). revert Hs. zcases_step; zcases_step; lia.
Qed.

Record bio_legal (p fd data dlen off : Z) (b : blkdev) f s : Prop := {
  bl_fd : BLKFDOFF <= fd < BLKFDOFF + NBLKDEV;
  bl_slot : blkdevs s !! Z.to_nat (fd - BLKFDOFF) = Some b /\ fronts s !! blk_dev b = Some f;
  bl_align : let mask := sector_size (fd_info f) - 1 in Z.land (u64 off) mask = 0 /\ Z.land dlen mask = 0 /\ Z.land data mask = 0;
  bl_ptr : p <> 0 /\ aiocbs s !! p = None;
  bl_buf : 0 <= data /\ 0 < dlen /\ data + dlen + 4096 <= 2 ^ 64 /\ buf_pages data dlen < 2 ^ 31;
  bl_room : Z.of_nat (size (granted (grants s))) + buf_pages data dlen <= grant_entries;
  bl_few : zlen (flight (aiocbs s)) < 2 ^ 31 - 2;
  bl_wait : slot_comes (blk_dev b) f s
}.
(** There is a slot for the request. *)
Record ready (p fd : Z) (b : blkdev) f s : Prop := {
  rd_fd : BLKFDOFF <= fd < BLKFDOFF + NBLKDEV;
  rd_slot : blkdevs s !! Z.to_nat (fd - BLKFDOFF) = Some b /\ fronts s !! blk_dev b = Some f /\ ring_used f < RING_SIZE;
  rd_ptr : p <> 0 /\ aiocbs s !! p = None;
  rd_few : zlen (flight (aiocbs s)) < 2 ^ 31 - 2
}.
Definition pushed q f : blkfront_dev := set_rings (ring_used f + 1) (rq_ring f ++ [q]) (rs_ring f) f.
Definition submitted p num a q (b : blkdev) f g s : blk :=
  Blk (<[Z.to_nat num := set_blk_out (blk_outstanding b + 1) b]> (blkdevs s)) (bio_outstanding_total s + 1)
    (<[blk_dev b := pushed q f]> (fronts s)) (<[p := a]> (aiocbs s)) g (biodone s) (backend s) (warned s).
Record segs_of (dom data dlen : Z) (write : bool) (q : request) (refs : list Z) (g : G) : Prop := {
  so_refs : map seg_gref (rq_segs q) = refs;
  so_len : zlen (rq_segs q) = buf_pages data dlen;
  so_sects : forall i x, rq_segs q !! i = Some x -> first_sect x = seg_first data (Z.of_nat i) /\ last_sect x = seg_last data dlen (buf_pages data dlen) (Z.of_nat i);
  so_frames : forall i x, rq_segs q !! i = Some x -> grants_of g !! seg_gref x = Some (dom, virtual_to_mfn ((data / 4096 + Z.of_nat i) * 4096), write)
}.
Lemma wp_grant_buffer dom data dlen write s (Q : list seg -> blk -> Prop) : 0 <= data -> 0 < dlen -> data + dlen + 4096 <= 2 ^ 64 ->
  Z.of_nat (size (granted (grants s))) + buf_pages data dlen <= grant_entries ->
  (forall segs g, NoDup (map seg_gref segs) -> (forall r, r ∈ granted g <-> r ∈ granted (grants s) \/ r ∈ map seg_gref segs) ->
    (forall r, r ∈ map seg_gref segs -> r ∉ granted (grants s)) -> (forall op id sec, segs_of dom data dlen write (Request op id sec segs) (map seg_gref segs) g) -> Q segs (set_grants g s)) ->
  wp (grant_segs virtual_to_mfn dom data dlen (buf_pages data dlen) (Z.land data (u64 (Z.lnot PAGE_LOW))) write 0 (Z.to_nat (buf_pages data dlen))) Q s.
Proof using GL HR.
  intros Hd Hl He Hroom HQ. assert (Hpages : 0 < buf_pages data dlen) by (unfold buf_pages; pose proof (Z.div_le_mono data (data + dlen - 1) 4096 ltac:(lia) ltac:(lia)); lia).
  apply wp_grant_segs; [lia|]. intros segs g Hlen Hnd Hg Hfr Hsec _ Hent. apply HQ; try done. intros op id sec. split; cbn; [done|lia|done|].
  intros i x Hi. rewrite (Hent i x Hi). unfold PAGE_LOW, PAGE. change (u64 (Z.lnot 4095)) with PAGE_MASK. rewrite land_page by lia. do 4 f_equal.
  apply lookup_lt_Some in Hi. rewrite Hlen in Hi. unfold buf_pages in Hi. assert ((data + dlen - 1) / 4096 * 4096 <= data + dlen - 1) by (pose proof (Z.mul_div_le (data + dlen - 1) 4096 ltac:(lia)); lia).
  assert (0 <= data / 4096) by (apply Z.div_pos; lia). rewrite u64_small by nia. lia.
Qed.
Lemma ready_after g0 p fd data dlen off b f s l s1 f1 : bio_legal p fd data dlen off b f s -> moved g0 s l s1 -> fronts s1 !! blk_dev b = Some f1 -> ring_used f1 < RING_SIZE ->
  exists b1, ready p fd b1 f1 s1 /\ blk_dev b1 = blk_dev b.
Proof.
  intros [Hfd (Eb & Ef) _ (Hp0 & Hp) _ _ Hfew _] Mv E1 Hu. destruct (mv_slots _ _ _ _ Mv _ _ Eb) as (b1 & Eb1 & Ed). exists b1. split; [|done]. split; [done|by rewrite Ed|split; [done|]|].
  - exact (apart_weaken (Some (p, Aiocb 0 0 0 0 0 [] CbSync false)) s s1 Hp (mv_cbs _ _ _ _ Mv)).
  - pose proof (Permutation_length (mv_pay _ _ _ _ Mv)) as E. rewrite length_app, !length_map in E. lia.
Qed.
Lemma wp_bio g0 p fd read data dlen off arg b f s (Q : unit -> blk -> Prop) : blk_inv g0 s -> bio_legal p fd data dlen off b f s -> buf_pages data dlen <= BLKIF_MAX_SEGMENTS_PER_REQUEST ->
  (forall l s1 b1 f1 q g refs, let num := fd - BLKFDOFF in let a := Aiocb (blk_dev b1) data dlen off (zlen refs) refs (CbBio num arg) false in
     moved g0 s l s1 -> ready p fd b1 f1 s1 -> blk_dev b1 = blk_dev b -> (ring_used f < RING_SIZE -> s1 = s) ->
     rq_op q = (if read : bool then BLKIF_OP_READ else BLKIF_OP_WRITE) -> rq_id q = p -> rq_sector q = off / 512 -> segs_of (fd_dom f) data dlen (negb read) q refs g ->
     NoDup refs -> (forall r, r ∈ granted g <-> r ∈ granted (grants s1) \/ r ∈ refs) -> (forall r, r ∈ refs -> r ∉ granted (grants s1)) ->
     Q tt (submitted p num a q b1 f1 g s1)) ->
  wp (rumpuser_bio virtual_to_mfn p fd read data dlen off arg) Q s.
Proof using GL HR.
  intros I L Hmax HQ. pose proof L as [Hfd (Eb & Ef) (Ho & Hl & Hd) (Hp0 & Hp) (Hd0 & Hl0 & Hend & Hsm) Hroom Hfew Hwait]. unfold BLKFDOFF, NBLKDEV in *. set (num := fd - 64) in *.
  unfold rumpuser_bio. unfold BLKFDOFF. rewrite s32_near by lia. fold num. assert (Hpages : 0 < buf_pages data dlen) by (unfold buf_pages; pose proof (Z.div_le_mono data (data + dlen - 1) 4096 ltac:(lia) ltac:(lia)); lia).
  apply wp_bind. unfold blkdev_get. apply wp_bind, wp_assert; [apply Z.leb_le; lia|]. apply wp_bind, wp_get. eapply wp_opt; [exact Eb|]. apply wp_bind, wp_modify.
  apply wp_bind. unfold blkfront_aio, aiocb_get. apply wp_bind, wp_bind, wp_get. eapply wp_opt; [cbn; by rewrite lookup_insert_eq|]. cbn [aio_dev aio_buf aio_nbytes aio_offset].
  unfold front_get. apply wp_bind, wp_bind, wp_get. eapply wp_opt; [exact Ef|]. cbn zeta in *. apply wp_bind, wp_assert; [by apply Z.eqb_eq|]. apply wp_bind, wp_assert; [by apply Z.eqb_eq|].
  apply wp_bind, wp_assert; [by apply Z.eqb_eq|]. rewrite num_segs_pages by lia. apply wp_bind, wp_assert; [by apply Z.leb_le|].
  set (a0 := Aiocb (blk_dev b) data dlen off 0 [] (CbBio num arg) false). apply wp_bind.
  eapply wp_mono; [exact (wp_wait_slot g0 (Some (p, a0)) (blk_dev b) f s I Hp Ef Hwait)|]. intros _ s' (l & s1 & f1 & -> & Mv & E1 & Hu1 & Hsame).
  destruct (ready_after g0 p fd data dlen off b f s l s1 f1 L Mv E1 Hu1) as (b1 & R1 & Ed1). pose proof R1 as [_ (Eb1 & _ & _) _ Hfew1]. unfold BLKFDOFF in Eb1. fold num in Eb1.
  apply wp_bind, wp_assert; [by apply Z.ltb_lt|]. apply wp_bind. apply wp_grant_buffer; [done|done|done|cbn; pose proof (subseteq_size _ _ (mv_granted _ _ _ _ Mv)); lia|].
  intros segs g Hnd Hg Hfr Hsegs. cbn in Hg, Hfr. apply wp_bind, wp_modify.
  unfold push_request, front_get. apply wp_bind, wp_bind, wp_get. eapply wp_opt; [exact E1|]. apply wp_modify. apply wp_bind, wp_modify.
  apply wp_bind, wp_bind, wp_assert; [apply Z.leb_le; lia|]. apply wp_bind, wp_get. eapply wp_opt; [exact Eb1|]. apply wp_modify.
  set (q := Request (if negb read then BLKIF_OP_WRITE else BLKIF_OP_READ) p (off / 512) segs).
  assert (Hn : buf_pages data dlen = zlen (map seg_gref segs)) by (rewrite length_map; symmetry; exact (so_len _ _ _ _ _ _ _ (Hsegs 0 0 0))).
  specialize (HQ l s1 b1 f1 q g (map seg_gref segs)). cbn zeta in HQ. unfold submitted in HQ. cbn in HQ |- *. rewrite insert_insert_eq.
  pose proof (mv_inv _ _ _ _ Mv) as I1. pose proof (bi_total _ _ I1) as Ht. pose proof (bi_out _ _ I1 _ _ Eb1) as Hb. pose proof (on_slot_bound (Z.of_nat (Z.to_nat num)) (flight (aiocbs s1))) as Hob.
  rewrite !s32_near by lia. unfold a0. cbn. rewrite <- Hn, Ed1 in HQ. apply HQ; try done; [by destruct read|apply Hsegs].
Qed.
(** A buffer of more pages than a request has segments. *)
Lemma bio_too_long p fd read data dlen off arg b f s : bio_legal p fd data dlen off b f s -> BLKIF_MAX_SEGMENTS_PER_REQUEST < buf_pages data dlen ->
  rumpuser_bio virtual_to_mfn p fd read data dlen off arg s = Halted "ASSERT(n)".
Proof using Type.
  intros [Hfd (Eb & Ef) (Ho & Hl & Hd) _ (Hd0 & Hl0 & Hend & Hsm) _ _ _] Hmax. unfold BLKFDOFF, NBLKDEV in *.
  unfold rumpuser_bio, blkdev_get, blkfront_aio, aiocb_get, front_get, aiocb_put, BLKFDOFF, cbind, modify, mget, massert, mopt. rewrite s32_near by lia.
  rewrite (proj2 (Z.leb_le 0 (fd - 64))) by lia. cbn. rewrite Eb. cbn. rewrite lookup_insert_eq. cbn. rewrite Ef. cbn. cbn zeta in *. rewrite Ho, Hl, Hd. cbn.
  rewrite num_segs_pages by lia. by rewrite (proj2 (Z.leb_gt _ _) Hmax).
Qed.

Section Submitted.
Variables (g0 : gset Z) (p fd data dlen off arg : Z) (b : blkdev) (f : blkfront_dev) (s : blk) (q : request) (g : G) (refs : list Z).
Hypotheses (I : blk_inv g0 s) (L : ready p fd b f s).
Let num := fd - BLKFDOFF.
Let a := Aiocb (blk_dev b) data dlen off (zlen refs) refs (CbBio num arg) false.
Hypotheses (Hop : is_rw (rq_op q)) (Hid : rq_id q = p) (Hnd : NoDup refs).
Hypotheses (Hg : forall r, r ∈ granted g <-> r ∈ granted (grants s) \/ r ∈ refs) (Hfr : forall r, r ∈ refs -> r ∉ granted (grants s)).
Let s' := submitted p num a q b f g s.

Lemma ids_push : ids (pushed q f) ≡ₚ p :: ids f.
Proof using Hid. unfold ids, pushed. cbn. rewrite map_app. cbn. rewrite Hid, <- (assoc_L (++)). cbn. by rewrite <- Permutation_middle. Qed.
Lemma submitted_fronts : map_Forall (front_ok s') (fronts s').
Proof using I L Hid Hop.
  destruct L as [_ (Eb & Ef & Hfree) (Hp0 & Hp) _]. assert (Hkeep : forall x a', aiocbs s !! x = Some a' -> <[p := a]> (aiocbs s) !! x = Some a') by (intros x a' E; rewrite lookup_insert_ne; [done|congruence]).
  assert (Hmine : forall d l, Forall (fun x => exists a', aiocbs s !! x = Some a' /\ aio_dev a' = d) l -> Forall (fun x => exists a', aiocbs s' !! x = Some a' /\ aio_dev a' = d) l).
  { intros d l Hl. eapply Forall_impl; [exact Hl|]. cbn beta. intros x (a' & E & Hd). exists a'. split; [by apply Hkeep|done]. }
  intros d' f' E'. unfold s', submitted in *. cbn in E'. destruct (decide (d' = blk_dev b)) as [->|Hne].
  - rewrite lookup_insert_eq in E'. injection E' as <-. destruct (bi_fronts _ _ I _ _ Ef) as [Hu Hc Hn Hm [Hq Hr]].
    split; [rewrite ids_push; cbn; lia|cbn; lia| | |].
    + rewrite ids_push. apply NoDup_cons. split; [|done]. intros Hin. destruct (proj1 (Forall_forall _ _) Hm _ Hin) as (a' & E & _). congruence.
    + rewrite ids_push. apply Forall_cons. split; [|by apply Hmine]. exists a. cbn. by rewrite lookup_insert_eq.
    + split; [|done]. apply Forall_app. split; [done|by apply Forall_singleton].
  - rewrite lookup_insert_ne in E' by done. destruct (bi_fronts _ _ I _ _ E') as [Hu Hc Hn Hm Hrw]. split; try done. by apply Hmine.
Qed.
Lemma submitted_cbs : map_Forall (cb_ok s') (aiocbs s').
Proof using I L Hid Hnd.
  destruct L as [Hfd (Eb & Ef & Hfree) (Hp0 & Hp) _]. unfold BLKFDOFF, NBLKDEV in *. intros x a' Ex. unfold s', submitted in *. cbn in Ex. destruct (decide (x = p)) as [->|Hne].
  - rewrite lookup_insert_eq in Ex. injection Ex as <-. split; try done; cbn.
    + exists (pushed q f). rewrite lookup_insert_eq. split; [done|]. rewrite ids_push. by left.
    + destruct (out_keeps _ _ _ (blk_outstanding b + 1) _ _ Eb Eb) as (b2 & E2 & Ed). exists arg, b2. split_and!; [done|unfold num, BLKFDOFF; lia|done|done].
  - rewrite lookup_insert_ne in Ex by done. destruct (bi_cbs _ _ I _ _ Ex) as [Hx Hn (f' & Ef' & Hin) (arg' & b' & Ecb & Hc & Eb' & Edev) Hnd']. split; try done; cbn.
    + destruct (decide (aio_dev a' = blk_dev b)) as [Hd|Hd]; [|rewrite lookup_insert_ne by done; by exists f']. rewrite Hd in *. rewrite lookup_insert_eq. assert (f' = f) as -> by congruence. exists (pushed q f). split; [done|]. rewrite ids_push. by right.
    + destruct (out_keeps _ _ _ (blk_outstanding b + 1) _ _ Eb Eb') as (b2 & E2 & Ed). exists arg', b2. split_and!; [done..|congruence].
Qed.
Lemma submitted_grants : grants_ok g0 s'.
Proof using I L Hg Hfr.
  destruct L as [_ _ (Hp0 & Hp) _]. destruct (bi_grants _ _ I) as [Hall Hoth Hap].
  assert (Hnew : forall r x a', aiocbs s !! x = Some a' -> r ∈ aio_gref a' -> r ∉ refs) by (intros r x a' E Hr Hin; apply (Hfr r Hin), Hall; right; eauto).
  unfold s', submitted. split; cbn.
  - intros r. rewrite Hg, Hall. split.
    + intros [[Hr|(x & a' & E & Hr)]|Hr]; [by left| |right; exists p, a; by rewrite lookup_insert_eq]. right. exists x, a'. split; [|done]. rewrite lookup_insert_ne; [done|congruence].
    + intros [Hr|(x & a' & E & Hr)]; [by left; left|]. apply lookup_insert_Some in E as [[_ <-]|[_ E]]; [by right|left; right; eauto].
  - intros x a' r E Hr. apply lookup_insert_Some in E as [[_ <-]|[_ E]]; [|by eapply Hoth]. intros H0. apply (Hfr r Hr), Hall. by left.
  - intros x x' a1 a2 r E1 E2 H1 H2. apply lookup_insert_Some in E1 as [[<- <-]|[Hn1 E1]]; apply lookup_insert_Some in E2 as [[<- <-]|[Hn2 E2]]; [done| | |by eapply Hap].
    + exfalso. by eapply (Hnew r x' a2).
    + exfalso. by eapply (Hnew r x a1).
Qed.
Lemma submitted_inv : blk_inv g0 s' /\ flight (aiocbs s') ≡ₚ a :: flight (aiocbs s).
Proof using I L Hid Hop Hnd Hg Hfr.
  pose proof L as [Hfd (Eb & Ef & Hfree) (Hp0 & Hp) Hfew]. assert (Hf : flight (aiocbs s') ≡ₚ a :: flight (aiocbs s)) by (by apply flight_insert). split; [|done].
  split; [apply submitted_fronts|apply submitted_cbs| | | | |apply submitted_grants]; unfold s', submitted; cbn.
  - rewrite length_insert. apply I.
  - change (<[p := a]> (aiocbs s)) with (aiocbs s'). rewrite (bi_total _ _ I), Hf. cbn [length]. lia.
  - intros i b' Hi. change (<[p := a]> (aiocbs s)) with (aiocbs s'). destruct (out_lookup _ _ _ _ _ Eb _ Hi) as (b0 & E0 & _ & ->). rewrite (on_slot_perm _ _ _ Hf), on_slot_cons. change (cb_num a) with num. unfold num, BLKFDOFF, NBLKDEV in *.
    destruct (decide (i = Z.to_nat (fd - 64))) as [->|Hne].
    + rewrite !bool_decide_eq_true_2 by lia. by rewrite (bi_out _ _ I _ _ Eb).
    + rewrite !bool_decide_eq_false_2 by lia. rewrite (bi_out _ _ I _ _ E0). lia.
  - change (<[p := a]> (aiocbs s)) with (aiocbs s'). rewrite Hf. cbn [length]. lia.
Qed.
End Submitted.

(** ** Requests, answers and passes of the thread, in any order *)
Inductive blk_step : blk -> list (Z * Z) -> blk -> Prop :=
| st_bio p fd read data dlen off arg b f s s' : bio_legal p fd data dlen off b f s -> rumpuser_bio virtual_to_mfn p fd read data dlen off arg s = Done (tt, s') ->
    blk_step s [(arg, dlen)] s'
| st_answer x s : blk_step s [] (answer_one s x)
| st_pass n s s' : bio_outstanding_total s <> 0 -> scan_devs 0 (seqZ 0 NBLKDEV) s = Done (n, s') -> blk_step s [] s'.
Inductive blk_run (s0 : blk) : list (Z * Z) -> blk -> Prop :=
| run_nil : blk_run s0 [] s0
| run_step subs s new s' : blk_run s0 subs s -> blk_step s new s' -> blk_run s0 (subs ++ new) s'.
(** [l] have been called back since [s0]; the others of [subs] are in flight. *)
Definition accounted (s0 : blk) (subs : list (Z * Z)) (l : list ((Z * Z) * bool)) s : Prop :=
  biodone s = biodone s0 ++ map outcome l /\ map payload (flight (aiocbs s0)) ++ subs ≡ₚ map fst l ++ map payload (flight (aiocbs s)).

Lemma step_accounted g0 s new s' : blk_inv g0 s -> blk_step s new s' -> blk_inv g0 s' /\ exists l, accounted s new l s'.
Proof using GL HR.
  intros I St. revert I. destruct St as [p fd read data dlen off arg b f s1 s1' L Er|x s1|n s1 s1' Ht Er]; intros I.
  - destruct (Z.le_gt_cases (buf_pages data dlen) BLKIF_MAX_SEGMENTS_PER_REQUEST) as [Hmax|Hmax]; [|by rewrite (bio_too_long _ _ _ _ _ _ _ _ _ _ L Hmax) in Er].
    assert (Hw : wp (rumpuser_bio virtual_to_mfn p fd read data dlen off arg) (fun _ s' => blk_inv g0 s' /\ exists l, accounted s1 [(arg, dlen)] l s') s1).
    { eapply wp_bio; [exact I|exact L|exact Hmax|]. intros l s2 b2 f2 q g refs num a Mv R2 _ _ Hop Hid Hsec _ Hnd Hg Hfr.
      destruct (submitted_inv g0 p fd data dlen off arg b2 f2 s2 q g refs (mv_inv _ _ _ _ Mv) R2) as [I' Hf]; try done; [unfold is_rw; rewrite Hop; destruct read; tauto|].
      split; [exact I'|]. exists l. split; [apply Mv|]. rewrite (mv_pay _ _ _ _ Mv), <- (assoc_L (++)). f_equiv. etrans; [|symmetry; exact (fmap_Permutation payload _ _ Hf)]. cbn. by rewrite <- Permutation_cons_append. }
    destruct (wp_run _ _ _ Hw) as ([] & s2 & E2 & I' & A). rewrite Er in E2. injection E2 as ->. done.
  - destruct (answer_inv g0 s1 x I) as (I' & Ec & Ed). split; [done|]. exists []. split; [by rewrite Ed, app_nil_r|]. by rewrite Ec, app_nil_r.
  - destruct (wp_run _ _ _ (wp_bio_scan g0 s1 I)) as (n' & s2 & E2 & l & W & _). rewrite Er in E2. injection E2 as -> ->. split; [apply W|]. exists l. split; [apply W|]. rewrite app_nil_r. apply W.
Qed.
Lemma accounted_trans s0 subs l s new l' s' : accounted s0 subs l s -> accounted s new l' s' -> accounted s0 (subs ++ new) (l ++ l') s'.
Proof using Type.
  intros [D1 P1] [D2 P2]. split; [by rewrite D2, D1, map_app, (assoc_L (++))|]. rewrite (assoc_L (++)), P1, <- (assoc_L (++)), P2, map_app. by rewrite (assoc_L (++)).
Qed.
Lemma run_accounted g0 s0 subs s : blk_inv g0 s0 -> blk_run s0 subs s -> blk_inv g0 s /\ exists l, accounted s0 subs l s.
Proof using GL HR.
  intros I0. induction 1 as [|subs s new s' _ [I (l & A)] St]; [split; [done|]; exists []; split; by rewrite app_nil_r|].
  destruct (step_accounted g0 s new s' I St) as [I' (l' & A')]. split; [done|]. exists (l ++ l'). by eapply accounted_trans.
Qed.
End Flight.

(** C10. Block requests of the rump kernel, from rumpuser_bio through the ring to the
    callbacks.  However requests, answers of the backend and passes of the polling thread
    are interleaved: an aligned request returns, also when it finds the ring full and has
    to sleep until the backend answers, unless its buffer has more pages than a request
    has segments, which the assertion stops; a pass returns; no ring ever holds more than its
    size; every request is called back at most once, with its own argument and either all
    its bytes or an error, and the ones not called back are those in flight; the
    counters the thread sleeps by count exactly those, in all and by device; a pass
    leaves no answer that has arrived uncollected; and when nothing is in flight every
    grant has been taken back, but for those that gnttab_end_access has warned of, because
    the backend was still using them. *)
Theorem blk_requests_answered `{XB : XenBlk} {G : Type} `{GR : Grants G} {GL : GrantsLaws G} vtm g0 (s0 : blk (G := G)) subs s :
  0 < RING_SIZE < 2 ^ 31 -> blk_inv g0 s0 -> aiocbs s0 = ∅ -> blk_run vtm s0 subs s ->
  (exists l, biodone s = biodone s0 ++ map outcome l /\ subs ≡ₚ map fst l ++ map payload (flight (aiocbs s))) /\
  bio_outstanding_total s = zlen (flight (aiocbs s)) /\
  (forall i b, blkdevs s !! i = Some b -> blk_outstanding b = on_slot (Z.of_nat i) (flight (aiocbs s))) /\
  map_Forall (fun _ f => ring_used f = zlen (rq_ring f) + zlen (rs_ring f) /\ ring_used f <= RING_SIZE) (fronts s) /\
  (forall p fd read data dlen off arg b f, bio_legal p fd data dlen off b f s ->
     if buf_pages data dlen <=? BLKIF_MAX_SEGMENTS_PER_REQUEST
     then exists s', rumpuser_bio vtm p fd read data dlen off arg s = Done (tt, s')
     else rumpuser_bio vtm p fd read data dlen off arg s = Halted "ASSERT(n)") /\
  (exists n s', scan_devs 0 (seqZ 0 NBLKDEV) s = Done (n, s') /\ map_Forall (fun _ f => rs_ring f = []) (fronts s')) /\
  (aiocbs s = ∅ -> granted (grants s) = g0 ∪ list_to_set (warned s)).
Proof.
  intros HR I0 E0 Hrun. destruct (run_accounted HR vtm g0 s0 subs s I0 Hrun) as [I (l & Hd & Hp)]. split_and!.
  - exists l. split; [done|]. rewrite E0 in Hp. exact Hp.
  - apply I.
  - apply I.
  - intros d f Ef. by eapply ring_split.
  - intros p fd read data dlen off arg b f L. destruct (Z.leb_spec (buf_pages data dlen) BLKIF_MAX_SEGMENTS_PER_REQUEST) as [Hm|Hm]; [|by eapply bio_too_long].
    destruct (wp_run _ _ _ (wp_bio HR vtm g0 p fd read data dlen off arg b f s (fun _ _ => True) I L Hm ltac:(done))) as ([] & s' & E & _). eauto.
  - destruct (wp_run _ _ _ (wp_bio_scan HR g0 s I)) as (n & s' & E & l' & _ & _ & Hr). eauto.
  - intros Ee. apply set_eq. intros r. rewrite (go_all _ _ (bi_grants _ _ I)), Ee, elem_of_union, elem_of_list_to_set.
    split; [intros [?|(p & a & Ea & _)]; [done|by rewrite lookup_empty in Ea]|by left].
Qed.

(** C21. The request that a transfer becomes.  It is put into the device's ring behind the
    requests there (those that are not answered while it waits for a slot), with the right
    operation, control block and sector, and its segments, one to eleven, are exactly the
    sectors of the buffer: a byte is covered by one of them if and only if it is a byte
    of the transfer, and the grant of that segment gives the backend's domain access to
    the frame that this very byte's page is in, read-only if and only if the transfer is
    a write.  A buffer of more pages than a request has segments stops at the assertion. *)
Theorem bio_request_exact `{XB : XenBlk} {G : Type} `{GR : Grants G} {GL : GrantsLaws G} vtm g0 p fd read data dlen off arg b f (s : blk (G := G)) :
  0 < RING_SIZE < 2 ^ 31 -> blk_inv g0 s -> bio_legal p fd data dlen off b f s -> data mod 512 = 0 -> dlen mod 512 = 0 ->
  if buf_pages data dlen <=? BLKIF_MAX_SEGMENTS_PER_REQUEST
  then wp (rumpuser_bio vtm p fd read data dlen off arg) (fun _ s' => exists rq q f', fronts s' !! blk_dev b = Some f' /\ rq_ring f' = rq ++ [q] /\
    rq `sublist_of` rq_ring f /\ (ring_used f < RING_SIZE -> rq = rq_ring f) /\
    rq_op q = (if read : bool then BLKIF_OP_READ else BLKIF_OP_WRITE) /\ rq_id q = p /\ rq_sector q = off / 512 /\
    1 <= zlen (rq_segs q) <= BLKIF_MAX_SEGMENTS_PER_REQUEST /\
    (forall x, 0 <= x -> (data <= x < data + dlen <-> exists j sg, rq_segs q !! j = Some sg /\ x / 4096 = data / 4096 + Z.of_nat j /\
      first_sect sg <= x mod 4096 / 512 <= last_sect sg)) /\
    (forall x j sg, data <= x < data + dlen -> rq_segs q !! j = Some sg -> x / 4096 = data / 4096 + Z.of_nat j ->
      grants_of (grants s') !! seg_gref sg = Some (fd_dom f, vtm (x / 4096 * 4096), negb read))) s
  else rumpuser_bio vtm p fd read data dlen off arg s = Halted "ASSERT(n)".
Proof.
  intros HR I L Hd Hl. destruct (Z.leb_spec (buf_pages data dlen) BLKIF_MAX_SEGMENTS_PER_REQUEST) as [Hmax|Hmax]; [|by eapply bio_too_long].
  eapply wp_bio; [exact HR|exact I|exact L|exact Hmax|]. intros l s1 b1 f1 q g refs num a Mv R1 Ed Hsame Hop Hid Hsec [_ Hlen Hs Hfr] _ _ _. exists (rq_ring f1), q, (pushed q f1). unfold submitted. cbn [fronts grants]. rewrite <- Ed, lookup_insert_eq.
  pose proof L as [_ (_ & Ef) _ _ (Hd0 & Hl0 & Hend & _) _ _ _]. destruct R1 as [_ (_ & Ef1 & _) _ _]. destruct (mv_fronts _ _ _ _ Mv _ _ Ef) as (f1' & Ef1' & Hsub & _). rewrite <- Ed in Ef1'. simplify_eq.
  split_and!; try done; try lia.
  { intros Hu. rewrite (Hsame Hu), Ed in Ef1. congruence. }
  { rewrite Hlen. unfold buf_pages. pose proof (Z.div_le_mono data (data + dlen - 1) 4096 ltac:(lia) ltac:(lia)). lia. }
  { intros x Hx. rewrite (segments_cover data dlen x) by done. split.
    - intros (j & Hj & Hp & Hsx). destruct (lookup_lt_is_Some_2 (rq_segs q) (Z.to_nat j)) as [sg Esg]; [lia|]. destruct (Hs _ _ Esg) as [Ef' El]. rewrite Z2Nat.id in * by lia. exists (Z.to_nat j), sg.
      rewrite Z2Nat.id, Ef', El by lia. done.
    - intros (j & sg & Esg & Hp & Hsx). destruct (Hs _ _ Esg) as [Ef' El]. exists (Z.of_nat j). pose proof (lookup_lt_Some _ _ _ Esg). rewrite Ef', El in Hsx. split_and!; [lia|lia|done|tauto|tauto]. }
  intros x j sg Hx Esg Hp. rewrite Hp. by apply Hfr.
Qed.

(** ** An example: one open device of 512-byte sectors, and a ring of one slot. *)
#[local] Instance example_blk : XenBlk := {|
  BLKIF_OP_READ := 0; BLKIF_OP_WRITE := 1; BLKIF_OP_WRITE_BARRIER := 2; BLKIF_OP_FLUSH_DISKCACHE := 3; BLKIF_MAX_SEGMENTS_PER_REQUEST := 11; RING_SIZE := 1 |}.
(** A table of grants, of which the other side may hold on to one. *)
Definition example_table : Type := (gmap Z (Z * Z * bool) * Z)%type.
#[local] Instance example_grants : Grants example_table := {|
  grant_access := fun d f ro g => let r := fresh (dom g.1 : gset Z) in Some (r, (<[r := (d, f, ro)]> g.1, g.2));
  end_access := fun r g => if r =? g.2 then (false, g) else (true, (delete r g.1, g.2));
  grants_of := fst; grant_entries := 2048 |}.
#[local] Instance example_grants_laws : GrantsLaws example_table.
Proof.
  split; cbn.
  - intros d f ro g r g' [= <- <-]. split; [apply not_elem_of_dom, is_fresh|done].
  - intros. by eexists.
  - intros r g Hr. by destruct (r =? g.2).
Qed.
Definition example_front : blkfront_dev := Front 0 (Info 2048 512 true false true) 0 [] [].
Definition example_slot : blkdev := Blkdev 1000 (fd_info example_front) 1 0 768.
(** The second sleep brings the answer to the request that has the slot. *)
Definition blk_example : blk (G := example_table) := Blk (example_slot :: replicate 9 BLANK) 0 {[1000 := example_front]} ∅ (∅, -1) [] [[OtherPoll 7]; [Ans (Answer 1000 0 0)]] [].
Lemma example_ring : 0 < RING_SIZE < 2 ^ 31.
Proof. by split. Qed.
Lemma blk_example_inv : blk_inv ∅ blk_example.
Proof.
  split; try done.
  - intros d f Ef. cbn in Ef. apply lookup_singleton_Some in Ef as [<- <-]. split; try done; apply NoDup_nil_2.
  - intros i b Hi. change (flight (aiocbs blk_example)) with (@nil aiocb). change (on_slot _ []) with 0. destruct i as [|i]; cbn in Hi; [by injection Hi as <-|].
    by apply (lookup_replicate_1 9 BLANK) in Hi as [-> _].
  - split; cbn; [|intros p a r Ha; by rewrite lookup_empty in Ha|intros p p' a a' r Ha; by rewrite lookup_empty in Ha].
    intros r. split; [set_solver|]. intros [[?|?]|(p & a & Ha & _)]; [done|set_solver|]. by rewrite lookup_empty in Ha.
Qed.
Lemma blk_example_legal : bio_legal 5000 64 12800 8192 1024 example_slot example_front blk_example.
Proof. split; [by split|by split|by split_and!|by split|by split_and!|done|done|done]. Qed.
(** It has been sent, and a write of one sector is to follow. *)
Definition blk_full : blk (G := example_table) :=
  match rumpuser_bio (fun v => v / 4096) 5000 64 true 12800 8192 1024 7 blk_example with Done (_, s) => s | _ => blk_example end.
Lemma blk_full_run : blk_run (fun v => v / 4096) blk_example [(7, 8192)] blk_full.
Proof.
  apply (run_step _ _ [] blk_example [(7, 8192)] blk_full); [apply run_nil|].
  apply (st_bio _ 5000 64 true 12800 8192 1024 7 _ _ _ _ blk_example_legal). vm_compute. reflexivity.
Qed.
Definition full_slot : blkdev := default BLANK (blkdevs blk_full !! 0%nat).
Definition full_front : blkfront_dev := default example_front (fronts blk_full !! 1000).
Lemma blk_full_legal : bio_legal 6000 64 8192 512 0 full_slot full_front blk_full.
Proof.
  split; [by split|by split|by split_and!|by split|by split_and!|vm_compute; congruence|vm_compute; congruence|].
  intros _ _. exists 1%nat, [Ans (Answer 1000 0 0)]. split_and!; [done|reflexivity|]. exists 0%nat, 0. split; [left|done].
Qed.

Lemma blk_requests_answered_witness : exists s, blk_run (fun v => v / 4096) blk_example [(7, 8192); (8, 512)] s /\
  (exists l, biodone s = map outcome l /\ [(7, 8192); (8, 512)] ≡ₚ map fst l ++ map payload (flight (aiocbs s))) /\
  (aiocbs s = ∅ -> granted (grants s) = ∅ ∪ list_to_set (warned s)).
Proof.
  destruct (blk_requests_answered (fun v => v / 4096) ∅ blk_example [(7, 8192)] blk_full example_ring blk_example_inv eq_refl blk_full_run) as (_ & _ & _ & _ & Hbio & _).
  destruct (Hbio 6000 64 false 8192 512 0 8 _ _ blk_full_legal) as [s1 E1]. exists s1.
  assert (Hrun : blk_run (fun v => v / 4096) blk_example [(7, 8192); (8, 512)] s1) by (apply (run_step _ _ [(7, 8192)] blk_full [(8, 512)] s1); [apply blk_full_run|exact (st_bio _ 6000 64 false 8192 512 0 8 _ _ _ _ blk_full_legal E1)]).
  destruct (blk_requests_answered (fun v => v / 4096) ∅ blk_example [(7, 8192); (8, 512)] s1 example_ring blk_example_inv eq_refl Hrun) as (Hl & _ & _ & _ & _ & _ & Hg).
  split; [exact Hrun|]. split; [exact Hl|exact Hg].
Defined.

Lemma bio_request_exact_witness :
  wp (rumpuser_bio (fun v => v / 4096) 5000 64 true 12800 8192 1024 7) (fun _ s' => exists rq q f', fronts s' !! 1000 = Some f' /\ rq_ring f' = rq ++ [q] /\
    rq `sublist_of` [] /\ (0 < 1 -> rq = []) /\ rq_op q = 0 /\ rq_id q = 5000 /\ rq_sector q = 2 /\ 1 <= zlen (rq_segs q) <= 11 /\
    (forall x, 0 <= x -> (12800 <= x < 12800 + 8192 <-> exists j sg, rq_segs q !! j = Some sg /\ x / 4096 = 12800 / 4096 + Z.of_nat j /\
      first_sect sg <= x mod 4096 / 512 <= last_sect sg)) /\
    (forall x j sg, 12800 <= x < 12800 + 8192 -> rq_segs q !! j = Some sg -> x / 4096 = 12800 / 4096 + Z.of_nat j ->
      grants_of (grants s') !! seg_gref sg = Some (0, x / 4096 * 4096 / 4096, false))) blk_example.
Proof.
  exact (bio_request_exact (fun v => v / 4096) ∅ 5000 64 true 12800 8192 1024 7 example_slot example_front blk_example example_ring blk_example_inv blk_example_legal eq_refl eq_refl).
Defined.

(** ** Names of devices *)
Definition dev_tag (dt : devtype) : list Z := match dt with DEV_HD => [104; 100] | DEV_SD => [115; 100] | DEV_XVD => [120; 118; 100] end.
Definition dev_name (dt : devtype) (disk : Z) (part : option Z) : list Z :=
  XENBLK_MAGIC ++ dev_tag dt ++ [97 + disk] ++ match part with Some p => [48 + p] | None => [] end.
Definition disks (dt : devtype) : Z := match dt with DEV_HD => 4 | DEV_SD => 17 | DEV_XVD => 26 end.
(** What a number stands for. *)
Definition vbd_decode (v : Z) : devtype * Z * Z :=
  if 2 ^ 28 <=? v then (DEV_XVD, (v - 2 ^ 28) / 256, v mod 256)
  else if 202 * 256 <=? v then (DEV_XVD, (v - 202 * 256) / 16, v mod 16)
  else if 22 * 256 <=? v then (DEV_HD, 2 + (v - 22 * 256) / 64, v mod 64)
  else if 8 * 256 <=? v then (DEV_SD, (v - 8 * 256) / 16, v mod 16)
  else (DEV_HD, (v - 3 * 256) / 64, v mod 64).
Lemma mkvbd_decode dt disk part : 0 <= disk < disks dt -> 0 <= part <= 9 -> vbd_decode (mkvbd dt disk part) = (dt, disk, part) /\ 0 <= mkvbd dt disk part.
Proof.
  intros Hd Hp. assert (Hall : Forall (fun d => Forall (fun p => vbd_decode (mkvbd dt d p) = (dt, d, p) /\ 0 <= mkvbd dt d p) (seqZ 0 10)) (seqZ 0 (disks dt))).
  { destruct dt; repeat (apply Forall_cons_2; [repeat (apply Forall_cons_2; [split; [reflexivity|discriminate]|]); apply Forall_nil_2|]); apply Forall_nil_2. }
  apply (proj1 (Forall_forall _ _) (proj1 (Forall_forall _ _) Hall disk ltac:(apply elem_of_seqZ; lia))). apply elem_of_seqZ. lia.
Qed.
Lemma mkvbd_range dt disk part : 0 <= disk -> mkvbd dt disk part <> -1 -> disk < disks dt.
Proof. intros Hd. unfold mkvbd. destruct dt; cbn [disks]; zcases. Qed.
Lemma take_prefix (l name : list Z) : has_prefix l name = true -> name = l ++ drop (length l) name.
Proof. unfold has_prefix. intros E%bool_decide_eq_true. by rewrite <- E at 1; rewrite take_drop. Qed.
Lemma prefix_app (l r : list Z) : has_prefix l (l ++ r) = true.
Proof. apply bool_decide_eq_true_2, take_app_length. Qed.
Lemma dev_type_name name dt dp : dev_type name = Some (dt, dp) -> name = dev_tag dt ++ dp.
Proof.
  unfold dev_type. destruct (has_prefix [104; 100] name) eqn:E1; [intros [= <- <-]; by apply take_prefix in E1|]. destruct (has_prefix [115; 100] name) eqn:E2; [intros [= <- <-]; by apply take_prefix in E2|].
  destruct (has_prefix [120; 118; 100] name) eqn:E3; [intros [= <- <-]; by apply take_prefix in E3|done].
Qed.
Lemma char_ascii c : 0 <= c < 256 -> 0 <= char_of c -> char_of c = c.
Proof. intros Hc. unfold char_of, swrap. change (2 ^ (8 - 1)) with 128. change (2 ^ 8) with 256. destruct (Z.lt_ge_cases c 128); [rewrite Z.mod_small; lia|]. rewrite <- (Z.mod_add _ (-1)), Z.mod_small by lia. lia. Qed.

(** The numbers of block devices.  devname2vbd accepts exactly the names
    XENBLK_(hd|sd|xvd)x and XENBLK_(hd|sd|xvd)xn of a disk letter the type has (a-d, a-q, a-z) and
    a partition digit, and the number it gives determines the type, the disk and the
    partition: two accepted names have one number only if they are the same name, or
    differ in an explicit partition 0. *)
Theorem devname2vbd_correct name : Forall (fun c => 0 <= c < 256) name ->
  if devname2vbd name =? -1
  then forall dt disk part, 0 <= disk < disks dt -> (forall p, part = Some p -> 0 <= p <= 9) -> name <> dev_name dt disk part
  else exists dt disk part, 0 <= disk < disks dt /\ (forall p, part = Some p -> 0 <= p <= 9) /\ name = dev_name dt disk part /\
       vbd_decode (devname2vbd name) = (dt, disk, default 0 part).
Proof.
  intros Hb. destruct (Z.eqb_spec (devname2vbd name) (-1)) as [E|E].
  - intros dt disk part Hd Hp ->. revert E. assert (Hc : char_of (97 + disk) = 97 + disk) by (apply char_ascii; [destruct dt; cbn in Hd; lia|]; unfold char_of, swrap; change (2 ^ (8 - 1)) with 128; change (2 ^ 8) with 256; rewrite Z.mod_small by (destruct dt; cbn in Hd; lia); lia).
    assert (Hty : forall l, dev_type (dev_tag dt ++ l) = Some (dt, l)) by (intros l; by destruct dt).
    unfold devname2vbd, dev_name. rewrite prefix_app. cbn [negb].
    replace (drop 7 (XENBLK_MAGIC ++ dev_tag dt ++ [97 + disk] ++ match part with Some p => [48 + p] | None => [] end)) with (dev_tag dt ++ [97 + disk] ++ match part with Some p => [48 + p] | None => [] end) by done.
    rewrite Hty. destruct part as [p|]; cbn [app]; rewrite Hc; replace (97 + disk - 97) with disk by lia.
    + specialize (Hp p eq_refl). replace (char_of (48 + p) - 48) with p by (unfold char_of, swrap; change (2 ^ (8 - 1)) with 128; change (2 ^ 8) with 256; rewrite Z.mod_small by lia; lia).
      destruct (mkvbd_decode dt disk p Hd Hp) as [_ H0]. zcases_step; [lia|]. zcases_step; [lia|]. zcases_step; [lia|]. cbn. lia.
    + destruct (mkvbd_decode dt disk 0 Hd ltac:(lia)) as [_ H0]. zcases_step; lia.
  - revert E. unfold devname2vbd. destruct (has_prefix XENBLK_MAGIC name) eqn:Em; [|done]. apply take_prefix in Em. change (length XENBLK_MAGIC) with 7%nat in Em. cbn [negb].
    destruct (dev_type (drop 7 name)) as [[dt dp]|] eqn:Et; [|done]. apply dev_type_name in Et. rewrite Em, Et in Hb. apply Forall_app in Hb as [_ Hb]. apply Forall_app in Hb as [_ Hb].
    destruct dp as [|c [|e [|]]]; try done; apply Forall_cons in Hb as [Hc Hb].
    + destruct (Z.ltb_spec (char_of c - 97) 0); [done|]. intros Hv. assert (Hd : 0 <= char_of c - 97) by lia. pose proof (mkvbd_range _ _ _ Hd Hv). pose proof (char_ascii c Hc ltac:(lia)) as Ec. rewrite Ec in *.
      exists dt, (c - 97), None. split_and!; [lia|lia|done| |]. 2: { exact (proj1 (mkvbd_decode dt (c - 97) 0 ltac:(lia) ltac:(lia))). } unfold dev_name. rewrite Em, Et. by replace (97 + (c - 97)) with c by lia.
    + destruct (Z.ltb_spec (char_of c - 97) 0); [done|]. destruct (Z.ltb_spec (char_of e - 48) 0); [done|]. destruct (Z.ltb_spec 9 (char_of e - 48)); [done|]. cbn [orb]. intros Hv.
      apply Forall_cons in Hb as [He _]. assert (Hd : 0 <= char_of c - 97) by lia. pose proof (mkvbd_range _ _ _ Hd Hv). pose proof (char_ascii c Hc ltac:(lia)) as Ec. pose proof (char_ascii e He ltac:(lia)) as Ee. rewrite Ec, Ee in *.
      exists dt, (c - 97), (Some (e - 48)). split_and!; [lia|lia|intros p [= <-]; lia| |]. 2: { exact (proj1 (mkvbd_decode dt (c - 97) (e - 48) ltac:(lia) ltac:(lia))). } unfold dev_name. rewrite Em, Et. by replace (97 + (c - 97)) with c by lia; replace (48 + (e - 48)) with e by lia.
Qed.

Lemma devname2vbd_correct_witness : exists dt disk part, 0 <= disk < disks dt /\ (forall p, part = Some p -> 0 <= p <= 9) /\
  [88; 69; 78; 66; 76; 75; 95; 120; 118; 100; 98; 50] = dev_name dt disk part /\ vbd_decode 51730 = (dt, disk, default 0 part).
Proof. apply (devname2vbd_correct [88; 69; 78; 66; 76; 75; 95; 120; 118; 100; 98; 50]). repeat (apply Forall_cons_2; [lia|]). apply Forall_nil_2. Defined.
(** The seventeenth SCSI disk gets a number of the next major. *)
Example sdq_major : devname2vbd (dev_name DEV_SD 16 None) / 256 = 9 /\ devname2vbd (dev_name DEV_SD 15 None) / 256 = 8.
Proof. split; reflexivity. Qed.

(** ** The table of devices *)
Section Table.
Context {G : Type}.
Implicit Types s : blk (G := G).
Record table_ok s : Prop := {
  tb_len : length (blkdevs s) = Z.to_nat NBLKDEV;
  tb_once : forall i j b b', blkdevs s !! i = Some b -> blkdevs s !! j = Some b' -> blk_vbd b = blk_vbd b' -> blk_vbd b <> -1 -> i = j
}.
(** devname2num: a device has one slot, for as long as the program runs. *)
Lemma wp_devname2num name s : table_ok s ->
  wp (devname2num name) (fun n s' =>
    (n = -1 /\ s' = s /\ (devname2vbd name = -1 \/ Forall (fun b => blk_vbd b <> -1 /\ blk_vbd b <> devname2vbd name) (blkdevs s))) \/
    (0 <= n < NBLKDEV /\ table_ok s' /\ (exists b, blkdevs s' !! Z.to_nat n = Some b /\ blk_vbd b = devname2vbd name /\ blk_vbd b <> -1) /\
     (forall i b, i <> Z.to_nat n \/ blk_vbd b <> -1 -> blkdevs s !! i = Some b -> blkdevs s' !! i = Some b))) s.
Proof.
  intros [Hl Ho]. unfold devname2num. destruct (Z.eqb_spec (devname2vbd name) (-1)) as [Ev|Ev]; [apply wp_ret; left; auto|]. apply wp_bind, wp_get.
  destruct (list_find (fun b => blk_vbd b = devname2vbd name) (blkdevs s)) as [[i b]|] eqn:E1.
  - apply list_find_Some in E1 as (Ei & Eb & _). pose proof (lookup_lt_Some _ _ _ Ei) as Hlt. apply wp_ret. right. rewrite Nat2Z.id. unfold NBLKDEV in *. split_and!; [lia|lia|done|exists b; split_and!; [done|done|congruence]|done].
  - apply list_find_None in E1. destruct (list_find (fun b => blk_vbd b = -1) (blkdevs s)) as [[i b]|] eqn:E2.
    + apply list_find_Some in E2 as (Ei & Eb & _). pose proof (lookup_lt_Some _ _ _ Ei) as Hlt. apply wp_bind, wp_modify, wp_ret. right. rewrite Nat2Z.id. cbn. rewrite list_lookup_insert_eq by done. unfold NBLKDEV in *.
      assert (Hnew : forall j b', blkdevs s !! j = Some b' -> blk_vbd b' <> devname2vbd name) by (intros j b' E; exact (Forall_lookup_1 _ _ _ _ E1 E)).
      split_and!; [lia|lia| |by eexists|].
      * split; cbn; [by rewrite length_insert|]. rewrite ?Nat2Z.id. intros j k b1 b2 H1 H2 Hv Hne. destruct (decide (j = i)) as [->|Hj], (decide (k = i)) as [->|Hk]; [done| | |].
        -- rewrite list_lookup_insert_eq in H1 by done. rewrite list_lookup_insert_ne in H2 by done. injection H1 as <-. cbn in Hv. by destruct (Hnew _ _ H2).
        -- rewrite list_lookup_insert_eq in H2 by done. rewrite list_lookup_insert_ne in H1 by done. injection H2 as <-. cbn in Hv. by destruct (Hnew _ _ H1).
        -- rewrite list_lookup_insert_ne in H1, H2 by done. by eapply Ho.
      * intros j b' Hj Eb'. destruct (decide (j = i)) as [->|Hne]; [|by rewrite list_lookup_insert_ne]. simplify_eq. destruct Hj; [done|congruence].
    + apply list_find_None in E2. apply wp_ret. left. split_and!; [done..|]. right. apply Forall_forall. intros b Hb. split; [exact (proj1 (Forall_forall _ _) E2 b Hb)|exact (proj1 (Forall_forall _ _) E1 b Hb)].
Qed.
(** Opening a device that is open counts the open and reports failure all the same. *)
Lemma devopen_again init num b s : 0 <= num < NBLKDEV -> blkdevs s !! Z.to_nat num = Some b -> 0 < blk_open b < 2 ^ 31 - 1 ->
  devopen init num s = Done (1, set_blkdevs (<[Z.to_nat num := set_blk_open (blk_open b + 1) b]> (blkdevs s)) s).
Proof.
  intros Hn Eb Ho. assert (Hw : wp (devopen init num) (fun r s' => r = 1 /\ s' = set_blkdevs (<[Z.to_nat num := set_blk_open (blk_open b + 1) b]> (blkdevs s)) s) s).
  { unfold devopen. apply wp_bind, wp_assert; [apply Z.ltb_lt; lia|]. unfold blkdev_get. apply wp_bind, wp_bind, wp_assert; [apply Z.leb_le; lia|]. apply wp_bind, wp_get. eapply wp_opt; [exact Eb|].
    destruct (Z.eqb_spec (blk_open b) 0); [lia|]. cbn [negb]. apply wp_bind, wp_modify, wp_ret. rewrite s32_near by lia. done. }
  destruct (wp_run _ _ _ Hw) as (r & s' & E & -> & ->). done.
Qed.
End Table.
