(* ===== verification/Netfront.v ===== *)
(** * The network interface of the Xen guest (platform/xen/xen/netfront.c)

    Frames to be sent are copied into pages granted to the backend, one for each slot of
    a ring; pages to be filled are granted ahead and offered again after each use.  The
    rings are Xen's, two queues each: requests in the order they were pushed, answers in
    the order the backend gave them; only the producer's count of the receive ring is
    kept, as the slots are derived from it.  The backend and the interrupts are a plan in
    the state: what happens at each point where the code lets them happen.  The pages come
    from any page allocator, grants are the interface of [Blk]. *)
From S2P Require Import Prelude Pgalloc PageIface Blk.

Class XenNet := {
  NET_TX_RING_SIZE : Z;
  NET_RX_RING_SIZE : Z;
  NETIF_RSP_NULL : Z
}.
(** Ring sizes are powers of two that divide the counts' range. *)
Class XenNetLaws `{XenNet} : Prop := {
  tx_size : 0 < NET_TX_RING_SIZE < 2 ^ 15;
  rx_size : exists k, 0 <= k < 15 /\ NET_RX_RING_SIZE = 2 ^ k;
  rsp_null : 0 < NETIF_RSP_NULL                  (* NETIF_RSP_OKAY is 0 *)
}.

Definition PAGE_SIZE : Z := 4096.
Definition GRANT_INVALID_REF : Z := 0.
Record net_buffer := Nb { page : Z; gref : Z }.
#[export] Instance net_buffer_inhabited : Inhabited net_buffer := populate (Nb 0 0).

Record tx_request := TxReq { tx_gref : Z; tx_offset : Z; tx_size_of : Z; tx_id : Z }.
Record tx_response := TxRsp { txr_id : Z; txr_status : Z }.
Record rx_request := RxReq { rx_id : Z; rx_gref : Z }.
Record rx_response := RxRsp { rxr_id : Z; rxr_offset : Z; rxr_status : Z }.

(** What the backend can do: take the next frame, reading it through its grant; answer
    one of the requests it has taken; put a frame, of more bytes than
    NETIF_RSP_NULL, into the next page offered; give that page back without one. *)
Inductive bev := BTake | BDone (k : nat) (status : Z) | BRecv (off : Z) (data : list Z) | BFail (status : Z).

Section Netfront.
Context {P : Type} `{PA : PageAllocator P} `{XN : XenNet} {G : Type} `{GR : Grants G}.
Variable virt_to_mfn : Z -> Z.
Variable dom : Z.

Record net := Net {
  pg : P;
  mem : gmap Z (list Z);                     (* the bytes of machine frames *)
  grants : G;
  shared : gmap Z (Z * bool);                (* the entries the backend sees: frame, read-only *)
  tx_freelist : list Z;
  tx_sem : Z;
  tx_woken : bool;                           (* the sleeper in down has been woken *)
  tx_buffers : list net_buffer;
  tx_req : list tx_request;
  tx_rsp : list tx_response;
  bk_tx : list (tx_request * option (list Z)); (* taken and not answered, with what was read *)
  bk_seen : list (option (list Z));          (* all that was read *)
  rx_buffers : list net_buffer;
  rx_req_prod : Z;
  rx_req : list rx_request;
  rx_rsp : list rx_response;
  bk_sent : list (list Z);                   (* the frames the backend has put into pages *)
  received : list (list Z);                  (* the calls of netif_rx *)
  plan : list (list bev * bool)              (* what happens, and whether an interrupt follows *)
}.
Definition set_pg v s := Net v (mem s) (grants s) (shared s) (tx_freelist s) (tx_sem s) (tx_woken s) (tx_buffers s) (tx_req s) (tx_rsp s) (bk_tx s) (bk_seen s) (rx_buffers s) (rx_req_prod s) (rx_req s) (rx_rsp s) (bk_sent s) (received s) (plan s).
Definition set_mem v s := Net (pg s) v (grants s) (shared s) (tx_freelist s) (tx_sem s) (tx_woken s) (tx_buffers s) (tx_req s) (tx_rsp s) (bk_tx s) (bk_seen s) (rx_buffers s) (rx_req_prod s) (rx_req s) (rx_rsp s) (bk_sent s) (received s) (plan s).
Definition set_grants v w s := Net (pg s) (mem s) v w (tx_freelist s) (tx_sem s) (tx_woken s) (tx_buffers s) (tx_req s) (tx_rsp s) (bk_tx s) (bk_seen s) (rx_buffers s) (rx_req_prod s) (rx_req s) (rx_rsp s) (bk_sent s) (received s) (plan s).
Definition set_freelist v s := Net (pg s) (mem s) (grants s) (shared s) v (tx_sem s) (tx_woken s) (tx_buffers s) (tx_req s) (tx_rsp s) (bk_tx s) (bk_seen s) (rx_buffers s) (rx_req_prod s) (rx_req s) (rx_rsp s) (bk_sent s) (received s) (plan s).
Definition set_sem v w s := Net (pg s) (mem s) (grants s) (shared s) (tx_freelist s) v w (tx_buffers s) (tx_req s) (tx_rsp s) (bk_tx s) (bk_seen s) (rx_buffers s) (rx_req_prod s) (rx_req s) (rx_rsp s) (bk_sent s) (received s) (plan s).
Definition set_txbufs v s := Net (pg s) (mem s) (grants s) (shared s) (tx_freelist s) (tx_sem s) (tx_woken s) v (tx_req s) (tx_rsp s) (bk_tx s) (bk_seen s) (rx_buffers s) (rx_req_prod s) (rx_req s) (rx_rsp s) (bk_sent s) (received s) (plan s).
(** The transmit ring with the backend's side of it, and the receive ring likewise. *)
Definition set_txring q r b n s := Net (pg s) (mem s) (grants s) (shared s) (tx_freelist s) (tx_sem s) (tx_woken s) (tx_buffers s) q r b n (rx_buffers s) (rx_req_prod s) (rx_req s) (rx_rsp s) (bk_sent s) (received s) (plan s).
Definition set_rxbufs v s := Net (pg s) (mem s) (grants s) (shared s) (tx_freelist s) (tx_sem s) (tx_woken s) (tx_buffers s) (tx_req s) (tx_rsp s) (bk_tx s) (bk_seen s) v (rx_req_prod s) (rx_req s) (rx_rsp s) (bk_sent s) (received s) (plan s).
Definition set_rxring p q r b s := Net (pg s) (mem s) (grants s) (shared s) (tx_freelist s) (tx_sem s) (tx_woken s) (tx_buffers s) (tx_req s) (tx_rsp s) (bk_tx s) (bk_seen s) (rx_buffers s) p q r b (received s) (plan s).
Definition set_received v s := Net (pg s) (mem s) (grants s) (shared s) (tx_freelist s) (tx_sem s) (tx_woken s) (tx_buffers s) (tx_req s) (tx_rsp s) (bk_tx s) (bk_seen s) (rx_buffers s) (rx_req_prod s) (rx_req s) (rx_rsp s) (bk_sent s) v (plan s).
Definition set_plan v s := Net (pg s) (mem s) (grants s) (shared s) (tx_freelist s) (tx_sem s) (tx_woken s) (tx_buffers s) (tx_req s) (tx_rsp s) (bk_tx s) (bk_seen s) (rx_buffers s) (rx_req_prod s) (rx_req s) (rx_rsp s) (bk_sent s) (received s) v.

(** ** The backend *)
(** The bytes a request names, as the backend reads them. *)
Definition frame_at (s : net) (q : tx_request) : option (list Z) :=
  e ← shared s !! tx_gref q; b ← mem s !! fst e; Some (take (Z.to_nat (tx_size_of q)) (drop (Z.to_nat (tx_offset q)) b)).
Definition put_at (off : Z) (data b : list Z) : list Z := take (Z.to_nat off) b ++ data ++ drop (Z.to_nat off + length data) b.
Definition bev_run (s : net) (e : bev) : net :=
  match e with
  | BTake =>
      match tx_req s with
      | [] => s
      | q :: rest => set_txring rest (tx_rsp s) (bk_tx s ++ [(q, frame_at s q)]) (bk_seen s ++ [frame_at s q]) s
      end
  | BDone k status =>
      match bk_tx s !! k with
      | None => s
      | Some (q, _) => set_txring (tx_req s) (tx_rsp s ++ [TxRsp (tx_id q) status]) (delete k (bk_tx s)) (bk_seen s) s
      end
  | BRecv off data =>
      match rx_req s with
      | [] => s
      | q :: rest =>
          match shared s !! rx_gref q with
          | Some (m, false) =>
              match mem s !! m with
              | Some b =>
                  if (0 <=? off) && (NETIF_RSP_NULL <? zlen data) && (off + zlen data <=? PAGE_SIZE)
                  then set_rxring (rx_req_prod s) rest (rx_rsp s ++ [RxRsp (rx_id q) off (zlen data)]) (bk_sent s ++ [data])
                         (set_mem (<[m := put_at off data b]> (mem s)) s)
                  else s
              | None => s
              end
          | _ => s
          end
      end
  | BFail status =>
      match rx_req s with
      | [] => s
      | q :: rest => set_rxring (rx_req_prod s) rest (rx_rsp s ++ [RxRsp (rx_id q) 0 (Z.min status NETIF_RSP_NULL)]) (bk_sent s) s
      end
  end.
(** A point at which the backend may go on, with interrupts off; what the plan says of
    an interrupt there comes to nothing. *)
Definition bpoint : M net unit :=
  s <-- mget ;;
  match plan s with [] => cret tt | (l, _) :: w => mput (foldl bev_run (set_plan w s) l) end.

(** ** Buffers, grants and pages *)
Definition txbuf_get (id : Z) : M net net_buffer :=
  massert (0 <=? id) "tx_buffers" ;;; s <-- mget ;; mopt (tx_buffers s !! Z.to_nat id) "tx_buffers".
Definition txbuf_put (id : Z) (b : net_buffer) : M net unit := modify (fun s => set_txbufs (<[Z.to_nat id := b]> (tx_buffers s)) s).
Definition rxbuf_get (id : Z) : M net net_buffer :=
  massert (0 <=? id) "rx_buffers" ;;; s <-- mget ;; mopt (rx_buffers s !! Z.to_nat id) "rx_buffers".
Definition rxbuf_put (id : Z) (b : net_buffer) : M net unit := modify (fun s => set_rxbufs (<[Z.to_nat id := b]> (rx_buffers s)) s).
Definition net_grant (frame : Z) (ro : bool) : M net Z :=
  s <-- mget ;;
  match grant_access dom frame ro (grants s) with
  | Some (r, g) => modify (set_grants g (<[r := (frame, ro)]> (shared s))) ;;; cret r
  | None => mnofuel
  end.
Definition net_end (r : Z) : M net unit :=
  modify (fun s => set_grants (snd (end_access r (grants s))) (delete r (shared s)) s).
Definition NULL_PAGE : string := "page is NULL".
(** A new page has some content. *)
Definition net_pgalloc_one : M net Z :=
  p <-- zoom pg set_pg (pa_alloc 0) ;;
  (if p =? 0 then cret tt else modify (fun s => set_mem (<[virt_to_mfn p := replicate (Z.to_nat PAGE_SIZE) 0]> (mem s)) s)) ;;; cret p.

(** ** The free list of transmit slots *)
Definition fl_get (i : Z) : M net Z :=
  massert (0 <=? i) "tx_freelist" ;;; s <-- mget ;; mopt (tx_freelist s !! Z.to_nat i) "tx_freelist".
Definition fl_put (i v : Z) : M net unit :=
  massert (0 <=? i) "tx_freelist" ;;; s <-- mget ;; massert (i <? zlen (tx_freelist s)) "tx_freelist" ;;;
  modify (fun s => set_freelist (<[Z.to_nat i := v]> (tx_freelist s)) s).
Definition add_id_to_freelist (id : Z) : M net unit :=
  h <-- fl_get 0 ;; fl_put (id + 1) h ;;; fl_put 0 (u16 id).
Definition get_id_from_freelist : M net Z :=
  id <-- fl_get 0 ;; n <-- fl_get (id + 1) ;; fl_put 0 n ;;; cret (u16 id).

(** ** Collecting what was sent *)
Definition up : M net unit := modify (fun s => set_sem (tx_sem s + 1) (if tx_sem s <? 0 then true else tx_woken s) s).
Definition gc_one (r : tx_response) : M net unit :=
  if txr_status r =? NETIF_RSP_NULL then cret tt else
  massert (txr_id r <? NET_TX_RING_SIZE) "BUG_ON(id >= NET_TX_RING_SIZE)" ;;;
  b <-- txbuf_get (txr_id r) ;;
  net_end (gref b) ;;;
  txbuf_put (txr_id r) (Nb (page b) GRANT_INVALID_REF) ;;;
  add_id_to_freelist (txr_id r) ;;; up.
Definition gc_round (_ : unit) : M net (unit + unit) :=
  s <-- mget ;;
  mfor gc_one (tx_rsp s) ;;;
  modify (fun s' => set_txring (tx_req s') (drop (length (tx_rsp s)) (tx_rsp s')) (bk_tx s') (bk_seen s') s') ;;;
  bpoint ;;;
  s <-- mget ;; cret (match tx_rsp s with [] => inr tt | _ => inl tt end).
Definition network_tx_buf_gc : M net unit := loopM gc_round tt.

(** ** Receiving *)
Definition xennet_rxidx (idx : Z) : Z := Z.land idx (NET_RX_RING_SIZE - 1).
Definition rx_one (r : rx_response) : M net unit :=
  massert (rxr_id r <? NET_RX_RING_SIZE) "BUG_ON(id >= NET_RX_RING_SIZE)" ;;;
  b <-- rxbuf_get (rxr_id r) ;;
  net_end (gref b) ;;;
  if NETIF_RSP_NULL <? rxr_status r then
    s <-- mget ;;
    bytes <-- mopt (mem s !! virt_to_mfn (page b)) "page" ;;
    massert ((0 <=? rxr_offset r) && (rxr_offset r + rxr_status r <=? zlen bytes)) "page" ;;;
    modify (set_received (received s ++ [take (Z.to_nat (rxr_status r)) (drop (Z.to_nat (rxr_offset r)) bytes)]))
  else cret tt.
Definition rx_round (nr : Z) : M net (Z + Z) :=
  s <-- mget ;;
  mfor rx_one (rx_rsp s) ;;;
  modify (fun s' => set_rxring (rx_req_prod s') (rx_req s') (drop (length (rx_rsp s)) (rx_rsp s')) (bk_sent s') s') ;;;
  bpoint ;;;
  s' <-- mget ;;
  let nr := s32 (nr + zlen (rx_rsp s)) in
  cret (match rx_rsp s' with [] => inr nr | _ => inl nr end).
Definition refill (req_prod i : Z) : M net unit :=
  let id := xennet_rxidx (u32 (req_prod + i)) in
  b <-- rxbuf_get id ;;
  r <-- net_grant (virt_to_mfn (page b)) false ;;
  rxbuf_put id (Nb (page b) r) ;;;
  modify (fun s => set_rxring (rx_req_prod s) (rx_req s ++ [RxReq id r]) (rx_rsp s) (bk_sent s) s).
Definition network_rx : M net unit :=
  nr <-- loopM rx_round 0 ;;
  s <-- mget ;;
  let req_prod := rx_req_prod s in
  mfor (refill req_prod) (seqZ 0 nr) ;;;
  modify (fun s => set_rxring (u32 (req_prod + nr)) (rx_req s) (rx_rsp s) (bk_sent s) s).
Definition netfront_handler : M net unit := network_tx_buf_gc ;;; network_rx.

(** ** Sending *)
(** A point with interrupts on. *)
Definition irq_point : M net unit :=
  s <-- mget ;;
  match plan s with
  | [] => cret tt
  | (l, irq) :: w => mput (foldl bev_run (set_plan w s) l) ;;; if irq then netfront_handler else cret tt
  end.
(** One sleep of down; when the plan is over, the backend goes on with the oldest
    request and interrupts. *)
Definition sem_round (_ : unit) : M net (unit + unit) :=
  s <-- mget ;;
  (match plan s with
   | [] => mput (foldl bev_run s [BTake; BDone 0 0]) ;;; netfront_handler
   | _ => irq_point
   end) ;;;
  s <-- mget ;; cret (if tx_woken s then inr tt else inl tt).
Definition down : M net unit :=
  s <-- mget ;;
  mput (set_sem (tx_sem s - 1) false s) ;;;
  if tx_sem s <=? 0 then loopM sem_round tt else cret tt.
Definition tx_page (id : Z) : M net Z :=
  b <-- txbuf_get id ;;
  if negb (page b =? 0) then cret (page b) else
  p <-- net_pgalloc_one ;; massert (negb (p =? 0)) NULL_PAGE ;;;
  txbuf_put id (Nb p (gref b)) ;;; cret p.
Definition netfront_xmit (data : list Z) : M net unit :=
  massert (zlen data <=? PAGE_SIZE) "BUG_ON(len > PAGE_SIZE)" ;;;
  down ;;;
  irq_point ;;;
  id <-- get_id_from_freelist ;;
  irq_point ;;;
  p <-- tx_page id ;;
  s <-- mget ;;
  b <-- mopt (mem s !! virt_to_mfn p) "page" ;;
  modify (set_mem (<[virt_to_mfn p := put_at 0 data b]> (mem s))) ;;;
  irq_point ;;;
  r <-- net_grant (virt_to_mfn p) true ;;
  txbuf_put id (Nb p r) ;;;
  irq_point ;;;
  modify (fun s => set_txring (tx_req s ++ [TxReq r 0 (u16 (zlen data)) id]) (tx_rsp s) (bk_tx s) (bk_seen s) s) ;;;
  irq_point ;;;
  network_tx_buf_gc ;;;
  irq_point.

(** ** Setting up *)
Definition init_tx : M net unit :=
  mfor (fun i => add_id_to_freelist i ;;; b <-- txbuf_get i ;; txbuf_put i (Nb 0 (gref b))) (seqZ 0 NET_TX_RING_SIZE).
Definition init_rx_pages : M net unit :=
  mfor (fun i => p <-- net_pgalloc_one ;; b <-- rxbuf_get i ;; rxbuf_put i (Nb p (gref b))) (seqZ 0 NET_RX_RING_SIZE).
Definition init_rx_buffer (i : Z) : M net unit :=
  b <-- rxbuf_get i ;;
  r <-- net_grant (virt_to_mfn (page b)) false ;;
  rxbuf_put i (Nb (page b) r) ;;;
  modify (fun s => set_rxring (rx_req_prod s) (rx_req s ++ [RxReq i r]) (rx_rsp s) (bk_sent s) s).
Definition init_rx_buffers : M net unit :=
  mfor init_rx_buffer (seqZ 0 NET_RX_RING_SIZE) ;;;
  modify (fun s => set_rxring NET_RX_RING_SIZE (rx_req s) (rx_rsp s) (bk_sent s) s).
End Netfront.
