(* ===== verification/NetfrontInv.v ===== *)
(** * The network interface: the invariant of its rings, pages and grants *)
From S2P Require Import Prelude Pgalloc PgallocInv PageIface Blk Netfront.

(** [slots arr i fl]: from entry [i] the array leads through the slots [fl]. *)
Fixpoint slots (arr : list Z) (i : Z) (fl : list Z) : Prop :=
  match fl with [] => True | x :: fl => arr !! Z.to_nat i = Some x /\ slots arr (x + 1) fl end.
(** What a sender has in hand: a slot without and a slot with a grant, memory and buffers
    it relies on, whether it sleeps. *)
Record hand := Hand {
  h_down : Z;                      (* taken off the semaphore and not off the list *)
  h_ids : list Z;
  h_gr : list Z;
  h_mem : list (Z * list Z);
  h_buf : list (Z * net_buffer);
  h_sleeps : bool
}.
Definition idle : hand := Hand 0 [] [] [] [] false.

(** ** The size of the receive ring *)
Section Sizes.
Context `{XN : XenNet} {XL : XenNetLaws}.
Abbreviation NR := NET_RX_RING_SIZE.
Lemma rx_pos : 0 < NR.
Proof using XL. destruct rx_size as (k & Hk & ->). apply Z.pow_pos_nonneg; lia. Qed.
Lemma rx_small : NR < 2 ^ 15.
Proof using XL. destruct rx_size as (k & Hk & ->). apply Z.pow_lt_mono_r; lia. Qed.
Lemma u32_shift x : exists c, u32 x = x + c * NR.
Proof using XL.
  destruct rx_size as (k & Hk & E). unfold u32. rewrite E. exists (- (2 ^ (32 - k) * (x / 2 ^ 32))).
  rewrite (Z.mod_eq x (2 ^ 32)) by lia. replace (2 ^ 32) with (2 ^ (32 - k) * 2 ^ k) at 1 by (rewrite <- Z.pow_add_r by lia; f_equal; lia). ring.
Qed.
Lemma slots_shift a c k : map (fun x => x mod NR) (seqZ (a + c * NR) k) = map (fun x => x mod NR) (seqZ a k).
Proof using XL.
  unfold seqZ. rewrite !map_map. apply map_ext. intros i. rewrite Z.add_assoc. apply Z_mod_plus_full.
Qed.
Lemma rxidx_mod x : xennet_rxidx x = x mod NR.
Proof using XL. destruct rx_size as (k & Hk & E). unfold xennet_rxidx. rewrite E. apply land_mask_mod. lia. Qed.
End Sizes.

Section Inv.
Context {P : Type} `{PA : PageAllocator P} `{XN : XenNet} {XL : XenNetLaws} {G : Type} `{GR : Grants G} {GL : GrantsLaws G} {GP : GrantsPrompt G}.
Context (virt_to_mfn : Z -> Z) `{VM : !Inj (=) (=) virt_to_mfn} (dom : Z).
(** The grants of others leave room for one in each slot. *)
Context (g0 : gset Z) (Hroom : Z.of_nat (size g0) + NET_TX_RING_SIZE + NET_RX_RING_SIZE <= grant_entries).
Abbreviation net := (net (P := P) (G := G)).
Implicit Types (s : net) (h : hand).
Abbreviation N := NET_TX_RING_SIZE.
Abbreviation NR := NET_RX_RING_SIZE.

Definition txids s : list Z := map tx_id (tx_req s) ++ map (fun x => tx_id x.1) (bk_tx s) ++ map txr_id (tx_rsp s).
Definition rxids s : list Z := map rxr_id (rx_rsp s) ++ map rx_id (rx_req s).
Definition txb s (id : Z) : net_buffer := tx_buffers s !!! Z.to_nat id.
Definition rxb s (id : Z) : net_buffer := rx_buffers s !!! Z.to_nat id.
Definition frame (b : net_buffer) : Z := virt_to_mfn (page b).
(** A live grant: its reference and the entry the backend sees. *)
Definition live (ro : bool) (b : net_buffer) : Z * (Z * bool) := (gref b, (frame b, ro)).
Definition lives h s : list (Z * (Z * bool)) :=
  map (fun id => live true (txb s id)) (txids s ++ h_gr h) ++ map (fun id => live false (rxb s id)) (rxids s).
Record grants_ok (T : list (Z * (Z * bool))) s : Prop := {
  gk_nodup : NoDup T.*1;
  gk_all : forall r, r ∈ granted (grants s) <-> r ∈ g0 \/ r ∈ T.*1;
  gk_own : forall r, r ∈ T.*1 -> r ∉ g0;
  gk_seen : Forall (fun e => shared s !! e.1 = Some e.2) T
}.
Definition pages s : list Z := filter (fun p => p <> 0) (map page (tx_buffers s)) ++ map page (rx_buffers s).
Definition rx_frame s (r : rx_response) : option (list Z) :=
  if NETIF_RSP_NULL <? rxr_status r then b ← mem s !! frame (rxb s (rxr_id r)); Some (take (Z.to_nat (rxr_status r)) (drop (Z.to_nat (rxr_offset r)) b)) else None.
(** What the backend has read and what it will read in the ring as it is. *)
Definition wire s : list (option (list Z)) := bk_seen s ++ map (frame_at s) (tx_req s).
Definition no_null (l : list (list bev * bool)) : Prop :=
  Forall (fun x => Forall (fun e => match e with BDone _ st => st <> NETIF_RSP_NULL | _ => True end) x.1) l.

(** The slots: free, with the backend, or in hand, each once; the semaphore counts them. *)
Record slots_ok h s : Prop := {
  so_free : exists fl, slots (tx_freelist s) 0 fl /\ fl ++ txids s ++ h_gr h ++ h_ids h ≡ₚ seqZ 0 N /\ tx_sem s = zlen fl - h_down h;
  so_fl : zlen (tx_freelist s) = N + 1;
  so_wake : h_sleeps h = true -> h_down h = 1 /\ (tx_sem s < 0 /\ tx_woken s = false \/ 0 <= tx_sem s /\ tx_woken s = true);
  so_null : Forall (fun r => txr_status r <> NETIF_RSP_NULL) (tx_rsp s)
}.
(** The pages: each buffer its own, none of them free. *)
Record pages_ok h s : Prop := {
  po_tx : zlen (tx_buffers s) = N;
  po_rx : zlen (rx_buffers s) = NR;
  po_inv : pa_inv (pg s);
  po_nodup : NoDup (pages s);
  po_mine : Forall (fun p => ~ pa_free (pg s) p /\ exists b, mem s !! virt_to_mfn p = Some b /\ zlen b = PAGE_SIZE) (pages s);
  po_used : forall id, id ∈ txids s ++ h_gr h -> page (txb s id) <> 0;
  po_buf : Forall (fun x => txb s x.1 = x.2 /\ x.1 ∈ h_gr h ++ h_ids h) (h_buf h);
  po_mem : Forall (fun x => mem s !! x.1 = Some x.2 /\ x.1 ∉ map frame (rx_buffers s)) (h_mem h)
}.
(** Requests name the grants of their buffers; what the backend has read is still there. *)
Record reqs_ok (W : list (option (list Z))) s : Prop := {
  ro_req : Forall (fun q => tx_gref q = gref (txb s (tx_id q))) (tx_req s);
  ro_held : Forall (fun x => tx_gref x.1 = gref (txb s (tx_id x.1)) /\ frame_at s x.1 = x.2) (bk_tx s);
  ro_wire : wire s = W
}.
(** Receiving: [n] pages are with the backend or full, slots in the order of the count;
    the frames put into pages are those delivered and those that wait, in order. *)
Record rx_ok (B : list (list Z)) (n : Z) s : Prop := {
  xo_ids : rxids s = map (fun x => x mod NR) (seqZ (rx_req_prod s - n) n);
  xo_n : 0 <= n <= NR;
  xo_prod : 0 <= rx_req_prod s < 2 ^ 32;
  xo_req : Forall (fun q => rx_gref q = gref (rxb s (rx_id q))) (rx_req s);
  xo_rsp : Forall (fun r => NETIF_RSP_NULL < rxr_status r -> 0 <= rxr_offset r /\ rxr_offset r + rxr_status r <= PAGE_SIZE) (rx_rsp s);
  xo_recv : received s ++ omap (rx_frame s) (rx_rsp s) = bk_sent s;
  xo_sent : B `prefix_of` bk_sent s
}.
Record net_ok h W B n s : Prop := {
  no_slots : slots_ok h s;
  no_pages : pages_ok h s;
  no_grants : grants_ok (lives h s) s;
  no_reqs : reqs_ok W s;
  no_rx : rx_ok B n s;
  no_plan : no_null (plan s) /\ zlen (plan s) < 2 ^ 63
}.

(** ** Facts about the parts *)
Lemma grants_perm T T' s : T ≡ₚ T' -> grants_ok T s -> grants_ok T' s.
Proof using All.
  intros E [H1 H2 H3 H4]. assert (E1 : T.*1 ≡ₚ T'.*1) by (by rewrite E). split; [by rewrite <- E1| | |by rewrite <- E].
  - intros r. rewrite H2. by rewrite E1.
  - intros r. rewrite <- E1. apply H3.
Qed.

Lemma txids_range h s id : slots_ok h s -> id ∈ txids s ++ h_gr h ++ h_ids h -> 0 <= id < N.
Proof using All.
  intros [(fl & _ & Hp & _) _ _ _] Hid. assert (H : id ∈ seqZ 0 N) by (rewrite <- Hp; apply elem_of_app; by right).
  apply elem_of_seqZ in H. lia.
Qed.
Lemma rxids_range B n s id : rx_ok B n s -> id ∈ rxids s -> 0 <= id < NR.
Proof using All.
  intros H Hid. rewrite (xo_ids _ _ _ H) in Hid. apply list_elem_of_fmap in Hid as (x & -> & _). apply Z.mod_pos_bound, rx_pos.
Qed.
Lemma tx_entry h s id : pages_ok h s -> 0 <= id < N -> tx_buffers s !! Z.to_nat id = Some (txb s id).
Proof using All. intros H Hid. apply list_lookup_lookup_total_lt. pose proof (po_tx _ _ H). lia. Qed.
Lemma rx_entry h s id : pages_ok h s -> 0 <= id < NR -> rx_buffers s !! Z.to_nat id = Some (rxb s id).
Proof using All. intros H Hid. apply list_lookup_lookup_total_lt. pose proof (po_rx _ _ H). lia. Qed.
Lemma tx_page_in h s id : pages_ok h s -> 0 <= id < N -> page (txb s id) <> 0 -> page (txb s id) ∈ pages s.
Proof using All.
  intros H Hid Hp. apply elem_of_app. left. apply list_elem_of_filter. split; [done|].
  apply list_elem_of_fmap. exists (txb s id). split; [done|]. eapply list_elem_of_lookup_2. by eapply tx_entry.
Qed.
Lemma rx_page_in h s id : pages_ok h s -> 0 <= id < NR -> page (rxb s id) ∈ pages s.
Proof using All.
  intros H Hid. apply elem_of_app. right. apply list_elem_of_fmap. exists (rxb s id). split; [done|].
  eapply list_elem_of_lookup_2. by eapply rx_entry.
Qed.
Lemma page_bytes h s p : pages_ok h s -> p ∈ pages s -> exists b, mem s !! virt_to_mfn p = Some b /\ zlen b = PAGE_SIZE.
Proof using All. intros H Hp. by destruct (proj1 (Forall_forall _ _) (po_mine _ _ H) p Hp). Qed.
Lemma tx_rx_apart h s id : pages_ok h s -> 0 <= id < N -> page (txb s id) <> 0 -> frame (txb s id) ∉ map frame (rx_buffers s).
Proof using All.
  intros H Hid Hp Hin. apply list_elem_of_fmap in Hin as (b & E & Hb). apply VM in E.
  pose proof (po_nodup _ _ H) as Hn. apply NoDup_app in Hn as (_ & Hd & _). apply (Hd (page (txb s id))).
  - pose proof (tx_page_in h s id H Hid Hp) as Hin. apply elem_of_app in Hin as [?|Hin]; [done|].
    apply list_elem_of_filter. split; [done|]. apply list_elem_of_fmap. exists (txb s id). split; [done|].
    eapply list_elem_of_lookup_2. by eapply tx_entry.
  - rewrite E. apply list_elem_of_fmap. by exists b.
Qed.
Lemma rx_apart h s i j : pages_ok h s -> 0 <= i < NR -> 0 <= j < NR -> frame (rxb s i) = frame (rxb s j) -> i = j.
Proof using All.
  intros H Hi Hj E. apply VM in E. pose proof (po_nodup _ _ H) as Hn. apply NoDup_app in Hn as (_ & _ & Hn).
  apply (NoDup_lookup _ (Z.to_nat i) (Z.to_nat j) (page (rxb s i))) in Hn; [lia| |].
  - change (map page (rx_buffers s)) with (page <$> rx_buffers s). by rewrite list_lookup_fmap, (rx_entry h).
  - change (map page (rx_buffers s)) with (page <$> rx_buffers s). by rewrite list_lookup_fmap, (rx_entry h), E.
Qed.
Lemma rx_frame_in s id : 0 <= id < NR -> zlen (rx_buffers s) = NR -> frame (rxb s id) ∈ map frame (rx_buffers s).
Proof using All.
  intros Hid Hl. apply list_elem_of_fmap. exists (rxb s id). split; [done|]. eapply list_elem_of_lookup_2.
  apply list_lookup_lookup_total_lt. lia.
Qed.
Lemma live_tx h W B n s id : net_ok h W B n s -> id ∈ txids s ++ h_gr h -> shared s !! gref (txb s id) = Some (frame (txb s id), true).
Proof using All.
  intros H Hid. apply (proj1 (Forall_forall _ _) (gk_seen _ _ (no_grants _ _ _ _ _ H)) (live true (txb s id))).
  apply elem_of_app. left. apply list_elem_of_fmap. by exists id.
Qed.
Lemma live_rx h W B n s id : net_ok h W B n s -> id ∈ rxids s -> shared s !! gref (rxb s id) = Some (frame (rxb s id), false).
Proof using All.
  intros H Hid. apply (proj1 (Forall_forall _ _) (gk_seen _ _ (no_grants _ _ _ _ _ H)) (live false (rxb s id))).
  apply elem_of_app. right. apply list_elem_of_fmap. by exists id.
Qed.
(** Frames change only with the memory of their pages and the grants of their slots. *)
Lemma frame_at_same s s' q m : shared s !! tx_gref q = Some m -> shared s' !! tx_gref q = Some m -> mem s' !! m.1 = mem s !! m.1 ->
  frame_at s' q = frame_at s q.
Proof using All. intros E E' Em. unfold frame_at. rewrite E, E'. cbn. by rewrite Em. Qed.

(** A part of the invariant that the step does not touch. *)
Ltac keep H := destruct H; split; first [assumption | apply Forall_nil_2].

(** ** The backend's steps *)
Lemma bev_take h W B n s : net_ok h W B n s -> net_ok h W B n (bev_run s BTake).
Proof using All.
  intros [Hs Hp Hg Hr Hx Hpl]. cbn. destruct (tx_req s) as [|q rest] eqn:Eq; [by split|].
  set (s' := set_txring _ _ _ _ s). assert (E : txids s' ≡ₚ txids s).
  { unfold txids, s'. cbn. rewrite Eq, map_app. cbn. solve_Permutation. }
  destruct Hr as [R1 R2 R3]. rewrite Eq in R1. apply Forall_cons in R1 as [Rq R1]. split; [..|keep Hx|done].
  - destruct Hs as [(fl & F1 & F2 & F3) S2 S3 S4]. split; [|done..]. exists fl. split; [done|]. by rewrite E.
  - destruct Hp as [? ? ? ? ? Hu ? ?]. split; try done. intros id. rewrite E. apply Hu.
  - eapply grants_perm; [|split; apply Hg]. unfold lives. by rewrite E.
  - split; [done| |].
    + apply Forall_app. split; [exact R2|]. by apply Forall_singleton.
    + rewrite <- R3. unfold wire. cbn. rewrite Eq. by rewrite <- app_assoc.
Qed.
Lemma bev_done h W B n s k st : st <> NETIF_RSP_NULL -> net_ok h W B n s -> net_ok h W B n (bev_run s (BDone k st)).
Proof using All.
  intros Hst [Hs Hp Hg Hr Hx Hpl]. cbn. destruct (bk_tx s !! k) as [[q f]|] eqn:Eq; [|by split].
  set (s' := set_txring _ _ _ _ s). assert (E : txids s' ≡ₚ txids s).
  { unfold txids, s'. cbn. rewrite (delete_Permutation _ _ _ Eq) at 2. rewrite map_app. cbn. solve_Permutation. }
  destruct Hr as [R1 R2 R3]. split; [..|keep Hx|done].
  - destruct Hs as [(fl & F1 & F2 & F3) S2 S3 S4]. split; [|done|done|].
    + exists fl. split; [done|]. by rewrite E.
    + apply Forall_app. split; [done|]. by apply Forall_singleton.
  - destruct Hp as [? ? ? ? ? Hu ? ?]. split; try done. intros id. rewrite E. apply Hu.
  - eapply grants_perm; [|split; apply Hg]. unfold lives. by rewrite E.
  - split; [done|by apply Forall_delete|done].
Qed.

Lemma mod_inj x y a : a <= x < a + NR -> a <= y < a + NR -> x mod NR = y mod NR -> x = y.
Proof using All.
  pose proof rx_pos as H0. remember NR as k. clear - H0. intros Hx Hy E.
  pose proof (Z.div_mod x k ltac:(lia)). pose proof (Z.div_mod y k ltac:(lia)). assert (x / k = y / k) by nia. nia.
Qed.
Lemma rxids_nodup B n s : rx_ok B n s -> NoDup (rxids s).
Proof using All.
  intros H. rewrite (xo_ids _ _ _ H). pose proof (xo_n _ _ _ H). apply NoDup_fmap_2_strong; [|apply NoDup_seqZ].
  intros x y Hx Hy E. apply elem_of_seqZ in Hx, Hy. apply (mod_inj x y (rx_req_prod s - n)); [lia|lia|done].
Qed.
Lemma bev_fail h W B n s st : net_ok h W B n s -> net_ok h W B n (bev_run s (BFail st)).
Proof using All.
  intros [Hs Hp Hg Hr Hx Hpl]. cbn. destruct (rx_req s) as [|q rest] eqn:Eq; [by split|].
  set (s' := set_rxring _ _ _ _ s). assert (E : rxids s' = rxids s).
  { unfold rxids, s'. cbn. rewrite Eq, map_app, <- app_assoc. done. }
  split; [keep Hs|keep Hp| |keep Hr| |done].
  - eapply grants_perm; [|split; apply Hg]. unfold lives. by rewrite E.
  - destruct Hx as [X1 X2 X3 X4 X5 X6 X7]. rewrite Eq in X4. apply Forall_cons in X4 as [_ X4]. split; [by rewrite E|done|done|done| | |done].
    + apply Forall_app. split; [done|]. apply Forall_singleton. cbn. lia.
    + change (received s ++ omap (rx_frame s) (rx_rsp s ++ [RxRsp (rx_id q) 0 (Z.min st NETIF_RSP_NULL)]) = bk_sent s).
      rewrite omap_app, <- X6. cbn. unfold rx_frame at 2. cbn. rewrite (proj2 (Z.ltb_ge _ _)) by lia. by rewrite app_nil_r.
Qed.
Lemma omap_same {A C} (f g : A -> option C) (l : list A) : (forall x, x ∈ l -> f x = g x) -> omap f l = omap g l.
Proof using All. induction l as [|x l IH]; intros H; [done|]. cbn. rewrite (H x) by (by left). rewrite IH; [done|]. intros y Hy. apply H. by right. Qed.
Lemma rx_frame_other s s' r m b : mem s' = <[m := b]> (mem s) -> rx_buffers s' = rx_buffers s -> frame (rxb s (rxr_id r)) <> m -> rx_frame s' r = rx_frame s r.
Proof using All. intros Em Eb Hne. unfold rx_frame, rxb. rewrite Em, Eb. unfold rxb in Hne. by rewrite lookup_insert_ne by done. Qed.
Lemma frames_other h W B n s s' m b : net_ok h W B n s -> mem s' = <[m := b]> (mem s) -> shared s' = shared s ->
  (forall id, id ∈ txids s -> frame (txb s id) <> m) ->
  forall q, q ∈ tx_req s \/ q ∈ (bk_tx s).*1 -> frame_at s' q = frame_at s q.
Proof using All.
  intros H Em Es Hne q Hq. assert (Hid : tx_id q ∈ txids s /\ tx_gref q = gref (txb s (tx_id q))).
  { destruct Hq as [Hq|Hq].
    - split; [|by apply (proj1 (Forall_forall _ _) (ro_req _ _ (no_reqs _ _ _ _ _ H)))].
      unfold txids. apply elem_of_app. left. apply list_elem_of_fmap. by exists q.
    - apply list_elem_of_fmap in Hq as (x & -> & Hx). split; [|by apply (proj1 (Forall_forall _ _) (ro_held _ _ (no_reqs _ _ _ _ _ H)))].
      unfold txids. apply elem_of_app. right. apply elem_of_app. left. apply list_elem_of_fmap. by exists x. }
  destruct Hid as [Hid Eg]. apply (frame_at_same s s' q (frame (txb s (tx_id q)), true)).
  - rewrite Eg. eapply live_tx; [done|]. apply elem_of_app. by left.
  - rewrite Es, Eg. eapply live_tx; [done|]. apply elem_of_app. by left.
  - cbn. rewrite Em. apply lookup_insert_ne. by apply not_eq_sym, Hne.
Qed.
Lemma reqs_other h W B n s s' m b : net_ok h W B n s -> mem s' = <[m := b]> (mem s) -> shared s' = shared s ->
  tx_buffers s' = tx_buffers s -> tx_req s' = tx_req s -> bk_tx s' = bk_tx s -> bk_seen s' = bk_seen s ->
  (forall id, id ∈ txids s -> frame (txb s id) <> m) -> reqs_ok W s'.
Proof using All.
  intros H Em Es Eb Eq Ek En Hne. pose proof (frames_other _ _ _ _ _ s' m b H Em Es Hne) as F.
  destruct (no_reqs _ _ _ _ _ H) as [R1 R2 R3]. unfold txb in *. split.
  - unfold txb. by rewrite Eq, Eb.
  - unfold txb. rewrite Ek, Eb. apply Forall_forall. intros x Hx. destruct (proj1 (Forall_forall _ _) R2 x Hx) as [? Ex]. split; [done|].
    rewrite F; [done|]. right. by apply list_elem_of_fmap_2.
  - rewrite <- R3. unfold wire. rewrite En, Eq. f_equal. apply map_ext_in. intros q Hq. apply F. left. by apply list_elem_of_In.
Qed.
Lemma put_at_len off data b : 0 <= off -> off + zlen data <= zlen b -> zlen (put_at off data b) = zlen b.
Proof using All. intros H0 H1. unfold put_at. rewrite !length_app, length_take, length_drop. lia. Qed.
Lemma put_at_get off data b : 0 <= off -> off + zlen data <= zlen b -> take (length data) (drop (Z.to_nat off) (put_at off data b)) = data.
Proof using All.
  intros H0 H1. unfold put_at. rewrite drop_app_length' by (rewrite length_take; lia). by rewrite take_app_length.
Qed.
Lemma bev_recv h W B n s off data : net_ok h W B n s -> net_ok h W B n (bev_run s (BRecv off data)).
Proof using All.
  intros I. pose proof I as [Hs Hp Hg Hr Hx Hpl]. cbn. destruct (rx_req s) as [|q rest] eqn:Eq; [done|].
  destruct (shared s !! rx_gref q) as [[m []]|] eqn:Eg; [done| |done]. destruct (mem s !! m) as [b|] eqn:Eb; [|done].
  destruct ((0 <=? off) && _ && _) eqn:Ec; [|done]. rewrite !andb_true_iff, !Z.leb_le, Z.ltb_lt in Ec. destruct Ec as [[Hoff Hpos] Hfit].
  set (s' := set_rxring _ _ _ _ _). assert (E : rxids s' = rxids s).
  { unfold rxids, s'. cbn. rewrite Eq, map_app, <- app_assoc. done. }
  assert (Hq : rx_id q ∈ rxids s) by (unfold rxids; rewrite Eq; apply elem_of_app; right; by left).
  pose proof (rxids_range _ _ _ _ Hx Hq) as Hqr. destruct Hx as [X1 X2 X3 X4 X5 X6 X7]. rewrite Eq in X4. apply Forall_cons in X4 as [Xq X4].
  assert (m = frame (rxb s (rx_id q))) as Em by (rewrite Xq, (live_rx h W B n s) in Eg by done; by injection Eg).
  assert (Hm : m ∈ map frame (rx_buffers s)) by (rewrite Em; apply rx_frame_in; [done|apply Hp]).
  assert (Hb : zlen b = PAGE_SIZE).
  { destruct (page_bytes h s (page (rxb s (rx_id q))) Hp (rx_page_in h s _ Hp Hqr)) as (b' & E' & ?). unfold frame in Em. congruence. }
  split; [keep Hs| | | | |done].
  - destruct Hp as [P1 P2 P3 P4 P5 P6 P7 P8]. split; try done.
    + eapply Forall_impl; [exact P5|]. intros p (Hf & b' & E' & Hl). split; [done|]. cbn.
      destruct (decide (virt_to_mfn p = m)) as [->|Hne]; [rewrite lookup_insert_eq|rewrite lookup_insert_ne by done; eauto].
      eexists. split; [done|]. rewrite put_at_len; lia.
    + eapply Forall_impl; [exact P8|]. intros x [E' Hn]. split; [|done]. cbn. rewrite lookup_insert_ne; [done|]. congruence.
  - eapply grants_perm; [|split; apply Hg]. unfold lives. by rewrite E.
  - apply (reqs_other h W B n s s' m (put_at off data b)); try done. intros id Hid Ef. rewrite <- Ef in Hm.
    eapply tx_rx_apart; [done|by eapply txids_range; [|apply elem_of_app; left]| |done].
    apply (po_used _ _ Hp). apply elem_of_app. by left.
  - split; [by rewrite E|done|done|done| | |].
    + apply Forall_app. split; [done|]. apply Forall_singleton. done.
    + unfold s' at 1 3 4. cbn [received rx_rsp bk_sent set_rxring set_mem]. rewrite omap_app, app_assoc. f_equal.
      * rewrite <- X6. f_equal. apply omap_same. intros r Hr'. apply (rx_frame_other s s' r m (put_at off data b)); [done|done|].
        rewrite Em. intros Hf. pose proof (rxids_nodup B n s (no_rx _ _ _ _ _ I)) as Hn.
        eapply rx_apart in Hf; [|done| |done]. 2: { eapply rxids_range; [exact (no_rx _ _ _ _ _ I)|]. apply elem_of_app. left. by apply list_elem_of_fmap_2. }
        unfold rxids in Hn. apply NoDup_app in Hn as (_ & Hd & _). apply (Hd (rxr_id r)); [by apply list_elem_of_fmap_2|]. rewrite Hf, Eq. by left.
      * cbn. unfold rx_frame, rxb, frame. cbn. rewrite (proj2 (Z.ltb_lt _ _)) by lia. unfold frame, rxb in Em. rewrite <- Em, lookup_insert_eq. cbn.
        rewrite Nat2Z.id, put_at_get by lia. done.
    + cbn. by apply prefix_app_r.
Qed.

Definition bev_ok (e : bev) : Prop := match e with BDone _ st => st <> NETIF_RSP_NULL | _ => True end.
Lemma bevs_ok h W B n l s : Forall bev_ok l -> net_ok h W B n s ->
  net_ok h W B n (foldl bev_run s l) /\ tx_sem (foldl bev_run s l) = tx_sem s /\ plan (foldl bev_run s l) = plan s.
Proof using All.
  revert s. induction l as [|e l IH]; intros s Hl H; [done|]. apply Forall_cons in Hl as [He Hl]. cbn [foldl].
  assert (H' : net_ok h W B n (bev_run s e)).
  { destruct e; [by apply bev_take|by apply bev_done|by apply bev_recv|by apply bev_fail]. }
  destruct (IH _ Hl H') as (? & E1 & E2). split; [done|]. rewrite E1, E2.
  clear. destruct e; cbn; repeat case_match; done.
Qed.
Lemma plan_pop h W B n s l b w : net_ok h W B n s -> plan s = (l, b) :: w ->
  net_ok h W B n (foldl bev_run (set_plan w s) l) /\ tx_sem (foldl bev_run (set_plan w s) l) = tx_sem s /\
  zlen (plan (foldl bev_run (set_plan w s) l)) < zlen (plan s).
Proof using All.
  intros [Hs Hp Hg Hr Hx [Hn Hl]] E. rewrite E in Hn, Hl |- *. apply Forall_cons in Hn as [Hn Hw].
  destruct (bevs_ok h W B n l (set_plan w s)) as (H & E1 & E2); [done| |].
  - split; [keep Hs|keep Hp|keep Hg|keep Hr|keep Hx|]. split; [done|]. cbn in *. lia.
  - split; [done|]. rewrite E1, E2. cbn. split; [done|lia].
Qed.
Lemma wp_bpoint h W B n s (Q : unit -> net -> Prop) : net_ok h W B n s ->
  (forall s', net_ok h W B n s' -> tx_sem s' = tx_sem s -> s' = s \/ zlen (plan s') < zlen (plan s) -> Q tt s') -> wp bpoint Q s.
Proof using All.
  intros H HQ. unfold bpoint. apply wp_bind, wp_get. destruct (plan s) as [|[l b] w] eqn:E.
  - apply wp_ret, HQ; [done|done|by left].
  - destruct (plan_pop _ _ _ _ _ _ _ _ H E) as (H' & Es & Hl). apply (wp_modify (fun _ => _)). apply HQ; [done|done|]. right. by rewrite E in Hl.
Qed.

(** ** Collecting what was sent *)
Lemma slots_other arr i j v fl : 0 <= i -> 0 <= j -> i <> j -> Forall (fun x => 0 <= x /\ x + 1 <> j) fl -> slots arr i fl -> slots (<[Z.to_nat j := v]> arr) i fl.
Proof using All.
  revert i. induction fl as [|x fl IH]; intros i Hi Hj Hne Hf; [done|]. apply Forall_cons in Hf as [[Hx0 Hxj] Hf]. cbn. intros [E H].
  split; [by rewrite list_lookup_insert_ne by lia|]. apply IH; [lia|done|done|done|done].
Qed.
Definition freed (r : tx_response) s : net :=
  let id := txr_id r in let b := txb s id in
  set_sem (tx_sem s + 1) (if tx_sem s <? 0 then true else tx_woken s)
    (set_freelist (<[O := id]> (<[Z.to_nat (id + 1) := tx_freelist s !!! O]> (tx_freelist s)))
      (set_txbufs (<[Z.to_nat id := Nb (page b) GRANT_INVALID_REF]> (tx_buffers s))
        (set_grants (snd (end_access (gref b) (grants s))) (delete (gref b) (shared s)) s))).
Lemma txb_other s s' id id' b : tx_buffers s' = <[Z.to_nat id := b]> (tx_buffers s) -> 0 <= id -> 0 <= id' -> id <> id' -> txb s' id' = txb s id'.
Proof using All. intros E H0 H1 Hne. unfold txb. rewrite E. apply list_lookup_total_insert_ne. lia. Qed.
Lemma txb_same s s' id b : tx_buffers s' = <[Z.to_nat id := b]> (tx_buffers s) -> 0 <= id < zlen (tx_buffers s) -> txb s' id = b.
Proof using All. intros E H0. unfold txb. rewrite E. apply list_lookup_total_insert_eq. lia. Qed.
Lemma same_page l id b : l !! id = Some b -> forall r, map page (<[id := Nb (page b) r]> l) = map page l.
Proof using All.
  intros E r. change (page <$> <[id := Nb (page b) r]> l = page <$> l). rewrite list_fmap_insert. apply list_insert_id.
  by rewrite list_lookup_fmap, E.
Qed.
Lemma slots_nodup h s : slots_ok h s -> NoDup (txids s ++ h_gr h ++ h_ids h).
Proof using All.
  intros [(fl & _ & Hp & _) _ _ _]. assert (Hn : NoDup (fl ++ txids s ++ h_gr h ++ h_ids h)) by (rewrite Hp; apply NoDup_seqZ).
  by apply NoDup_app in Hn as (_ & _ & Hn).
Qed.
(** A grant is ended: those left are as they were. *)
Lemma grants_end r e T s s' : grants_ok ((r, e) :: T) s -> grants s' = snd (end_access r (grants s)) -> shared s' = delete r (shared s) -> grants_ok T s'.
Proof using All.
  intros [H1 H2 H3 H4] Eg Es. cbn in H1, H2, H3. apply NoDup_cons in H1 as [Hr H1]. apply Forall_cons in H4 as [_ H4].
  assert (E := end_known r (grants s) ltac:(apply H2; right; by left)). split; [done| | |].
  - intros x. rewrite Eg, E. pose proof (H2 x). pose proof (H3 r ltac:(by left)). rewrite elem_of_difference, elem_of_singleton. rewrite elem_of_cons in *. naive_solver.
  - intros x Hx. apply H3. by right.
  - rewrite Es. apply Forall_forall. intros x Hx. rewrite lookup_delete_ne; [by apply (proj1 (Forall_forall _ _) H4)|].
    intros ->. apply Hr. by apply list_elem_of_fmap_2.
Qed.

Definition req_ids s : list Z := map tx_id (tx_req s) ++ map (fun x => tx_id x.1) (bk_tx s).
Lemma req_ids_in s id : id ∈ req_ids s -> id ∈ txids s.
Proof using All. unfold req_ids, txids. rewrite !elem_of_app. tauto. Qed.
Lemma reqs_keep W s s' : reqs_ok W s -> tx_req s' = tx_req s -> bk_tx s' = bk_tx s -> bk_seen s' = bk_seen s -> mem s' = mem s ->
  (forall id, id ∈ req_ids s -> txb s' id = txb s id /\ shared s' !! gref (txb s id) = shared s !! gref (txb s id)) -> reqs_ok W s'.
Proof using All.
  intros [R1 R2 R3] Eq Ek En Em H.
  assert (F : forall q, tx_id q ∈ req_ids s -> tx_gref q = gref (txb s (tx_id q)) -> tx_gref q = gref (txb s' (tx_id q)) /\ frame_at s' q = frame_at s q).
  { intros q Hq Eg. destruct (H _ Hq) as [Eb Es]. rewrite Eb. split; [done|]. unfold frame_at. by rewrite Eg, Es, Em. }
  rewrite Forall_forall in R1. rewrite Forall_forall in R2. split.
  - rewrite Eq. apply Forall_forall. intros q Hq. apply F; [|by apply R1]. apply elem_of_app. left. by apply list_elem_of_fmap_2.
  - rewrite Ek. apply Forall_forall. intros x Hx. destruct (R2 x Hx) as [Eg Ex]. rewrite <- Ex. apply F; [|done].
    apply elem_of_app. right. apply list_elem_of_fmap. by exists x.
  - rewrite <- R3. unfold wire. rewrite En, Eq. f_equal. apply map_ext_in. intros q Hq%list_elem_of_In.
    apply F; [|by apply R1]. apply elem_of_app. left. by apply list_elem_of_fmap_2.
Qed.
Lemma pages_retag h h' s s' id r : pages_ok h s -> 0 <= id < N -> tx_buffers s' = <[Z.to_nat id := Nb (page (txb s id)) r]> (tx_buffers s) ->
  rx_buffers s' = rx_buffers s -> pg s' = pg s -> mem s' = mem s ->
  (forall x, x ∈ txids s' ++ h_gr h' -> 0 <= x < N /\ page (txb s x) <> 0) ->
  Forall (fun x => txb s' x.1 = x.2 /\ x.1 ∈ h_gr h' ++ h_ids h') (h_buf h') -> h_mem h' = h_mem h -> pages_ok h' s'.
Proof using All.
  intros Hp Hid Eb Er Eg Em Hu Hb Hm. pose proof Hp as [P1 P2 P3 P4 P5 P6 P7 P8].
  assert (Ep : pages s' = pages s). { unfold pages. rewrite Eb, Er, same_page; [done|]. by eapply tx_entry. }
  split; rewrite ?Ep, ?Er, ?Eg, ?Em, ?Hm; try done.
  - by rewrite Eb, length_insert.
  - intros x Hx. destruct (Hu x Hx) as [Hr Hne]. destruct (decide (id = x)) as [->|Hd].
    + rewrite (txb_same s s' x _ Eb); [done|lia].
    + rewrite (txb_other s s' id x _ Eb); [done|lia|lia|done].
Qed.
Lemma map_live_ext f (g : Z -> net_buffer) ro l : (forall x, x ∈ l -> f x = g x) -> map (fun x => live ro (f x)) l = map (fun x => live ro (g x)) l.
Proof using All. intros H. apply map_ext_in. intros x Hx%list_elem_of_In. by rewrite H. Qed.
Lemma gref_apart h s x y : grants_ok (lives h s) s -> NoDup (txids s ++ h_gr h) -> x ∈ txids s ++ h_gr h -> y ∈ txids s ++ h_gr h -> x <> y -> gref (txb s x) <> gref (txb s y).
Proof using All.
  intros Hg Hn Hx Hy Hne E. pose proof (gk_nodup _ _ Hg) as Hd. unfold lives in Hd. rewrite fmap_app in Hd. apply NoDup_app in Hd as (Hd & _ & _).
  apply list_elem_of_lookup in Hx as [i Hi], Hy as [j Hj].
  assert (i = j); [|congruence].
  apply (NoDup_lookup _ i j (gref (txb s x)) Hd); rewrite !list_lookup_fmap; [by rewrite Hi|]. rewrite Hj. cbn. by rewrite E.
Qed.

Lemma gc_pure h W B n s r rest : net_ok h W B n s -> tx_rsp s = r :: rest ->
  net_ok h W B n (set_txring (tx_req s) rest (bk_tx s) (bk_seen s) (freed r s)).
Proof using All.
  intros [Hs Hp Hg Hr Hx Hpl] Er. set (id := txr_id r). set (s' := set_txring _ _ _ _ _).
  assert (E : txids s ≡ₚ id :: txids s'). { unfold txids, s'. cbn. rewrite Er. cbn. fold id. solve_Permutation. }
  pose proof (slots_nodup h s Hs) as Hn. assert (Hid : 0 <= id < N). { eapply txids_range; [done|]. rewrite E. by left. }
  rewrite E in Hn. cbn [app] in Hn. apply NoDup_cons in Hn as [Hni Hn].
  assert (Hoth : forall x, x ∈ txids s' ++ h_gr h ++ h_ids h -> 0 <= x < N /\ x <> id /\ txb s' x = txb s x).
  { intros x Hx'. assert (0 <= x < N) by (eapply txids_range; [done|rewrite E; by right]).
    assert (x <> id) by (intros ->; done). split; [done|]. split; [done|]. eapply txb_other; [reflexivity|lia|lia|done]. }
  assert (Hgr : forall x, x ∈ txids s' ++ h_gr h -> x ∈ txids s' ++ h_gr h ++ h_ids h) by (intros x; rewrite !elem_of_app; tauto).
  split; [| | | |keep Hx|done].
  - destruct Hs as [(fl & F1 & F2 & F3) S2 S3 S4]. rewrite Er in S4. apply Forall_cons in S4 as [_ S4].
    assert (Hfl : Forall (fun x => 0 <= x /\ x <> id) fl).
    { assert (Hnf : NoDup (fl ++ txids s ++ h_gr h ++ h_ids h)) by (rewrite F2; apply NoDup_seqZ). apply NoDup_app in Hnf as (_ & Hd & _).
      apply Forall_forall. intros x Hx'. split.
      - assert (Hin : x ∈ seqZ 0 N) by (rewrite <- F2; apply elem_of_app; by left). apply elem_of_seqZ in Hin. lia.
      - intros ->. apply (Hd id Hx'). rewrite E. by left. }
    split; [|cbn; by rewrite !length_insert| |done].
    + exists (id :: fl). unfold s', freed. cbn [set_txring set_sem set_freelist set_txbufs tx_freelist tx_sem]. split; [|split].
      * split; [by rewrite list_lookup_insert_eq by (rewrite length_insert; lia)|]. apply (slots_other _ _ 0); [lia|lia|lia| |].
        { eapply Forall_impl; [exact Hfl|]. cbn. intros; lia. }
        destruct fl as [|x fl]; [done|]. destruct F1 as [E0 F1]. apply Forall_cons in Hfl as [Hx0 Hfl]. split.
        { rewrite list_lookup_insert_eq by lia. by rewrite (list_lookup_total_correct _ _ _ E0). }
        apply slots_other; [lia|lia|lia| |done]. eapply Forall_impl; [exact Hfl|]. cbn. intros; lia.
      * rewrite <- F2, E. cbn. change (id :: fl ++ txids s' ++ h_gr h ++ h_ids h ≡ₚ fl ++ id :: txids s' ++ h_gr h ++ h_ids h). apply Permutation_middle.
      * rewrite F3. cbn [length]. lia.
    + intros Hsl. destruct (S3 Hsl) as [Hd Hw]. split; [done|]. right. cbn. destruct (Z.ltb_spec (tx_sem s) 0); [split; [lia|done]|].
      destruct Hw as [[? ?]|[? ?]]; [lia|split; [lia|done]].
  - apply (pages_retag h h s s' id GRANT_INVALID_REF); try done.
    + intros x Hx'. destruct (Hoth x (Hgr x Hx')) as (? & ? & _). split; [done|]. apply (po_used _ _ Hp). rewrite E. by right.
    + eapply Forall_impl; [apply (po_buf _ _ Hp)|]. intros x [Ex Hin]. split; [|done]. rewrite <- Ex. apply Hoth. rewrite !elem_of_app in *. tauto.
  - apply (grants_end (gref (txb s id)) (frame (txb s id), true) _ s); [|done|done]. eapply grants_perm; [|exact Hg].
    unfold lives. rewrite E. cbn [app map].
    change (rxids s') with (rxids s). rewrite (map_live_ext (txb s') (txb s)); [done|]. intros x Hx'. by apply Hoth, Hgr.
  - apply (reqs_keep W s s' Hr); [done..|]. intros x Hx'.
    assert (Hx2 : x ∈ txids s' ++ h_gr h) by (apply elem_of_app; left; by apply (req_ids_in s')).
    destruct (Hoth x (Hgr x Hx2)) as (_ & Hne & Eb). split; [done|]. cbn. apply lookup_delete_ne.
    eapply gref_apart; [done| |rewrite E; by left|rewrite E; by right|done].
    rewrite E. cbn. apply NoDup_cons. split; [intros Hc; apply Hni, Hgr, Hc|]. rewrite app_assoc in Hn. by apply NoDup_app in Hn as (? & _ & _).
Qed.

Lemma u16_id id : 0 <= id < N -> u16 id = id.
Proof using All. intros H. unfold u16. apply Z.mod_small. pose proof tx_size. lia. Qed.
Lemma wp_fl_get i s (Q : Z -> net -> Prop) : 0 <= i < zlen (tx_freelist s) -> Q (tx_freelist s !!! Z.to_nat i) s -> wp (fl_get i) Q s.
Proof using All.
  intros Hi HQ. unfold fl_get. apply wp_bind, wp_assert; [apply Z.leb_le; lia|]. apply wp_bind, wp_get.
  eapply wp_opt; [apply list_lookup_lookup_total_lt; lia|done].
Qed.
Lemma wp_fl_put i v s (Q : unit -> net -> Prop) : 0 <= i < zlen (tx_freelist s) -> Q tt (set_freelist (<[Z.to_nat i := v]> (tx_freelist s)) s) -> wp (fl_put i v) Q s.
Proof using All.
  intros Hi HQ. unfold fl_put. apply wp_bind, wp_assert; [apply Z.leb_le; lia|]. apply wp_bind, wp_get.
  apply wp_bind, wp_assert; [apply Z.ltb_lt; lia|]. by apply wp_modify.
Qed.
Lemma wp_add_id id s (Q : unit -> net -> Prop) : 0 <= id < N -> zlen (tx_freelist s) = N + 1 ->
  Q tt (set_freelist (<[O := id]> (<[Z.to_nat (id + 1) := tx_freelist s !!! O]> (tx_freelist s))) s) -> wp (add_id_to_freelist id) Q s.
Proof using All.
  intros Hid Hl HQ. unfold add_id_to_freelist. apply wp_bind, wp_fl_get; [lia|]. apply wp_bind, wp_fl_put; [lia|].
  apply wp_fl_put; [cbn; rewrite length_insert; lia|]. rewrite u16_id by done. done.
Qed.
Lemma wp_txbuf_get id s (Q : net_buffer -> net -> Prop) : 0 <= id < zlen (tx_buffers s) -> Q (txb s id) s -> wp (txbuf_get id) Q s.
Proof using All.
  intros Hid HQ. unfold txbuf_get. apply wp_bind, wp_assert; [apply Z.leb_le; lia|]. apply wp_bind, wp_get. eapply wp_opt; [apply list_lookup_lookup_total_lt; lia|done].
Qed.
Lemma wp_rxbuf_get id s (Q : net_buffer -> net -> Prop) : 0 <= id < zlen (rx_buffers s) -> Q (rxb s id) s -> wp (rxbuf_get id) Q s.
Proof using All.
  intros Hid HQ. unfold rxbuf_get. apply wp_bind, wp_assert; [apply Z.leb_le; lia|]. apply wp_bind, wp_get. eapply wp_opt; [apply list_lookup_lookup_total_lt; lia|done].
Qed.

Lemma drop_next {A} k (l : list A) x rest : drop k l = x :: rest -> drop (S k) l = rest.
Proof using All. intros E. rewrite <- Nat.add_1_r, <- drop_drop, E. done. Qed.
(** The ring without its first [k] answers, which have been read. *)
Definition tx_from (k : nat) s : net := set_txring (tx_req s) (drop k (tx_rsp s)) (bk_tx s) (bk_seen s) s.
Lemma wp_gc_one h W B n k r rest s (Q : unit -> net -> Prop) : net_ok h W B n (tx_from k s) -> drop k (tx_rsp s) = r :: rest ->
  (net_ok h W B n (tx_from (S k) (freed r s)) -> Q tt (freed r s)) -> wp (gc_one r) Q s.
Proof using All.
  intros H E HQ. assert (Hid : 0 <= txr_id r < N).
  { eapply txids_range; [apply (no_slots _ _ _ _ _ H)|]. unfold txids. cbn. rewrite E. cbn. rewrite !elem_of_app, elem_of_cons. tauto. }
  pose proof (so_null _ _ (no_slots _ _ _ _ _ H)) as Hn. cbn in Hn. rewrite E in Hn. apply Forall_cons in Hn as [Hn _].
  unfold gc_one. rewrite (proj2 (Z.eqb_neq _ _) Hn). apply wp_bind, wp_assert; [apply Z.ltb_lt; lia|].
  pose proof (po_tx _ _ (no_pages _ _ _ _ _ H)) as Hl. cbn in Hl. apply wp_bind, wp_txbuf_get; [lia|].
  apply wp_bind, wp_modify. apply wp_bind, wp_modify. apply wp_bind, wp_add_id; [done|apply (so_fl _ _ (no_slots _ _ _ _ _ H))|].
  apply wp_modify, HQ. pose proof (gc_pure h W B n _ r rest H E) as H'. rewrite <- (drop_next _ _ _ _ E) in H'. exact H'.
Qed.
Lemma wp_gc_list h W B n l k s (Q : unit -> net -> Prop) : net_ok h W B n (tx_from k s) -> drop k (tx_rsp s) = l ->
  (forall s', net_ok h W B n (tx_from (k + length l) s') -> tx_rsp s' = tx_rsp s -> tx_sem s' = tx_sem s + zlen l -> plan s' = plan s -> Q tt s') ->
  wp (mfor gc_one l) Q s.
Proof using All.
  revert k s. induction l as [|r l IH]; intros k s H E HQ; cbn [mfor].
  - apply wp_ret, HQ; [by rewrite Nat.add_0_r|done|cbn; lia|done].
  - apply wp_bind, (wp_gc_one h W B n k r l); [done|done|]. intros H'.
    apply (IH (S k)); [done|by apply (drop_next _ _ _ _ E)|]. intros s' H1 H2 H3 H4. apply HQ.
    + cbn [length]. by rewrite Nat.add_succ_r.
    + by rewrite H2.
    + rewrite H3. cbn. lia.
    + by rewrite H4.
Qed.
Lemma wp_gc h W B n s (Q : unit -> net -> Prop) : net_ok h W B n s ->
  (forall s', net_ok h W B n s' -> tx_sem s + zlen (tx_rsp s) <= tx_sem s' -> zlen (plan s') <= zlen (plan s) -> Q tt s') ->
  wp network_tx_buf_gc Q s.
Proof using All.
  intros H HQ. unfold network_tx_buf_gc.
  apply (wp_loop_variant gc_round (fun _ t k => net_ok h W B n t /\ k = zlen (plan t) /\ tx_sem s + zlen (tx_rsp s) <= tx_sem t + zlen (tx_rsp t) /\
    zlen (plan t) <= zlen (plan s))) with (k := zlen (plan s)); [|split; [done|lia]|pose proof (no_plan _ _ _ _ _ H); lia].
  clear H. intros [] t k (H & -> & Hsem & Hpl). split; [lia|]. unfold gc_round. apply wp_bind, wp_get.
  apply wp_bind, (wp_gc_list h W B n (tx_rsp t) 0); [|done|].
  { destruct H as [Hs Hp Hg Hr Hx Hl]. split; [keep Hs|keep Hp|keep Hg|keep Hr|keep Hx|done]. }
  intros t1 H1 E1 Esem Eplan. cbn [Nat.add] in H1. apply wp_bind, wp_modify.
  apply wp_bind, (wp_bpoint h W B n); [exact H1|]. intros t2 H2 E2 Hor. cbn [tx_sem set_txring plan] in E2, Hor.
  apply wp_bind, wp_get, wp_ret. destruct (tx_rsp t2) as [|r2 l2] eqn:Er.
  - apply HQ; [done|lia|]. destruct Hor as [->|Hlt]; cbn in *; lia || (rewrite Eplan in *; lia).
  - exists (zlen (plan t2)). assert (Hlt : zlen (plan t2) < zlen (plan t)).
    { destruct Hor as [->|Hlt]; [|cbn in Hlt; by rewrite Eplan in Hlt]. cbn in Er. rewrite E1, drop_all in Er. done. }
    split; [|lia]. split; [done|]. split; [done|]. split; [|lia]. lia.
Qed.

(** ** Receiving *)
Definition taken (r : rx_response) s : net :=
  let b := rxb s (rxr_id r) in let s1 := set_grants (snd (end_access (gref b) (grants s))) (delete (gref b) (shared s)) s in
  match rx_frame s r with Some f => set_received (received s ++ [f]) s1 | None => s1 end.
Lemma gref_apart_rx h s x y : grants_ok (lives h s) s -> x ∈ txids s ++ h_gr h -> y ∈ rxids s -> gref (txb s x) <> gref (rxb s y).
Proof using All.
  intros Hg Hx Hy E. pose proof (gk_nodup _ _ Hg) as Hd. unfold lives in Hd. rewrite fmap_app in Hd. apply NoDup_app in Hd as (_ & Hd & _).
  apply (Hd (gref (txb s x))).
  - apply list_elem_of_fmap. exists (live true (txb s x)). split; [done|]. apply list_elem_of_fmap. by exists x.
  - apply list_elem_of_fmap. exists (live false (rxb s y)). split; [done|]. apply list_elem_of_fmap. by exists y.
Qed.
Lemma seqZ_head a n : 0 < n -> seqZ a n = a :: seqZ (a + 1) (n - 1).
Proof using All. intros H. rewrite seqZ_cons by lia. f_equal; f_equal; lia. Qed.
Lemma rx_pure h W B n s r rest : net_ok h W B n s -> rx_rsp s = r :: rest ->
  net_ok h W B (n - 1) (set_rxring (rx_req_prod s) (rx_req s) rest (bk_sent s) (taken r s)).
Proof using All.
  intros [Hs Hp Hg Hr Hx Hpl] Er. set (id := rxr_id r). set (s' := set_rxring _ _ _ _ _).
  assert (E : rxids s = id :: rxids s'). { unfold rxids, s', taken. destruct (rx_frame s r); cbn; by rewrite Er. }
  assert (Esh : shared s' = delete (gref (rxb s id)) (shared s)) by (unfold s', taken; by destruct (rx_frame s r)).
  destruct Hx as [X1 X2 X3 X4 X5 X6 X7].
  assert (0 < n). { destruct (Z.lt_ge_cases 0 n); [done|]. assert (n = 0) as -> by lia. rewrite E in X1. done. }
  rewrite (seqZ_head _ n), E in X1 by done. cbn [map] in X1. injection X1 as _ X1.
  rewrite Er in X5, X6. apply Forall_cons in X5 as [_ X5]. cbn in X6. split.
  - unfold s', taken. destruct (rx_frame s r); keep Hs.
  - unfold s', taken. destruct (rx_frame s r); keep Hp.
  - apply (grants_end (gref (rxb s id)) (frame (rxb s id), false) _ s); [|unfold s', taken; by destruct (rx_frame s r)|done].
    eapply grants_perm; [|exact Hg]. unfold lives. rewrite E. cbn [map].
    transitivity (live false (rxb s id) :: (map (fun id0 => live true (txb s id0)) (txids s ++ h_gr h) ++ map (fun id0 => live false (rxb s id0)) (rxids s'))); [by rewrite Permutation_middle|].
    unfold s', taken. by destruct (rx_frame s r).
  - assert (Hr' : reqs_ok W (set_grants (grants s') (delete (gref (rxb s id)) (shared s)) s)).
    { apply (reqs_keep W s); [done..|]. intros x Hx. split; [done|]. cbn. apply lookup_delete_ne. apply not_eq_sym.
      eapply gref_apart_rx; [done|apply elem_of_app; left; by apply req_ids_in|rewrite E; by left]. }
    unfold s', taken in *. destruct (rx_frame s r); keep Hr'.
  - assert (Hrest : rx_req s' = rx_req s /\ rx_rsp s' = rest /\ rx_req_prod s' = rx_req_prod s /\ bk_sent s' = bk_sent s /\ rx_buffers s' = rx_buffers s /\ mem s' = mem s)
      by (unfold s', taken; by destruct (rx_frame s r)).
    destruct Hrest as (E1 & E2 & E3 & E4 & E5 & E6). split; rewrite ?E1, ?E2, ?E3, ?E4; [|lia|done| |done| |done].
    + rewrite X1. f_equal. f_equal. lia.
    + unfold rxb. by rewrite E5.
    + rewrite <- X6. assert (Ef : forall x, rx_frame s' x = rx_frame s x) by (intros x; unfold rx_frame, rxb; by rewrite E5, E6).
      rewrite (omap_same (rx_frame s') (rx_frame s)) by (intros x _; apply Ef). unfold s', taken. destruct (rx_frame s r); cbn; [by rewrite <- app_assoc|done].
  - unfold s', taken. by destruct (rx_frame s r).
Qed.

Definition rx_from (k : nat) s : net := set_rxring (rx_req_prod s) (rx_req s) (drop k (rx_rsp s)) (bk_sent s) s.
(** What receiving leaves alone. *)
Definition same_tx s s' : Prop := tx_sem s' = tx_sem s /\ plan s' = plan s.
Lemma wp_rx_one h W B n k r rest s (Q : unit -> net -> Prop) : net_ok h W B n (rx_from k s) -> drop k (rx_rsp s) = r :: rest ->
  (net_ok h W B (n - 1) (rx_from (S k) (taken r s)) -> Q tt (taken r s)) -> wp (rx_one virt_to_mfn r) Q s.
Proof using All.
  intros H E HQ. assert (Hin : rxr_id r ∈ rxids (rx_from k s)) by (unfold rxids; cbn; rewrite E; by left).
  pose proof (rxids_range _ _ _ _ (no_rx _ _ _ _ _ H) Hin) as Hid. pose proof (po_rx _ _ (no_pages _ _ _ _ _ H)) as Hl. cbn in Hl.
  unfold rx_one. apply wp_bind, wp_assert; [apply Z.ltb_lt; lia|]. apply wp_bind, wp_rxbuf_get; [lia|]. apply wp_bind, wp_modify.
  pose proof (rx_pure h W B n _ r rest H E) as H'. rewrite <- (drop_next _ _ _ _ E) in H'.
  change (set_rxring _ _ _ _ (taken r (rx_from k s))) with (set_rxring (rx_req_prod s) (rx_req s) (drop (S k) (rx_rsp s)) (bk_sent s) (taken r (rx_from k s))) in H'.
  assert (H2 : net_ok h W B (n - 1) (rx_from (S k) (taken r s))).
  { unfold taken in *. change (rx_frame (rx_from k s) r) with (rx_frame s r) in H'. destruct (rx_frame s r); exact H'. }
  specialize (HQ H2). unfold taken, rx_frame in HQ. destruct (Z.ltb_spec NETIF_RSP_NULL (rxr_status r)) as [Hst|Hst]; [|by apply wp_ret].
  destruct (page_bytes h (rx_from k s) (page (rxb s (rxr_id r))) (no_pages _ _ _ _ _ H)) as (b & Eb & Hlb).
  { apply (rx_page_in h (rx_from k s)); [apply H|done]. }
  change (mem (rx_from k s)) with (mem s) in Eb. unfold frame in HQ. rewrite Eb in HQ.
  apply wp_bind, wp_get. apply wp_bind. eapply wp_opt; [exact Eb|]. apply wp_bind, wp_assert.
  { pose proof (xo_rsp _ _ _ (no_rx _ _ _ _ _ H)) as Ho. cbn in Ho. rewrite E in Ho. apply Forall_cons in Ho as [Ho _].
    specialize (Ho Hst). pose proof rsp_null. apply andb_true_iff. rewrite !Z.leb_le. lia. }
  by apply wp_modify.
Qed.
Lemma wp_rx_list h W B l k n s (Q : unit -> net -> Prop) : net_ok h W B n (rx_from k s) -> drop k (rx_rsp s) = l ->
  (forall s', net_ok h W B (n - zlen l) (rx_from (k + length l) s') -> rx_rsp s' = rx_rsp s -> same_tx s s' -> Q tt s') ->
  wp (mfor (rx_one virt_to_mfn) l) Q s.
Proof using All.
  revert k n s. induction l as [|r l IH]; intros k n s H E HQ; cbn [mfor].
  - apply wp_ret, HQ; [cbn; by rewrite Nat.add_0_r, Z.sub_0_r|done|done].
  - apply wp_bind, (wp_rx_one h W B n k r l); [done|done|]. intros H'.
    assert (Et : rx_rsp (taken r s) = rx_rsp s /\ same_tx s (taken r s)) by (unfold taken; by destruct (rx_frame s r)).
    destruct Et as [Et1 Et2]. apply (IH (S k) (n - 1)); [done|by rewrite Et1; apply (drop_next _ _ _ _ E)|]. intros s' H1 H2 H3. apply HQ.
    + cbn [length]. rewrite Nat.add_succ_r. replace (n - Z.of_nat (S (length l))) with (n - 1 - zlen l) by lia. done.
    + by rewrite H2.
    + destruct H3, Et2. split; congruence.
Qed.

Lemma wp_rx_loop h W B s (Q : Z -> net -> Prop) : net_ok h W B NR s ->
  (forall nr s', net_ok h W B (NR - nr) s' -> 0 <= nr -> rx_rsp s' = [] -> tx_sem s' = tx_sem s -> zlen (plan s') <= zlen (plan s) -> Q nr s') ->
  wp (loopM (rx_round virt_to_mfn) 0) Q s.
Proof using All.
  intros H HQ. pose proof rx_small as Hsm.
  apply (wp_loop_variant (rx_round virt_to_mfn) (fun nr t k => net_ok h W B (NR - nr) t /\ k = zlen (plan t) /\ 0 <= nr /\ tx_sem t = tx_sem s /\
    zlen (plan t) <= zlen (plan s))) with (k := zlen (plan s)); [|by rewrite Z.sub_0_r|pose proof (no_plan _ _ _ _ _ H); lia].
  clear H. intros nr t k (H & -> & H0 & Hsem & Hpl). split; [lia|]. unfold rx_round. apply wp_bind, wp_get.
  apply wp_bind, (wp_rx_list h W B (rx_rsp t) 0 (NR - nr)); [|done|].
  { destruct H as [Hs Hp Hg Hr Hx Hl]. split; [keep Hs|keep Hp|keep Hg|keep Hr|keep Hx|done]. }
  intros t1 H1 E1 [Esem Eplan]. cbn [Nat.add] in H1. apply wp_bind, wp_modify.
  apply wp_bind, (wp_bpoint h W B (NR - nr - zlen (rx_rsp t))); [exact H1|]. intros t2 H2 E2 Hor. cbn [tx_sem set_rxring plan] in E2, Hor.
  apply wp_bind, wp_get, wp_ret. pose proof (xo_n _ _ _ (no_rx _ _ _ _ _ H2)).
  assert (Enr : s32 (nr + zlen (rx_rsp t)) = nr + zlen (rx_rsp t)).
  { unfold s32, swrap. change (2 ^ (32 - 1)) with (2 ^ 31). rewrite Z.mod_small by lia. lia. }
  rewrite Enr. replace (NR - nr - zlen (rx_rsp t)) with (NR - (nr + zlen (rx_rsp t))) in H2 by lia. destruct (rx_rsp t2) as [|r2 l2] eqn:Er.
  - apply HQ; [done|lia|done|congruence|]. destruct Hor as [->|Hlt]; cbn in *; rewrite Eplan in *; lia.
  - exists (zlen (plan t2)). assert (Hlt : zlen (plan t2) < zlen (plan t)).
    { destruct Hor as [->|Hlt]; [|cbn in Hlt; by rewrite Eplan in Hlt]. cbn in Er. rewrite E1, drop_all in Er. done. }
    split; [|lia]. split; [done|]. split; [done|]. split; [lia|]. split; [congruence|lia].
Qed.

(** ** New grants *)
Lemma grants_new r e g T s s' f ro : grants_ok T s -> grant_access dom f ro (grants s) = Some (r, g) -> grants s' = g -> shared s' = <[r := e]> (shared s) ->
  grants_ok ((r, e) :: T) s' /\ r ∉ T.*1.
Proof using All.
  intros [H1 H2 H3 H4] Eg Eg' Es. destruct (grant_fresh _ _ _ _ _ _ Eg) as [Hf Hu]. rewrite H2 in Hf.
  assert (Hr : r ∉ T.*1) by tauto. split; [|done]. split; cbn.
  - by apply NoDup_cons.
  - intros x. rewrite Eg', Hu, elem_of_union, elem_of_singleton, H2, elem_of_cons. tauto.
  - intros x [->|Hx]%elem_of_cons; [tauto|by apply H3].
  - rewrite Es. constructor; [cbn; by rewrite lookup_insert_eq|]. apply Forall_forall. intros x Hx.
    rewrite lookup_insert_ne; [by apply (proj1 (Forall_forall _ _) H4)|]. intros ->. apply Hr. by apply list_elem_of_fmap_2.
Qed.
Lemma room_ok T s f ro : grants_ok T s -> zlen T < N + NR -> exists r g, grant_access dom f ro (grants s) = Some (r, g).
Proof using All.
  intros Hg Hl. destruct (grant_room dom f ro (grants s)) as [[r g] E]; [|eauto].
  assert (Hsub : granted (grants s) ⊆ g0 ∪ list_to_set T.*1).
  { intros x Hx. apply (gk_all _ _ Hg) in Hx as [?|?]; apply elem_of_union; [by left|right]. by apply elem_of_list_to_set. }
  apply subseteq_size in Hsub. rewrite size_union_alt in Hsub.
  assert (Hd : list_to_set T.*1 ∖ g0 ⊆ (list_to_set T.*1 : gset Z)) by set_solver. apply subseteq_size in Hd.
  rewrite size_list_to_set, length_fmap in Hd by apply Hg. lia.
Qed.
Lemma used_len h s : slots_ok h s -> zlen (txids s ++ h_gr h) + zlen (h_ids h) <= N.
Proof using All.
  intros [(fl & _ & Hp & _) _ _ _]. apply Permutation_length in Hp. rewrite !length_app, length_seqZ in Hp. rewrite length_app. pose proof tx_size. lia.
Qed.
Lemma lives_len h W B n s : net_ok h W B n s -> zlen (lives h s) = zlen (txids s ++ h_gr h) + n.
Proof using All.
  intros H. unfold lives. rewrite length_app, !length_map. pose proof (xo_n _ _ _ (no_rx _ _ _ _ _ H)).
  rewrite (xo_ids _ _ _ (no_rx _ _ _ _ _ H)), length_map, length_seqZ. lia.
Qed.

(** ** Offering pages again *)
Lemma rxb_other s s' id id' b : rx_buffers s' = <[Z.to_nat id := b]> (rx_buffers s) -> 0 <= id -> 0 <= id' -> id <> id' -> rxb s' id' = rxb s id'.
Proof using All. intros E H0 H1 Hne. unfold rxb. rewrite E. apply list_lookup_total_insert_ne. lia. Qed.
Definition refilled (r : Z) (g : G) s : net :=
  let id := rx_req_prod s mod NR in let b := rxb s id in
  set_rxring (u32 (rx_req_prod s + 1)) (rx_req s ++ [RxReq id r]) (rx_rsp s) (bk_sent s)
    (set_rxbufs (<[Z.to_nat id := Nb (page b) r]> (rx_buffers s)) (set_grants g (<[r := (frame b, false)]> (shared s)) s)).
Lemma refill_pure h W B n s r g : net_ok h W B n s -> n < NR ->
  grant_access dom (frame (rxb s (rx_req_prod s mod NR))) false (grants s) = Some (r, g) -> net_ok h W B (n + 1) (refilled r g s).
Proof using All.
  intros H Hn Eg. pose proof H as [Hs Hp Hg Hr Hx Hpl]. pose proof Hx as [X1 X2 X3 X4 X5 X6 X7].
  pose proof rx_pos as Hpos. set (id := rx_req_prod s mod NR) in *. assert (Hid : 0 <= id < NR) by (by apply Z.mod_pos_bound).
  set (s' := refilled r g s). destruct (grants_new r (frame (rxb s id), false) g _ s s' _ _ Hg Eg eq_refl eq_refl) as [Hg' Hfresh].
  assert (E : rxids s' = rxids s ++ [id]) by (unfold rxids; cbn; by rewrite map_app, app_assoc).
  assert (Hnew : id ∉ rxids s).
  { rewrite X1. intros (x & Ex & Hin)%list_elem_of_fmap. apply elem_of_seqZ in Hin. apply (mod_inj _ _ (rx_req_prod s - n)) in Ex; lia. }
  assert (Hoth : forall x, x ∈ rxids s -> rxb s' x = rxb s x).
  { intros x Hin. pose proof (rxids_range _ _ _ _ Hx Hin). eapply rxb_other; [reflexivity|lia|lia|]. by intros <-. }
  assert (Hsame : rxb s' id = Nb (page (rxb s id)) r). { unfold rxb at 1. cbn. apply list_lookup_total_insert_eq. pose proof (po_rx _ _ Hp). lia. }
  pose proof (same_page _ _ _ (rx_entry h s id Hp Hid) r) as Epg.
  assert (Efr : map frame (rx_buffers s') = map frame (rx_buffers s)).
  { unfold frame. rewrite <- !(map_map page virt_to_mfn). f_equal. exact Epg. }
  assert (Epages : pages s' = pages s) by (unfold pages; f_equal; exact Epg).
  split; [keep Hs| | | | |done].
  - destruct Hp as [P1 P2 P3 P4 P5 P6 P7 P8]. split; rewrite ?Epages, ?Efr; try done. cbn. by rewrite length_insert.
  - eapply grants_perm; [|exact Hg']. unfold lives. rewrite E, (map_app _ (rxids s)). cbn [map]. rewrite Hsame.
    rewrite (map_live_ext (rxb s') (rxb s) false (rxids s) Hoth), app_assoc. change (map (fun x => live true (txb s' x)) (txids s' ++ h_gr h)) with (map (fun x => live true (txb s x)) (txids s ++ h_gr h)).
    symmetry. apply Permutation_app_comm.
  - apply (reqs_keep W s s' Hr); [done..|]. intros x Hin. split; [done|]. cbn. apply lookup_insert_ne. intros ->. apply Hfresh.
    apply list_elem_of_fmap. exists (live true (txb s x)). split; [done|]. apply elem_of_app. left. apply list_elem_of_fmap. exists x. split; [done|].
    apply elem_of_app. left. by apply req_ids_in.
  - split; try done.
    + rewrite E, X1. change (rx_req_prod s') with (u32 (rx_req_prod s + 1)). destruct (u32_shift (rx_req_prod s + 1)) as [c ->].
      replace (rx_req_prod s + 1 + c * NR - (n + 1)) with (rx_req_prod s - n + c * NR) by lia. rewrite slots_shift, seqZ_app by lia. rewrite map_app.
      f_equal. rewrite (seqZ_head _ 1) by lia. cbn. by replace (rx_req_prod s - n + n) with (rx_req_prod s) by lia.
    + lia.
    + apply Z.mod_pos_bound. lia.
    + change (rx_req s') with (rx_req s ++ [RxReq id r]). apply Forall_app. split.
      * apply Forall_forall. intros q Hq. rewrite Hoth; [by apply (proj1 (Forall_forall _ _) X4)|]. apply elem_of_app. right. by apply list_elem_of_fmap_2.
      * apply Forall_singleton. cbn [rx_id rx_gref]. by rewrite Hsame.
    + change (received s ++ omap (rx_frame s') (rx_rsp s) = bk_sent s). rewrite <- X6. f_equal. apply omap_same. intros x Hin. unfold rx_frame.
      rewrite Hoth; [done|]. apply elem_of_app. left. by apply list_elem_of_fmap_2.
Qed.
Definition rx_at (v : Z) s : net := set_rxring v (rx_req s) (rx_rsp s) (bk_sent s) s.
Lemma u32_u32 x i : u32 (u32 x + i) = u32 (x + i).
Proof using All. unfold u32. by rewrite Zplus_mod_idemp_l. Qed.
Lemma wp_refills h W B p k i n s (Q : unit -> net -> Prop) : net_ok h W B n (rx_at (u32 (p + i)) s) -> n + Z.of_nat k <= NR ->
  (forall s', net_ok h W B (n + Z.of_nat k) (rx_at (u32 (p + i + Z.of_nat k)) s') -> same_tx s s' -> rx_rsp s' = rx_rsp s -> bk_sent s' = bk_sent s -> received s' = received s -> Q tt s') ->
  wp (mfor (refill virt_to_mfn dom p) (seqZ i (Z.of_nat k))) Q s.
Proof using All.
  revert i n s. induction k as [|k IH]; intros i n s H Hle HQ.
  - cbn. apply wp_ret, HQ; [|done..]. by rewrite !Z.add_0_r.
  - rewrite seqZ_head by lia. cbn [mfor]. apply wp_bind. pose proof rx_pos as Hpos.
    assert (Hid : xennet_rxidx (u32 (p + i)) = u32 (p + i) mod NR) by apply rxidx_mod.
    assert (Hidr : 0 <= u32 (p + i) mod NR < NR) by (by apply Z.mod_pos_bound).
    pose proof (po_rx _ _ (no_pages _ _ _ _ _ H)) as Hl. cbn in Hl.
    unfold refill. rewrite Hid. apply wp_bind, wp_rxbuf_get; [lia|]. apply wp_bind. unfold net_grant. apply wp_bind, wp_get.
    pose proof (used_len h _ (no_slots _ _ _ _ _ H)) as Hu. pose proof (lives_len _ _ _ _ _ H) as Hll.
    destruct (room_ok _ _ (frame (rxb s (u32 (p + i) mod NR))) false (no_grants _ _ _ _ _ H)) as (r & g & Eg); [lia|].
    change (grants (rx_at _ s)) with (grants s) in Eg. unfold frame in Eg. rewrite Eg. apply wp_bind, wp_modify, wp_ret. apply wp_bind, wp_modify, wp_modify.
    pose proof (refill_pure h W B n _ r g H ltac:(lia) Eg) as H'.
    replace (Z.of_nat (S k) - 1) with (Z.of_nat k) by lia. apply (IH (i + 1) (n + 1)); [|lia|].
    { unfold refilled in H'. cbn [rx_req_prod rx_at set_rxring] in H'. rewrite u32_u32, <- Z.add_assoc in H'. exact H'. }
    intros s' H1 [H2 H3] H4 H5 H6. apply HQ; [|by split|done|done|done].
    replace (p + i + Z.of_nat (S k)) with (p + (i + 1) + Z.of_nat k) by lia. replace (n + Z.of_nat (S k)) with (n + 1 + Z.of_nat k) by lia. done.
Qed.
Lemma wp_network_rx h W B s (Q : unit -> net -> Prop) : net_ok h W B NR s ->
  (forall s', net_ok h W B NR s' -> tx_sem s' = tx_sem s -> zlen (plan s') <= zlen (plan s) -> rx_rsp s' = [] -> Q tt s') -> wp (network_rx virt_to_mfn dom) Q s.
Proof using All.
  intros H HQ. unfold network_rx. apply wp_bind, (wp_rx_loop h W B); [done|]. intros nr s1 H1 Hnr E1 Es1 Ep1.
  apply wp_bind, wp_get. pose proof (xo_n _ _ _ (no_rx _ _ _ _ _ H1)). apply wp_bind. rewrite <- (Z2Nat.id nr) at 1 by done.
  apply (wp_refills h W B (rx_req_prod s1) (Z.to_nat nr) 0 (NR - nr)); [|lia|].
  { rewrite Z.add_0_r. pose proof (xo_prod _ _ _ (no_rx _ _ _ _ _ H1)). replace (u32 (rx_req_prod s1)) with (rx_req_prod s1) by (symmetry; by apply Z.mod_small).
    destruct H1 as [Hs Hp Hg Hr Hx Hl]. split; [keep Hs|keep Hp|keep Hg|keep Hr|keep Hx|done]. }
  intros s2 H2 [H3 H4] H5 H6 H7. rewrite Z2Nat.id, Z.add_0_r in H2 by done. replace (NR - nr + nr) with NR in H2 by lia.
  apply wp_modify, HQ; [exact H2|cbn; congruence|cbn; by rewrite H4|cbn; congruence].
Qed.
Lemma wp_net_handler h W B s (Q : unit -> net -> Prop) : net_ok h W B NR s ->
  (forall s', net_ok h W B NR s' -> tx_sem s + zlen (tx_rsp s) <= tx_sem s' -> zlen (plan s') <= zlen (plan s) -> rx_rsp s' = [] -> Q tt s') ->
  wp (netfront_handler virt_to_mfn dom) Q s.
Proof using All.
  intros H HQ. unfold netfront_handler. apply wp_bind, (wp_gc h W B NR); [done|]. intros s1 H1 Hs1 Hp1.
  apply (wp_network_rx h W B); [done|]. intros s2 H2 Hs2 Hp2 Hr2. apply HQ; [done|lia|lia|done].
Qed.

(** ** Interrupts, and waiting for a slot *)
Lemma wp_irq_point h W B s (Q : unit -> net -> Prop) : net_ok h W B NR s ->
  (forall s', net_ok h W B NR s' -> tx_sem s <= tx_sem s' -> plan s = [] \/ zlen (plan s') < zlen (plan s) -> Q tt s') -> wp (irq_point virt_to_mfn dom) Q s.
Proof using All.
  intros H HQ. unfold irq_point. apply wp_bind, wp_get. destruct (plan s) as [|[l irq] w] eqn:E.
  - apply wp_ret, HQ; [done|lia|by left].
  - destruct (plan_pop _ _ _ _ _ _ _ _ H E) as (H' & Es & Hl). rewrite E in Hl. apply wp_bind, (wp_modify (fun _ => _)). destruct irq.
    + apply (wp_net_handler h W B); [done|]. intros s' H1 H2 H3 _. apply HQ; [done|lia|right; lia].
    + apply wp_ret, HQ; [done|lia|by right].
Qed.
Lemma answers_come s : txids s <> [] -> tx_rsp (foldl bev_run s [BTake; BDone 0 0]) <> [].
Proof using All.
  intros Hne. cbn [foldl]. assert (Hr : tx_rsp (bev_run s BTake) = tx_rsp s) by (cbn; by destruct (tx_req s)).
  unfold bev_run at 1. destruct (bk_tx (bev_run s BTake) !! 0%nat) as [[q f]|] eqn:E.
  - cbn [tx_rsp set_txring]. by destruct (tx_rsp (bev_run s BTake)).
  - rewrite Hr. intros Hrsp. apply Hne. unfold txids. rewrite Hrsp. destruct (bk_tx (bev_run s BTake)) as [|x l] eqn:Eb; [|done].
    cbn in Eb. destruct (tx_req s) as [|q rest] eqn:Eq; [by rewrite Eb|]. cbn in Eb. by destruct (bk_tx s).
Qed.
Definition waiter : hand := Hand 1 [] [] [] [] true.
Definition claimed : hand := Hand 1 [] [] [] [] false.
Lemma wp_sem_round W B t (Q : unit + unit -> net -> Prop) : net_ok waiter W B NR t ->
  (forall s', net_ok waiter W B NR s' -> 0 <= tx_sem s' -> Q (inr tt) s') ->
  (forall s', net_ok waiter W B NR s' -> zlen (plan s') < zlen (plan t) -> Q (inl tt) s') -> wp (sem_round virt_to_mfn dom tt) Q t.
Proof using All.
  intros H HR HL. unfold sem_round. apply wp_bind, wp_get. apply wp_bind.
  assert (Hend : forall s', net_ok waiter W B NR s' -> zlen (plan s') < zlen (plan t) \/ 0 <= tx_sem s' -> wp (s <-- mget ;; cret (if tx_woken s then inr tt else inl tt)) Q s').
  { intros s' H' Hor. apply wp_bind, wp_get, wp_ret. destruct (so_wake _ _ (no_slots _ _ _ _ _ H') eq_refl) as [_ [[? ->]|[? ->]]]; [|by apply HR].
    apply HL; [done|lia]. }
  destruct (plan t) as [|x w] eqn:E.
  2: { apply (wp_irq_point waiter W B); [done|]. intros s' H1 Hs1 [Hor|Hor]; [by rewrite E in Hor|]. apply Hend; [done|left; by rewrite E in Hor]. }
  destruct (bevs_ok waiter W B NR [BTake; BDone 0 0] t) as (H1 & Es1 & Ep1); [constructor; [done|apply Forall_singleton; pose proof rsp_null; cbn; lia]|done|].
  apply wp_bind, (wp_modify (fun _ => _)). apply (wp_net_handler waiter W B); [done|]. intros s' H2 Hs2 Hp2 _. apply Hend; [done|]. right.
  destruct (no_slots _ _ _ _ _ H) as [(fl & _ & Hperm & Hsem) _ Hw _]. destruct (Hw eq_refl) as [_ [[Hneg _]|[Hpos _]]]; [|lia].
  cbn in Hsem. assert (fl = []) as -> by (destruct fl; [done|cbn in Hsem; lia]). cbn in Hsem, Hperm. rewrite app_nil_r in Hperm.
  assert (Hne : txids t <> []). { intros E0. rewrite E0 in Hperm. apply Permutation_length in Hperm. rewrite length_seqZ in Hperm. pose proof tx_size. cbn in Hperm. lia. }
  pose proof (answers_come t Hne) as Ha. destruct (tx_rsp (foldl bev_run t [BTake; BDone 0 0])); [done|]. cbn [length] in Hs2. lia.
Qed.
Lemma wp_down W B s (Q : unit -> net -> Prop) : net_ok idle W B NR s ->
  (forall s', net_ok claimed W B NR s' -> 0 <= tx_sem s' -> Q tt s') -> wp (down virt_to_mfn dom) Q s.
Proof using All.
  intros [Hs Hp Hg Hr Hx Hl] HQ. unfold down. apply wp_bind, wp_get. apply wp_bind, (wp_modify (fun _ => _)).
  pose proof Hs as [(fl & F1 & F2 & F3) S2 S3 S4]. cbn in F3.
  assert (Hdown : forall sl, (sl = true -> tx_sem s <= 0) -> net_ok (Hand 1 [] [] [] [] sl) W B NR (set_sem (tx_sem s - 1) false s)).
  { intros sl Hsl. split; [|keep Hp|keep Hg|keep Hr|keep Hx|done]. split; [|done| |done].
    - exists fl. split; [done|]. split; [done|]. cbn. lia.
    - cbn. intros ->. split; [done|]. left. cbn. split; [specialize (Hsl eq_refl); lia|done]. }
  destruct (Z.leb_spec (tx_sem s) 0) as [H0|H0]; [|apply wp_ret, HQ; [by apply Hdown|cbn; lia]].
  specialize (Hdown true (fun _ => H0)).
  apply (wp_loop_variant (sem_round virt_to_mfn dom) (fun _ t k => net_ok waiter W B NR t /\ k = zlen (plan t))) with (k := zlen (plan s)); [|done|lia].
  intros [] t k [Ht ->]. split; [lia|]. apply (wp_sem_round W B); [done| |].
  - intros s' H' Hsem. apply HQ; [|done]. destruct H' as [Ss' Sp' Sg' Sr' Sx' Sl']. split; [|keep Sp'|keep Sg'|keep Sr'|keep Sx'|done].
    destruct Ss' as [? ? ? ?]. by split.
  - intros s' H' Hlt. exists (zlen (plan s')). split; [done|]. lia.
Qed.

(** ** Taking a slot *)
Definition holds (id : Z) (pm : list (Z * list Z)) (pb : list (Z * net_buffer)) : hand := Hand 0 [id] [] pm pb false.
Definition offers (id : Z) (pm : list (Z * list Z)) (pb : list (Z * net_buffer)) : hand := Hand 0 [] [id] pm pb false.
Lemma wp_get_id W B s (Q : Z -> net -> Prop) : net_ok claimed W B NR s -> 0 <= tx_sem s ->
  (forall id s', net_ok (holds id [] []) W B NR s' -> Q id s') -> wp get_id_from_freelist Q s.
Proof using All.
  intros [Hs Hp Hg Hr Hx Hl] Hsem HQ. pose proof Hs as [(fl & F1 & F2 & F3) S2 S3 S4]. cbn in F3.
  destruct fl as [|id fl]; [cbn in F3; lia|]. destruct F1 as [E0 F1].
  assert (Hid : 0 <= id < N). { assert (Hin : id ∈ seqZ 0 N) by (rewrite <- F2; by left). apply elem_of_seqZ in Hin. lia. }
  assert (Hfl : Forall (fun x => 0 <= x) fl).
  { apply Forall_forall. intros x Hin. assert (Hi : x ∈ seqZ 0 N) by (rewrite <- F2; right; apply elem_of_app; by left). apply elem_of_seqZ in Hi. lia. }
  unfold get_id_from_freelist. apply wp_bind, wp_fl_get; [lia|]. rewrite (list_lookup_total_correct _ _ _ E0).
  apply wp_bind, wp_fl_get; [lia|]. apply wp_bind, wp_fl_put; [lia|]. apply wp_ret. rewrite u16_id by done. apply HQ.
  split; [|keep Hp|keep Hg|keep Hr|keep Hx|done]. split; [|cbn; by rewrite length_insert|done|done].
  exists fl. split; [|split].
  - cbn. destruct fl as [|y fl]; [done|]. destruct F1 as [E1 F1]. apply Forall_cons in Hfl as [Hy Hfl]. split.
    + rewrite list_lookup_insert_eq by lia. by rewrite (list_lookup_total_correct _ _ _ E1).
    + apply (slots_other _ _ 0); [lia|lia|lia| |done]. eapply Forall_impl; [exact Hfl|]. cbn. intros; lia.
  - rewrite <- F2. cbn. rewrite app_nil_r, app_assoc, <- Permutation_cons_append. done.
  - cbn in F3 |- *. lia.
Qed.

(** ** Memory of the sender's own *)
Lemma mem_pure h W B n s m b : net_ok h W B n s -> h_mem h = [] -> (forall x, x ∈ txids s -> frame (txb s x) <> m) ->
  m ∉ map frame (rx_buffers s) -> (forall p, p ∈ pages s -> virt_to_mfn p = m -> zlen b = PAGE_SIZE) ->
  net_ok h W B n (set_mem (<[m := b]> (mem s)) s).
Proof using All.
  intros H Hm Htx Hrx Hb. pose proof H as [Hs Hp Hg Hr Hx Hl]. split; [keep Hs| |keep Hg| | |done].
  - destruct Hp as [P1 P2 P3 P4 P5 P6 P7 P8]. split; try done.
    + apply Forall_forall. intros p Hin. destruct (proj1 (Forall_forall _ _) P5 p Hin) as (Hf & b' & Eb & Hlb). split; [done|]. cbn.
      destruct (decide (m = virt_to_mfn p)) as [->|Hne]; [rewrite lookup_insert_eq|rewrite lookup_insert_ne by done]; eauto.
    + rewrite Hm. constructor.
  - by apply (reqs_other h W B n s _ m b).
  - destruct Hx as [X1 X2 X3 X4 X5 X6 X7]. split; try done. cbn [received set_mem bk_sent rx_rsp]. rewrite <- X6. f_equal.
    apply omap_same. intros r Hin. apply (rx_frame_other s _ r m b); [done|done|]. intros <-. apply Hrx, rx_frame_in; [|apply Hp].
    eapply rxids_range; [exact (no_rx _ _ _ _ _ H)|]. apply elem_of_app. left. by apply list_elem_of_fmap_2.
Qed.
Lemma filter_once (l : list Z) i j p : NoDup (filter (fun p => p <> 0) l) -> l !! i = Some p -> l !! j = Some p -> p <> 0 -> i = j.
Proof using All.
  revert i j. induction l as [|x l IH]; intros i j Hn Hi Hj Hp; [done|]. rewrite filter_cons in Hn.
  destruct i as [|i], j as [|j]; cbn in Hi, Hj; simplify_eq; [done| | |].
  - exfalso. rewrite decide_True in Hn by done. apply NoDup_cons in Hn as [Hn _]. apply Hn, list_elem_of_filter. split; [done|]. by eapply list_elem_of_lookup_2.
  - exfalso. rewrite decide_True in Hn by done. apply NoDup_cons in Hn as [Hn _]. apply Hn, list_elem_of_filter. split; [done|]. by eapply list_elem_of_lookup_2.
  - f_equal. apply (IH i j); [|done..]. case_decide; [by apply NoDup_cons in Hn as [_ ?]|done].
Qed.
Lemma tx_apart h s x y : pages_ok h s -> 0 <= x < N -> 0 <= y < N -> page (txb s x) <> 0 -> frame (txb s x) = frame (txb s y) -> x = y.
Proof using All.
  intros Hp Hx Hy Hne E. apply VM in E. pose proof (po_nodup _ _ Hp) as Hn. apply NoDup_app in Hn as (Hn & _ & _).
  pose proof (filter_once _ (Z.to_nat x) (Z.to_nat y) (page (txb s x)) Hn) as Hf.
  assert (Z.to_nat x = Z.to_nat y); [|lia]. apply Hf; [| |done].
  - change (map page (tx_buffers s)) with (page <$> tx_buffers s). by rewrite list_lookup_fmap, (tx_entry h s x).
  - change (map page (tx_buffers s)) with (page <$> tx_buffers s). by rewrite list_lookup_fmap, (tx_entry h s y), E.
Qed.
(** A new page becomes that of a slot in hand. *)
Definition added (p id : Z) (pg' : P) s : net :=
  let s1 := set_mem (<[virt_to_mfn p := replicate (Z.to_nat PAGE_SIZE) 0]> (mem s)) (set_pg pg' s) in
  set_txbufs (<[Z.to_nat id := Nb p (gref (txb s id))]> (tx_buffers s)) s1.
Lemma pages_added s p id g : 0 <= id < zlen (tx_buffers s) -> page (txb s id) = 0 -> p <> 0 ->
  filter (fun p => p <> 0) (map page (<[Z.to_nat id := Nb p g]> (tx_buffers s))) ≡ₚ p :: filter (fun p => p <> 0) (map page (tx_buffers s)).
Proof using All.
  intros Hid E0 Hp. assert (E : tx_buffers s !! Z.to_nat id = Some (txb s id)) by (apply list_lookup_lookup_total_lt; lia).
  rewrite insert_take_drop by lia. rewrite <- (take_drop_middle _ _ _ E) at 3. rewrite !map_app. cbn [map page]. rewrite !filter_app, !filter_cons, E0.
  rewrite decide_True by done. rewrite (decide_False (P := 0 <> 0)) by tauto. by rewrite <- Permutation_middle.
Qed.
Lemma added_pure W B s p id pg' : net_ok (holds id [] []) W B NR s -> page (txb s id) = 0 -> p <> 0 -> p ∉ pages s ->
  pa_inv pg' -> ~ pa_free pg' p -> (forall q, q ∈ pages s -> ~ pa_free pg' q) -> net_ok (holds id [] []) W B NR (added p id pg' s).
Proof using All.
  intros H E0 Hp Hnew Hpi Hpf Hold. pose proof (txids_range _ _ id (no_slots _ _ _ _ _ H) ltac:(cbn; rewrite !elem_of_app, elem_of_cons; tauto)) as Hid.
  assert (Hown : forall x, x ∈ txids s -> 0 <= x < N /\ page (txb s x) <> 0 /\ x <> id).
  { intros x Hx. split; [eapply txids_range; [apply H|apply elem_of_app; by left]|]. split.
    - apply (po_used _ _ (no_pages _ _ _ _ _ H)). apply elem_of_app. by left.
    - intros ->. pose proof (slots_nodup _ _ (no_slots _ _ _ _ _ H)) as Hn. apply NoDup_app in Hn as (_ & Hd & _). apply (Hd id Hx). cbn. by left. }
  assert (Hoth : forall x, x ∈ txids s -> txb (added p id pg' s) x = txb s x).
  { intros x Hx. destruct (Hown x Hx) as (? & _ & ?). eapply txb_other; [reflexivity|lia|lia|done]. }
  assert (H0 : net_ok (holds id [] []) W B NR (set_mem (<[virt_to_mfn p := replicate (Z.to_nat PAGE_SIZE) 0]> (mem s)) s)).
  { apply mem_pure; [done|done| | |by intros q _ _].
    - intros x Hx Ef. apply VM in Ef. destruct (Hown x Hx) as (? & ? & _). apply Hnew. rewrite <- Ef. eapply tx_page_in; [apply H|done|done].
    - intros (b & Ef & Hb)%list_elem_of_fmap. apply VM in Ef. apply Hnew. rewrite Ef. apply elem_of_app. right. by apply list_elem_of_fmap_2. }
  pose proof H0 as [Hs Hpg Hg Hr Hx Hl]. split; [keep Hs| | | |keep Hx|done].
  - destruct Hpg as [P1 P2 P3 P4 P5 P6 P7 P8]. cbn in P1.
    assert (Ep : pages (added p id pg' s) ≡ₚ p :: pages s). { unfold pages. cbn. rewrite pages_added; [done|lia|done|done]. }
    split; [cbn; by rewrite length_insert|done|done|rewrite Ep; by apply NoDup_cons| | |constructor|constructor].
    + rewrite Ep. constructor.
      * split; [done|]. cbn. rewrite lookup_insert_eq. eexists. split; [done|]. rewrite length_replicate. done.
      * apply Forall_forall. intros q Hq. split; [by apply Hold|]. by apply (proj1 (Forall_forall _ _) P5).
    + cbn [h_gr holds]. rewrite app_nil_r. intros x Hx'. rewrite Hoth by done. by destruct (Hown x Hx') as (_ & ? & _).
  - eapply grants_perm; [|split; apply Hg]. unfold lives. cbn [h_gr holds]. rewrite !app_nil_r.
    change (txids (added p id pg' s)) with (txids s). rewrite (map_live_ext (txb (added p id pg' s)) (txb s) true (txids s) Hoth). done.
  - apply (reqs_keep W _ _ Hr); [done..|]. intros x Hx'. split; [|done]. apply Hoth. by apply (req_ids_in s).
Qed.

Lemma hand_range W B n id pm pb s : net_ok (holds id pm pb) W B n s -> 0 <= id < N /\ id ∉ txids s.
Proof using All.
  intros H. split; [apply (txids_range _ _ id (no_slots _ _ _ _ _ H)); cbn; rewrite !elem_of_app, elem_of_cons; tauto|].
  intros Hx. pose proof (slots_nodup _ _ (no_slots _ _ _ _ _ H)) as Hn. apply NoDup_app in Hn as (_ & Hd & _). apply (Hd id Hx). cbn. by left.
Qed.
Lemma pin_buf W B n id b s : net_ok (holds id [] []) W B n s -> txb s id = b -> net_ok (holds id [] [(id, b)]) W B n s.
Proof using All.
  intros [Hs Hp Hg Hr Hx Hl] E. split; [keep Hs| |keep Hg|keep Hr|keep Hx|done]. destruct Hp. split; try assumption. apply Forall_singleton. split; [done|by left].
Qed.
Lemma wpx_tx_page W B id s (Q : Z -> net -> Prop) : net_ok (holds id [] []) W B NR s ->
  (forall p s', net_ok (holds id [] [(id, txb s' id)]) W B NR s' -> page (txb s' id) = p -> p <> 0 -> Q p s') ->
  wpx NULL_PAGE (tx_page virt_to_mfn id) Q s.
Proof using All.
  intros H HQ. destruct (hand_range _ _ _ _ _ _ _ H) as [Hid Hni]. pose proof (no_pages _ _ _ _ _ H) as Hp. pose proof (po_tx _ _ Hp) as Hl.
  unfold tx_page. apply wpx_bind, wpx_wp, wp_txbuf_get; [lia|]. destruct (Z.eqb_spec (page (txb s id)) 0) as [E0|E0]; cbn [negb].
  2: { apply wpx_wp, wp_ret, HQ; [by apply pin_buf|done|done]. }
  apply wpx_bind, wpx_wp. unfold net_pgalloc_one. apply wp_bind, wp_zoom. eapply wp_mono; [apply (pa_alloc_ok _ 0 (po_inv _ _ Hp)); lia|].
  intros p pg' (Hi & _ & _ & [(-> & Hfr)|(Hne & _ & _ & _ & Hwas & Hnow)]).
  { rewrite Z.eqb_refl. apply wp_bind, wp_ret, wp_ret. apply wpx_bind, wpx_assert. done. }
  rewrite (proj2 (Z.eqb_neq p 0) Hne). apply wp_bind, wp_modify, wp_ret. apply wpx_bind, wpx_assert. intros _.
  assert (Hin : in_block 0 p p) by (unfold in_block; change (csize 0) with 4096; lia).
  assert (Hold : forall q, q ∈ pages s -> ~ pa_free (pg s) q) by (intros q Hq; by apply (proj1 (Forall_forall _ _) (po_mine _ _ Hp) q)).
  assert (Ha : net_ok (holds id [] []) W B NR (added p id pg' s)).
  { apply added_pure; try done; [intros Hc; by apply (Hold p Hc), Hwas|intros Hc; by apply Hnow in Hc as [_ ?]|].
    intros q Hq Hc. apply Hnow in Hc as [Hc _]. by apply (Hold q). }
  assert (Eb : txb (added p id pg' s) id = Nb p (gref (txb s id))) by (eapply txb_same; [reflexivity|cbn; lia]).
  apply wpx_bind, wpx_wp, wp_modify. apply wpx_wp, wp_ret. apply (HQ p (added p id pg' s)); [by apply pin_buf|by rewrite Eb|done].
Qed.
Lemma write_pure W B id s b0 bytes data : net_ok (holds id [] [(id, b0)]) W B NR s -> page b0 <> 0 ->
  mem s !! frame b0 = Some bytes -> zlen data <= PAGE_SIZE ->
  net_ok (holds id [(frame b0, put_at 0 data bytes)] [(id, b0)]) W B NR (set_mem (<[frame b0 := put_at 0 data bytes]> (mem s)) s) /\ zlen bytes = PAGE_SIZE.
Proof using All.
  intros H Hp0 Em Hd. destruct (hand_range _ _ _ _ _ _ _ H) as [Hid Hni]. pose proof (no_pages _ _ _ _ _ H) as Hp.
  pose proof (po_buf _ _ Hp) as Hb. cbn in Hb. apply Forall_singleton in Hb as [Eb _]. cbn in Eb.
  assert (Hlen : zlen bytes = PAGE_SIZE).
  { destruct (page_bytes _ s (page b0) Hp) as (b' & E' & ?); [rewrite <- Eb in *; by eapply tx_page_in|]. unfold frame in Em. congruence. }
  split; [|done]. assert (Hm : net_ok (holds id [] [(id, b0)]) W B NR (set_mem (<[frame b0 := put_at 0 data bytes]> (mem s)) s)).
  { apply mem_pure; [done|done| | |].
    - intros x Hx Ef. rewrite <- Eb in Ef. apply (tx_apart _ s x id Hp) in Ef; [by subst| |done|].
      + eapply txids_range; [apply H|apply elem_of_app; by left].
      + apply (po_used _ _ Hp). apply elem_of_app. by left.
    - rewrite <- Eb. eapply tx_rx_apart; [done|done|by rewrite Eb].
    - intros p _ _. rewrite put_at_len; lia. }
  destruct Hm as [Hs Hp' Hg Hr Hx Hl]. split; [keep Hs| |keep Hg|keep Hr|keep Hx|done].
  destruct Hp' as [P1 P2 P3 P4 P5 P6 P7 P8]. split; try assumption. apply Forall_singleton. cbn [fst snd mem set_mem]. split; [apply lookup_insert_eq|].
  rewrite <- Eb. eapply (tx_rx_apart _ s); [done|done|by rewrite Eb].
Qed.
(** The slot in hand gets its grant. *)
Definition offered (id r : Z) (g : G) (b0 : net_buffer) s : net :=
  set_txbufs (<[Z.to_nat id := Nb (page b0) r]> (tx_buffers s)) (set_grants g (<[r := (frame b0, true)]> (shared s)) s).
Lemma grant_pure W B n id pm b0 r g s : net_ok (holds id pm [(id, b0)]) W B n s -> page b0 <> 0 ->
  grant_access dom (frame b0) true (grants s) = Some (r, g) ->
  net_ok (offers id pm [(id, Nb (page b0) r)]) W B n (offered id r g b0 s).
Proof using All.
  intros H Hp0 Eg. destruct (hand_range _ _ _ _ _ _ _ H) as [Hid Hni]. pose proof H as [Hs Hp Hg Hr Hx Hl].
  pose proof (po_buf _ _ Hp) as Hb. cbn in Hb. apply Forall_singleton in Hb as [Eb _]. cbn in Eb. set (s' := offered id r g b0 s).
  destruct (grants_new r (frame b0, true) g _ s s' _ _ Hg Eg eq_refl eq_refl) as [Hg' Hfresh].
  assert (Hoth : forall x, x ∈ txids s -> txb s' x = txb s x).
  { intros x Hin. assert (0 <= x < N) by (eapply txids_range; [exact Hs|apply elem_of_app; by left]). eapply txb_other; [reflexivity|lia|lia|by intros ->]. }
  assert (Hsame : txb s' id = Nb (page b0) r) by (eapply txb_same; [reflexivity|pose proof (po_tx _ _ Hp); lia]).
  split; [|  | | |keep Hx|done].
  - destruct Hs as [(fl & F1 & F2 & F3) S2 S3 S4]. split; [|done|done|done]. exists fl. by split.
  - apply (pages_retag (holds id pm [(id, b0)]) _ s s' id r); try done; [cbn; by rewrite Eb| |].
    + intros x. cbn [h_gr offers]. rewrite elem_of_app, list_elem_of_singleton. intros [Hin| ->]; [|by rewrite Eb].
      split; [eapply txids_range; [exact Hs|apply elem_of_app; by left]|]. apply (po_used _ _ Hp). apply elem_of_app. by left.
    + apply Forall_singleton. split; [done|]. cbn. by left.
  - eapply grants_perm; [|exact Hg']. unfold lives. cbn [h_gr holds offers]. rewrite app_nil_r, map_app. cbn [map]. rewrite Hsame.
    change (txids s') with (txids s). change (rxids s') with (rxids s). rewrite (map_live_ext (txb s') (txb s) true (txids s) Hoth).
    change (live true (Nb (page b0) r)) with (r, (frame b0, true)). rewrite <- app_assoc. cbn [app]. by rewrite <- Permutation_middle.
  - apply (reqs_keep W s s' Hr); [done..|]. intros x Hin. apply req_ids_in in Hin. split; [by apply Hoth|]. cbn. apply lookup_insert_ne. intros ->. apply Hfresh.
    apply list_elem_of_fmap. exists (live true (txb s x)). split; [done|]. apply elem_of_app. left. apply list_elem_of_fmap. exists x. split; [done|].
    apply elem_of_app. by left.
Qed.
(** The request is in the ring. *)
Lemma push_pure W B n id p r data bytes s : net_ok (offers id [(virt_to_mfn p, put_at 0 data bytes)] [(id, Nb p r)]) W B n s ->
  zlen data <= PAGE_SIZE -> zlen bytes = PAGE_SIZE ->
  net_ok idle (W ++ [Some data]) B n (set_txring (tx_req s ++ [TxReq r 0 (u16 (zlen data)) id]) (tx_rsp s) (bk_tx s) (bk_seen s) s).
Proof using All.
  intros H Hd Hlb. pose proof H as [Hs Hp Hg Hr Hx Hl]. pose proof (po_buf _ _ Hp) as Hb. cbn in Hb. apply Forall_singleton in Hb as [Eb _]. cbn in Eb.
  pose proof (po_mem _ _ Hp) as Hm. cbn in Hm. apply Forall_singleton in Hm as [Em _]. cbn in Em.
  set (q := TxReq r 0 (u16 (zlen data)) id). set (s' := set_txring _ _ _ _ s).
  assert (E : txids s' ≡ₚ txids s ++ [id]). { unfold txids, s'. cbn. rewrite map_app. cbn. solve_Permutation. }
  assert (Eu : u16 (zlen data) = zlen data) by (unfold u16; apply Z.mod_small; unfold PAGE_SIZE in Hd; lia).
  split; [| | | |keep Hx|done].
  - destruct Hs as [(fl & F1 & F2 & F3) S2 S3 S4]. split; [|done|done|done]. exists fl. split; [done|]. split; [|done]. rewrite <- F2, E. cbn. by rewrite !app_nil_r.
  - destruct Hp as [P1 P2 P3 P4 P5 P6 P7 P8]. split; try assumption; [|constructor|constructor]. intros x. cbn [h_gr idle]. rewrite app_nil_r, E. apply P6.
  - eapply grants_perm; [|split; apply Hg]. unfold lives. cbn [h_gr idle offers]. rewrite app_nil_r, E. done.
  - destruct Hr as [R1 R2 R3]. split; [|done|].
    + change (tx_req s') with (tx_req s ++ [q]). apply Forall_app. split; [done|]. apply Forall_singleton. cbn. change (txb s' id) with (txb s id). by rewrite Eb.
    + unfold wire. change (tx_req s') with (tx_req s ++ [q]). change (bk_seen s') with (bk_seen s). rewrite map_app, app_assoc. f_equal; [exact R3|].
      cbn [map]. f_equal. unfold frame_at. change (shared s') with (shared s). change (mem s') with (mem s). cbn [tx_gref q tx_size_of tx_offset].
      pose proof (live_tx _ _ _ _ s id H ltac:(apply elem_of_app; right; by left)) as Hlive. rewrite Eb in Hlive. cbn [gref] in Hlive. rewrite Hlive. cbn.
      unfold frame. cbn [page]. rewrite Em. cbn. rewrite Eu, Nat2Z.id. f_equal. by apply (put_at_get 0); lia.
Qed.
End Inv.
