(* ===== verification/NetfrontSpec.v ===== *)
(** * The network interface: frames arrive once, in order, in pages of their own *)
From S2P Require Import Prelude Pgalloc PgallocInv PageIface Frontend Blk BlkSpec Netfront NetfrontInv.

Section Spec.
Context {P : Type} `{PA : PageAllocator P} `{XN : XenNet} {XL : XenNetLaws} {G : Type} `{GR : Grants G} {GL : GrantsLaws G} {GP : GrantsPrompt G}.
Context (virt_to_mfn : Z -> Z) {VM : Inj (=) (=) virt_to_mfn} (dom : Z).
Context (g0 : gset Z) (Hroom : Z.of_nat (size g0) + NET_TX_RING_SIZE + NET_RX_RING_SIZE <= grant_entries).
Abbreviation net := (net (P := P) (G := G)).
Abbreviation net_ok := (net_ok virt_to_mfn g0).
Implicit Types (s : net).

(** The interface between calls: every slot is free or with the backend, every page for
    receiving is with the backend or waits to be collected, the frames on the way are
    in their pages. *)
Definition net_inv s : Prop := net_ok idle (wire s) (bk_sent s) NET_RX_RING_SIZE s.
Lemma net_inv_of W B s : net_ok idle W B NET_RX_RING_SIZE s -> net_inv s /\ wire s = W /\ B `prefix_of` bk_sent s.
Proof using All.
  intros [Hs Hp Hg Hr Hx Hl]. split; [|split; [apply (ro_wire _ _ Hr)|apply (xo_sent _ _ _ _ Hx)]].
  split; [done|done|done| | |done]; [destruct Hr; by split|destruct Hx; by split].
Qed.


(** C20. The interrupt handler delivers every frame the backend has put into a page,
    each once and in order, also those that arrive while it runs, and offers all pages
    to the backend again; what is being sent is not disturbed. *)
Theorem netfront_handler_delivers s : net_inv s ->
  wp (netfront_handler virt_to_mfn dom) (fun _ s' =>
    net_inv s' /\ wire s' = wire s /\ bk_sent s `prefix_of` bk_sent s' /\
    received s' = bk_sent s' /\ zlen (rx_req s') = NET_RX_RING_SIZE) s.
Proof using All.
  intros H. apply (wp_net_handler virt_to_mfn dom g0 Hroom idle (wire s) (bk_sent s)); [done|]. intros s' H' _ _ Er.
  destruct (net_inv_of _ _ _ H') as (Hi & Hw & Hb). split; [done|]. split; [done|]. split; [done|].
  pose proof (no_rx _ _ _ _ _ _ _ H') as Hx. split.
  - rewrite <- (xo_recv _ _ _ _ Hx), Er. cbn. by rewrite app_nil_r.
  - pose proof (f_equal length (xo_ids _ _ _ _ Hx)) as Hlen. unfold rxids in Hlen. rewrite Er in Hlen. cbn [map app] in Hlen.
    rewrite !length_map, length_seqZ in Hlen. pose proof (xo_n _ _ _ _ Hx). lia.
Qed.

(** ** Setting up *)
Record fresh_dev s : Prop := {
  fd_list : tx_freelist s = replicate (Z.to_nat (NET_TX_RING_SIZE + 1)) 0;
  fd_sem : tx_sem s = NET_TX_RING_SIZE;
  fd_tx : tx_buffers s = replicate (Z.to_nat NET_TX_RING_SIZE) (Nb 0 0);
  fd_rx : rx_buffers s = replicate (Z.to_nat NET_RX_RING_SIZE) (Nb 0 0);
  fd_txring : tx_req s = [] /\ tx_rsp s = [] /\ bk_tx s = [] /\ bk_seen s = [];
  fd_rxring : rx_req_prod s = 0 /\ rx_req s = [] /\ rx_rsp s = [] /\ bk_sent s = [] /\ received s = [];
  fd_pg : pa_inv (pg s);
  fd_grants : granted (grants s) = g0;
  fd_plan : no_null (plan s) /\ zlen (plan s) < 2 ^ 63
}.
Lemma mfor_ext {A} (f f' : A -> M net unit) l : (forall x, x ∈ l -> f x = f' x) -> mfor f l = mfor f' l.
Proof using All.
  induction l as [|x l IH]; intros H; [done|]. cbn. rewrite (H x) by (by left). rewrite IH; [done|]. intros y Hy. apply H. by right.
Qed.
(** After [i] rounds of the first loop: the slots from the last one down. *)
Definition tx_made (s0 : net) (i : nat) s : Prop := exists fl, s = set_freelist fl s0 /\ zlen fl = NET_TX_RING_SIZE + 1 /\ slots fl 0 (reverse (seqZ 0 (Z.of_nat i))).
Lemma wp_init_tx_from s0 i k s : fresh_dev s0 -> tx_made s0 i s -> Z.of_nat (i + k) = NET_TX_RING_SIZE ->
  wp (mfor (fun i => add_id_to_freelist i ;;; b <-- txbuf_get i ;; txbuf_put i (Nb 0 (gref b))) (seqZ (Z.of_nat i) (Z.of_nat k))) (fun _ => tx_made s0 (i + k)) s.
Proof using All.
  intros F. revert i s. induction k as [|k IH]; intros i s (fl & -> & Hl & Hsl) Hk; [rewrite Nat.add_0_r; cbn; apply wp_ret; by exists fl|].
  rewrite (seqZ_head virt_to_mfn dom g0 Hroom) by lia. cbn [mfor]. replace (Z.of_nat (S k) - 1) with (Z.of_nat k) by lia. apply wp_bind.
  apply wp_bind, (wp_add_id virt_to_mfn dom g0 Hroom); [lia|exact Hl|]. cbn [tx_freelist set_freelist].
  apply wp_bind, (wp_txbuf_get virt_to_mfn dom g0 Hroom). { cbn. rewrite (fd_tx _ F), length_replicate. lia. }
  apply wp_modify. set (fl' := <[O := Z.of_nat i]> _).
  assert (Hb : <[Z.to_nat (Z.of_nat i) := Nb 0 (gref (txb (set_freelist fl' (set_freelist fl s0)) (Z.of_nat i)))]> (tx_buffers s0) = tx_buffers s0).
  { unfold txb. cbn. rewrite (fd_tx _ F). apply list_insert_id. rewrite lookup_total_replicate_2 by lia. apply lookup_replicate_2. lia. }
  cbn [tx_buffers set_freelist]. rewrite Hb, <- Nat.add_succ_comm. replace (Z.of_nat i + 1) with (Z.of_nat (S i)) by lia. apply IH; [|lia].
  exists fl'. split; [by destruct s0|]. split; [unfold fl'; by rewrite !length_insert|].
  replace (Z.of_nat (S i)) with (Z.of_nat i + 1) by lia. rewrite seqZ_app, reverse_app by lia. change (seqZ (0 + Z.of_nat i) 1) with [0 + Z.of_nat i]. cbn [reverse app rev_append Z.add].
  assert (Hr : Forall (fun x => 0 <= x < Z.of_nat i) (reverse (seqZ 0 (Z.of_nat i)))).
  { apply Forall_forall. intros x Hx%elem_of_reverse%elem_of_seqZ. lia. }
  unfold fl'. split; [by rewrite list_lookup_insert_eq by (rewrite length_insert; lia)|].
  apply (slots_other virt_to_mfn dom g0 Hroom _ _ 0); [lia|lia|lia|eapply Forall_impl; [exact Hr|cbn; intros; lia]|].
  destruct (reverse (seqZ 0 (Z.of_nat i))) as [|y l]; [done|]. destruct Hsl as [E0 Hsl]. apply Forall_cons in Hr as [Hy Hr]. split.
  - rewrite list_lookup_insert_eq by lia. by rewrite (list_lookup_total_correct _ _ _ E0).
  - apply (slots_other virt_to_mfn dom g0 Hroom); [lia|lia|lia|eapply Forall_impl; [exact Hr|cbn; intros; lia]|done].
Qed.
(** After [i] rounds of the second: pages, distinct ones if there were enough. *)
Definition rx_made (s1 : net) (i : nat) s : Prop := exists ps pg' m,
  s = set_rxbufs (map (fun p => Nb p 0) ps ++ replicate (Z.to_nat NET_RX_RING_SIZE - i) (Nb 0 0)) (set_mem m (set_pg pg' s1)) /\
  length ps = i /\ pa_inv pg' /\
  (Forall (fun p => p <> 0) ps -> NoDup ps /\ Forall (fun p => ~ pa_free pg' p /\ exists b, m !! virt_to_mfn p = Some b /\ zlen b = PAGE_SIZE) ps).
Lemma wp_init_rx_from s1 i k s : rx_made s1 i s -> (i + k = Z.to_nat NET_RX_RING_SIZE)%nat ->
  wp (mfor (fun i => p <-- net_pgalloc_one virt_to_mfn ;; b <-- rxbuf_get i ;; rxbuf_put i (Nb p (gref b))) (seqZ (Z.of_nat i) (Z.of_nat k))) (fun _ => rx_made s1 (i + k)) s.
Proof using All.
  revert i s. induction k as [|k IH]; intros i s (ps & pg1 & m & -> & Hlen & Hpi & Hps) Hk; [rewrite Nat.add_0_r; cbn; apply wp_ret; by exists ps, pg1, m|].
  rewrite (seqZ_head virt_to_mfn dom g0 Hroom) by lia. cbn [mfor]. replace (Z.of_nat (S k) - 1) with (Z.of_nat k) by lia.
  apply wp_bind, wp_bind. unfold net_pgalloc_one. apply wp_bind, wp_zoom. eapply wp_mono; [apply (pa_alloc_ok _ 0 Hpi); lia|].
  set (rb := map (fun p => Nb p 0) ps ++ replicate (Z.to_nat NET_RX_RING_SIZE - i) (Nb 0 0)).
  assert (Hrb : rb !! i = Some (Nb 0 0)).
  { unfold rb. rewrite lookup_app_r by (rewrite length_map; lia). rewrite length_map, Hlen, Nat.sub_diag. apply lookup_replicate_2. lia. }
  assert (Hins : forall p, <[i := Nb p 0]> rb = map (fun p => Nb p 0) (ps ++ [p]) ++ replicate (Z.to_nat NET_RX_RING_SIZE - S i) (Nb 0 0)).
  { intros p. unfold rb. rewrite map_app, <- app_assoc. rewrite insert_app_r_alt by (rewrite length_map; lia). f_equal. rewrite length_map, Hlen, Nat.sub_diag.
    replace (Z.to_nat NET_RX_RING_SIZE - i)%nat with (S (Z.to_nat NET_RX_RING_SIZE - S i)) by lia. done. }
  assert (Hput : forall p st (Q : unit -> net -> Prop), rx_buffers st = rb -> Q tt (set_rxbufs (<[i := Nb p 0]> rb) st) ->
    wp (b <-- rxbuf_get (Z.of_nat i) ;; rxbuf_put (Z.of_nat i) (Nb p (gref b))) Q st).
  { intros p st Q Est HQ. apply wp_bind, (wp_rxbuf_get virt_to_mfn dom g0 Hroom). { rewrite Est. pose proof (lookup_lt_Some _ _ _ Hrb). lia. }
    apply wp_modify. unfold rxb. rewrite Est, Nat2Z.id, (list_lookup_total_correct _ _ _ Hrb). done. }
  rewrite <- Nat.add_succ_comm. replace (Z.of_nat i + 1) with (Z.of_nat (S i)) by lia.
  intros p pg' (Hi & _ & _ & [(-> & Hfr)|(Hne & _ & _ & _ & Hwas & Hnow)]).
  - rewrite Z.eqb_refl. apply wp_bind, wp_ret, wp_ret. apply Hput; [done|]. apply IH; [|lia].
    exists (ps ++ [0]), pg', m. split; [by rewrite <- Hins|]. split; [rewrite length_app; cbn; lia|]. split; [done|].
    intros H0. apply Forall_app in H0 as [_ H0]. exfalso. by inversion H0.
  - rewrite (proj2 (Z.eqb_neq p 0) Hne). apply wp_bind, wp_modify, wp_ret. apply Hput; [done|]. apply IH; [|lia].
    assert (Hin : in_block 0 p p) by (unfold in_block; change (csize 0) with 4096; lia).
    exists (ps ++ [p]), pg', (<[virt_to_mfn p := replicate (Z.to_nat PAGE_SIZE) 0]> m). split; [by rewrite <- Hins|]. split; [rewrite length_app; cbn; lia|]. split; [done|].
    intros [H0 _]%Forall_app. destruct (Hps H0) as [Hn Hf]. rewrite Forall_forall in Hf.
    assert (Hnew : p ∉ ps) by (intros Hc; destruct (Hf p Hc) as [Hc' _]; by apply Hc', Hwas). split.
    + apply NoDup_app. split; [done|]. split; [|apply NoDup_singleton]. intros x Hx ->%list_elem_of_singleton. done.
    + apply Forall_app. split; [|apply Forall_singleton; split; [intros Hc; by apply Hnow in Hc as [_ ?]|rewrite lookup_insert_eq; eexists; split; [done|by rewrite length_replicate]]].
      apply Forall_forall. intros x Hx. destruct (Hf x Hx) as (Hx1 & b & Hx2 & Hx3). split; [intros Hc; by apply Hx1, Hnow|].
      rewrite lookup_insert_ne; [eauto|]. intros Ec. apply VM in Ec. by subst.
Qed.

Lemma prepared s ps pg' m fl : fresh_dev s -> zlen fl = NET_TX_RING_SIZE + 1 -> slots fl 0 (reverse (seqZ 0 NET_TX_RING_SIZE)) ->
  zlen ps = NET_RX_RING_SIZE -> pa_inv pg' -> NoDup ps -> Forall (fun p => ~ pa_free pg' p /\ exists b, m !! virt_to_mfn p = Some b /\ zlen b = PAGE_SIZE) ps ->
  net_ok idle [] [] 0 (set_rxbufs (map (fun p => Nb p 0) ps) (set_mem m (set_pg pg' (set_freelist fl s)))).
Proof using All.
  intros F Hfl Hsl Hps Hpi Hn Hm. destruct F as [F1 F2 F3 F4 (T1 & T2 & T3 & T4) (R1 & R2 & R3 & R4 & R5) F7 F8 F9]. set (s' := set_rxbufs _ _).
  pose proof rx_pos as Hpos. pose proof tx_size as Htx.
  assert (E1 : txids s' = []) by (unfold txids; cbn; by rewrite T1, T2, T3). assert (E2 : rxids s' = []) by (unfold rxids; cbn; by rewrite R2, R3).
  assert (E3 : pages s' = ps).
  { unfold pages. cbn. rewrite F3. assert (Hz : forall k, filter (fun p => p <> 0) (map page (replicate k (Nb 0 0))) = []) by (induction k as [|k IH]; [done|cbn [replicate map page]; rewrite filter_cons, decide_False by tauto; exact IH]).
    rewrite Hz, map_map. cbn. apply map_id. }
  split.
  - split; [|exact Hfl|done|change (tx_rsp s') with (tx_rsp s); by rewrite T2]. exists (reverse (seqZ 0 NET_TX_RING_SIZE)).
    rewrite E1. split; [exact Hsl|]. split; [cbn [app h_gr h_ids idle]; rewrite app_nil_r; apply reverse_Permutation|].
    rewrite length_reverse, length_seqZ. change (tx_sem s') with (tx_sem s). cbn [h_down idle]. lia.
  - split; rewrite ?E3; try done.
    + change (tx_buffers s') with (tx_buffers s). rewrite F3, length_replicate. lia.
    + change (rx_buffers s') with (map (fun p => Nb p 0) ps). by rewrite length_map.
    + intros id. rewrite E1. intros Hc. by apply not_elem_of_nil in Hc.
  - unfold lives. rewrite E1, E2. split; [constructor| | |constructor].
    + intros r. change (grants s') with (grants s). rewrite F8. cbn. set_solver.
    + intros r Hr. by apply not_elem_of_nil in Hr.
  - split; [change (tx_req s') with (tx_req s); by rewrite T1|change (bk_tx s') with (bk_tx s); by rewrite T3|].
    unfold wire. change (tx_req s') with (tx_req s). change (bk_seen s') with (bk_seen s). by rewrite T4, T1.
  - split; [by rewrite E2|lia|change (rx_req_prod s') with (rx_req_prod s); by rewrite R1|change (rx_req s') with (rx_req s); by rewrite R2|
      change (rx_rsp s') with (rx_rsp s); by rewrite R3| |apply prefix_nil].
    change (received s ++ omap (rx_frame virt_to_mfn s') (rx_rsp s) = bk_sent s). by rewrite R5, R3, R4.
  - exact F9.
Qed.

(** Setting the interface up gives the invariant of the calls above: the transmit
    slots linked from the last to the first, a page of its own for each receive slot, all
    of them offered to the backend, if no page was refused. *)
Theorem wp_netfront_setup s : fresh_dev s ->
  wp (init_tx ;;; init_rx_pages virt_to_mfn) (fun _ s1 => Forall (fun b => page b <> 0) (rx_buffers s1) ->
    wp (init_rx_buffers virt_to_mfn dom) (fun _ s2 => net_inv s2 /\ wire s2 = [] /\ received s2 = [] /\ zlen (rx_req s2) = NET_RX_RING_SIZE) s1) s.
Proof using All.
  intros F. pose proof rx_pos as Hpos. pose proof rx_small as Hsmall. pose proof tx_size as Htx. unfold init_tx, init_rx_pages.
  rewrite <- (Z2Nat.id NET_TX_RING_SIZE) at 1 by lia.
  apply wp_bind. eapply wp_mono; [apply (wp_init_tx_from s 0%nat); [done| |lia]|].
  { exists (tx_freelist s). split; [by destruct s|]. split; [rewrite (fd_list _ F), length_replicate; lia|done]. }
  intros _ s0 (fl & -> & Hfl & Hsl). cbn [Nat.add] in Hsl. rewrite Z2Nat.id in Hsl by lia. rewrite <- (Z2Nat.id NET_RX_RING_SIZE) at 1 by lia.
  eapply wp_mono; [apply (wp_init_rx_from (set_freelist fl s) 0%nat); [|lia]|].
  { exists [], (pg s), (mem s). split; [|split; [done|split; [apply (fd_pg _ F)|intros _; split; constructor]]].
    cbn [map app]. rewrite Nat.sub_0_r, <- (fd_rx _ F). by destruct s. }
  intros _ s1 (ps & pg' & m & -> & Hlen & Hpi & Hps). cbn [Nat.add] in *. rewrite Nat.sub_diag, app_nil_r. cbn [rx_buffers set_rxbufs]. intros Hne.
  assert (Hne' : Forall (fun p => p <> 0) ps) by (by rewrite Forall_map in Hne). destruct (Hps Hne') as [Hnd Hm].
  pose proof (prepared s ps pg' m fl F Hfl Hsl ltac:(lia) Hpi Hnd Hm) as H0. set (s1 := set_rxbufs _ _) in *. unfold init_rx_buffers.
  rewrite (mfor_ext (init_rx_buffer virt_to_mfn dom) (refill virt_to_mfn dom 0)).
  2: { intros i Hi%elem_of_seqZ. unfold init_rx_buffer, refill. rewrite rxidx_mod. unfold u32. rewrite (Z.mod_small (0 + i) (2 ^ 32)) by lia. by rewrite Z.mod_small by lia. }
  apply wp_bind. rewrite <- (Z2Nat.id NET_RX_RING_SIZE) at 1 by lia.
  apply (wp_refills virt_to_mfn dom g0 Hroom idle [] [] 0 (Z.to_nat NET_RX_RING_SIZE) 0 0).
  { assert (Hprod : rx_req_prod s1 = 0) by apply (fd_rxring _ F). replace (rx_at (u32 (0 + 0)) s1) with s1; [done|].
    change (u32 (0 + 0)) with 0. rewrite <- Hprod. by destruct s1. }
  { lia. }
  intros s2 H2 [_ _] Er Es Erecv. rewrite Z2Nat.id in H2 by lia. change (0 + 0 + NET_RX_RING_SIZE) with (0 + NET_RX_RING_SIZE) in H2.
  assert (Eu : u32 (0 + NET_RX_RING_SIZE) = NET_RX_RING_SIZE) by (unfold u32; rewrite Z.mod_small; lia). rewrite Eu in H2.
  apply wp_modify. destruct (net_inv_of _ _ _ H2) as (Hi & Hw & _). split; [exact Hi|]. split; [exact Hw|]. split.
  - cbn. rewrite Erecv. apply (fd_rxring _ F).
  - pose proof (no_rx _ _ _ _ _ _ _ H2) as Hx. pose proof (f_equal length (xo_ids _ _ _ _ Hx)) as Hl. unfold rxids in Hl. cbn [rx_rsp rx_req rx_at set_rxring] in Hl.
    assert (Er0 : rx_rsp s1 = []) by apply (fd_rxring _ F). rewrite Er, Er0 in Hl. cbn [map app] in Hl. rewrite !length_map, length_seqZ in Hl. cbn. lia.
Qed.
End Spec.

(** ** An example: rings of two slots, an interface that has just been set up *)
Abbreviation prompt_table := (gmap Z (Z * Z * bool)).
#[local] Instance prompt_grants : Grants prompt_table := {|
  grant_access := fun d f ro g => let r := fresh (dom g : gset Z) in Some (r, <[r := (d, f, ro)]> g);
  end_access := fun r g => (true, delete r g); grants_of := fun g => g; grant_entries := 2048 |}.
#[local] Instance prompt_laws : GrantsLaws prompt_table.
Proof. split; cbn; [|intros; by eexists|done]. intros d f ro g r g' [= <- <-]. split; [apply not_elem_of_dom, is_fresh|done]. Qed.
#[local] Instance prompt_prompt : GrantsPrompt prompt_table.
Proof. by intros r g. Qed.
#[local] Existing Instance log_allocator.
#[local] Instance example_net : XenNet := {| NET_TX_RING_SIZE := 2; NET_RX_RING_SIZE := 2; NETIF_RSP_NULL := 1 |}.
#[local] Instance example_net_laws : XenNetLaws.
Proof. split; [done| |done]. exists 1. done. Qed.
#[local] Instance same_inj : Inj (=) (=) (fun v : Z => v).
Proof. by intros x y. Qed.
Definition dev0 : net (P := plog) (G := prompt_table) :=
  Net [] ∅ ∅ ∅ (replicate 3 0) 2 false (replicate 2 (Nb 0 0)) [] [] [] [] (replicate 2 (Nb 0 0)) 0 [] [] [] []
    [([], false); ([BRecv 64 [5; 6]], true); ([BTake; BDone 0 0], false)].
Definition setup : M (net (P := plog) (G := prompt_table)) unit := (init_tx ;;; init_rx_pages (fun v => v)) ;;; init_rx_buffers (fun v => v) 0.
Definition dev1 : net := match setup dev0 with Done (_, s) => s | _ => dev0 end.
Definition dev2 : net := foldl bev_run dev1 [BRecv 10 [7; 8; 9]].
Lemma example_room : Z.of_nat (size (∅ : gset Z)) + NET_TX_RING_SIZE + NET_RX_RING_SIZE <= grant_entries.
Proof. done. Qed.
Lemma dev0_fresh : fresh_dev ∅ dev0.
Proof. split; try done. split; [|done]. repeat constructor; done. Qed.
Lemma dev1_inv : net_inv (fun v => v) ∅ dev1.
Proof.
  destruct (wp_run _ _ _ (wp_netfront_setup (fun v => v) 0 ∅ example_room dev0 dev0_fresh)) as ([] & s1 & E & H).
  assert (Hp : forallb (fun b => negb (page b =? 0)) (rx_buffers s1) = true).
  { assert (Hc : match (init_tx ;;; init_rx_pages (fun v => v)) dev0 with Done (_, s) => forallb (fun b => negb (page b =? 0)) (rx_buffers s) | _ => false end = true)
      by (by vm_compute). by rewrite E in Hc. }
  destruct (wp_run _ _ _ (H ltac:(apply Forall_forall; intros b Hb%list_elem_of_In; eapply forallb_forall in Hp; [|exact Hb]; by destruct (Z.eqb_spec (page b) 0))))
    as ([] & s2 & E2 & Hi & _).
  replace dev1 with s2; [done|]. unfold dev1, setup. by rewrite (bind_run _ _ _ _ _ E), E2.
Qed.
Lemma dev2_inv : net_inv (fun v => v) ∅ dev2.
Proof.
  destruct (bevs_ok (fun v => v) 0 ∅ example_room _ _ _ _ [BRecv 10 [7; 8; 9]] dev1 ltac:(by repeat constructor) dev1_inv) as [H _].
  by apply (net_inv_of (fun v => v) 0 ∅ example_room) in H as [? _].
Qed.
Lemma netfront_handler_delivers_witness : bk_sent dev2 = [[7; 8; 9]] /\ received dev2 = [] /\
  wp (netfront_handler (fun v => v) 0) (fun _ s' => received s' = bk_sent s' /\ [[7; 8; 9]] `prefix_of` received s') dev2.
Proof.
  assert (Eb : bk_sent dev2 = [[7; 8; 9]] /\ received dev2 = []) by (by vm_compute). destruct Eb as [Eb Er]. split; [done|]. split; [done|].
  eapply wp_mono; [apply (netfront_handler_delivers (fun v => v) 0 ∅ example_room dev2 dev2_inv)|].
  intros _ s' (_ & _ & Hp & Hr & _). split; [done|]. rewrite Hr, <- Eb. done.
Defined.
