(* ===== verification/Xenbus.v ===== *)
(** * The XenStore client (platform/xen/xen/xenbus/xenbus.c)

    Requests and responses travel as framed messages over two byte rings shared
    with xenstored.  This file models the ring writer, the thread that reads and
    dispatches the responses, the table of outstanding requests and the request
    and reply round trip.  The layout of the shared page and of the message
    header is Xen's (io/xs_wire.h), which is not part of the repository: it is
    the class [XsWire]. *)
From S2P Require Import Prelude CText ByteRing.

(** [struct xsd_sockmsg]. *)
Record xsd_sockmsg := Sockmsg { sm_type : Z; sm_req_id : Z; sm_tx_id : Z; sm_len : Z }.

Definition sockmsg_wf (m : xsd_sockmsg) : Prop :=
  0 <= sm_type m < 2 ^ 32 /\ 0 <= sm_req_id m < 2 ^ 32 /\ 0 <= sm_tx_id m < 2 ^ 32 /\ 0 <= sm_len m < 2 ^ 32.

(** What the code relies on of io/xs_wire.h: the size of the rings, a power of
    two, the mask macro, the header's bytes, and the message types it names. *)
Class XsWire := {
  XENSTORE_RING_SIZE : Z;
  MASK_XENSTORE_IDX : Z -> Z;
  sockmsg_size : Z;                         (* sizeof(struct xsd_sockmsg) *)
  sockmsg_bytes : xsd_sockmsg -> list Z;
  sockmsg_of : list Z -> xsd_sockmsg;
  XS_WATCH_EVENT : Z;
  XS_ERROR : Z;
  ring_size_pow2 : exists k, 0 <= k <= 30 /\ XENSTORE_RING_SIZE = 2 ^ k;
  mask_is_mod : forall i, 0 <= i -> MASK_XENSTORE_IDX i = i mod XENSTORE_RING_SIZE;
  sockmsg_size_pos : 0 < sockmsg_size <= XENSTORE_RING_SIZE;
  sockmsg_bytes_length : forall m, Z.of_nat (length (sockmsg_bytes m)) = sockmsg_size;
  sockmsg_roundtrip : forall m, sockmsg_wf m -> sockmsg_of (sockmsg_bytes m) = m
}.

(** The shared page: [struct xenstore_domain_interface]. *)
Record xenstore_if := XIf {
  xi_req : list Z; xi_rsp : list Z;
  req_cons : Z; req_prod : Z; rsp_cons : Z; rsp_prod : Z
}.

(** [struct xenbus_event]; the C string fields are the bytes before the NUL. *)
Record xbevent := XEvent { ev_path : list Z; ev_token : list Z; ev_watch : Z; ev_reply : list Z }.
(** [struct xenbus_watch]: its address, token (None for NULL) and queue. *)
Record xbwatch := XWatch { xw_addr : Z; xw_token : option (list Z); xw_events : Z }.
(** [struct xenbus_req_info]: addresses, 0 for NULL. *)
Record xbreq := XReq { reply_queue : Z; for_queue : Z }.

(** The module's state.  Queues and events are known by address; [next_addr] is
    what the next bmk_xmalloc_bmk returns, [notified] counts the notifications
    of xenstored and [woken] the queues whose waiters were woken. *)
Record xb := Xb {
  buf : xenstore_if;
  req_info : list xbreq;
  nr_live_reqs : Z;
  probe : Z;
  watches : list xbwatch;
  queues : gmap Z (list Z);
  events : gmap Z xbevent;
  next_addr : Z;
  notified : Z;
  woken : list Z
}.

Definition NR_REQS : Z := 32.
(** The wait queue of callers without an identifier, in [woken]. *)
Definition req_wq : Z := -1.

Definition set_buf (b : xenstore_if) (s : xb) : xb :=
  Xb b (req_info s) (nr_live_reqs s) (probe s) (watches s) (queues s) (events s) (next_addr s) (notified s) (woken s).
Definition set_reqs (ri : list xbreq) (n p : Z) (s : xb) : xb :=
  Xb (buf s) ri n p (watches s) (queues s) (events s) (next_addr s) (notified s) (woken s).
Definition set_watches (w : list xbwatch) (s : xb) : xb :=
  Xb (buf s) (req_info s) (nr_live_reqs s) (probe s) w (queues s) (events s) (next_addr s) (notified s) (woken s).
Definition set_queues (q : gmap Z (list Z)) (wk : list Z) (s : xb) : xb :=
  Xb (buf s) (req_info s) (nr_live_reqs s) (probe s) (watches s) q (events s) (next_addr s) (notified s) wk.
Definition set_events (e : gmap Z xbevent) (n : Z) (s : xb) : xb :=
  Xb (buf s) (req_info s) (nr_live_reqs s) (probe s) (watches s) (queues s) e n (notified s) (woken s).

(** [minios_notify_remote_via_evtchn(start_info.store_evtchn)]. *)
Definition notify_remote : M xb unit := modify (fun s =>
  Xb (buf s) (req_info s) (nr_live_reqs s) (probe s) (watches s) (queues s) (events s) (next_addr s)
     (notified s + 1) (woken s)).

Section Xenbus.
Context `{W : XsWire}.

(** ** Event queues *)
Definition xenbus_event_queue_init (queue : Z) : M xb unit :=
  modify (fun s => set_queues (<[queue := []]> (queues s)) (woken s) s).

(** The event, or 0. *)
Definition remove_event (queue : Z) : M xb Z :=
  s <-- mget ;; l <-- mopt (queues s !! queue) "queue" ;;
  match l with
  | [] => cret 0
  | event :: l => modify (set_queues (<[queue := l]> (queues s)) (woken s)) ;;; cret event
  end.

Definition queue_event (queue event : Z) : M xb unit :=
  s <-- mget ;; l <-- mopt (queues s !! queue) "queue" ;;
  modify (set_queues (<[queue := l ++ [event]]> (queues s)) (woken s ++ [queue])).

(** ** The response ring *)
Definition memcpy_from_ring (ring : list Z) (off len : Z) : M xb (list Z) :=
  let c1 := Z.min len (XENSTORE_RING_SIZE - off) in
  let c2 := len - c1 in
  d1 <-- mopt (array_read ring off c1) "ring" ;;
  d2 <-- mopt (array_read ring 0 c2) "ring" ;;
  cret (d1 ++ d2).

(** [MINIOS_LIST_FOREACH(watch, &watches, entry) if (!bmk_strcmp(...)) ...] *)
Fixpoint find_watch (token : list Z) (ws : list xbwatch) : M xb (option xbwatch) :=
  match ws with
  | [] => cret None
  | w :: ws =>
      t <-- mopt (xw_token w) "token" ;;
      r <-- lift_res (strcmp t token) ;;
      if r =? 0 then cret (Some w) else find_watch token ws
  end.

(** The branch for XS_WATCH_EVENT. *)
Definition watch_event (msg : xsd_sockmsg) : M xb unit :=
  s <-- mget ;;
  let b := buf s in
  let event := next_addr s in
  data <-- memcpy_from_ring (xi_rsp b) (MASK_XENSTORE_IDX (rsp_cons b + sockmsg_size)) (sm_len msg) ;;
  '(path, rest) <-- mopt (cstring data) "path" ;;
  '(token, _) <-- mopt (cstring rest) "token" ;;
  modify (set_buf (XIf (xi_req b) (xi_rsp b) (req_cons b) (req_prod b)
    (u32 (rsp_cons b + (sm_len msg + sockmsg_size))) (rsp_prod b))) ;;;
  w <-- find_watch token (watches s) ;;
  match w with
  | Some w =>
      if xw_events w =? 0 then cret tt else
      modify (fun s => set_events (<[event := XEvent path token (xw_addr w) []]> (events s)) (next_addr s + 1) s) ;;;
      queue_event (xw_events w) event
  | None => cret tt
  end.

(** The branch for a reply. *)
Definition reply_event (msg : xsd_sockmsg) : M xb unit :=
  s <-- mget ;;
  let b := buf s in
  ri <-- mopt (req_info s !! Z.to_nat (sm_req_id msg)) "req_info" ;;
  ev <-- mopt (events s !! for_queue ri) "for_queue" ;;
  reply <-- memcpy_from_ring (xi_rsp b) (MASK_XENSTORE_IDX (rsp_cons b)) (sm_len msg + sockmsg_size) ;;
  modify (fun s => set_events
    (<[for_queue ri := XEvent (ev_path ev) (ev_token ev) (ev_watch ev) reply]> (events s)) (next_addr s) s) ;;;
  modify (set_buf (XIf (xi_req b) (xi_rsp b) (req_cons b) (req_prod b)
    (u32 (rsp_cons b + (sm_len msg + sockmsg_size))) (rsp_prod b))) ;;;
  queue_event (reply_queue ri) (for_queue ri).

(** The inner loop of xenbus_thread_func, from one wake-up to the next wait; the
    result is the last value of [prod]. *)
Definition xenbus_thread_round (prod : Z) : M xb (Z + Z) :=
  b <-- gets buf ;;
  let prod := rsp_prod b in
  if u32 (rsp_prod b - rsp_cons b) <? sockmsg_size then notify_remote ;;; cret (inr prod)
  else
  hdr <-- memcpy_from_ring (xi_rsp b) (MASK_XENSTORE_IDX (rsp_cons b)) sockmsg_size ;;
  let msg := sockmsg_of hdr in
  if u32 (rsp_prod b - rsp_cons b) <? sockmsg_size + sm_len msg then notify_remote ;;; cret (inr prod)
  else
  (if sm_type msg =? XS_WATCH_EVENT then watch_event msg else reply_event msg) ;;;
  notify_remote ;;; cret (inl prod).
Definition xenbus_thread_pass (prod : Z) : M xb Z := loopM xenbus_thread_round prod.

(** ** Request identifiers *)
Definition xenbus_id_release (id : Z) : M xb unit :=
  s <-- mget ;;
  ri <-- mopt (req_info s !! Z.to_nat id) "req_info" ;;
  massert (negb (reply_queue ri =? 0)) "BUG_ON(!req_info[id].reply_queue)" ;;;
  modify (set_reqs (<[Z.to_nat id := XReq 0 (for_queue ri)]> (req_info s)) (nr_live_reqs s - 1) (probe s)) ;;;
  n <-- gets nr_live_reqs ;;
  if n =? NR_REQS - 1 then modify (fun s => set_queues (queues s) (woken s ++ [req_wq]) s) else cret tt.

(** The search for a free identifier. *)
Definition probe_round (o_probe : Z) : M xb (Z + Z) :=
  s <-- mget ;;
  ri <-- mopt (req_info s !! Z.to_nat o_probe) "req_info" ;;
  if reply_queue ri =? 0 then cret (inr o_probe)
  else let o_probe := (o_probe + 1) mod NR_REQS in
       massert (negb (o_probe =? probe s)) "BUG_ON(o_probe == probe)" ;;; cret (inl o_probe).

(** [None]: all identifiers are in use, the caller sleeps. *)
Definition xenbus_id_allocate (rq fq : Z) : M xb (option Z) :=
  s <-- mget ;;
  if negb (nr_live_reqs s <? NR_REQS) then cret None
  else
  o_probe <-- loopM probe_round (probe s) ;;
  modify (fun s => set_reqs (<[Z.to_nat o_probe := XReq rq fq]> (req_info s))
    (nr_live_reqs s + 1) ((o_probe + 1) mod NR_REQS) s) ;;;
  cret (Some o_probe).

(** ** Watches *)
Definition xenbus_watch_release (w : xbwatch) : M xb xbwatch :=
  match xw_token w with
  | None => cret w
  | Some _ =>
      modify (fun s => set_watches (filter (fun v => xw_addr v <> xw_addr w) (watches s)) s) ;;;
      cret (XWatch (xw_addr w) None (xw_events w))
  end.

(** ** The request ring *)

(** One chunk: [prod], [req_off] and [total_off], and the requests from the
    current one on. *)
Definition xb_write_round (len : Z) (l : Z * Z * Z * list (list Z)) :
    M xb ((Z * Z * Z * list (list Z)) + (Z * Z * Z)) :=
  let '(prod, req_off, total_off, reqs) := l in
  if negb (total_off <? len) then cret (inr (prod, req_off, total_off)) else
  match reqs with
  | [] => mhalt "read past the requests"
  | cur :: rest =>
      let this_chunk := Z.min (zlen cur - req_off) (XENSTORE_RING_SIZE - MASK_XENSTORE_IDX prod) in
      s <-- mget ;;
      let b := buf s in
      ring <-- mopt (array_write (xi_req b) (MASK_XENSTORE_IDX prod)
                 (take (Z.to_nat this_chunk) (drop (Z.to_nat req_off) cur))) "ring" ;;
      modify (set_buf (XIf ring (xi_rsp b) (req_cons b) (req_prod b) (rsp_cons b) (rsp_prod b))) ;;;
      let prod := u32 (prod + this_chunk) in
      let req_off := req_off + this_chunk in
      let total_off := total_off + this_chunk in
      cret (inl (if req_off =? zlen cur then (prod, 0, total_off, rest)
                 else (prod, req_off, total_off, reqs)))
  end.

(** [drain] is where the other side has read to when the wait for space ends;
    the wait goes on unless that makes room. *)
Definition xenbus_xb_write (drain : xenstore_if -> Z) (type req_id trans_id : Z)
    (req : list (list Z)) : M xb unit :=
  let len0 := foldr (fun r n => zlen r + n) 0 req in
  let m := Sockmsg type req_id trans_id len0 in
  let len := len0 + sockmsg_size in
  massert (negb (XENSTORE_RING_SIZE <? len)) "BUG_ON(len > XENSTORE_RING_SIZE)" ;;;
  b <-- gets buf ;;
  (if XENSTORE_RING_SIZE <? u32 (req_prod b + len - req_cons b)
   then let cons := drain b in
        if u32 (req_prod b + len - cons) <=? XENSTORE_RING_SIZE
        then modify (set_buf (XIf (xi_req b) (xi_rsp b) cons (req_prod b) (rsp_cons b) (rsp_prod b)))
        else mnofuel
   else cret tt) ;;;
  prod <-- gets (fun s => req_prod (buf s)) ;;
  '(prod, req_off, total_off) <-- loopM (xb_write_round len) (prod, 0, 0, sockmsg_bytes m :: req) ;;
  massert (req_off =? 0) "BUG_ON(req_off != 0)" ;;;
  massert (total_off =? len) "BUG_ON(total_off != len)" ;;;
  b <-- gets buf ;;
  massert (negb (u32 (req_cons b + XENSTORE_RING_SIZE) <? prod))
    "BUG_ON(prod > xenstore_buf->req_cons + XENSTORE_RING_SIZE)" ;;;
  modify (set_buf (XIf (xi_req b) (xi_rsp b) (req_cons b) (u32 (req_prod b + len)) (rsp_cons b) (rsp_prod b))) ;;;
  notify_remote.

(** ** The round trip *)

(** xenbus_msg_reply from the wait for the reply on.  [None]: the caller would go
    on sleeping. *)
Definition await_reply (queue event_buf id : Z) : M xb (option (list Z)) :=
  event <-- remove_event queue ;;
  if event =? 0 then cret None else
  massert (event =? event_buf) "BUG_ON(event != &event_buf)" ;;;
  s <-- mget ;;
  ri <-- mopt (req_info s !! Z.to_nat id) "req_info" ;;
  ev <-- mopt (events s !! for_queue ri) "for_queue" ;;
  let rep := ev_reply ev in
  massert (sm_req_id (sockmsg_of (take (Z.to_nat sockmsg_size) rep)) =? id) "BUG_ON(rep->req_id != id)" ;;;
  xenbus_id_release id ;;;
  cret (Some rep).

(** [world] is what happens while the caller sleeps; [queue] and [event_buf] are
    the addresses of the two locals. *)
Definition xenbus_msg_reply (drain : xenstore_if -> Z) (world : M xb unit) (queue event_buf : Z)
    (type trans : Z) (io : list (list Z)) : M xb (option (list Z)) :=
  xenbus_event_queue_init queue ;;;
  modify (fun s => set_events (<[event_buf := XEvent [] [] 0 []]> (events s)) (next_addr s) s) ;;;
  id <-- xenbus_id_allocate queue event_buf ;;
  match id with
  | None => cret None
  | Some id =>
      xenbus_xb_write drain type id trans io ;;;
      world ;;;
      await_reply queue event_buf id
  end.
End Xenbus.
