(* ===== verification/XenbusThms.v ===== *)
(** * The XenStore client: the rings as byte streams *)
From S2P Require Import Prelude CString CText ByteRing Xenbus.

Section Xb.
Context `{W : XsWire}.
Abbreviation N := XENSTORE_RING_SIZE.

Lemma ring_pos : 0 < N.
Proof. destruct ring_size_pow2 as (k & Hk & ->). apply Z.pow_pos_nonneg; lia. Qed.
Lemma ring_bound : N <= 2 ^ 30.
Proof. destruct ring_size_pow2 as (k & Hk & ->). apply Z.pow_le_mono_r; lia. Qed.
Lemma ring_divides : (N | 2 ^ 32).
Proof. destruct ring_size_pow2 as (k & Hk & ->). apply pow2_divide_le. lia. Qed.

(** Wrapping an index at 32 bits does not move it in the ring. *)
Lemma u32_mod_ring x : u32 x mod N = x mod N.
Proof. apply u32_mod_divides; [apply ring_pos|apply ring_divides]. Qed.

(** ** The streams

    What the consumer of a ring has not read yet. *)
Record stream_ok (r : list Z) (cons prod : Z) : Prop := {
  so_len : zlen r = N;
  so_cons : 0 <= cons < 2 ^ 32;
  so_prod : 0 <= prod < 2 ^ 32;
  so_used : u32 (prod - cons) <= N
}.
Definition unread (r : list Z) (cons prod : Z) : list Z := window r N cons (u32 (prod - cons)).

Lemma unread_length r cons prod : stream_ok r cons prod -> zlen (unread r cons prod) = u32 (prod - cons).
Proof. intros H. unfold unread. apply window_length. pose proof (u32_range (prod - cons)). lia. Qed.

(** Appending at the producer's end, without wrapping, behind [k] bytes. *)
Lemma stream_write r cons k bs : zlen r = N -> 0 <= k -> k + zlen bs <= N ->
  (cons + k) mod N + zlen bs <= N ->
  exists r', array_write r ((cons + k) mod N) bs = Some r' /\ zlen r' = N /\
    window r' N cons (k + zlen bs) = window r N cons k ++ bs.
Proof. apply (ring_append N ring_pos). Qed.

(** ** The writer *)
Definition with_req (b : xenstore_if) (r : list Z) : xenstore_if :=
  XIf r (xi_rsp b) (req_cons b) (req_prod b) (rsp_cons b) (rsp_prod b).

Section Write.
Variables (s0 : xb) (all : list Z) (k0 : Z).
Abbreviation b0 := (buf s0).
Hypothesis Hok : stream_ok (xi_req b0) (req_cons b0) (req_prod b0).
Hypothesis Hk0 : k0 = u32 (req_prod b0 - req_cons b0).
Hypothesis Hfit : k0 + zlen all <= N.

Record write_inv (l : Z * Z * Z * list (list Z)) (s : xb) : Prop := {
  wi_prod : l.1.1.1 = u32 (req_cons b0 + k0 + l.1.2);
  wi_total : 0 <= l.1.2 <= zlen all;
  wi_rest : drop (Z.to_nat l.1.2) all = drop (Z.to_nat l.1.1.2) (concat l.2);
  wi_off : l.1.1.2 = 0 \/ exists cur rest, l.2 = cur :: rest /\ 0 < l.1.1.2 < zlen cur;
  wi_ring : exists r, s = set_buf (with_req b0 r) s0 /\ zlen r = N /\
    window r N (req_cons b0) (k0 + l.1.2) = window (xi_req b0) N (req_cons b0) k0 ++ take (Z.to_nat l.1.2) all
}.

Lemma wp_write_round l s : write_inv l s ->
  wp (xb_write_round (zlen all) l) (fun r s' => match r with
    | inl l' => write_inv l' s' /\ 0 <= (zlen all - l'.1.2) + zlen l'.2 < (zlen all - l.1.2) + zlen l.2
    | inr x => x = (u32 (req_cons b0 + k0 + zlen all), 0, zlen all) /\ exists r,
        s' = set_buf (with_req b0 r) s0 /\ zlen r = N /\
        window r N (req_cons b0) (k0 + zlen all) = window (xi_req b0) N (req_cons b0) k0 ++ all
    end) s.
Proof using Hok Hk0 Hfit.
  destruct l as [[[prod req_off] total_off] reqs]. intros [Hp Ht Hr Ho (r & -> & Hlen & Hw)]. cbn in *.
  pose proof ring_pos as HN. pose proof (u32_range (req_prod b0 - req_cons b0)) as Hk.
  destruct (Z.ltb_spec total_off (zlen all)) as [Hlt|Hge]; cbn [negb].
  - (* another chunk *)
    assert (Hnr : reqs <> []).
    { intros ->. cbn in Hr. rewrite drop_nil in Hr. apply (f_equal length) in Hr. rewrite length_drop in Hr. cbn in Hr. lia. }
    destruct reqs as [|cur rest]; [done|]. clear Hnr.
    assert (Hcur : 0 <= req_off <= zlen cur).
    { destruct Ho as [->|(? & ? & [= <- <-] & ?)]; lia. }
    assert (Em : MASK_XENSTORE_IDX prod = (req_cons b0 + (k0 + total_off)) mod N).
    { rewrite mask_is_mod by (rewrite Hp; apply u32_range). rewrite Hp, u32_mod_ring. f_equal. lia. }
    rewrite Em. set (o := (req_cons b0 + (k0 + total_off)) mod N).
    pose proof (Z.mod_pos_bound (req_cons b0 + (k0 + total_off)) N HN) as Hob. fold o in Hob.
    set (c := Z.min (zlen cur - req_off) (N - o)).
    assert (Hc : 0 <= c <= zlen cur - req_off /\ c <= N - o /\ (c = zlen cur - req_off \/ c = N - o)) by (unfold c; lia).
    set (bs := take (Z.to_nat c) (drop (Z.to_nat req_off) cur)).
    assert (Hbs : zlen bs = c) by (unfold bs; rewrite length_take, length_drop; lia).
    assert (Hall : zlen all - total_off = zlen cur - req_off + zlen (concat rest)).
    { apply (f_equal length) in Hr. rewrite !length_drop in Hr. cbn [concat] in Hr. rewrite length_app in Hr. lia. }
    destruct (stream_write r (req_cons b0) (k0 + total_off) bs) as (r' & E & Hl' & Hw'); [done|lia|lia|fold o; lia|].
    wp_step. wp_step. apply wp_bind. cbn [buf set_buf with_req xi_req]. eapply wp_opt; [exact E|].
    wp_steps.
    assert (Hsplit : drop (Z.to_nat total_off) all = bs ++ drop (Z.to_nat (req_off + c)) (concat (cur :: rest))).
    { rewrite Hr. replace (Z.to_nat (req_off + c)) with (Z.to_nat req_off + Z.to_nat c)%nat by lia.
      rewrite <- drop_drop. unfold bs. cbn [concat].
      assert (Ed : drop (Z.to_nat req_off) (cur ++ concat rest) = drop (Z.to_nat req_off) cur ++ concat rest)
        by (apply drop_app_le; lia).
      rewrite Ed. rewrite <- (take_drop (Z.to_nat c) (drop (Z.to_nat req_off) cur ++ concat rest)) at 1.
      f_equal. apply take_app_le. rewrite length_drop. lia. }
    assert (Hring : exists r0, set_buf (XIf r' (xi_rsp b0) (req_cons b0) (req_prod b0) (rsp_cons b0) (rsp_prod b0))
        (set_buf (with_req b0 r) s0) = set_buf (with_req b0 r0) s0 /\ zlen r0 = N /\
      window r0 N (req_cons b0) (k0 + (total_off + c)) =
        window (xi_req b0) N (req_cons b0) k0 ++ take (Z.to_nat (total_off + c)) all).
    { exists r'. split_and!; [done..|]. rewrite Hbs in Hw'.
      replace (k0 + (total_off + c)) with (k0 + total_off + c) by lia. rewrite Hw', Hw, <- app_assoc. f_equal.
      replace (Z.to_nat (total_off + c)) with (Z.to_nat total_off + Z.to_nat c)%nat by lia.
      rewrite <- (take_take_drop all). f_equal. rewrite Hsplit. rewrite take_app_le by lia.
      symmetry. apply take_ge. lia. }
    assert (Hdrop : drop (Z.to_nat (total_off + c)) all = drop (Z.to_nat (req_off + c)) (concat (cur :: rest))).
    { replace (Z.to_nat (total_off + c)) with (Z.to_nat total_off + Z.to_nat c)%nat by lia.
      rewrite <- drop_drop, Hsplit. apply drop_app_length'. lia. }
    assert (Hprod : u32 (prod + c) = u32 (req_cons b0 + k0 + (total_off + c))).
    { rewrite Hp. unfold u32. rewrite Zplus_mod_idemp_l. f_equal. lia. }
    destruct (Z.eqb_spec (req_off + c) (zlen cur)) as [Heq|Hneq]; (split; [|cbn; lia]).
    + split; cbn; [done|lia| |by left|done].
      rewrite Hdrop, Heq. cbn [concat]. rewrite drop_app_length' by lia. by rewrite drop_0.
    + split; cbn; [done|lia|done| |done]. right. exists cur, rest. split; [done|lia].
  - (* all written *)
    assert (total_off = zlen all) as -> by lia. apply wp_ret. split.
    + rewrite Hp. destruct Ho as [->|(cur & rest & -> & Hoff)]; [done|exfalso].
      rewrite drop_ge in Hr by lia. apply (f_equal length) in Hr. cbn in Hr.
      rewrite length_drop, length_app in Hr. lia.
    + exists r. split_and!; [done..|]. rewrite Hw. f_equal. apply take_ge. lia.
Qed.
End Write.

(** The whole write.  [cons] is where the consumer is when there is room. *)
Definition room_cons (drain : xenstore_if -> Z) (len : Z) (b : xenstore_if) : Z :=
  if N <? u32 (req_prod b + len - req_cons b) then drain b else req_cons b.
Definition frame_len (req : list (list Z)) : Z := foldr (fun r n => zlen r + n) 0 req.
Definition frame (type req_id tx : Z) (req : list (list Z)) : list Z :=
  sockmsg_bytes (Sockmsg type req_id tx (frame_len req)) ++ concat req.
Definition with_cons (b : xenstore_if) (c : Z) : xenstore_if :=
  XIf (xi_req b) (xi_rsp b) c (req_prod b) (rsp_cons b) (rsp_prod b).
Definition notify (s : xb) : xb :=
  Xb (buf s) (req_info s) (nr_live_reqs s) (probe s) (watches s) (queues s) (events s) (next_addr s)
     (notified s + 1) (woken s).

Lemma frame_len_concat req : frame_len req = zlen (concat req).
Proof. induction req as [|r req IH]; [done|]. cbn [concat]. rewrite length_app.
  change (frame_len (r :: req)) with (zlen r + frame_len req). lia.
Qed.
Lemma frame_length type id tx req : zlen (frame type id tx req) = frame_len req + sockmsg_size.
Proof. unfold frame. rewrite length_app, frame_len_concat. pose proof (sockmsg_bytes_length (Sockmsg type id tx (frame_len req))). rewrite frame_len_concat in *. lia. Qed.
Lemma used_more used len : 0 <= used <= N -> 0 <= len <= N -> used + len < 2 ^ 32.
Proof. pose proof ring_bound. change (2 ^ 30) with 1073741824 in *. lia. Qed.

(** The consumer's position after the wait leaves room for the frame. *)
Definition drained (drain : xenstore_if -> Z) (len : Z) (b : xenstore_if) : Prop :=
  let c := room_cons drain len b in
  stream_ok (xi_req b) c (req_prod b) /\ u32 (req_prod b - c) + len <= N.

(** The consistency check at the end compares two wrapped indices. *)
Definition check_trips (cons used len : Z) : bool := (2 ^ 32 <=? cons + N) && (cons + used + len <? 2 ^ 32).

Lemma check_compare cons used len : 0 <= cons < 2 ^ 32 -> 0 <= used -> 0 <= len -> used + len <= N ->
  (u32 (cons + N) <? u32 (cons + used + len)) = check_trips cons used len.
Proof.
  intros Hc Hu Hl Hle. pose proof ring_pos. pose proof ring_bound. unfold check_trips, u32.
  change (2 ^ 30) with 1073741824 in *. change (2 ^ 32) with 4294967296 in *.
  assert (Hm : forall x, 0 <= x < 2 * 4294967296 -> x mod 4294967296 = if x <? 4294967296 then x else x - 4294967296).
  { intros x Hx. destruct (Z.ltb_spec x 4294967296); [by apply Z.mod_small; lia|].
    symmetry. apply (Z.mod_unique _ _ 1); lia. }
  rewrite !Hm by lia. destruct (Z.ltb_spec (cons + N) 4294967296), (Z.ltb_spec (cons + used + len) 4294967296); lia.
Qed.

Lemma xb_write_run drain type id tx req s :
  stream_ok (xi_req (buf s)) (req_cons (buf s)) (req_prod (buf s)) ->
  frame_len req + sockmsg_size <= N -> zlen req < 2 ^ 31 ->
  drained drain (frame_len req + sockmsg_size) (buf s) ->
  let c := room_cons drain (frame_len req + sockmsg_size) (buf s) in
  let used := u32 (req_prod (buf s) - c) in
  exists r, zlen r = N /\
    window r N c (used + (frame_len req + sockmsg_size)) =
      window (xi_req (buf s)) N c used ++ frame type id tx req /\
    xenbus_xb_write drain type id tx req s =
      if check_trips c used (frame_len req + sockmsg_size)
      then Halted "BUG_ON(prod > xenstore_buf->req_cons + XENSTORE_RING_SIZE)"
      else Done (tt, notify (set_buf (XIf r (xi_rsp (buf s)) c (u32 (req_prod (buf s) + (frame_len req + sockmsg_size)))
             (rsp_cons (buf s)) (rsp_prod (buf s))) s)).
Proof.
  intros Hok Hlen Hreq Hdr c used. set (len := frame_len req + sockmsg_size) in *.
  assert (Hlen0 : 0 <= frame_len req) by (rewrite frame_len_concat; lia).
  pose proof sockmsg_size_pos as Hsz. pose proof ring_bound as HB.
  destruct Hdr as [Hok' Hroom]. fold c in Hok', Hroom. fold used in Hroom.
  set (s1 := set_buf (with_cons (buf s) c) s).
  assert (Hu0 : 0 <= used) by apply u32_range.
  (* the wait *)
  assert (Hwait : forall {A} (k : M xb A), ((if N <? u32 (req_prod (buf s) + len - req_cons (buf s))
     then let cons := drain (buf s) in
        if u32 (req_prod (buf s) + len - cons) <=? N
        then modify (set_buf (XIf (xi_req (buf s)) (xi_rsp (buf s)) cons (req_prod (buf s)) (rsp_cons (buf s)) (rsp_prod (buf s))))
        else mnofuel
     else cret tt) ;;; k) s = k s1).
  { intros A k. unfold cbind, s1, c, room_cons, with_cons.
    destruct (N <? u32 (req_prod (buf s) + len - req_cons (buf s))) eqn:Hw.
    - assert (Ed : c = drain (buf s)) by (unfold c, room_cons; by rewrite Hw).
      assert (E : u32 (req_prod (buf s) + len - drain (buf s)) = used + len).
      { rewrite <- Ed. unfold used. replace (req_prod (buf s) + len - c) with (req_prod (buf s) - c + len) by lia.
        unfold u32. rewrite <- Zplus_mod_idemp_l. apply Z.mod_small. fold (u32 (req_prod (buf s) - c)). fold used.
        pose proof (used_more used len). lia. }
      cbn zeta. rewrite E. rewrite (proj2 (Z.leb_le _ _)) by lia. done.
    - by destruct s as [[]]. }
  (* the chunks *)
  assert (Hall : zlen (frame type id tx req) = len) by apply frame_length.
  destruct (wp_run (loopM (xb_write_round len) (req_prod (buf s1), 0, 0, sockmsg_bytes (Sockmsg type id tx (frame_len req)) :: req))
    (fun x s' => x = (u32 (c + used + len), 0, len) /\ exists r,
        s' = set_buf (with_req (buf s1) r) s1 /\ zlen r = N /\
        window r N c (used + len) = window (xi_req (buf s)) N c used ++ frame type id tx req) s1)
    as (x & s' & Erun & -> & r & -> & Hr & Hw).
  { rewrite <- Hall. eapply wp_loop with (I := write_inv s1 (frame type id tx req) used)
      (meas := fun l _ => zlen (frame type id tx req) - l.1.2 + zlen l.2).
    - intros l s' Hl. destruct (wi_total _ _ _ _ _ Hl). split; [lia|].
      eapply wp_mono; [apply (wp_write_round s1 (frame type id tx req) used); [done|done|lia|done]|].
      intros [l'|y] s'' Hq; exact Hq.
    - split; cbn.
      + fold used. unfold used. rewrite Z.add_0_r. unfold u32. rewrite Zplus_mod_idemp_r.
        replace (c + (req_prod (buf s) - c)) with (req_prod (buf s)) by lia.
        symmetry. apply Z.mod_small. apply Hok'.
      + lia.
      + unfold frame. done.
      + by left.
      + exists (xi_req (buf s)). split_and!; [by destruct s as [[]]|apply Hok'|].
        by rewrite Z.add_0_r, app_nil_r.
    - cbn [snd fst length]. rewrite Hall. change (2 ^ 30) with 1073741824 in *. change (2 ^ 31) with 2147483648 in *. lia. }
  exists r. split_and!; [done..|].
  unfold xenbus_xb_write. fold (frame_len req). fold len.
  unfold cbind at 1. unfold massert at 1. rewrite (proj2 (Z.ltb_ge N len)) by lia. cbn [negb cret].
  unfold cbind at 1. cbn [gets]. rewrite Hwait.
  unfold cbind at 1. cbn [gets]. unfold cbind at 1. rewrite Erun. rewrite !Z.eqb_refl. cbn.
  rewrite check_compare by (try apply Hok'; lia).
  destruct (check_trips c used len); reflexivity.
Qed.

(** ** The reader *)
Lemma wp_memcpy_from_ring r a len Q s : zlen r = N -> 0 <= a -> 0 <= len <= N ->
  Q (window r N a len) s -> wp (memcpy_from_ring r (MASK_XENSTORE_IDX a) len) Q s.
Proof.
  intros Hr Ha Hl HQ. pose proof ring_pos as HN. rewrite mask_is_mod by done. unfold memcpy_from_ring.
  pose proof (Z.mod_pos_bound a N HN) as Hm.
  set (c1 := Z.min len (N - a mod N)). apply wp_bind.
  eapply wp_opt; [apply array_read_window; [done..|lia|lia]|]. apply wp_bind.
  assert (Hd : 0 <= len - c1 /\ (len - c1 = 0 \/ (a + c1) mod N = 0)).
  { split; [lia|]. destruct (Z.le_gt_cases len (N - a mod N)); [left; lia|right].
    replace c1 with (N - a mod N) by lia.
    replace (a + (N - a mod N)) with ((a / N + 1) * N) by (pose proof (Z.div_mod a N); lia).
    apply Z.mod_mul. lia. }
  assert (E : array_read r 0 (len - c1) = Some (window r N (a + c1) (len - c1))).
  { destruct Hd as [Hd0 [->|Hz]].
    - unfold array_read. rewrite (proj2 (Z.leb_le (0 + 0) (zlen r))) by lia. done.
    - rewrite <- Hz. apply array_read_window; [done..|]. lia. }
  eapply wp_opt; [exact E|]. apply wp_ret.
  replace len with (c1 + (len - c1)) in HQ by lia. rewrite window_app in HQ by lia. done.
Qed.

(** A response frame: a header with the payload it announces. *)
Definition fr (f : xsd_sockmsg * list Z) : list Z := sockmsg_bytes f.1 ++ f.2.
Definition fr_ok (f : xsd_sockmsg * list Z) : Prop := sockmsg_wf f.1 /\ sm_len f.1 = zlen f.2.

Lemma fr_length f : fr_ok f -> zlen (fr f) = sm_len f.1 + sockmsg_size.
Proof. intros [_ E]. unfold fr. rewrite length_app. pose proof (sockmsg_bytes_length f.1). lia. Qed.

Definition rsp_stream (s : xb) : list Z := unread (xi_rsp (buf s)) (rsp_cons (buf s)) (rsp_prod (buf s)).
Definition rsp_ok (s : xb) : Prop := stream_ok (xi_rsp (buf s)) (rsp_cons (buf s)) (rsp_prod (buf s)).

(** Consuming [n] bytes. *)
Definition advance (n : Z) (s : xb) : xb :=
  set_buf (XIf (xi_req (buf s)) (xi_rsp (buf s)) (req_cons (buf s)) (req_prod (buf s))
    (u32 (rsp_cons (buf s) + n)) (rsp_prod (buf s))) s.

Lemma unread_split r cons prod n : stream_ok r cons prod -> 0 <= n <= u32 (prod - cons) ->
  unread r cons prod = window r N cons n ++ unread r (u32 (cons + n)) prod /\
  stream_ok r (u32 (cons + n)) prod.
Proof.
  intros [Hl Hc Hp Hu] Hn. pose proof ring_pos. pose proof ring_bound.
  assert (E : u32 (prod - u32 (cons + n)) = u32 (prod - cons) - n).
  { unfold u32 in *. rewrite Zminus_mod_idemp_r. replace (prod - (cons + n)) with (prod - cons - n) by lia.
    rewrite <- Zminus_mod_idemp_l. apply Z.mod_small. pose proof (Z.mod_pos_bound (prod - cons) (2 ^ 32)). lia. }
  split.
  - unfold unread. rewrite E. replace (u32 (prod - cons)) with (n + (u32 (prod - cons) - n)) at 1 by lia.
    rewrite window_app by lia. f_equal. apply window_mod; [done|]. by rewrite u32_mod_ring.
  - split; [done|apply u32_range|done|]. rewrite E. lia.
Qed.

(** Reading the start of the stream. *)
Lemma stream_prefix s p rest : rsp_ok s -> rsp_stream s = p ++ rest ->
  window (xi_rsp (buf s)) N (rsp_cons (buf s)) (zlen p) = p /\
  rsp_stream (advance (zlen p) s) = rest /\ rsp_ok (advance (zlen p) s) /\
  zlen p + zlen rest = u32 (rsp_prod (buf s) - rsp_cons (buf s)).
Proof.
  intros Hok E. pose proof (unread_length _ _ _ Hok) as Hl. fold (rsp_stream s) in Hl.
  rewrite E, length_app in Hl.
  destruct (unread_split _ _ _ (zlen p) Hok ltac:(lia)) as [E' Hok'].
  fold (rsp_stream s) in E'. rewrite E in E'.
  apply app_inj_1 in E'; [|pose proof (window_length N (xi_rsp (buf s)) (rsp_cons (buf s)) (zlen p)); lia].
  destruct E' as [E1 E2]. split_and!; [done|done|done|lia].
Qed.
End Xb.
