(* ===== verification/XenbusReader.v ===== *)
(** * The XenStore client: the reading thread and the identifiers *)
From S2P Require Import Prelude CString CText ByteRing Xenbus XenbusThms.

Section Reader.
Context `{W : XsWire}.
Abbreviation N := XENSTORE_RING_SIZE.

(** What a response frame means, with the ring already read. *)
Definition deliver (f : xsd_sockmsg * list Z) : M xb unit :=
  if sm_type f.1 =? XS_WATCH_EVENT then
    s <-- mget ;;
    '(path, rest) <-- mopt (cstring f.2) "path" ;;
    '(token, _) <-- mopt (cstring rest) "token" ;;
    w <-- find_watch token (watches s) ;;
    match w with
    | Some w =>
        if xw_events w =? 0 then cret tt else
        modify (fun t => set_events (<[next_addr s := XEvent path token (xw_addr w) []]> (events t)) (next_addr t + 1) t) ;;;
        queue_event (xw_events w) (next_addr s)
    | None => cret tt
    end
  else
    s <-- mget ;;
    ri <-- mopt (req_info s !! Z.to_nat (sm_req_id f.1)) "req_info" ;;
    ev <-- mopt (events s !! for_queue ri) "for_queue" ;;
    modify (fun t => set_events
      (<[for_queue ri := XEvent (ev_path ev) (ev_token ev) (ev_watch ev) (fr f)]> (events t)) (next_addr t) t) ;;;
    queue_event (reply_queue ri) (for_queue ri).

(** Nothing but the module's own data changes. *)
Lemma find_watch_state token ws s r s' : find_watch token ws s = Done (r, s') -> s' = s.
Proof.
  revert s. induction ws as [|w ws IH]; intros s; cbn; [by intros [= _ <-]|].
  unfold cbind, mopt. destruct (xw_token w); [|done]. cbn. unfold lift_res.
  destruct (strcmp l token); [|done|done]. destruct (a =? 0); [by intros [= _ <-]|apply IH].
Qed.

Lemma queue_event_buf q e s u s' : queue_event q e s = Done (u, s') -> buf s' = buf s.
Proof.
  unfold queue_event, cbind, mget, mopt. destruct (queues s !! q); [|done]. cbn. by intros [= _ <-].
Qed.

Lemma deliver_buf f s u s' : deliver f s = Done (u, s') -> buf s' = buf s.
Proof.
  unfold deliver. destruct (sm_type f.1 =? XS_WATCH_EVENT); unfold cbind at 1; cbn [mget].
  - unfold mopt. destruct (cstring f.2) as [[path rest]|]; [|done]. unfold cbind at 1. cbn [cret].
    destruct (cstring rest) as [[token ?]|]; [|done]. unfold cbind at 1. cbn [cret].
    unfold cbind at 1. destruct (find_watch token (watches s) s) as [[w t]| |] eqn:E; [|done|done].
    apply find_watch_state in E as ->. destruct w as [w|]; [|by intros [= _ <-]].
    destruct (xw_events w =? 0); [by intros [= _ <-]|]. unfold cbind, modify. intros H. by apply queue_event_buf in H.
  - unfold cbind, mopt, modify. destruct (req_info s !! _) as [ri|]; [|done]. cbn -[queue_event].
    destruct (events s !! for_queue ri) as [ev|]; [|done]. cbn -[queue_event]. intros H. by apply queue_event_buf in H.
Qed.

(** One round on a complete frame delivers it and consumes it. *)
Lemma round_frame s f rest prod Q : rsp_ok s -> fr_ok f -> rsp_stream s = fr f ++ rest ->
  wp (deliver f ;;; notify_remote ;;; cret (inl (rsp_prod (buf s)))) Q (advance (zlen (fr f)) s) ->
  wp (xenbus_thread_round prod) Q s.
Proof.
  intros Hok Hf E Hw. pose proof (stream_prefix s (fr f) rest Hok E) as (Hwin & _ & _ & Hlen).
  pose proof sockmsg_size_pos as Hsz. pose proof Hf as [Hwf Hsm]. rewrite fr_length in Hlen, Hwin, Hw by done.
  pose proof (so_used _ _ _ Hok) as Hu. pose proof (so_cons _ _ _ Hok) as Hc. pose proof (so_len _ _ _ Hok) as Hrl.
  assert (Hpre : window (xi_rsp (buf s)) N (rsp_cons (buf s)) sockmsg_size = sockmsg_bytes f.1 /\
                 window (xi_rsp (buf s)) N (rsp_cons (buf s) + sockmsg_size) (sm_len f.1) = f.2).
  { rewrite Z.add_comm, window_app in Hwin by lia. unfold fr in Hwin. apply app_inj_1 in Hwin; [done|].
    pose proof (window_length N (xi_rsp (buf s)) (rsp_cons (buf s)) sockmsg_size). pose proof (sockmsg_bytes_length f.1). lia. }
  destruct Hpre as [Hhdr Hpay].
  unfold xenbus_thread_round. wp_steps. rewrite (proj2 (Z.ltb_ge _ sockmsg_size)) by lia.
  apply wp_bind, wp_memcpy_from_ring; [done|lia|lia|]. rewrite Hhdr, sockmsg_roundtrip by done. cbv zeta.
  rewrite (proj2 (Z.ltb_ge _ (sockmsg_size + sm_len f.1))) by lia.
  apply wp_bind_inv in Hw. apply wp_bind. unfold deliver in Hw.
  destruct (sm_type f.1 =? XS_WATCH_EVENT).
  - unfold watch_event. wp_steps. apply wp_memcpy_from_ring; [done|lia|lia|]. rewrite Hpay.
    apply wp_bind_inv in Hw. unfold mget, wp at 1 in Hw. cbv beta iota in Hw.
    apply wp_bind_inv in Hw. apply wp_bind.
    destruct (cstring f.2) as [[path rest']|]; [|done]. unfold mopt in *. apply wp_ret.
    unfold wp at 1, cret in Hw. cbv beta iota in Hw. apply wp_bind_inv in Hw. apply wp_bind.
    destruct (cstring rest') as [[token rest2]|]; [|done]. unfold mopt in *. apply wp_ret.
    unfold wp at 1, cret in Hw. cbv beta iota in Hw. wp_steps. apply wp_bind_inv in Hw. exact Hw.
  - unfold reply_event. wp_steps. apply wp_bind_inv in Hw. unfold mget, wp at 1 in Hw. cbv beta iota in Hw.
    apply wp_bind_inv in Hw. cbn [advance set_buf req_info events] in Hw.
    destruct (req_info s !! _) as [ri|]; [|done]. unfold mopt in *. apply wp_ret.
    unfold wp at 1, cret in Hw. cbv beta iota in Hw. apply wp_bind_inv in Hw. apply wp_bind.
    destruct (events s !! for_queue ri) as [ev|]; [|done]. unfold mopt in *. apply wp_ret.
    unfold wp at 1, cret in Hw. cbv beta iota in Hw. wp_steps.
    apply wp_memcpy_from_ring; [done|lia|lia|]. rewrite Hwin. wp_steps. exact Hw.
Qed.

(** The start of a frame whose rest has not arrived. *)
Definition incomplete (t : list Z) : Prop :=
  zlen t < sockmsg_size \/ zlen t < sockmsg_size + sm_len (sockmsg_of (take (Z.to_nat sockmsg_size) t)).

Lemma round_incomplete s prod : rsp_ok s -> incomplete (rsp_stream s) ->
  xenbus_thread_round prod s = Done (inr (rsp_prod (buf s)), notify s).
Proof.
  intros Hok Ht. pose proof (unread_length _ _ _ Hok) as Hl. fold (rsp_stream s) in Hl.
  pose proof sockmsg_size_pos as Hsz. pose proof (so_used _ _ _ Hok) as Hu. pose proof (so_cons _ _ _ Hok) as Hc.
  unfold xenbus_thread_round, cbind at 1, gets. cbv beta iota zeta.
  destruct (Z.ltb_spec (u32 (rsp_prod (buf s) - rsp_cons (buf s))) sockmsg_size) as [|Hge]; [done|].
  destruct Ht as [Ht|Ht]; [lia|].
  set (k := fun hdr : list Z => _).
  destruct (wp_run (memcpy_from_ring (xi_rsp (buf s)) (MASK_XENSTORE_IDX (rsp_cons (buf s))) sockmsg_size)
    (fun d s' => d = take (Z.to_nat sockmsg_size) (rsp_stream s) /\ s' = s) s) as (d & s' & E & -> & ->).
  { apply wp_memcpy_from_ring; [apply Hok|lia|lia|]. split; [|done].
    assert (Hle : 0 <= sockmsg_size <= u32 (rsp_prod (buf s) - rsp_cons (buf s))) by lia.
    destruct (unread_split _ _ _ _ Hok Hle) as [E _]. fold (rsp_stream s) in E. rewrite E.
    assert (Hwl : zlen (window (xi_rsp (buf s)) N (rsp_cons (buf s)) sockmsg_size) = sockmsg_size)
      by (apply window_length; lia).
    rewrite take_app_le by lia. symmetry. apply take_ge. lia. }
  unfold cbind. rewrite E. subst k. cbv beta zeta. rewrite (proj2 (Z.ltb_lt _ (sockmsg_size + _))) by lia. done.
Qed.

(** The meaning of a pass: every complete frame is consumed and delivered in
    order, then the other side is notified. *)
Definition pass_spec (fs : list (xsd_sockmsg * list Z)) : M xb Z :=
  mfor (fun f => modify (advance (zlen (fr f))) ;;; deliver f ;;; notify_remote) fs ;;;
  notify_remote ;;; gets (fun s => rsp_prod (buf s)).

Lemma pass_refines fs t s prod Q : rsp_ok s -> Forall fr_ok fs -> incomplete t ->
  rsp_stream s = concat (map fr fs) ++ t -> zlen fs < 2 ^ 64 - 1 ->
  wp (pass_spec fs) Q s -> wp (xenbus_thread_pass prod) Q s.
Proof.
  intros Hok Hfs Ht Hst Hl Hw. unfold xenbus_thread_pass.
  apply (wp_loop_variant _ (fun _ s k => exists fs, rsp_ok s /\ Forall fr_ok fs /\
    rsp_stream s = concat (map fr fs) ++ t /\ wp (pass_spec fs) Q s /\ k = zlen fs)) with (k := zlen fs);
    [|by exists fs|lia].
  clear fs s prod Hok Hfs Hst Hl Hw. intros prod s k (fs & Hok & Hfs & Hst & Hw & ->). split; [lia|].
  destruct Hfs as [|f fs Hf Hfs].
  - cbn in Hst. unfold wp at 1. rewrite (round_incomplete s prod Hok) by (by rewrite Hst). exact Hw.
  - cbn [map concat] in Hst. rewrite <- app_assoc in Hst.
    destruct (stream_prefix s (fr f) _ Hok Hst) as (_ & Hst' & Hok' & _).
    eapply round_frame; [done..|]. unfold pass_spec in Hw. cbn [mfor] in Hw.
    do 3 apply wp_bind_inv in Hw. unfold modify, wp at 1 in Hw. cbv beta iota in Hw.
    apply wp_bind_inv in Hw. apply wp_bind.
    destruct (wp_run _ _ _ Hw) as ([] & s2 & E & Hw2). apply (run_wp _ _ _ _ _ E).
    unfold notify_remote, wp at 1, modify in Hw2. cbv beta iota in Hw2. apply wp_bind, wp_modify, wp_ret.
    exists (zlen fs). split; [|cbn [length]; lia]. exists fs. apply deliver_buf in E.
    split_and!; [unfold rsp_ok in *; cbn [buf]; by rewrite E|done| | |done].
    + unfold rsp_stream in *. cbn [buf]. by rewrite E.
    + unfold pass_spec. apply wp_bind. exact Hw2.
Qed.

(** ** Identifiers *)
Fixpoint live (ri : list xbreq) : Z :=
  match ri with [] => 0 | r :: ri => (if reply_queue r =? 0 then 0 else 1) + live ri end.

Lemma live_bounds ri : 0 <= live ri <= zlen ri.
Proof. induction ri as [|r ri IH]; cbn [live length]; [lia|]. destruct (reply_queue r =? 0); lia. Qed.

Lemma live_insert ri i r r' : ri !! i = Some r ->
  live (<[i := r']> ri) = live ri + (if reply_queue r' =? 0 then 0 else 1) - (if reply_queue r =? 0 then 0 else 1).
Proof.
  revert i. induction ri as [|x ri IH]; intros [|i] H; cbn in H; [done|done| |].
  - simplify_eq. cbn [insert list_insert live]. lia.
  - change (<[S i := r']> (x :: ri)) with (x :: <[i := r']> ri). cbn [live]. rewrite (IH i H). lia.
Qed.

(** Fewer live requests than entries: some entry is free. *)
Lemma live_free ri : live ri < zlen ri -> exists i r, ri !! i = Some r /\ reply_queue r = 0.
Proof.
  induction ri as [|x ri IH]; cbn [live length]; [lia|]. intros H.
  destruct (Z.eqb_spec (reply_queue x) 0) as [E|Hne]; [by exists 0%nat, x|].
  destruct IH as (i & r & Hi & Hr); [lia|]. by exists (S i), r.
Qed.

Record ids_ok (s : xb) : Prop := {
  id_len : zlen (req_info s) = NR_REQS;
  id_count : nr_live_reqs s = live (req_info s);
  id_probe : 0 <= probe s < NR_REQS
}.

Definition in_use (s : xb) (id : Z) : Prop :=
  exists r, req_info s !! Z.to_nat id = Some r /\ reply_queue r <> 0.

Lemma wp_probe s : ids_ok s -> nr_live_reqs s < NR_REQS ->
  wp (loopM probe_round (probe s)) (fun o s' => s' = s /\ 0 <= o < NR_REQS /\
    exists r, req_info s !! Z.to_nat o = Some r /\ reply_queue r = 0) s.
Proof.
  intros [Hl Hc Hp] Hlt. unfold NR_REQS in *.
  destruct (live_free (req_info s)) as (i & r0 & Hi & Hr0); [lia|].
  apply lookup_lt_Some in Hi as Hil.
  apply (wp_loop_variant _ (fun o s' k => s' = s /\ exists d, o = (probe s + d) mod 32 /\ 0 <= d < 32 /\ k = 32 - d /\
    (forall j, 0 <= j < d -> forall r, req_info s !! Z.to_nat ((probe s + j) mod 32) = Some r -> reply_queue r <> 0)))
    with (k := 32); [| |lia].
  - intros o s' k (-> & d & -> & Hd & -> & Hused). split; [lia|].
    pose proof (Z.mod_pos_bound (probe s + d) 32 ltac:(lia)) as Hm.
    destruct (lookup_lt_is_Some_2 (req_info s) (Z.to_nat ((probe s + d) mod 32))) as [r Hr]; [lia|].
    unfold probe_round, NR_REQS. wp_steps. eapply wp_opt; [exact Hr|].
    destruct (Z.eqb_spec (reply_queue r) 0) as [E|Hne]; [apply wp_ret; split_and!; [done|lia|lia|by exists r]|].
    assert (Hused' : forall j, 0 <= j < d + 1 -> forall r, req_info s !! Z.to_nat ((probe s + j) mod 32) = Some r -> reply_queue r <> 0).
    { intros j Hj r' Hr'. destruct (Z.eq_dec j d) as [->|]; [congruence|]. apply (Hused j); [lia|done]. }
    assert (Enext : ((probe s + d) mod 32 + 1) mod 32 = (probe s + (d + 1)) mod 32).
    { rewrite Zplus_mod_idemp_l. f_equal. lia. }
    assert (Hd' : d + 1 < 32).
    { destruct (Z.lt_ge_cases (d + 1) 32); [done|exfalso].
      apply (Hused' ((Z.of_nat i - probe s) mod 32) ltac:(pose proof (Z.mod_pos_bound (Z.of_nat i - probe s) 32); lia) r0); [|done].
      rewrite Zplus_mod_idemp_r. replace (probe s + (Z.of_nat i - probe s)) with (Z.of_nat i) by lia.
      rewrite Z.mod_small by lia. by rewrite Nat2Z.id. }
    rewrite Enext. apply wp_bind, wp_assert.
    { rewrite negb_true_iff. apply Z.eqb_neq. intros E.
      assert (Hmod : (d + 1) mod 32 = 0).
      { replace (d + 1) with (probe s + (d + 1) - probe s) by lia. rewrite Zminus_mod, E, (Z.mod_small (probe s)) by lia.
        by rewrite Z.sub_diag. }
      rewrite Z.mod_small in Hmod by lia. lia. }
    apply wp_ret. exists (32 - (d + 1)). split; [|lia]. split; [done|]. exists (d + 1). split_and!; try done; lia.
  - split; [done|]. exists 0. rewrite Z.add_0_r, Z.mod_small by lia. split_and!; try lia; done.
Qed.

Lemma wp_id_allocate s rq fq : ids_ok s -> rq <> 0 -> nr_live_reqs s < NR_REQS ->
  wp (xenbus_id_allocate rq fq) (fun o s' => exists id r, o = Some id /\ 0 <= id < NR_REQS /\
    req_info s !! Z.to_nat id = Some r /\ reply_queue r = 0 /\ ids_ok s' /\
    s' = set_reqs (<[Z.to_nat id := XReq rq fq]> (req_info s)) (nr_live_reqs s + 1) ((id + 1) mod NR_REQS) s) s.
Proof.
  intros Hids Hrq Hlt. unfold xenbus_id_allocate. wp_steps. rewrite (proj2 (Z.ltb_lt _ _) Hlt). cbn [negb].
  apply wp_bind. eapply wp_mono; [by apply wp_probe|].
  intros id s' (-> & Hid & r & Hr & H0). wp_steps. exists id, r. split_and!; try done; [lia..|].
  destruct Hids as [Hl Hc Hp]. split; cbn.
  - by rewrite length_insert.
  - rewrite (live_insert _ _ r) by done. cbn. rewrite H0, (proj2 (Z.eqb_neq rq 0) Hrq). cbn. lia.
  - unfold NR_REQS. apply Z.mod_pos_bound. lia.
Qed.

Lemma wp_id_release s id r : ids_ok s -> req_info s !! Z.to_nat id = Some r -> reply_queue r <> 0 ->
  wp (xenbus_id_release id) (fun _ s' => ids_ok s' /\
    exists wk, s' = set_queues (queues s) wk
      (set_reqs (<[Z.to_nat id := XReq 0 (for_queue r)]> (req_info s)) (nr_live_reqs s - 1) (probe s) s)) s.
Proof.
  intros [Hl Hc Hp] Hr Hne. unfold xenbus_id_release. wp_steps. eapply wp_opt; [exact Hr|].
  apply wp_bind, wp_assert; [by rewrite (proj2 (Z.eqb_neq _ 0) Hne)|]. wp_steps. cbn [nr_live_reqs set_reqs].
  assert (Hok : ids_ok (set_reqs (<[Z.to_nat id := XReq 0 (for_queue r)]> (req_info s)) (nr_live_reqs s - 1) (probe s) s)).
  { split; cbn; [by rewrite length_insert| |done].
    rewrite (live_insert _ _ r) by done. cbn. rewrite (proj2 (Z.eqb_neq _ 0) Hne). lia. }
  destruct (nr_live_reqs s - 1 =? NR_REQS - 1); wp_steps.
  - split; [by destruct Hok|]. eexists. reflexivity.
  - split; [done|]. by exists (woken s).
Qed.

(** ** Replies *)

(** Outstanding requests have their own queue and event, which exist. *)
Record reqs_ok (s : xb) : Prop := {
  rq_queue : forall i r, req_info s !! i = Some r -> reply_queue r <> 0 ->
    is_Some (queues s !! reply_queue r) /\ is_Some (events s !! for_queue r);
  rq_inj : forall i j r r', req_info s !! i = Some r -> req_info s !! j = Some r' ->
    reply_queue r <> 0 -> reply_queue r' <> 0 ->
    reply_queue r = reply_queue r' \/ for_queue r = for_queue r' -> i = j
}.

(** A frame that answers an outstanding request. *)
Definition answers (s : xb) (f : xsd_sockmsg * list Z) : Prop :=
  fr_ok f /\ sm_type f.1 <> XS_WATCH_EVENT /\ in_use s (sm_req_id f.1).
Definition rid (f : xsd_sockmsg * list Z) : nat := Z.to_nat (sm_req_id f.1).

(** What delivering the replies [fs] does: each one reaches the queue of its own
    request; nothing else changes. *)
Record delivered (s : xb) (fs : list (xsd_sockmsg * list Z)) (s' : xb) : Prop := {
  de_req : req_info s' = req_info s;
  de_live : nr_live_reqs s' = nr_live_reqs s;
  de_probe : probe s' = probe s;
  de_watches : watches s' = watches s;
  de_next : next_addr s' = next_addr s;
  de_queue : forall q, (forall f r, f ∈ fs -> req_info s !! rid f = Some r -> reply_queue r <> q) ->
    queues s' !! q = queues s !! q;
  de_event : forall e, (forall f r, f ∈ fs -> req_info s !! rid f = Some r -> for_queue r <> e) ->
    events s' !! e = events s !! e;
  de_reply : forall f r, f ∈ fs -> req_info s !! rid f = Some r ->
    (exists l, queues s !! reply_queue r = Some l /\ queues s' !! reply_queue r = Some (l ++ [for_queue r])) /\
    exists ev, events s' !! for_queue r = Some ev /\ ev_reply ev = fr f
}.

Lemma deliver_reply s f r : reqs_ok s -> answers s f -> req_info s !! rid f = Some r ->
  wp (deliver f) (fun _ s' => delivered s [f] s' /\ reqs_ok s' /\ buf s' = buf s) s.
Proof.
  intros [Hq Hj] (Hf & Hty & r' & Hr' & Hne) Hr. unfold rid in Hr. rewrite Hr in Hr'. simplify_eq.
  destruct (Hq _ _ Hr Hne) as [[l Hl] [ev Hev]].
  unfold deliver. rewrite (proj2 (Z.eqb_neq _ _) Hty). unfold queue_event. wp_steps.
  eapply wp_opt; [exact Hr|]. wp_steps. eapply wp_opt; [exact Hev|]. wp_steps. cbn [queues set_events].
  eapply wp_opt; [exact Hl|]. wp_steps. split_and!; [|split|done].
  - split; cbn; try done.
    + intros q Hn. rewrite lookup_insert_ne; [done|]. eapply Hn; [by left|exact Hr].
    + intros e Hn. rewrite lookup_insert_ne; [done|]. eapply Hn; [by left|exact Hr].
    + intros f' r2 ->%list_elem_of_singleton Hr2. unfold rid in Hr2. rewrite Hr in Hr2. simplify_eq.
      rewrite !lookup_insert_eq. split; [by exists l|]. eexists. split; [reflexivity|done].
  - cbn. intros i r2 Hi Hne'. rewrite !lookup_insert_is_Some'. split; right; by apply (Hq i).
  - cbn. done.
Qed.

Lemma rid_inj s f f' r r' : reqs_ok s -> answers s f -> answers s f' ->
  req_info s !! rid f = Some r -> req_info s !! rid f' = Some r' ->
  reply_queue r = reply_queue r' \/ for_queue r = for_queue r' -> rid f = rid f'.
Proof.
  intros [_ Hj] (_ & _ & x & Hx & Hn) (_ & _ & x' & Hx' & Hn') Hr Hr'.
  unfold rid in *. simplify_eq. by apply Hj.
Qed.

Lemma delivered_cons s f fs s1 s2 : reqs_ok s -> answers s f -> Forall (answers s) fs ->
  rid f ∉ map rid fs -> delivered s [f] s1 -> delivered s1 fs s2 -> delivered s (f :: fs) s2.
Proof.
  intros Hok Hf Hfs Hni [A1 A2 A3 A4 A5 A6 A7 A8] [B1 B2 B3 B4 B5 B6 B7 B8].
  rewrite A1 in *. rewrite Forall_forall in Hfs.
  assert (Hdist : forall f' r r', f' ∈ fs -> req_info s !! rid f = Some r -> req_info s !! rid f' = Some r' ->
    reply_queue r <> reply_queue r' /\ for_queue r <> for_queue r').
  { intros f' r r' Hin Hr Hr'. assert (rid f <> rid f') by (intros E; apply Hni; rewrite E; by apply list_elem_of_fmap_2).
    split; intros E; (destruct (rid_inj s f f' r r'); [done|done|by apply Hfs|done|done|auto|]); done. }
  split; try congruence.
  - intros q Hn. rewrite B6; [apply A6|]; intros f' r; intros; apply (Hn f'); set_solver.
  - intros e Hn. rewrite B7; [apply A7|]; intros f' r; intros; apply (Hn f'); set_solver.
  - intros f' r [->|Hin]%elem_of_cons Hr.
    + destruct (A8 f r) as [(l & Hl & Hl') (ev & Hev & Erep)]; [by left|done|].
      split.
      * exists l. split; [done|]. rewrite B6; [done|]. intros g r' Hg Hr'. by apply not_eq_sym, (Hdist g).
      * exists ev. split; [|done]. rewrite B7; [done|]. intros g r' Hg Hr'. by apply not_eq_sym, (Hdist g).
    + destruct (B8 f' r Hin Hr) as [(l & Hl & Hl') Hev]. split; [|done]. exists l. split; [|done].
      rewrite <- Hl. symmetry. apply A6. intros g r' ->%list_elem_of_singleton Hr'. by apply (Hdist f').
Qed.

Lemma delivered_advance s n s' fs : delivered (advance n s) fs s' -> delivered s fs s'.
Proof. by intros [? ? ? ? ? ? ? ?]. Qed.
Lemma delivered_notify s s' fs : delivered s fs s' -> delivered s fs (notify s').
Proof. by intros [? ? ? ? ? ? ? ?]. Qed.
Lemma delivered_notify_l s s' fs : delivered (notify s) fs s' -> delivered s fs s'.
Proof. by intros [? ? ? ? ? ? ? ?]. Qed.

Lemma delivered_answers s f s' fs : delivered s fs s' -> answers s f -> answers s' f.
Proof. intros Hd (H1 & H2 & r & Hr & Hn). split_and!; [done..|]. exists r. by rewrite (de_req _ _ _ Hd). Qed.

Lemma advance_add s m n : advance n (advance m s) = advance (m + n) s.
Proof.
  unfold advance, set_buf. cbn. do 2 f_equal. unfold u32. rewrite Zplus_mod_idemp_l. f_equal. lia.
Qed.
Lemma reqs_ok_advance n s : reqs_ok s -> reqs_ok (advance n s).
Proof. by intros [? ?]. Qed.
Lemma reqs_ok_notify s : reqs_ok s -> reqs_ok (notify s).
Proof. by intros [? ?]. Qed.

Lemma wp_pass_replies fs s : reqs_ok s -> 0 <= rsp_cons (buf s) < 2 ^ 32 ->
  Forall (answers s) fs -> NoDup (map rid fs) ->
  wp (mfor (fun f => modify (advance (zlen (fr f))) ;;; deliver f ;;; notify_remote) fs)
    (fun _ s' => delivered s fs s' /\ reqs_ok s' /\ buf s' = buf (advance (zlen (concat (map fr fs))) s)) s.
Proof.
  revert s. induction fs as [|f fs IH]; intros s Hok Hrc Hfs Hnd; cbn [mfor map concat].
  - apply wp_ret. split_and!; [|done|].
    + split; try done. intros f r Hin. set_solver.
    + cbn. rewrite Z.add_0_r, u32_id by done. by destruct s as [[]].
  - apply Forall_cons in Hfs as [Hf Hfs]. apply NoDup_cons in Hnd as [Hni Hnd].
    pose proof Hf as (Hfr & _ & r & Hr & Hne). apply wp_bind, wp_bind, wp_modify, wp_bind.
    eapply wp_mono; [apply (deliver_reply (advance (zlen (fr f)) s) f r); [by apply reqs_ok_advance|done|done]|].
    intros [] s1 (Hd1%delivered_advance & Hok1 & Eb1). apply wp_modify. fold (notify s1).
    eapply wp_mono; [apply IH|].
    + by apply reqs_ok_notify.
    + cbn. rewrite Eb1. apply u32_range.
    + eapply Forall_impl; [exact Hfs|]. intros g Hg. by apply (delivered_answers _ _ _ _ (delivered_notify _ _ _ Hd1)).
    + done.
    + intros [] s2 (Hd2 & Hok2 & Eb2). split_and!; [|done|].
      * eapply delivered_cons; [done..|]. by apply delivered_notify_l.
      * rewrite Eb2. cbn. rewrite Eb1. change (buf (advance (zlen (concat (map fr fs))) (advance (zlen (fr f)) s)) =
          buf (advance (zlen (fr f ++ concat (map fr fs))) s)). rewrite advance_add. do 2 f_equal.
        rewrite length_app. lia.
Qed.

(** The thread, on replies to outstanding requests in any order, followed by an
    unfinished frame. *)
Lemma wp_thread_replies fs t s prod : rsp_ok s -> reqs_ok s -> Forall (answers s) fs -> NoDup (map rid fs) ->
  incomplete t -> rsp_stream s = concat (map fr fs) ++ t ->
  wp (xenbus_thread_pass prod) (fun p s' => delivered s fs s' /\ reqs_ok s' /\ rsp_stream s' = t /\ rsp_ok s' /\
    buf s' = buf (advance (zlen (concat (map fr fs))) s)) s.
Proof.
  intros Hok Hrq Hfs Hnd Ht Hst.
  destruct (stream_prefix s _ t Hok Hst) as (_ & Hst' & Hok' & _).
  eapply pass_refines; [done| |done|exact Hst| |].
  - eapply Forall_impl; [exact Hfs|]. by intros f (? & _).
  - pose proof (unread_length _ _ _ Hok) as Hl. fold (rsp_stream s) in Hl. rewrite Hst, length_app in Hl.
    pose proof (so_used _ _ _ Hok). pose proof ring_bound. change (2 ^ 30) with 1073741824 in *.
    enough (zlen fs <= zlen (concat (map fr fs))) by lia. clear -Hfs.
    induction Hfs as [|f fs (Hf & _) Hfs IH]; [done|]. cbn [map concat length]. rewrite length_app.
    pose proof (fr_length f Hf). pose proof sockmsg_size_pos. destruct Hf as [_ E]. lia.
  - unfold pass_spec. apply wp_bind. eapply wp_mono; [apply wp_pass_replies; [done|apply Hok|done|done]|].
    intros [] s1 (Hd & Hrq1 & Eb). apply wp_bind, wp_modify, wp_gets. fold (notify s1).
    split_and!; [by apply delivered_notify|by apply reqs_ok_notify| | |exact Eb].
    + unfold rsp_stream in *. cbn. by rewrite Eb.
    + unfold rsp_ok in *. cbn. by rewrite Eb.
Qed.
End Reader.
