(* ===== verification/XenbusSpec.v ===== *)
(** * The XenStore client: theorems *)
From S2P Require Import Prelude CString CText CStringThms ByteRing Xenbus XenbusThms XenbusReader.

Section Spec.
Context `{W : XsWire}.
Abbreviation N := XENSTORE_RING_SIZE.

Definition req_ok (s : xb) : Prop := stream_ok (xi_req (buf s)) (req_cons (buf s)) (req_prod (buf s)).
Definition req_stream (s : xb) : list Z := unread (xi_req (buf s)) (req_cons (buf s)) (req_prod (buf s)).
(** A request of these pieces, and whether the final check of indices fails. *)
Definition req_len (io : list (list Z)) : Z := frame_len io + sockmsg_size.
Definition trips (drain : xenstore_if -> Z) (io : list (list Z)) (b : xenstore_if) : bool :=
  let c := room_cons drain (req_len io) b in check_trips c (u32 (req_prod b - c)) (req_len io).

(** xenbus_xb_write appends one frame to the request stream: whatever the
    positions of the two indices (wrapped at 32 bits, at any offset of the
    ring, with the message split anywhere across its end and over any number of
    pieces, empty ones included), a message that fits the ring ends up behind
    the bytes xenstored has not read, header first, and nothing unread is
    overwritten; the response ring is untouched and xenstored is notified once.
    The writing loop ends.  The condition on the final check is what
    [xb_write_check_spurious] is about. *)
Theorem xb_write_appends drain type id tx io s :
  req_ok s -> req_len io <= N -> zlen io < 2 ^ 31 -> drained drain (req_len io) (buf s) ->
  trips drain io (buf s) = false ->
  let c := room_cons drain (req_len io) (buf s) in
  exists s', xenbus_xb_write drain type id tx io s = Done (tt, s') /\ req_ok s' /\
    req_stream s' = unread (xi_req (buf s)) c (req_prod (buf s)) ++ frame type id tx io /\
    req_cons (buf s') = c /\ rsp_stream s' = rsp_stream s /\ notified s' = notified s + 1 /\
    s' = notify (set_buf (buf s') s).
Proof.
  intros Hok Hlen Hio Hdr Ht c.
  destruct (xb_write_run drain type id tx io s Hok Hlen Hio Hdr) as (r & Hr & Hw & E).
  fold (req_len io) in *. fold c in Hw, E. unfold trips in Ht. fold c in Ht. cbv zeta in Ht. rewrite Ht in E.
  destruct Hdr as [Hok' Hroom]. fold c in Hok', Hroom.
  assert (Hpos : 0 <= req_len io).
  { unfold req_len. rewrite frame_len_concat. pose proof sockmsg_size_pos. lia. }
  pose proof (u32_range (req_prod (buf s) - c)) as Hu0. pose proof ring_bound as HB.
  assert (Eu : u32 (u32 (req_prod (buf s) + req_len io) - c) = u32 (req_prod (buf s) - c) + req_len io).
  { change (2 ^ 30) with 1073741824 in HB. unfold u32 in *. rewrite Zminus_mod_idemp_l.
    replace (req_prod (buf s) + req_len io - c) with (req_prod (buf s) - c + req_len io) by lia.
    rewrite <- Zplus_mod_idemp_l. apply Z.mod_small. change (2 ^ 32) with 4294967296 in *. lia. }
  eexists. split; [exact E|]. cbn [notify set_buf buf notified].
  split_and!; try done.
  - split; [done|apply Hok'|apply u32_range|]. cbn. rewrite Eu. lia.
  - unfold req_stream, unread. cbn. by rewrite Eu.
Qed.

(** The last check of xenbus_xb_write compares indices that wrap at 2^32 as if
    they did not: when the consumer is within a ring's size of the wrap and the
    message ends before it, BUG_ON fires although the ring is fine. *)
Theorem xb_write_check_spurious drain type id tx io s :
  req_ok s -> req_len io <= N -> zlen io < 2 ^ 31 -> drained drain (req_len io) (buf s) ->
  (let c := room_cons drain (req_len io) (buf s) in
   2 ^ 32 <= c + N /\ c + u32 (req_prod (buf s) - c) + req_len io < 2 ^ 32) ->
  xenbus_xb_write drain type id tx io s =
    Halted "BUG_ON(prod > xenstore_buf->req_cons + XENSTORE_RING_SIZE)".
Proof.
  intros Hok Hlen Hio Hdr [H1 H2].
  destruct (xb_write_run drain type id tx io s Hok Hlen Hio Hdr) as (r & _ & _ & E).
  fold (req_len io) in E. unfold check_trips in E.
  rewrite (proj2 (Z.leb_le _ _) H1), (proj2 (Z.ltb_lt _ _) H2) in E. exact E.
Qed.

(** ** Identifiers *)

(** An entry that was free is free again. *)
Lemma in_use_freed s id fq i : ~ in_use s id -> is_Some (req_info s !! Z.to_nat id) ->
  (exists r, <[Z.to_nat id := XReq 0 fq]> (req_info s) !! Z.to_nat i = Some r /\ reply_queue r <> 0) <-> in_use s i.
Proof.
  intros Hni [r0 Hr0]. unfold in_use in *.
  destruct (decide (Z.to_nat i = Z.to_nat id)) as [->|Hne]; [|by rewrite list_lookup_insert_ne].
  rewrite list_lookup_insert_eq by (by eapply lookup_lt_Some). split.
  - intros (? & [= <-] & ?). done.
  - intros H. by destruct Hni.
Qed.

(** Request identifiers: as long as one of the 32 is free, allocation finds a
    free one (the BUG_ON of a full round never fires), marks it in use and keeps
    the count; with all in use the caller waits; releasing an identifier in use
    makes exactly it free again. *)
Theorem xenbus_ids_correct s rq fq : ids_ok s -> rq <> 0 ->
  (nr_live_reqs s = NR_REQS -> xenbus_id_allocate rq fq s = Done (None, s)) /\
  (nr_live_reqs s < NR_REQS -> exists id s', xenbus_id_allocate rq fq s = Done (Some id, s') /\
     0 <= id < NR_REQS /\ ~ in_use s id /\ in_use s' id /\ ids_ok s' /\
     req_info s' = <[Z.to_nat id := XReq rq fq]> (req_info s) /\
     exists s'', xenbus_id_release id s' = Done (tt, s'') /\ ids_ok s'' /\
       nr_live_reqs s'' = nr_live_reqs s /\ forall i, in_use s'' i <-> in_use s i).
Proof.
  intros Hids Hrq. split.
  - intros E. unfold xenbus_id_allocate, cbind, mget. by rewrite E.
  - intros Hlt. destruct (wp_run _ _ _ (wp_id_allocate s rq fq Hids Hrq Hlt))
      as (o & s' & E & id & r & -> & Hid & Hr & H0 & Hids' & Es').
    assert (Hi : req_info s' = <[Z.to_nat id := XReq rq fq]> (req_info s)) by (by subst s').
    assert (Hnew : req_info s' !! Z.to_nat id = Some (XReq rq fq)).
    { rewrite Hi. apply list_lookup_insert_eq. by eapply lookup_lt_Some. }
    exists id, s'. split; [done|]. split; [lia|]. split_and!; [| |done|done|].
    + intros (r' & Hr' & Hne). congruence.
    + by exists (XReq rq fq).
    + destruct (wp_run _ _ _ (wp_id_release s' id _ Hids' Hnew Hrq)) as ([] & s'' & E2 & Hids'' & wk & ->).
      eexists. split; [exact E2|]. split; [done|]. cbn [for_queue set_queues set_reqs nr_live_reqs].
      split; [subst s'; cbn; lia|]. intros i. unfold in_use at 1. cbn [set_queues set_reqs req_info].
      rewrite Hi, list_insert_insert_eq. apply in_use_freed; [|by exists r].
      intros (r' & Hr' & Hne). congruence.
Qed.

(** ** The reading thread *)

(** The reading thread demultiplexes: with any number of replies to outstanding
    requests in the ring, in any order and at any ring positions, behind them
    perhaps the beginning of another frame, one pass hands every reply, whole,
    to the request it names and wakes that requester only; no other queue, event,
    request or watch changes; the complete frames are consumed and the beginning
    of the next one stays. *)
Theorem thread_delivers_replies fs t s prod :
  rsp_ok s -> reqs_ok s -> Forall (answers s) fs -> NoDup (map rid fs) ->
  incomplete t -> rsp_stream s = concat (map fr fs) ++ t ->
  wp (xenbus_thread_pass prod) (fun _ s' => delivered s fs s' /\ rsp_ok s' /\ rsp_stream s' = t) s.
Proof.
  intros. eapply wp_mono; [by eapply wp_thread_replies|]. by intros p s' (? & ? & ? & ? & ?).
Qed.

(** A reply that does not fit the ring is never read: the thread wants the whole
    frame before it consumes any of it, so once xenstored has filled the ring
    the thread's passes only notify, and both sides wait for ever. *)
Theorem oversized_reply_stuck s prod m :
  rsp_ok s -> sockmsg_wf m -> N < sockmsg_size + sm_len m ->
  u32 (rsp_prod (buf s) - rsp_cons (buf s)) = N ->
  take (Z.to_nat sockmsg_size) (rsp_stream s) = sockmsg_bytes m ->
  wp (xenbus_thread_pass prod) (fun p s' => s' = notify s /\ p = rsp_prod (buf s)) s.
Proof.
  intros Hok Hwf Hbig Hfull Hhdr. unfold xenbus_thread_pass.
  apply (wp_loop_variant _ (fun _ s' k => s' = s /\ k = 0)) with (k := 0); [|done|lia].
  intros l s' k [-> ->]. split; [done|]. unfold wp. rewrite round_incomplete; [done|done|].
  right. rewrite Hhdr, sockmsg_roundtrip by done.
  pose proof (unread_length _ _ _ Hok) as Hl. fold (rsp_stream s) in Hl. lia.
Qed.

(** ** The round trip *)
Section RoundTrip.
Variables (drain : xenstore_if -> Z) (type trans : Z) (io : list (list Z)).
(** xenstored: what it answers to this request under a given identifier, and how
    it gets the answer into the ring. *)
Variables (answer : Z -> xsd_sockmsg * list Z) (serve : M xb unit).
Hypothesis Hserve : forall s1 id pre, 0 <= id < NR_REQS -> in_use s1 id -> req_stream s1 = pre ++ frame type id trans io ->
  wp serve (fun _ s2 => s2 = set_buf (buf s2) s1 /\ rsp_ok s2 /\ exists fs t,
    rsp_stream s2 = concat (map fr fs) ++ t /\ incomplete t /\ Forall (answers s1) fs /\
    NoDup (map rid fs) /\ answer id ∈ fs /\ sm_req_id (answer id).1 = id) s1.

(** While the caller sleeps xenstored answers and the reading thread runs. *)
Definition world : M xb unit := serve ;;; _ <-- xenbus_thread_pass 0 ;; cret tt.

Lemma reqs_ok_new s queue event_buf id : reqs_ok s -> req_info s !! Z.to_nat id <> None ->
  (forall i r, req_info s !! i = Some r -> reply_queue r <> 0 -> reply_queue r <> queue /\ for_queue r <> event_buf) ->
  forall n p, reqs_ok (set_reqs (<[Z.to_nat id := XReq queue event_buf]> (req_info s)) n p
    (set_events (<[event_buf := XEvent [] [] 0 []]> (events s)) (next_addr s)
      (set_queues (<[queue := []]> (queues s)) (woken s) s))).
Proof.
  intros [Hq Hj] Hid Hfr n p. split; cbn.
  - intros i r Hi Hne. apply list_lookup_insert_Some in Hi as [(<- & <- & _)|[Hni Hi]]; cbn in *.
    + rewrite !lookup_insert_eq. eauto.
    + rewrite !lookup_insert_is_Some'. split; right; by apply (Hq i).
  - intros i j r r' Hi Hj' Hne Hne' E.
    apply list_lookup_insert_Some in Hi as [(<- & <- & _)|[Hni Hi]];
      apply list_lookup_insert_Some in Hj' as [(<- & <- & _)|[Hnj Hj']]; cbn in *; [done| | |by eapply Hj].
    + destruct (Hfr _ _ Hj' Hne'). destruct E; congruence.
    + destruct (Hfr _ _ Hi Hne). destruct E; congruence.
Qed.

Lemma wp_await_reply s queue event_buf id ev rep m p : ids_ok s -> 0 <= id ->
  req_info s !! Z.to_nat id = Some (XReq queue event_buf) -> queue <> 0 -> event_buf <> 0 ->
  queues s !! queue = Some [event_buf] -> events s !! event_buf = Some ev -> ev_reply ev = rep ->
  rep = fr (m, p) -> sockmsg_wf m -> sm_req_id m = id ->
  wp (await_reply queue event_buf id) (fun o s' => o = Some rep /\ ids_ok s' /\
    nr_live_reqs s' = nr_live_reqs s - 1 /\
    req_info s' = <[Z.to_nat id := XReq 0 event_buf]> (req_info s)) s.
Proof.
  intros Hids H0 Hr Hq He Hqu Hev <- Erep Hwf Hsid. unfold await_reply, remove_event. wp_steps.
  eapply wp_opt; [exact Hqu|]. cbv beta iota. wp_steps. rewrite (proj2 (Z.eqb_neq _ _) He).
  apply wp_bind, wp_assert; [apply Z.eqb_refl|]. wp_steps. cbn [set_queues req_info events].
  eapply wp_opt; [exact Hr|]. wp_steps. eapply wp_opt; [exact Hev|]. apply wp_bind, wp_assert.
  { rewrite Erep. unfold fr. cbn [fst snd]. pose proof (sockmsg_bytes_length m).
    rewrite take_app_le, take_ge, sockmsg_roundtrip by (done || lia). by apply Z.eqb_eq. }
  apply wp_bind. eapply wp_mono; [eapply wp_id_release; [by destruct Hids|exact Hr|exact Hq]|].
  intros [] s' (Hids' & wk & ->). wp_steps. done.
Qed.

(** Up to the wait: a frame with a fresh identifier is in the request ring. *)
Record sent (s : xb) (queue event_buf id : Z) (s3 : xb) : Prop := {
  se_id : 0 <= id < NR_REQS;
  se_fresh : ~ in_use s id;
  se_valid : is_Some (req_info s !! Z.to_nat id);
  se_req : req_info s3 = <[Z.to_nat id := XReq queue event_buf]> (req_info s);
  se_live : nr_live_reqs s3 = nr_live_reqs s + 1;
  se_queue : queues s3 !! queue = Some [];
  se_ids : ids_ok s3;
  se_reqs : reqs_ok s3;
  se_frame : exists pre, req_stream s3 = pre ++ frame type id trans io
}.

Lemma request_sent s queue event_buf :
  ids_ok s -> nr_live_reqs s < NR_REQS -> reqs_ok s -> req_ok s ->
  req_len io <= N -> zlen io < 2 ^ 31 -> drained drain (req_len io) (buf s) -> trips drain io (buf s) = false ->
  queue <> 0 ->
  (forall i r, req_info s !! i = Some r -> reply_queue r <> 0 -> reply_queue r <> queue /\ for_queue r <> event_buf) ->
  exists id s3, sent s queue event_buf id s3 /\ forall w,
    xenbus_msg_reply drain w queue event_buf type trans io s = (w ;;; await_reply queue event_buf id) s3.
Proof.
  intros Hids Hlt Hrq Hreq Hlen Hio Hdr Htr Hq0 Hfr.
  set (s1 := set_events (<[event_buf := XEvent [] [] 0 []]> (events s)) (next_addr s)
      (set_queues (<[queue := []]> (queues s)) (woken s) s)).
  destruct (wp_run _ _ _ (wp_id_allocate s1 queue event_buf (ltac:(by destruct Hids) : ids_ok s1) Hq0 Hlt))
    as (o & s2 & E2 & id & r0 & -> & Hid & Hr0 & Hz & Hids2 & Es2).
  change (req_info s1) with (req_info s) in *.
  assert (Hrq2 : reqs_ok s2) by (subst s2; apply reqs_ok_new; [done|congruence|done]).
  assert (Eb2 : buf s2 = buf s) by (by subst s2).
  destruct (xb_write_appends drain type id trans io s2) as (s3 & E3 & _ & Hst3 & _ & _ & _ & Es3);
    rewrite ?Eb2; try done; [by unfold req_ok; rewrite Eb2|].
  exists id, s3. split.
  - rewrite Es3 in *. split; cbn; [lia| |by exists r0|by subst s2|by subst s2| | | |by eexists].
    + intros (r & Hr & Hne). congruence.
    + subst s2. cbn. apply lookup_insert_eq.
    + by destruct Hids2.
    + by destruct Hrq2.
  - intros w. unfold xenbus_msg_reply. do 2 (erewrite bind_run by reflexivity). fold s1.
    by rewrite (bind_run _ _ _ _ _ E2), (bind_run _ _ _ _ _ E3).
Qed.

(** C8. The request and reply round trip: whenever xenstored answers the frame it is
    sent, with replies to other requests in any order around it, xenbus_msg_reply
    returns exactly the reply to its own request (none of its BUG_ONs fires) and
    gives its identifier back: the table of requests is as before. *)
Theorem msg_reply_roundtrip s queue event_buf :
  ids_ok s -> nr_live_reqs s < NR_REQS -> reqs_ok s -> req_ok s ->
  req_len io <= N -> zlen io < 2 ^ 31 -> drained drain (req_len io) (buf s) -> trips drain io (buf s) = false ->
  queue <> 0 -> event_buf <> 0 ->
  (forall i r, req_info s !! i = Some r -> reply_queue r <> 0 -> reply_queue r <> queue /\ for_queue r <> event_buf) ->
  exists id s', xenbus_msg_reply drain world queue event_buf type trans io s = Done (Some (fr (answer id)), s') /\
    0 <= id < NR_REQS /\ ~ in_use s id /\ ids_ok s' /\ nr_live_reqs s' = nr_live_reqs s /\
    forall i, in_use s' i <-> in_use s i.
Proof using Hserve.
  intros Hids Hlt Hrq Hreq Hlen Hio Hdr Htr Hq0 He0 Hfr.
  destruct (request_sent s queue event_buf) as (id & s3 & [Hid Hni Hv K1 K4 K2 Hids3 Hrq3 (pre & Hst3)] & Erun); try done.
  assert (Hme : req_info s3 !! Z.to_nat id = Some (XReq queue event_buf)).
  { rewrite K1. apply list_lookup_insert_eq. destruct Hv as [r0 Hr0]. by eapply lookup_lt_Some. }
  assert (Huse : in_use s3 id) by (by exists (XReq queue event_buf)).
  destruct (wp_run _ _ _ (Hserve s3 id pre Hid Huse Hst3)) as ([] & s4 & E4 & Es4 & Hrsp4 & fs & t & Hst4 & Ht & Hans & Hnd & Hin & Hsid).
  assert (Hrq4 : reqs_ok s4) by (rewrite Es4; by destruct Hrq3).
  assert (Hans4 : Forall (answers s4) fs) by (rewrite Es4; exact Hans).
  destruct (wp_run _ _ _ (wp_thread_replies fs t s4 0 Hrsp4 Hrq4 Hans4 Hnd Ht Hst4)) as (p & s5 & E5 & Hd & _ & _).
  assert (L : req_info s4 = req_info s3 /\ queues s4 = queues s3 /\ nr_live_reqs s4 = nr_live_reqs s3 /\ probe s4 = probe s3)
    by (rewrite Es4; done). destruct L as (L1 & L2 & L4 & L5).
  destruct (de_reply _ _ _ Hd (answer id) (XReq queue event_buf) Hin) as [(l & Hl & Hl') (ev & Hev & Erep)].
  { unfold rid. by rewrite Hsid, L1. }
  assert (l = []) as -> by (cbn in Hl; congruence).
  assert (Hids5 : ids_ok s5).
  { destruct Hids3 as [? ? ?]. split; rewrite ?(de_req _ _ _ Hd), ?(de_live _ _ _ Hd), ?(de_probe _ _ _ Hd), ?L1, ?L4, ?L5; done. }
  pose proof (proj1 (Forall_forall _ _) Hans _ Hin) as ([Hwf _] & _).
  destruct (answer id) as [m pl] eqn:Ean. cbn [fst] in *.
  destruct (wp_run _ _ _ (wp_await_reply s5 queue event_buf id ev (fr (m, pl)) m pl Hids5 ltac:(lia)
    ltac:(by rewrite (de_req _ _ _ Hd), L1) Hq0 He0 Hl' Hev Erep eq_refl Hwf Hsid)) as (o & s6 & E6 & -> & Hids6 & Hn6 & Hi6).
  exists id, s6. rewrite Ean, Erun. split.
  { unfold cbind at 1, world. by rewrite (bind_run _ _ _ _ _ E4), (bind_run _ _ _ _ _ E5). }
  split; [lia|]. split_and!; [done|done|rewrite Hn6, (de_live _ _ _ Hd), L4; lia|].
  intros i. unfold in_use. rewrite Hi6, (de_req _ _ _ Hd), L1, K1, list_insert_insert_eq. by apply in_use_freed.
Qed.
End RoundTrip.
End Spec.

(** ** Xen's layout: rings of 1024 bytes, a header of four 32-bit words *)
Definition le32 (x : Z) : list Z := [x mod 256; x / 2 ^ 8 mod 256; x / 2 ^ 16 mod 256; x / 2 ^ 24 mod 256].
Definition of_le32 (l : list Z) : Z :=
  match l with [a; b; c; d] => a + 2 ^ 8 * b + 2 ^ 16 * c + 2 ^ 24 * d | _ => 0 end.
Lemma le32_roundtrip x : 0 <= x < 2 ^ 32 -> of_le32 (le32 x) = x.
Proof. intros H. unfold of_le32, le32. Z.to_euclidean_division_equations. lia. Qed.

Definition xen_bytes (m : xsd_sockmsg) : list Z :=
  le32 (sm_type m) ++ le32 (sm_req_id m) ++ le32 (sm_tx_id m) ++ le32 (sm_len m).
Definition xen_of (l : list Z) : xsd_sockmsg :=
  Sockmsg (of_le32 (take 4 l)) (of_le32 (take 4 (drop 4 l))) (of_le32 (take 4 (drop 8 l))) (of_le32 (take 4 (drop 12 l))).

#[export, refine] Instance xen_wire : XsWire := {|
  XENSTORE_RING_SIZE := 1024;
  MASK_XENSTORE_IDX := fun i => Z.land i 1023;
  sockmsg_size := 16;
  sockmsg_bytes := xen_bytes;
  sockmsg_of := xen_of;
  XS_WATCH_EVENT := 15;
  XS_ERROR := 16
|}.
Proof.
  - by exists 10.
  - intros i _. exact (land_mask_mod i 10 ltac:(lia)).
  - lia.
  - done.
  - intros [t r x l] (H1 & H2 & H3 & H4). cbn in *. unfold xen_of, xen_bytes. cbn [le32 app take drop sm_type sm_req_id sm_tx_id sm_len].
    f_equal; by apply le32_roundtrip.
Defined.

(** Empty rings with all indices at [i]; identifiers 3 and 5 in use. *)
Definition xb_at (i : Z) : xb :=
  Xb (XIf (replicate 1024 0) (replicate 1024 0) i i i i)
     (<[3%nat := XReq 100 200]> (<[5%nat := XReq 101 201]> (replicate 32 (XReq 0 0)))) 2 3 []
     (list_to_map [(100, []); (101, [])])
     (list_to_map [(200, XEvent [] [] 0 []); (201, XEvent [] [] 0 [])]) 1000 0 [].
Definition sample_io : list (list Z) := [[100; 111; 109; 105; 100]; []; [0]].   (* domid, NUL *)
Definition no_drain (b : xenstore_if) : Z := req_cons b.

#[global] Instance stream_ok_dec r c p : Decision (stream_ok r c p).
Proof.
  refine (cast_if (decide (zlen r = XENSTORE_RING_SIZE /\ 0 <= c < 2 ^ 32 /\ 0 <= p < 2 ^ 32 /\ u32 (p - c) <= XENSTORE_RING_SIZE))).
  - by destruct a as (? & ? & ? & ?).
  - intros [? ? ? ?]. tauto.
Defined.

Lemma xb_at_req i : 0 <= i < 2 ^ 32 -> req_ok (xb_at i).
Proof.
  intros H. split; [by vm_compute|done|done|]. cbn [req_prod req_cons buf xb_at]. rewrite Z.sub_diag. by vm_compute.
Qed.

Lemma xb_at_drained i : 0 <= i < 2 ^ 32 -> drained no_drain (req_len sample_io) (buf (xb_at i)).
Proof.
  intros H. unfold drained.
  assert (E : room_cons no_drain (req_len sample_io) (buf (xb_at i)) = i).
  { unfold room_cons, no_drain. cbn [req_cons buf xb_at]. by destruct (_ <? _). }
  rewrite E. split; [exact (xb_at_req i H)|]. cbn [req_prod buf xb_at]. rewrite Z.sub_diag. by vm_compute.
Qed.

(** Sixteen bytes before the end of the ring: the frame wraps. *)
Lemma xb_write_appends_witness : exists s',
  xenbus_xb_write no_drain 2 7 0 sample_io (xb_at 1010) = Done (tt, s') /\
  req_stream s' = unread (replicate 1024 0) 1010 1010 ++ frame 2 7 0 sample_io.
Proof.
  destruct (xb_write_appends no_drain 2 7 0 sample_io (xb_at 1010)) as (s' & E & _ & Hs & _).
  - apply xb_at_req. lia.
  - by vm_compute.
  - by vm_compute.
  - apply xb_at_drained. lia.
  - by vm_compute.
  - exists s'. exact (conj E Hs).
Defined.

Lemma xb_write_check_spurious_witness :
  xenbus_xb_write no_drain 2 7 0 sample_io (xb_at (2 ^ 32 - 512)) =
    Halted "BUG_ON(prod > xenstore_buf->req_cons + XENSTORE_RING_SIZE)".
Proof.
  apply xb_write_check_spurious.
  - apply xb_at_req. lia.
  - by vm_compute.
  - by vm_compute.
  - apply xb_at_drained. lia.
  - split; by vm_compute.
Defined.

Lemma xb_at_ids i : ids_ok (xb_at i).
Proof. split; by vm_compute. Qed.

Lemma xenbus_ids_correct_witness : exists id s',
  xenbus_id_allocate 102 202 (xb_at 0) = Done (Some id, s') /\ ~ in_use (xb_at 0) id.
Proof.
  destruct (proj2 (xenbus_ids_correct (xb_at 0) 102 202 (xb_at_ids 0) ltac:(lia)) eq_refl)
    as (id & s' & E & _ & H & _).
  exists id, s'. exact (conj E H).
Defined.

(** Replies to 5 and 3, in this order, and the start of another frame, from index
    1000 on; the ring wraps in between. *)
Definition reply_to (id : Z) : xsd_sockmsg * list Z := (Sockmsg 2 id 0 3, [79; 75; 0]).
Definition half_frame : list Z := [2; 0; 0; 0; 9].
Definition ring_with (off : Z) (bs : list Z) : list Z :=
  (fun i => bs !!! Z.to_nat ((i - off) mod 1024)) <$> seqZ 0 1024.
Definition sample_rsp : list Z := fr (reply_to 5) ++ fr (reply_to 3) ++ half_frame.
Definition xb_replies : xb :=
  set_buf (XIf (replicate 1024 0) (ring_with 1000 sample_rsp) 0 0 1000 (1000 + zlen sample_rsp)) (xb_at 0).

Lemma sample_reqs i : reqs_ok (xb_at i).
Proof.
  assert (Hl : forall j r, req_info (xb_at i) !! j = Some r -> reply_queue r <> 0 ->
    (j = 3%nat /\ r = XReq 100 200) \/ (j = 5%nat /\ r = XReq 101 201)).
  { intros j r Hj Hr. cbn [req_info xb_at] in Hj.
    apply list_lookup_insert_Some in Hj as [(<- & <- & _)|[_ Hj]]; [by left|].
    apply list_lookup_insert_Some in Hj as [(<- & <- & _)|[_ Hj]]; [by right|].
    apply lookup_replicate in Hj as [-> _]. done. }
  split.
  - intros j r Hj Hr. destruct (Hl j r Hj Hr) as [[_ ->]|[_ ->]]; split; by vm_compute; eexists.
  - intros j j' r r' Hj Hj' Hr Hr' E.
    destruct (Hl j r Hj Hr) as [[-> ->]|[-> ->]], (Hl j' r' Hj' Hr') as [[-> ->]|[-> ->]]; cbn in E; try done; lia.
Qed.

Lemma sample_answers s id : req_info s = req_info (xb_at 0) -> id = 3 \/ id = 5 -> answers s (reply_to id).
Proof.
  intros Hs Hid. split_and!.
  - split; [|by vm_compute]. unfold sockmsg_wf. cbn. lia.
  - done.
  - unfold in_use. rewrite Hs. destruct Hid as [-> | ->]; eexists; (split; [by vm_compute|done]).
Qed.

Lemma thread_delivers_replies_witness :
  wp (xenbus_thread_pass 0) (fun _ s' => delivered xb_replies [reply_to 5; reply_to 3] s' /\ rsp_ok s' /\
    rsp_stream s' = half_frame) xb_replies.
Proof.
  apply thread_delivers_replies.
  - unfold rsp_ok. apply (bool_decide_unpack _). by vm_compute.
  - destruct (sample_reqs 0) as [H1 H2]. split; [exact H1|exact H2].
  - rewrite !Forall_cons. split_and!; [by apply sample_answers; auto..|apply Forall_nil, I].
  - apply (bool_decide_unpack _). by vm_compute.
  - left. by vm_compute.
  - by vm_compute.
Defined.

(** A full ring with the start of a reply of 2000 bytes. *)
Definition big_msg : xsd_sockmsg := Sockmsg 2 3 0 2000.
Definition xb_stuck : xb :=
  set_buf (XIf (replicate 1024 0) (xen_bytes big_msg ++ replicate 1008 65) 0 0 0 1024) (xb_at 0).
Lemma oversized_reply_stuck_witness :
  wp (xenbus_thread_pass 0) (fun p s' => s' = notify xb_stuck /\ p = 1024) xb_stuck.
Proof.
  apply (oversized_reply_stuck xb_stuck 0 big_msg).
  - unfold rsp_ok. apply (bool_decide_unpack _). by vm_compute.
  - unfold sockmsg_wf. cbn. lia.
  - done.
  - done.
  - by vm_compute.
Defined.

(** A xenstored that answers the last request in the ring. *)
Definition last_id (s : xb) : Z :=
  let st := req_stream s in sm_req_id (xen_of (drop (length st - length (frame 2 0 0 sample_io)) st)).
Definition sample_serve : M xb unit := modify (fun s =>
  let bs := fr (reply_to (last_id s)) in
  set_buf (XIf (xi_req (buf s)) (bs ++ replicate (1024 - length bs) 0) (req_prod (buf s)) (req_prod (buf s)) 0 (zlen bs)) s).

Lemma last_id_frame s pre id : 0 <= id < NR_REQS -> req_stream s = pre ++ frame 2 id 0 sample_io -> last_id s = id.
Proof.
  intros Hid E. unfold last_id. rewrite E.
  assert (Hl : length (frame 2 id 0 sample_io) = length (frame 2 0 0 sample_io)) by done.
  rewrite length_app, Hl, Nat.add_sub, drop_app_length.
  unfold frame. change (sockmsg_bytes ?m) with (xen_bytes m).
  unfold xen_of, xen_bytes, NR_REQS in *. cbn [le32 app take drop sm_type sm_req_id sm_tx_id sm_len].
  apply le32_roundtrip. lia.
Qed.

Lemma sample_serve_ok s1 id pre : 0 <= id < NR_REQS -> in_use s1 id -> req_stream s1 = pre ++ frame 2 id 0 sample_io ->
  wp sample_serve (fun _ s2 => s2 = set_buf (buf s2) s1 /\ rsp_ok s2 /\ exists fs t,
    rsp_stream s2 = concat (map fr fs) ++ t /\ incomplete t /\ Forall (answers s1) fs /\
    NoDup (map rid fs) /\ reply_to id ∈ fs /\ sm_req_id (reply_to id).1 = id) s1.
Proof.
  intros Hid Huse E. apply wp_modify. rewrite (last_id_frame _ _ _ Hid E). split; [done|].
  assert (Hl : length (fr (reply_to id)) = 19%nat) by done.
  assert (Hlr : zlen (fr (reply_to id) ++ replicate (1024 - length (fr (reply_to id))) 0) = 1024).
  { rewrite length_app, length_replicate, Hl. done. }
  split.
  - split; [exact Hlr|by vm_compute|by vm_compute|by vm_compute].
  - exists [reply_to id], []. split_and!.
    + unfold rsp_stream. cbn [buf set_buf xi_rsp rsp_cons rsp_prod]. unfold unread. change (u32 (zlen (fr (reply_to id)) - 0)) with 19.
      pose proof (array_read_window 1024 ltac:(lia) _ 0 19 Hlr ltac:(lia) ltac:(by vm_compute)) as Hr.
      change (0 mod 1024) with 0 in Hr. unfold array_read in Hr. rewrite Hlr in Hr.
      change ((0 <=? 0) && (0 <=? 19) && (0 + 19 <=? 1024)) with true in Hr. cbv iota in Hr. apply (inj Some) in Hr.
      change XENSTORE_RING_SIZE with 1024. rewrite <- Hr.
      cbn [map concat]. rewrite !app_nil_r, drop_0. apply take_app_length'. done.
    + left. by vm_compute.
    + rewrite Forall_cons. split; [|apply Forall_nil, I]. split_and!; [|done|done]. split; [|done].
      unfold sockmsg_wf, NR_REQS in *. cbn. lia.
    + cbn. apply NoDup_singleton.
    + by left.
    + done.
Qed.

Lemma msg_reply_roundtrip_witness : exists id s',
  xenbus_msg_reply no_drain (world sample_serve) 102 202 2 0 sample_io (xb_at 1010) =
    Done (Some (fr (reply_to id)), s') /\ nr_live_reqs s' = 2.
Proof.
  destruct (msg_reply_roundtrip no_drain 2 0 sample_io reply_to sample_serve sample_serve_ok (xb_at 1010) 102 202)
    as (id & s' & E & _ & _ & _ & Hn & _).
  - apply xb_at_ids.
  - done.
  - apply sample_reqs.
  - apply xb_at_req. lia.
  - by vm_compute.
  - by vm_compute.
  - apply xb_at_drained. lia.
  - by vm_compute.
  - done.
  - done.
  - intros i r Hi Hr. cbn [req_info xb_at] in Hi.
    apply list_lookup_insert_Some in Hi as [(_ & <- & _)|[_ Hi]]; [done|].
    apply list_lookup_insert_Some in Hi as [(_ & <- & _)|[_ Hi]]; [done|].
    apply lookup_replicate in Hi as [-> _]. done.
  - exists id, s'. exact (conj E Hn).
Defined.
