(* ===== verification/Xenstore.v ===== *)
(** * XenStore operations (platform/xen/xen/xenbus/xenbus.c)

    The calls a driver makes: reading and writing nodes, listing directories,
    transactions, watches, waiting for a node to change.  They use the module
    below through xenbus_msg_reply only: [XbTransport] is that interface.
    Strings are the bytes before the NUL; buffers include it. *)
From S2P Require Import Prelude CString Strtoul Kprintf CText Xenbus.

(** The transport: a request's type, transaction and pieces; the reply's type and
    payload.  The list of watches and the wait for a watch event are the
    module's too. *)
Class XbTransport (S : Type) := {
  msg_reply : Z -> Z -> list (list Z) -> M S (Z * list Z);
  watch_list : S -> list xbwatch;
  set_watch_list : list xbwatch -> S -> S;
  wait_for_watch : Z -> M S unit;          (* xenbus_wait_for_watch(queue) *)
  watch_alloc : M S Z                      (* bmk_xmalloc_bmk(sizeof( *watch)) *)
}.

(** The message types of io/xs_wire.h. *)
Class XsTypes := {
  XS_DEBUG : Z; XS_DIRECTORY : Z; XS_READ : Z; XS_GET_PERMS : Z; XS_WATCH : Z; XS_UNWATCH : Z;
  XS_TRANSACTION_START : Z; XS_TRANSACTION_END : Z; XS_WRITE : Z; XS_RM : Z; XS_SET_PERMS : Z;
  XS_ERR : Z                               (* XS_ERROR *)
}.

Definition XBT_NIL : Z := 0.

Section Xenstore.
Context {S : Type} `{T : XbTransport S} `{X : XsTypes}.

(** [errmsg]: NULL, or a copy of the payload with a NUL behind it. *)
Definition errmsg (rep : Z * list Z) : option (list Z) :=
  if negb (rep.1 =? XS_ERR) then None else Some (rep.2 ++ [0]).

(** The result of a call: the error text, or what it returns through pointers. *)
Definition outcome (A : Type) : Type := (list Z + A)%type.

(** A request whose reply carries nothing. *)
Definition simple_call (type xbt : Z) (req : list (list Z)) : M S (outcome unit) :=
  rep <-- msg_reply type xbt req ;;
  cret (match errmsg rep with Some msg => inl msg | None => inr tt end).

(** ** Directories *)
Definition nr_elems (reply : list Z) : nat := length (filter (fun c => c = 0) reply).

(** [for (x = i = 0; i < nr_elems; i++) ...]: a copy of each string. *)
Fixpoint ls_copy (n : nat) (reply : list Z) : M S (list (list Z)) :=
  match n with
  | O => cret []
  | Datatypes.S n => '(str, rest) <-- mopt (cstring reply) "reply" ;;
           l <-- ls_copy n rest ;; cret (str :: l)
  end.
Definition xenbus_ls (xbt : Z) (pre : list Z) : M S (outcome (list (list Z))) :=
  repmsg <-- msg_reply XS_DIRECTORY xbt [pre ++ [0]] ;;
  match errmsg repmsg with
  | Some msg => cret (inl msg)
  | None => res <-- ls_copy (nr_elems repmsg.2) repmsg.2 ;; cret (inr res)
  end.

(** ** Nodes *)

(** xenbus_read and xenbus_get_perms: the buffer. *)
Definition read_call (type xbt : Z) (path : list Z) : M S (outcome (list Z)) :=
  rep <-- msg_reply type xbt [path ++ [0]] ;;
  cret (match errmsg rep with Some msg => inl msg | None => inr (rep.2 ++ [0]) end).
Definition xenbus_read (xbt : Z) (path : list Z) : M S (outcome (list Z)) := read_call XS_READ xbt path.
Definition xenbus_get_perms (xbt : Z) (path : list Z) : M S (outcome (list Z)) := read_call XS_GET_PERMS xbt path.
Definition xenbus_write (xbt : Z) (path value : list Z) : M S (outcome unit) :=
  simple_call XS_WRITE xbt [path ++ [0]; value].
Definition xenbus_rm (xbt : Z) (path : list Z) : M S (outcome unit) := simple_call XS_RM xbt [path ++ [0]].

Definition PERM_MAX_SIZE : Z := 32.
Definition xenbus_set_perms (xbt : Z) (path : list Z) (dom perm : Z) : M S (outcome unit) :=
  '(_, value) <-- lift_res (sprint PERM_MAX_SIZE [37; 99; 37; 104; 117] [VInt perm; VInt dom]) ;;   (* %c%hu *)
  simple_call XS_SET_PERMS xbt [path ++ [0]; value ++ [0]].

Definition xenbus_read_integer (path : list Z) : M S Z :=
  res <-- xenbus_read XBT_NIL path ;;
  match res with
  | inl _ => cret (-1)
  | inr bf => t <-- lift_res (strtoul10 bf) ;; cret (s32 t)
  end.
Definition xenbus_get_self_id : M S Z :=
  res <-- xenbus_read XBT_NIL [100; 111; 109; 105; 100] ;;                                          (* domid *)
  match res with
  | inl _ => mhalt "BUG_ON(xenbus_read(XBT_NIL, domid, &dom_id))"
  | inr bf => t <-- lift_res (strtoul10 bf) ;; cret (u16 t)
  end.

Definition BUFFER_SIZE : Z := 256.
Definition xenbus_printf (xbt : Z) (node path fmt : list Z) (args : list varg) : M S (outcome unit) :=
  '(rv, fullpath) <-- lift_res (sprint BUFFER_SIZE [37; 115; 47; 37; 115] [VStr (Some (node ++ [0])); VStr (Some (path ++ [0]))]) ;;
  massert (negb (BUFFER_SIZE <=? rv)) "BUG_ON(rv >= BUFFER_SIZE)" ;;;
  '(rv, val) <-- lift_res (sprint BUFFER_SIZE fmt args) ;;
  massert (negb (BUFFER_SIZE <=? rv)) "BUG_ON(rv >= BUFFER_SIZE)" ;;;
  xenbus_write xbt fullpath val.

(** ** Transactions *)
Definition xenbus_transaction_start : M S (outcome Z) :=
  rep <-- msg_reply XS_TRANSACTION_START 0 [[0]] ;;
  match errmsg rep with
  | Some err => cret (inl err)
  | None => xbt <-- lift_res (strtoul10 rep.2) ;; cret (inr xbt)
  end.

(** The error text or NULL, and [*retry]. *)
Definition xenbus_transaction_end (t : Z) (abort : bool) : M S (option (list Z) * bool) :=
  rep <-- msg_reply XS_TRANSACTION_END t [if abort then [70; 0] else [84; 0]] ;;
  match errmsg rep with
  | None => cret (None, false)
  | Some err =>
      e <-- lift_res (str_of err) ;;
      r <-- lift_res (strcmp e [69; 65; 71; 65; 73; 78]) ;;                                         (* EAGAIN *)
      cret (if r =? 0 then (None, true) else (Some err, false))
  end.

(** ** States *)

(** The first character of a buffer, as a digit. *)
Definition state_of (bf : list Z) : M S Z := c <-- mopt (bf !! 0%nat) "state" ;; cret (char_of c - 48).

(** One round of the loop of xenbus_switch_state; the loop keeps [xbt] and
    [xbt_flag]. *)
Definition switch_round (path : list Z) (state : Z) (l : Z * bool) : M S ((Z * bool) + option (list Z)) :=
  let '(xbt, xbt_flag) := l in
  '(xbt, xbt_flag, started) <--
    (if xbt =? XBT_NIL then
       r <-- xenbus_transaction_start ;;
       cret (match r with inl msg => (xbt, xbt_flag, Some msg) | inr x => (x, true, None) end)
     else cret (xbt, xbt_flag, None)) ;;
  msg <--
    (match started with
     | Some msg => cret (Some msg)
     | None =>
         r <-- xenbus_read xbt path ;;
         match r with
         | inl msg => cret (Some msg)
         | inr current_state =>
             rs <-- state_of current_state ;;
             if rs =? state then cret None
             else '(_, value) <-- lift_res (sprint 2 [37; 100] [VInt state]) ;;                     (* %d *)
                  w <-- xenbus_write xbt path value ;;
                  cret (match w with inl m => Some m | inr _ => None end)
         end
     end) ;;
  '(msg2, retry) <-- (if xbt_flag : bool then xenbus_transaction_end xbt false else cret (None, false)) ;;
  let msg := match msg with Some m => Some m | None => msg2 end in
  cret (if retry : bool then inl (XBT_NIL, xbt_flag) else inr msg).
Definition xenbus_switch_state (xbt : Z) (path : list Z) (state : Z) : M S (option (list Z)) :=
  loopM (switch_round path state) (xbt, false).

(** The error text, or the new [*state]. *)
Definition xenbus_wait_for_state_change (path : list Z) (state queue : Z) : M S (outcome Z) :=
  loopM (fun _ : unit =>
    r <-- xenbus_read XBT_NIL path ;;
    match r with
    | inl msg => cret (inr (inl msg))
    | inr res => rs <-- state_of res ;;
        if rs =? state then wait_for_watch queue ;;; cret (inl tt) else cret (inr (inr rs))
    end) tt.

Definition xenbus_wait_for_value (path value : list Z) (queue : Z) : M S (option (list Z)) :=
  loopM (fun _ : unit =>
    r <-- xenbus_read XBT_NIL path ;;
    match r with
    | inl msg => cret (inr (Some msg))
    | inr res => s <-- lift_res (str_of res) ;; c <-- lift_res (strcmp value s) ;;
        if c =? 0 then cret (inr None) else wait_for_watch queue ;;; cret (inl tt)
    end) tt.

(** ** Watches *)
Definition xenbus_watch_init (watch : xbwatch) : xbwatch := XWatch (xw_addr watch) None (xw_events watch).

(** [sizeof(void* )*2 + 5] on a 64-bit machine; the token is [*%p] of the watch. *)
Definition token_size : Z := 21.
Definition xenbus_watch_prepare (watch : xbwatch) : M S xbwatch :=
  massert (negb (xw_events watch =? 0)) "BUG_ON(!watch->events)" ;;;
  '(r, token) <-- lift_res (sprint token_size [42; 37; 112] [VPtr (xw_addr watch)]) ;;
  massert ((0 <? r) && (r <? token_size)) "BUG_ON(!(r > 0 && r < size))" ;;;
  let watch := XWatch (xw_addr watch) (Some token) (xw_events watch) in
  modify (fun s => set_watch_list (watch :: watch_list s) s) ;;;
  cret watch.

Definition xenbus_watch_path_token (xbt : Z) (path token : list Z) (events : Z) : M S (outcome unit) :=
  watch <-- watch_alloc ;;
  modify (fun s => set_watch_list (XWatch watch (Some token) events :: watch_list s) s) ;;;
  simple_call XS_WATCH xbt [path ++ [0]; token ++ [0]].

(** [MINIOS_LIST_FOREACH ... MINIOS_LIST_REMOVE ... break]. *)
Fixpoint unwatch_first (token : list Z) (ws : list xbwatch) : res (list xbwatch) :=
  match ws with
  | [] => Done []
  | w :: ws =>
      match xw_token w with
      | None => Halted "token"
      | Some t => match strcmp t token with
                  | Done r => if r =? 0 then Done ws
                              else match unwatch_first token ws with
                                   | Done l => Done (w :: l) | Halted e => Halted e | NoFuel => NoFuel end
                  | Halted e => Halted e
                  | NoFuel => NoFuel
                  end
      end
  end.
Definition xenbus_unwatch_path_token (xbt : Z) (path token : list Z) : M S (outcome unit) :=
  r <-- simple_call XS_UNWATCH xbt [path ++ [0]; token ++ [0]] ;;
  match r with
  | inl msg => cret (inl msg)
  | inr _ => s <-- mget ;; l <-- lift_res (unwatch_first token (watch_list s)) ;;
             modify (set_watch_list l) ;;; cret (inr tt)
  end.
End Xenstore.
