(* ===== verification/XenstoreSpec.v ===== *)
(** * XenStore operations: theorems *)
From S2P Require Import Prelude CString CStringThms CStringSpec Strtoul Kprintf CText Xenbus XenbusThms Xenstore.

(** A directory reply: the names, each with its NUL. *)
Definition encode_dir (names : list (list Z)) : list Z := concat (map (fun n => n ++ [0]) names).

Section Ops.
Context {S : Type} `{T : XbTransport S} `{X : XsTypes}.
Implicit Types s : S.

Lemma nr_elems_app l1 l2 : nr_elems (l1 ++ l2) = (nr_elems l1 + nr_elems l2)%nat.
Proof. unfold nr_elems. by rewrite filter_app, length_app. Qed.
Lemma nr_elems_none n : no_nul n -> nr_elems n = 0%nat.
Proof.
  unfold nr_elems. induction 1 as [|c n Hc Hn IH]; [done|]. by rewrite filter_cons_False.
Qed.

Lemma ls_copy_names names s : Forall no_nul names ->
  ls_copy (length names) (encode_dir names) s = Done (names, s).
Proof.
  induction 1 as [|n names Hn Hns IH]; [done|]. unfold encode_dir in *. cbn [length ls_copy map concat].
  rewrite <- app_assoc. cbn [app]. rewrite cstring_app by done. cbn [mopt]. erewrite bind_run by reflexivity. cbv beta iota.
  by rewrite (bind_run _ _ _ _ _ IH).
Qed.

Lemma nr_elems_names names : Forall no_nul names -> nr_elems (encode_dir names) = length names.
Proof.
  induction 1 as [|n names Hn Hns IH]; [done|]. unfold encode_dir in *. cbn [map concat length].
  rewrite !nr_elems_app, nr_elems_none, IH by done. done.
Qed.

(** The copies never run past the reply. *)
Lemma ls_copy_total n reply s : (n <= nr_elems reply)%nat -> exists l, ls_copy n reply s = Done (l, s).
Proof.
  revert reply. induction n as [|n IH]; intros reply Hn; [by exists []|]. cbn [ls_copy].
  destruct (cstring_exists reply) as (str & rest & E).
  { unfold nr_elems in Hn. destruct (filter (fun c => c = 0) reply) as [|c l] eqn:Ef; [cbn in Hn; lia|].
    assert (Hc : c ∈ filter (fun c => c = 0) reply) by (rewrite Ef; by left).
    apply list_elem_of_filter in Hc as [-> Hc]. done. }
  rewrite E. cbn [mopt]. erewrite bind_run by reflexivity. cbv beta iota.
  apply cstring_split in E as [-> Hs]. rewrite nr_elems_app, nr_elems_none in Hn by done.
  destruct (IH rest) as [l El].
  { unfold nr_elems in *. rewrite filter_cons_True in Hn by done. cbn [length] in Hn. lia. }
  exists (str :: l). by rewrite (bind_run _ _ _ _ _ El).
Qed.

(** xenbus_ls: the names of a directory reply come back one by one, in order
    and whole, empty names included; an error reply gives its text; and whatever
    bytes the reply holds, no copy reads past its end. *)
Theorem xenbus_ls_roundtrip xbt pre s ty payload s' :
  msg_reply XS_DIRECTORY xbt [pre ++ [0]] s = Done ((ty, payload), s') ->
  (ty = XS_ERR -> xenbus_ls xbt pre s = Done (inl (payload ++ [0]), s')) /\
  (ty <> XS_ERR -> exists l, xenbus_ls xbt pre s = Done (inr l, s')) /\
  (forall names, ty <> XS_ERR -> Forall no_nul names -> payload = encode_dir names ->
     xenbus_ls xbt pre s = Done (inr names, s')).
Proof.
  intros E. unfold xenbus_ls. rewrite (bind_run _ _ _ _ _ E). unfold errmsg. cbn [fst snd]. split_and!.
  - intros ->. by rewrite Z.eqb_refl.
  - intros Hne. rewrite (proj2 (Z.eqb_neq _ _) Hne). cbn [negb].
    destruct (ls_copy_total (nr_elems payload) payload s') as [l El]; [done|].
    exists l. by rewrite (bind_run _ _ _ _ _ El).
  - intros names Hne Hn ->. rewrite (proj2 (Z.eqb_neq _ _) Hne). cbn [negb].
    by rewrite nr_elems_names, (bind_run _ _ _ _ _ (ls_copy_names names s' Hn)) by done.
Qed.

End Ops.

(** ** xenstored

    What a client may rely on: a map from paths to values that other clients change too,
    and transactions.  [envs] is what the others will make of the store, in order: before
    each answer some of it may have come about.  A transaction reads the store it started
    from and its own writes; it is committed only if the nodes it has touched are as
    they were, on top of whatever else has changed meanwhile, and otherwise, when the
    store has changed, answered with EAGAIN and forgotten. *)
Abbreviation node := (list Z) (only parsing).
Abbreviation nodes := (gmap (list Z) (list Z)).
Definition EAGAIN : list Z := [69; 65; 71; 65; 73; 78].
Record txn := Txn { snap : nodes; touched : gset (list Z); writes : nodes }.
Definition tx_view (t : txn) : nodes := writes t ∪ snap t.

(** The store after others have taken [k] steps. *)
Definition stored (k : nat) (st : nodes) (en : list nodes) : nodes := default st (last (take k en)).
Definition evolves (st : nodes) (en : list nodes) (st' : nodes) (en' : list nodes) : Prop :=
  exists k, en' = drop k en /\ st' = stored k st en.

Class Xenstored (S : Type) {T : XbTransport S} {X : XsTypes} := {
  store : S -> nodes;
  envs : S -> list nodes;
  tx : S -> gmap Z txn;
  write_law : forall s path v, exists ty rep s' st, ty <> XS_ERR /\
    msg_reply XS_WRITE XBT_NIL [path ++ [0]; v] s = Done ((ty, rep), s') /\
    evolves (store s) (envs s) st (envs s') /\ store s' = <[path := v]> st;
  read_law : forall s path, exists ty rep s', msg_reply XS_READ XBT_NIL [path ++ [0]] s = Done ((ty, rep), s') /\
    evolves (store s) (envs s) (store s') (envs s') /\ forall v, store s' !! path = Some v -> ty <> XS_ERR /\ rep = v;
  start_law : forall s, exists ty rep x s', ty <> XS_ERR /\
    msg_reply XS_TRANSACTION_START 0 [[0]] s = Done ((ty, rep), s') /\ strtoul10 rep = Done x /\ x <> XBT_NIL /\
    evolves (store s) (envs s) (store s') (envs s') /\ tx s' = <[x := Txn (store s') ∅ ∅]> (tx s);
  tx_read_law : forall s x t path v, x <> XBT_NIL -> tx s !! x = Some t -> tx_view t !! path = Some v ->
    exists ty s', ty <> XS_ERR /\ msg_reply XS_READ x [path ++ [0]] s = Done ((ty, v), s') /\
      evolves (store s) (envs s) (store s') (envs s') /\ tx s' = <[x := Txn (snap t) ({[path]} ∪ touched t) (writes t)]> (tx s);
  tx_write_law : forall s x t path v, x <> XBT_NIL -> tx s !! x = Some t ->
    exists ty rep s', ty <> XS_ERR /\ msg_reply XS_WRITE x [path ++ [0]; v] s = Done ((ty, rep), s') /\
      evolves (store s) (envs s) (store s') (envs s') /\ tx s' = <[x := Txn (snap t) ({[path]} ∪ touched t) (<[path := v]> (writes t))]> (tx s);
  end_law : forall s x t, x <> XBT_NIL -> tx s !! x = Some t ->
    exists ty rep s' st, msg_reply XS_TRANSACTION_END x [[84; 0]] s = Done ((ty, rep), s') /\ tx s' = delete x (tx s) /\
      evolves (store s) (envs s) st (envs s') /\
      ((ty <> XS_ERR /\ (forall p, p ∈ touched t -> st !! p = snap t !! p) /\ store s' = writes t ∪ st) \/
       (ty = XS_ERR /\ rep = EAGAIN ++ [0] /\ st <> snap t /\ store s' = st))
}.

Lemma evolves_refl st en : evolves st en st en.
Proof. by exists 0%nat. Qed.
Lemma evolves_trans st1 en1 st2 en2 st3 en3 : evolves st1 en1 st2 en2 -> evolves st2 en2 st3 en3 -> evolves st1 en1 st3 en3.
Proof.
  intros (j & -> & ->) (k & -> & ->). exists (j + k)%nat. rewrite drop_drop. split; [done|]. unfold stored.
  rewrite <- take_take_drop. destruct (last (take k (drop j en1))) as [m|] eqn:E.
  - rewrite last_app, E. done.
  - apply last_None in E. by rewrite E, app_nil_r.
Qed.
(** Either something has changed, and there is less to come, or nothing. *)
Lemma evolves_progress st en st' en' : evolves st en st' en' -> (length en' < length en)%nat \/ (st' = st /\ en' = en).
Proof.
  intros (k & -> & ->). destruct k as [|k]; [by right|]. destruct en as [|m en]; [by right|]. left. rewrite length_drop. cbn. lia.
Qed.
(** What holds of all the stores to come holds of the one that is reached. *)
Lemma evolves_all (P : nodes -> Prop) st en st' en' : evolves st en st' en' -> P st -> Forall P en -> P st' /\ Forall P en'.
Proof.
  intros (k & -> & ->) Hs He. split; [|by apply Forall_drop]. unfold stored. destruct (last (take k en)) as [m|] eqn:E; [|done].
  cbn. apply last_Some in E as [l E]. pose proof (Forall_take P k en He) as Hk. rewrite E, Forall_app, Forall_singleton in Hk. apply Hk.
Qed.

Section Store.
Context {S : Type} {T : XbTransport S} {X : XsTypes} {D : Xenstored S}.
Implicit Types s : S.

Lemma errmsg_ok ty (p : list Z) : ty <> XS_ERR -> errmsg (ty, p) = None.
Proof. intros H. unfold errmsg. cbn [fst]. by rewrite (proj2 (Z.eqb_neq _ _) H). Qed.
Lemma errmsg_err (p : list Z) : errmsg (XS_ERR, p) = Some (p ++ [0]).
Proof. unfold errmsg. cbn [fst]. by rewrite Z.eqb_refl. Qed.

Lemma simple_call_run type xbt io s ty rep s' : ty <> XS_ERR ->
  msg_reply type xbt io s = Done ((ty, rep), s') -> simple_call type xbt io s = Done (inr tt, s').
Proof. intros Hne E. unfold simple_call. by rewrite (bind_run _ _ _ _ _ E), errmsg_ok. Qed.
Lemma read_call_run type xbt path s ty rep s' : ty <> XS_ERR ->
  msg_reply type xbt [path ++ [0]] s = Done ((ty, rep), s') ->
  read_call type xbt path s = Done (inr (rep ++ [0]), s').
Proof. intros Hne E. unfold read_call. by rewrite (bind_run _ _ _ _ _ E), errmsg_ok. Qed.

Lemma xenbus_write_store path v s : envs s = [] -> exists s',
  xenbus_write XBT_NIL path v s = Done (inr tt, s') /\ store s' = <[path := v]> (store s) /\ envs s' = [].
Proof.
  intros He. destruct (write_law s path v) as (ty & rep & s' & st & Hne & E & Hev & Hs). exists s'.
  split; [by eapply simple_call_run|]. rewrite He in Hev. destruct (evolves_progress _ _ _ _ Hev) as [Hl|[-> ->]]; [cbn in Hl; lia|done].
Qed.

(** A value written with xenbus_write is what xenbus_read returns, byte for byte
    and with a NUL behind it, after any number of writes to other paths, if no other
    client writes. *)
Theorem xenbus_write_read path v others s : path ∉ others.*1 -> envs s = [] ->
  exists s1 s2 s3,
    xenbus_write XBT_NIL path v s = Done (inr tt, s1) /\
    mfor (fun p => _ <-- xenbus_write XBT_NIL p.1 p.2 ;; cret tt) others s1 = Done (tt, s2) /\
    xenbus_read XBT_NIL path s2 = Done (inr (v ++ [0]), s3).
Proof.
  intros Hni He. destruct (xenbus_write_store path v s He) as (s1 & E1 & Hs1 & He1).
  assert (Hm : exists s2, mfor (fun p => _ <-- xenbus_write XBT_NIL p.1 p.2 ;; cret tt) others s1 = Done (tt, s2) /\
    store s2 !! path = Some v /\ envs s2 = []).
  { assert (Hv : store s1 !! path = Some v) by (rewrite Hs1; apply lookup_insert_eq). clear Hs1 E1.
    revert s1 Hv He1. induction others as [|[p w] others IH]; intros s1 Hv He1; [by exists s1|]. cbn [mfor].
    destruct (xenbus_write_store p w s1 He1) as (s1' & E & Hs' & He1').
    rewrite (bind_run _ _ _ _ s1' (bind_run _ _ _ _ _ E)).
    apply IH; [cbn in Hni; set_solver| |done]. rewrite Hs', lookup_insert_ne; [done|]. cbn in Hni. set_solver. }
  destruct Hm as (s2 & E2 & Hv2 & He2). destruct (read_law s2 path) as (ty & rep & s3 & E3 & Hev & Hr). rewrite He2 in Hev.
  destruct (evolves_progress _ _ _ _ Hev) as [Hl|[Est _]]; [cbn in Hl; lia|]. rewrite Est in Hr. destruct (Hr v Hv2) as [Hne ->].
  exists s1, s2, s3. split_and!; [done..|]. by eapply read_call_run.
Qed.

(** ** xenbus_switch_state *)
Lemma digit_print st : 0 <= st <= 9 -> sprint 2 [37; 100] [VInt st] = Done (1, [48 + st]).
Proof.
  intros H. assert (Hc : st = 0 \/ st = 1 \/ st = 2 \/ st = 3 \/ st = 4 \/ st = 5 \/ st = 6 \/ st = 7 \/ st = 8 \/ st = 9) by lia.
  repeat (destruct Hc as [-> | Hc]; [by vm_compute|]). subst st. by vm_compute.
Qed.

Abbreviation evolved s s' := (evolves (store s) (envs s) (store s') (envs s')).
Lemma transaction_start_run s : exists x s', xenbus_transaction_start s = Done (inr x, s') /\ x <> XBT_NIL /\
  evolved s s' /\ tx s' = <[x := Txn (store s') ∅ ∅]> (tx s).
Proof.
  destruct (start_law s) as (ty & rep & x & s' & Hne & E & Ep & Hx & H). exists x, s'. split; [|done].
  unfold xenbus_transaction_start. rewrite (bind_run _ _ _ _ _ E), errmsg_ok by done.
  unfold cbind, lift_res. cbn [snd]. by rewrite Ep.
Qed.

Lemma transaction_end_run s x t : x <> XBT_NIL -> tx s !! x = Some t -> exists (retry : bool) s' st,
  xenbus_transaction_end x false s = Done ((None, retry), s') /\ tx s' = delete x (tx s) /\ evolves (store s) (envs s) st (envs s') /\
  if retry then st <> snap t /\ store s' = st
  else (forall p, p ∈ touched t -> st !! p = snap t !! p) /\ store s' = writes t ∪ st.
Proof.
  intros Hx Hm. destruct (end_law s x t Hx Hm) as (ty & rep & s' & st & E & Ht & Hev & [(Hne & H1 & H2)|(-> & -> & H1 & H2)]).
  - exists false, s', st. split_and!; try done. unfold xenbus_transaction_end. by rewrite (bind_run _ _ _ _ _ E), errmsg_ok.
  - exists true, s', st. split_and!; try done. unfold xenbus_transaction_end. by rewrite (bind_run _ _ _ _ _ E), errmsg_err.
Qed.

(** What switching the node does to a store in which its value starts with [c]. *)
Definition switched (path : list Z) (state c : Z) (m : nodes) : nodes :=
  if char_of c - 48 =? state then m else <[path := [48 + state]]> m.
(** The node is there and not empty. *)
Definition has_node (path : list Z) (m : nodes) : Prop := exists c v, m !! path = Some (c :: v).

Lemma state_of_run (c : Z) v s : state_of ((c :: v) ++ [0]) s = Done (char_of c - 48, s).
Proof. reflexivity. Qed.

(** The body of a transaction that started from a store with the node. *)
Definition body_txn (path : list Z) (state c : Z) (b : nodes) : txn :=
  if char_of c - 48 =? state then Txn b ({[path]} ∪ ∅) ∅ else Txn b ({[path]} ∪ ({[path]} ∪ ∅)) (<[path := [48 + state]]> ∅).
Lemma switch_body_run path state c v x s b : 0 <= state <= 9 -> x <> XBT_NIL -> tx s !! x = Some (Txn b ∅ ∅) -> b !! path = Some (c :: v) ->
  exists s', (r <-- xenbus_read x path ;;
    match r with
    | inl msg => cret (Some msg)
    | inr current_state =>
        rs <-- state_of current_state ;;
        if rs =? state then cret None
        else '(_, value) <-- lift_res (sprint 2 [37; 100] [VInt state]) ;;
             w <-- xenbus_write x path value ;;
             cret (match w with inl m => Some m | inr _ => None end)
    end) s = Done (@None (list Z), s') /\ evolved s s' /\ tx s' = <[x := body_txn path state c b]> (tx s).
Proof.
  intros Hst Hx Ht Hv. assert (Hv1 : tx_view (Txn b ∅ ∅) !! path = Some (c :: v)) by (unfold tx_view; cbn; by rewrite map_empty_union).
  destruct (tx_read_law s x _ path _ Hx Ht Hv1) as (ty & s2 & Hne & E2 & Hev2 & Ht2). cbn [snap touched writes] in Ht2.
  assert (Er : xenbus_read x path s = Done (inr ((c :: v) ++ [0]), s2)) by (by eapply read_call_run).
  unfold body_txn. destruct (char_of c - 48 =? state) eqn:Ec.
  - exists s2. split_and!; [|done|done]. rewrite (bind_run _ _ _ _ _ Er). cbv beta iota. by rewrite (bind_run _ _ _ _ _ (state_of_run c v s2)), Ec.
  - destruct (tx_write_law s2 x (Txn b ({[path]} ∪ ∅) ∅) path [48 + state] Hx ltac:(rewrite Ht2; apply lookup_insert_eq)) as (ty3 & rep3 & s3 & Hne3 & E3 & Hev3 & Ht3).
    cbn [snap touched writes] in Ht3. exists s3. split_and!; [|by eapply evolves_trans|by rewrite Ht3, Ht2, insert_insert_eq].
    assert (Ew : xenbus_write x path [48 + state] s2 = Done (inr tt, s3)) by (by eapply simple_call_run).
    rewrite (bind_run _ _ _ _ _ Er). cbv beta iota. rewrite (bind_run _ _ _ _ _ (state_of_run c v s2)), Ec.
    erewrite bind_run by (unfold lift_res; rewrite digit_print by done; reflexivity). cbv beta iota. by rewrite (bind_run _ _ _ _ _ Ew).
Qed.

(** One round: committed on the store of the moment, or to be tried again with less
    to come. *)
Definition round_done (path : list Z) (state : Z) s (r : (Z * bool) + option (list Z)) s' : Prop :=
  tx s' ⊆ tx s /\
  match r with
  | inr msg => msg = None /\ exists st c v, evolves (store s) (envs s) st (envs s') /\ st !! path = Some (c :: v) /\ store s' = switched path state c st
  | inl l => l = (XBT_NIL, true) /\ evolved s s' /\ (length (envs s') < length (envs s))%nat
  end.
Lemma switch_round_run path state flag s : 0 <= state <= 9 -> has_node path (store s) -> Forall (has_node path) (envs s) ->
  wp (switch_round path state (XBT_NIL, flag)) (round_done path state s) s.
Proof.
  intros Hst Hs He. destruct (transaction_start_run s) as (x & s1 & E1 & Hx & Hev1 & Ht1).
  destruct (evolves_all (has_node path) _ _ _ _ Hev1 Hs He) as [(c & v & Hv) He1].
  destruct (switch_body_run path state c v x s1 (store s1) Hst Hx ltac:(rewrite Ht1; apply lookup_insert_eq) Hv) as (s2 & E2 & Hev2 & Ht2).
  destruct (transaction_end_run s2 x (body_txn path state c (store s1)) Hx ltac:(rewrite Ht2; apply lookup_insert_eq)) as (retry & s3 & st & E3 & Ht3 & Hev3 & Hc).
  assert (Hsub : tx s3 ⊆ tx s) by (rewrite Ht3, Ht2, Ht1, insert_insert_eq, delete_insert_eq; apply delete_subseteq).
  eapply run_wp.
  { unfold switch_round. cbn [Z.eqb XBT_NIL]. erewrite bind_run by (rewrite (bind_run _ _ _ _ _ E1); reflexivity). cbv beta iota.
    erewrite bind_run by exact E2. cbv beta iota. rewrite (bind_run _ _ _ _ _ E3). reflexivity. }
  split; [done|]. pose proof (evolves_trans _ _ _ _ _ _ Hev2 Hev3) as Hev23. destruct retry.
  - destruct Hc as [Hne ->]. split; [done|]. split; [by eapply evolves_trans|].
    assert (Esn : snap (body_txn path state c (store s1)) = store s1) by (unfold body_txn; by case_match). rewrite Esn in Hne.
    destruct (evolves_progress _ _ _ _ Hev23) as [Hl|[-> _]]; [|done]. destruct (evolves_progress _ _ _ _ Hev1) as [Hl1|[_ <-]]; lia.
  - destruct Hc as [Hsame ->]. split; [done|]. exists st, c, v. split; [by eapply evolves_trans|].
    assert (Epath : st !! path = store s1 !! path).
    { rewrite Hsame; [unfold body_txn; by case_match|]. unfold body_txn. case_match; cbn [touched]; set_solver. }
    split; [congruence|]. unfold switched, body_txn. case_match; cbn [writes]; [by rewrite map_empty_union|].
    by rewrite <- insert_union_l, map_empty_union.
Qed.

(** C34. xenbus_switch_state returns and has its effect, whatever other clients do to the
    store meanwhile as long as they leave the node there, and however often its commit
    loses against them: at the moment of the commit that is taken the store is some
    [st] that the others have made of it; if the node's state there is the new one
    already the store stays [st], otherwise it is [st] with the new state's digit in
    the node; no transaction is left open. *)
Theorem xenbus_switch_state_commits path state s :
  0 <= state <= 9 -> has_node path (store s) -> Forall (has_node path) (envs s) -> Z.of_nat (length (envs s)) < 2 ^ 63 ->
  wp (xenbus_switch_state XBT_NIL path state)
    (fun r s' => r = None /\ tx s' ⊆ tx s /\ exists st c v, evolves (store s) (envs s) st (envs s') /\
       st !! path = Some (c :: v) /\ store s' = switched path state c st) s.
Proof.
  intros Hst Hs He Hc. unfold xenbus_switch_state.
  apply wp_loop_variant with (k := Z.of_nat (length (envs s)))
    (I := fun l s' k => l.1 = XBT_NIL /\ evolved s s' /\ tx s' ⊆ tx s /\ k = Z.of_nat (length (envs s')));
    [| |lia].
  2:{ split_and!; try done. apply evolves_refl. }
  intros [x flag] s' k (Hx & Hev & Ht & ->). cbn [fst] in Hx. subst x. split; [lia|].
  destruct (evolves_all (has_node path) _ _ _ _ Hev Hs He) as [Hs' He'].
  eapply wp_mono; [by apply switch_round_run|]. intros [l|msg] s2 [Ht2 H].
  - destruct H as (-> & Hev2 & Hl). exists (Z.of_nat (length (envs s2))). split_and!; [done|by eapply evolves_trans|by etrans|done|lia|lia].
  - destruct H as (-> & st & c & v & Hev2 & Hv & Hst'). split; [done|]. split; [by etrans|]. exists st, c, v. split; [by eapply evolves_trans|done].
Qed.

End Store.

(** The flag of xenbus_switch_state outlives its transaction: when a commit has
    to be retried and the new transaction cannot be started, the loop commits
    transaction 0, which it never opened, before it reports the error; in the
    first round the same failure is reported at once. *)
Theorem switch_state_ends_unopened {S} {T : XbTransport S} {X : XsTypes} path state (s : S) e s1 :
  msg_reply XS_TRANSACTION_START 0 [[0]] s = Done ((XS_ERR, e), s1) ->
  switch_round path state (XBT_NIL, false) s = Done (inr (Some (e ++ [0])), s1) /\
  switch_round path state (XBT_NIL, true) s =
    ('(_, retry) <-- xenbus_transaction_end XBT_NIL false ;;
     cret (if retry : bool then inl (XBT_NIL, true) else inr (Some (e ++ [0])))) s1.
Proof.
  intros E. assert (Es : xenbus_transaction_start s = Done (inl (e ++ [0]), s1)).
  { unfold xenbus_transaction_start. by rewrite (bind_run _ _ _ _ _ E), errmsg_err. }
  split; unfold switch_round; cbn [Z.eqb XBT_NIL]; erewrite bind_run by (rewrite (bind_run _ _ _ _ _ Es); reflexivity);
    cbv beta iota; [done|]. erewrite bind_run by reflexivity. done.
Qed.

(** ** A reference xenstored: others change the store when a transaction ends *)
Record srv := Srv { sv_store : nodes; sv_tx : gmap Z txn; sv_envs : list nodes; sv_watches : list xbwatch }.
#[local] Instance ref_types : XsTypes := {|
  XS_DEBUG := 0; XS_DIRECTORY := 1; XS_READ := 2; XS_GET_PERMS := 3; XS_WATCH := 4; XS_UNWATCH := 5;
  XS_TRANSACTION_START := 6; XS_TRANSACTION_END := 7; XS_WRITE := 11; XS_RM := 13; XS_SET_PERMS := 14; XS_ERR := 16 |}.

Definition ENOENT : list Z := [69; 78; 79; 69; 78; 84].
Definition failing (e : list Z) : M srv (Z * list Z) := cret (16, e ++ [0]).
Definition path_of (bs : list Z) : list Z := take (pred (length bs)) bs.
Definition conflict (t : txn) (st : nodes) : bool := bool_decide (exists p, p ∈ touched t /\ st !! p <> snap t !! p).
Definition set_tx (x : Z) (t : txn) (s : srv) : srv := Srv (sv_store s) (<[x := t]> (sv_tx s)) (sv_envs s) (sv_watches s).
Definition serve_end (x : Z) (t : txn) : M srv (Z * list Z) :=
  s <-- mget ;;
  let st := stored 1 (sv_store s) (sv_envs s) in
  let commit := negb (conflict t st) in
  mput (Srv (if commit then writes t ∪ st else st) (delete x (sv_tx s)) (drop 1 (sv_envs s)) (sv_watches s)) ;;;
  cret (if commit then (7, [79; 75; 0]) else (16, EAGAIN ++ [0])).
Definition serve_one (type xbt : Z) (io : list (list Z)) : M srv (Z * list Z) :=
  s <-- mget ;;
  if xbt =? 0 then
    match io with
    | [p] => if type =? 2 then match sv_store s !! path_of p with Some v => cret (2, v) | None => failing ENOENT end
             else if type =? 1 then cret (1, encode_dir [[118; 105; 102]; []; [118; 98; 100]])
             else if type =? 6 then mput (set_tx 1 (Txn (sv_store s) ∅ ∅) s) ;;; cret (6, [49; 0])
             else failing ENOENT
    | [p; v] => if type =? 11 then mput (Srv (<[path_of p := v]> (sv_store s)) (sv_tx s) (sv_envs s) (sv_watches s)) ;;; cret (11, [79; 75; 0]) else failing ENOENT
    | _ => failing ENOENT
    end
  else
    match sv_tx s !! xbt, io with
    | Some t, [p] => if type =? 2 then mput (set_tx xbt (Txn (snap t) ({[path_of p]} ∪ touched t) (writes t)) s) ;;;
                         match tx_view t !! path_of p with Some v => cret (2, v) | None => failing ENOENT end
                     else if type =? 7 then serve_end xbt t else failing ENOENT
    | Some t, [p; v] => if type =? 11 then mput (set_tx xbt (Txn (snap t) ({[path_of p]} ∪ touched t) (<[path_of p := v]> (writes t))) s) ;;; cret (11, [79; 75; 0])
                        else failing ENOENT
    | _, _ => failing ENOENT
    end.
#[local] Instance ref_transport : XbTransport srv := {|
  msg_reply := serve_one; watch_list := sv_watches;
  set_watch_list ws s := Srv (sv_store s) (sv_tx s) (sv_envs s) ws;
  wait_for_watch _ := cret tt; watch_alloc := cret 1 |}.

Lemma path_of_snoc p : path_of (p ++ [0]) = p.
Proof. unfold path_of. rewrite length_app, Nat.add_1_r. cbn [pred]. apply take_app_length. Qed.

#[local] Program Instance ref_xenstored : Xenstored srv := {| store := sv_store; envs := sv_envs; tx := sv_tx |}.
Next Obligation.
  intros s path v. exists 11, [79; 75; 0], (Srv (<[path := v]> (sv_store s)) (sv_tx s) (sv_envs s) (sv_watches s)), (sv_store s).
  split_and!; [done| |apply evolves_refl|done]. cbn. unfold serve_one, cbind, mget. cbn. by rewrite path_of_snoc.
Qed.
Next Obligation.
  intros s path. cbn. unfold serve_one, cbind, mget. cbn. rewrite path_of_snoc. destruct (sv_store s !! path) as [v|] eqn:E.
  - exists 2, v, s. split_and!; [done|apply evolves_refl|]. intros w [= <-]%(eq_trans (eq_sym E)). done.
  - exists 16, (ENOENT ++ [0]), s. split_and!; [done|apply evolves_refl|]. intros w Hw. congruence.
Qed.
Next Obligation. intros s. exists 6, [49; 0], 1, (set_tx 1 (Txn (sv_store s) ∅ ∅) s). split_and!; try done. apply evolves_refl. Qed.
Next Obligation.
  intros s x t path v Hx Ht Hv. exists 2, (set_tx x (Txn (snap t) ({[path]} ∪ touched t) (writes t)) s). split; [done|]. split; [|split; [apply evolves_refl|done]].
  - cbn. unfold serve_one, cbind, mget. change XBT_NIL with 0 in Hx. rewrite (proj2 (Z.eqb_neq _ _) Hx), Ht. cbn. by rewrite path_of_snoc, Hv.
Qed.
Next Obligation.
  intros s x t path v Hx Ht. exists 11, [79; 75; 0], (set_tx x (Txn (snap t) ({[path]} ∪ touched t) (<[path := v]> (writes t))) s). split; [done|]. split; [|split; [apply evolves_refl|done]].
  - cbn. unfold serve_one, cbind, mget. change XBT_NIL with 0 in Hx. rewrite (proj2 (Z.eqb_neq _ _) Hx), Ht. cbn. by rewrite path_of_snoc.
Qed.
Next Obligation.
  intros s x t Hx Ht. cbn. unfold serve_one, serve_end, cbind, mget. change XBT_NIL with 0 in Hx. rewrite (proj2 (Z.eqb_neq _ _) Hx), Ht. cbn -[stored drop].
  set (st := stored 1 (sv_store s) (sv_envs s)). destruct (conflict t st) eqn:Ec; cbn -[drop].
  - eexists _, _, _, st. split; [reflexivity|]. split; [done|]. split; [by exists 1%nat|]. right. split_and!; [done..| |done].
    apply bool_decide_eq_true in Ec as (p & _ & Hp). by intros E; rewrite E in Hp.
  - eexists _, _, _, st. split; [reflexivity|]. split; [done|]. split; [by exists 1%nat|]. left. split_and!; [done| |done].
    intros p Hp. apply bool_decide_eq_false in Ec. apply dec_stable. intros Hn. apply Ec. by exists p.
Qed.

(** One that refuses everything. *)
#[local] Instance refusing_transport : XbTransport Z := {|
  msg_reply _ _ _ := cret (16, ENOENT ++ [0]); watch_list _ := []; set_watch_list _ s := s;
  wait_for_watch _ := cret tt; watch_alloc := cret 1 |}.

(** ** Witnesses *)
Definition state_path : list Z := [47; 115].
Definition srv0 (en : list nodes) : srv := Srv {[ state_path := [49] ]} ∅ en [].

Lemma xenbus_ls_roundtrip_witness :
  xenbus_ls 0 [47] (srv0 []) = Done (inr [[118; 105; 102]; []; [118; 98; 100]], srv0 []).
Proof.
  apply (xenbus_ls_roundtrip 0 [47] (srv0 []) 1 (encode_dir [[118; 105; 102]; []; [118; 98; 100]]) (srv0 [])).
  - reflexivity.
  - done.
  - rewrite !Forall_cons. split_and!; try apply Forall_nil, I; unfold no_nul; repeat constructor; done.
  - done.
Defined.

Lemma xenbus_write_read_witness : exists s1 s2 s3,
  xenbus_write XBT_NIL state_path [52; 50] (srv0 []) = Done (inr tt, s1) /\
  mfor (fun p => _ <-- xenbus_write XBT_NIL p.1 p.2 ;; cret tt) [([47; 116], [57]); ([47], [])] s1 = Done (tt, s2) /\
  xenbus_read XBT_NIL state_path s2 = Done (inr [52; 50; 0], s3).
Proof. apply (xenbus_write_read state_path [52; 50] [([47; 116], [57]); ([47], [])] (srv0 [])); [set_solver|reflexivity]. Defined.

(** On the way from state 1 to state 4 others first set the node to 2 and then to 4
    themselves, with another node beside it. *)
Definition others : list nodes := [{[ state_path := [50] ]}; {[ state_path := [52]; [47] := [] ]}].
Lemma xenbus_switch_state_commits_witness :
  wp (xenbus_switch_state XBT_NIL state_path 4)
    (fun r s' => r = None /\ tx s' ⊆ tx (srv0 others) /\ exists st c v, evolves (store (srv0 others)) (envs (srv0 others)) st (envs s') /\
       st !! state_path = Some (c :: v) /\ store s' = switched state_path 4 c st) (srv0 others).
Proof.
  apply (xenbus_switch_state_commits state_path 4 (srv0 others)); [lia|by exists 49, []| |reflexivity].
  apply Forall_cons_2; [by exists 50, []|]. apply Forall_cons_2; [by exists 52, []|constructor].
Defined.

(** ** Tokens *)
(** Tokens that differ only in their last character are one token to this code:
    an event for one is delivered to a watch registered under the other when that
    watch comes first in the list, and taking down the one removes the other. *)
Theorem watch_misdelivered (l : list Z) (x y a q : Z) (ws : list xbwatch) (s : xb) :
  Forall (fun b => 0 < b < 256) l -> 0 < x < 256 -> 0 < y < 256 -> x <> y -> Z.of_nat (length l) < 2 ^ 62 ->
  find_watch (l ++ [x]) (XWatch a (Some (l ++ [y])) q :: ws) s = Done (Some (XWatch a (Some (l ++ [y])) q), s) /\
  unwatch_first (l ++ [x]) (XWatch a (Some (l ++ [y])) q :: ws) = Done ws.
Proof.
  intros Hl Hx Hy Hne Hlen. pose proof (strcmp_same_up_to_last l x y Hl Hx Hy Hne Hlen) as E.
  split; cbn [find_watch unwatch_first xw_token mopt]; [|by rewrite E].
  unfold cbind, cret, lift_res. by rewrite E.
Qed.

Lemma switch_state_ends_unopened_witness :
  @switch_round _ refusing_transport ref_types state_path 4 (XBT_NIL, false) 5 = Done (inr (Some (ENOENT ++ [0; 0])), 5) /\
  @switch_round _ refusing_transport ref_types state_path 4 (XBT_NIL, true) 5 =
    ('(_, retry) <-- @xenbus_transaction_end _ refusing_transport ref_types XBT_NIL false ;;
     cret (if retry : bool then inl (XBT_NIL, true) else inr (Some (ENOENT ++ [0; 0])))) 5.
Proof. apply (@switch_state_ends_unopened _ refusing_transport ref_types state_path 4 5 (ENOENT ++ [0]) 5). reflexivity. Defined.

(** Two devices' tokens: backend-0 and backend-1 would do as well. *)
Lemma watch_misdelivered_witness s :
  find_watch [100; 48] [XWatch 1 (Some [100; 49]) 7; XWatch 2 (Some [100; 48]) 8] s = Done (Some (XWatch 1 (Some [100; 49]) 7), s).
Proof.
  apply (watch_misdelivered [100] 48 49 1 7 [XWatch 2 (Some [100; 48]) 8] s); try lia; [|done].
  apply Forall_singleton. lia.
Defined.
